(* ===== verification/_CoqProject ===== *)
-Q . S2P
Prelude.v
Bitmap.v
Buddy.v
Pages.v
Layout.v
Region.v
Xxh3.v
Header.v
PageManager.v
Recovery.v
Tracker.v
Types.v
KeyOrder.v
Catalog.v
Leaf.v
LeafTheorems.v
Branch.v
PageStore.v
Mutator.v
Trees.v
Building.v
Insertion.v
Deletion.v
Btrees.v
Lookup.v
Sealing.v
Store.v
BtreeTheorems.v
Cursors.v
Gaps.v
Ranges.v
Lru.v
CachedFile.v
Coherence.v
CacheTheorems.v
