(* ===== verification/Prelude.v ===== *)
(** * A verification of the storage engine of redb

    redb is an embedded key-value store (src/src).  A database is one file: a
    header with two commit slots, and regions of pages.  Pages are handed out
    by a buddy allocator per region and hold the nodes of copy-on-write
    B-trees; a commit writes the new root to the slot that is not in use.  This
    development models the page store, the encodings of keys and values, the
    B-trees, from the bits of the allocator upwards, the caches of the file, and
    the bookkeeping of transactions.

    ** How the code is modelled

    A function of the source is a function here, with the name it has there;
    a method that changes [self] returns the new state.  A computation that
    can panic has the type [outcome]: a failed [assert!], [debug_assert!] or
    [unwrap], an index out of range and an arithmetic overflow are [Panic].  A
    theorem that a call is [Ret _] therefore says that it panics in no build,
    and that no arithmetic in it wraps in builds that do not check for it.
    [Result] is [result], [Option] is [option].  Machine integers are [Z] with
    their range written out, bytes are [Z] below 256, slices and vectors are
    lists, hash maps are finite maps.  Loops over ranges are [for_each]; loops
    that are not structural have fuel, and the theorems about them show that
    the fuel is enough.

    ** The files

    - [Prelude]: panicking computations, machine integers, vectors, slices,
      little-endian bytes, and the lemmas and tactics every file shares.
    - [Bitmap]: [U64GroupedBitmap] and [BtreeBitmap]
      (tree_store/page_store/bitmap.rs).  For every sequence of calls the
      64-way tree of bitmaps returns what a plain list of bits returns; its
      bytes read back as the tree.
    - [Buddy]: [BuddyAllocator] (page_store/buddy_allocator.rs).  It refines a
      set of pages with an allocation that fails only if no block is free;
      every reachable allocator passes its own consistency check.
    - [Pages]: [PageNumber] and [PageTrackerPolicy] (page_store/base.rs).
    - [Layout]: [RegionLayout] and [DatabaseLayout] (page_store/layout.rs).
    - [Region]: [RegionTracker] and [Allocators] (page_store/region.rs).
    - [Xxh3]: the hash of pages and commit slots (page_store/xxh3.rs), with its
      AVX2 and NEON versions, which are shown to agree.
    - [Header]: the header and its commit slots (page_store/header.rs), its
      encoding, its checks and the choice of the slot to open.
    - [PageManager]: [TransactionalMemory] and [PageAllocator]
      (page_store/page_manager.rs): allocation over all regions, growing and
      shrinking the file, the commit protocol, repair and rollback.  The file
      is the trace of the operations on it, and an oracle says which of them
      fail.
    - [Recovery]: creating and opening a file, and what a crash during a commit
      leaves of its header and its length, on media that tear a write at any byte
      and may lose what was not flushed.  The layout fields of the header are not
      protected against tearing: the theorem says which of the files that a crash
      can leave are opened, to the old or the new commit, and which are refused.
    - [Tracker]: [TransactionTracker] (transaction_tracker.rs).  Its counters
      refine a ledger that keeps the references of readers and savepoints apart
      from those of pending commits, and threads that write take turns.
    - [Types]: the encodings, type names and key orders of the built-in types
      (types.rs, tuple_types.rs, complex_types.rs).  [Value] and [Key] are
      classes as they are traits in the source.
    - [KeyOrder]: the class [ByteOrder], what a key type promises to the pages
      of a B-tree; any type with the laws of values and keys has it, and so has
      every built-in type.
    - [Catalog]: what the system tables store: definitions of tables
      (tree_store/table_tree_base.rs), savepoints (page_store/savepoint.rs), page
      lists and the keys of the system tables (transactions.rs, table_tree.rs).
    - [Leaf], [LeafTheorems]: leaf pages (tree_store/btree_base.rs):
      [LeafAccessor], [LeafBuilder], [RawLeafBuilder] and [LeafMutator] on the
      bytes of a page.  Every operation is the list operation on the pairs the
      page holds, and the functions that say whether a change fits in place
      are exact.
    - [Branch]: branch pages (btree_base.rs): [BranchAccessor],
      [BranchBuilder], [RawBranchBuilder] and [BranchMutator].
    - [PageStore]: the classes [PageStore], what the trees use of the pages of
      a transaction, and [PageStoreLaws], what they rely on; the monad of the
      trees, a program logic for it ([runs]), and [evolves], what a step may do
      to the pages: copy on write, no page lost and none freed twice.
    - [Mutator]: [MutateHelper] (btree_mutator.rs) and the guards of values.
    - [Trees]: sorted lists of pairs as finite maps, and what it means that
      pages form a tree with these pairs.
    - [Building], [Insertion], [Deletion]: the pages that builders make, and
      that insertion and deletion keep the tree and are the operations of the
      map.
    - [Btrees]: [BtreeMut], [Btree], [RawBtree], [UntypedBtree] and
      [UntypedBtreeMut] (btree.rs) and [AccessGuardMut].
    - [Lookup], [Sealing]: lookups and walks over the pages; the checksums of
      pages and their verification.
    - [Store]: the pages of a transaction, [PageAllocator] over
      [TransactionalMemory], keep the promises of [PageStoreLaws].
    - [BtreeTheorems]: the properties of the trees, for any store of pages and
      any type of keys with these promises.
    - [Cursors]: [Cursor] (tree_store/btree_cursor.rs), [BtreeCursorRange]
      (btree_cursor_range.rs) and the iterator over pages (btree_iters.rs).
    - [Gaps], [Ranges]: a cursor is at a gap between two pairs; iterating from
      both ends takes the pairs within the bounds, and the pages of a tree.
    - [Lru]: [LRUCache] (page_store/lru_cache.rs), and a queue of it that grows
      without bound.
    - [CachedFile]: the file under the page store: the trait [StorageBackend]
      (db.rs), [InMemoryBackend] and [ReadOnlyBackend] (page_store/backends.rs),
      and [CheckedBackend], [LRUWriteCache] and [PagedCachedFile]
      (page_store/cached_file.rs).
    - [Coherence], [CacheTheorems]: the class [BackendLaws], what a backend
      promises, with its instance for the backend in memory; the file with its
      caches refines an array of bytes, and the caches keep to their memory.

    ** Bounds

    Offsets in leaf pages are [u32]; the theorems on leaf pages assume that the
    pairs of a page take less than 4 GiB, and the theorem on splits that all
    pairs of the builder do.  The theorems on trees assume that any 65535
    consecutive pairs fit in the largest page, which the region and 4 GiB bound
    ([runs_fit]), and that 65535 separators do; the theorem on sequences of
    requests states this as a bound on the lengths of keys and values, about
    64 KiB together for regions of 4 GiB.  A tree of height [h] needs fuel
    [h + 1] for a descent and for a step of a cursor, and room for [3 h + 3] new pages for a change.  The
    searches have as much fuel as the range they search is long.

    Crashes of commits are for pages of at most 4096 bytes, the size that the
    database uses.

    ** Not modelled

    - The system calls of file_backend and the hasher of fast_hash.rs: a backend
      is a parameter with laws, a hash map a finite map with an arbitrary order of
      iteration.  The page manager is modelled over the operations it issues, not
      over the caches; the requests of a session in [CacheTheorems] are the
      calls that it makes.
    - Locks and atomics: a thread runs alone, except in [Tracker], where threads
      that write wait for each other.
    - The mutable cursors of the B-trees with extract_if and retain, the tree of
      tables and multimap tables, transactions and the public interface in db.rs,
      table.rs and multimap_table.rs.
    - The pages that a crash during a one-phase commit leaves: [Recovery] shows
      which commit the header selects; whether its pages are intact is what the
      checksums decide ([BtreeTheorems]).
    - A panic of a caller between operations, and threads that borrow a page
      while another operation runs: every borrow ends before the next call.
    - MutInPlaceValue, the optional chrono and uuid types, printing and
      statistics, the Python bindings, the derive macro, benchmarks and fuzz
      targets. *)
From stdpp Require Export base option list numbers fin_maps gmap.
Open Scope Z_scope.

(** ** Panicking computations *)

(** A Rust computation that returns a value or panics.  A panic is a failed
    [assert!], [debug_assert!] or [unwrap], an index out of range, or an
    arithmetic overflow. *)
Inductive outcome (A : Type) : Type :=
| Ret (a : A)
| Panic.
Arguments Ret {A} a.
Arguments Panic {A}.

#[export] Instance outcome_ret : MRet outcome := fun A a => Ret a.
#[export] Instance outcome_bind : MBind outcome :=
  fun A B f m => match m with Ret a => f a | Panic => Panic end.
#[export] Instance outcome_fmap : FMap outcome :=
  fun A B f m => match m with Ret a => Ret (f a) | Panic => Panic end.

(** [assert!(b)] *)
Definition rassert (b : bool) : outcome unit := if b then Ret tt else Panic.

(** [Option::unwrap] and [Option::expect] *)
Definition unwrap {A} (o : option A) : outcome A :=
  match o with Some a => Ret a | None => Panic end.

(** [Result<A, E>] *)
Inductive result (A E : Type) : Type :=
| Okay (a : A)
| Err (e : E).
Arguments Okay {A E} a.
Arguments Err {A E} e.

(** ** Unsigned integers

    A [w]-bit unsigned integer is a [Z] in [0 .. 2^w - 1]; arithmetic that
    leaves the range panics, as it does in builds with overflow checks.  A
    theorem that an operation returns therefore also says that no arithmetic
    in it wraps in builds without those checks. *)
Definition umax (w : Z) : Z := 2 ^ w - 1.
Definition in_u (w x : Z) : Prop := 0 <= x < 2 ^ w.
Definition uadd (w a b : Z) : outcome Z :=
  if a + b <? 2 ^ w then Ret (a + b) else Panic.
Definition usub (a b : Z) : outcome Z :=
  if b <=? a then Ret (a - b) else Panic.
Definition umul (w a b : Z) : outcome Z :=
  if a * b <? 2 ^ w then Ret (a * b) else Panic.
(** [a / b], which panics on a zero divisor *)
Definition udiv (a b : Z) : outcome Z := if b =? 0 then Panic else Ret (a / b).
(** [try_into().unwrap()] into a [w]-bit unsigned integer *)
Definition utry (w a : Z) : outcome Z :=
  if (0 <=? a) && (a <? 2 ^ w) then Ret a else Panic.
(** [!x] on a [w]-bit unsigned integer *)
Definition unot (w x : Z) : Z := Z.lxor x (umax w).
(** [u32::div_ceil] and [usize::div_ceil] *)
Definition div_ceil (a b : Z) : Z := if a mod b =? 0 then a / b else a / b + 1.
(** [saturating_sub] *)
Definition saturating_sub (a b : Z) : Z := Z.max 0 (a - b).

(** [trailing_ones], the low bits of [x] that are set, at most [fuel] *)
Fixpoint trailing_ones (fuel : nat) (x : Z) : Z :=
  match fuel with
  | O => 0
  | S f => if Z.testbit x 0 then 1 + trailing_ones f (Z.shiftr x 1) else 0
  end.
(** [trailing_zeros], at most [fuel] *)
Fixpoint trailing_zeros (fuel : nat) (x : Z) : Z :=
  match fuel with
  | O => 0
  | S f => if Z.testbit x 0 then 0 else 1 + trailing_zeros f (Z.shiftr x 1)
  end.
(** [count_zeros] of a word of [fuel] bits *)
Fixpoint count_zeros (fuel : nat) (x : Z) : Z :=
  match fuel with
  | O => 0
  | S f => (if Z.testbit x 0 then 0 else 1) + count_zeros f (Z.shiftr x 1)
  end.

(** ** Vectors and slices *)

(** [v[i]] *)
Definition vget {A} (l : list A) (i : Z) : outcome A :=
  if 0 <=? i then unwrap (l !! Z.to_nat i) else Panic.
(** [v[i] = x] *)
Definition vset {A} (l : list A) (i : Z) (x : A) : outcome (list A) :=
  if (0 <=? i) && (i <? Z.of_nat (length l)) then Ret (<[Z.to_nat i := x]> l) else Panic.
(** [v.len()] *)
Definition vlen {A} (l : list A) : Z := Z.of_nat (length l).
(** [&v[a..b]] *)
Definition slice {A} (l : list A) (a b : Z) : outcome (list A) :=
  if (0 <=? a) && (a <=? b) && (b <=? vlen l)
  then Ret (take (Z.to_nat (b - a)) (drop (Z.to_nat a) l)) else Panic.
(** [&v[a..]] *)
Definition slice_from {A} (l : list A) (a : Z) : outcome (list A) := slice l a (vlen l).
(** [v[a..a + src.len()].copy_from_slice(src)] *)
Definition splice {A} (l : list A) (a : Z) (src : list A) : outcome (list A) :=
  if (0 <=? a) && (a + vlen src <=? vlen l)
  then Ret (take (Z.to_nat a) l ++ src ++ drop (Z.to_nat a + length src) l) else Panic.

(** ** Little-endian bytes: a byte is a [Z] in [0 .. 255] *)

(** [to_le_bytes] of an [8 * n]-bit integer *)
Fixpoint to_le_bytes (n : nat) (x : Z) : list Z :=
  match n with
  | O => []
  | S m => x mod 256 :: to_le_bytes m (x / 256)
  end.
(** [from_le_bytes] *)
Fixpoint from_le_bytes (l : list Z) : Z :=
  match l with
  | [] => 0
  | b :: t => b + 256 * from_le_bytes t
  end.
Definition byte (b : Z) : Prop := 0 <= b < 256.

(** ** Wrapping arithmetic and bit operations of a [w]-bit unsigned integer *)

Definition wadd (w a b : Z) : Z := (a + b) mod 2 ^ w.
Definition wsub (w a b : Z) : Z := (a - b) mod 2 ^ w.
Definition wmul (w a b : Z) : Z := (a * b) mod 2 ^ w.
(** [x << n], which drops the bits shifted out *)
Definition wshl (w x n : Z) : Z := Z.shiftl x n mod 2 ^ w.
Definition rotate_left (w x n : Z) : Z := Z.lor (wshl w x n) (Z.shiftr x (w - n)).
(** [swap_bytes] of an [8 * n]-bit integer *)
Definition swap_bytes (n : nat) (x : Z) : Z := from_le_bytes (rev (to_le_bytes n x)).

(** ** Loops *)

(** The monadic loop [for x in l { s = body(x, s)? }] *)
Fixpoint for_each {A S} (body : A -> S -> outcome S) (l : list A) (s : S) : outcome S :=
  match l with
  | [] => Ret s
  | x :: t => s' ← body x s; for_each body t s'
  end.
(** [l.iter().map(f).collect()] for a [f] that can panic *)
Fixpoint omap_list {A B} (f : A -> outcome B) (l : list A) : outcome (list B) :=
  match l with
  | [] => Ret []
  | x :: t => y ← f x; r ← omap_list f t; Ret (y :: r)
  end.

(** ** Tables of sections

    Several structures are written as a table of [u32] ending offsets followed
    by the sections themselves, and read back one section at a time. *)

(** The ending offsets, for sections that start at [data_offset] *)
Fixpoint end_offsets (vecs : list (list Z)) (data_offset : Z) : outcome (list Z) :=
  match vecs with
  | [] => Ret []
  | v :: rest =>
      off ← utry 32 (data_offset + vlen v);
      r ← end_offsets rest (data_offset + vlen v);
      Ret (to_le_bytes 4 off ++ r)
  end.

(** The loop that reads [n] sections, the offset of the next one at [metadata] *)
Fixpoint read_sections {A} (read : list Z -> outcome A) (n : nat) (bytes : list Z)
    (metadata data_start : Z) : outcome (list A) :=
  match n with
  | O => Ret []
  | S m =>
      e ← slice bytes metadata (metadata + 4);
      let data_end := from_le_bytes e in
      d ← slice bytes data_start data_end;
      x ← read d;
      r ← read_sections read m bytes (metadata + 4) data_end;
      Ret (x :: r)
  end.

(** * Lemmas and automation *)

Create HintDb outcome.
Create Rewrite HintDb outcome.

Lemma outcome_bind_Ret {A B} (f : A -> outcome B) (m : outcome A) b :
  (m ≫= f) = Ret b <-> exists a, m = Ret a /\ f a = Ret b.
Proof. destruct m; simpl; naive_solver. Qed.

Lemma Ret_inj {A} (a b : A) : Ret a = Ret b -> a = b.
Proof. by injection 1. Qed.

Lemma rassert_Ret b u : rassert b = Ret u <-> b = true.
Proof. destruct b, u; simpl; naive_solver. Qed.

Lemma uadd_ok w a b : a + b < 2 ^ w -> uadd w a b = Ret (a + b).
Proof. unfold uadd. by intros H%Z.ltb_lt; rewrite H. Qed.
Lemma usub_ok a b : b <= a -> usub a b = Ret (a - b).
Proof. unfold usub. by intros H%Z.leb_le; rewrite H. Qed.
Lemma umul_ok w a b : a * b < 2 ^ w -> umul w a b = Ret (a * b).
Proof. unfold umul. by intros H%Z.ltb_lt; rewrite H. Qed.
Lemma utry_ok w a : 0 <= a < 2 ^ w -> utry w a = Ret a.
Proof.
  unfold utry. intros [H1%Z.leb_le H2%Z.ltb_lt]. by rewrite H1, H2.
Qed.
Lemma udiv_ok a b : b <> 0 -> udiv a b = Ret (a / b).
Proof. intros. unfold udiv. by rewrite (proj2 (Z.eqb_neq b 0)). Qed.

#[export] Hint Rewrite uadd_ok usub_ok umul_ok utry_ok udiv_ok using lia : outcome.

Lemma vget_Ret {A} (l : list A) i x :
  vget l i = Ret x <-> 0 <= i /\ l !! Z.to_nat i = Some x.
Proof.
  unfold vget. destruct (Z.leb_spec 0 i) as [H|H].
  - destruct (l !! Z.to_nat i); simpl; naive_solver.
  - split; [done|lia].
Qed.
Lemma vget_ok {A} (l : list A) i x :
  0 <= i -> l !! Z.to_nat i = Some x -> vget l i = Ret x.
Proof. intros. by apply vget_Ret. Qed.
Lemma vget_is_Ret {A} (l : list A) i :
  0 <= i < vlen l -> exists x, vget l i = Ret x /\ l !! Z.to_nat i = Some x.
Proof.
  unfold vlen. intros H. destruct (lookup_lt_is_Some_2 l (Z.to_nat i)) as [x Hx]; [lia|].
  exists x. split; [|done]. apply vget_Ret; split; [lia|done].
Qed.
Lemma vset_ok {A} (l : list A) i x :
  0 <= i < vlen l -> vset l i x = Ret (<[Z.to_nat i := x]> l).
Proof.
  unfold vset, vlen. intros [H1%Z.leb_le H2%Z.ltb_lt]. by rewrite H1, H2.
Qed.
Lemma vset_Ret {A} (l l' : list A) i x :
  vset l i x = Ret l' <-> 0 <= i < vlen l /\ l' = <[Z.to_nat i := x]> l.
Proof.
  unfold vset, vlen. destruct (Z.leb_spec 0 i), (Z.ltb_spec i (Z.of_nat (length l))); simpl;
    naive_solver lia.
Qed.
Lemma slice_ok {A} (l : list A) a b :
  0 <= a <= b -> b <= vlen l ->
  slice l a b = Ret (take (Z.to_nat (b - a)) (drop (Z.to_nat a) l)).
Proof.
  unfold slice. intros [H1%Z.leb_le H2%Z.leb_le] H3%Z.leb_le. by rewrite H1, H2, H3.
Qed.
Lemma splice_ok {A} (l : list A) a src :
  0 <= a -> a + vlen src <= vlen l ->
  splice l a src = Ret (take (Z.to_nat a) l ++ src ++ drop (Z.to_nat a + length src) l).
Proof.
  unfold splice. intros H1%Z.leb_le H2%Z.leb_le. by rewrite H1, H2.
Qed.
Lemma vlen_app {A} (l k : list A) : vlen (l ++ k) = vlen l + vlen k.
Proof. unfold vlen. rewrite length_app. lia. Qed.
Lemma vlen_nonneg {A} (l : list A) : 0 <= vlen l.
Proof. unfold vlen. lia. Qed.

(** A slice that lies in the middle part of an append. *)
Lemma slice_middle {A} (p m s : list A) a b :
  a = vlen p -> b = vlen p + vlen m -> slice (p ++ m ++ s) a b = Ret m.
Proof.
  intros -> ->. rewrite slice_ok; rewrite ?vlen_app;
    [|pose proof (vlen_nonneg p); pose proof (vlen_nonneg m); lia
     |pose proof (vlen_nonneg s); lia].
  unfold vlen. f_equal. rewrite Nat2Z.id, drop_app_length.
  replace (Z.to_nat (Z.of_nat (length p) + Z.of_nat (length m) - Z.of_nat (length p)))
    with (length m) by lia.
  by rewrite take_app_length.
Qed.

Lemma slice_from_ok {A} (l : list A) a :
  0 <= a <= vlen l -> slice_from l a = Ret (drop (Z.to_nat a) l).
Proof.
  intros H. unfold slice_from. rewrite slice_ok by lia. f_equal. apply take_ge.
  rewrite length_drop. unfold vlen. lia.
Qed.
Lemma vlen_drop {A} (l : list A) a : 0 <= a <= vlen l -> vlen (drop (Z.to_nat a) l) = vlen l - a.
Proof. unfold vlen. rewrite length_drop. lia. Qed.
Lemma vlen_take {A} (l : list A) a : 0 <= a <= vlen l -> vlen (take (Z.to_nat a) l) = a.
Proof. unfold vlen. rewrite length_take. lia. Qed.

Lemma slice_prefix {A} (m s : list A) b : vlen m = b -> slice (m ++ s) 0 b = Ret m.
Proof. intros H. by apply (slice_middle [] m s). Qed.

(** Overwriting the middle part of an append. *)
Lemma splice_middle {A} (p m s src : list A) a :
  a = vlen p -> length src = length m -> splice (p ++ m ++ s) a src = Ret (p ++ src ++ s).
Proof.
  intros -> Hl. rewrite splice_ok; [|apply vlen_nonneg|unfold vlen; rewrite !length_app; lia].
  unfold vlen. rewrite Nat2Z.id, take_app_length, Hl. f_equal. f_equal. f_equal.
  by rewrite drop_app_add, drop_app_length.
Qed.
Lemma splice_prefix {A} (m s src : list A) : length src = length m -> splice (m ++ s) 0 src = Ret (src ++ s).
Proof. intros. by apply (splice_middle [] m s src 0). Qed.
Lemma splice_suffix {A} (p m src : list A) a :
  a = vlen p -> length src = length m -> splice (p ++ m) a src = Ret (p ++ src).
Proof. intros. rewrite <-(app_nil_r m), (splice_middle p m [] src a) by done. by rewrite app_nil_r. Qed.
Lemma slice_suffix {A} (p m : list A) a b : a = vlen p -> b = vlen p + vlen m -> slice (p ++ m) a b = Ret m.
Proof. intros. rewrite <-(app_nil_r m) at 1. by apply slice_middle. Qed.
Lemma slice_from_suffix {A} (p m : list A) a : a = vlen p -> slice_from (p ++ m) a = Ret m.
Proof. intros. unfold slice_from. apply slice_suffix; [done|]. by rewrite vlen_app. Qed.

(** [orun] evaluates the outcome computation of the goal as far as [lia] proves
    its checks. *)
Ltac orun :=
  repeat (progress (autorewrite with outcome; cbn [mbind mret outcome_bind outcome_ret fmap outcome_fmap rassert])).

(** [ostep] evaluates one check of the outcome computation of the goal, any one
    whose condition [lia] (or [nia]) proves. *)
Ltac ostep_with tac :=
  match goal with
  | |- context [uadd ?w ?a ?b] => rewrite (uadd_ok w a b) by tac
  | |- context [usub ?a ?b] => rewrite (usub_ok a b) by tac
  | |- context [umul ?w ?a ?b] => rewrite (umul_ok w a b) by tac
  | |- context [utry ?w ?a] => rewrite (utry_ok w a) by tac
  | |- context [udiv ?a ?b] => rewrite (udiv_ok a b) by tac
  | |- context [rassert (?a <? ?b)] => rewrite (proj2 (Z.ltb_lt a b)) by tac
  | |- context [rassert (?a <=? ?b)] => rewrite (proj2 (Z.leb_le a b)) by tac
  | |- context [rassert (?a =? ?b)] => rewrite (proj2 (Z.eqb_eq a b)) by tac
  end; cbn [mbind mret outcome_bind outcome_ret rassert].
Ltac ostep := ostep_with lia.
Ltac osteps := repeat ostep.

(** [rinv H] takes apart a hypothesis [computation = Ret x]. *)
Ltac rinv H :=
  lazymatch type of H with
  | (_ ≫= _) = Ret _ =>
      let a := fresh "a" in let H1 := fresh "H" in let H2 := fresh "H" in
      apply outcome_bind_Ret in H; destruct H as (a & H1 & H2); rinv H1; rinv H2
  | Ret _ = Ret _ => apply Ret_inj in H; try subst
  | rassert _ = Ret _ => apply rassert_Ret in H
  | vget _ _ = Ret _ => apply vget_Ret in H; destruct H as [? H]
  | Panic = Ret _ => discriminate H
  | _ => idtac
  end.

(** ** Bytes *)

Lemma length_to_le_bytes n x : length (to_le_bytes n x) = n.
Proof. revert x; induction n; simpl; auto. Qed.
Lemma vlen_to_le_bytes n x : vlen (to_le_bytes n x) = Z.of_nat n.
Proof. unfold vlen. by rewrite length_to_le_bytes. Qed.

Lemma to_le_bytes_byte n x : Forall byte (to_le_bytes n x).
Proof.
  revert x; induction n; intros x; simpl; constructor; auto.
  unfold byte. apply Z.mod_pos_bound. lia.
Qed.

Lemma from_to_le_bytes n x :
  0 <= x < 2 ^ (8 * Z.of_nat n) -> from_le_bytes (to_le_bytes n x) = x.
Proof.
  revert x; induction n as [|n IH]; intros x Hx.
  - simpl in *. lia.
  - cbn [to_le_bytes from_le_bytes]. rewrite IH.
    + pose proof (Z.div_mod x 256). lia.
    + replace (8 * Z.of_nat (S n)) with (8 * Z.of_nat n + 8) in Hx by lia.
      rewrite Z.pow_add_r in Hx by lia. change (2 ^ 8) with 256 in Hx.
      split; [apply Z.div_pos; lia|]. apply Z.div_lt_upper_bound; lia.
Qed.

Lemma from_le_bytes_bound l :
  Forall byte l -> 0 <= from_le_bytes l < 2 ^ (8 * vlen l).
Proof.
  unfold vlen. induction 1 as [|b t Hb _ IH]; [simpl; lia|].
  cbn [from_le_bytes length]. unfold byte in Hb.
  replace (8 * Z.of_nat (S (length t))) with (8 * Z.of_nat (length t) + 8) by lia.
  rewrite Z.pow_add_r by lia. change (2 ^ 8) with 256. lia.
Qed.

Lemma to_from_le_bytes l n :
  Forall byte l -> length l = n -> to_le_bytes n (from_le_bytes l) = l.
Proof.
  intros H <-. induction H as [|b t Hb _ IH]; [done|].
  cbn [from_le_bytes length to_le_bytes]. unfold byte in Hb.
  rewrite (Z.mul_comm 256), Z_mod_plus_full, Z.div_add, Z.mod_small, Z.div_small, Z.add_0_l by lia.
  by rewrite IH.
Qed.

(** ** Bits *)

Lemma trailing_ones_spec n x :
  0 <= trailing_ones n x <= Z.of_nat n /\
  (forall i, 0 <= i < trailing_ones n x -> Z.testbit x i = true) /\
  (trailing_ones n x < Z.of_nat n -> Z.testbit x (trailing_ones n x) = false).
Proof.
  revert x; induction n as [|n IH]; intros x; [simpl; repeat split; intros; lia|].
  cbn [trailing_ones]. destruct (Z.testbit x 0) eqn:E.
  - destruct (IH (Z.shiftr x 1)) as (Hb & Hlt & Heq).
    set (t := trailing_ones n (Z.shiftr x 1)) in *. repeat split; [lia|lia| |].
    + intros i Hi. destruct (decide (i = 0)) as [->|]; [done|].
      replace i with ((i - 1) + 1) by lia. rewrite <-Z.shiftr_spec by lia. apply Hlt; lia.
    + intros Hlt'. replace (1 + t) with (t + 1) by lia.
      rewrite <-Z.shiftr_spec by lia. apply Heq; lia.
  - repeat split; intros; try lia. done.
Qed.

Lemma trailing_zeros_spec n x :
  0 <= trailing_zeros n x <= Z.of_nat n /\
  (forall i, 0 <= i < trailing_zeros n x -> Z.testbit x i = false) /\
  (trailing_zeros n x < Z.of_nat n -> Z.testbit x (trailing_zeros n x) = true).
Proof.
  revert x; induction n as [|n IH]; intros x; [simpl; repeat split; intros; lia|].
  cbn [trailing_zeros]. destruct (Z.testbit x 0) eqn:E.
  - repeat split; intros; try lia. done.
  - destruct (IH (Z.shiftr x 1)) as (Hb & Hlt & Heq).
    set (t := trailing_zeros n (Z.shiftr x 1)) in *. repeat split; [lia|lia| |].
    + intros i Hi. destruct (decide (i = 0)) as [->|]; [done|].
      replace i with ((i - 1) + 1) by lia. rewrite <-Z.shiftr_spec by lia. apply Hlt; lia.
    + intros Hlt'. replace (1 + t) with (t + 1) by lia.
      rewrite <-Z.shiftr_spec by lia. apply Heq; lia.
Qed.

Lemma testbit_high w x i : 0 <= x < 2 ^ w -> w <= i -> Z.testbit x i = false.
Proof.
  intros Hx Hi. destruct (decide (x = 0)) as [->|]; [apply Z.bits_0|].
  assert (0 <= w) by (destruct (Z.le_gt_cases 0 w); [done|rewrite Z.pow_neg_r in Hx; lia]).
  apply Z.bits_above_log2; [lia|]. apply Z.lt_le_trans with w; [|done].
  apply Z.log2_lt_pow2; lia.
Qed.

(** A number whose bits from [w] up are clear fits in [w] bits. *)
Lemma in_u_bits w x :
  0 <= w -> (forall i, w <= i -> Z.testbit x i = false) -> 0 <= x < 2 ^ w.
Proof.
  intros Hw H. replace x with (x mod 2 ^ w); [apply Z.mod_pos_bound; lia|].
  apply Z.bits_inj'. intros i Hi. destruct (Z.lt_ge_cases i w).
  - by rewrite Z.mod_pow2_bits_low.
  - by rewrite Z.mod_pow2_bits_high, H.
Qed.

Lemma umax_ones w : 0 <= w -> umax w = Z.ones w.
Proof. intros. unfold umax. rewrite Z.ones_equiv. lia. Qed.

Lemma umax_testbit w i : 0 <= w -> 0 <= i -> Z.testbit (umax w) i = (i <? w).
Proof. intros. rewrite umax_ones by done. by apply Z.testbit_ones_nonneg. Qed.

Lemma unot_testbit w x i :
  0 <= w -> 0 <= i < w -> Z.testbit (unot w x) i = negb (Z.testbit x i).
Proof.
  intros. unfold unot. rewrite Z.lxor_spec, umax_testbit by lia.
  destruct (Z.ltb_spec i w); [|lia]. by destruct (Z.testbit x i).
Qed.

Lemma unot_testbit_high w x i :
  0 <= x < 2 ^ w -> 0 <= w <= i -> Z.testbit (unot w x) i = false.
Proof.
  intros. unfold unot. rewrite Z.lxor_spec, umax_testbit, (testbit_high w) by lia.
  destruct (Z.ltb_spec i w); [lia|done].
Qed.

(** A word is all ones exactly when all its bits are set. *)
Lemma umax_iff w x :
  0 <= w -> 0 <= x < 2 ^ w ->
  x = umax w <-> (forall i, 0 <= i < w -> Z.testbit x i = true).
Proof.
  intros Hw Hx. split.
  - intros -> i Hi. rewrite umax_testbit by lia. apply Z.ltb_lt; lia.
  - intros H. apply Z.bits_inj'. intros i Hi. rewrite umax_testbit by lia.
    destruct (Z.ltb_spec i w); [apply H; lia|apply testbit_high with w; lia].
Qed.

(** Words closed under the bit operations. *)
Lemma in_u_mod w x : 0 <= w -> in_u w (x mod 2 ^ w).
Proof. intros. apply Z.mod_pos_bound. lia. Qed.
Lemma in_u_wadd w a b : 0 <= w -> in_u w (wadd w a b).
Proof. apply in_u_mod. Qed.
Lemma in_u_wsub w a b : 0 <= w -> in_u w (wsub w a b).
Proof. apply in_u_mod. Qed.
Lemma in_u_wmul w a b : 0 <= w -> in_u w (wmul w a b).
Proof. apply in_u_mod. Qed.
Lemma in_u_wshl w a b : 0 <= w -> in_u w (wshl w a b).
Proof. apply in_u_mod. Qed.
Lemma in_u_lxor w a b : 0 <= w -> in_u w a -> in_u w b -> in_u w (Z.lxor a b).
Proof. intros Hw Ha Hb. apply in_u_bits; [done|]. intros i Hi. by rewrite Z.lxor_spec, !(testbit_high w). Qed.
Lemma in_u_lor w a b : 0 <= w -> in_u w a -> in_u w b -> in_u w (Z.lor a b).
Proof. intros Hw Ha Hb. apply in_u_bits; [done|]. intros i Hi. by rewrite Z.lor_spec, !(testbit_high w). Qed.
Lemma in_u_shiftr w a n : 0 <= w -> 0 <= n -> in_u w a -> in_u w (Z.shiftr a n).
Proof.
  intros Hw Hn Ha. apply in_u_bits; [done|]. intros i Hi. rewrite Z.shiftr_spec by lia. apply (testbit_high w); [done|lia].
Qed.
Lemma in_u_rotate_left w a n : 0 <= n <= w -> in_u w a -> in_u w (rotate_left w a n).
Proof. intros. apply in_u_lor; [lia|apply in_u_wshl; lia|apply in_u_shiftr; [lia..|done]]. Qed.
Lemma in_u_swap_bytes n a : in_u (8 * Z.of_nat n) (swap_bytes n a).
Proof.
  unfold swap_bytes, in_u. pose proof (from_le_bytes_bound (rev (to_le_bytes n a))) as H.
  unfold vlen in H. rewrite length_rev, length_to_le_bytes in H. apply H.
  apply Forall_rev, to_le_bytes_byte.
Qed.

(** ** Division *)

Lemma div_ceil_spec a b : 0 <= a -> 0 < b -> div_ceil a b = (a + b - 1) / b.
Proof.
  intros. unfold div_ceil. pose proof (Z.div_mod a b) as Hd.
  pose proof (Z.mod_pos_bound a b). destruct (Z.eqb_spec (a mod b) 0) as [E|E].
  - apply Z.div_unique with (b - 1); lia.
  - apply Z.div_unique with (a mod b - 1); lia.
Qed.

Lemma div_ceil_bounds a b :
  0 <= a -> 0 < b -> a <= b * div_ceil a b /\ b * div_ceil a b < a + b /\ 0 <= div_ceil a b.
Proof.
  intros. rewrite div_ceil_spec by lia.
  pose proof (Z.div_mod (a + b - 1) b). pose proof (Z.mod_pos_bound (a + b - 1) b).
  assert (0 <= (a + b - 1) / b) by (apply Z.div_pos; lia). lia.
Qed.

(** ** Loops *)

(** A loop whose body keeps an invariant on the state runs to its end. *)
Lemma for_each_app {A S} (f : A -> S -> outcome S) l k s :
  for_each f (l ++ k) s = s' ← for_each f l s; for_each f k s'.
Proof.
  revert s. induction l as [|x l IH]; intros s; [done|]. simpl. destruct (f x s); simpl; [apply IH|done].
Qed.
Lemma for_each_inv {A S} (P : S -> Prop) (body : A -> S -> outcome S) l s :
  (forall x s, x ∈ l -> P s -> exists s', body x s = Ret s' /\ P s') -> P s ->
  exists s', for_each body l s = Ret s' /\ P s'.
Proof.
  revert s. induction l as [|x l IH]; intros s Hb Hs; [by exists s|]. cbn [for_each].
  destruct (Hb x s ltac:(left) Hs) as (s1 & -> & H1). cbn [mbind outcome_bind].
  apply IH; [|done]. intros y s' Hy. apply Hb. by right.
Qed.

(** A loop whose body is a pure function [f] wherever the invariant holds. *)
Lemma for_each_pure {A S} (P : S -> Prop) (body : A -> S -> outcome S) (f : S -> A -> S) l s :
  (forall x s, x ∈ l -> P s -> body x s = Ret (f s x) /\ P (f s x)) -> P s ->
  for_each body l s = Ret (foldl f s l) /\ P (foldl f s l).
Proof.
  revert s. induction l as [|x l IH]; intros s Hb Hs; [done|]. cbn [for_each foldl].
  destruct (Hb x s ltac:(left) Hs) as [-> H1]. cbn [mbind outcome_bind].
  apply IH; [|done]. intros y s' Hy. apply Hb. by right.
Qed.

(** ** Counting *)

(** How many of the [n] integers from [lo] satisfy [f]. *)
Fixpoint zcount (f : Z -> bool) (lo : Z) (n : nat) : Z :=
  match n with
  | O => 0
  | S m => (if f lo then 1 else 0) + zcount f (lo + 1) m
  end.

Lemma zcount_ext f g lo n :
  (forall i, lo <= i < lo + Z.of_nat n -> f i = g i) -> zcount f lo n = zcount g lo n.
Proof.
  revert lo. induction n as [|n IH]; intros lo H; [done|]. cbn [zcount].
  rewrite (H lo), (IH (lo + 1)); [done| |lia]. intros i Hi. apply H. lia.
Qed.

Lemma zcount_app f lo n m : zcount f lo (n + m) = zcount f lo n + zcount f (lo + Z.of_nat n) m.
Proof.
  revert lo. induction n as [|n IH]; intros lo; cbn [zcount plus].
  - rewrite Z.add_0_r. lia.
  - rewrite IH. replace (lo + 1 + Z.of_nat n) with (lo + Z.of_nat (S n)) by lia. lia.
Qed.

Lemma zcount_bounds f lo n : 0 <= zcount f lo n <= Z.of_nat n.
Proof.
  revert lo. induction n as [|n IH]; intros lo; cbn [zcount]; [lia|].
  specialize (IH (lo + 1)). destruct (f lo); lia.
Qed.

Lemma zcount_none f lo n :
  (forall i, lo <= i < lo + Z.of_nat n -> f i = false) -> zcount f lo n = 0.
Proof.
  revert lo. induction n as [|n IH]; intros lo H; [done|]. cbn [zcount].
  rewrite (H lo), (IH (lo + 1)); [done| |lia]. intros i Hi. apply H. lia.
Qed.

Lemma zcount_all f lo n :
  (forall i, lo <= i < lo + Z.of_nat n -> f i = true) -> zcount f lo n = Z.of_nat n.
Proof.
  revert lo. induction n as [|n IH]; intros lo H; [done|]. cbn [zcount].
  rewrite (H lo), (IH (lo + 1)); [lia| |lia]. intros i Hi. apply H. lia.
Qed.

Lemma zcount_pos f lo n :
  0 < zcount f lo n <-> exists i, lo <= i < lo + Z.of_nat n /\ f i = true.
Proof.
  revert lo. induction n as [|n IH]; intros lo; cbn [zcount].
  - split; [lia|]. intros (i & ? & ?). lia.
  - specialize (IH (lo + 1)). pose proof (zcount_bounds f (lo + 1) n). destruct (f lo) eqn:E.
    + split; [|lia]. intros _. exists lo. split; [lia|done].
    + rewrite Z.add_0_l, IH. split; intros (i & Hi & Hf); exists i; (split; [|done]); [lia|].
      assert (i <> lo) by congruence. lia.
Qed.

(** Clearing one of the counted integers. *)
Lemma zcount_drop f g lo n i :
  lo <= i < lo + Z.of_nat n -> f i = true -> g i = false ->
  (forall j, lo <= j < lo + Z.of_nat n -> j <> i -> g j = f j) -> zcount f lo n = zcount g lo n + 1.
Proof.
  revert lo. induction n as [|n IH]; intros lo Hi Hf Hg Heq; [lia|]. cbn [zcount].
  destruct (decide (i = lo)) as [->|Hne].
  - rewrite Hf, Hg. rewrite (zcount_ext g f (lo + 1) n); [lia|]. intros j Hj. apply Heq; lia.
  - rewrite (IH (lo + 1)); [|lia|done|done|intros j Hj Hji; apply Heq; lia]. rewrite (Heq lo) by lia. lia.
Qed.

Lemma count_zeros_zcount n x k :
  0 <= k -> count_zeros n (Z.shiftr x k) = zcount (fun j => negb (Z.testbit x j)) k n.
Proof.
  revert k. induction n as [|n IH]; intros k Hk; [done|]. cbn [count_zeros zcount].
  rewrite Z.shiftr_spec by lia. rewrite Z.shiftr_shiftr, IH by lia.
  rewrite Z.add_0_l. by destruct (Z.testbit x k).
Qed.

(** ** Reading back what was written *)

Lemma omap_list_seqZ {B} (f : Z -> outcome B) (ws : list B) s :
  (forall i w, ws !! i = Some w -> f (s + Z.of_nat i) = Ret w) ->
  omap_list f (seqZ s (vlen ws)) = Ret ws.
Proof.
  unfold vlen. revert s. induction ws as [|w ws IH]; intros s H; [done|].
  rewrite seqZ_cons by (simpl; lia). cbn [omap_list].
  pose proof (H 0%nat w eq_refl) as H0. rewrite Z.add_0_r in H0. rewrite H0. cbn [mbind outcome_bind].
  replace (Z.pred (Z.of_nat (length (w :: ws)))) with (Z.of_nat (length ws)) by (simpl; lia).
  rewrite IH; [done|]. intros i x Hx. rewrite <-(H (S i) x Hx). f_equal. lia.
Qed.

Lemma omap_list_Forall2 {A B} (f : A -> outcome B) l k :
  omap_list f l = Ret k <-> Forall2 (fun x y => f x = Ret y) l k.
Proof.
  revert k. induction l as [|x l IH]; intros k; cbn [omap_list].
  - split; [by intros [= <-]|]. by inversion 1.
  - split.
    + intros H. rinv H. constructor; [done|]. by apply IH.
    + inversion 1 as [|? y ? k' Hx Hl]; subst. rewrite Hx. cbn [mbind outcome_bind].
      apply IH in Hl. by rewrite Hl.
Qed.

Lemma vlen_concat_chunks {A B} (f : A -> list B) (n : nat) ws :
  (forall w, length (f w) = n) -> vlen (concat (map f ws)) = vlen ws * Z.of_nat n.
Proof.
  intros Hf. unfold vlen. induction ws as [|w ws IH]; [done|].
  cbn [map concat length]. rewrite length_app, Hf, Nat2Z.inj_add, IH. lia.
Qed.

(** The [i]-th of the chunks of [n] elements that follow a header. *)
Lemma slice_chunk {A B} (f : A -> list B) (n : nat) (h : list B) ws s i w :
  (forall w, length (f w) = n) -> ws !! i = Some w ->
  slice (h ++ concat (map f ws) ++ s) (vlen h + Z.of_nat i * Z.of_nat n)
    (vlen h + Z.of_nat i * Z.of_nat n + Z.of_nat n) = Ret (f w).
Proof.
  intros Hf Hw.
  assert (Ht : vlen (take i ws) = Z.of_nat i).
  { unfold vlen. apply lookup_lt_Some in Hw. rewrite length_take. lia. }
  rewrite <-(take_drop_middle ws i w Hw), map_app, concat_app, <-!app_assoc.
  cbn [map concat]. rewrite <-!app_assoc, app_assoc. apply slice_middle.
  - rewrite vlen_app, (vlen_concat_chunks f n), Ht by done. done.
  - rewrite vlen_app, (vlen_concat_chunks f n), Ht by done. unfold vlen at 3. by rewrite Hf.
Qed.

(** ** Tables of sections *)

Lemma end_offsets_len vecs off ends :
  end_offsets vecs off = Ret ends -> vlen ends = 4 * vlen vecs.
Proof.
  revert off ends. induction vecs as [|v vecs IH]; intros off ends H; cbn [end_offsets] in H.
  - by injection H as <-.
  - apply outcome_bind_Ret in H as (o & _ & H). apply outcome_bind_Ret in H as (r & Hr & H). rinv H.
    rewrite vlen_app, vlen_to_le_bytes, (IH _ _ Hr). unfold vlen. simpl. lia.
Qed.

Lemma end_offsets_ok vecs : forall off,
  0 <= off -> off + vlen (concat vecs) < 2 ^ 32 -> exists ends, end_offsets vecs off = Ret ends.
Proof.
  induction vecs as [|v vecs IH]; intros off H0 H; [by eexists|]. cbn [concat] in H. rewrite vlen_app in H.
  pose proof (vlen_nonneg v). pose proof (vlen_nonneg (concat vecs)).
  destruct (IH (off + vlen v)) as [ends Hends]; [lia|lia|].
  cbn [end_offsets]. rewrite utry_ok by lia. cbn [mbind outcome_bind]. rewrite Hends.
  by eexists.
Qed.

(** The first section: [A] is what precedes its offset, [P] the sections before it. *)
Lemma section_step v vecs A P ends md ds (data := A ++ ends ++ P ++ concat (v :: vecs)) :
  end_offsets (v :: vecs) ds = Ret ends -> md = vlen A -> ds = vlen A + vlen ends + vlen P ->
  exists e r, ends = e ++ r /\ end_offsets vecs (ds + vlen v) = Ret r /\
    data = (A ++ e) ++ r ++ (P ++ v) ++ concat vecs /\ vlen (A ++ e) = md + 4 /\
    ds + vlen v = vlen (A ++ e) + vlen r + vlen (P ++ v) /\
    slice data md (md + 4) = Ret e /\ from_le_bytes e = ds + vlen v /\ slice data ds (ds + vlen v) = Ret v.
Proof.
  intros He -> Hds. cbn [end_offsets] in He.
  apply outcome_bind_Ret in He as (o & Ho & He). apply outcome_bind_Ret in He as (r & Hr & He).
  apply Ret_inj in He. subst ends. unfold utry in Ho. destruct (_ && _) eqn:E; [|done].
  apply Ret_inj in Ho. subst o. set (e := to_le_bytes 4 (ds + vlen v)) in *.
  assert (Hle : vlen e = 4) by apply vlen_to_le_bytes.
  exists e, r. rewrite !vlen_app in *. repeat split; try lia.
  - done.
  - subst data. cbn [concat]. by rewrite <-!app_assoc.
  - subst data. rewrite <-!app_assoc. apply slice_middle; lia.
  - apply from_to_le_bytes. lia.
  - subst data. cbn [concat].
    replace (A ++ (e ++ r) ++ P ++ v ++ concat vecs) with ((A ++ e ++ r ++ P) ++ v ++ concat vecs) by (by rewrite <-!app_assoc).
    apply slice_middle; rewrite !vlen_app; lia.
Qed.

(** Reading the sections back; section [v] reads as [f x]. *)
Lemma read_sections_spec {X Y} (read : list Z -> outcome Y) (f : X -> Y) xs vecs A P ends md ds :
  Forall2 (fun x v => read v = Ret (f x)) xs vecs ->
  end_offsets vecs ds = Ret ends ->
  md = vlen A -> ds = vlen A + vlen ends + vlen P ->
  read_sections read (length xs) (A ++ ends ++ P ++ concat vecs) md ds = Ret (map f xs).
Proof.
  revert vecs A P ends md ds. induction xs as [|l xs IH]; intros vecs A P ends md ds HF He Hmd Hds.
  - apply Forall2_nil_inv_l in HF as ->. by injection He as <-.
  - destruct vecs as [|v vecs']; [by apply Forall2_length in HF|].
    apply Forall2_cons_1 in HF as [Hf HF'].
    destruct (section_step v vecs' A P ends md ds He Hmd Hds) as (e & r & -> & Hr & Hd & H1 & H2 & Hs1 & Hfe & Hs2).
    cbn [length read_sections]. rewrite Hs1. cbn [mbind outcome_bind]. rewrite Hfe, Hs2. cbn [mbind outcome_bind].
    rewrite Hf. cbn [mbind outcome_bind]. rewrite Hd, (IH _ _ _ _ _ _ HF' Hr) by lia. done.
Qed.
