(* ===== verification/Bitmap.v ===== *)
(** Bitmaps of the page allocator (src/src/tree_store/page_store/bitmap.rs).

    [U64GroupedBitmap] is the flat bitmap packed in [u64] words; [BtreeBitmap]
    is the 64-way tree of such bitmaps whose inner bits say that the whole group
    of 64 bits below is set.  A set bit means "allocated", a clear bit "free". *)
From S2P Require Import Prelude.

(** * Model *)

(** [bits_in_range(lo, hi)]: a [u64] with bits [lo..hi] set *)
Definition bits_in_range (lo hi : Z) : outcome Z :=
  _ ← rassert ((lo <? hi) && (hi <=? 64));
  let bits_at_or_above_lo := Z.land (Z.shiftl (umax 64) lo) (umax 64) in
  let bits_below_hi := Z.shiftr (umax 64) (64 - hi) in
  Ret (Z.land bits_at_or_above_lo bits_below_hi).

Module U64GroupedBitmap.

Record t := mk { len : Z; data : list Z }.

Definition required_words (elements : Z) : Z := div_ceil elements 64.

Definition new_full (len capacity : Z) : t :=
  mk len (replicate (Z.to_nat (required_words capacity)) (umax 64)).

Definition data_index_of (bit : Z) : Z * Z := (bit / 64, bit mod 64).

Definition select_mask (bit : Z) : Z := Z.shiftl 1 bit.

Definition count_unset (b : t) : outcome Z :=
  for_each (fun x s => uadd 32 s (count_zeros 64 x)) (data b) 0.

Definition any_unset (b : t) : bool :=
  existsb (fun x => 0 <? count_zeros 64 x) (data b).

Definition first_unset (b : t) (start_bit end_bit : Z) : outcome (option Z) :=
  limit ← uadd 32 (start_bit - start_bit mod 64) 64;
  _ ← rassert (end_bit =? limit);
  if len b =? 0 then Ret None else
  let '(index, bit) := data_index_of start_bit in
  let mask := Z.shiftl 1 bit - 1 in
  group ← vget (data b) index;
  let x := trailing_ones 64 (Z.lor group mask) in
  if x =? 64 then Ret None
  else sum ← uadd 32 start_bit x; r ← usub sum bit; Ret (Some r).

(** One word of the loop of [resize] *)
Definition resize_word (old_len new_len : Z) (full : bool) (word : Z) (d : list Z)
    : outcome (list Z) :=
  word_first_bit ← umul 32 word 64;
  let lo := saturating_sub old_len word_first_bit in
  span ← usub new_len word_first_bit;
  let hi := Z.min span 64 in
  mask ← bits_in_range lo hi;
  slot ← vget d word;
  vset d word (if full then Z.lor slot mask else Z.land slot (unot 64 mask)).

Definition resize (b : t) (new_len : Z) (full : bool) : outcome t :=
  let d :=
    if vlen (data b) <? required_words new_len
    then data b ++ replicate (Z.to_nat (required_words new_len - vlen (data b)))
                     (if full then umax 64 else 0)
    else data b in
  let old_len := len b in
  if new_len <=? old_len then Ret (mk new_len d) else
  let start_word := old_len / 64 in
  let end_word := (new_len - 1) / 64 in
  d' ← for_each (resize_word old_len new_len full) (seqZ start_word (end_word - start_word + 1)) d;
  Ret (mk new_len d').

Definition get (b : t) (bit : Z) : outcome bool :=
  _ ← rassert (bit <? len b);
  let '(index, bit_index) := data_index_of bit in
  group ← vget (data b) index;
  Ret (negb (Z.land group (select_mask bit_index) =? 0)).

(** Returns whether the bit's group is all set, with the new bitmap *)
Definition set (b : t) (bit : Z) : outcome (t * bool) :=
  _ ← rassert (bit <? len b);
  let '(index, bit_index) := data_index_of bit in
  group ← vget (data b) index;
  let group' := Z.lor group (select_mask bit_index) in
  d ← vset (data b) index group';
  Ret (mk (len b) d, group' =? umax 64).

Definition clear (b : t) (bit : Z) : outcome t :=
  _ ← rassert (bit <? len b);
  let '(index, bit_index) := data_index_of bit in
  group ← vget (data b) index;
  d ← vset (data b) index (Z.land group (unot 64 (select_mask bit_index)));
  Ret (mk (len b) d).

Definition to_vec (b : t) : outcome (list Z) :=
  ws ← slice (data b) 0 (required_words (len b));
  Ret (to_le_bytes 4 (len b) ++ concat (map (to_le_bytes 8) ws)).

(** The [i]-th word of the serialized groups *)
Definition read_word (serialized : list Z) (i : Z) : outcome Z :=
  let start := 4 + i * 8 in
  s ← slice serialized start (start + 8);
  Ret (from_le_bytes s).

Definition from_bytes (serialized : list Z) : outcome t :=
  n ← usub (vlen serialized) 4;
  _ ← rassert (n mod 8 =? 0);
  l ← slice serialized 0 4;
  let words := n / 8 in
  d ← omap_list (read_word serialized) (seqZ 0 words);
  Ret (mk (from_le_bytes l) d).

End U64GroupedBitmap.

Module BtreeBitmap.
Import U64GroupedBitmap (mk).

Record t := tree { heights : list U64GroupedBitmap.t }.

Definition get_height (b : t) : outcome Z := utry 32 (vlen (heights b)).

Definition get_level (b : t) (i : Z) : outcome U64GroupedBitmap.t :=
  h ← get_height b;
  _ ← rassert (i <? h);
  vget (heights b) i.

(** [self.get_level(self.get_height() - 1)] *)
Definition leaf_level (b : t) : outcome U64GroupedBitmap.t :=
  h ← get_height b;
  i ← usub h 1;
  get_level b i.

Definition count_unset (b : t) : outcome Z :=
  l ← leaf_level b; U64GroupedBitmap.count_unset l.

Definition has_unset (b : t) : outcome bool :=
  l ← leaf_level b; Ret (U64GroupedBitmap.any_unset l).

Definition get (b : t) (i : Z) : outcome bool :=
  l ← leaf_level b; U64GroupedBitmap.get l i.

Definition len (b : t) : outcome Z :=
  l ← leaf_level b; Ret (U64GroupedBitmap.len l).

(** The loop of [find_first_unset]: one step per level below the current one *)
Fixpoint descend (levels : list U64GroupedBitmap.t) (entry : Z) : outcome Z :=
  match levels with
  | [] => Ret entry
  | l :: rest =>
      e ← umul 32 entry 64;
      limit ← uadd 32 e 64;
      o ← U64GroupedBitmap.first_unset l e limit;
      e' ← unwrap o;
      descend rest e'
  end.

Definition find_first_unset (b : t) : outcome (option Z) :=
  root ← get_level b 0;
  o ← U64GroupedBitmap.first_unset root 0 64;
  match o with
  | Some entry => e ← descend (tail (heights b)) entry; Ret (Some e)
  | None => Ret None
  end.

(** [self.get_level_mut(i)] followed by an update of that level *)
Definition put_level (b : t) (i : Z) (l : U64GroupedBitmap.t) : outcome t :=
  h ← get_height b;
  _ ← rassert (i <? h);
  hs ← vset (heights b) i l;
  Ret (tree hs).

(** The loop of [update_to_root], from level [parent_height] to the root *)
Fixpoint update_loop (parent_height : nat) (b : t) (parent_entry : Z) (full : bool)
    : outcome t :=
  let ph := Z.of_nat parent_height in
  level ← get_level b ph;
  r ← (if full then U64GroupedBitmap.set level parent_entry
       else level' ← U64GroupedBitmap.clear level parent_entry; Ret (level', false));
  b' ← put_level b ph r.1;
  match parent_height with
  | O => Ret b'
  | S ph' => update_loop ph' b' (parent_entry / 64) r.2
  end.

Definition update_to_root (b : t) (i : Z) (full : bool) : outcome t :=
  h ← get_height b;
  if h =? 1 then Ret b else
  ph ← usub h 2;
  update_loop (Z.to_nat ph) b (i / 64) full.

Definition set (b : t) (i : Z) : outcome t :=
  h ← get_height b;
  leaf ← usub h 1;
  l ← get_level b leaf;
  r ← U64GroupedBitmap.set l i;
  b' ← put_level b leaf r.1;
  update_to_root b' i r.2.

Definition clear (b : t) (i : Z) : outcome t :=
  h ← get_height b;
  leaf ← usub h 1;
  l ← get_level b leaf;
  l' ← U64GroupedBitmap.clear l i;
  b' ← put_level b leaf l';
  update_to_root b' i false.

Definition alloc (b : t) : outcome (t * option Z) :=
  o ← find_first_unset b;
  match o with
  | None => Ret (b, None)
  | Some entry => b' ← set b entry; Ret (b', Some entry)
  end.

(** The loop of [new], which pushes levels from the leaf to the root; the
    capacity is a [u32], so it is at most 64 after five divisions. *)
Fixpoint new_levels (fuel : nat) (num_pages capacity : Z)
    : outcome (list U64GroupedBitmap.t) :=
  match fuel with
  | O => Panic
  | S f =>
      let l := U64GroupedBitmap.new_full num_pages capacity in
      if capacity <=? 64 then Ret [l]
      else r ← new_levels f (div_ceil num_pages 64) (div_ceil capacity 64); Ret (l :: r)
  end.

Definition new (num_pages capacity : Z) : outcome t :=
  ls ← new_levels 7 num_pages capacity;
  Ret (tree (reverse ls)).

Fixpoint height_loop (fuel : nat) (capacity height : Z) : outcome Z :=
  match fuel with
  | O => Panic
  | S f => if 64 <? capacity then height_loop f (div_ceil capacity 64) (height + 1) else Ret height
  end.

Definition height_for_capacity (capacity : Z) : outcome Z := height_loop 7 capacity 1.

(** The padding loop of [new_padded]; [fuel] bounds the levels it inserts *)
Fixpoint pad_loop (fuel : nat) (max_height : Z) (hs : list U64GroupedBitmap.t)
    : outcome (list U64GroupedBitmap.t) :=
  if vlen hs <? max_height then
    match fuel with
    | O => Panic
    | S f =>
        root ← vget hs 0;
        let parent_len := div_ceil (U64GroupedBitmap.len root) 64 in
        pad_loop f max_height (U64GroupedBitmap.new_full parent_len parent_len :: hs)
    end
  else Ret hs.

Definition new_padded (num_pages capacity max_capacity : Z) : outcome t :=
  result ← new num_pages capacity;
  max_height ← height_for_capacity max_capacity;
  hs ← pad_loop (Z.to_nat max_height) max_height (heights result);
  Ret (tree hs).

(** The loop of [resize] over the levels, leaf first *)
Fixpoint resize_levels (levels : list U64GroupedBitmap.t) (new_len : Z) (full : bool)
    : outcome (list U64GroupedBitmap.t) :=
  match levels with
  | [] => Ret []
  | l :: up =>
      l' ← U64GroupedBitmap.resize l new_len full;
      up' ← resize_levels up (div_ceil new_len 64) full;
      Ret (l' :: up')
  end.

Definition resize (b : t) (new_len : Z) (full : bool) : outcome t :=
  ls ← resize_levels (reverse (heights b)) new_len full;
  let b' := tree (reverse ls) in
  root ← get_level b' 0;
  _ ← rassert (U64GroupedBitmap.len root <=? 64);
  Ret b'.

Definition to_vec (b : t) : outcome (list Z) :=
  height ← utry 32 (vlen (heights b));
  vecs ← omap_list U64GroupedBitmap.to_vec (heights b);
  let end_metadata := 4 + vlen (heights b) * 4 in
  ends ← end_offsets vecs end_metadata;
  let header := to_le_bytes 4 height ++ ends in
  _ ← rassert (end_metadata =? vlen header);
  Ret (header ++ concat vecs).

Definition from_bytes (bytes : list Z) : outcome t :=
  h ← slice bytes 0 4;
  let height := from_le_bytes h in
  ls ← read_sections U64GroupedBitmap.from_bytes (Z.to_nat height) bytes 4 (4 + height * 4);
  Ret (tree ls).

End BtreeBitmap.

(** * Specification vocabulary *)

Import U64GroupedBitmap (data, len).

(** The [k]-th word of a bitmap; past the end of its data every bit counts as set. *)
Definition word_at (b : U64GroupedBitmap.t) (k : Z) : Z :=
  default (umax 64) (data b !! Z.to_nat k).

(** Bit [i] of a bitmap. *)
Definition gbit (b : U64GroupedBitmap.t) (i : Z) : bool :=
  Z.testbit (word_at b (i / 64)) (i mod 64).

(** Well-formed: a [u32] length, [u64] words, and enough of them. *)
Definition gwf (b : U64GroupedBitmap.t) : Prop :=
  in_u 32 (len b) /\ Forall (in_u 64) (data b) /\
  U64GroupedBitmap.required_words (len b) <= vlen (data b).

(** The bits past the length are set, so that they never look free. *)
Definition padded (b : U64GroupedBitmap.t) : Prop :=
  forall i, len b <= i -> gbit b i = true.

(** All 64 bits of group [k] are set. *)
Definition group_full (b : U64GroupedBitmap.t) (k : Z) : Prop :=
  forall j, 64 * k <= j < 64 * k + 64 -> gbit b j = true.

(** * The flat bitmap *)

Lemma word_at_in_u b k : Forall (in_u 64) (data b) -> in_u 64 (word_at b k).
Proof.
  intros H. unfold word_at. destruct (data b !! Z.to_nat k) as [w|] eqn:E; simpl.
  - by eapply Forall_lookup_1 in H.
  - by unfold in_u, umax.
Qed.

Lemma word_at_lookup b k :
  0 <= k < vlen (data b) -> data b !! Z.to_nat k = Some (word_at b k).
Proof.
  unfold vlen, word_at. intros H.
  by destruct (lookup_lt_is_Some_2 (data b) (Z.to_nat k)) as [w ->]; [lia|].
Qed.

Lemma word_vget b k : 0 <= k < vlen (data b) -> vget (data b) k = Ret (word_at b k).
Proof. intros H. apply vget_ok; [lia|by apply word_at_lookup]. Qed.

Lemma gwf_word_index b i :
  gwf b -> 0 <= i < len b -> 0 <= i / 64 < vlen (data b).
Proof.
  intros (_ & _ & Hd) Hi. unfold U64GroupedBitmap.required_words in Hd.
  pose proof (div_ceil_bounds (len b) 64). split; [apply Z.div_pos; lia|].
  apply Z.div_lt_upper_bound; lia.
Qed.

(** Replacing word [k]. *)
Lemma word_at_update n d k w j :
  0 <= k < vlen d -> 0 <= j ->
  word_at (U64GroupedBitmap.mk n (<[Z.to_nat k := w]> d)) j =
    if j =? k then w else word_at (U64GroupedBitmap.mk n d) j.
Proof.
  unfold vlen, word_at. intros Hk Hj. simpl. destruct (Z.eqb_spec j k) as [->|].
  - by rewrite list_lookup_insert_eq by lia.
  - rewrite list_lookup_insert_ne by lia. done.
Qed.

Lemma gbit_as_word b k j :
  0 <= j < 64 -> gbit b (64 * k + j) = Z.testbit (word_at b k) j.
Proof.
  intros Hj. unfold gbit. f_equal; [f_equal|].
  - symmetry. apply Z.div_unique with j; lia.
  - symmetry. apply Z.mod_unique with k; lia.
Qed.

Lemma group_full_word b k :
  Forall (in_u 64) (data b) -> group_full b k <-> word_at b k = umax 64.
Proof.
  intros H. rewrite (umax_iff 64) by (try apply word_at_in_u; lia || done).
  unfold group_full. split; intros Hf i Hi.
  - rewrite <-gbit_as_word by lia. apply Hf. lia.
  - replace i with (64 * k + (i - 64 * k)) by lia. rewrite gbit_as_word by lia. apply Hf. lia.
Qed.

Lemma gbit_ext b b' :
  (forall k, 0 <= k -> word_at b' k = word_at b k) -> forall i, 0 <= i -> gbit b' i = gbit b i.
Proof. intros H i Hi. unfold gbit. rewrite H; [done|]. apply Z.div_pos; lia. Qed.

Lemma select_mask_testbit i j :
  0 <= i -> 0 <= j -> Z.testbit (U64GroupedBitmap.select_mask i) j = (j =? i).
Proof.
  intros. unfold U64GroupedBitmap.select_mask. rewrite Z.shiftl_spec by lia.
  destruct (Z.eqb_spec j i) as [->|].
  - by rewrite Z.sub_diag.
  - destruct (Z.lt_ge_cases j i); [by rewrite Z.testbit_neg_r by lia|].
    replace 1 with (2 ^ 0) by done. rewrite Z.pow2_bits_false by lia. done.
Qed.

Lemma select_mask_range i :
  0 <= i < 64 -> 0 <= U64GroupedBitmap.select_mask i < 2 ^ 64.
Proof.
  intros. unfold U64GroupedBitmap.select_mask. rewrite Z.shiftl_1_l.
  split; [lia|]. apply Z.pow_lt_mono_r; lia.
Qed.

Lemma lor_in_u w a b : 0 <= w -> in_u w a -> in_u w b -> in_u w (Z.lor a b).
Proof.
  intros Hw Ha Hb. apply in_u_bits; [done|]. intros i Hi.
  rewrite Z.lor_spec, !(testbit_high w) by (done || lia). done.
Qed.

Lemma land_in_u w a b : 0 <= w -> in_u w a -> 0 <= b -> in_u w (Z.land a b).
Proof.
  intros Hw Ha Hb. apply in_u_bits; [done|]. intros i Hi.
  rewrite Z.land_spec, (testbit_high w a) by (done || lia). done.
Qed.

Lemma unot_in_u w x : 0 <= w -> in_u w x -> in_u w (unot w x).
Proof.
  intros Hw Hx. apply in_u_bits; [done|]. intros i Hi. by apply unot_testbit_high.
Qed.

(** Every in-range update of one word of the bitmap by the value [w] keeps it
    well-formed and changes only the bits of that word. *)
Lemma gwf_update b k w :
  gwf b -> 0 <= k < vlen (data b) -> in_u 64 w ->
  gwf (U64GroupedBitmap.mk (len b) (<[Z.to_nat k := w]> (data b))) /\
  forall j, 0 <= j ->
    gbit (U64GroupedBitmap.mk (len b) (<[Z.to_nat k := w]> (data b))) j =
      if j / 64 =? k then Z.testbit w (j mod 64) else gbit b j.
Proof.
  intros (Hl & Hd & Hr) Hk Hw. split.
  - split; [done|]. simpl. split; [by apply Forall_insert|].
    unfold vlen in *. by rewrite length_insert.
  - intros j Hj. unfold gbit. rewrite word_at_update by (try apply Z.div_pos; lia).
    destruct b. simpl. by destruct (_ =? _).
Qed.

Lemma group_of_bit i j : 0 <= i -> 0 <= j ->
  (j =? i) = (j / 64 =? i / 64) && (j mod 64 =? i mod 64).
Proof.
  intros. pose proof (Z.div_mod i 64). pose proof (Z.div_mod j 64).
  destruct (Z.eqb_spec j i) as [->|]; [by rewrite !Z.eqb_refl|].
  destruct (Z.eqb_spec (j / 64) (i / 64)), (Z.eqb_spec (j mod 64) (i mod 64)); try done. lia.
Qed.

Lemma gb_get_spec b i :
  gwf b -> 0 <= i < len b -> U64GroupedBitmap.get b i = Ret (gbit b i).
Proof.
  intros Hb Hi. unfold U64GroupedBitmap.get, U64GroupedBitmap.data_index_of.
  assert (Hlt : (i <? len b) = true) by lia. rewrite Hlt. cbn [rassert mbind outcome_bind].
  rewrite word_vget by by apply gwf_word_index. cbn [mbind outcome_bind]. f_equal.
  assert (Hm : 0 <= i mod 64 < 64) by (apply Z.mod_pos_bound; lia).
  unfold gbit. destruct (Z.testbit (word_at b (i / 64)) (i mod 64)) eqn:E.
  - apply negb_true_iff, Z.eqb_neq. intros Hz. apply (f_equal (fun z => Z.testbit z (i mod 64))) in Hz.
    rewrite Z.land_spec, E, select_mask_testbit, Z.eqb_refl, Z.bits_0 in Hz by lia. done.
  - apply negb_false_iff, Z.eqb_eq. apply Z.bits_inj'. intros j Hj.
    rewrite Z.land_spec, select_mask_testbit, Z.bits_0 by lia.
    destruct (Z.eqb_spec j (i mod 64)) as [->|]; [by rewrite E|]. by rewrite andb_false_r.
Qed.

(** [set] sets exactly one bit and reports whether its group became full. *)
Lemma gb_set_spec b i :
  gwf b -> 0 <= i < len b ->
  exists b' f, U64GroupedBitmap.set b i = Ret (b', f) /\ gwf b' /\ len b' = len b /\
    (forall j, 0 <= j -> gbit b' j = (j =? i) || gbit b j) /\
    (f = true <-> group_full b' (i / 64)).
Proof.
  intros Hb Hi. unfold U64GroupedBitmap.set, U64GroupedBitmap.data_index_of.
  assert (Hlt : (i <? len b) = true) by lia. rewrite Hlt. cbn [rassert mbind outcome_bind].
  pose proof (gwf_word_index b i Hb Hi) as Hk.
  rewrite word_vget by done. cbn [mbind outcome_bind]. rewrite vset_ok by done.
  assert (Hm : 0 <= i mod 64 < 64) by (apply Z.mod_pos_bound; lia).
  set (w := Z.lor _ _).
  assert (Hw : in_u 64 w).
  { apply lor_in_u; [lia|apply word_at_in_u, Hb|by apply select_mask_range]. }
  destruct (gwf_update b (i / 64) w Hb Hk Hw) as [Hwf Hbits].
  do 2 eexists. split; [reflexivity|]. split; [done|]. split; [done|]. split.
  - intros j Hj. rewrite Hbits by done. rewrite (group_of_bit i j) by lia.
    destruct (Z.eqb_spec (j / 64) (i / 64)) as [E|]; [|done]. simpl. unfold w.
    rewrite Z.lor_spec, select_mask_testbit by (apply Z.mod_pos_bound; lia || lia).
    unfold gbit. rewrite E. by rewrite orb_comm.
  - rewrite group_full_word by apply Hwf. rewrite Z.eqb_eq.
    rewrite word_at_update by lia. by rewrite Z.eqb_refl.
Qed.

(** [clear] clears exactly one bit. *)
Lemma gb_clear_spec b i :
  gwf b -> 0 <= i < len b ->
  exists b', U64GroupedBitmap.clear b i = Ret b' /\ gwf b' /\ len b' = len b /\
    (forall j, 0 <= j -> gbit b' j = negb (j =? i) && gbit b j).
Proof.
  intros Hb Hi. unfold U64GroupedBitmap.clear, U64GroupedBitmap.data_index_of.
  assert (Hlt : (i <? len b) = true) by lia. rewrite Hlt. cbn [rassert mbind outcome_bind].
  pose proof (gwf_word_index b i Hb Hi) as Hk.
  rewrite word_vget by done. cbn [mbind outcome_bind]. rewrite vset_ok by done.
  assert (Hm : 0 <= i mod 64 < 64) by (apply Z.mod_pos_bound; lia).
  pose proof (select_mask_range (i mod 64) Hm) as Hsel.
  set (w := Z.land _ _).
  assert (Hw : in_u 64 w).
  { apply land_in_u; [lia|apply word_at_in_u, Hb|].
    apply (unot_in_u 64 (U64GroupedBitmap.select_mask (i mod 64))); [lia|done]. }
  destruct (gwf_update b (i / 64) w Hb Hk Hw) as [Hwf Hbits].
  eexists. split; [reflexivity|]. split; [done|]. split; [done|].
  intros j Hj. rewrite Hbits by done. rewrite (group_of_bit i j) by lia.
  destruct (Z.eqb_spec (j / 64) (i / 64)) as [E|]; [|done]. simpl. unfold w.
  assert (Hm' : 0 <= j mod 64 < 64) by (apply Z.mod_pos_bound; lia).
  rewrite Z.land_spec, unot_testbit, select_mask_testbit by lia.
  unfold gbit. rewrite E. by rewrite andb_comm.
Qed.

(** [first_unset] finds the lowest clear bit of the group at or after its start. *)
Lemma gb_first_unset_spec b s :
  gwf b -> 0 <= s -> s - s mod 64 + 64 < 2 ^ 32 -> len b = 0 \/ s / 64 < vlen (data b) ->
  exists o, U64GroupedBitmap.first_unset b s (s - s mod 64 + 64) = Ret o /\
    match o with
    | None => len b = 0 \/ forall j, s <= j < s - s mod 64 + 64 -> gbit b j = true
    | Some r => len b <> 0 /\ s <= r < s - s mod 64 + 64 /\ gbit b r = false /\
                forall j, s <= j < r -> gbit b j = true
    end.
Proof.
  intros Hb Hs Hlim Hidx. unfold U64GroupedBitmap.first_unset, U64GroupedBitmap.data_index_of.
  rewrite uadd_ok by lia. cbn [mbind outcome_bind]. rewrite Z.eqb_refl. cbn [mbind outcome_bind rassert].
  destruct (Z.eqb_spec (len b) 0) as [E|E]; [exists None; auto|].
  destruct Hidx as [?|Hidx]; [done|].
  pose proof (Z.div_mod s 64) as Hdm. pose proof (Z.mod_pos_bound s 64) as Hm.
  assert (0 <= s / 64) by (apply Z.div_pos; lia).
  rewrite word_vget by lia. cbn [mbind outcome_bind].
  set (g := Z.lor _ _). set (m := s mod 64) in *. set (q := s / 64) in *.
  assert (Hg : forall j, 0 <= j < 64 ->
            Z.testbit g j = (j <? m) || gbit b (64 * q + j)).
  { intros j Hj. unfold g. rewrite Z.lor_spec, gbit_as_word, Z.shiftl_1_l by lia.
    replace (2 ^ m - 1) with (Z.ones m) by (rewrite Z.ones_equiv; lia).
    rewrite Z.testbit_ones_nonneg by lia. by rewrite orb_comm. }
  destruct (trailing_ones_spec 64 g) as (Hb1 & Hlow & Hbit).
  set (x := trailing_ones 64 g) in *.
  destruct (Z.eqb_spec x 64) as [Ex|Ex].
  - exists None. split; [done|]. right. intros j Hj.
    specialize (Hlow (j - 64 * q)). rewrite Hg in Hlow by lia.
    replace (64 * q + (j - 64 * q)) with j in Hlow by lia.
    destruct (Z.ltb_spec (j - 64 * q) m); [lia|]. apply Hlow. lia.
  - assert (m <= x).
    { destruct (Z.le_gt_cases m x); [done|]. rewrite Hg in Hbit by lia.
      destruct (Z.ltb_spec x m); [|lia]. discriminate (Hbit ltac:(lia)). }
    orun. exists (Some (s + x - m)). split; [done|].
    rewrite Hg in Hbit by lia. destruct (Z.ltb_spec x m); [lia|].
    split; [done|]. split; [lia|]. split.
    + replace (s + x - m) with (64 * q + x) by lia. apply Hbit. lia.
    + intros j Hj. specialize (Hlow (j - 64 * q)). rewrite Hg in Hlow by lia.
      replace (64 * q + (j - 64 * q)) with j in Hlow by lia.
      destruct (Z.ltb_spec (j - 64 * q) m); [lia|]. apply Hlow. lia.
Qed.

Lemma bits_in_range_spec lo hi :
  0 <= lo < hi -> hi <= 64 ->
  exists m, bits_in_range lo hi = Ret m /\ in_u 64 m /\
    forall j, 0 <= j -> Z.testbit m j = (lo <=? j) && (j <? hi).
Proof.
  intros Hlo Hhi. unfold bits_in_range.
  assert (Hc : (lo <? hi) && (hi <=? 64) = true) by lia. rewrite Hc. cbn [rassert mbind outcome_bind].
  eexists. split; [reflexivity|].
  assert (Hbits : forall j, 0 <= j ->
    Z.testbit (Z.land (Z.land (Z.shiftl (umax 64) lo) (umax 64)) (Z.shiftr (umax 64) (64 - hi))) j
      = (lo <=? j) && (j <? hi)).
  { intros j Hj. rewrite !Z.land_spec, Z.shiftl_spec, Z.shiftr_spec, (umax_testbit _ j), (umax_testbit _ (j + _)) by lia.
    destruct (Z.leb_spec lo j).
    - rewrite umax_testbit by lia. destruct (Z.ltb_spec (j - lo) 64), (Z.ltb_spec j 64),
        (Z.ltb_spec (j + (64 - hi)) 64), (Z.ltb_spec j hi); simpl; lia || done.
    - rewrite Z.testbit_neg_r by lia. done. }
  split; [|done]. apply in_u_bits; [lia|]. intros i Hi. rewrite Hbits by lia.
  destruct (Z.ltb_spec i hi); [lia|]. by rewrite andb_false_r.
Qed.

(** One word of the loop of [resize]: the bits of word [k] that lie between the
    two lengths take the value [full]. *)
Lemma gb_resize_word full old_len new_len k b :
  gwf b -> in_u 32 new_len -> 0 <= old_len < new_len -> old_len / 64 <= k <= (new_len - 1) / 64 ->
  0 <= k < vlen (data b) ->
  exists d', U64GroupedBitmap.resize_word old_len new_len full k (data b) = Ret d' /\
    gwf (U64GroupedBitmap.mk (len b) d') /\
    forall j, 0 <= j -> gbit (U64GroupedBitmap.mk (len b) d') j =
      if (j / 64 =? k) && (old_len <=? j) && (j <? new_len) then full else gbit b j.
Proof.
  intros Hb Hl32 Hold Hk Hkd. unfold in_u in Hl32.
  pose proof (Z.div_mod old_len 64) as Ho. pose proof (Z.mod_pos_bound old_len 64) as Ho'.
  pose proof (Z.div_mod (new_len - 1) 64) as Hn. pose proof (Z.mod_pos_bound (new_len - 1) 64) as Hn'.
  unfold U64GroupedBitmap.resize_word. orun.
  destruct (bits_in_range_spec (saturating_sub old_len (k * 64)) (Z.min (new_len - k * 64) 64))
    as (m & Hm & Hmr & Hmb); [unfold saturating_sub; lia..|].
  rewrite Hm. cbn [mbind outcome_bind]. rewrite word_vget by done. cbn [mbind outcome_bind].
  rewrite vset_ok by done. set (w := if full then _ else _).
  assert (Hw : in_u 64 w).
  { pose proof (word_at_in_u b k (proj1 (proj2 Hb))). unfold w. destruct full.
    - apply lor_in_u; [lia|done..].
    - apply land_in_u; [lia|done|]. apply (unot_in_u 64 m); [lia|done]. }
  destruct (gwf_update b k w Hb Hkd Hw) as [Hwf Hbits].
  eexists. split; [reflexivity|]. split; [done|].
  intros j Hj. rewrite Hbits by done.
  pose proof (Z.div_mod j 64) as Hjd. pose proof (Z.mod_pos_bound j 64) as Hjm.
  destruct (Z.eqb_spec (j / 64) k) as [Ek|Ek]; [|done].
  assert (Hgb : gbit b j = Z.testbit (word_at b k) (j mod 64)) by (unfold gbit; by rewrite Ek).
  unfold w. rewrite Hgb. specialize (Hmb (j mod 64) ltac:(lia)).
  assert (Hcond : (saturating_sub old_len (k * 64) <=? j mod 64) && (j mod 64 <? Z.min (new_len - k * 64) 64)
          = (old_len <=? j) && (j <? new_len)) by (unfold saturating_sub; lia).
  rewrite Hcond in Hmb. simpl. destruct full.
  - rewrite Z.lor_spec, Hmb. destruct (_ && _); [apply orb_true_r|apply orb_false_r].
  - rewrite Z.land_spec, unot_testbit, Hmb by lia.
    destruct (_ && _); [apply andb_false_r|apply andb_true_r].
Qed.

(** The loop of [resize] over words [k .. k + n - 1]. *)
Lemma gb_resize_loop full old_len new_len n k b :
  gwf b -> len b = new_len -> 0 <= old_len < new_len ->
  old_len / 64 <= k -> k + Z.of_nat n = (new_len - 1) / 64 + 1 ->
  exists d', for_each (U64GroupedBitmap.resize_word old_len new_len full)
               (seqZ k (Z.of_nat n)) (data b) = Ret d' /\
    gwf (U64GroupedBitmap.mk new_len d') /\
    forall j, 0 <= j -> gbit (U64GroupedBitmap.mk new_len d') j =
      if (64 * k <=? j) && (old_len <=? j) && (j <? new_len) then full else gbit b j.
Proof.
  revert k b. induction n as [|n IH]; intros k b Hb Hlen Hold Hk Hend;
    pose proof (Z.div_mod (new_len - 1) 64) as Hn; pose proof (Z.mod_pos_bound (new_len - 1) 64) as Hn'.
  - exists (data b). split; [done|]. destruct b as [l d]; simpl in *; subst l. split; [done|].
    intros j Hj. by assert ((64 * k <=? j) && (old_len <=? j) && (j <? new_len) = false) as -> by lia.
  - rewrite seqZ_cons by lia. cbn [for_each].
    assert (0 <= old_len / 64) by (apply Z.div_pos; lia).
    assert (Hkd : 0 <= k < vlen (data b)).
    { destruct Hb as (Hl & _ & Hr). unfold U64GroupedBitmap.required_words in Hr.
      pose proof (div_ceil_bounds (len b) 64). lia. }
    destruct (gb_resize_word full old_len new_len k b Hb) as (d1 & Hd1 & Hwf & Hbits);
      [rewrite <-Hlen; apply Hb|lia..|].
    rewrite Hd1. cbn [mbind outcome_bind].
    destruct (IH (k + 1) _ Hwf) as (d' & Hd & Hwf' & Hbits'); [done|lia..|].
    simpl in Hd. replace (Z.pred (Z.of_nat (S n))) with (Z.of_nat n) by lia.
    change (Z.succ k) with (k + 1).
    rewrite Hd. exists d'. split; [done|]. split; [done|].
    intros j Hj. rewrite Hbits', Hbits by done.
    pose proof (Z.div_mod j 64) as Hjd. pose proof (Z.mod_pos_bound j 64) as Hjm.
    destruct (Z.eqb_spec (j / 64) k) as [Ek|Ek].
    + assert ((64 * (k + 1) <=? j) = false) as -> by lia.
      assert ((64 * k <=? j) = true) as -> by lia. done.
    + assert ((64 * (k + 1) <=? j) = (64 * k <=? j)) as -> by lia. done.
Qed.

(** Appending words of value [w] to the data. *)
Lemma gbit_extend n d k w j :
  0 <= j -> w = umax 64 \/ j / 64 < vlen d ->
  gbit (U64GroupedBitmap.mk n (d ++ replicate k w)) j = gbit (U64GroupedBitmap.mk n d) j.
Proof.
  unfold gbit, word_at, vlen. simpl. intros Hj Hw.
  assert (0 <= j / 64) by (apply Z.div_pos; lia).
  destruct (decide (Z.to_nat (j / 64) < length d)%nat).
  - by rewrite lookup_app_l.
  - destruct Hw as [->|]; [|lia]. rewrite lookup_app_r, (lookup_ge_None_2 d) by lia.
    destruct (replicate k (umax 64) !! _) eqn:E; [|done].
    by apply lookup_replicate_1 in E as [-> _].
Qed.

Lemma gbit_len n m d j :
  gbit (U64GroupedBitmap.mk n d) j = gbit (U64GroupedBitmap.mk m d) j.
Proof. done. Qed.

(** [resize] sets the length and gives the bits between the old and the new
    length the value [full], leaving the others alone. *)
Lemma gb_resize_spec b n full :
  gwf b -> in_u 32 n ->
  exists b', U64GroupedBitmap.resize b n full = Ret b' /\ gwf b' /\ len b' = n /\
    (forall j, 0 <= j -> full = true \/ j < n ->
      gbit b' j = if (len b <=? j) && (j <? n) then full else gbit b j).
Proof.
  intros Hb Hn. unfold U64GroupedBitmap.resize. set (w := if full then umax 64 else 0).
  set (d := if _ <? _ then _ else _).
  pose proof (div_ceil_bounds n 64) as Hc. unfold in_u in Hn.
  assert (Hwf : gwf (U64GroupedBitmap.mk n d)).
  { split; [done|]. destruct Hb as (_ & Hd & _). unfold d, vlen, U64GroupedBitmap.required_words in *.
    destruct (Z.ltb_spec (Z.of_nat (length (data b))) (div_ceil n 64)); simpl; [|done].
    rewrite length_app, length_replicate. split; [|lia].
    apply Forall_app; split; [done|]. apply Forall_replicate. unfold w. by destruct full. }
  assert (Hgb : forall j, 0 <= j -> full = true \/ j < len b ->
             gbit (U64GroupedBitmap.mk n d) j = gbit b j).
  { intros j Hj Hf. unfold d. destruct (_ <? _); [|by destruct b].
    rewrite gbit_extend; [by destruct b|done|]. destruct Hf as [->|Hf]; [by left|right].
    by apply gwf_word_index. }
  assert (0 <= len b) by apply Hb.
  destruct (Z.leb_spec n (len b)) as [Hle|Hgt].
  - eexists. split; [reflexivity|]. split; [done|]. split; [done|].
    intros j Hj Hf. assert ((len b <=? j) && (j <? n) = false) as -> by lia.
    apply Hgb; [done|]. destruct Hf; [by left|right; lia].
  - pose proof (Z.div_le_mono (len b) (n - 1) 64).
    destruct (gb_resize_loop full (len b) n (Z.to_nat ((n - 1) / 64 - len b / 64 + 1))
                (len b / 64) (U64GroupedBitmap.mk n d)) as (d' & Hd & Hwf' & Hbits); [done|done|lia..|].
    rewrite Z2Nat.id in Hd by lia. simpl in Hd. rewrite Hd. cbn [mbind outcome_bind].
    eexists. split; [reflexivity|]. split; [done|]. split; [done|].
    intros j Hj Hf. rewrite Hbits by done.
    pose proof (Z.mul_div_le (len b) 64).
    assert ((64 * (len b / 64) <=? j) && (len b <=? j) && (j <? n) = (len b <=? j) && (j <? n)) as -> by lia.
    destruct (_ && _) eqn:E; [done|]. apply Hgb; [done|]. destruct Hf; [by left|right; lia].
Qed.

(** Growing with [full = true] a bitmap whose padding is set, or shrinking one
    whose dropped bits are set, changes no bit at all. *)
Lemma gb_resize_true b n :
  gwf b -> in_u 32 n -> (forall j, Z.min n (len b) <= j -> gbit b j = true) ->
  exists b', U64GroupedBitmap.resize b n true = Ret b' /\ gwf b' /\ len b' = n /\
    forall j, 0 <= j -> gbit b' j = gbit b j.
Proof.
  intros Hb Hn Hpad. destruct (gb_resize_spec b n true Hb Hn) as (b' & H1 & H2 & H3 & H4).
  exists b'. split; [done|]. split; [done|]. split; [done|]. intros j Hj. rewrite H4 by auto.
  destruct ((len b <=? j) && (j <? n)) eqn:E; [|done]. symmetry. apply Hpad. lia.
Qed.

Lemma gb_new_full_gwf n c : in_u 32 n -> n <= c -> gwf (U64GroupedBitmap.new_full n c).
Proof.
  intros Hn Hc. unfold in_u in Hn. unfold U64GroupedBitmap.new_full. split; [done|]. simpl.
  split; [by apply Forall_replicate|]. unfold vlen, U64GroupedBitmap.required_words.
  rewrite length_replicate. rewrite !div_ceil_spec by lia.
  pose proof (Z.div_le_mono (n + 64 - 1) (c + 64 - 1) 64). lia.
Qed.

Lemma gb_new_full_bit n c i : 0 <= i -> gbit (U64GroupedBitmap.new_full n c) i = true.
Proof.
  intros Hi. unfold gbit. pose proof (Z.mod_pos_bound i 64).
  assert (word_at (U64GroupedBitmap.new_full n c) (i / 64) = umax 64) as ->.
  { unfold word_at, U64GroupedBitmap.new_full. simpl.
    destruct (_ !! _) eqn:E; [|done]. by apply lookup_replicate_1 in E as [-> _]. }
  rewrite umax_testbit by lia. lia.
Qed.

(** * The bitmap tree *)

Import BtreeBitmap (heights).

(** A level of the tree: well-formed, with its padding set, and short enough
    that the index arithmetic of the search stays below [2^32]. *)
Definition level_wf (l : U64GroupedBitmap.t) : Prop :=
  gwf l /\ padded l /\ len l <= 2 ^ 32 - 128.

(** Bit [k] of the parent says whether group [k] of the child is full. *)
Definition summary (p c : U64GroupedBitmap.t) (k : Z) : Prop :=
  gbit p k = true <-> group_full c k.

Definition level_len (p c : U64GroupedBitmap.t) : Prop := len p = div_ceil (len c) 64.

(** The invariant of the tree, but for the summary bits [ok] leaves out. *)
Record bwf_but (ok : nat -> Z -> Prop) (b : BtreeBitmap.t) : Prop := {
  bwf_levels : Forall level_wf (heights b);
  bwf_height : (0 < length (heights b))%nat /\ vlen (heights b) < 2 ^ 32;
  bwf_root : forall l, heights b !! 0%nat = Some l -> len l <= 64;
  bwf_lens : forall k p c, heights b !! k = Some p -> heights b !! S k = Some c -> level_len p c;
  bwf_summary : forall k p c j, heights b !! k = Some p -> heights b !! S k = Some c ->
    0 <= j -> ok k j -> summary p c j }.

(** The invariant of [BtreeBitmap]. *)
Definition bwf : BtreeBitmap.t -> Prop := bwf_but (fun _ _ => True).

Definition leaf (b : BtreeBitmap.t) : U64GroupedBitmap.t :=
  default (U64GroupedBitmap.mk 0 []) (last (heights b)).
(** The abstract view of the tree: its length and its bits. *)
Definition blen (b : BtreeBitmap.t) : Z := len (leaf b).
Definition bbit (b : BtreeBitmap.t) (i : Z) : bool := gbit (leaf b) i.
Definition bheight (b : BtreeBitmap.t) : nat := length (heights b).

Lemma heights_leaf ok b :
  bwf_but ok b -> heights b !! pred (length (heights b)) = Some (leaf b).
Proof.
  intros Hb. unfold leaf. rewrite last_lookup.
  by destruct (lookup_lt_is_Some_2 (heights b) (pred (length (heights b)))) as [l ->];
    [destruct Hb as [_ [? _] _ _ _]; lia|].
Qed.

Lemma level_wf_lookup ok b k l : bwf_but ok b -> heights b !! k = Some l -> level_wf l.
Proof. intros Hb Hk. by eapply Forall_lookup_1 in Hk; [|apply Hb]. Qed.

Lemma leaf_level_wf ok b : bwf_but ok b -> level_wf (leaf b).
Proof. intros Hb. eapply level_wf_lookup; [done|by eapply heights_leaf]. Qed.

Lemma get_height_ok ok b : bwf_but ok b -> BtreeBitmap.get_height b = Ret (vlen (heights b)).
Proof.
  intros Hb. unfold BtreeBitmap.get_height. apply utry_ok.
  destruct Hb as [_ [_ ?] _ _ _]. unfold vlen in *. lia.
Qed.

Lemma get_level_ok ok b k l :
  bwf_but ok b -> heights b !! k = Some l -> BtreeBitmap.get_level b (Z.of_nat k) = Ret l.
Proof.
  intros Hb Hk. unfold BtreeBitmap.get_level. erewrite get_height_ok by done.
  cbn [mbind outcome_bind]. pose proof (lookup_lt_Some _ _ _ Hk).
  assert ((Z.of_nat k <? vlen (heights b)) = true) as -> by (unfold vlen; lia).
  cbn [rassert mbind outcome_bind]. apply vget_ok; [lia|by rewrite Nat2Z.id].
Qed.

Lemma put_level_ok ok b k l l' :
  bwf_but ok b -> heights b !! k = Some l ->
  BtreeBitmap.put_level b (Z.of_nat k) l' = Ret (BtreeBitmap.tree (<[k := l']> (heights b))).
Proof.
  intros Hb Hk. unfold BtreeBitmap.put_level. erewrite get_height_ok by done.
  cbn [mbind outcome_bind]. pose proof (lookup_lt_Some _ _ _ Hk).
  assert ((Z.of_nat k <? vlen (heights b)) = true) as -> by (unfold vlen; lia).
  cbn [rassert mbind outcome_bind]. rewrite vset_ok by (unfold vlen; lia).
  by rewrite Nat2Z.id.
Qed.

Lemma leaf_level_ok ok b : bwf_but ok b -> BtreeBitmap.leaf_level b = Ret (leaf b).
Proof.
  intros Hb. unfold BtreeBitmap.leaf_level. erewrite get_height_ok by done.
  pose proof (heights_leaf _ _ Hb) as Hl. cbn [mbind outcome_bind].
  destruct Hb as [Hlv [Hh Hv] Hr Hls Hs]. rewrite usub_ok by (unfold vlen; lia).
  cbn [mbind outcome_bind]. unfold vlen.
  replace (Z.of_nat (length (heights b)) - 1) with (Z.of_nat (pred (length (heights b)))) by lia.
  by eapply (get_level_ok ok); [split|].
Qed.

(** A group of a padded child is full past the child's summary. *)
Lemma padded_group_full c k : 0 <= len c -> padded c -> len c <= 64 * k -> group_full c k.
Proof. intros Hl Hp Hk j Hj. apply Hp. lia. Qed.

(** The loop of the search: below level [k], whose first clear bit is [entry], it
    returns the first clear bit of the leaf. *)
Lemma bt_descend_spec b rest : bwf b -> forall k p entry,
  heights b !! k = Some p -> drop (S k) (heights b) = rest ->
  0 <= entry -> gbit p entry = false -> (forall j, 0 <= j < entry -> gbit p j = true) ->
  exists e, BtreeBitmap.descend rest entry = Ret e /\ 0 <= e /\ bbit b e = false /\
    (forall j, 0 <= j < e -> bbit b j = true).
Proof.
  intros Hb. induction rest as [|c r IH]; intros k p entry Hk Hd He Hf Hmin.
  - exists entry. unfold bbit. assert (leaf b = p) as ->; [|done].
    pose proof (heights_leaf _ _ Hb) as Hl. pose proof (lookup_lt_Some _ _ _ Hk).
    apply (f_equal length) in Hd. rewrite length_drop in Hd. simpl in Hd.
    replace (pred (length (heights b))) with k in Hl by lia. congruence.
  - assert (Hc : heights b !! S k = Some c).
    { rewrite <-(Nat.add_0_r (S k)), <-lookup_drop, Hd. done. }
    pose proof (bwf_lens _ _ Hb _ _ _ Hk Hc) as Hlen. unfold level_len in Hlen.
    pose proof (fun j Hj => bwf_summary _ _ Hb k p c j Hk Hc Hj I) as Hsum. unfold summary in Hsum.
    destruct (level_wf_lookup _ _ _ _ Hb Hc) as (Hcw & Hcp & Hcl).
    destruct (level_wf_lookup _ _ _ _ Hb Hk) as (Hpw & Hpp & _).
    assert (Hent : entry < len p).
    { destruct (Z.lt_ge_cases entry (len p)); [done|]. rewrite Hpp in Hf by lia. done. }
    assert (0 <= len c) by apply Hcw.
    pose proof (div_ceil_bounds (len c) 64).
    cbn [BtreeBitmap.descend]. orun.
    assert (Hmod : (entry * 64) mod 64 = 0) by (by rewrite Z.mod_mul).
    destruct (gb_first_unset_spec c (entry * 64)) as (o & Ho & Hspec); [done|lia|lia| |].
    { right. apply (gwf_word_index c); [done|lia]. }
    rewrite Hmod, Z.sub_0_r in Ho, Hspec. rewrite Ho. cbn [mbind outcome_bind].
    destruct o as [e'|]; cycle 1.
    { destruct Hspec as [?|Hfull]; [lia|]. exfalso.
      assert (gbit p entry = true); [|congruence]. apply Hsum; [lia|].
      intros j Hj. apply Hfull. lia. }
    destruct Hspec as (_ & Hr & He' & Hmin'). cbn [unwrap mbind outcome_bind].
    destruct (IH (S k) c e') as (e & Hde & Hspec); [done| |lia|done| |exists e; by rewrite Hde].
    { replace (S (S k)) with (S k + 1)%nat by lia. by rewrite <-drop_drop, Hd. }
    intros j Hj. destruct (Z.lt_ge_cases j (entry * 64)); [|apply Hmin'; lia].
    assert (Hgf : group_full c (j / 64)).
    { apply Hsum; [apply Z.div_pos; lia|]. apply Hmin. split; [apply Z.div_pos; lia|].
      apply Z.div_lt_upper_bound; lia. }
    apply Hgf. pose proof (Z.div_mod j 64). pose proof (Z.mod_pos_bound j 64). lia.
Qed.

(** [find_first_unset] returns the lowest clear bit of the leaf level, and [None]
    exactly when there is none. *)
Lemma bt_find_first_unset_spec b :
  bwf b -> exists o, BtreeBitmap.find_first_unset b = Ret o /\
    match o with
    | Some e => 0 <= e < blen b /\ bbit b e = false /\ (forall j, 0 <= j < e -> bbit b j = true)
    | None => forall j, 0 <= j -> bbit b j = true
    end.
Proof.
  intros Hb. destruct (lookup_lt_is_Some_2 (heights b) 0) as [root Hroot]; [apply Hb|].
  unfold BtreeBitmap.find_first_unset.
  rewrite (get_level_ok _ _ 0%nat root Hb Hroot : BtreeBitmap.get_level b 0 = _).
  cbn [mbind outcome_bind].
  pose proof (bwf_root _ _ Hb _ Hroot) as Hr64.
  destruct (level_wf_lookup _ _ _ _ Hb Hroot) as (Hw & Hp & Hl).
  assert (Hpos : 0 <= len root) by apply Hw.
  destruct (gb_first_unset_spec root 0) as (o & Ho & Hspec); [done|lia|done| |].
  { destruct (decide (len root = 0)); [by left|right].
    apply (gwf_word_index root); [done|lia]. }
  change (0 - 0 mod 64 + 64) with 64 in Ho, Hspec. rewrite Ho. cbn [mbind outcome_bind].
  destruct o as [r|].
  - destruct Hspec as (_ & Hr & Hf & Hmin).
    destruct (bt_descend_spec b (tail (heights b)) Hb 0 root r) as (e & He & H0 & Hfe & Hme);
      [done|by destruct (heights b)|lia|done|done|].
    rewrite He. cbn [mbind outcome_bind]. eexists. split; [done|]. split; [|done].
    split; [done|]. destruct (Z.lt_ge_cases e (blen b)); [done|].
    unfold bbit in Hfe. destruct (leaf_level_wf _ _ Hb) as (_ & Hpl & _).
    rewrite Hpl in Hfe by done. done.
  - exists None. split; [done|].
    assert (Hall : forall k p, heights b !! k = Some p -> forall j, 0 <= j -> gbit p j = true).
    { induction k as [|k IH]; intros p Hk j Hj.
      - replace p with root by congruence. destruct (Z.lt_ge_cases j (len root)) as [|]; [|apply Hp; lia].
        destruct Hspec as [?|Hs]; [lia|apply Hs; lia].
      - destruct (lookup_lt_is_Some_2 (heights b) k) as [q Hq]; [apply lookup_lt_Some in Hk; lia|].
        assert (Hgf : group_full p (j / 64)).
        { apply (bwf_summary _ _ Hb k q p (j / 64) Hq Hk); [apply Z.div_pos; lia|done|].
          apply (IH q Hq). apply Z.div_pos; lia. }
        apply Hgf. pose proof (Z.div_mod j 64). pose proof (Z.mod_pos_bound j 64). lia. }
    intros j Hj. eapply Hall; [by eapply heights_leaf|done].
Qed.

(** Changing the single bit [entry] of level [k], keeping its padding. *)
Definition bit_change (l l' : U64GroupedBitmap.t) (entry : Z) (v : bool) : Prop :=
  gwf l' /\ len l' = len l /\
  forall j, 0 <= j -> gbit l' j = if j =? entry then v else gbit l j.

Lemma bit_change_level_wf l l' entry v :
  level_wf l -> 0 <= entry < len l -> bit_change l l' entry v -> level_wf l'.
Proof.
  intros (Hw & Hp & Hl) He (Hw' & Hlen & Hb). split; [done|]. split; [|lia].
  intros i Hi. rewrite Hb by lia. destruct (Z.eqb_spec i entry); [lia|]. apply Hp. lia.
Qed.

Lemma bit_change_group l l' entry v k :
  0 <= k -> k <> entry / 64 -> bit_change l l' entry v -> (group_full l' k <-> group_full l k).
Proof.
  intros Hk Hne (_ & _ & Hb). unfold group_full.
  assert (forall j, 64 * k <= j < 64 * k + 64 -> gbit l' j = gbit l j) as Heq.
  { intros j Hj. rewrite Hb by lia. destruct (Z.eqb_spec j entry) as [->|]; [|done].
    exfalso. apply Hne. apply Z.div_unique with (entry - 64 * k); lia. }
  split; intros Hf j Hj; specialize (Hf j Hj); rewrite Heq in *; done.
Qed.

(** The bits the loop step changes in the parent level, as one statement for
    [set] and [clear]. *)
Lemma bt_level_step l entry (full : bool) :
  level_wf l -> 0 <= entry < len l ->
  exists l' f, (if full then U64GroupedBitmap.set l entry
                else l' ← U64GroupedBitmap.clear l entry; Ret (l', false)) = Ret (l', f) /\
    bit_change l l' entry full /\ (f = true <-> group_full l' (entry / 64)).
Proof.
  intros (Hw & Hp & Hl) He. destruct full.
  - destruct (gb_set_spec l entry Hw He) as (l' & f & -> & Hw' & Hlen & Hb & Hf).
    exists l', f. split; [done|]. split; [|done]. split; [done|]. split; [done|].
    intros j Hj. rewrite Hb by done. by destruct (j =? entry).
  - destruct (gb_clear_spec l entry Hw He) as (l' & -> & Hw' & Hlen & Hb).
    exists l', false. split; [done|]. split.
    + split; [done|]. split; [done|]. intros j Hj. rewrite Hb by done. by destruct (j =? entry).
    + split; [done|]. intros Hf. specialize (Hf entry). rewrite Hb, Z.eqb_refl in Hf by lia.
      pose proof (Z.div_mod entry 64). pose proof (Z.mod_pos_bound entry 64).
      discriminate Hf. lia.
Qed.

(** Replacing level [k] by one with a single bit changed: the summaries that
    stay known are those of level [k] (but for the bit) and those of the level
    above (but for the group of the bit). *)
Lemma bwf_but_change (ok : nat -> Z -> Prop) b k l l' entry v :
  bwf_but ok b -> heights b !! k = Some l -> 0 <= entry < len l -> bit_change l l' entry v ->
  bwf_but (fun i j => (i <> k \/ j <> entry) /\ (S i <> k \/ j <> entry / 64) /\ ok i j)
    (BtreeBitmap.tree (<[k := l']> (heights b))).
Proof.
  intros Hb Hk He Hc. pose proof (level_wf_lookup _ _ _ _ Hb Hk) as Hlw.
  pose proof Hc as (Hw' & Hlen & Hbit). destruct Hb as [Hlv [Hh Hv] Hr Hls Hs].
  assert (Hlk : forall i x, <[k := l']> (heights b) !! i = Some x ->
    (i = k /\ x = l') \/ (i <> k /\ heights b !! i = Some x)).
  { intros i x Hx. destruct (decide (i = k)) as [->|].
    - rewrite list_lookup_insert_eq in Hx by by eapply lookup_lt_Some. left. by simplify_eq.
    - rewrite list_lookup_insert_ne in Hx by done. by right. }
  split; simpl.
  - apply Forall_insert; [done|]. by eapply bit_change_level_wf.
  - unfold vlen in *. rewrite length_insert. done.
  - intros x Hx. destruct (Hlk _ _ Hx) as [[<- ->]|[? ?]]; [rewrite Hlen|]; eauto.
  - intros i p c Hp Hcc. unfold level_len. destruct (Hlk _ _ Hp) as [[-> ->]|[? ?]],
      (Hlk _ _ Hcc) as [[? ->]|[? ?]]; try lia; rewrite ?Hlen; subst; eapply Hls; eauto.
  - intros i p c j Hp Hcc Hj (H1 & H2 & Hok). unfold summary.
    destruct (Hlk _ _ Hp) as [[-> ->]|[? Hp']], (Hlk _ _ Hcc) as [[Hi ->]|[? Hc']]; try lia.
    + rewrite Hbit by done. destruct (Z.eqb_spec j entry); [naive_solver|]. by eapply Hs.
    + rewrite (bit_change_group l l' entry v) by (done || naive_solver). subst k. by eapply Hs.
    + by eapply Hs.
Qed.

Lemma bwf_but_weaken (ok ok' : nat -> Z -> Prop) b :
  (forall i j, (S i < length (heights b))%nat -> ok' i j -> ok i j) -> bwf_but ok b -> bwf_but ok' b.
Proof.
  intros H [Hlv Hh Hr Hls Hs]. split; try done. intros k p c j Hp Hc Hj Hok.
  eapply Hs; eauto. apply H; [by eapply lookup_lt_Some|done].
Qed.

(** A summary bit known on its own completes the invariant. *)
Lemma bwf_but_add (ok : nat -> Z -> Prop) b k e :
  bwf_but (fun i j => (i <> k \/ j <> e) /\ ok i j) b ->
  (forall p c, heights b !! k = Some p -> heights b !! S k = Some c -> summary p c e) ->
  bwf_but ok b.
Proof.
  intros [Hlv Hh Hr Hls Hs] Hk. split; try done. intros i p c j Hp Hc Hj Hok.
  destruct (decide (i = k /\ j = e)) as [[-> ->]|Hne]; [by apply Hk|].
  eapply Hs; eauto. split; [|done].
  destruct (decide (i = k)); [right|left]; naive_solver.
Qed.

(** The loop of [update_to_root] repairs the summaries from level [ph] up. *)
Lemma bt_update_loop_spec ph : forall b p c entry full,
  bwf_but (fun i j => i <> ph \/ j <> entry) b ->
  heights b !! ph = Some p -> heights b !! S ph = Some c ->
  0 <= entry < len p -> (full = true <-> group_full c entry) ->
  exists b', BtreeBitmap.update_loop ph b entry full = Ret b' /\ bwf b' /\
    length (heights b') = length (heights b) /\
    forall k, (ph < k)%nat -> heights b' !! k = heights b !! k.
Proof.
  induction ph as [|ph IH]; intros b p c entry full Hb Hp Hc He Hfull.
  all: pose proof (level_wf_lookup _ _ _ _ Hb Hp) as Hlw.
  all: destruct (bt_level_step p entry full Hlw He) as (p' & f & Hstep & Hchg & Hf).
  all: cbn [BtreeBitmap.update_loop]; erewrite get_level_ok by done; cbn [mbind outcome_bind].
  all: rewrite Hstep; cbn [mbind outcome_bind fst snd]; erewrite put_level_ok by done.
  all: cbn [mbind outcome_bind].
  all: pose proof (bwf_but_change _ _ _ _ _ _ _ Hb Hp He Hchg) as Hb'.
  all: pose proof (lookup_lt_Some _ _ _ Hp) as Hlt.
  all: pose proof Hchg as (_ & Hlen' & Hbit).
  all: assert (Hsum : summary p' c entry) by
         (unfold summary; rewrite Hbit, Z.eqb_refl by lia; done).
  - eexists. split; [done|]. simpl. rewrite length_insert. split; [|split; [done|]].
    + apply (bwf_but_add _ _ 0%nat entry).
      * eapply bwf_but_weaken; [|exact Hb']. intros i j _ Hij. simpl. naive_solver lia.
      * simpl. intros q d Hq Hd. rewrite list_lookup_insert_eq in Hq by done.
        rewrite list_lookup_insert_ne in Hd by lia. by simplify_eq.
    + intros k Hk. by rewrite list_lookup_insert_ne by lia.
  - destruct (lookup_lt_is_Some_2 (heights b) ph) as [g Hg]; [lia|].
    pose proof (bwf_lens _ _ Hb _ _ _ Hg Hp) as Hgl. unfold level_len in Hgl.
    assert (0 <= len p) by lia. pose proof (div_ceil_bounds (len p) 64).
    destruct (IH (BtreeBitmap.tree (<[S ph := p']> (heights b))) g p' (entry / 64) f)
      as (b' & Hrun & Hwf & Hlen & Hsame).
    + apply (bwf_but_add _ _ (S ph) entry).
      * eapply bwf_but_weaken; [|exact Hb']. intros i j _ Hij. simpl.
        destruct (decide (i = ph)); naive_solver lia.
      * simpl. intros q d Hq Hd. rewrite list_lookup_insert_eq in Hq by done.
        rewrite list_lookup_insert_ne in Hd by lia. by simplify_eq.
    + simpl. by rewrite list_lookup_insert_ne by lia.
    + simpl. by rewrite list_lookup_insert_eq.
    + split; [apply Z.div_pos; lia|]. apply Z.div_lt_upper_bound; lia.
    + done.
    + exists b'. split; [done|]. split; [done|]. simpl in Hlen, Hsame. rewrite length_insert in Hlen.
      split; [done|]. intros k Hk. rewrite Hsame by lia. by rewrite list_lookup_insert_ne by lia.
Qed.

(** [update_to_root] after one bit of the leaf changed. *)
Lemma bt_update_to_root_spec b i l l' full f :
  bwf b -> l = leaf b -> 0 <= i < len l -> bit_change l l' i full ->
  (f = true <-> group_full l' (i / 64)) ->
  let b1 := BtreeBitmap.tree (<[pred (length (heights b)) := l']> (heights b)) in
  exists b', BtreeBitmap.update_to_root b1 i f = Ret b' /\ bwf b' /\ bheight b' = bheight b /\
    leaf b' = l'.
Proof.
  intros Hb -> Hi Hc Hf b1. pose proof (heights_leaf _ _ Hb) as Hl.
  pose proof (lookup_lt_Some _ _ _ Hl) as Hlt.
  pose proof (bwf_but_change _ _ _ _ _ _ _ Hb Hl Hi Hc) as Hb1. fold b1 in Hb1.
  assert (Hleaf1 : heights b1 !! pred (length (heights b)) = Some l').
  { unfold b1. simpl. by rewrite list_lookup_insert_eq. }
  unfold BtreeBitmap.update_to_root. erewrite get_height_ok by done. cbn [mbind outcome_bind].
  assert (Hlen1 : length (heights b1) = length (heights b)) by (unfold b1; simpl; by rewrite length_insert).
  unfold vlen. rewrite Hlen1. destruct (Z.eqb_spec (Z.of_nat (length (heights b))) 1) as [E|E].
  - exists b1. split; [done|]. split.
    + eapply bwf_but_weaken; [|exact Hb1]. intros i' j Hij _. simpl. lia.
    + split; [done|]. unfold leaf. rewrite last_lookup, Hlen1, Hleaf1. done.
  - rewrite usub_ok by lia. cbn [mbind outcome_bind].
    set (ph := Z.to_nat (Z.of_nat (length (heights b)) - 2)).
    destruct (lookup_lt_is_Some_2 (heights b1) ph) as [g Hg]; [lia|].
    replace (pred (length (heights b))) with (S ph) in * by lia.
    pose proof (bwf_lens _ _ Hb1 _ _ _ Hg Hleaf1) as Hgl. unfold level_len in Hgl.
    pose proof Hc as (_ & Hlen' & _).
    pose proof (div_ceil_bounds (len l') 64).
    destruct (bt_update_loop_spec ph b1 g l' (i / 64) f) as (b' & Hrun & Hwf & Hlenb & Hsame);
      [|done|done| |done|].
    + eapply bwf_but_weaken; [|exact Hb1]. intros i' j Hij Hok. simpl.
      destruct (decide (i' = S ph)); [lia|]. naive_solver lia.
    + split; [apply Z.div_pos; lia|]. apply Z.div_lt_upper_bound; lia.
    + exists b'. split; [done|]. split; [done|]. split; [unfold bheight; congruence|].
      unfold leaf. rewrite last_lookup, Hlenb, Hlen1.
      replace (pred (length (heights b))) with (S ph) by lia.
      by rewrite Hsame, Hleaf1 by lia.
Qed.

(** ** The operations on the abstract view *)

Lemma bt_get_spec b i : bwf b -> 0 <= i < blen b -> BtreeBitmap.get b i = Ret (bbit b i).
Proof.
  intros Hb Hi. unfold BtreeBitmap.get. erewrite leaf_level_ok by done. cbn [mbind outcome_bind].
  apply gb_get_spec; [|done]. by destruct (leaf_level_wf _ _ Hb).
Qed.

Lemma bt_len_spec b : bwf b -> BtreeBitmap.len b = Ret (blen b).
Proof. intros Hb. unfold BtreeBitmap.len. by erewrite leaf_level_ok by done. Qed.

Lemma bt_set_spec b i :
  bwf b -> 0 <= i < blen b ->
  exists b', BtreeBitmap.set b i = Ret b' /\ bwf b' /\ blen b' = blen b /\
    bheight b' = bheight b /\ forall j, 0 <= j -> bbit b' j = (j =? i) || bbit b j.
Proof.
  intros Hb Hi. pose proof (leaf_level_wf _ _ Hb) as Hlw. pose proof (heights_leaf _ _ Hb) as Hl.
  unfold BtreeBitmap.set. erewrite get_height_ok by done. cbn [mbind outcome_bind].
  destruct (bwf_height _ _ Hb) as [Hh _].
  rewrite usub_ok by (unfold vlen; lia). cbn [mbind outcome_bind]. unfold vlen.
  replace (Z.of_nat (length (heights b)) - 1) with (Z.of_nat (pred (length (heights b)))) by lia.
  erewrite get_level_ok by done. cbn [mbind outcome_bind].
  destruct (bt_level_step (leaf b) i true Hlw Hi) as (l' & f & Hs & Hc & Hf). simpl in Hs.
  rewrite Hs. cbn [mbind outcome_bind fst snd]. erewrite put_level_ok by done. cbn [mbind outcome_bind].
  destruct (bt_update_to_root_spec b i _ l' true f Hb eq_refl Hi Hc Hf) as (b' & Hrun & Hwf & Hhgt & Hleaf).
  exists b'. split; [done|]. split; [done|]. unfold blen, bbit. rewrite Hleaf.
  destruct Hc as (_ & Hlen & Hbit). split; [done|]. split; [done|].
  intros j Hj. rewrite Hbit by done. by destruct (j =? i).
Qed.

Lemma bt_clear_spec b i :
  bwf b -> 0 <= i < blen b ->
  exists b', BtreeBitmap.clear b i = Ret b' /\ bwf b' /\ blen b' = blen b /\
    bheight b' = bheight b /\ forall j, 0 <= j -> bbit b' j = negb (j =? i) && bbit b j.
Proof.
  intros Hb Hi. pose proof (leaf_level_wf _ _ Hb) as Hlw. pose proof (heights_leaf _ _ Hb) as Hl.
  unfold BtreeBitmap.clear. erewrite get_height_ok by done. cbn [mbind outcome_bind].
  destruct (bwf_height _ _ Hb) as [Hh _].
  rewrite usub_ok by (unfold vlen; lia). cbn [mbind outcome_bind]. unfold vlen.
  replace (Z.of_nat (length (heights b)) - 1) with (Z.of_nat (pred (length (heights b)))) by lia.
  erewrite get_level_ok by done. cbn [mbind outcome_bind].
  destruct (bt_level_step (leaf b) i false Hlw Hi) as (l' & f & Hs & Hc & Hf).
  rinv Hs. destruct (U64GroupedBitmap.clear (leaf b) i) as [l''|] eqn:Hcl; [|done].
  simplify_eq. cbn [mbind outcome_bind]. erewrite put_level_ok by done. cbn [mbind outcome_bind].
  destruct (bt_update_to_root_spec b i _ l' false false Hb eq_refl Hi Hc) as (b' & Hrun & Hwf & Hhgt & Hleaf);
    [naive_solver|].
  exists b'. split; [done|]. split; [done|]. unfold blen, bbit. rewrite Hleaf.
  destruct Hc as (_ & Hlen & Hbit). split; [done|]. split; [done|].
  intros j Hj. rewrite Hbit by done. by destruct (j =? i).
Qed.

(** [alloc] takes the lowest free id, or fails when every id is taken. *)
Lemma bt_alloc_spec b :
  bwf b -> exists b' o, BtreeBitmap.alloc b = Ret (b', o) /\ bwf b' /\ blen b' = blen b /\
    bheight b' = bheight b /\
    match o with
    | None => b' = b /\ forall j, 0 <= j -> bbit b j = true
    | Some e => 0 <= e < blen b /\ bbit b e = false /\ (forall j, 0 <= j < e -> bbit b j = true) /\
                forall j, 0 <= j -> bbit b' j = (j =? e) || bbit b j
    end.
Proof.
  intros Hb. unfold BtreeBitmap.alloc.
  destruct (bt_find_first_unset_spec b Hb) as (o & -> & Hspec). cbn [mbind outcome_bind].
  destruct o as [e|]; [|by exists b, None].
  destruct Hspec as (He & Hf & Hmin).
  destruct (bt_set_spec b e Hb He) as (b' & -> & Hwf & Hlen & Hh & Hbit). cbn [mbind outcome_bind].
  by exists b', (Some e).
Qed.

(** Leaf-first form of the invariant. *)
Lemma bwf_reverse ls :
  bwf (BtreeBitmap.tree (reverse ls)) <->
  Forall level_wf ls /\ (0 < length ls)%nat /\ vlen ls < 2 ^ 32 /\
  (forall l, last ls = Some l -> len l <= 64) /\
  (forall k c p, ls !! k = Some c -> ls !! S k = Some p ->
     level_len p c /\ forall j, 0 <= j -> summary p c j).
Proof.
  assert (Hidx : forall k c p, (ls !! k = Some c /\ ls !! S k = Some p) <->
    exists i, (S i < length ls)%nat /\ k = (length ls - S (S i))%nat /\
              reverse ls !! i = Some p /\ reverse ls !! S i = Some c).
  { intros k c p. split.
    - intros [Hc Hp]. pose proof (lookup_lt_Some _ _ _ Hp). exists (length ls - S (S k))%nat.
      rewrite !reverse_lookup_Some. split; [lia|]. split; [lia|].
      replace (length ls - S (length ls - S (S k)))%nat with (S k) by lia.
      replace (length ls - S (S (length ls - S (S k))))%nat with k by lia.
      split; split; (done || lia).
    - intros (i & Hi & -> & Hp & Hc). apply reverse_lookup_Some in Hp as [Hp _], Hc as [Hc _].
      replace (S (length ls - S (S i))) with (length ls - S i)%nat by lia. done. }
  assert (Hroot : forall l, reverse ls !! 0%nat = Some l <-> last ls = Some l).
  { intros l. rewrite <-head_reverse. by destruct (reverse ls). }
  split.
  - intros [Hlv [Hh Hv] Hr Hls Hs]. simpl in *. unfold vlen in *. rewrite length_reverse in *.
    rewrite Forall_reverse in Hlv. split; [done|]. split; [done|]. split; [done|].
    split; [intros l Hl; apply Hr, Hroot, Hl|]. intros k c p Hc Hp.
    destruct (proj1 (Hidx k c p) (conj Hc Hp)) as (i & _ & _ & Hp' & Hc').
    split; [by eapply Hls|]. intros j Hj. by eapply Hs.
  - intros (Hlv & Hh & Hv & Hr & Hs). split; simpl; unfold vlen in *; rewrite ?length_reverse.
    + by apply Forall_reverse.
    + done.
    + intros l Hl. apply Hr, Hroot, Hl.
    + intros k p c Hp Hc. pose proof (lookup_lt_Some _ _ _ Hc) as Hlt. rewrite length_reverse in Hlt.
      destruct (proj2 (Hidx _ c p) (ex_intro _ k (conj Hlt (conj eq_refl (conj Hp Hc))))).
      by eapply Hs.
    + intros k p c j Hp Hc Hj _. pose proof (lookup_lt_Some _ _ _ Hc) as Hlt. rewrite length_reverse in Hlt.
      destruct (proj2 (Hidx _ c p) (ex_intro _ k (conj Hlt (conj eq_refl (conj Hp Hc))))).
      by eapply Hs.
Qed.

Lemma bwf_reverse_heights b : BtreeBitmap.tree (reverse (reverse (heights b))) = b.
Proof. rewrite reverse_involutive. by destruct b. Qed.

(** The lengths of the levels of a tree of [n] leaf bits, leaf first. *)
Fixpoint level_lens (n : Z) (ls : list U64GroupedBitmap.t) : Prop :=
  match ls with
  | [] => True
  | l :: up => len l = n /\ level_lens (div_ceil n 64) up
  end.

Lemma level_lens_lookup n ls k c p :
  level_lens n ls -> ls !! k = Some c -> ls !! S k = Some p -> level_len p c.
Proof.
  revert n k. induction ls as [|l up IH]; intros n k Hl Hc Hp; [done|].
  destruct Hl as [Hn Hup]. destruct k as [|k]; simpl in *; [|by eapply IH].
  destruct up as [|q up]; [done|]. simpl in *. simplify_eq. by destruct Hup.
Qed.

(** The top level of a tree of height [h] over at most [64^h] ids has at most 64. *)
Lemma level_lens_last n ls l :
  0 <= n <= 64 ^ vlen ls -> level_lens n ls -> last ls = Some l -> len l <= 64.
Proof.
  revert n. induction ls as [|l0 up IH]; intros n Hn Hll Hlast; [done|].
  destruct Hll as [Hl Hup].
  destruct up as [|q up].
  - simpl in *. simplify_eq. change (vlen [l]) with 1 in Hn. lia.
  - apply (IH (div_ceil n 64)); [|done|done].
    pose proof (div_ceil_bounds n 64). split; [lia|].
    replace (vlen (l0 :: q :: up)) with (vlen (q :: up) + 1) in Hn by (unfold vlen; simpl; lia).
    rewrite Z.pow_add_r in Hn by (unfold vlen; lia).
    assert (0 <= 64 ^ vlen (q :: up)) by (apply Z.pow_nonneg; lia). lia.
Qed.

Definition same_bits (l l' : U64GroupedBitmap.t) : Prop :=
  forall j, 0 <= j -> gbit l' j = gbit l j.

Lemma same_bits_summary p c p' c' j :
  0 <= j -> same_bits p p' -> same_bits c c' -> summary p c j -> summary p' c' j.
Proof.
  unfold summary, group_full. intros Hj Hp Hc Hs. rewrite Hp by done. rewrite Hs.
  split; intros H i Hi; specialize (H i Hi); rewrite Hc in * by lia; done.
Qed.

(** The loop of [resize] with [full = true]. *)
Lemma bt_resize_levels_spec ls : forall n,
  Forall level_wf ls ->
  (forall k c p, ls !! k = Some c -> ls !! S k = Some p ->
     level_len p c /\ forall j, 0 <= j -> summary p c j) ->
  0 <= n <= 2 ^ 32 - 128 ->
  (forall l, head ls = Some l -> forall j, Z.min n (len l) <= j -> gbit l j = true) ->
  exists ls', BtreeBitmap.resize_levels ls n true = Ret ls' /\
    Forall2 (fun l l' => level_wf l' /\ same_bits l l') ls ls' /\ level_lens n ls'.
Proof.
  induction ls as [|l up IH]; intros n Hwf Hlink Hn Hbits; [by exists []|].
  apply Forall_cons in Hwf as [(Hw & Hp & Hl) Hwf].
  destruct (gb_resize_true l n Hw) as (l' & Hr & Hw' & Hlen & Hsame);
    [unfold in_u; lia|by apply Hbits|].
  pose proof (div_ceil_bounds n 64) as Hc. assert (0 <= len l) by apply Hw.
  pose proof (div_ceil_bounds (len l) 64) as Hcl.
  destruct (IH (div_ceil n 64)) as (up' & Hup & H2 & Hls); [done| |lia| |].
  { intros k c p Hck Hpk. by apply (Hlink (S k)). }
  { intros p Hp' j Hj. destruct up as [|q up]; [done|]. simpl in Hp'. simplify_eq.
    destruct (Hlink 0%nat l p eq_refl eq_refl) as [Hlen' Hsum]. unfold level_len in Hlen'.
    apply Hsum; [lia|]. intros i Hi. apply (Hbits l eq_refl). lia. }
  cbn [BtreeBitmap.resize_levels]. rewrite Hr. cbn [mbind outcome_bind]. rewrite Hup.
  cbn [mbind outcome_bind]. eexists. split; [done|]. split; [|done].
  constructor; [|done]. split; [|done]. split; [done|]. split; [|lia].
  intros j Hj. rewrite Hsame by lia. apply (Hbits l eq_refl). lia.
Qed.

(** [resize(n, true)] on a tree tall enough keeps every bit and sets the length;
    shrinking needs the dropped bits to be set. *)
Lemma bt_resize_spec b n :
  bwf b -> 0 <= n <= 2 ^ 32 - 128 -> n <= 64 ^ Z.of_nat (bheight b) ->
  (forall j, Z.min n (blen b) <= j -> bbit b j = true) ->
  exists b', BtreeBitmap.resize b n true = Ret b' /\ bwf b' /\ blen b' = n /\
    bheight b' = bheight b /\ forall j, 0 <= j -> bbit b' j = bbit b j.
Proof.
  intros Hb Hn Hcap Hbits. pose proof Hb as Hb'.
  rewrite <-bwf_reverse_heights, bwf_reverse in Hb'.
  destruct Hb' as (Hlv & Hh & Hv & Hr & Hlink).
  assert (Hhead : head (reverse (heights b)) = Some (leaf b)).
  { rewrite head_reverse, last_lookup. by eapply heights_leaf. }
  destruct (bt_resize_levels_spec (reverse (heights b)) n) as (ls' & Hrun & H2 & Hlens);
    [done|done|done|intros l Hl; rewrite Hhead in Hl; injection Hl as <-; exact Hbits|].
  unfold BtreeBitmap.resize. rewrite Hrun. cbn [mbind outcome_bind].
  pose proof (Forall2_length _ _ _ H2) as Hlen. rewrite length_reverse in *.
  assert (Hwf : bwf (BtreeBitmap.tree (reverse ls'))).
  { apply bwf_reverse. unfold vlen in *. rewrite <-Hlen. rewrite length_reverse in Hv.
    split; [|split; [done|split; [done|split]]].
    - eapply Forall2_Forall_r; [exact H2|]. apply Forall_true. by intros ? ? [].
    - intros l Hl. eapply level_lens_last; [|exact Hlens|done].
      unfold vlen. rewrite <-Hlen. unfold bheight in Hcap. lia.
    - intros k c' p' Hc' Hp'. split; [by eapply level_lens_lookup|].
      destruct (Forall2_lookup_r _ _ _ _ _ H2 Hc') as (c & Hc & _ & Hsc).
      destruct (Forall2_lookup_r _ _ _ _ _ H2 Hp') as (p & Hp & _ & Hsp).
      intros j Hj. eapply same_bits_summary; [done|done|done|]. by eapply Hlink. }
  destruct (lookup_lt_is_Some_2 (reverse ls') 0) as [root Hroot]; [rewrite length_reverse; lia|].
  rewrite (get_level_ok _ (BtreeBitmap.tree (reverse ls')) 0%nat root Hwf Hroot :
    BtreeBitmap.get_level (BtreeBitmap.tree (reverse ls')) 0 = _).
  cbn [mbind outcome_bind]. pose proof (bwf_root _ _ Hwf root Hroot) as H64.
  assert ((len root <=? 64) = true) as -> by lia. cbn [rassert mbind outcome_bind].
  eexists. split; [done|]. split; [done|].
  destruct ls' as [|l' up']; [simpl in *; lia|].
  destruct (reverse (heights b)) as [|l0 up] eqn:E; [done|].
  apply Forall2_cons_1 in H2 as [[_ Hs] _]. simpl in Hhead. simplify_eq.
  assert (Hleaf : leaf (BtreeBitmap.tree (reverse (l' :: up'))) = l')
    by (unfold leaf; simpl; by rewrite last_reverse).
  unfold blen, bbit, bheight. rewrite Hleaf. simpl heights. rewrite length_reverse.
  destruct Hlens as [Hl _]. split; [done|]. split; [by symmetry|done].
Qed.

(** ** Construction *)

(** Levels with every bit set are summaries of one another. *)
Definition all_set (l : U64GroupedBitmap.t) : Prop := forall j, 0 <= j -> gbit l j = true.

Lemma all_set_summary p c j : 0 <= j -> all_set p -> all_set c -> summary p c j.
Proof. intros Hj Hp Hc. split; intros _; [intros i Hi; apply Hc; lia|by apply Hp]. Qed.

Lemma new_full_level n c :
  0 <= n <= 2 ^ 32 - 128 -> n <= c ->
  level_wf (U64GroupedBitmap.new_full n c) /\ all_set (U64GroupedBitmap.new_full n c).
Proof.
  intros Hn Hc. assert (Hall : all_set (U64GroupedBitmap.new_full n c))
    by (intros j Hj; by apply gb_new_full_bit).
  split; [|done]. split; [apply gb_new_full_gwf; [unfold in_u; lia|done]|].
  split; [|simpl; lia]. intros i Hi. apply Hall. simpl in Hi. lia.
Qed.

(** Leaf-first levels of a full tree of [n] ids. *)
Definition full_levels (n : Z) (ls : list U64GroupedBitmap.t) : Prop :=
  Forall (fun l => level_wf l /\ all_set l) ls /\ level_lens n ls.

Lemma full_levels_bwf n ls :
  0 <= n <= 64 ^ vlen ls -> (0 < length ls)%nat -> vlen ls < 2 ^ 32 -> full_levels n ls ->
  bwf (BtreeBitmap.tree (reverse ls)).
Proof.
  intros Hn Hh Hv [Hf Hl]. apply bwf_reverse. split; [|split; [done|split; [done|split]]].
  - eapply Forall_impl; [exact Hf|]. by intros ? [].
  - intros l Hlast. by eapply level_lens_last.
  - intros k c p Hc Hp. split; [by eapply level_lens_lookup|]. intros j Hj.
    pose proof (Forall_lookup_1 _ _ _ _ Hf Hc) as [_ ?].
    pose proof (Forall_lookup_1 _ _ _ _ Hf Hp) as [_ ?]. by apply all_set_summary.
Qed.

(** The height of a tree for [c] ids. *)
Fixpoint height_for (fuel : nat) (c : Z) : nat :=
  match fuel with
  | O => 1
  | S f => if 64 <? c then S (height_for f (div_ceil c 64)) else 1
  end.

Lemma height_for_bound fuel c :
  c <= 64 ^ Z.of_nat (S fuel) -> c <= 64 ^ Z.of_nat (height_for fuel c).
Proof.
  revert c. induction fuel as [|f IH]; intros c Hc; [done|].
  cbn [height_for]. destruct (Z.ltb_spec 64 c) as [Hlt|Hge]; [|simpl; lia].
  pose proof (div_ceil_bounds c 64).
  assert (Hdc : div_ceil c 64 <= 64 ^ Z.of_nat (S f)).
  { rewrite div_ceil_spec by lia. apply Z.lt_succ_r, Z.div_lt_upper_bound; [lia|].
    replace (Z.of_nat (S (S f))) with (Z.of_nat (S f) + 1) in Hc by lia.
    rewrite Z.pow_add_r in Hc by lia. lia. }
  specialize (IH _ Hdc). rewrite Nat2Z.inj_succ, Z.pow_succ_r by lia. lia.
Qed.

Lemma height_for_mono fuel a b :
  0 <= a <= b -> (height_for fuel a <= height_for fuel b)%nat.
Proof.
  revert a b. induction fuel as [|f IH]; intros a b Hab; [done|]. cbn [height_for].
  destruct (Z.ltb_spec 64 a), (Z.ltb_spec 64 b); try lia. apply le_n_S, IH.
  rewrite !div_ceil_spec by lia. split; [apply Z.div_pos; lia|apply Z.div_le_mono; lia].
Qed.

Lemma bt_new_levels_spec f : forall n c,
  0 <= n <= c -> c <= 2 ^ 32 - 128 -> c <= 64 ^ Z.of_nat (S f) ->
  exists ls, BtreeBitmap.new_levels (S f) n c = Ret ls /\ full_levels n ls /\
    length ls = height_for f c.
Proof.
  induction f as [|f IH]; intros n c Hn Hc Hcap; cbn [BtreeBitmap.new_levels height_for].
  - change (64 ^ Z.of_nat 1) with 64 in Hcap. assert ((c <=? 64) = true) as -> by lia.
    eexists. split; [done|]. split; [|done]. split; [|done].
    constructor; [|constructor]. apply new_full_level; lia.
  - destruct (Z.leb_spec c 64) as [Hle|Hgt].
    + assert ((64 <? c) = false) as -> by lia. eexists. split; [done|]. split; [|done].
      split; [|done]. constructor; [|constructor]. apply new_full_level; lia.
    + assert ((64 <? c) = true) as -> by lia.
      pose proof (div_ceil_bounds c 64). pose proof (div_ceil_bounds n 64).
      destruct (IH (div_ceil n 64) (div_ceil c 64)) as (ls & Hrun & [Hfull Hlens] & Hlen).
      * rewrite !div_ceil_spec by lia. split; [apply Z.div_pos; lia|apply Z.div_le_mono; lia].
      * lia.
      * rewrite div_ceil_spec by lia. apply Z.lt_succ_r, Z.div_lt_upper_bound; [lia|].
        replace (Z.of_nat (S (S f))) with (Z.of_nat (S f) + 1) in Hcap by lia.
        rewrite Z.pow_add_r in Hcap by lia. lia.
      * cbn [BtreeBitmap.new_levels] in Hrun. rewrite Hrun. cbn [mbind outcome_bind].
        eexists. split; [done|]. split; [|simpl; by rewrite Hlen].
        split; [|by split]. constructor; [|done]. apply new_full_level; lia.
Qed.

Lemma bt_height_loop_spec f c h :
  0 <= c -> c <= 64 ^ Z.of_nat (S f) ->
  BtreeBitmap.height_loop (S f) c h = Ret (h + Z.of_nat (height_for f c) - 1).
Proof.
  revert c h. induction f as [|f IH]; intros c h Hc Hcap; cbn [BtreeBitmap.height_loop height_for].
  - change (64 ^ Z.of_nat 1) with 64 in Hcap. assert ((64 <? c) = false) as -> by lia. f_equal. lia.
  - destruct (Z.ltb_spec 64 c) as [Hlt|Hge]; [|f_equal; lia].
    cbn [BtreeBitmap.height_loop] in IH. rewrite IH; [f_equal; lia|apply div_ceil_bounds; lia|].
    rewrite div_ceil_spec by lia. apply Z.lt_succ_r, Z.div_lt_upper_bound; [lia|].
    replace (Z.of_nat (S (S f))) with (Z.of_nat (S f) + 1) in Hcap by lia.
    rewrite Z.pow_add_r in Hcap by lia. lia.
Qed.

Lemma div_ceil_64_small n : 0 <= n <= 2 ^ 32 - 128 -> 0 <= div_ceil n 64 <= 2 ^ 32 - 128.
Proof. intros. pose proof (div_ceil_bounds n 64). lia. Qed.

(** One more full level on top. *)
Lemma full_levels_snoc n ls root :
  0 <= n <= 2 ^ 32 - 128 -> last ls = Some root -> full_levels n ls ->
  full_levels n (ls ++ [U64GroupedBitmap.new_full (div_ceil (len root) 64) (div_ceil (len root) 64)]).
Proof.
  intros Hn Hlast [Hf Hl]. revert n Hn Hl. induction ls as [|a up IH]; intros n Hn Hl; [done|].
  apply Forall_cons in Hf as [Ha Hf]. destruct Hl as [Hla Hl]. destruct up as [|q up].
  - simpl in Hlast. simplify_eq. pose proof (div_ceil_64_small (len root) Hn).
    split; [|by split]. constructor; [done|]. constructor; [|constructor]. by apply new_full_level.
  - destruct (IH Hlast Hf (div_ceil n 64)) as [IH1 IH2]; [by apply div_ceil_64_small|done|].
    split; [by constructor|done].
Qed.

(** The padding loop adds full levels above the root up to the wanted height. *)
Lemma bt_pad_loop_spec fuel : forall mh n ls,
  mh <= vlen ls + Z.of_nat fuel -> 0 <= n <= 2 ^ 32 - 128 -> (0 < length ls)%nat -> full_levels n ls ->
  exists ls', BtreeBitmap.pad_loop fuel mh (reverse ls) = Ret (reverse ls') /\
    full_levels n ls' /\ vlen ls' = Z.max (vlen ls) mh.
Proof.
  induction fuel as [|fuel IH]; intros mh n ls Hmh Hn Hls Hf; unfold vlen in *;
    cbn [BtreeBitmap.pad_loop]; unfold vlen; rewrite length_reverse.
  - assert ((Z.of_nat (length ls) <? mh) = false) as -> by lia.
    exists ls. split; [done|]. split; [done|]. unfold vlen. lia.
  - destruct (Z.ltb_spec (Z.of_nat (length ls)) mh) as [Hlt|Hge]; cycle 1.
    { exists ls. split; [done|]. split; [done|]. unfold vlen. lia. }
    destruct (lookup_lt_is_Some_2 (reverse ls) 0) as [root Hroot]; [rewrite length_reverse; lia|].
    rewrite (vget_ok (reverse ls) 0 root) by done. cbn [mbind outcome_bind].
    set (l := U64GroupedBitmap.new_full _ _).
    assert (Hlast : last ls = Some root) by (rewrite <-head_reverse; by destruct (reverse ls)).
    assert (Hf' : full_levels n (ls ++ [l])) by by apply full_levels_snoc.
    destruct (IH mh n (ls ++ [l])) as (ls' & Hrun & Hfull & Hlen);
      [rewrite length_app; simpl; lia|done|rewrite length_app; simpl; lia|done|].
    rewrite reverse_snoc in Hrun. rewrite Hrun. exists ls'. split; [done|]. split; [done|].
    rewrite length_app in Hlen. simpl in Hlen. lia.
Qed.

(** [new_padded] builds a full tree of [n] ids, tall enough for [m] of them. *)
Lemma bt_new_padded_spec n m :
  0 <= n <= m -> m <= 2 ^ 32 - 128 ->
  exists b, BtreeBitmap.new_padded n n m = Ret b /\ bwf b /\ blen b = n /\
    bheight b = height_for 6 m /\ forall j, 0 <= j -> bbit b j = true.
Proof.
  intros Hn Hm. unfold BtreeBitmap.new_padded, BtreeBitmap.new, BtreeBitmap.height_for_capacity.
  assert (Hbig : 2 ^ 32 - 128 <= 64 ^ Z.of_nat 7) by done.
  destruct (bt_new_levels_spec 6 n n) as (ls & -> & Hfull & Hlen); [lia|lia|lia|].
  cbn [mbind outcome_bind heights].
  rewrite bt_height_loop_spec by lia. cbn [mbind outcome_bind].
  pose proof (height_for_mono 6 n m Hn) as Hmono.
  assert (Hh1 : forall c, (1 <= height_for 6 c)%nat) by (intros c; cbn [height_for]; destruct (64 <? c); lia).
  pose proof (Hh1 n).
  destruct (bt_pad_loop_spec (Z.to_nat (1 + Z.of_nat (height_for 6 m) - 1))
              (1 + Z.of_nat (height_for 6 m) - 1) n ls) as (ls' & -> & Hfull' & Hlen');
    [unfold vlen; lia|lia|lia|done|].
  cbn [mbind outcome_bind]. eexists. split; [done|].
  pose proof (height_for_bound 6 m ltac:(lia)) as Hcap.
  assert (Hvl : vlen ls' = Z.of_nat (height_for 6 m)) by (unfold vlen in *; lia).
  destruct ls' as [|l up]; [unfold vlen in *; simpl in *; lia|].
  assert (Hleaf : leaf (BtreeBitmap.tree (reverse (l :: up))) = l)
    by (unfold leaf; simpl; by rewrite last_reverse).
  split.
  - apply (full_levels_bwf n); [rewrite Hvl; lia|simpl; lia| |done].
    rewrite Hvl. assert (height_for 6 m <= 7)%nat; [|lia].
    clear. cbn [height_for]. repeat destruct (64 <? _); lia.
  - unfold blen, bbit, bheight. rewrite Hleaf. simpl heights. rewrite length_reverse.
    destruct Hfull' as [Hf Hl]. apply Forall_cons in Hf as [[_ Hall] _]. destruct Hl as [Hl _].
    split; [done|]. split; [unfold vlen in Hvl; lia|done].
Qed.

(** ** Counting *)

Definition free_bit (b : U64GroupedBitmap.t) (j : Z) : bool := negb (gbit b j).

(** The free bits of a padded bitmap, counted over any range past its length. *)
Lemma free_count_padded b n :
  0 <= len b -> padded b -> len b <= Z.of_nat n ->
  zcount (free_bit b) 0 n = zcount (free_bit b) 0 (Z.to_nat (len b)).
Proof.
  intros Hl Hp Hn. replace n with (Z.to_nat (len b) + (n - Z.to_nat (len b)))%nat by lia.
  rewrite zcount_app, (zcount_none _ (0 + _)); [lia|].
  intros i Hi. unfold free_bit. rewrite Hp by lia. done.
Qed.

Lemma free_count_word b k :
  zcount (free_bit b) (64 * Z.of_nat k) 64 = count_zeros 64 (word_at b (Z.of_nat k)).
Proof.
  rewrite <-(Z.shiftr_0_r (word_at b (Z.of_nat k))), count_zeros_zcount by lia.
  assert (forall n i, 0 <= i -> i + Z.of_nat n <= 64 ->
    zcount (free_bit b) (64 * Z.of_nat k + i) n =
    zcount (fun j => negb (Z.testbit (word_at b (Z.of_nat k)) j)) i n) as H.
  { induction n as [|n IH]; intros i Hi Hn; [done|]. cbn [zcount].
    unfold free_bit at 1. rewrite gbit_as_word by lia.
    replace (64 * Z.of_nat k + i + 1) with (64 * Z.of_nat k + (i + 1)) by lia.
    by rewrite IH by lia. }
  specialize (H 64%nat 0). rewrite Z.add_0_r in H. apply H; lia.
Qed.

Lemma gb_count_loop b : gwf b -> padded b -> forall ds k,
  drop k (data b) = ds ->
  for_each (fun x s => uadd 32 s (count_zeros 64 x)) ds (zcount (free_bit b) 0 (64 * k)) =
  Ret (zcount (free_bit b) 0 (64 * (k + length ds))).
Proof.
  intros Hw Hp. induction ds as [|d ds IH]; intros k Hd; cbn [for_each].
  - by rewrite Nat.add_0_r.
  - assert (Hk : data b !! k = Some d) by (by rewrite <-(Nat.add_0_r k), <-lookup_drop, Hd).
    assert (Hwk : word_at b (Z.of_nat k) = d) by (unfold word_at; by rewrite Nat2Z.id, Hk).
    rewrite <-Hwk, <-free_count_word.
    assert (Hstep : zcount (free_bit b) 0 (64 * k) + zcount (free_bit b) (64 * Z.of_nat k) 64
            = zcount (free_bit b) 0 (64 * S k)).
    { replace (64 * S k)%nat with (64 * k + 64)%nat by lia. rewrite zcount_app.
      f_equal. f_equal. lia. }
    assert (Hle : zcount (free_bit b) 0 (64 * S k) <= len b).
    { destruct Hw as ([Hl _] & _). destruct (Z.le_gt_cases (len b) (Z.of_nat (64 * S k))).
      - rewrite free_count_padded by done. pose proof (zcount_bounds (free_bit b) 0 (Z.to_nat (len b))). lia.
      - pose proof (zcount_bounds (free_bit b) 0 (64 * S k)). lia. }
    assert (len b < 2 ^ 32) by apply Hw.
    rewrite uadd_ok by lia. cbn [mbind outcome_bind]. rewrite Hstep, IH.
    + do 3 f_equal. simpl. lia.
    + replace (S k) with (k + 1)%nat by lia. by rewrite <-drop_drop, Hd.
Qed.

(** [count_unset] counts the free bits below the length. *)
Lemma gb_count_unset_spec b :
  gwf b -> padded b ->
  U64GroupedBitmap.count_unset b = Ret (zcount (free_bit b) 0 (Z.to_nat (len b))).
Proof.
  intros Hw Hp. unfold U64GroupedBitmap.count_unset.
  pose proof (gb_count_loop b Hw Hp (data b) 0 eq_refl) as H.
  replace (64 * 0)%nat with 0%nat in H by lia. cbn [zcount plus] in H. rewrite H. f_equal.
  destruct Hw as ([Hl _] & _ & Hr). apply free_count_padded; [done|done|].
  unfold U64GroupedBitmap.required_words, vlen in Hr. pose proof (div_ceil_bounds (len b) 64). lia.
Qed.

Lemma gb_any_unset_spec b :
  gwf b -> padded b ->
  U64GroupedBitmap.any_unset b = true <-> exists j, 0 <= j < len b /\ gbit b j = false.
Proof.
  intros Hw Hp. unfold U64GroupedBitmap.any_unset. rewrite existsb_exists. split.
  - intros (x & Hx & Hc). apply list_elem_of_In, list_elem_of_lookup in Hx as [k Hk].
    assert (Hwk : word_at b (Z.of_nat k) = x) by (unfold word_at; by rewrite Nat2Z.id, Hk).
    rewrite <-Hwk, <-free_count_word in Hc. apply Z.ltb_lt, zcount_pos in Hc as (j & Hj & Hf).
    apply negb_true_iff in Hf. exists j. split; [|done]. split; [lia|].
    destruct (Z.lt_ge_cases j (len b)); [done|]. rewrite Hp in Hf by done. done.
  - intros (j & Hj & Hf). pose proof (gwf_word_index b j Hw Hj) as Hk.
    exists (word_at b (j / 64)). split.
    + apply list_elem_of_In, list_elem_of_lookup. exists (Z.to_nat (j / 64)). by apply word_at_lookup.
    + apply Z.ltb_lt. rewrite <-(Z2Nat.id (j / 64)), <-free_count_word by lia.
      apply zcount_pos. exists j. rewrite Z2Nat.id by lia.
      pose proof (Z.div_mod j 64). pose proof (Z.mod_pos_bound j 64).
      split; [lia|]. unfold free_bit. by rewrite Hf.
Qed.

(** The number of free ids of the tree. *)
Definition bfree (b : BtreeBitmap.t) : Z :=
  zcount (fun j => negb (bbit b j)) 0 (Z.to_nat (blen b)).

Lemma bt_count_unset_spec b : bwf b -> BtreeBitmap.count_unset b = Ret (bfree b).
Proof.
  intros Hb. unfold BtreeBitmap.count_unset. erewrite leaf_level_ok by done. cbn [mbind outcome_bind].
  destruct (leaf_level_wf _ _ Hb) as (? & ? & _). by apply gb_count_unset_spec.
Qed.

Lemma bt_has_unset_spec b :
  bwf b -> exists u, BtreeBitmap.has_unset b = Ret u /\
    (u = true <-> exists j, 0 <= j < blen b /\ bbit b j = false).
Proof.
  intros Hb. unfold BtreeBitmap.has_unset. erewrite leaf_level_ok by done. cbn [mbind outcome_bind].
  destruct (leaf_level_wf _ _ Hb) as (? & ? & _). eexists. split; [done|]. by apply gb_any_unset_spec.
Qed.

(** ** Serialization *)

(** What serialization keeps of a level: the words its length needs. *)
Definition trim (b : U64GroupedBitmap.t) : U64GroupedBitmap.t :=
  U64GroupedBitmap.mk (len b) (take (Z.to_nat (U64GroupedBitmap.required_words (len b))) (data b)).

Lemma trim_same_bits b : gwf b -> padded b -> same_bits b (trim b).
Proof.
  intros (Hl & _ & Hr) Hp j Hj. assert (0 <= j / 64) by (apply Z.div_pos; lia).
  destruct (Z.lt_ge_cases (j / 64) (U64GroupedBitmap.required_words (len b))) as [Hlt|Hge].
  - unfold gbit, word_at, trim. simpl. by rewrite lookup_take_lt by lia.
  - transitivity true.
    + unfold gbit, word_at, trim. simpl. rewrite lookup_take_ge by lia. simpl.
      pose proof (Z.mod_pos_bound j 64). rewrite umax_testbit by lia. lia.
    + symmetry. apply Hp. unfold U64GroupedBitmap.required_words in Hge. destruct Hl as [Hl _].
      pose proof (div_ceil_bounds (len b) 64). pose proof (Z.mul_div_le j 64). lia.
Qed.

Lemma trim_level_wf b : level_wf b -> level_wf (trim b).
Proof.
  intros (Hw & Hp & Hl). pose proof (trim_same_bits b Hw Hp) as Hs.
  destruct Hw as (H32 & Hd & Hr). split; [|split; [|done]].
  - split; [done|]. split; [by apply Forall_take|]. simpl. unfold vlen in *. rewrite length_take. lia.
  - intros i Hi. destruct H32 as [H0 _]. rewrite Hs by (simpl in Hi; lia). by apply Hp.
Qed.

Lemma gb_to_vec_ok b :
  gwf b -> exists v, U64GroupedBitmap.to_vec b = Ret v /\
    vlen v = 4 + 8 * U64GroupedBitmap.required_words (len b) /\
    U64GroupedBitmap.from_bytes v = Ret (trim b).
Proof.
  intros (Hl & Hd & Hr). unfold U64GroupedBitmap.to_vec. set (n := U64GroupedBitmap.required_words (len b)) in *.
  assert (Hn : 0 <= n) by (apply div_ceil_bounds; unfold in_u in Hl; lia).
  rewrite slice_ok by lia. cbn [mbind outcome_bind]. rewrite Z.sub_0_r.
  change (drop (Z.to_nat 0) (data b)) with (data b).
  set (ws := take _ _).
  assert (Hws : vlen ws = n) by (unfold ws, vlen in *; rewrite length_take; lia).
  assert (Hc : vlen (concat (map (to_le_bytes 8) ws)) = n * 8).
  { rewrite (vlen_concat_chunks _ 8), Hws; [done|]. intros w. apply length_to_le_bytes. }
  eexists. split; [done|]. rewrite vlen_app, vlen_to_le_bytes, Hc. split; [lia|].
  unfold U64GroupedBitmap.from_bytes. rewrite vlen_app, vlen_to_le_bytes, Hc.
  rewrite usub_ok by lia. cbn [mbind outcome_bind].
  replace (Z.of_nat 4 + n * 8 - 4) with (n * 8) by lia.
  rewrite Z.mod_mul, Z.div_mul by lia. cbn [rassert mbind outcome_bind Z.eqb].
  assert (Hhead : slice (to_le_bytes 4 (len b) ++ concat (map (to_le_bytes 8) ws)) 0 4
            = Ret (to_le_bytes 4 (len b))).
  { apply (slice_middle [] (to_le_bytes 4 (len b))); by rewrite ?vlen_to_le_bytes. }
  rewrite Hhead. cbn [mbind outcome_bind]. rewrite <-Hws, omap_list_seqZ.
  - cbn [mbind outcome_bind]. rewrite from_to_le_bytes by done. done.
  - intros i w Hw. unfold U64GroupedBitmap.read_word.
    pose proof (slice_chunk (to_le_bytes 8) 8 (to_le_bytes 4 (len b)) ws [] i w
      (fun w => length_to_le_bytes 8 w) Hw) as Hs.
    rewrite app_nil_r, vlen_to_le_bytes in Hs.
    change (Z.of_nat 4) with 4 in Hs. change (Z.of_nat 8) with 8 in Hs.
    rewrite Z.add_0_l, Hs. cbn [mbind outcome_bind].
    rewrite from_to_le_bytes; [done|].
    assert (Hin : in_u 64 w); [|exact Hin].
    apply (Forall_lookup_1 (in_u 64) (data b) i); [done|].
    unfold ws in Hw. apply lookup_take_Some in Hw. naive_solver.
Qed.

(** [from_bytes] inverts [to_vec], up to the words past the length of a level. *)
Lemma bt_roundtrip b v :
  bwf b -> BtreeBitmap.to_vec b = Ret v ->
  BtreeBitmap.from_bytes v = Ret (BtreeBitmap.tree (map trim (heights b))).
Proof.
  intros Hb H. unfold BtreeBitmap.to_vec in H.
  rewrite utry_ok in H by (destruct (bwf_height _ _ Hb); unfold vlen in *; lia).
  cbn [mbind outcome_bind] in H. apply outcome_bind_Ret in H as (vecs & HF & H).
  apply outcome_bind_Ret in H as (ends & He & H). apply outcome_bind_Ret in H as (u & _ & H).
  apply Ret_inj in H. subst v. apply omap_list_Forall2 in HF.
  pose proof (Forall2_length _ _ _ HF) as Hlen.
  pose proof (end_offsets_len _ _ _ He) as Hends.
  unfold BtreeBitmap.from_bytes. set (n := vlen (heights b)) in *.
  assert (Hh : slice ((to_le_bytes 4 n ++ ends) ++ concat vecs) 0 4 = Ret (to_le_bytes 4 n)).
  { rewrite <-app_assoc. apply (slice_middle [] (to_le_bytes 4 n)); by rewrite ?vlen_to_le_bytes. }
  rewrite Hh. cbn [mbind outcome_bind].
  rewrite from_to_le_bytes by (destruct (bwf_height _ _ Hb); unfold n, vlen in *; simpl; lia).
  assert (Hz : Z.to_nat n = length (heights b)) by (unfold n, vlen; lia). rewrite Hz.
  rewrite <-app_assoc.
  pose proof (read_sections_spec U64GroupedBitmap.from_bytes trim (heights b) vecs (to_le_bytes 4 n) [] ends 4 (4 + n * 4)) as Hr.
  change ([] ++ concat vecs) with (concat vecs) in Hr.
  rewrite Hr; [done| |done|by rewrite vlen_to_le_bytes|].
  - pose proof (bwf_levels _ _ Hb) as Hlv. clear -HF Hlv. induction HF as [|l v ls vs Hv _ IH]; constructor.
    + apply Forall_cons in Hlv as [(Hw & _) _]. destruct (gb_to_vec_ok l Hw) as (v' & Hv' & _ & Hf).
      congruence.
    + apply Forall_cons in Hlv as [_ Hlv]. by apply IH.
  - rewrite vlen_to_le_bytes, Hends. unfold n, vlen. rewrite Hlen. simpl. lia.
Qed.

(** No level is longer than the leaf. *)
Lemma level_len_le_leaf b l : bwf b -> l ∈ heights b -> len l <= blen b.
Proof.
  intros Hb Hl. pose proof Hb as Hb'. rewrite <-bwf_reverse_heights, bwf_reverse in Hb'.
  destruct Hb' as (Hlv & _ & _ & _ & Hlink).
  assert (Hhead : reverse (heights b) !! 0%nat = Some (leaf b)).
  { assert (head (reverse (heights b)) = Some (leaf b)) by
      (rewrite head_reverse, last_lookup; by eapply heights_leaf). by destruct (reverse (heights b)). }
  rewrite <-(reverse_involutive (heights b)), elem_of_reverse in Hl.
  apply list_elem_of_lookup in Hl as [k Hk]. revert l Hk. induction k as [|k IH]; intros l Hk.
  - rewrite Hhead in Hk. by injection Hk as <-.
  - destruct (lookup_lt_is_Some_2 (reverse (heights b)) k) as [c Hc]; [apply lookup_lt_Some in Hk; lia|].
    destruct (Hlink k c l Hc Hk) as [Hlen _]. unfold level_len in Hlen.
    pose proof (Forall_lookup_1 _ _ _ _ Hlv Hc) as (([Hc0 _] & _) & _).
    specialize (IH c Hc). pose proof (div_ceil_bounds (len c) 64). lia.
Qed.

Lemma bt_levels_to_vec_ok ls L :
  Forall level_wf ls -> (forall l, l ∈ ls -> len l <= 8 * L) ->
  exists vecs, omap_list U64GroupedBitmap.to_vec ls = Ret vecs /\
    vlen vecs = vlen ls /\ vlen (concat vecs) <= vlen ls * (L + 12).
Proof.
  induction ls as [|l ls IH]; intros Hlv HL; [by exists []|].
  apply Forall_cons in Hlv as [(Hw & _) Hlv].
  destruct IH as (vecs & Hvs & Hlen & Hsz); [done|intros x Hx; apply HL; by right|].
  destruct (gb_to_vec_ok l Hw) as (v & Hv & Hvl & _). exists (v :: vecs). cbn [omap_list].
  rewrite Hv. cbn [mbind outcome_bind]. rewrite Hvs. split; [done|].
  unfold vlen in Hlen. cbn [concat]. rewrite vlen_app, Hvl. unfold vlen at 1 2 4; cbn [length].
  specialize (HL l ltac:(by left)). destruct Hw as ([H0 _] & _).
  unfold U64GroupedBitmap.required_words. pose proof (div_ceil_bounds (len l) 64).
  unfold vlen in *. lia.
Qed.

(** [to_vec] returns, and the size of what it returns is bounded. *)
Lemma bt_to_vec_ok b L :
  bwf b -> blen b <= 8 * L -> L <= 2 ^ 27 -> (bheight b <= 7)%nat ->
  exists v, BtreeBitmap.to_vec b = Ret v /\ vlen v <= 32 + 7 * (L + 12).
Proof.
  intros Hb Hl HL Hh. unfold BtreeBitmap.to_vec.
  rewrite utry_ok by (destruct (bwf_height _ _ Hb); unfold vlen in *; lia). cbn [mbind outcome_bind].
  pose proof (level_len_le_leaf b) as Hle.
  destruct (bt_levels_to_vec_ok (heights b) L (bwf_levels _ _ Hb)) as (vecs & -> & Hlen & Hsz).
  { intros l Hin. specialize (Hle l Hb Hin). lia. }
  cbn [mbind outcome_bind].
  assert (Hh' : 0 <= vlen (heights b) <= 7) by (unfold vlen, bheight in *; lia).
  assert (0 <= L) by (pose proof (leaf_level_wf _ _ Hb) as ([[? _] _] & _); unfold blen in *; lia).
  assert (vlen (concat vecs) <= 7 * (L + 12)) by nia.
  destruct (end_offsets_ok vecs (4 + vlen (heights b) * 4)) as [ends Hends]; [lia|lia|].
  rewrite Hends. cbn [mbind outcome_bind]. rewrite vlen_app, vlen_to_le_bytes, (end_offsets_len _ _ _ Hends), Hlen.
  rewrite (Z.mul_comm 4), Z.eqb_refl. cbn [rassert mbind outcome_bind]. eexists. split; [done|].
  rewrite !vlen_app, vlen_to_le_bytes, (end_offsets_len _ _ _ Hends), Hlen. lia.
Qed.

(** Writing a tree and reading it back gives a tree with the same ids. *)
Lemma bt_serialize_spec b L :
  bwf b -> blen b <= 8 * L -> L <= 2 ^ 27 -> (bheight b <= 7)%nat ->
  exists v b', BtreeBitmap.to_vec b = Ret v /\ vlen v <= 32 + 7 * (L + 12) /\
    BtreeBitmap.from_bytes v = Ret b' /\ bwf b' /\ blen b' = blen b /\ bheight b' = bheight b /\ forall j, 0 <= j -> bbit b' j = bbit b j.
Proof.
  intros Hb Hl HL Hh. destruct (bt_to_vec_ok b L Hb Hl HL Hh) as [v [Hv Hsz]].
  exists v, (BtreeBitmap.tree (map trim (heights b))).
  split; [done|]. split; [done|]. split; [by apply bt_roundtrip|].
  assert (Hmap : map trim (heights b) = trim <$> heights b) by done. rewrite Hmap.
  assert (Hleaf : leaf (BtreeBitmap.tree (trim <$> heights b)) = trim (leaf b)).
  { unfold leaf. simpl. rewrite fmap_last. by destruct (last (heights b)). }
  split.
  - destruct Hb as [Hlv Hhh Hr Hls Hs]. split; simpl.
    + apply Forall_fmap. eapply Forall_impl; [exact Hlv|]. intros l. apply trim_level_wf.
    + unfold vlen in *. by rewrite length_fmap.
    + intros l H0. rewrite list_lookup_fmap in H0. destruct (heights b !! 0%nat) as [r|] eqn:E; [|done].
      simpl in H0. injection H0 as <-. by apply (Hr r).
    + intros k p c Hp Hc. rewrite list_lookup_fmap in Hp, Hc.
      apply fmap_Some in Hp as (p0 & Hp0 & ->), Hc as (c0 & Hc0 & ->). by apply (Hls k p0 c0).
    + intros k p c j Hp Hc Hj _. rewrite list_lookup_fmap in Hp, Hc.
      apply fmap_Some in Hp as (p0 & Hp0 & ->), Hc as (c0 & Hc0 & ->).
      pose proof (Forall_lookup_1 _ _ _ _ Hlv Hp0) as (? & ? & _).
      pose proof (Forall_lookup_1 _ _ _ _ Hlv Hc0) as (? & ? & _).
      eapply same_bits_summary; [done|by apply trim_same_bits|by apply trim_same_bits|by eapply Hs].
  - unfold blen, bbit, bheight. rewrite Hleaf. simpl. rewrite length_fmap. split; [done|]. split; [done|].
    destruct (leaf_level_wf _ _ Hb) as (? & ? & _). by apply trim_same_bits.
Qed.

(** * Refinement: the tree against a plain list of bits *)

(** The operations of [BtreeBitmap] that its clients use. *)
Inductive bitmap_op :=
| OpSet (i : Z)
| OpClear (i : Z)
| OpAlloc
| OpGet (i : Z)
| OpResize (n : Z).

(** What an operation returns. *)
Inductive bitmap_val :=
| VUnit
| VBool (v : bool)
| VId (o : option Z).

Definition bitmap_run (b : BtreeBitmap.t) (op : bitmap_op) : outcome (BtreeBitmap.t * bitmap_val) :=
  match op with
  | OpSet i => b' ← BtreeBitmap.set b i; Ret (b', VUnit)
  | OpClear i => b' ← BtreeBitmap.clear b i; Ret (b', VUnit)
  | OpAlloc => r ← BtreeBitmap.alloc b; Ret (r.1, VId r.2)
  | OpGet i => v ← BtreeBitmap.get b i; Ret (b, VBool v)
  | OpResize n => b' ← BtreeBitmap.resize b n true; Ret (b', VUnit)
  end.

Fixpoint bitmap_exec (b : BtreeBitmap.t) (ops : list bitmap_op) : outcome (BtreeBitmap.t * list bitmap_val) :=
  match ops with
  | [] => Ret (b, [])
  | op :: rest => r ← bitmap_run b op; s ← bitmap_exec r.1 rest; Ret (s.1, r.2 :: s.2)
  end.

(** The reference: one boolean per id, [true] when it is taken.  [None] marks a
    call outside the contract: an id out of range, or a new length past the
    capacity or that drops a free id. *)
Fixpoint ref_first_free (l : list bool) (i : Z) : option Z :=
  match l with
  | [] => None
  | v :: rest => if v then ref_first_free rest (i + 1) else Some i
  end.

Definition ref_run (cap : Z) (l : list bool) (op : bitmap_op) : option (list bool * bitmap_val) :=
  match op with
  | OpSet i => if (0 <=? i) && (i <? vlen l) then Some (<[Z.to_nat i := true]> l, VUnit) else None
  | OpClear i => if (0 <=? i) && (i <? vlen l) then Some (<[Z.to_nat i := false]> l, VUnit) else None
  | OpAlloc =>
      match ref_first_free l 0 with
      | Some i => Some (<[Z.to_nat i := true]> l, VId (Some i))
      | None => Some (l, VId None)
      end
  | OpGet i => if 0 <=? i then v ← l !! Z.to_nat i; Some (l, VBool v) else None
  | OpResize n =>
      if (0 <=? n) && (n <=? cap) && forallb (fun v => v) (drop (Z.to_nat n) l)
      then Some (take (Z.to_nat n) l ++ replicate (Z.to_nat n - length l) true, VUnit) else None
  end.

Fixpoint ref_exec (cap : Z) (l : list bool) (ops : list bitmap_op) : option (list bool * list bitmap_val) :=
  match ops with
  | [] => Some (l, [])
  | op :: rest => '(l', v) ← ref_run cap l op; '(l'', vs) ← ref_exec cap l' rest; Some (l'', v :: vs)
  end.

(** The tree [b], tall enough for [cap] ids, represents the list [l]. *)
Definition bitmap_rep (cap : Z) (b : BtreeBitmap.t) (l : list bool) : Prop :=
  bwf b /\ cap <= 2 ^ 32 - 128 /\ cap <= 64 ^ Z.of_nat (bheight b) /\ blen b = vlen l /\
  forall i v, l !! i = Some v -> bbit b (Z.of_nat i) = v.

Lemma ref_first_free_spec l i :
  match ref_first_free l i with
  | Some e => exists k, e = i + Z.of_nat k /\ l !! k = Some false /\ forall j, (j < k)%nat -> l !! j = Some true
  | None => forall j v, l !! j = Some v -> v = true
  end.
Proof.
  revert i. induction l as [|v l IH]; intros i; simpl; [done|]. destruct v.
  - specialize (IH (i + 1)). destruct (ref_first_free l (i + 1)) as [e|].
    + destruct IH as (k & -> & Hk & Hlow). exists (S k). split; [lia|]. split; [done|].
      intros [|j] Hj; [done|]. apply Hlow. lia.
    + intros [|j] v Hj; simpl in Hj; [by injection Hj as <-|by apply (IH j)].
  - exists 0%nat. split; [lia|]. split; [done|]. lia.
Qed.

Lemma bitmap_rep_put cap b b' l i v :
  bitmap_rep cap b l -> 0 <= i < vlen l -> bwf b' -> blen b' = blen b -> bheight b' = bheight b ->
  (forall j, 0 <= j -> bbit b' j = if j =? i then v else bbit b j) ->
  bitmap_rep cap b' (<[Z.to_nat i := v]> l).
Proof.
  intros (Hb & Hc & Hh & Hl & Hbits) Hi Hb' Hl' Hh' Hbit. split_and!; [done|done|by rewrite Hh'| |].
  - unfold vlen in *. rewrite length_insert. lia.
  - intros j w Hj. rewrite Hbit by lia. destruct (Z.eqb_spec (Z.of_nat j) i) as [<-|Hne].
    + rewrite Nat2Z.id in Hj. rewrite list_lookup_insert_eq in Hj by (unfold vlen in Hi; lia). by injection Hj.
    + rewrite list_lookup_insert_ne in Hj by lia. by apply Hbits.
Qed.

(** A list that is represented tells every bit in range. *)
Lemma bitmap_rep_bit cap b l j :
  bitmap_rep cap b l -> 0 <= j < vlen l -> l !! Z.to_nat j = Some (bbit b j).
Proof.
  intros (_ & _ & _ & _ & Hbits) Hj. destruct (lookup_lt_is_Some_2 l (Z.to_nat j)) as [v Hv]; [unfold vlen in Hj; lia|].
  rewrite Hv, <-(Hbits _ _ Hv), Z2Nat.id by lia. done.
Qed.

Lemma bitmap_rep_alloc cap b l :
  bitmap_rep cap b l ->
  exists b', BtreeBitmap.alloc b = Ret (b', ref_first_free l 0) /\
    bitmap_rep cap b' match ref_first_free l 0 with Some i => <[Z.to_nat i := true]> l | None => l end.
Proof.
  intros HR. pose proof HR as (Hb & Hc & Hh & Hl & Hbits).
  destruct (bt_alloc_spec b Hb) as (b' & o & Hrun & Hb' & Hl' & Hh' & Ho). exists b'.
  pose proof (ref_first_free_spec l 0) as Hspec. destruct o as [e|], (ref_first_free l 0) as [e'|].
  - destruct Ho as (He & Hf & Hlow & Hbit), Hspec as (k & -> & Hk & Hlow').
    assert (e = 0 + Z.of_nat k) as ->.
    { rewrite Hl in He. apply Hbits in Hk as Hbk. destruct (Z.lt_trichotomy e (Z.of_nat k)) as [|[|]]; [|lia|].
      - pose proof (bitmap_rep_bit _ _ _ e HR He) as E. rewrite Hlow', Hf in E by lia. done.
      - rewrite Hlow in Hbk by lia. done. }
    split; [done|]. apply (bitmap_rep_put cap b); [done|lia|done|done|done|]. intros j Hj. rewrite Hbit by done. by destruct (_ =? _).
  - exfalso. destruct Ho as (He & Hf & _). rewrite Hl in He.
    pose proof (bitmap_rep_bit _ _ _ e HR He) as E. apply Hspec in E. congruence.
  - exfalso. destruct Ho as (_ & Hnone), Hspec as (k & -> & Hk & _). apply Hbits in Hk. rewrite Hnone in Hk by lia. done.
  - by destruct Ho as [-> _].
Qed.

Lemma bitmap_rep_resize cap b l n :
  bitmap_rep cap b l -> 0 <= n <= cap -> forallb (fun v => v) (drop (Z.to_nat n) l) = true ->
  exists b', BtreeBitmap.resize b n true = Ret b' /\
    bitmap_rep cap b' (take (Z.to_nat n) l ++ replicate (Z.to_nat n - length l) true).
Proof.
  intros HR Hn Hall. pose proof HR as (Hb & Hc & Hh & Hl & Hbits).
  pose proof (leaf_level_wf _ _ Hb) as (_ & Hpad & _).
  assert (Hset : forall j, 0 <= j -> vlen l <= j -> bbit b j = true)
    by (intros j H0 Hj; apply Hpad; unfold blen in Hl; lia).
  destruct (bt_resize_spec b n Hb) as (b' & Hrun & Hb' & Hl' & Hh' & Hbit); [lia|lia| |].
  { intros j Hj. unfold vlen in *. destruct (decide (Z.of_nat (length l) <= j)); [apply Hset; lia|].
    rewrite Hl in Hj. pose proof (bitmap_rep_bit _ _ _ j HR ltac:(unfold vlen; lia)) as E.
    rewrite forallb_forall in Hall. apply (Hall (bbit b j)), list_elem_of_In, list_elem_of_lookup.
    exists (Z.to_nat j - Z.to_nat n)%nat. rewrite lookup_drop, <-E. f_equal. lia. }
  exists b'. split; [done|]. split_and!; [done|done|by rewrite Hh'| |].
  - rewrite Hl'. unfold vlen. rewrite length_app, length_take, length_replicate. lia.
  - intros i v Hi. rewrite Hbit by lia. apply lookup_app_Some in Hi as [Hi|[Hge Hi]].
    + apply lookup_take_Some in Hi as [Hi _]. by apply Hbits.
    + apply lookup_replicate in Hi as [-> Hlt]. rewrite length_take in *. apply Hset; unfold vlen; lia.
Qed.

Lemma bitmap_run_refines cap b l op l' v :
  bitmap_rep cap b l -> ref_run cap l op = Some (l', v) ->
  exists b', bitmap_run b op = Ret (b', v) /\ bitmap_rep cap b' l'.
Proof.
  intros HR Hop. pose proof HR as (Hb & Hc & Hh & Hl & Hbits).
  destruct op as [i|i| |i|n]; cbn [ref_run bitmap_run] in *.
  - destruct (_ && _) eqn:E; [|done]. injection Hop as <- <-.
    destruct (bt_set_spec b i Hb) as (b' & -> & Hb' & Hl' & Hh' & Hbit); [lia|]. exists b'. split; [done|].
    apply (bitmap_rep_put cap b); [done|lia|done|done|done|]. intros j Hj. rewrite Hbit by done. by destruct (_ =? _).
  - destruct (_ && _) eqn:E; [|done]. injection Hop as <- <-.
    destruct (bt_clear_spec b i Hb) as (b' & -> & Hb' & Hl' & Hh' & Hbit); [lia|]. exists b'. split; [done|].
    apply (bitmap_rep_put cap b); [done|lia|done|done|done|]. intros j Hj. rewrite Hbit by done. by destruct (_ =? _).
  - destruct (bitmap_rep_alloc cap b l HR) as (b' & -> & HR'). exists b'.
    destruct (ref_first_free l 0); injection Hop as <- <-; done.
  - destruct (Z.leb_spec 0 i); [|done]. destruct (l !! Z.to_nat i) as [w|] eqn:E; [|done].
    injection Hop as <- <-. exists b. pose proof (lookup_lt_Some _ _ _ E).
    rewrite bt_get_spec by (done || (unfold vlen in Hl; lia)). rewrite <-(Hbits _ _ E), Z2Nat.id by lia. done.
  - destruct (_ && _) eqn:E; [|done]. injection Hop as <- <-. apply andb_true_iff in E as [E Hall].
    destruct (bitmap_rep_resize cap b l n HR ltac:(lia) Hall) as (b' & -> & HR'). by exists b'.
Qed.

Lemma bitmap_exec_refines cap ops : forall b l l' vs,
  bitmap_rep cap b l -> ref_exec cap l ops = Some (l', vs) ->
  exists b', bitmap_exec b ops = Ret (b', vs) /\ bitmap_rep cap b' l'.
Proof.
  induction ops as [|op ops IH]; intros b l l' vs HR Hops; cbn [ref_exec bitmap_exec] in *.
  { injection Hops as <- <-. by exists b. }
  destruct (ref_run cap l op) as [[l1 v]|] eqn:E1; [|done]. simpl in Hops.
  destruct (ref_exec cap l1 ops) as [[l2 vs']|] eqn:E2; [|done]. simpl in Hops. injection Hops as <- <-.
  destruct (bitmap_run_refines cap b l op l1 v HR E1) as (b1 & -> & HR1). cbn [mbind outcome_bind fst snd].
  destruct (IH b1 l1 l2 vs' HR1 E2) as (b2 & -> & HR2). by exists b2.
Qed.

(** C28. A bitmap tree built by [new_padded] behaves as a plain list of bits: for
    every sequence of [set], [clear], [alloc], [get] and [resize] calls inside
    the contract, the tree does not panic, returns what the list returns
    ([alloc] the lowest free id) and still represents the list at the end. *)
Theorem btree_bitmap_refines_list n cap ops l' vs :
  0 <= n <= cap -> cap <= 2 ^ 32 - 128 ->
  ref_exec cap (replicate (Z.to_nat n) true) ops = Some (l', vs) ->
  exists b b', BtreeBitmap.new_padded n n cap = Ret b /\ bitmap_exec b ops = Ret (b', vs) /\
    bitmap_rep cap b' l'.
Proof.
  intros Hn Hcap Hops. destruct (bt_new_padded_spec n cap Hn Hcap) as (b & Hnew & Hb & Hl & Hh & Hbits).
  exists b. destruct (bitmap_exec_refines cap ops b (replicate (Z.to_nat n) true) l' vs) as (b' & Hrun & HR).
  - split_and!; [done|done| | |].
    + rewrite Hh. apply height_for_bound. change (64 ^ Z.of_nat 7) with (2 ^ 42). lia.
    + unfold vlen. rewrite length_replicate. lia.
    + intros i v Hi. apply lookup_replicate in Hi as [-> _]. apply Hbits. lia.
  - done.
  - by exists b'.
Qed.

Lemma btree_bitmap_refines_list_witness :
  exists b b', BtreeBitmap.new_padded 70 70 5000 = Ret b /\
    bitmap_exec b [OpClear 69; OpClear 66; OpAlloc; OpResize 130; OpClear 129; OpAlloc; OpAlloc; OpGet 129; OpAlloc]
    = Ret (b', [VUnit; VUnit; VId (Some 66); VUnit; VUnit; VId (Some 69); VId (Some 129); VBool true; VId None]) /\
    bitmap_rep 5000 b' (replicate 130 true).
Proof. apply (btree_bitmap_refines_list 70 5000); [lia|lia|vm_compute; reflexivity]. Defined.

(** Writing a bitmap tree with [to_vec] and reading it back with
    [from_bytes] gives a well-formed tree of the same length and height with
    the same bits. *)
Theorem btree_bitmap_roundtrip b :
  bwf b -> blen b <= 2 ^ 30 -> (bheight b <= 7)%nat ->
  exists v b', BtreeBitmap.to_vec b = Ret v /\ BtreeBitmap.from_bytes v = Ret b' /\ bwf b' /\
    blen b' = blen b /\ bheight b' = bheight b /\ forall j, 0 <= j -> bbit b' j = bbit b j.
Proof.
  intros Hb Hl Hh. destruct (bt_serialize_spec b (2 ^ 27) Hb) as (v & b' & ? & _ & ?); [lia|lia|done|]. by exists v, b'.
Qed.

Lemma btree_bitmap_roundtrip_witness :
  exists b v b', BtreeBitmap.new_padded 100 100 100 = Ret b /\ BtreeBitmap.to_vec b = Ret v /\
    BtreeBitmap.from_bytes v = Ret b' /\ blen b' = 100.
Proof.
  destruct (bt_new_padded_spec 100 100 ltac:(lia) ltac:(lia)) as (b & Hnew & Hb & Hl & Hh & _).
  destruct (btree_bitmap_roundtrip b Hb) as (v & b' & Hv & Hr & _ & Hl' & _).
  - rewrite Hl. lia.
  - rewrite Hh. vm_compute. lia.
  - exists b, v, b'. rewrite Hl', Hl. done.
Defined.
