(* ===== verification/Buddy.v ===== *)
(** The buddy allocator of a region
    (src/src/tree_store/page_store/buddy_allocator.rs).

    One [BtreeBitmap] per order records the free blocks of [2^order] pages; a
    page is marked free at one order only, the largest it can be merged to. *)
From S2P Require Import Prelude Bitmap.

(** * Model *)

(** [MAX_MAX_PAGE_ORDER], the base-2 logarithm of [MAX_PAGE_INDEX + 1] *)
Definition MAX_PAGE_INDEX : Z := 0x000FFFFF.
Definition MAX_MAX_PAGE_ORDER : Z := Z.log2 (MAX_PAGE_INDEX + 1).

(** [u32::leading_zeros] *)
Definition leading_zeros (x : Z) : Z := if x =? 0 then 32 else 31 - Z.log2 x.

(** [2u32.pow(order)] *)
Definition pow2_u32 (order : Z) : outcome Z := utry 32 (2 ^ order).

Definition calculate_usable_order (pages : Z) : outcome Z :=
  a ← usub 32 (leading_zeros pages);
  max_order ← usub a 1;
  Ret (Z.min MAX_MAX_PAGE_ORDER max_order).

Definition next_higher_order (page_number : Z) : Z := page_number / 2.

Definition buddy_page (page_number : Z) : Z := Z.lxor page_number 1.

Module BuddyAllocator.

Record t := mk { free : list BtreeBitmap.t; len : Z; max_order : Z }.

(** [self.get_order_free(order)] *)
Definition get_order_free (b : t) (order : Z) : outcome BtreeBitmap.t := vget (free b) order.

(** [self.get_order_free_mut(order)] followed by an update of that bitmap *)
Definition put_order_free (b : t) (order : Z) (bm : BtreeBitmap.t) : outcome t :=
  f ← vset (free b) order bm;
  Ret (mk f (len b) (max_order b)).

(** [self.get_order_free_mut(order).clear(page)] and [.set(page)] *)
Definition clear_at (b : t) (order page : Z) : outcome t :=
  bm ← get_order_free b order;
  bm' ← BtreeBitmap.clear bm page;
  put_order_free b order bm'.
Definition set_at (b : t) (order page : Z) : outcome t :=
  bm ← get_order_free b order;
  bm' ← BtreeBitmap.set bm page;
  put_order_free b order bm'.

(** The orders [from..=to] *)
Definition orders (from to : Z) : list Z := seqZ from (to - from + 1).

(** The loop of [new] that builds the bitmaps, [n] of them *)
Fixpoint new_bitmaps (n : nat) (pages_for_order capacity_for_order : Z)
    : outcome (list BtreeBitmap.t) :=
  match n with
  | O => Ret []
  | S m =>
      bm ← BtreeBitmap.new_padded pages_for_order pages_for_order capacity_for_order;
      r ← new_bitmaps m (next_higher_order pages_for_order) (next_higher_order capacity_for_order);
      Ret (bm :: r)
  end.

(** [while processed_pages + order_size <= limit] of [new] and [resize], where
    [op] marks the page of that order; at most [fuel] rounds *)
Fixpoint block_loop (op : t -> Z -> Z -> outcome t) (fuel : nat)
    (order order_size limit : Z) (s : Z * t) : outcome (Z * t) :=
  let '(processed_pages, b) := s in
  next ← uadd 32 processed_pages order_size;
  if next <=? limit then
    match fuel with
    | O => Panic
    | S f =>
        b' ← op b (processed_pages / order_size) order;
        block_loop op f order order_size limit (next, b')
    end
  else Ret s.

(** [for order in (0..=max_order).rev()] around it *)
Definition block_orders (op : t -> Z -> Z -> outcome t) (limit : Z) (s : Z * t) : outcome (Z * t) :=
  for_each (fun order s' =>
      order_size ← pow2_u32 order;
      block_loop op (Z.to_nat limit) order order_size limit s')
    (reverse (orders 0 (max_order s.2))) s.

Definition new (num_pages max_page_capacity : Z) : outcome t :=
  mo ← calculate_usable_order max_page_capacity;
  f ← new_bitmaps (Z.to_nat (mo + 1)) num_pages max_page_capacity;
  r ← block_orders (fun b page order => clear_at b order page) num_pages (0, mk f num_pages mo);
  _ ← rassert (r.1 =? num_pages);
  Ret r.2.

(** The loop of [highest_free_order] over the orders it is given *)
Fixpoint find_order (b : t) (os : list Z) : outcome (option Z) :=
  match os with
  | [] => Ret None
  | o :: rest =>
      bm ← get_order_free b o;
      u ← BtreeBitmap.has_unset bm;
      if u : bool then Ret (Some o) else find_order b rest
  end.

Definition highest_free_order (b : t) : outcome (option Z) :=
  find_order b (reverse (orders 0 (max_order b))).

Definition count_free_pages (b : t) : outcome Z :=
  for_each (fun order pages =>
      bm ← get_order_free b order;
      n ← BtreeBitmap.count_unset bm;
      size ← pow2_u32 order;
      k ← umul 32 n size;
      uadd 32 pages k)
    (orders 0 (max_order b)) 0.

Definition count_allocated_pages (b : t) : outcome Z :=
  n ← count_free_pages b;
  usub (len b) n.

Definition get_max_order (b : t) : Z := max_order b.

(** The loop of [find_free_order] *)
Fixpoint free_order_loop (b : t) (os : list Z) (page : Z) : outcome (option Z) :=
  match os with
  | [] => Ret None
  | o :: rest =>
      bm ← get_order_free b o;
      l ← BtreeBitmap.len bm;
      if page <? l then
        g ← BtreeBitmap.get bm page;
        if negb g then Ret (Some o) else free_order_loop b rest (next_higher_order page)
      else free_order_loop b rest (next_higher_order page)
  end.

Definition find_free_order (b : t) (page : Z) : outcome (option Z) :=
  free_order_loop b (orders 0 (max_order b)) page.

(** The loop of [trailing_free_pages], with at most [fuel] rounds *)
Fixpoint trailing_loop (fuel : nat) (b : t) (next_page free_pages : Z) : outcome Z :=
  o ← find_free_order b next_page;
  match o, fuel with
  | None, _ => Ret free_pages
  | Some _, O => Panic
  | Some order, S f =>
      order_size ← pow2_u32 order;
      total ← uadd 32 free_pages order_size;
      if next_page <? order_size then Ret total
      else np ← usub next_page order_size; trailing_loop f b np total
  end.

Definition trailing_free_pages (b : t) : outcome Z :=
  next_page ← usub (len b) 1;
  trailing_loop (Z.to_nat (len b)) b next_page 0.

(** [free_inner], whose recursion climbs at most [fuel] orders *)
Fixpoint free_rec (fuel : nat) (b : t) (page_number order : Z) : outcome t :=
  if order =? max_order b then clear_at b order page_number
  else
    allocator ← get_order_free b order;
    let buddy := buddy_page page_number in
    l ← BtreeBitmap.len allocator;
    g ← (if l <=? buddy then Ret true else BtreeBitmap.get allocator buddy);
    if g : bool then clear_at b order page_number
    else
      b' ← set_at b order buddy;
      match fuel with
      | O => Panic
      | S f => free_rec f b' (next_higher_order page_number) (order + 1)
      end.

Definition free_inner (b : t) (page_number order : Z) : outcome t :=
  free_rec (Z.to_nat (max_order b)) b page_number order.

(** [free], with its debug assertion *)
Definition free_page (b : t) (page_number order : Z) : outcome t :=
  bm ← get_order_free b order;
  g ← BtreeBitmap.get bm page_number;
  _ ← rassert g;
  free_inner b page_number order.

(** Splitting an allocated page of the next order: its second half is marked
    free and its first half returned *)
Definition split_page (b : t) (order upper_page : Z) : outcome (t * Z) :=
  free1 ← umul 32 upper_page 2;
  free2 ← uadd 32 free1 1;
  allocator ← get_order_free b order;
  g1 ← BtreeBitmap.get allocator free1;
  _ ← rassert g1;
  g2 ← BtreeBitmap.get allocator free2;
  _ ← rassert g2;
  b' ← clear_at b order free2;
  Ret (b', free1).

(** [alloc_inner], whose recursion climbs at most [fuel] orders *)
Fixpoint alloc_rec (fuel : nat) (b : t) (order : Z) : outcome (t * option Z) :=
  if max_order b <? order then Ret (b, None)
  else
    allocator ← get_order_free b order;
    r ← BtreeBitmap.alloc allocator;
    match r.2 with
    | Some x => b' ← put_order_free b order r.1; Ret (b', Some x)
    | None =>
        match fuel with
        | O => Panic
        | S f =>
            b0 ← put_order_free b order r.1;
            s ← alloc_rec f b0 (order + 1);
            match s.2 with
            | None => Ret (s.1, None)
            | Some upper_page =>
                p ← split_page s.1 order upper_page;
                Ret (p.1, Some p.2)
            end
        end
    end.

Definition alloc_inner (b : t) (order : Z) : outcome (t * option Z) :=
  alloc_rec (Z.to_nat (max_order b + 1)) b order.

Definition alloc (b : t) (order : Z) : outcome (t * option Z) := alloc_inner b order.

(** One round of the search loop of [alloc_lowest] at order [i] *)
Record lowest_state := lowest {
  ls_alloc : t; ls_multiplier : Z; ls_best_index : Z; ls_best : Z * Z }.

Definition lowest_step (i : Z) (s : lowest_state) : outcome lowest_state :=
  r ← alloc_inner (ls_alloc s) i;
  s' ← (match r.2 with
        | Some index =>
            index_at_order ← umul 32 index (ls_multiplier s);
            if index_at_order <? ls_best_index s then
              b' ← free_inner r.1 (ls_best s).1 (ls_best s).2;
              Ret (lowest b' (ls_multiplier s) index_at_order (index, i))
            else
              b' ← free_inner r.1 index i;
              Ret (lowest b' (ls_multiplier s) (ls_best_index s) (ls_best s))
        | None => Ret (lowest r.1 (ls_multiplier s) (ls_best_index s) (ls_best s))
        end);
  m ← umul 32 (ls_multiplier s') 2;
  Ret (lowest (ls_alloc s') m (ls_best_index s') (ls_best s')).

(** The loop of [alloc_lowest] that splits the chosen page, [best_order - order] times *)
Fixpoint split_loop (n : nat) (b : t) (best : Z * Z) : outcome (t * (Z * Z)) :=
  match n with
  | O => Ret (b, best)
  | S m =>
      p ← split_page b (best.2 - 1) best.1;
      split_loop m p.1 (p.2, best.2 - 1)
  end.

Definition alloc_lowest (b : t) (order : Z) : outcome (t * option Z) :=
  r ← alloc_inner b order;
  match r.2 with
  | None => Ret (r.1, None)
  | Some best_index_at_order =>
      s ← for_each lowest_step (orders (order + 1) (max_order b))
            (lowest r.1 2 best_index_at_order (best_index_at_order, order));
      p ← split_loop (Z.to_nat ((ls_best s).2 - order)) (ls_alloc s) (ls_best s);
      _ ← rassert (p.2.1 =? ls_best_index s);
      Ret (p.1, Some p.2.1)
  end.

(** [record_alloc_inner], whose recursion climbs at most [fuel] orders *)
Fixpoint record_rec (fuel : nat) (b : t) (page_number order : Z) : outcome t :=
  allocator ← get_order_free b order;
  g ← BtreeBitmap.get allocator page_number;
  if g : bool then
    match fuel with
    | O => Panic
    | S f =>
        let upper_page := next_higher_order page_number in
        b' ← record_rec f b upper_page (order + 1);
        free1 ← umul 32 upper_page 2;
        free2 ← uadd 32 free1 1;
        _ ← rassert ((free1 =? page_number) || (free2 =? page_number));
        if free1 =? page_number then clear_at b' order free2 else clear_at b' order free1
    end
  else set_at b order page_number.

Definition record_alloc_inner (b : t) (page_number order : Z) : outcome t :=
  record_rec (Z.to_nat (max_order b + 1)) b page_number order.

Definition record_alloc (b : t) (page_number order : Z) : outcome t :=
  _ ← rassert (order <=? max_order b);
  record_alloc_inner b page_number order.

(** [debug_check_consistency]: no page is free at two orders *)
Fixpoint check_page (b : t) (os : list Z) (page : Z) (found : bool) : outcome unit :=
  match os with
  | [] => Ret tt
  | o :: rest =>
      bm ← get_order_free b o;
      l ← BtreeBitmap.len bm;
      if l <=? page then Ret tt
      else
        g ← BtreeBitmap.get bm page;
        if g : bool then check_page b rest (next_higher_order page) found
        else _ ← rassert (negb found); check_page b rest (next_higher_order page) true
  end.

(** [debug_check_consistency]: the buddy of a free page is not free *)
Definition check_buddy (bm : BtreeBitmap.t) (page : Z) : outcome unit :=
  g ← BtreeBitmap.get bm page;
  if g : bool then Ret tt
  else
    let buddy := buddy_page page in
    l ← BtreeBitmap.len bm;
    if buddy <? l then bg ← BtreeBitmap.get bm buddy; rassert bg else Ret tt.

Definition debug_check_consistency (b : t) : outcome unit :=
  _ ← for_each (fun processed _ => check_page b (orders 0 (max_order b)) processed false)
        (seqZ 0 (len b)) tt;
  for_each (fun order _ =>
      size ← pow2_u32 order;
      bm ← get_order_free b order;
      for_each (fun page _ => check_buddy bm page) (seqZ 0 (len b / size)) tt)
    (reverse (orders 0 (max_order b - 1))) tt.

(** The loop of [resize] over the bitmaps *)
Fixpoint resize_bitmaps (f : list BtreeBitmap.t) (pages_for_order : Z)
    : outcome (list BtreeBitmap.t) :=
  match f with
  | [] => Ret []
  | bm :: rest =>
      bm' ← BtreeBitmap.resize bm pages_for_order true;
      r ← resize_bitmaps rest (next_higher_order pages_for_order);
      Ret (bm' :: r)
  end.

(** "Align to the highest order possible" when growing *)
Fixpoint grow_align (fuel : nat) (new_size : Z) (s : Z * t) : outcome (Z * t) :=
  let '(processed_pages, b) := s in
  if processed_pages <? new_size then
    let order := trailing_zeros 32 processed_pages in
    order_size ← pow2_u32 order;
    _ ← rassert (processed_pages mod order_size =? 0);
    if max_order b <=? order then Ret s
    else
      next ← uadd 32 processed_pages order_size;
      if new_size <? next then Ret s
      else
        match fuel with
        | O => Panic
        | S f =>
            b' ← free_inner b (processed_pages / order_size) order;
            grow_align f new_size (next, b')
        end
  else Ret s.

(** "Align to the highest order possible" when shrinking *)
Fixpoint shrink_align (fuel : nat) (limit : Z) (s : Z * t) : outcome (Z * t) :=
  let '(processed_pages, b) := s in
  if processed_pages <? limit then
    let order := trailing_zeros 32 processed_pages in
    if max_order b <=? order then Ret s
    else
      order_size ← pow2_u32 order;
      _ ← rassert (processed_pages mod order_size =? 0);
      next ← uadd 32 processed_pages order_size;
      if limit <? next then Ret s
      else
        match fuel with
        | O => Panic
        | S f =>
            b' ← record_alloc_inner b (processed_pages / order_size) order;
            shrink_align f limit (next, b')
        end
  else Ret s.

(** The branch of [resize] that grows *)
Definition resize_grow (b : t) (new_size : Z) : outcome t :=
  f ← resize_bitmaps (free b) new_size;
  s ← grow_align (Z.to_nat new_size) new_size (len b, mk f (len b) (max_order b));
  s' ← block_orders free_inner new_size s;
  _ ← rassert (s'.1 =? new_size);
  Ret (mk (free s'.2) new_size (max_order b)).

(** The branch of [resize] that shrinks *)
Definition resize_shrink (b : t) (new_size : Z) : outcome t :=
  s ← shrink_align (Z.to_nat (len b)) (len b) (new_size, b);
  s' ← block_orders record_alloc_inner (len b) s;
  _ ← rassert (s'.1 =? len b);
  f ← resize_bitmaps (free s'.2) new_size;
  Ret (mk f new_size (max_order b)).

Definition resize (b : t) (new_size : Z) : outcome t :=
  _ ← debug_check_consistency b;
  b' ← (if len b <? new_size then resize_grow b new_size else resize_shrink b new_size);
  _ ← debug_check_consistency b';
  Ret b'.

Definition to_vec (b : t) : outcome (list Z) :=
  serialized ← omap_list BtreeBitmap.to_vec (free b);
  let header_bytes := 1 + 3 + 4 in
  let offsets_bytes := (max_order b + 1) * 4 in
  ends ← end_offsets serialized (header_bytes + offsets_bytes);
  Ret (([max_order b] ++ [0; 0; 0] ++ to_le_bytes 4 (len b)) ++ ends ++ concat serialized).

Definition from_bytes (bytes : list Z) : outcome t :=
  mo ← vget bytes 0;
  np ← slice bytes 4 8;
  f ← read_sections BtreeBitmap.from_bytes (Z.to_nat (mo + 1)) bytes 8 (8 + (mo + 1) * 4);
  Ret (mk f (from_le_bytes np) mo).

End BuddyAllocator.

(** * The free blocks of an allocator

    The abstract view of an allocator is the function [F] that says whether
    block [p] of order [o] is marked free; a page [q] lies in block [q / 2^o]
    of order [o]. *)

(** Page [q] lies in a block marked free. *)
Definition pfree (F : Z -> Z -> bool) (q : Z) : Prop := exists o, F o (q / 2 ^ o) = true.

(** The invariant of the view: marked blocks are in range, no page is marked at
    two orders, and two buddies are never both marked below the highest order. *)
Record view_ok (mo n : Z) (F : Z -> Z -> bool) : Prop := {
  vo_range : forall o p, F o p = true -> 0 <= o <= mo /\ 0 <= p < n / 2 ^ o;
  vo_once : forall q o1 o2, F o1 (q / 2 ^ o1) = true -> F o2 (q / 2 ^ o2) = true -> o1 = o2;
  vo_merged : forall o p, o < mo -> F o p = true -> F o (buddy_page p) = false }.

(** Block [p] of order [o] with its mark changed to [v]. *)
Definition mark (F : Z -> Z -> bool) (o p : Z) (v : bool) : Z -> Z -> bool :=
  fun o' p' => if (o' =? o) && (p' =? p) then v else F o' p'.

(** Two views that agree. *)
Definition view_eq (F G : Z -> Z -> bool) : Prop := forall o p, F o p = G o p.

Lemma buddy_page_even u : buddy_page (2 * u) = 2 * u + 1.
Proof.
  unfold buddy_page. apply Z.bits_inj'. intros i Hi. rewrite Z.lxor_spec.
  destruct (decide (i = 0)) as [->|].
  - rewrite Z.testbit_even_0, Z.testbit_odd_0. done.
  - replace i with (Z.succ (i - 1)) by lia.
    rewrite Z.testbit_even_succ, Z.testbit_odd_succ by lia.
    change 1 with (2 * 0 + 1) at 2. rewrite Z.testbit_odd_succ, Z.bits_0 by lia. apply xorb_false_r.
Qed.

Lemma buddy_page_odd u : buddy_page (2 * u + 1) = 2 * u.
Proof. rewrite <-buddy_page_even. unfold buddy_page. rewrite Z.lxor_assoc, Z.lxor_nilpotent. apply Z.lxor_0_r. Qed.

(** The two cases of a block and its buddy. *)
Lemma buddy_cases p :
  (p = 2 * (p / 2) /\ buddy_page p = 2 * (p / 2) + 1) \/
  (p = 2 * (p / 2) + 1 /\ buddy_page p = 2 * (p / 2)).
Proof.
  pose proof (Z.div_mod p 2 ltac:(lia)) as Hd. pose proof (Z.mod_pos_bound p 2 ltac:(lia)).
  set (u := p / 2) in *. assert (p mod 2 = 0 \/ p mod 2 = 1) as [E|E] by lia; rewrite E in Hd.
  - left. rewrite Z.add_0_r in Hd. rewrite Hd. split; [done|]. apply buddy_page_even.
  - right. rewrite Hd. split; [done|]. apply buddy_page_odd.
Qed.

Lemma div_pow2_add q a k : 0 <= a -> 0 <= k -> q / 2 ^ (a + k) = q / 2 ^ a / 2 ^ k.
Proof. intros. rewrite Z.pow_add_r, Z.div_div by lia. done. Qed.

Lemma div_pow2_succ q o : 0 <= o -> q / 2 ^ (o + 1) = q / 2 ^ o / 2.
Proof. intros. by rewrite div_pow2_add, Z.pow_1_r by lia. Qed.

(** The pages of block [p] of order [o]. *)
Lemma block_pages o p q : 0 <= o -> q / 2 ^ o = p <-> p * 2 ^ o <= q < (p + 1) * 2 ^ o.
Proof.
  intros Ho. assert (0 < 2 ^ o) by (apply Z.pow_pos_nonneg; lia). split.
  - intros <-. pose proof (Z.div_mod q (2 ^ o)). pose proof (Z.mod_pos_bound q (2 ^ o)). nia.
  - intros Hq. symmetry. apply (Z.div_unique_pos _ _ _ (q - p * 2 ^ o)); lia.
Qed.

Lemma block_first o p : 0 <= o -> p * 2 ^ o / 2 ^ o = p.
Proof. intros. apply Z.div_mul. assert (0 < 2 ^ o) by (apply Z.pow_pos_nonneg; lia). lia. Qed.

(** ** Marking and unmarking a block *)

Lemma mark_same F o p v : mark F o p v o p = v.
Proof. unfold mark. by rewrite !Z.eqb_refl. Qed.

Lemma mark_cases F o p v o' p' :
  (o' = o /\ p' = p /\ mark F o p v o' p' = v) \/
  ((o' <> o \/ p' <> p) /\ mark F o p v o' p' = F o' p').
Proof.
  unfold mark. destruct (Z.eqb_spec o' o), (Z.eqb_spec p' p); simpl; naive_solver.
Qed.

Lemma view_remove mo n F o p :
  view_ok mo n F -> F o p = true ->
  view_ok mo n (mark F o p false) /\
  forall q, pfree (mark F o p false) q <-> pfree F q /\ q / 2 ^ o <> p.
Proof.
  intros [Hr Ho Hm] HF. split.
  - split.
    + intros o' p' H. destruct (mark_cases F o p false o' p') as [(? & ? & E)|[_ E]]; rewrite E in H; eauto. done.
    + intros q o1 o2 H1 H2.
      destruct (mark_cases F o p false o1 (q / 2 ^ o1)) as [(? & ? & E)|[_ E]]; rewrite E in H1; [done|].
      destruct (mark_cases F o p false o2 (q / 2 ^ o2)) as [(? & ? & E')|[_ E']]; rewrite E' in H2; [done|].
      eauto.
    + intros o' p' Hlt H.
      destruct (mark_cases F o p false o' p') as [(? & ? & E)|[_ E]]; rewrite E in H; [done|].
      destruct (mark_cases F o p false o' (buddy_page p')) as [(? & ? & ->)|[_ ->]]; eauto.
  - intros q. split.
    + intros [o' H]. destruct (mark_cases F o p false o' (q / 2 ^ o')) as [(? & ? & E)|[Hne E]]; rewrite E in H; [done|].
      split; [by exists o'|]. intros Hq.
      assert (o' = o) as -> by (eapply Ho; [exact H|by rewrite Hq]). destruct Hne; done.
    + intros [[o' H] Hq]. exists o'.
      destruct (mark_cases F o p false o' (q / 2 ^ o')) as [(-> & ? & _)|[_ ->]]; done.
Qed.

Lemma view_add mo n F o p :
  view_ok mo n F -> 0 <= o <= mo -> 0 <= p < n / 2 ^ o ->
  (forall q, q / 2 ^ o = p -> ~ pfree F q) ->
  (o < mo -> F o (buddy_page p) = false) ->
  view_ok mo n (mark F o p true) /\
  forall q, pfree (mark F o p true) q <-> pfree F q \/ q / 2 ^ o = p.
Proof.
  intros [Hr Ho Hm] Hom Hp Hnew Hb. split.
  - split.
    + intros o' p' H. destruct (mark_cases F o p true o' p') as [(-> & -> & E)|[_ E]]; rewrite E in H; eauto.
    + intros q o1 o2 H1 H2.
      destruct (mark_cases F o p true o1 (q / 2 ^ o1)) as [(-> & Hq1 & E)|[_ E]]; rewrite E in H1;
      destruct (mark_cases F o p true o2 (q / 2 ^ o2)) as [(-> & Hq2 & E')|[_ E']]; rewrite E' in H2; eauto.
      * exfalso. eapply Hnew; [exact Hq1|]. by exists o2.
      * exfalso. eapply Hnew; [exact Hq2|]. by exists o1.
    + intros o' p' Hlt H.
      assert (buddy_page (buddy_page p') = p') as Hbb
        by (unfold buddy_page; by rewrite Z.lxor_assoc, Z.lxor_nilpotent, Z.lxor_0_r).
      assert (buddy_page p' <> p') as Hne by (destruct (buddy_cases p') as [[]|[]]; lia).
      destruct (mark_cases F o p true o' (buddy_page p')) as [(Ho1 & Hq & ->)|[_ ->]];
      destruct (mark_cases F o p true o' p') as [(Ho2 & ? & E)|[_ E]]; rewrite E in H; [| |subst; eauto|eauto].
      * congruence.
      * rewrite <-Hq, Hbb in Hb. rewrite Ho1, Hb in H by lia. done.
  - intros q. split.
    + intros [o' H]. destruct (mark_cases F o p true o' (q / 2 ^ o')) as [(-> & ? & E)|[Hne E]]; [by right|].
      left. exists o'. congruence.
    + intros [[o' H]|Hq].
      * exists o'. destruct (mark_cases F o p true o' (q / 2 ^ o')) as [(-> & ? & ->)|[_ ->]]; done.
      * exists o. rewrite Hq. apply mark_same.
Qed.

(** Free pages are pages of the allocator. *)
Lemma pfree_range mo n F q : view_ok mo n F -> pfree F q -> 0 <= q < n.
Proof.
  intros HF [o H]. apply (vo_range _ _ _ HF) in H as [Ho [H1 H2]].
  assert (0 < 2 ^ o) by (apply Z.pow_pos_nonneg; lia). split.
  - destruct (Z.le_gt_cases 0 q) as [|Hlt]; [done|]. pose proof (Z.div_lt_upper_bound q (2 ^ o) 0). lia.
  - destruct (Z.lt_ge_cases q n) as [|Hge]; [done|]. apply (Z.div_le_mono _ _ (2 ^ o)) in Hge; lia.
Qed.

(** ** Maximality: a wholly free block lies in a marked block of its order or
    a higher one *)
Lemma view_cover mo n F o p :
  view_ok mo n F -> 0 <= o <= mo -> (forall q, q / 2 ^ o = p -> pfree F q) ->
  exists k, 0 <= k /\ F (o + k) (p / 2 ^ k) = true.
Proof.
  intros HF Ho Hall. destruct Ho as [Ho Hmo]. revert Hmo p Hall.
  pattern o. apply natlike_ind; [..|exact Ho]; clear o Ho.
  - intros _ p Hall. destruct (Hall p) as [o Hp]; [by rewrite Z.pow_0_r, Z.div_1_r|].
    exists o. split; [by apply (vo_range _ _ _ HF) in Hp as [[? ?] _]|done].
  - intros o Ho IH Hmo p Hall. rewrite <-Z.add_1_r in *.
    assert (Hhalf : forall i, i / 2 = p -> exists k, 0 <= k /\ F (o + k) (i / 2 ^ k) = true).
    { intros i Hi. apply IH; [lia|]. intros q Hq. apply Hall. rewrite div_pow2_succ by lia. by rewrite Hq. }
    destruct (Hhalf (2 * p)) as (k1 & Hk1 & H1); [rewrite Z.mul_comm; by apply Z.div_mul|].
    destruct (Hhalf (2 * p + 1)) as (k2 & Hk2 & H2); [by rewrite Z.mul_comm, Z.div_add_l, Z.add_0_r by lia|].
    assert (Hup : forall i k, i / 2 = p -> 0 < k -> F (o + k) (i / 2 ^ k) = true ->
              exists k', 0 <= k' /\ F (o + 1 + k') (p / 2 ^ k') = true).
    { intros i k Hi Hk H. exists (k - 1). split; [lia|].
      replace (o + 1 + (k - 1)) with (o + k) by lia. rewrite <-H. f_equal.
      rewrite <-Hi, Z.div_div by (try apply Z.pow_nonzero; lia).
      rewrite <-(Z.pow_succ_r 2 (k - 1)) by lia. f_equal. f_equal. lia. }
    destruct (decide (k1 = 0)) as [->|]; [|apply (Hup (2 * p) k1); [rewrite Z.mul_comm; by apply Z.div_mul|lia|done]].
    destruct (decide (k2 = 0)) as [->|];
      [|apply (Hup (2 * p + 1) k2); [by rewrite Z.mul_comm, Z.div_add_l, Z.add_0_r by lia|lia|done]].
    exfalso. rewrite Z.add_0_r, Z.pow_0_r, Z.div_1_r in H1, H2.
    pose proof (vo_merged _ _ _ HF o (2 * p) ltac:(lia) H1) as Hb. rewrite buddy_page_even in Hb. congruence.
Qed.

(** The view is determined by the set of free pages: the marked blocks are the
    wholly free blocks whose parent is not wholly free. *)
Lemma view_canonical mo n F o p :
  view_ok mo n F ->
  F o p = true <->
  0 <= o <= mo /\ (forall q, q / 2 ^ o = p -> pfree F q) /\
  (o = mo \/ ~ forall q, q / 2 ^ (o + 1) = p / 2 -> pfree F q).
Proof.
  intros HF. split.
  - intros H. pose proof (vo_range _ _ _ HF _ _ H) as [Ho Hp]. split; [done|].
    split; [intros q Hq; exists o; by rewrite Hq|].
    destruct (decide (o = mo)) as [|Hne]; [by left|right]. intros Hall.
    destruct (view_cover mo n F (o + 1) (p / 2) HF ltac:(lia) Hall) as (k & Hk & Hc).
    assert (o = o + 1 + k); [|lia]. apply (vo_once _ _ _ HF (p * 2 ^ o)).
    + by rewrite block_first by lia.
    + by rewrite div_pow2_add, div_pow2_succ, block_first by lia.
  - intros (Ho & Hall & Hpar). destruct (view_cover mo n F o p HF Ho Hall) as (k & Hk & Hc).
    destruct (decide (k = 0)) as [->|Hne]; [by rewrite Z.add_0_r, Z.pow_0_r, Z.div_1_r in Hc|].
    pose proof (vo_range _ _ _ HF _ _ Hc) as [Hok _]. destruct Hpar as [->|Hpar]; [lia|].
    exfalso. apply Hpar. intros q Hq. exists (o + k).
    replace (o + k) with (o + 1 + (k - 1)) by lia. rewrite div_pow2_add by lia. rewrite Hq.
    replace (p / 2 / 2 ^ (k - 1)) with (p / 2 ^ k); [by replace (o + 1 + (k - 1)) with (o + k) by lia|].
    rewrite Z.div_div by (try apply Z.pow_nonzero; lia). rewrite <-(Z.pow_succ_r 2) by lia. do 2 f_equal. lia.
Qed.

(** Two views with the same free pages are equal. *)
Lemma view_unique mo n m F G :
  view_ok mo n F -> view_ok mo m G -> (forall q, pfree F q <-> pfree G q) -> view_eq F G.
Proof.
  intros HF HG Hq o p. apply eq_true_iff_eq. rewrite (view_canonical _ _ _ _ _ HF), (view_canonical _ _ _ _ _ HG).
  assert (forall k x, (forall q, q / 2 ^ k = x -> pfree F q) <-> (forall q, q / 2 ^ k = x -> pfree G q)) as Hall
    by (intros k x; split; intros H q E; apply Hq, H, E).
  by rewrite !Hall.
Qed.

(** Views up to agreement. *)
#[export] Instance view_eq_equiv : Equivalence view_eq.
Proof. split; [by intros ??|by intros ????|intros F G H HFG HGH o p; by rewrite HFG]. Qed.

#[export] Instance pfree_proper : Proper (view_eq ==> eq ==> iff) pfree.
Proof. intros F G H q ? <-. unfold pfree. by setoid_rewrite (fun o => H o (q / 2 ^ o)). Qed.

#[export] Instance view_ok_proper mo n : Proper (view_eq ==> iff) (view_ok mo n).
Proof.
  assert (forall F G, view_eq F G -> view_ok mo n F -> view_ok mo n G) as Himp.
  { intros F G H [Hr Ho Hm]. split; intros *; rewrite <-!H; eauto. }
  intros F G H. split; [by apply Himp|]. apply Himp. by symmetry.
Qed.

(** * The invariant of an allocator *)

Import BuddyAllocator (free, max_order).
#[local] Arguments height_for : simpl never.

(** The blocks [b] marks free. *)
Definition fa (b : BuddyAllocator.t) (o p : Z) : bool :=
  (0 <=? o) && (0 <=? p) &&
  match free b !! Z.to_nat o with Some bm => negb (bbit bm p) | None => false end.

(** The bitmaps have the lengths of an allocator of [n] pages, and trees tall
    enough for [cap] pages. *)
Record bud_bits (cap n : Z) (b : BuddyAllocator.t) : Prop := {
  bo_order : 0 <= max_order b <= MAX_MAX_PAGE_ORDER;
  bo_free : vlen (free b) = max_order b + 1;
  bo_cap : 0 <= n <= cap /\ cap <= 2 ^ 30;
  bo_bitmaps : forall o bm, 0 <= o -> free b !! Z.to_nat o = Some bm ->
    bwf bm /\ blen bm = n / 2 ^ o /\ bheight bm = height_for 6 (cap / 2 ^ o) }.

(** The invariant: the bitmaps have their shape, and the marked blocks are the
    maximal free ones, each page marked once. *)
Definition bud_ok (cap n : Z) (b : BuddyAllocator.t) : Prop :=
  bud_bits cap n b /\ view_ok (max_order b) n (fa b).

(** [b'] has the shape of [b]. *)
Definition same_shape (b b' : BuddyAllocator.t) : Prop :=
  BuddyAllocator.len b' = BuddyAllocator.len b /\ max_order b' = max_order b.

Lemma mark_eq_proper F G o p v : view_eq F G -> view_eq (mark F o p v) (mark G o p v).
Proof. intros H o' p'. unfold mark. by rewrite H. Qed.

Lemma order_lookup cap n b o :
  bud_bits cap n b -> 0 <= o <= max_order b -> exists bm,
    BuddyAllocator.get_order_free b o = Ret bm /\ free b !! Z.to_nat o = Some bm /\
    bwf bm /\ blen bm = n / 2 ^ o /\ bheight bm = height_for 6 (cap / 2 ^ o) /\
    (forall p, 0 <= p -> fa b o p = negb (bbit bm p)).
Proof.
  intros Hb Ho. destruct (lookup_lt_is_Some_2 (free b) (Z.to_nat o)) as [bm Hbm].
  { destruct Hb as [_ Hf _ _]. unfold vlen in Hf. lia. }
  exists bm. split; [apply vget_ok; [lia|done]|]. split; [done|].
  destruct (bo_bitmaps _ _ _ Hb o bm ltac:(lia) Hbm) as (? & ? & ?). repeat (split; [done|]).
  intros p Hp. unfold fa. rewrite Hbm.
  by rewrite (proj2 (Z.leb_le 0 o)), (proj2 (Z.leb_le 0 p)) by lia.
Qed.

(** Replacing one bitmap by another of the same size. *)
Lemma put_order_ok cap n b o bm bm' :
  bud_bits cap n b -> 0 <= o <= max_order b -> free b !! Z.to_nat o = Some bm ->
  bwf bm' -> blen bm' = blen bm -> bheight bm' = bheight bm ->
  exists b', BuddyAllocator.put_order_free b o bm' = Ret b' /\ bud_bits cap n b' /\ same_shape b b' /\
    forall o' p', fa b' o' p' = if o' =? o then (0 <=? p') && negb (bbit bm' p') else fa b o' p'.
Proof.
  intros Hb Ho Hbm Hwf Hl Hh. unfold BuddyAllocator.put_order_free.
  pose proof (lookup_lt_Some _ _ _ Hbm) as Hlt.
  rewrite vset_ok by (unfold vlen; lia). cbn [mbind outcome_bind].
  eexists. split; [done|]. split; [|split; [done|]].
  - destruct Hb as [H1 H2 H3 H4]. split; simpl; [done| |done|].
    + unfold vlen. by rewrite length_insert.
    + intros o' bm0 Ho' Hlk. destruct (decide (o' = o)) as [->|].
      * rewrite list_lookup_insert_eq in Hlk by done. injection Hlk as <-.
        destruct (H4 o bm ltac:(lia) Hbm) as (_ & ? & ?). split; [done|]. split; [by rewrite Hl|]. by rewrite Hh.
      * rewrite list_lookup_insert_ne in Hlk by lia. eauto.
  - intros o' p'. unfold fa. simpl. destruct (Z.eqb_spec o' o) as [->|].
    + rewrite list_lookup_insert_eq by done. by rewrite (proj2 (Z.leb_le 0 o)) by lia.
    + destruct (Z.leb_spec 0 o'); [|done]. by rewrite list_lookup_insert_ne by lia.
Qed.

Lemma clear_at_ok cap n b o p :
  bud_bits cap n b -> 0 <= o <= max_order b -> 0 <= p < n / 2 ^ o ->
  exists b', BuddyAllocator.clear_at b o p = Ret b' /\ bud_bits cap n b' /\ same_shape b b' /\
    view_eq (fa b') (mark (fa b) o p true).
Proof.
  intros Hb Ho Hp. destruct (order_lookup _ _ _ _ Hb Ho) as (bm & Hget & Hlk & Hwf & Hl & _ & Hfa).
  unfold BuddyAllocator.clear_at. rewrite Hget. cbn [mbind outcome_bind].
  destruct (bt_clear_spec bm p Hwf ltac:(lia)) as (bm' & -> & Hwf' & Hl' & Hh' & Hbit). cbn [mbind outcome_bind].
  destruct (put_order_ok _ _ _ _ _ bm' Hb Ho Hlk Hwf' Hl' Hh') as (b' & Hput & Hok & Hs & Hfa').
  exists b'. do 3 (split; [done|]). intros o' p'. rewrite Hfa'. unfold mark.
  destruct (Z.eqb_spec o' o) as [->|]; simpl; [|done].
  destruct (Z.leb_spec 0 p'); simpl.
  - rewrite Hbit, Hfa by done. by destruct (p' =? p).
  - rewrite (proj2 (Z.eqb_neq p' p)) by lia. unfold fa.
    by rewrite (proj2 (Z.leb_gt 0 p')), andb_false_r by lia.
Qed.

Lemma set_at_ok cap n b o p :
  bud_bits cap n b -> 0 <= o <= max_order b -> 0 <= p < n / 2 ^ o ->
  exists b', BuddyAllocator.set_at b o p = Ret b' /\ bud_bits cap n b' /\ same_shape b b' /\
    view_eq (fa b') (mark (fa b) o p false).
Proof.
  intros Hb Ho Hp. destruct (order_lookup _ _ _ _ Hb Ho) as (bm & Hget & Hlk & Hwf & Hl & _ & Hfa).
  unfold BuddyAllocator.set_at. rewrite Hget. cbn [mbind outcome_bind].
  destruct (bt_set_spec bm p Hwf ltac:(lia)) as (bm' & -> & Hwf' & Hl' & Hh' & Hbit). cbn [mbind outcome_bind].
  destruct (put_order_ok _ _ _ _ _ bm' Hb Ho Hlk Hwf' Hl' Hh') as (b' & Hput & Hok & Hs & Hfa').
  exists b'. do 3 (split; [done|]). intros o' p'. rewrite Hfa'. unfold mark.
  destruct (Z.eqb_spec o' o) as [->|]; simpl; [|done].
  destruct (Z.leb_spec 0 p'); simpl.
  - rewrite Hbit, Hfa by done. by destruct (p' =? p).
  - rewrite (proj2 (Z.eqb_neq p' p)) by lia. unfold fa.
    by rewrite (proj2 (Z.leb_gt 0 p')), andb_false_r by lia.
Qed.

(** [b'] is a well-formed allocator of the shape of [b] whose free pages are [P]. *)
Definition steps_to (cap n : Z) (b b' : BuddyAllocator.t) (P : Z -> Prop) : Prop :=
  bud_ok cap n b' /\ same_shape b b' /\ forall q, pfree (fa b') q <-> P q.

(** Freeing a block whose buddy stays marked as it is. *)
Lemma add_block_ok cap n b o p :
  bud_ok cap n b -> 0 <= o <= max_order b -> 0 <= p < n / 2 ^ o ->
  (forall q, q / 2 ^ o = p -> ~ pfree (fa b) q) ->
  (o < max_order b -> fa b o (buddy_page p) = false) ->
  exists b', BuddyAllocator.clear_at b o p = Ret b' /\
    steps_to cap n b b' (fun q => pfree (fa b) q \/ q / 2 ^ o = p).
Proof.
  intros [Hb Hv] Ho Hp Hnew Hbud.
  destruct (clear_at_ok _ _ _ _ _ Hb Ho Hp) as (b' & Hrun & Hb' & [Hl Hmo] & Heq).
  destruct (view_add _ _ _ _ _ Hv Ho Hp Hnew Hbud) as [Hv' Hq].
  exists b'. split; [done|]. split; [|split; [done|]].
  - split; [done|]. by rewrite Heq, Hmo.
  - intros q. by rewrite Heq, Hq.
Qed.

Lemma remove_block_ok cap n b o p :
  bud_ok cap n b -> fa b o p = true ->
  exists b', BuddyAllocator.set_at b o p = Ret b' /\
    steps_to cap n b b' (fun q => pfree (fa b) q /\ q / 2 ^ o <> p).
Proof.
  intros [Hb Hv] Hf. destruct (vo_range _ _ _ Hv _ _ Hf) as [Ho Hp].
  destruct (set_at_ok _ _ _ _ _ Hb Ho Hp) as (b' & Hrun & Hb' & [Hl Hmo] & Heq).
  destruct (view_remove _ _ _ _ _ Hv Hf) as [Hv' Hq].
  exists b'. split; [done|]. split; [|split; [done|]].
  - split; [done|]. by rewrite Heq, Hmo.
  - intros q. by rewrite Heq, Hq.
Qed.

(** ** Allocation *)

(** What [alloc_inner] chose: block [x] of order [o] is the first part of the
    lowest marked block of the lowest order that has one. *)
Definition first_fit (F : Z -> Z -> bool) (o x : Z) : Prop :=
  exists k P, 0 <= k /\ x = P * 2 ^ k /\ F (o + k) P = true /\
    (forall p, p < P -> F (o + k) p = false) /\
    (forall o' p, o <= o' < o + k -> F o' p = false).

Lemma fa_neg b o p : p < 0 -> fa b o p = false.
Proof. intros Hp. unfold fa. by rewrite (proj2 (Z.leb_gt 0 p)), andb_false_r by lia. Qed.

Lemma fa_high cap n b o p : bud_bits cap n b -> max_order b < o -> fa b o p = false.
Proof.
  intros Hb Ho. unfold fa. destruct (free b !! Z.to_nat o) eqn:E; [|by rewrite andb_false_r].
  apply lookup_lt_Some in E. destruct Hb as [? Hf _ _]. unfold vlen in Hf. lia.
Qed.

(** The block is marked, hence its pages are free. *)
Lemma fa_pfree b o k p q : 0 <= o -> 0 <= k -> fa b (o + k) (p / 2 ^ k) = true -> q / 2 ^ o = p -> pfree (fa b) q.
Proof. intros Ho Hk H Hq. exists (o + k). by rewrite div_pow2_add, Hq by lia. Qed.

Lemma half_range n o u : 0 <= o -> u < n / 2 ^ (o + 1) -> 2 * u + 1 < n / 2 ^ o.
Proof.
  intros Ho Hu. rewrite div_pow2_succ in Hu by lia. pose proof (Z.div_mod (n / 2 ^ o) 2).
  pose proof (Z.mod_pos_bound (n / 2 ^ o) 2). lia.
Qed.

(** The two halves of block [u] of order [o + 1]. *)
Lemma half_cases o u q :
  0 <= o -> q / 2 ^ (o + 1) = u <-> q / 2 ^ o = 2 * u \/ q / 2 ^ o = 2 * u + 1.
Proof.
  intros Ho. rewrite div_pow2_succ by lia. pose proof (Z.div_mod (q / 2 ^ o) 2).
  pose proof (Z.mod_pos_bound (q / 2 ^ o) 2). lia.
Qed.

Lemma pow2_range cap n b o p : bud_bits cap n b -> 0 <= o -> 0 <= p < n / 2 ^ o -> p <= 2 ^ 30.
Proof.
  intros [_ _ [Hn Hc] _] Ho Hp. assert (n / 2 ^ o <= n); [|lia].
  assert (0 < 2 ^ o) by (apply Z.pow_pos_nonneg; lia). apply Z.div_le_upper_bound; nia.
Qed.

(** Reading the mark of a block in range. *)
Lemma get_at_ok cap n b o p :
  bud_bits cap n b -> 0 <= o <= max_order b -> 0 <= p < n / 2 ^ o ->
  exists bm, BuddyAllocator.get_order_free b o = Ret bm /\ BtreeBitmap.len bm = Ret (n / 2 ^ o) /\
    BtreeBitmap.get bm p = Ret (negb (fa b o p)).
Proof.
  intros Hb Ho Hp. destruct (order_lookup _ _ _ _ Hb Ho) as (bm & Hget & _ & Hwf & Hl & _ & Hfa).
  exists bm. split; [done|]. rewrite bt_len_spec, bt_get_spec, Hl, Hfa, negb_involutive by (done || lia). done.
Qed.

(** No mark inside a block whose pages are not free. *)
Lemma fa_in_taken b o k u p :
  0 <= o -> 0 <= k -> (forall q, q / 2 ^ (o + k) = u -> ~ pfree (fa b) q) -> p / 2 ^ k = u -> fa b o p = false.
Proof.
  intros Ho Hk Hno Hp. destruct (fa b o p) eqn:E; [|done]. exfalso.
  apply (Hno (p * 2 ^ o)); [by rewrite div_pow2_add, block_first by lia|].
  exists o. by rewrite block_first by lia.
Qed.

(** Splitting block [u] of order [o + 1], just taken: its second half is freed. *)
Lemma split_page_ok cap n b o u (P : Z -> Prop) :
  bud_ok cap n b -> 0 <= o -> o + 1 <= max_order b -> 0 <= u < n / 2 ^ (o + 1) ->
  (forall q, pfree (fa b) q <-> P q /\ q / 2 ^ (o + 1) <> u) ->
  (forall q, q / 2 ^ (o + 1) = u -> P q) ->
  exists b', BuddyAllocator.split_page b o u = Ret (b', 2 * u) /\
    steps_to cap n b b' (fun q => P q /\ q / 2 ^ o <> 2 * u).
Proof.
  intros Hb Ho Hmo Hu Hfree Hin. pose proof (half_range n o u Ho ltac:(lia)) as Hh2.
  assert (2 * u + 1 <= 2 ^ 30) by (eapply pow2_range; [apply Hb|exact Ho|lia]).
  assert (Hnot : forall p, p / 2 = u -> fa b o p = false).
  { intros p Hp. apply (fa_in_taken b o 1 u); [lia|lia| |by rewrite Z.pow_1_r].
    intros q Hq Hf. by apply Hfree in Hf as [_ Hf]. }
  assert (Hf1 : fa b o (2 * u) = false) by (apply Hnot; rewrite Z.mul_comm; by apply Z.div_mul).
  assert (Hf2 : fa b o (2 * u + 1) = false)
    by (apply Hnot; by rewrite Z.mul_comm, Z.div_add_l, Z.add_0_r by lia).
  destruct (add_block_ok cap n b o (2 * u + 1) Hb) as (b' & Hrun & Hok & Hs & Hq).
  - lia.
  - lia.
  - intros q Hq Hf. apply Hfree in Hf as [_ Hf]. apply Hf, half_cases; [lia|by right].
  - intros _. by rewrite buddy_page_odd.
  - exists b'. split.
    + unfold BuddyAllocator.split_page. rewrite umul_ok, (Z.mul_comm u 2) by lia. cbn [mbind outcome_bind].
      rewrite uadd_ok by lia. cbn [mbind outcome_bind].
      destruct (get_at_ok cap n b o (2 * u)) as (bm & Hg & _ & Hg1); [apply Hb|lia|lia|].
      destruct (get_at_ok cap n b o (2 * u + 1)) as (bm' & Hg' & _ & Hg2); [apply Hb|lia|lia|].
      rewrite Hg in *. injection Hg' as <-. cbn [mbind outcome_bind].
      rewrite Hg1, Hf1. cbn [negb rassert mbind outcome_bind].
      rewrite Hg2, Hf2. cbn [negb rassert mbind outcome_bind]. by rewrite Hrun.
    + split; [done|]. split; [done|]. intros q. rewrite Hq, Hfree.
      pose proof (half_cases o u q Ho) as Hc. split.
      * intros [[HP Hne]|Hh]; [split; [done|]; intros ?; apply Hne, Hc; by left|].
        split; [apply Hin, Hc; by right|lia].
      * intros [HP Hne]. destruct (decide (q / 2 ^ o = 2 * u + 1)); [by right|left]. split; [done|].
        rewrite Hc. lia.
Qed.

(** Taking the lowest marked block of order [o], when there is one. *)
Lemma alloc_exact_ok cap n b o :
  bud_ok cap n b -> 0 <= o <= max_order b ->
  exists bm bm' r b', BuddyAllocator.get_order_free b o = Ret bm /\ BtreeBitmap.alloc bm = Ret (bm', r) /\
    BuddyAllocator.put_order_free b o bm' = Ret b' /\
    match r with
    | None => b' = b /\ forall p, fa b o p = false
    | Some x => fa b o x = true /\ (forall p, p < x -> fa b o p = false) /\
        steps_to cap n b b' (fun q => pfree (fa b) q /\ q / 2 ^ o <> x)
    end.
Proof.
  intros [Hbb Hv] Ho. destruct (order_lookup _ _ _ _ Hbb Ho) as (bm & Hget & Hlk & Hwf & Hl & _ & Hfa).
  destruct (bt_alloc_spec bm Hwf) as (bm' & r & Hal & Hwf' & Hl' & Hh' & Hr).
  destruct (put_order_ok _ _ _ _ _ bm' Hbb Ho Hlk Hwf' Hl' Hh') as (b' & Hput & Hok & [Hs Hmo] & Hfa').
  exists bm, bm', r, b'. do 3 (split; [done|]). destruct r as [x|].
  - destruct Hr as (Hx & Hbx & Hlow & Hbit).
    assert (HFx : fa b o x = true) by (rewrite Hfa, Hbx by lia; done). split; [done|].
    assert (Heq : view_eq (fa b') (mark (fa b) o x false)).
    { intros o' p'. rewrite Hfa'. unfold mark. destruct (Z.eqb_spec o' o) as [->|]; [|done]. simpl.
      destruct (Z.leb_spec 0 p'); simpl.
      - rewrite Hbit, Hfa by done. by destruct (p' =? x).
      - rewrite (fa_neg b) by lia. by destruct (p' =? x). }
    destruct (view_remove _ _ _ _ _ Hv HFx) as [Hv' Hq]. split.
    + intros p Hp. destruct (decide (p < 0)); [by apply fa_neg|]. by rewrite Hfa, Hlow by lia.
    + split; [|split; [done|]]; [split; [done|by rewrite Heq, Hmo]|]. intros q. by rewrite Heq, Hq.
  - destruct Hr as [-> Hnone]. split.
    + unfold BuddyAllocator.put_order_free in Hput. rewrite vset_ok in Hput
        by (pose proof (lookup_lt_Some _ _ _ Hlk); unfold vlen; lia).
      cbn [mbind outcome_bind] in Hput. apply Ret_inj in Hput as <-. rewrite list_insert_id by done. by destruct b.
    + intros p. destruct (decide (p < 0)); [by apply fa_neg|]. by rewrite Hfa, Hnone by lia.
Qed.

(** The block of order [o] at the first position of [first_fit] is in range. *)
Lemma first_fit_up F o x : 0 <= o ->
  (forall p, F o p = false) -> first_fit F (o + 1) x -> first_fit F o (2 * x).
Proof.
  intros Ho Hno (k & P & Hk & -> & HF & Hlow & Hords). exists (k + 1), P.
  replace (o + (k + 1)) with (o + 1 + k) by lia. split_and!; [lia| |done|done|].
  - rewrite Z.pow_add_r, Z.pow_1_r by lia. lia.
  - intros o' p Ho'. destruct (decide (o' = o)) as [->|]; [done|]. apply Hords. lia.
Qed.

Lemma alloc_rec_spec cap n fuel : forall b o,
  bud_ok cap n b -> 0 <= o -> max_order b < o + Z.of_nat fuel ->
  exists b' r, BuddyAllocator.alloc_rec fuel b o = Ret (b', r) /\
    match r with
    | None => b' = b /\ forall o' p, o <= o' -> fa b o' p = false
    | Some x => o <= max_order b /\ 0 <= x < n / 2 ^ o /\ first_fit (fa b) o x /\
        (forall q, q / 2 ^ o = x -> pfree (fa b) q) /\
        steps_to cap n b b' (fun q => pfree (fa b) q /\ q / 2 ^ o <> x)
    end.
Proof.
  induction fuel as [|f IH]; intros b o Hb Ho Hfuel; cbn [BuddyAllocator.alloc_rec].
  { rewrite (proj2 (Z.ltb_lt (max_order b) o)) by lia. exists b, None. split; [done|]. split; [done|].
    intros. eapply fa_high; [apply Hb|lia]. }
  destruct (Z.ltb_spec (max_order b) o).
  { exists b, None. split; [done|]. split; [done|]. intros. eapply fa_high; [apply Hb|lia]. }
  destruct (alloc_exact_ok cap n b o Hb (conj Ho H)) as (bm & bm' & r & b' & -> & Hal & Hput & Hr).
  cbn [mbind outcome_bind]. rewrite Hal. cbn [mbind outcome_bind snd fst]. rewrite Hput. cbn [mbind outcome_bind].
  destruct r as [x|].
  - destruct Hr as (HFx & Hlow & Hst). exists b', (Some x). split; [done|]. split; [done|].
    split; [by apply (vo_range _ _ _ (proj2 Hb)) in HFx as [_ ?]|]. split_and!; [| |done].
    + exists 0, x. rewrite Z.add_0_r, Z.mul_1_r. by split_and!; [| | | |lia].
    + intros q Hqx. exists o. by rewrite Hqx.
  - destruct Hr as [-> Hno].
    destruct (IH b (o + 1)) as (b1 & r & -> & Hr); [done|lia|lia|]. cbn [mbind outcome_bind snd fst].
    destruct r as [u|].
    2:{ exists b1, None. split; [done|]. destruct Hr as [-> Hhi]. split; [done|].
        intros o' p Ho'. destruct (decide (o' = o)) as [->|]; [done|]. apply Hhi. lia. }
    destruct Hr as (Hmo1 & Hu & Hff & Hin & Hb1 & [Hs1 Hm1] & Hq1).
    destruct (split_page_ok cap n b1 o u _ Hb1 Ho ltac:(lia) Hu Hq1 Hin) as (b2 & -> & Hb2 & [Hs2 Hm2] & Hq2).
    cbn [mbind outcome_bind fst snd]. exists b2, (Some (2 * u)). split; [done|].
    pose proof (half_range n o u Ho ltac:(lia)). split_and!; [done|lia|lia| | |].
    + by apply first_fit_up.
    + intros q Hq. apply Hin, half_cases; [lia|by left].
    + split; [done|]. split; [|done]. split; congruence.
Qed.

Lemma alloc_inner_spec cap n b o :
  bud_ok cap n b -> 0 <= o ->
  exists b' r, BuddyAllocator.alloc_inner b o = Ret (b', r) /\
    match r with
    | None => b' = b /\ forall o' p, o <= o' -> fa b o' p = false
    | Some x => o <= max_order b /\ 0 <= x < n / 2 ^ o /\ first_fit (fa b) o x /\
        (forall q, q / 2 ^ o = x -> pfree (fa b) q) /\
        steps_to cap n b b' (fun q => pfree (fa b) q /\ q / 2 ^ o <> x)
    end.
Proof.
  intros Hb Ho. apply alloc_rec_spec; [done|done|]. pose proof (bo_order _ _ _ (proj1 Hb)). lia.
Qed.

(** ** Freeing *)

(** A block and its buddy both in range have a parent in range. *)
Lemma parent_range n o p :
  0 <= o -> 0 <= p -> p < n / 2 ^ o -> buddy_page p < n / 2 ^ o -> 0 <= p / 2 < n / 2 ^ (o + 1).
Proof.
  intros Ho Hp0 Hp Hb. split; [apply Z.div_pos; lia|]. rewrite div_pow2_succ by lia.
  pose proof (Z.div_mod (n / 2 ^ o) 2). pose proof (Z.mod_pos_bound (n / 2 ^ o) 2).
  destruct (buddy_cases p) as [[? Hbp]|[? Hbp]]; lia.
Qed.

Lemma buddy_page_nonneg p : 0 <= p -> 0 <= buddy_page p.
Proof. intros Hp. pose proof (Z.div_pos p 2). destruct (buddy_cases p) as [[]|[]]; lia. Qed.

(** A block of the next order is a block and its buddy. *)
Lemma parent_cases o p q :
  0 <= o -> q / 2 ^ (o + 1) = p / 2 <-> q / 2 ^ o = p \/ q / 2 ^ o = buddy_page p.
Proof. intros Ho. rewrite half_cases by lia. destruct (buddy_cases p) as [[? ->]|[? ->]]; lia. Qed.

(** The condition of [free_inner]: whether the buddy is there and free. *)
Lemma buddy_test_ok cap n b o p :
  bud_bits cap n b -> 0 <= o <= max_order b -> 0 <= p < n / 2 ^ o ->
  exists bm g, BuddyAllocator.get_order_free b o = Ret bm /\ BtreeBitmap.len bm = Ret (n / 2 ^ o) /\
    (if n / 2 ^ o <=? buddy_page p then Ret true else BtreeBitmap.get bm (buddy_page p)) = Ret g /\
    (if g then n / 2 ^ o <= buddy_page p \/ fa b o (buddy_page p) = false
     else buddy_page p < n / 2 ^ o /\ fa b o (buddy_page p) = true).
Proof.
  intros Hb Ho Hp. destruct (get_at_ok _ _ _ _ _ Hb Ho Hp) as (bm & Hg & Hl & _). exists bm.
  pose proof (buddy_page_nonneg p ltac:(lia)). destruct (Z.leb_spec (n / 2 ^ o) (buddy_page p)).
  - exists true. do 3 (split; [done|]). by left.
  - exists (negb (fa b o (buddy_page p))). do 2 (split; [done|]).
    destruct (get_at_ok cap n b o (buddy_page p) Hb Ho ltac:(lia)) as (bm' & Hg' & _ & Hb').
    rewrite Hg in Hg'. injection Hg' as <-. split; [done|].
    destruct (fa b o (buddy_page p)); simpl; [done|by right].
Qed.

Lemma free_rec_spec cap n fuel : forall b p o,
  bud_ok cap n b -> 0 <= o <= max_order b -> max_order b <= o + Z.of_nat fuel -> 0 <= p < n / 2 ^ o ->
  (forall q, q / 2 ^ o = p -> ~ pfree (fa b) q) ->
  exists b', BuddyAllocator.free_rec fuel b p o = Ret b' /\
    steps_to cap n b b' (fun q => pfree (fa b) q \/ q / 2 ^ o = p).
Proof.
  induction fuel as [|f IH]; intros b p o Hb Ho Hfuel Hp Hnew; cbn [BuddyAllocator.free_rec].
  { rewrite (proj2 (Z.eqb_eq o (max_order b))) by lia. apply add_block_ok; try done. lia. }
  destruct (Z.eqb_spec o (max_order b)) as [->|Hne].
  { apply add_block_ok; try done. lia. }
  destruct (buddy_test_ok cap n b o p) as (bm & g & -> & Hl & Hg & Hc); [apply Hb|done|done|].
  cbn [mbind outcome_bind]. rewrite Hl. cbn [mbind outcome_bind]. rewrite Hg. cbn [mbind outcome_bind].
  destruct g.
  - apply add_block_ok; try done. intros _. destruct Hc as [Hc|Hc]; [|done].
    destruct (fa b o (buddy_page p)) eqn:E; [|done]. apply (vo_range _ _ _ (proj2 Hb)) in E. lia.
  - destruct Hc as [Hlt Hbud].
    destruct (remove_block_ok cap n b o (buddy_page p) Hb Hbud) as (b1 & -> & Hb1 & [Hs1 Hm1] & Hq1).
    cbn [mbind outcome_bind]. unfold next_higher_order.
    destruct (IH b1 (p / 2) (o + 1)) as (b2 & -> & Hb2 & [Hs2 Hm2] & Hq2);
      [done|lia|lia|apply parent_range; lia| |].
    + intros q Hq. rewrite Hq1. intros [Hf Hne']. apply parent_cases in Hq as [Hq|Hq]; [|done|lia].
      by eapply Hnew.
    + exists b2. split; [done|]. split; [done|]. split; [split; congruence|].
      intros q. rewrite Hq2, Hq1, parent_cases by lia.
      assert (q / 2 ^ o = buddy_page p -> pfree (fa b) q) by (intros Hq; exists o; by rewrite Hq).
      destruct (decide (q / 2 ^ o = buddy_page p)); naive_solver.
Qed.

Lemma free_inner_spec cap n b p o :
  bud_ok cap n b -> 0 <= o <= max_order b -> 0 <= p < n / 2 ^ o ->
  (forall q, q / 2 ^ o = p -> ~ pfree (fa b) q) ->
  exists b', BuddyAllocator.free_inner b p o = Ret b' /\
    steps_to cap n b b' (fun q => pfree (fa b) q \/ q / 2 ^ o = p).
Proof. intros. apply free_rec_spec; try done. lia. Qed.

(** ** Recording an allocation *)

Lemma record_rec_spec cap n fuel : forall b p o k,
  bud_ok cap n b -> 0 <= o <= max_order b -> max_order b < o + Z.of_nat fuel -> 0 <= p < n / 2 ^ o ->
  0 <= k -> fa b (o + k) (p / 2 ^ k) = true ->
  exists b', BuddyAllocator.record_rec fuel b p o = Ret b' /\
    steps_to cap n b b' (fun q => pfree (fa b) q /\ q / 2 ^ o <> p).
Proof.
  induction fuel as [|f IH]; intros b p o k Hb Ho Hfuel Hp Hk Hc; cbn [BuddyAllocator.record_rec]; [lia|].
  destruct (get_at_ok cap n b o p) as (bm & -> & _ & Hg); [apply Hb|done|done|].
  cbn [mbind outcome_bind]. rewrite Hg. cbn [mbind outcome_bind].
  destruct (fa b o p) eqn:HF; cbn [negb]; [by apply remove_block_ok|].
  destruct (decide (k = 0)) as [->|]; [rewrite Z.add_0_r, Z.pow_0_r, Z.div_1_r in Hc; congruence|].
  assert (Hpar : p / 2 ^ k = p / 2 / 2 ^ (k - 1)).
  { rewrite Z.div_div by (try apply Z.pow_nonzero; lia). rewrite <-(Z.pow_succ_r 2) by lia. do 2 f_equal. lia. }
  rewrite Hpar in Hc. replace (o + k) with (o + 1 + (k - 1)) in Hc by lia.
  pose proof (vo_range _ _ _ (proj2 Hb) _ _ Hc) as [Hok Hrk].
  assert (Hu : 0 <= p / 2 < n / 2 ^ (o + 1)).
  { split; [apply Z.div_pos; lia|]. rewrite div_pow2_add in Hrk by lia.
    destruct (Z.lt_ge_cases (p / 2) (n / 2 ^ (o + 1))) as [|Hge]; [done|].
    apply (Z.div_le_mono _ _ (2 ^ (k - 1))) in Hge; [lia|apply Z.pow_pos_nonneg; lia]. }
  unfold next_higher_order.
  destruct (IH b (p / 2) (o + 1) (k - 1)) as (b1 & -> & Hb1 & [Hs1 Hm1] & Hq1); [done|lia|lia|done|lia|done|].
  cbn [mbind outcome_bind]. pose proof (half_range n o (p / 2) ltac:(lia) ltac:(lia)) as Hr.
  assert (2 * (p / 2) + 1 <= 2 ^ 30) by (eapply pow2_range; [apply Hb|apply Ho|lia]).
  rewrite umul_ok by lia. cbn [mbind outcome_bind]. rewrite uadd_ok by lia. cbn [mbind outcome_bind].
  assert (Hadd : exists b', BuddyAllocator.clear_at b1 o (buddy_page p) = Ret b' /\
      steps_to cap n b1 b' (fun q => pfree (fa b1) q \/ q / 2 ^ o = buddy_page p)).
  { assert (Htk : forall q, q / 2 ^ (o + 1) = p / 2 -> ~ pfree (fa b1) q)
      by (intros q Hq Hf; by apply Hq1 in Hf as [_ Hf]).
    apply add_block_ok; [done|lia|destruct (buddy_cases p) as [[]|[]]; lia| |].
    - intros q Hq. apply Htk, parent_cases; [lia|by right].
    - intros _. apply (fa_in_taken b1 o 1 (p / 2)); [lia|lia|done|]. unfold buddy_page.
      by rewrite Z.lxor_assoc, Z.lxor_nilpotent, Z.lxor_0_r, Z.pow_1_r. }
  destruct Hadd as (b2 & Hrun & Hb2 & [Hs2 Hm2] & Hq2). exists b2.
  split.
  - replace (p / 2 * 2) with (2 * (p / 2)) by lia.
    destruct (buddy_cases p) as [[E Eb]|[E Eb]]; rewrite Eb in Hrun.
    + rewrite (proj2 (Z.eqb_eq (2 * (p / 2)) p)) by lia. done.
    + rewrite (proj2 (Z.eqb_neq (2 * (p / 2)) p)), (proj2 (Z.eqb_eq (2 * (p / 2) + 1) p)) by lia. done.
  - split; [done|]. split; [split; congruence|]. intros q. rewrite Hq2, Hq1, parent_cases by lia.
    assert (Hin : q / 2 ^ o = buddy_page p -> pfree (fa b) q).
    { intros Hq. apply (fa_pfree b (o + 1) (k - 1) (p / 2)); [lia|lia|done|]. apply parent_cases; [lia|by right]. }
    assert (buddy_page p <> p) by (destruct (buddy_cases p) as [[]|[]]; lia).
    destruct (decide (q / 2 ^ o = buddy_page p)); naive_solver.
Qed.

(** The block is wholly free: recording its allocation takes its pages. *)
Lemma record_alloc_inner_spec cap n b p o :
  bud_ok cap n b -> 0 <= o <= max_order b -> 0 <= p < n / 2 ^ o ->
  (forall q, q / 2 ^ o = p -> pfree (fa b) q) ->
  exists b', BuddyAllocator.record_alloc_inner b p o = Ret b' /\
    steps_to cap n b b' (fun q => pfree (fa b) q /\ q / 2 ^ o <> p).
Proof.
  intros Hb Ho Hp Hall. destruct (view_cover _ _ _ _ _ (proj2 Hb) Ho Hall) as (k & Hk & Hc).
  eapply record_rec_spec; try done. pose proof (bo_order _ _ _ (proj1 Hb)). lia.
Qed.

(** ** Covering a range of pages by blocks

    [new] and [resize] walk a range in blocks, at the highest order that is
    aligned and fits. *)

Lemma trailing_zeros_divide n x : (2 ^ trailing_zeros n x | x).
Proof.
  revert x. induction n as [|n IH]; intros x; cbn [trailing_zeros]; [apply Z.divide_1_l|].
  destruct (Z.testbit x 0) eqn:E; [apply Z.divide_1_l|].
  rewrite Z.bit0_odd, <-Z.negb_even in E. apply negb_false_iff, Z.even_spec in E as [z ->].
  replace (Z.shiftr (2 * z) 1) with z by (rewrite Z.shiftr_div_pow2, Z.pow_1_r, Z.mul_comm, Z.div_mul by lia; done).
  destruct (IH z) as [y Hy]. exists y. destruct (trailing_zeros_spec n z) as [[Ht _] _].
  rewrite Z.pow_add_r, Z.pow_1_r by lia. lia.
Qed.

Lemma trailing_zeros_lt n x : 0 < x < 2 ^ Z.of_nat n -> 0 <= trailing_zeros n x < Z.of_nat n.
Proof.
  intros Hx. destruct (trailing_zeros_spec n x) as ([H0 Hle] & Hz & _). split; [done|].
  apply Z.le_neq. split; [done|]. intros E. assert (x = 0); [|lia].
  apply Z.bits_inj'. intros i Hi. rewrite Z.bits_0.
  destruct (decide (i < Z.of_nat n)); [apply Hz; lia|]. apply (testbit_high (Z.of_nat n)); lia.
Qed.

Lemma divide_pow2_le a b x : 0 <= a <= b -> (2 ^ b | x) -> (2 ^ a | x).
Proof.
  intros Hab H. eapply Z.divide_trans; [|exact H]. exists (2 ^ (b - a)).
  rewrite <-Z.pow_add_r by lia. f_equal. lia.
Qed.

Lemma pow2_u32_ok o : 0 <= o < 32 -> pow2_u32 o = Ret (2 ^ o).
Proof.
  intros Ho. apply utry_ok. split; [apply Z.pow_nonneg; lia|]. apply Z.pow_lt_mono_r; lia.
Qed.

Lemma orders_snoc k : 0 <= k -> reverse (BuddyAllocator.orders 0 k) = k :: reverse (BuddyAllocator.orders 0 (k - 1)).
Proof.
  intros Hk. unfold BuddyAllocator.orders. replace (k - 0 + 1) with ((k - 1 - 0 + 1) + 1) by lia.
  rewrite seqZ_app, reverse_app by lia. rewrite seqZ_cons by lia. rewrite seqZ_nil by lia.
  cbn [reverse]. simpl. f_equal. lia.
Qed.

Section cover.
  Context (op : BuddyAllocator.t -> Z -> Z -> outcome BuddyAllocator.t).
  Context (Inv : Z -> BuddyAllocator.t -> Prop) (mo limit : Z).
  Hypothesis Hmo : 0 <= mo <= 20.
  Hypothesis Hlimit : limit <= 2 ^ 30.
  Hypothesis Inv_order : forall lo b, Inv lo b -> max_order b = mo.
  Hypothesis op_ok : forall lo b o, Inv lo b -> 0 <= o <= mo -> 0 <= lo -> (2 ^ o | lo) -> lo + 2 ^ o <= limit ->
    (o = mo \/ limit < lo + 2 ^ (o + 1)) ->
    exists b', op b (lo / 2 ^ o) o = Ret b' /\ Inv (lo + 2 ^ o) b'.

(** Orders from [k] down can cover the rest of the range from [lo]. *)
Definition aligned (k lo : Z) : Prop :=
  (2 ^ k | lo) \/ exists t, 0 <= t < k /\ (2 ^ t | lo) /\ limit < lo + 2 ^ (t + 1).

Lemma pow2_bound o : 0 <= o <= mo -> 0 < 2 ^ o <= 2 ^ 20.
Proof. intros Ho. split; [apply Z.pow_pos_nonneg; lia|]. apply Z.pow_le_mono_r; lia. Qed.

Lemma block_loop_spec fuel : forall o lo b,
  Inv lo b -> 0 <= o <= mo -> 0 <= lo <= limit -> (2 ^ o | lo) -> limit - lo <= Z.of_nat fuel ->
  (o = mo \/ limit < lo + 2 ^ (o + 1)) ->
  exists lo' b', BuddyAllocator.block_loop op fuel o (2 ^ o) limit (lo, b) = Ret (lo', b') /\
    Inv lo' b' /\ lo <= lo' <= limit /\ (2 ^ o | lo') /\ limit < lo' + 2 ^ o.
Proof.
  induction fuel as [|f IH]; intros o lo b HI Ho Hlo Hd Hf Hg; pose proof (pow2_bound o Ho);
    cbn [BuddyAllocator.block_loop]; rewrite uadd_ok by lia; cbn [mbind outcome_bind].
  { rewrite (proj2 (Z.leb_gt _ _)) by lia. exists lo, b. split_and!; try done; lia. }
  destruct (Z.leb_spec (lo + 2 ^ o) limit).
  - destruct (op_ok lo b o HI Ho) as (b' & -> & HI'); [lia|done|lia|done|]. cbn [mbind outcome_bind].
    destruct (IH o (lo + 2 ^ o) b' HI' Ho) as (lo' & b'' & -> & ? & ? & ? & ?);
      [lia| |lia|lia|exists lo', b''; split_and!; try done; lia].
    apply Z.divide_add_r; [done|apply Z.divide_refl].
  - exists lo, b. split_and!; try done; lia.
Qed.

(** The orders below [m]. *)
Lemma block_orders_from m : forall lo b,
  Z.of_nat m - 1 <= mo -> Inv lo b -> 0 <= lo <= limit -> (0 < Z.of_nat m -> aligned (Z.of_nat m - 1) lo) ->
  (Z.of_nat m - 1 = mo \/ limit < lo + 2 ^ Z.of_nat m) ->
  exists b', for_each (fun order s' => order_size ← pow2_u32 order;
      BuddyAllocator.block_loop op (Z.to_nat limit) order order_size limit s')
    (reverse (BuddyAllocator.orders 0 (Z.of_nat m - 1))) (lo, b) = Ret (limit, b') /\ Inv limit b'.
Proof.
  induction m as [|m IH]; intros lo b Hm HI Hlo Hal Hg.
  { exists b. assert (lo = limit) as -> by (change (2 ^ Z.of_nat 0) with 1 in Hg; lia). done. }
  replace (Z.of_nat (S m) - 1) with (Z.of_nat m) in * by lia. specialize (Hal ltac:(lia)).
  rewrite orders_snoc by lia. cbn [for_each]. pose proof (pow2_bound (Z.of_nat m) ltac:(lia)) as Hp.
  rewrite pow2_u32_ok by lia. cbn [mbind outcome_bind].
  destruct Hal as [Hd|(t & Ht & Hd & Hlt)].
  - destruct (block_loop_spec (Z.to_nat limit) (Z.of_nat m) lo b) as (lo' & b' & -> & HI' & Hlo' & Hd' & Hlt);
      [done|lia|done|done|lia|by replace (Z.of_nat m + 1) with (Z.of_nat (S m)) by lia|].
    cbn [mbind outcome_bind]. apply IH; [lia|done|lia| |by right].
    intros Hm0. left. by eapply divide_pow2_le; [|exact Hd']; lia.
  - assert (2 ^ (t + 1) <= 2 ^ Z.of_nat m) by (apply Z.pow_le_mono_r; lia).
    replace (BuddyAllocator.block_loop op (Z.to_nat limit) (Z.of_nat m) (2 ^ Z.of_nat m) limit (lo, b)) with (Ret (lo, b)).
    2:{ destruct (Z.to_nat limit); cbn [BuddyAllocator.block_loop]; rewrite uadd_ok by lia; cbn [mbind outcome_bind];
        by rewrite (proj2 (Z.leb_gt _ _)) by lia. }
    cbn [mbind outcome_bind]. apply IH; [lia|done|done| |right; lia].
    intros Hm0. destruct (decide (t = Z.of_nat m - 1)) as [->|]; [by left|right]. exists t. split; [lia|done].
Qed.

Lemma block_orders_spec lo b :
  Inv lo b -> 0 <= lo <= limit -> aligned mo lo ->
  exists b', BuddyAllocator.block_orders op limit (lo, b) = Ret (limit, b') /\ Inv limit b'.
Proof.
  intros HI Hlo Hal. unfold BuddyAllocator.block_orders. cbn [snd]. rewrite (Inv_order _ _ HI).
  pose proof (block_orders_from (Z.to_nat (mo + 1)) lo b) as H.
  replace (Z.of_nat (Z.to_nat (mo + 1)) - 1) with mo in H by lia. apply H; try done. by left.
Qed.

End cover.

(** The alignment loops of [resize]. *)
Section align.
  Context (Inv : Z -> BuddyAllocator.t -> Prop) (mo limit : Z).
  Hypothesis Hmo : 0 <= mo <= 20.

Lemma aligned_limit : 0 <= limit -> aligned limit mo limit.
Proof.
  intros H0. destruct (decide (mo = 0)) as [->|]; [left; apply Z.divide_1_l|right].
  exists 0. split; [lia|]. split; [apply Z.divide_1_l|]. change (2 ^ (0 + 1)) with 2. lia.
Qed.

(** Where an alignment loop stops. *)
Definition align_result (lo : Z) (r : outcome (Z * BuddyAllocator.t)) : Prop :=
  exists lo' b', r = Ret (lo', b') /\ Inv lo' b' /\ lo <= lo' <= limit /\ aligned limit mo lo'.

Lemma align_stop lo b :
  Inv lo b -> 0 <= lo <= limit ->
  (lo = limit \/ mo <= trailing_zeros 32 lo \/ limit < lo + 2 ^ trailing_zeros 32 lo) ->
  align_result lo (Ret (lo, b)).
Proof.
  intros HI Hlo Hs. exists lo, b. do 2 (split; [done|]). split; [lia|].
  pose proof (trailing_zeros_divide 32 lo) as Hd. set (t := trailing_zeros 32 lo) in *.
  assert (0 <= t) by apply trailing_zeros_spec.
  destruct (decide (mo <= t)); [left; by eapply divide_pow2_le; [|exact Hd]; lia|].
  destruct Hs as [->|[?|Hlt]]; [apply aligned_limit; lia|lia|].
  right. exists t. split; [lia|]. split; [done|]. rewrite Z.pow_add_r, Z.pow_1_r by lia.
  assert (0 < 2 ^ t) by (apply Z.pow_pos_nonneg; lia). lia.
Qed.

Lemma align_result_le lo lo' r : lo <= lo' -> align_result lo' r -> align_result lo r.
Proof. intros Hle (l & b & ? & ? & ? & ?). exists l, b. split_and!; try done; lia. Qed.

End align.

Lemma align_step op Inv mo limit lo b :
  (forall lo b o, Inv lo b -> 0 <= o <= mo -> 0 <= lo -> (2 ^ o | lo) -> lo + 2 ^ o <= limit ->
    exists b', op b (lo / 2 ^ o) o = Ret b' /\ Inv (lo + 2 ^ o) b') ->
  Inv lo b -> 0 <= lo -> trailing_zeros 32 lo < mo -> lo + 2 ^ trailing_zeros 32 lo <= limit ->
  exists b' : BuddyAllocator.t, op b (lo / 2 ^ trailing_zeros 32 lo) (trailing_zeros 32 lo) = Ret b' /\
    Inv (lo + 2 ^ trailing_zeros 32 lo) b' /\ 1 <= 2 ^ trailing_zeros 32 lo.
Proof.
  intros op_ok HI Hlo Ht Hle. pose proof (trailing_zeros_divide 32 lo) as Hd. set (t := trailing_zeros 32 lo) in *.
  assert (0 <= t) by apply trailing_zeros_spec.
  destruct (op_ok lo b t HI) as (b' & Hr & HI'); [lia|done|done|done|].
  exists b'. do 2 (split; [done|]). assert (0 < 2 ^ t) by (apply Z.pow_pos_nonneg; lia). lia.
Qed.

Lemma tz_facts lo : 0 < lo <= 2 ^ 30 ->
  0 <= trailing_zeros 32 lo < 32 /\ 0 < 2 ^ trailing_zeros 32 lo <= 2 ^ 31 /\
  lo mod 2 ^ trailing_zeros 32 lo = 0.
Proof.
  intros Hlo. pose proof (trailing_zeros_divide 32 lo) as Hd.
  pose proof (trailing_zeros_lt 32 lo ltac:(lia)) as Ht. split; [lia|].
  assert (0 < 2 ^ trailing_zeros 32 lo) by (apply Z.pow_pos_nonneg; lia).
  split; [|by apply Z.mod_divide; [lia|]]. split; [done|]. apply Z.pow_le_mono_r; lia.
Qed.

Lemma grow_align_spec Inv mo limit fuel :
  0 <= mo <= 20 -> limit <= 2 ^ 30 -> (forall lo b, Inv lo b -> max_order b = mo) ->
  (forall lo b o, Inv lo b -> 0 <= o <= mo -> 0 <= lo -> (2 ^ o | lo) -> lo + 2 ^ o <= limit ->
    exists b', BuddyAllocator.free_inner b (lo / 2 ^ o) o = Ret b' /\ Inv (lo + 2 ^ o) b') ->
  forall lo b, Inv lo b -> 0 < lo <= limit -> limit - lo <= Z.of_nat fuel ->
  align_result Inv mo limit lo (BuddyAllocator.grow_align fuel limit (lo, b)).
Proof.
  intros Hmo Hlim Hord Hop. induction fuel as [|f IH]; intros lo b HI Hlo Hf;
    cbn [BuddyAllocator.grow_align].
  { rewrite (proj2 (Z.ltb_ge _ _)) by lia. apply align_stop; try done; lia. }
  destruct (Z.ltb_spec lo limit); [|apply align_stop; try done; lia].
  destruct (tz_facts lo ltac:(lia)) as (Ht & Hp & Hm). rewrite pow2_u32_ok by lia.
  cbn [mbind outcome_bind]. rewrite Hm. cbn [Z.eqb rassert mbind outcome_bind].
  rewrite (Hord _ _ HI). destruct (Z.leb_spec mo (trailing_zeros 32 lo)); [apply align_stop; try done; lia|].
  rewrite uadd_ok by lia. cbn [mbind outcome_bind].
  destruct (Z.ltb_spec limit (lo + 2 ^ trailing_zeros 32 lo)); [apply align_stop; try done; lia|].
  destruct (align_step _ Inv mo limit lo b Hop) as (b' & -> & HI' & Hone); [done|lia|lia|lia|].
  cbn [mbind outcome_bind]. eapply align_result_le; [|apply IH; [done|lia|lia]]. lia.
Qed.

Lemma shrink_align_spec Inv mo limit fuel :
  0 <= mo <= 20 -> limit <= 2 ^ 30 -> (forall lo b, Inv lo b -> max_order b = mo) ->
  (forall lo b o, Inv lo b -> 0 <= o <= mo -> 0 <= lo -> (2 ^ o | lo) -> lo + 2 ^ o <= limit ->
    exists b', BuddyAllocator.record_alloc_inner b (lo / 2 ^ o) o = Ret b' /\ Inv (lo + 2 ^ o) b') ->
  forall lo b, Inv lo b -> 0 <= lo <= limit -> limit - lo <= Z.of_nat fuel ->
  align_result Inv mo limit lo (BuddyAllocator.shrink_align fuel limit (lo, b)).
Proof.
  intros Hmo Hlim Hord Hop. induction fuel as [|f IH]; intros lo b HI Hlo Hf;
    cbn [BuddyAllocator.shrink_align].
  { rewrite (proj2 (Z.ltb_ge _ _)) by lia. apply align_stop; try done; lia. }
  destruct (Z.ltb_spec lo limit); [|apply align_stop; try done; lia].
  rewrite (Hord _ _ HI). destruct (Z.leb_spec mo (trailing_zeros 32 lo)); [apply align_stop; try done; lia|].
  assert (lo <> 0) by (intros ->; vm_compute (trailing_zeros 32 0) in *; lia).
  destruct (tz_facts lo ltac:(lia)) as (Ht & Hp & Hm). rewrite pow2_u32_ok by lia.
  cbn [mbind outcome_bind]. rewrite Hm. cbn [Z.eqb rassert mbind outcome_bind].
  rewrite uadd_ok by lia. cbn [mbind outcome_bind].
  destruct (Z.ltb_spec limit (lo + 2 ^ trailing_zeros 32 lo)); [apply align_stop; try done; lia|].
  destruct (align_step _ Inv mo limit lo b Hop) as (b' & -> & HI' & Hone); [done|lia|lia|lia|].
  cbn [mbind outcome_bind]. eapply align_result_le; [|apply IH; [done|lia|lia]]. lia.
Qed.

(** ** [new] *)

Lemma block_at o lo q : 0 <= o -> (2 ^ o | lo) -> q / 2 ^ o = lo / 2 ^ o <-> lo <= q < lo + 2 ^ o.
Proof.
  intros Ho [z ->]. rewrite block_first by lia. rewrite block_pages by lia. lia.
Qed.

Lemma block_at_range n o lo : 0 <= o -> 0 <= lo -> (2 ^ o | lo) -> lo + 2 ^ o <= n -> 0 <= lo / 2 ^ o < n / 2 ^ o.
Proof.
  intros Ho Hlo [z ->] Hn. rewrite block_first by lia.
  assert (0 < 2 ^ o) by (apply Z.pow_pos_nonneg; lia). split; [nia|].
  apply Z.lt_le_trans with (z + 1); [lia|]. apply Z.div_le_lower_bound; lia.
Qed.

Lemma new_bitmaps_spec k : forall p c, 0 <= p <= c -> c <= 2 ^ 30 ->
  exists f, BuddyAllocator.new_bitmaps k p c = Ret f /\ length f = k /\
    forall i bm, f !! i = Some bm ->
      bwf bm /\ blen bm = p / 2 ^ Z.of_nat i /\ bheight bm = height_for 6 (c / 2 ^ Z.of_nat i) /\
      forall j, 0 <= j -> bbit bm j = true.
Proof.
  induction k as [|k IH]; intros p c Hp Hc; [by exists []|]. cbn [BuddyAllocator.new_bitmaps].
  destruct (bt_new_padded_spec p c) as (bm & -> & Hbm); [lia|lia|]. cbn [mbind outcome_bind].
  unfold next_higher_order. destruct (IH (p / 2) (c / 2)) as (f & -> & Hlen & Hf).
  - split; [apply Z.div_pos; lia|apply Z.div_le_mono; lia].
  - etransitivity; [|exact Hc]. apply Z.div_le_upper_bound; lia.
  - exists (bm :: f). split; [done|]. split; [simpl; lia|]. intros [|i] bm' Hi; simpl in Hi.
    + injection Hi as <-. change (2 ^ Z.of_nat 0) with 1. by rewrite !Z.div_1_r.
    + destruct (Hf i bm' Hi) as (? & Hl & Hh & ?). rewrite Nat2Z.inj_succ, Z.pow_succ_r by lia.
      by rewrite <-!Z.div_div by (try apply Z.pow_nonzero; lia).
Qed.

Lemma usable_order_ok c :
  0 < c < 2 ^ 32 -> calculate_usable_order c = Ret (Z.min 20 (Z.log2 c)) /\ 0 <= Z.min 20 (Z.log2 c) <= 20.
Proof.
  intros Hc. unfold calculate_usable_order, leading_zeros. rewrite (proj2 (Z.eqb_neq c 0)) by lia.
  assert (0 <= Z.log2 c < 32) by (split; [apply Z.log2_nonneg|apply Z.log2_lt_pow2; lia]).
  rewrite usub_ok by lia. cbn [mbind outcome_bind]. rewrite usub_ok by lia. cbn [mbind outcome_bind].
  split; [|lia]. f_equal. change MAX_MAX_PAGE_ORDER with 20. lia.
Qed.

(** Every aligned block that starts in the marked part and ends within the
    range is marked as a whole. *)
Definition greedy (mo limit lo : Z) : Prop :=
  forall k u, 0 <= k <= mo -> u * 2 ^ k < lo -> (u + 1) * 2 ^ k <= limit -> (u + 1) * 2 ^ k <= lo.

Lemma greedy_step mo limit lo o :
  0 <= o <= mo -> (2 ^ o | lo) -> (o = mo \/ limit < lo + 2 ^ (o + 1)) ->
  greedy mo limit lo -> greedy mo limit (lo + 2 ^ o).
Proof.
  intros Ho [z ->] Hg HG k u Hk Hu Hle. assert (0 < 2 ^ o) by (apply Z.pow_pos_nonneg; lia).
  destruct (decide (k <= o)) as [Hko|].
  - assert (2 ^ o = 2 ^ (o - k) * 2 ^ k) as E by (rewrite <-Z.pow_add_r by lia; f_equal; lia).
    assert (0 < 2 ^ k) by (apply Z.pow_pos_nonneg; lia).
    rewrite E in Hu |- *. assert (u < z * 2 ^ (o - k) + 2 ^ (o - k)) by nia. nia.
  - destruct (Z.lt_ge_cases (u * 2 ^ k) (z * 2 ^ o)) as [Hlt|Hge]; [specialize (HG k u Hk Hlt Hle); lia|].
    assert (2 ^ (o + 1) <= 2 ^ k) by (apply Z.pow_le_mono_r; lia). nia.
Qed.

Lemma greedy_even mo limit lo o :
  0 <= o < mo -> 0 <= lo -> (2 ^ o | lo) -> lo + 2 ^ o <= limit -> greedy mo limit lo -> exists z, lo / 2 ^ o = 2 * z.
Proof.
  intros Ho Hlo [z ->] Hle HG. rewrite block_first by lia. assert (0 < 2 ^ o) by (apply Z.pow_pos_nonneg; lia).
  destruct (Z.Even_or_Odd z) as [[y ->]|[y ->]]; [by exists y|]. exfalso.
  specialize (HG (o + 1) y ltac:(lia)). rewrite Z.pow_add_r, Z.pow_1_r in HG by lia. nia.
Qed.

(** The state of [new] once the pages below [lo] are marked. *)
Definition new_inv (cap n mo lo : Z) (b : BuddyAllocator.t) : Prop :=
  bud_ok cap n b /\ max_order b = mo /\ BuddyAllocator.len b = n /\
  (forall q, pfree (fa b) q <-> 0 <= q < lo) /\ greedy mo n lo.

Lemma new_inv_step cap n mo lo b o :
  new_inv cap n mo lo b -> 0 <= o <= mo -> 0 <= lo -> (2 ^ o | lo) -> lo + 2 ^ o <= n ->
  (o = mo \/ n < lo + 2 ^ (o + 1)) ->
  exists b', BuddyAllocator.clear_at b o (lo / 2 ^ o) = Ret b' /\ new_inv cap n mo (lo + 2 ^ o) b'.
Proof.
  intros (Hb & Hm & Hl & Hq & HG) Ho Hlo Hd Hle Hg. assert (0 < 2 ^ o) by (apply Z.pow_pos_nonneg; lia).
  destruct (add_block_ok cap n b o (lo / 2 ^ o) Hb) as (b' & Hr & Hb' & [Hs Hm'] & Hq').
  - lia.
  - apply block_at_range; try done; lia.
  - intros q Hin. rewrite Hq. apply block_at in Hin; [lia|lia|done].
  - intros Hlt. rewrite Hm in Hlt. destruct (greedy_even mo n lo o) as [z Hz]; [lia|done|done|done|done|].
    destruct (fa b o (buddy_page (lo / 2 ^ o))) eqn:E; [|done]. exfalso. rewrite Hz, buddy_page_even in E.
    assert (pfree (fa b) ((2 * z + 1) * 2 ^ o)) as Hpf by (exists o; by rewrite block_first by lia).
    apply Hq in Hpf. destruct Hd as [y ->]. rewrite block_first in Hz by lia. nia.
  - exists b'. split; [done|]. split_and!; [done|congruence|congruence| |by apply greedy_step].
    intros q. rewrite Hq', Hq, block_at by (done || lia). lia.
Qed.

Lemma new_spec n cap :
  0 <= n <= cap -> 0 < cap <= 2 ^ 30 ->
  exists b, BuddyAllocator.new n cap = Ret b /\ bud_ok cap n b /\ BuddyAllocator.len b = n /\
    max_order b = Z.min 20 (Z.log2 cap) /\ forall q, pfree (fa b) q <-> 0 <= q < n.
Proof.
  intros Hn Hcap. unfold BuddyAllocator.new. destruct (usable_order_ok cap ltac:(lia)) as [-> Hmo].
  set (mo := Z.min 20 (Z.log2 cap)) in *. cbn [mbind outcome_bind].
  destruct (new_bitmaps_spec (Z.to_nat (mo + 1)) n cap) as (f & -> & Hlen & Hf); [lia|lia|].
  cbn [mbind outcome_bind]. set (b0 := BuddyAllocator.mk f n mo).
  assert (Hno : forall o p, fa b0 o p = false).
  { intros o p. unfold fa, b0; simpl. destruct (Z.leb_spec 0 o), (Z.leb_spec 0 p); simpl; try done.
    destruct (f !! Z.to_nat o) as [bm|] eqn:E; [|done]. destruct (Hf _ _ E) as (_ & _ & _ & ->); done. }
  assert (H0 : new_inv cap n mo 0 b0).
  { split_and!; [split|done|done| |].
    - split; simpl; [done|unfold vlen; lia|lia|]. intros o bm Ho E. destruct (Hf _ _ E) as (? & Hl & Hh & _).
      rewrite Z2Nat.id in Hl, Hh by lia. done.
    - split; intros *; rewrite ?Hno; done.
    - intros q. split; [|lia]. intros [o Hq]. by rewrite Hno in Hq.
    - intros k u Hk Hu. assert (0 < 2 ^ k) by (apply Z.pow_pos_nonneg; lia). assert (u < 0) by nia. nia. }
  destruct (block_orders_spec (fun b page order => BuddyAllocator.clear_at b order page) (new_inv cap n mo) mo n)
    with (lo := 0) (b := b0) as (b & -> & Hb & Hm & Hl & Hq & _);
    [lia|lia|by intros ?? (_ & ? & _)|intros; by apply new_inv_step|done|lia|left; apply Z.divide_0_r|].
  cbn [mbind outcome_bind fst snd]. rewrite Z.eqb_refl. cbn [rassert mbind outcome_bind].
  exists b. done.
Qed.

(** ** The consistency check of debug builds passes *)

Lemma for_each_unit {A} (f : A -> unit -> outcome unit) l :
  (forall x, x ∈ l -> f x tt = Ret tt) -> for_each f l tt = Ret tt.
Proof.
  induction l as [|x l IH]; intros H; [done|]. cbn [for_each]. rewrite (H x) by (by left).
  cbn [mbind outcome_bind]. apply IH. intros y Hy. apply H. by right.
Qed.

Lemma seqZ_elem x a k : x ∈ seqZ a k -> a <= x < a + k.
Proof. rewrite elem_of_seqZ. lia. Qed.

(** Orders [o ..= max_order] of page [q], one below [o] already found or not. *)
Lemma check_page_ok cap n b q k : forall o found,
  bud_ok cap n b -> 0 <= o -> max_order b - o + 1 = Z.of_nat k -> 0 <= q ->
  (found = true -> exists o', o' < o /\ fa b o' (q / 2 ^ o') = true) ->
  BuddyAllocator.check_page b (BuddyAllocator.orders o (max_order b)) (q / 2 ^ o) found = Ret tt.
Proof.
  induction k as [|k IH]; intros o found Hb Ho Hk Hq Hfound; unfold BuddyAllocator.orders.
  { rewrite seqZ_nil by lia. done. }
  rewrite seqZ_cons by lia. cbn [BuddyAllocator.check_page].
  assert (0 <= q / 2 ^ o) by (apply Z.div_pos; [lia|apply Z.pow_pos_nonneg; lia]).
  destruct (order_lookup cap n b o (proj1 Hb)) as (bm & -> & _ & Hwf & Hl & _ & Hfa); [lia|].
  cbn [mbind outcome_bind]. rewrite bt_len_spec by done. cbn [mbind outcome_bind]. rewrite Hl.
  destruct (Z.leb_spec (n / 2 ^ o) (q / 2 ^ o)); [done|].
  rewrite bt_get_spec by (done || lia). cbn [mbind outcome_bind].
  assert (Hrest : forall f', (f' = true -> exists o', o' < o + 1 /\ fa b o' (q / 2 ^ o') = true) ->
    BuddyAllocator.check_page b (seqZ (Z.succ o) (Z.pred (max_order b - o + 1)))
      (next_higher_order (q / 2 ^ o)) f' = Ret tt).
  { intros f' Hf'. unfold next_higher_order. rewrite <-div_pow2_succ by lia.
    rewrite <-(IH (o + 1) f'); [|done|lia|lia|done|done]. unfold BuddyAllocator.orders.
    replace (Z.succ o) with (o + 1) by lia. by replace (Z.pred (max_order b - o + 1)) with (max_order b - (o + 1) + 1) by lia. }
  specialize (Hfa (q / 2 ^ o) ltac:(lia)). destruct (bbit bm (q / 2 ^ o)); simpl in Hfa.
  - apply Hrest. intros Hf. destruct (Hfound Hf) as (o' & ? & ?). exists o'. split; [lia|done].
  - destruct found; simpl.
    + destruct (Hfound eq_refl) as (o' & Hlt & Ho'). pose proof (vo_once _ _ _ (proj2 Hb) q o' o Ho' Hfa). lia.
    + apply Hrest. intros _. exists o. split; [lia|done].
Qed.

Lemma check_buddy_ok cap n b o bm p :
  bud_ok cap n b -> 0 <= o < max_order b -> BuddyAllocator.get_order_free b o = Ret bm -> 0 <= p < n / 2 ^ o ->
  BuddyAllocator.check_buddy bm p = Ret tt.
Proof.
  intros Hb Ho Hget Hp. unfold BuddyAllocator.check_buddy.
  destruct (order_lookup cap n b o (proj1 Hb)) as (bm' & Hg & _ & Hwf & Hl & _ & Hfa); [lia|].
  rewrite Hget in Hg. injection Hg as <-. rewrite (bt_get_spec bm p) by (done || lia). cbn [mbind outcome_bind].
  destruct (bbit bm p) eqn:Ep; [done|]. rewrite bt_len_spec by done. cbn [mbind outcome_bind].
  pose proof (buddy_page_nonneg p ltac:(lia)). destruct (Z.ltb_spec (buddy_page p) (blen bm)); [|done].
  rewrite bt_get_spec by (done || lia). cbn [mbind outcome_bind].
  pose proof (vo_merged _ _ _ (proj2 Hb) o p ltac:(lia)) as Hm. rewrite !Hfa, Ep in Hm by lia.
  apply negb_false_iff in Hm as ->; done.
Qed.

Lemma debug_check_ok cap b :
  bud_ok cap (BuddyAllocator.len b) b -> BuddyAllocator.debug_check_consistency b = Ret tt.
Proof.
  intros Hb. pose proof (bo_order _ _ _ (proj1 Hb)) as Hmo. change MAX_MAX_PAGE_ORDER with 20 in Hmo.
  unfold BuddyAllocator.debug_check_consistency. rewrite (for_each_unit _ (seqZ 0 (BuddyAllocator.len b))).
  - cbn [mbind outcome_bind]. apply for_each_unit. intros o Ho. rewrite elem_of_reverse in Ho.
    apply seqZ_elem in Ho. rewrite pow2_u32_ok by lia. cbn [mbind outcome_bind].
    destruct (order_lookup _ _ b o (proj1 Hb)) as (bm & Hg & _); [lia|]. rewrite Hg. cbn [mbind outcome_bind].
    apply for_each_unit. intros p Hp. apply seqZ_elem in Hp. eapply check_buddy_ok; [done| |done|]; lia.
  - intros q Hq. apply seqZ_elem in Hq.
    pose proof (check_page_ok _ _ b q (Z.to_nat (max_order b + 1)) 0 false Hb) as H.
    rewrite Z.pow_0_r, Z.div_1_r in H. apply H; lia || done.
Qed.

(** ** [resize] *)

Lemma resize_bitmaps_spec f : forall p,
  0 <= p <= 2 ^ 30 ->
  (forall i bm, f !! i = Some bm -> bwf bm /\ p / 2 ^ Z.of_nat i <= 64 ^ Z.of_nat (bheight bm) /\
     forall j, Z.min (p / 2 ^ Z.of_nat i) (blen bm) <= j -> bbit bm j = true) ->
  exists f', BuddyAllocator.resize_bitmaps f p = Ret f' /\
    Forall2 (fun bm bm' => bwf bm' /\ bheight bm' = bheight bm /\ forall j, 0 <= j -> bbit bm' j = bbit bm j) f f' /\
    (forall i bm', f' !! i = Some bm' -> blen bm' = p / 2 ^ Z.of_nat i).
Proof.
  induction f as [|bm f IH]; intros p Hp Hf; [by exists []|]. cbn [BuddyAllocator.resize_bitmaps].
  destruct (Hf 0%nat bm eq_refl) as (Hwf & Hc & Hbits). change (2 ^ Z.of_nat 0) with 1 in *.
  rewrite Z.div_1_r in *. destruct (bt_resize_spec bm p Hwf) as (bm' & -> & ? & Hl & ? & ?); [lia|done|done|].
  cbn [mbind outcome_bind]. unfold next_higher_order.
  assert (Hpow : forall i, p / 2 ^ Z.of_nat (S i) = p / 2 / 2 ^ Z.of_nat i).
  { intros i. rewrite Nat2Z.inj_succ, Z.pow_succ_r by lia. by rewrite Z.div_div by (try apply Z.pow_nonzero; lia). }
  destruct (IH (p / 2)) as (f' & -> & H2 & Hlens).
  - split; [apply Z.div_pos; lia|]. apply Z.div_le_upper_bound; lia.
  - intros i x Hx. rewrite <-Hpow. by apply (Hf (S i)).
  - exists (bm' :: f'). split; [done|]. split; [by constructor|]. intros [|i] x Hx; simpl in Hx.
    + injection Hx as <-. change (2 ^ Z.of_nat 0) with 1. by rewrite Z.div_1_r.
    + rewrite Hpow. by apply Hlens.
Qed.

(** Changing the page count of the bitmaps keeps the marks, when the dropped
    blocks are not marked. *)
Lemma resize_bits_ok cap n m b :
  bud_ok cap n b -> 0 <= m <= cap -> (forall q, m <= q -> ~ pfree (fa b) q) ->
  exists f', BuddyAllocator.resize_bitmaps (free b) m = Ret f' /\
    forall l, bud_ok cap m (BuddyAllocator.mk f' l (max_order b)) /\
      view_eq (fa (BuddyAllocator.mk f' l (max_order b))) (fa b).
Proof.
  intros [Hb Hv] Hm Hno. pose proof Hb as [Hmo Hlen [Hn Hcap] Hbm].
  assert (Hdiv : forall o, 0 <= o -> m / 2 ^ o <= cap / 2 ^ o)
    by (intros; apply Z.div_le_mono; [apply Z.pow_pos_nonneg|]; lia).
  assert (Hmarked : forall o p, fa b o p = true -> p < m / 2 ^ o).
  { intros o p H. destruct (Z.lt_ge_cases p (m / 2 ^ o)) as [|Hge]; [done|]. exfalso.
    apply (vo_range _ _ _ Hv) in H as Hr. assert (0 < 2 ^ o) by (apply Z.pow_pos_nonneg; lia).
    apply (Hno ((p + 1) * 2 ^ o - 1)).
    - pose proof (Z.mul_succ_div_gt m (2 ^ o) ltac:(lia)). nia.
    - exists o. rewrite <-H. f_equal. apply block_pages; lia. }
  destruct (resize_bitmaps_spec (free b) m) as (f' & Hrun & H2 & Hlens); [lia| |].
  { intros i bm Hi. destruct (Hbm (Z.of_nat i) bm ltac:(lia)) as (Hwf & Hl & Hh); [by rewrite Nat2Z.id|].
    split; [done|]. rewrite Hh. split.
    - etransitivity; [apply Hdiv; lia|]. apply height_for_bound.
      transitivity cap; [|lia]. apply Z.div_le_upper_bound; [apply Z.pow_pos_nonneg; lia|].
      assert (0 < 2 ^ Z.of_nat i) by (apply Z.pow_pos_nonneg; lia). nia.
    - intros j Hj. destruct (bbit bm j) eqn:E; [done|]. exfalso.
      assert (0 <= m / 2 ^ Z.of_nat i) by (apply Z.div_pos; [lia|apply Z.pow_pos_nonneg; lia]).
      assert (0 <= n / 2 ^ Z.of_nat i) by (apply Z.div_pos; [lia|apply Z.pow_pos_nonneg; lia]).
      assert (HF : fa b (Z.of_nat i) j = true).
      { unfold fa. rewrite Nat2Z.id, Hi, E. rewrite !(proj2 (Z.leb_le _ _)) by lia. done. }
      apply Hmarked in HF as ?. apply (vo_range _ _ _ Hv) in HF. lia. }
  exists f'. split; [done|]. intros l. set (b' := BuddyAllocator.mk f' l (max_order b)).
  pose proof (Forall2_length _ _ _ H2) as Hlen'.
  assert (Heq : view_eq (fa b') (fa b)).
  { intros o p. unfold fa, b'; simpl. destruct (Z.leb_spec 0 p); [|by rewrite !andb_false_r].
    destruct (free b !! Z.to_nat o) as [bm|] eqn:E.
    - destruct (Forall2_lookup_l _ _ _ _ _ H2 E) as (bm' & -> & _ & _ & Hbit). by rewrite Hbit.
    - by rewrite (lookup_ge_None_2 f') by (apply lookup_ge_None in E; lia). }
  split; [|done]. split.
  - split; [done|unfold vlen in *; simpl; lia|lia|]. simpl. intros o bm' Ho E.
    destruct (Forall2_lookup_r _ _ _ _ _ H2 E) as (bm & E0 & Hwf & Hh & _). split; [done|].
    destruct (Hbm o bm Ho E0) as (_ & _ & <-). rewrite (Hlens _ _ E), Z2Nat.id by done. done.
  - rewrite Heq. simpl. destruct Hv as [Hr Ho Hmg]. split; [|done|done].
    intros o p H. split; [by apply Hr in H as []|]. split; [by apply Hr in H as [_ []]|by apply Hmarked].
Qed.

(** The invariant does not read [len]. *)
Lemma bud_ok_len cap n b l : bud_ok cap n b -> bud_ok cap n (BuddyAllocator.mk (free b) l (max_order b)).
Proof. intros [[] ?]. split; [by split|done]. Qed.

(** The state of a growing [resize] once the pages below [lo] are processed. *)
Definition grow_inv (cap m mo l : Z) (P : Z -> Prop) (lo : Z) (b : BuddyAllocator.t) : Prop :=
  bud_ok cap m b /\ max_order b = mo /\ forall q, pfree (fa b) q <-> P q \/ l <= q < lo.

Lemma grow_inv_step cap m mo l P lo b o :
  (forall q, P q -> q < l) -> l <= lo ->
  grow_inv cap m mo l P lo b -> 0 <= o <= mo -> 0 <= lo -> (2 ^ o | lo) -> lo + 2 ^ o <= m ->
  exists b', BuddyAllocator.free_inner b (lo / 2 ^ o) o = Ret b' /\ grow_inv cap m mo l P (lo + 2 ^ o) b'.
Proof.
  intros HP Hl (Hb & Hm & Hq) Ho Hlo Hd Hle. assert (0 < 2 ^ o) by (apply Z.pow_pos_nonneg; lia).
  destruct (free_inner_spec cap m b (lo / 2 ^ o) o Hb) as (b' & Hr & Hb' & [Hs Hm'] & Hq').
  - lia.
  - apply block_at_range; try done; lia.
  - intros q Hin. rewrite Hq. apply block_at in Hin; [|lia|done]. intros [HPq|]; [apply HP in HPq|]; lia.
  - exists b'. split; [done|]. split_and!; [done|congruence|].
    intros q. rewrite Hq', Hq, block_at by (done || lia). split; [intros [[]|]|intros []]; auto; try lia.
Qed.

(** Growing adds the new pages to the free ones. *)
Lemma resize_grow_spec cap b m :
  bud_ok cap (BuddyAllocator.len b) b -> 0 < BuddyAllocator.len b < m -> m <= cap ->
  exists b', BuddyAllocator.resize_grow b m = Ret b' /\ bud_ok cap m b' /\ BuddyAllocator.len b' = m /\
    max_order b' = max_order b /\
    forall q, pfree (fa b') q <-> pfree (fa b) q \/ BuddyAllocator.len b <= q < m.
Proof.
  intros Hb Hl Hm. set (l := BuddyAllocator.len b) in *. pose proof (proj1 Hb) as [Hmo _ [_ Hcap] _].
  change MAX_MAX_PAGE_ORDER with 20 in Hmo.
  assert (HP : forall q, pfree (fa b) q -> q < l) by (intros q Hpf; apply (pfree_range _ _ _ _ (proj2 Hb)) in Hpf; lia).
  destruct (resize_bits_ok cap l m b Hb) as (f' & Hrun & Hf'); [lia|intros q Hq Hpf; apply HP in Hpf; lia|].
  destruct (Hf' l) as [Hb0 Heq]. set (b0 := BuddyAllocator.mk f' l (max_order b)) in *.
  unfold BuddyAllocator.resize_grow. rewrite Hrun. cbn [mbind outcome_bind]. fold l b0.
  set (Inv lo (b : BuddyAllocator.t) := l <= lo /\ grow_inv cap m (max_order b0) l (pfree (fa b0)) lo b).
  assert (HI0 : Inv l b0) by (split; [lia|]; split_and!; [done|done|intros q; naive_solver lia]).
  assert (Hstep : forall lo b o, Inv lo b -> 0 <= o <= max_order b -> 0 <= lo -> (2 ^ o | lo) -> lo + 2 ^ o <= m ->
    exists b', BuddyAllocator.free_inner b (lo / 2 ^ o) o = Ret b' /\ Inv (lo + 2 ^ o) b').
  { intros lo b1 o [Hlo HI] Ho H0 Hd Hle. assert (0 < 2 ^ o) by (apply Z.pow_pos_nonneg; lia).
    destruct (grow_inv_step cap m (max_order b0) l (pfree (fa b0)) lo b1 o) as (b' & ? & ?); try done.
    - intros q. rewrite Heq. apply HP.
    - destruct HI as (_ & <- & _). lia.
    - exists b'. split; [done|]. split; [lia|done]. }
  assert (Hord : forall lo b1, Inv lo b1 -> max_order b1 = max_order b) by (by intros ?? (_ & _ & ? & _)).
  destruct (grow_align_spec Inv (max_order b) m (Z.to_nat m)) with (lo := l) (b := b0)
    as (lo1 & b1 & -> & HI1 & Hlo1 & Hal); [lia|lia|done| |done|lia|lia|].
  { intros lo b1 o HI Ho. apply Hstep; [done|]. by rewrite (Hord _ _ HI). }
  cbn [mbind outcome_bind].
  destruct (block_orders_spec BuddyAllocator.free_inner Inv (max_order b) m) with (lo := lo1) (b := b1)
    as (b2 & -> & HI2 & Hb2 & Hm2 & Hq2); [lia|lia|done| |done|lia|done|].
  { intros lo b2 o HI Ho H0 Hd Hle _. apply Hstep; try done. by rewrite (Hord _ _ HI). }
  cbn [mbind outcome_bind fst snd]. rewrite Z.eqb_refl. cbn [rassert mbind outcome_bind].
  eexists. split; [done|]. change (max_order b0) with (max_order b) in Hm2. rewrite <-Hm2. split_and!; [by apply bud_ok_len|done|done|].
  intros q. rewrite <-Heq. apply Hq2.
Qed.

(** The state of a shrinking [resize] once the pages below [lo] are processed. *)
Definition shrink_inv (cap l mo m : Z) (P : Z -> Prop) (lo : Z) (b : BuddyAllocator.t) : Prop :=
  m <= lo /\ bud_ok cap l b /\ max_order b = mo /\ BuddyAllocator.len b = l /\
  forall q, pfree (fa b) q <-> P q /\ ~ m <= q < lo.

Lemma shrink_inv_step cap l mo m P lo b o :
  (forall q, m <= q < l -> P q) ->
  shrink_inv cap l mo m P lo b -> 0 <= o <= mo -> 0 <= lo -> (2 ^ o | lo) -> lo + 2 ^ o <= l ->
  exists b', BuddyAllocator.record_alloc_inner b (lo / 2 ^ o) o = Ret b' /\
    shrink_inv cap l mo m P (lo + 2 ^ o) b'.
Proof.
  intros HP (Hml & Hb & Hm & Hl & Hq) Ho Hlo Hd Hle. assert (0 < 2 ^ o) by (apply Z.pow_pos_nonneg; lia).
  destruct (record_alloc_inner_spec cap l b (lo / 2 ^ o) o Hb) as (b' & Hr & Hb' & [Hs Hm'] & Hq').
  - lia.
  - apply block_at_range; try done; lia.
  - intros q Hin. apply block_at in Hin; [|lia|done]. rewrite Hq. split; [apply HP|]; lia.
  - exists b'. split; [done|]. split_and!; [lia|done|congruence|congruence|].
    intros q. rewrite Hq', Hq, block_at by (done || lia). intuition lia.
Qed.

(** Shrinking removes the dropped pages, which must be free. *)
Lemma resize_shrink_spec cap b m :
  bud_ok cap (BuddyAllocator.len b) b -> 0 <= m <= BuddyAllocator.len b ->
  (forall q, m <= q < BuddyAllocator.len b -> pfree (fa b) q) ->
  exists b', BuddyAllocator.resize_shrink b m = Ret b' /\ bud_ok cap m b' /\ BuddyAllocator.len b' = m /\
    max_order b' = max_order b /\
    forall q, pfree (fa b') q <-> pfree (fa b) q /\ q < m.
Proof.
  intros Hb Hm HP. set (l := BuddyAllocator.len b) in *. pose proof (proj1 Hb) as [Hmo _ [Hlc Hcap] _].
  change MAX_MAX_PAGE_ORDER with 20 in Hmo.
  set (Inv := shrink_inv cap l (max_order b) m (pfree (fa b))).
  assert (HI0 : Inv m b) by (split_and!; try done; intros q; intuition lia).
  assert (Hord : forall lo b1, Inv lo b1 -> max_order b1 = max_order b) by (by intros ?? (_ & _ & ? & _)).
  assert (Hstep : forall lo b1 o, Inv lo b1 -> 0 <= o <= max_order b -> 0 <= lo -> (2 ^ o | lo) -> lo + 2 ^ o <= l ->
    exists b', BuddyAllocator.record_alloc_inner b1 (lo / 2 ^ o) o = Ret b' /\ Inv (lo + 2 ^ o) b')
    by (intros; by apply shrink_inv_step).
  unfold BuddyAllocator.resize_shrink. fold l.
  destruct (shrink_align_spec Inv (max_order b) l (Z.to_nat l)) with (lo := m) (b := b)
    as (lo1 & b1 & -> & HI1 & Hlo1 & Hal); [lia|lia|done|done|done|lia|lia|].
  cbn [mbind outcome_bind].
  destruct (block_orders_spec BuddyAllocator.record_alloc_inner Inv (max_order b) l) with (lo := lo1) (b := b1)
    as (b2 & -> & _ & Hb2 & Hm2 & Hl2 & Hq2); [lia|lia|done|by intros; apply Hstep|done|lia|done|].
  cbn [mbind outcome_bind fst snd]. rewrite Z.eqb_refl. cbn [rassert mbind outcome_bind].
  assert (Hno : forall q, m <= q -> ~ pfree (fa b2) q).
  { intros q Hq Hpf. pose proof (pfree_range _ _ _ _ (proj2 Hb2) Hpf). apply Hq2 in Hpf as [_ Hn]. lia. }
  destruct (resize_bits_ok cap l m b2 Hb2) as (f' & -> & Hf'); [lia|done|]. cbn [mbind outcome_bind].
  destruct (Hf' m) as [Hok Heq]. rewrite Hm2 in *. eexists. split; [done|]. split_and!; [done|done|done|].
  intros q. rewrite Heq. destruct (decide (q < m)).
  - rewrite Hq2. intuition lia.
  - split; [intros Hpf; exfalso; apply (Hno q); [lia|done]|lia].
Qed.

(** [resize] inside the capacity keeps the invariant: growing frees the new
    pages, shrinking drops pages that are free. *)
Lemma resize_spec cap b m :
  bud_ok cap (BuddyAllocator.len b) b -> 0 <= m <= cap -> 0 < BuddyAllocator.len b \/ m = 0 ->
  (forall q, m <= q < BuddyAllocator.len b -> pfree (fa b) q) ->
  exists b', BuddyAllocator.resize b m = Ret b' /\ bud_ok cap m b' /\ BuddyAllocator.len b' = m /\
    max_order b' = max_order b /\
    forall q, pfree (fa b') q <-> (pfree (fa b) q /\ q < m) \/ BuddyAllocator.len b <= q < m.
Proof.
  intros Hb Hm Hl HP. pose proof (bo_cap _ _ _ (proj1 Hb)). unfold BuddyAllocator.resize.
  erewrite debug_check_ok by done. cbn [mbind outcome_bind].
  destruct (Z.ltb_spec (BuddyAllocator.len b) m).
  - destruct (resize_grow_spec cap b m Hb) as (b' & -> & Hb' & Hl' & Hm' & Hq); [lia|lia|].
    cbn [mbind outcome_bind]. rewrite (debug_check_ok cap) by (by rewrite Hl'). cbn [mbind outcome_bind].
    exists b'. split_and!; try done. intros q. rewrite Hq. split; [|intuition].
    intros [Hpf|]; [|by right]. left. split; [done|]. apply (pfree_range _ _ _ _ (proj2 Hb)) in Hpf. lia.
  - destruct (resize_shrink_spec cap b m Hb) as (b' & -> & Hb' & Hl' & Hm' & Hq); [lia|done|].
    cbn [mbind outcome_bind]. rewrite (debug_check_ok cap) by (by rewrite Hl'). cbn [mbind outcome_bind].
    exists b'. split_and!; try done. intros q. rewrite Hq. intuition lia.
Qed.

(** ** Queries *)

(** Executable form of [pfree]: the orders [0 ..= mo] are searched. *)
Definition page_free (b : BuddyAllocator.t) (q : Z) : bool :=
  existsb (fun o => fa b o (q / 2 ^ o)) (seqZ 0 (max_order b + 1)).

Lemma page_free_spec cap n b q : bud_ok cap n b -> page_free b q = true <-> pfree (fa b) q.
Proof.
  intros [Hb Hv]. unfold page_free. rewrite existsb_exists. split.
  - intros (o & _ & Ho). by exists o.
  - intros [o Ho]. exists o. split; [|done]. apply list_elem_of_In, elem_of_seqZ.
    apply (vo_range _ _ _ Hv) in Ho. lia.
Qed.

(** [find_free_order] returns the order at which the page is marked free. *)
Lemma free_order_loop_ok cap n b q k : forall o,
  bud_ok cap n b -> 0 <= o -> max_order b - o + 1 = Z.of_nat k -> 0 <= q ->
  exists r, BuddyAllocator.free_order_loop b (BuddyAllocator.orders o (max_order b)) (q / 2 ^ o) = Ret r /\
    match r with
    | Some o' => fa b o' (q / 2 ^ o') = true
    | None => forall o', o <= o' -> fa b o' (q / 2 ^ o') = false
    end.
Proof.
  induction k as [|k IH]; intros o Hb Ho Hk Hq; unfold BuddyAllocator.orders.
  { rewrite seqZ_nil by lia. exists None. split; [done|]. intros. eapply fa_high; [apply Hb|lia]. }
  rewrite seqZ_cons by lia. cbn [BuddyAllocator.free_order_loop].
  assert (0 <= q / 2 ^ o) by (apply Z.div_pos; [lia|apply Z.pow_pos_nonneg; lia]).
  destruct (order_lookup cap n b o (proj1 Hb)) as (bm & -> & _ & Hwf & Hl & _ & Hfa); [lia|].
  cbn [mbind outcome_bind]. rewrite bt_len_spec by done. cbn [mbind outcome_bind]. rewrite Hl.
  assert (Hrest : fa b o (q / 2 ^ o) = false -> exists r,
      BuddyAllocator.free_order_loop b (seqZ (Z.succ o) (Z.pred (max_order b - o + 1)))
        (next_higher_order (q / 2 ^ o)) = Ret r /\
      match r with
      | Some o' => fa b o' (q / 2 ^ o') = true
      | None => forall o', o <= o' -> fa b o' (q / 2 ^ o') = false
      end).
  { intros Hno. destruct (IH (o + 1)) as (r & Hr & Hspec); [done|lia|lia|done|]. exists r. split.
    - unfold next_higher_order. rewrite <-div_pow2_succ by lia. rewrite <-Hr. unfold BuddyAllocator.orders.
      replace (Z.succ o) with (o + 1) by lia. by replace (Z.pred (max_order b - o + 1)) with (max_order b - (o + 1) + 1) by lia.
    - destruct r; [done|]. intros o' Ho'. destruct (decide (o' = o)) as [->|]; [done|]. apply Hspec. lia. }
  destruct (Z.ltb_spec (q / 2 ^ o) (n / 2 ^ o)).
  - rewrite (bt_get_spec bm (q / 2 ^ o)) by (done || lia). cbn [mbind outcome_bind].
    rewrite Hfa in Hrest by lia. destruct (bbit bm (q / 2 ^ o)) eqn:E; cbn [negb] in *; [by apply Hrest|].
    exists (Some o). split; [done|]. by rewrite Hfa, E by lia.
  - apply Hrest. destruct (fa b o (q / 2 ^ o)) eqn:E; [|done]. apply (vo_range _ _ _ (proj2 Hb)) in E. lia.
Qed.

Lemma find_free_order_spec cap n b q :
  bud_ok cap n b -> 0 <= q ->
  exists r, BuddyAllocator.find_free_order b q = Ret r /\
    match r with
    | Some o => fa b o (q / 2 ^ o) = true
    | None => ~ pfree (fa b) q
    end.
Proof.
  intros Hb Hq. pose proof (bo_order _ _ _ (proj1 Hb)).
  destruct (free_order_loop_ok cap n b q (Z.to_nat (max_order b + 1)) 0 Hb) as (r & Hr & Hspec); [lia..|].
  rewrite Z.pow_0_r, Z.div_1_r in Hr. exists r. split; [done|]. destruct r as [o|]; [done|].
  intros [o Ho]. rewrite Hspec in Ho; [done|]. by apply (vo_range _ _ _ (proj2 Hb)) in Ho as [[? _] _].
Qed.

(** Page [q] is the last one of the block it is marked in, if any. *)
Definition block_end (b : BuddyAllocator.t) (q : Z) : Prop :=
  forall o, fa b o (q / 2 ^ o) = true -> q + 1 = (q / 2 ^ o + 1) * 2 ^ o.

Lemma block_end_last cap n b : bud_ok cap n b -> block_end b (n - 1).
Proof.
  intros Hb o Ho. apply (vo_range _ _ _ (proj2 Hb)) in Ho as [Ho Hp].
  assert (0 < 2 ^ o) by (apply Z.pow_pos_nonneg; lia).
  pose proof (proj1 (block_pages o _ (n - 1) ltac:(lia)) eq_refl). pose proof (Z.mul_div_le n (2 ^ o)). nia.
Qed.

Lemma block_end_prev cap n b q o :
  bud_ok cap n b -> block_end b q -> fa b o (q / 2 ^ o) = true -> block_end b (q - 2 ^ o).
Proof.
  intros Hb Hend Ho o' Ho'. pose proof (Hend o Ho) as E. set (p := q / 2 ^ o) in *.
  apply (vo_range _ _ _ (proj2 Hb)) in Ho as Hr. apply (vo_range _ _ _ (proj2 Hb)) in Ho' as Hr'.
  assert (0 < 2 ^ o) by (apply Z.pow_pos_nonneg; lia).
  pose proof (proj1 (block_pages o' _ (q - 2 ^ o) ltac:(lia)) eq_refl) as Hin.
  set (p' := (q - 2 ^ o) / 2 ^ o') in *.
  destruct (decide ((p' + 1) * 2 ^ o' = q - 2 ^ o + 1)) as [|Hne]; [lia|exfalso].
  assert (Hsame : (p * 2 ^ o) / 2 ^ o' = p') by (apply block_pages; lia).
  assert (o = o') as <- by (apply (vo_once _ _ _ (proj2 Hb) (p * 2 ^ o)); [by rewrite block_first by lia|by rewrite Hsame]).
  rewrite block_first in Hsame by lia. lia.
Qed.

(** The loop of [trailing_free_pages] from page [q], with every page above [q] free. *)
Lemma trailing_loop_spec cap n b fuel : forall q,
  bud_ok cap n b -> 0 <= q < n -> q < Z.of_nat fuel -> block_end b q ->
  (forall x, q < x < n -> pfree (fa b) x) ->
  exists r, BuddyAllocator.trailing_loop fuel b q (n - 1 - q) = Ret r /\ 0 <= r <= n /\
    (forall x, n - r <= x < n -> pfree (fa b) x) /\ (r < n -> ~ pfree (fa b) (n - r - 1)).
Proof.
  induction fuel as [|f IH]; intros q Hb Hq Hf Hend Hab; [lia|]. cbn [BuddyAllocator.trailing_loop].
  destruct (find_free_order_spec cap n b q Hb) as (r & -> & Hr); [lia|]. cbn [mbind outcome_bind].
  destruct r as [o|].
  2:{ exists (n - 1 - q). split; [done|]. split; [lia|]. split; [intros; apply Hab; lia|].
      intros _. by replace (n - (n - 1 - q) - 1) with q by lia. }
  pose proof (Hend o Hr) as E. pose proof (bo_cap _ _ _ (proj1 Hb)). pose proof (bo_order _ _ _ (proj1 Hb)) as Hmo.
  change MAX_MAX_PAGE_ORDER with 20 in Hmo.
  apply (vo_range _ _ _ (proj2 Hb)) in Hr as Hrng. assert (0 < 2 ^ o) by (apply Z.pow_pos_nonneg; lia).
  rewrite pow2_u32_ok by lia. cbn [mbind outcome_bind]. rewrite uadd_ok by nia. cbn [mbind outcome_bind].
  assert (Hblk : forall x, q - 2 ^ o < x <= q -> pfree (fa b) x).
  { intros x Hx. exists o. rewrite <-Hr. f_equal. apply block_pages; lia. }
  assert (Hab' : forall x, q - 2 ^ o < x < n -> pfree (fa b) x).
  { intros x Hx. destruct (decide (x <= q)); [apply Hblk; lia|apply Hab; lia]. }
  destruct (Z.ltb_spec q (2 ^ o)).
  - exists (n - 1 - q + 2 ^ o). split; [done|]. assert (q + 1 = 2 ^ o) by nia.
    split; [lia|]. split; [|lia]. intros x Hx. apply Hab'. lia.
  - rewrite usub_ok by lia. cbn [mbind outcome_bind].
    replace (n - 1 - q + 2 ^ o) with (n - 1 - (q - 2 ^ o)) by lia.
    apply IH; [done|lia|lia|by eapply block_end_prev|done].
Qed.

Lemma trailing_free_pages_spec cap b :
  bud_ok cap (BuddyAllocator.len b) b -> 0 < BuddyAllocator.len b ->
  exists r, BuddyAllocator.trailing_free_pages b = Ret r /\ 0 <= r <= BuddyAllocator.len b /\
    (forall q, BuddyAllocator.len b - r <= q < BuddyAllocator.len b -> pfree (fa b) q) /\
    (r < BuddyAllocator.len b -> ~ pfree (fa b) (BuddyAllocator.len b - r - 1)).
Proof.
  intros Hb Hl. unfold BuddyAllocator.trailing_free_pages. rewrite usub_ok by lia. cbn [mbind outcome_bind].
  set (n := BuddyAllocator.len b) in *.
  destruct (trailing_loop_spec cap n b (Z.to_nat n) (n - 1)) as (r & Hr & Hspec);
    [done|lia|lia|by eapply block_end_last|lia|].
  replace (n - 1 - (n - 1)) with 0 in Hr by lia. by exists r.
Qed.

(** [highest_free_order] is the largest order with a marked block. *)
Lemma highest_free_order_from cap n b k :
  bud_ok cap n b -> Z.of_nat k - 1 <= max_order b ->
  exists r, BuddyAllocator.find_order b (reverse (BuddyAllocator.orders 0 (Z.of_nat k - 1))) = Ret r /\
    match r with
    | Some o => (exists p, fa b o p = true) /\ forall o' p, o < o' < Z.of_nat k -> fa b o' p = false
    | None => forall o p, o < Z.of_nat k -> fa b o p = false
    end.
Proof.
  intros Hb. induction k as [|k IH]; intros Hk.
  { exists None. split; [done|]. intros o p Ho. destruct (fa b o p) eqn:E; [|done].
    apply (vo_range _ _ _ (proj2 Hb)) in E. lia. }
  replace (Z.of_nat (S k) - 1) with (Z.of_nat k) in * by lia. rewrite orders_snoc by lia.
  cbn [BuddyAllocator.find_order].
  destruct (order_lookup cap n b (Z.of_nat k) (proj1 Hb)) as (bm & -> & _ & Hwf & Hl & _ & Hfa); [lia|].
  cbn [mbind outcome_bind]. destruct (bt_has_unset_spec bm Hwf) as (u & -> & Hu). cbn [mbind outcome_bind].
  destruct u.
  - destruct (proj1 Hu eq_refl) as (p & Hp & Hbit). exists (Some (Z.of_nat k)). split; [done|].
    split; [exists p; by rewrite Hfa, Hbit by lia|lia].
  - assert (Hno : forall p, fa b (Z.of_nat k) p = false).
    { intros p. destruct (fa b (Z.of_nat k) p) eqn:E; [|done].
      pose proof (vo_range _ _ _ (proj2 Hb) _ _ E) as [_ Hp]. rewrite Hfa in E by lia.
      apply negb_true_iff in E. assert (false = true) by (apply Hu; exists p; split; [lia|done]). done. }
    destruct (IH ltac:(lia)) as (r & -> & Hr). exists r. split; [done|].
    destruct r as [o|]; [destruct Hr as [Hex Hr]; split; [done|]|]; intros o' p Ho';
      (destruct (decide (o' = Z.of_nat k)) as [->|]; [apply Hno|apply Hr; lia]).
Qed.

Lemma highest_free_order_spec cap n b :
  bud_ok cap n b ->
  exists r, BuddyAllocator.highest_free_order b = Ret r /\
    match r with
    | Some o => (exists p, fa b o p = true) /\ forall o' p, o < o' -> fa b o' p = false
    | None => forall q, ~ pfree (fa b) q
    end.
Proof.
  intros Hb. pose proof (bo_order _ _ _ (proj1 Hb)).
  destruct (highest_free_order_from cap n b (Z.to_nat (max_order b + 1)) Hb) as (r & Hr & Hspec); [lia|].
  replace (Z.of_nat (Z.to_nat (max_order b + 1)) - 1) with (max_order b) in Hr by lia.
  exists r. split; [done|].
  assert (Hhi : forall o' p, max_order b < o' -> fa b o' p = false) by (intros; eapply fa_high; [apply Hb|done]).
  destruct r as [o|].
  - destruct Hspec as [Hex Hr']. split; [done|]. intros o' p Ho'.
    destruct (decide (o' <= max_order b)); [apply Hr'; lia|apply Hhi; lia].
  - intros q [o Ho]. destruct (decide (o <= max_order b)); [rewrite Hspec in Ho by lia|rewrite Hhi in Ho by lia]; done.
Qed.

(** ** Counting the free pages *)

Lemma zcount_split f g h lo n :
  (forall i, lo <= i < lo + Z.of_nat n -> f i = g i || h i) ->
  (forall i, lo <= i < lo + Z.of_nat n -> g i = true -> h i = false) ->
  zcount f lo n = zcount g lo n + zcount h lo n.
Proof.
  revert lo. induction n as [|n IH]; intros lo Hf Hd; [done|]. cbn [zcount].
  rewrite (IH (lo + 1)); [|intros; apply Hf; lia|intros; apply Hd; [lia|done]].
  rewrite (Hf lo) by lia. specialize (Hd lo ltac:(lia)). destruct (g lo), (h lo); simpl in *; lia.
Qed.

(** Counting the pages of the blocks that satisfy [f]. *)
Lemma zcount_blocks f (s : nat) k : (0 < s)%nat ->
  zcount (fun q => f (q / Z.of_nat s)) 0 (k * s) = Z.of_nat s * zcount f 0 k.
Proof.
  intros Hs. assert (H : forall lo, zcount (fun q => f (q / Z.of_nat s)) (lo * Z.of_nat s) (k * s) = Z.of_nat s * zcount f lo k).
  { induction k as [|k IH]; intros lo; [simpl; lia|]. cbn [Nat.mul zcount].
    rewrite zcount_app. replace (lo * Z.of_nat s + Z.of_nat s) with ((lo + 1) * Z.of_nat s) by lia. rewrite IH.
    assert (Hq : forall i, lo * Z.of_nat s <= i < lo * Z.of_nat s + Z.of_nat s -> i / Z.of_nat s = lo).
    { intros i Hi. symmetry. apply (Z.div_unique_pos _ _ _ (i - lo * Z.of_nat s)); lia. }
    destruct (f lo) eqn:E.
    - rewrite zcount_all; [lia|]. intros i Hi. by rewrite Hq.
    - rewrite zcount_none; [lia|]. intros i Hi. by rewrite Hq. }
  apply (H 0).
Qed.

(** The pages marked at an order below [k]. *)
Definition marked_below (b : BuddyAllocator.t) (k q : Z) : bool :=
  existsb (fun o => fa b o (q / 2 ^ o)) (seqZ 0 k).

Lemma marked_below_succ b k q : 0 <= k -> marked_below b (k + 1) q = marked_below b k q || fa b k (q / 2 ^ k).
Proof.
  intros Hk. unfold marked_below. rewrite seqZ_app, existsb_app by lia. f_equal.
  rewrite (seqZ_cons _ 1) by lia. rewrite seqZ_nil by lia. simpl. by rewrite orb_false_r.
Qed.

(** The pages marked at order [o] are counted by the bitmap of that order. *)
Lemma zcount_order cap n b o bm :
  bud_ok cap n b -> 0 <= o <= max_order b -> BuddyAllocator.get_order_free b o = Ret bm ->
  zcount (fun q => fa b o (q / 2 ^ o)) 0 (Z.to_nat n) = bfree bm * 2 ^ o.
Proof.
  intros Hb Ho Hg. destruct (order_lookup cap n b o (proj1 Hb) Ho) as (bm' & Hg' & _ & Hwf & Hl & _ & Hfa).
  rewrite Hg in Hg'. injection Hg' as <-. pose proof (bo_cap _ _ _ (proj1 Hb)) as [Hn _].
  assert (Hp : 0 < 2 ^ o) by (apply Z.pow_pos_nonneg; lia).
  set (s := Z.to_nat (2 ^ o)). set (k := Z.to_nat (n / 2 ^ o)).
  assert (0 <= n / 2 ^ o) by (apply Z.div_pos; lia).
  pose proof (Z.div_mod n (2 ^ o) ltac:(lia)) as Hdm. pose proof (Z.mod_pos_bound n (2 ^ o) Hp).
  replace (Z.to_nat n) with (k * s + Z.to_nat (n mod 2 ^ o))%nat by nia.
  rewrite zcount_app, (zcount_none _ (0 + _)).
  - rewrite Z.add_0_r. replace (2 ^ o) with (Z.of_nat s) by lia. rewrite (zcount_blocks (fa b o)) by lia.
    rewrite Z.mul_comm. f_equal. unfold bfree. rewrite Hl. apply zcount_ext. intros i Hi. apply Hfa. lia.
  - intros i Hi. destruct (fa b o (i / 2 ^ o)) eqn:E; [|done].
    pose proof (vo_range _ _ _ (proj2 Hb) _ _ E) as [_ Hr].
    assert (i < n / 2 ^ o * 2 ^ o); [|nia]. pose proof (Z.div_mod i (2 ^ o)). pose proof (Z.mod_pos_bound i (2 ^ o)). nia.
Qed.

(** The free pages of an allocator of [n] pages, counted one by one. *)
Definition free_count (b : BuddyAllocator.t) (n : Z) : Z := zcount (page_free b) 0 (Z.to_nat n).

Lemma count_loop_ok cap n b k :
  bud_ok cap n b -> Z.of_nat k - 1 <= max_order b ->
  for_each (fun order pages => bm ← BuddyAllocator.get_order_free b order; c ← BtreeBitmap.count_unset bm;
      size ← pow2_u32 order; x ← umul 32 c size; uadd 32 pages x)
    (BuddyAllocator.orders 0 (Z.of_nat k - 1)) 0 = Ret (zcount (marked_below b (Z.of_nat k)) 0 (Z.to_nat n)).
Proof.
  intros Hb. induction k as [|k IH]; intros Hk.
  { simpl. f_equal. symmetry. by apply zcount_none. }
  replace (Z.of_nat (S k)) with (Z.of_nat k + 1) in * by lia. unfold BuddyAllocator.orders in *.
  replace (Z.of_nat k + 1 - 1 - 0 + 1) with ((Z.of_nat k - 1 - 0 + 1) + 1) by lia.
  rewrite seqZ_app, for_each_app, IH by lia. cbn [mbind outcome_bind].
  replace (0 + (Z.of_nat k - 1 - 0 + 1)) with (Z.of_nat k) by lia.
  rewrite seqZ_cons, seqZ_nil by lia. cbn [for_each].
  destruct (order_lookup cap n b (Z.of_nat k) (proj1 Hb)) as (bm & Hg & _ & Hwf & Hl & _); [lia|].
  rewrite Hg. cbn [mbind outcome_bind]. rewrite bt_count_unset_spec by done. cbn [mbind outcome_bind].
  pose proof (bo_order _ _ _ (proj1 Hb)) as Hmo. change MAX_MAX_PAGE_ORDER with 20 in Hmo.
  rewrite pow2_u32_ok by lia. cbn [mbind outcome_bind].
  pose proof (bo_cap _ _ _ (proj1 Hb)).
  pose proof (zcount_order cap n b (Z.of_nat k) bm Hb ltac:(lia) Hg) as Hc.
  assert (Hsum : zcount (marked_below b (Z.of_nat k + 1)) 0 (Z.to_nat n) =
    zcount (marked_below b (Z.of_nat k)) 0 (Z.to_nat n) + bfree bm * 2 ^ Z.of_nat k).
  { rewrite <-Hc. apply zcount_split; intros i Hi; [apply marked_below_succ; lia|].
    intros (o & Ho & HF)%existsb_exists. apply list_elem_of_In, elem_of_seqZ in Ho.
    destruct (fa b (Z.of_nat k) _) eqn:E; [|done]. pose proof (vo_once _ _ _ (proj2 Hb) _ _ _ HF E). lia. }
  pose proof (zcount_bounds (marked_below b (Z.of_nat k + 1)) 0 (Z.to_nat n)).
  pose proof (zcount_bounds (marked_below b (Z.of_nat k)) 0 (Z.to_nat n)).
  rewrite umul_ok by lia. cbn [mbind outcome_bind]. rewrite uadd_ok by lia. cbn [mbind outcome_bind]. by rewrite Hsum.
Qed.

Lemma count_free_pages_spec cap n b :
  bud_ok cap n b -> BuddyAllocator.count_free_pages b = Ret (free_count b n).
Proof.
  intros Hb. pose proof (bo_order _ _ _ (proj1 Hb)).
  pose proof (count_loop_ok cap n b (Z.to_nat (max_order b + 1)) Hb ltac:(lia)) as H'.
  replace (Z.of_nat (Z.to_nat (max_order b + 1))) with (max_order b + 1) in H' by lia.
  replace (max_order b + 1 - 1) with (max_order b) in H' by lia. apply H'.
Qed.

Lemma count_allocated_pages_spec cap b :
  bud_ok cap (BuddyAllocator.len b) b ->
  BuddyAllocator.count_allocated_pages b =
    Ret (zcount (fun q => negb (page_free b q)) 0 (Z.to_nat (BuddyAllocator.len b))).
Proof.
  intros Hb. pose proof (bo_cap _ _ _ (proj1 Hb)). unfold BuddyAllocator.count_allocated_pages.
  erewrite count_free_pages_spec by done. cbn [mbind outcome_bind]. unfold free_count.
  pose proof (zcount_bounds (page_free b) 0 (Z.to_nat (BuddyAllocator.len b))).
  rewrite usub_ok by lia. f_equal.
  pose proof (zcount_split (fun _ => true) (page_free b) (fun q => negb (page_free b q)) 0 (Z.to_nat (BuddyAllocator.len b))) as Hs.
  rewrite zcount_all in Hs by done.
  specialize (Hs ltac:(intros i _; by destruct (page_free b i)) ltac:(intros i _ ->; done)). lia.
Qed.

(** ** Serialization *)

Lemma height_for_le f c : (height_for f c <= S f)%nat.
Proof. revert c. induction f as [|f IH]; intros c; unfold height_for; [lia|]. fold height_for. destruct (_ <? _); [|lia]. specialize (IH (div_ceil c 64)). lia. Qed.

(** The bitmaps of an allocator of at most [2^20] pages, written and read back. *)
Lemma serialize_bitmaps_ok L f :
  L <= 2 ^ 17 -> Forall (fun bm => bwf bm /\ blen bm <= 8 * L /\ (bheight bm <= 7)%nat) f ->
  exists vecs f', omap_list BtreeBitmap.to_vec f = Ret vecs /\
    Forall2 (fun bm' v => BtreeBitmap.from_bytes v = Ret bm') f' vecs /\
    vlen (concat vecs) <= vlen f * (32 + 7 * (L + 12)) /\
    Forall2 (fun bm bm' => bwf bm' /\ blen bm' = blen bm /\ bheight bm' = bheight bm /\
      forall j, 0 <= j -> bbit bm' j = bbit bm j) f f'.
Proof.
  intros HL. induction f as [|bm f IH]; intros Hf.
  { exists [], []. split_and!; try constructor. done. }
  apply Forall_cons in Hf as [(Hwf & Hl & Hh) Hf]. destruct (IH Hf) as (vecs & f' & Hv & Hr & Hsz & H2).
  destruct (bt_serialize_spec bm L Hwf Hl ltac:(lia) Hh) as (v & bm' & Hv1 & Hsz1 & Hr1 & Hspec).
  exists (v :: vecs), (bm' :: f'). cbn [omap_list]. rewrite Hv1. cbn [mbind outcome_bind]. rewrite Hv.
  split; [done|]. split; [by constructor|]. split; [|by constructor].
  cbn [concat]. rewrite vlen_app. unfold vlen at 3. cbn [length]. unfold vlen in *. lia.
Qed.

(** Two allocators whose bitmaps have the same bits have the same view. *)
Lemma same_bitmaps_ok cap n f f' l mo :
  bud_ok cap n (BuddyAllocator.mk f l mo) ->
  Forall2 (fun bm bm' => bwf bm' /\ blen bm' = blen bm /\ bheight bm' = bheight bm /\
      forall j, 0 <= j -> bbit bm' j = bbit bm j) f f' ->
  bud_ok cap n (BuddyAllocator.mk f' l mo) /\
  view_eq (fa (BuddyAllocator.mk f' l mo)) (fa (BuddyAllocator.mk f l mo)).
Proof.
  intros [Hb Hv] H2. pose proof (Forall2_length _ _ _ H2) as Hlen.
  assert (Heq : view_eq (fa (BuddyAllocator.mk f' l mo)) (fa (BuddyAllocator.mk f l mo))).
  { intros o p. unfold fa; simpl. destruct (Z.leb_spec 0 p); [|by rewrite !andb_false_r].
    destruct (f !! Z.to_nat o) as [bm|] eqn:E.
    - destruct (Forall2_lookup_l _ _ _ _ _ H2 E) as (bm' & -> & _ & _ & _ & Hbit). by rewrite Hbit.
    - by rewrite (lookup_ge_None_2 f') by (apply lookup_ge_None in E; lia). }
  split; [|done]. split; [|by rewrite Heq]. destruct Hb as [Hmo Hf Hc Hbm]. split; simpl in *; [done| |done|].
  - unfold vlen in *. lia.
  - intros o bm' Ho E. destruct (Forall2_lookup_r _ _ _ _ _ H2 E) as (bm & E0 & Hwf & Hl & Hh & _).
    destruct (Hbm o bm Ho E0) as (_ & <- & <-). done.
Qed.

Lemma to_vec_from_bytes cap b :
  bud_ok cap (BuddyAllocator.len b) b -> cap <= MAX_PAGE_INDEX + 1 ->
  exists v b', BuddyAllocator.to_vec b = Ret v /\ BuddyAllocator.from_bytes v = Ret b' /\
    same_shape b b' /\ bud_ok cap (BuddyAllocator.len b) b' /\ view_eq (fa b') (fa b).
Proof.
  intros Hb Hcap. change (MAX_PAGE_INDEX + 1) with (2 ^ 20) in Hcap. destruct b as [f l mo]. simpl in *.
  pose proof (proj1 Hb) as [Hmo Hlen [Hlc _] Hbm]. simpl in *. change MAX_MAX_PAGE_ORDER with 20 in Hmo.
  destruct (serialize_bitmaps_ok (2 ^ 17) f ltac:(lia)) as (vecs & f' & Hv & Hr & Hsz & H2).
  { apply Forall_lookup. intros i bm Hi. destruct (Hbm (Z.of_nat i) bm ltac:(lia)) as (? & -> & ->);
      [by rewrite Nat2Z.id|]. split; [done|]. split; [|apply height_for_le].
    apply Z.div_le_upper_bound; [apply Z.pow_pos_nonneg; lia|].
    assert (0 < 2 ^ Z.of_nat i) by (apply Z.pow_pos_nonneg; lia). nia. }
  destruct (same_bitmaps_ok cap l f f' l mo Hb H2) as [Hok Heq].
  assert (Hvl : length vecs = length f) by (rewrite <-(Forall2_length _ _ _ Hr), (Forall2_length _ _ _ H2); done).
  unfold BuddyAllocator.to_vec. cbn [free BuddyAllocator.len max_order]. rewrite Hv. cbn [mbind outcome_bind].
  destruct (end_offsets_ok vecs (1 + 3 + 4 + (mo + 1) * 4)) as [ends He]; [lia|lia|].
  change (1 + 3 + 4) with 8 in *. rewrite He. cbn [mbind outcome_bind].
  eexists _, (BuddyAllocator.mk f' l mo). split; [done|]. split; [|done].
  set (h := [mo] ++ [0; 0; 0] ++ to_le_bytes 4 l). assert (Hh : vlen h = 8) by done.
  unfold BuddyAllocator.from_bytes.
  rewrite (vget_ok _ 0 mo) by done. cbn [mbind outcome_bind].
  replace (slice (h ++ ends ++ concat vecs) 4 8) with (Ret (to_le_bytes 4 l)).
  2:{ symmetry. change h with ([mo; 0; 0; 0] ++ to_le_bytes 4 l). rewrite <-app_assoc.
      by apply (slice_middle [mo; 0; 0; 0]). }
  cbn [mbind outcome_bind]. rewrite from_to_le_bytes by (simpl; lia).
  pose proof (end_offsets_len _ _ _ He) as Hel.
  pose proof (read_sections_spec BtreeBitmap.from_bytes (fun x => x) f' vecs h [] ends 8 (8 + (mo + 1) * 4) Hr He) as Hrs.
  replace (Z.to_nat (mo + 1)) with (length f') by (rewrite <-(Forall2_length _ _ _ H2); unfold vlen in Hlen; lia).
  change ([] ++ concat vecs) with (concat vecs) in Hrs. rewrite Hrs, map_id; [done|done|].
  rewrite Hh, Hel. unfold vlen in *. simpl. lia.
Qed.

(** ** [alloc_lowest] *)

(** A marked block that misses the pages taken stays marked. *)
Lemma view_keep mo n F G o p bo bi :
  view_ok mo n F -> view_ok mo n G -> (forall q, pfree G q <-> pfree F q /\ q / 2 ^ bo <> bi) ->
  F o p = true -> (forall q, q / 2 ^ o = p -> q / 2 ^ bo <> bi) -> G o p = true.
Proof.
  intros HF HG Hq H Hdis. apply (view_canonical _ _ _ _ _ HG).
  apply (view_canonical _ _ _ _ _ HF) in H as (Ho & Hall & Hpar). split; [done|]. split.
  - intros q Hin. apply Hq. split; [by apply Hall|by apply Hdis].
  - destruct Hpar as [|Hpar]; [by left|right]. intros HallG. apply Hpar. intros q Hin. by apply Hq, HallG.
Qed.

Import BuddyAllocator (ls_alloc, ls_multiplier, ls_best_index, ls_best, lowest).

Section lowest.
  Context (cap n : Z) (b : BuddyAllocator.t) (order : Z).
  Hypothesis Hb : bud_ok cap n b.
  Hypothesis Horder : 0 <= order.

(** The search has seen the orders below [i]: the best page is the first part of
    a marked block, it is taken, and no marked block of those orders starts
    below it. *)
Record lowest_inv (i : Z) (s : BuddyAllocator.lowest_state) : Prop := {
  li_order : order <= (ls_best s).2 < i /\ (ls_best s).2 <= max_order b;
  li_mult : ls_multiplier s = 2 ^ (i - order);
  li_index : ls_best_index s = (ls_best s).1 * 2 ^ ((ls_best s).2 - order);
  li_range : 0 <= (ls_best s).1 < n / 2 ^ (ls_best s).2;
  li_state : steps_to cap n b (ls_alloc s) (fun q => pfree (fa b) q /\ q / 2 ^ (ls_best s).2 <> (ls_best s).1);
  li_first : exists k P, 0 <= k /\ fa b ((ls_best s).2 + k) P = true /\ (ls_best s).1 = P * 2 ^ k;
  li_least : forall o p, order <= o < i -> fa b o p = true -> ls_best_index s <= p * 2 ^ (o - order) }.

Lemma pow2_split a c d : 0 <= a <= c -> c <= d -> 2 ^ (d - a) = 2 ^ (d - c) * 2 ^ (c - a).
Proof. intros. rewrite <-Z.pow_add_r by lia. f_equal. lia. Qed.

(** A marked block of the start either holds the best page, which is then its
    first part, or is still marked. *)
Lemma li_marked i s o p :
  lowest_inv i s -> i <= o -> fa b o p = true ->
  ls_best_index s = p * 2 ^ (o - order) \/ fa (ls_alloc s) o p = true.
Proof.
  intros [Ho _ Hidx Hr (Hst & [_ Hm] & Hq) (k & P & Hk & HP & Hbi) _] Hio HF.
  destruct (ls_best s) as [bi bo]. simpl in *.
  destruct (decide (bi / 2 ^ (o - bo) = p)) as [E|Hne].
  - left. assert (bo + k = o) as Hbo.
    { apply (vo_once _ _ _ (proj2 Hb) (bi * 2 ^ bo)).
      - by rewrite div_pow2_add, block_first, Hbi, block_first by lia.
      - replace o with (bo + (o - bo)) by lia. rewrite div_pow2_add, block_first by lia. rewrite E.
        by replace (bo + (o - bo)) with o by lia. }
    assert (P = p) as ->.
    { rewrite <-E, Hbi. replace (o - bo) with k by lia. by rewrite block_first by lia. }
    rewrite Hidx, Hbi. replace k with (o - bo) by lia. rewrite (pow2_split order bo o) by lia. lia.
  - right. apply (view_keep (max_order b) n (fa b) (fa (ls_alloc s)) o p bo bi); [apply Hb| |done|done|].
    + rewrite <-Hm. apply Hst.
    + intros q Hin Hb'. apply Hne. rewrite <-Hin, <-Hb', <-div_pow2_add by lia. f_equal. f_equal. lia.
Qed.

(** What the search found at order [i]. *)
Lemma li_found i s x :
  lowest_inv i s -> 0 <= x < n / 2 ^ i -> first_fit (fa (ls_alloc s)) i x ->
  (forall q, q / 2 ^ i = x -> pfree (fa (ls_alloc s)) q) ->
  (forall p, fa b i p = true -> Z.min (ls_best_index s) (x * 2 ^ (i - order)) <= p * 2 ^ (i - order)) /\
  (x * 2 ^ (i - order) < ls_best_index s -> exists k P, 0 <= k /\ fa b (i + k) P = true /\ x = P * 2 ^ k).
Proof.
  intros HI Hx (k' & P' & Hk' & Hx' & HP' & Hlow & Hnone) Hin.
  pose proof (li_order _ _ HI) as Ho.
  assert (0 < 2 ^ (i - order)) by (apply Z.pow_pos_nonneg; lia). split.
  - intros p Hp. destruct (li_marked i s i p HI ltac:(lia) Hp) as [E|HF]; [lia|].
    destruct (decide (k' = 0)) as [->|]; [|rewrite Hnone in HF by lia; done].
    rewrite Z.add_0_r, Z.pow_0_r, Z.mul_1_r in *. subst x.
    destruct (Z.lt_ge_cases p P') as [Hlt|]; [rewrite Hlow in HF by lia; done|]. nia.
  - intros Hlt. assert (0 <= i <= max_order b) as Hi.
    { split; [lia|]. destruct (li_state _ _ HI) as (Hst & [_ <-] & _).
      apply (vo_range _ _ _ (proj2 Hst)) in HP'. lia. }
    destruct (view_cover (max_order b) n (fa b) i x (proj2 Hb) Hi) as (k & Hk & Hc).
    { intros q Hq. by apply (li_state _ _ HI), Hin. }
    assert (0 < 2 ^ k) by (apply Z.pow_pos_nonneg; lia).
    pose proof (Z.mul_div_le x (2 ^ k) ltac:(lia)) as Hle.
    destruct (li_marked i s (i + k) (x / 2 ^ k) HI ltac:(lia) Hc) as [E|HF].
    + exfalso. rewrite (pow2_split order i (i + k)) in E by lia. replace (i + k - i) with k in E by lia. nia.
    + exists k, (x / 2 ^ k). split; [done|]. split; [done|].
      destruct (li_state _ _ HI) as (Hst & _ & _).
      assert (i + k = i + k') as Hkk.
      { apply (vo_once _ _ _ (proj2 Hst) (x * 2 ^ i)); [by rewrite div_pow2_add, block_first by lia|].
        by rewrite div_pow2_add, block_first, Hx', block_first by lia. }
      assert (k = k') as -> by lia. rewrite Hx', block_first by lia. done.
Qed.

(** The state after order [i], with the best page kept or replaced. *)
Lemma li_keep i s b' m :
  lowest_inv i s -> m = 2 ^ (i + 1 - order) ->
  steps_to cap n (ls_alloc s) b' (fun q => pfree (fa (ls_alloc s)) q) ->
  (forall p, fa b i p = true -> ls_best_index s <= p * 2 ^ (i - order)) ->
  lowest_inv (i + 1) (lowest b' m (ls_best_index s) (ls_best s)).
Proof.
  intros [Ho Hmul Hidx Hr (Hst & [Hs Hm] & Hq) Hfirst Hleast] -> (Hb' & [Hs' Hm'] & Hq') Hnew.
  split; simpl; try done; [lia| |].
  - split; [done|]. split; [split; congruence|]. intros q. by rewrite Hq', Hq.
  - intros o p Ho' HF. destruct (decide (o = i)) as [->|]; [by apply Hnew|]. apply Hleast; [lia|done].
Qed.

Lemma li_replace i s b' x m :
  lowest_inv i s -> i <= max_order b -> m = 2 ^ (i + 1 - order) -> 0 <= x < n / 2 ^ i ->
  x * 2 ^ (i - order) < ls_best_index s ->
  steps_to cap n b b' (fun q => pfree (fa b) q /\ q / 2 ^ i <> x) ->
  (exists k P, 0 <= k /\ fa b (i + k) P = true /\ x = P * 2 ^ k) ->
  (forall p, fa b i p = true -> x * 2 ^ (i - order) <= p * 2 ^ (i - order)) ->
  lowest_inv (i + 1) (lowest b' m (x * 2 ^ (i - order)) (x, i)).
Proof.
  intros [Ho Hmul Hidx Hr Hst Hfirst Hleast] Hi -> Hx Hlt Hst' Hf Hnew.
  split; simpl; try done; [lia|].
  intros o p Ho' HF. destruct (decide (o = i)) as [->|]; [by apply Hnew|].
  specialize (Hleast o p ltac:(lia) HF). lia.
Qed.

(** Giving back the old best page. *)
Lemma li_swap i s b1 x :
  lowest_inv i s -> 0 <= x < n / 2 ^ i -> (forall q, q / 2 ^ i = x -> pfree (fa (ls_alloc s)) q) ->
  steps_to cap n (ls_alloc s) b1 (fun q => pfree (fa (ls_alloc s)) q /\ q / 2 ^ i <> x) ->
  exists b', BuddyAllocator.free_inner b1 (ls_best s).1 (ls_best s).2 = Ret b' /\
    steps_to cap n b b' (fun q => pfree (fa b) q /\ q / 2 ^ i <> x).
Proof.
  intros [Ho _ _ Hr (Hst & [Hs Hm] & Hq) (k & P & Hk & HP & Hbi) _] Hx Hin (Hb1 & [Hs1 Hm1] & Hq1).
  destruct (ls_best s) as [bi bo]. simpl in *.
  destruct (free_inner_spec cap n b1 bi bo Hb1) as (b' & Hrun & Hb' & [Hs' Hm'] & Hq').
  - lia.
  - done.
  - intros q Hqb. rewrite Hq1, Hq. intuition.
  - exists b'. split; [done|]. split; [done|]. split; [split; congruence|]. intros q. rewrite Hq', Hq1, Hq.
    assert (Hfree : q / 2 ^ bo = bi -> pfree (fa b) q).
    { intros E. apply (fa_pfree b bo k bi); [lia|lia|by rewrite Hbi, block_first by lia|done]. }
    assert (Hdis : q / 2 ^ bo = bi -> q / 2 ^ i <> x).
    { intros E Ex. apply Hin, Hq in Ex as [_ Ex]. done. }
    destruct (decide (q / 2 ^ bo = bi)); intuition.
Qed.

(** Giving back the page found. *)
Lemma li_restore i s b1 x :
  lowest_inv i s -> i <= max_order b -> 0 <= x < n / 2 ^ i ->
  (forall q, q / 2 ^ i = x -> pfree (fa (ls_alloc s)) q) ->
  steps_to cap n (ls_alloc s) b1 (fun q => pfree (fa (ls_alloc s)) q /\ q / 2 ^ i <> x) ->
  exists b', BuddyAllocator.free_inner b1 x i = Ret b' /\
    steps_to cap n (ls_alloc s) b' (fun q => pfree (fa (ls_alloc s)) q).
Proof.
  intros [Ho _ _ _ (_ & [_ Hm] & _) _ _] Hi Hx Hin (Hb1 & [Hs1 Hm1] & Hq1).
  destruct (free_inner_spec cap n b1 x i Hb1) as (b' & Hrun & Hb' & [Hs' Hm'] & Hq').
  - lia.
  - done.
  - intros q Hqx. rewrite Hq1. intuition.
  - exists b'. split; [done|]. split; [done|]. split; [split; congruence|]. intros q. rewrite Hq', Hq1.
    specialize (Hin q). destruct (decide (q / 2 ^ i = x)); intuition.
Qed.

Lemma lowest_step_ok i s :
  lowest_inv i s -> i <= max_order b ->
  exists s', BuddyAllocator.lowest_step i s = Ret s' /\ lowest_inv (i + 1) s'.
Proof.
  intros HI Hi. pose proof HI as [Ho Hmul Hidx Hr (Hst & _) Hfirst Hleast].
  pose proof (bo_cap _ _ _ (proj1 Hb)) as Hcap. pose proof (bo_order _ _ _ (proj1 Hb)) as Hmo.
  change MAX_MAX_PAGE_ORDER with 20 in Hmo.
  assert (Hmulb : 0 < 2 ^ (i - order) <= 2 ^ 20) by (split; [apply Z.pow_pos_nonneg|apply Z.pow_le_mono_r]; lia).
  assert (Hmult2 : umul 32 (2 ^ (i - order)) 2 = Ret (2 ^ (i + 1 - order))).
  { rewrite umul_ok by lia. f_equal. replace (i + 1 - order) with (i - order + 1) by lia.
    by rewrite Z.pow_add_r, Z.pow_1_r by lia. }
  unfold BuddyAllocator.lowest_step.
  destruct (alloc_inner_spec cap n (ls_alloc s) i Hst ltac:(lia)) as (b1 & r & -> & Hr1). cbn [mbind outcome_bind fst snd].
  destruct r as [x|].
  - destruct Hr1 as (_ & Hx & Hff & Hin & Hst1).
    destruct (li_found i s x HI Hx Hff Hin) as [Hleast' Hfirst']. rewrite Hmul.
    assert (x * 2 ^ (i - order) <= n).
    { assert (x <= n / 2 ^ i) by lia. pose proof (Z.mul_div_le n (2 ^ i) ltac:(apply Z.pow_pos_nonneg; lia)).
      assert (2 ^ (i - order) <= 2 ^ i) by (apply Z.pow_le_mono_r; lia). nia. }
    rewrite umul_ok by lia. cbn [mbind outcome_bind].
    destruct (Z.ltb_spec (x * 2 ^ (i - order)) (ls_best_index s)) as [Hlt|Hge].
    + destruct (li_swap i s b1 x HI Hx Hin Hst1) as (b' & -> & Hst'). cbn [mbind outcome_bind ls_multiplier].
      rewrite Hmult2. cbn [mbind outcome_bind]. eexists. split; [done|]. cbn [ls_alloc ls_best_index ls_best].
      apply (li_replace i s); try done; [by apply Hfirst'|]. intros p Hp. specialize (Hleast' p Hp). lia.
    + destruct (li_restore i s b1 x HI Hi Hx Hin Hst1) as (b' & -> & Hst'). cbn [mbind outcome_bind ls_multiplier].
      rewrite Hmult2. cbn [mbind outcome_bind]. eexists. split; [done|]. cbn [ls_alloc ls_best_index ls_best].
      apply li_keep; try done. intros p Hp. specialize (Hleast' p Hp). lia.
  - destruct Hr1 as [-> Hnone]. cbn [mbind outcome_bind ls_multiplier]. rewrite Hmul, Hmult2.
    cbn [mbind outcome_bind]. eexists. split; [done|]. cbn [ls_alloc ls_best_index ls_best].
    apply li_keep; try done.
    intros p Hp. destruct (li_marked i s i p HI ltac:(lia) Hp) as [->|HF]; [lia|]. by rewrite Hnone in HF by lia.
Qed.

Lemma lowest_loop_ok k : forall i s,
  lowest_inv i s -> max_order b - i + 1 = Z.of_nat k ->
  exists s', for_each BuddyAllocator.lowest_step (BuddyAllocator.orders i (max_order b)) s = Ret s' /\
    lowest_inv (max_order b + 1) s'.
Proof.
  induction k as [|k IH]; intros i s HI Hk; unfold BuddyAllocator.orders.
  { rewrite seqZ_nil by lia. exists s. by replace (max_order b + 1) with i by lia. }
  rewrite seqZ_cons by lia. cbn [for_each].
  destruct (lowest_step_ok i s HI ltac:(lia)) as (s1 & -> & HI1). cbn [mbind outcome_bind].
  destruct (IH (i + 1) s1 HI1 ltac:(lia)) as (s2 & Hrun & HI2). exists s2. split; [|done].
  rewrite <-Hrun. unfold BuddyAllocator.orders. f_equal. f_equal; lia.
Qed.

(** Splitting block [bi] of order [order + k] down to order [order]. *)
Lemma split_loop_ok k : forall b1 bi,
  steps_to cap n b b1 (fun q => pfree (fa b) q /\ q / 2 ^ (order + Z.of_nat k) <> bi) ->
  order + Z.of_nat k <= max_order b -> 0 <= bi < n / 2 ^ (order + Z.of_nat k) ->
  (forall q, q / 2 ^ (order + Z.of_nat k) = bi -> pfree (fa b) q) ->
  exists b2, BuddyAllocator.split_loop k b1 (bi, order + Z.of_nat k) = Ret (b2, (bi * 2 ^ Z.of_nat k, order)) /\
    steps_to cap n b b2 (fun q => pfree (fa b) q /\ q / 2 ^ order <> bi * 2 ^ Z.of_nat k).
Proof.
  induction k as [|k IH]; intros b1 bi Hst Hk Hbi Hin; cbn [BuddyAllocator.split_loop].
  { exists b1. change (Z.of_nat 0) with 0 in *. rewrite Z.add_0_r in *. by rewrite Z.mul_1_r. }
  replace (order + Z.of_nat (S k)) with (order + Z.of_nat k + 1) in * by lia.
  destruct Hst as (Hb1 & [Hs1 Hm1] & Hq1). cbn [fst snd].
  replace (order + Z.of_nat k + 1 - 1) with (order + Z.of_nat k) by lia.
  destruct (split_page_ok cap n b1 (order + Z.of_nat k) bi (pfree (fa b)) Hb1) as (b2 & -> & Hb2 & [Hs2 Hm2] & Hq2);
    [lia|lia|done|done|done|]. cbn [mbind outcome_bind fst snd].
  pose proof (half_range n (order + Z.of_nat k) bi ltac:(lia) ltac:(lia)).
  destruct (IH b2 (2 * bi)) as (b3 & Hrun & Hst3).
  - split; [done|]. split; [split; congruence|done].
  - lia.
  - lia.
  - intros q Hq. apply Hin, half_cases; [lia|by left].
  - exists b3. replace (bi * 2 ^ Z.of_nat (S k)) with (2 * bi * 2 ^ Z.of_nat k);
      [by rewrite Hrun|]. rewrite Nat2Z.inj_succ, Z.pow_succ_r by lia. lia.
Qed.

(** A wholly free block is in range. *)
Lemma free_block_range o x :
  0 <= o -> (forall q, q / 2 ^ o = x -> pfree (fa b) q) -> 0 <= x < n / 2 ^ o.
Proof.
  intros Ho Hin. assert (0 < 2 ^ o) by (apply Z.pow_pos_nonneg; lia).
  pose proof (pfree_range _ _ _ _ (proj2 Hb) (Hin (x * 2 ^ o) ltac:(apply block_first; lia))).
  pose proof (pfree_range _ _ _ _ (proj2 Hb) (Hin ((x + 1) * 2 ^ o - 1) ltac:(apply block_pages; lia))).
  split; [nia|]. apply Z.lt_le_trans with (x + 1); [lia|]. apply Z.div_le_lower_bound; lia.
Qed.

(** When every order has been searched, the best page is the lowest one. *)
Lemma lowest_final s y :
  lowest_inv (max_order b + 1) s -> (forall q, q / 2 ^ order = y -> pfree (fa b) q) -> ls_best_index s <= y.
Proof.
  intros [Ho _ _ _ _ _ Hleast] Hy.
  destruct (view_cover (max_order b) n (fa b) order y (proj2 Hb)) as (k & Hk & Hc); [lia|done|].
  pose proof (vo_range _ _ _ (proj2 Hb) _ _ Hc). specialize (Hleast (order + k) (y / 2 ^ k) ltac:(lia) Hc).
  replace (order + k - order) with k in Hleast by lia.
  pose proof (Z.mul_div_le y (2 ^ k) ltac:(apply Z.pow_pos_nonneg; lia)). lia.
Qed.

(** The pages of the best page at the requested order. *)
Lemma lowest_pages i s q :
  lowest_inv i s -> q / 2 ^ order = ls_best_index s -> q / 2 ^ (ls_best s).2 = (ls_best s).1.
Proof.
  intros [Ho _ Hidx _ _ _ _] Hq. set (bo := (ls_best s).2) in *.
  replace bo with (order + (bo - order)) by lia. rewrite div_pow2_add, Hq, Hidx by lia. apply block_first. lia.
Qed.

(** The start of the search. *)
Lemma lowest_init b1 x :
  order <= max_order b -> 0 <= x < n / 2 ^ order -> first_fit (fa b) order x ->
  steps_to cap n b b1 (fun q => pfree (fa b) q /\ q / 2 ^ order <> x) ->
  lowest_inv (order + 1) (lowest b1 2 x (x, order)).
Proof.
  intros Ho Hx (k & P & Hk & Hxk & HP & Hlow & Hnone) Hst.
  split; simpl; [lia| |by rewrite Z.sub_diag, Z.mul_1_r|done|done|by exists k, P|].
  - by replace (order + 1 - order) with 1 by lia.
  - intros o p Ho' HF. assert (o = order) as -> by lia. rewrite Z.sub_diag, Z.mul_1_r.
    destruct (decide (k = 0)) as [->|]; [|rewrite Hnone in HF by lia; done].
    rewrite Z.add_0_r, Z.mul_1_r in *. subst x. destruct (Z.lt_ge_cases p P); [rewrite Hlow in HF by lia; done|done].
Qed.

(** [alloc_lowest] takes the lowest free block of the order, and fails only when
    there is none. *)
Lemma alloc_lowest_spec :
  exists b' r, BuddyAllocator.alloc_lowest b order = Ret (b', r) /\
    match r with
    | None => b' = b /\ forall o p, order <= o -> fa b o p = false
    | Some x => order <= max_order b /\ 0 <= x < n / 2 ^ order /\
        (forall q, q / 2 ^ order = x -> pfree (fa b) q) /\
        (forall y, (forall q, q / 2 ^ order = y -> pfree (fa b) q) -> x <= y) /\
        steps_to cap n b b' (fun q => pfree (fa b) q /\ q / 2 ^ order <> x)
    end.
Proof.
  unfold BuddyAllocator.alloc_lowest.
  destruct (alloc_inner_spec cap n b order Hb Horder) as (b1 & r & -> & Hr). cbn [mbind outcome_bind fst snd].
  destruct r as [x|]; [|by exists b1, None].
  destruct Hr as (Ho & Hx & Hff & Hin & Hst).
  destruct (lowest_loop_ok (Z.to_nat (max_order b - order)) (order + 1) (lowest b1 2 x (x, order)))
    as (s & -> & HI); [by apply lowest_init|lia|].
  cbn [mbind outcome_bind]. pose proof HI as [Ho1 _ Hidx Hr Hst1 (k1 & P1 & Hk1 & HP1 & Hbi) _].
  assert (Hbest : forall q, q / 2 ^ (ls_best s).2 = (ls_best s).1 -> pfree (fa b) q).
  { intros q Hq. apply (fa_pfree b (ls_best s).2 k1 (ls_best s).1); [lia|lia|by rewrite Hbi, block_first by lia|done]. }
  assert (Hall : forall q, q / 2 ^ order = ls_best_index s -> pfree (fa b) q)
    by (intros q Hq; by eapply Hbest, lowest_pages).
  pose proof (fun y => lowest_final s y HI) as Hmin.
  destruct (ls_best s) as [bi bo]. cbn [fst snd] in *.
  destruct (split_loop_ok (Z.to_nat (bo - order)) (ls_alloc s) bi) as (b2 & Hrun & Hst2);
    rewrite ?Z2Nat.id in * by lia; replace (order + (bo - order)) with bo in * by lia; [done|lia|done|done|].
  rewrite Hrun. cbn [mbind outcome_bind fst snd]. rewrite <-Hidx in *. rewrite Z.eqb_refl. cbn [rassert mbind outcome_bind].
  exists b2, (Some (ls_best_index s)). split; [done|]. split; [done|]. split; [by apply free_block_range|]. done.
Qed.

End lowest.

(** * Refinement: an allocator of aligned blocks of pages *)

(** The calls of the region layer. *)
Inductive buddy_op :=
| BAlloc (order : Z)
| BAllocLowest (order : Z)
| BRecord (page order : Z)
| BFree (page order : Z)
| BResize (pages : Z).

Definition buddy_run (b : BuddyAllocator.t) (op : buddy_op) : outcome (BuddyAllocator.t * option Z) :=
  match op with
  | BAlloc o => BuddyAllocator.alloc b o
  | BAllocLowest o => BuddyAllocator.alloc_lowest b o
  | BRecord p o => b' ← BuddyAllocator.record_alloc b p o; Ret (b', None)
  | BFree p o => b' ← BuddyAllocator.free_page b p o; Ret (b', None)
  | BResize n => b' ← BuddyAllocator.resize b n; Ret (b', None)
  end.

Fixpoint buddy_exec (b : BuddyAllocator.t) (ops : list buddy_op) : outcome (BuddyAllocator.t * list (option Z)) :=
  match ops with
  | [] => Ret (b, [])
  | op :: rest => r ← buddy_run b op; s ← buddy_exec r.1 rest; Ret (s.1, r.2 :: s.2)
  end.

(** The contract: a number of pages and the set of the free ones. *)
Record pages := mk_pages { p_len : Z; p_free : Z -> Prop }.

(** Every page of block [p] of order [o] is free, or none is. *)
Definition block_free (s : pages) (o p : Z) : Prop := forall q, q / 2 ^ o = p -> p_free s q.
Definition block_taken (s : pages) (o p : Z) : Prop := forall q, q / 2 ^ o = p -> ~ p_free s q.

(** The pages of [s'] are those of [s] without, or with, a block. *)
Definition take_block (s s' : pages) (o p : Z) : Prop :=
  p_len s' = p_len s /\ forall q, p_free s' q <-> p_free s q /\ q / 2 ^ o <> p.
Definition give_block (s s' : pages) (o p : Z) : Prop :=
  p_len s' = p_len s /\ forall q, p_free s' q <-> p_free s q \/ q / 2 ^ o = p.
Definition same_pages (s s' : pages) : Prop :=
  p_len s' = p_len s /\ forall q, p_free s' q <-> p_free s q.

(** When a call is allowed, with [mo] the highest order and [cap] the capacity. *)
Definition buddy_pre (cap mo : Z) (s : pages) (op : buddy_op) : Prop :=
  match op with
  | BAlloc o | BAllocLowest o => 0 <= o
  | BRecord p o => 0 <= o <= mo /\ block_free s o p
  | BFree p o => 0 <= o <= mo /\ 0 <= p < p_len s / 2 ^ o /\ block_taken s o p
  | BResize n => 0 <= n <= cap /\ (0 < p_len s \/ n = 0) /\ forall q, n <= q < p_len s -> p_free s q
  end.

(** What a call may return and do. *)
Definition buddy_post (mo : Z) (s : pages) (op : buddy_op) (r : option Z) (s' : pages) : Prop :=
  match op, r with
  | BAlloc o, Some x => block_free s o x /\ take_block s s' o x
  | BAllocLowest o, Some x =>
      block_free s o x /\ (forall y, block_free s o y -> x <= y) /\ take_block s s' o x
  | (BAlloc o | BAllocLowest o), None => same_pages s s' /\ (o <= mo -> forall y, ~ block_free s o y)
  | BRecord p o, None => take_block s s' o p
  | BFree p o, None => give_block s s' o p
  | BResize n, None => p_len s' = n /\ forall q, p_free s' q <-> (p_free s q /\ q < n) \/ p_len s <= q < n
  | _, _ => False
  end.

(** A sequence of calls each allowed whatever the earlier ones returned. *)
Fixpoint buddy_legal (cap mo : Z) (s : pages) (ops : list buddy_op) : Prop :=
  match ops with
  | [] => True
  | op :: rest => buddy_pre cap mo s op /\ forall r s', buddy_post mo s op r s' -> buddy_legal cap mo s' rest
  end.

(** The runs of the contract. *)
Inductive buddy_trace (mo : Z) : pages -> list buddy_op -> list (option Z) -> pages -> Prop :=
| trace_nil s : buddy_trace mo s [] [] s
| trace_cons s op r s1 ops rs s2 :
    buddy_post mo s op r s1 -> buddy_trace mo s1 ops rs s2 -> buddy_trace mo s (op :: ops) (r :: rs) s2.

(** The pages an allocator represents. *)
Definition pages_of (b : BuddyAllocator.t) : pages := mk_pages (BuddyAllocator.len b) (pfree (fa b)).

Lemma no_block cap b o :
  bud_ok cap (BuddyAllocator.len b) b -> 0 <= o -> (forall o' p, o <= o' -> fa b o' p = false) ->
  o <= max_order b -> forall y, ~ block_free (pages_of b) o y.
Proof.
  intros Hb Ho Hnone Hmo y Hy.
  destruct (view_cover (max_order b) (BuddyAllocator.len b) (fa b) o y (proj2 Hb)) as (k & Hk & Hc); [lia|done|].
  rewrite Hnone in Hc by lia. done.
Qed.

Lemma free_page_spec cap n b p o :
  bud_ok cap n b -> 0 <= o <= max_order b -> 0 <= p < n / 2 ^ o ->
  (forall q, q / 2 ^ o = p -> ~ pfree (fa b) q) ->
  exists b', BuddyAllocator.free_page b p o = Ret b' /\
    steps_to cap n b b' (fun q => pfree (fa b) q \/ q / 2 ^ o = p).
Proof.
  intros Hb Ho Hp Hno. unfold BuddyAllocator.free_page.
  destruct (get_at_ok cap n b o p (proj1 Hb) Ho Hp) as (bm & -> & _ & Hg). cbn [mbind outcome_bind].
  rewrite Hg. cbn [mbind outcome_bind]. rewrite (fa_in_taken b o 0 p p); [|lia|lia|by rewrite Z.add_0_r|by rewrite Z.div_1_r].
  cbn [negb rassert mbind outcome_bind]. by apply free_inner_spec.
Qed.

(** A result that [steps_to] describes, as pages. *)
Lemma steps_to_pages cap b b' P :
  steps_to cap (BuddyAllocator.len b) b b' P ->
  bud_ok cap (BuddyAllocator.len b') b' /\ max_order b' = max_order b /\
  BuddyAllocator.len b' = BuddyAllocator.len b /\ forall q, pfree (fa b') q <-> P q.
Proof. intros (Hb & [Hl Hm] & Hq). rewrite Hl. done. Qed.

Lemma buddy_run_refines cap b op :
  bud_ok cap (BuddyAllocator.len b) b -> buddy_pre cap (max_order b) (pages_of b) op ->
  exists b' r, buddy_run b op = Ret (b', r) /\ buddy_post (max_order b) (pages_of b) op r (pages_of b') /\
    bud_ok cap (BuddyAllocator.len b') b' /\ max_order b' = max_order b.
Proof.
  intros Hb Hpre. destruct op as [o|o|p o|p o|n]; cbn [buddy_pre buddy_run buddy_post] in *.
  - destruct (alloc_inner_spec _ _ b o Hb Hpre) as (b' & r & Hrun & Hr). exists b', r. split; [done|].
    destruct r as [x|].
    + destruct Hr as (_ & _ & _ & Hin & (? & ? & ? & ?)%steps_to_pages). done.
    + destruct Hr as [-> Hnone]. split; [|done]. split; [done|]. by eapply no_block.
  - destruct (alloc_lowest_spec _ _ b o Hb Hpre) as (b' & r & Hrun & Hr). exists b', r. split; [done|].
    destruct r as [x|].
    + destruct Hr as (_ & _ & Hin & Hmin & (? & ? & ? & ?)%steps_to_pages). done.
    + destruct Hr as [-> Hnone]. split; [|done]. split; [done|]. by eapply no_block.
  - destruct Hpre as [Ho Hfree]. unfold BuddyAllocator.record_alloc.
    rewrite (proj2 (Z.leb_le _ _)) by lia. cbn [rassert mbind outcome_bind].
    destruct (record_alloc_inner_spec _ _ b p o Hb Ho) as (b' & -> & Hst); [|done|].
    { eapply free_block_range; [done|lia|done]. }
    apply steps_to_pages in Hst as (? & ? & ? & ?). by exists b', None.
  - destruct Hpre as (Ho & Hp & Htaken).
    destruct (free_page_spec _ _ b p o Hb Ho Hp Htaken) as (b' & -> & Hst).
    apply steps_to_pages in Hst as (? & ? & ? & ?). by exists b', None.
  - destruct Hpre as (Hn & Hl & Hfree).
    destruct (resize_spec cap b n Hb Hn Hl Hfree) as (b' & -> & Hb' & Hl' & Hm' & Hq).
    exists b', None. split; [done|]. split; [done|]. by rewrite Hl'.
Qed.

Lemma buddy_exec_refines cap ops : forall b,
  bud_ok cap (BuddyAllocator.len b) b -> buddy_legal cap (max_order b) (pages_of b) ops ->
  exists b' rs, buddy_exec b ops = Ret (b', rs) /\ buddy_trace (max_order b) (pages_of b) ops rs (pages_of b') /\
    bud_ok cap (BuddyAllocator.len b') b'.
Proof.
  induction ops as [|op ops IH]; intros b Hb Hlegal; cbn [buddy_exec].
  { exists b, []. split; [done|]. split; [constructor|done]. }
  destruct Hlegal as [Hpre Hrest]. destruct (buddy_run_refines cap b op Hb Hpre) as (b1 & r & -> & Hpost & Hb1 & Hm1).
  cbn [mbind outcome_bind fst snd].
  destruct (IH b1 Hb1) as (b2 & rs & -> & Ht & Hb2); [rewrite Hm1; by eapply Hrest|].
  exists b2, (r :: rs). split; [done|]. split; [|done]. rewrite Hm1 in Ht. by econstructor.
Qed.

(** The contract does not tell apart states with the same pages. *)
#[export] Instance same_pages_equiv : Equivalence same_pages.
Proof.
  split; [done|by intros ?? []; split|].
  intros s1 s2 s3 [H1 H2] [H3 H4]. split; [congruence|]. intros q. by rewrite H4.
Qed.

Lemma block_same s s0 o p :
  same_pages s s0 -> (block_free s o p <-> block_free s0 o p) /\ (block_taken s o p <-> block_taken s0 o p).
Proof. intros [_ H]. unfold block_free, block_taken. by setoid_rewrite H. Qed.

Lemma buddy_pre_same cap mo s s0 op : same_pages s s0 -> buddy_pre cap mo s op -> buddy_pre cap mo s0 op.
Proof.
  intros Hs. pose proof Hs as [Hl Hq]. destruct op as [o|o|p o|p o|n]; simpl; try done.
  - by rewrite (proj1 (block_same s s0 o p Hs)).
  - by rewrite (proj2 (block_same s s0 o p Hs)), Hl.
  - rewrite Hl. by setoid_rewrite Hq.
Qed.

Lemma buddy_post_same mo s s0 op r s' : same_pages s s0 -> buddy_post mo s op r s' -> buddy_post mo s0 op r s'.
Proof.
  intros Hs. pose proof Hs as [Hl Hq]. pose proof (fun o p => proj1 (block_same s s0 o p Hs)) as Hb.
  destruct op as [o|o|p o|p o|n], r as [x|]; simpl; unfold take_block, give_block, same_pages; try done;
    repeat setoid_rewrite Hb; repeat setoid_rewrite Hq; by rewrite ?Hl.
Qed.

Lemma buddy_legal_same cap mo s s0 ops : same_pages s s0 -> buddy_legal cap mo s ops -> buddy_legal cap mo s0 ops.
Proof.
  intros Hs. destruct ops as [|op ops]; [done|]. intros [Hpre Hrest]. split; [by eapply buddy_pre_same|].
  intros r s' Hpost. eapply Hrest, buddy_post_same; [|exact Hpost]. by symmetry.
Qed.

Lemma buddy_trace_same mo s s0 ops rs s' :
  same_pages s s0 -> buddy_trace mo s ops rs s' -> exists s1, buddy_trace mo s0 ops rs s1 /\ same_pages s' s1.
Proof.
  intros Hs Ht. destruct Ht as [s|s op r s1 ops rs s2 Hpost Ht].
  - exists s0. split; [constructor|done].
  - exists s2. split; [|done]. econstructor; [by eapply buddy_post_same|done].
Qed.

(** C27. A buddy allocator made by [new] implements the contract of an allocator of
    aligned blocks of pages: every sequence of [alloc], [alloc_lowest],
    [record_alloc], [free] and [resize] calls that the contract allows runs
    without a panic and gives results the contract allows.  An allocation
    returns a block all of whose pages were free, and fails only when no free
    block of that order exists; [alloc_lowest] returns the lowest one. *)
Theorem buddy_refines_pages n cap ops :
  0 <= n <= cap -> 0 < cap <= 2 ^ 30 ->
  buddy_legal cap (Z.min 20 (Z.log2 cap)) (mk_pages n (fun q => 0 <= q < n)) ops ->
  exists b b' rs s', BuddyAllocator.new n cap = Ret b /\ buddy_exec b ops = Ret (b', rs) /\
    buddy_trace (Z.min 20 (Z.log2 cap)) (mk_pages n (fun q => 0 <= q < n)) ops rs s' /\
    same_pages (pages_of b') s'.
Proof.
  intros Hn Hcap Hlegal. destruct (new_spec n cap Hn Hcap) as (b & Hnew & Hb & Hl & Hm & Hq).
  assert (Hs : same_pages (mk_pages n (fun q => 0 <= q < n)) (pages_of b)) by (by split).
  destruct (buddy_exec_refines cap ops b) as (b' & rs & Hrun & Ht & _).
  - by rewrite Hl.
  - rewrite Hm. by eapply buddy_legal_same.
  - rewrite Hm in Ht. destruct (buddy_trace_same _ _ (mk_pages n (fun q => 0 <= q < n)) _ _ _ (symmetry Hs) Ht) as (s' & Ht' & Hs').
    by exists b, b', rs, s'.
Qed.

Lemma buddy_refines_pages_witness :
  exists b b' rs s', BuddyAllocator.new 10 64 = Ret b /\
    buddy_exec b [BAlloc 1; BAllocLowest 0; BResize 13] = Ret (b', rs) /\
    buddy_trace 6 (mk_pages 10 (fun q => 0 <= q < 10)) [BAlloc 1; BAllocLowest 0; BResize 13] rs s' /\
    same_pages (pages_of b') s'.
Proof.
  apply (buddy_refines_pages 10 64); [lia|lia|].
  split; [simpl; lia|]. intros r1 s1 H1. split; [simpl; lia|]. intros r2 s2 H2. split; [|done].
  assert (p_len s1 = 10) by (destruct r1; simpl in H1; [by destruct H1 as (_ & ? & _)|by destruct H1 as ([? _] & _)]).
  assert (p_len s2 = 10) by (destruct r2; simpl in H2; [by destruct H2 as (_ & _ & -> & _)|by destruct H2 as ([-> _] & _)]).
  simpl. split; [lia|]. split; [lia|]. lia.
Defined.

(** C29. In every state such a sequence of calls reaches, the allocator is
    consistent: the check that debug builds run passes (no page is marked free
    at two orders, and no two buddies are both marked below the highest order),
    and the marked blocks are exactly the free blocks of maximal order. *)
Theorem buddy_reachable_consistent n cap ops b b' rs :
  0 <= n <= cap -> 0 < cap <= 2 ^ 30 ->
  buddy_legal cap (Z.min 20 (Z.log2 cap)) (mk_pages n (fun q => 0 <= q < n)) ops ->
  BuddyAllocator.new n cap = Ret b -> buddy_exec b ops = Ret (b', rs) ->
  BuddyAllocator.debug_check_consistency b' = Ret tt /\
  forall o p, fa b' o p = true <->
    0 <= o <= max_order b' /\ block_free (pages_of b') o p /\
    (o = max_order b' \/ ~ block_free (pages_of b') (o + 1) (p / 2)).
Proof.
  intros Hn Hcap Hlegal Hnew Hrun. destruct (new_spec n cap Hn Hcap) as (b0 & Hnew' & Hb & Hl & Hm & Hq).
  rewrite Hnew in Hnew'. injection Hnew' as <-.
  destruct (buddy_exec_refines cap ops b) as (b1 & rs1 & Hrun' & _ & Hb1); [by rewrite Hl| |].
  { rewrite Hm. eapply buddy_legal_same; [|exact Hlegal]. by split. }
  rewrite Hrun in Hrun'. injection Hrun' as <- <-. split; [by eapply debug_check_ok|].
  intros o p. by apply (view_canonical _ _ _ _ _ (proj2 Hb1)).
Qed.

Lemma buddy_reachable_consistent_witness :
  exists b, BuddyAllocator.new 6 64 = Ret b /\
  exists b' rs, buddy_exec b [BAlloc 0; BAllocLowest 1] = Ret (b', rs) /\
  BuddyAllocator.debug_check_consistency b' = Ret tt.
Proof.
  eexists. split; [vm_compute; reflexivity|]. eexists _, _. split; [vm_compute; reflexivity|].
  eapply (buddy_reachable_consistent 6 64 [BAlloc 0; BAllocLowest 1]);
    [lia|lia| |vm_compute; reflexivity|vm_compute; reflexivity].
  split; [simpl; lia|]. intros. split; [simpl; lia|]. done.
Defined.

(** Freeing the block an allocation returned restores the allocator: the
    same blocks are marked at the same orders as before, so splitting and
    merging are exact inverses. *)
Theorem buddy_alloc_free_restores cap b order (lowest_fit : bool) b1 x :
  bud_ok cap (BuddyAllocator.len b) b -> 0 <= order ->
  (if lowest_fit then BuddyAllocator.alloc_lowest b order else BuddyAllocator.alloc b order) = Ret (b1, Some x) ->
  exists b2, BuddyAllocator.free_page b1 x order = Ret b2 /\ view_eq (fa b2) (fa b).
Proof.
  intros Hb Ho Hrun. set (n := BuddyAllocator.len b) in *.
  assert (order <= max_order b /\ 0 <= x < n / 2 ^ order /\ (forall q, q / 2 ^ order = x -> pfree (fa b) q) /\
    steps_to cap n b b1 (fun q => pfree (fa b) q /\ q / 2 ^ order <> x)) as (Hmo & Hx & Hin & Hb1 & [_ Hm1] & Hq1).
  { destruct lowest_fit.
    - destruct (alloc_lowest_spec cap n b order Hb Ho) as (b' & r & Hr & Hspec). rewrite Hr in Hrun.
      injection Hrun as -> ->. by destruct Hspec as (? & ? & ? & _ & ?).
    - destruct (alloc_inner_spec cap n b order Hb Ho) as (b' & r & Hr & Hspec).
      unfold BuddyAllocator.alloc in Hrun. rewrite Hr in Hrun. injection Hrun as -> ->. by destruct Hspec as (? & ? & _ & ? & ?). }
  destruct (free_page_spec cap n b1 x order Hb1) as (b2 & Hfree & Hb2 & [_ Hm2] & Hq2); [lia|done| |].
  { intros q Hq. rewrite Hq1. intuition. }
  exists b2. split; [done|]. apply (view_unique (max_order b) n n); [rewrite <-Hm1, <-Hm2; apply Hb2|apply Hb|].
  intros q. rewrite Hq2, Hq1. specialize (Hin q). destruct (decide (q / 2 ^ order = x)); intuition.
Qed.

Lemma buddy_alloc_free_restores_witness :
  exists b b1 b2, BuddyAllocator.new 6 64 = Ret b /\ BuddyAllocator.alloc_lowest b 0 = Ret (b1, Some 0) /\
    BuddyAllocator.free_page b1 0 0 = Ret b2 /\ view_eq (fa b2) (fa b).
Proof.
  destruct (new_spec 6 64 ltac:(lia) ltac:(lia)) as (b & Hnew & Hb & Hl & _). exists b.
  pose proof Hnew as Hv. vm_compute in Hv. apply Ret_inj in Hv.
  assert (Hrun : exists b1, BuddyAllocator.alloc_lowest b 0 = Ret (b1, Some 0))
    by (rewrite <-Hv; eexists; vm_compute; reflexivity).
  destruct Hrun as [b1 Hrun]. exists b1. rewrite <-Hl in Hb.
  destruct (buddy_alloc_free_restores 64 b 0 true b1 0 Hb ltac:(lia) Hrun) as (b2 & Hf & He).
  by exists b2.
Defined.

(** [count_free_pages] and [count_allocated_pages] return the number of free
    and of allocated pages, and [trailing_free_pages] the length of the longest
    free suffix, without overflowing [u32]. *)
Theorem buddy_counts_correct cap b :
  bud_ok cap (BuddyAllocator.len b) b -> 0 < BuddyAllocator.len b ->
  BuddyAllocator.count_free_pages b = Ret (zcount (page_free b) 0 (Z.to_nat (BuddyAllocator.len b))) /\
  BuddyAllocator.count_allocated_pages b =
    Ret (zcount (fun q => negb (page_free b q)) 0 (Z.to_nat (BuddyAllocator.len b))) /\
  exists r, BuddyAllocator.trailing_free_pages b = Ret r /\ 0 <= r <= BuddyAllocator.len b /\
    (forall q, BuddyAllocator.len b - r <= q < BuddyAllocator.len b -> page_free b q = true) /\
    (r < BuddyAllocator.len b -> page_free b (BuddyAllocator.len b - r - 1) = false).
Proof.
  intros Hb Hl. split; [by eapply count_free_pages_spec|]. split; [by eapply count_allocated_pages_spec|].
  destruct (trailing_free_pages_spec cap b Hb Hl) as (r & Hr & Hrb & Hfree & Hstop). exists r.
  split; [done|]. split; [done|]. split.
  - intros q Hq. by apply (page_free_spec _ _ _ _ Hb), Hfree.
  - intros Hlt. apply not_true_iff_false. rewrite (page_free_spec _ _ _ _ Hb). by apply Hstop.
Qed.

Lemma buddy_counts_correct_witness :
  exists b, BuddyAllocator.new 6 64 = Ret b /\
    BuddyAllocator.count_free_pages b = Ret (zcount (page_free b) 0 (Z.to_nat (BuddyAllocator.len b))).
Proof.
  destruct (new_spec 6 64 ltac:(lia) ltac:(lia)) as (b & Hnew & Hb & Hl & _). exists b. split; [done|].
  apply (buddy_counts_correct 64); rewrite Hl; [done|lia].
Defined.

(** [from_bytes] inverts [to_vec] for every consistent allocator of at most
    [MAX_PAGE_INDEX + 1] pages: the result has the same length and highest
    order, is consistent, and marks the same blocks. *)
Theorem buddy_roundtrip cap b :
  bud_ok cap (BuddyAllocator.len b) b -> cap <= MAX_PAGE_INDEX + 1 ->
  exists v b', BuddyAllocator.to_vec b = Ret v /\ BuddyAllocator.from_bytes v = Ret b' /\
    same_shape b b' /\ bud_ok cap (BuddyAllocator.len b') b' /\ view_eq (fa b') (fa b).
Proof.
  intros Hb Hcap. destruct (to_vec_from_bytes cap b Hb Hcap) as (v & b' & ? & ? & [Hl Hm] & ? & ?).
  exists v, b'. rewrite Hl. by split_and!.
Qed.

Lemma buddy_roundtrip_witness :
  exists b v b', BuddyAllocator.new 1000 1024 = Ret b /\ BuddyAllocator.to_vec b = Ret v /\
    BuddyAllocator.from_bytes v = Ret b' /\ view_eq (fa b') (fa b).
Proof.
  destruct (new_spec 1000 1024 ltac:(lia) ltac:(lia)) as (b & Hnew & Hb & Hl & _). rewrite <-Hl in Hb.
  destruct (buddy_roundtrip 1024 b Hb ltac:(vm_compute; discriminate)) as (v & b' & Hv & Hr & _ & _ & He).
  exists b, v, b'. exact (conj Hnew (conj Hv (conj Hr He))).
Defined.
