(* ===== verification/Pages.v ===== *)
(** Page numbers and page trackers
    (src/src/tree_store/page_store/base.rs). *)
From S2P Require Import Prelude Buddy.

(** * Model *)

Definition MAX_REGIONS : Z := 0x00100000.

Module PageNumber.

Record t := mk { region : Z; page_index : Z; page_order : Z }.

#[global] Instance eq_dec : EqDecision t.
Proof. solve_decision. Defined.
#[global] Instance countable : Countable t.
Proof.
  refine (inj_countable' (fun p => (region p, page_index p, page_order p))
    (fun '(r, i, o) => mk r i o) _). by intros [].
Defined.

Definition serialized_size : Z := 8.

(** [PageNumber::new], with its debug assertions *)
Definition new (r i o : Z) : outcome t :=
  _ ← rassert (r <=? 0x000FFFFF);
  _ ← rassert (i <=? MAX_PAGE_INDEX);
  _ ← rassert (o <=? MAX_MAX_PAGE_ORDER);
  Ret (mk r i o).

(** The [u64] both [to_le_bytes] and [hash] compute *)
Definition to_u64 (p : t) : Z :=
  Z.lor (Z.lor (Z.land 0x000FFFFF (page_index p)) (Z.shiftl (Z.land 0x000FFFFF (region p)) 20))
    (Z.shiftl (Z.land 31 (page_order p)) 59).

Definition to_bytes (p : t) : list Z := to_le_bytes 8 (to_u64 p).

Definition from_u64 (temp : Z) : outcome t :=
  let order := Z.shiftr temp 59 in
  index ← utry 32 (Z.land temp (Z.shiftr 0x000FFFFF order));
  let region := Z.land (Z.shiftr temp 20) 0x000FFFFF in
  Ret (mk region index order).

Definition from_bytes (bytes : list Z) : outcome t := from_u64 (from_le_bytes bytes).

(** [Ord::cmp], by the starting address *)
Definition cmp (p q : t) : outcome comparison :=
  match Z.compare (region p) (region q) with
  | Lt => Ret Lt
  | Gt => Ret Gt
  | Eq =>
      s ← pow2_u32 (page_order p);
      self_order0 ← umul 32 (page_index p) s;
      s' ← pow2_u32 (page_order q);
      other_order0 ← umul 32 (page_index q) s';
      _ ← rassert (negb (self_order0 =? other_order0) || (page_order p =? page_order q));
      Ret (Z.compare self_order0 other_order0)
  end.

Definition page_size_bytes (p : t) (page_size : Z) : outcome Z :=
  pages ← utry 64 (Z.shiftl 1 (page_order p));
  umul 64 pages page_size.

(** [address_range], the start and the end of the range *)
Definition address_range (p : t) (data_section_offset region_size region_pages_start page_size : Z)
    : outcome (Z * Z) :=
  size ← page_size_bytes p page_size;
  off ← umul 64 (page_index p) size;
  regional_start ← uadd 64 region_pages_start off;
  _ ← rassert (regional_start <? region_size);
  region_base ← umul 64 (region p) region_size;
  a ← uadd 64 data_section_offset region_base;
  start ← uadd 64 a regional_start;
  end_ ← uadd 64 start size;
  Ret (start, end_).

End PageNumber.

(** [PageTrackerPolicy] *)
Module PageTrackerPolicy.

Inductive t :=
| Ignore
| Track (pages : gset PageNumber.t)
| Closed.

Definition new_tracking : t := Track ∅.

Definition is_empty (s : t) : bool :=
  match s with
  | Ignore | Closed => true
  | Track x => bool_decide (x = ∅)
  end.

Definition remove (s : t) (page : PageNumber.t) : outcome t :=
  match s with
  | Ignore => Ret Ignore
  | Track x => _ ← rassert (bool_decide (page ∈ x)); Ret (Track (x ∖ {[page]}))
  | Closed => Panic
  end.

Definition remove_if_present (s : t) (page : PageNumber.t) : outcome (t * bool) :=
  match s with
  | Ignore => Ret (Ignore, false)
  | Track x => Ret (Track (x ∖ {[page]}), bool_decide (page ∈ x))
  | Closed => Panic
  end.

Definition contains (s : t) (page : PageNumber.t) : outcome bool :=
  match s with
  | Ignore => Ret false
  | Track x => Ret (bool_decide (page ∈ x))
  | Closed => Panic
  end.

Definition insert (s : t) (page : PageNumber.t) : outcome t :=
  match s with
  | Ignore => Ret Ignore
  | Track x => _ ← rassert (bool_decide (page ∉ x)); Ret (Track ({[page]} ∪ x))
  | Closed => Panic
  end.

Definition close (s : t) : outcome (t * gset PageNumber.t) :=
  match s with
  | Ignore => Ret (Closed, ∅)
  | Track x => Ret (Closed, x)
  | Closed => Panic
  end.

Definition reset (s : t) : outcome (t * gset PageNumber.t) :=
  match s with
  | Ignore => Ret (Ignore, ∅)
  | Track x => Ret (Track ∅, x)
  | Closed => Panic
  end.

End PageTrackerPolicy.

(** * Page numbers *)

Import PageNumber (region, page_index, page_order).

(** A page number a region of at most [MAX_PAGE_INDEX + 1] pages can hold. *)
Definition page_wf (p : PageNumber.t) : Prop :=
  0 <= region p < MAX_REGIONS /\ 0 <= page_order p <= MAX_MAX_PAGE_ORDER /\
  0 <= page_index p /\ (page_index p + 1) * 2 ^ page_order p <= MAX_PAGE_INDEX + 1.

Lemma page_wf_index p : page_wf p -> 0 <= page_index p < 2 ^ (20 - page_order p).
Proof.
  intros (_ & Ho & Hi & Hle). change MAX_MAX_PAGE_ORDER with 20 in Ho.
  change (MAX_PAGE_INDEX + 1) with (2 ^ 20) in Hle. split; [done|].
  assert (E : 2 ^ 20 = 2 ^ (20 - page_order p) * 2 ^ page_order p) by (rewrite <-Z.pow_add_r by lia; f_equal; lia).
  assert (0 < 2 ^ page_order p) by (apply Z.pow_pos_nonneg; lia). nia.
Qed.

(** The fields of the packed [u64]. *)
Lemma to_u64_fields r i o :
  0 <= r < 2 ^ 20 -> 0 <= i < 2 ^ 20 -> 0 <= o < 2 ^ 5 ->
  PageNumber.to_u64 (PageNumber.mk r i o) = i + r * 2 ^ 20 + o * 2 ^ 59.
Proof.
  intros Hr Hi Ho. unfold PageNumber.to_u64. cbn [region page_index page_order].
  rewrite !(Z.land_comm _ i), !(Z.land_comm _ r), !(Z.land_comm _ o).
  change 1048575 with (Z.ones 20). change 31 with (Z.ones 5). rewrite !Z.land_ones by lia.
  rewrite !Z.mod_small by lia. rewrite !Z.shiftl_mul_pow2 by lia.
  assert (Hdis : forall a b k, 0 <= a < 2 ^ k -> 0 <= b -> 0 <= k -> Z.lor a (b * 2 ^ k) = a + b * 2 ^ k).
  { intros a b k Ha Hb Hk. rewrite <-Z.lxor_lor; [symmetry; apply Z.add_nocarry_lxor|];
      (apply Z.bits_inj'; intros j Hj; rewrite Z.land_spec, Z.bits_0;
       destruct (decide (j < k)); [rewrite Z.mul_pow2_bits_low by lia; apply andb_false_r|];
       rewrite (testbit_high k a) by lia; done). }
  rewrite (Hdis i r 20) by lia. rewrite Hdis; [lia| |lia|lia].
  change (2 ^ 59) with (2 ^ 20 * 2 ^ 39). nia.
Qed.

Lemma shiftr_ones_min o : 0 <= o -> Z.shiftr 1048575 o = Z.ones (20 - Z.min 20 o).
Proof.
  intros Ho. change 1048575 with (Z.ones 20). apply Z.bits_inj'. intros j Hj. rewrite Z.shiftr_spec by lia.
  rewrite !Z.testbit_ones_nonneg by lia.
  destruct (Z.ltb_spec (j + o) 20), (Z.ltb_spec j (20 - Z.min 20 o)); lia || done.
Qed.

Lemma from_u64_fields r i o x :
  0 <= r < 2 ^ 20 -> 0 <= x < 2 ^ 20 -> 0 <= o < 2 ^ 5 ->
  i = x mod 2 ^ (20 - Z.min 20 o) ->
  PageNumber.from_u64 (x + r * 2 ^ 20 + o * 2 ^ 59) = Ret (PageNumber.mk r i o).
Proof.
  intros Hr Hx Ho ->. unfold PageNumber.from_u64.
  assert (Z.shiftr (x + r * 2 ^ 20 + o * 2 ^ 59) 59 = o) as ->.
  { rewrite Z.shiftr_div_pow2 by lia. rewrite Z.div_add by lia. rewrite Z.div_small; [lia|].
    change (2 ^ 59) with (2 ^ 20 * 2 ^ 39). nia. }
  rewrite shiftr_ones_min by lia.
  rewrite Z.land_ones by lia. set (k := 20 - Z.min 20 o).
  assert (Hk : 0 <= k <= 20) by lia.
  assert ((x + r * 2 ^ 20 + o * 2 ^ 59) mod 2 ^ k = x mod 2 ^ k) as ->.
  { replace (r * 2 ^ 20 + o * 2 ^ 59) with ((r * 2 ^ (20 - k) + o * 2 ^ (59 - k)) * 2 ^ k).
    - rewrite <-Z.add_assoc. replace (r * 2 ^ 20 + o * 2 ^ 59) with ((r * 2 ^ (20 - k) + o * 2 ^ (59 - k)) * 2 ^ k).
      + apply Z.mod_add. apply Z.pow_nonzero; lia.
      + rewrite Z.mul_add_distr_r, <-!Z.mul_assoc, <-!Z.pow_add_r by lia. do 3 f_equal; lia.
    - rewrite Z.mul_add_distr_r, <-!Z.mul_assoc, <-!Z.pow_add_r by lia. do 3 f_equal; lia. }
  assert (0 < 2 ^ k) by (apply Z.pow_pos_nonneg; lia).
  assert (2 ^ k <= 2 ^ 20) by (apply Z.pow_le_mono_r; lia).
  pose proof (Z.mod_pos_bound x (2 ^ k) ltac:(lia)).
  rewrite utry_ok by lia. cbn [mbind outcome_bind]. f_equal. f_equal.
  change 1048575 with (Z.ones 20). rewrite Z.land_ones, Z.shiftr_div_pow2 by lia.
  replace (x + r * 2 ^ 20 + o * 2 ^ 59) with (x + (r + o * 2 ^ 39 * 2 ^ 0) * 2 ^ 20) by lia.
  rewrite Z.div_add, Z.div_small by lia. rewrite Z.add_0_l, Z.mul_1_r.
  replace (o * 2 ^ 39) with (o * 2 ^ 19 * 2 ^ 20) by lia. rewrite Z.mod_add by lia. apply Z.mod_small. lia.
Qed.

(** The page numbers the encoding keeps: the index has at most [20 - order] bits. *)
Definition encodable (p : PageNumber.t) : Prop :=
  0 <= region p < MAX_REGIONS /\ 0 <= page_order p < 32 /\
  0 <= page_index p < 2 ^ (20 - Z.min 20 (page_order p)).

Lemma page_wf_encodable p : page_wf p -> encodable p.
Proof.
  intros Hp. pose proof (page_wf_index p Hp). destruct Hp as (Hr & Ho & _). change MAX_MAX_PAGE_ORDER with 20 in Ho.
  split; [done|]. split; [lia|]. by rewrite Z.min_r by lia.
Qed.

Lemma encodable_roundtrip p : encodable p -> PageNumber.from_bytes (PageNumber.to_bytes p) = Ret p.
Proof.
  intros (Hr & Ho & Hi). destruct p as [r i o]. cbn [region page_index page_order] in *.
  change MAX_REGIONS with (2 ^ 20) in Hr.
  assert (2 ^ (20 - Z.min 20 o) <= 2 ^ 20) by (apply Z.pow_le_mono_r; lia).
  unfold PageNumber.from_bytes, PageNumber.to_bytes. rewrite to_u64_fields by lia.
  rewrite from_to_le_bytes; [|change (256 ^ Z.of_nat 8) with (2 ^ 5 * 2 ^ 59); change (2 ^ 59) with (2 ^ 20 * 2 ^ 39) in *; nia].
  apply from_u64_fields; [lia|lia|lia|]. by rewrite Z.mod_small by lia.
Qed.

(** What decoding any [u64] gives. *)
Lemma from_u64_eq u :
  0 <= u < 2 ^ 64 ->
  PageNumber.from_u64 u =
    Ret (PageNumber.mk ((u / 2 ^ 20) mod 2 ^ 20) (u mod 2 ^ (20 - Z.min 20 (u / 2 ^ 59))) (u / 2 ^ 59)).
Proof.
  intros Hu. unfold PageNumber.from_u64. rewrite (Z.shiftr_div_pow2 u 59), (Z.shiftr_div_pow2 u 20) by lia.
  set (o := u / 2 ^ 59). assert (0 <= o < 32) by (split; [apply Z.div_pos|apply Z.div_lt_upper_bound]; lia).
  rewrite shiftr_ones_min by lia.
  change 1048575 with (Z.ones 20). rewrite !Z.land_ones by lia. set (k := 20 - Z.min 20 o).
  assert (0 < 2 ^ k) by (apply Z.pow_pos_nonneg; lia).
  assert (2 ^ k <= 2 ^ 20) by (apply Z.pow_le_mono_r; lia).
  pose proof (Z.mod_pos_bound u (2 ^ k) ltac:(lia)). by rewrite utry_ok by lia.
Qed.

Lemma from_u64_total u :
  0 <= u < 2 ^ 64 -> exists p, PageNumber.from_u64 u = Ret p /\ encodable p.
Proof.
  intros Hu. rewrite from_u64_eq by done. eexists. split; [done|]. unfold encodable. cbn [region page_index page_order].
  set (o := u / 2 ^ 59). assert (0 <= o < 32) by (split; [apply Z.div_pos|apply Z.div_lt_upper_bound]; lia).
  change MAX_REGIONS with (2 ^ 20). split; [apply Z.mod_pos_bound; lia|]. split; [done|].
  apply Z.mod_pos_bound. apply Z.pow_pos_nonneg; lia.
Qed.

Lemma from_bytes_bound l : length l = 8%nat -> Forall byte l -> 0 <= from_le_bytes l < 2 ^ 64.
Proof. intros Hl Hb. pose proof (from_le_bytes_bound l Hb) as H. unfold vlen in H. rewrite Hl in H. exact H. Qed.

(** ** Addresses *)

(** The page lies in the data section of a region. *)
Definition in_region (region_size region_pages_start page_size : Z) (p : PageNumber.t) : Prop :=
  region_pages_start + (page_index p + 1) * 2 ^ page_order p * page_size <= region_size.

(** The first byte of a page. *)
Definition page_start (data_section_offset region_size region_pages_start page_size : Z) (p : PageNumber.t) : Z :=
  data_section_offset + region p * region_size + region_pages_start + page_index p * 2 ^ page_order p * page_size.

Section addresses.
  Context (dso rsize rstart psize : Z).
  Hypothesis Hsizes : 0 <= dso /\ 0 <= rstart /\ 0 < psize < 2 ^ 32.
  Hypothesis Hfile : dso + MAX_REGIONS * rsize < 2 ^ 64.

Lemma address_range_spec p :
  page_wf p -> in_region rsize rstart psize p ->
  PageNumber.address_range p dso rsize rstart psize =
    Ret (page_start dso rsize rstart psize p, page_start dso rsize rstart psize p + 2 ^ page_order p * psize).
Proof.
  intros (Hr & Ho & Hi & Hw) Hin. unfold in_region, page_start in *. change MAX_MAX_PAGE_ORDER with 20 in Ho.
  set (o := page_order p) in *. set (i := page_index p) in *. set (r := region p) in *.
  assert (Hp : 1 <= 2 ^ o <= 2 ^ 20) by (split; [assert (0 < 2 ^ o) by (apply Z.pow_pos_nonneg; lia); lia|apply Z.pow_le_mono_r; lia]).
  assert (Hb : 0 <= i * 2 ^ o * psize /\ 0 < 2 ^ o * psize) by nia.
  assert (Hb2 : (i + 1) * 2 ^ o * psize = i * 2 ^ o * psize + 2 ^ o * psize) by ring.
  assert (Hb3 : i * (2 ^ o * psize) = i * 2 ^ o * psize) by ring.
  assert (Hrr : r * rsize + rsize <= MAX_REGIONS * rsize) by nia.
  assert (0 <= r * rsize) by nia. set (RR := MAX_REGIONS * rsize) in *.
  unfold PageNumber.address_range, PageNumber.page_size_bytes. fold o i r.
  rewrite Z.shiftl_mul_pow2, Z.mul_1_l, utry_ok by lia. cbn [mbind outcome_bind].
  rewrite (umul_ok 64 (2 ^ o) psize) by nia. cbn [mbind outcome_bind]. rewrite (umul_ok 64 i), Hb3 by lia.
  cbn [mbind outcome_bind]. rewrite uadd_ok by lia. cbn [mbind outcome_bind].
  rewrite (proj2 (Z.ltb_lt _ _)) by lia. cbn [rassert mbind outcome_bind].
  rewrite (umul_ok 64 r) by lia. cbn [mbind outcome_bind]. do 3 (rewrite uadd_ok by lia; cbn [mbind outcome_bind]).
  f_equal. f_equal; lia.
Qed.

(** Two pages that share no order-0 page. *)
Definition no_overlap (p q : PageNumber.t) : Prop :=
  region p <> region q \/
  forall x, x / 2 ^ page_order p = page_index p -> x / 2 ^ page_order q <> page_index q.

(** Of two blocks that do not overlap, one ends before the other starts. *)
Lemma blocks_apart p q :
  0 <= page_order p -> 0 <= page_order q ->
  (forall x, x / 2 ^ page_order p = page_index p -> x / 2 ^ page_order q <> page_index q) ->
  (page_index p + 1) * 2 ^ page_order p <= page_index q * 2 ^ page_order q \/
  (page_index q + 1) * 2 ^ page_order q <= page_index p * 2 ^ page_order p.
Proof.
  intros Hp Hq Hdis. set (a := page_index p * 2 ^ page_order p). set (b := page_index q * 2 ^ page_order q).
  assert (0 < 2 ^ page_order p) by (apply Z.pow_pos_nonneg; lia).
  assert (0 < 2 ^ page_order q) by (apply Z.pow_pos_nonneg; lia).
  destruct (Z.le_gt_cases ((page_index p + 1) * 2 ^ page_order p) b) as [|H1]; [by left|].
  destruct (Z.le_gt_cases ((page_index q + 1) * 2 ^ page_order q) a) as [|H2]; [by right|]. exfalso.
  apply (Hdis (Z.max a b)); apply block_pages; lia.
Qed.

Lemma page_cmp_spec p q :
  page_wf p -> page_wf q -> in_region rsize rstart psize p -> in_region rsize rstart psize q -> no_overlap p q ->
  let sp := page_start dso rsize rstart psize p in
  let sq := page_start dso rsize rstart psize q in
  PageNumber.cmp p q = Ret (Z.compare sp sq) /\
  (sp + 2 ^ page_order p * psize <= sq \/ sq + 2 ^ page_order q * psize <= sp).
Proof.
  intros (Hrp & Hop & Hip & Hwp) (Hrq & Hoq & Hiq & Hwq) Hp Hq Hno. cbn zeta. unfold in_region, page_start in *.
  change MAX_MAX_PAGE_ORDER with 20 in *. change (MAX_PAGE_INDEX + 1) with (2 ^ 20) in *.
  assert (0 < 2 ^ page_order p) by (apply Z.pow_pos_nonneg; lia).
  assert (0 < 2 ^ page_order q) by (apply Z.pow_pos_nonneg; lia).
  set (a := page_index p * 2 ^ page_order p) in *. set (b := page_index q * 2 ^ page_order q) in *.
  assert (Ha : (page_index p + 1) * 2 ^ page_order p = a + 2 ^ page_order p) by (unfold a; ring).
  assert (Hb : (page_index q + 1) * 2 ^ page_order q = b + 2 ^ page_order q) by (unfold b; ring).
  rewrite Ha in *. rewrite Hb in *. assert (0 <= a) by (unfold a; nia). assert (0 <= b) by (unfold b; nia).
  set (A := 2 ^ page_order p) in *. set (B := 2 ^ page_order q) in *.
  unfold PageNumber.cmp. destruct (Z.compare_spec (region p) (region q)) as [E|E|E].
  - rewrite !pow2_u32_ok by lia. cbn [mbind outcome_bind]. fold A B. rewrite umul_ok by (fold a; lia). cbn [mbind outcome_bind].
    rewrite umul_ok by (fold b; lia). cbn [mbind outcome_bind]. fold a b.
    destruct Hno as [|Hdis]; [done|].
    pose proof (blocks_apart p q ltac:(lia) ltac:(lia) Hdis) as Hap. fold A B a b in Hap. rewrite Ha, Hb in Hap.
    rewrite (proj2 (Z.eqb_neq a b)) by lia. cbn [negb orb rassert mbind outcome_bind]. rewrite E. split; [|nia].
    f_equal. destruct (Z.compare_spec a b); symmetry; [lia| |]; [apply Z.compare_lt_iff|apply Z.compare_gt_iff]; nia.
  - assert (region p * rsize + rsize <= region q * rsize) by nia.
    assert (a * psize + A * psize <= rsize - rstart) by nia. split; [|left; nia].
    f_equal. symmetry. apply Z.compare_lt_iff. nia.
  - assert (region q * rsize + rsize <= region p * rsize) by nia.
    assert (b * psize + B * psize <= rsize - rstart) by nia. split; [|right; nia].
    f_equal. symmetry. apply Z.compare_gt_iff. nia.
Qed.

End addresses.

(** Encoding and decoding page numbers: decoding the 8 bytes of a page number
    gives the page number back whenever its index fits the bits its order
    leaves, which every page of a region does; decoding any 8 bytes never
    panics and gives such a page number; and what the reserved bits hold (the 19
    bits below the order, and the index bits the order makes unused) does not
    change the result. *)
Theorem page_number_codec :
  (forall p, page_wf p -> PageNumber.from_bytes (PageNumber.to_bytes p) = Ret p) /\
  (forall bytes, length bytes = 8%nat -> Forall byte bytes ->
    exists p, PageNumber.from_bytes bytes = Ret p /\ encodable p /\
      PageNumber.from_bytes (PageNumber.to_bytes p) = Ret p) /\
  (forall p reserved unused, encodable p -> 0 <= reserved < 2 ^ 19 ->
    0 <= unused -> page_index p + unused * 2 ^ (20 - Z.min 20 (page_order p)) < 2 ^ 20 ->
    PageNumber.from_u64 (PageNumber.to_u64 p + reserved * 2 ^ 40 +
      unused * 2 ^ (20 - Z.min 20 (page_order p))) = Ret p).
Proof.
  split; [intros p Hp; by apply encodable_roundtrip, page_wf_encodable|]. split.
  - intros bytes Hl Hb. destruct (from_u64_total _ (from_bytes_bound _ Hl Hb)) as (p & Hp & He).
    exists p. split; [done|]. split; [done|]. by apply encodable_roundtrip.
  - intros [r i o] v w (Hr & Ho & Hi) Hv Hw Hb. cbn [region page_index page_order] in *.
    change MAX_REGIONS with (2 ^ 20) in Hr. set (k := 20 - Z.min 20 o) in *.
    assert (0 < 2 ^ k) by (apply Z.pow_pos_nonneg; lia).
    assert (2 ^ k <= 2 ^ 20) by (apply Z.pow_le_mono_r; lia).
    rewrite to_u64_fields by lia. set (x := i + w * 2 ^ k) in *.
    replace (i + r * 2 ^ 20 + o * 2 ^ 59 + v * 2 ^ 40 + w * 2 ^ k) with (x + (r + v * 2 ^ 20) * 2 ^ 20 + o * 2 ^ 59)
      by (unfold x; ring_simplify; lia).
    assert (0 <= x) by (unfold x; nia).
    rewrite from_u64_eq by lia.
    assert (E59 : (x + (r + v * 2 ^ 20) * 2 ^ 20 + o * 2 ^ 59) / 2 ^ 59 = o)
      by (rewrite Z.div_add, Z.div_small by lia; lia).
    rewrite E59. fold k. f_equal. f_equal.
    + replace (x + (r + v * 2 ^ 20) * 2 ^ 20 + o * 2 ^ 59) with (x + (r + (v + o * 2 ^ 19) * 2 ^ 20) * 2 ^ 20) by lia.
      rewrite Z.div_add, Z.div_small, Z.add_0_l, Z.mod_add by lia. apply Z.mod_small. lia.
    + assert (E20 : 2 ^ 20 = 2 ^ (20 - k) * 2 ^ k) by (rewrite <-Z.pow_add_r by lia; f_equal; lia).
      replace (x + (r + v * 2 ^ 20) * 2 ^ 20 + o * 2 ^ 59)
        with (i + (w + (r + v * 2 ^ 20 + o * 2 ^ 39) * 2 ^ (20 - k)) * 2 ^ k).
      * rewrite Z.mod_add by lia. apply Z.mod_small. lia.
      * transitivity (x + (r + v * 2 ^ 20 + o * 2 ^ 39) * 2 ^ 20); [rewrite E20 at 3; unfold x; ring|lia].
Qed.

(** C38. The order of page numbers is the order of their addresses: for two pages of
    the file that share no order-0 page, [cmp] does not panic and compares the
    first bytes of their address ranges, which are disjoint. *)
Theorem page_order_is_address_order dso rsize rstart psize p q :
  0 <= dso /\ 0 <= rstart /\ 0 < psize < 2 ^ 32 -> dso + MAX_REGIONS * rsize < 2 ^ 64 ->
  page_wf p -> page_wf q -> in_region rsize rstart psize p -> in_region rsize rstart psize q ->
  no_overlap p q ->
  exists sp ep sq eq, PageNumber.address_range p dso rsize rstart psize = Ret (sp, ep) /\
    PageNumber.address_range q dso rsize rstart psize = Ret (sq, eq) /\
    PageNumber.cmp p q = Ret (Z.compare sp sq) /\ (ep <= sq \/ eq <= sp).
Proof.
  intros Hs Hf Hp Hq Hip Hiq Hno. do 4 eexists. split; [by apply address_range_spec|].
  split; [by apply address_range_spec|]. by apply page_cmp_spec.
Qed.

Lemma page_order_is_address_order_witness :
  exists sp ep sq eq,
    PageNumber.address_range (PageNumber.mk 1 3 2) 4096 (2 ^ 32) 4096 4096 = Ret (sp, ep) /\
    PageNumber.address_range (PageNumber.mk 1 9 1) 4096 (2 ^ 32) 4096 4096 = Ret (sq, eq) /\
    PageNumber.cmp (PageNumber.mk 1 3 2) (PageNumber.mk 1 9 1) = Ret (Z.compare sp sq) /\ (ep <= sq \/ eq <= sp).
Proof.
  apply page_order_is_address_order; [lia|vm_compute; done| | | | |].
  - repeat split; vm_compute; done.
  - repeat split; vm_compute; done.
  - vm_compute. done.
  - vm_compute. done.
  - right. intros x. cbn [page_order page_index]. intros H1 H2.
    apply block_pages in H1, H2; lia.
Defined.
