(* ===== verification/Layout.v ===== *)
(** The layout of regions in the file
    (src/src/tree_store/page_store/layout.rs). *)
From S2P Require Import Prelude.

(** * Model *)

(** [u64::is_multiple_of] *)
Definition is_multiple_of (value multiple : Z) : bool :=
  if multiple =? 0 then value =? 0 else value mod multiple =? 0.

Definition round_up_to_multiple_of (value multiple : Z) : outcome Z :=
  if is_multiple_of value multiple then Ret value
  else
    a ← uadd 64 value multiple;
    usub a (value mod multiple).

Module RegionLayout.

Record t := mk { num_pages : Z; header_pages : Z; page_size : Z }.

Definition new (n h p : Z) : outcome t :=
  _ ← rassert (0 <? n);
  Ret (mk n h p).

Definition usable_bytes (l : t) : outcome Z := umul 64 (page_size l) (num_pages l).

Definition calculate (desired_usable_bytes page_capacity region_header_pages page_size : Z) : outcome t :=
  max ← umul 64 page_capacity page_size;
  _ ← rassert (desired_usable_bytes <=? max);
  r ← round_up_to_multiple_of desired_usable_bytes page_size;
  q ← udiv r page_size;
  n ← utry 32 q;
  Ret (mk n region_header_pages page_size).

(** [data_section], the start and the end of the range *)
Definition data_section (l : t) : outcome (Z * Z) :=
  header_bytes ← umul 64 (header_pages l) (page_size l);
  u ← usable_bytes l;
  e ← uadd 64 header_bytes u;
  Ret (header_bytes, e).

Definition len (l : t) : outcome Z :=
  h ← umul 64 (header_pages l) (page_size l);
  u ← usable_bytes l;
  uadd 64 h u.

End RegionLayout.

Module DatabaseLayout.

Record t := mk {
  full_region_layout : RegionLayout.t;
  num_full_regions : Z;
  trailing_partial_region : option RegionLayout.t }.

Definition new (full_regions : Z) (full_region : RegionLayout.t) (trailing_region : option RegionLayout.t) : t :=
  mk full_region full_regions trailing_region.

Definition reduce_last_region (l : t) (pages : Z) : outcome t :=
  match trailing_partial_region l with
  | Some trailing =>
      _ ← rassert (pages <=? RegionLayout.num_pages trailing);
      n ← usub (RegionLayout.num_pages trailing) pages;
      Ret (mk (full_region_layout l) (num_full_regions l)
        (if n =? 0 then None
         else Some (RegionLayout.mk n (RegionLayout.header_pages trailing) (RegionLayout.page_size trailing))))
  | None =>
      n ← usub (num_full_regions l) 1;
      let full_layout := full_region_layout l in
      if pages <? RegionLayout.num_pages full_layout then
        k ← usub (RegionLayout.num_pages full_layout) pages;
        r ← RegionLayout.new k (RegionLayout.header_pages full_layout) (RegionLayout.page_size full_layout);
        Ret (mk full_layout n (Some r))
      else Ret (mk full_layout n None)
  end.

Definition recalculate (file_len region_header_pages region_max_data_pages page_size : Z) : outcome t :=
  remaining ← usub file_len page_size;
  region_pages ← uadd 64 region_header_pages region_max_data_pages;
  full_region_size ← umul 64 region_pages page_size;
  full_regions ← udiv remaining full_region_size;
  used ← umul 64 full_regions full_region_size;
  remaining ← usub remaining used;
  min_pages ← uadd 64 region_header_pages 1;
  min_bytes ← umul 64 min_pages page_size;
  trailing ← (if min_bytes <=? remaining then
      header ← umul 64 region_header_pages page_size;
      data ← usub remaining header;
      data32 ← utry 32 data;
      data_pages ← udiv data32 page_size;
      _ ← rassert (data_pages <? region_max_data_pages);
      r ← RegionLayout.new data_pages region_header_pages page_size;
      Ret (Some r)
    else Ret None);
  full_layout ← RegionLayout.new region_max_data_pages region_header_pages page_size;
  n ← utry 32 full_regions;
  Ret (mk full_layout n trailing).

Definition calculate (desired_usable_bytes page_capacity region_header_pages page_size : Z) : outcome t :=
  full ← RegionLayout.new page_capacity region_header_pages page_size;
  full_bytes ← RegionLayout.usable_bytes full;
  if desired_usable_bytes <=? full_bytes then
    region_layout ← RegionLayout.calculate desired_usable_bytes page_capacity region_header_pages page_size;
    Ret (mk full 0 (Some region_layout))
  else
    full_regions ← udiv desired_usable_bytes full_bytes;
    used ← umul 64 full_regions full_bytes;
    remaining_desired ← usub desired_usable_bytes used;
    _ ← rassert (0 <? full_regions);
    trailing_region ← (if 0 <? remaining_desired then
        r ← RegionLayout.calculate remaining_desired page_capacity region_header_pages page_size;
        Ret (Some r)
      else Ret None);
    _ ← (match trailing_region with
         | Some region => rassert (RegionLayout.header_pages region =? RegionLayout.header_pages full)
         | None => Ret tt
         end);
    n ← utry 32 full_regions;
    Ret (mk full n trailing_region).

Definition num_regions (l : t) : outcome Z :=
  match trailing_partial_region l with
  | Some _ => uadd 32 (num_full_regions l) 1
  | None => Ret (num_full_regions l)
  end.

Definition region_base_address (l : t) (region : Z) : outcome Z :=
  n ← num_regions l;
  _ ← rassert (region <? n);
  len ← RegionLayout.len (full_region_layout l);
  off ← umul 64 region len;
  uadd 64 (RegionLayout.page_size (full_region_layout l)) off.

Definition region_layout (l : t) (region : Z) : outcome RegionLayout.t :=
  n ← num_regions l;
  _ ← rassert (region <? n);
  if region =? num_full_regions l then unwrap (trailing_partial_region l)
  else Ret (full_region_layout l).

Definition len (l : t) : outcome Z :=
  n ← num_regions l;
  last ← usub n 1;
  base ← region_base_address l last;
  r ← region_layout l last;
  rl ← RegionLayout.len r;
  uadd 64 base rl.

Definition usable_bytes (l : t) : outcome Z :=
  trailing ← (match trailing_partial_region l with
              | Some r => RegionLayout.usable_bytes r
              | None => Ret 0
              end);
  full ← RegionLayout.usable_bytes (full_region_layout l);
  a ← umul 64 (num_full_regions l) full;
  uadd 64 a trailing.

End DatabaseLayout.

(** * Well-formed layouts *)

Import RegionLayout (num_pages, header_pages, page_size).
Import DatabaseLayout (full_region_layout, num_full_regions, trailing_partial_region).

(** The bytes of a region, and of the data of a region. *)
Definition region_bytes (r : RegionLayout.t) : Z := (header_pages r + num_pages r) * page_size r.
Definition data_bytes (r : RegionLayout.t) : Z := num_pages r * page_size r.

(** Regions share the header and page sizes; the last one may be partial; the
    file fits [u64] and the region count [u32]. *)
Record layout_ok (l : DatabaseLayout.t) : Prop := {
  lo_full : 0 < num_pages (full_region_layout l) < 2 ^ 32 /\
            0 <= header_pages (full_region_layout l) < 2 ^ 32 /\ 0 < page_size (full_region_layout l) < 2 ^ 32;
  lo_count : 0 <= num_full_regions l < 2 ^ 32 - 1;
  lo_trailing : forall r, trailing_partial_region l = Some r ->
    header_pages r = header_pages (full_region_layout l) /\ page_size r = page_size (full_region_layout l) /\
    0 < num_pages r <= num_pages (full_region_layout l);
  lo_size : page_size (full_region_layout l) +
    (num_full_regions l + 1) * region_bytes (full_region_layout l) < 2 ^ 64 }.

Definition regions_of (l : DatabaseLayout.t) : Z :=
  num_full_regions l + match trailing_partial_region l with Some _ => 1 | None => 0 end.

(** The length of the file, the data of all regions and the size of the last one. *)
Definition file_bytes (l : DatabaseLayout.t) : Z :=
  page_size (full_region_layout l) + num_full_regions l * region_bytes (full_region_layout l) +
  match trailing_partial_region l with Some r => region_bytes r | None => 0 end.

Lemma mul_between m n p : 0 < m < n -> 0 < p -> p <= m * p <= n * p - p.
Proof. nia. Qed.

Section layout.
  Context (l : DatabaseLayout.t).
  Hypothesis Hl : layout_ok l.

Lemma num_regions_ok : DatabaseLayout.num_regions l = Ret (regions_of l).
Proof.
  pose proof (lo_count _ Hl). unfold DatabaseLayout.num_regions, regions_of.
  destruct (trailing_partial_region l); [by rewrite uadd_ok by lia|]. by rewrite Z.add_0_r.
Qed.

(** The sizes of the last region, and of a full one, fit. *)
Lemma region_len_ok r :
  (r = full_region_layout l \/ trailing_partial_region l = Some r) ->
  RegionLayout.len r = Ret (region_bytes r) /\ RegionLayout.usable_bytes r = Ret (data_bytes r) /\
  0 < region_bytes r <= region_bytes (full_region_layout l) /\
  header_pages r = header_pages (full_region_layout l) /\ page_size r = page_size (full_region_layout l).
Proof.
  intros Hr. pose proof Hl as [(Hn & Hh & Hp) Hc Ht Hs].
  assert (header_pages r = header_pages (full_region_layout l) /\ page_size r = page_size (full_region_layout l) /\
    0 < num_pages r <= num_pages (full_region_layout l)) as (Eh & Ep & Hnr)
    by (destruct Hr as [->|Hr]; [split_and!; lia|by apply Ht]).
  unfold RegionLayout.len, RegionLayout.usable_bytes, region_bytes, data_bytes in *. rewrite Eh, Ep.
  set (n := num_pages (full_region_layout l)) in *. set (h := header_pages (full_region_layout l)) in *.
  set (p := page_size (full_region_layout l)) in *. set (m := num_pages r) in *.
  assert (0 <= num_full_regions l * ((h + n) * p)) by nia.
  assert ((h + n) * p < 2 ^ 64) by lia. assert (h * p + p * m = (h + m) * p) by ring.
  assert ((h + m) * p <= (h + n) * p) by nia. assert (0 <= h * p) by nia. assert (0 < p * m) by nia.
  rewrite !umul_ok by lia. cbn [mbind outcome_bind]. rewrite uadd_ok by lia.
  split_and!; [f_equal; lia|f_equal; lia|lia|lia|done|done].
Qed.

Lemma region_base_ok i :
  0 <= i < regions_of l ->
  DatabaseLayout.region_base_address l i =
    Ret (page_size (full_region_layout l) + i * region_bytes (full_region_layout l)).
Proof.
  intros Hi. unfold DatabaseLayout.region_base_address. rewrite num_regions_ok. cbn [mbind outcome_bind].
  rewrite (proj2 (Z.ltb_lt _ _)) by lia. cbn [rassert mbind outcome_bind].
  destruct (region_len_ok (full_region_layout l) ltac:(by left)) as (-> & _ & Hb & _). cbn [mbind outcome_bind].
  pose proof Hl as [(_ & _ & Hp) Hc _ Hs].
  assert (i <= num_full_regions l) by (unfold regions_of in Hi; destruct (trailing_partial_region l); lia).
  assert (i * region_bytes (full_region_layout l) <= num_full_regions l * region_bytes (full_region_layout l)) by nia.
  rewrite umul_ok by lia. cbn [mbind outcome_bind]. apply uadd_ok. lia.
Qed.

Lemma region_layout_ok i :
  0 <= i < regions_of l ->
  exists r, DatabaseLayout.region_layout l i = Ret r /\
    (i = num_full_regions l /\ trailing_partial_region l = Some r \/ i < num_full_regions l /\ r = full_region_layout l).
Proof.
  intros Hi. unfold DatabaseLayout.region_layout. rewrite num_regions_ok. cbn [mbind outcome_bind].
  rewrite (proj2 (Z.ltb_lt _ _)) by lia. cbn [rassert mbind outcome_bind]. unfold regions_of in Hi.
  destruct (Z.eqb_spec i (num_full_regions l)) as [->|Hne].
  - destruct (trailing_partial_region l) as [r|]; [|lia]. exists r. split; [done|]. by left.
  - eexists. split; [done|]. right. split; [|done]. destruct (trailing_partial_region l); lia.
Qed.

Lemma layout_len_ok : 0 < regions_of l -> DatabaseLayout.len l = Ret (file_bytes l).
Proof.
  intros Hn. unfold DatabaseLayout.len. rewrite num_regions_ok. cbn [mbind outcome_bind].
  rewrite usub_ok by lia. cbn [mbind outcome_bind]. rewrite region_base_ok by lia. cbn [mbind outcome_bind].
  destruct (region_layout_ok (regions_of l - 1) ltac:(lia)) as (r & -> & Hr). cbn [mbind outcome_bind].
  destruct (region_len_ok r) as (-> & _ & Hb & _); [destruct Hr as [[_ ?]|[_ ->]]; auto|]. cbn [mbind outcome_bind].
  pose proof Hl as [(_ & _ & Hp) Hc _ Hs]. unfold regions_of, file_bytes in *.
  destruct Hr as [[E Ht]|[Hlt ->]].
  - rewrite Ht in *. rewrite uadd_ok by lia. f_equal. lia.
  - destruct (trailing_partial_region l); [lia|]. rewrite uadd_ok by nia. f_equal. lia.
Qed.

(** Reading the layout back from the length of the file. *)
Lemma recalculate_len :
  0 < regions_of l -> data_bytes (full_region_layout l) <= 2 ^ 32 ->
  (forall r, trailing_partial_region l = Some r -> num_pages r < num_pages (full_region_layout l)) ->
  DatabaseLayout.recalculate (file_bytes l) (header_pages (full_region_layout l))
    (num_pages (full_region_layout l)) (page_size (full_region_layout l)) = Ret l.
Proof.
  intros Hn Hd Hpart. destruct l as [full n trailing] eqn:El. destruct full as [np h p].
  pose proof Hl as [Hf Hc Ht Hs]. cbn [full_region_layout num_full_regions trailing_partial_region num_pages header_pages page_size] in *.
  unfold DatabaseLayout.recalculate, file_bytes, region_bytes, data_bytes in *.
  cbn [full_region_layout num_full_regions trailing_partial_region num_pages header_pages page_size] in *.
  set (R := (h + np) * p) in *. set (T := match trailing with Some r => _ | None => 0 end).
  assert (HT : 0 <= T < R /\ match trailing with
      | Some r => r = RegionLayout.mk (num_pages r) h p /\ T = (h + num_pages r) * p /\ 0 < num_pages r < np
      | None => T = 0 end).
  { unfold T. destruct trailing as [[m h' p']|]; [|split; [unfold R; nia|done]].
    specialize (Ht _ eq_refl). specialize (Hpart _ eq_refl). simpl in *. destruct Ht as (-> & -> & Hm).
    split; [unfold R; nia|]. split_and!; done || lia. }
  clearbody T. destruct HT as [HT Htr]. assert (0 <= n * R) by nia.
  assert (ER : (h + np) * p = R) by done. assert (Hh1 : (h + 1) * p <= R) by (unfold R; nia).
  assert (Hhp : 0 <= h * p) by nia.
  osteps. rewrite ER. replace (p + n * R + T - p) with (n * R + T) by lia.
  assert (E : (n * R + T) / R = n) by (rewrite Z.add_comm, Z.div_add, Z.div_small by lia; lia). rewrite E.
  osteps. replace (n * R + T - n * R) with T by lia.
  destruct trailing as [r|].
  - destruct r as [m h' p']. cbn [num_pages] in Htr. destruct Htr as ([= -> ->] & -> & Hm).
    pose proof (mul_between m np p Hm ltac:(lia)) as Hmp.
    rewrite (proj2 (Z.leb_le _ _)) by lia. osteps.
    replace ((h + m) * p - h * p) with (m * p) by ring. osteps.
    rewrite Z.div_mul by lia. unfold RegionLayout.new. by osteps.
  - subst T. rewrite (proj2 (Z.leb_gt _ _)) by nia. cbn [mbind outcome_bind]. unfold RegionLayout.new. by osteps.
Qed.

End layout.

(** ** [calculate] *)

Lemma round_up_ok v m :
  0 <= v -> 0 < m -> v + m < 2 ^ 64 ->
  exists r, round_up_to_multiple_of v m = Ret r /\ (m | r) /\ v <= r < v + m.
Proof.
  intros Hv Hm Hb. unfold round_up_to_multiple_of, is_multiple_of. rewrite (proj2 (Z.eqb_neq m 0)) by lia.
  pose proof (Z.mod_pos_bound v m Hm). destruct (Z.eqb_spec (v mod m) 0) as [E|E].
  - exists v. split; [done|]. split; [by apply Z.mod_divide; [lia|]|lia].
  - rewrite uadd_ok by lia. cbn [mbind outcome_bind]. rewrite usub_ok by lia. eexists. split; [done|]. split; [|lia].
    exists (v / m + 1). pose proof (Z.div_mod v m). lia.
Qed.

Lemma region_calculate_ok desired cap h p :
  0 <= desired <= cap * p -> 0 < p < 2 ^ 32 -> 0 < cap < 2 ^ 32 -> cap * p + p < 2 ^ 64 ->
  exists n, RegionLayout.calculate desired cap h p = Ret (RegionLayout.mk n h p) /\
    0 <= n <= cap /\ desired <= n * p < desired + p.
Proof.
  intros Hd Hp Hc Hb. unfold RegionLayout.calculate. rewrite umul_ok by lia. cbn [mbind outcome_bind].
  rewrite (proj2 (Z.leb_le _ _)) by lia. cbn [rassert mbind outcome_bind].
  destruct (round_up_ok desired p) as (r & -> & [n ->] & Hr); [lia|lia|lia|]. cbn [mbind outcome_bind].
  rewrite udiv_ok, Z.div_mul by lia. cbn [mbind outcome_bind]. assert (0 <= n <= cap) by nia.
  rewrite utry_ok by lia. cbn [mbind outcome_bind]. by exists n.
Qed.

(** The layout of [q] full regions and [n] pages of a last one. *)
Definition mk_layout (cap h p q n : Z) : DatabaseLayout.t :=
  DatabaseLayout.mk (RegionLayout.mk cap h p) q
    (if n =? 0 then None else Some (RegionLayout.mk n h p)).

Lemma mk_layout_ok cap h p q n :
  0 < p < 2 ^ 32 -> 0 < cap < 2 ^ 32 -> 0 <= h < 2 ^ 32 -> 0 <= q < 2 ^ 32 - 1 -> 0 <= n <= cap ->
  p + (q + 1) * ((h + cap) * p) < 2 ^ 64 ->
  layout_ok (mk_layout cap h p q n) /\
  DatabaseLayout.usable_bytes (mk_layout cap h p q n) = Ret ((q * cap + n) * p).
Proof.
  intros Hp Hc Hh Hq Hn Hs. split.
  - split; unfold mk_layout; cbn; [lia|lia| |unfold region_bytes; cbn; lia].
    intros r Hr. destruct (Z.eqb_spec n 0); [done|]. injection Hr as <-. cbn. lia.
  - assert (Hcp : 0 < cap * p) by nia. assert (0 <= q * (cap * p)) by nia. assert (0 <= n * p <= cap * p) by nia.
    assert (Hb : q * (cap * p) + cap * p < 2 ^ 64) by nia.
    assert (Ecp : p * cap = cap * p) by ring. assert (Enp : p * n = n * p) by ring.
    unfold DatabaseLayout.usable_bytes, mk_layout, RegionLayout.usable_bytes. cbn [full_region_layout num_full_regions trailing_partial_region].
    destruct (Z.eqb_spec n 0) as [->|]; cbn [num_pages page_size mbind outcome_bind]; osteps; f_equal; lia.
Qed.

(** Reading a layout from any length of a file. *)
Lemma recalculate_total file_len rh rm ps :
  0 < ps < 2 ^ 32 -> 0 <= rh < 2 ^ 32 -> 0 < rm < 2 ^ 32 -> rm * ps <= 2 ^ 32 -> (rh + rm) * ps < 2 ^ 64 ->
  ps <= file_len < 2 ^ 64 -> (file_len - ps) / ((rh + rm) * ps) < 2 ^ 32 ->
  exists n, DatabaseLayout.recalculate file_len rh rm ps =
      Ret (mk_layout rm rh ps ((file_len - ps) / ((rh + rm) * ps)) n) /\
    0 <= n < rm /\ (0 < n <-> (rh + 1) * ps <= (file_len - ps) mod ((rh + rm) * ps)).
Proof.
  intros Hps Hrh Hrm Hd HR Hf Hq. set (R := (rh + rm) * ps) in *.
  assert (HRpos : 0 < R) by (unfold R; nia). assert (Hh1 : (rh + 1) * ps <= R) by (unfold R; nia).
  assert (Hhp : 0 <= rh * ps) by nia. assert (Hrp : R = rh * ps + rm * ps) by (unfold R; ring).
  pose proof (Z.div_mod (file_len - ps) R ltac:(lia)) as Hdm. pose proof (Z.mod_pos_bound (file_len - ps) R HRpos) as Hm.
  assert (Hq0 : 0 <= (file_len - ps) / R) by (apply Z.div_pos; lia).
  set (q := (file_len - ps) / R) in *. set (T := (file_len - ps) mod R) in *.
  unfold DatabaseLayout.recalculate. osteps. fold R. osteps. fold q. assert (Hqr : 0 <= q * R) by nia.
  osteps. replace (file_len - ps - q * R) with T by lia.
  destruct (Z.leb_spec ((rh + 1) * ps) T) as [Hle|Hgt].
  - osteps. assert (0 <= (T - rh * ps) / ps < rm) by (split; [apply Z.div_pos; lia|apply Z.div_lt_upper_bound; lia]).
    assert (1 <= (T - rh * ps) / ps) by (apply Z.div_le_lower_bound; lia).
    unfold RegionLayout.new. osteps. exists ((T - rh * ps) / ps). split; [|lia].
    unfold mk_layout. rewrite (proj2 (Z.eqb_neq _ _)) by lia. done.
  - cbn [mbind outcome_bind]. unfold RegionLayout.new. osteps. exists 0. split; [done|]. lia.
Qed.

(** [calculate] provides at least the desired bytes, with less than a page to spare. *)
Lemma layout_calculate_ok desired cap h p :
  0 < desired -> 0 < p < 2 ^ 32 -> 0 < cap < 2 ^ 32 -> 0 <= h < 2 ^ 32 ->
  p + (desired / (cap * p) + 1) * ((h + cap) * p) < 2 ^ 64 -> desired / (cap * p) < 2 ^ 32 - 1 ->
  exists q n, DatabaseLayout.calculate desired cap h p = Ret (mk_layout cap h p q n) /\
    0 <= q <= desired / (cap * p) /\ 0 <= n <= cap /\ 0 < q + n /\ desired <= (q * cap + n) * p < desired + p.
Proof.
  intros Hd Hp Hc Hh Hsize Hcnt. set (D := cap * p) in *. assert (Hcp : 0 < D) by (unfold D; nia).
  assert (Hhp : 0 <= h * p) by nia. assert (HR : (h + cap) * p = h * p + D) by (unfold D; ring). rewrite HR in Hsize.
  pose proof (Z.div_mod desired D ltac:(lia)) as Hdm. pose proof (Z.mod_pos_bound desired D ltac:(lia)) as Hm.
  set (q := desired / D) in *. assert (Hq : 0 <= q) by (apply Z.div_pos; lia).
  assert (Hmul : 0 <= q * (h * p) /\ (q + 1) * (h * p + D) = q * (h * p) + q * D + h * p + D) by nia.
  assert (ED : p * cap = D) by (unfold D; ring). assert (ED' : cap * p = D) by done. assert (EDq : D * q = q * D) by ring.
  unfold DatabaseLayout.calculate, RegionLayout.new, RegionLayout.usable_bytes. osteps. cbn [num_pages page_size].
  osteps. rewrite ED. clearbody D. destruct (Z.leb_spec desired D).
  - destruct (region_calculate_ok desired cap h p) as (n & -> & Hn & Hnp); [lia|lia|lia|lia|]. cbn [mbind outcome_bind].
    assert (0 < n) by nia. exists 0, n. split; [|split; [lia|split; [done|split; lia]]].
    unfold mk_layout. by rewrite (proj2 (Z.eqb_neq n 0)) by lia.
  - osteps. fold q. osteps. assert (1 <= q) by nia. osteps.
    replace (desired - q * D) with (desired mod D) by lia. set (m := desired mod D) in *.
    destruct (Z.ltb_spec 0 m).
    + destruct (region_calculate_ok m cap h p) as (n & -> & Hn & Hnp); [lia|lia|lia|lia|]. cbn [mbind outcome_bind header_pages].
      osteps. assert (0 < n) by nia. exists q, n. split; [|split; [lia|split; [done|split; [lia|nia]]]].
      unfold mk_layout. by rewrite (proj2 (Z.eqb_neq n 0)) by lia.
    + cbn [mbind outcome_bind]. osteps. exists q, 0. split; [done|]. split; [lia|]. split; [lia|]. split; [lia|nia].
Qed.

(** ** [reduce_last_region] *)

(** Dropping pages from the end of the file. *)
Lemma reduce_last_region_ok l pages :
  layout_ok l -> 0 < regions_of l -> 0 < pages ->
  (forall r, trailing_partial_region l = Some r -> pages <= num_pages r) ->
  (trailing_partial_region l = None -> pages <= num_pages (full_region_layout l)) ->
  exists l', DatabaseLayout.reduce_last_region l pages = Ret l' /\ layout_ok l' /\
    full_region_layout l' = full_region_layout l /\
    num_full_regions l' * num_pages (full_region_layout l) +
      match trailing_partial_region l' with Some r => num_pages r | None => 0 end + pages =
    num_full_regions l * num_pages (full_region_layout l) +
      match trailing_partial_region l with Some r => num_pages r | None => 0 end.
Proof.
  intros Hl Hn Hpg Hs Hnone. pose proof Hl as [Hf Hc Ht Hsz]. unfold DatabaseLayout.reduce_last_region, regions_of in *.
  assert (0 < region_bytes (full_region_layout l)) by (unfold region_bytes; nia).
  destruct (trailing_partial_region l) as [r|] eqn:E.
  - specialize (Hs r eq_refl). specialize (Ht r eq_refl) as (Hh & Hp & Hnp). osteps.
    eexists. split; [done|]. split; [|split; [done|]].
    + split; cbn; [done|done| |done]. intros r' Hr'. destruct (Z.eqb_spec (num_pages r - pages) 0); [done|].
      injection Hr' as <-. cbn. lia.
    + cbn. destruct (Z.eqb_spec (num_pages r - pages) 0); cbn; lia.
  - specialize (Hnone eq_refl). osteps.
    assert (Hsz' : page_size (full_region_layout l) + (num_full_regions l - 1 + 1) * region_bytes (full_region_layout l) < 2 ^ 64) by nia.
    destruct (Z.ltb_spec pages (num_pages (full_region_layout l))).
    + osteps. unfold RegionLayout.new. osteps. eexists. split; [done|]. split; [|split; [done|cbn; lia]].
      split; cbn; [done|lia| |done]. intros r' [= <-]. cbn. lia.
    + eexists. split; [done|]. split; [|split; [done|cbn; lia]]. split; cbn; [done|lia|done|done].
Qed.

(** C39. The layout of a database is recovered from the length of its file: for a
    layout whose last region is partial or absent, [recalculate] on [len] gives
    the layout back, so a database file reopened after a crash has the regions
    it had. *)
Theorem layout_recalculate_roundtrip l :
  layout_ok l -> 0 < regions_of l -> data_bytes (full_region_layout l) <= 2 ^ 32 ->
  (forall r, trailing_partial_region l = Some r -> num_pages r < num_pages (full_region_layout l)) ->
  exists n, DatabaseLayout.len l = Ret n /\
    DatabaseLayout.recalculate n (header_pages (full_region_layout l))
      (num_pages (full_region_layout l)) (page_size (full_region_layout l)) = Ret l.
Proof. intros Hl Hn Hd Hp. exists (file_bytes l). split; [by apply layout_len_ok|by apply recalculate_len]. Qed.

Lemma layout_recalculate_roundtrip_witness :
  exists n, DatabaseLayout.len (mk_layout 1000 2 4096 3 17) = Ret n /\
    DatabaseLayout.recalculate n 2 1000 4096 = Ret (mk_layout 1000 2 4096 3 17).
Proof.
  apply (layout_recalculate_roundtrip (mk_layout 1000 2 4096 3 17)).
  - apply mk_layout_ok; lia.
  - vm_compute. done.
  - vm_compute. done.
  - intros r [= <-]. vm_compute. done.
Defined.

(** The regions tile the file after its header page: region 0 starts after the
    header, every region ends where the next one starts, and the last one ends
    at [len]. *)
Theorem layout_regions_tile l i r :
  layout_ok l -> 0 <= i < regions_of l -> DatabaseLayout.region_layout l i = Ret r ->
  exists base size total, DatabaseLayout.region_base_address l i = Ret base /\
    RegionLayout.len r = Ret size /\ DatabaseLayout.len l = Ret total /\
    (i = 0 -> base = page_size (full_region_layout l)) /\
    (if i + 1 <? regions_of l then DatabaseLayout.region_base_address l (i + 1) = Ret (base + size)
     else base + size = total).
Proof.
  intros Hl Hi Hr. destruct (region_layout_ok l Hl i Hi) as (r' & Hr' & Hcase). rewrite Hr in Hr'. injection Hr' as <-.
  destruct (region_len_ok l Hl r) as (Hlen & _); [destruct Hcase as [[_ ?]|[_ ->]]; auto|].
  do 3 eexists. split; [by apply region_base_ok|]. split; [exact Hlen|]. split; [apply layout_len_ok; [done|lia]|].
  split; [intros ->; lia|]. unfold regions_of, file_bytes in *. destruct (Z.ltb_spec (i + 1) (num_full_regions l +
    match trailing_partial_region l with Some _ => 1 | None => 0 end)) as [Hlt|Hge].
  - rewrite region_base_ok by (done || (unfold regions_of; lia)). f_equal.
    destruct Hcase as [[-> E]|[_ ->]]; [rewrite E in Hlt; lia|lia].
  - destruct Hcase as [[-> E]|[Hlt ->]]; [rewrite E; lia|].
    destruct (trailing_partial_region l); [lia|]. replace (num_full_regions l) with (i + 1) by lia. lia.
Qed.

Lemma layout_regions_tile_witness :
  exists base size total, DatabaseLayout.region_base_address (mk_layout 1000 2 4096 3 17) 2 = Ret base /\
    RegionLayout.len (RegionLayout.mk 1000 2 4096) = Ret size /\
    DatabaseLayout.len (mk_layout 1000 2 4096 3 17) = Ret total /\ (2 = 0 -> base = 4096) /\
    DatabaseLayout.region_base_address (mk_layout 1000 2 4096 3 17) 3 = Ret (base + size).
Proof.
  apply (layout_regions_tile (mk_layout 1000 2 4096 3 17) 2 (RegionLayout.mk 1000 2 4096));
    [apply mk_layout_ok; lia|vm_compute; done|vm_compute; reflexivity].
Defined.

(** [calculate] gives a layout with room for the desired bytes and less than a
    page more, in regions of the given capacity, without overflow. *)
Theorem layout_calculate_fits desired cap h p :
  0 < desired -> 0 < p < 2 ^ 32 -> 0 < cap < 2 ^ 32 -> 0 <= h < 2 ^ 32 ->
  p + (desired / (cap * p) + 1) * ((h + cap) * p) < 2 ^ 64 -> desired / (cap * p) < 2 ^ 32 - 1 ->
  exists l u, DatabaseLayout.calculate desired cap h p = Ret l /\ layout_ok l /\ 0 < regions_of l /\
    full_region_layout l = RegionLayout.mk cap h p /\
    DatabaseLayout.usable_bytes l = Ret u /\ desired <= u < desired + p.
Proof.
  intros Hd Hp Hc Hh Hs Hcnt.
  destruct (layout_calculate_ok desired cap h p Hd Hp Hc Hh Hs Hcnt) as (q & n & Hrun & Hq & Hn & Hqn & Hu).
  assert (0 < (h + cap) * p) by nia.
  destruct (mk_layout_ok cap h p q n Hp Hc Hh) as [Hok Hub]; [lia|lia|nia|].
  exists (mk_layout cap h p q n), ((q * cap + n) * p). split_and!; try done; [|lia|lia].
  unfold regions_of, mk_layout. cbn. destruct (Z.eqb_spec n 0); lia.
Qed.

Lemma layout_calculate_fits_witness :
  exists l u, DatabaseLayout.calculate 5000000 1000 2 4096 = Ret l /\ layout_ok l /\ 0 < regions_of l /\
    full_region_layout l = RegionLayout.mk 1000 2 4096 /\
    DatabaseLayout.usable_bytes l = Ret u /\ 5000000 <= u < 5000000 + 4096.
Proof. apply layout_calculate_fits; vm_compute; done. Defined.
