(* ===== verification/Region.v ===== *)
(** The region tracker and the allocators of all regions
    (src/src/tree_store/page_store/region.rs). *)
From S2P Require Import Prelude Bitmap Buddy Pages Layout.

(** * Model *)

(** [INITIAL_REGIONS] of src/src/tree_store/page_store/page_manager.rs *)
Definition INITIAL_REGIONS : Z := 1000.

(** Tracks the orders that may be free in each region. *)
Module RegionTracker.

Record t := mk { order_trackers : list BtreeBitmap.t }.

Definition new (regions orders : Z) : outcome t :=
  data ← omap_list (fun _ => BtreeBitmap.new_padded regions regions MAX_REGIONS) (seqZ 0 orders);
  Ret (mk data).

Definition to_vec (r : t) : outcome (list Z) :=
  orders ← utry 32 (vlen (order_trackers r));
  vecs ← omap_list BtreeBitmap.to_vec (order_trackers r);
  lens ← omap_list (fun v => utry 32 (vlen v)) vecs;
  Ret (to_le_bytes 4 orders ++ concat (map (to_le_bytes 4) lens) ++ concat vecs).

(** The loop of [from_bytes] over the lengths: [n] left, the next one at [start] *)
Fixpoint read_lens (n : nat) (page : list Z) (start : Z) : outcome (list Z * Z) :=
  match n with
  | O => Ret ([], start)
  | S m =>
      b ← slice page start (start + 4);
      r ← read_lens m page (start + 4);
      Ret (from_le_bytes b :: r.1, r.2)
  end.

(** The loop of [from_bytes] over the bitmaps *)
Fixpoint read_trackers (lens : list Z) (page : list Z) (start : Z) : outcome (list BtreeBitmap.t) :=
  match lens with
  | [] => Ret []
  | n :: rest =>
      d ← slice page start (start + n);
      bm ← BtreeBitmap.from_bytes d;
      r ← read_trackers rest page (start + n);
      Ret (bm :: r)
  end.

Definition from_bytes (page : list Z) : outcome t :=
  b ← slice page 0 4;
  ls ← read_lens (Z.to_nat (from_le_bytes b)) page 4;
  data ← read_trackers ls.1 page ls.2;
  Ret (mk data).

Definition find_free (r : t) (order : Z) : outcome (option Z) :=
  bm ← vget (order_trackers r) order;
  BtreeBitmap.find_first_unset bm.

(** [self.order_trackers[i].clear(region)] and [.set(region)] *)
Definition clear_at (region i : Z) (r : t) : outcome t :=
  bm ← vget (order_trackers r) i;
  bm' ← BtreeBitmap.clear bm region;
  d ← vset (order_trackers r) i bm';
  Ret (mk d).
Definition set_at (region i : Z) (r : t) : outcome t :=
  bm ← vget (order_trackers r) i;
  bm' ← BtreeBitmap.set bm region;
  d ← vset (order_trackers r) i bm';
  Ret (mk d).

Definition mark_free (r : t) (order region : Z) : outcome t :=
  for_each (clear_at region) (seqZ 0 (order + 1)) r.

Definition mark_full (r : t) (order region : Z) : outcome t :=
  _ ← rassert (order <? vlen (order_trackers r));
  for_each (set_at region) (seqZ order (vlen (order_trackers r) - order)) r.

Definition resize (r : t) (new_capacity : Z) : outcome t :=
  d ← omap_list (fun bm => BtreeBitmap.resize bm new_capacity true) (order_trackers r);
  Ret (mk d).

Definition len (r : t) : outcome Z :=
  bm ← vget (order_trackers r) 0;
  BtreeBitmap.len bm.

End RegionTracker.

Module Allocators.

Record t := mk { region_tracker : RegionTracker.t; region_allocators : list BuddyAllocator.t }.

(** One round of the loop of [new] *)
Definition new_region (layout : DatabaseLayout.t) (i : Z) (a : t) : outcome t :=
  region_layout ← DatabaseLayout.region_layout layout i;
  allocator ← BuddyAllocator.new (RegionLayout.num_pages region_layout)
    (RegionLayout.num_pages (DatabaseLayout.full_region_layout layout));
  let max_order := BuddyAllocator.get_max_order allocator in
  tr ← RegionTracker.mark_free (region_tracker a) max_order i;
  Ret (mk tr (region_allocators a ++ [allocator])).

Definition new (layout : DatabaseLayout.t) : outcome t :=
  n ← DatabaseLayout.num_regions layout;
  tr ← RegionTracker.new (Z.max INITIAL_REGIONS n) (MAX_MAX_PAGE_ORDER + 1);
  for_each (new_region layout) (seqZ 0 n) (mk tr []).

(** The layout of the last region *)
Definition last_layout (l : DatabaseLayout.t) : RegionLayout.t :=
  default (DatabaseLayout.full_region_layout l) (DatabaseLayout.trailing_partial_region l).

(** What [resize_to] does *)
Inductive direction := Shrink | NoOp | Grow.

Definition resize_direction (a : t) (new_layout : DatabaseLayout.t) : outcome direction :=
  n ← DatabaseLayout.num_regions new_layout;
  match Z.compare n (vlen (region_allocators a)) with
  | Lt => Ret Shrink
  | Gt => Ret Grow
  | Eq =>
      allocator ← unwrap (last (region_allocators a));
      match Z.compare (RegionLayout.num_pages (last_layout new_layout)) (BuddyAllocator.len allocator) with
      | Lt => Ret Shrink
      | Eq => Ret NoOp
      | Gt => Ret Grow
      end
  end.

Definition resize_shrink (a : t) (new_layout : DatabaseLayout.t) : outcome t :=
  n ← DatabaseLayout.num_regions new_layout;
  old ← utry 32 (vlen (region_allocators a));
  tr ← for_each (fun i tr => RegionTracker.mark_full tr 0 i) (seqZ n (old - n)) (region_tracker a);
  let kept := take (Z.to_nat n) (region_allocators a) in
  let last_region := last_layout new_layout in
  allocator ← unwrap (last kept);
  if RegionLayout.num_pages last_region <? BuddyAllocator.len allocator then
    allocator' ← BuddyAllocator.resize allocator (RegionLayout.num_pages last_region);
    kept' ← vset kept (vlen kept - 1) allocator';
    Ret (mk tr kept')
  else Ret (mk tr kept).

(** One round of the growing loop of [resize_to] *)
Definition grow_region (new_layout : DatabaseLayout.t) (old_num_regions i : Z) (a : t) : outcome t :=
  new_region ← DatabaseLayout.region_layout new_layout i;
  if i <? old_num_regions then
    allocator ← vget (region_allocators a) i;
    _ ← rassert (BuddyAllocator.len allocator <=? RegionLayout.num_pages new_region);
    if RegionLayout.num_pages new_region =? BuddyAllocator.len allocator then Ret a
    else
      allocator' ← BuddyAllocator.resize allocator (RegionLayout.num_pages new_region);
      h ← BuddyAllocator.highest_free_order allocator';
      highest_free ← unwrap h;
      tr ← RegionTracker.mark_free (region_tracker a) highest_free i;
      rs ← vset (region_allocators a) i allocator';
      Ret (mk tr rs)
  else
    allocator ← BuddyAllocator.new (RegionLayout.num_pages new_region)
      (RegionLayout.num_pages (DatabaseLayout.full_region_layout new_layout));
    h ← BuddyAllocator.highest_free_order allocator;
    highest_free ← unwrap h;
    tl ← RegionTracker.len (region_tracker a);
    tr ← (if tl <=? i then RegionTracker.resize (region_tracker a) (i + 1) else Ret (region_tracker a));
    tr' ← RegionTracker.mark_free tr highest_free i;
    Ret (mk tr' (region_allocators a ++ [allocator])).

Definition resize_to (a : t) (new_layout : DatabaseLayout.t) : outcome t :=
  d ← resize_direction a new_layout;
  match d with
  | NoOp => Ret a
  | Shrink => resize_shrink a new_layout
  | Grow =>
      n ← DatabaseLayout.num_regions new_layout;
      for_each (grow_region new_layout (vlen (region_allocators a))) (seqZ 0 n) a
  end.

End Allocators.

(** * The tracker *)

Import RegionTracker (order_trackers).
#[local] Arguments height_for : simpl never.

(** The tracker says region [i] may have a free page of order [o]. *)
Definition may_free (r : RegionTracker.t) (o i : Z) : bool :=
  match order_trackers r !! Z.to_nat o with Some bm => negb (bbit bm i) | None => false end.

(** [k] trackers of [n] regions, tall enough for [MAX_REGIONS]. *)
Record tracker_ok (k n : Z) (r : RegionTracker.t) : Prop := {
  to_count : vlen (order_trackers r) = k;
  to_range : 0 <= n <= MAX_REGIONS;
  to_bitmaps : forall i bm, order_trackers r !! i = Some bm ->
    bwf bm /\ blen bm = n /\ bheight bm = height_for 6 MAX_REGIONS }.

Lemma tracker_lookup k n r o :
  tracker_ok k n r -> 0 <= o < k -> exists bm, vget (order_trackers r) o = Ret bm /\
    order_trackers r !! Z.to_nat o = Some bm /\ bwf bm /\ blen bm = n /\
    bheight bm = height_for 6 MAX_REGIONS /\ forall i, may_free r o i = negb (bbit bm i).
Proof.
  intros [Hk _ Hb] Ho. destruct (lookup_lt_is_Some_2 (order_trackers r) (Z.to_nat o)) as [bm Hbm];
    [unfold vlen in Hk; lia|]. exists bm. split; [apply vget_ok; [lia|done]|]. split; [done|].
  destruct (Hb _ _ Hbm) as (? & ? & ?). do 3 (split; [done|]). intros i. unfold may_free. by rewrite Hbm.
Qed.

(** Replacing one bitmap. *)
Lemma tracker_put k n r o bm' :
  tracker_ok k n r -> 0 <= o < k -> bwf bm' -> blen bm' = n -> bheight bm' = height_for 6 MAX_REGIONS ->
  exists d, vset (order_trackers r) o bm' = Ret d /\ tracker_ok k n (RegionTracker.mk d) /\
    forall o' i, 0 <= o' -> may_free (RegionTracker.mk d) o' i = if o' =? o then negb (bbit bm' i) else may_free r o' i.
Proof.
  intros [Hk Hr Hb] Ho Hwf Hl Hh. unfold vlen in Hk. rewrite vset_ok by (unfold vlen; lia). eexists. split; [done|].
  split; [split|].
  - cbn. unfold vlen. by rewrite length_insert.
  - done.
  - cbn. intros i bm Hi. destruct (decide (i = Z.to_nat o)) as [->|].
    + rewrite list_lookup_insert_eq in Hi by lia. by injection Hi as <-.
    + rewrite list_lookup_insert_ne in Hi by done. eauto.
  - intros o' i Ho'. unfold may_free. cbn. destruct (Z.eqb_spec o' o) as [->|].
    + by rewrite list_lookup_insert_eq by lia.
    + by rewrite list_lookup_insert_ne by lia.
Qed.

Lemma tracker_clear_ok k n r o region :
  tracker_ok k n r -> 0 <= o < k -> 0 <= region < n ->
  exists r', RegionTracker.clear_at region o r = Ret r' /\ tracker_ok k n r' /\
    forall o' i, 0 <= o' -> 0 <= i -> may_free r' o' i = ((o' =? o) && (i =? region)) || may_free r o' i.
Proof.
  intros Hr Ho Hi. destruct (tracker_lookup _ _ _ _ Hr Ho) as (bm & Hg & _ & Hwf & Hl & Hh & Hm).
  unfold RegionTracker.clear_at. rewrite Hg. cbn [mbind outcome_bind].
  destruct (bt_clear_spec bm region Hwf ltac:(lia)) as (bm' & -> & Hwf' & Hl' & Hh' & Hbit). cbn [mbind outcome_bind].
  destruct (tracker_put k n r o bm' Hr Ho Hwf') as (d & -> & Hd & Hmd); [congruence|congruence|]. cbn [mbind outcome_bind].
  eexists. split; [done|]. split; [done|]. intros o' i Ho' Hi'. rewrite Hmd by done.
  destruct (Z.eqb_spec o' o) as [->|]; cbn [andb orb]; [|done]. rewrite Hbit, Hm by done. by destruct (i =? region).
Qed.

Lemma tracker_set_ok k n r o region :
  tracker_ok k n r -> 0 <= o < k -> 0 <= region < n ->
  exists r', RegionTracker.set_at region o r = Ret r' /\ tracker_ok k n r' /\
    forall o' i, 0 <= o' -> 0 <= i -> may_free r' o' i = negb ((o' =? o) && (i =? region)) && may_free r o' i.
Proof.
  intros Hr Ho Hi. destruct (tracker_lookup _ _ _ _ Hr Ho) as (bm & Hg & _ & Hwf & Hl & Hh & Hm).
  unfold RegionTracker.set_at. rewrite Hg. cbn [mbind outcome_bind].
  destruct (bt_set_spec bm region Hwf ltac:(lia)) as (bm' & -> & Hwf' & Hl' & Hh' & Hbit). cbn [mbind outcome_bind].
  destruct (tracker_put k n r o bm' Hr Ho Hwf') as (d & -> & Hd & Hmd); [congruence|congruence|]. cbn [mbind outcome_bind].
  eexists. split; [done|]. split; [done|]. intros o' i Ho' Hi'. rewrite Hmd by done.
  destruct (Z.eqb_spec o' o) as [->|]; cbn [andb orb negb]; [|done]. rewrite Hbit, Hm by done. by destruct (i =? region).
Qed.

Lemma range_empty lo o : (lo <=? o) && (o <? lo + 0) = false.
Proof. destruct (Z.leb_spec lo o), (Z.ltb_spec o (lo + 0)); cbn; lia || done. Qed.

Lemma range_step lo o m : 0 <= m ->
  (lo + 1 <=? o) && (o <? lo + 1 + m) || (o =? lo) = (lo <=? o) && (o <? lo + (m + 1)).
Proof.
  intros Hm. destruct (Z.leb_spec (lo + 1) o), (Z.ltb_spec o (lo + 1 + m)), (Z.eqb_spec o lo),
    (Z.leb_spec lo o), (Z.ltb_spec o (lo + (m + 1))); cbn; lia || done.
Qed.

(** [mark_free] clears the orders up to the given one, [mark_full] sets the
    orders from it on. *)
Lemma mark_free_loop k n region m : forall lo r,
  tracker_ok k n r -> 0 <= lo -> lo + Z.of_nat m <= k -> 0 <= region < n ->
  exists r', for_each (RegionTracker.clear_at region) (seqZ lo (Z.of_nat m)) r = Ret r' /\ tracker_ok k n r' /\
    forall o i, 0 <= o -> 0 <= i ->
      may_free r' o i = ((lo <=? o) && (o <? lo + Z.of_nat m) && (i =? region)) || may_free r o i.
Proof.
  induction m as [|m IH]; intros lo r Hr Hlo Hk Hi.
  { exists r. split; [done|]. split; [done|]. intros o i Ho Hi'.
    change (Z.of_nat 0) with 0. by rewrite range_empty. }
  rewrite seqZ_cons by lia. cbn [for_each].
  destruct (tracker_clear_ok k n r lo region Hr ltac:(lia) Hi) as (r1 & -> & Hr1 & Hm1). cbn [mbind outcome_bind].
  replace (Z.pred (Z.of_nat (S m))) with (Z.of_nat m) by lia. replace (Z.succ lo) with (lo + 1) by lia.
  destruct (IH (lo + 1) r1 Hr1 ltac:(lia) ltac:(lia) Hi) as (r2 & -> & Hr2 & Hm2).
  exists r2. split; [done|]. split; [done|]. intros o i Ho Hi'. rewrite Hm2, Hm1 by done.
  rewrite orb_assoc. f_equal. rewrite <-andb_orb_distrib_l. f_equal.
  replace (Z.of_nat (S m)) with (Z.of_nat m + 1) by lia. apply range_step. lia.
Qed.

Lemma mark_free_ok k n r order region :
  tracker_ok k n r -> 0 <= order < k -> 0 <= region < n ->
  exists r', RegionTracker.mark_free r order region = Ret r' /\ tracker_ok k n r' /\
    forall o i, 0 <= o -> 0 <= i -> may_free r' o i = ((o <=? order) && (i =? region)) || may_free r o i.
Proof.
  intros Hr Ho Hi. unfold RegionTracker.mark_free.
  destruct (mark_free_loop k n region (Z.to_nat (order + 1)) 0 r Hr) as (r' & Hrun & Hr' & Hm); [lia|lia|done|].
  replace (Z.of_nat (Z.to_nat (order + 1))) with (order + 1) in * by lia.
  exists r'. split; [done|]. split; [done|]. intros o i Ho' Hi'. rewrite Hm by done. f_equal. f_equal. lia.
Qed.

Lemma mark_full_loop k n region m : forall lo r,
  tracker_ok k n r -> 0 <= lo -> lo + Z.of_nat m <= k -> 0 <= region < n ->
  exists r', for_each (RegionTracker.set_at region) (seqZ lo (Z.of_nat m)) r = Ret r' /\ tracker_ok k n r' /\
    forall o i, 0 <= o -> 0 <= i ->
      may_free r' o i = negb ((lo <=? o) && (o <? lo + Z.of_nat m) && (i =? region)) && may_free r o i.
Proof.
  induction m as [|m IH]; intros lo r Hr Hlo Hk Hi.
  { exists r. split; [done|]. split; [done|]. intros o i Ho Hi'.
    change (Z.of_nat 0) with 0. by rewrite range_empty. }
  rewrite seqZ_cons by lia. cbn [for_each].
  destruct (tracker_set_ok k n r lo region Hr ltac:(lia) Hi) as (r1 & -> & Hr1 & Hm1). cbn [mbind outcome_bind].
  replace (Z.pred (Z.of_nat (S m))) with (Z.of_nat m) by lia. replace (Z.succ lo) with (lo + 1) by lia.
  destruct (IH (lo + 1) r1 Hr1 ltac:(lia) ltac:(lia) Hi) as (r2 & -> & Hr2 & Hm2).
  exists r2. split; [done|]. split; [done|]. intros o i Ho Hi'. rewrite Hm2, Hm1 by done.
  rewrite andb_assoc. f_equal. rewrite <-negb_orb. f_equal. rewrite <-andb_orb_distrib_l. f_equal.
  replace (Z.of_nat (S m)) with (Z.of_nat m + 1) by lia. apply range_step. lia.
Qed.

Lemma mark_full_ok k n r order region :
  tracker_ok k n r -> 0 <= order < k -> 0 <= region < n ->
  exists r', RegionTracker.mark_full r order region = Ret r' /\ tracker_ok k n r' /\
    forall o i, 0 <= o < k -> 0 <= i -> may_free r' o i = negb ((order <=? o) && (i =? region)) && may_free r o i.
Proof.
  intros Hr Ho Hi. unfold RegionTracker.mark_full. pose proof (to_count _ _ _ Hr) as Hk. rewrite Hk.
  rewrite (proj2 (Z.ltb_lt _ _)) by lia. cbn [rassert mbind outcome_bind].
  destruct (mark_full_loop k n region (Z.to_nat (k - order)) order r Hr) as (r' & Hrun & Hr' & Hm); [lia|lia|done|].
  replace (Z.of_nat (Z.to_nat (k - order))) with (k - order) in * by lia.
  exists r'. split; [done|]. split; [done|]. intros o i Ho' Hi'. rewrite Hm by lia. f_equal. f_equal. f_equal. lia.
Qed.

(** [find_free] returns the lowest region marked for the order. *)
Lemma find_free_ok k n r order :
  tracker_ok k n r -> 0 <= order < k ->
  exists o, RegionTracker.find_free r order = Ret o /\
    match o with
    | Some i => 0 <= i < n /\ may_free r order i = true /\ forall j, 0 <= j < i -> may_free r order j = false
    | None => forall j, 0 <= j -> may_free r order j = false
    end.
Proof.
  intros Hr Ho. destruct (tracker_lookup _ _ _ _ Hr Ho) as (bm & Hg & _ & Hwf & Hl & _ & Hm).
  unfold RegionTracker.find_free. rewrite Hg. cbn [mbind outcome_bind].
  destruct (bt_find_first_unset_spec bm Hwf) as (o & Hrun & Ho'). exists o. split; [done|].
  destruct o as [i|].
  - destruct Ho' as (Hi & Hf & Hlow). rewrite Hl in Hi. split; [done|]. rewrite Hm, Hf. split; [done|].
    intros j Hj. rewrite Hm, Hlow by done. done.
  - intros j Hj. by rewrite Hm, Ho'.
Qed.

(** A list whose elements are all built the same way. *)
Lemma omap_list_const {A B} (f : A -> outcome B) (P : B -> Prop) l :
  (forall x, exists y, f x = Ret y /\ P y) ->
  exists ys, omap_list f l = Ret ys /\ length ys = length l /\ Forall P ys.
Proof.
  intros Hf. induction l as [|x l (ys & Hl & Hlen & HP)]; [by exists []|].
  destruct (Hf x) as (y & Hy & Py). exists (y :: ys). cbn [omap_list]. rewrite Hy. cbn [mbind outcome_bind].
  rewrite Hl. split; [done|]. split; [simpl; lia|by constructor].
Qed.

Lemma tracker_new_ok n k :
  0 <= n <= MAX_REGIONS -> 0 <= k ->
  exists r, RegionTracker.new n k = Ret r /\ tracker_ok k n r /\ forall o i, 0 <= i -> may_free r o i = false.
Proof.
  intros Hn Hk. unfold RegionTracker.new. change MAX_REGIONS with (2 ^ 20) in *.
  destruct (omap_list_const (fun _ : Z => BtreeBitmap.new_padded n n (2 ^ 20))
    (fun bm => (bwf bm /\ blen bm = n /\ bheight bm = height_for 6 (2 ^ 20)) /\ forall j, 0 <= j -> bbit bm j = true)
    (seqZ 0 k)) as (ys & -> & Hlen & HP).
  { intros _. destruct (bt_new_padded_spec n (2 ^ 20)) as (b & Hb & ? & ? & ? & ?); [lia|lia|]. exists b. done. }
  cbn [mbind outcome_bind]. eexists. split; [done|]. rewrite length_seqZ in Hlen. split.
  - split; cbn; [unfold vlen; lia|done|]. intros i bm Hi. eapply Forall_lookup_1 in HP as [? _]; done.
  - intros o i Hi. unfold may_free. cbn. destruct (ys !! Z.to_nat o) as [bm|] eqn:E; [|done].
    eapply Forall_lookup_1 in HP as [_ ->]; done.
Qed.

Lemma omap_list_Forall2_ok {A B} (f : A -> outcome B) (R : A -> B -> Prop) l :
  Forall (fun x => exists y, f x = Ret y /\ R x y) l ->
  exists ys, omap_list f l = Ret ys /\ Forall2 R l ys.
Proof.
  induction 1 as [|x l (y & Hy & Rxy) _ (ys & Hl & HR)]; [by exists []|].
  exists (y :: ys). cbn [omap_list]. rewrite Hy. cbn [mbind outcome_bind]. rewrite Hl. split; [done|by constructor].
Qed.

(** Growing the tracker: the new regions are marked full. *)
Lemma tracker_resize_ok k n m r :
  tracker_ok k n r -> n <= m <= MAX_REGIONS ->
  exists r', RegionTracker.resize r m = Ret r' /\ tracker_ok k m r' /\
    forall o i, 0 <= i -> may_free r' o i = may_free r o i.
Proof.
  intros [Hk Hn Hb] Hm. unfold RegionTracker.resize. change MAX_REGIONS with (2 ^ 20) in *.
  destruct (omap_list_Forall2_ok (fun bm => BtreeBitmap.resize bm m true)
    (fun bm bm' => bwf bm' /\ blen bm' = m /\ bheight bm' = bheight bm /\ forall j, 0 <= j -> bbit bm' j = bbit bm j)
    (order_trackers r)) as (ys & -> & HR).
  { apply Forall_lookup. intros i bm Hi. destruct (Hb i bm Hi) as (Hwf & Hl & Hh).
    apply bt_resize_spec; [done|lia| |].
    - rewrite Hh. etransitivity; [apply Hm|]. apply height_for_bound. done.
    - intros j Hj. rewrite Z.min_r in Hj by lia. pose proof (leaf_level_wf _ _ Hwf) as (_ & Hp & _). apply Hp. exact Hj. }
  cbn [mbind outcome_bind]. eexists. split; [done|]. pose proof (Forall2_length _ _ _ HR). split.
  - split; cbn; [unfold vlen in *; lia|change MAX_REGIONS with (2 ^ 20); lia|]. intros i bm' Hi.
    destruct (Forall2_lookup_r _ _ _ _ _ HR Hi) as (bm & Hi0 & ? & ? & Hh & _). destruct (Hb i bm Hi0) as (_ & _ & Hh0).
    split; [done|]. split; [done|]. by rewrite Hh.
  - intros o i Hi. unfold may_free. cbn. destruct (order_trackers r !! Z.to_nat o) as [bm|] eqn:E.
    + destruct (Forall2_lookup_l _ _ _ _ _ HR E) as (bm' & -> & _ & _ & _ & Hbit). by rewrite Hbit.
    + by rewrite (lookup_ge_None_2 ys) by (apply lookup_ge_None in E; lia).
Qed.

Lemma tracker_len_ok k n r : tracker_ok k n r -> 0 < k -> RegionTracker.len r = Ret n.
Proof.
  intros Hr Hk. destruct (tracker_lookup _ _ _ 0 Hr ltac:(lia)) as (bm & Hg & _ & Hwf & Hl & _).
  unfold RegionTracker.len. rewrite Hg. cbn [mbind outcome_bind]. by rewrite bt_len_spec, Hl.
Qed.

(** ** Serialization of the tracker *)

Lemma read_lens_ok lens : forall A B start,
  Forall (fun x => 0 <= x < 2 ^ 32) lens -> start = vlen A ->
  RegionTracker.read_lens (length lens) (A ++ concat (map (to_le_bytes 4) lens) ++ B) start =
    Ret (lens, start + 4 * vlen lens).
Proof.
  induction lens as [|x lens IH]; intros A B start Hl ->; cbn [length RegionTracker.read_lens map concat].
  { f_equal. f_equal. unfold vlen. simpl. lia. }
  apply Forall_cons in Hl as [Hx Hl]. rewrite <-app_assoc.
  rewrite (slice_middle A (to_le_bytes 4 x)) by (by rewrite ?vlen_to_le_bytes). cbn [mbind outcome_bind].
  rewrite app_assoc, (IH (A ++ to_le_bytes 4 x) B) by (done || by rewrite vlen_app, vlen_to_le_bytes).
  cbn [mbind outcome_bind fst snd]. rewrite from_to_le_bytes by exact Hx. f_equal. f_equal. unfold vlen. simpl. lia.
Qed.

Lemma read_trackers_ok bms vecs : forall A start,
  Forall2 (fun bm v => BtreeBitmap.from_bytes v = Ret bm) bms vecs -> start = vlen A ->
  RegionTracker.read_trackers (map vlen vecs) (A ++ concat vecs) start = Ret bms.
Proof.
  revert vecs. induction bms as [|bm bms IH]; intros vecs A start HF ->.
  { apply Forall2_nil_inv_l in HF as ->. done. }
  destruct vecs as [|v vecs]; [by apply Forall2_length in HF|]. apply Forall2_cons_1 in HF as [Hv HF].
  cbn [map RegionTracker.read_trackers concat]. rewrite (slice_middle A v) by done. cbn [mbind outcome_bind].
  rewrite Hv. cbn [mbind outcome_bind]. rewrite app_assoc, (IH vecs (A ++ v)) by (done || by rewrite vlen_app). done.
Qed.

Lemma tracker_roundtrip k n r :
  tracker_ok k n r -> 0 <= k < 2 ^ 32 ->
  exists v r', RegionTracker.to_vec r = Ret v /\ RegionTracker.from_bytes v = Ret r' /\ tracker_ok k n r' /\
    forall o i, 0 <= i -> may_free r' o i = may_free r o i.
Proof.
  intros [Hk Hn Hb] Hkb. change MAX_REGIONS with (2 ^ 20) in *.
  set (R := fun bm v => exists bm', BtreeBitmap.to_vec bm = Ret v /\ vlen v < 2 ^ 32 /\ BtreeBitmap.from_bytes v = Ret bm' /\
     bwf bm' /\ blen bm' = blen bm /\ bheight bm' = bheight bm /\ forall j, 0 <= j -> bbit bm' j = bbit bm j).
  destruct (omap_list_Forall2_ok BtreeBitmap.to_vec R (order_trackers r)) as (vecs & Hvecs & HR).
  { apply Forall_lookup. intros i bm Hi. destruct (Hb i bm Hi) as (Hwf & Hl & Hh).
    destruct (bt_serialize_spec bm (2 ^ 17) Hwf) as (v & bm' & Hv & Hsz & ?); [lia|lia|rewrite Hh; apply height_for_le|].
    exists v. split; [done|]. exists bm'. split; [done|]. split; [lia|done]. }
  assert (exists bms, Forall2 (fun bm v => BtreeBitmap.from_bytes v = Ret bm) bms vecs /\
    Forall2 (fun bm bm' => bwf bm' /\ blen bm' = blen bm /\ bheight bm' = bheight bm /\
       forall j, 0 <= j -> bbit bm' j = bbit bm j) (order_trackers r) bms) as (bms & Hread & Hsame).
  { clear -HR. induction HR as [|bm v bms vs (bm' & _ & _ & Hr & Hs) _ (l & H1 & H2)]; [by exists []|].
    exists (bm' :: l). split; by constructor. }
  assert (Hlens : omap_list (fun v => utry 32 (vlen v)) vecs = Ret (map vlen vecs)).
  { clear -HR. induction HR as [|bm v bms vs (bm' & _ & Hv & _) _ IH]; [done|]. cbn [omap_list map].
    rewrite utry_ok by (pose proof (vlen_nonneg v); lia). cbn [mbind outcome_bind]. by rewrite IH. }
  pose proof (Forall2_length _ _ _ HR) as Hlen.
  unfold RegionTracker.to_vec. rewrite utry_ok by lia. cbn [mbind outcome_bind]. rewrite Hvecs. cbn [mbind outcome_bind].
  rewrite Hlens. cbn [mbind outcome_bind]. eexists _, (RegionTracker.mk bms). split; [done|]. split.
  - unfold RegionTracker.from_bytes. rewrite slice_prefix by apply vlen_to_le_bytes.
    cbn [mbind outcome_bind]. rewrite from_to_le_bytes by (rewrite Hk; exact Hkb).
    replace (Z.to_nat (vlen (order_trackers r))) with (length (map vlen vecs)) by (rewrite length_map; unfold vlen; lia).
    rewrite read_lens_ok; [| |by rewrite vlen_to_le_bytes].
    2:{ clear -HR. induction HR as [|bm v bms vs (bm' & _ & Hv & _) _ IH]; constructor; [|done]. pose proof (vlen_nonneg v). lia. }
    cbn [mbind outcome_bind fst snd]. rewrite app_assoc.
    rewrite (read_trackers_ok bms); [done|done|]. rewrite vlen_app, vlen_to_le_bytes.
    rewrite (vlen_concat_chunks (to_le_bytes 4) 4) by apply length_to_le_bytes. lia.
  - pose proof (Forall2_length _ _ _ Hsame). split.
    + split; cbn; [unfold vlen in *; lia|done|]. intros i bm' Hi.
      destruct (Forall2_lookup_r _ _ _ _ _ Hsame Hi) as (bm & Hi0 & ? & Hl' & Hh' & _). destruct (Hb i bm Hi0) as (_ & Hl & Hh).
      split; [done|]. split; [by rewrite Hl'|by rewrite Hh'].
    + intros o i Hi. unfold may_free. cbn. destruct (order_trackers r !! Z.to_nat o) as [bm|] eqn:E.
      * destruct (Forall2_lookup_l _ _ _ _ _ Hsame E) as (bm' & -> & _ & _ & _ & Hbit). by rewrite Hbit.
      * by rewrite (lookup_ge_None_2 bms) by (apply lookup_ge_None in E; lia).
Qed.

(** * The allocators *)

Import Allocators (region_tracker, region_allocators).

(** The allocator of a region of capacity [cap]. *)
Definition region_ok (cap : Z) (b : BuddyAllocator.t) : Prop :=
  bud_ok cap (BuddyAllocator.len b) b /\ BuddyAllocator.max_order b = Z.min 20 (Z.log2 cap) /\ 0 < BuddyAllocator.len b.

Section allocators.
  Context (K : Z).

(** The invariant: the allocators of the regions are consistent; up to order [K]
    the tracker never hides a free page (it may be optimistic), and it knows no
    region that does not exist. *)
Record alloc_ok (cap n : Z) (a : Allocators.t) : Prop := {
  ao_tracker : tracker_ok (MAX_MAX_PAGE_ORDER + 1) n (region_tracker a);
  ao_cap : 0 < cap <= MAX_PAGE_INDEX + 1;
  ao_regions : vlen (region_allocators a) <= n;
  ao_buddy : forall i b, region_allocators a !! i = Some b -> region_ok cap b;
  ao_optimistic : forall i b o p, region_allocators a !! i = Some b -> fa b o p = true ->
    forall o', 0 <= o' <= Z.min o K -> may_free (region_tracker a) o' (Z.of_nat i) = true;
  ao_absent : forall o i, 0 <= o <= MAX_MAX_PAGE_ORDER -> vlen (region_allocators a) <= i ->
    may_free (region_tracker a) o i = false }.

(** Orders of marked blocks are in range. *)
Lemma region_fa_order cap b o p : region_ok cap b -> fa b o p = true -> 0 <= o <= MAX_MAX_PAGE_ORDER.
Proof.
  intros ([Hb Hv] & _) HF. pose proof (bo_order _ _ _ Hb). apply (vo_range _ _ _ Hv) in HF. lia.
Qed.

Lemma new_region_ok cap m :
  0 < m <= cap -> cap <= MAX_PAGE_INDEX + 1 ->
  exists b, BuddyAllocator.new m cap = Ret b /\ region_ok cap b /\ BuddyAllocator.len b = m /\
    forall q, pfree (fa b) q <-> 0 <= q < m.
Proof.
  intros Hm Hc. change (MAX_PAGE_INDEX + 1) with (2 ^ 20) in Hc.
  destruct (new_spec m cap ltac:(lia) ltac:(lia)) as (b & Hnew & Hb & Hl & Hmo & Hq).
  exists b. split; [done|]. split; [|done]. split; [by rewrite Hl|]. split; [done|lia].
Qed.

(** Appending a region whose free orders the tracker knows. *)
Lemma alloc_ok_snoc cap n a b tr' k :
  alloc_ok cap n a -> region_ok cap b -> vlen (region_allocators a) < n ->
  tracker_ok (MAX_MAX_PAGE_ORDER + 1) n tr' -> (forall o p, fa b o p = true -> o <= k) ->
  (forall o i, 0 <= o -> 0 <= i ->
    may_free tr' o i = ((o <=? k) && (i =? vlen (region_allocators a))) || may_free (region_tracker a) o i) ->
  alloc_ok cap n (Allocators.mk tr' (region_allocators a ++ [b])).
Proof.
  intros [Ht Hc Hr Hb Ho Ha] Hbr Hn Htr Hk Hm. set (m := vlen (region_allocators a)) in *.
  assert (Hm0 : 0 <= m) by apply vlen_nonneg. split; cbn.
  - done.
  - done.
  - rewrite vlen_app. change (vlen [b]) with 1. fold m. lia.
  - intros i b' Hi. apply lookup_app_Some in Hi as [Hi|[Hge Hi]]; [by eapply Hb|].
    apply list_lookup_singleton_Some in Hi as [_ <-]. done.
  - intros i b' o p Hi HF o' Ho'. rewrite Hm by lia. apply lookup_app_Some in Hi as [Hi|[Hge Hi]].
    + rewrite (Ho i b' o p Hi HF o' Ho'). by rewrite orb_true_r.
    + apply list_lookup_singleton_Some in Hi as [Hi <-]. specialize (Hk o p HF).
      rewrite (proj2 (Z.leb_le o' k)), (proj2 (Z.eqb_eq (Z.of_nat i) m)) by (unfold m, vlen; lia). done.
  - intros o i Ho' Hi. rewrite vlen_app in Hi. change (vlen [b]) with 1 in Hi. fold m in Hi.
    rewrite Hm, (Ha o i) by lia. rewrite (proj2 (Z.eqb_neq i m)) by lia. by rewrite andb_false_r.
Qed.

(** The allocators [a] have the regions of layout [l], every page free in those
    from [from] on. *)
Definition fresh_from (a : Allocators.t) (l : DatabaseLayout.t) (from : Z) : Prop :=
  forall i b, region_allocators a !! i = Some b -> from <= Z.of_nat i ->
    exists r, DatabaseLayout.region_layout l (Z.of_nat i) = Ret r /\
      BuddyAllocator.len b = RegionLayout.num_pages r /\
      forall q, pfree (fa b) q <-> 0 <= q < RegionLayout.num_pages r.

Lemma layout_pages l i r :
  layout_ok l -> 0 <= i < regions_of l -> DatabaseLayout.region_layout l i = Ret r ->
  0 < RegionLayout.num_pages r <= RegionLayout.num_pages (DatabaseLayout.full_region_layout l).
Proof.
  intros Hl Hi Hr. destruct (region_layout_ok l Hl i Hi) as (r' & Hr' & Hc). rewrite Hr in Hr'. injection Hr' as <-.
  pose proof (lo_full _ Hl) as (Hf & _). destruct Hc as [[_ Ht]|[_ ->]]; [|lia].
  by apply (lo_trailing _ Hl) in Ht as (_ & _ & ?).
Qed.

Lemma allocators_new_loop l cap n k : forall m a,
  layout_ok l -> RegionLayout.num_pages (DatabaseLayout.full_region_layout l) = cap ->
  alloc_ok cap n a -> vlen (region_allocators a) = m -> fresh_from a l 0 ->
  m + Z.of_nat k = regions_of l -> regions_of l <= n ->
  exists a', for_each (Allocators.new_region l) (seqZ m (Z.of_nat k)) a = Ret a' /\
    alloc_ok cap n a' /\ vlen (region_allocators a') = regions_of l /\ fresh_from a' l 0.
Proof.
  induction k as [|k IH]; intros m a Hl Hcap Ha Hm Hf Hk Hn.
  { exists a. split; [done|]. split; [done|]. split; [lia|done]. }
  pose proof (vlen_nonneg (region_allocators a)). rewrite seqZ_cons by lia. cbn [for_each].
  destruct (region_layout_ok l Hl m ltac:(lia)) as (r & Hr & _).
  pose proof (layout_pages l m r Hl ltac:(lia) Hr) as Hpg. rewrite Hcap in Hpg.
  destruct (new_region_ok cap (RegionLayout.num_pages r)) as (b & Hb & Hbr & Hbl & Hbq); [lia|apply (ao_cap _ _ _ Ha)|].
  unfold Allocators.new_region at 2. rewrite Hr. cbn [mbind outcome_bind]. rewrite Hcap, Hb. cbn [mbind outcome_bind].
  pose proof (bo_order _ _ _ (proj1 (proj1 Hbr))) as Hmo. unfold BuddyAllocator.get_max_order.
  destruct (mark_free_ok _ _ _ (BuddyAllocator.max_order b) m (ao_tracker _ _ _ Ha)) as (tr' & -> & Htr & Hmf); [lia|lia|].
  cbn [mbind outcome_bind]. replace (Z.pred (Z.of_nat (S k))) with (Z.of_nat k) by lia.
  replace (Z.succ m) with (m + 1) by lia. apply IH; [done|done| | | |lia|done].
  - eapply alloc_ok_snoc; [done|done|lia|done| |].
    + intros o p HF. by apply (vo_range _ _ _ (proj2 (proj1 Hbr))) in HF as [[_ ?] _].
    + rewrite Hm. exact Hmf.
  - cbn. rewrite vlen_app. change (vlen [b]) with 1. lia.
  - intros i b' Hi Hge. cbn in Hi. apply lookup_app_Some in Hi as [Hi|[Hge' Hi]]; [by apply Hf|].
    apply list_lookup_singleton_Some in Hi as [Hi <-]. exists r.
    replace (Z.of_nat i) with m by (unfold vlen in Hm; lia). done.
Qed.

(** [Allocators::new] makes every page of every region free. *)
Lemma allocators_new_ok l cap :
  layout_ok l -> RegionLayout.num_pages (DatabaseLayout.full_region_layout l) = cap ->
  cap <= MAX_PAGE_INDEX + 1 -> regions_of l <= MAX_REGIONS ->
  exists a, Allocators.new l = Ret a /\ alloc_ok cap (Z.max INITIAL_REGIONS (regions_of l)) a /\
    vlen (region_allocators a) = regions_of l /\ fresh_from a l 0.
Proof.
  intros Hl Hcap Hc Hr. unfold Allocators.new. rewrite num_regions_ok by done. cbn [mbind outcome_bind].
  set (n := Z.max INITIAL_REGIONS (regions_of l)).
  assert (0 <= regions_of l) by (pose proof (lo_count _ Hl); unfold regions_of; destruct (DatabaseLayout.trailing_partial_region l); lia).
  assert (Hn : 0 <= n <= MAX_REGIONS) by (unfold n; change MAX_REGIONS with 1048576 in *; change INITIAL_REGIONS with 1000; lia).
  destruct (tracker_new_ok n (MAX_MAX_PAGE_ORDER + 1) Hn) as (tr & -> & Htr & Hnone); [vm_compute; done|].
  cbn [mbind outcome_bind]. pose proof (lo_full _ Hl) as (Hf & _).
  destruct (allocators_new_loop l cap n (Z.to_nat (regions_of l)) 0 (Allocators.mk tr [])) as (a & Hrun & Ha);
    [done|done| |done|intros i b Hi; done|lia|unfold n; lia|].
  - split; cbn; [done|lia|unfold vlen; simpl; lia|done|done|]. intros o i Ho Hi. apply Hnone. unfold vlen in Hi. simpl in Hi. lia.
  - rewrite Z2Nat.id in Hrun by lia. by exists a.
Qed.

(** Replacing the allocator of region [i], whose free orders the tracker knows. *)
Lemma alloc_ok_update cap n a i b' tr' k :
  alloc_ok cap n a -> 0 <= i < vlen (region_allocators a) -> region_ok cap b' ->
  tracker_ok (MAX_MAX_PAGE_ORDER + 1) n tr' -> (forall o p, fa b' o p = true -> o <= k) ->
  (forall o j, 0 <= o -> 0 <= j ->
    may_free tr' o j = ((o <=? k) && (j =? i)) || may_free (region_tracker a) o j) ->
  alloc_ok cap n (Allocators.mk tr' (<[Z.to_nat i := b']> (region_allocators a))).
Proof.
  intros [Ht Hc Hr Hb Ho Ha] Hi Hb' Htr Hk Hm. unfold vlen in Hi. split; cbn.
  - done.
  - done.
  - unfold vlen in *. by rewrite length_insert.
  - intros j b0 Hj. destruct (decide (j = Z.to_nat i)) as [->|].
    + rewrite list_lookup_insert_eq in Hj by lia. by injection Hj as <-.
    + rewrite list_lookup_insert_ne in Hj by done. by eapply Hb.
  - intros j b0 o p Hj HF o' Ho'. rewrite Hm by lia. destruct (decide (j = Z.to_nat i)) as [->|].
    + rewrite list_lookup_insert_eq in Hj by lia. injection Hj as <-. specialize (Hk o p HF).
      rewrite (proj2 (Z.leb_le o' k)), (proj2 (Z.eqb_eq (Z.of_nat (Z.to_nat i)) i)) by lia. done.
    + rewrite list_lookup_insert_ne in Hj by done. rewrite (Ho j b0 o p Hj HF o' Ho'). by rewrite orb_true_r.
  - intros o j Ho' Hj. unfold vlen in *. rewrite length_insert in Hj. rewrite Hm, (Ha o j) by (unfold vlen; lia).
    rewrite (proj2 (Z.eqb_neq j i)) by lia. by rewrite andb_false_r.
Qed.

(** The highest free order of a region with a free page, as the tracker uses it. *)
Lemma highest_known cap b q :
  region_ok cap b -> pfree (fa b) q ->
  exists k, BuddyAllocator.highest_free_order b = Ret (Some k) /\ 0 <= k <= MAX_MAX_PAGE_ORDER /\
    forall o p, fa b o p = true -> o <= k.
Proof.
  intros Hb Hq. destruct (highest_free_order_spec _ _ b (proj1 Hb)) as (r & Hr & Hspec).
  destruct r as [k|]; [|by apply Hspec in Hq]. exists k. destruct Hspec as [[p Hp] Hhi]. split; [done|].
  split; [by eapply region_fa_order|]. intros o p' HF. destruct (Z.le_gt_cases o k) as [|Hgt]; [done|].
  rewrite Hhi in HF by done. done.
Qed.

(** Growing the allocator of a region. *)
Lemma grow_allocator_ok cap b m :
  region_ok cap b -> BuddyAllocator.len b < m -> m <= cap ->
  exists b' k, BuddyAllocator.resize b m = Ret b' /\ region_ok cap b' /\ BuddyAllocator.len b' = m /\
    BuddyAllocator.highest_free_order b' = Ret (Some k) /\ 0 <= k <= MAX_MAX_PAGE_ORDER /\
    (forall o p, fa b' o p = true -> o <= k) /\
    forall q, pfree (fa b') q <-> pfree (fa b) q \/ BuddyAllocator.len b <= q < m.
Proof.
  intros (Hb & Hmo & Hl) Hm Hc.
  destruct (resize_spec cap b m Hb) as (b' & Hrun & Hb' & Hl' & Hm' & Hq); [lia|by left|lia|].
  assert (Hok : region_ok cap b') by (split; [by rewrite Hl'|split; [congruence|lia]]).
  destruct (highest_known cap b' (BuddyAllocator.len b) Hok) as (k & Hk & Hkr & Hkm); [apply Hq; lia|].
  exists b', k. split_and!; try done; try lia. intros q. rewrite Hq. split; [intuition|].
  intros [Hpf|]; [|by right]. left. split; [done|]. pose proof (pfree_range _ _ _ _ (proj2 Hb) Hpf). lia.
Qed.

(** [b'] is [b] with its pages up to [m] added. *)
Definition grown (b b' : BuddyAllocator.t) (m : Z) : Prop :=
  BuddyAllocator.len b' = m /\ BuddyAllocator.len b <= m /\
  forall q, pfree (fa b') q <-> pfree (fa b) q \/ BuddyAllocator.len b <= q < m.

(** The tracker of [a] knows the free blocks of the regions below [m] that grew or are new. *)
Definition tracker_knows (a0 a : Allocators.t) (m : Z) : Prop :=
  forall i b o o' p, region_allocators a !! i = Some b -> Z.of_nat i < m ->
    (forall b0, region_allocators a0 !! i = Some b0 -> BuddyAllocator.len b0 < BuddyAllocator.len b) ->
    0 <= o <= o' -> fa b o' p = true -> may_free (region_tracker a) o (Z.of_nat i) = true.

(** The allocators after the growing loop has handled the regions below [m]:
    those of [a0] are grown to the layout, new ones are wholly free. *)
Definition grown_to (a0 a : Allocators.t) (l : DatabaseLayout.t) (m : Z) : Prop :=
  vlen (region_allocators a) = Z.max m (vlen (region_allocators a0)) /\
  (forall i b, region_allocators a0 !! i = Some b -> exists b', region_allocators a !! i = Some b' /\
     if Z.of_nat i <? m then exists r, DatabaseLayout.region_layout l (Z.of_nat i) = Ret r /\ grown b b' (RegionLayout.num_pages r)
     else b' = b) /\
  fresh_from a l (vlen (region_allocators a0)) /\
  tracker_knows a0 a m.

Lemma grow_existing_ok l cap n a0 a i :
  layout_ok l -> RegionLayout.num_pages (DatabaseLayout.full_region_layout l) = cap ->
  alloc_ok cap n a -> grown_to a0 a l i -> 0 <= i < vlen (region_allocators a0) -> i < regions_of l ->
  (forall b r, region_allocators a0 !! Z.to_nat i = Some b -> DatabaseLayout.region_layout l i = Ret r ->
     BuddyAllocator.len b <= RegionLayout.num_pages r) ->
  exists a', Allocators.grow_region l (vlen (region_allocators a0)) i a = Ret a' /\
    alloc_ok cap n a' /\ grown_to a0 a' l (i + 1).
Proof.
  intros Hl Hcap Ha (Hvl & Hold & Hfresh & Hknow) Hi Hir Hle. unfold Allocators.grow_region.
  destruct (region_layout_ok l Hl i ltac:(lia)) as (r & Hr & _). rewrite Hr. cbn [mbind outcome_bind].
  rewrite (proj2 (Z.ltb_lt _ _)) by lia.
  destruct (lookup_lt_is_Some_2 (region_allocators a0) (Z.to_nat i)) as [b Hb0]; [unfold vlen in Hi; lia|].
  destruct (Hold _ _ Hb0) as (b' & Hb' & Hcase). rewrite Z2Nat.id in Hcase by lia.
  rewrite (proj2 (Z.ltb_ge i i)) in Hcase by lia. subst b'. specialize (Hle b r Hb0 Hr).
  rewrite (vget_ok _ i b) by (done || lia). cbn [mbind outcome_bind]. ostep.
  pose proof (layout_pages l i r Hl ltac:(lia) Hr) as Hpg. rewrite Hcap in Hpg.
  assert (Hnext : forall a' b', (forall j x, region_allocators a !! j = Some x ->
      region_allocators a' !! j = Some (if decide (j = Z.to_nat i) then b' else x)) ->
      vlen (region_allocators a') = vlen (region_allocators a) -> grown b b' (RegionLayout.num_pages r) ->
      (forall o j, 0 <= o -> 0 <= j -> may_free (region_tracker a) o j = true -> may_free (region_tracker a') o j = true) ->
      (forall o o' p, BuddyAllocator.len b < BuddyAllocator.len b' -> 0 <= o <= o' -> fa b' o' p = true ->
        may_free (region_tracker a') o i = true) -> grown_to a0 a' l (i + 1)).
  { intros a' b1 Hsame Hlen Hgr Hmono Hkn. split; [lia|]. split; [|split].
    - intros j x Hj. destruct (Hold j x Hj) as (x' & Hx' & Hcx). exists (if decide (j = Z.to_nat i) then b1 else x').
      split; [by apply Hsame|]. destruct (decide (j = Z.to_nat i)) as [->|Hne].
      + rewrite Z2Nat.id by lia. rewrite (proj2 (Z.ltb_lt _ _)) by lia. exists r. rewrite Hb0 in Hj. by injection Hj as <-.
      + destruct (Z.ltb_spec (Z.of_nat j) i), (Z.ltb_spec (Z.of_nat j) (i + 1)); done || lia.
    - intros j x Hj Hge. destruct (region_allocators a !! j) as [y|] eqn:E.
      + rewrite (Hsame j y E) in Hj. rewrite decide_False in Hj by lia. injection Hj as <-. by apply (Hfresh j).
      + apply lookup_ge_None in E. apply lookup_lt_Some in Hj. unfold vlen in Hlen. lia.
    - intros j x o o' p Hj Hlt Hgrew Ho HF. destruct (region_allocators a !! j) as [y|] eqn:E.
      2:{ apply lookup_ge_None in E. apply lookup_lt_Some in Hj. unfold vlen in Hlen. lia. }
      rewrite (Hsame j y E) in Hj. injection Hj as <-. destruct (decide (j = Z.to_nat i)) as [->|Hne].
      + rewrite Z2Nat.id by lia. apply (Hkn o o' p); [by apply Hgrew|done|done].
      + apply Hmono; [lia|lia|]. eapply Hknow; try done. lia. }
  destruct (Z.eqb_spec (RegionLayout.num_pages r) (BuddyAllocator.len b)) as [E|Hne].
  - exists a. split; [done|]. split; [done|]. apply (Hnext a b); [|done| | |].
    + intros j x Hj. destruct (decide (j = Z.to_nat i)) as [->|]; [congruence|done].
    + rewrite E. split; [done|]. split; [done|]. intros q. intuition lia.
    + done.
    + lia.
  - destruct (grow_allocator_ok cap b (RegionLayout.num_pages r)) as (b' & k & -> & Hbr & Hbl & Hk & Hkr & Hkm & Hbq);
      [by eapply (ao_buddy _ _ _ Ha)|lia|lia|].
    cbn [mbind outcome_bind]. rewrite Hk. cbn [mbind outcome_bind unwrap].
    destruct (mark_free_ok _ _ _ k i (ao_tracker _ _ _ Ha)) as (tr' & -> & Htr & Hmf);
      [lia|pose proof (ao_regions _ _ _ Ha); lia|].
    cbn [mbind outcome_bind]. rewrite vset_ok by (unfold vlen in *; lia). cbn [mbind outcome_bind].
    eexists. split; [done|]. split; [eapply alloc_ok_update; try done; lia|].
    apply (Hnext _ b'); cbn.
    + intros j x Hj. destruct (decide (j = Z.to_nat i)) as [->|].
      * apply list_lookup_insert_eq. by apply lookup_lt_Some in Hj.
      * by rewrite list_lookup_insert_ne.
    + unfold vlen. by rewrite length_insert.
    + split; [done|]. split; [lia|done].
    + intros o j Ho Hj Hmay. rewrite Hmf, Hmay by done. apply orb_true_r.
    + intros o o' p _ Ho HF. apply Hkm in HF. rewrite Hmf by lia. rewrite (proj2 (Z.leb_le o k)) by lia. by rewrite Z.eqb_refl.
Qed.

Lemma alloc_ok_retrack cap n n' a tr :
  alloc_ok cap n a -> n <= n' -> tracker_ok (MAX_MAX_PAGE_ORDER + 1) n' tr ->
  (forall o i, 0 <= i -> may_free tr o i = may_free (region_tracker a) o i) ->
  alloc_ok cap n' (Allocators.mk tr (region_allocators a)).
Proof.
  intros [Ht Hc Hr Hb Ho Ha] Hn Htr Hm. split; cbn; try done; [lia| |].
  - intros i b o p Hi HF o' Ho'. rewrite Hm by lia. by eapply Ho.
  - intros o i Ho' Hi. pose proof (vlen_nonneg (region_allocators a)). rewrite Hm by lia. by apply Ha.
Qed.

Lemma grow_new_ok l cap n a0 a i :
  layout_ok l -> RegionLayout.num_pages (DatabaseLayout.full_region_layout l) = cap -> regions_of l <= MAX_REGIONS ->
  alloc_ok cap n a -> grown_to a0 a l i -> vlen (region_allocators a0) <= i < regions_of l ->
  exists a' n', Allocators.grow_region l (vlen (region_allocators a0)) i a = Ret a' /\
    alloc_ok cap n' a' /\ grown_to a0 a' l (i + 1).
Proof.
  intros Hl Hcap Hreg Ha (Hvl & Hold & Hfresh & Hknow) Hi. pose proof (vlen_nonneg (region_allocators a0)).
  unfold Allocators.grow_region.
  destruct (region_layout_ok l Hl i ltac:(lia)) as (r & Hr & _). rewrite Hr. cbn [mbind outcome_bind].
  rewrite (proj2 (Z.ltb_ge _ _)) by lia. rewrite Hcap.
  pose proof (layout_pages l i r Hl ltac:(lia) Hr) as Hpg. rewrite Hcap in Hpg.
  destruct (new_region_ok cap (RegionLayout.num_pages r)) as (b & -> & Hbr & Hbl & Hbq); [lia|apply (ao_cap _ _ _ Ha)|].
  cbn [mbind outcome_bind].
  destruct (highest_known cap b 0 Hbr) as (k & -> & Hkr & Hkm); [apply Hbq; lia|]. cbn [mbind outcome_bind unwrap].
  pose proof (ao_tracker _ _ _ Ha) as Htr. rewrite (tracker_len_ok _ _ _ Htr) by (vm_compute; done). cbn [mbind outcome_bind].
  pose proof (ao_regions _ _ _ Ha) as Hrn.
  assert (exists tr n', (if n <=? i then RegionTracker.resize (region_tracker a) (i + 1) else Ret (region_tracker a)) = Ret tr /\
    alloc_ok cap n' (Allocators.mk tr (region_allocators a)) /\ i < n' /\
    forall o j, 0 <= j -> may_free tr o j = may_free (region_tracker a) o j) as (tr & n' & -> & Ha' & Hn' & Hsm).
  { destruct (Z.leb_spec n i).
    - destruct (tracker_resize_ok _ n (i + 1) _ Htr) as (tr & Hrun & Htr' & Hm); [lia|].
      exists tr, (i + 1). split; [done|]. split; [|split; [lia|done]]. eapply alloc_ok_retrack; try done. lia.
    - exists (region_tracker a), n. split; [done|]. split; [by destruct a|done]. }
  cbn [mbind outcome_bind].
  destruct (mark_free_ok _ _ _ k i (ao_tracker _ _ _ Ha')) as (tr' & Hmf & Htr' & Hm); [lia|lia|]. cbn in Hmf.
  rewrite Hmf. cbn [mbind outcome_bind].
  eexists _, n'. split; [done|]. split.
  - apply (alloc_ok_snoc cap n' (Allocators.mk tr (region_allocators a)) b tr' k); try done; cbn; [lia|].
    rewrite Hvl, Z.max_l by lia. exact Hm.
  - split; cbn; [rewrite vlen_app; change (vlen [b]) with 1; lia|]. split; [|split].
    + intros j x Hj. destruct (Hold j x Hj) as (x' & Hx' & Hc). exists x'. split; [by apply lookup_app_l_Some|].
      apply lookup_lt_Some in Hj. unfold vlen in *.
      destruct (Z.ltb_spec (Z.of_nat j) i), (Z.ltb_spec (Z.of_nat j) (i + 1)); done || lia.
    + intros j x Hj Hge. cbn in Hj. apply lookup_app_Some in Hj as [Hj|[Hge' Hj]]; [by apply (Hfresh j)|].
      apply list_lookup_singleton_Some in Hj as [Hj <-]. exists r. replace (Z.of_nat j) with i by (unfold vlen in *; lia). done.
    + intros j x o o' p Hj Hlt Hgrew Ho HF. cbn in Hj |- *. rewrite Hm by lia. cbn. rewrite Hsm by lia.
      apply lookup_app_Some in Hj as [Hj|[Hge' Hj]].
      * apply orb_true_intro. right. apply lookup_lt_Some in Hj as ?. eapply Hknow; try done. unfold vlen in *. lia.
      * apply list_lookup_singleton_Some in Hj as [Hj <-]. apply Hkm in HF. rewrite (proj2 (Z.leb_le o k)) by lia.
        rewrite (proj2 (Z.eqb_eq _ _)) by (unfold vlen in *; lia). done.
Qed.

Lemma grow_loop_ok l cap a0 k : forall i n a,
  layout_ok l -> RegionLayout.num_pages (DatabaseLayout.full_region_layout l) = cap -> regions_of l <= MAX_REGIONS ->
  (forall j b r, region_allocators a0 !! j = Some b -> DatabaseLayout.region_layout l (Z.of_nat j) = Ret r ->
     BuddyAllocator.len b <= RegionLayout.num_pages r) ->
  alloc_ok cap n a -> 0 <= i -> grown_to a0 a l i -> i + Z.of_nat k = regions_of l ->
  exists a' n', for_each (Allocators.grow_region l (vlen (region_allocators a0))) (seqZ i (Z.of_nat k)) a = Ret a' /\
    alloc_ok cap n' a' /\ grown_to a0 a' l (regions_of l).
Proof.
  induction k as [|k IH]; intros i n a Hl Hcap Hreg Hle Ha Hi Hg Hk.
  { exists a, n. split; [done|]. split; [done|]. by replace (regions_of l) with i by lia. }
  rewrite seqZ_cons by lia. cbn [for_each].
  assert (exists a1 n1, Allocators.grow_region l (vlen (region_allocators a0)) i a = Ret a1 /\
    alloc_ok cap n1 a1 /\ grown_to a0 a1 l (i + 1)) as (a1 & n1 & -> & Ha1 & Hg1).
  { destruct (decide (i < vlen (region_allocators a0))).
    - destruct (grow_existing_ok l cap n a0 a i) as (a1 & ? & ? & ?); try done; try lia.
      + intros b r Hb Hr. apply (Hle (Z.to_nat i)); [done|]. by rewrite Z2Nat.id by lia.
      + by exists a1, n.
    - eapply grow_new_ok; try done. lia. }
  cbn [mbind outcome_bind]. replace (Z.pred (Z.of_nat (S k))) with (Z.of_nat k) by lia.
  replace (Z.succ i) with (i + 1) by lia. eapply IH; try done; lia.
Qed.

(** Growing to a layout: the pages of the old regions stay as they are and the
    new pages are free. *)
Lemma resize_to_grow_ok l cap n a :
  layout_ok l -> RegionLayout.num_pages (DatabaseLayout.full_region_layout l) = cap -> regions_of l <= MAX_REGIONS ->
  alloc_ok cap n a -> Allocators.resize_direction a l = Ret Allocators.Grow ->
  (forall j b r, region_allocators a !! j = Some b -> DatabaseLayout.region_layout l (Z.of_nat j) = Ret r ->
     BuddyAllocator.len b <= RegionLayout.num_pages r) ->
  exists a' n', Allocators.resize_to a l = Ret a' /\ alloc_ok cap n' a' /\ grown_to a a' l (regions_of l).
Proof.
  intros Hl Hcap Hreg Ha Hdir Hle. unfold Allocators.resize_to. rewrite Hdir. cbn [mbind outcome_bind].
  rewrite num_regions_ok by done. cbn [mbind outcome_bind].
  assert (0 <= regions_of l) by (pose proof (lo_count _ Hl); unfold regions_of; destruct (DatabaseLayout.trailing_partial_region l); lia).
  pose proof (grow_loop_ok l cap a (Z.to_nat (regions_of l)) 0 n a) as H'. rewrite Z2Nat.id in H' by lia.
  apply H'; try done. pose proof (vlen_nonneg (region_allocators a)). split; [lia|]. split; [|split].
  - intros i b Hi. exists b. split; [done|]. by rewrite (proj2 (Z.ltb_ge _ _)) by lia.
  - intros i b Hi Hge. apply lookup_lt_Some in Hi. unfold vlen in Hge. lia.
  - intros i b o o' p Hi Hlt. lia.
Qed.

(** ** Shrinking *)

Lemma mark_full_regions_ok k n hi m : forall lo r,
  tracker_ok k n r -> 0 < k -> 0 <= lo -> lo + Z.of_nat m = hi -> hi <= n ->
  exists r', for_each (fun i tr => RegionTracker.mark_full tr 0 i) (seqZ lo (Z.of_nat m)) r = Ret r' /\
    tracker_ok k n r' /\
    forall o i, 0 <= o < k -> 0 <= i -> may_free r' o i = negb ((lo <=? i) && (i <? hi)) && may_free r o i.
Proof.
  induction m as [|m IH]; intros lo r Hr Hk Hlo Hhi Hn.
  { exists r. split; [done|]. split; [done|]. intros o i Ho Hi. replace hi with (lo + 0) by lia. by rewrite range_empty. }
  rewrite seqZ_cons by lia. cbn [for_each].
  destruct (mark_full_ok k n r 0 lo Hr ltac:(lia) ltac:(lia)) as (r1 & -> & Hr1 & Hm1). cbn [mbind outcome_bind].
  replace (Z.pred (Z.of_nat (S m))) with (Z.of_nat m) by lia. replace (Z.succ lo) with (lo + 1) by lia.
  destruct (IH (lo + 1) r1 Hr1 Hk ltac:(lia) ltac:(lia) Hn) as (r2 & -> & Hr2 & Hm2).
  exists r2. split; [done|]. split; [done|]. intros o i Ho Hi. rewrite Hm2, Hm1 by done.
  rewrite (proj2 (Z.leb_le 0 o)) by lia. cbn [andb]. rewrite andb_assoc. f_equal. rewrite <-negb_orb. f_equal.
  replace hi with (lo + 1 + Z.of_nat m) by lia. rewrite range_step by lia. f_equal. f_equal. lia.
Qed.

(** Replacing an allocator by one with fewer free pages. *)
Lemma alloc_ok_subset cap n a i b b' :
  alloc_ok cap n a -> region_allocators a !! i = Some b -> region_ok cap b' ->
  (forall q, pfree (fa b') q -> pfree (fa b) q) ->
  alloc_ok cap n (Allocators.mk (region_tracker a) (<[i := b']> (region_allocators a))).
Proof.
  intros [Ht Hc Hr Hb Ho Ha] Hi Hb' Hsub. pose proof (lookup_lt_Some _ _ _ Hi) as Hlt. split; cbn; try done.
  - unfold vlen in *. by rewrite length_insert.
  - intros j b0 Hj. destruct (decide (j = i)) as [->|].
    + rewrite list_lookup_insert_eq in Hj by done. by injection Hj as <-.
    + rewrite list_lookup_insert_ne in Hj by done. by eapply Hb.
  - intros j b0 o p Hj HF o' Ho'. destruct (decide (j = i)) as [->|].
    + rewrite list_lookup_insert_eq in Hj by done. injection Hj as <-.
      destruct (Hb i b Hi) as (Hbo & Hbm & _), Hb' as (Hbo' & Hbm' & _).
      pose proof (vo_range _ _ _ (proj2 Hbo') _ _ HF) as [Hor _]. rewrite Hbm', <-Hbm in Hor.
      destruct (view_cover _ _ _ o p (proj2 Hbo) Hor) as (k & Hk & Hc').
      { intros q Hq. apply Hsub. exists o. by rewrite Hq. }
      eapply Ho; [done|exact Hc'|lia].
    + rewrite list_lookup_insert_ne in Hj by done. by eapply Ho.
  - intros o j Ho' Hj. unfold vlen in *. rewrite length_insert in Hj. by apply Ha.
Qed.

(** Marking a region full at the orders it has no free block of. *)
Lemma alloc_ok_full cap n a i b o tr :
  alloc_ok cap n a -> region_allocators a !! Z.to_nat i = Some b -> 0 <= i -> (forall o' p, o <= o' -> fa b o' p = false) ->
  tracker_ok (MAX_MAX_PAGE_ORDER + 1) n tr ->
  (forall o' j, 0 <= o' < MAX_MAX_PAGE_ORDER + 1 -> 0 <= j ->
    may_free tr o' j = negb ((o <=? o') && (j =? i)) && may_free (region_tracker a) o' j) ->
  alloc_ok cap n (Allocators.mk tr (region_allocators a)).
Proof.
  intros [Ht Hc Hr Hb Ho Ha] Hi Hi0 Hnone Htr Hm. split; cbn; try done.
  - intros j b0 o1 p Hj HF o' Ho'. pose proof (region_fa_order cap b0 o1 p (Hb _ _ Hj) HF). rewrite Hm by lia.
    rewrite (Ho j b0 o1 p Hj HF o' Ho'), andb_true_r. apply negb_true_iff, andb_false_iff.
    destruct (Z.eqb_spec (Z.of_nat j) i) as [E|]; [|by right]. left. apply Z.leb_gt.
    replace j with (Z.to_nat i) in Hj by lia. rewrite Hi in Hj. injection Hj as <-.
    destruct (Z.lt_ge_cases o1 o) as [|Hge]; [lia|]. by rewrite Hnone in HF.
  - intros o' j Ho' Hj. pose proof (vlen_nonneg (region_allocators a)). rewrite Hm, Ha by lia. apply andb_false_r.
Qed.

(** Dropping the regions from [k] on, marked full in the tracker. *)
Lemma alloc_ok_take cap n a tr k :
  alloc_ok cap n a -> 0 <= k <= vlen (region_allocators a) -> tracker_ok (MAX_MAX_PAGE_ORDER + 1) n tr ->
  (forall o i, 0 <= o < MAX_MAX_PAGE_ORDER + 1 -> 0 <= i -> may_free tr o i =
     negb ((k <=? i) && (i <? vlen (region_allocators a))) && may_free (region_tracker a) o i) ->
  alloc_ok cap n (Allocators.mk tr (take (Z.to_nat k) (region_allocators a))).
Proof.
  intros [Ht Hc Hr Hb Ho Ha] Hk Htr Hm. unfold vlen in *. split; cbn; try done.
  - unfold vlen. rewrite length_take. lia.
  - intros i b Hi. apply lookup_take_Some in Hi as [Hi _]. by eapply Hb.
  - intros i b o p Hi HF o' Ho'. apply lookup_take_Some in Hi as [Hi Hlt].
    pose proof (region_fa_order cap b o p (Hb i b Hi) HF). rewrite Hm by lia.
    rewrite (proj2 (Z.leb_gt k (Z.of_nat i))) by lia. by eapply Ho.
  - intros o i Ho' Hi. unfold vlen in Hi. rewrite length_take in Hi. rewrite Hm by lia.
    destruct (Z.ltb_spec i (Z.of_nat (length (region_allocators a)))).
    + by rewrite (proj2 (Z.leb_le k i)) by lia.
    + rewrite (Ha o i) by lia. apply andb_false_r.
Qed.

(** Shrinking to a layout: the regions past it are dropped; the pages dropped
    from the last one must be free. *)
Lemma resize_to_shrink_ok l cap n a :
  layout_ok l -> 0 < regions_of l <= vlen (region_allocators a) -> alloc_ok cap n a ->
  Allocators.resize_direction a l = Ret Allocators.Shrink ->
  (forall b q, region_allocators a !! Z.to_nat (regions_of l - 1) = Some b ->
     RegionLayout.num_pages (Allocators.last_layout l) <= q < BuddyAllocator.len b -> pfree (fa b) q) ->
  exists a', Allocators.resize_to a l = Ret a' /\ alloc_ok cap n a' /\ vlen (region_allocators a') = regions_of l /\
    forall i b, region_allocators a !! i = Some b -> Z.of_nat i < regions_of l ->
      exists b', region_allocators a' !! i = Some b' /\
        if decide (Z.of_nat i = regions_of l - 1 /\ RegionLayout.num_pages (Allocators.last_layout l) < BuddyAllocator.len b)
        then BuddyAllocator.len b' = RegionLayout.num_pages (Allocators.last_layout l) /\
             forall q, pfree (fa b') q <-> pfree (fa b) q /\ q < RegionLayout.num_pages (Allocators.last_layout l)
        else b' = b.
Proof.
  intros Hl Hn Ha Hdir Hfree. unfold Allocators.resize_to. rewrite Hdir. cbn [mbind outcome_bind].
  unfold Allocators.resize_shrink. rewrite num_regions_ok by done. cbn [mbind outcome_bind].
  pose proof (ao_tracker _ _ _ Ha) as Htr. pose proof (to_range _ _ _ Htr) as Hnr. change MAX_REGIONS with (2 ^ 20) in Hnr.
  pose proof (ao_regions _ _ _ Ha) as Hrn.
  set (k := regions_of l) in *. set (old := vlen (region_allocators a)) in *. osteps.
  destruct (mark_full_regions_ok _ n old (Z.to_nat (old - k)) k _ Htr) as (tr & Hrun & Htr' & Hm);
    [vm_compute; done|lia|lia|lia|].
  rewrite Z2Nat.id in Hrun by lia. rewrite Hrun. cbn [mbind outcome_bind].
  pose proof (alloc_ok_take cap n a tr k Ha ltac:(unfold old in *; lia) Htr' Hm) as Hat.
  destruct (lookup_lt_is_Some_2 (region_allocators a) (Z.to_nat (k - 1))) as [b Hb]; [unfold old, vlen in *; lia|].
  set (kept := take (Z.to_nat k) (region_allocators a)) in *.
  assert (Hkl : length kept = Z.to_nat k) by (unfold kept; rewrite length_take; unfold old, vlen in *; lia).
  assert (Hkb : kept !! Z.to_nat (k - 1) = Some b) by (unfold kept; rewrite lookup_take_lt by lia; done).
  assert (last kept = Some b) as ->.
  { rewrite last_lookup, Hkl. replace (pred (Z.to_nat k)) with (Z.to_nat (k - 1)) by lia. done. }
  cbn [unwrap mbind outcome_bind].
  assert (Hsame : forall i b0, region_allocators a !! i = Some b0 -> Z.of_nat i < k -> kept !! i = Some b0)
    by (intros i b0 Hi Hlt; unfold kept; rewrite lookup_take_lt by lia; done).
  set (m := RegionLayout.num_pages (Allocators.last_layout l)) in *.
  destruct (Z.ltb_spec m (BuddyAllocator.len b)) as [Hlt|Hge].
  - pose proof (ao_buddy _ _ _ Ha _ _ Hb) as (Hbo & Hbm & Hbl).
    assert (Hmpos : 0 < m).
    { unfold m, Allocators.last_layout. pose proof (lo_full _ Hl) as (Hf & _).
      destruct (DatabaseLayout.trailing_partial_region l) eqn:E; cbn; [|lia].
      apply (lo_trailing _ Hl) in E as (_ & _ & ?). lia. }
    pose proof (bo_cap _ _ _ (proj1 Hbo)).
    destruct (resize_spec cap b m Hbo) as (b' & -> & Hb' & Hl' & Hm' & Hq'); [lia|by left|intros q Hq; by apply Hfree|].
    cbn [mbind outcome_bind]. rewrite vset_ok by (unfold vlen; lia). cbn [mbind outcome_bind].
    replace (Z.to_nat (vlen kept - 1)) with (Z.to_nat (k - 1)) by (unfold vlen; lia).
    eexists. split; [done|]. split; [|split].
    + apply (alloc_ok_subset cap n (Allocators.mk tr kept) _ b b' Hat Hkb); [split; [by rewrite Hl'|split; [congruence|lia]]|].
      intros q. rewrite Hq'. intuition lia.
    + cbn. unfold vlen. rewrite length_insert. lia.
    + cbn. intros i b0 Hi Hik. destruct (decide (i = Z.to_nat (k - 1))) as [->|Hne].
      * rewrite Hb in Hi. injection Hi as <-. exists b'. split; [apply list_lookup_insert_eq; lia|].
        rewrite decide_True by lia. split; [done|]. intros q. rewrite Hq'. intuition lia.
      * exists b0. split; [rewrite list_lookup_insert_ne by done; by apply Hsame|]. by rewrite decide_False by lia.
  - eexists. split; [done|]. split; [exact Hat|]. split; [unfold vlen; cbn; lia|].
    cbn. intros i b0 Hi Hik. exists b0. split; [by apply Hsame|]. rewrite decide_False; [done|].
    intros [E Hlt]. assert (i = Z.to_nat (k - 1)) as -> by lia. rewrite Hb in Hi. injection Hi as <-. lia.
Qed.

End allocators.
