(* ===== verification/Xxh3.v ===== *)
(** The XXH3 hash that checksums pages and commit slots
    (src/src/tree_store/page_store/xxh3.rs), with its AVX2 and NEON versions. *)
From S2P Require Import Prelude.

(** * Model *)

Definition STRIPE_LENGTH : Z := 64.
Definition SECRET_CONSUME_RATE : Z := 8.
Definition MIN_SECRET_SIZE : Z := 136.

Definition DEFAULT_SECRET : list Z := [
    0xb8; 0xfe; 0x6c; 0x39; 0x23; 0xa4; 0x4b; 0xbe; 0x7c; 0x01; 0x81; 0x2c; 0xf7; 0x21; 0xad; 0x1c;
    0xde; 0xd4; 0x6d; 0xe9; 0x83; 0x90; 0x97; 0xdb; 0x72; 0x40; 0xa4; 0xa4; 0xb7; 0xb3; 0x67; 0x1f;
    0xcb; 0x79; 0xe6; 0x4e; 0xcc; 0xc0; 0xe5; 0x78; 0x82; 0x5a; 0xd0; 0x7d; 0xcc; 0xff; 0x72; 0x21;
    0xb8; 0x08; 0x46; 0x74; 0xf7; 0x43; 0x24; 0x8e; 0xe0; 0x35; 0x90; 0xe6; 0x81; 0x3a; 0x26; 0x4c;
    0x3c; 0x28; 0x52; 0xbb; 0x91; 0xc3; 0x00; 0xcb; 0x88; 0xd0; 0x65; 0x8b; 0x1b; 0x53; 0x2e; 0xa3;
    0x71; 0x64; 0x48; 0x97; 0xa2; 0x0d; 0xf9; 0x4e; 0x38; 0x19; 0xef; 0x46; 0xa9; 0xde; 0xac; 0xd8;
    0xa8; 0xfa; 0x76; 0x3f; 0xe3; 0x9c; 0x34; 0x3f; 0xf9; 0xdc; 0xbb; 0xc7; 0xc7; 0x0b; 0x4f; 0x1d;
    0x8a; 0x51; 0xe0; 0x4b; 0xcd; 0xb4; 0x59; 0x31; 0xc8; 0x9f; 0x7e; 0xc9; 0xd9; 0x78; 0x73; 0x64;
    0xea; 0xc5; 0xac; 0x83; 0x34; 0xd3; 0xeb; 0xc3; 0xc5; 0x81; 0xa0; 0xff; 0xfa; 0x13; 0x63; 0xeb;
    0x17; 0x0d; 0xdd; 0x51; 0xb7; 0xf0; 0xda; 0x49; 0xd3; 0x16; 0x55; 0x26; 0x29; 0xd4; 0x68; 0x9e;
    0x2b; 0x16; 0xbe; 0x58; 0x7d; 0x47; 0xa1; 0xfc; 0x8f; 0xf8; 0xb8; 0xd1; 0x7a; 0xd0; 0x31; 0xce;
    0x45; 0xcb; 0x3a; 0x8f; 0x95; 0x16; 0x04; 0x28; 0xaf; 0xd7; 0xfb; 0xca; 0xbb; 0x4b; 0x40; 0x7e].

(** [PRIME32[i]] and [PRIME64[i]] *)
Definition PRIME32_0 : Z := 0x9E3779B1.
Definition PRIME32_1 : Z := 0x85EBCA77.
Definition PRIME32_2 : Z := 0xC2B2AE3D.
Definition PRIME64_0 : Z := 0x9E3779B185EBCA87.
Definition PRIME64_1 : Z := 0xC2B2AE3D27D4EB4F.
Definition PRIME64_2 : Z := 0x165667B19E3779F9.
Definition PRIME64_3 : Z := 0x85EBCA77C2B2AE63.
Definition PRIME64_4 : Z := 0x27D4EB2F165667C5.

Definition INIT_ACCUMULATORS : list Z :=
  [PRIME32_2; PRIME64_0; PRIME64_1; PRIME64_2; PRIME64_3; PRIME32_1; PRIME64_4; PRIME32_0].

Definition get_u32 (data : list Z) (i : Z) : outcome Z :=
  b ← slice data (i * 4) ((i + 1) * 4); Ret (from_le_bytes b).
Definition get_u64 (data : list Z) (i : Z) : outcome Z :=
  b ← slice data (i * 8) ((i + 1) * 8); Ret (from_le_bytes b).

Definition xorshift (x shift : Z) : Z := Z.lxor x (Z.shiftr x shift).

Definition xxh64_avalanche (x : Z) : Z :=
  let x := Z.lxor x (Z.shiftr x 33) in
  let x := wmul 64 x PRIME64_1 in
  let x := Z.lxor x (Z.shiftr x 29) in
  let x := wmul 64 x PRIME64_2 in
  Z.lxor x (Z.shiftr x 32).

Definition xxh3_avalanche (x : Z) : Z :=
  let x := xorshift x 37 in
  let x := wmul 64 x 0x165667919E3779F9 in
  xorshift x 32.

Definition rrmxmx (x y : Z) : Z :=
  let x := Z.lxor x (Z.lxor (rotate_left 64 x 49) (rotate_left 64 x 24)) in
  let x := wmul 64 x 0x9FB21C651E98DF25 in
  let x := Z.lxor x (wadd 64 (Z.shiftr x 35) y) in
  let x := wmul 64 x 0x9FB21C651E98DF25 in
  xorshift x 28.

(** The product of two [u64] fits a [u128]; [as u64] keeps its low half. *)
Definition mul128_and_xor (x y : Z) : Z :=
  let z := x * y in
  Z.lxor (z mod 2 ^ 64) (Z.shiftr z 64).

Definition mix16 (data secret : list Z) (seed : Z) : outcome Z :=
  x1 ← get_u64 data 0;
  x2 ← get_u64 data 1;
  g1 ← get_u64 secret 0;
  g2 ← get_u64 secret 1;
  let s1 := wadd 64 g1 seed in
  let s2 := wsub 64 g2 seed in
  Ret (mul128_and_xor (Z.lxor x1 s1) (Z.lxor x2 s2)).

Definition mix32 (state : Z * Z) (data1 data2 secret : list Z) (seed : Z) : outcome (Z * Z) :=
  let '(r_low, r_high) := state in
  m1 ← mix16 data1 secret seed;
  let r_low := wadd 64 r_low m1 in
  a0 ← get_u64 data2 0;
  a1 ← get_u64 data2 1;
  let r_low := Z.lxor r_low (wadd 64 a0 a1) in
  secret16 ← slice_from secret 16;
  m2 ← mix16 data2 secret16 seed;
  let r_high := wadd 64 r_high m2 in
  b0 ← get_u64 data1 0;
  b1 ← get_u64 data1 1;
  let r_high := Z.lxor r_high (wadd 64 b0 b1) in
  Ret (r_low, r_high).

(** [((high as u128) << 64) | low as u128] *)
Definition u128_of (high low : Z) : Z := Z.lor (wshl 128 high 64) low.

(** ** Large inputs: the generic routines *)

(** One round of the loop of [gen_secret_generic] *)
Definition gen_secret_round (seed i : Z) (secret : list Z) : outcome (list Z) :=
  g1 ← get_u64 DEFAULT_SECRET (2 * i);
  secret ← splice secret (16 * i) (to_le_bytes 8 (wadd 64 g1 seed));
  g2 ← get_u64 DEFAULT_SECRET (2 * i + 1);
  splice secret (16 * i + 8) (to_le_bytes 8 (wsub 64 g2 seed)).
Definition gen_secret_generic (seed : Z) : outcome (list Z) :=
  for_each (gen_secret_round seed) (seqZ 0 (vlen DEFAULT_SECRET / 16))
    (replicate (length DEFAULT_SECRET) 0).

Definition scramble_lane (secret : list Z) (i : Z) (accumulators : list Z) : outcome (list Z) :=
  x ← vget accumulators i;
  s ← get_u64 secret i;
  let x := xorshift x 47 in
  let x := Z.lxor x s in
  vset accumulators i (wmul 64 x PRIME32_0).
Definition scramble_accumulators_generic (accumulators secret : list Z) : outcome (list Z) :=
  for_each (scramble_lane secret) (seqZ 0 (vlen accumulators)) accumulators.

Definition accumulate_lane (data secret : list Z) (i : Z) (accumulators : list Z) : outcome (list Z) :=
  d ← slice_from data (i * 8);
  x ← get_u64 d 0;
  k ← slice_from secret (i * 8);
  s ← get_u64 k 0;
  let y := Z.lxor x s in
  a ← vget accumulators (Z.lxor i 1);
  accumulators ← vset accumulators (Z.lxor i 1) (wadd 64 a x);
  z ← umul 64 (Z.land y 0xFFFFFFFF) (Z.shiftr y 32);
  a ← vget accumulators i;
  vset accumulators i (wadd 64 a z).
Definition accumulate_stripe_generic (accumulators data secret : list Z) : outcome (list Z) :=
  for_each (accumulate_lane data secret) (seqZ 0 (vlen accumulators)) accumulators.

(** ** The AVX2 routines

    A 256-bit vector is the list of its four 64-bit lanes, lowest first.  A load
    or store outside the array, undefined behaviour in the code, is a panic. *)
Module avx2.

(** The 32-bit lanes of a vector, and back *)
Fixpoint lanes32 (v : list Z) : list Z :=
  match v with
  | [] => []
  | x :: t => x mod 2 ^ 32 :: x / 2 ^ 32 :: lanes32 t
  end.
Fixpoint lanes64 (l : list Z) : list Z :=
  match l with
  | a :: b :: t => a + 2 ^ 32 * b :: lanes64 t
  | _ => []
  end.

(** [_mm256_loadu_si256((ptr as *const __m256i).add(i))] of bytes and of words *)
Definition loadu_bytes (data : list Z) (i : Z) : outcome (list Z) :=
  omap_list (fun j => get_u64 data (4 * i + j)) (seqZ 0 4).
Definition loadu_words (data : list Z) (i : Z) : outcome (list Z) := slice data (4 * i) (4 * i + 4).
(** [_mm256_storeu_si256] *)
Definition storeu_words (data : list Z) (i : Z) (v : list Z) : outcome (list Z) := splice data (4 * i) v.
Definition storeu_bytes (data : list Z) (i : Z) (v : list Z) : outcome (list Z) :=
  splice data (32 * i) (concat (map (to_le_bytes 8) v)).

Definition set1_epi32 (x : Z) : list Z := lanes64 [x; x; x; x; x; x; x; x].
Definition set_epi64x (e3 e2 e1 e0 : Z) : list Z := [e0; e1; e2; e3].
Definition xor_si256 (a b : list Z) : list Z := zip_with Z.lxor a b.
Definition add_epi64 (a b : list Z) : list Z := zip_with (wadd 64) a b.
Definition srli_epi64 (n : Z) (a : list Z) : list Z := map (fun x => Z.shiftr x n) a.
Definition slli_epi64 (n : Z) (a : list Z) : list Z := map (fun x => wshl 64 x n) a.
(** The product of the low halves of the lanes *)
Definition mul_epu32 (a b : list Z) : list Z := zip_with (fun x y => (x mod 2 ^ 32) * (y mod 2 ^ 32)) a b.
(** Each 128-bit half is shuffled alike: its 32-bit lane [j] is the one that bits
    [2j .. 2j+1] of the immediate name. *)
Definition shuffle_half (imm : Z) (h : list Z) : list Z :=
  map (fun j => default 0 (h !! Z.to_nat (Z.land (Z.shiftr imm (2 * j)) 3))) (seqZ 0 4).
Definition shuffle_epi32 (imm : Z) (a : list Z) : list Z :=
  let l := lanes32 a in
  lanes64 (shuffle_half imm (take 4 l) ++ shuffle_half imm (drop 4 l)).

End avx2.

Definition scramble_avx2_round (secret : list Z) (i : Z) (accumulators : list Z) : outcome (list Z) :=
  a ← avx2.loadu_words accumulators i;
  let shifted := avx2.srli_epi64 47 a in
  let b := avx2.xor_si256 a shifted in
  s ← avx2.loadu_bytes secret i;
  let c := avx2.xor_si256 b s in
  let c_high := avx2.shuffle_epi32 49 c in
  let low := avx2.mul_epu32 c (avx2.set1_epi32 PRIME32_0) in
  let high := avx2.mul_epu32 c_high (avx2.set1_epi32 PRIME32_0) in
  let high := avx2.slli_epi64 32 high in
  avx2.storeu_words accumulators i (avx2.add_epi64 low high).
Definition scramble_accumulators_avx2 (accumulators secret : list Z) : outcome (list Z) :=
  for_each (scramble_avx2_round secret) (seqZ 0 (STRIPE_LENGTH / 32)) accumulators.

Definition gen_secret_avx2_round (simd_seed : list Z) (i : Z) (output : list Z) : outcome (list Z) :=
  s ← avx2.loadu_bytes DEFAULT_SECRET i;
  avx2.storeu_bytes output i (avx2.add_epi64 s simd_seed).
Definition gen_secret_avx2 (seed : Z) : outcome (list Z) :=
  let xxh_i64 := wsub 64 0 seed in
  for_each (gen_secret_avx2_round (avx2.set_epi64x xxh_i64 seed xxh_i64 seed)) (seqZ 0 6)
    (replicate (length DEFAULT_SECRET) 0).

Definition accumulate_avx2_round (data secret : list Z) (i : Z) (accumulators : list Z) : outcome (list Z) :=
  x ← avx2.loadu_bytes data i;
  s ← avx2.loadu_bytes secret i;
  let z := avx2.xor_si256 x s in
  let z_low := avx2.shuffle_epi32 49 z in
  let product := avx2.mul_epu32 z z_low in
  let shuffled := avx2.shuffle_epi32 78 x in
  result ← avx2.loadu_words accumulators i;
  let result := avx2.add_epi64 result shuffled in
  let result := avx2.add_epi64 result product in
  avx2.storeu_words accumulators i result.
Definition accumulate_stripe_avx2 (accumulators data secret : list Z) : outcome (list Z) :=
  _ ← rassert (STRIPE_LENGTH <=? vlen data);
  _ ← rassert (STRIPE_LENGTH <=? vlen secret);
  for_each (accumulate_avx2_round data secret) (seqZ 0 (STRIPE_LENGTH / 32)) accumulators.

(** ** The NEON routines

    A 128-bit vector is the list of its two 64-bit lanes; a 64-bit vector of two
    [u32] the list of those. *)
Module neon.

(** [vld1q_u8(ptr.add(i * 16))] reinterpreted as [u64] lanes, [vld1q_u64(ptr.add(i * 2))]
    and [vst1q_u64] *)
Definition vld1q_u8 (data : list Z) (i : Z) : outcome (list Z) :=
  omap_list (fun j => get_u64 data (2 * i + j)) (seqZ 0 2).
Definition vld1q_u64 (data : list Z) (i : Z) : outcome (list Z) := slice data (2 * i) (2 * i + 2).
Definition vst1q_u64 (data : list Z) (i : Z) (v : list Z) : outcome (list Z) := splice data (2 * i) v.

Definition veorq_u64 (a b : list Z) : list Z := zip_with Z.lxor a b.
Definition vaddq_u64 (a b : list Z) : list Z := zip_with (wadd 64) a b.
Definition vshrq_n_u64 (a : list Z) (n : Z) : list Z := map (fun x => Z.shiftr x n) a.
Definition vshlq_n_u64 (a : list Z) (n : Z) : list Z := map (fun x => wshl 64 x n) a.
Definition vdup_n_u32 (x : Z) : list Z := [x; x].
(** The low halves of the lanes, and the lanes shifted right and narrowed *)
Definition vmovn_u64 (a : list Z) : list Z := map (fun x => x mod 2 ^ 32) a.
Definition vshrn_n_u64 (a : list Z) (n : Z) : list Z := map (fun x => Z.shiftr x n mod 2 ^ 32) a.
Definition vmull_u32 (a b : list Z) : list Z := zip_with Z.mul a b.
Definition vmlal_u32 (acc a b : list Z) : list Z := zip_with (wadd 64) acc (vmull_u32 a b).
(** Lane [n] of the concatenation of [a] and [b], and the one after it *)
Definition vextq_u64 (a b : list Z) (n : Z) : list Z := take 2 (drop (Z.to_nat n) (a ++ b)).

End neon.

Definition scramble_neon_round (secret : list Z) (i : Z) (accumulators : list Z) : outcome (list Z) :=
  accum ← neon.vld1q_u64 accumulators i;
  let shifted := neon.vshrq_n_u64 accum 47 in
  let accum := neon.veorq_u64 accum shifted in
  s ← neon.vld1q_u8 secret i;
  let accum := neon.veorq_u64 accum s in
  let accum_low := neon.vmovn_u64 accum in
  let accum_high := neon.vshrn_n_u64 accum 32 in
  let prime := neon.vdup_n_u32 PRIME32_0 in
  let prod_high := neon.vshlq_n_u64 (neon.vmull_u32 accum_high prime) 32 in
  neon.vst1q_u64 accumulators i (neon.vmlal_u32 prod_high accum_low prime).
Definition scramble_accumulators_neon (accumulators secret : list Z) : outcome (list Z) :=
  _ ← rassert (STRIPE_LENGTH <=? vlen secret);
  for_each (scramble_neon_round secret) (seqZ 0 (STRIPE_LENGTH / 16)) accumulators.

Definition accumulate_neon_round (data secret : list Z) (i : Z) (accumulators : list Z) : outcome (list Z) :=
  x ← neon.vld1q_u8 data i;
  s ← neon.vld1q_u8 secret i;
  let y := neon.vextq_u64 x x 1 in
  result ← neon.vld1q_u64 accumulators i;
  let result := neon.vaddq_u64 result y in
  let z := neon.veorq_u64 x s in
  let z_low := neon.vmovn_u64 z in
  let z_high := neon.vshrn_n_u64 z 32 in
  neon.vst1q_u64 accumulators i (neon.vmlal_u32 result z_low z_high).
Definition accumulate_stripe_neon (accumulators data secret : list Z) : outcome (list Z) :=
  _ ← rassert (STRIPE_LENGTH <=? vlen data);
  _ ← rassert (STRIPE_LENGTH <=? vlen secret);
  for_each (accumulate_neon_round data secret) (seqZ 0 (STRIPE_LENGTH / 16)) accumulators.

(** ** Large inputs: the driver *)

Section large.
  Context (scramble : list Z -> list Z -> outcome (list Z)).
  Context (accum_stripe : list Z -> list Z -> list Z -> outcome (list Z)).

Definition accumulate_block_round (data secret : list Z) (i : Z) (accumulators : list Z) : outcome (list Z) :=
  d ← slice_from data (i * STRIPE_LENGTH);
  s ← slice_from secret (i * SECRET_CONSUME_RATE);
  accum_stripe accumulators d s.
Definition accumulate_block (accumulators data secret : list Z) (stripes : Z) : outcome (list Z) :=
  for_each (accumulate_block_round data secret) (seqZ 0 stripes) accumulators.

(** One round of the loop over the blocks *)
Definition hash_block_round (data secret : list Z) (stripes_per_block i : Z) (accumulators : list Z) : outcome (list Z) :=
  d ← slice_from data (i * (STRIPE_LENGTH * stripes_per_block));
  accumulators ← accumulate_block accumulators d secret stripes_per_block;
  o ← usub (vlen secret) STRIPE_LENGTH;
  s ← slice_from secret o;
  scramble accumulators s.

Definition hash_large_helper (data secret : list Z) : outcome (list Z) :=
  n ← usub (vlen secret) STRIPE_LENGTH;
  let stripes_per_block := n / SECRET_CONSUME_RATE in
  let block_len := STRIPE_LENGTH * stripes_per_block in
  last ← usub (vlen data) 1;
  blocks ← udiv last block_len;
  accumulators ← for_each (hash_block_round data secret stripes_per_block) (seqZ 0 blocks) INIT_ACCUMULATORS;
  rest ← usub last (block_len * blocks);
  let stripes := rest / STRIPE_LENGTH in
  d ← slice_from data (blocks * block_len);
  accumulators ← accumulate_block accumulators d secret stripes;
  tail ← usub (vlen data) STRIPE_LENGTH;
  d ← slice_from data tail;
  k ← usub n 7;
  s ← slice_from secret k;
  accum_stripe accumulators d s.

End large.

Definition merge_round (accumulators secret : list Z) (i result : Z) : outcome Z :=
  a1 ← vget accumulators (2 * i);
  a2 ← vget accumulators (2 * i + 1);
  k ← slice_from secret (16 * i);
  s1 ← get_u64 k 0;
  s2 ← get_u64 k 1;
  Ret (wadd 64 result (mul128_and_xor (Z.lxor a1 s1) (Z.lxor a2 s2))).
Definition merge_accumulators (accumulators secret : list Z) (init : Z) : outcome Z :=
  result ← for_each (merge_round accumulators secret) (seqZ 0 4) init;
  Ret (xxh3_avalanche result).

Definition hash64_large_generic (generate : Z -> outcome (list Z))
    (scramble : list Z -> list Z -> outcome (list Z))
    (accum_stripe : list Z -> list Z -> list Z -> outcome (list Z)) (data : list Z) (seed : Z) : outcome Z :=
  secret ← generate seed;
  accumulators ← hash_large_helper scramble accum_stripe data secret;
  s ← slice_from secret 11;
  merge_accumulators accumulators s (wmul 64 PRIME64_0 (vlen data)).

Definition hash128_large_generic (generate : Z -> outcome (list Z))
    (scramble : list Z -> list Z -> outcome (list Z))
    (accum_stripe : list Z -> list Z -> list Z -> outcome (list Z)) (data : list Z) (seed : Z) : outcome Z :=
  secret ← generate seed;
  accumulators ← hash_large_helper scramble accum_stripe data secret;
  s ← slice_from secret 11;
  low ← merge_accumulators accumulators s (wmul 64 PRIME64_0 (vlen data));
  k ← usub (vlen secret) (64 + 11);
  s ← slice_from secret k;
  high ← merge_accumulators accumulators s (unot 64 (wmul 64 PRIME64_1 (vlen data)));
  Ret (u128_of high low).

Definition hash64_large_avx2 : list Z -> Z -> outcome Z :=
  hash64_large_generic gen_secret_avx2 scramble_accumulators_avx2 accumulate_stripe_avx2.
Definition hash64_large_neon : list Z -> Z -> outcome Z :=
  hash64_large_generic gen_secret_generic scramble_accumulators_neon accumulate_stripe_neon.
Definition hash128_large_avx2 : list Z -> Z -> outcome Z :=
  hash128_large_generic gen_secret_avx2 scramble_accumulators_avx2 accumulate_stripe_avx2.
Definition hash128_large_neon : list Z -> Z -> outcome Z :=
  hash128_large_generic gen_secret_generic scramble_accumulators_neon accumulate_stripe_neon.

(** ** Small inputs, 64 bits *)

Definition hash64_0 (secret : list Z) (seed : Z) : outcome Z :=
  s7 ← get_u64 secret 7;
  s8 ← get_u64 secret 8;
  Ret (xxh64_avalanche (Z.lxor (Z.lxor seed s7) s8)).

(** [(x1 << 16) | (x2 << 24) | x3 | (x4 << 8)] of the first, middle and last byte
    and the length *)
Definition combine_1to3 (data : list Z) : outcome Z :=
  x1 ← vget data 0;
  x2 ← vget data (Z.shiftr (vlen data) 1);
  x3 ← unwrap (last data);
  let x4 := vlen data mod 2 ^ 32 in
  Ret (Z.lor (Z.lor (Z.lor (wshl 32 x1 16) (wshl 32 x2 24)) x3) (wshl 32 x4 8)).

Definition hash64_1to3 (data secret : list Z) (seed : Z) : outcome Z :=
  combined ← combine_1to3 data;
  s0 ← get_u32 secret 0;
  s1 ← get_u32 secret 1;
  let result := wadd 64 (Z.lxor s0 s1) seed in
  Ret (xxh64_avalanche (Z.lxor result combined)).

(** [seed ^= u64::from((seed as u32).swap_bytes()) << 32] *)
Definition swap_seed (seed : Z) : Z := Z.lxor seed (wshl 64 (swap_bytes 4 (seed mod 2 ^ 32)) 32).

Definition hash64_4to8 (data secret : list Z) (seed : Z) : outcome Z :=
  let seed := swap_seed seed in
  x1 ← get_u32 data 0;
  o ← usub (vlen data) 4;
  d ← slice_from data o;
  x2 ← get_u32 d 0;
  let x := Z.lor x2 (wshl 64 x1 32) in
  s1 ← get_u64 secret 1;
  s2 ← get_u64 secret 2;
  let s := wsub 64 (Z.lxor s1 s2) seed in
  Ret (rrmxmx (Z.lxor x s) (vlen data)).

Definition hash64_9to16 (data secret : list Z) (seed : Z) : outcome Z :=
  k3 ← get_u64 secret 3;
  k4 ← get_u64 secret 4;
  let s1 := wadd 64 (Z.lxor k3 k4) seed in
  k5 ← get_u64 secret 5;
  k6 ← get_u64 secret 6;
  let s2 := wsub 64 (Z.lxor k5 k6) seed in
  g1 ← get_u64 data 0;
  let x1 := Z.lxor g1 s1 in
  o ← usub (vlen data) 8;
  d ← slice_from data o;
  g2 ← get_u64 d 0;
  let x2 := Z.lxor g2 s2 in
  let result := vlen data in
  let result := wadd 64 result (swap_bytes 8 x1) in
  let result := wadd 64 result x2 in
  let result := wadd 64 result (mul128_and_xor x1 x2) in
  Ret (xxh3_avalanche result).

Definition hash64_0to16 (data secret : list Z) (seed : Z) : outcome Z :=
  if vlen data =? 0 then hash64_0 secret seed
  else if vlen data <? 4 then hash64_1to3 data secret seed
  else if vlen data <=? 8 then hash64_4to8 data secret seed
  else hash64_9to16 data secret seed.

(** [result.wrapping_add(mix16(&data[a..], &secret[b..], seed))] *)
Definition add_mix16 (data secret : list Z) (seed a b result : Z) : outcome Z :=
  d ← slice_from data a;
  s ← slice_from secret b;
  m ← mix16 d s seed;
  Ret (wadd 64 result m).

Definition hash64_17to128 (data secret : list Z) (seed : Z) : outcome Z :=
  let result := wmul 64 PRIME64_0 (vlen data) in
  last ← usub (vlen data) 1;
  let iterations := last / 32 in
  result ← for_each (fun i result =>
      result ← add_mix16 data secret seed (16 * i) (32 * i) result;
      o ← usub (vlen data) (16 * (i + 1));
      add_mix16 data secret seed o (32 * i + 16) result)
    (rev (seqZ 0 (iterations + 1))) result;
  Ret (xxh3_avalanche result).

Definition hash64_129to240 (data secret : list Z) (seed : Z) : outcome Z :=
  let result := wmul 64 PRIME64_0 (vlen data) in
  result ← for_each (fun i result => add_mix16 data secret seed (16 * i) (16 * i) result) (seqZ 0 8) result;
  let result := xxh3_avalanche result in
  let iterations := vlen data / 16 in
  result ← for_each (fun i result => add_mix16 data secret seed (16 * i) (16 * (i - 8) + 3) result)
    (seqZ 8 (iterations - 8)) result;
  o ← usub (vlen data) 16;
  result ← add_mix16 data secret seed o (MIN_SECRET_SIZE - 17) result;
  Ret (xxh3_avalanche result).

Definition hash64_0to240 (data secret : list Z) (seed : Z) : outcome Z :=
  if vlen data <=? 16 then hash64_0to16 data secret seed
  else if vlen data <=? 128 then hash64_17to128 data secret seed
  else hash64_129to240 data secret seed.

(** ** Small inputs, 128 bits *)

Definition hash128_0 (secret : list Z) (seed : Z) : outcome Z :=
  k ← slice_from secret (3 * 8);
  high ← hash64_0 k seed;
  k ← slice_from secret 8;
  low ← hash64_0 k seed;
  Ret (u128_of high low).

Definition hash128_1to3 (data secret : list Z) (seed : Z) : outcome Z :=
  combined_low ← combine_1to3 data;
  let combined_high := rotate_left 32 (swap_bytes 4 combined_low) 13 in
  s0 ← get_u32 secret 0;
  s1 ← get_u32 secret 1;
  let s_low := wadd 64 (Z.lxor s0 s1) seed in
  s2 ← get_u32 secret 2;
  s3 ← get_u32 secret 3;
  let s_high := wsub 64 (Z.lxor s2 s3) seed in
  let high := xxh64_avalanche (Z.lxor combined_high s_high) in
  let low := xxh64_avalanche (Z.lxor combined_low s_low) in
  Ret (u128_of high low).

Definition hash128_4to8 (data secret : list Z) (seed : Z) : outcome Z :=
  let seed := swap_seed seed in
  x_low ← get_u32 data 0;
  o ← usub (vlen data) 4;
  d ← slice_from data o;
  let x_high := from_le_bytes d in
  let x := Z.lor x_low (wshl 64 x_high 32) in
  k2 ← get_u64 secret 2;
  k3 ← get_u64 secret 3;
  let s := wadd 64 (Z.lxor k2 k3) seed in
  let y := Z.lxor x s in
  let y := wmul 128 y (wadd 64 PRIME64_0 (wshl 64 (vlen data) 2)) in
  let r_low := y mod 2 ^ 64 in
  r_high ← utry 64 (Z.shiftr y 64);
  let r_high := wadd 64 r_high (wshl 64 r_low 1) in
  let r_low := Z.lxor r_low (Z.shiftr r_high 3) in
  let r_low := xorshift r_low 35 in
  let r_low := wmul 64 r_low 0x9FB21C651E98DF25 in
  let r_low := xorshift r_low 28 in
  let r_high := xxh3_avalanche r_high in
  Ret (u128_of r_high r_low).

Definition hash128_9to16 (data secret : list Z) (seed : Z) : outcome Z :=
  k4 ← get_u64 secret 4;
  k5 ← get_u64 secret 5;
  let s_low := wsub 64 (Z.lxor k4 k5) seed in
  k6 ← get_u64 secret 6;
  k7 ← get_u64 secret 7;
  let s_high := wadd 64 (Z.lxor k6 k7) seed in
  x_low ← get_u64 data 0;
  o ← usub (vlen data) 8;
  d ← slice_from data o;
  let x_high := from_le_bytes d in
  let mixed := Z.lxor (Z.lxor x_low x_high) s_low in
  let x_high := Z.lxor x_high s_high in
  let result := wmul 128 mixed PRIME64_0 in
  let r_low := result mod 2 ^ 64 in
  let r_high := Z.shiftr result 64 mod 2 ^ 64 in
  n ← usub (vlen data) 1;
  let r_low := wadd 64 r_low (wshl 64 n 54) in
  let r_high := wadd 64 r_high x_high in
  let r_high := wadd 64 r_high (wmul 64 (Z.land x_high 0xFFFFFFFF) (PRIME32_1 - 1)) in
  let r_low := Z.lxor r_low (swap_bytes 8 r_high) in
  let result2 := wmul 128 r_low PRIME64_1 in
  let r2_low := result2 mod 2 ^ 64 in
  let r2_high := Z.shiftr result2 64 mod 2 ^ 64 in
  let r2_high := wadd 64 r2_high (wmul 64 r_high PRIME64_1) in
  let r2_low := xxh3_avalanche r2_low in
  let r2_high := xxh3_avalanche r2_high in
  Ret (u128_of r2_high r2_low).

Definition hash128_0to16 (data secret : list Z) (seed : Z) : outcome Z :=
  if vlen data =? 0 then hash128_0 secret seed
  else if vlen data <? 4 then hash128_1to3 data secret seed
  else if vlen data <=? 8 then hash128_4to8 data secret seed
  else hash128_9to16 data secret seed.

(** [mix32(state, &data[a..], &data[b..], &secret[c..], seed)] *)
Definition mix32_at (data secret : list Z) (a b c seed : Z) (state : Z * Z) : outcome (Z * Z) :=
  d1 ← slice_from data a;
  d2 ← slice_from data b;
  s ← slice_from secret c;
  mix32 state d1 d2 s seed.

(** The end of [hash128_17to128] and [hash128_129to240] *)
Definition finish_state (state : Z * Z) (len seed : Z) : Z :=
  let r_low := wadd 64 state.1 state.2 in
  let r_high := wmul 64 state.1 PRIME64_0 in
  let r_high := wadd 64 r_high (wmul 64 state.2 PRIME64_3) in
  let r_high := wadd 64 r_high (wmul 64 (wsub 64 len seed) PRIME64_1) in
  let r_low := xxh3_avalanche r_low in
  let r_high := wsub 64 0 (xxh3_avalanche r_high) in
  u128_of r_high r_low.

Definition hash128_17to128 (data secret : list Z) (seed : Z) : outcome Z :=
  let len := vlen data in
  let state := (wmul 64 PRIME64_0 len, 0) in
  state ← (if 96 <? len then o ← usub len 64; mix32_at data secret 48 o 96 seed state else Ret state);
  state ← (if 64 <? len then o ← usub len 48; mix32_at data secret 32 o 64 seed state else Ret state);
  state ← (if 32 <? len then o ← usub len 32; mix32_at data secret 16 o 32 seed state else Ret state);
  o ← usub len 16;
  state ← mix32_at data secret 0 o 0 seed state;
  Ret (finish_state state len seed).

Definition hash128_129to240 (data secret : list Z) (seed : Z) : outcome Z :=
  let len := vlen data in
  let iterations := len / 32 in
  let state := (wmul 64 PRIME64_0 len, 0) in
  state ← for_each (fun i => mix32_at data secret (32 * i) (32 * i + 16) (32 * i) seed) (seqZ 0 4) state;
  let state := (xxh3_avalanche state.1, xxh3_avalanche state.2) in
  state ← for_each (fun i => mix32_at data secret (32 * i) (32 * i + 16) (3 + 32 * (i - 4)) seed)
    (seqZ 4 (iterations - 4)) state;
  o16 ← usub len 16;
  o32 ← usub len 32;
  state ← mix32_at data secret o16 o32 (MIN_SECRET_SIZE - 33) (wsub 64 0 seed) state;
  Ret (finish_state state len seed).

Definition hash128_0to240 (data secret : list Z) (seed : Z) : outcome Z :=
  if vlen data <=? 16 then hash128_0to16 data secret seed
  else if vlen data <=? 128 then hash128_17to128 data secret seed
  else hash128_129to240 data secret seed.

(** ** Entry points *)

(** The routines the build and the processor select *)
Inductive target := Generic | Avx2 | Neon.

Definition hash64_with_seed (t : target) (data : list Z) (seed : Z) : outcome Z :=
  if vlen data <=? 240 then hash64_0to240 data DEFAULT_SECRET seed
  else match t with
  | Avx2 => hash64_large_avx2 data seed
  | Neon => hash64_large_neon data seed
  | Generic =>
      hash64_large_generic gen_secret_generic scramble_accumulators_generic accumulate_stripe_generic data seed
  end.

Definition hash128_with_seed (t : target) (data : list Z) (seed : Z) : outcome Z :=
  if vlen data <=? 240 then hash128_0to240 data DEFAULT_SECRET seed
  else match t with
  | Avx2 => hash128_large_avx2 data seed
  | Neon => hash128_large_neon data seed
  | Generic =>
      hash128_large_generic gen_secret_generic scramble_accumulators_generic accumulate_stripe_generic data seed
  end.

(** * Words *)

Notation u64 := (in_u 64).

Create HintDb words.
#[export] Hint Resolve in_u_wadd in_u_wsub in_u_wmul in_u_wshl in_u_lxor in_u_lor in_u_shiftr : words.
#[export] Hint Extern 5 (_ <= _) => lia : words.
#[export] Hint Extern 5 (_ <= _ <= _) => lia : words.

(** A byte or a [u32] is a [u64]. *)
Lemma in_u_le w w' x : 0 <= w <= w' -> in_u w x -> in_u w' x.
Proof. unfold in_u. intros Hw Hx. pose proof (Z.pow_le_mono_r 2 w w'). lia. Qed.

Lemma in_u_land_low y : u64 y -> Z.land y 0xFFFFFFFF = y mod 2 ^ 32.
Proof. intros. change 0xFFFFFFFF with (Z.ones 32). by rewrite Z.land_ones. Qed.

Lemma shiftr_high y : Z.shiftr y 32 = y / 2 ^ 32.
Proof. by rewrite Z.shiftr_div_pow2. Qed.

(** The halves of a word. *)
Lemma halves_bound y : u64 y -> 0 <= y mod 2 ^ 32 < 2 ^ 32 /\ 0 <= y / 2 ^ 32 < 2 ^ 32.
Proof.
  unfold in_u. intros Hy. split; [apply Z.mod_pos_bound; lia|].
  split; [apply Z.div_pos; lia|apply Z.div_lt_upper_bound; lia].
Qed.

Lemma in_u_xorshift x n : 0 <= n -> u64 x -> u64 (xorshift x n).
Proof. unfold xorshift. auto with words. Qed.
#[export] Hint Resolve in_u_xorshift in_u_rotate_left : words.

Lemma in_u_swap8 x : u64 (swap_bytes 8 x).
Proof. apply (in_u_swap_bytes 8). Qed.
Lemma in_u_swap4 x : in_u 32 (swap_bytes 4 x).
Proof. apply (in_u_swap_bytes 4). Qed.
#[export] Hint Resolve in_u_swap8 : words.

Lemma in_u_xxh64_avalanche x : u64 x -> u64 (xxh64_avalanche x).
Proof. unfold xxh64_avalanche. auto 10 with words. Qed.
Lemma in_u_xxh3_avalanche x : u64 x -> u64 (xxh3_avalanche x).
Proof. unfold xxh3_avalanche. auto 10 with words. Qed.
Lemma in_u_rrmxmx x y : u64 x -> u64 (rrmxmx x y).
Proof. unfold rrmxmx. auto 10 with words. Qed.

Lemma in_u_mul128_and_xor x y : u64 x -> u64 y -> u64 (mul128_and_xor x y).
Proof.
  intros Hx Hy. unfold mul128_and_xor. apply in_u_lxor; [lia|by apply in_u_mod|].
  rewrite Z.shiftr_div_pow2 by lia. unfold in_u in *.
  assert (0 <= x * y < 2 ^ 64 * 2 ^ 64) by nia. split; [apply Z.div_pos; lia|apply Z.div_lt_upper_bound; lia].
Qed.
#[export] Hint Resolve in_u_xxh64_avalanche in_u_xxh3_avalanche in_u_rrmxmx in_u_mul128_and_xor : words.

Lemma in_u_u128_of high low : u64 high -> u64 low -> in_u 128 (u128_of high low).
Proof.
  intros. unfold u128_of. apply in_u_lor; [lia|by apply in_u_wshl|by apply (in_u_le 64)].
Qed.
#[export] Hint Resolve in_u_u128_of : words.

(** ** Reading words *)

Definition word32 (data : list Z) (i : Z) : Z := from_le_bytes (take 4 (drop (Z.to_nat (i * 4)) data)).
Definition word64 (data : list Z) (i : Z) : Z := from_le_bytes (take 8 (drop (Z.to_nat (i * 8)) data)).

Lemma get_u32_ok data i : 0 <= i -> (i + 1) * 4 <= vlen data -> get_u32 data i = Ret (word32 data i).
Proof.
  intros. unfold get_u32, word32. rewrite slice_ok by lia. cbn [mbind outcome_bind].
  do 3 f_equal. lia.
Qed.
Lemma get_u64_ok data i : 0 <= i -> (i + 1) * 8 <= vlen data -> get_u64 data i = Ret (word64 data i).
Proof.
  intros. unfold get_u64, word64. rewrite slice_ok by lia. cbn [mbind outcome_bind].
  do 3 f_equal. lia.
Qed.

Lemma from_le_bytes_in_u w data : Forall byte data -> 8 * vlen data <= w -> in_u w (from_le_bytes data).
Proof.
  intros Hd Hw. pose proof (from_le_bytes_bound data Hd) as Hb. unfold in_u.
  pose proof (vlen_nonneg data). pose proof (Z.pow_le_mono_r 2 (8 * vlen data) w). lia.
Qed.
Lemma in_u_word32 data i : Forall byte data -> in_u 32 (word32 data i).
Proof.
  intros. unfold word32. apply from_le_bytes_in_u; [by apply Forall_take, Forall_drop|].
  unfold vlen. rewrite length_take. lia.
Qed.
Lemma in_u_word64 data i : Forall byte data -> u64 (word64 data i).
Proof.
  intros. unfold word64. apply from_le_bytes_in_u; [by apply Forall_take, Forall_drop|].
  unfold vlen. rewrite length_take. lia.
Qed.
Lemma in_u_word32_64 data i : Forall byte data -> u64 (word32 data i).
Proof. intros. apply (in_u_le 32); [lia|]. by apply in_u_word32. Qed.
#[export] Hint Resolve in_u_word64 in_u_word32_64 : words.
#[export] Hint Extern 3 (Forall _ (drop _ _)) => apply Forall_drop : words.

(** [hrun] evaluates reads of words and slices whose bounds [lia] proves. *)
Ltac hside := rewrite ?vlen_drop by lia; lia.
Ltac hstep :=
  match goal with
  | |- context [get_u64 ?d ?i] => rewrite (get_u64_ok d i) by hside
  | |- context [get_u32 ?d ?i] => rewrite (get_u32_ok d i) by hside
  | |- context [slice_from ?d ?i] => rewrite (slice_from_ok d i) by hside
  | |- context [usub ?a ?b] => rewrite (usub_ok a b) by hside
  end; cbn [mbind mret outcome_bind outcome_ret].
Ltac hrun := repeat hstep.

Lemma mix16_ok data secret seed :
  Forall byte data -> Forall byte secret -> 16 <= vlen data -> 16 <= vlen secret ->
  exists m, mix16 data secret seed = Ret m /\ u64 m.
Proof. intros. unfold mix16. hrun. eexists. split; [done|]. auto 10 with words. Qed.

Lemma add_mix16_ok data secret seed a b r :
  Forall byte data -> Forall byte secret -> 0 <= a -> a + 16 <= vlen data -> 0 <= b -> b + 16 <= vlen secret ->
  exists m, add_mix16 data secret seed a b r = Ret m /\ u64 m.
Proof.
  intros. unfold add_mix16. hrun.
  destruct (mix16_ok (drop (Z.to_nat a) data) (drop (Z.to_nat b) secret) seed) as (m & -> & Hm);
    [by apply Forall_drop|by apply Forall_drop|hside|hside|].
  eexists. split; [done|]. auto with words.
Qed.

(** A state of two words *)
Definition words2 (s : Z * Z) : Prop := u64 s.1 /\ u64 s.2.

Lemma mix32_at_ok data secret a b c seed s :
  Forall byte data -> Forall byte secret -> words2 s -> 0 <= a -> a + 16 <= vlen data ->
  0 <= b -> b + 16 <= vlen data -> 0 <= c -> c + 32 <= vlen secret ->
  exists s', mix32_at data secret a b c seed s = Ret s' /\ words2 s'.
Proof.
  intros Hd Hs [H1 H2] Ha Ha' Hb Hb' Hc Hc'. unfold mix32_at. hrun. unfold mix32. destruct s as [r1 r2]. cbn in H1, H2.
  destruct (mix16_ok (drop (Z.to_nat a) data) (drop (Z.to_nat c) secret) seed) as (m1 & -> & Hm1);
    [by apply Forall_drop|by apply Forall_drop|hside|hside|]. cbn [mbind outcome_bind]. hrun.
  set (d2 := drop (Z.to_nat b) data). rewrite drop_drop.
  destruct (mix16_ok d2 (drop (Z.to_nat c + Z.to_nat 16) secret) seed) as (m2 & -> & Hm2);
    [by apply Forall_drop|by apply Forall_drop|unfold d2; hside|unfold vlen in *; rewrite length_drop; lia|].
  cbn [mbind outcome_bind]. hrun. eexists. split; [done|]. split; cbn; auto 10 with words.
Qed.

(** ** Small inputs *)

(** [small_ok] closes a goal that a straight-line hash returns a word. *)
Ltac small_ok := hrun; eexists; split; [reflexivity|]; auto 12 with words.

Lemma bytes_lookup data i b : Forall byte data -> data !! i = Some b -> in_u 32 b.
Proof. intros Hd Hi. eapply Forall_lookup_1 in Hi; [|done]. unfold byte, in_u in *. lia. Qed.

Lemma combine_1to3_ok data :
  Forall byte data -> 0 < vlen data < 4 -> exists c, combine_1to3 data = Ret c /\ in_u 32 c.
Proof.
  intros Hd Hl. unfold combine_1to3.
  destruct (vget_is_Ret data 0 ltac:(lia)) as (x1 & -> & H1). cbn [mbind outcome_bind].
  assert (0 <= Z.shiftr (vlen data) 1 < vlen data).
  { rewrite Z.shiftr_div_pow2 by lia. change (2 ^ 1) with 2. pose proof (Z.div_mod (vlen data) 2).
    pose proof (Z.mod_pos_bound (vlen data) 2). lia. }
  destruct (vget_is_Ret data (Z.shiftr (vlen data) 1) ltac:(done)) as (x2 & -> & H2). cbn [mbind outcome_bind].
  destruct (last data) as [x3|] eqn:E; cbn [unwrap mbind outcome_bind].
  - eexists. split; [done|]. apply last_Some_elem_of, list_elem_of_lookup in E as [j E].
    apply bytes_lookup in E; [|done]. auto 10 with words.
  - apply last_None in E as ->. change (@vlen Z []) with 0 in Hl. lia.
Qed.

Lemma swap_seed_ok seed : u64 seed -> u64 (swap_seed seed).
Proof. unfold swap_seed. auto with words. Qed.
#[export] Hint Resolve swap_seed_ok : words.

Section small.
  Context (data secret : list Z) (seed : Z).
  Context (Hd : Forall byte data) (Hs : Forall byte secret) (Hl : vlen secret = 192) (Hseed : u64 seed).

Lemma hash64_0_ok k : 0 <= k <= 120 -> exists h, hash64_0 (drop (Z.to_nat k) secret) seed = Ret h /\ u64 h.
Proof. intros. unfold hash64_0. small_ok. Qed.

Lemma hash64_1to3_ok : 0 < vlen data < 4 -> exists h, hash64_1to3 data secret seed = Ret h /\ u64 h.
Proof.
  intros. unfold hash64_1to3. destruct (combine_1to3_ok data) as (c & -> & Hc); [done..|].
  cbn [mbind outcome_bind]. assert (u64 c) by (by apply (in_u_le 32)). small_ok.
Qed.

Lemma hash64_4to8_ok : 4 <= vlen data <= 8 -> exists h, hash64_4to8 data secret seed = Ret h /\ u64 h.
Proof. intros. unfold hash64_4to8. small_ok. Qed.

Lemma hash64_9to16_ok : 9 <= vlen data <= 16 -> exists h, hash64_9to16 data secret seed = Ret h /\ u64 h.
Proof. intros. unfold hash64_9to16. small_ok. Qed.

Lemma hash64_17to128_ok : 17 <= vlen data <= 128 -> exists h, hash64_17to128 data secret seed = Ret h /\ u64 h.
Proof.
  intros. unfold hash64_17to128. hrun.
  destruct (for_each_inv u64 (fun i result =>
      result ← add_mix16 data secret seed (16 * i) (32 * i) result;
      o ← usub (vlen data) (16 * (i + 1));
      add_mix16 data secret seed o (32 * i + 16) result) (rev (seqZ 0 ((vlen data - 1) / 32 + 1)))
      (wmul 64 PRIME64_0 (vlen data))) as (r & -> & Hr).
  - intros i s Hi Hu. rewrite list_elem_of_In, <-in_rev, <-list_elem_of_In, elem_of_seqZ in Hi.
    pose proof (Z.mul_div_le (vlen data - 1) 32).
    destruct (add_mix16_ok data secret seed (16 * i) (32 * i) s) as (m & -> & Hm); [done|done|lia..|].
    cbn [mbind outcome_bind]. hrun. apply add_mix16_ok; [done|done|lia..].
  - auto with words.
  - cbn [mbind outcome_bind]. eexists. split; [done|]. auto with words.
Qed.

Lemma hash64_129to240_ok : 129 <= vlen data <= 240 -> exists h, hash64_129to240 data secret seed = Ret h /\ u64 h.
Proof.
  intros. unfold hash64_129to240.
  destruct (for_each_inv u64 (fun i result => add_mix16 data secret seed (16 * i) (16 * i) result) (seqZ 0 8)
      (wmul 64 PRIME64_0 (vlen data))) as (r & -> & Hr).
  { intros i s Hi%elem_of_seqZ Hu. apply add_mix16_ok; [done|done|lia..]. }
  { auto with words. }
  cbn [mbind outcome_bind].
  destruct (for_each_inv u64 (fun i result => add_mix16 data secret seed (16 * i) (16 * (i - 8) + 3) result)
      (seqZ 8 (vlen data / 16 - 8)) (xxh3_avalanche r)) as (r2 & -> & Hr2).
  { intros i s Hi%elem_of_seqZ Hu. pose proof (Z.mul_div_le (vlen data) 16). apply add_mix16_ok; [done|done|lia..]. }
  { auto with words. }
  cbn [mbind outcome_bind]. hrun. change MIN_SECRET_SIZE with 136.
  destruct (add_mix16_ok data secret seed (vlen data - 16) (136 - 17) r2) as (m & -> & Hm); [done|done|lia..|].
  cbn [mbind outcome_bind]. eexists. split; [done|]. auto with words.
Qed.

Lemma hash128_0_ok : exists h, hash128_0 secret seed = Ret h /\ in_u 128 h.
Proof.
  unfold hash128_0. hrun. destruct (hash64_0_ok (3 * 8) ltac:(lia)) as (h & -> & Hh). cbn [mbind outcome_bind]. hrun.
  destruct (hash64_0_ok 8 ltac:(lia)) as (l & -> & Hlow). cbn [mbind outcome_bind]. small_ok.
Qed.

Lemma hash128_1to3_ok : 0 < vlen data < 4 -> exists h, hash128_1to3 data secret seed = Ret h /\ in_u 128 h.
Proof.
  intros. unfold hash128_1to3. destruct (combine_1to3_ok data) as (c & -> & Hc); [done..|].
  cbn [mbind outcome_bind]. hrun. eexists. split; [done|].
  assert (u64 (rotate_left 32 (swap_bytes 4 c) 13)).
  { apply (in_u_le 32); [lia|]. apply in_u_rotate_left; [lia|apply in_u_swap4]. }
  assert (u64 c) by (by apply (in_u_le 32)). auto 12 with words.
Qed.

Lemma from_le_drop o w : 0 <= o <= vlen data -> 8 * (vlen data - o) <= w -> in_u w (from_le_bytes (drop (Z.to_nat o) data)).
Proof. intros. apply from_le_bytes_in_u; [by apply Forall_drop|]. rewrite vlen_drop by lia. lia. Qed.

Lemma shiftr64_bound y : in_u 128 y -> u64 (Z.shiftr y 64).
Proof.
  unfold in_u. intros. rewrite Z.shiftr_div_pow2 by lia. split; [apply Z.div_pos; lia|apply Z.div_lt_upper_bound; lia].
Qed.

Lemma hash128_4to8_ok : 4 <= vlen data <= 8 -> exists h, hash128_4to8 data secret seed = Ret h /\ in_u 128 h.
Proof.
  intros. unfold hash128_4to8. hrun. pose proof (from_le_drop (vlen data - 4) 64 ltac:(lia) ltac:(lia)).
  rewrite utry_ok by (apply shiftr64_bound; by apply in_u_wmul). cbn [mbind outcome_bind]. eexists. split; [done|].
  apply in_u_u128_of; auto 12 with words.
Qed.

Lemma hash128_9to16_ok : 9 <= vlen data <= 16 -> exists h, hash128_9to16 data secret seed = Ret h /\ in_u 128 h.
Proof.
  intros. unfold hash128_9to16. hrun. eexists. split; [done|].
  apply in_u_u128_of; apply in_u_xxh3_avalanche; [auto with words|]. by apply in_u_mod.
Qed.

Lemma finish_state_ok s len : in_u 128 (finish_state s len seed).
Proof. unfold finish_state. apply in_u_u128_of; auto 10 with words. Qed.

Lemma init_words2 : words2 (wmul 64 PRIME64_0 (vlen data), 0).
Proof. split; cbn; [auto with words|unfold in_u; lia]. Qed.

(** A round that is taken only for longer inputs *)
Lemma mix32_if b a o c s :
  words2 s -> (b = true -> 0 <= a /\ a + 16 <= vlen data /\ o <= vlen data /\ 16 <= o /\ 0 <= c /\ c + 32 <= vlen secret) ->
  exists s', (if b then o ← usub (vlen data) o; mix32_at data secret a o c seed s else Ret s) = Ret s' /\ words2 s'.
Proof.
  intros Hw Hb. destruct b; [|by eexists]. destruct (Hb eq_refl) as (?&?&?&?&?&?). hrun.
  apply mix32_at_ok; [done|done|done|lia..].
Qed.

Lemma hash128_17to128_ok : 17 <= vlen data <= 128 -> exists h, hash128_17to128 data secret seed = Ret h /\ in_u 128 h.
Proof.
  intros. unfold hash128_17to128.
  destruct (mix32_if (96 <? vlen data) 48 64 96 _ init_words2) as (s1 & -> & H1); [lia|]. cbn [mbind outcome_bind].
  destruct (mix32_if (64 <? vlen data) 32 48 64 _ H1) as (s2 & -> & H2); [lia|]. cbn [mbind outcome_bind].
  destruct (mix32_if (32 <? vlen data) 16 32 32 _ H2) as (s3 & -> & H3); [lia|]. cbn [mbind outcome_bind].
  destruct (mix32_if true 0 16 0 _ H3) as (s4 & E & H4); [intros _; lia|]. cbn [mbind outcome_bind] in *. 
  rewrite usub_ok in E |- * by lia. cbn [mbind outcome_bind] in *. rewrite E. cbn [mbind outcome_bind].
  eexists. split; [done|]. apply finish_state_ok.
Qed.

Lemma hash128_129to240_ok : 129 <= vlen data <= 240 -> exists h, hash128_129to240 data secret seed = Ret h /\ in_u 128 h.
Proof.
  intros. unfold hash128_129to240.
  destruct (for_each_inv words2 (fun i => mix32_at data secret (32 * i) (32 * i + 16) (32 * i) seed) (seqZ 0 4) (wmul 64 PRIME64_0 (vlen data), 0)) as (s & -> & Hws).
  { intros i s Hi%elem_of_seqZ Hu. apply mix32_at_ok; [done|done|done|lia..]. }
  { apply init_words2. }
  cbn [mbind outcome_bind]. destruct Hws as [Hw1 Hw2].
  destruct (for_each_inv words2 (fun i => mix32_at data secret (32 * i) (32 * i + 16) (3 + 32 * (i - 4)) seed)
      (seqZ 4 (vlen data / 32 - 4)) (xxh3_avalanche s.1, xxh3_avalanche s.2)) as (s2 & -> & Hs2).
  { intros i s' Hi%elem_of_seqZ Hu. pose proof (Z.mul_div_le (vlen data) 32). apply mix32_at_ok; [done|done|done|lia..]. }
  { split; cbn; auto with words. }
  cbn [mbind outcome_bind]. hrun. change MIN_SECRET_SIZE with 136.
  destruct (mix32_at_ok data secret (vlen data - 16) (vlen data - 32) (136 - 33) (wsub 64 0 seed) s2)
    as (m & -> & Hm); [done|done|done|lia..|].
  cbn [mbind outcome_bind]. eexists. split; [done|]. apply finish_state_ok.
Qed.

Lemma hash64_0to240_ok : vlen data <= 240 -> exists h, hash64_0to240 data secret seed = Ret h /\ u64 h.
Proof.
  intros. pose proof (vlen_nonneg data). unfold hash64_0to240, hash64_0to16. pose proof (hash64_0_ok 0 ltac:(lia)).
  destruct (Z.leb_spec (vlen data) 16); [|destruct (Z.leb_spec (vlen data) 128)];
    [|apply hash64_17to128_ok; lia|apply hash64_129to240_ok; lia].
  destruct (Z.eqb_spec (vlen data) 0); [done|].
  destruct (Z.ltb_spec (vlen data) 4); [apply hash64_1to3_ok; lia|].
  destruct (Z.leb_spec (vlen data) 8); [apply hash64_4to8_ok|apply hash64_9to16_ok]; lia.
Qed.

Lemma hash128_0to240_ok : vlen data <= 240 -> exists h, hash128_0to240 data secret seed = Ret h /\ in_u 128 h.
Proof.
  intros. pose proof (vlen_nonneg data). unfold hash128_0to240, hash128_0to16. pose proof hash128_0_ok.
  destruct (Z.leb_spec (vlen data) 16); [|destruct (Z.leb_spec (vlen data) 128)];
    [|apply hash128_17to128_ok; lia|apply hash128_129to240_ok; lia].
  destruct (Z.eqb_spec (vlen data) 0); [done|].
  destruct (Z.ltb_spec (vlen data) 4); [apply hash128_1to3_ok; lia|].
  destruct (Z.leb_spec (vlen data) 8); [apply hash128_4to8_ok|apply hash128_9to16_ok]; lia.
Qed.

End small.

(** ** One stripe, in every version *)

(** Eight accumulators *)
Definition acc_ok (acc : list Z) : Prop := length acc = 8%nat /\ Forall u64 acc.

Lemma acc_ok_inv acc : acc_ok acc -> exists a0 a1 a2 a3 a4 a5 a6 a7,
  acc = [a0; a1; a2; a3; a4; a5; a6; a7] /\ u64 a0 /\ u64 a1 /\ u64 a2 /\ u64 a3 /\ u64 a4 /\ u64 a5 /\ u64 a6 /\ u64 a7.
Proof.
  intros [Hl Hf]. do 8 (destruct acc as [|? acc]; [done|]). destruct acc; [|done]. rewrite !Forall_cons in Hf.
  naive_solver.
Qed.

Lemma wadd_swap a x z : wadd 64 (wadd 64 a z) x = wadd 64 (wadd 64 a x) z.
Proof. unfold wadd. rewrite !Zplus_mod_idemp_l. f_equal. lia. Qed.

Lemma word64_drop data i : 0 <= i -> word64 (drop (Z.to_nat (i * 8)) data) 0 = word64 data i.
Proof. intros. unfold word64. rewrite drop_drop. do 3 f_equal. lia. Qed.

(** The product of the halves of a lane *)
Definition lane_product (y : Z) : Z := (y mod 2 ^ 32) * (y / 2 ^ 32).

Lemma lane_product_ok y : u64 y -> umul 64 (Z.land y 0xFFFFFFFF) (Z.shiftr y 32) = Ret (lane_product y).
Proof.
  intros Hy. rewrite in_u_land_low, shiftr_high by done. pose proof (halves_bound y Hy).
  apply umul_ok. change (2 ^ 64) with (2 ^ 32 * 2 ^ 32). nia.
Qed.

(** What a stripe does to each lane: it adds the neighbour's word, and the product
    of the halves of its own word mixed with the secret. *)
Definition stripe_lane (data secret : list Z) (i a : Z) : Z :=
  wadd 64 (wadd 64 a (word64 data (Z.lxor i 1))) (lane_product (Z.lxor (word64 data i) (word64 secret i))).
Definition stripe_spec (acc data secret : list Z) : list Z := zip_with (stripe_lane data secret) (seqZ 0 8) acc.

Lemma stripe_spec_ok acc data secret : acc_ok acc -> acc_ok (stripe_spec acc data secret).
Proof.
  intros (a0&a1&a2&a3&a4&a5&a6&a7&->&_)%acc_ok_inv. split; [done|].
  unfold stripe_spec. change (seqZ 0 8) with [0;1;2;3;4;5;6;7]. cbn [zip_with].
  repeat constructor; by apply in_u_wadd.
Qed.

Section stripe.
  Context (acc data secret : list Z).
  Context (Ha : acc_ok acc) (Hd : Forall byte data) (Hs : Forall byte secret).
  Context (Hdl : 64 <= vlen data) (Hsl : 64 <= vlen secret).

Lemma accumulate_lane_ok i a b (l : list Z) :
  0 <= i < 8 -> l !! Z.to_nat (Z.lxor i 1) = Some a ->
  <[Z.to_nat (Z.lxor i 1) := wadd 64 a (word64 data i)]> l !! Z.to_nat i = Some b -> length l = 8%nat ->
  accumulate_lane data secret i l =
    Ret (<[Z.to_nat i := wadd 64 b (lane_product (Z.lxor (word64 data i) (word64 secret i)))]>
      (<[Z.to_nat (Z.lxor i 1) := wadd 64 a (word64 data i)]> l)).
Proof.
  intros Hi Hx Hb Hl. assert (Hxi : 0 <= Z.lxor i 1 < 8) by (apply (in_u_lxor 3); unfold in_u; lia).
  unfold accumulate_lane. hrun. rewrite !word64_drop by lia.
  rewrite (vget_ok l _ a) by (done || lia). cbn [mbind outcome_bind].
  rewrite vset_ok by (unfold vlen; lia). cbn [mbind outcome_bind].
  rewrite lane_product_ok by auto with words. cbn [mbind outcome_bind].
  rewrite (vget_ok _ _ b) by (done || lia). cbn [mbind outcome_bind].
  apply vset_ok. unfold vlen. rewrite length_insert. lia.
Qed.

#[local] Arguments wadd : simpl never.
#[local] Arguments wmul : simpl never.
#[local] Arguments wshl : simpl never.
#[local] Arguments word64 : simpl never.
#[local] Arguments lane_product : simpl never.
#[local] Arguments Z.lxor : simpl never.
#[local] Arguments xorshift : simpl never.
#[local] Arguments Z.modulo : simpl never.
#[local] Arguments Z.div : simpl never.
#[local] Arguments Z.mul : simpl never.
#[local] Arguments Z.add : simpl never.
#[local] Arguments Z.pow : simpl never.
#[local] Arguments Z.shiftr : simpl never.

(** Runs round [i] on eight explicit lanes. *)
#[local] Ltac lane i := erewrite (accumulate_lane_ok i) by (lia || reflexivity); cbn [mbind outcome_bind];
  change (Z.to_nat i) with ltac:(let x := eval vm_compute in (Z.to_nat i) in exact x);
  change (Z.to_nat (Z.lxor i 1)) with ltac:(let x := eval vm_compute in (Z.to_nat (Z.lxor i 1)) in exact x);
  cbn [insert list_insert].

Lemma accumulate_generic_spec : accumulate_stripe_generic acc data secret = Ret (stripe_spec acc data secret).
Proof.
  destruct (acc_ok_inv _ Ha) as (a0&a1&a2&a3&a4&a5&a6&a7&->&_). unfold accumulate_stripe_generic, stripe_spec.
  change (vlen [a0; a1; a2; a3; a4; a5; a6; a7]) with 8. change (seqZ 0 8) with [0;1;2;3;4;5;6;7].
  cbn [for_each].
  lane 0. lane 1. lane 2. lane 3. lane 4. lane 5. lane 6. lane 7.
  cbn [zip_with]. unfold stripe_lane.
  change (Z.lxor 0 1) with 1. change (Z.lxor 1 1) with 0. change (Z.lxor 2 1) with 3. change (Z.lxor 3 1) with 2.
  change (Z.lxor 4 1) with 5. change (Z.lxor 5 1) with 4. change (Z.lxor 6 1) with 7. change (Z.lxor 7 1) with 6.
  by rewrite (wadd_swap a0), (wadd_swap a2), (wadd_swap a4), (wadd_swap a6).
Qed.

Lemma low_of_pair a b : 0 <= a < 2 ^ 32 -> (a + 2 ^ 32 * b) mod 2 ^ 32 = a.
Proof. intros. rewrite Z.mul_comm, Z_mod_plus_full. by apply Z.mod_small. Qed.
Lemma pair_of_halves x : x mod 2 ^ 32 + 2 ^ 32 * (x / 2 ^ 32) = x.
Proof. pose proof (Z.div_mod x (2 ^ 32)). lia. Qed.

Lemma loadu_bytes_ok (l : list Z) i :
  0 <= i -> 32 * (i + 1) <= vlen l ->
  avx2.loadu_bytes l i = Ret [word64 l (4 * i + 0); word64 l (4 * i + 1); word64 l (4 * i + 2); word64 l (4 * i + 3)].
Proof. intros. unfold avx2.loadu_bytes. change (seqZ 0 4) with [0; 1; 2; 3]. cbn [omap_list]. hrun. done. Qed.

(** Immediate 49 moves the high halves of the lanes into their low halves; 78 swaps
    neighbouring lanes. *)
Lemma shuffle_49 z0 z1 z2 z3 : avx2.shuffle_epi32 49 [z0; z1; z2; z3] =
  [z0 / 2 ^ 32 + 2 ^ 32 * (z0 mod 2 ^ 32); z1 / 2 ^ 32 + 2 ^ 32 * (z0 mod 2 ^ 32);
   z2 / 2 ^ 32 + 2 ^ 32 * (z2 mod 2 ^ 32); z3 / 2 ^ 32 + 2 ^ 32 * (z2 mod 2 ^ 32)].
Proof. done. Qed.
Lemma shuffle_78 x0 x1 x2 x3 : avx2.shuffle_epi32 78 [x0; x1; x2; x3] = [x1; x0; x3; x2].
Proof.
  transitivity [x1 mod 2 ^ 32 + 2 ^ 32 * (x1 / 2 ^ 32); x0 mod 2 ^ 32 + 2 ^ 32 * (x0 / 2 ^ 32);
    x3 mod 2 ^ 32 + 2 ^ 32 * (x3 / 2 ^ 32); x2 mod 2 ^ 32 + 2 ^ 32 * (x2 / 2 ^ 32)]; [done|].
  by rewrite !pair_of_halves.
Qed.

Lemma avx2_products z0 z1 z2 z3 :
  u64 z0 -> u64 z1 -> u64 z2 -> u64 z3 ->
  avx2.mul_epu32 [z0; z1; z2; z3] (avx2.shuffle_epi32 49 [z0; z1; z2; z3]) =
    [lane_product z0; lane_product z1; lane_product z2; lane_product z3].
Proof.
  intros H0%halves_bound H1%halves_bound H2%halves_bound H3%halves_bound. rewrite shuffle_49.
  unfold avx2.mul_epu32. cbn [zip_with]. by rewrite !low_of_pair by tauto.
Qed.

Lemma accumulate_avx2_spec : accumulate_stripe_avx2 acc data secret = Ret (stripe_spec acc data secret).
Proof.
  destruct (acc_ok_inv _ Ha) as (a0&a1&a2&a3&a4&a5&a6&a7&->&_). unfold accumulate_stripe_avx2, stripe_spec.
  unfold STRIPE_LENGTH. osteps. change (seqZ 0 (64 / 32)) with [0; 1]. change (seqZ 0 8) with [0;1;2;3;4;5;6;7].
  cbn [for_each]. unfold accumulate_avx2_round.
  rewrite !loadu_bytes_ok by lia. cbn [mbind outcome_bind]. unfold avx2.xor_si256. cbn [zip_with].
  rewrite !avx2_products, !shuffle_78 by auto with words. reflexivity.
Qed.

Lemma vld1q_u8_ok (l : list Z) i :
  0 <= i -> 16 * (i + 1) <= vlen l -> neon.vld1q_u8 l i = Ret [word64 l (2 * i + 0); word64 l (2 * i + 1)].
Proof. intros. unfold neon.vld1q_u8. change (seqZ 0 2) with [0; 1]. cbn [omap_list]. hrun. done. Qed.

Lemma neon_products z0 z1 :
  u64 z0 -> u64 z1 ->
  neon.vmull_u32 (neon.vmovn_u64 [z0; z1]) (neon.vshrn_n_u64 [z0; z1] 32) = [lane_product z0; lane_product z1].
Proof.
  intros H0%halves_bound H1%halves_bound. unfold neon.vmull_u32, neon.vmovn_u64, neon.vshrn_n_u64. cbn [map zip_with].
  rewrite !shiftr_high, !(Z.mod_small (_ / _)) by tauto. done.
Qed.

Lemma accumulate_neon_spec : accumulate_stripe_neon acc data secret = Ret (stripe_spec acc data secret).
Proof.
  destruct (acc_ok_inv _ Ha) as (a0&a1&a2&a3&a4&a5&a6&a7&->&_). unfold accumulate_stripe_neon, stripe_spec.
  unfold STRIPE_LENGTH. osteps. change (seqZ 0 (64 / 16)) with [0; 1; 2; 3]. change (seqZ 0 8) with [0;1;2;3;4;5;6;7].
  cbn [for_each]. unfold accumulate_neon_round.
  rewrite !vld1q_u8_ok by lia. cbn [mbind outcome_bind]. unfold neon.veorq_u64, neon.vmlal_u32. cbn [zip_with].
  rewrite !neon_products by auto with words. reflexivity.
Qed.

(** ** Scrambling *)

Definition scramble_spec (acc secret : list Z) : list Z :=
  zip_with (fun i a => wmul 64 (Z.lxor (xorshift a 47) (word64 secret i)) PRIME32_0) (seqZ 0 8) acc.

Lemma scramble_spec_ok : acc_ok (scramble_spec acc secret).
Proof.
  destruct (acc_ok_inv _ Ha) as (a0&a1&a2&a3&a4&a5&a6&a7&->&_). split; [done|].
  unfold scramble_spec. change (seqZ 0 8) with [0;1;2;3;4;5;6;7]. cbn [zip_with].
  repeat constructor; by apply in_u_wmul.
Qed.

Lemma scramble_generic_spec : scramble_accumulators_generic acc secret = Ret (scramble_spec acc secret).
Proof.
  destruct (acc_ok_inv _ Ha) as (a0&a1&a2&a3&a4&a5&a6&a7&->&_). unfold scramble_accumulators_generic, scramble_spec.
  change (vlen [a0; a1; a2; a3; a4; a5; a6; a7]) with 8. change (seqZ 0 8) with [0;1;2;3;4;5;6;7].
  cbn [for_each]. unfold scramble_lane. hrun. reflexivity.
Qed.

(** Multiplying the halves apart is multiplying the word. *)
Lemma mul_halves c : wadd 64 ((c mod 2 ^ 32) * PRIME32_0) (wshl 64 ((c / 2 ^ 32) * PRIME32_0) 32) = wmul 64 c PRIME32_0.
Proof.
  unfold wadd, wshl, wmul. rewrite Z.shiftl_mul_pow2, Zplus_mod_idemp_r by lia. f_equal.
  rewrite <-(pair_of_halves c) at 3. lia.
Qed.
Lemma mul_halves' c : wadd 64 (wshl 64 ((c / 2 ^ 32) * PRIME32_0) 32) ((c mod 2 ^ 32) * PRIME32_0) = wmul 64 c PRIME32_0.
Proof. rewrite <-mul_halves. unfold wadd. f_equal. lia. Qed.

Lemma avx2_mul_prime c0 c1 c2 c3 :
  u64 c0 -> u64 c1 -> u64 c2 -> u64 c3 ->
  avx2.add_epi64 (avx2.mul_epu32 [c0; c1; c2; c3] (avx2.set1_epi32 PRIME32_0))
    (avx2.slli_epi64 32 (avx2.mul_epu32 (avx2.shuffle_epi32 49 [c0; c1; c2; c3]) (avx2.set1_epi32 PRIME32_0))) =
  [wmul 64 c0 PRIME32_0; wmul 64 c1 PRIME32_0; wmul 64 c2 PRIME32_0; wmul 64 c3 PRIME32_0].
Proof.
  intros H0%halves_bound H1%halves_bound H2%halves_bound H3%halves_bound. rewrite shuffle_49.
  unfold avx2.add_epi64, avx2.slli_epi64, avx2.mul_epu32, avx2.set1_epi32.
  cbn [avx2.lanes64 zip_with map]. rewrite !low_of_pair by (tauto || done). by rewrite !mul_halves.
Qed.

Lemma scramble_avx2_round_ok i a b c d l :
  0 <= i < 2 -> u64 a -> u64 b -> u64 c -> u64 d -> avx2.loadu_words l i = Ret [a; b; c; d] ->
  scramble_avx2_round secret i l =
    avx2.storeu_words l i [wmul 64 (Z.lxor (xorshift a 47) (word64 secret (4 * i + 0))) PRIME32_0;
                           wmul 64 (Z.lxor (xorshift b 47) (word64 secret (4 * i + 1))) PRIME32_0;
                           wmul 64 (Z.lxor (xorshift c 47) (word64 secret (4 * i + 2))) PRIME32_0;
                           wmul 64 (Z.lxor (xorshift d 47) (word64 secret (4 * i + 3))) PRIME32_0].
Proof.
  intros Hi Hua Hub Huc Hud Hld. unfold scramble_avx2_round. rewrite Hld, loadu_bytes_ok by lia. cbn [mbind outcome_bind].
  unfold avx2.xor_si256, avx2.srli_epi64. cbn [map zip_with]. rewrite avx2_mul_prime by auto with words. done.
Qed.

Lemma store256_low a0 a1 a2 a3 a4 a5 a6 a7 v0 v1 v2 v3 :
  avx2.storeu_words [a0; a1; a2; a3; a4; a5; a6; a7] 0 [v0; v1; v2; v3] = Ret [v0; v1; v2; v3; a4; a5; a6; a7].
Proof. reflexivity. Qed.

Lemma scramble_avx2_spec : scramble_accumulators_avx2 acc secret = Ret (scramble_spec acc secret).
Proof.
  destruct (acc_ok_inv _ Ha) as (a0&a1&a2&a3&a4&a5&a6&a7&->&?&?&?&?&?&?&?&?).
  unfold scramble_accumulators_avx2, scramble_spec.
  change (seqZ 0 (STRIPE_LENGTH / 32)) with [0; 1]. change (seqZ 0 8) with [0;1;2;3;4;5;6;7]. cbn [for_each].
  rewrite (scramble_avx2_round_ok 0 a0 a1 a2 a3), store256_low by (done || lia). cbn [mbind outcome_bind].
  rewrite (scramble_avx2_round_ok 1 a4 a5 a6 a7) by (done || lia). reflexivity.
Qed.

Lemma neon_mul_prime c0 c1 :
  u64 c0 -> u64 c1 ->
  neon.vmlal_u32 (neon.vshlq_n_u64 (neon.vmull_u32 (neon.vshrn_n_u64 [c0; c1] 32) (neon.vdup_n_u32 PRIME32_0)) 32)
    (neon.vmovn_u64 [c0; c1]) (neon.vdup_n_u32 PRIME32_0) =
  [wmul 64 c0 PRIME32_0; wmul 64 c1 PRIME32_0].
Proof.
  intros H0%halves_bound H1%halves_bound.
  unfold neon.vmlal_u32, neon.vshlq_n_u64, neon.vmull_u32, neon.vmovn_u64, neon.vshrn_n_u64, neon.vdup_n_u32.
  cbn [map zip_with]. rewrite !shiftr_high, !(Z.mod_small (_ / _)) by tauto. by rewrite !mul_halves'.
Qed.

Lemma scramble_neon_round_ok i a b l :
  0 <= i < 4 -> u64 a -> u64 b -> length l = 8%nat -> neon.vld1q_u64 l i = Ret [a; b] ->
  scramble_neon_round secret i l =
    neon.vst1q_u64 l i [wmul 64 (Z.lxor (xorshift a 47) (word64 secret (2 * i + 0))) PRIME32_0;
                        wmul 64 (Z.lxor (xorshift b 47) (word64 secret (2 * i + 1))) PRIME32_0].
Proof.
  intros Hi Hua Hub Hl Hld. unfold scramble_neon_round. rewrite Hld, vld1q_u8_ok by lia. cbn [mbind outcome_bind].
  unfold neon.veorq_u64, neon.vshrq_n_u64. cbn [map zip_with]. rewrite neon_mul_prime by auto with words. done.
Qed.

Lemma store128_0 a0 a1 a2 a3 a4 a5 a6 a7 v0 v1 :
  neon.vst1q_u64 [a0; a1; a2; a3; a4; a5; a6; a7] 0 [v0; v1] = Ret [v0; v1; a2; a3; a4; a5; a6; a7].
Proof. reflexivity. Qed.
Lemma store128_1 a0 a1 a2 a3 a4 a5 a6 a7 v0 v1 :
  neon.vst1q_u64 [a0; a1; a2; a3; a4; a5; a6; a7] 1 [v0; v1] = Ret [a0; a1; v0; v1; a4; a5; a6; a7].
Proof. reflexivity. Qed.
Lemma store128_2 a0 a1 a2 a3 a4 a5 a6 a7 v0 v1 :
  neon.vst1q_u64 [a0; a1; a2; a3; a4; a5; a6; a7] 2 [v0; v1] = Ret [a0; a1; a2; a3; v0; v1; a6; a7].
Proof. reflexivity. Qed.

Lemma scramble_neon_spec : scramble_accumulators_neon acc secret = Ret (scramble_spec acc secret).
Proof.
  destruct (acc_ok_inv _ Ha) as (a0&a1&a2&a3&a4&a5&a6&a7&->&?&?&?&?&?&?&?&?).
  unfold scramble_accumulators_neon, scramble_spec. unfold STRIPE_LENGTH. osteps.
  change (seqZ 0 (64 / 16)) with [0; 1; 2; 3]. change (seqZ 0 8) with [0;1;2;3;4;5;6;7]. cbn [for_each].
  rewrite (scramble_neon_round_ok 0 a0 a1), store128_0 by (done || lia). cbn [mbind outcome_bind].
  rewrite (scramble_neon_round_ok 1 a2 a3), store128_1 by (done || lia). cbn [mbind outcome_bind].
  rewrite (scramble_neon_round_ok 2 a4 a5), store128_2 by (done || lia). cbn [mbind outcome_bind].
  rewrite (scramble_neon_round_ok 3 a6 a7) by (done || lia). reflexivity.
Qed.

End stripe.

(** ** The secret *)

Lemma wsub_is_wadd a b : wsub 64 a b = wadd 64 a (wsub 64 0 b).
Proof. unfold wsub, wadd. rewrite Zplus_mod_idemp_r. done. Qed.

(** The words of the default secret, alternately with the seed added and taken away *)
Definition secret_words (seed : Z) : list Z :=
  concat (map (fun i => [wadd 64 (word64 DEFAULT_SECRET (2 * i)) seed;
                         wadd 64 (word64 DEFAULT_SECRET (2 * i + 1)) (wsub 64 0 seed)]) (seqZ 0 12)).
Definition secret_spec (seed : Z) : list Z := concat (map (to_le_bytes 8) (secret_words seed)).

Lemma gen_secret_generic_spec seed : gen_secret_generic seed = Ret (secret_spec seed).
Proof.
  unfold gen_secret_generic. change (vlen DEFAULT_SECRET / 16) with 12.
  cbv -[wadd wsub Z.modulo Z.div]. rewrite !(wsub_is_wadd (Z.pos _)). reflexivity.
Qed.

Lemma gen_secret_avx2_spec seed : gen_secret_avx2 seed = Ret (secret_spec seed).
Proof. cbv -[wadd wsub Z.modulo Z.div]. reflexivity. Qed.

Lemma secret_spec_len seed : vlen (secret_spec seed) = 192.
Proof.
  unfold secret_spec. rewrite (vlen_concat_chunks _ 8) by apply length_to_le_bytes. reflexivity.
Qed.
Lemma secret_spec_bytes seed : Forall byte (secret_spec seed).
Proof.
  unfold secret_spec. apply Forall_concat. apply Forall_map. apply Forall_true. apply to_le_bytes_byte.
Qed.

(** ** Large inputs *)

(** What the driver relies on: a version of the two routines computes the
    reference functions on stripes. *)
Class StripeImpl (scramble : list Z -> list Z -> outcome (list Z))
    (accum_stripe : list Z -> list Z -> list Z -> outcome (list Z)) : Prop := {
  scramble_impl : forall acc secret, acc_ok acc -> Forall byte secret -> 64 <= vlen secret ->
    scramble acc secret = Ret (scramble_spec acc secret);
  accum_impl : forall acc data secret, acc_ok acc -> Forall byte data -> Forall byte secret ->
    64 <= vlen data -> 64 <= vlen secret -> accum_stripe acc data secret = Ret (stripe_spec acc data secret) }.

#[export] Instance generic_impl : StripeImpl scramble_accumulators_generic accumulate_stripe_generic.
Proof. split; intros; [by apply scramble_generic_spec|by apply accumulate_generic_spec]. Qed.
#[export] Instance avx2_impl : StripeImpl scramble_accumulators_avx2 accumulate_stripe_avx2.
Proof. split; intros; [by apply scramble_avx2_spec|by apply accumulate_avx2_spec]. Qed.
#[export] Instance neon_impl : StripeImpl scramble_accumulators_neon accumulate_stripe_neon.
Proof. split; intros; [by apply scramble_neon_spec|by apply accumulate_neon_spec]. Qed.

(** The reference driver *)
Definition block_spec (data secret acc : list Z) (stripes : Z) : list Z :=
  foldl (fun acc i => stripe_spec acc (drop (Z.to_nat (i * 64)) data) (drop (Z.to_nat (i * 8)) secret))
    acc (seqZ 0 stripes).
Definition large_spec (data secret : list Z) : list Z :=
  let blocks := (vlen data - 1) / 1024 in
  let acc := foldl (fun acc i =>
      scramble_spec (block_spec (drop (Z.to_nat (i * 1024)) data) secret acc 16) (drop 128 secret))
    INIT_ACCUMULATORS (seqZ 0 blocks) in
  let acc := block_spec (drop (Z.to_nat (blocks * 1024)) data) secret acc ((vlen data - 1 - 1024 * blocks) / 64) in
  stripe_spec acc (drop (Z.to_nat (vlen data - 64)) data) (drop 121 secret).

Section driver.
  Context {scramble accum_stripe} `{!StripeImpl scramble accum_stripe}.
  Context (data secret : list Z).
  Context (Hd : Forall byte data) (Hs : Forall byte secret) (Hsl : vlen secret = 192).

Lemma accumulate_block_spec acc n (l : list Z) :
  acc_ok acc -> Forall byte l -> 0 <= n <= 16 -> n * 64 <= vlen l ->
  accumulate_block accum_stripe acc l secret n = Ret (block_spec l secret acc n) /\ acc_ok (block_spec l secret acc n).
Proof.
  intros Ha Hl Hn Hv. apply (for_each_pure acc_ok); [|done]. intros i a Hi%elem_of_seqZ Hai. split.
  - unfold accumulate_block_round. change STRIPE_LENGTH with 64. change SECRET_CONSUME_RATE with 8. hrun.
    apply accum_impl; [done|by apply Forall_drop|by apply Forall_drop|hside|hside].
  - by apply stripe_spec_ok.
Qed.

Lemma hash_large_helper_spec :
  240 < vlen data -> hash_large_helper scramble accum_stripe data secret = Ret (large_spec data secret) /\
    acc_ok (large_spec data secret).
Proof.
  intros Hl. unfold hash_large_helper, large_spec. rewrite Hsl. change STRIPE_LENGTH with 64. change SECRET_CONSUME_RATE with 8.
  hrun. change ((192 - 64) / 8) with 16. change (64 * 16) with 1024.
  rewrite (udiv_ok (vlen data - 1) 1024) by lia. cbn [mbind outcome_bind]. set (blocks := (vlen data - 1) / 1024).
  assert (Hb : 0 <= blocks /\ 1024 * blocks <= vlen data - 1 < 1024 * (blocks + 1)).
  { unfold blocks. pose proof (Z.div_mod (vlen data - 1) 1024). pose proof (Z.mod_pos_bound (vlen data - 1) 1024).
    pose proof (Z.div_pos (vlen data - 1) 1024). lia. }
  destruct (for_each_pure acc_ok (hash_block_round scramble accum_stripe data secret 16)
    (fun acc i => scramble_spec (block_spec (drop (Z.to_nat (i * 1024)) data) secret acc 16) (drop 128 secret))
    (seqZ 0 blocks) INIT_ACCUMULATORS) as [-> Ha].
  { intros i a Hi%elem_of_seqZ Ha. unfold hash_block_round. change (STRIPE_LENGTH * 16) with 1024.
    rewrite slice_from_ok by lia. cbn [mbind outcome_bind].
    destruct (accumulate_block_spec a 16 (drop (Z.to_nat (i * 1024)) data)) as [-> Hb']; [done|by apply Forall_drop|lia|hside|].
    cbn [mbind outcome_bind]. rewrite Hsl. change STRIPE_LENGTH with 64. hrun. change (Z.to_nat (192 - 64)) with 128%nat.
    split; [|by apply scramble_spec_ok]. apply scramble_impl; [done|by apply Forall_drop|]. unfold vlen in *. rewrite length_drop. lia. }
  { split; [done|]. repeat constructor; by vm_compute. }
  cbn [mbind outcome_bind]. hrun.
  set (acc := foldl _ _ _) in *.
  assert (Hst : 0 <= (vlen data - 1 - 1024 * blocks) / 64 <= 15 /\
      64 * ((vlen data - 1 - 1024 * blocks) / 64) <= vlen data - 1 - 1024 * blocks).
  { split; [split; [apply Z.div_pos; lia|]|apply Z.mul_div_le; lia].
    apply Z.lt_succ_r. apply Z.div_lt_upper_bound; lia. }
  destruct (accumulate_block_spec acc ((vlen data - 1 - 1024 * blocks) / 64) (drop (Z.to_nat (blocks * 1024)) data))
    as [-> Hacc]; [done|by apply Forall_drop|lia|hside|].
  cbn [mbind outcome_bind]. hrun. change (Z.to_nat (192 - 64 - 7)) with 121%nat.
  split; [|by apply stripe_spec_ok]. apply accum_impl; [done|by apply Forall_drop|by apply Forall_drop|hside|].
  unfold vlen in *. rewrite length_drop. lia.
Qed.

End driver.

Lemma merge_accumulators_ok acc secret init :
  acc_ok acc -> Forall byte secret -> 64 <= vlen secret -> u64 init ->
  exists r, merge_accumulators acc secret init = Ret r /\ u64 r.
Proof.
  intros [Ha Hf] Hs Hl Hi. unfold merge_accumulators.
  destruct (for_each_inv u64 (merge_round acc secret) (seqZ 0 4) init) as (r & -> & Hr); [|done|].
  - intros i r Hi'%elem_of_seqZ Hr. unfold merge_round.
    destruct (vget_is_Ret acc (2 * i)) as (a & -> & Hea); [unfold vlen; lia|]. cbn [mbind outcome_bind].
    destruct (vget_is_Ret acc (2 * i + 1)) as (b & -> & Heb); [unfold vlen; lia|]. cbn [mbind outcome_bind].
    hrun. eexists. split; [done|]. auto with words.
  - cbn [mbind outcome_bind]. eexists. split; [done|]. auto with words.
Qed.

Section entry.
  Context (data : list Z) (seed : Z) (Hd : Forall byte data) (Hl : 240 < vlen data).

(** Every version of a hash of a large input returns the same word. *)
Lemma hash64_large_agree :
  exists h, u64 h /\ forall generate scramble accum_stripe, generate seed = Ret (secret_spec seed) ->
    StripeImpl scramble accum_stripe -> hash64_large_generic generate scramble accum_stripe data seed = Ret h.
Proof.
  pose proof (secret_spec_len seed) as Hsl. pose proof (secret_spec_bytes seed) as Hsb.
  destruct (@hash_large_helper_spec _ _ generic_impl data (secret_spec seed) Hd Hsb Hsl Hl) as [_ Ha].
  destruct (merge_accumulators_ok (large_spec data (secret_spec seed)) (drop 11 (secret_spec seed))
    (wmul 64 PRIME64_0 (vlen data))) as (h & Hh & Hu); [done|by apply Forall_drop|unfold vlen in *; rewrite length_drop; lia|auto with words|].
  exists h. split; [done|]. intros generate scramble accum Hg Himpl. unfold hash64_large_generic. rewrite Hg. cbn [mbind outcome_bind].
  rewrite (proj1 (hash_large_helper_spec data (secret_spec seed) Hd Hsb Hsl Hl)). cbn [mbind outcome_bind]. hrun. done.
Qed.

Lemma hash128_large_agree :
  exists h, in_u 128 h /\ forall generate scramble accum_stripe, generate seed = Ret (secret_spec seed) ->
    StripeImpl scramble accum_stripe -> hash128_large_generic generate scramble accum_stripe data seed = Ret h.
Proof.
  pose proof (secret_spec_len seed) as Hsl. pose proof (secret_spec_bytes seed) as Hsb.
  destruct (@hash_large_helper_spec _ _ generic_impl data (secret_spec seed) Hd Hsb Hsl Hl) as [_ Ha].
  destruct (merge_accumulators_ok (large_spec data (secret_spec seed)) (drop 11 (secret_spec seed))
    (wmul 64 PRIME64_0 (vlen data))) as (lo & Hlo & Hulo); [done|by apply Forall_drop|unfold vlen in *; rewrite length_drop; lia|auto with words|].
  destruct (merge_accumulators_ok (large_spec data (secret_spec seed)) (drop 117 (secret_spec seed))
    (unot 64 (wmul 64 PRIME64_1 (vlen data)))) as (hi & Hhi & Huhi); [done|by apply Forall_drop|unfold vlen in *; rewrite length_drop; lia| |].
  { unfold unot. apply in_u_lxor; [lia|auto with words|]. unfold in_u, umax. lia. }
  exists (u128_of hi lo). split; [auto with words|]. intros generate scramble accum Hg Himpl.
  unfold hash128_large_generic. rewrite Hg. cbn [mbind outcome_bind].
  rewrite (proj1 (hash_large_helper_spec data (secret_spec seed) Hd Hsb Hsl Hl)). cbn [mbind outcome_bind]. hrun.
  change (Z.to_nat 11) with 11%nat. rewrite Hlo. cbn [mbind outcome_bind]. rewrite Hsl. hrun.
  change (Z.to_nat (192 - (64 + 11))) with 117%nat. rewrite Hhi. done.
Qed.

End entry.

(** The hash of any bytes: every target returns the same 128-bit word. *)
Lemma hash128_total data seed :
  Forall byte data -> u64 seed -> exists h, in_u 128 h /\ forall t, hash128_with_seed t data seed = Ret h.
Proof.
  intros Hd Hs. unfold hash128_with_seed. destruct (Z.leb_spec (vlen data) 240) as [Hl|Hl].
  - destruct (hash128_0to240_ok data DEFAULT_SECRET seed) as (h & Hh & Hu); [done| |done|done|done|by exists h].
    by apply (bool_decide_unpack _); vm_compute.
  - destruct (hash128_large_agree data seed Hd Hl) as (h & Hu & Hh). exists h. split; [done|].
    intros []; apply Hh; try apply _.
    + apply gen_secret_generic_spec.
    + apply gen_secret_avx2_spec.
    + apply gen_secret_generic_spec.
Qed.

Lemma hash64_total data seed :
  Forall byte data -> u64 seed -> exists h, u64 h /\ forall t, hash64_with_seed t data seed = Ret h.
Proof.
  intros Hd Hs. unfold hash64_with_seed. destruct (Z.leb_spec (vlen data) 240) as [Hl|Hl].
  - destruct (hash64_0to240_ok data DEFAULT_SECRET seed) as (h & Hh & Hu); [done| |done|done|done|by exists h].
    by apply (bool_decide_unpack _); vm_compute.
  - destruct (hash64_large_agree data seed Hd Hl) as (h & Hu & Hh). exists h. split; [done|].
    intros []; apply Hh; try apply _.
    + apply gen_secret_generic_spec.
    + apply gen_secret_avx2_spec.
    + apply gen_secret_generic_spec.
Qed.

(** * Properties *)

(** C37. The hashes are total and do not depend on the processor: on every byte
    string and seed, [hash64_with_seed] and [hash128_with_seed] return, within 64
    and 128 bits and without an index out of range or an overflow, and the generic,
    the AVX2 and the NEON builds return the same value.  A checksum written on one
    machine therefore verifies on every other. *)
Theorem xxh3_targets_agree (data : list Z) (seed : Z) :
  Forall byte data -> in_u 64 seed ->
  exists h64 h128, in_u 64 h64 /\ in_u 128 h128 /\
    forall t, hash64_with_seed t data seed = Ret h64 /\ hash128_with_seed t data seed = Ret h128.
Proof.
  intros Hd Hs. destruct (hash64_total data seed Hd Hs) as (h & Hh & H64).
  destruct (hash128_total data seed Hd Hs) as (k & Hk & H128). exists h, k. naive_solver.
Qed.

Lemma xxh3_targets_agree_witness :
  hash64_with_seed Generic [] 0 = Ret 3244421341483603138 /\
  exists h64 h128, in_u 64 h64 /\ in_u 128 h128 /\ forall t,
    hash64_with_seed t (seqZ 0 250) 7 = Ret h64 /\ hash128_with_seed t (seqZ 0 250) 7 = Ret h128.
Proof.
  split; [vm_compute; reflexivity|]. apply (xxh3_targets_agree (seqZ 0 250) 7).
  - apply Forall_forall. intros b Hb. apply elem_of_seqZ in Hb. unfold byte. lia.
  - unfold in_u. lia.
Defined.
