(* ===== verification/Header.v ===== *)
(** The database header and its two commit slots
    (src/src/tree_store/page_store/header.rs, [BtreeHeader] of
    src/src/tree_store/btree_base.rs). *)
From S2P Require Import Prelude Buddy Pages Layout Xxh3.

(** * Model *)

(** [xxh3_checksum].  The targets agree, so the portable one stands for all. *)
Definition xxh3_checksum (data : list Z) : outcome Z := hash128_with_seed Generic data 0.

Module BtreeHeader.

Record t := mk { root : PageNumber.t; checksum : Z; length : Z }.

Definition serialized_size : Z := PageNumber.serialized_size + 16 + 8.

Definition from_le_bytes (bytes : list Z) : outcome t :=
  r ← slice bytes 0 PageNumber.serialized_size;
  root ← PageNumber.from_bytes r;
  let offset := PageNumber.serialized_size in
  c ← slice bytes offset (offset + 16);
  let offset := offset + 16 in
  n ← slice bytes offset (offset + 8);
  Ret (mk root (from_le_bytes c) (from_le_bytes n)).

Definition to_le_bytes (h : t) : outcome (list Z) :=
  let result := replicate (Z.to_nat serialized_size) 0 in
  result ← splice result 0 (PageNumber.to_bytes (root h));
  result ← splice result PageNumber.serialized_size (to_le_bytes 16 (checksum h));
  splice result (PageNumber.serialized_size + 16) (to_le_bytes 8 (length h)).

End BtreeHeader.

(** ** Offsets *)

(** The magic number is [b"redb"] and five more bytes. *)
Definition MAGICNUMBER : list Z := [114; 101; 100; 98; 0x1A; 0x0A; 0xA9; 0x0D; 0x0A].
Definition GOD_BYTE_OFFSET : Z := vlen MAGICNUMBER.
Definition PAGE_SIZE_OFFSET : Z := GOD_BYTE_OFFSET + 1 + 2.
Definition REGION_HEADER_PAGES_OFFSET : Z := PAGE_SIZE_OFFSET + 4.
Definition REGION_MAX_DATA_PAGES_OFFSET : Z := REGION_HEADER_PAGES_OFFSET + 4.
Definition NUM_FULL_REGIONS_OFFSET : Z := REGION_MAX_DATA_PAGES_OFFSET + 4.
Definition TRAILING_REGION_DATA_PAGES_OFFSET : Z := NUM_FULL_REGIONS_OFFSET + 4.
Definition TRANSACTION_SIZE : Z := 128.
Definition TRANSACTION_0_OFFSET : Z := 64.
Definition TRANSACTION_1_OFFSET : Z := TRANSACTION_0_OFFSET + TRANSACTION_SIZE.
Definition DB_HEADER_SIZE : Z := TRANSACTION_1_OFFSET + TRANSACTION_SIZE.

Definition PRIMARY_BIT : Z := 1.
Definition RECOVERY_REQUIRED : Z := 2.
Definition TWO_PHASE_COMMIT : Z := 4.

Definition VERSION_OFFSET : Z := 0.
Definition USER_ROOT_NON_NULL_OFFSET : Z := 1.
Definition SYSTEM_ROOT_NON_NULL_OFFSET : Z := USER_ROOT_NON_NULL_OFFSET + 1.
Definition UNUSED_OFFSET : Z := SYSTEM_ROOT_NON_NULL_OFFSET + 1.
Definition PADDING : Z := 4.
Definition USER_ROOT_OFFSET : Z := UNUSED_OFFSET + 1 + PADDING.
Definition SYSTEM_ROOT_OFFSET : Z := USER_ROOT_OFFSET + BtreeHeader.serialized_size.
Definition UNUSED2_OFFSET : Z := SYSTEM_ROOT_OFFSET + BtreeHeader.serialized_size.
Definition TRANSACTION_ID_OFFSET : Z := UNUSED2_OFFSET + BtreeHeader.serialized_size.
Definition TRANSACTION_LAST_FIELD : Z := TRANSACTION_ID_OFFSET + 8.
Definition SLOT_CHECKSUM_OFFSET : Z := TRANSACTION_SIZE - 16.

(** [FILE_FORMAT_VERSION1] to [3] of page_manager.rs *)
Definition FILE_FORMAT_VERSION1 : Z := 1.
Definition FILE_FORMAT_VERSION2 : Z := 2.
Definition FILE_FORMAT_VERSION3 : Z := 3.

Definition PAGE_SIZE : Z := 4096.

(** ** Errors *)

(** The messages of [StorageError::Corrupted] that this file raises *)
Inductive corruption :=
| InvalidMagicNumber
| PageSizeMismatch (page_size expected : Z)
| InvalidRegionDataPages (n : Z)
| InvalidRegionHeaderPages (n : Z)
| TrailingExceedsRegion (trailing max : Z)
| InvalidRegionCount (full_regions trailing : Z)
| UnknownVersion (version : Z)
| FileTruncated (file_len layout_len : Z)
| TooManyRegions (file_len : Z)
| InvalidFileLength (file_len : Z)
| PrimaryCorruptedTwoPhase
| BothSlotsCorrupted.

Inductive error :=
| Corrupted (why : corruption)
| UpgradeRequired (version : Z).

(** A fallible computation: it panics, or returns [Ok] or [Err]. *)
Notation fallible A := (outcome (result A error)).

(** [?] *)
Definition try_ {A B E} (c : outcome (result A E)) (k : A -> outcome (result B E)) : outcome (result B E) :=
  r ← c; match r with Okay a => k a | Err e => Ret (Err e) end.
Notation "x ←? c ; k" := (try_ c (fun x => k))
  (at level 20, c at level 100, k at level 200, format "x  ←?  c ;  '/' k").
(** [if b { return Err(e) }] *)
Definition reject_if {E} (b : bool) (e : E) : outcome (result unit E) := Ret (if b then Err e else Okay tt).

(** [get_u32] and [get_u64] of the slice that starts at [off] *)
Definition get_u32_at (data : list Z) (off : Z) : outcome Z :=
  d ← slice_from data off; b ← slice d 0 4; Ret (from_le_bytes b).
Definition get_u64_at (data : list Z) (off : Z) : outcome Z :=
  d ← slice_from data off; b ← slice d 0 8; Ret (from_le_bytes b).

(** ** Commit slots *)
Module TransactionHeader.

Record t := mk {
  version : Z;
  user_root : option BtreeHeader.t;
  system_root : option BtreeHeader.t;
  transaction_id : Z }.

Definition new (id : Z) : t := mk FILE_FORMAT_VERSION3 None None id.

(** [Some(BtreeHeader::from_le_bytes(..))] if the flag at [flag] is set *)
Definition read_root (data : list Z) (flag off : Z) : outcome (option BtreeHeader.t) :=
  b ← vget data flag;
  if negb (b =? 0) then
    d ← slice data off (off + BtreeHeader.serialized_size);
    h ← BtreeHeader.from_le_bytes d;
    Ret (Some h)
  else Ret None.

(** The slot, and whether its checksum was corrupted *)
Definition from_bytes (data : list Z) : fallible (t * bool) :=
  version ← vget data VERSION_OFFSET;
  if (version =? FILE_FORMAT_VERSION1) || (version =? FILE_FORMAT_VERSION2) then Ret (Err (UpgradeRequired version))
  else if negb (version =? FILE_FORMAT_VERSION3) then Ret (Err (Corrupted (UnknownVersion version)))
  else
    c ← slice data SLOT_CHECKSUM_OFFSET (SLOT_CHECKSUM_OFFSET + 16);
    body ← slice data 0 SLOT_CHECKSUM_OFFSET;
    actual ← xxh3_checksum body;
    let corrupted := negb (from_le_bytes c =? actual) in
    user_root ← read_root data USER_ROOT_NON_NULL_OFFSET USER_ROOT_OFFSET;
    system_root ← read_root data SYSTEM_ROOT_NON_NULL_OFFSET SYSTEM_ROOT_OFFSET;
    transaction_id ← get_u64_at data TRANSACTION_ID_OFFSET;
    Ret (Okay (mk version user_root system_root transaction_id, corrupted)).

(** [if let Some(header) = root { .. }] of [to_bytes] *)
Definition write_root (result : list Z) (root : option BtreeHeader.t) (flag off : Z) : outcome (list Z) :=
  match root with
  | Some header =>
      result ← vset result flag 1;
      b ← BtreeHeader.to_le_bytes header;
      splice result off b
  | None => Ret result
  end.

Definition to_bytes (h : t) : outcome (list Z) :=
  _ ← rassert (version h =? FILE_FORMAT_VERSION3);
  let result := replicate (Z.to_nat TRANSACTION_SIZE) 0 in
  result ← vset result VERSION_OFFSET (version h);
  result ← write_root result (user_root h) USER_ROOT_NON_NULL_OFFSET USER_ROOT_OFFSET;
  result ← write_root result (system_root h) SYSTEM_ROOT_NON_NULL_OFFSET SYSTEM_ROOT_OFFSET;
  result ← splice result TRANSACTION_ID_OFFSET (to_le_bytes 8 (transaction_id h));
  body ← slice result 0 SLOT_CHECKSUM_OFFSET;
  checksum ← xxh3_checksum body;
  splice result SLOT_CHECKSUM_OFFSET (to_le_bytes 16 checksum).

End TransactionHeader.

(** ** The header *)
Module DatabaseHeader.

Record t := mk {
  primary_slot_index : Z;
  recovery_required : bool;
  two_phase_commit : bool;
  page_size : Z;
  region_header_pages : Z;
  region_max_data_pages : Z;
  full_regions : Z;
  trailing_partial_region_pages : Z;
  transaction_slots : list TransactionHeader.t }.

Definition new (layout : DatabaseLayout.t) (transaction_id : Z) : outcome t :=
  _ ← rassert (TRANSACTION_LAST_FIELD <=? SLOT_CHECKSUM_OFFSET);
  let slot := TransactionHeader.new transaction_id in
  let full := DatabaseLayout.full_region_layout layout in
  Ret (mk 0 true false (RegionLayout.page_size full) (RegionLayout.header_pages full) (RegionLayout.num_pages full)
    (DatabaseLayout.num_full_regions layout)
    (match DatabaseLayout.trailing_partial_region layout with Some r => RegionLayout.num_pages r | None => 0 end)
    [slot; slot]).

Definition layout (h : t) : outcome DatabaseLayout.t :=
  full_layout ← RegionLayout.new (region_max_data_pages h) (region_header_pages h) (page_size h);
  trailing ← (if 0 <? trailing_partial_region_pages h then
      r ← RegionLayout.new (trailing_partial_region_pages h) (region_header_pages h) (page_size h);
      Ret (Some r)
    else Ret None);
  Ret (DatabaseLayout.new (full_regions h) full_layout trailing).

(** [region_layout_eqb] is the derived [PartialEq] of [RegionLayout] *)
Definition region_layout_eqb (a b : RegionLayout.t) : bool :=
  (RegionLayout.num_pages a =? RegionLayout.num_pages b) &&
  (RegionLayout.header_pages a =? RegionLayout.header_pages b) &&
  (RegionLayout.page_size a =? RegionLayout.page_size b).

Definition set_layout (h : t) (l : DatabaseLayout.t) : outcome t :=
  old ← layout h;
  _ ← rassert (region_layout_eqb (DatabaseLayout.full_region_layout old) (DatabaseLayout.full_region_layout l));
  trailing ← (match DatabaseLayout.trailing_partial_region l with
    | Some trailing =>
        _ ← rassert (RegionLayout.header_pages trailing =? region_header_pages h);
        _ ← rassert (RegionLayout.page_size trailing =? page_size h);
        Ret (RegionLayout.num_pages trailing)
    | None => Ret 0
    end);
  Ret (mk (primary_slot_index h) (recovery_required h) (two_phase_commit h) (page_size h) (region_header_pages h)
    (region_max_data_pages h) (DatabaseLayout.num_full_regions l) trailing (transaction_slots h)).

Definition primary_slot (h : t) : outcome TransactionHeader.t := vget (transaction_slots h) (primary_slot_index h).
Definition secondary_slot (h : t) : outcome TransactionHeader.t :=
  vget (transaction_slots h) (Z.lxor (primary_slot_index h) 1).
(** [*self.secondary_slot_mut() = slot] *)
Definition set_secondary_slot (h : t) (slot : TransactionHeader.t) : outcome t :=
  slots ← vset (transaction_slots h) (Z.lxor (primary_slot_index h) 1) slot;
  Ret (mk (primary_slot_index h) (recovery_required h) (two_phase_commit h) (page_size h) (region_header_pages h)
    (region_max_data_pages h) (full_regions h) (trailing_partial_region_pages h) slots).
Definition swap_primary_slot (h : t) : t :=
  mk (Z.lxor (primary_slot_index h) 1) (recovery_required h) (two_phase_commit h) (page_size h) (region_header_pages h)
    (region_max_data_pages h) (full_regions h) (trailing_partial_region_pages h) (transaction_slots h).
(** [self.recovery_required = b] and [self.two_phase_commit = b] *)
Definition set_recovery_required (h : t) (b : bool) : t :=
  mk (primary_slot_index h) b (two_phase_commit h) (page_size h) (region_header_pages h)
    (region_max_data_pages h) (full_regions h) (trailing_partial_region_pages h) (transaction_slots h).
Definition set_two_phase_commit (h : t) (b : bool) : t :=
  mk (primary_slot_index h) (recovery_required h) b (page_size h) (region_header_pages h)
    (region_max_data_pages h) (full_regions h) (trailing_partial_region_pages h) (transaction_slots h).

Definition to_bytes (h : t) (include_magic_number : bool) : outcome (list Z) :=
  let result := replicate (Z.to_nat DB_HEADER_SIZE) 0 in
  result ← (if include_magic_number then splice result 0 MAGICNUMBER else Ret result);
  god ← utry 8 (primary_slot_index h);
  let god := if recovery_required h then Z.lor god RECOVERY_REQUIRED else god in
  let god := if two_phase_commit h then Z.lor god TWO_PHASE_COMMIT else god in
  result ← vset result GOD_BYTE_OFFSET god;
  result ← splice result PAGE_SIZE_OFFSET (to_le_bytes 4 (page_size h));
  result ← splice result REGION_HEADER_PAGES_OFFSET (to_le_bytes 4 (region_header_pages h));
  result ← splice result REGION_MAX_DATA_PAGES_OFFSET (to_le_bytes 4 (region_max_data_pages h));
  result ← splice result NUM_FULL_REGIONS_OFFSET (to_le_bytes 4 (full_regions h));
  result ← splice result TRAILING_REGION_DATA_PAGES_OFFSET (to_le_bytes 4 (trailing_partial_region_pages h));
  s0 ← vget (transaction_slots h) 0;
  slot0 ← TransactionHeader.to_bytes s0;
  result ← splice result TRANSACTION_0_OFFSET slot0;
  s1 ← vget (transaction_slots h) 1;
  slot1 ← TransactionHeader.to_bytes s1;
  splice result TRANSACTION_1_OFFSET slot1.

End DatabaseHeader.

Module UnrepairedDatabaseHeader.

Record t := mk { inner : DatabaseHeader.t; primary_corrupted : bool; secondary_corrupted : bool }.

(** The range checks of [from_bytes] on the layout fields *)
Definition check_fields (page_size expected region_header_pages region_max_data_pages full_regions trailing : Z)
    : fallible unit :=
  _ ←? reject_if (negb (page_size =? expected)) (Corrupted (PageSizeMismatch page_size expected));
  _ ←? reject_if ((region_max_data_pages =? 0) || (MAX_PAGE_INDEX + 1 <? region_max_data_pages))
    (Corrupted (InvalidRegionDataPages region_max_data_pages));
  _ ←? reject_if (MAX_PAGE_INDEX + 1 <? region_header_pages) (Corrupted (InvalidRegionHeaderPages region_header_pages));
  _ ←? reject_if (region_max_data_pages <? trailing) (Corrupted (TrailingExceedsRegion trailing region_max_data_pages));
  num_regions ← uadd 64 full_regions (if 0 <? trailing then 1 else 0);
  reject_if ((num_regions =? 0) || (MAX_REGIONS <? num_regions)) (Corrupted (InvalidRegionCount full_regions trailing)).

Definition from_bytes (data : list Z) (expected_page_size : Z) : fallible t :=
  magic ← slice data 0 (vlen MAGICNUMBER);
  _ ←? reject_if (negb (bool_decide (magic = MAGICNUMBER))) (Corrupted InvalidMagicNumber);
  god ← vget data GOD_BYTE_OFFSET;
  let primary_slot := if negb (Z.land god PRIMARY_BIT =? 0) then 1 else 0 in
  let recovery_required := negb (Z.land god RECOVERY_REQUIRED =? 0) in
  let two_phase_commit := negb (Z.land god TWO_PHASE_COMMIT =? 0) in
  page_size ← get_u32_at data PAGE_SIZE_OFFSET;
  region_header_pages ← get_u32_at data REGION_HEADER_PAGES_OFFSET;
  region_max_data_pages ← get_u32_at data REGION_MAX_DATA_PAGES_OFFSET;
  full_regions ← get_u32_at data NUM_FULL_REGIONS_OFFSET;
  trailing_data_pages ← get_u32_at data TRAILING_REGION_DATA_PAGES_OFFSET;
  _ ←? check_fields page_size expected_page_size region_header_pages region_max_data_pages full_regions trailing_data_pages;
  d0 ← slice data TRANSACTION_0_OFFSET (TRANSACTION_0_OFFSET + TRANSACTION_SIZE);
  s0 ←? TransactionHeader.from_bytes d0;
  d1 ← slice data TRANSACTION_1_OFFSET (TRANSACTION_1_OFFSET + TRANSACTION_SIZE);
  s1 ←? TransactionHeader.from_bytes d1;
  let '(slot0, slot0_corrupted) := s0 in
  let '(slot1, slot1_corrupted) := s1 in
  let inner := DatabaseHeader.mk primary_slot recovery_required two_phase_commit page_size region_header_pages
    region_max_data_pages full_regions trailing_data_pages [slot0; slot1] in
  Ret (Okay (if primary_slot =? 0 then mk inner slot0_corrupted slot1_corrupted
             else mk inner slot1_corrupted slot0_corrupted)).

Definition recovery_required (u : t) (file_len : Z) : outcome bool :=
  if DatabaseHeader.recovery_required (inner u) then Ret true
  else
    l ← DatabaseHeader.layout (inner u);
    n ← DatabaseLayout.len l;
    Ret (negb (n =? file_len)).

(** The header with the selected primary slot, and whether the primary was kept *)
Definition select_primary_slot (u : t) : fallible (DatabaseHeader.t * bool) :=
  let h := inner u in
  if DatabaseHeader.two_phase_commit h then
    if primary_corrupted u then Ret (Err (Corrupted PrimaryCorruptedTwoPhase)) else Ret (Okay (h, true))
  else if primary_corrupted u then
    if secondary_corrupted u then Ret (Err (Corrupted BothSlotsCorrupted))
    else Ret (Okay (DatabaseHeader.swap_primary_slot h, false))
  else
    s ← DatabaseHeader.secondary_slot h;
    p ← DatabaseHeader.primary_slot h;
    let secondary_newer := TransactionHeader.transaction_id p <? TransactionHeader.transaction_id s in
    Ret (Okay (if secondary_newer && negb (secondary_corrupted u) then (DatabaseHeader.swap_primary_slot h, false)
               else (h, true))).

(** The part of [finalize] that reconciles a stale layout *)
Definition reconcile (h : DatabaseHeader.t) (file_len : Z) : fallible DatabaseHeader.t :=
  layout ← DatabaseHeader.layout h;
  let region_max_pages := RegionLayout.num_pages (DatabaseLayout.full_region_layout layout) in
  let region_header_pages := RegionLayout.header_pages (DatabaseLayout.full_region_layout layout) in
  region_pages ← uadd 64 region_header_pages region_max_pages;
  full_region_size ← umul 64 region_pages (DatabaseHeader.page_size h);
  all ← umul 64 MAX_REGIONS full_region_size;
  max_addressable_len ← uadd 64 (DatabaseHeader.page_size h) all;
  _ ←? reject_if (max_addressable_len <? file_len) (Corrupted (TooManyRegions file_len));
  recalculated ← DatabaseLayout.recalculate file_len region_header_pages region_max_pages (DatabaseHeader.page_size h);
  n ← DatabaseLayout.len recalculated;
  _ ←? reject_if (negb (n =? file_len)) (Corrupted (InvalidFileLength file_len));
  h' ← DatabaseHeader.set_layout h recalculated;
  Ret (Okay h').

Definition finalize (u : t) (file_len : Z) : fallible (DatabaseHeader.t * bool) :=
  layout ← DatabaseHeader.layout (inner u);
  stored_len ← DatabaseLayout.len layout;
  _ ←? reject_if (file_len <? stored_len) (Corrupted (FileTruncated file_len stored_len));
  let layout_stale := negb (stored_len =? file_len) in
  h ←? (if layout_stale then reconcile (inner u) file_len else Ret (Okay (inner u)));
  s ←? select_primary_slot (mk h (primary_corrupted u) (secondary_corrupted u));
  let '(h, kept_primary) := s in
  Ret (Okay (h, kept_primary && negb layout_stale)).

End UnrepairedDatabaseHeader.

(** * Tree headers *)

Definition btree_header_ok (h : BtreeHeader.t) : Prop :=
  encodable (BtreeHeader.root h) /\ in_u 128 (BtreeHeader.checksum h) /\ in_u 64 (BtreeHeader.length h).

(** What a tree header is written as *)
Definition btree_header_bytes (h : BtreeHeader.t) : list Z :=
  PageNumber.to_bytes (BtreeHeader.root h) ++ to_le_bytes 16 (BtreeHeader.checksum h) ++
  to_le_bytes 8 (BtreeHeader.length h).

Lemma length_page_bytes p : length (PageNumber.to_bytes p) = 8%nat.
Proof. apply length_to_le_bytes. Qed.
Lemma length_btree_header_bytes h : length (btree_header_bytes h) = 32%nat.
Proof. unfold btree_header_bytes. by rewrite !length_app, length_page_bytes, !length_to_le_bytes. Qed.
Lemma btree_header_bytes_byte h : Forall byte (btree_header_bytes h).
Proof. unfold btree_header_bytes, PageNumber.to_bytes. rewrite !Forall_app. auto using to_le_bytes_byte. Qed.

Lemma btree_header_to_bytes h : BtreeHeader.to_le_bytes h = Ret (btree_header_bytes h).
Proof.
  unfold BtreeHeader.to_le_bytes.
  change (replicate (Z.to_nat BtreeHeader.serialized_size) 0) with (replicate 8 0 ++ replicate 16 0 ++ replicate 8 0).
  rewrite splice_prefix by apply length_page_bytes. cbn [mbind outcome_bind].
  rewrite splice_middle by (unfold vlen; rewrite ?length_page_bytes, ?length_to_le_bytes; done). cbn [mbind outcome_bind].
  rewrite app_assoc, splice_suffix; [by rewrite <-app_assoc| |by rewrite length_to_le_bytes].
  rewrite vlen_app. unfold vlen. by rewrite length_page_bytes, length_to_le_bytes.
Qed.

Lemma btree_header_parts (p c n : list Z) :
  length p = 8%nat -> length c = 16%nat -> length n = 8%nat ->
  BtreeHeader.from_le_bytes (p ++ c ++ n) =
    (root ← PageNumber.from_bytes p; Ret (BtreeHeader.mk root (from_le_bytes c) (from_le_bytes n))).
Proof.
  intros Hp Hc Hn. unfold BtreeHeader.from_le_bytes. rewrite slice_prefix by (unfold vlen; by rewrite Hp). cbn [mbind outcome_bind].
  destruct (PageNumber.from_bytes p) as [root|]; [|done]. cbn [mbind outcome_bind].
  rewrite (slice_middle p c n PageNumber.serialized_size (PageNumber.serialized_size + 16)) by (unfold vlen; by rewrite ?Hp, ?Hc). cbn [mbind outcome_bind].
  rewrite app_assoc, slice_suffix; [done| |]; rewrite vlen_app; unfold vlen; by rewrite ?Hp, ?Hc, ?Hn.
Qed.

Lemma btree_header_roundtrip h : btree_header_ok h -> BtreeHeader.from_le_bytes (btree_header_bytes h) = Ret h.
Proof.
  intros (Hr & Hc & Hl). unfold btree_header_bytes. rewrite btree_header_parts by (apply length_page_bytes || apply length_to_le_bytes).
  rewrite encodable_roundtrip by done. cbn [mbind outcome_bind].
  rewrite !from_to_le_bytes by (exact Hc || exact Hl). by destruct h.
Qed.

(** A list of [n + m] elements is two lists. *)
Lemma split_list {A} (l : list A) n m : length l = (n + m)%nat -> exists a b, l = a ++ b /\ length a = n /\ length b = m.
Proof. intros Hl. exists (take n l), (drop n l). rewrite take_drop, length_take, length_drop. split_and!; [done|lia|lia]. Qed.

Lemma btree_header_total bytes :
  length bytes = 32%nat -> Forall byte bytes -> exists h, BtreeHeader.from_le_bytes bytes = Ret h /\ btree_header_ok h.
Proof.
  intros Hl Hb. destruct (split_list bytes 8 24 Hl) as (p & r & -> & Hp & Hr).
  destruct (split_list r 16 8 Hr) as (c & n & -> & Hc & Hn). rewrite !Forall_app in Hb. destruct Hb as (Hbp & Hbc & Hbn).
  rewrite btree_header_parts by done. unfold PageNumber.from_bytes.
  destruct (from_u64_total (from_le_bytes p)) as (root & -> & Henc); [by apply from_bytes_bound|]. cbn [mbind outcome_bind].
  eexists. split; [done|]. split; [done|]. pose proof (from_le_bytes_bound c Hbc). pose proof (from_le_bytes_bound n Hbn).
  unfold vlen in *. rewrite Hc, Hn in *. cbn. done.
Qed.

(** * Commit slots *)

Import TransactionHeader (version, user_root, system_root, transaction_id).

Definition root_ok (r : option BtreeHeader.t) : Prop := match r with Some h => btree_header_ok h | None => True end.
Definition slot_ok (s : TransactionHeader.t) : Prop :=
  version s = FILE_FORMAT_VERSION3 /\ root_ok (user_root s) /\ root_ok (system_root s) /\ in_u 64 (transaction_id s).

Definition root_bytes (r : option BtreeHeader.t) : list Z :=
  match r with Some h => btree_header_bytes h | None => replicate 32 0 end.
Definition root_flag (r : option BtreeHeader.t) : Z := if r then 1 else 0.

(** What a slot is written as, without its checksum *)
Definition slot_body (s : TransactionHeader.t) : list Z :=
  [version s; root_flag (user_root s); root_flag (system_root s); 0; 0; 0; 0; 0] ++
  root_bytes (user_root s) ++ root_bytes (system_root s) ++ replicate 32 0 ++ to_le_bytes 8 (transaction_id s).
(** The checksum; it always exists *)
Definition checksum_of (data : list Z) : Z := match xxh3_checksum data with Ret h => h | Panic => 0 end.
Definition slot_bytes (s : TransactionHeader.t) : list Z := slot_body s ++ to_le_bytes 16 (checksum_of (slot_body s)).

Lemma checksum_ok data : Forall byte data -> xxh3_checksum data = Ret (checksum_of data) /\ in_u 128 (checksum_of data).
Proof.
  intros Hd. unfold checksum_of, xxh3_checksum.
  destruct (hash128_total data 0 Hd) as (h & Hh & ->); [unfold in_u; lia|]. done.
Qed.

Lemma length_root_bytes r : length (root_bytes r) = 32%nat.
Proof. destruct r; [apply length_btree_header_bytes|done]. Qed.
Lemma length_slot_body s : length (slot_body s) = 112%nat.
Proof. unfold slot_body. rewrite !length_app, !length_root_bytes, length_to_le_bytes. done. Qed.
Lemma length_slot_bytes s : length (slot_bytes s) = 128%nat.
Proof. unfold slot_bytes. by rewrite length_app, length_slot_body, length_to_le_bytes. Qed.
Lemma replicate0_byte n : Forall byte (replicate n 0).
Proof. apply Forall_replicate. unfold byte. lia. Qed.
Lemma slot_body_byte s : version s = FILE_FORMAT_VERSION3 -> Forall byte (slot_body s).
Proof.
  intros Hv. unfold slot_body. rewrite Hv, !Forall_app. split; [|split; [|split; [|split]]].
  - destruct (user_root s), (system_root s); repeat constructor; by vm_compute.
  - destruct (user_root s); [apply btree_header_bytes_byte|apply replicate0_byte].
  - destruct (system_root s); [apply btree_header_bytes_byte|apply replicate0_byte].
  - apply replicate0_byte.
  - apply to_le_bytes_byte.
Qed.

Lemma write_user_root v r X Y :
  length X = 32%nat ->
  TransactionHeader.write_root ([v; 0; 0; 0; 0; 0; 0; 0] ++ X ++ Y) r USER_ROOT_NON_NULL_OFFSET USER_ROOT_OFFSET =
    Ret ([v; root_flag r; 0; 0; 0; 0; 0; 0] ++ (if r then root_bytes r else X) ++ Y).
Proof.
  intros HX. destruct r as [h|]; [|done]. cbn [TransactionHeader.write_root root_flag root_bytes].
  rewrite vset_ok; [|unfold vlen, USER_ROOT_NON_NULL_OFFSET; rewrite length_app; simpl; lia].
  cbn [mbind outcome_bind]. rewrite btree_header_to_bytes. cbn [mbind outcome_bind].
  change (<[Z.to_nat USER_ROOT_NON_NULL_OFFSET:=1]> ([v; 0; 0; 0; 0; 0; 0; 0] ++ X ++ Y))
    with ([v; 1; 0; 0; 0; 0; 0; 0] ++ X ++ Y).
  apply splice_middle; [done|]. by rewrite length_btree_header_bytes, HX.
Qed.

Lemma write_system_root v u r U X Y :
  length U = 32%nat -> length X = 32%nat ->
  TransactionHeader.write_root ([v; u; 0; 0; 0; 0; 0; 0] ++ U ++ X ++ Y) r SYSTEM_ROOT_NON_NULL_OFFSET SYSTEM_ROOT_OFFSET =
    Ret ([v; u; root_flag r; 0; 0; 0; 0; 0] ++ U ++ (if r then root_bytes r else X) ++ Y).
Proof.
  intros HU HX. destruct r as [h|]; [|done]. cbn [TransactionHeader.write_root root_flag root_bytes].
  rewrite vset_ok; [|split; [vm_compute; done|unfold vlen; rewrite length_app; simpl; change SYSTEM_ROOT_NON_NULL_OFFSET with 2; lia]].
  cbn [mbind outcome_bind]. rewrite btree_header_to_bytes. cbn [mbind outcome_bind].
  change (<[Z.to_nat SYSTEM_ROOT_NON_NULL_OFFSET:=1]> ([v; u; 0; 0; 0; 0; 0; 0] ++ U ++ X ++ Y))
    with ([v; u; 1; 0; 0; 0; 0; 0] ++ U ++ X ++ Y).
  rewrite app_assoc, (splice_middle _ X Y).
  - by rewrite <-app_assoc.
  - rewrite vlen_app. unfold vlen. rewrite HU. done.
  - by rewrite length_btree_header_bytes, HX.
Qed.

Lemma slot_to_bytes s : version s = FILE_FORMAT_VERSION3 -> TransactionHeader.to_bytes s = Ret (slot_bytes s).
Proof.
  intros Hv. unfold TransactionHeader.to_bytes. rewrite (proj2 (Z.eqb_eq _ _)) by done. cbn [rassert mbind outcome_bind].
  set (z := replicate 32 0).
  change (replicate (Z.to_nat TRANSACTION_SIZE) 0) with ([0; 0; 0; 0; 0; 0; 0; 0] ++ z ++ z ++ z ++ replicate 8 0 ++ replicate 16 0).
  rewrite vset_ok by (vm_compute; done). cbn [mbind outcome_bind].
  change (<[Z.to_nat VERSION_OFFSET:=version s]> ([0; 0; 0; 0; 0; 0; 0; 0] ++ z ++ z ++ z ++ replicate 8 0 ++ replicate 16 0))
    with ([version s; 0; 0; 0; 0; 0; 0; 0] ++ z ++ z ++ z ++ replicate 8 0 ++ replicate 16 0).
  rewrite write_user_root by done. cbn [mbind outcome_bind].
  change (if user_root s then root_bytes (user_root s) else z) with (if user_root s then root_bytes (user_root s) else root_bytes None).
  assert (forall r : option BtreeHeader.t, (if r then root_bytes r else root_bytes None) = root_bytes r) as Hrb by (by intros []).
  rewrite Hrb, write_system_root by (done || apply length_root_bytes). cbn [mbind outcome_bind].
  change (if system_root s then root_bytes (system_root s) else z) with (if system_root s then root_bytes (system_root s) else root_bytes None).
  rewrite Hrb. set (hd := [version s; root_flag (user_root s); root_flag (system_root s); 0; 0; 0; 0; 0]).
  rewrite !app_assoc, <-(app_assoc _ (replicate 8 0)). rewrite (splice_middle _ (replicate 8 0)).
  2:{ unfold vlen. rewrite !length_app, !length_root_bytes. done. }
  2:{ by rewrite length_to_le_bytes. }
  cbn [mbind outcome_bind]. rewrite app_assoc.
  assert (((((hd ++ root_bytes (user_root s)) ++ root_bytes (system_root s)) ++ z) ++ to_le_bytes 8 (transaction_id s)) = slot_body s)
    as -> by (unfold slot_body; by rewrite <-!app_assoc).
  rewrite slice_prefix by (unfold vlen; by rewrite length_slot_body). cbn [mbind outcome_bind].
  destruct (checksum_ok (slot_body s)) as [-> _]; [by apply slot_body_byte|]. cbn [mbind outcome_bind].
  apply splice_suffix; [unfold vlen; by rewrite length_slot_body|by rewrite length_to_le_bytes].
Qed.

Lemma slice_from_app {A} (p s : list A) a : a = vlen p -> slice_from (p ++ s) a = Ret s.
Proof.
  intros ->. rewrite slice_from_ok by (rewrite vlen_app; pose proof (vlen_nonneg p); pose proof (vlen_nonneg s); lia).
  unfold vlen. by rewrite Nat2Z.id, drop_app_length.
Qed.
Lemma get_u32_middle p m s a : a = vlen p -> length m = 4%nat -> get_u32_at (p ++ m ++ s) a = Ret (from_le_bytes m).
Proof.
  intros Ha Hm. unfold get_u32_at. rewrite slice_from_app by done. cbn [mbind outcome_bind].
  rewrite slice_prefix by (unfold vlen; by rewrite Hm). done.
Qed.
Lemma get_u64_middle p m s a : a = vlen p -> length m = 8%nat -> get_u64_at (p ++ m ++ s) a = Ret (from_le_bytes m).
Proof.
  intros Ha Hm. unfold get_u64_at. rewrite slice_from_app by done. cbn [mbind outcome_bind].
  rewrite slice_prefix by (unfold vlen; by rewrite Hm). done.
Qed.

(** ** Reading a slot, field by field *)
Section slot_parts.
  Context (v fu fs : Z) (pad u s z id ck : list Z).
  Context (Hpad : length pad = 5%nat) (Hu : length u = 32%nat) (Hs : length s = 32%nat) (Hz : length z = 32%nat)
    (Hid : length id = 8%nat) (Hck : length ck = 16%nat).

Definition parts_body : list Z := (v :: fu :: fs :: pad) ++ u ++ s ++ z ++ id.

(** The root behind a flag *)
Definition flagged (f : Z) (b : list Z) : outcome (option BtreeHeader.t) :=
  if f =? 0 then Ret None else h ← BtreeHeader.from_le_bytes b; Ret (Some h).

Lemma length_parts_body : length parts_body = 112%nat.
Proof. unfold parts_body. rewrite !length_app. cbn [length]. lia. Qed.

Lemma slot_from_parts :
  Forall byte parts_body ->
  TransactionHeader.from_bytes (parts_body ++ ck) =
    if (v =? 1) || (v =? 2) then Ret (Err (UpgradeRequired v))
    else if negb (v =? 3) then Ret (Err (Corrupted (UnknownVersion v)))
    else user ← flagged fu u;
         system ← flagged fs s;
         Ret (Okay (TransactionHeader.mk v user system (from_le_bytes id),
                    negb (from_le_bytes ck =? checksum_of parts_body))).
Proof.
  intros Hb. pose proof length_parts_body as Hpb. unfold TransactionHeader.from_bytes.
  change (vget (parts_body ++ ck) VERSION_OFFSET) with (Ret v). cbn [mbind outcome_bind].
  change FILE_FORMAT_VERSION1 with 1. change FILE_FORMAT_VERSION2 with 2. change FILE_FORMAT_VERSION3 with 3.
  destruct ((v =? 1) || (v =? 2)); [done|]. destruct (negb (v =? 3)); [done|].
  rewrite (slice_suffix parts_body ck SLOT_CHECKSUM_OFFSET (SLOT_CHECKSUM_OFFSET + 16)) by (unfold vlen; rewrite Hpb, ?Hck; done). cbn [mbind outcome_bind].
  rewrite slice_prefix by (unfold vlen; by rewrite Hpb). cbn [mbind outcome_bind].
  destruct (checksum_ok parts_body Hb) as [-> _]. cbn [mbind outcome_bind].
  set (corrupted := negb (from_le_bytes ck =? checksum_of parts_body)).
  unfold TransactionHeader.read_root, flagged.
  change (vget (parts_body ++ ck) USER_ROOT_NON_NULL_OFFSET) with (Ret fu).
  change (vget (parts_body ++ ck) SYSTEM_ROOT_NON_NULL_OFFSET) with (Ret fs). cbn [mbind outcome_bind].
  assert (slice (parts_body ++ ck) USER_ROOT_OFFSET (USER_ROOT_OFFSET + BtreeHeader.serialized_size) = Ret u) as ->.
  { unfold parts_body. rewrite <-!app_assoc. apply slice_middle; unfold vlen; cbn [length]; by rewrite Hpad, ?Hu. }
  assert (slice (parts_body ++ ck) SYSTEM_ROOT_OFFSET (SYSTEM_ROOT_OFFSET + BtreeHeader.serialized_size) = Ret s) as ->.
  { unfold parts_body. rewrite <-!app_assoc, app_assoc.
    apply slice_middle; rewrite vlen_app; unfold vlen; cbn [length]; by rewrite Hpad, Hu, ?Hs. }
  assert (get_u64_at (parts_body ++ ck) TRANSACTION_ID_OFFSET = Ret (from_le_bytes id)) as ->.
  { unfold parts_body. rewrite <-!app_assoc, 3!app_assoc.
    apply get_u64_middle; [|done]. rewrite !vlen_app; unfold vlen; cbn [length]; by rewrite Hpad, Hu, Hs, Hz. }
  destruct (fu =? 0); cbn [negb mbind outcome_bind];
    [|destruct (BtreeHeader.from_le_bytes u); cbn [mbind outcome_bind]; [|done]];
    (destruct (fs =? 0); cbn [negb mbind outcome_bind]; [done|]; by destruct (BtreeHeader.from_le_bytes s)).
Qed.

End slot_parts.

Lemma slot_roundtrip s : slot_ok s -> TransactionHeader.from_bytes (slot_bytes s) = Ret (Okay (s, false)).
Proof.
  intros (Hv & Hu & Hs & Hid). unfold slot_bytes.
  change (slot_body s) with (parts_body (version s) (root_flag (user_root s)) (root_flag (system_root s)) [0; 0; 0; 0; 0]
    (root_bytes (user_root s)) (root_bytes (system_root s)) (replicate 32 0) (to_le_bytes 8 (transaction_id s))).
  rewrite slot_from_parts; try (done || apply length_root_bytes || apply length_to_le_bytes); [|by apply slot_body_byte].
  rewrite Hv. cbn [Z.eqb Pos.eqb orb negb FILE_FORMAT_VERSION3].
  assert (Hfl : forall r, root_ok r -> flagged (root_flag r) (root_bytes r) = Ret r).
  { intros [h|] Hr; [|done]. cbn [flagged root_flag root_bytes Z.eqb]. unfold flagged. cbn [Z.eqb].
    by rewrite btree_header_roundtrip. }
  rewrite !Hfl by done. cbn [mbind outcome_bind]. rewrite !from_to_le_bytes; [| |exact Hid].
  - rewrite Z.eqb_refl. destruct s as [v u t i]. cbn in *. by subst v.
  - apply checksum_ok. rewrite <-Hv. by apply slot_body_byte.
Qed.

(** Any bytes read as a slot, or are refused. *)
Lemma slot_total data :
  length data = 128%nat -> Forall byte data ->
  exists r, TransactionHeader.from_bytes data = Ret r /\
    match r with
    | Okay (s, c) => slot_ok s /\ c = negb (from_le_bytes (drop 112 data) =? checksum_of (take 112 data))
    | Err _ => data !! 0%nat <> Some FILE_FORMAT_VERSION3
    end.
Proof.
  intros Hl Hb. destruct (split_list data 8 120 Hl) as (hd & r & -> & Hhd & Hr).
  destruct hd as [|v [|fu [|fs pad]]]; try done.
  destruct (split_list r 32 88 Hr) as (u & r1 & -> & Hu & Hr1).
  destruct (split_list r1 32 56 Hr1) as (s & r2 & -> & Hs & Hr2).
  destruct (split_list r2 32 24 Hr2) as (z & r3 & -> & Hz & Hr3).
  destruct (split_list r3 8 16 Hr3) as (id & ck & -> & Hid & Hck).
  replace ((v :: fu :: fs :: pad) ++ u ++ s ++ z ++ id ++ ck) with (parts_body v fu fs pad u s z id ++ ck) in *
    by (unfold parts_body; by rewrite <-!app_assoc).
  apply Forall_app in Hb as [Hb Hbck]. cbn in Hhd.
  assert (Hlp : length (parts_body v fu fs pad u s z id) = 112%nat) by (apply (length_parts_body v fu fs pad u s z id ck); lia).
  rewrite slot_from_parts by (done || lia).
  rewrite (take_app_length' _ _ 112), (drop_app_length' _ _ 112) by done.
  assert (Hhead : (parts_body v fu fs pad u s z id ++ ck) !! 0%nat = Some v) by done. rewrite Hhead. change FILE_FORMAT_VERSION3 with 3.
  destruct (Z.eqb_spec v 3) as [->|Hv]; [|destruct ((v =? 1) || (v =? 2)); (eexists; split; [done|congruence])]. clear Hhead.
  unfold parts_body in Hb. rewrite !Forall_app in Hb. destruct Hb as (_ & Hbu & Hbs & _ & Hbi).
  assert (Hfl : forall f b, length b = 32%nat -> Forall byte b -> exists r, flagged f b = Ret r /\ root_ok r).
  { intros f b Hlb Hbb. unfold flagged. destruct (f =? 0); [by exists None|].
    destruct (btree_header_total b Hlb Hbb) as (h & -> & Hh). by exists (Some h). }
  cbn [negb Z.eqb Pos.eqb orb]. destruct (Hfl fu u Hu Hbu) as (ru & -> & Hru). destruct (Hfl fs s Hs Hbs) as (rs & -> & Hrs).
  cbn [mbind outcome_bind]. eexists. split; [done|]. cbn beta iota. split; [|done]. split; [done|]. split; [done|]. split; [done|].
  by apply from_bytes_bound.
Qed.

(** * The database header *)

Import DatabaseHeader (primary_slot_index, recovery_required, two_phase_commit, region_header_pages,
  region_max_data_pages, full_regions, trailing_partial_region_pages, transaction_slots).
Import UnrepairedDatabaseHeader (inner, primary_corrupted, secondary_corrupted).

(** The fields of the layout are in the ranges that [from_bytes] accepts. *)
Definition fields_ok (ps rh rm fr tr : Z) : Prop :=
  0 < ps < 2 ^ 32 /\ 0 <= rh <= MAX_PAGE_INDEX + 1 /\ 0 < rm <= MAX_PAGE_INDEX + 1 /\ 0 <= tr <= rm /\
  0 <= fr /\ 0 < fr + (if 0 <? tr then 1 else 0) <= MAX_REGIONS.

Record header_ok (h : DatabaseHeader.t) : Prop := {
  ho_primary : primary_slot_index h = 0 \/ primary_slot_index h = 1;
  ho_fields : fields_ok (DatabaseHeader.page_size h) (region_header_pages h) (region_max_data_pages h)
    (full_regions h) (trailing_partial_region_pages h);
  ho_slots : exists s0 s1, transaction_slots h = [s0; s1] /\ slot_ok s0 /\ slot_ok s1 }.

Definition god_byte (primary : Z) (recovery two_phase : bool) : Z :=
  let god := if recovery then Z.lor primary RECOVERY_REQUIRED else primary in
  if two_phase then Z.lor god TWO_PHASE_COMMIT else god.

(** What the first 64 bytes are written as *)
Definition super_header (h : DatabaseHeader.t) : list Z :=
  MAGICNUMBER ++ [god_byte (primary_slot_index h) (recovery_required h) (two_phase_commit h); 0; 0] ++
  to_le_bytes 4 (DatabaseHeader.page_size h) ++ to_le_bytes 4 (region_header_pages h) ++
  to_le_bytes 4 (region_max_data_pages h) ++ to_le_bytes 4 (full_regions h) ++
  to_le_bytes 4 (trailing_partial_region_pages h) ++ replicate 32 0.

Definition slot_at (h : DatabaseHeader.t) (i : nat) : TransactionHeader.t :=
  default (TransactionHeader.new 0) (transaction_slots h !! i).

Definition header_bytes (h : DatabaseHeader.t) : list Z :=
  super_header h ++ slot_bytes (slot_at h 0) ++ slot_bytes (slot_at h 1).

Lemma length_super_header h : length (super_header h) = 64%nat.
Proof. unfold super_header. rewrite !length_app, !length_to_le_bytes. done. Qed.

Lemma header_to_bytes_magic h include_magic_number :
  header_ok h -> DatabaseHeader.to_bytes h include_magic_number =
    Ret ((if include_magic_number then MAGICNUMBER else replicate 9 0) ++ drop 9 (header_bytes h)).
Proof.
  intros [Hp _ (s0 & s1 & Hsl & (Hv0 & _) & (Hv1 & _))]. unfold DatabaseHeader.to_bytes, header_bytes, slot_at. rewrite Hsl. cbn [default lookup list_lookup id].
  set (z4 := replicate 4 0).
  change (replicate (Z.to_nat DB_HEADER_SIZE) 0) with
    (replicate 9 0 ++ [0; 0; 0] ++ z4 ++ z4 ++ z4 ++ z4 ++ z4 ++ replicate 32 0 ++ replicate 128 0 ++ replicate 128 0).
  set (R := replicate 32 0 ++ replicate 128 0 ++ replicate 128 0). set (magic := if include_magic_number then MAGICNUMBER else replicate 9 0).
  assert ((if include_magic_number then splice (replicate 9 0 ++ [0; 0; 0] ++ z4 ++ z4 ++ z4 ++ z4 ++ z4 ++ R) 0 MAGICNUMBER
    else Ret (replicate 9 0 ++ [0; 0; 0] ++ z4 ++ z4 ++ z4 ++ z4 ++ z4 ++ R)) = Ret (magic ++ [0; 0; 0] ++ z4 ++ z4 ++ z4 ++ z4 ++ z4 ++ R)) as ->.
  { unfold magic. destruct include_magic_number; [by rewrite splice_prefix|done]. }
  assert (Hm : length magic = 9%nat) by (unfold magic; by destruct include_magic_number). cbn [mbind outcome_bind].
  rewrite utry_ok by lia. cbn [mbind outcome_bind]. fold (god_byte (primary_slot_index h) (recovery_required h) (two_phase_commit h)).
  set (g := god_byte _ _ _).
  assert (vset (magic ++ [0; 0; 0] ++ z4 ++ z4 ++ z4 ++ z4 ++ z4 ++ R) GOD_BYTE_OFFSET g
    = Ret ((magic ++ [g; 0; 0]) ++ z4 ++ z4 ++ z4 ++ z4 ++ z4 ++ R)) as -> by (unfold magic; by destruct include_magic_number).
  cbn [mbind outcome_bind]. set (P := magic ++ [g; 0; 0]). assert (HP : length P = 12%nat) by (unfold P; by rewrite length_app, Hm).
  do 5 (rewrite (splice_middle _ z4) by (unfold vlen; rewrite ?length_app, ?length_to_le_bytes, ?HP; done);
    cbn [mbind outcome_bind]; rewrite app_assoc).
  unfold R. rewrite (app_assoc _ (replicate 32 0)). change (vget [s0; s1] 0) with (Ret s0). change (vget [s0; s1] 1) with (Ret s1).
  cbn [mbind outcome_bind]. rewrite (slot_to_bytes s0), (slot_to_bytes s1) by done. cbn [mbind outcome_bind].
  rewrite (splice_middle _ (replicate 128 0)) by
    (unfold vlen; rewrite ?length_app, ?length_to_le_bytes, ?length_slot_bytes, ?HP; done).
  cbn [mbind outcome_bind]. rewrite app_assoc.
  rewrite splice_suffix by (unfold vlen; rewrite ?length_app, ?length_to_le_bytes, ?length_slot_bytes, ?HP; done).
  unfold super_header, P, g. rewrite <-!app_assoc. by rewrite (drop_app_length' MAGICNUMBER).
Qed.

Lemma header_to_bytes h : header_ok h -> DatabaseHeader.to_bytes h true = Ret (header_bytes h).
Proof. intros Hh. by rewrite header_to_bytes_magic. Qed.

(** Reading a header field by field *)
Section header_parts.
  Context (magic ps rh rm fr tr z d0 d1 : list Z) (god p1 p2 : Z).
  Context (Hmagic : length magic = 9%nat) (Hps : length ps = 4%nat) (Hrh : length rh = 4%nat) (Hrm : length rm = 4%nat)
    (Hfr : length fr = 4%nat) (Htr : length tr = 4%nat) (Hz : length z = 32%nat)
    (Hd0 : length d0 = 128%nat) (Hd1 : length d1 = 128%nat).

Definition parts_super : list Z := magic ++ [god; p1; p2] ++ ps ++ rh ++ rm ++ fr ++ tr ++ z.

Lemma length_parts_super : length parts_super = 64%nat.
Proof. unfold parts_super. rewrite !length_app. cbn [length]. lia. Qed.

Lemma header_from_parts expected :
  UnrepairedDatabaseHeader.from_bytes (parts_super ++ d0 ++ d1) expected =
    (_ ←? reject_if (negb (bool_decide (magic = MAGICNUMBER))) (Corrupted InvalidMagicNumber);
     _ ←? UnrepairedDatabaseHeader.check_fields (from_le_bytes ps) expected (from_le_bytes rh) (from_le_bytes rm)
       (from_le_bytes fr) (from_le_bytes tr);
     s0 ←? TransactionHeader.from_bytes d0;
     s1 ←? TransactionHeader.from_bytes d1;
     let primary_slot := if negb (Z.land god PRIMARY_BIT =? 0) then 1 else 0 in
     let h := DatabaseHeader.mk primary_slot (negb (Z.land god RECOVERY_REQUIRED =? 0))
       (negb (Z.land god TWO_PHASE_COMMIT =? 0)) (from_le_bytes ps) (from_le_bytes rh) (from_le_bytes rm)
       (from_le_bytes fr) (from_le_bytes tr) [s0.1; s1.1] in
     Ret (Okay (if primary_slot =? 0 then UnrepairedDatabaseHeader.mk h s0.2 s1.2
                else UnrepairedDatabaseHeader.mk h s1.2 s0.2))).
Proof.
  pose proof length_parts_super as Hl. unfold UnrepairedDatabaseHeader.from_bytes.
  set (data := parts_super ++ d0 ++ d1).
  assert (slice data 0 (vlen MAGICNUMBER) = Ret magic) as ->.
  { unfold data, parts_super. rewrite <-app_assoc. apply slice_prefix. unfold vlen. by rewrite Hmagic. }
  cbn [mbind outcome_bind]. unfold reject_if at 1 2. cbn [try_ mbind outcome_bind].
  destruct (negb (bool_decide (magic = MAGICNUMBER))); [done|]. cbn [try_ mbind outcome_bind].
  assert (vget data GOD_BYTE_OFFSET = Ret god) as ->.
  { apply vget_ok; [vm_compute; done|]. unfold data, parts_super. rewrite <-app_assoc, lookup_app_r by (rewrite Hmagic; done).
    rewrite Hmagic. done. }
  cbn [mbind outcome_bind].
  assert (get_u32_at data PAGE_SIZE_OFFSET = Ret (from_le_bytes ps)) as ->.
  { unfold data, parts_super. rewrite <-!app_assoc, app_assoc. apply get_u32_middle; [|done].
    unfold vlen. by rewrite !length_app, Hmagic. }
  assert (get_u32_at data REGION_HEADER_PAGES_OFFSET = Ret (from_le_bytes rh)) as ->.
  { unfold data, parts_super. rewrite <-!app_assoc, 2!app_assoc. apply get_u32_middle; [|done].
    unfold vlen. by rewrite !length_app, Hmagic, Hps. }
  assert (get_u32_at data REGION_MAX_DATA_PAGES_OFFSET = Ret (from_le_bytes rm)) as ->.
  { unfold data, parts_super. rewrite <-!app_assoc, 3!app_assoc. apply get_u32_middle; [|done].
    unfold vlen. by rewrite !length_app, Hmagic, Hps, Hrh. }
  assert (get_u32_at data NUM_FULL_REGIONS_OFFSET = Ret (from_le_bytes fr)) as ->.
  { unfold data, parts_super. rewrite <-!app_assoc, 4!app_assoc. apply get_u32_middle; [|done].
    unfold vlen. by rewrite !length_app, Hmagic, Hps, Hrh, Hrm. }
  assert (get_u32_at data TRAILING_REGION_DATA_PAGES_OFFSET = Ret (from_le_bytes tr)) as ->.
  { unfold data, parts_super. rewrite <-!app_assoc, 5!app_assoc. apply get_u32_middle; [|done].
    unfold vlen. by rewrite !length_app, Hmagic, Hps, Hrh, Hrm, Hfr. }
  cbn [mbind outcome_bind].
  destruct (UnrepairedDatabaseHeader.check_fields _ _ _ _ _ _) as [[[]|e]|]; [|done|done]. cbn [try_ mbind outcome_bind].
  assert (slice data TRANSACTION_0_OFFSET (TRANSACTION_0_OFFSET + TRANSACTION_SIZE) = Ret d0) as ->.
  { apply slice_middle; unfold vlen; by rewrite Hl, ?Hd0. }
  assert (slice data TRANSACTION_1_OFFSET (TRANSACTION_1_OFFSET + TRANSACTION_SIZE) = Ret d1) as ->.
  { unfold data. rewrite app_assoc. apply slice_suffix; unfold vlen; by rewrite length_app, Hl, Hd0, ?Hd1. }
  cbn [mbind outcome_bind]. destruct (TransactionHeader.from_bytes d0) as [[[slot0 c0]|]|]; [|done|done].
  cbn [try_ mbind outcome_bind]. destruct (TransactionHeader.from_bytes d1) as [[[slot1 c1]|]|]; done.
Qed.

End header_parts.

Lemma check_fields_ok ps expected rh rm fr tr :
  ps = expected -> fields_ok ps rh rm fr tr ->
  UnrepairedDatabaseHeader.check_fields ps expected rh rm fr tr = Ret (Okay tt).
Proof.
  intros -> (Hp & Hh & Hm & Ht & Hf & Hn). unfold UnrepairedDatabaseHeader.check_fields, reject_if.
  rewrite Z.eqb_refl, (proj2 (Z.eqb_neq rm 0)), !(proj2 (Z.ltb_ge _ _)) by lia. cbn [negb orb try_ mbind outcome_bind].
  rewrite uadd_ok by (change MAX_REGIONS with (2 ^ 20) in Hn; destruct (0 <? tr); lia). cbn [mbind outcome_bind].
  rewrite (proj2 (Z.eqb_neq _ 0)), (proj2 (Z.ltb_ge _ _)) by lia. done.
Qed.

(** What the checks establish, whatever the fields are. *)
Lemma check_fields_total ps expected rh rm fr tr :
  in_u 32 ps -> in_u 32 rh -> in_u 32 rm -> in_u 32 fr -> in_u 32 tr -> 0 < expected ->
  exists r, UnrepairedDatabaseHeader.check_fields ps expected rh rm fr tr = Ret r /\
    match r with Okay _ => ps = expected /\ fields_ok ps rh rm fr tr | Err _ => True end.
Proof.
  unfold in_u. intros Hps Hrh Hrm Hfr Htr He. unfold UnrepairedDatabaseHeader.check_fields, reject_if, fields_ok.
  destruct (Z.eqb_spec ps expected) as [->|]; [|by eexists]. cbn [negb try_ mbind outcome_bind].
  destruct (Z.eqb_spec rm 0); [by eexists|]. cbn [orb].
  destruct (Z.ltb_spec (MAX_PAGE_INDEX + 1) rm); [by eexists|]. cbn [try_ mbind outcome_bind].
  destruct (Z.ltb_spec (MAX_PAGE_INDEX + 1) rh); [by eexists|]. cbn [try_ mbind outcome_bind].
  destruct (Z.ltb_spec rm tr); [by eexists|]. cbn [try_ mbind outcome_bind].
  rewrite uadd_ok by (destruct (0 <? tr); lia). cbn [mbind outcome_bind]. eexists. split; [done|].
  destruct (Z.eqb_spec (fr + (if 0 <? tr then 1 else 0)) 0); [done|]. cbn [orb].
  destruct (Z.ltb_spec MAX_REGIONS (fr + (if 0 <? tr then 1 else 0))); [done|].
  assert (0 <= (if 0 <? tr then 1 else 0)) by (destruct (0 <? tr); lia). split_and!; lia.
Qed.

Lemma god_byte_bits p r t :
  p = 0 \/ p = 1 ->
  (if negb (Z.land (god_byte p r t) PRIMARY_BIT =? 0) then 1 else 0) = p /\
  negb (Z.land (god_byte p r t) RECOVERY_REQUIRED =? 0) = r /\ negb (Z.land (god_byte p r t) TWO_PHASE_COMMIT =? 0) = t.
Proof. intros [-> | ->]; by destruct r, t. Qed.

Definition with_slots (h : DatabaseHeader.t) (s0 s1 : TransactionHeader.t) : DatabaseHeader.t :=
  DatabaseHeader.mk (primary_slot_index h) (recovery_required h) (two_phase_commit h) (DatabaseHeader.page_size h)
    (region_header_pages h) (region_max_data_pages h) (full_regions h) (trailing_partial_region_pages h) [s0; s1].

(** The first 64 bytes of a header, followed by any two slots *)
Lemma header_from_slots h d0 d1 s0 s1 c0 c1 :
  header_ok h -> length d0 = 128%nat -> length d1 = 128%nat ->
  TransactionHeader.from_bytes d0 = Ret (Okay (s0, c0)) -> TransactionHeader.from_bytes d1 = Ret (Okay (s1, c1)) ->
  UnrepairedDatabaseHeader.from_bytes (super_header h ++ d0 ++ d1) (DatabaseHeader.page_size h) =
    Ret (Okay (if primary_slot_index h =? 0 then UnrepairedDatabaseHeader.mk (with_slots h s0 s1) c0 c1
               else UnrepairedDatabaseHeader.mk (with_slots h s0 s1) c1 c0)).
Proof.
  intros [Hp Hf _] Hd0 Hd1 Hs0 Hs1.
  change (super_header h) with (parts_super MAGICNUMBER (to_le_bytes 4 (DatabaseHeader.page_size h))
    (to_le_bytes 4 (region_header_pages h)) (to_le_bytes 4 (region_max_data_pages h)) (to_le_bytes 4 (full_regions h))
    (to_le_bytes 4 (trailing_partial_region_pages h)) (replicate 32 0)
    (god_byte (primary_slot_index h) (recovery_required h) (two_phase_commit h)) 0 0).
  rewrite header_from_parts by (done || apply length_to_le_bytes).
  rewrite bool_decide_true by done. cbn [negb reject_if try_ mbind outcome_bind].
  pose proof Hf as (? & ? & ? & ? & ? & ?). change (MAX_PAGE_INDEX + 1) with (2 ^ 20) in *. change MAX_REGIONS with (2 ^ 20) in *.
  rewrite !from_to_le_bytes by (change (8 * Z.of_nat 4) with 32; destruct (0 <? trailing_partial_region_pages h); lia).
  rewrite check_fields_ok by done. cbn [try_ mbind outcome_bind]. rewrite Hs0. cbn [try_ mbind outcome_bind]. rewrite Hs1. cbn [try_ mbind outcome_bind].
  destruct (god_byte_bits (primary_slot_index h) (recovery_required h) (two_phase_commit h) Hp) as (-> & -> & ->). done.
Qed.

Lemma header_roundtrip h :
  header_ok h ->
  UnrepairedDatabaseHeader.from_bytes (header_bytes h) (DatabaseHeader.page_size h) =
    Ret (Okay (UnrepairedDatabaseHeader.mk h false false)).
Proof.
  intros Hh. pose proof Hh as [_ _ (s0 & s1 & Hsl & Hs0 & Hs1)]. unfold header_bytes, slot_at. rewrite Hsl. cbn [default lookup list_lookup id].
  rewrite (header_from_slots h _ _ s0 s1 false false); try (done || apply length_slot_bytes || by apply slot_roundtrip).
  unfold with_slots. rewrite <-Hsl. destruct h. by case_match.
Qed.

(** Any bytes read as a header, or are refused. *)
Lemma header_total data expected :
  length data = 320%nat -> Forall byte data -> 0 < expected < 2 ^ 32 ->
  exists r, UnrepairedDatabaseHeader.from_bytes data expected = Ret r /\
    match r with Okay u => header_ok (inner u) /\ DatabaseHeader.page_size (inner u) = expected | Err _ => True end.
Proof.
  intros Hl Hb He.
  destruct (split_list data 9 311 Hl) as (magic & r & -> & Hmagic & Hr).
  destruct (split_list r 3 308 Hr) as (gp & r1 & -> & Hgp & Hr1). destruct gp as [|god [|p1 [|p2 []]]]; try done.
  destruct (split_list r1 4 304 Hr1) as (ps & r2 & -> & Hps & Hr2).
  destruct (split_list r2 4 300 Hr2) as (rh & r3 & -> & Hrh & Hr3).
  destruct (split_list r3 4 296 Hr3) as (rm & r4 & -> & Hrm & Hr4).
  destruct (split_list r4 4 292 Hr4) as (fr & r5 & -> & Hfr & Hr5).
  destruct (split_list r5 4 288 Hr5) as (tr & r6 & -> & Htr & Hr6).
  destruct (split_list r6 32 256 Hr6) as (z & r7 & -> & Hz & Hr7).
  destruct (split_list r7 128 128 Hr7) as (d0 & d1 & -> & Hd0 & Hd1).
  replace (magic ++ [god; p1; p2] ++ ps ++ rh ++ rm ++ fr ++ tr ++ z ++ d0 ++ d1)
    with (parts_super magic ps rh rm fr tr z god p1 p2 ++ d0 ++ d1) by (unfold parts_super; by rewrite <-!app_assoc).
  rewrite header_from_parts by done. rewrite !Forall_app in Hb. destruct Hb as (_ & _ & Hbps & Hbrh & Hbrm & Hbfr & Hbtr & _ & Hb0 & Hb1).
  unfold reject_if. destruct (negb _); [by eexists|]. cbn [try_ mbind outcome_bind].
  assert (Hu : forall l, length l = 4%nat -> Forall byte l -> in_u 32 (from_le_bytes l)).
  { intros l Hll Hbl. apply from_le_bytes_in_u; [done|]. unfold vlen. rewrite Hll. done. }
  destruct (check_fields_total (from_le_bytes ps) expected (from_le_bytes rh) (from_le_bytes rm) (from_le_bytes fr) (from_le_bytes tr))
    as (c & -> & Hc); [auto..|lia|]. destruct c as [[]|]; [|by eexists]. destruct Hc as [Hexp Hf]. cbn [try_ mbind outcome_bind].
  destruct (slot_total d0 Hd0 Hb0) as (r0 & -> & Hs0). destruct r0 as [[s0 c0]|]; [|by eexists]. cbn [try_ mbind outcome_bind].
  destruct (slot_total d1 Hd1 Hb1) as (r1' & -> & Hs1). destruct r1' as [[s1 c1]|]; [|by eexists]. cbn [try_ mbind outcome_bind].
  destruct Hs0 as [Hs0 _]. destruct Hs1 as [Hs1 _].
  eexists. split; [done|]. cbn. destruct (negb (Z.land god PRIMARY_BIT =? 0)); cbn; (split; [|done]);
    (split; cbn; [lia|done|eauto]).
Qed.

(** ** The layout *)

Definition layout_of (h : DatabaseHeader.t) : DatabaseLayout.t :=
  mk_layout (region_max_data_pages h) (region_header_pages h) (DatabaseHeader.page_size h)
    (full_regions h) (trailing_partial_region_pages h).

Lemma header_layout h :
  header_ok h -> DatabaseHeader.page_size h <= 2 ^ 22 ->
  DatabaseHeader.layout h = Ret (layout_of h) /\ layout_ok (layout_of h) /\ 0 < regions_of (layout_of h) <= MAX_REGIONS.
Proof.
  intros [_ Hf _] Hps. unfold fields_ok in Hf. change (MAX_PAGE_INDEX + 1) with (2 ^ 20) in *. change MAX_REGIONS with (2 ^ 20) in *.
  unfold DatabaseHeader.layout, layout_of, RegionLayout.new. rewrite (proj2 (Z.ltb_lt 0 (region_max_data_pages h))) by lia. cbn [rassert mbind outcome_bind].
  set (ps := DatabaseHeader.page_size h) in *. set (rh := region_header_pages h) in *. set (rm := region_max_data_pages h) in *.
  set (fr := full_regions h) in *. set (tr := trailing_partial_region_pages h) in *.
  assert (Hfr : fr <= 2 ^ 20) by (destruct (0 <? tr); lia).
  assert (Hok : layout_ok (mk_layout rm rh ps fr tr)).
  { apply mk_layout_ok; try lia.
    assert (0 <= (rh + rm) * ps <= 2 ^ 21 * 2 ^ 22) by nia.
    assert ((fr + 1) * ((rh + rm) * ps) <= (2 ^ 20 + 1) * (2 ^ 21 * 2 ^ 22)) by nia. lia. }
  assert (regions_of (mk_layout rm rh ps fr tr) = fr + (if 0 <? tr then 1 else 0)) as Hreg.
  { unfold regions_of, mk_layout. cbn. destruct (Z.ltb_spec 0 tr), (Z.eqb_spec tr 0); cbn; lia. }
  rewrite Hreg. split; [|split; [done|lia]].
  unfold mk_layout. destruct (Z.ltb_spec 0 tr), (Z.eqb_spec tr 0); try lia; done.
Qed.

(** ** Selecting the primary slot *)

(** Whether the checksum of slot [i] failed *)
Definition slot_corrupted (u : UnrepairedDatabaseHeader.t) (i : Z) : bool :=
  if i =? primary_slot_index (inner u) then primary_corrupted u else secondary_corrupted u.

(** The transaction of slot [i] *)
Definition slot_txn (h : DatabaseHeader.t) (i : Z) : Z := transaction_id (slot_at h (Z.to_nat i)).

(** [h] differs from [g] at most in the primary slot. *)
Definition same_but_primary (g h : DatabaseHeader.t) : Prop :=
  h = g \/ h = DatabaseHeader.swap_primary_slot g.

Lemma swap_ok h : header_ok h -> header_ok (DatabaseHeader.swap_primary_slot h).
Proof. intros [Hp Hf Hs]. split; [|done|done]. cbn. destruct Hp as [-> | ->]; vm_compute; auto. Qed.

Lemma select_primary_spec u :
  header_ok (inner u) ->
  exists r, UnrepairedDatabaseHeader.select_primary_slot u = Ret r /\
    match r with
    | Okay (h, kept) =>
        same_but_primary (inner u) h /\ (kept = true -> h = inner u) /\
        slot_corrupted u (primary_slot_index h) = false /\
        if two_phase_commit (inner u) then h = inner u
        else forall i, i = 0 \/ i = 1 -> slot_corrupted u i = false -> slot_txn h i <= slot_txn h (primary_slot_index h)
    | Err _ =>
        primary_corrupted u = true /\ (two_phase_commit (inner u) = true \/ secondary_corrupted u = true)
    end.
Proof.
  intros [Hp _ (s0 & s1 & Hsl & _)]. destruct u as [h pc sc]. cbn [inner primary_corrupted secondary_corrupted] in *.
  unfold UnrepairedDatabaseHeader.select_primary_slot, slot_corrupted, same_but_primary, slot_txn, slot_at. cbn [inner primary_corrupted secondary_corrupted].
  destruct h as [p rr tp ps rh rm fr tr slots]. unfold DatabaseHeader.secondary_slot, DatabaseHeader.primary_slot, DatabaseHeader.swap_primary_slot.
  cbn in Hp, Hsl. subst slots. cbn. destruct tp.
  { destruct pc; eexists; (split; [done|]); cbn; [auto|]. rewrite Z.eqb_refl. split_and!; auto. }
  destruct Hp as [-> | ->]; cbn.
  - change (Z.lxor 0 1) with 1. destruct pc; [destruct sc|].
    + eexists. split; [done|]. cbn. auto.
    + eexists. split; [done|]. cbn. split_and!; auto; try done; intros i [-> | ->]; cbn; intros ?; simplify_eq/=; lia.
    + change (vget [s0; s1] 1) with (Ret s1). change (vget [s0; s1] 0) with (Ret s0). cbn. eexists. split; [done|].
      destruct (Z.ltb_spec (transaction_id s0) (transaction_id s1)), sc; cbn; split_and!; auto; try done;
        intros i [-> | ->]; cbn; intros ?; simplify_eq/=; lia.
  - change (Z.lxor 1 1) with 0. destruct pc; [destruct sc|].
    + eexists. split; [done|]. cbn. auto.
    + eexists. split; [done|]. cbn. split_and!; auto; try done; intros i [-> | ->]; cbn; intros ?; simplify_eq/=; lia.
    + change (vget [s0; s1] 1) with (Ret s1). change (vget [s0; s1] 0) with (Ret s0). cbn. eexists. split; [done|].
      destruct (Z.ltb_spec (transaction_id s1) (transaction_id s0)), sc; cbn; split_and!; auto; try done;
        intros i [-> | ->]; cbn; intros ?; simplify_eq/=; lia.
Qed.

(** ** Reconciling the layout with the file *)

Definition with_regions (h : DatabaseHeader.t) (q n : Z) : DatabaseHeader.t :=
  DatabaseHeader.mk (primary_slot_index h) (recovery_required h) (two_phase_commit h) (DatabaseHeader.page_size h)
    (region_header_pages h) (region_max_data_pages h) q n (transaction_slots h).

Lemma set_layout_ok h q n :
  header_ok h -> DatabaseHeader.page_size h <= 2 ^ 22 -> 
  DatabaseHeader.set_layout h (mk_layout (region_max_data_pages h) (region_header_pages h) (DatabaseHeader.page_size h) q n)
    = Ret (with_regions h q n).
Proof.
  intros Hh Hps. unfold DatabaseHeader.set_layout. destruct (header_layout h Hh Hps) as (-> & _). cbn [mbind outcome_bind].
  unfold layout_of, mk_layout, DatabaseHeader.region_layout_eqb. cbn. rewrite !Z.eqb_refl. cbn.
  destruct (Z.eqb_spec n 0) as [->|]; cbn; [done|]. by rewrite !Z.eqb_refl.
Qed.

Lemma file_bytes_min h :
  header_ok h -> DatabaseHeader.page_size h + (region_header_pages h + 1) * DatabaseHeader.page_size h <= file_bytes (layout_of h).
Proof.
  intros [_ (Hps & Hrh & Hrm & Htr & Hfr & Hn) _]. unfold file_bytes, layout_of, mk_layout, region_bytes. cbn.
  destruct (Z.eqb_spec (trailing_partial_region_pages h) 0) as [E|E]; cbn.
  - rewrite E in Hn. cbn in Hn.
    assert ((region_header_pages h + 1) * DatabaseHeader.page_size h <=
      full_regions h * ((region_header_pages h + region_max_data_pages h) * DatabaseHeader.page_size h)); [|lia].
    assert ((region_header_pages h + 1) * DatabaseHeader.page_size h <=
      (region_header_pages h + region_max_data_pages h) * DatabaseHeader.page_size h) by nia. nia.
  - assert (0 <= full_regions h * ((region_header_pages h + region_max_data_pages h) * DatabaseHeader.page_size h)) by nia.
    assert ((region_header_pages h + 1) * DatabaseHeader.page_size h <=
      (region_header_pages h + trailing_partial_region_pages h) * DatabaseHeader.page_size h) by nia. lia.
Qed.

Lemma regions_of_mk rm rh ps q n : 0 <= n -> regions_of (mk_layout rm rh ps q n) = q + (if 0 <? n then 1 else 0).
Proof. intros. unfold regions_of, mk_layout. cbn. destruct (Z.ltb_spec 0 n), (Z.eqb_spec n 0); cbn; lia. Qed.

(** The regions that fit a file of an addressable length *)
Lemma regions_of_length R ps len rest m q n :
  0 < R -> len - ps = R * q + rest -> 0 <= rest < R -> 0 <= q -> 0 <= n -> ps + m <= len -> 0 < m ->
  (0 < n <-> m <= rest) -> len <= ps + 2 ^ 20 * R ->
  0 < q + (if 0 <? n then 1 else 0) <= 2 ^ 20.
Proof.
  intros HR Hd Hr Hq Hn Hmin Hm Hn0 Hmax. assert (q <= 2 ^ 20) by nia.
  destruct (Z.ltb_spec 0 n) as [Hpos|Hneg].
  - apply Hn0 in Hpos. assert (q < 2 ^ 20) by nia. lia.
  - destruct (decide (q = 0)) as [->|]; [|lia]. assert (0 < n) by (apply Hn0; lia). lia.
Qed.

Lemma reconcile_total h file_len :
  header_ok h -> DatabaseHeader.page_size h <= PAGE_SIZE -> file_bytes (layout_of h) <= file_len < 2 ^ 64 ->
  exists r, UnrepairedDatabaseHeader.reconcile h file_len = Ret r /\
    match r with
    | Okay h' => exists q n, h' = with_regions h q n /\ header_ok h' /\ file_bytes (layout_of h') = file_len
    | Err _ => True
    end.
Proof.
  intros Hh Hps Hf. change PAGE_SIZE with 4096 in Hps. pose proof (file_bytes_min h Hh) as Hmin.
  pose proof (ho_fields _ Hh) as (Hp & Hrh & Hrm & Htr & Hfr & Hn).
  change (MAX_PAGE_INDEX + 1) with (2 ^ 20) in *. change MAX_REGIONS with (2 ^ 20) in *.
  unfold UnrepairedDatabaseHeader.reconcile. destruct (header_layout h Hh ltac:(lia)) as (-> & _). cbn [mbind outcome_bind].
  change (DatabaseLayout.full_region_layout (layout_of h)) with
    (RegionLayout.mk (region_max_data_pages h) (region_header_pages h) (DatabaseHeader.page_size h)).
  cbn [RegionLayout.num_pages RegionLayout.header_pages].
  pose proof (set_layout_ok h) as Hset.
  set (ps := DatabaseHeader.page_size h) in *. set (rh := region_header_pages h) in *. set (rm := region_max_data_pages h) in *.
  assert (HR : 0 < (rh + rm) * ps <= 2 ^ 21 * 4096) by nia. assert (Hdd : rm * ps <= 2 ^ 20 * 4096) by nia.
  assert (Hm1 : 0 < (rh + 1) * ps) by nia. change MAX_REGIONS with (2 ^ 20).
  rewrite (uadd_ok 64 rh rm) by lia. cbn [mbind outcome_bind]. rewrite (umul_ok 64 (rh + rm) ps) by lia. cbn [mbind outcome_bind].
  set (R := (rh + rm) * ps) in *. osteps. unfold reject_if. destruct (Z.ltb_spec (ps + 2 ^ 20 * R) file_len); [by eexists|].
  cbn [try_ mbind outcome_bind].
  pose proof (Z.div_mod (file_len - ps) R ltac:(lia)) as Hdm. pose proof (Z.mod_pos_bound (file_len - ps) R ltac:(lia)) as Hm.
  assert (Hq0 : 0 <= (file_len - ps) / R) by (apply Z.div_pos; lia).
  assert (Hq : (file_len - ps) / R <= 2 ^ 20) by (apply Z.div_le_upper_bound; lia).
  destruct (recalculate_total file_len rh rm ps) as (n & -> & Hnr & Hn0); [fold R; lia..|]. cbn [mbind outcome_bind].
  fold R in Hn0 |- *. set (q := (file_len - ps) / R) in *. set (rest := (file_len - ps) mod R) in *.
  destruct (mk_layout_ok rm rh ps q n) as (Hok & _); [lia..| |]. { fold R. nia. }
  assert (Hreg : 0 < q + (if 0 <? n then 1 else 0) <= 2 ^ 20)
    by (apply (regions_of_length R ps file_len rest ((rh + 1) * ps)); tauto || lia).
  rewrite layout_len_ok by (done || rewrite regions_of_mk by lia; lia). cbn [mbind outcome_bind].
  destruct (Z.eqb_spec (file_bytes (mk_layout rm rh ps q n)) file_len) as [Heq|]; [|by eexists].
  cbn [negb try_ mbind outcome_bind]. rewrite Hset by (done || lia). cbn [mbind outcome_bind]. eexists. split; [done|].
  exists q, n. split; [done|]. split; [|done]. destruct Hh as [Hp0 _ Hsl]. split; [done| |done].
  split_and!; cbn; fold ps rh rm; change (MAX_PAGE_INDEX + 1) with (2 ^ 20); change MAX_REGIONS with (2 ^ 20); lia.
Qed.

(** [finalize] returns; a header it accepts matches the file, and its primary slot is
    the one [select_primary_slot] picks. *)
Lemma finalize_total u file_len :
  header_ok (inner u) -> DatabaseHeader.page_size (inner u) <= PAGE_SIZE -> 0 <= file_len < 2 ^ 64 ->
  exists r, UnrepairedDatabaseHeader.finalize u file_len = Ret r /\
    match r with
    | Okay (h, clean) =>
        header_ok h /\ DatabaseHeader.page_size h = DatabaseHeader.page_size (inner u) /\
        file_bytes (layout_of h) = file_len /\
        transaction_slots h = transaction_slots (inner u) /\ two_phase_commit h = two_phase_commit (inner u) /\
        (clean = true -> h = inner u) /\
        slot_corrupted u (primary_slot_index h) = false /\
        if two_phase_commit (inner u) then primary_slot_index h = primary_slot_index (inner u)
        else forall i, i = 0 \/ i = 1 -> slot_corrupted u i = false -> slot_txn h i <= slot_txn h (primary_slot_index h)
    | Err _ => True
    end.
Proof.
  intros Hh Hps Hf. unfold UnrepairedDatabaseHeader.finalize. change PAGE_SIZE with 4096 in Hps.
  destruct (header_layout (inner u) Hh ltac:(lia)) as (-> & Hl & Hn). cbn [mbind outcome_bind].
  rewrite layout_len_ok by (done || lia). cbn [mbind outcome_bind]. unfold reject_if.
  destruct (Z.ltb_spec file_len (file_bytes (layout_of (inner u)))); [by eexists|]. cbn [try_ mbind outcome_bind].
  set (stale := negb (file_bytes (layout_of (inner u)) =? file_len)).
  assert (exists r, (if stale then UnrepairedDatabaseHeader.reconcile (inner u) file_len else Ret (Okay (inner u))) = Ret r /\
    match r with
    | Okay h' => exists q n, h' = with_regions (inner u) q n /\ header_ok h' /\ file_bytes (layout_of h') = file_len /\
        (stale = false -> h' = inner u)
    | Err _ => True end) as (r & -> & Hr).
  { unfold stale. destruct (Z.eqb_spec (file_bytes (layout_of (inner u))) file_len) as [E|E]; cbn [negb].
    - eexists. split; [done|]. exists (full_regions (inner u)), (trailing_partial_region_pages (inner u)).
      split; [by destruct (inner u)|done].
    - destruct (reconcile_total (inner u) file_len) as (r & -> & Hr); [done|done|lia|]. exists r. split; [done|].
      destruct r; [|done]. destruct Hr as (q & n & ? & ? & ?). exists q, n. done. }
  destruct r as [h|]; [|by eexists]. destruct Hr as (q & n & Hqn & Hok & Hbytes & Hstale). cbn [try_ mbind outcome_bind].
  destruct (select_primary_spec (UnrepairedDatabaseHeader.mk h (primary_corrupted u) (secondary_corrupted u)) Hok) as (s & -> & Hs).
  destruct s as [[h' kept]|]; [|by eexists]. cbn [try_ mbind outcome_bind inner] in *. eexists. split; [done|]. cbn.
  destruct Hs as (Hsame & Hkept & Hcorr & Hsel).
  assert (Hlay : layout_of h' = layout_of h /\ DatabaseHeader.page_size h' = DatabaseHeader.page_size h /\ header_ok h' /\ transaction_slots h' = transaction_slots h /\
      two_phase_commit h' = two_phase_commit h).
  { destruct Hsame as [-> | ->]; [done|]. split_and!; try done. by apply swap_ok. }
  destruct Hlay as (-> & Hpsz & Hok' & Hsl & Htp).
  unfold slot_corrupted in *. cbn [inner primary_corrupted secondary_corrupted] in *. rewrite Hqn in Hcorr, Hsel, Hsl, Htp, Hpsz. cbn in Hcorr, Hsel, Hsl, Htp, Hpsz.
  split_and!; try done.
  - intros [? Hst%negb_true_iff]%andb_prop. rewrite Hkept by done. by apply Hstale.
  - destruct (two_phase_commit (inner u)); [|done]. by rewrite Hsel.
Qed.

(** * Properties *)

(** C36. The header round-trips: a well-formed header is written as 320 bytes, and
    reading them back gives the same header with both commit slots verified. *)
Theorem header_codec_roundtrip (h : DatabaseHeader.t) :
  header_ok h ->
  exists bytes, DatabaseHeader.to_bytes h true = Ret bytes /\ vlen bytes = DB_HEADER_SIZE /\
    UnrepairedDatabaseHeader.from_bytes bytes (DatabaseHeader.page_size h) =
      Ret (Okay (UnrepairedDatabaseHeader.mk h false false)).
Proof.
  intros Hh. exists (header_bytes h). split; [by apply header_to_bytes|]. split; [|by apply header_roundtrip].
  unfold header_bytes, vlen. by rewrite !length_app, length_super_header, !length_slot_bytes.
Qed.

Lemma header_codec_roundtrip_witness :
  let h := DatabaseHeader.mk 1 true false 4096 0 1048576 3 17
    [TransactionHeader.new 5; TransactionHeader.mk 3 (Some (BtreeHeader.mk (PageNumber.mk 2 7 1) 99 12)) None 6] in
  exists bytes, DatabaseHeader.to_bytes h true = Ret bytes /\ vlen bytes = DB_HEADER_SIZE /\
    UnrepairedDatabaseHeader.from_bytes bytes 4096 = Ret (Okay (UnrepairedDatabaseHeader.mk h false false)).
Proof.
  intros h. apply (header_codec_roundtrip h). split; [by right|vm_compute; split_and!; done|].
  eexists _, _. split; [done|]. split; split_and!; try done; cbn; vm_compute; split_and!; done.
Defined.

(** C35. Opening never panics on a damaged header: whatever the 320 bytes of the header
    and the length of the file are, parsing them with the default page size and
    reconciling the result with the file returns a header or an error.  An accepted
    header describes exactly the file; its primary slot has a valid checksum; it is the
    stored primary after a two-phase commit, and otherwise the newest valid slot. *)
Theorem header_open_total (data : list Z) (file_len : Z) :
  length data = Z.to_nat DB_HEADER_SIZE -> Forall byte data -> 0 <= file_len < 2 ^ 64 ->
  exists r, UnrepairedDatabaseHeader.from_bytes data PAGE_SIZE = Ret r /\
    forall u, r = Okay u ->
      exists f, UnrepairedDatabaseHeader.finalize u file_len = Ret f /\
        forall h clean, f = Okay (h, clean) ->
          (l ← DatabaseHeader.layout h; DatabaseLayout.len l) = Ret file_len /\
          transaction_slots h = transaction_slots (inner u) /\
          slot_corrupted u (primary_slot_index h) = false /\
          (if two_phase_commit (inner u) then primary_slot_index h = primary_slot_index (inner u)
           else forall i, i = 0 \/ i = 1 -> slot_corrupted u i = false ->
                  slot_txn h i <= slot_txn h (primary_slot_index h)).
Proof.
  intros Hl Hb Hf. destruct (header_total data PAGE_SIZE Hl Hb ltac:(vm_compute; done)) as (r & -> & Hr).
  exists r. split; [done|]. intros u ->. destruct Hr as [Hok Hps].
  destruct (finalize_total u file_len Hok ltac:(lia) Hf) as (f & -> & Hfin). exists f. split; [done|].
  intros h clean ->. destruct Hfin as (Hh & Hpsz & Hbytes & Hsl & _ & _ & Hc & Hsel). split; [|done].
  destruct (header_layout h Hh) as (-> & Hlo & Hn); [rewrite Hpsz, Hps; vm_compute; done|].
  cbn [mbind outcome_bind]. rewrite layout_len_ok by (done || lia). by rewrite Hbytes.
Qed.

Lemma header_open_total_witness :
  let data := header_bytes (DatabaseHeader.mk 1 true false 4096 0 1048576 3 17 [TransactionHeader.new 5; TransactionHeader.new 6]) in
  exists r, UnrepairedDatabaseHeader.from_bytes data PAGE_SIZE = Ret r /\
    forall u, r = Okay u ->
      exists f, UnrepairedDatabaseHeader.finalize u 12884975616 = Ret f /\
        forall h clean, f = Okay (h, clean) ->
          (l ← DatabaseHeader.layout h; DatabaseLayout.len l) = Ret 12884975616 /\
          transaction_slots h = transaction_slots (inner u) /\
          slot_corrupted u (primary_slot_index h) = false /\
          (if two_phase_commit (inner u) then primary_slot_index h = primary_slot_index (inner u)
           else forall i, i = 0 \/ i = 1 -> slot_corrupted u i = false ->
                  slot_txn h i <= slot_txn h (primary_slot_index h)).
Proof.
  intros data. apply (header_open_total data 12884975616); [vm_compute; reflexivity| |lia].
  apply (bool_decide_unpack _). vm_compute. exact I.
Defined.
