(* ===== verification/PageManager.v ===== *)
(** The transactional memory: allocation of pages over all regions, growing and
    shrinking the file, the commit protocol and the bookkeeping of pages that are
    not yet durable (src/src/tree_store/page_store/page_manager.rs). *)
From S2P Require Import Prelude Bitmap Buddy Pages Layout Region Header.

(** * Model *)

Definition MAX_USABLE_REGION_SPACE : Z := 4 * 1024 * 1024 * 1024.
Definition MIN_USABLE_PAGES : Z := 10.
Definition MIN_DESIRED_USABLE_BYTES : Z := 1024 * 1024.
Definition NO_HEADER : Z := 0.

Inductive ShrinkPolicy := ShrinkDefault | ShrinkMaximum | ShrinkNever.
Inductive AllocationPolicy := AllocDefault | AllocLowest.

(** [x.is_power_of_two()] and [x.next_power_of_two()] of a positive [usize] *)
Definition is_power_of_two (x : Z) : bool := (0 <? x) && (2 ^ Z.log2 x =? x).
Definition next_power_of_two (x : Z) : outcome Z :=
  let p := 2 ^ Z.log2_up x in if p <? 2 ^ 64 then Ret p else Panic.

Definition ceil_log2 (x : Z) : outcome Z :=
  if is_power_of_two x then utry 8 (trailing_zeros 64 x)
  else p ← next_power_of_two x; utry 8 (trailing_zeros 64 p).

(** ** The state *)

(** The operations of the paged file that the memory issues.  Each of those that can
    fail is answered by an oracle [io], a function of the operations so far. *)
Inductive event :=
| CheckErrors
| WriteHeader (bytes : list Z)
| Flush
| WriteBarrier
| Resize (len : Z)
| SyncFile
| ReadPage (start len : Z)
| WritePage (start len : Z)
| InvalidateCache (start len : Z)
| CancelPendingWrite (start len : Z).

(** [StorageError], as far as this file passes it on *)
Inductive storage_error := IoError.

Module InMemoryState.

Record t := mk {
  header : DatabaseHeader.t;
  allocators : option Allocators.t;
  read_from_secondary : bool }.

Definition new (h : DatabaseHeader.t) : t := mk h None false.

(** [allocators()] and [allocators_mut()], which expect them to be loaded *)
Definition get_allocators (s : t) : outcome Allocators.t := unwrap (allocators s).

Definition get_region (s : t) (region : Z) : outcome BuddyAllocator.t :=
  a ← get_allocators s; vget (Allocators.region_allocators a) region.

(** [*self.get_region_mut(region) = b] *)
Definition set_region (a : Allocators.t) (region : Z) (b : BuddyAllocator.t) : outcome Allocators.t :=
  rs ← vset (Allocators.region_allocators a) region b;
  Ret (Allocators.mk (Allocators.region_tracker a) rs).

Definition set_allocators (s : t) (a : Allocators.t) : t := mk (header s) (Some a) (read_from_secondary s).
Definition set_header (s : t) (h : DatabaseHeader.t) : t := mk h (allocators s) (read_from_secondary s).

Definition latest_slot (s : t) : outcome TransactionHeader.t :=
  if read_from_secondary s then DatabaseHeader.secondary_slot (header s)
  else DatabaseHeader.primary_slot (header s).

End InMemoryState.

Module TransactionalMemory.

Record t := mk {
  unpersisted : gset PageNumber.t;
  unpersisted_allocations : gmap Z (gset PageNumber.t);
  unpersisted_allocation_txn : gmap PageNumber.t Z;
  storage : list event;
  state : InMemoryState.t;
  open_dirty_pages : gset PageNumber.t;
  read_page_ref_counts : gmap PageNumber.t Z;
  allocated_pages : gset PageNumber.t;
  page_size : Z;
  region_size : Z;
  region_header_with_padding_size : Z }.

(** Assignments to the fields *)
Definition set_unpersisted (m : t) (u : gset PageNumber.t) (a : gmap Z (gset PageNumber.t)) (r : gmap PageNumber.t Z) : t :=
  mk u a r (storage m) (state m) (open_dirty_pages m) (read_page_ref_counts m) (allocated_pages m)
    (page_size m) (region_size m) (region_header_with_padding_size m).
Definition set_state (m : t) (s : InMemoryState.t) : t :=
  mk (unpersisted m) (unpersisted_allocations m) (unpersisted_allocation_txn m) (storage m) s (open_dirty_pages m)
    (read_page_ref_counts m) (allocated_pages m) (page_size m) (region_size m) (region_header_with_padding_size m).
Definition set_debug (m : t) (dirty : gset PageNumber.t) (refs : gmap PageNumber.t Z) (allocated : gset PageNumber.t) : t :=
  mk (unpersisted m) (unpersisted_allocations m) (unpersisted_allocation_txn m) (storage m) (state m) dirty refs
    allocated (page_size m) (region_size m) (region_header_with_padding_size m).
Definition record (m : t) (e : event) : t :=
  mk (unpersisted m) (unpersisted_allocations m) (unpersisted_allocation_txn m) (storage m ++ [e]) (state m)
    (open_dirty_pages m) (read_page_ref_counts m) (allocated_pages m) (page_size m) (region_size m)
    (region_header_with_padding_size m).

(** ** The monad of fallible operations on the memory *)

Definition M (A : Type) : Type := t -> outcome (t * result A storage_error).
#[global] Instance M_ret : MRet M := fun A a m => Ret (m, Okay a).
#[global] Instance M_bind : MBind M := fun A B k c m =>
  match c m with
  | Ret (m', Okay a) => k a m'
  | Ret (m', Err e) => Ret (m', Err e)
  | Panic => Panic
  end.
(** A computation that can only panic, and access to the memory *)
Definition lift {A} (c : outcome A) : M A := fun m => a ← c; Ret (m, Okay a).
Definition gets {A} (f : t -> A) : M A := fun m => Ret (m, Okay (f m)).
Definition modify (f : t -> t) : M unit := fun m => Ret (f m, Okay tt).
(** [assert!(..)] on the memory *)
Definition require (f : t -> bool) : M unit := fun m => _ ← rassert (f m); Ret (m, Okay tt).

Section io.
  Context (io : list event -> event -> bool).

(** [self.storage.op(..)?] *)
Definition perform (e : event) : M unit := fun m =>
  Ret (record m e, if io (storage m) e then Okay tt else Err IoError).
(** An operation of the file that cannot fail *)
Definition perform_ (e : event) : M unit := modify (fun m => record m e).

Definition write_header (h : DatabaseHeader.t) : M unit :=
  b ← lift (DatabaseHeader.to_bytes h true);
  perform (WriteHeader b).

Definition begin_writable : M unit :=
  s ← gets state;
  _ ← lift (rassert (negb (DatabaseHeader.recovery_required (InMemoryState.header s))));
  let h := DatabaseHeader.set_recovery_required (InMemoryState.header s) true in
  _ ← modify (fun m => set_state m (InMemoryState.set_header s h));
  _ ← write_header h;
  perform Flush.

Definition clear_recovery_required : M unit :=
  s ← gets state;
  let h := DatabaseHeader.set_recovery_required (InMemoryState.header s) false in
  _ ← modify (fun m => set_state m (InMemoryState.set_header s h));
  _ ← write_header h;
  perform Flush.

Definition repair_primary_corrupted : M unit :=
  modify (fun m => set_state m (InMemoryState.set_header (state m)
    (DatabaseHeader.swap_primary_slot (InMemoryState.header (state m))))).

Definition reset_allocator_state : M unit :=
  s ← gets state;
  l ← lift (DatabaseHeader.layout (InMemoryState.header s));
  a ← lift (Allocators.new l);
  _ ← modify (fun m => set_state m (InMemoryState.set_allocators s a));
  modify (fun m => set_debug m (open_dirty_pages m) (read_page_ref_counts m) ∅).

Definition mark_page_allocated (page : PageNumber.t) : M unit :=
  s ← gets state;
  b ← lift (InMemoryState.get_region s (PageNumber.region page));
  b' ← lift (BuddyAllocator.record_alloc b (PageNumber.page_index page) (PageNumber.page_order page));
  a ← lift (InMemoryState.get_allocators s);
  a' ← lift (InMemoryState.set_region a (PageNumber.region page) b');
  _ ← modify (fun m => set_state m (InMemoryState.set_allocators s a'));
  _ ← require (fun m => bool_decide (page ∉ allocated_pages m));
  modify (fun m => set_debug m (open_dirty_pages m) (read_page_ref_counts m) ({[page]} ∪ allocated_pages m)).

(** [page.address_range(..)] as the memory calls it: the start and the length *)
Definition page_address (page : PageNumber.t) : M (Z * Z) := fun m =>
  r ← PageNumber.address_range page (page_size m) (region_size m) (region_header_with_padding_size m) (page_size m);
  Ret (m, Okay (r.1, r.2 - r.1)).

(** ** Borrowing pages *)

(** [get_page]; the bytes of the page are not part of this model. *)
Definition get_page (page : PageNumber.t) : M unit :=
  addr ← page_address page;
  _ ← perform (ReadPage addr.1 addr.2);
  _ ← require (fun m => bool_decide (page ∉ open_dirty_pages m));
  modify (fun m => set_debug m (open_dirty_pages m) (<[page := default 0 (read_page_ref_counts m !! page) + 1]> (read_page_ref_counts m)) (allocated_pages m)).
(** [PageImpl::drop] *)
Definition drop_page (page : PageNumber.t) : M unit :=
  refs ← gets read_page_ref_counts;
  value ← lift (unwrap (refs !! page));
  _ ← lift (rassert (0 <? value));
  modify (fun m => set_debug m (open_dirty_pages m) (if value - 1 =? 0 then delete page refs else <[page := value - 1]> refs) (allocated_pages m)).
Definition get_page_mut (page : PageNumber.t) : M unit :=
  _ ← require (fun m => bool_decide (read_page_ref_counts m !! page = None));
  _ ← require (fun m => bool_decide (page ∉ open_dirty_pages m));
  addr ← page_address page;
  _ ← perform (WritePage addr.1 addr.2);
  _ ← require (fun m => bool_decide (page ∉ open_dirty_pages m));
  modify (fun m => set_debug m ({[page]} ∪ open_dirty_pages m) (read_page_ref_counts m) (allocated_pages m)).

(** ** Allocation *)

(** The loop of [allocate_helper_retry]; each failed round marks a region full *)
Fixpoint retry_loop (fuel : nat) (a : Allocators.t) (required_order : Z) (lowest : bool)
    : outcome (Allocators.t * option PageNumber.t) :=
  match fuel with
  | O => Panic
  | S f =>
      c ← RegionTracker.find_free (Allocators.region_tracker a) required_order;
      match c with
      | None => Ret (a, None)
      | Some candidate_region =>
          region ← vget (Allocators.region_allocators a) candidate_region;
          r ← (if lowest then BuddyAllocator.alloc_lowest region required_order
               else BuddyAllocator.alloc region required_order);
          a' ← InMemoryState.set_region a candidate_region r.1;
          match r.2 with
          | Some page =>
              p ← PageNumber.new candidate_region page required_order;
              Ret (a', Some p)
          | None =>
              tr ← RegionTracker.mark_full (Allocators.region_tracker a') required_order candidate_region;
              retry_loop f (Allocators.mk tr (Allocators.region_allocators a')) required_order lowest
          end
      end
  end.

Definition allocate_helper_retry (s : InMemoryState.t) (required_order : Z) (lowest : bool)
    : outcome (InMemoryState.t * option PageNumber.t) :=
  a ← InMemoryState.get_allocators s;
  n ← RegionTracker.len (Allocators.region_tracker a);
  r ← retry_loop (S (Z.to_nat n)) a required_order lowest;
  Ret (InMemoryState.set_allocators s r.1, r.2).

(** [next_desired_size] of [grow] *)
Definition next_desired_size (h : DatabaseHeader.t) (layout : DatabaseLayout.t) (required_order_allocation : Z) : outcome Z :=
  pages ← (let p := 2 ^ required_order_allocation in if p <? 2 ^ 64 then Ret p else Panic);
  required_growth ← umul 64 pages (DatabaseHeader.page_size h);
  max_region_size ← umul 64 (RegionLayout.num_pages (DatabaseLayout.full_region_layout layout)) (DatabaseHeader.page_size h);
  usable ← DatabaseLayout.usable_bytes layout;
  if 0 <? DatabaseLayout.num_full_regions layout then
    match DatabaseLayout.trailing_partial_region layout with
    | Some trailing =>
        t ← RegionLayout.usable_bytes trailing;
        growth2 ← umul 64 2 required_growth;
        left ← usub max_region_size t;
        if growth2 <? left then uadd 64 usable left
        else
          max2 ← umul 64 2 max_region_size;
          x ← uadd 64 usable max2;
          usub x t
    | None => uadd 64 usable max_region_size
    end
  else
    twice ← umul 64 usable 2;
    growth2 ← umul 64 required_growth 2;
    more ← uadd 64 usable growth2;
    Ret (Z.max twice more).

Definition grow (required_order_allocation : Z) : M unit :=
  s ← gets state;
  ps ← gets page_size;
  layout ← lift (DatabaseHeader.layout (InMemoryState.header s));
  desired ← lift (next_desired_size (InMemoryState.header s) layout required_order_allocation);
  new_layout ← lift (DatabaseLayout.calculate desired
    (RegionLayout.num_pages (DatabaseLayout.full_region_layout layout))
    (RegionLayout.header_pages (DatabaseLayout.full_region_layout layout)) ps);
  new_len ← lift (DatabaseLayout.len new_layout);
  old_len ← lift (DatabaseLayout.len layout);
  _ ← lift (rassert (old_len <=? new_len));
  _ ← perform (Resize new_len);
  _ ← perform SyncFile;
  a ← lift (InMemoryState.get_allocators s);
  a' ← lift (Allocators.resize_to a new_layout);
  h' ← lift (DatabaseHeader.set_layout (InMemoryState.header s) new_layout);
  modify (fun m => set_state m (InMemoryState.set_header (InMemoryState.set_allocators s a') h')).

(** The part of [allocate_helper] that finds a page, growing the file if it must *)
Definition find_page (required_order : Z) (lowest : bool) : M PageNumber.t :=
  s ← gets state;
  r ← lift (allocate_helper_retry s required_order lowest);
  _ ← modify (fun m => set_state m r.1);
  match r.2 with
  | Some page_number => mret page_number
  | None =>
      _ ← grow required_order;
      s ← gets state;
      r ← lift (allocate_helper_retry s required_order lowest);
      _ ← modify (fun m => set_state m r.1);
      lift (unwrap r.2)
  end.

(** The part of [allocate_helper] that hands the page out.  The contents of pages are
    not part of this model. *)
Definition claim_page (allocation_size : Z) (page_number : PageNumber.t) : M PageNumber.t :=
  _ ← require (fun m => bool_decide (page_number ∉ allocated_pages m));
  _ ← modify (fun m => set_debug m (open_dirty_pages m) (read_page_ref_counts m) ({[page_number]} ∪ allocated_pages m));
  _ ← require (fun m => bool_decide (read_page_ref_counts m !! page_number = None));
  _ ← require (fun m => bool_decide (page_number ∉ open_dirty_pages m));
  addr ← page_address page_number;
  _ ← perform (WritePage addr.1 addr.2);
  _ ← require (fun _ => allocation_size <=? addr.2);
  _ ← require (fun m => bool_decide (page_number ∉ open_dirty_pages m));
  _ ← modify (fun m => set_debug m ({[page_number]} ∪ open_dirty_pages m) (read_page_ref_counts m) (allocated_pages m));
  mret page_number.

Definition allocate_helper (allocation_size : Z) (lowest : bool) : M PageNumber.t :=
  ps ← gets page_size;
  let required_pages := div_ceil allocation_size ps in
  required_order ← lift (ceil_log2 required_pages);
  page_number ← find_page required_order lowest;
  claim_page allocation_size page_number.

(** [PageMut::drop], which ends the mutable borrow of a page *)
Definition drop_page_mut (page : PageNumber.t) : M unit :=
  _ ← require (fun m => bool_decide (page ∈ open_dirty_pages m));
  modify (fun m => set_debug m (open_dirty_pages m ∖ {[page]}) (read_page_ref_counts m) (allocated_pages m)).

(** [allocate] and [allocate_lowest], with the tracker of the caller *)
Definition allocate (lowest : bool) (allocation_size : Z) (allocated : PageTrackerPolicy.t)
    : M (PageNumber.t * PageTrackerPolicy.t) :=
  page ← allocate_helper allocation_size lowest;
  tr ← lift (PageTrackerPolicy.insert allocated page);
  mret (page, tr).

Definition free_helper (page : PageNumber.t) (allocated : PageTrackerPolicy.t) : M PageTrackerPolicy.t :=
  _ ← require (fun m => bool_decide (read_page_ref_counts m !! page = None));
  _ ← require (fun m => bool_decide (page ∈ allocated_pages m));
  _ ← modify (fun m => set_debug m (open_dirty_pages m) (read_page_ref_counts m) (allocated_pages m ∖ {[page]}));
  _ ← require (fun m => bool_decide (page ∉ open_dirty_pages m));
  tr ← lift (PageTrackerPolicy.remove allocated page);
  s ← gets state;
  let region_index := PageNumber.region page in
  b ← lift (InMemoryState.get_region s region_index);
  b' ← lift (BuddyAllocator.free_page b (PageNumber.page_index page) (PageNumber.page_order page));
  a ← lift (InMemoryState.get_allocators s);
  a' ← lift (InMemoryState.set_region a region_index b');
  t' ← lift (RegionTracker.mark_free (Allocators.region_tracker a') (PageNumber.page_order page) region_index);
  _ ← modify (fun m => set_state m (InMemoryState.set_allocators s (Allocators.mk t' (Allocators.region_allocators a'))));
  addr ← page_address page;
  _ ← perform_ (InvalidateCache addr.1 addr.2);
  _ ← perform_ (CancelPendingWrite addr.1 addr.2);
  mret tr.

Definition free : PageNumber.t -> PageTrackerPolicy.t -> M PageTrackerPolicy.t := free_helper.

(** ** Pages allocated by non-durable commits *)

Definition remove_unpersisted_allocation (page : PageNumber.t) : M unit :=
  reverse ← gets unpersisted_allocation_txn;
  match reverse !! page with
  | None => mret tt
  | Some txn =>
      _ ← modify (fun m => set_unpersisted m (unpersisted m) (unpersisted_allocations m) (delete page reverse));
      allocations ← gets unpersisted_allocations;
      pages ← lift (unwrap (allocations !! txn : option (gset PageNumber.t)));
      _ ← lift (rassert (bool_decide (page ∈ pages)));
      let pages := pages ∖ {[page]} in
      modify (fun m => set_unpersisted m (unpersisted m)
        (if bool_decide (pages = ∅) then delete txn allocations else <[txn := pages]> allocations)
        (unpersisted_allocation_txn m))
  end.

Definition free_if_unpersisted (page : PageNumber.t) (allocated : PageTrackerPolicy.t) : M (PageTrackerPolicy.t * bool) :=
  u ← gets unpersisted;
  if bool_decide (page ∈ u) then
    _ ← modify (fun m => set_unpersisted m (u ∖ {[page]}) (unpersisted_allocations m) (unpersisted_allocation_txn m));
    _ ← remove_unpersisted_allocation page;
    tr ← free_helper page allocated;
    mret (tr, true)
  else mret (allocated, false).

(** One round of the loop of [record_unpersisted_allocations]: the entry of the
    transaction and the reverse index *)
Definition record_page (transaction_id : Z) (page : PageNumber.t) (s : gset PageNumber.t * gmap PageNumber.t Z)
    : outcome (gset PageNumber.t * gmap PageNumber.t Z) :=
  let '(entry, reverse) := s in
  if bool_decide (page ∈ entry) then Ret (entry, reverse)
  else
    _ ← rassert (bool_decide (reverse !! page = None));
    Ret ({[page]} ∪ entry, <[page := transaction_id]> reverse).

Definition record_unpersisted_allocations (transaction_id : Z) (pages : list PageNumber.t) : M unit :=
  match pages with
  | [] => mret tt
  | _ =>
      allocations ← gets unpersisted_allocations;
      reverse ← gets unpersisted_allocation_txn;
      r ← lift (for_each (record_page transaction_id) pages (default ∅ (allocations !! transaction_id : option (gset PageNumber.t)), reverse));
      modify (fun m => set_unpersisted m (unpersisted m) (<[transaction_id := r.1]> allocations) r.2)
  end.

Definition take_unpersisted_allocations : M (gmap Z (gset PageNumber.t)) :=
  a ← gets unpersisted_allocations;
  _ ← modify (fun m => set_unpersisted m (unpersisted m) ∅ ∅);
  mret a.

(** The pages of the transactions after [transaction_id] *)
Definition unpersisted_allocations_after (m : t) (transaction_id : Z) : gset PageNumber.t :=
  map_fold (fun txn pages acc => if transaction_id <? txn then pages ∪ acc else acc) ∅ (unpersisted_allocations m).

(** ** Shrinking and committing *)

Definition try_shrink (s : InMemoryState.t) (force : bool) : outcome (InMemoryState.t * bool) :=
  layout ← DatabaseHeader.layout (InMemoryState.header s);
  n ← DatabaseLayout.num_regions layout;
  last_region_index ← usub n 1;
  last_allocator ← InMemoryState.get_region s last_region_index;
  trailing_free ← BuddyAllocator.trailing_free_pages last_allocator;
  let last_allocator_len := BuddyAllocator.len last_allocator in
  if trailing_free =? 0 then Ret (s, false)
  else if (trailing_free <? last_allocator_len / 2) && negb force then Ret (s, false)
  else
    reduce_by ← (if (1 <? n) && (trailing_free =? last_allocator_len) then Ret trailing_free
      else if force then x ← usub last_allocator_len 1; Ret (Z.min x trailing_free)
      else Ret (trailing_free / 2));
    new_layout ← DatabaseLayout.reduce_last_region layout reduce_by;
    a ← InMemoryState.get_allocators s;
    a' ← Allocators.resize_to a new_layout;
    new_len ← DatabaseLayout.len new_layout;
    old_len ← DatabaseLayout.len layout;
    _ ← rassert (new_len <=? old_len);
    h' ← DatabaseHeader.set_layout (InMemoryState.header s) new_layout;
    Ret (InMemoryState.set_header (InMemoryState.set_allocators s a') h', true).

(** The secondary slot with the roots and the transaction of a commit *)
Definition commit_slot (old : TransactionHeader.t) (data_root system_root : option BtreeHeader.t) (transaction_id : Z)
    : TransactionHeader.t :=
  TransactionHeader.mk (TransactionHeader.version old) data_root system_root transaction_id.

Definition commit (data_root system_root : option BtreeHeader.t) (transaction_id : Z) (two_phase : bool)
    (shrink_policy : ShrinkPolicy) : M unit :=
  _ ← require (fun m => bool_decide (open_dirty_pages m = ∅));
  _ ← perform CheckErrors;
  s ← gets state;
  r ← lift (match shrink_policy with
            | ShrinkNever => Ret (s, false)
            | ShrinkMaximum => try_shrink s true
            | ShrinkDefault => try_shrink s false
            end);
  let '(s, shrunk) := r : InMemoryState.t * bool in
  _ ← modify (fun m => set_state m s);
  let header := InMemoryState.header s in
  old ← lift (DatabaseHeader.secondary_slot header);
  let old_transaction_id := TransactionHeader.transaction_id old in
  header ← lift (DatabaseHeader.set_secondary_slot header (commit_slot old data_root system_root transaction_id));
  _ ← write_header header;
  _ ← (if two_phase then perform Flush else mret tt : M unit);
  let header := DatabaseHeader.set_two_phase_commit (DatabaseHeader.swap_primary_slot header) two_phase in
  _ ← write_header header;
  _ ← perform Flush;
  _ ← (if shrunk then
         l ← lift (DatabaseHeader.layout header);
         n ← lift (DatabaseLayout.len l);
         perform (Resize n)
       else mret tt : M unit);
  _ ← modify (fun m => set_unpersisted m ∅ ∅ ∅);
  s ← gets state;
  now ← lift (DatabaseHeader.secondary_slot (InMemoryState.header s));
  _ ← lift (rassert (TransactionHeader.transaction_id now =? old_transaction_id));
  modify (fun m => set_state m (InMemoryState.mk header (InMemoryState.allocators s) false)).

Definition non_durable_commit (data_root system_root : option BtreeHeader.t) (transaction_id : Z)
    (newly_unpersisted : gset PageNumber.t) : M unit :=
  _ ← require (fun m => bool_decide (open_dirty_pages m = ∅));
  _ ← perform CheckErrors;
  _ ← modify (fun m => set_unpersisted m (unpersisted m ∪ newly_unpersisted) (unpersisted_allocations m)
                         (unpersisted_allocation_txn m));
  _ ← perform WriteBarrier;
  s ← gets state;
  old ← lift (DatabaseHeader.secondary_slot (InMemoryState.header s));
  h ← lift (DatabaseHeader.set_secondary_slot (InMemoryState.header s) (commit_slot old data_root system_root transaction_id));
  modify (fun m => set_state m (InMemoryState.mk h (InMemoryState.allocators s) true)).

(** ** Queries *)

Definition get_data_root (m : t) : outcome (option BtreeHeader.t) :=
  s ← InMemoryState.latest_slot (state m); Ret (TransactionHeader.user_root s).
Definition get_system_root (m : t) : outcome (option BtreeHeader.t) :=
  s ← InMemoryState.latest_slot (state m); Ret (TransactionHeader.system_root s).
Definition get_last_committed_transaction_id (m : t) : outcome Z :=
  s ← InMemoryState.latest_slot (state m); Ret (TransactionHeader.transaction_id s).
Definition get_last_durable_transaction_id (m : t) : outcome Z :=
  s ← DatabaseHeader.primary_slot (InMemoryState.header (state m)); Ret (TransactionHeader.transaction_id s).

(** [count_allocated_pages] and [count_free_pages] *)
Definition count_pages (count : BuddyAllocator.t -> outcome Z) (m : t) : outcome Z :=
  l ← DatabaseHeader.layout (InMemoryState.header (state m));
  n ← DatabaseLayout.num_regions l;
  for_each (fun i c => b ← InMemoryState.get_region (state m) i; k ← count b; uadd 64 c k) (seqZ 0 n) 0.
Definition count_allocated_pages : t -> outcome Z := count_pages BuddyAllocator.count_allocated_pages.
Definition count_free_pages : t -> outcome Z := count_pages BuddyAllocator.count_free_pages.

Definition flush_shutdown_header : M unit := fun m =>
  (* an I/O failure of the check or of the first flush skips the rest *)
  match perform CheckErrors m with
  | Ret (m, Okay _) =>
      match perform Flush m with
      | Ret (m, Okay _) =>
          (let s := state m in
           let h := DatabaseHeader.set_recovery_required (InMemoryState.header s) false in
           _ ← modify (fun m => set_state m (InMemoryState.set_header s h));
           _ ← write_header h;
           perform Flush) m
      | Ret (m, Err _) => Ret (m, Okay tt)
      | Panic => Panic
      end
  | Ret (m, Err _) => Ret (m, Okay tt)
  | Panic => Panic
  end.

End io.

End TransactionalMemory.

(** ** The allocator of a write transaction *)
Module PageAllocator.

Import TransactionalMemory.

Section io.
  Context (io : list event -> event -> bool).

(** The policy and the pages allocated since the last commit; the memory is shared. *)
Record t := mk { policy : AllocationPolicy; allocated_since_commit : PageTrackerPolicy.t }.

Definition new (p : AllocationPolicy) : t := mk p PageTrackerPolicy.new_tracking.

Definition take_allocated_since_commit (a : t) : outcome (t * gset PageNumber.t) :=
  r ← PageTrackerPolicy.reset (allocated_since_commit a);
  Ret (mk (policy a) r.1, r.2).

(** The allocator, the page and the tracker of the caller *)
Definition alloc_with (lowest : bool) (a : t) (size : Z) (allocated : PageTrackerPolicy.t)
    : M (t * PageNumber.t * PageTrackerPolicy.t) :=
  r ← TransactionalMemory.allocate io lowest size allocated;
  tr ← lift (PageTrackerPolicy.insert (allocated_since_commit a) r.1);
  mret (mk (policy a) tr, r.1, r.2).
Definition allocate (a : t) (size : Z) (allocated : PageTrackerPolicy.t) : M (t * PageNumber.t * PageTrackerPolicy.t) :=
  alloc_with (match policy a with AllocDefault => false | AllocLowest => true end) a size allocated.
Definition allocate_lowest : t -> Z -> PageTrackerPolicy.t -> M (t * PageNumber.t * PageTrackerPolicy.t) := alloc_with true.

Definition free (a : t) (page : PageNumber.t) (allocated : PageTrackerPolicy.t) : M (t * PageTrackerPolicy.t) :=
  r ← lift (PageTrackerPolicy.remove_if_present (allocated_since_commit a) page);
  tr ← TransactionalMemory.free page allocated;
  mret (mk (policy a) r.1, tr).

Definition free_if_uncommitted (a : t) (page : PageNumber.t) (allocated : PageTrackerPolicy.t)
    : M (t * PageTrackerPolicy.t * bool) :=
  r ← lift (PageTrackerPolicy.remove_if_present (allocated_since_commit a) page);
  let a' := mk (policy a) r.1 in
  if r.2 : bool then tr ← TransactionalMemory.free page allocated; mret (a', tr, true)
  else mret (a', allocated, false).

Definition uncommitted (a : t) (page : PageNumber.t) : outcome bool :=
  PageTrackerPolicy.contains (allocated_since_commit a) page.

(** The loop of [rollback_all] *)
Fixpoint free_all (pages : list PageNumber.t) : M unit :=
  match pages with
  | [] => mret tt
  | p :: rest => _ ← TransactionalMemory.free p PageTrackerPolicy.Ignore; free_all rest
  end.
Definition rollback_all (a : t) : M t :=
  _ ← require (fun m => bool_decide (open_dirty_pages m = ∅));
  r ← lift (take_allocated_since_commit a);
  _ ← free_all (elements r.2);
  mret r.1.

End io.

End PageAllocator.

(** * Allocating a block in some region *)

Import Allocators (region_tracker, region_allocators).
Import PageNumber (region, page_index, page_order).

(** Page [q] of region [r] is one of the pages of [p]. *)
Definition covers (p : PageNumber.t) (r : nat) (q : Z) : Prop :=
  region p = Z.of_nat r /\ q / 2 ^ page_order p = page_index p.

(** [p] is a free block of the allocators [a]; [a'] is [a] without it. *)
Definition block_in (a : Allocators.t) (p : PageNumber.t) : Prop :=
  exists b, region_allocators a !! Z.to_nat (region p) = Some b /\ 0 <= region p /\
    0 <= page_order p <= BuddyAllocator.max_order b /\ 0 <= page_index p < BuddyAllocator.len b / 2 ^ page_order p /\
    forall q, q / 2 ^ page_order p = page_index p -> pfree (fa b) q.

(** The pages of [a'] that are free are those of [P]; the regions are the same. *)
Definition free_pages_are (a a' : Allocators.t) (P : nat -> Z -> Prop) : Prop :=
  length (region_allocators a') = length (region_allocators a) /\
  forall i b, region_allocators a !! i = Some b -> exists b', region_allocators a' !! i = Some b' /\
    BuddyAllocator.len b' = BuddyAllocator.len b /\ BuddyAllocator.max_order b' = BuddyAllocator.max_order b /\
    forall q, pfree (fa b') q <-> P i q.

Definition is_free (a : Allocators.t) (i : nat) (q : Z) : Prop :=
  exists b, region_allocators a !! i = Some b /\ pfree (fa b) q.

Section retry.
  Context (K cap n order : Z) (lowest : bool).
  Context (Horder : 0 <= order <= MAX_MAX_PAGE_ORDER).

Definition alloc_in (b : BuddyAllocator.t) : outcome (BuddyAllocator.t * option Z) :=
  if lowest then BuddyAllocator.alloc_lowest b order else BuddyAllocator.alloc b order.

Lemma alloc_in_spec m b :
  bud_ok cap m b ->
  exists b' r, alloc_in b = Ret (b', r) /\
    match r with
    | None => b' = b /\ forall o p, order <= o -> fa b o p = false
    | Some x => order <= BuddyAllocator.max_order b /\ 0 <= x < m / 2 ^ order /\
        (forall q, q / 2 ^ order = x -> pfree (fa b) q) /\
        steps_to cap m b b' (fun q => pfree (fa b) q /\ q / 2 ^ order <> x)
    end.
Proof.
  intros Hb. unfold alloc_in. destruct lowest.
  - destruct (alloc_lowest_spec cap m b order Hb ltac:(lia)) as (b' & r & Hrun & Hr). exists b', r. split; [done|].
    destruct r; [|done]. destruct Hr as (? & ? & ? & ? & ?). done.
  - destruct (alloc_inner_spec cap m b order Hb ltac:(lia)) as (b' & r & Hrun & Hr). exists b', r. split; [done|].
    destruct r; [|done]. destruct Hr as (? & ? & ? & ? & ?). done.
Qed.

(** The page that a successful allocation in region [i] names. *)
Lemma page_new_ok i x b :
  0 <= i < MAX_REGIONS -> cap <= MAX_PAGE_INDEX + 1 -> bud_ok cap (BuddyAllocator.len b) b -> 0 <= x < BuddyAllocator.len b / 2 ^ order ->
  PageNumber.new i x order = Ret (PageNumber.mk i x order) /\ page_wf (PageNumber.mk i x order).
Proof.
  intros Hi Hc [Hb _] Hx. pose proof (bo_cap _ _ _ Hb) as [Hlen _]. change (MAX_PAGE_INDEX + 1) with (2 ^ 20) in *.
  change MAX_REGIONS with (2 ^ 20) in *. change MAX_MAX_PAGE_ORDER with 20 in *.
  assert (0 < 2 ^ order) by (apply Z.pow_pos_nonneg; lia).
  assert ((x + 1) * 2 ^ order <= BuddyAllocator.len b).
  { pose proof (Z.mul_div_le (BuddyAllocator.len b) (2 ^ order) ltac:(lia)). nia. }
  assert (x + 1 <= (x + 1) * 2 ^ order) by nia.
  unfold PageNumber.new. change MAX_PAGE_INDEX with 1048575. change MAX_MAX_PAGE_ORDER with 20. osteps. split; [done|].
  unfold page_wf. cbn. change (MAX_PAGE_INDEX + 1) with (2 ^ 20). change MAX_REGIONS with (2 ^ 20). change MAX_MAX_PAGE_ORDER with 20. lia.
Qed.

(** The outcome of the loop, for allocators [a] *)
Definition retry_post (a a' : Allocators.t) (r : option PageNumber.t) : Prop :=
  match r with
  | Some p => page_order p = order /\ page_wf p /\ block_in a p /\
      free_pages_are a a' (fun i q => is_free a i q /\ ~ covers p i q)
  | None => region_allocators a' = region_allocators a /\
      forall i b o p, region_allocators a !! i = Some b -> may_free (region_tracker a) order (Z.of_nat i) = true ->
        order <= o -> fa b o p = false
  end.

Lemma take_in_region a i b b' x :
  alloc_ok K cap n a -> 0 <= i -> region_allocators a !! Z.to_nat i = Some b -> 
  order <= BuddyAllocator.max_order b -> 0 <= x < BuddyAllocator.len b / 2 ^ order ->
  (forall q, q / 2 ^ order = x -> pfree (fa b) q) ->
  steps_to cap (BuddyAllocator.len b) b b' (fun q => pfree (fa b) q /\ q / 2 ^ order <> x) ->
  let a' := Allocators.mk (region_tracker a) (<[Z.to_nat i := b']> (region_allocators a)) in
  let p := PageNumber.mk i x order in
  PageNumber.new i x order = Ret p /\ alloc_ok K cap n a' /\ retry_post a a' (Some p).
Proof.
  intros Ha Hi Hb Ho Hx Hfree (Hok & [Hl Hmo] & Hq) a' p. pose proof (ao_buddy _ _ _ _ Ha _ _ Hb) as (Hbo & Hbm & Hbl).
  pose proof (lookup_lt_Some _ _ _ Hb) as Hlt. pose proof (ao_regions _ _ _ _ Ha) as Hrn. pose proof (to_range _ _ _ (ao_tracker _ _ _ _ Ha)) as Hn.
  destruct (page_new_ok i x b) as [-> Hwf]; [unfold vlen in Hrn; lia|apply (ao_cap _ _ _ _ Ha)|done|done|].
  split; [done|]. split.
  - apply (alloc_ok_subset K cap n a (Z.to_nat i) b b' Ha Hb).
    + split; [by rewrite Hl|]. split; [congruence|lia].
    + intros q Hq'. by apply Hq in Hq' as [? _].
  - split; [done|]. split; [done|]. split.
    + exists b. unfold p. cbn. split; [done|]. split; [done|]. split; [lia|]. done.
    + split; [unfold a'; cbn; by rewrite length_insert|]. intros j b0 Hj. unfold a', p, covers, is_free. cbn.
      destruct (decide (j = Z.to_nat i)) as [->|Hne].
      * exists b'. rewrite Hb in Hj. injection Hj as <-. rewrite list_lookup_insert_eq by done. split_and!; try done.
        intros q. rewrite Hq, Hb. rewrite Z2Nat.id by lia. split.
        -- intros [Hpf Hqx]. split; [eauto|]. intros [_ ?]. done.
        -- intros [(b1 & [= <-] & Hpf) Hnc]. split; [done|]. intros ?. by apply Hnc.
      * exists b0. rewrite list_lookup_insert_ne by done. split_and!; try done. intros q. split.
        -- intros Hpf. split; [eauto|]. intros [? _]. lia.
        -- intros [(b1 & Hj1 & Hpf) _]. rewrite Hj in Hj1. by injection Hj1 as <-.
Qed.

Lemma retry_loop_ok fuel : forall a,
  alloc_ok K cap n a -> zcount (may_free (region_tracker a) order) 0 (Z.to_nat n) < Z.of_nat fuel ->
  exists a' r, TransactionalMemory.retry_loop fuel a order lowest = Ret (a', r) /\ alloc_ok K cap n a' /\ retry_post a a' r.
Proof.
  induction fuel as [|fuel IH]; intros a Ha Hfuel.
  { pose proof (zcount_bounds (may_free (region_tracker a) order) 0 (Z.to_nat n)). lia. }
  cbn [TransactionalMemory.retry_loop]. pose proof (ao_tracker _ _ _ _ Ha) as Htr.
  destruct (find_free_ok _ _ _ order Htr ltac:(lia)) as (c & -> & Hc). cbn [mbind outcome_bind].
  destruct c as [i|].
  2:{ exists a, None. split; [done|]. split; [done|]. split; [done|]. intros i b o p _ Hm. rewrite Hc in Hm by lia. done. }
  destruct Hc as (Hi & Hmay & _).
  assert (Hiv : i < vlen (region_allocators a)).
  { destruct (Z.lt_ge_cases i (vlen (region_allocators a))) as [|Hge]; [done|].
    rewrite (ao_absent _ _ _ _ Ha) in Hmay by lia. done. }
  destruct (vget_is_Ret (region_allocators a) i ltac:(lia)) as (b & -> & Hb). cbn [mbind outcome_bind].
  pose proof (ao_buddy _ _ _ _ Ha _ _ Hb) as (Hbo & _).
  fold (alloc_in b). destruct (alloc_in_spec _ b Hbo) as (b' & r & -> & Hr). cbn [mbind outcome_bind fst snd].
  unfold InMemoryState.set_region at 1. rewrite vset_ok by lia. cbn [mbind outcome_bind].
  destruct r as [x|].
  - destruct Hr as (Ho & Hx & Hfree & Hst).
    destruct (take_in_region a i b b' x Ha ltac:(lia) Hb Ho Hx Hfree Hst) as (-> & Ha' & Hpost). cbn [mbind outcome_bind].
    eexists _, _. split; [done|]. split; [done|]. exact Hpost.
  - destruct Hr as (-> & Hnone). cbn [region_tracker region_allocators]. rewrite list_insert_id by done.
    destruct (mark_full_ok _ _ _ order i Htr ltac:(lia) ltac:(lia)) as (tr & -> & Htr' & Hm). cbn [mbind outcome_bind].
    assert (Ha1 : alloc_ok K cap n (Allocators.mk tr (region_allocators a))) by (by eapply alloc_ok_full; try done; lia).
    destruct (IH _ Ha1) as (a' & r & -> & Ha' & Hpost).
    { cbn [region_tracker]. rewrite (zcount_drop _ (may_free tr order) 0 (Z.to_nat n) i) in Hfuel; [lia|lia|done| |].
      - rewrite Hm by lia. rewrite Z.leb_refl, Z.eqb_refl. done.
      - intros j Hj Hji. rewrite Hm by lia. rewrite (proj2 (Z.eqb_neq j i)) by done. by rewrite andb_false_r. }
    exists a', r. split; [done|]. split; [done|]. destruct r as [p|]; [exact Hpost|].
    destruct Hpost as [Heq Hno]. split; [done|]. intros j b0 o p Hj Hmj Ho. destruct (decide (Z.of_nat j = i)) as [<-|Hne].
    + rewrite Nat2Z.id in Hb. rewrite Hb in Hj. injection Hj as <-. by apply Hnone.
    + apply (Hno j b0 o p Hj); [|done]. cbn. rewrite Hm, Hmj by lia. rewrite (proj2 (Z.eqb_neq _ _)) by done.
      by rewrite andb_false_r.
Qed.

End retry.

(** * The heap of allocated pages *)

Definition owned (A : gset PageNumber.t) (i : nat) (q : Z) : Prop := exists p, p ∈ A /\ covers p i q.

(** The pages of [A] lie in the regions of [a] and share no page, and the pages that
    no member of [A] covers are exactly the free ones. *)
Record heap_ok (A : gset PageNumber.t) (a : Allocators.t) : Prop := {
  hp_wf : forall p, p ∈ A -> page_wf p /\ exists b, region_allocators a !! Z.to_nat (region p) = Some b /\
    page_order p <= BuddyAllocator.max_order b /\ page_index p < BuddyAllocator.len b / 2 ^ page_order p;
  hp_exact : forall i b q, region_allocators a !! i = Some b -> 0 <= q < BuddyAllocator.len b ->
    pfree (fa b) q <-> ~ owned A i q;
  hp_apart : forall p p' i q, p ∈ A -> p' ∈ A -> covers p i q -> covers p' i q -> p = p' }.

Lemma covers_first p : page_wf p -> covers p (Z.to_nat (region p)) (page_index p * 2 ^ page_order p).
Proof. intros (Hr & Ho & _). split; [lia|]. apply block_first; lia. Qed.

Lemma block_in_range (b : BuddyAllocator.t) o x q :
  0 <= o -> 0 <= x < BuddyAllocator.len b / 2 ^ o -> q / 2 ^ o = x -> 0 <= q < BuddyAllocator.len b.
Proof.
  intros Ho Hx Hq. apply block_pages in Hq; [|done]. assert (0 < 2 ^ o) by (apply Z.pow_pos_nonneg; lia).
  pose proof (Z.mul_div_le (BuddyAllocator.len b) (2 ^ o) ltac:(lia)). nia.
Qed.

Lemma heap_alloc A a a' p :
  heap_ok A a -> page_wf p -> block_in a p ->
  free_pages_are a a' (fun i q => is_free a i q /\ ~ covers p i q) ->
  p ∉ A /\ heap_ok ({[p]} ∪ A) a' /\ forall p', p' ∈ A -> no_overlap p p'.
Proof.
  intros [Hwf Hex Hap] Hp (b & Hb & Hr & Ho & Hx & Hfree) [Hlen Hfp].
  assert (Hcov : forall p' i q, p' ∈ A -> covers p i q -> covers p' i q -> False).
  { intros p' i q Hp' [Hri Hq] Hc'. rewrite Hri, Nat2Z.id in Hb.
    apply (Hex i b q Hb); [by eapply block_in_range; [|exact Hx|]; [lia|]|by apply Hfree|]. by exists p'. }
  assert (HpA : p ∉ A) by (intros Hin; eapply Hcov; [done|by apply covers_first..]).
  split; [done|]. split; [split|].
  - intros p' [->%elem_of_singleton|Hp']%elem_of_union; (split; [done || by apply Hwf|]).
    + destruct (Hfp _ _ Hb) as (b' & Hb' & Hl & Hm & _). exists b'. rewrite Hl, Hm. split_and!; try done; lia.
    + destruct (Hwf p' Hp') as (_ & b0 & Hb0 & Ho0 & Hx0). destruct (Hfp _ _ Hb0) as (b' & Hb' & Hl & Hm & _).
      exists b'. rewrite Hl, Hm. done.
  - intros i b' q Hb' Hq. destruct (lookup_lt_is_Some_2 (region_allocators a) i) as [b0 Hb0];
      [apply lookup_lt_Some in Hb'; lia|].
    destruct (Hfp _ _ Hb0) as (b1 & Hb1 & Hl & _ & Hq1). rewrite Hb' in Hb1. injection Hb1 as <-. rewrite Hl in Hq.
    rewrite Hq1. unfold is_free. split.
    + intros [(b1 & Hb1 & Hpf) Hnc] (p' & [->%elem_of_singleton|Hp']%elem_of_union & Hc); [done|].
      rewrite Hb0 in Hb1. injection Hb1 as <-. apply (Hex i b0 q Hb0 Hq) in Hpf. apply Hpf. by exists p'.
    + intros Hno. split.
      * exists b0. split; [done|]. apply (Hex i b0 q Hb0 Hq). intros (p' & Hp' & Hc). apply Hno. exists p'. set_solver.
      * intros Hc. apply Hno. exists p. set_solver.
  - intros p1 p2 i q [->%elem_of_singleton|H1]%elem_of_union [->%elem_of_singleton|H2]%elem_of_union Hc1 Hc2;
      [done|by destruct (Hcov p2 i q)|by destruct (Hcov p1 i q)|by apply (Hap p1 p2 i q)].
  - intros p' Hp'. destruct (decide (region p = region p')) as [Hreq|]; [|by left]. right. intros x Hx1 Hx2.
    apply (Hcov p' (Z.to_nat (region p)) x Hp'); (split; [lia|done]).
Qed.

Lemma heap_free A a a' p :
  heap_ok A a -> p ∈ A -> free_pages_are a a' (fun i q => is_free a i q \/ covers p i q) -> heap_ok (A ∖ {[p]}) a'.
Proof.
  intros [Hwf Hex Hap] Hp [Hlen Hfp]. split.
  - intros p' [Hp' _]%elem_of_difference. destruct (Hwf p' Hp') as (? & b0 & Hb0 & Ho0 & Hx0). split; [done|].
    destruct (Hfp _ _ Hb0) as (b' & Hb' & Hl & Hm & _). exists b'. by rewrite Hl, Hm.
  - intros i b' q Hb' Hq. destruct (lookup_lt_is_Some_2 (region_allocators a) i) as [b0 Hb0];
      [apply lookup_lt_Some in Hb'; lia|].
    destruct (Hfp _ _ Hb0) as (b1 & Hb1 & Hl & _ & Hq1). rewrite Hb' in Hb1. injection Hb1 as <-. rewrite Hl in Hq.
    rewrite Hq1. unfold is_free. split.
    + intros [(b1 & Hb1 & Hpf)|Hc] (p' & [Hp' Hne%not_elem_of_singleton]%elem_of_difference & Hc').
      * rewrite Hb0 in Hb1. injection Hb1 as <-. apply (Hex i b0 q Hb0 Hq) in Hpf. apply Hpf. by exists p'.
      * by apply Hne, (Hap p' p i q).
    + intros Hno. destruct (decide (region p = Z.of_nat i /\ q / 2 ^ page_order p = page_index p)) as [Hc|Hnc]; [by right|].
      left. exists b0. split; [done|]. apply (Hex i b0 q Hb0 Hq). intros (p' & Hp' & Hc'). apply Hno. exists p'. split; [|done].
      apply elem_of_difference. split; [done|]. intros ->%elem_of_singleton. by apply Hnc.
  - intros p1 p2 i q [H1 _]%elem_of_difference [H2 _]%elem_of_difference. by apply (Hap p1 p2 i q).
Qed.

(** A page of the heap is not free. *)
Lemma heap_owned_taken A a p i b q :
  heap_ok A a -> p ∈ A -> covers p i q -> region_allocators a !! i = Some b ->
  0 <= q < BuddyAllocator.len b /\ ~ pfree (fa b) q.
Proof.
  intros [Hwf Hex _] Hp [Hr Hq] Hb. destruct (Hwf p Hp) as ((_ & Ho & Hx & _) & b0 & Hb0 & Ho0 & Hx0).
  rewrite Hr, Nat2Z.id in Hb0. rewrite Hb in Hb0. injection Hb0 as <-.
  assert (0 <= q < BuddyAllocator.len b) as Hqr by (eapply block_in_range; [|split; [exact Hx|exact Hx0]|done]; lia).
  split; [done|]. intros Hpf. apply (Hex i b q Hb Hqr) in Hpf. apply Hpf. exists p. by split.
Qed.

Lemma heap_grow K cap n n' A a a' l :
  heap_ok A a -> alloc_ok K cap n a -> alloc_ok K cap n' a' -> grown_to a a' l (regions_of l) ->
  vlen (region_allocators a) <= regions_of l -> heap_ok A a'.
Proof.
  intros Hh Ha Ha' (Hvl & Hold & Hfresh & _) Hle. pose proof Hh as [Hwf Hex Hap].
  assert (Hpair : forall i b, region_allocators a !! i = Some b -> exists b', region_allocators a' !! i = Some b' /\
    BuddyAllocator.max_order b' = BuddyAllocator.max_order b /\ BuddyAllocator.len b <= BuddyAllocator.len b' /\
    forall q, pfree (fa b') q <-> pfree (fa b) q \/ BuddyAllocator.len b <= q < BuddyAllocator.len b').
  { intros i b Hb. destruct (Hold i b Hb) as (b' & Hb' & Hc). apply lookup_lt_Some in Hb as Hlt. unfold vlen in *.
    rewrite (proj2 (Z.ltb_lt _ _)) in Hc by lia. destruct Hc as (r & _ & Hlen & Hlb & Hq). exists b'. rewrite Hlen. split_and!; try done.
    destruct (ao_buddy _ _ _ _ Ha _ _ Hb) as (_ & -> & _). by destruct (ao_buddy _ _ _ _ Ha' _ _ Hb') as (_ & -> & _). }
  split; [|intros i b' q Hb' Hq|done].
  - intros p Hp. destruct (Hwf p Hp) as (Hpw & b & Hb & Ho & Hx). split; [done|].
    destruct (Hpair _ _ Hb) as (b' & Hb' & Hm & Hl & _). exists b'. rewrite Hm. split_and!; try done.
    destruct Hpw as (_ & Ho0 & _). eapply Z.lt_le_trans; [exact Hx|]. apply Z.div_le_mono; [|done]. apply Z.pow_pos_nonneg; lia.
  - destruct (region_allocators a !! i) as [b|] eqn:Hb.
    + destruct (Hpair i b Hb) as (b1 & Hb1 & _ & Hl & Hq1). rewrite Hb' in Hb1. injection Hb1 as <-. rewrite Hq1. split.
      * intros [Hpf|Hnew] (p & Hp & Hc); destruct (heap_owned_taken A a p i b q Hh Hp Hc Hb); [done|lia].
      * intros Hno. destruct (Z.lt_ge_cases q (BuddyAllocator.len b)); [|right; lia]. left. apply (Hex i b q Hb); [lia|done].
    + apply lookup_ge_None in Hb as Hge. destruct (Hfresh i b' Hb') as (r & _ & Hlen & Hall); [unfold vlen; lia|].
      rewrite Hall, <-Hlen. split; [|done]. intros _ (p & Hp & [Hr _]). destruct (Hwf p Hp) as (_ & b & Hbp & _).
      rewrite Hr, Nat2Z.id in Hbp. congruence.
Qed.

(** Dropping free pages: [a'] keeps the first regions of [a], all but the last of them
    unchanged, and what it drops was free. *)
Lemma heap_shrink A a a' :
  heap_ok A a ->
  (forall i b', region_allocators a' !! i = Some b' -> exists b, region_allocators a !! i = Some b /\
    BuddyAllocator.max_order b' = BuddyAllocator.max_order b /\ BuddyAllocator.len b' <= BuddyAllocator.len b /\
    (forall q, pfree (fa b') q <-> pfree (fa b) q /\ q < BuddyAllocator.len b') /\
    forall q, BuddyAllocator.len b' <= q < BuddyAllocator.len b -> pfree (fa b) q) ->
  (forall i b q, region_allocators a !! i = Some b -> region_allocators a' !! i = None -> 0 <= q < BuddyAllocator.len b -> pfree (fa b) q) ->
  heap_ok A a'.
Proof.
  intros Hh Hkept Hdropped. pose proof Hh as [Hwf Hex Hap]. split; [|intros i b' q Hb' Hq|done].
  - intros p Hp. destruct (Hwf p Hp) as (Hpw & b & Hb & Ho & Hx). split; [done|]. destruct Hpw as (Hr & Ho0 & Hx0 & _).
    set (last := (page_index p + 1) * 2 ^ page_order p - 1).
    assert (Hpos : 0 < 2 ^ page_order p) by (apply Z.pow_pos_nonneg; lia).
    assert (Hc : covers p (Z.to_nat (region p)) last) by (split; [lia|apply block_pages; unfold last; nia]).
    destruct (heap_owned_taken A a p _ b last Hh Hp Hc Hb) as [Hrange Htaken].
    destruct (region_allocators a' !! Z.to_nat (region p)) as [b'|] eqn:Hb'.
    2:{ exfalso. by apply Htaken, (Hdropped _ b last Hb Hb'). }
    destruct (Hkept _ _ Hb') as (b0 & Hb0 & Hm & Hl & _ & Hfree). rewrite Hb in Hb0. injection Hb0 as <-.
    exists b'. rewrite Hm. split_and!; try done.
    destruct (Z.lt_ge_cases last (BuddyAllocator.len b')) as [Hlt|Hge]; [|exfalso; apply Htaken, Hfree; lia].
    apply Z.lt_le_trans with (page_index p + 1); [lia|]. apply Z.div_le_lower_bound; [done|]. unfold last in Hlt. lia.
  - destruct (Hkept i b' Hb') as (b & Hb & _ & Hl & Hq' & _). rewrite Hq'. rewrite (Hex i b q Hb) by lia. intuition lia.
Qed.

(** * Growing *)

(** A layout by its total number of pages [T]: every region but the last is full. *)
Definition regions_for (cap T R : Z) : Prop := (R - 1) * cap < T <= R * cap.
Definition pages_at (cap T i : Z) : Z := Z.min cap (T - i * cap).

Lemma mk_layout_regions cap rh ps q n :
  0 < cap -> 0 <= q -> 0 <= n <= cap -> 0 < q * cap + n ->
  regions_for cap (q * cap + n) (regions_of (mk_layout cap rh ps q n)) /\ 0 < regions_of (mk_layout cap rh ps q n).
Proof.
  intros Hc Hq Hn HT. rewrite regions_of_mk by lia. unfold regions_for. destruct (Z.ltb_spec 0 n).
  - lia.
  - assert (n = 0) as -> by lia. assert (0 < q) by nia. lia.
Qed.

Lemma mk_layout_pages cap rh ps q n i r :
  layout_ok (mk_layout cap rh ps q n) -> 0 <= n -> 0 <= i < regions_of (mk_layout cap rh ps q n) ->
  DatabaseLayout.region_layout (mk_layout cap rh ps q n) i = Ret r ->
  RegionLayout.num_pages r = pages_at cap (q * cap + n) i.
Proof.
  intros Hl Hn Hi Hr. destruct (region_layout_ok _ Hl i Hi) as (r' & Hr' & Hc). rewrite Hr in Hr'. injection Hr' as <-.
  pose proof (lo_full _ Hl) as (Hf & _). cbn in Hf. unfold pages_at. destruct Hc as [[-> Ht]|[Hlt ->]]; cbn in *.
  - destruct (Z.eqb_spec n 0); [done|]. pose proof (lo_trailing _ Hl r) as H. cbn in H. rewrite (proj2 (Z.eqb_neq n 0)) in H by done.
    destruct (H Ht) as (_ & _ & Hle). injection Ht as <-. cbn in *. lia.
  - rewrite Z.min_l; [done|]. nia.
Qed.

(** The allocators [a] have the sizes of a layout of [T] pages. *)
Definition lens_ok (cap T : Z) (a : Allocators.t) : Prop :=
  regions_for cap T (vlen (region_allocators a)) /\
  forall i b, region_allocators a !! i = Some b -> BuddyAllocator.len b = pages_at cap T (Z.of_nat i).

(** Fewer pages need no more regions, and each has no more pages. *)
Lemma regions_for_mono cap T T' R R' :
  0 < cap -> T <= T' -> regions_for cap T R -> regions_for cap T' R' -> R <= R'.
Proof. unfold regions_for. intros. nia. Qed.
Lemma pages_at_mono cap T T' i : T <= T' -> pages_at cap T i <= pages_at cap T' i.
Proof. unfold pages_at. lia. Qed.
Lemma regions_for_unique cap T R R' : 0 < cap -> regions_for cap T R -> regions_for cap T R' -> R = R'.
Proof.
  intros Hc H H'. pose proof (regions_for_mono cap T T R R' Hc ltac:(lia) H H').
  pose proof (regions_for_mono cap T T R' R Hc ltac:(lia) H' H). lia.
Qed.
Lemma pages_at_last cap T R i : regions_for cap T R -> i = R - 1 -> pages_at cap T i = T - (R - 1) * cap.
Proof. unfold regions_for, pages_at. intros H ->. lia. Qed.

Lemma last_pages_mk cap rh ps q n :
  0 <= n -> 0 < q * cap + n -> RegionLayout.num_pages (Allocators.last_layout (mk_layout cap rh ps q n)) =
    q * cap + n - (regions_of (mk_layout cap rh ps q n) - 1) * cap.
Proof.
  intros Hn HT. rewrite regions_of_mk by lia. unfold Allocators.last_layout, mk_layout. cbn.
  destruct (Z.eqb_spec n 0), (Z.ltb_spec 0 n); cbn; lia.
Qed.

(** The direction of a resize compares the numbers of pages. *)
Lemma resize_direction_total cap rh ps q n T a :
  0 < cap -> 0 <= q -> 0 <= n <= cap -> 0 < q * cap + n -> 0 < T -> layout_ok (mk_layout cap rh ps q n) -> lens_ok cap T a ->
  Allocators.resize_direction a (mk_layout cap rh ps q n) =
    Ret (match Z.compare (q * cap + n) T with Lt => Allocators.Shrink | Eq => Allocators.NoOp | Gt => Allocators.Grow end).
Proof.
  intros Hc Hq Hn HT HT0 Hl [HR Hlen]. destruct (mk_layout_regions cap rh ps q n) as [HR' HR0]; [lia..|].
  pose proof (last_pages_mk cap rh ps q n ltac:(lia) HT) as Hlast. set (l := mk_layout cap rh ps q n) in *.
  set (T' := q * cap + n) in *. clearbody T'. unfold regions_for in *.
  unfold Allocators.resize_direction. rewrite num_regions_ok by done. cbn [mbind outcome_bind].
  destruct (Z.compare_spec (regions_of l) (vlen (region_allocators a))) as [E|Hlt|Hgt].
  - destruct (last (region_allocators a)) as [b|] eqn:Elast.
    2:{ apply last_None in Elast. rewrite Elast in E. unfold vlen in E. simpl in E. lia. }
    cbn [unwrap mbind outcome_bind]. rewrite last_lookup in Elast. pose proof (Hlen _ _ Elast) as Hlb.
    rewrite (pages_at_last cap _ _ _ HR) in Hlb by (unfold vlen in *; lia). rewrite Hlast, Hlb, E.
    destruct (Z.compare_spec (T' - (vlen (region_allocators a) - 1) * cap) (T - (vlen (region_allocators a) - 1) * cap)),
      (Z.compare_spec T' T); done || lia.
  - rewrite (proj2 (Z.compare_lt_iff T' T)) by nia. done.
  - rewrite (proj2 (Z.compare_gt_iff T' T)) by nia. done.
Qed.

(** Growing to more pages. *)
Lemma resize_grow_total cap rh ps q n q' n' nn a :
  0 <= n <= cap -> 0 <= n' <= cap -> 0 <= q -> 0 <= q' -> 0 < q * cap + n < q' * cap + n' ->
  layout_ok (mk_layout cap rh ps q' n') -> regions_of (mk_layout cap rh ps q' n') <= MAX_REGIONS ->
  alloc_ok 0 cap nn a -> lens_ok cap (q * cap + n) a ->
  exists a' nn', Allocators.resize_to a (mk_layout cap rh ps q' n') = Ret a' /\ alloc_ok 0 cap nn' a' /\
    lens_ok cap (q' * cap + n') a' /\ grown_to a a' (mk_layout cap rh ps q' n') (regions_of (mk_layout cap rh ps q' n')) /\
    vlen (region_allocators a) <= regions_of (mk_layout cap rh ps q' n').
Proof.
  intros Hn Hn' Hq Hq' HT Hl Hreg Ha [HR Hlen]. set (l := mk_layout cap rh ps q' n') in *.
  pose proof (ao_cap _ _ _ _ Ha) as Hc.
  destruct (mk_layout_regions cap rh ps q' n') as [HR' HR0]; [lia..|]. fold l in HR', HR0.
  assert (Hle : vlen (region_allocators a) <= regions_of l) by (apply (regions_for_mono cap _ _ _ _) with (3 := HR) (4 := HR'); lia).
  assert (Hsize : forall j b r, region_allocators a !! j = Some b -> DatabaseLayout.region_layout l (Z.of_nat j) = Ret r ->
      BuddyAllocator.len b <= RegionLayout.num_pages r).
  { intros j b r Hj Hr. apply lookup_lt_Some in Hj as Hlt. rewrite (Hlen _ _ Hj).
    rewrite (mk_layout_pages cap rh ps q' n' (Z.of_nat j) r Hl) by (done || lia || (fold l; unfold vlen in *; lia)). apply pages_at_mono. lia. }
  assert (Hdir : Allocators.resize_direction a l = Ret Allocators.Grow).
  { unfold l. rewrite (resize_direction_total cap rh ps q' n' (q * cap + n) a) by (done || lia).
    by rewrite (proj2 (Z.compare_gt_iff (q' * cap + n') _)) by lia. }
  destruct (resize_to_grow_ok 0 l cap nn a Hl eq_refl Hreg Ha Hdir Hsize) as (a' & nn' & Hrun & Ha' & Hg).
  exists a', nn'. split; [done|]. split; [done|]. split; [|done]. destruct Hg as (Hvl & Hold & Hfresh & _).
  rewrite Z.max_l in Hvl by lia. split; [by rewrite Hvl|]. intros i b' Hb'. apply lookup_lt_Some in Hb' as Hlt.
  assert (Hr : exists r, DatabaseLayout.region_layout l (Z.of_nat i) = Ret r /\ BuddyAllocator.len b' = RegionLayout.num_pages r).
  { destruct (region_allocators a !! i) as [b|] eqn:Hb.
    - destruct (Hold i b Hb) as (b1 & Hb1 & Hcase). rewrite Hb' in Hb1. injection Hb1 as <-.
      rewrite (proj2 (Z.ltb_lt _ _)) in Hcase by (unfold vlen in *; lia). destruct Hcase as (r & Hr & Hlb & _). by exists r.
    - apply lookup_ge_None in Hb. destruct (Hfresh i b' Hb') as (r & Hr & Hlb & _); [unfold vlen; lia|]. by exists r. }
  destruct Hr as (r & Hr & ->). apply (mk_layout_pages cap rh ps q' n' _ r Hl); [lia|fold l; unfold vlen in *; lia|done].
Qed.

(** The number of pages that [grow] asks for. *)
Definition desired_pages (cap q n o : Z) : Z :=
  if 0 <? q then
    if n =? 0 then (q + 1) * cap else if 2 * 2 ^ o <? cap - n then (q + 1) * cap else (q + 2) * cap
  else Z.max (2 * n) (n + 2 * 2 ^ o).

Lemma order_pages o : 0 <= o <= 20 -> 1 <= 2 ^ o <= 2 ^ 20.
Proof. intros Ho. split; [change 1 with (2 ^ 0)|]; apply Z.pow_le_mono_r; lia. Qed.

Lemma layout_fits_u64 cap rh p q :
  0 < p <= 2 ^ 22 -> 0 < cap <= 2 ^ 20 -> 0 <= rh <= 2 ^ 20 -> 0 <= q <= 2 ^ 20 -> p + (q + 1) * ((rh + cap) * p) < 2 ^ 64.
Proof.
  intros. assert (0 <= (rh + cap) * p <= 2 ^ 21 * 2 ^ 22) by nia.
  assert ((q + 1) * ((rh + cap) * p) <= (2 ^ 20 + 1) * (2 ^ 21 * 2 ^ 22)) by nia. lia.
Qed.

Lemma next_desired_size_ok h cap rh q n o :
  0 < DatabaseHeader.page_size h <= 2 ^ 22 -> 0 < cap <= 2 ^ 20 -> 0 <= rh <= 2 ^ 20 -> 0 <= q <= 2 ^ 20 -> 0 <= n <= cap -> 0 <= o <= 20 ->
  TransactionalMemory.next_desired_size h (mk_layout cap rh (DatabaseHeader.page_size h) q n) o =
    Ret (desired_pages cap q n o * DatabaseHeader.page_size h).
Proof.
  intros Hp Hc Hrh Hq Hn Ho. set (p := DatabaseHeader.page_size h) in *. pose proof (order_pages o Ho) as Ho'.
  destruct (mk_layout_ok cap rh p q n) as [_ Hu]; [lia..|by apply layout_fits_u64|].
  unfold TransactionalMemory.next_desired_size. rewrite (proj2 (Z.ltb_lt (2 ^ o) (2 ^ 64))) by lia. rewrite Hu. fold p.
  assert (0 <= 2 ^ o * p <= 2 ^ 20 * 2 ^ 22) by nia. assert (0 <= cap * p <= 2 ^ 20 * 2 ^ 22) by nia.
  assert (0 <= n * p <= cap * p) by nia. assert (0 <= (q * cap + n) * p <= (2 ^ 20 + 1) * (2 ^ 20 * 2 ^ 22)).
  { replace ((q * cap + n) * p) with (q * (cap * p) + n * p) by ring. nia. }
  unfold mk_layout, desired_pages, RegionLayout.usable_bytes. cbn [DatabaseLayout.full_region_layout DatabaseLayout.num_full_regions DatabaseLayout.trailing_partial_region RegionLayout.num_pages].
  osteps. destruct (Z.ltb_spec 0 q) as [Hq0|Hq0].
  - destruct (Z.eqb_spec n 0) as [->|Hn0]; cbn [RegionLayout.num_pages RegionLayout.page_size]; [osteps; f_equal; ring|].
    assert (Hnp : p * n = n * p) by ring. osteps. rewrite Hnp. osteps.
    assert ((2 * (2 ^ o * p) <? cap * p - n * p) = (2 * 2 ^ o <? cap - n)) as ->.
    { destruct (Z.ltb_spec (2 * 2 ^ o) (cap - n)); [apply Z.ltb_lt|apply Z.ltb_ge]; nia. }
    destruct (2 * 2 ^ o <? cap - n); osteps; f_equal; ring.
  - assert (q = 0) as -> by lia. osteps. f_equal. rewrite <-Z.mul_max_distr_nonneg_r by lia. f_equal; ring.
Qed.

(** It suffices for an aligned block of the order, made of new pages. *)
Lemma desired_pages_block cap k q n o :
  cap = 2 ^ k -> 0 <= o <= k -> 0 <= q -> 0 <= n <= cap -> 0 < q * cap + n ->
  let D := desired_pages cap q n o in
  q * cap + n < D <= (q + 3) * cap /\ (0 < q -> D <= (if n =? 0 then q + 1 else q + 2) * cap) /\
  exists i x, 0 <= i /\ 0 <= x /\ pages_at cap (q * cap + n) i <= x * 2 ^ o /\ (x + 1) * 2 ^ o <= pages_at cap D i.
Proof.
  intros Hk Ho Hq Hn HT D.
  assert (Hpos : 1 <= 2 ^ o) by (change 1 with (2 ^ 0); apply Z.pow_le_mono_r; lia).
  assert (Hcap : cap = 2 ^ (k - o) * 2 ^ o) by (rewrite Hk, <-Z.pow_add_r by lia; f_equal; lia).
  assert (Hb : 1 <= 2 ^ (k - o)) by (change 1 with (2 ^ 0); apply Z.pow_le_mono_r; lia).
  assert (Hoc : 2 ^ o <= cap) by nia. set (m := 2 ^ (k - o)) in *. set (s := 2 ^ o) in *.
  unfold D, desired_pages, pages_at. fold s. clear D Hk. clearbody s m. destruct (Z.ltb_spec 0 q) as [Hq0|Hq0].
  - destruct (Z.eqb_spec n 0) as [->|Hn0].
    + split; [nia|]. split; [lia|]. exists q, 0. nia.
    + destruct (Z.ltb_spec (2 * s) (cap - n)).
      * split; [nia|]. split; [nia|]. exists q, (m - 1). nia.
      * split; [nia|]. split; [lia|]. exists (q + 1), 0. nia.
  - assert (q = 0) as -> by lia. split; [lia|]. split; [lia|]. destruct (Z.le_gt_cases (Z.max (2 * n) (n + 2 * s)) cap) as [Hle|Hgt].
    + exists 0, ((n + s - 1) / s). pose proof (Z.div_mod (n + s - 1) s ltac:(lia)). pose proof (Z.mod_pos_bound (n + s - 1) s ltac:(lia)).
      assert (0 <= (n + s - 1) / s) by (apply Z.div_pos; lia). nia.
    + destruct (Z.le_gt_cases (n + s) cap).
      * exists 0, (m - 1). nia.
      * exists 1, 0. nia.
Qed.

(** * Correctness of the operations on the memory *)

Import TransactionalMemory (M, lift, gets, modify, require, perform, perform_, state, storage, allocated_pages,
  open_dirty_pages, read_page_ref_counts, unpersisted, unpersisted_allocations, unpersisted_allocation_txn).
Import InMemoryState (header, allocators).

(** A computation that does not panic and ends in a state and a result with [Q]. *)
Definition runs {A} (c : M A) (m : TransactionalMemory.t) (Q : TransactionalMemory.t -> result A storage_error -> Prop) : Prop :=
  exists m' r, c m = Ret (m', r) /\ Q m' r.

(** The continuation of a computation: errors end it. *)
Definition on_okay {A B} (k : A -> M B) (Q : TransactionalMemory.t -> result B storage_error -> Prop)
    (m : TransactionalMemory.t) (r : result A storage_error) : Prop :=
  match r with Okay a => runs (k a) m Q | Err e => Q m (Err e) end.

Lemma mem_runs_bind {A B} (m : TransactionalMemory.t) (Q : TransactionalMemory.t -> result B storage_error -> Prop) (c : M A) (k : A -> M B) :
  runs c m (on_okay k Q) -> runs (c ≫= k) m Q.
Proof.
  intros (m' & [a|e] & Hc & Hk); unfold mbind, TransactionalMemory.M_bind, runs; rewrite Hc; [exact Hk|].
  exists m', (Err e). done.
Qed.

(** Some operation of the file fails. *)
Definition io_fails (io : list event -> event -> bool) : Prop := exists done e, io done e = false.

Section runs.
  Context {A B : Type} (m : TransactionalMemory.t) (Q : TransactionalMemory.t -> result B storage_error -> Prop).

Lemma mem_runs_gets (f : TransactionalMemory.t -> A) (k : A -> M B) : runs (k (f m)) m Q -> runs (gets f ≫= k) m Q.
Proof. intros H. apply mem_runs_bind. by exists m, (Okay (f m)). Qed.
Lemma runs_modify f (k : unit -> M B) : runs (k tt) (f m) Q -> runs (modify f ≫= k) m Q.
Proof. intros (m' & r & Hk & HQ). exists m', r. split; [|done]. exact Hk. Qed.
Lemma mem_runs_lift (c : outcome A) (k : A -> M B) a : c = Ret a -> runs (k a) m Q -> runs (lift c ≫= k) m Q.
Proof. intros -> H. apply mem_runs_bind. exists m, (Okay a). done. Qed.
Lemma runs_require f (k : unit -> M B) : f m = true -> runs (k tt) m Q -> runs (require f ≫= k) m Q.
Proof.
  intros Hf (m' & r & Hk & HQ). exists m', r. split; [|done]. unfold mbind, TransactionalMemory.M_bind, require.
  rewrite Hf. exact Hk.
Qed.
Lemma runs_perform io e (k : unit -> M B) :
  runs (k tt) (TransactionalMemory.record m e) Q -> Q (TransactionalMemory.record m e) (Err IoError) ->
  runs (perform io e ≫= k) m Q.
Proof.
  intros Hk HQ. apply mem_runs_bind. eexists _, _. split; [done|]. destruct (io (storage m) e); [exact Hk|exact HQ].
Qed.
Lemma runs_perform_io io e (k : unit -> M B) :
  runs (k tt) (TransactionalMemory.record m e) Q -> (io_fails io -> Q (TransactionalMemory.record m e) (Err IoError)) ->
  runs (perform io e ≫= k) m Q.
Proof.
  intros Hk HQ. apply mem_runs_bind. eexists _, _. split; [done|]. destruct (io (storage m) e) eqn:E; [exact Hk|]. apply HQ. by exists (storage m), e.
Qed.
Lemma runs_perform_ e (k : unit -> M B) :
  runs (k tt) (TransactionalMemory.record m e) Q -> runs (perform_ e ≫= k) m Q.
Proof. apply (runs_modify (fun m => TransactionalMemory.record m e)). Qed.
Lemma mem_runs_ret b : Q m (Okay b) -> runs (mret b) m Q.
Proof. intros H. by exists m, (Okay b). Qed.

End runs.

Lemma runs_modify_last m f (Q : TransactionalMemory.t -> result unit storage_error -> Prop) :
  Q (f m) (Okay tt) -> runs (modify f) m Q.
Proof. intros H. by exists (f m), (Okay tt). Qed.
Lemma runs_perform_last m io e (Q : TransactionalMemory.t -> result unit storage_error -> Prop) :
  (forall r, Q (TransactionalMemory.record m e) r) -> runs (perform io e) m Q.
Proof. intros H. eexists _, _. split; [done|]. apply H. Qed.
Lemma runs_lift_last {A} m (c : outcome A) a (Q : TransactionalMemory.t -> result A storage_error -> Prop) :
  c = Ret a -> Q m (Okay a) -> runs (lift c) m Q.
Proof. intros -> H. by exists m, (Okay a). Qed.
Lemma runs_mono {A} (c : M A) m (Q Q' : TransactionalMemory.t -> result A storage_error -> Prop) :
  runs c m Q -> (forall m' r, Q m' r -> Q' m' r) -> runs c m Q'.
Proof. intros (m' & r & Hc & HQ) H. exists m', r. auto. Qed.

(** One step of a computation on the memory. *)
Ltac mstep :=
  first [ apply mem_runs_gets | apply runs_modify | apply runs_require; [|] | apply runs_perform_
        | apply runs_modify_last | apply mem_runs_ret ]; cbn beta.

(** The file layout of a header, in pages *)
Definition header_pages_total (h : DatabaseHeader.t) : Z :=
  DatabaseHeader.full_regions h * DatabaseHeader.region_max_data_pages h + DatabaseHeader.trailing_partial_region_pages h.

(** The header and its allocators agree. *)
Record state_ok (h : DatabaseHeader.t) (nn : Z) (a : Allocators.t) : Prop := {
  so_header : header_ok h;
  so_page : DatabaseHeader.page_size h <= 2 ^ 22;
  so_pow2 : exists k, 0 <= k <= MAX_MAX_PAGE_ORDER /\ DatabaseHeader.region_max_data_pages h = 2 ^ k;
  so_alloc : alloc_ok 0 (DatabaseHeader.region_max_data_pages h) nn a;
  so_lens : lens_ok (DatabaseHeader.region_max_data_pages h) (header_pages_total h) a }.

(** The invariant of the memory. *)
Record mem_ok (m : TransactionalMemory.t) : Prop := {
  mo_state : exists a nn, allocators (state m) = Some a /\ state_ok (header (state m)) nn a /\ heap_ok (allocated_pages m) a;
  mo_page_size : TransactionalMemory.page_size m = DatabaseHeader.page_size (header (state m));
  mo_region_header : TransactionalMemory.region_header_with_padding_size m =
    DatabaseHeader.region_header_pages (header (state m)) * DatabaseHeader.page_size (header (state m));
  mo_region_size : TransactionalMemory.region_size m =
    (DatabaseHeader.region_header_pages (header (state m)) + DatabaseHeader.region_max_data_pages (header (state m))) *
    DatabaseHeader.page_size (header (state m));
  mo_dirty : open_dirty_pages m ⊆ allocated_pages m;
  mo_refs : dom (read_page_ref_counts m) ⊆ allocated_pages m }.

Lemma header_total_pos h : header_ok h -> 0 < header_pages_total h.
Proof.
  intros [_ (Hp & Hrh & Hc & Ht & Hf & Hr) _]. unfold header_pages_total.
  destruct (Z.ltb_spec 0 (DatabaseHeader.trailing_partial_region_pages h)); nia.
Qed.

Lemma header_regions h :
  header_ok h -> regions_for (DatabaseHeader.region_max_data_pages h) (header_pages_total h) (regions_of (layout_of h)).
Proof.
  intros Hh. pose proof (header_total_pos h Hh). destruct Hh as [_ (Hp & Hrh & Hc & Ht & Hf & Hr) _].
  apply mk_layout_regions; unfold header_pages_total in *; lia.
Qed.

Lemma with_regions_ok h q n :
  header_ok h -> 0 <= q -> 0 <= n <= DatabaseHeader.region_max_data_pages h ->
  0 < regions_of (mk_layout (DatabaseHeader.region_max_data_pages h) (DatabaseHeader.region_header_pages h)
    (DatabaseHeader.page_size h) q n) <= MAX_REGIONS -> header_ok (with_regions h q n).
Proof.
  intros [H1 (Hp & Hrh & Hc & Ht & Hf & Hr) H3] Hq Hn HR. rewrite regions_of_mk in HR by lia.
  split; [done| |done]. unfold fields_ok, with_regions. cbn. lia.
Qed.

Lemma mk_layout_bytes cap rh ps q n :
  0 <= n -> file_bytes (mk_layout cap rh ps q n) =
    ps + regions_of (mk_layout cap rh ps q n) * (rh * ps) + (q * cap + n) * ps.
Proof.
  intros Hn. rewrite regions_of_mk by done. unfold file_bytes, mk_layout, region_bytes. cbn.
  destruct (Z.eqb_spec n 0), (Z.ltb_spec 0 n); subst; cbn; try lia; ring.
Qed.

(** A block of new pages is free after growing, and the tracker knows it. *)
Lemma grown_block cap T D nn nn' a a' l o k i x :
  alloc_ok 0 cap nn a -> alloc_ok 0 cap nn' a' -> lens_ok cap T a -> lens_ok cap D a' -> cap = 2 ^ k -> 0 <= o <= k -> k <= 20 ->
  grown_to a a' l (regions_of l) -> vlen (region_allocators a) <= regions_of l ->
  0 <= i -> 0 <= x -> pages_at cap T i <= x * 2 ^ o -> (x + 1) * 2 ^ o <= pages_at cap D i ->
  exists b o' p, region_allocators a' !! Z.to_nat i = Some b /\ may_free (region_tracker a') o i = true /\
    o <= o' /\ fa b o' p = true.
Proof.
  intros Ha Ha' [HR Hl] [HR' Hl'] Hk Ho Hk20 (Hvl & Hold & Hfresh & Hknow) Hle Hi Hx Hlo Hhi.
  assert (Hpos : 1 <= 2 ^ o) by (change 1 with (2 ^ 0); apply Z.pow_le_mono_r; lia).
  pose proof (ao_cap _ _ _ _ Ha) as Hc. unfold regions_for in HR, HR'.
  assert (Hiv : i < vlen (region_allocators a')) by (unfold pages_at in Hhi; nia).
  destruct (lookup_lt_is_Some_2 (region_allocators a') (Z.to_nat i)) as [b Hb]; [unfold vlen in Hiv; lia|].
  pose proof (Hl' _ _ Hb) as Hlb. rewrite Z2Nat.id in Hlb by done.
  assert (Hfree : forall q, q / 2 ^ o = x -> pfree (fa b) q).
  { intros q Hq. apply block_pages in Hq; [|lia]. destruct (region_allocators a !! Z.to_nat i) as [b0|] eqn:Hb0.
    - destruct (Hold _ _ Hb0) as (b1 & Hb1 & Hcase). rewrite Hb in Hb1. injection Hb1 as <-.
      apply lookup_lt_Some in Hb0 as Hlt. rewrite (proj2 (Z.ltb_lt _ _)) in Hcase by (unfold vlen in *; lia).
      destruct Hcase as (r & _ & Hlen & _ & Hq'). apply Hq'. right. pose proof (Hl _ _ Hb0) as Hl0. rewrite Z2Nat.id in Hl0 by done. nia.
    - apply lookup_ge_None in Hb0. destruct (Hfresh _ _ Hb) as (r & _ & Hlen & Hq'); [unfold vlen; lia|]. apply Hq'. nia. }
  destruct (ao_buddy _ _ _ _ Ha' _ _ Hb) as ([Hbo Hv] & Hm & _).
  destruct (view_cover _ _ _ o x Hv) as (j & Hj & HF); [|done|].
  { split; [lia|]. rewrite Hm, Hk, Z.log2_pow2 by lia. lia. }
  exists b, (o + j), (x / 2 ^ j). split_and!; try done; [|lia].
  pose proof (Hknow (Z.to_nat i) b o (o + j) (x / 2 ^ j) Hb) as H. rewrite Z2Nat.id in H by done. apply H; [lia| |lia|done].
  intros b0 Hb0. rewrite (Hl _ _ Hb0), Hlb, Z2Nat.id by done. nia.
Qed.

(** [a] has a free block of order [o] that the tracker knows. *)
Definition known_block (a : Allocators.t) (o : Z) : Prop :=
  exists i b o' p, region_allocators a !! i = Some b /\ may_free (region_tracker a) o (Z.of_nat i) = true /\
    o <= o' /\ fa b o' p = true.

Lemma grow_layout h nn a o :
  state_ok h nn a -> 0 <= o -> 2 ^ o <= DatabaseHeader.region_max_data_pages h -> regions_of (layout_of h) + 2 <= MAX_REGIONS ->
  exists d q n a' nn',
    let l := mk_layout (DatabaseHeader.region_max_data_pages h) (DatabaseHeader.region_header_pages h) (DatabaseHeader.page_size h) q n in
    TransactionalMemory.next_desired_size h (layout_of h) o = Ret d /\
    DatabaseLayout.calculate d (DatabaseHeader.region_max_data_pages h) (DatabaseHeader.region_header_pages h) (DatabaseHeader.page_size h) = Ret l /\
    DatabaseLayout.len l = Ret (file_bytes l) /\ file_bytes (layout_of h) <= file_bytes l /\
    Allocators.resize_to a l = Ret a' /\ DatabaseHeader.set_layout h l = Ret (with_regions h q n) /\
    state_ok (with_regions h q n) nn' a' /\ (forall A, heap_ok A a -> heap_ok A a') /\ known_block a' o /\
    regions_of (layout_of (with_regions h q n)) <= regions_of (layout_of h) + 2.
Proof.
  intros [Hh Hps (k & Hk & Hcap) Ha Hlens] Ho Hoc Hreg. pose proof (header_total_pos h Hh) as HT0.
  pose proof (ho_fields _ Hh) as (Hp & Hrh & Hc & Ht & Hf & Hr). unfold header_pages_total in *.
  change MAX_MAX_PAGE_ORDER with 20 in *. change MAX_REGIONS with (2 ^ 20) in *. change (MAX_PAGE_INDEX + 1) with (2 ^ 20) in *.
  pose proof (set_layout_ok h) as Hset. unfold layout_of in *. set (cap := DatabaseHeader.region_max_data_pages h) in *.
  set (rh := DatabaseHeader.region_header_pages h) in *. set (ps := DatabaseHeader.page_size h) in *.
  set (q0 := DatabaseHeader.full_regions h) in *. set (n0 := DatabaseHeader.trailing_partial_region_pages h) in *.
  assert (Hq0 : q0 <= 2 ^ 20) by (destruct (0 <? n0); lia).
  assert (Hok : 0 <= o <= k) by (split; [done|]; apply (Z.pow_le_mono_r_iff 2); lia).
  destruct (mk_layout_regions cap rh ps q0 n0) as [HR0 HR0p]; [lia..|].
  destruct (desired_pages_block cap k q0 n0 o Hcap Hok Hf Ht HT0) as (HD & HDq & i & x & Hi & Hx & Hlo & Hhi).
  pose proof (next_desired_size_ok h cap rh q0 n0 o ltac:(fold ps; lia) ltac:(lia) ltac:(lia) ltac:(lia) ltac:(lia) ltac:(lia)) as Hnext.
  fold ps in Hnext. set (D := desired_pages cap q0 n0 o) in *. clearbody D.
  assert (Hq : D / cap <= 2 ^ 20).
  { apply Z.div_le_upper_bound; [lia|]. rewrite regions_of_mk in Hreg by lia.
    destruct (Z.eqb_spec n0 0), (Z.ltb_spec 0 n0), (Z.ltb_spec 0 q0); try nia. }
  assert (D * ps / (cap * ps) = D / cap) as Hdiv by (apply Z.div_mul_cancel_r; lia). assert (0 <= D / cap) by (apply Z.div_pos; lia).
  destruct (layout_calculate_ok (D * ps) cap rh ps) as (q & n & Hcalc & Hqn & Hn & Hpos & HDe); [nia|lia..| | |].
  { rewrite Hdiv. apply layout_fits_u64; lia. }
  { rewrite Hdiv. lia. }
  assert (HDeq : q * cap + n = D) by nia. rewrite Hdiv in Hqn.
  destruct (mk_layout_ok cap rh ps q n) as [Hlok _]; [lia..|apply layout_fits_u64; lia|].
  destruct (mk_layout_regions cap rh ps q n) as [HR HRp]; [lia..|]. rewrite HDeq in HR.
  assert (HRle : regions_of (mk_layout cap rh ps q n) <= 2 ^ 20).
  { apply (regions_for_mono cap D ((2 ^ 20) * cap) _ (2 ^ 20)); [lia| |done|unfold regions_for; lia].
    rewrite regions_of_mk in Hreg by lia. destruct (Z.eqb_spec n0 0), (Z.ltb_spec 0 n0), (Z.ltb_spec 0 q0); nia. }
  destruct (resize_grow_total cap rh ps q0 n0 q n nn a) as (a' & nn' & Hrun & Ha' & Hlens' & Hg & Hle); [lia..|done|exact HRle|done|done|].
  exists (D * ps), q, n, a', nn'. cbn zeta. split; [done|]. split; [done|]. split; [by apply layout_len_ok|]. split.
  { rewrite !mk_layout_bytes by lia. rewrite HDeq.
    pose proof (regions_for_mono cap _ _ _ _ ltac:(lia) (Z.lt_le_incl _ _ (proj1 HD)) HR0 HR).
    repeat apply Z.add_le_mono; [lia|apply Z.mul_le_mono_nonneg_r; [apply Z.mul_nonneg_nonneg; lia|done]|apply Z.mul_le_mono_nonneg_r; lia]. }
  split; [done|]. split; [by apply Hset|]. split; [|split; [|split]].
  - split; [|done|by exists k|done|]; [|unfold header_pages_total; cbn; done].
    apply with_regions_ok; try done; try lia.
  - intros A HA. by eapply heap_grow.
  - destruct (grown_block cap (q0 * cap + n0) D nn nn' a a' (mk_layout cap rh ps q n) o k i x) as (b & o' & p & Hb & Hm & Ho' & HF); try done; try lia.
    { by rewrite <-HDeq. }
    exists (Z.to_nat i), b, o', p. by rewrite Z2Nat.id by done.
  - change (layout_of (with_regions h q n)) with (mk_layout cap rh ps q n).
    set (X := regions_of (mk_layout cap rh ps q0 n0) + 2). apply (regions_for_mono cap D (X * cap) _ X); [lia| |done|unfold regions_for; lia].
    unfold X. rewrite regions_of_mk by lia. destruct (Z.eqb_spec n0 0), (Z.ltb_spec 0 n0), (Z.ltb_spec 0 q0); nia.
Qed.

Lemma trailing_zeros_pow2 n k : 0 <= k < Z.of_nat n -> trailing_zeros n (2 ^ k) = k.
Proof.
  intros Hk. destruct (trailing_zeros_spec n (2 ^ k)) as (Ht & Hz & Ho). set (t := trailing_zeros n (2 ^ k)) in *.
  destruct (Z.lt_trichotomy t k) as [Hlt|[->|Hgt]]; [|done|].
  - specialize (Ho ltac:(lia)). rewrite Z.pow2_bits_eqb in Ho by lia. apply Z.eqb_eq in Ho. lia.
  - specialize (Hz k ltac:(lia)). by rewrite Z.pow2_bits_true in Hz by lia.
Qed.

Lemma ceil_log2_ok x : 1 <= x <= 2 ^ 60 -> ceil_log2 x = Ret (Z.log2_up x).
Proof.
  intros Hx. pose proof (Z.log2_up_nonneg x). pose proof (Z.log2_up_le_mono x (2 ^ 60) ltac:(lia)) as Hle.
  rewrite Z.log2_up_pow2 in Hle by lia. unfold ceil_log2, is_power_of_two. rewrite (proj2 (Z.ltb_lt 0 x)) by lia. cbn [andb].
  destruct (Z.eqb_spec (2 ^ Z.log2 x) x) as [E|E].
  - pose proof (Z.log2_nonneg x). pose proof (Z.log2_le_mono x (2 ^ 60) ltac:(lia)) as Hl. rewrite Z.log2_pow2 in Hl by lia.
    assert (Z.log2_up x = Z.log2 x) as -> by (rewrite <-E at 1; apply Z.log2_up_pow2; lia).
    rewrite <-E at 1. rewrite trailing_zeros_pow2, utry_ok by lia. done.
  - unfold next_power_of_two. rewrite (proj2 (Z.ltb_lt _ _)) by (apply Z.pow_lt_mono_r; lia). cbn [mbind outcome_bind].
    rewrite trailing_zeros_pow2, utry_ok by lia. done.
Qed.

(** The order of a page for a size: the page is large enough, and no larger than a region. *)
Lemma required_order_ok size ps k :
  0 < size -> 0 < ps -> div_ceil size ps <= 2 ^ k -> 0 <= k <= 20 ->
  ceil_log2 (div_ceil size ps) = Ret (Z.log2_up (div_ceil size ps)) /\ 0 <= Z.log2_up (div_ceil size ps) <= k /\
  size <= 2 ^ Z.log2_up (div_ceil size ps) * ps.
Proof.
  intros Hs Hp Hle Hk. destruct (div_ceil_bounds size ps) as (H1 & H2 & H3); [lia..|].
  assert (1 <= div_ceil size ps) by nia. pose proof (order_pages k ltac:(lia)). rewrite ceil_log2_ok by lia. split; [done|].
  split; [split; [apply Z.log2_up_nonneg|]|].
  - pose proof (Z.log2_up_le_mono _ _ Hle) as Hm. by rewrite Z.log2_up_pow2 in Hm by lia.
  - assert (div_ceil size ps <= 2 ^ Z.log2_up (div_ceil size ps)); [|nia].
    destruct (Z.eq_dec (div_ceil size ps) 1) as [->|]; [done|]. apply Z.log2_up_spec. lia.
Qed.

(** What the operations on pages leave alone: everything but the layout in the
    header, the allocators, the allocated and the dirty pages. *)
Record kept (m m' : TransactionalMemory.t) : Prop := {
  kp_header : exists q n, header (state m') = with_regions (header (state m)) q n;
  kp_secondary : InMemoryState.read_from_secondary (state m') = InMemoryState.read_from_secondary (state m);
  kp_unpersisted : unpersisted m' = unpersisted m /\ unpersisted_allocations m' = unpersisted_allocations m /\
    unpersisted_allocation_txn m' = unpersisted_allocation_txn m;
  kp_refs : read_page_ref_counts m' = read_page_ref_counts m;
  kp_sizes : TransactionalMemory.page_size m' = TransactionalMemory.page_size m /\
    TransactionalMemory.region_size m' = TransactionalMemory.region_size m /\
    TransactionalMemory.region_header_with_padding_size m' = TransactionalMemory.region_header_with_padding_size m }.

Lemma with_regions_id h : with_regions h (DatabaseHeader.full_regions h) (DatabaseHeader.trailing_partial_region_pages h) = h.
Proof. by destruct h. Qed.

Lemma kept_same m m' :
  header (state m') = header (state m) -> InMemoryState.read_from_secondary (state m') = InMemoryState.read_from_secondary (state m) ->
  unpersisted m' = unpersisted m /\ unpersisted_allocations m' = unpersisted_allocations m /\
    unpersisted_allocation_txn m' = unpersisted_allocation_txn m ->
  read_page_ref_counts m' = read_page_ref_counts m ->
  TransactionalMemory.page_size m' = TransactionalMemory.page_size m /\
    TransactionalMemory.region_size m' = TransactionalMemory.region_size m /\
    TransactionalMemory.region_header_with_padding_size m' = TransactionalMemory.region_header_with_padding_size m ->
  kept m m'.
Proof. intros Hh. split; [|done..]. rewrite Hh. eexists _, _. symmetry. apply with_regions_id. Qed.

#[global] Instance kept_refl : Reflexive kept.
Proof. intros m. by apply kept_same. Qed.
#[global] Instance kept_trans : Transitive kept.
Proof.
  intros m1 m2 m3 [(q1 & n1 & H1) S1 (U1 & A1 & T1) R1 (P1 & Z1 & W1)] [(q2 & n2 & H2) S2 (U2 & A2 & T2) R2 (P2 & Z2 & W2)].
  split; [|congruence|split_and!; congruence|congruence|split_and!; congruence]. exists q2, n2. rewrite H2, H1. done.
Qed.

(** The invariant with its allocators named *)
Definition mem_at (m : TransactionalMemory.t) (nn : Z) (a : Allocators.t) : Prop :=
  mem_ok m /\ allocators (state m) = Some a /\ state_ok (header (state m)) nn a /\ heap_ok (allocated_pages m) a.

Lemma mem_at_intro m : mem_ok m -> exists nn a, mem_at m nn a.
Proof. intros Hm. destruct (mo_state _ Hm) as (a & nn & ? & ? & ?). by exists nn, a. Qed.

(** New allocators for a header that changes its layout at most. *)
Lemma mem_at_update m m' nn' a' :
  mem_ok m -> kept m m' -> allocators (state m') = Some a' -> state_ok (header (state m')) nn' a' ->
  heap_ok (allocated_pages m') a' -> open_dirty_pages m' ⊆ allocated_pages m' -> allocated_pages m ⊆ allocated_pages m' ->
  mem_at m' nn' a'.
Proof.
  intros Hm [(q & n & Hh) Hs Hu Hr (Hp & Hz & Hw)] Hal Hst Hheap Hd Hsub. split; [|done]. destruct Hm. split; try done.
  - exists a', nn'. done.
  - rewrite Hp, Hh. done.
  - rewrite Hw, Hh. done.
  - rewrite Hz, Hh. done.
  - rewrite Hr. set_solver.
Qed.

(** An allocation adds two regions at most. *)
Definition grows (m m' : TransactionalMemory.t) : Prop :=
  regions_of (layout_of (header (state m'))) <= regions_of (layout_of (header (state m))) + 2.
Lemma grows_same m m' : header (state m') = header (state m) -> grows m m'.
Proof. unfold grows. intros ->. lia. Qed.

Lemma grow_runs io m nn a o :
  mem_at m nn a -> 0 <= o -> 2 ^ o <= DatabaseHeader.region_max_data_pages (header (state m)) ->
  regions_of (layout_of (header (state m))) + 2 <= MAX_REGIONS ->
  runs (TransactionalMemory.grow io o) m (fun m' r =>
    kept m m' /\ allocated_pages m' = allocated_pages m /\ open_dirty_pages m' = open_dirty_pages m /\ grows m m' /\
    match r with
    | Okay _ => exists nn' a', mem_at m' nn' a' /\ known_block a' o
    | Err _ => mem_at m' nn a /\ io_fails io
    end).
Proof.
  intros (Hm & Hal & Hst & Hheap) Ho Hoc Hreg.
  destruct (grow_layout _ nn a o Hst Ho Hoc Hreg) as (d & q & n & a' & nn' & Hd & Hc & Hl & Hle & Hrs & Hset & Hst' & Hh' & Hkb & Hgr).
  destruct (header_layout _ (so_header _ _ _ Hst) (so_page _ _ _ Hst)) as (Hlay & Hlok & HR).
  assert (Hkept : forall e, kept m (TransactionalMemory.record m e)) by (intros; by apply kept_same).
  unfold TransactionalMemory.grow. mstep. mstep. eapply mem_runs_lift; [exact Hlay|]. eapply mem_runs_lift; [exact Hd|].
  rewrite (mo_page_size _ Hm). eapply mem_runs_lift; [exact Hc|]. eapply mem_runs_lift; [exact Hl|].
  eapply mem_runs_lift; [apply layout_len_ok; [done|lia]|]. apply (mem_runs_lift _ _ _ _ tt); [by rewrite (proj2 (Z.leb_le _ _))|].
  assert (Herr : forall e e', mem_at (TransactionalMemory.record m e) nn a /\
    mem_at (TransactionalMemory.record (TransactionalMemory.record m e) e') nn a).
  { intros. split; (eapply mem_at_update; [exact Hm|by apply kept_same|done..|apply (mo_dirty _ Hm)|done]). }
  apply runs_perform_io; [|intros Hio; split_and!; try done; [by apply grows_same|split; [by apply (Herr _ Flush)|done]]].
  apply runs_perform_io; [|intros Hio; split_and!; try done; [by apply kept_same|by apply grows_same|split; [by apply Herr|done]]].
  unfold InMemoryState.get_allocators. rewrite Hal. eapply mem_runs_lift; [done|]. eapply mem_runs_lift; [exact Hrs|].
  eapply mem_runs_lift; [exact Hset|]. mstep.
  match goal with |- kept m ?x /\ _ => assert (kept m x) by (split; try done; by exists q, n) end.
  split_and!; try done. exists nn', a'. split; [|done]. eapply mem_at_update; [exact Hm|done..|by apply Hh'|apply (mo_dirty _ Hm)|done].
Qed.

Lemma lens_free_pages cap T a a' P : lens_ok cap T a -> free_pages_are a a' P -> lens_ok cap T a'.
Proof.
  intros [HR Hl] [Hlen Hf]. split; [by unfold vlen in *; rewrite Hlen|]. intros i b' Hb'.
  destruct (lookup_lt_is_Some_2 (region_allocators a) i) as [b Hb]; [apply lookup_lt_Some in Hb'; lia|].
  destruct (Hf i b Hb) as (b1 & Hb1 & Hlb & _). rewrite Hb' in Hb1. injection Hb1 as <-. rewrite Hlb. by apply Hl.
Qed.

(** The loop of allocation on a consistent state: it always returns, and finds a block
    when the tracker knows one. *)
Lemma helper_retry_ok s h nn a order lowest :
  allocators s = Some a -> state_ok h nn a -> 0 <= order <= MAX_MAX_PAGE_ORDER ->
  exists a' r, TransactionalMemory.allocate_helper_retry s order lowest = Ret (InMemoryState.set_allocators s a', r) /\
    state_ok h nn a' /\ retry_post order a a' r /\ (known_block a order -> r <> None).
Proof.
  intros Hal [Hh Hps Hk Ha Hl] Ho. unfold TransactionalMemory.allocate_helper_retry, InMemoryState.get_allocators.
  rewrite Hal. cbn [unwrap mbind outcome_bind]. rewrite (tracker_len_ok _ _ _ (ao_tracker _ _ _ _ Ha)) by done. cbn [mbind outcome_bind].
  destruct (retry_loop_ok 0 _ nn order lowest Ho (S (Z.to_nat nn)) a Ha) as (a' & r & -> & Ha' & Hpost).
  { pose proof (zcount_bounds (may_free (region_tracker a) order) 0 (Z.to_nat nn)). lia. }
  cbn [mbind outcome_bind fst snd]. exists a', r. split; [done|]. split; [|split; [done|]].
  - split; try done. destruct r as [p|]; [eapply lens_free_pages; [done|apply Hpost]|]. destruct Hpost as [Heq _].
    unfold lens_ok. by rewrite Heq.
  - intros (i & b & o' & p & Hb & Hm & Ho' & HF) ->. destruct Hpost as [_ Hno]. by rewrite (Hno i b o' p) in HF.
Qed.

(** A page of the heap lies in its region of the file. *)
Lemma page_address_ok m p a nn :
  mem_at m nn a -> page_wf p -> p ∈ allocated_pages m ->
  exists start, TransactionalMemory.page_address p m =
    Ret (m, Okay (start, 2 ^ page_order p * TransactionalMemory.page_size m)).
Proof.
  intros (Hm & Hal & Hst & Hheap) Hwf Hp. pose proof (ho_fields _ (so_header _ _ _ Hst)) as (Hps & Hrh & Hc & _).
  pose proof (so_page _ _ _ Hst) as Hps'. destruct (hp_wf _ _ Hheap p Hp) as (_ & b & Hb & _ & Hx).
  pose proof (so_lens _ _ _ Hst) as [_ Hl]. apply Hl in Hb as Hlb. unfold pages_at in Hlb.
  unfold TransactionalMemory.page_address. change (MAX_PAGE_INDEX + 1) with (2 ^ 20) in *.
  rewrite (mo_page_size _ Hm), (mo_region_size _ Hm), (mo_region_header _ Hm).
  set (cap := DatabaseHeader.region_max_data_pages (header (state m))) in *.
  set (rh := DatabaseHeader.region_header_pages (header (state m))) in *.
  set (ps := DatabaseHeader.page_size (header (state m))) in *.
  rewrite address_range_spec; [|split_and!; nia| |done|].
  - cbn [mbind outcome_bind fst snd]. eexists. f_equal. f_equal. f_equal. f_equal. lia.
  - change MAX_REGIONS with (2 ^ 20). assert ((rh + cap) * ps <= 2 ^ 21 * 2 ^ 22) by nia. lia.
  - unfold in_region. destruct Hwf as (_ & Ho & Hi & _).
    assert ((page_index p + 1) * 2 ^ page_order p <= cap); [|nia].
    pose proof (Z.mul_div_le (BuddyAllocator.len b) (2 ^ page_order p) ltac:(apply Z.pow_pos_nonneg; lia)). nia.
Qed.

(** ** Allocating a page *)

(** A page that was free in [m]: [m'] is [m] with the page taken from the allocators. *)
Definition found (m m' : TransactionalMemory.t) (o : Z) (p : PageNumber.t) : Prop :=
  exists nn a a', allocators (state m') = Some a' /\ state_ok (header (state m')) nn a' /\ heap_ok (allocated_pages m) a /\
    page_order p = o /\ page_wf p /\ block_in a p /\ free_pages_are a a' (fun i q => is_free a i q /\ ~ covers p i q).

Definition same_pages (m m' : TransactionalMemory.t) : Prop :=
  kept m m' /\ allocated_pages m' = allocated_pages m /\ open_dirty_pages m' = open_dirty_pages m.

Lemma same_pages_state m h0 s : header s = header (state m) -> InMemoryState.read_from_secondary s = InMemoryState.read_from_secondary (state m) ->
  same_pages h0 m -> same_pages h0 (TransactionalMemory.set_state m s).
Proof. intros Hh Hr (Hk & Ha & Hd). split; [|done]. etrans; [exact Hk|]. by apply kept_same. Qed.

Lemma find_page_runs io m nn a o lowest :
  mem_at m nn a -> 0 <= o <= MAX_MAX_PAGE_ORDER -> 2 ^ o <= DatabaseHeader.region_max_data_pages (header (state m)) ->
  regions_of (layout_of (header (state m))) + 2 <= MAX_REGIONS ->
  runs (TransactionalMemory.find_page io o lowest) m (fun m' r =>
    same_pages m m' /\ grows m m' /\ match r with Okay p => found m m' o p | Err _ => mem_ok m' /\ io_fails io end).
Proof.
  intros Hat Ho Hoc Hreg. pose proof Hat as (Hm & Hal & Hst & Hheap). unfold TransactionalMemory.find_page. mstep.
  destruct (helper_retry_ok _ _ nn a o lowest Hal Hst Ho) as (a1 & r & Hrun & Hst1 & Hpost & _).
  eapply mem_runs_lift; [exact Hrun|]. mstep. cbn [fst snd].
  assert (Hsame : same_pages m (TransactionalMemory.set_state m (InMemoryState.set_allocators (state m) a1))) by (by apply same_pages_state).
  destruct r as [p|].
  - mstep. split; [done|]. split; [by apply grows_same|]. destruct Hpost as (Hpo & Hwf & Hblk & Hf). exists nn, a, a1. done.
  - destruct Hpost as [Heq _]. set (m1 := TransactionalMemory.set_state m (InMemoryState.set_allocators (state m) a1)) in *.
    assert (Hheap1 : heap_ok (allocated_pages m) a1) by (destruct Hheap; split; rewrite ?Heq; done).
    assert (Hat1 : mem_at m1 nn a1) by (eapply mem_at_update; [exact Hm|apply Hsame|done..|apply (mo_dirty _ Hm)|done]).
    apply mem_runs_bind. eapply runs_mono; [apply (grow_runs io m1 nn a1 o Hat1); try done; lia|].
    intros m2 r (Hk2 & Ha2 & Hd2 & Hg2 & Hr). assert (Hsame2 : same_pages m m2) by (destruct Hsame as (? & ? & ?); split_and!; [by etrans|congruence..]).
    destruct r as [u|e]; cbn [on_okay]; [|split; [done|split; [done|split; [apply (proj1 Hr)|apply (proj2 Hr)]]]]. destruct Hr as (nn2 & a2 & (Hm2 & Hal2 & Hst2 & Hheap2) & Hkb). mstep.
    destruct (helper_retry_ok _ _ nn2 a2 o lowest Hal2 Hst2 Ho) as (a3 & r & Hrun3 & Hst3 & Hpost3 & Hsome).
    eapply mem_runs_lift; [exact Hrun3|]. mstep. cbn [fst snd]. destruct r as [p|]; [|by destruct (Hsome Hkb)].
    apply (runs_lift_last _ _ p); [done|]. split; [by apply same_pages_state|]. split; [done|]. destruct Hpost3 as (Hpo & Hwf & Hblk & Hf).
    exists nn2, a2, a3. split_and!; try done. replace (allocated_pages m) with (allocated_pages m2) by apply Hsame2. done.
Qed.

(** The effect of an allocation: a page that is large enough and disjoint from all
    others, or an I/O error, which may leave the page allocated. *)
Definition allocated_one (m : TransactionalMemory.t) (size : Z) (m' : TransactionalMemory.t) (r : result PageNumber.t storage_error) : Prop :=
  mem_ok m' /\ kept m m' /\
  match r with
  | Okay p => p ∉ allocated_pages m /\ allocated_pages m' = {[p]} ∪ allocated_pages m /\
      open_dirty_pages m' = {[p]} ∪ open_dirty_pages m /\ page_wf p /\
      size <= 2 ^ page_order p * TransactionalMemory.page_size m /\
      forall p', p' ∈ allocated_pages m -> no_overlap p p'
  | Err _ => allocated_pages m ⊆ allocated_pages m' /\ open_dirty_pages m' = open_dirty_pages m
  end.

Lemma claim_page_runs io m m1 o p size :
  mem_ok m -> same_pages m m1 -> found m m1 o p -> size <= 2 ^ o * TransactionalMemory.page_size m ->
  runs (TransactionalMemory.claim_page io size p) m1 (fun m' r => allocated_one m size m' r /\ header (state m') = header (state m1) /\ forall e, r = Err e -> io_fails io).
Proof.
  intros Hm (Hk & HA & HD) (nn & a & a' & Hal & Hst & Hheap & Ho & Hwf & Hblk & Hf) Hsize.
  destruct (heap_alloc _ _ _ _ Hheap Hwf Hblk Hf) as (Hnew & Hheap' & Hno).
  assert (Hnd : p ∉ open_dirty_pages m1) by (rewrite HD; intros H; by apply (mo_dirty _ Hm) in H).
  assert (Hnr : read_page_ref_counts m1 !! p = None).
  { rewrite (kp_refs _ _ Hk). apply not_elem_of_dom. intros H. by apply (mo_refs _ Hm) in H. }
  unfold TransactionalMemory.claim_page. mstep; [apply bool_decide_eq_true; by rewrite HA|]. mstep.
  set (m2 := TransactionalMemory.set_debug m1 _ _ _).
  assert (Hk2 : kept m m2) by (etrans; [exact Hk|by apply kept_same]).
  assert (Hpg : allocated_pages m2 = {[p]} ∪ allocated_pages m) by (unfold m2; cbn; by rewrite HA).
  assert (Hdp : open_dirty_pages m2 = open_dirty_pages m) by done.
  assert (Hat : mem_at m2 nn a').
  { eapply mem_at_update; [exact Hm|done..| | |]; rewrite ?Hpg, ?Hdp; [done|pose proof (mo_dirty _ Hm); set_solver|set_solver]. }
  mstep; [by apply bool_decide_eq_true|]. mstep; [by apply bool_decide_eq_true|].
  destruct (page_address_ok m2 p a' nn Hat Hwf) as (start & Haddr); [rewrite Hpg; set_solver|].
  apply mem_runs_bind. eexists _, _. split; [exact Haddr|]. cbn [on_okay fst snd].
  assert (Hrec : forall e, mem_ok (TransactionalMemory.record m2 e)).
  { intros e. destruct Hat as (Hm2 & _). destruct Hm2. split; done. }
  apply runs_perform_io; [|intros Hio; split; [|done]; split_and!; [apply Hrec|etrans; [exact Hk2|by apply kept_same]|cbn; rewrite ?HA; set_solver|done]].
  mstep; [apply Z.leb_le; rewrite Ho, (proj1 (kp_sizes _ _ Hk2)); lia|].
  mstep; [by apply bool_decide_eq_true|]. mstep. mstep. split; [|done]. split_and!; try done.
  - destruct (Hrec (WritePage start (2 ^ page_order p * TransactionalMemory.page_size m2))). split; try done. cbn in *. set_solver.
  - etrans; [exact Hk2|by apply kept_same].
  - cbn. by rewrite HD.
  - by rewrite Ho.
Qed.

Lemma allocate_grows io m size lowest :
  mem_ok m -> 0 < size -> div_ceil size (TransactionalMemory.page_size m) <= DatabaseHeader.region_max_data_pages (header (state m)) ->
  regions_of (layout_of (header (state m))) + 2 <= MAX_REGIONS ->
  runs (TransactionalMemory.allocate_helper io size lowest) m (fun m' r => allocated_one m size m' r /\ grows m m' /\ forall e, r = Err e -> io_fails io).
Proof.
  intros Hm Hs Hsz Hreg. destruct (mem_at_intro m Hm) as (nn & a & Hat). pose proof Hat as (_ & _ & Hst & _).
  destruct (so_pow2 _ _ _ Hst) as (k & Hk & Hcap). pose proof (ho_fields _ (so_header _ _ _ Hst)) as (Hps & _).
  rewrite <-(mo_page_size _ Hm) in Hps. rewrite Hcap in Hsz. change MAX_MAX_PAGE_ORDER with 20 in Hk.
  destruct (required_order_ok size (TransactionalMemory.page_size m) k) as (Ho & Hok & Hlarge); [lia..|].
  unfold TransactionalMemory.allocate_helper. mstep. eapply mem_runs_lift; [exact Ho|]. apply mem_runs_bind.
  eapply runs_mono; [apply (find_page_runs io m nn a _ lowest Hat)|].
  - change MAX_MAX_PAGE_ORDER with 20. lia.
  - rewrite Hcap. apply Z.pow_le_mono_r; lia.
  - done.
  - intros m1 r (Hsame & Hg & Hr). destruct r as [p|e]; cbn [on_okay].
    + eapply runs_mono; [by eapply claim_page_runs|]. intros m2 r (H1 & H2 & H3). split; [done|]. split; [|done]. unfold grows. by rewrite H2.
    + destruct Hsame as (Hk1 & HA & HD), Hr as [Hr Hio]. split; [|done]. split_and!; [done..|by rewrite HA|done].
Qed.
Lemma allocate_helper_runs io m size lowest :
  mem_ok m -> 0 < size -> div_ceil size (TransactionalMemory.page_size m) <= DatabaseHeader.region_max_data_pages (header (state m)) ->
  regions_of (layout_of (header (state m))) + 2 <= MAX_REGIONS ->
  runs (TransactionalMemory.allocate_helper io size lowest) m (allocated_one m size).
Proof. intros. eapply runs_mono; [by apply allocate_grows|]. by intros m' r [? _]. Qed.

(** Addresses depend on the sizes only. *)
Lemma page_address_frame p m m' x :
  TransactionalMemory.page_address p m = Ret (m, Okay x) ->
  TransactionalMemory.page_size m' = TransactionalMemory.page_size m -> TransactionalMemory.region_size m' = TransactionalMemory.region_size m ->
  TransactionalMemory.region_header_with_padding_size m' = TransactionalMemory.region_header_with_padding_size m ->
  TransactionalMemory.page_address p m' = Ret (m', Okay x).
Proof.
  unfold TransactionalMemory.page_address. intros H -> -> ->. destruct (PageNumber.address_range _ _ _ _ _); [|done].
  cbn [mbind outcome_bind] in *. by injection H as <-.
Qed.

(** ** Freeing a page *)

(** The tracker learns of the freed order at least, hence of order 0. *)
Lemma alloc_ok_freed cap n a i b' tr' o :
  alloc_ok 0 cap n a -> 0 <= i < vlen (region_allocators a) -> region_ok cap b' ->
  tracker_ok (MAX_MAX_PAGE_ORDER + 1) n tr' -> 0 <= o ->
  (forall o' j, 0 <= o' -> 0 <= j -> may_free tr' o' j = ((o' <=? o) && (j =? i)) || may_free (region_tracker a) o' j) ->
  alloc_ok 0 cap n (Allocators.mk tr' (<[Z.to_nat i := b']> (region_allocators a))).
Proof.
  intros [Ht Hc Hr Hb Hopt Ha] Hi Hb' Htr Ho Hm. unfold vlen in *. split; cbn; try done.
  - unfold vlen. by rewrite length_insert.
  - intros j b0 Hj. destruct (decide (j = Z.to_nat i)) as [->|]; [rewrite list_lookup_insert_eq in Hj by lia; by injection Hj as <-|].
    rewrite list_lookup_insert_ne in Hj by done. by apply (Hb j).
  - intros j b0 o1 p Hj HF o' Ho'. rewrite Hm by lia. destruct (Z.eqb_spec (Z.of_nat j) i) as [E|E].
    + assert (o' = 0) as -> by lia. by rewrite (proj2 (Z.leb_le 0 o)) by lia.
    + rewrite andb_false_r. cbn. rewrite list_lookup_insert_ne in Hj by lia. by eapply Hopt.
  - unfold vlen. rewrite length_insert. intros o' j Ho' Hj. rewrite Hm by lia. rewrite (proj2 (Z.eqb_neq j i)) by lia. rewrite andb_false_r. cbn.
    by apply Ha.
Qed.

(** Freeing a page of the heap in the allocators. *)
Lemma free_in_heap h nn a A p :
  state_ok h nn a -> heap_ok A a -> p ∈ A ->
  exists b b' tr, region_allocators a !! Z.to_nat (region p) = Some b /\
    BuddyAllocator.free_page b (page_index p) (page_order p) = Ret b' /\
    RegionTracker.mark_free (region_tracker a) (page_order p) (region p) = Ret tr /\
    let a' := Allocators.mk tr (<[Z.to_nat (region p) := b']> (region_allocators a)) in
    state_ok h nn a' /\ heap_ok (A ∖ {[p]}) a' /\ free_pages_are a a' (fun i q => is_free a i q \/ covers p i q).
Proof.
  intros [Hh Hps Hk Ha Hl] Hheap Hp. destruct (hp_wf _ _ Hheap p Hp) as ((Hr & Ho & Hi & _) & b & Hb & Hmo & Hx).
  destruct (ao_buddy _ _ _ _ Ha _ _ Hb) as (Hbo & Hbm & Hbl). apply lookup_lt_Some in Hb as Hlt.
  pose proof (ao_regions _ _ _ _ Ha) as Hrn.
  destruct (free_page_spec _ _ b (page_index p) (page_order p) Hbo) as (b' & Hrun & Hok & [Hlen Hmax] & Hq); [lia|lia| |].
  { intros q Hq. assert (Hc : covers p (Z.to_nat (region p)) q) by (split; [lia|done]). by destruct (heap_owned_taken A a p _ b q Hheap Hp Hc Hb). }
  destruct (mark_free_ok _ _ _ (page_order p) (region p) (ao_tracker _ _ _ _ Ha)) as (tr & Htr & Htrok & Hm); [lia|unfold vlen in Hrn; lia|].
  exists b, b', tr. cbn zeta. set (a' := Allocators.mk tr (<[Z.to_nat (region p) := b']> (region_allocators a))).
  assert (Hf : free_pages_are a a' (fun i q => is_free a i q \/ covers p i q)).
  { split; [unfold a'; cbn; by rewrite length_insert|]. intros j b0 Hj. unfold a', covers, is_free. cbn.
    destruct (decide (j = Z.to_nat (region p))) as [->|Hne].
    - exists b'. rewrite Hb in Hj. injection Hj as <-. rewrite list_lookup_insert_eq by done. split_and!; try done.
      intros q. rewrite Hq, Hb, Z2Nat.id by lia. split; [intros [?|?]; [left; eauto|by right]|].
      intros [(b1 & [= <-] & ?)|[_ ?]]; [by left|by right].
    - exists b0. rewrite list_lookup_insert_ne by done. split_and!; try done. intros q. split; [intros ?; left; eauto|].
      intros [(b1 & Hj1 & Hpf)|[? _]]; [|lia]. rewrite Hj in Hj1. by injection Hj1 as <-. }
  split_and!; try done; [|by eapply heap_free].
  split; [done|done|done| |by eapply lens_free_pages]. eapply (alloc_ok_freed _ _ a (region p) b' tr (page_order p)); try done; [unfold vlen; lia| |lia].
  split; [by rewrite Hlen|]. split; [congruence|lia].
Qed.

(** The effect of freeing a page of the heap. *)
Definition freed_one (m : TransactionalMemory.t) (p : PageNumber.t) (m' : TransactionalMemory.t) : Prop :=
  mem_ok m' /\ kept m m' /\ allocated_pages m' = allocated_pages m ∖ {[p]} /\ open_dirty_pages m' = open_dirty_pages m.

Lemma free_keeps_header m p tr tr' :
  mem_ok m -> p ∈ allocated_pages m -> p ∉ open_dirty_pages m -> read_page_ref_counts m !! p = None ->
  PageTrackerPolicy.remove tr p = Ret tr' ->
  runs (TransactionalMemory.free_helper p tr) m (fun m' r => freed_one m p m' /\ header (state m') = header (state m) /\ r = Okay tr').
Proof.
  intros Hm Hp Hd Hr Htr. destruct (mem_at_intro m Hm) as (nn & a & Hat). pose proof Hat as (_ & Hal & Hst & Hheap).
  destruct (free_in_heap _ nn a _ p Hst Hheap Hp) as (b & b' & t & Hb & Hfree & Hmark & Hst' & Hheap' & _).
  destruct (hp_wf _ _ Hheap p Hp) as (Hwf & _). apply lookup_lt_Some in Hb as Hlt. pose proof Hwf as ((Hr0 & _) & _).
  destruct (page_address_ok m p a nn Hat Hwf Hp) as (start & Haddr).
  unfold TransactionalMemory.free_helper. mstep; [by apply bool_decide_eq_true|]. mstep; [by apply bool_decide_eq_true|]. mstep.
  mstep; [by apply bool_decide_eq_true|]. eapply mem_runs_lift; [exact Htr|]. mstep. cbn [state TransactionalMemory.set_debug].
  apply (mem_runs_lift _ _ _ _ b).
  { unfold InMemoryState.get_region, InMemoryState.get_allocators. rewrite Hal. cbn [unwrap mbind outcome_bind]. by apply vget_ok. }
  eapply mem_runs_lift; [exact Hfree|]. eapply mem_runs_lift; [unfold InMemoryState.get_allocators; rewrite Hal; done|].
  eapply mem_runs_lift; [unfold InMemoryState.set_region; rewrite vset_ok by (unfold vlen; lia); done|].
  eapply mem_runs_lift; [exact Hmark|]. mstep. apply mem_runs_bind.
  eexists _, _. split; [eapply page_address_frame; [exact Haddr|done..]|]. cbn [on_okay].
  mstep. mstep. mstep. split; [|split; done]. match goal with |- freed_one m p ?x => set (m' := x) end.
  assert (Hk : kept m m') by (by apply kept_same). split_and!; try done.
  destruct Hm. split; try done; cbn; [eexists _, _; done|set_solver|].
  intros x Hx. apply elem_of_difference. split; [set_solver|]. intros ->%elem_of_singleton. by apply not_elem_of_dom in Hr.
Qed.
Lemma free_helper_runs m p tr tr' :
  mem_ok m -> p ∈ allocated_pages m -> p ∉ open_dirty_pages m -> read_page_ref_counts m !! p = None ->
  PageTrackerPolicy.remove tr p = Ret tr' ->
  runs (TransactionalMemory.free_helper p tr) m (fun m' r => freed_one m p m' /\ r = Okay tr').
Proof. intros. eapply runs_mono; [by apply free_keeps_header|]. by intros m' r (? & _ & ?). Qed.

(** ** Shrinking the file *)

(** Dropping [k] pages from the last region. *)
Lemma reduce_mk cap rh ps q n k :
  0 < cap -> 0 <= q -> 0 <= n <= cap -> 0 < q * cap + n ->
  0 <= k <= q * cap + n - (regions_of (mk_layout cap rh ps q n) - 1) * cap ->
  exists q' n', DatabaseLayout.reduce_last_region (mk_layout cap rh ps q n) k = Ret (mk_layout cap rh ps q' n') /\
    0 <= q' <= q /\ 0 <= n' <= cap /\ q' * cap + n' = q * cap + n - k.
Proof.
  intros Hc Hq Hn HT Hk. rewrite regions_of_mk in Hk by lia.
  unfold DatabaseLayout.reduce_last_region, mk_layout. cbn [DatabaseLayout.trailing_partial_region DatabaseLayout.full_region_layout DatabaseLayout.num_full_regions].
  destruct (Z.eqb_spec n 0) as [E|E]; destruct (Z.ltb_spec 0 n) in Hk; try lia; cbn [RegionLayout.num_pages RegionLayout.header_pages RegionLayout.page_size].
  - assert (0 < q) by nia. osteps. destruct (Z.ltb_spec k cap).
    + osteps. unfold RegionLayout.new. osteps. exists (q - 1), (cap - k). rewrite (proj2 (Z.eqb_neq (cap - k) 0)) by lia. split_and!; try done; lia.
    + exists (q - 1), 0. split_and!; try done; lia.
  - osteps. exists q, (n - k). split_and!; try done; lia.
Qed.

(** The regions after [k] free pages are dropped from the end. *)
Section shrunk.
  Context (cap T T' k R R' : Z) (a a' : Allocators.t).
  Context (Hlen : forall i b, region_allocators a !! i = Some b -> BuddyAllocator.len b = pages_at cap T (Z.of_nat i)).
  Context (HR : regions_for cap T R) (HR' : regions_for cap T' R') (Hc : 0 < cap) (Hk : 0 < k) (HT : T' + k = T).
  Context (Hkl : k <= T - (R - 1) * cap) (HRv : R = vlen (region_allocators a)).
  Context (Hfree : forall b p, last (region_allocators a) = Some b -> k <= BuddyAllocator.len b ->
    BuddyAllocator.len b - k <= p < BuddyAllocator.len b -> pfree (fa b) p).

Lemma shrunk_regions : R' <= R /\ R - 1 <= R' /\ (R' = R - 1 -> T' = R' * cap).
Proof using HR HR' Hc Hk HT Hkl. unfold regions_for in *. nia. Qed.

Lemma shrunk_last i b : region_allocators a !! i = Some b -> Z.of_nat i = R - 1 ->
  BuddyAllocator.len b = T - (R - 1) * cap /\
  forall p, BuddyAllocator.len b - k <= p < BuddyAllocator.len b -> pfree (fa b) p.
Proof using Hlen HR Hc Hkl HRv Hfree.
  intros Hb Hi. pose proof (Hlen _ _ Hb) as Hlb. rewrite (pages_at_last cap T R) in Hlb by done. split; [done|].
  intros p. apply Hfree; [|lia]. rewrite last_lookup.
  replace (pred (length (region_allocators a))) with i by (unfold vlen in *; lia). done.
Qed.

Lemma shrunk_before i b : region_allocators a !! i = Some b -> Z.of_nat i < R - 1 -> BuddyAllocator.len b = cap.
Proof using Hlen HR Hc. clear HR'. intros Hb Hi. rewrite (Hlen _ _ Hb). unfold pages_at, regions_for in *. nia. Qed.

Context (Hvl : vlen (region_allocators a') = R').
Context (Hreg : forall i b, region_allocators a !! i = Some b -> Z.of_nat i < R' ->
  exists b', region_allocators a' !! i = Some b' /\
    if decide (Z.of_nat i = R' - 1 /\ T' - (R' - 1) * cap < BuddyAllocator.len b)
    then BuddyAllocator.len b' = T' - (R' - 1) * cap /\ forall q, pfree (fa b') q <-> pfree (fa b) q /\ q < T' - (R' - 1) * cap
    else b' = b).
Context (Hrange : forall i b q, region_allocators a !! i = Some b -> pfree (fa b) q -> q < BuddyAllocator.len b).

Lemma shrunk_region i b' :
  region_allocators a' !! i = Some b' -> exists b, region_allocators a !! i = Some b /\
    BuddyAllocator.len b' = pages_at cap T' (Z.of_nat i) /\ BuddyAllocator.len b' <= BuddyAllocator.len b /\
    (forall q, pfree (fa b') q <-> pfree (fa b) q /\ q < BuddyAllocator.len b') /\
    forall q, BuddyAllocator.len b' <= q < BuddyAllocator.len b -> pfree (fa b) q.
Proof using All.
  intros Hb'. pose proof (lookup_lt_Some _ _ _ Hb') as Hlt. destruct shrunk_regions as (H1 & H2 & H3).
  destruct (lookup_lt_is_Some_2 (region_allocators a) i) as [b Hb]; [unfold vlen in *; lia|]. exists b. split; [done|].
  destruct (Hreg i b Hb) as (b1 & Hb1 & Hcase); [unfold vlen in *; lia|]. rewrite Hb' in Hb1. injection Hb1 as <-.
  assert (Hi : Z.of_nat i < R') by (unfold vlen in *; lia). destruct (decide (Z.of_nat i = R' - 1 /\ _)) as [[Hl Hlt']|Hno].
  - assert (R' = R) as ER.
    { destruct (Z.eq_dec R' R); [done|]. rewrite (shrunk_before _ _ Hb) in Hlt' by lia. lia. }
    destruct (shrunk_last i b Hb) as [Hlb Hf]; [lia|]. destruct Hcase as [-> Hq]. rewrite (pages_at_last cap T' R') by done.
    split_and!; try done; [lia|]. intros q Hq'. apply Hf. rewrite ER in Hq'. lia.
  - subst b'. split_and!; try done; [|intros q; split; [intros ?; split; [done|by eapply Hrange]|by intros [? _]]|lia].
    destruct (Z.eq_dec (Z.of_nat i) (R' - 1)) as [E|E].
    + rewrite (pages_at_last cap T' R') by done. destruct (Z.eq_dec R' R) as [ER|ER].
      * destruct (shrunk_last i b Hb) as [Hlb _]; [lia|]. exfalso. apply Hno. split; [done|]. rewrite Hlb, ER. lia.
      * rewrite (shrunk_before _ _ Hb), H3 by lia. lia.
    + rewrite (shrunk_before _ _ Hb) by lia. unfold pages_at, regions_for in *. nia.
Qed.

Lemma shrunk_dropped i b q :
  region_allocators a !! i = Some b -> region_allocators a' !! i = None -> 0 <= q < BuddyAllocator.len b -> pfree (fa b) q.
Proof using All.
  intros Hb Hno Hq. apply lookup_lt_Some in Hb as Hlt. apply lookup_ge_None in Hno. destruct shrunk_regions as (H1 & H2 & H3).
  assert (Z.of_nat i = R - 1 /\ R' = R - 1) as [Hi ER] by (unfold vlen in *; lia).
  destruct (shrunk_last i b Hb Hi) as [Hlb Hf]. apply Hf. rewrite Hlb in *. rewrite ER in H3. specialize (H3 eq_refl). lia.
Qed.

End shrunk.

(** Dropping free pages from the end of the regions. *)
Lemma resize_shrink_total cap rh ps q n q' n' nn a A k :
  0 <= q -> 0 <= n <= cap -> 0 <= q' -> 0 <= n' <= cap -> 0 < q' * cap + n' -> q' * cap + n' + k = q * cap + n ->
  layout_ok (mk_layout cap rh ps q' n') -> alloc_ok 0 cap nn a -> lens_ok cap (q * cap + n) a -> heap_ok A a ->
  0 <= k -> k <= q * cap + n - (vlen (region_allocators a) - 1) * cap ->
  (forall b p, last (region_allocators a) = Some b -> k <= BuddyAllocator.len b ->
     BuddyAllocator.len b - k <= p < BuddyAllocator.len b -> pfree (fa b) p) ->
  exists a', Allocators.resize_to a (mk_layout cap rh ps q' n') = Ret a' /\ alloc_ok 0 cap nn a' /\
    lens_ok cap (q' * cap + n') a' /\ heap_ok A a'.
Proof.
  intros Hq Hn Hq' Hn' HT' HT Hl Ha Hlens Hheap Hk Hkl Hfree. pose proof (ao_cap _ _ _ _ Ha) as Hc.
  destruct (mk_layout_regions cap rh ps q' n') as [HR' HR0]; [lia..|].
  pose proof (last_pages_mk cap rh ps q' n' ltac:(lia) HT') as Hlast.
  pose proof (resize_direction_total cap rh ps q' n' (q * cap + n) a ltac:(lia) Hq' Hn' HT' ltac:(lia) Hl Hlens) as Hdir.
  destruct (Z.eq_dec k 0) as [->|Hk0].
  { rewrite (proj2 (Z.compare_eq_iff (q' * cap + n') _)) in Hdir by lia. exists a. unfold Allocators.resize_to. rewrite Hdir.
    split; [done|]. split; [done|]. split; [|done]. by replace (q' * cap + n') with (q * cap + n) by lia. }
  rewrite (proj2 (Z.compare_lt_iff (q' * cap + n') _)) in Hdir by lia. destruct Hlens as [HR Hlen].
  set (l := mk_layout cap rh ps q' n') in *. set (T' := q' * cap + n') in *. set (T := q * cap + n) in *. clearbody T T'.
  set (R := vlen (region_allocators a)) in *. set (R' := regions_of l) in *.
  destruct (shrunk_regions cap T T' k R R') as (H1 & H2 & H3); [done..|lia|lia|done|done|].
  destruct (resize_to_shrink_ok 0 l cap nn a Hl ltac:(fold R R'; lia) Ha Hdir) as (a' & Hrun & Ha' & Hvl & Hreg).
  { intros b p Hb Hp. fold R' in Hb. rewrite Hlast in Hp. apply lookup_lt_Some in Hb as Hlt. destruct (Z.eq_dec R' R) as [E|E].
    - destruct (shrunk_last cap T k R a Hlen HR ltac:(lia) Hkl eq_refl Hfree _ _ Hb) as [Hlb Hf]; [lia|]. apply Hf. rewrite Hlb, E in *. lia.
    - rewrite (shrunk_before cap T R a Hlen HR ltac:(lia) _ _ Hb) in Hp by lia. specialize (H3 ltac:(lia)). lia. }
  fold R' in Hvl, Hreg. rewrite Hlast in Hreg.
  assert (Hrange : forall i b p, region_allocators a !! i = Some b -> pfree (fa b) p -> p < BuddyAllocator.len b).
  { intros i b p Hb Hp. destruct (ao_buddy _ _ _ _ Ha _ _ Hb) as ([_ Hv] & _). apply (pfree_range _ _ _ _ Hv) in Hp. lia. }
  pose proof (shrunk_region cap T T' k R R' a a' Hlen HR HR' ltac:(lia) ltac:(lia) ltac:(lia) Hkl eq_refl Hfree Hvl Hreg Hrange) as Hrg.
  exists a'. split; [done|]. split; [done|]. split.
  - split; [by rewrite Hvl|]. intros i b' Hb'. by destruct (Hrg i b' Hb') as (b & _ & -> & _).
  - eapply heap_shrink; [done| |eapply (shrunk_dropped cap T T' k R R'); done || lia].
    intros i b' Hb'. destruct (Hrg i b' Hb') as (b & Hb & _ & Hle & Hq1 & Hq2). exists b.
    destruct (ao_buddy _ _ _ _ Ha _ _ Hb) as (_ & -> & _). by destruct (ao_buddy _ _ _ _ Ha' _ _ Hb') as (_ & -> & _).
Qed.

(** The last region of consistent allocators. *)
Lemma last_region cap T a :
  lens_ok cap T a -> 0 < T -> 0 < cap ->
  exists b, last (region_allocators a) = Some b /\ region_allocators a !! Z.to_nat (vlen (region_allocators a) - 1) = Some b /\
    0 < vlen (region_allocators a) /\ BuddyAllocator.len b = T - (vlen (region_allocators a) - 1) * cap.
Proof.
  intros [HR Hlen] HT Hc. assert (Hpos : 0 < vlen (region_allocators a)) by (unfold regions_for in HR; nia).
  destruct (lookup_lt_is_Some_2 (region_allocators a) (Z.to_nat (vlen (region_allocators a) - 1))) as [b Hb]; [unfold vlen in *; lia|].
  exists b. split_and!; try done.
  - rewrite last_lookup. replace (pred _) with (Z.to_nat (vlen (region_allocators a) - 1)) by (unfold vlen in *; lia). done.
  - rewrite (Hlen _ _ Hb). apply pages_at_last; [done|lia].
Qed.

(** What [try_shrink] leaves: the same heap in a file that is not longer. *)
Definition shrunk_to (nn : Z) (A : gset PageNumber.t) (s s' : InMemoryState.t) : Prop :=
  exists q n a', header s' = with_regions (header s) q n /\ allocators s' = Some a' /\ state_ok (header s') nn a' /\ heap_ok A a' /\
    InMemoryState.read_from_secondary s' = InMemoryState.read_from_secondary s /\
    file_bytes (layout_of (header s')) <= file_bytes (layout_of (header s)).

Lemma shrink_by s nn a A k :
  allocators s = Some a -> state_ok (header s) nn a -> heap_ok A a -> 0 <= k < header_pages_total (header s) ->
  (forall b, last (region_allocators a) = Some b -> k <= BuddyAllocator.len b /\
     forall p, BuddyAllocator.len b - k <= p < BuddyAllocator.len b -> pfree (fa b) p) ->
  exists l' a' h', DatabaseLayout.reduce_last_region (layout_of (header s)) k = Ret l' /\
    Allocators.resize_to a l' = Ret a' /\ DatabaseLayout.len l' = Ret (file_bytes l') /\ 
    file_bytes l' <= file_bytes (layout_of (header s)) /\ DatabaseHeader.set_layout (header s) l' = Ret h' /\
    shrunk_to nn A s (InMemoryState.set_header (InMemoryState.set_allocators s a') h').
Proof.
  intros Hal [Hh Hps Hpow Ha Hlens] Hheap Hk Hlast. pose proof (ho_fields _ Hh) as (Hp & Hrh & Hc & Ht & Hf & Hr).
  pose proof (set_layout_ok (header s)) as Hset. pose proof (with_regions_ok (header s)) as Hwr.
  unfold header_pages_total, layout_of, shrunk_to in *. change MAX_REGIONS with (2 ^ 20) in *. change (MAX_PAGE_INDEX + 1) with (2 ^ 20) in *.
  cbn [InMemoryState.set_header InMemoryState.set_allocators header allocators InMemoryState.read_from_secondary].
  destruct (last_region _ _ _ Hlens ltac:(lia) ltac:(lia)) as (b & Hbl & _ & _ & Hlb). destruct (Hlast b Hbl) as [Hkb Hfree].
  set (cap := DatabaseHeader.region_max_data_pages (header s)) in *. set (rh := DatabaseHeader.region_header_pages (header s)) in *.
  set (ps := DatabaseHeader.page_size (header s)) in *. set (q0 := DatabaseHeader.full_regions (header s)) in *.
  set (n0 := DatabaseHeader.trailing_partial_region_pages (header s)) in *.
  destruct (mk_layout_regions cap rh ps q0 n0) as [HR0 HR0p]; [lia..|].
  assert (HRe : vlen (region_allocators a) = regions_of (mk_layout cap rh ps q0 n0)) by (apply (regions_for_unique cap (q0 * cap + n0)); [lia|apply Hlens|done]).
  destruct (reduce_mk cap rh ps q0 n0 k) as (q & n & Hred & Hq & Hn & HT); [lia..|].
  assert (Hq0 : q0 <= 2 ^ 20) by (destruct (0 <? n0); lia).
  destruct (mk_layout_ok cap rh ps q n) as [Hlok _]; [lia..|apply layout_fits_u64; lia|].
  destruct (mk_layout_regions cap rh ps q n) as [HR HRp]; [lia..|].
  assert (HRle : regions_of (mk_layout cap rh ps q n) <= regions_of (mk_layout cap rh ps q0 n0)).
  { apply (regions_for_mono cap (q * cap + n) (q0 * cap + n0)); try done; lia. }
  assert (HRmax : regions_of (mk_layout cap rh ps q0 n0) <= 2 ^ 20) by (rewrite regions_of_mk by lia; lia).
  destruct (resize_shrink_total cap rh ps q0 n0 q n nn a A k) as (a' & Hrun & Ha' & Hlens' & Hheap'); try done; try lia.
  { intros b' p Hb' _. rewrite Hbl in Hb'. injection Hb' as <-. apply Hfree. }
  assert (Hbytes : file_bytes (mk_layout cap rh ps q n) <= file_bytes (mk_layout cap rh ps q0 n0)).
  { rewrite !mk_layout_bytes by lia.
    repeat apply Z.add_le_mono; [lia|apply Z.mul_le_mono_nonneg_r; [apply Z.mul_nonneg_nonneg; lia|done]|apply Z.mul_le_mono_nonneg_r; lia]. }
  exists (mk_layout cap rh ps q n), a', (with_regions (header s) q n).
  split; [done|]. split; [done|]. split; [by apply layout_len_ok|]. split; [done|]. split; [by apply Hset|].
  exists q, n, a'. split_and!; try done. split; try done. apply Hwr; try done; lia.
Qed.

Lemma try_shrink_ok s nn a A force :
  allocators s = Some a -> state_ok (header s) nn a -> heap_ok A a ->
  exists s' shrunk, TransactionalMemory.try_shrink s force = Ret (s', shrunk) /\ shrunk_to nn A s s'.
Proof.
  intros Hal Hst Hheap. pose proof Hst as [Hh Hps Hpow Ha Hlens]. pose proof (ao_cap _ _ _ _ Ha) as Hc.
  destruct (header_layout _ Hh Hps) as (Hlay & Hlok & HR). pose proof (header_total_pos _ Hh) as HT.
  destruct (last_region _ _ _ Hlens HT ltac:(lia)) as (b & Hbl & Hb & Hpos & Hlb).
  assert (HRe : vlen (region_allocators a) = regions_of (layout_of (header s))).
  { eapply regions_for_unique; [|apply Hlens|by apply header_regions]. lia. }
  assert (Hsame : shrunk_to nn A s s).
  { eexists _, _, a. split; [symmetry; apply with_regions_id|]. done. }
  unfold TransactionalMemory.try_shrink. rewrite Hlay. cbn [mbind outcome_bind]. rewrite num_regions_ok by done. cbn [mbind outcome_bind].
  rewrite usub_ok by lia. cbn [mbind outcome_bind]. unfold InMemoryState.get_region at 1, InMemoryState.get_allocators at 1 2. rewrite Hal. cbn [unwrap mbind outcome_bind].
  rewrite (vget_ok (region_allocators a) (regions_of (layout_of (header s)) - 1) b) by (rewrite <-HRe; done || lia). cbn [mbind outcome_bind].
  destruct (ao_buddy _ _ _ _ Ha _ _ Hb) as (Hbo & _ & Hb0).
  destruct (trailing_free_pages_spec _ b Hbo Hb0) as (tf & -> & Htf & Hfree & _). cbn [mbind outcome_bind].
  destruct (Z.eqb_spec tf 0); [by exists s, false|]. destruct ((tf <? BuddyAllocator.len b / 2) && negb force); [by exists s, false|].
  assert (Hby : exists k, (if (1 <? regions_of (layout_of (header s))) && (tf =? BuddyAllocator.len b) then Ret tf
      else if force then x ← usub (BuddyAllocator.len b) 1; Ret (Z.min x tf) else Ret (tf / 2)) = Ret k /\
      0 <= k < header_pages_total (header s) /\ k <= tf).
  { pose proof (Z.div_pos tf 2). pose proof (Z.div_lt tf 2 ltac:(lia)). rewrite HRe in Hlb.
    destruct (Z.ltb_spec 1 (regions_of (layout_of (header s)))), (Z.eqb_spec tf (BuddyAllocator.len b)); cbn [andb];
      [eexists; split; [done|nia]|..]; (destruct force; [rewrite usub_ok by lia; cbn [mbind outcome_bind]|]; eexists; (split; [done|nia])). }
  destruct Hby as (k & -> & Hk & Hkt). cbn [mbind outcome_bind].
  destruct (shrink_by s nn a A k Hal Hst Hheap Hk) as (l' & a' & h' & -> & Hrs & Hlen & Hle & Hset & Hres).
  { intros b' Hb'. rewrite Hbl in Hb'. injection Hb' as <-. split; [lia|]. intros p Hp. apply Hfree. lia. }
  cbn [mbind outcome_bind]. rewrite Hrs. cbn [mbind outcome_bind]. rewrite Hlen. cbn [mbind outcome_bind].
  rewrite layout_len_ok by (done || lia). cbn [mbind outcome_bind]. rewrite (proj2 (Z.leb_le _ _)) by done. cbn [rassert mbind outcome_bind].
  rewrite Hset. cbn [mbind outcome_bind]. eexists _, _. split; [done|]. done.
Qed.

(** ** Rebuilding the allocators *)

(** The page lies in the file that a header describes. *)
Definition page_fits (h : DatabaseHeader.t) (p : PageNumber.t) : Prop :=
  page_wf p /\ 2 ^ page_order p <= DatabaseHeader.region_max_data_pages h /\ region p < regions_of (layout_of h) /\
  (page_index p + 1) * 2 ^ page_order p <= pages_at (DatabaseHeader.region_max_data_pages h) (header_pages_total h) (region p).

Lemma reset_runs m :
  header_ok (header (state m)) -> DatabaseHeader.page_size (header (state m)) <= 2 ^ 22 ->
  (exists k, 0 <= k <= MAX_MAX_PAGE_ORDER /\ DatabaseHeader.region_max_data_pages (header (state m)) = 2 ^ k) ->
  TransactionalMemory.page_size m = DatabaseHeader.page_size (header (state m)) ->
  TransactionalMemory.region_header_with_padding_size m =
    DatabaseHeader.region_header_pages (header (state m)) * DatabaseHeader.page_size (header (state m)) ->
  TransactionalMemory.region_size m =
    (DatabaseHeader.region_header_pages (header (state m)) + DatabaseHeader.region_max_data_pages (header (state m))) *
    DatabaseHeader.page_size (header (state m)) ->
  open_dirty_pages m = ∅ -> read_page_ref_counts m = ∅ ->
  runs TransactionalMemory.reset_allocator_state m (fun m' r =>
    r = Okay tt /\ mem_ok m' /\ header (state m') = header (state m) /\ allocated_pages m' = ∅ /\
    open_dirty_pages m' = ∅ /\ read_page_ref_counts m' = ∅).
Proof.
  intros Hh Hps Hpow H1 H2 H3 Hd Hr. destruct (header_layout _ Hh Hps) as (Hlay & Hlok & HR).
  pose proof (ho_fields _ Hh) as (Hp & Hrh & Hc & Ht & Hf & _).
  destruct (allocators_new_ok 0 (layout_of (header (state m))) (DatabaseHeader.region_max_data_pages (header (state m))) Hlok eq_refl)
    as (a & Hnew & Ha & Hvl & Hfresh); [lia|lia|].
  unfold TransactionalMemory.reset_allocator_state. mstep. eapply mem_runs_lift; [exact Hlay|]. eapply mem_runs_lift; [exact Hnew|].
  mstep. mstep. split_and!; try done. split; try done; cbn; [|by rewrite Hd|by rewrite Hr].
  exists a, (Z.max INITIAL_REGIONS (regions_of (layout_of (header (state m))))). split; [done|]. split; [split; try done|].
  - split; [rewrite Hvl; by apply header_regions|]. intros i b Hb. destruct (Hfresh i b Hb) as (r & Hr' & -> & _); [lia|].
    apply lookup_lt_Some in Hb. unfold header_pages_total, layout_of in *.
    apply (mk_layout_pages _ _ _ _ _ _ r Hlok); [lia|unfold vlen in Hvl; lia|done].
  - split; [set_solver| |set_solver]. intros i b q Hb Hq. destruct (Hfresh i b Hb) as (r & _ & Hlen & Hall); [lia|].
    rewrite Hall, <-Hlen. split; [|done]. intros _ (p & Hp' & _). set_solver.
Qed.

Lemma mark_allocated_runs m p :
  mem_ok m -> page_fits (header (state m)) p -> (forall p', p' ∈ allocated_pages m -> no_overlap p p') ->
  runs (TransactionalMemory.mark_page_allocated p) m (fun m' r =>
    r = Okay tt /\ mem_ok m' /\ header (state m') = header (state m) /\ allocated_pages m' = {[p]} ∪ allocated_pages m /\
    open_dirty_pages m' = open_dirty_pages m /\ read_page_ref_counts m' = read_page_ref_counts m).
Proof.
  intros Hm (Hwf & Hord & Hreg & Hin) Hno. destruct (mem_at_intro m Hm) as (nn & a & (_ & Hal & Hst & Hheap)).
  pose proof Hst as [Hh Hps (k & Hk & Hcap) Ha [HR Hlens]]. pose proof Hwf as (Hr & Ho & Hi & _).
  assert (Hvl : vlen (region_allocators a) = regions_of (layout_of (header (state m)))).
  { eapply regions_for_unique; [|exact HR|by apply header_regions]. apply (ao_cap _ _ _ _ Ha). }
  destruct (lookup_lt_is_Some_2 (region_allocators a) (Z.to_nat (region p))) as [b Hb]; [unfold vlen in Hvl; lia|].
  pose proof (Hlens _ _ Hb) as Hlb. rewrite Z2Nat.id in Hlb by lia. rewrite <-Hlb in Hin.
  destruct (ao_buddy _ _ _ _ Ha _ _ Hb) as (Hbo & Hbm & Hb0). change MAX_MAX_PAGE_ORDER with 20 in *.
  assert (Hmo : page_order p <= BuddyAllocator.max_order b).
  { rewrite Hbm, Hcap, Z.log2_pow2 by lia. rewrite Hcap in Hord. apply Z.pow_le_mono_r_iff in Hord; lia. }
  assert (Hx : 0 <= page_index p < BuddyAllocator.len b / 2 ^ page_order p).
  { split; [done|]. apply Z.lt_le_trans with (page_index p + 1); [lia|]. apply Z.div_le_lower_bound; [apply Z.pow_pos_nonneg; lia|lia]. }
  assert (Hfree : forall q, q / 2 ^ page_order p = page_index p -> pfree (fa b) q).
  { intros q Hq. apply (hp_exact _ _ Hheap _ _ q Hb); [by eapply block_in_range; [|exact Hx|]; [lia|]|].
    intros (p' & Hp' & Hr' & Hq'). destruct (Hno p' Hp') as [|Hdis]; [lia|]. by apply (Hdis q). }
  destruct (record_alloc_inner_spec _ _ b (page_index p) (page_order p) Hbo) as (b' & Hrec & Hsteps); [lia|done|done|].
  destruct (take_in_region 0 _ nn (page_order p) ltac:(change MAX_MAX_PAGE_ORDER with 20; lia) a (region p) b b' (page_index p) Ha ltac:(lia) Hb Hmo Hx Hfree Hsteps)
    as (_ & Ha' & (_ & _ & Hblk & Hfp)).
  replace (PageNumber.mk (region p) (page_index p) (page_order p)) with p in * by (by destruct p).
  destruct (heap_alloc _ _ _ _ Hheap Hwf Hblk Hfp) as (Hnew & Hheap' & _).
  unfold TransactionalMemory.mark_page_allocated. mstep. apply (mem_runs_lift _ _ _ _ b).
  { unfold InMemoryState.get_region, InMemoryState.get_allocators. rewrite Hal. cbn [unwrap mbind outcome_bind]. apply vget_ok; [lia|done]. }
  apply (mem_runs_lift _ _ _ _ b'); [unfold BuddyAllocator.record_alloc; by rewrite (proj2 (Z.leb_le _ _))|].
  eapply mem_runs_lift; [unfold InMemoryState.get_allocators; rewrite Hal; done|].
  eapply mem_runs_lift; [unfold InMemoryState.set_region; rewrite vset_ok by (unfold vlen in *; lia); done|].
  mstep. mstep; [by apply bool_decide_eq_true|]. mstep. split_and!; try done.
  destruct Hm. split; try done; cbn; [|set_solver|set_solver]. eexists _, nn. split; [done|]. split; [|done].
  split; try done; [by exists k|]. by eapply lens_free_pages; [split|].
Qed.

(** ** Rolling back a transaction *)

Lemma free_all_runs ps : forall m,
  mem_ok m -> NoDup ps -> (forall p, p ∈ ps -> p ∈ allocated_pages m /\ p ∉ open_dirty_pages m /\ read_page_ref_counts m !! p = None) ->
  runs (PageAllocator.free_all ps) m (fun m' r => r = Okay tt /\ mem_ok m' /\ kept m m' /\
    allocated_pages m' = allocated_pages m ∖ list_to_set ps /\ open_dirty_pages m' = open_dirty_pages m).
Proof.
  induction ps as [|p ps IH]; intros m Hm Hnd Hps; cbn [PageAllocator.free_all].
  { mstep. split_and!; try done. cbn. set_solver. }
  apply NoDup_cons in Hnd as [Hp Hnd]. destruct (Hps p) as (HA & HD & HR); [by left|]. apply mem_runs_bind.
  eapply runs_mono; [by apply (free_helper_runs m p PageTrackerPolicy.Ignore PageTrackerPolicy.Ignore)|].
  intros m1 r [(Hm1 & Hk1 & HA1 & HD1) ->]. cbn [on_okay].
  eapply runs_mono; [apply IH; [done|done|]|].
  - intros p' Hp'. destruct (Hps p') as (? & ? & ?); [by right|]. rewrite HA1, HD1, (kp_refs _ _ Hk1).
    split_and!; try done. apply elem_of_difference. split; [done|]. intros ->%elem_of_singleton. done.
  - intros m' r (-> & Hm' & Hk' & HA' & HD'). split_and!; try done; [by etrans| |congruence]. rewrite HA', HA1. cbn. set_solver.
Qed.

(** * Theorems *)

(** A small memory: one full region of 16 pages and one of 4, all free. *)
Definition after {A} (c : M A) (m : TransactionalMemory.t) : TransactionalMemory.t :=
  match c m with Ret (m', _) => m' | Panic => m end.
Definition demo_header : DatabaseHeader.t :=
  DatabaseHeader.mk 0 true false 4096 0 16 1 4 [TransactionHeader.new 1; TransactionHeader.new 0].
Definition demo_memory0 : TransactionalMemory.t :=
  TransactionalMemory.mk ∅ ∅ ∅ [] (InMemoryState.new demo_header) ∅ ∅ ∅ 4096 (16 * 4096) 0.
Definition demo_memory : TransactionalMemory.t := after TransactionalMemory.reset_allocator_state demo_memory0.
(** Every operation on the file succeeds. *)
Definition io_works : list event -> event -> bool := fun _ _ => true.

Lemma runs_after {A} (c : M A) m Q : runs c m Q -> exists r, Q (after c m) r.
Proof. intros (m' & r & Hc & HQ). exists r. unfold after. by rewrite Hc. Qed.

Lemma demo_header_ok : header_ok demo_header.
Proof.
  split; [by left| |].
  - unfold fields_ok. cbn. change (MAX_PAGE_INDEX + 1) with 1048576. change MAX_REGIONS with 1048576. lia.
  - eexists _, _. split; [done|]. split; (split; [done|]); (split; [done|]); (split; [done|]); vm_compute; done.
Qed.

Lemma demo_memory_ok : mem_ok demo_memory /\ header (state demo_memory) = demo_header /\ allocated_pages demo_memory = ∅ /\
  open_dirty_pages demo_memory = ∅ /\ read_page_ref_counts demo_memory = ∅.
Proof.
  assert (Hps : DatabaseHeader.page_size demo_header <= 2 ^ 22) by (by vm_compute).
  assert (Hk : exists k, 0 <= k <= MAX_MAX_PAGE_ORDER /\ DatabaseHeader.region_max_data_pages demo_header = 2 ^ k) by (exists 4; split; vm_compute; done).
  destruct (runs_after _ _ _ (reset_runs demo_memory0 demo_header_ok Hps Hk eq_refl eq_refl eq_refl eq_refl eq_refl)) as (r & _ & H).
  exact H.
Qed.

(** The small memory with pages 6 and 7 of region 0 allocated *)
Definition demo_page : PageNumber.t := PageNumber.mk 0 3 1.
Definition demo_allocated : TransactionalMemory.t := after (TransactionalMemory.mark_page_allocated demo_page) demo_memory.

Lemma demo_allocated_ok : mem_ok demo_allocated /\ header (state demo_allocated) = demo_header /\
  allocated_pages demo_allocated = {[demo_page]} /\ open_dirty_pages demo_allocated = ∅ /\ read_page_ref_counts demo_allocated = ∅.
Proof.
  destruct demo_memory_ok as (Hm & Hh & HA & HD & HR).
  assert (Hfit : page_fits (header (state demo_memory)) demo_page) by (rewrite Hh; repeat split; vm_compute; done).
  assert (Hno : forall p', p' ∈ allocated_pages demo_memory -> no_overlap demo_page p') by (intros p' Hp'; exfalso; revert Hp'; rewrite HA; apply not_elem_of_empty).
  destruct (runs_after _ _ _ (mark_allocated_runs demo_memory demo_page Hm Hfit Hno)) as (r & _ & H1 & H2 & H3 & H4 & H5).
  split; [exact H1|]. split; [exact (eq_trans H2 Hh)|]. split; [rewrite HA, (right_id_L ∅ (∪)) in H3; exact H3|].
  split; [exact (eq_trans H4 HD)|exact (eq_trans H5 HR)].
Qed.

(** C9. Allocating never panics.  It either hands out a page that was not allocated, is
    large enough and shares no byte with any allocated page, growing the file if
    it has to, or fails with an I/O error; the invariant holds in both cases, and
    the transactions in the header are not touched.  The request fits a region, and the file has
    at least two regions less than the greatest number of regions. *)
Theorem page_allocation_correct io m size lowest :
  mem_ok m -> 0 < size -> div_ceil size (TransactionalMemory.page_size m) <= DatabaseHeader.region_max_data_pages (header (state m)) ->
  regions_of (layout_of (header (state m))) + 2 <= MAX_REGIONS ->
  exists m' r, TransactionalMemory.allocate_helper io size lowest m = Ret (m', r) /\ allocated_one m size m' r.
Proof. apply allocate_helper_runs. Qed.

Lemma page_allocation_correct_witness :
  exists m' r, TransactionalMemory.allocate_helper io_works 20000 false demo_memory = Ret (m', r) /\ allocated_one demo_memory 20000 m' r.
Proof.
  destruct demo_memory_ok as (Hm & Hh & _). apply page_allocation_correct; [done|lia| |]; rewrite ?(mo_page_size _ Hm), Hh; vm_compute; done.
Defined.

(** C10. Freeing an allocated page that is not borrowed never panics: the page is no
    longer allocated, so that exactly its bytes become free again, and every
    other page stays as it was.  This is for a caller that does not track its pages. *)
Theorem page_free_correct m p :
  mem_ok m -> p ∈ allocated_pages m -> p ∉ open_dirty_pages m -> read_page_ref_counts m !! p = None ->
  exists m' r, TransactionalMemory.free p PageTrackerPolicy.Ignore m = Ret (m', Okay r) /\ freed_one m p m'.
Proof.
  intros Hm Hp Hd Hr. destruct (free_helper_runs m p PageTrackerPolicy.Ignore PageTrackerPolicy.Ignore Hm Hp Hd Hr eq_refl) as (m' & r & Hrun & Hf & ->).
  by exists m', PageTrackerPolicy.Ignore.
Qed.

Lemma page_free_correct_witness :
  exists m' r, TransactionalMemory.free demo_page PageTrackerPolicy.Ignore demo_allocated = Ret (m', Okay r) /\ freed_one demo_allocated demo_page m'.
Proof.
  destruct demo_allocated_ok as (Hm & Hh & HA & HD & HR).
  apply page_free_correct; [exact Hm|rewrite HA; by apply elem_of_singleton|rewrite HD; apply not_elem_of_empty|by rewrite HR].
Defined.

(** C12. Rolling a transaction back frees exactly the pages that it allocated since the
    last commit, and leaves its allocator with none of them. *)
Theorem rollback_frees_uncommitted m (al : PageAllocator.t) S :
  mem_ok m -> PageAllocator.allocated_since_commit al = PageTrackerPolicy.Track S -> S ⊆ allocated_pages m ->
  open_dirty_pages m = ∅ -> (forall p, p ∈ S -> read_page_ref_counts m !! p = None) ->
  exists m', PageAllocator.rollback_all al m =
      Ret (m', Okay (PageAllocator.mk (PageAllocator.policy al) PageTrackerPolicy.new_tracking)) /\
    mem_ok m' /\ kept m m' /\ allocated_pages m' = allocated_pages m ∖ S.
Proof.
  intros Hm Hal HS Hd Hr.
  assert (runs (PageAllocator.rollback_all al) m (fun m' r => r = Okay (PageAllocator.mk (PageAllocator.policy al) PageTrackerPolicy.new_tracking) /\
    mem_ok m' /\ kept m m' /\ allocated_pages m' = allocated_pages m ∖ S)) as (m' & r & Hrun & -> & H); [|by exists m'].
  unfold PageAllocator.rollback_all, PageAllocator.take_allocated_since_commit. mstep; [by apply bool_decide_eq_true|].
  rewrite Hal. eapply mem_runs_lift; [done|]. cbn [fst snd]. apply mem_runs_bind. eapply runs_mono; [apply free_all_runs|].
  - done.
  - apply NoDup_elements.
  - intros p Hp%elem_of_elements. split_and!; [by apply HS|by rewrite Hd; apply not_elem_of_empty|by apply Hr].
  - intros m' r (-> & Hm' & Hk & HA & _). cbn [on_okay]. mstep. by rewrite list_to_set_elements_L in HA.
Qed.

Lemma rollback_frees_uncommitted_witness :
  exists m', PageAllocator.rollback_all (PageAllocator.mk AllocDefault (PageTrackerPolicy.Track {[demo_page]})) demo_allocated =
      Ret (m', Okay (PageAllocator.mk AllocDefault PageTrackerPolicy.new_tracking)) /\
    mem_ok m' /\ kept demo_allocated m' /\ allocated_pages m' = allocated_pages demo_allocated ∖ {[demo_page]}.
Proof.
  destruct demo_allocated_ok as (Hm & Hh & HA & HD & HR).
  apply (rollback_frees_uncommitted demo_allocated (PageAllocator.mk AllocDefault (PageTrackerPolicy.Track {[demo_page]})) {[demo_page]});
    [exact Hm|reflexivity|rewrite HA; reflexivity|exact HD|intros p _; rewrite HR; apply lookup_empty].
Defined.

(** The loop of a repair over the pages that it finds in use *)
Fixpoint mark_all (pages : list PageNumber.t) : M unit :=
  match pages with
  | [] => mret tt
  | p :: rest => _ ← TransactionalMemory.mark_page_allocated p; mark_all rest
  end.

Lemma mark_all_runs ps : forall m,
  mem_ok m -> Forall (page_fits (header (state m))) ps -> ForallOrdPairs (fun p p' => no_overlap p' p) ps ->
  (forall p p', p ∈ ps -> p' ∈ allocated_pages m -> no_overlap p p') ->
  runs (mark_all ps) m (fun m' r => r = Okay tt /\ mem_ok m' /\ header (state m') = header (state m) /\
    allocated_pages m' = list_to_set ps ∪ allocated_pages m).
Proof.
  induction ps as [|p ps IH]; intros m Hm Hfit Hdis HA; cbn [mark_all].
  { mstep. split_and!; try done. cbn. set_solver. }
  apply Forall_cons in Hfit as [Hp Hfit]. inversion Hdis as [|? ? Hpd Hdis']; subst. apply mem_runs_bind.
  eapply runs_mono; [apply mark_allocated_runs; [done|done|intros p' Hp'; by apply HA; [left|]]|].
  intros m1 r (-> & Hm1 & Hh1 & HA1 & _). cbn [on_okay]. eapply runs_mono; [apply IH; [done|by rewrite Hh1|done|]|].
  - intros p1 p2 Hp1 Hp2. rewrite HA1 in Hp2. apply elem_of_union in Hp2 as [->%elem_of_singleton|Hp2].
    + rewrite List.Forall_forall in Hpd. apply Hpd. by apply list_elem_of_In.
    + apply HA; [by right|done].
  - intros m' r (-> & Hm' & Hh' & HA'). split_and!; try done; [congruence|]. rewrite HA', HA1. cbn. set_solver.
Qed.

(** C11. A repair rebuilds the allocators: after a reset, marking the pages in use, which
    do not overlap and lie in the file, leaves a memory in which exactly those
    pages are allocated and everything else is free. *)
Theorem repair_rebuilds_heap m ps :
  header_ok (header (state m)) -> DatabaseHeader.page_size (header (state m)) <= 2 ^ 22 ->
  (exists k, 0 <= k <= MAX_MAX_PAGE_ORDER /\ DatabaseHeader.region_max_data_pages (header (state m)) = 2 ^ k) ->
  TransactionalMemory.page_size m = DatabaseHeader.page_size (header (state m)) ->
  TransactionalMemory.region_header_with_padding_size m =
    DatabaseHeader.region_header_pages (header (state m)) * DatabaseHeader.page_size (header (state m)) ->
  TransactionalMemory.region_size m =
    (DatabaseHeader.region_header_pages (header (state m)) + DatabaseHeader.region_max_data_pages (header (state m))) *
    DatabaseHeader.page_size (header (state m)) ->
  open_dirty_pages m = ∅ -> read_page_ref_counts m = ∅ ->
  Forall (page_fits (header (state m))) ps -> ForallOrdPairs (fun p p' => no_overlap p' p) ps ->
  exists m', (_ ← TransactionalMemory.reset_allocator_state; mark_all ps) m = Ret (m', Okay tt) /\
    mem_ok m' /\ allocated_pages m' = list_to_set ps.
Proof.
  intros Hh Hps Hpow H1 H2 H3 Hd Hr Hfit Hdis.
  assert (runs (_ ← TransactionalMemory.reset_allocator_state; mark_all ps) m (fun m' r => r = Okay tt /\ mem_ok m' /\ allocated_pages m' = list_to_set ps))
    as (m' & r & Hrun & -> & H); [|by exists m'].
  apply mem_runs_bind. eapply runs_mono; [by apply reset_runs|]. intros m1 r (-> & Hm1 & Hh1 & HA1 & _). cbn [on_okay].
  eapply runs_mono; [apply mark_all_runs; [done|by rewrite Hh1|done|rewrite HA1; set_solver]|].
  intros m' r (-> & Hm' & _ & HA'). split_and!; try done. rewrite HA', HA1. by rewrite (right_id_L ∅ (∪)).
Qed.

Lemma repair_rebuilds_heap_witness :
  exists m', (_ ← TransactionalMemory.reset_allocator_state; mark_all [PageNumber.mk 0 3 1; PageNumber.mk 1 2 0]) demo_memory0 = Ret (m', Okay tt) /\
    mem_ok m' /\ allocated_pages m' = list_to_set [PageNumber.mk 0 3 1; PageNumber.mk 1 2 0].
Proof.
  apply repair_rebuilds_heap; try reflexivity.
  - exact demo_header_ok.
  - vm_compute. done.
  - exists 4. split; vm_compute; done.
  - repeat constructor; vm_compute; done.
  - repeat constructor; vm_compute; done.
Defined.

(** C25. The file does not grow while it has a free page: looking for a single page in a
    memory with a free page anywhere finds one without any operation on the
    file and without changing the layout. *)
Theorem file_grows_only_when_full io m lowest :
  mem_ok m -> (exists a i q, allocators (state m) = Some a /\ is_free a i q) ->
  exists m' p, TransactionalMemory.find_page io 0 lowest m = Ret (m', Okay p) /\
    storage m' = storage m /\ header (state m') = header (state m) /\ found m m' 0 p.
Proof.
  intros Hm (a & i & q & Hal & b & Hb & o & HF). destruct (mem_at_intro m Hm) as (nn & a0 & (_ & Hal0 & Hst & Hheap)).
  rewrite Hal in Hal0. injection Hal0 as <-.
  assert (Hkb : known_block a 0).
  { pose proof (so_alloc _ _ _ Hst) as Ha. pose proof (region_fa_order _ _ _ _ (ao_buddy _ _ _ _ Ha _ _ Hb) HF).
    exists i, b, o, (q / 2 ^ o). split_and!; try done; [|lia]. eapply (ao_optimistic _ _ _ _ Ha); [done|exact HF|lia]. }
  destruct (helper_retry_ok _ _ nn a 0 lowest Hal Hst) as (a1 & r & Hrun & Hst1 & Hpost & Hsome); [vm_compute; done|].
  destruct r as [p|]; [|by destruct (Hsome Hkb)]. destruct Hpost as (Hpo & Hwf & Hblk & Hf).
  exists (TransactionalMemory.set_state m (InMemoryState.set_allocators (state m) a1)), p.
  split; [|split_and!; try done; by exists nn, a, a1].
  unfold TransactionalMemory.find_page, mbind, TransactionalMemory.M_bind, gets, lift. rewrite Hrun. done.
Qed.

Lemma file_grows_only_when_full_witness :
  exists m' p, TransactionalMemory.find_page io_works 0 true demo_memory = Ret (m', Okay p) /\
    storage m' = storage demo_memory /\ header (state m') = header (state demo_memory) /\ found demo_memory m' 0 p.
Proof.
  destruct demo_memory_ok as (Hm & Hh & HA & _). apply (file_grows_only_when_full io_works demo_memory true Hm).
  destruct (mem_at_intro _ Hm) as (nn & a & (_ & Hal & Hst & Hheap)). exists a, 0%nat, 0. split; [exact Hal|].
  destruct (last_region _ _ _ (so_lens _ _ _ Hst)) as (b1 & _ & _ & Hpos & _); [rewrite Hh; vm_compute; done..|].
  destruct (lookup_lt_is_Some_2 (region_allocators a) 0%nat) as [b Hb]; [unfold vlen in Hpos; lia|].
  exists b. split; [exact Hb|]. apply (hp_exact _ _ Hheap 0%nat b 0 Hb).
  - destruct (ao_buddy _ _ _ _ (so_alloc _ _ _ Hst) _ _ Hb) as (_ & _ & ?). lia.
  - rewrite HA. intros (p & Hp & _). exact (not_elem_of_empty p Hp).
Defined.

(** C23. Shrinking the file at a commit keeps every page: [try_shrink] never panics, and
    leaves a file that is not longer and whose allocators still have exactly
    the same pages allocated. *)
Theorem try_shrink_keeps_pages s nn a A force :
  allocators s = Some a -> state_ok (header s) nn a -> heap_ok A a ->
  exists s' shrunk, TransactionalMemory.try_shrink s force = Ret (s', shrunk) /\ shrunk_to nn A s s'.
Proof. apply try_shrink_ok. Qed.

Lemma try_shrink_keeps_pages_witness :
  exists nn s' shrunk, TransactionalMemory.try_shrink (state demo_allocated) true = Ret (s', shrunk) /\
    shrunk_to nn {[demo_page]} (state demo_allocated) s'.
Proof.
  destruct demo_allocated_ok as (Hm & Hh & HA & _). destruct (mo_state _ Hm) as (a & nn & Hal & Hst & Hheap). rewrite HA in Hheap.
  exists nn. exact (try_shrink_keeps_pages (state demo_allocated) nn a {[demo_page]} true Hal Hst Hheap).
Defined.

(** C24. The search for a block terminates on consistent allocators, since every failed
    round marks a region full: with one round per region of the tracker and one
    more it returns, either a free block of the order, or nothing, in which case
    no region that the tracker offered has a block of the order or above. *)
Theorem allocation_search_terminates s h nn a order lowest :
  allocators s = Some a -> state_ok h nn a -> 0 <= order <= MAX_MAX_PAGE_ORDER ->
  exists a' r, TransactionalMemory.allocate_helper_retry s order lowest = Ret (InMemoryState.set_allocators s a', r) /\
    state_ok h nn a' /\ retry_post order a a' r.
Proof. intros Hal Hst Ho. destruct (helper_retry_ok s h nn a order lowest Hal Hst Ho) as (a' & r & ? & ? & ? & _). by exists a', r. Qed.

Lemma allocation_search_terminates_witness :
  exists nn a a' r, TransactionalMemory.allocate_helper_retry (state demo_allocated) 2 false = Ret (InMemoryState.set_allocators (state demo_allocated) a', r) /\
    state_ok demo_header nn a' /\ retry_post 2 a a' r.
Proof.
  destruct demo_allocated_ok as (Hm & Hh & HA & _). destruct (mo_state _ Hm) as (a & nn & Hal & Hst & Hheap). rewrite Hh in Hst.
  exists nn, a. apply (allocation_search_terminates (state demo_allocated) demo_header nn a 2 false Hal Hst). vm_compute. split; discriminate.
Defined.
