(* ===== verification/Recovery.v ===== *)
(** Opening a database file, and what a crash can leave of its header and its length:
    creation and opening in [TransactionalMemory::new], and the commit protocol, with
    the file growing and shrinking, on media that may tear a write at any byte
    (src/src/tree_store/page_store/page_manager.rs, docs/design.md). *)
From S2P Require Import Prelude Bitmap Buddy Pages Layout Region Xxh3 Header PageManager.

(** * Model *)

(** The file as [TransactionalMemory::new] sees it: its length, and its first bytes, at
    most [DB_HEADER_SIZE] of them. *)
Module File.

Record t := mk { len : Z; head : list Z }.

Definition empty : t := mk 0 [].

(** [storage.resize(len)]: a longer file is extended by zeros. *)
Definition resize (f : t) (n : Z) : t :=
  mk n (take (Z.to_nat (Z.min n DB_HEADER_SIZE)) (head f ++ replicate (Z.to_nat DB_HEADER_SIZE) 0)).
(** [storage.write(0, DB_HEADER_SIZE, true)?.mem_mut().copy_from_slice(bytes)] *)
Definition write_header (f : t) (bytes : list Z) : t := mk (Z.max (len f) DB_HEADER_SIZE) bytes.
(** [storage.read_direct(0, n)?] of at most [DB_HEADER_SIZE] bytes *)
Definition read_head (f : t) (n : Z) : option (list Z) :=
  if n <=? len f then Some (take (Z.to_nat n) (head f)) else None.

End File.

(** [DatabaseError], as far as [new] returns it *)
Inductive database_error :=
| Io
| Storage (e : error)
| RepairAborted.

Module Open.

Section io.
  Context (io : list event -> event -> bool).

(** Operations of the file, the ones before them in reverse order *)
Definition op {B} (done_ : list event) (e : event) (k : list event -> outcome (result B database_error))
    : outcome (result B database_error) :=
  if io done_ e then k (e :: done_) else Ret (Err Io).

Definition lift_error {A} (r : fallible A) : outcome (result A database_error) :=
  x ← r; Ret (match x with Okay a => Okay a | Err e => Err (Storage e) end).

(** The layout that a new database starts with *)
Definition initial_layout (page_size region_size : Z) : outcome DatabaseLayout.t :=
  tracker ← RegionTracker.new INITIAL_REGIONS (MAX_MAX_PAGE_ORDER + 1);
  bytes ← RegionTracker.to_vec tracker;
  let region_tracker_required_bytes := vlen bytes in
  size ← umul 64 page_size MIN_USABLE_PAGES;
  let size := Z.max MIN_DESIRED_USABLE_BYTES size in
  tracker_space ← umul 64 page_size (div_ceil region_tracker_required_bytes page_size);
  starting_size ← uadd 64 size tracker_space;
  page_capacity ← (c ← udiv region_size page_size; utry 32 c);
  ps ← utry 32 page_size;
  DatabaseLayout.calculate starting_size page_capacity NO_HEADER ps.

(** Writing the first header: the magic number only once the rest is durable *)
Definition write_first_header (f : File.t) (layout : DatabaseLayout.t) (done_ : list event)
    : outcome (result (File.t * list event) database_error) :=
  h ← DatabaseHeader.new layout 0;
  let h := DatabaseHeader.set_two_phase_commit (DatabaseHeader.set_recovery_required h false) true in
  b0 ← DatabaseHeader.to_bytes h false;
  op done_ (WriteHeader b0) (fun d =>
  op d Flush (fun d =>
  b1 ← DatabaseHeader.to_bytes h true;
  op d (WriteHeader b1) (fun d =>
  op d Flush (fun d => Ret (Okay (File.write_header (File.write_header f b0) b1, d)))))).

(** The branch of [new] for a file without a magic number *)
Definition initialize (f : File.t) (page_size region_size : Z) (done_ : list event)
    : outcome (result (File.t * list event) database_error) :=
  layout ← initial_layout page_size region_size;
  n ← DatabaseLayout.len layout;
  if File.len f <? n then op done_ (Resize n) (fun d => write_first_header (File.resize f n) layout d)
  else write_first_header f layout done_.

(** The end of [new]: the memory for the header that was read *)
Definition memory_of (f : File.t) (h : DatabaseHeader.t) (page_size : Z) : outcome (result (File.t * TransactionalMemory.t) database_error) :=
  layout ← DatabaseHeader.layout h;
  n ← DatabaseLayout.len layout;
  _ ← rassert (n =? File.len f);
  region_size ← RegionLayout.len (DatabaseLayout.full_region_layout layout);
  section ← RegionLayout.data_section (DatabaseLayout.full_region_layout layout);
  _ ← rassert (DB_HEADER_SIZE <=? page_size);
  ps ← utry 32 page_size;
  Ret (Okay (f, TransactionalMemory.mk ∅ ∅ ∅ [] (InMemoryState.new h) ∅ ∅ ∅ ps region_size section.1)).

(** The part of [new] that opens a file which has a header *)
Definition open (f : File.t) (page_size : Z) (read_only : bool) (done_ : list event)
    : outcome (result (File.t * TransactionalMemory.t) database_error) :=
  match File.read_head f DB_HEADER_SIZE with
  | None => Ret (Err Io)
  | Some header_bytes =>
      ps ← utry 32 page_size;
      unrepaired ←? lift_error (UnrepairedDatabaseHeader.from_bytes header_bytes ps);
      needs_recovery ← UnrepairedDatabaseHeader.recovery_required unrepaired (File.len f);
      if needs_recovery && read_only then Ret (Err RepairAborted)
      else
        r ←? lift_error (UnrepairedDatabaseHeader.finalize unrepaired (File.len f));
        if needs_recovery then
          b ← DatabaseHeader.to_bytes r.1 true;
          op done_ (WriteHeader b) (fun d => op d Flush (fun d => memory_of (File.write_header f b) r.1 page_size))
        else memory_of f r.1 page_size
  end.

(** The size of a region, from the argument of [new] *)
Definition checked_region_size (page_size : Z) (requested_region_size : option Z) : outcome Z :=
  _ ← rassert (is_power_of_two page_size && (DB_HEADER_SIZE <=? page_size));
  let region_size := default MAX_USABLE_REGION_SPACE requested_region_size in
  largest ← umul 64 (MAX_PAGE_INDEX + 1) page_size;
  let region_size := Z.min region_size largest in
  _ ← rassert (is_power_of_two region_size);
  Ret region_size.

Definition new (f : File.t) (allow_initialize : bool) (page_size : Z) (requested_region_size : option Z) (read_only : bool)
    : outcome (result (File.t * TransactionalMemory.t) database_error) :=
  region_size ← checked_region_size page_size requested_region_size;
  let magic_number := default (replicate 9 0) (File.read_head f (vlen MAGICNUMBER)) in
  let has_magic := bool_decide (magic_number = MAGICNUMBER) in
  if if 0 <? File.len f then negb has_magic else negb allow_initialize then Ret (Err Io)
  else if has_magic then open f page_size read_only []
  else
    r ←? initialize f page_size region_size [];
    open r.1 page_size read_only r.2.

End io.

End Open.

(** * Media that tear writes *)

(** The media of docs/design.md: single bytes are written completely or not at all, and
    what was written before an [fsync] is durable after it.  [torn n bs c]: each of
    the [n] bytes of [c] is that of one of the [bs]. *)
Definition torn (n : nat) (bs : list (list Z)) (c : list Z) : Prop :=
  length c = n /\ forall i x, c !! i = Some x -> exists b, b ∈ bs /\ b !! i = Some x.

(** The file on disk: the header and the length that are durable, and those that were
    written and set since the last flush *)
Record disk := Disk { durable : list Z; pending : list (list Z); durable_len : Z; pending_lens : list Z }.

Definition disk_step (d : disk) (e : event) : disk :=
  match e with
  | WriteHeader b => Disk (durable d) (pending d ++ [b]) (durable_len d) (pending_lens d)
  | Resize n => Disk (durable d) (pending d) (durable_len d) (pending_lens d ++ [n])
  | Flush => Disk (List.last (pending d) (durable d)) [] (List.last (pending_lens d) (durable_len d)) []
  | _ => d
  end.
Definition disk_run (d : disk) (evs : list event) : disk := fold_left disk_step evs d.

(** The lengths that a power failure in the state [d] may leave *)
Definition lengths (d : disk) : list Z := durable_len d :: pending_lens d.
(** The bytes of the header and the length that it may leave *)
Definition contents (d : disk) (f : File.t) : Prop :=
  torn (Z.to_nat DB_HEADER_SIZE) (durable d :: pending d) (File.head f) /\ File.len f ∈ lengths d.
(** ... and at any time while the operations [evs] are executed *)
Definition crash (d : disk) (evs : list event) (f : File.t) : Prop :=
  exists prefix rest, evs = prefix ++ rest /\ contents (disk_run d prefix) f.

Lemma torn_take n k bs c : torn (n + k) bs c -> torn n (map (take n) bs) (take n c).
Proof.
  intros [Hl Hc]. split; [rewrite length_take; lia|]. intros i x Hi. apply lookup_take_Some in Hi as [Hi Hlt].
  destruct (Hc i x Hi) as (b & Hb & Hbi). exists (take n b). split; [by apply list_elem_of_fmap_2|]. by apply lookup_take_Some.
Qed.
Lemma torn_drop n k bs c : torn (n + k) bs c -> torn k (map (drop n) bs) (drop n c).
Proof.
  intros [Hl Hc]. split; [rewrite length_drop; lia|]. intros i x Hi. rewrite lookup_drop in Hi.
  destruct (Hc _ x Hi) as (b & Hb & Hbi). exists (drop n b). split; [by apply list_elem_of_fmap_2|]. by rewrite lookup_drop.
Qed.

(** Parts on which the writes agree are never torn. *)
Lemma torn_const n bs c x : torn n bs c -> length x = n -> (forall b, b ∈ bs -> b = x) -> c = x.
Proof.
  intros [Hl Hc] Hx Hbs. apply list_eq. intros i. destruct (c !! i) as [y|] eqn:Hi.
  - destruct (Hc i y Hi) as (b & Hb & Hbi). by rewrite <-(Hbs b Hb).
  - symmetry. apply lookup_ge_None. apply lookup_ge_None in Hi. lia.
Qed.
(** A single byte is never torn. *)
Lemma torn_byte bs c : torn 1 bs c -> (forall b, b ∈ bs -> length b = 1%nat) -> c ∈ bs.
Proof.
  intros [Hl Hc] Hbs. destruct c as [|x [|]]; try done. destruct (Hc 0%nat x eq_refl) as (b & Hb & Hbi).
  specialize (Hbs b Hb) as Hlb. destruct b as [|y [|]]; try done. by injection Hbi as ->.
Qed.
Lemma torn_subset n bs bs' c : torn n bs c -> (forall b, b ∈ bs -> b ∈ bs') -> torn n bs' c.
Proof. intros [Hl Hc] Hsub. split; [done|]. intros i x Hi. destruct (Hc i x Hi) as (b & Hb & Hbi). eauto. Qed.

Lemma torn_all (P : Z -> Prop) n bs c : torn n bs c -> (forall b, b ∈ bs -> Forall P b) -> Forall P c.
Proof.
  intros [_ Hc] Hbs. apply Forall_lookup. intros i x Hi. destruct (Hc i x Hi) as (b & Hb & Hbi).
  by apply (proj1 (Forall_lookup P b) (Hbs b Hb) i).
Qed.

(** Three parts of the header *)
Lemma torn_parts (L : list (list Z * list Z * list Z)) c n0 n1 n2 :
  (forall s p q, (s, p, q) ∈ L -> length s = n0 /\ length p = n1 /\ length q = n2) ->
  torn (n0 + (n1 + n2)) (map (fun t => t.1.1 ++ t.1.2 ++ t.2) L) c ->
  exists s p q, c = s ++ p ++ q /\ torn n0 (map (fun t => t.1.1) L) s /\ torn n1 (map (fun t => t.1.2) L) p /\
    torn n2 (map snd L) q.
Proof.
  intros HL Hc. exists (take n0 c), (take n1 (drop n0 c)), (drop n1 (drop n0 c)).
  split; [by rewrite !take_drop|]. pose proof (torn_drop _ _ _ _ Hc) as Hd.
  assert (Hm : forall f g, (forall t, t ∈ L -> f t = g t) -> map f L = map (B := list Z) g L).
  { intros f g Hfg. apply List.map_ext_in. intros t Ht. apply Hfg. by apply list_elem_of_In. }
  split; [|split].
  - apply torn_take in Hc. rewrite map_map in Hc. erewrite Hm in Hc; [exact Hc|]. intros [[s p] q] Ht.
    destruct (HL _ _ _ Ht) as (H0 & _). cbn. by apply take_app_length'.
  - apply torn_take in Hd. rewrite !map_map in Hd. erewrite Hm in Hd; [exact Hd|]. intros [[s p] q] Ht.
    destruct (HL _ _ _ Ht) as (H0 & H1 & _). cbn. rewrite drop_app_length' by done. by apply take_app_length'.
  - apply torn_drop in Hd. rewrite !map_map in Hd. erewrite Hm in Hd; [exact Hd|]. intros [[s p] q] Ht.
    destruct (HL _ _ _ Ht) as (H0 & H1 & _). cbn. rewrite drop_app_length' by done. by apply drop_app_length'.
Qed.

(** * The headers that a commit writes *)

Import DatabaseHeader (primary_slot_index, recovery_required, two_phase_commit, region_header_pages,
  region_max_data_pages, full_regions, trailing_partial_region_pages, transaction_slots).
Import TransactionHeader (transaction_id).
Import InMemoryState (header, allocators).
Import TransactionalMemory (state, storage, open_dirty_pages).

(** [h] with another primary slot and two-phase flag *)
Definition with_god (h : DatabaseHeader.t) (g : Z * bool) : DatabaseHeader.t :=
  DatabaseHeader.mk g.1 (recovery_required h) g.2 (DatabaseHeader.page_size h) (region_header_pages h)
    (region_max_data_pages h) (full_regions h) (trailing_partial_region_pages h) (transaction_slots h).

(** [h] with other layout fields: the number of full regions and the pages of the last one *)
Definition at_layout (h : DatabaseHeader.t) (l : Z * Z) : DatabaseHeader.t := with_regions h l.1 l.2.
Definition layout_fields (h : DatabaseHeader.t) : Z * Z := (full_regions h, trailing_partial_region_pages h).
(** ... as they are stored, and read *)
Definition layout_bytes (l : Z * Z) : list Z := to_le_bytes 4 l.1 ++ to_le_bytes 4 l.2.
Definition read_layout (F : list Z) : Z * Z := (from_le_bytes (take 4 F), from_le_bytes (drop 4 F)).

Lemma at_layout_fields h : at_layout h (layout_fields h) = h.
Proof. by destruct h. Qed.
Lemma length_layout_bytes l : length (layout_bytes l) = 8%nat.
Proof. unfold layout_bytes. by rewrite length_app, !length_to_le_bytes. Qed.
Lemma layout_bytes_read F : length F = 8%nat -> Forall byte F -> layout_bytes (read_layout F) = F.
Proof.
  intros Hl Hb. unfold layout_bytes, read_layout. cbn [fst snd].
  rewrite !to_from_le_bytes, take_drop by (rewrite ?length_take, ?length_drop, ?Hl; (by apply Forall_take) || (by apply Forall_drop) || done). done.
Qed.
Lemma read_layout_in_u F : length F = 8%nat -> Forall byte F -> in_u 32 (read_layout F).1 /\ in_u 32 (read_layout F).2.
Proof.
  intros Hl Hb. split; (apply from_le_bytes_in_u; [by apply Forall_take || by apply Forall_drop|]); unfold vlen;
    rewrite ?length_take, ?length_drop, Hl; vm_compute; discriminate.
Qed.
Lemma read_layout_bytes l : in_u 32 l.1 -> in_u 32 l.2 -> read_layout (layout_bytes l) = l.
Proof.
  intros H1 H2. unfold read_layout, layout_bytes. rewrite take_app_length', drop_app_length' by (by rewrite length_to_le_bytes).
  rewrite !from_to_le_bytes by done. by destruct l.
Qed.

(** The first 64 bytes of headers that differ in the god byte, which is not torn, and in
    the layout fields, which may be *)
Lemma torn_super {A} h (g : A -> Z * bool) (l : A -> Z * Z) L s :
  torn 64 (map (fun x => super_header (with_god (at_layout h (l x)) (g x))) L) s ->
  exists x F, x ∈ L /\ torn 8 (map (fun y => layout_bytes (l y)) L) F /\
    s = super_header (with_god (at_layout h (read_layout F)) (g x)).
Proof.
  set (R := [0; 0] ++ to_le_bytes 4 (DatabaseHeader.page_size h) ++ to_le_bytes 4 (region_header_pages h) ++
    to_le_bytes 4 (region_max_data_pages h)).
  set (god := fun x : A => god_byte (g x).1 (recovery_required h) (g x).2).
  assert (Hsup : forall x l', super_header (with_god (at_layout h l') (g x)) = MAGICNUMBER ++ [god x] ++ (R ++ layout_bytes l' ++ replicate 32 0))
    by (intros; unfold super_header, R, layout_bytes; cbn -[to_le_bytes]; by rewrite <-!app_assoc).
  assert (HR : length R = 14%nat) by (unfold R; rewrite !length_app, !length_to_le_bytes; done).
  clearbody R. intros Ht. erewrite List.map_ext in Ht; [|intros x; apply Hsup].
  destruct (torn_parts (map (fun x => (MAGICNUMBER, [god x], R ++ layout_bytes (l x) ++ replicate 32 0)) L) s 9 1 54) as (a & b & r & -> & Ha & Hb & Hr).
  { intros x p q (y & [= -> -> ->] & _)%list_elem_of_fmap. by rewrite length_app, HR. }
  { rewrite map_map. exact Ht. }
  rewrite map_map in Ha, Hb, Hr. cbn [fst snd] in Ha, Hb, Hr.
  destruct (torn_parts (map (fun x => (R, layout_bytes (l x), replicate 32 0)) L) r 14 8 32) as (r1 & F & z & -> & Hr1 & HF & Hz).
  { intros x p q (y & [= -> -> ->] & _)%list_elem_of_fmap. by rewrite HR. }
  { rewrite map_map. exact Hr. }
  rewrite map_map in Hr1, HF, Hz. cbn [fst snd] in Hr1, HF, Hz.
  rewrite (torn_const _ _ _ MAGICNUMBER Ha) by (done || by intros x (y & -> & _)%list_elem_of_fmap).
  rewrite (torn_const _ _ _ R Hr1) by (done || by intros x (y & -> & _)%list_elem_of_fmap).
  rewrite (torn_const _ _ _ (replicate 32 0) Hz) by (done || by intros x (y & -> & _)%list_elem_of_fmap).
  apply torn_byte in Hb; [|by intros x (y & -> & _)%list_elem_of_fmap].
  apply list_elem_of_fmap in Hb as (x & -> & Hx). exists x, F. split; [done|]. split; [exact HF|].
  rewrite Hsup, layout_bytes_read; [done|apply HF|]. eapply torn_all; [exact HF|].
  intros y (w & -> & _)%list_elem_of_fmap. apply Forall_app. split; apply to_le_bytes_byte.
Qed.

(** A slot that was overwritten, wholly or in part: its checksum tells. *)
Definition checksum_detects (old new : TransactionHeader.t) : Prop :=
  forall t, torn 128 [slot_bytes old; slot_bytes new] t ->
    from_le_bytes (drop 112 t) = checksum_of (take 112 t) -> t = slot_bytes old \/ t = slot_bytes new.

Lemma slot_bytes_byte s : slot_ok s -> Forall byte (slot_bytes s).
Proof.
  intros (Hv & _). unfold slot_bytes. apply Forall_app. split; [by apply slot_body_byte|apply to_le_bytes_byte].
Qed.
Lemma slot_bytes_version s : slot_ok s -> slot_bytes s !! 0%nat = Some FILE_FORMAT_VERSION3.
Proof. intros (Hv & _). unfold slot_bytes, slot_body. cbn. by rewrite Hv. Qed.

Lemma torn_slot_byte n old new t : slot_ok old -> slot_ok new -> torn n [slot_bytes old; slot_bytes new] t -> Forall byte t.
Proof. intros Ho Hn Ht. eapply torn_all; [exact Ht|]. intros b Hb. set_unfold. destruct Hb as [->|[->|[]]]; by apply slot_bytes_byte. Qed.

Lemma torn_slot old new t :
  slot_ok old -> slot_ok new -> checksum_detects old new -> torn 128 [slot_bytes old; slot_bytes new] t ->
  exists s corrupted, TransactionHeader.from_bytes t = Ret (Okay (s, corrupted)) /\ slot_ok s /\
    (corrupted = false -> s = old \/ s = new) /\ (t = slot_bytes new -> s = new /\ corrupted = false).
Proof.
  intros Ho Hn Hdet Ht. pose proof Ht as [Hl Hc].
  assert (Hb : Forall byte t) by (eapply torn_slot_byte; [exact Ho|exact Hn|exact Ht]).
  destruct (slot_total t Hl Hb) as (r & Hr & Hspec). destruct r as [[s corrupted]|e].
  - destruct Hspec as [Hs Hcor]. exists s, corrupted. split; [done|]. split; [done|].
    assert (Hnew : t = slot_bytes new -> s = new /\ corrupted = false).
    { intros ->. rewrite slot_roundtrip in Hr by done. by injection Hr as <- <-. }
    split; [|done]. intros ->. symmetry in Hcor. apply negb_false_iff, Z.eqb_eq in Hcor.
    destruct (Hdet t Ht Hcor) as [->|E]; [|right; by apply Hnew]. rewrite slot_roundtrip in Hr by done. injection Hr as <-. by left.
  - exfalso. apply Hspec. destruct t as [|x t]; [done|]. destruct (Hc 0%nat x eq_refl) as (b & Hb' & Hbi).
    change (Some x = Some FILE_FORMAT_VERSION3). rewrite <-Hbi. set_unfold. destruct Hb' as [->|[->|[]]]; by apply slot_bytes_version.
Qed.

(** * Opening *)

(** The memory that [open] returns for a header *)
Definition opened (h : DatabaseHeader.t) : TransactionalMemory.t :=
  TransactionalMemory.mk ∅ ∅ ∅ [] (InMemoryState.new h) ∅ ∅ ∅ (DatabaseHeader.page_size h)
    ((region_header_pages h + region_max_data_pages h) * DatabaseHeader.page_size h)
    (region_header_pages h * DatabaseHeader.page_size h).

(** Opening a file that [finalize] accepts *)
Lemma open_finalized io c ps u h' kept b read_only done_ len :
  length c = Z.to_nat DB_HEADER_SIZE -> UnrepairedDatabaseHeader.from_bytes c ps = Ret (Okay u) ->
  UnrepairedDatabaseHeader.recovery_required u len = Ret b -> UnrepairedDatabaseHeader.finalize u len = Ret (Okay (h', kept)) ->
  header_ok h' -> DatabaseHeader.page_size h' = ps -> file_bytes (layout_of h') = len ->
  DB_HEADER_SIZE <= ps <= 2 ^ 22 -> (forall d e, io d e = true) -> (read_only = true -> b = false) ->
  Open.open io (File.mk len c) ps read_only done_ = Ret (Okay (File.mk len (if b then header_bytes h' else c), opened h')).
Proof.
  intros Hl Hfrom Hreq Hfin Hh Hps Hlen Hpsb Hio Hro. change DB_HEADER_SIZE with 320 in *.
  pose proof (file_bytes_min h' Hh) as Hmin. pose proof (ho_fields _ Hh) as (Hpp & Hrh & Hrm & _).
  change (MAX_PAGE_INDEX + 1) with (2 ^ 20) in *. assert (Hlen0 : 320 <= len) by nia.
  destruct (header_layout h' Hh ltac:(lia)) as (Hlay & Hlok & HR).
  unfold Open.open, File.read_head. cbn [File.len File.head]. change DB_HEADER_SIZE with 320. rewrite (proj2 (Z.leb_le 320 len)) by lia.
  rewrite take_ge by (rewrite Hl; lia). rewrite utry_ok by lia. cbn [mbind outcome_bind].
  unfold Open.lift_error at 1. rewrite Hfrom. cbn [mbind outcome_bind try_]. rewrite Hreq. cbn [mbind outcome_bind].
  assert (b && read_only = false) as -> by (destruct read_only; [rewrite Hro by done|rewrite andb_false_r]; done).
  unfold Open.lift_error. rewrite Hfin. cbn [mbind outcome_bind try_ fst].
  assert (Hmem : forall f, File.len f = len -> Open.memory_of f h' ps = Ret (Okay (f, opened h'))).
  { intros f Hf. unfold Open.memory_of. rewrite Hlay. cbn [mbind outcome_bind]. rewrite layout_len_ok by (done || lia). cbn [mbind outcome_bind].
    rewrite Hf, Hlen, Z.eqb_refl. cbn [rassert mbind outcome_bind].
    destruct (region_len_ok _ Hlok (DatabaseLayout.full_region_layout (layout_of h'))) as (-> & Hub & _); [by left|]. cbn [mbind outcome_bind].
    unfold RegionLayout.data_section. rewrite Hub. unfold data_bytes. cbn [layout_of mk_layout DatabaseLayout.full_region_layout RegionLayout.header_pages RegionLayout.page_size RegionLayout.num_pages].
    assert (0 <= region_header_pages h' * DatabaseHeader.page_size h' <= 2 ^ 20 * 2 ^ 22) by nia.
    assert (0 <= region_max_data_pages h' * DatabaseHeader.page_size h' <= 2 ^ 20 * 2 ^ 22) by nia.
    change DB_HEADER_SIZE with 320. osteps. unfold opened, region_bytes. cbn. by rewrite Hps. }
  destruct b; [|by apply Hmem].
  rewrite header_to_bytes by done. cbn [mbind outcome_bind]. unfold Open.op. rewrite !Hio. unfold File.write_header. cbn [File.len].
  rewrite Hmem by (cbn; change DB_HEADER_SIZE with 320; lia). change DB_HEADER_SIZE with 320. by rewrite Z.max_l by lia.
Qed.

Lemma recovery_required_total u len :
  header_ok (UnrepairedDatabaseHeader.inner u) -> DatabaseHeader.page_size (UnrepairedDatabaseHeader.inner u) <= 2 ^ 22 ->
  UnrepairedDatabaseHeader.recovery_required u len =
    Ret (recovery_required (UnrepairedDatabaseHeader.inner u) || negb (file_bytes (layout_of (UnrepairedDatabaseHeader.inner u)) =? len)).
Proof.
  intros Hh Hps. unfold UnrepairedDatabaseHeader.recovery_required. destruct (recovery_required _); [done|].
  destruct (header_layout _ Hh Hps) as (-> & Hlok & HR). cbn [mbind outcome_bind]. by rewrite layout_len_ok by (done || lia).
Qed.

(** Opening a file whose length is that of its header *)
Lemma open_ok io c ps u h' kept read_only done_ :
  length c = Z.to_nat DB_HEADER_SIZE -> UnrepairedDatabaseHeader.from_bytes c ps = Ret (Okay u) ->
  header_ok (UnrepairedDatabaseHeader.inner u) -> DatabaseHeader.page_size (UnrepairedDatabaseHeader.inner u) = ps ->
  DB_HEADER_SIZE <= ps <= 2 ^ 22 -> (forall d e, io d e = true) ->
  UnrepairedDatabaseHeader.select_primary_slot u = Ret (Okay (h', kept)) ->
  same_but_primary (UnrepairedDatabaseHeader.inner u) h' ->
  (read_only = true -> recovery_required (UnrepairedDatabaseHeader.inner u) = false) ->
  let len := file_bytes (layout_of (UnrepairedDatabaseHeader.inner u)) in
  Open.open io (File.mk len c) ps read_only done_ =
    Ret (Okay (File.mk len (if recovery_required (UnrepairedDatabaseHeader.inner u) then header_bytes h' else c), opened h')).
Proof.
  intros Hl Hfrom Hh Hps Hpsb Hio Hsel Hsame Hro len. destruct (header_layout _ Hh ltac:(lia)) as (Hlay & Hlok & HR).
  eapply (open_finalized io c ps u h' kept); try done.
  - rewrite recovery_required_total by (done || lia). fold len. by rewrite Z.eqb_refl, orb_false_r.
  - unfold UnrepairedDatabaseHeader.finalize. rewrite Hlay. cbn [mbind outcome_bind]. rewrite layout_len_ok by (done || lia).
    cbn [mbind outcome_bind]. fold len. rewrite Z.ltb_irrefl. cbn [reject_if try_ mbind outcome_bind]. rewrite Z.eqb_refl. cbn [negb try_ mbind outcome_bind].
    destruct u as [h0 pc sc]. cbn in *. rewrite Hsel. cbn [try_ mbind outcome_bind]. by rewrite andb_true_r.
  - destruct Hsame as [-> | ->]; [done|by apply swap_ok].
  - by destruct Hsame as [-> | ->].
  - by destruct Hsame as [-> | ->].
Qed.

(** ** Files that have grown or shrunk since the header was written *)

(** The lengths that a file with the region size of [h] can have *)
Definition layout_length (h : DatabaseHeader.t) (len : Z) : Prop :=
  exists l, header_ok (at_layout h l) /\ file_bytes (layout_of (at_layout h l)) = len.

(** ... with a trailing region that is not full *)
Lemma layout_length_partial h len :
  layout_length h len ->
  exists l, header_ok (at_layout h l) /\ file_bytes (layout_of (at_layout h l)) = len /\ l.2 < region_max_data_pages h.
Proof.
  intros ([q k] & Hh & Hlen). pose proof Hh as [Hp Hf Hs]. cbn in Hf. pose proof Hf as (H1 & H2 & H3 & H4 & H5 & H6).
  destruct (decide (k = region_max_data_pages h)) as [E|]; [|exists (q, k); split_and!; [done..|cbn; lia]].
  exists (q + 1, 0). split; [|split; [|cbn; lia]].
  - split; [done| |done]. unfold fields_ok in *. cbn. rewrite (proj2 (Z.ltb_lt 0 k)) in H6 by lia. lia.
  - rewrite <-Hlen. unfold layout_of, at_layout, file_bytes, mk_layout, region_bytes. cbn. rewrite (proj2 (Z.eqb_neq k 0)) by lia. cbn. rewrite E. ring.
Qed.

Lemma reconcile_ok h len :
  header_ok h -> DatabaseHeader.page_size h <= PAGE_SIZE -> layout_length h len ->
  exists l, UnrepairedDatabaseHeader.reconcile h len = Ret (Okay (at_layout h l)) /\ header_ok (at_layout h l) /\
    file_bytes (layout_of (at_layout h l)) = len.
Proof.
  intros Hh Hps Hlen. destruct (layout_length_partial h len Hlen) as (l & Hl & Hbytes & Hpart). exists l. split; [|done]. change PAGE_SIZE with 4096 in Hps.
  destruct (header_layout (at_layout h l) Hl ltac:(cbn; lia)) as (_ & Hlok & HR). destruct (header_layout h Hh ltac:(lia)) as (Hlay & _).
  pose proof (ho_fields _ Hl) as (Hp & Hrh & Hrm & Htr & Hfr & Hn). cbn in Hp, Hrh, Hrm, Htr, Hfr, Hn.
  change (MAX_PAGE_INDEX + 1) with (2 ^ 20) in *. change MAX_REGIONS with (2 ^ 20) in *.
  assert (Hre : DatabaseLayout.recalculate len (region_header_pages h) (region_max_data_pages h) (DatabaseHeader.page_size h) = Ret (layout_of (at_layout h l))).
  { rewrite <-Hbytes. assert (Hd : region_max_data_pages h * DatabaseHeader.page_size h <= 2 ^ 20 * 4096) by nia.
    apply (recalculate_len _ Hlok); [lia|exact Hd|]. intros r Hr. cbn in Hr. destruct (l.2 =? 0); [done|]. injection Hr as <-. exact Hpart. }
  assert (Hmax : len <= DatabaseHeader.page_size h + 2 ^ 20 * ((region_header_pages h + region_max_data_pages h) * DatabaseHeader.page_size h)).
  { rewrite <-Hbytes. unfold layout_of, at_layout. cbn. rewrite mk_layout_bytes, regions_of_mk by lia.
    assert (l.1 * region_max_data_pages h + l.2 <= 2 ^ 20 * region_max_data_pages h) by (destruct (Z.ltb_spec 0 l.2); nia).
    set (R := l.1 + _) in *. nia. }
  unfold UnrepairedDatabaseHeader.reconcile. rewrite Hlay. cbn [mbind outcome_bind].
  change (DatabaseLayout.full_region_layout (layout_of h)) with
    (RegionLayout.mk (region_max_data_pages h) (region_header_pages h) (DatabaseHeader.page_size h)).
  cbn [RegionLayout.num_pages RegionLayout.header_pages]. rewrite Hre.
  assert (0 < (region_header_pages h + region_max_data_pages h) * DatabaseHeader.page_size h <= 2 ^ 21 * 4096) by nia.
  osteps. change MAX_REGIONS with (2 ^ 20). osteps. unfold reject_if. rewrite (proj2 (Z.ltb_ge _ _)) by lia. cbn [try_ mbind outcome_bind].
  rewrite layout_len_ok by (done || lia). cbn [mbind outcome_bind]. rewrite Hbytes, Z.eqb_refl. cbn [negb try_ mbind outcome_bind].
  unfold layout_of, at_layout. cbn. rewrite set_layout_ok by (done || lia). done.
Qed.

(** A header whose layout fits the file is adapted to the length of the file. *)
Lemma finalize_ok u len :
  let h := UnrepairedDatabaseHeader.inner u in
  header_ok h -> DatabaseHeader.page_size h <= PAGE_SIZE -> layout_length h len -> file_bytes (layout_of h) <= len ->
  exists l, header_ok (at_layout h l) /\ file_bytes (layout_of (at_layout h l)) = len /\
    forall h' kept, UnrepairedDatabaseHeader.select_primary_slot
        (UnrepairedDatabaseHeader.mk (at_layout h l) (UnrepairedDatabaseHeader.primary_corrupted u) (UnrepairedDatabaseHeader.secondary_corrupted u)) =
          Ret (Okay (h', kept)) ->
      exists clean, UnrepairedDatabaseHeader.finalize u len = Ret (Okay (h', clean)).
Proof.
  intros h Hh Hps Hlen Hle. unfold UnrepairedDatabaseHeader.finalize. fold h. change PAGE_SIZE with 4096 in Hps.
  destruct (header_layout h Hh ltac:(lia)) as (-> & Hlok & HR). cbn [mbind outcome_bind]. rewrite layout_len_ok by (done || lia). cbn [mbind outcome_bind].
  unfold reject_if. rewrite (proj2 (Z.ltb_ge _ _)) by lia. cbn [try_ mbind outcome_bind].
  destruct (Z.eqb_spec (file_bytes (layout_of h)) len) as [E|E]; cbn [negb].
  - exists (layout_fields h). rewrite at_layout_fields. split_and!; [done..|]. intros h' kept Hsel. exists kept. cbn [try_ mbind outcome_bind].
    rewrite Hsel. cbn [try_ mbind outcome_bind]. by rewrite andb_true_r.
  - destruct (reconcile_ok h len Hh Hps Hlen) as (l & -> & Hl & Hb). exists l. split_and!; [done..|]. intros h' kept Hsel.
    cbn [try_ mbind outcome_bind]. rewrite Hsel. cbn [try_ mbind outcome_bind]. eauto.
Qed.

(** A header whose layout does not fit the file is refused. *)
Lemma open_too_short io c ps u done_ len :
  length c = Z.to_nat DB_HEADER_SIZE -> UnrepairedDatabaseHeader.from_bytes c ps = Ret (Okay u) ->
  header_ok (UnrepairedDatabaseHeader.inner u) -> DatabaseHeader.page_size (UnrepairedDatabaseHeader.inner u) = ps ->
  DB_HEADER_SIZE <= ps <= 2 ^ 22 -> DB_HEADER_SIZE <= len < file_bytes (layout_of (UnrepairedDatabaseHeader.inner u)) ->
  Open.open io (File.mk len c) ps false done_ =
    Ret (Err (Storage (Corrupted (FileTruncated len (file_bytes (layout_of (UnrepairedDatabaseHeader.inner u))))))).
Proof.
  intros Hl Hfrom Hh Hps Hpsb Hlen. change DB_HEADER_SIZE with 320 in *.
  unfold Open.open, File.read_head. cbn [File.len File.head]. change DB_HEADER_SIZE with 320. rewrite (proj2 (Z.leb_le 320 len)) by lia.
  rewrite take_ge by (rewrite Hl; lia). rewrite utry_ok by lia. cbn [mbind outcome_bind].
  unfold Open.lift_error at 1. rewrite Hfrom. cbn [mbind outcome_bind try_]. rewrite recovery_required_total by (done || lia). cbn [mbind outcome_bind].
  rewrite andb_false_r. unfold Open.lift_error, UnrepairedDatabaseHeader.finalize.
  destruct (header_layout _ Hh ltac:(lia)) as (-> & Hlok & HR). cbn [mbind outcome_bind]. rewrite layout_len_ok by (done || lia). cbn [mbind outcome_bind].
  unfold reject_if. by rewrite (proj2 (Z.ltb_lt _ _)) by lia.
Qed.

(** A header that is not accepted *)
Lemma open_rejected io c ps e done_ len :
  length c = Z.to_nat DB_HEADER_SIZE -> UnrepairedDatabaseHeader.from_bytes c ps = Ret (Err e) ->
  0 <= ps < 2 ^ 32 -> DB_HEADER_SIZE <= len -> Open.open io (File.mk len c) ps false done_ = Ret (Err (Storage e)).
Proof.
  intros Hl Hfrom Hps Hlen. change DB_HEADER_SIZE with 320 in *.
  unfold Open.open, File.read_head. cbn [File.len File.head]. change DB_HEADER_SIZE with 320. rewrite (proj2 (Z.leb_le 320 len)) by lia.
  rewrite take_ge by (rewrite Hl; lia). rewrite utry_ok by lia. cbn [mbind outcome_bind].
  unfold Open.lift_error at 1. by rewrite Hfrom.
Qed.

(** * Recovering a torn commit *)

(** The two slots in file order, with the primary slot [p] *)
Definition in_order {A} (p : Z) (primary secondary : A) : list A :=
  if p =? 0 then [primary; secondary] else [secondary; primary].

Lemma header_slots h :
  header_ok h -> exists sp so, transaction_slots h = in_order (primary_slot_index h) sp so /\ slot_ok sp /\ slot_ok so /\
    DatabaseHeader.primary_slot h = Ret sp /\ DatabaseHeader.secondary_slot h = Ret so /\
    forall n, DatabaseHeader.set_secondary_slot h n =
      Ret (DatabaseHeader.mk (primary_slot_index h) (recovery_required h) (two_phase_commit h) (DatabaseHeader.page_size h) (region_header_pages h)
        (region_max_data_pages h) (full_regions h) (trailing_partial_region_pages h) (in_order (primary_slot_index h) sp n)).
Proof.
  intros [Hp _ (s0 & s1 & Hsl & Hs0 & Hs1)]. unfold DatabaseHeader.primary_slot, DatabaseHeader.secondary_slot, DatabaseHeader.set_secondary_slot.
  rewrite Hsl. destruct Hp as [-> | ->]; [exists s0, s1|exists s1, s0]; by split_and!.
Qed.

(** Selecting the primary slot, by the primary and the secondary slot *)
Lemma select_in_order H a b ca cb :
  (primary_slot_index H = 0 \/ primary_slot_index H = 1) -> transaction_slots H = in_order (primary_slot_index H) a b ->
  UnrepairedDatabaseHeader.select_primary_slot (UnrepairedDatabaseHeader.mk H ca cb) =
    (if two_phase_commit H then if ca then Ret (Err (Corrupted PrimaryCorruptedTwoPhase)) else Ret (Okay (H, true))
     else if ca then
       if cb then Ret (Err (Corrupted BothSlotsCorrupted)) else Ret (Okay (DatabaseHeader.swap_primary_slot H, false))
     else Ret (Okay (if (transaction_id a <? transaction_id b) && negb cb then (DatabaseHeader.swap_primary_slot H, false) else (H, true)))) /\
  DatabaseHeader.primary_slot H = Ret a /\ DatabaseHeader.primary_slot (DatabaseHeader.swap_primary_slot H) = Ret b.
Proof.
  destruct H as [p r tp ps rh rm fr tr slots]. cbn. intros Hp ->. unfold UnrepairedDatabaseHeader.select_primary_slot, DatabaseHeader.primary_slot. cbn.
  destruct Hp as [-> | ->]; cbn; (split; [by destruct tp, ca|done]).
Qed.

Section mixture.
  Context (h : DatabaseHeader.t) (sp so n : TransactionHeader.t) (tp : bool).

Notation p := (primary_slot_index h).
Notation q := (Z.lxor p 1).
(** The header of a file with the primary slot [sp] before or after a commit *)
Definition bytes_of (g : Z * bool) (secondary : list Z) : list Z :=
  super_header (with_god h g) ++ concat (in_order p (slot_bytes sp) secondary).

(** The header of such a mixture, by its primary and its secondary slot *)
Definition mixed (g : Z * bool) (st : TransactionHeader.t) : DatabaseHeader.t :=
  DatabaseHeader.mk g.1 (recovery_required h) g.2 (DatabaseHeader.page_size h) (region_header_pages h)
    (region_max_data_pages h) (full_regions h) (trailing_partial_region_pages h) (in_order p sp st).

Lemma length_bytes_of g t : length t = 128%nat -> length (bytes_of g t) = Z.to_nat DB_HEADER_SIZE.
Proof.
  intros Hl. unfold bytes_of, in_order. destruct (p =? 0); cbn [concat]; by rewrite !length_app, length_super_header, length_slot_bytes, Hl.
Qed.

  Context (Hh : header_ok h) (Hps : DB_HEADER_SIZE <= DatabaseHeader.page_size h <= PAGE_SIZE).
  Context (Hsp : slot_ok sp) (Hso : slot_ok so) (Hn : slot_ok n) (Hdet : checksum_detects so n).
  Context (Hold : transaction_id so < transaction_id sp \/ so = sp) (Hnew : transaction_id sp < transaction_id n).

Lemma read_mixture g t st cor :
  (g.1 = p \/ g.1 = q) -> length t = 128%nat -> TransactionHeader.from_bytes t = Ret (Okay (st, cor)) -> slot_ok st ->
  UnrepairedDatabaseHeader.from_bytes (bytes_of g t) (DatabaseHeader.page_size h) =
    Ret (Okay (if g.1 =? p then UnrepairedDatabaseHeader.mk (mixed g st) false cor else UnrepairedDatabaseHeader.mk (mixed g st) cor false)) /\
  header_ok (mixed g st) /\ length (bytes_of g t) = Z.to_nat DB_HEADER_SIZE /\
  transaction_slots (mixed g st) = if g.1 =? p then in_order g.1 sp st else in_order g.1 st sp.
Proof using Hh Hsp.
  intros Hg Hl Hst Hstok. destruct Hh as [Hp Hf Hs]. pose proof (slot_roundtrip sp Hsp) as Hrt.
  assert (Hgok : header_ok (with_god h g)).
  { split; [|done|done]. cbn. destruct Hg as [-> | ->]; [done|]. destruct Hp as [-> | ->]; vm_compute; auto. }
  assert (Hmok : header_ok (mixed g st)).
  { split; [apply Hgok|done|]. cbn. unfold in_order. destruct (p =? 0); eauto. }
  split; [|split; [done|split; [by apply length_bytes_of|]]].
  - unfold bytes_of, mixed, in_order. change (DatabaseHeader.page_size h) with (DatabaseHeader.page_size (with_god h g)) at 1.
    destruct Hp as [E | E]; rewrite E in *; cbn [Z.eqb concat]; rewrite app_nil_r.
    + rewrite (header_from_slots _ _ _ sp st false cor Hgok (length_slot_bytes sp) Hl Hrt Hst). unfold with_slots. cbn. by destruct Hg as [-> | ->].
    + rewrite (header_from_slots _ _ _ st sp cor false Hgok Hl (length_slot_bytes sp) Hst Hrt). unfold with_slots. cbn. by destruct Hg as [-> | ->].
  - unfold mixed, in_order. cbn. destruct Hp as [E | E]; rewrite E in Hg |- *; by destruct Hg as [-> | ->].
Qed.

(** Selecting the primary slot of such a mixture: the old commit or the new one *)
Lemma select_mixture H g t st cor :
  header_ok H -> primary_slot_index H = g.1 -> two_phase_commit H = g.2 ->
  transaction_slots H = (if g.1 =? p then in_order g.1 sp st else in_order g.1 st sp) ->
  (cor = false -> st = so \/ st = n) -> (t = slot_bytes n -> st = n /\ cor = false) ->
  (g = (p, two_phase_commit h) \/ g = (q, tp) /\ (tp = true -> t = slot_bytes n)) ->
  exists h' kept, UnrepairedDatabaseHeader.select_primary_slot
      (if g.1 =? p then UnrepairedDatabaseHeader.mk H false cor else UnrepairedDatabaseHeader.mk H cor false) = Ret (Okay (h', kept)) /\
    same_but_primary H h' /\ (DatabaseHeader.primary_slot h' = Ret sp \/ DatabaseHeader.primary_slot h' = Ret n) /\
    (g = (q, tp) -> t = slot_bytes n -> DatabaseHeader.primary_slot h' = Ret n).
Proof using Hh Hold Hnew.
  intros Hok Hpi Htp Hsl Hcor Htn Hg. assert (Hpq : p <> q) by (destruct (ho_primary _ Hh) as [-> | ->]; done). rewrite <-Hpi in Hsl.
  destruct (Z.eqb_spec g.1 p) as [E|E].
  - rewrite Hpi, E, Z.eqb_refl, <-E, <-Hpi in Hsl. destruct (select_in_order H sp st false cor (ho_primary _ Hok) Hsl) as (-> & Hpr & Hsw).
    assert (Hng : g <> (q, tp)) by (intros ->; cbn in E; congruence).
    destruct (two_phase_commit H); [exists H, true; split_and!; [done|by left|by left|done]|].
    destruct (Z.ltb_spec (transaction_id sp) (transaction_id st)); cbn [andb]; [destruct cor; cbn [negb]|].
    + exists H, true. split_and!; [done|by left|by left|done].
    + eexists _, _. split; [done|]. split; [by right|]. split; [|done]. rewrite Hsw. destruct (Hcor eq_refl) as [->| ->]; [|by right].
      destruct Hold as [?|E']; [lia|left; by rewrite E'].
    + exists H, true. split_and!; [done|by left|by left|done].
  - destruct Hg as [->|[-> Hfull]]; [done|]. cbn [fst snd] in *. rewrite Hpi, (proj2 (Z.eqb_neq q p)) in Hsl by congruence. rewrite <-Hpi in Hsl.
    destruct (select_in_order H st sp cor false (ho_primary _ Hok) Hsl) as (-> & Hpr & Hsw). rewrite Htp.
    destruct tp.
    + destruct (Htn (Hfull eq_refl)) as [-> ->]. exists H, true. split_and!; [done|by left|by right|done].
    + destruct cor.
      * eexists _, _. split; [done|]. split; [by right|]. rewrite Hsw. split; [by left|]. intros _ E'. by destruct (Htn E').
      * rewrite andb_true_r. destruct (Hcor eq_refl) as [->| ->].
        -- assert (Hne : t <> slot_bytes n) by (intros E'; destruct (Htn E') as [E'' _]; destruct Hold as [Ho|Ho]; [|apply (f_equal transaction_id) in Ho]; rewrite E'' in Ho; lia).
           destruct (Z.ltb_spec (transaction_id so) (transaction_id sp)).
           ++ eexists _, _. split; [done|]. split; [by right|]. rewrite Hsw. split; [by left|done].
           ++ destruct Hold as [?|E']; [lia|]. eexists _, _. split; [done|]. split; [by left|]. rewrite Hpr, E'. split; [by left|done].
        -- rewrite (proj2 (Z.ltb_ge _ _)) by lia. eexists _, _. split; [done|]. split; [by left|]. split; [by right|done].
Qed.

(** Opening such a mixture in a file that its layout fits *)
Lemma recover_mixture io g t len :
  (forall d e, io d e = true) -> torn 128 [slot_bytes so; slot_bytes n] t ->
  (g = (p, two_phase_commit h) \/ g = (q, tp) /\ (tp = true -> t = slot_bytes n)) ->
  layout_length h len -> file_bytes (layout_of h) <= len ->
  exists f h', Open.open io (File.mk len (bytes_of g t)) (DatabaseHeader.page_size h) false [] = Ret (Okay (f, opened h')) /\
    file_bytes (layout_of h') = len /\
    (DatabaseHeader.primary_slot h' = Ret sp \/ DatabaseHeader.primary_slot h' = Ret n) /\
    (g = (q, tp) -> t = slot_bytes n -> DatabaseHeader.primary_slot h' = Ret n).
Proof using Hh Hps Hsp Hso Hn Hdet Hold Hnew.
  intros Hio Ht Hg Hlen Hle. destruct (torn_slot so n t Hso Hn Hdet Ht) as (st & cor & Hst & Hstok & Hcor & Htn). destruct Ht as [Hlt _].
  assert (Hgi : g.1 = p \/ g.1 = q) by (destruct Hg as [->|[-> _]]; auto). change PAGE_SIZE with 4096 in Hps. change DB_HEADER_SIZE with 320 in Hps.
  destruct (read_mixture g t st cor Hgi Hlt Hst Hstok) as (Hread & Hok & Hl & Hsl). set (u := if g.1 =? p then _ else _) in Hread.
  assert (Hu : UnrepairedDatabaseHeader.inner u = mixed g st) by (unfold u; by destruct (g.1 =? p)).
  destruct (finalize_ok u len) as (l & Hlok & Hbytes & Hfin); rewrite Hu in *; [done|cbn; change PAGE_SIZE with 4096; lia| |done|].
  { destruct Hlen as (l & [_ Hf _] & Hb). exists l. split; [|done]. split; [apply Hok|exact Hf|apply Hok]. }
  destruct (select_mixture (at_layout (mixed g st) l) g t st cor Hlok) as (h' & kept & Hsel & Hsame & Hpr & Hnw); try done.
  destruct (Hfin h' kept) as (clean & Hfin'); [rewrite <-Hsel; unfold u; by destruct (g.1 =? p)|].
  assert (Hsame' : header_ok h' /\ DatabaseHeader.page_size h' = DatabaseHeader.page_size h /\ file_bytes (layout_of h') = len).
  { destruct Hsame as [-> | ->]; [done|]. split; [by apply swap_ok|done]. }
  destruct Hsame' as (Hh' & Hps' & Hb').
  assert (Hreq := recovery_required_total u len). rewrite Hu in Hreq. specialize (Hreq Hok ltac:(cbn; lia)).
  eexists _, h'. split; [|done]. eapply (open_finalized io (bytes_of g t) _ u h' clean _ false [] len Hl Hread Hreq Hfin' Hh' Hps' Hb'); [|done|done].
  change DB_HEADER_SIZE with 320. lia.
Qed.

End mixture.

(** ** Layout fields that were torn *)

(** [from_bytes] accepts the layout fields [l]. *)
Definition layout_valid (h : DatabaseHeader.t) (l : Z * Z) : bool :=
  let regions := l.1 + (if 0 <? l.2 then 1 else 0) in
  (l.2 <=? region_max_data_pages h) && (0 <? regions) && (regions <=? MAX_REGIONS).
(** The layout fields that a power failure left are valid and describe no more than the
    file has; the other fields are those of [h]. *)
Definition layout_fits (h : DatabaseHeader.t) (f : File.t) : bool :=
  let l := read_layout (take 8 (drop 24 (File.head f))) in
  layout_valid h l && (file_bytes (layout_of (at_layout h l)) <=? File.len f).

Lemma layout_valid_ok h l : header_ok h -> in_u 32 l.1 -> in_u 32 l.2 -> layout_valid h l = true <-> header_ok (at_layout h l).
Proof.
  intros [Hp Hf Hs] H1 H2. unfold layout_valid. rewrite !andb_true_iff, !Z.leb_le, Z.ltb_lt. unfold in_u in *. split.
  - intros [[? ?] ?]. split; [done| |done]. destruct Hf as (?&?&?&_). unfold fields_ok. cbn. split_and!; lia.
  - intros [_ (?&?&?&?&?&?) _]. cbn in *. lia.
Qed.

Lemma invalid_layout_refused h l g t sp :
  header_ok h -> in_u 32 l.1 -> in_u 32 l.2 -> length t = 128%nat -> layout_valid h l = false ->
  exists e, UnrepairedDatabaseHeader.from_bytes (bytes_of (at_layout h l) sp g t) (DatabaseHeader.page_size h) = Ret (Err (Corrupted e)).
Proof.
  intros Hh H1 H2 Hlt Hv. unfold in_u in *. pose proof (ho_fields _ Hh) as (Hp & Hrh & Hrm & _). change (MAX_PAGE_INDEX + 1) with (2 ^ 20) in *.
  assert (Hc : exists e, UnrepairedDatabaseHeader.check_fields (DatabaseHeader.page_size h) (DatabaseHeader.page_size h) (region_header_pages h)
      (region_max_data_pages h) l.1 l.2 = Ret (Err (Corrupted e))).
  { unfold UnrepairedDatabaseHeader.check_fields, reject_if. rewrite Z.eqb_refl. cbn [negb try_ mbind outcome_bind]. change (MAX_PAGE_INDEX + 1) with (2 ^ 20).
    rewrite (proj2 (Z.eqb_neq _ 0)), (proj2 (Z.ltb_ge (2 ^ 20) (region_max_data_pages h))), (proj2 (Z.ltb_ge (2 ^ 20) (region_header_pages h))) by lia.
    cbn [orb try_ mbind outcome_bind]. unfold layout_valid in Hv. destruct (Z.ltb_spec (region_max_data_pages h) l.2); [eauto|]. cbn [try_ mbind outcome_bind].
    rewrite uadd_ok by (destruct (0 <? l.2); lia). cbn [mbind outcome_bind]. rewrite (proj2 (Z.leb_le _ _)) in Hv by lia. cbn [andb] in Hv.
    destruct (Z.eqb_spec (l.1 + (if 0 <? l.2 then 1 else 0)) 0); [eauto|]. cbn [orb].
    destruct (Z.ltb_spec MAX_REGIONS (l.1 + (if 0 <? l.2 then 1 else 0))); [eauto|].
    rewrite (proj2 (Z.leb_le _ _)), andb_true_r in Hv by lia. apply Z.ltb_ge in Hv. destruct (0 <? l.2); lia. }
  destruct Hc as (e & Hc). exists e. unfold bytes_of.
  assert (exists d0 d1, length d0 = 128%nat /\ length d1 = 128%nat /\
    concat (in_order (primary_slot_index (at_layout h l)) (slot_bytes sp) t) = d0 ++ d1) as (d0 & d1 & Hd0 & Hd1 & ->).
  { unfold in_order. destruct (_ =? 0); cbn [concat]; rewrite app_nil_r; eexists _, _; (split_and!; [..|done]); done || apply length_slot_bytes. }
  change (super_header (with_god (at_layout h l) g)) with (parts_super MAGICNUMBER (to_le_bytes 4 (DatabaseHeader.page_size h))
    (to_le_bytes 4 (region_header_pages h)) (to_le_bytes 4 (region_max_data_pages h)) (to_le_bytes 4 l.1)
    (to_le_bytes 4 l.2) (replicate 32 0) (god_byte g.1 (recovery_required h) g.2) 0 0).
  rewrite header_from_parts by (done || apply length_to_le_bytes). rewrite bool_decide_true by done. cbn [negb reject_if try_ mbind outcome_bind].
  rewrite !from_to_le_bytes by (change (8 * Z.of_nat 4) with 32; lia). by rewrite Hc.
Qed.

(** What opening the file returns: a database with the primary slot [s], or an error *)
Definition opens io (h : DatabaseHeader.t) (f : File.t) (s : TransactionHeader.t) : Prop :=
  exists f' h', Open.open io f (DatabaseHeader.page_size h) false [] = Ret (Okay (f', opened h')) /\
    file_bytes (layout_of h') = File.len f /\ DatabaseHeader.primary_slot h' = Ret s.
Definition refused io (h : DatabaseHeader.t) (f : File.t) : Prop :=
  exists e, Open.open io f (DatabaseHeader.page_size h) false [] = Ret (Err (Storage (Corrupted e))).

(** * The commit *)

Lemma last_in {A} (l : list A) x : List.last l x ∈ x :: l.
Proof.
  destruct l as [|y l] using rev_ind; [by left|]. rewrite List.last_last. right. apply elem_of_app. right. by left.
Qed.

(** What can be on disk at the times of a commit that writes [w1] and [w2] over [w0], and
    may shrink the file at the end *)
Lemma commit_prefixes (w0 w1 w2 : list Z) (tp : bool) (k0 : Z) (ks : list Z) (shrink pre rest : list event) :
  [CheckErrors; WriteHeader w1] ++ (if tp then [Flush] else []) ++ [WriteHeader w2; Flush] ++ shrink = pre ++ rest ->
  shrink = [] \/ (exists k, shrink = [Resize k]) ->
  let d := disk_run (Disk w0 [] k0 ks) pre in let ws := durable d :: pending d in
  ws = [w2] /\ (forall k, k ∈ lengths d -> k = List.last ks k0 \/ shrink = [Resize k]) \/
  rest <> [] /\ (forall k, k ∈ lengths d -> k ∈ k0 :: ks) /\
    (ws = [w0] \/ ws = [w0; w1] \/ ws = [w0; w1; w2] /\ tp = false \/ ws = [w1] \/ ws = [w1; w2]).
Proof.
  intros Hev Hs. pose proof (last_in ks k0) as Hlast.
  assert (H1 : forall k, k ∈ [List.last ks k0] -> k ∈ k0 :: ks) by (intros k ->%list_elem_of_singleton; exact Hlast).
  assert (H2 : forall k, k ∈ [List.last ks k0] -> k = List.last ks k0 \/ shrink = [Resize k]) by (intros k ->%list_elem_of_singleton; by left).
  destruct tp; cbn [app] in Hev;
    repeat (destruct pre as [|? pre]; [cbn [app] in Hev; subst rest; cbn; first [left; split; [done|exact H2]|right; split; [done|split; [done || exact H1|tauto]]]|
      cbn [app] in Hev; first [discriminate Hev|injection Hev as <- Hev|idtac]]);
    (destruct Hs as [->|[k ->]]; cbn [app] in Hev; [discriminate Hev|]; injection Hev as <- Hev; destruct pre; [|discriminate Hev];
     cbn; left; (split; [done|]); intros k'; set_solver).
Qed.

Section torn_commit.
  Context (h : DatabaseHeader.t) (sp so n : TransactionHeader.t) (tp : bool) (l0 l : Z * Z).

Notation p := (primary_slot_index h).
Notation q := (Z.lxor p 1).
Notation entry := ((Z * bool) * (Z * Z) * TransactionHeader.t)%type.
Definition entry_bytes (x : entry) : list Z := bytes_of (at_layout h x.1.2) sp x.1.1 (slot_bytes x.2).

(** The header of the file before the commit and after its two writes *)
Definition before : entry := ((p, two_phase_commit h), l0, so).
Definition first_write : entry := ((p, two_phase_commit h), l, n).
Definition second_write : entry := ((q, tp), l, n).

(** The operations on the file of a commit *)
Definition commit_events (shrink : list event) : list event :=
  [CheckErrors; WriteHeader (entry_bytes first_write)] ++ (if tp then [Flush] else []) ++
  [WriteHeader (entry_bytes second_write); Flush] ++ shrink.

(** Any mixture of such headers has one of their god bytes, the old primary slot and
    mixtures of their layout fields and secondary slots. *)
Lemma torn_headers (L : list entry) c :
  torn 320 (map entry_bytes L) c ->
  exists x F t, x ∈ L /\ torn 8 (map (fun x => layout_bytes x.1.2) L) F /\ torn 128 (map (fun x => slot_bytes x.2) L) t /\
    c = bytes_of (at_layout h (read_layout F)) sp x.1.1 t.
Proof.
  intros Hc. unfold entry_bytes, bytes_of, in_order in *.
  change (primary_slot_index (at_layout h _)) with p. 
  change (torn 320 (map (fun x : entry => super_header (with_god (at_layout h x.1.2) x.1.1) ++
    concat (if p =? 0 then [slot_bytes sp; slot_bytes x.2] else [slot_bytes x.2; slot_bytes sp])) L) c) in Hc.
  assert (Hparts : forall f1 f2 : entry -> list Z, (forall x, length (f1 x) = 128%nat) -> (forall x, length (f2 x) = 128%nat) ->
    torn 320 (map (fun x => super_header (with_god (at_layout h x.1.2) x.1.1) ++ f1 x ++ f2 x) L) c ->
    exists x F a b, c = super_header (with_god (at_layout h (read_layout F)) x.1.1) ++ a ++ b /\ x ∈ L /\ torn 8 (map (fun x => layout_bytes x.1.2) L) F /\
      torn 128 (map f1 L) a /\ torn 128 (map f2 L) b).
  { intros f1 f2 Hf1 Hf2 Ht.
    destruct (torn_parts (map (fun x => (super_header (with_god (at_layout h x.1.2) x.1.1), f1 x, f2 x)) L) c 64 128 128) as (s & a & b & -> & Hs & Ha & Hb).
    - intros s a b (x & [= -> -> ->] & _)%list_elem_of_fmap. by rewrite length_super_header, Hf1, Hf2.
    - rewrite map_map. exact Ht.
    - rewrite map_map in Hs, Ha, Hb. apply (torn_super h (fun x => x.1.1) (fun x => x.1.2)) in Hs as (x & F & Hx & HF & ->). by exists x, F, a, b. }
  assert (Hconst : forall a, torn 128 (map (fun _ : entry => slot_bytes sp) L) a -> a = slot_bytes sp).
  { intros a Ha. eapply torn_const; [exact Ha|apply length_slot_bytes|]. by intros x (y & -> & _)%list_elem_of_fmap. }
  destruct (Z.eqb_spec p 0) as [E|E]; cbn [concat] in *; erewrite List.map_ext in Hc by (intros; by rewrite app_nil_r).
  - destruct (Hparts (fun _ => slot_bytes sp) (fun x => slot_bytes x.2)) as (x & F & a & b & -> & Hx & HF & Ha & Hb); [intros; apply length_slot_bytes..|exact Hc|].
    exists x, F, b. split_and!; try done. by rewrite (Hconst a Ha), app_nil_r.
  - destruct (Hparts (fun x => slot_bytes x.2) (fun _ => slot_bytes sp)) as (x & F & a & b & -> & Hx & HF & Ha & Hb); [intros; apply length_slot_bytes..|exact Hc|].
    exists x, F, a. split_and!; try done. by rewrite (Hconst b Hb), app_nil_r.
Qed.

Lemma torn_entries (L : list entry) c :
  in_u 32 l.1 -> in_u 32 l.2 -> (forall x, x ∈ L -> x = before \/ x = first_write \/ x = second_write) ->
  (tp = true -> Forall (fun x => x.1.1 = (p, two_phase_commit h)) L \/ Forall (fun x => x.2 = n) L) -> torn 320 (map entry_bytes L) c ->
  exists g y t, c = bytes_of (at_layout h y) sp g t /\ in_u 32 y.1 /\ in_u 32 y.2 /\ torn 128 [slot_bytes so; slot_bytes n] t /\
    (g = (p, two_phase_commit h) \/ g = (q, tp) /\ (tp = true -> t = slot_bytes n)) /\ (l0 = l -> y = l) /\
    (L = [second_write] -> g = (q, tp) /\ t = slot_bytes n /\ y = l).
Proof.
  intros Hl1 Hl2 HL Htp Hc. destruct (torn_headers L c Hc) as (x & F & t & Hx & HF & Ht & ->).
  assert (HFb : length F = 8%nat /\ Forall byte F).
  { split; [apply HF|]. eapply torn_all; [exact HF|]. intros b (y & -> & _)%list_elem_of_fmap. apply Forall_app. split; apply to_le_bytes_byte. }
  destruct HFb as [HFl HFb]. destruct (read_layout_in_u F HFl HFb) as [Hy1 Hy2].
  assert (Hfields : (forall y, y ∈ L -> y.1.2 = l) -> read_layout F = l).
  { intros Hall. rewrite (torn_const _ _ _ (layout_bytes l) HF); [by apply read_layout_bytes|apply length_layout_bytes|].
    intros b (y & -> & Hy)%list_elem_of_fmap. by rewrite Hall. }
  assert (Hslot : (forall y, y ∈ L -> y.2 = n) -> t = slot_bytes n).
  { intros Hall. eapply torn_const; [exact Ht|apply length_slot_bytes|]. intros b (y & -> & Hy)%list_elem_of_fmap. by rewrite Hall. }
  exists x.1.1, (read_layout F), t. split_and!; try done.
  - eapply torn_subset; [exact Ht|]. intros b (y & -> & Hy)%list_elem_of_fmap. destruct (HL y Hy) as [->|[->| ->]]; cbn; set_solver.
  - rewrite !Forall_forall in Htp. destruct (HL x Hx) as [E|[E|E]]; rewrite E; [by left..|].
    destruct (decide (tp = true)) as [Et|Et]; [|by right]. destruct (Htp Et) as [Hg|Hg]; [left; rewrite <-E; by apply Hg|right; auto].
  - intros E. apply Hfields. intros y Hy. by destruct (HL y Hy) as [->|[->| ->]].
  - intros ->. apply list_elem_of_singleton in Hx as ->.
    split; [done|]. split; [apply Hslot|apply Hfields]; by intros y ->%list_elem_of_singleton.
Qed.

(** At any time during a commit, the header is one of those mixtures. *)
Lemma commit_crash k0 ks shrink pre rest f :
  in_u 32 l.1 -> in_u 32 l.2 -> shrink = [] \/ (exists k, shrink = [Resize k]) -> commit_events shrink = pre ++ rest ->
  contents (disk_run (Disk (entry_bytes before) [] k0 ks) pre) f ->
  exists g y t, File.head f = bytes_of (at_layout h y) sp g t /\ in_u 32 y.1 /\ in_u 32 y.2 /\ torn 128 [slot_bytes so; slot_bytes n] t /\
    (g = (p, two_phase_commit h) \/ g = (q, tp) /\ (tp = true -> t = slot_bytes n)) /\ (l0 = l -> y = l) /\
    (g = (q, tp) /\ t = slot_bytes n /\ y = l /\ (File.len f = List.last ks k0 \/ shrink = [Resize (File.len f)]) \/
     rest <> [] /\ File.len f ∈ k0 :: ks).
Proof.
  intros Hl1 Hl2 Hsh Hev [Hc Hlen]. change (Z.to_nat DB_HEADER_SIZE) with 320%nat in Hc.
  pose proof (commit_prefixes (entry_bytes before) _ _ tp k0 ks shrink pre rest Hev Hsh) as Hcase. cbn zeta in Hcase.
  destruct Hcase as [[Hws Hk]|(Hr & Hk & Hws)].
  - rewrite Hws in Hc. destruct (torn_entries [second_write] (File.head f)) as (g & y & t & H1 & H2 & H3 & H4 & H5 & H6 & H7); [done|done|set_solver|by right; repeat constructor|done|].
    exists g, y, t. split_and!; try done. left. destruct (H7 eq_refl) as (? & ? & ?). auto.
  - assert (exists L, durable (disk_run (Disk (entry_bytes before) [] k0 ks) pre) :: pending (disk_run (Disk (entry_bytes before) [] k0 ks) pre) = map entry_bytes L /\
      (L = [before] \/ L = [before; first_write] \/ L = [before; first_write; second_write] /\ tp = false \/ L = [first_write] \/ L = [first_write; second_write]))
      as (L & HL & Hcase).
    { destruct Hws as [->|[->|[[-> ?]|[->| ->]]]];
        [exists [before]|exists [before; first_write]|exists [before; first_write; second_write]|exists [first_write]|exists [first_write; second_write]]; (split; [done|tauto]). }
    rewrite HL in Hc. destruct (torn_entries L (File.head f)) as (g & y & t & H1 & H2 & H3 & H4 & H5 & H6 & _); try done.
    + clear Hc Hlen Hk Hev HL Hws Hsh. intros x Hx. destruct Hcase as [->|[->|[[-> _]|[->| ->]]]]; set_solver.
    + intros E. destruct Hcase as [->|[->|[[-> ?]|[->| ->]]]]; (congruence || (by left; repeat constructor) || (by right; repeat constructor)).
    + exists g, y, t. split_and!; try done. right. auto.
Qed.

End torn_commit.

(** The header after a commit *)
Definition committed (h : DatabaseHeader.t) (sp n : TransactionHeader.t) (tp : bool) : DatabaseHeader.t :=
  mixed h sp (Z.lxor (primary_slot_index h) 1, tp) n.

Lemma header_bytes_in_order h sp so :
  transaction_slots h = in_order (primary_slot_index h) sp so ->
  header_bytes h = bytes_of h sp (primary_slot_index h, two_phase_commit h) (slot_bytes so).
Proof.
  intros Hs. unfold header_bytes, bytes_of, slot_at. rewrite Hs. unfold in_order. destruct h. cbn.
  destruct (_ =? 0); cbn; by rewrite app_nil_r.
Qed.

Lemma mixed_bytes h sp g st : header_bytes (mixed h sp g st) = bytes_of h sp g (slot_bytes st).
Proof. unfold header_bytes, bytes_of, mixed, slot_at, in_order. cbn. destruct (_ =? 0); cbn; by rewrite app_nil_r. Qed.

Lemma mixed_ok h sp g st :
  header_ok h -> slot_ok sp -> slot_ok st -> g.1 = primary_slot_index h \/ g.1 = Z.lxor (primary_slot_index h) 1 -> header_ok (mixed h sp g st).
Proof.
  intros [Hp Hf _] Hsp Hst Hg. split; [|done|].
  - cbn. destruct Hg as [-> | ->]; [done|]. destruct Hp as [-> | ->]; vm_compute; auto.
  - cbn. unfold in_order. destruct (_ =? 0); eauto.
Qed.

Lemma runs_write_header {B} io m h Q (k : unit -> TransactionalMemory.M B) :
  header_ok h -> runs (k tt) (TransactionalMemory.record m (WriteHeader (header_bytes h))) Q ->
  Q (TransactionalMemory.record m (WriteHeader (header_bytes h))) (Err IoError) ->
  runs (TransactionalMemory.write_header io h ≫= k) m Q.
Proof.
  intros Hh Hk HQ. apply mem_runs_bind. unfold TransactionalMemory.write_header. eapply mem_runs_lift; [by apply header_to_bytes|].
  eexists _, _. split; [done|]. destruct (io _ _); [exact Hk|exact HQ].
Qed.

(** The end of a commit that shrank the file or did not *)
Definition shrink_events (h : DatabaseHeader.t) (shrunk : bool) : list event :=
  if shrunk then [Resize (file_bytes (layout_of h))] else [].

(** What a commit did when it returned: the operations so far, all of them on success *)
Definition commit_post (m : TransactionalMemory.t) (sp n : TransactionHeader.t) (tp : bool) (m' : TransactionalMemory.t)
    (r : result unit storage_error) : Prop :=
  let h := header (state m) in
  exists l shrunk evs rest, storage m' = storage m ++ evs /\
    commit_events h sp n tp l (shrink_events (at_layout h l) shrunk) = evs ++ rest /\ layout_fields (header (state m')) = l /\
    header_ok (at_layout h l) /\ file_bytes (layout_of (at_layout h l)) <= file_bytes (layout_of h) /\
    match r with
    | Okay _ => rest = [] /\ header (state m') = committed (at_layout h l) sp n tp
    | Err _ => True
    end.

(** What the policy makes of the file *)
Lemma shrink_by_policy m policy :
  mem_ok m -> let s := state m in
  exists s' shrunk l,
    (match policy with
     | ShrinkNever => Ret (s, false)
     | ShrinkMaximum => TransactionalMemory.try_shrink s true
     | ShrinkDefault => TransactionalMemory.try_shrink s false
     end) = Ret (s', shrunk) /\
    header s' = at_layout (header s) l /\ header_ok (header s') /\ file_bytes (layout_of (header s')) <= file_bytes (layout_of (header s)).
Proof.
  intros Hm s. destruct (mo_state _ Hm) as (a & nn & Hal & Hst & Hheap).
  assert (Htry : forall force, exists s' shrunk l, TransactionalMemory.try_shrink s force = Ret (s', shrunk) /\ header s' = at_layout (header s) l /\
    header_ok (header s') /\ file_bytes (layout_of (header s')) <= file_bytes (layout_of (header s))).
  { intros force. destruct (try_shrink_ok s nn a (TransactionalMemory.allocated_pages m) force Hal Hst Hheap) as (s' & shrunk & Hrun & q & k & a' & Hh & _ & Hst' & _ & _ & Hle).
    exists s', shrunk, (q, k). split_and!; try done. apply Hst'. }
  destruct policy; [apply Htry|apply Htry|]. exists s, false, (layout_fields (header s)). rewrite at_layout_fields. split_and!; try done. apply Hst.
Qed.

Ltac storage_simpl :=
  cbn [storage TransactionalMemory.record TransactionalMemory.set_state TransactionalMemory.set_unpersisted].

(** The end of a commit, after its first write *)
Lemma commit_tail io m m2 sp so n tp l shrunk evs :
  let h := header (state m) in let h2 := committed (at_layout h l) sp n tp in
  header_ok (at_layout h l) -> slot_ok sp -> slot_ok n -> file_bytes (layout_of (at_layout h l)) <= file_bytes (layout_of h) ->
  DatabaseHeader.page_size h <= 2 ^ 22 ->
  storage m2 = storage m ++ evs -> header (state m2) = at_layout h l -> DatabaseHeader.secondary_slot (at_layout h l) = Ret so ->
  commit_events h sp n tp l (shrink_events (at_layout h l) shrunk) =
    evs ++ [WriteHeader (entry_bytes h sp (second_write h n tp l)); Flush] ++ shrink_events (at_layout h l) shrunk ->
  runs (_ ← TransactionalMemory.write_header io h2; _ ← TransactionalMemory.perform io Flush;
    _ ← (if shrunk then
           x ← TransactionalMemory.lift (DatabaseHeader.layout h2);
           k ← TransactionalMemory.lift (DatabaseLayout.len x);
           TransactionalMemory.perform io (Resize k)
         else mret tt : TransactionalMemory.M unit);
    _ ← TransactionalMemory.modify (fun m => TransactionalMemory.set_unpersisted m ∅ ∅ ∅); s ← TransactionalMemory.gets state;
    now ← TransactionalMemory.lift (DatabaseHeader.secondary_slot (header s));
    _ ← TransactionalMemory.lift (rassert (transaction_id now =? transaction_id so));
    TransactionalMemory.modify (fun m => TransactionalMemory.set_state m (InMemoryState.mk h2 (allocators s) false))) m2
    (commit_post m sp n tp).
Proof.
  intros h h2 Hl Hsp Hn Hle Hps Hst2 Hh2 Hse Hev. set (w2 := WriteHeader _) in Hev. set (rs := shrink_events _ _) in Hev.
  assert (Hok : header_ok h2) by (apply mixed_ok; auto).
  assert (Hb2 : WriteHeader (header_bytes h2) = w2) by (unfold w2, h2, committed; by rewrite mixed_bytes).
  assert (Herr : forall m' evs' rest, storage m' = storage m ++ evs ++ evs' -> [w2; Flush] ++ rs = evs' ++ rest -> header (state m') = at_layout h l ->
    commit_post m sp n tp m' (Err IoError)).
  { intros m' evs' rest Hst Hr Hh'. exists l, shrunk, (evs ++ evs'), rest. fold h rs. rewrite Hh', Hev, Hr, <-app_assoc. split_and!; try done. by destruct l. }
  assert (Hend : forall m3, storage m3 = storage m ++ evs ++ [w2; Flush] ++ rs -> header (state m3) = at_layout h l ->
    runs (_ ← TransactionalMemory.modify (fun m => TransactionalMemory.set_unpersisted m ∅ ∅ ∅); s ← TransactionalMemory.gets state;
      now ← TransactionalMemory.lift (DatabaseHeader.secondary_slot (header s));
      _ ← TransactionalMemory.lift (rassert (transaction_id now =? transaction_id so));
      TransactionalMemory.modify (fun m => TransactionalMemory.set_state m (InMemoryState.mk h2 (allocators s) false))) m3 (commit_post m sp n tp)).
  { intros m3 Hst3 Hh3. apply runs_modify, mem_runs_gets. eapply mem_runs_lift; [cbn; rewrite Hh3; exact Hse|].
    eapply mem_runs_lift; [by rewrite Z.eqb_refl|]. apply runs_modify_last. exists l, shrunk, (evs ++ [w2; Flush] ++ rs), [].
    fold h rs. rewrite Hev, app_nil_r. split_and!; try done. by destruct l. }
  apply runs_write_header; [done| |rewrite Hb2; eapply (Herr _ [w2] ([Flush] ++ rs)); [storage_simpl; by rewrite Hst2, <-app_assoc|done..]]. rewrite Hb2.
  apply runs_perform; [|eapply (Herr _ [w2; Flush] rs); [storage_simpl; by rewrite Hst2, <-!app_assoc|done..]].
  destruct shrunk; cbn [shrink_events] in rs.
  - apply mem_runs_bind. destruct (header_layout h2 Hok Hps) as (Hlay & Hlok & HR). eapply mem_runs_lift; [exact Hlay|].
    eapply mem_runs_lift; [apply layout_len_ok; [done|lia]|]. change (layout_of h2) with (layout_of (at_layout h l)).
    eexists _, _. split; [done|]. fold w2. assert (Hst3 : forall m0, storage m0 = storage m ++ evs ->
      storage (TransactionalMemory.record (TransactionalMemory.record (TransactionalMemory.record m0 w2) Flush) (Resize (file_bytes (layout_of (at_layout h l))))) =
        storage m ++ evs ++ [w2; Flush] ++ rs) by (intros m0 Hm0; storage_simpl; by rewrite Hm0, <-!app_assoc).
    destruct (io _ _); cbn [on_okay]; [apply Hend; [by apply Hst3|done]|].
    eapply (Herr _ ([w2; Flush] ++ rs) []); [by apply Hst3|by rewrite app_nil_r|done].
  - apply mem_runs_bind, mem_runs_ret. cbn [on_okay]. apply Hend; [storage_simpl; by rewrite Hst2, <-!app_assoc|done].
Qed.

Lemma commit_runs io m data system txn tp policy sp so :
  let h := header (state m) in let n := TransactionalMemory.commit_slot so data system txn in
  mem_ok m -> transaction_slots h = in_order (primary_slot_index h) sp so -> slot_ok sp -> slot_ok n -> open_dirty_pages m = ∅ ->
  runs (TransactionalMemory.commit io data system txn tp policy) m (commit_post m sp n tp).
Proof.
  intros h n Hm Hslots Hsp Hn Hd. destruct (shrink_by_policy m policy Hm) as (s' & shrunk & l & Hrun & Hhs & Hok & Hle). fold h in Hhs. rewrite Hhs in Hok, Hle.
  destruct (mo_state _ Hm) as (a & nn & _ & [Hh Hps _ _ _] & _). fold h in Hh, Hps.
  destruct (header_slots (at_layout h l) Hok) as (sp' & so' & Hsl & _ & Hso & Hpr & Hse & Hset).
  assert (sp' = sp /\ so' = so) as [-> ->] by (cbn in Hsl; rewrite Hslots in Hsl; unfold in_order in Hsl; destruct (_ =? 0); by simplify_eq).
  set (h1 := mixed (at_layout h l) sp (primary_slot_index h, two_phase_commit h) n).
  assert (Hh1 : header_ok h1) by (apply mixed_ok; auto). set (w1 := WriteHeader (entry_bytes h sp (first_write h n l))).
  assert (Hb1 : WriteHeader (header_bytes h1) = w1) by (unfold w1, h1; by rewrite mixed_bytes).
  assert (Hpost : forall m' evs rest, storage m' = storage m ++ evs -> commit_events h sp n tp l (shrink_events (at_layout h l) shrunk) = evs ++ rest ->
    header (state m') = at_layout h l -> commit_post m sp n tp m' (Err IoError)).
  { intros m' evs rest Hst Hev Hh'. exists l, shrunk, evs, rest. fold h. rewrite Hh'. split_and!; try done. by destruct l. }
  unfold TransactionalMemory.commit. apply runs_require; [by apply bool_decide_eq_true|].
  apply runs_perform.
  2: { exists (layout_fields h), false, [CheckErrors]. eexists. fold h. rewrite at_layout_fields. split_and!; done. }
  apply mem_runs_gets. eapply mem_runs_lift; [exact Hrun|]. cbn beta iota. apply runs_modify. rewrite Hhs.
  eapply mem_runs_lift; [exact Hse|]. eapply mem_runs_lift; [apply Hset|]. fold n.
  change (DatabaseHeader.mk (primary_slot_index (at_layout h l)) _ _ _ _ _ _ _ _) with h1.
  change (DatabaseHeader.set_two_phase_commit _ tp) with (committed (at_layout h l) sp n tp).
  apply runs_write_header; [done| |rewrite Hb1; eapply (Hpost _ [CheckErrors; w1]); [storage_simpl; by rewrite <-app_assoc|done..]].
  rewrite Hb1. set (m1 := TransactionalMemory.record _ w1).
  assert (Hm1 : storage m1 = storage m ++ [CheckErrors; w1]) by (unfold m1; storage_simpl; by rewrite <-app_assoc).
  destruct tp.
  - apply runs_perform; [|eapply (Hpost _ [CheckErrors; w1; Flush]); [storage_simpl; by rewrite Hm1, <-app_assoc|done..]].
    eapply (commit_tail io m _ sp so n true l shrunk [CheckErrors; w1; Flush]); try done. storage_simpl. by rewrite Hm1, <-app_assoc.
  - apply mem_runs_bind, mem_runs_ret. cbn [on_okay]. by eapply (commit_tail io m m1 sp so n false l shrunk [CheckErrors; w1]).
Qed.

(** ** Checksums that tell *)

(** The mixtures of two lists *)
Fixpoint mixtures (a b : list Z) : list (list Z) :=
  match a, b with
  | x :: a, y :: b =>
      let r := mixtures a b in
      if x =? y then map (cons x) r else map (cons x) r ++ map (cons y) r
  | _, _ => [[]]
  end.
(** Each byte is that of one of the lists. *)
Fixpoint is_mixture (a b c : list Z) : bool :=
  match a, b, c with
  | x :: a, y :: b, z :: c => ((z =? x) || (z =? y)) && is_mixture a b c
  | _, _, _ => true
  end.
(** No mixture of the bodies has a checksum that is a mixture of their checksums. *)
Definition detects (old new : TransactionHeader.t) : bool :=
  let stored s := to_le_bytes 16 (checksum_of (slot_body s)) in
  forallb (fun body => bool_decide (body = slot_body old) || bool_decide (body = slot_body new) ||
      negb (is_mixture (stored old) (stored new) (to_le_bytes 16 (checksum_of body))))
    (mixtures (slot_body old) (slot_body new)).

Lemma torn_cons n x y a b z c :
  torn (S n) [x :: a; y :: b] (z :: c) -> (z = x \/ z = y) /\ torn n [a; b] c.
Proof.
  intros [Hl Hc]. split.
  - destruct (Hc 0%nat z eq_refl) as (w & Hw & Hz). set_unfold. destruct Hw as [->|[->|[]]]; cbn in Hz; simplify_eq; auto.
  - split; [cbn in Hl; lia|]. intros i v Hi. destruct (Hc (S i) v Hi) as (w & Hw & Hv). set_unfold.
    destruct Hw as [->|[->|[]]]; cbn in Hv; [exists a|exists b]; (split; [|done]); set_solver.
Qed.

Lemma torn_mixtures a b c : length a = length b -> torn (length a) [a; b] c -> c ∈ mixtures a b /\ is_mixture a b c = true.
Proof.
  revert b c. induction a as [|x a IH]; intros [|y b] c Hl Hc; try done.
  - destruct Hc as [E _]. destruct c; [|done]. split; [by left|done].
  - destruct c as [|z c]; [by destruct Hc|]. destruct (torn_cons _ _ _ _ _ _ _ Hc) as [Hz Ht]. destruct (IH b c) as [Hin His]; [cbn in Hl; lia|done|].
    cbn. rewrite His, andb_true_r. split.
    + destruct (Z.eqb_spec x y) as [->|]; [destruct Hz as [-> | ->]; by apply list_elem_of_fmap_2|].
      apply elem_of_app. destruct Hz as [-> | ->]; [left|right]; by apply list_elem_of_fmap_2.
    + destruct Hz as [-> | ->]; rewrite Z.eqb_refl, ?orb_true_r; done.
Qed.

Lemma detects_ok old new : slot_ok old -> slot_ok new -> detects old new = true -> checksum_detects old new.
Proof.
  intros Ho Hn Hdet t Ht Hck. pose proof (torn_slot_byte _ _ _ _ Ho Hn Ht) as Hbyte.
  assert (Hdrop : drop 112 t = to_le_bytes 16 (checksum_of (take 112 t))).
  { rewrite <-Hck. symmetry. apply to_from_le_bytes; [by apply Forall_drop|]. rewrite length_drop, (proj1 Ht). done. }
  rewrite <-(take_drop 112 t), Hdrop. pose proof (torn_take 112 16 _ _ Ht) as Hbody. pose proof (torn_drop 112 16 _ _ Ht) as Hsum. rewrite Hdrop in Hsum.
  unfold slot_bytes in Hbody, Hsum |- *. cbn [map] in Hbody, Hsum.
  rewrite !take_app_length' in Hbody by (symmetry; apply length_slot_body). rewrite !drop_app_length' in Hsum by (symmetry; apply length_slot_body).
  rewrite <-(length_slot_body old) in Hbody at 1. apply torn_mixtures in Hbody as [Hin _]; [|by rewrite !length_slot_body].
  change 16%nat with (length (to_le_bytes 16 (checksum_of (slot_body old)))) in Hsum at 1. apply torn_mixtures in Hsum as [_ Hsum]; [|done].
  unfold detects in Hdet. rewrite forallb_forall in Hdet. specialize (Hdet _ (proj1 (list_elem_of_In _ _) Hin)). rewrite Hsum in Hdet. cbn [negb] in Hdet.
  rewrite orb_false_r in Hdet. apply orb_prop in Hdet as [->%bool_decide_eq_true | ->%bool_decide_eq_true]; auto.
Qed.

(** * Creating a database *)

Lemma is_power_of_two_pow k : 0 <= k -> is_power_of_two (2 ^ k) = true.
Proof.
  intros Hk. unfold is_power_of_two. rewrite Z.log2_pow2, Z.eqb_refl, andb_true_r by done. apply Z.ltb_lt. by apply Z.pow_pos_nonneg.
Qed.

(** The tracker of a new database takes 4036 bytes. *)
Lemma initial_tracker_bytes :
  exists tr v, RegionTracker.new INITIAL_REGIONS (MAX_MAX_PAGE_ORDER + 1) = Ret tr /\ RegionTracker.to_vec tr = Ret v /\ vlen v = 4036.
Proof.
  destruct (t ← RegionTracker.new INITIAL_REGIONS (MAX_MAX_PAGE_ORDER + 1); v ← RegionTracker.to_vec t; Ret (vlen v)) as [n|] eqn:E; [|by vm_compute in E].
  assert (Ret n = Ret 4036) as Hn by (rewrite <-E; vm_compute; reflexivity).
  destruct (RegionTracker.new _ _) as [tr|]; [|done]. cbn [mbind outcome_bind] in E. exists tr.
  destruct (RegionTracker.to_vec tr) as [v|] eqn:Ev; [|done]. exists v. cbn [mbind outcome_bind] in E. split_and!; [done|done|]. congruence.
Qed.

(** The capacity of a region, for a requested size of [2 ^ r] bytes and pages of [2 ^ j] *)
Definition capacity (j r : Z) : Z := 2 ^ (Z.min r (20 + j) - j).

Lemma capacity_ok j r : 9 <= j <= 22 -> j <= r -> 0 < capacity j r <= 2 ^ 20 /\ capacity j r * 2 ^ j = 2 ^ Z.min r (20 + j) /\
  Z.min (2 ^ r) (2 ^ 20 * 2 ^ j) = 2 ^ Z.min r (20 + j) /\ 2 ^ 9 <= 2 ^ Z.min r (20 + j) <= 2 ^ 42.
Proof.
  intros Hj Hr. unfold capacity. rewrite <-!Z.pow_add_r by lia. replace (Z.min r (20 + j) - j + j) with (Z.min r (20 + j)) by lia.
  split_and!; [apply Z.pow_pos_nonneg; lia|apply Z.pow_le_mono_r; lia|done| |apply Z.pow_le_mono_r; lia..].
  destruct (Z.le_ge_cases r (20 + j)).
  - rewrite (Z.min_l r) by lia. apply Z.min_l. apply Z.pow_le_mono_r; lia.
  - rewrite (Z.min_r r) by lia. apply Z.min_r. apply Z.pow_le_mono_r; lia.
Qed.

Lemma initial_layout_ok j r :
  9 <= j <= 22 -> j <= r ->
  exists q n, Open.initial_layout (2 ^ j) (2 ^ Z.min r (20 + j)) = Ret (mk_layout (capacity j r) 0 (2 ^ j) q n) /\
    0 <= q <= 2 ^ 19 /\ 0 <= n <= capacity j r /\ 0 < q + n.
Proof.
  intros Hj Hr. destruct (capacity_ok j r Hj Hr) as (Hc & Hcp & _ & HR). set (cap := capacity j r) in *. set (R := 2 ^ Z.min r (20 + j)) in *.
  assert (Hp : 2 ^ 9 <= 2 ^ j <= 2 ^ 22) by (split; apply Z.pow_le_mono_r; lia). set (ps := 2 ^ j) in *.
  destruct initial_tracker_bytes as (tr & v & Htr & Hv & Hlen). unfold Open.initial_layout. rewrite Htr. cbn [mbind outcome_bind].
  rewrite Hv. cbn [mbind outcome_bind]. rewrite Hlen. change MIN_USABLE_PAGES with 10. change MIN_DESIRED_USABLE_BYTES with 1048576. change NO_HEADER with 0.
  destruct (div_ceil_bounds 4036 ps) as (Hd1 & Hd2 & Hd3); [lia..|]. osteps.
  assert (R / ps = cap) as -> by (rewrite <-Hcp; apply Z.div_mul; lia). osteps.
  set (D := Z.max 1048576 (ps * 10) + ps * div_ceil 4036 ps). assert (HD : 0 < D <= 2 ^ 27) by (unfold D; lia). clearbody D.
  assert (HRq : 0 <= D / R <= 2 ^ 18) by (split; [apply Z.div_pos; lia|apply Z.div_le_upper_bound; lia]).
  pose proof (Z.mul_div_le D R ltac:(lia)).
  destruct (layout_calculate_ok D cap 0 ps) as (q & n & Hrun & Hq & Hn & Hpos & _); rewrite ?Z.add_0_l, ?Hcp; [lia..|].
  exists q, n. rewrite Hcp in Hq. split; [exact Hrun|]. lia.
Qed.

(** The file of a database that was closed cleanly *)
Definition clean_file (h : DatabaseHeader.t) : File.t := File.mk (file_bytes (layout_of h)) (header_bytes h).

(** The size of a region that [new] takes from its argument *)
Definition requested (rs : option Z) (r : Z) : Prop := default MAX_USABLE_REGION_SPACE rs = 2 ^ r.

Lemma length_header_bytes h : length (header_bytes h) = Z.to_nat DB_HEADER_SIZE.
Proof. unfold header_bytes. by rewrite !length_app, length_super_header, !length_slot_bytes. Qed.

Section new.
  Context (io : list event -> event -> bool) (Hio : forall d e, io d e = true).
  Context (j r : Z) (Hj : 9 <= j <= 22) (Hr : j <= r).

Lemma checked_region_size_ok rs : requested rs r -> Open.checked_region_size (2 ^ j) rs = Ret (2 ^ Z.min r (20 + j)).
Proof using Hj Hr.
  intros Hrs. destruct (capacity_ok j r Hj Hr) as (_ & _ & Hmin & HR). unfold Open.checked_region_size.
  assert (Hp : 2 ^ 9 <= 2 ^ j <= 2 ^ 22) by (split; apply Z.pow_le_mono_r; lia).
  rewrite is_power_of_two_pow, (proj2 (Z.leb_le DB_HEADER_SIZE (2 ^ j))) by (change DB_HEADER_SIZE with 320; lia). cbn [andb rassert mbind outcome_bind].
  unfold requested in Hrs. rewrite Hrs. change (MAX_PAGE_INDEX + 1) with (2 ^ 20). rewrite umul_ok by lia. cbn [mbind outcome_bind].
  rewrite Hmin, is_power_of_two_pow by lia. done.
Qed.

Lemma open_clean h ro done_ :
  header_ok h -> DatabaseHeader.page_size h = 2 ^ j -> recovery_required h = false -> two_phase_commit h = true ->
  Open.open io (clean_file h) (2 ^ j) ro done_ = Ret (Okay (clean_file h, opened h)).
Proof using Hio Hj.
  intros Hh Hps Hrec Htp. assert (Hp : 2 ^ 9 <= 2 ^ j <= 2 ^ 22) by (split; apply Z.pow_le_mono_r; lia).
  pose proof (header_roundtrip h Hh) as Hread. rewrite Hps in Hread.
  assert (Hb : DB_HEADER_SIZE <= 2 ^ j <= 2 ^ 22) by (change DB_HEADER_SIZE with 320; lia).
  pose proof (open_ok io (header_bytes h) (2 ^ j) _ h true ro done_ (length_header_bytes h) Hread Hh Hps Hb Hio) as Hopen.
  cbn [UnrepairedDatabaseHeader.inner] in Hopen. rewrite Hrec in Hopen. apply Hopen; [|by left|done].
  unfold UnrepairedDatabaseHeader.select_primary_slot. cbn. by rewrite Htp.
Qed.

Lemma new_clean h rs ro allow :
  requested rs r -> header_ok h -> DatabaseHeader.page_size h = 2 ^ j -> recovery_required h = false -> two_phase_commit h = true ->
  Open.new io (clean_file h) allow (2 ^ j) rs ro = Ret (Okay (clean_file h, opened h)).
Proof using Hio Hj Hr.
  intros Hrs Hh Hps Hrec Htp. unfold Open.new. rewrite checked_region_size_ok by done. cbn [mbind outcome_bind].
  pose proof (file_bytes_min h Hh) as Hmin. pose proof (ho_fields _ Hh) as (Hpp & Hrh & _).
  assert (Hp : 2 ^ 9 <= 2 ^ j) by (apply Z.pow_le_mono_r; lia).
  assert (Hlen : 512 <= file_bytes (layout_of h)) by (rewrite Hps in Hmin; nia).
  unfold clean_file, File.read_head. cbn [File.len File.head]. change (vlen MAGICNUMBER) with 9.
  rewrite (proj2 (Z.leb_le 9 (file_bytes (layout_of h)))), (proj2 (Z.ltb_lt 0 (file_bytes (layout_of h)))) by lia.
  assert (take (Z.to_nat 9) (header_bytes h) = MAGICNUMBER) as Hmagic by (unfold header_bytes, super_header; rewrite <-!app_assoc; by apply take_app_length').
  cbn [default id]. rewrite Hmagic, bool_decide_true by done. cbn [negb]. by apply open_clean.
Qed.

(** The header of a new database *)
Definition first_header (q n : Z) : DatabaseHeader.t :=
  DatabaseHeader.mk 0 false true (2 ^ j) 0 (capacity j r) q n [TransactionHeader.new 0; TransactionHeader.new 0].

Lemma first_header_ok q n : 0 <= q <= 2 ^ 19 -> 0 <= n <= capacity j r -> 0 < q + n -> header_ok (first_header q n).
Proof using Hj Hr.
  intros Hq Hn Hpos. destruct (capacity_ok j r Hj Hr) as (Hc & _). assert (Hp : 2 ^ 9 <= 2 ^ j <= 2 ^ 22) by (split; apply Z.pow_le_mono_r; lia).
  split; [by left| |].
  - unfold fields_ok, first_header. cbn. change (MAX_PAGE_INDEX + 1) with (2 ^ 20). change MAX_REGIONS with (2 ^ 20). destruct (Z.ltb_spec 0 n); lia.
  - eexists _, _. split; [done|]. split; (split; [done|]; split; [done|]; split; [done|vm_compute; split; [discriminate|reflexivity]]).
Qed.

Lemma new_empty rs :
  requested rs r -> exists q n, 0 <= q <= 2 ^ 19 /\ 0 <= n <= capacity j r /\ 0 < q + n /\
    Open.new io File.empty true (2 ^ j) rs false = Ret (Okay (clean_file (first_header q n), opened (first_header q n))).
Proof using Hio Hj Hr.
  intros Hrs. destruct (initial_layout_ok j r Hj Hr) as (q & n & Hlay & Hq & Hn & Hpos). exists q, n. split; [done|]. split; [done|]. split; [done|].
  assert (Hp : 2 ^ 9 <= 2 ^ j <= 2 ^ 22) by (split; apply Z.pow_le_mono_r; lia).
  set (h := first_header q n). assert (Hh : header_ok h) by (by apply first_header_ok).
  destruct (header_layout h Hh) as (_ & Hlok & HR); [cbn; lia|]. pose proof (file_bytes_min h Hh) as Hmin. cbn in Hmin.
  unfold Open.new. rewrite checked_region_size_ok by done. cbn [mbind outcome_bind]. change (File.len File.empty) with 0. cbn [Z.ltb Z.compare negb].
  change (bool_decide (default (replicate 9 0) (File.read_head File.empty (vlen MAGICNUMBER)) = MAGICNUMBER)) with false. cbn [andb].
  unfold Open.initialize. rewrite Hlay. cbn [mbind outcome_bind]. change (mk_layout (capacity j r) 0 (2 ^ j) q n) with (layout_of h).
  rewrite (layout_len_ok _ Hlok (proj1 HR)). cbn [mbind outcome_bind]. change (File.len File.empty) with 0. rewrite (proj2 (Z.ltb_lt 0 (file_bytes (layout_of h)))) by lia.
  unfold Open.op at 1. rewrite Hio. unfold Open.write_first_header.
  assert (DatabaseHeader.new (layout_of h) 0 = Ret (DatabaseHeader.mk 0 true false (2 ^ j) 0 (capacity j r) q n [TransactionHeader.new 0; TransactionHeader.new 0])) as ->.
  { unfold DatabaseHeader.new, layout_of, mk_layout. cbn. by destruct (Z.eqb_spec n 0) as [->|]. }
  cbn [mbind outcome_bind]. change (DatabaseHeader.set_two_phase_commit _ true) with h. rewrite (header_to_bytes_magic h false Hh). cbn [mbind outcome_bind].
  unfold Open.op. rewrite !Hio. rewrite (header_to_bytes h Hh). cbn [mbind outcome_bind]. rewrite !Hio. cbn [try_ mbind outcome_bind fst snd].
  assert (File.write_header (File.write_header (File.resize File.empty (file_bytes (layout_of h))) (replicate 9 0 ++ drop 9 (header_bytes h))) (header_bytes h) = clean_file h) as ->.
  { unfold File.write_header, clean_file. cbn [File.len File.resize]. change DB_HEADER_SIZE with 320. f_equal. lia. }
  by apply open_clean.
Qed.

End new.

(** * Theorems *)

(** The header on disk is that of the memory but for what changes in memory only until the
    next durable commit: the layout fields, when the file grows, and the secondary slot,
    after a non-durable commit. *)
Definition stored_header (h h0 : DatabaseHeader.t) : Prop :=
  header_ok h0 /\ exists l s, DatabaseHeader.set_secondary_slot (at_layout h l) s = Ret h0.

(** The file on disk has that header; its length, durable or not yet, is one it can
    have, has place for the stored layout, and is that of the memory in the end. *)
Definition stored_file (h h0 : DatabaseHeader.t) (d : disk) : Prop :=
  durable d = header_bytes h0 /\ pending d = [] /\
  Forall (fun k => layout_length h k /\ file_bytes (layout_of h0) <= k) (lengths d) /\
  List.last (pending_lens d) (durable_len d) = file_bytes (layout_of h).

Lemma stored_header_entry h h0 sp so :
  stored_header h h0 -> header_ok h -> DatabaseHeader.primary_slot h0 = Ret sp -> DatabaseHeader.secondary_slot h0 = Ret so ->
  slot_ok sp /\ slot_ok so /\ (exists so', transaction_slots h = in_order (primary_slot_index h) sp so' /\ slot_ok so') /\
  header_bytes h0 = entry_bytes h sp (before h so (layout_fields h0)) /\ layout_of h0 = layout_of (at_layout h (layout_fields h0)) /\
  header_ok (at_layout h (layout_fields h0)).
Proof.
  intros [Hh0 (l & s & Hset)] Hh Hpr Hse. destruct (header_slots h0 Hh0) as (sp0 & so0 & Hsl0 & Hsp0 & Hso0 & Hpr0 & Hse0 & _).
  rewrite Hpr0 in Hpr. rewrite Hse0 in Hse. injection Hpr as ->. injection Hse as ->.
  destruct (header_slots h Hh) as (sp1 & so1 & Hsl1 & Hsp1 & Hso1 & _ & _ & _).
  assert (E : h0 = DatabaseHeader.mk (primary_slot_index h) (recovery_required h) (two_phase_commit h) (DatabaseHeader.page_size h) (region_header_pages h)
    (region_max_data_pages h) l.1 l.2 (in_order (primary_slot_index h) sp1 s)).
  { unfold DatabaseHeader.set_secondary_slot in Hset. cbn in Hset. rewrite Hsl1 in Hset. unfold in_order in *.
    destruct (ho_primary _ Hh) as [Ep|Ep]; rewrite Ep in *; cbn in Hset; by injection Hset as <-. }
  assert (sp1 = sp /\ s = so) as [-> ->].
  { rewrite E in Hsl0. cbn in Hsl0. unfold in_order in Hsl0. destruct (_ =? 0); by simplify_eq. }
  split_and!; try done; [by exists so1|..].
  - rewrite (header_bytes_in_order h0 sp so Hsl0), E. done.
  - by rewrite E.
  - destruct Hh0 as [_ Hf0 _]. split; [apply Hh| |apply Hh]. rewrite E in Hf0 |- *. exact Hf0.
Qed.

(** Any mixture of the headers that a commit leaves is opened, or refused if its layout
    does not fit the file. *)
Lemma open_mixture io' h sp so n tp f g y t :
  header_ok h -> DB_HEADER_SIZE <= DatabaseHeader.page_size h <= PAGE_SIZE -> slot_ok sp -> slot_ok so -> slot_ok n -> checksum_detects so n ->
  transaction_id so < transaction_id sp \/ so = sp -> transaction_id sp < transaction_id n -> (forall d e, io' d e = true) ->
  layout_length h (File.len f) -> File.head f = bytes_of (at_layout h y) sp g t -> in_u 32 y.1 -> in_u 32 y.2 ->
  torn 128 [slot_bytes so; slot_bytes n] t ->
  (g = (primary_slot_index h, two_phase_commit h) \/ g = (Z.lxor (primary_slot_index h) 1, tp) /\ (tp = true -> t = slot_bytes n)) ->
  layout_fits h f = layout_valid h y && (file_bytes (layout_of (at_layout h y)) <=? File.len f) /\
  if layout_fits h f then (opens io' h f sp \/ opens io' h f n) /\ (g = (Z.lxor (primary_slot_index h) 1, tp) -> t = slot_bytes n -> opens io' h f n)
  else refused io' h f.
Proof.
  intros Hh Hps Hsp Hso Hn Hdet Hold Hnew Hio Hlen Hf Hy1 Hy2 Ht Hg. destruct f as [len c]. cbn [File.head File.len] in *. subst c. pose proof (proj1 Ht) as Hlt.
  assert (Hfits : layout_fits h (File.mk len (bytes_of (at_layout h y) sp g t)) = layout_valid h y && (file_bytes (layout_of (at_layout h y)) <=? len)).
  { unfold layout_fits. cbn [File.head File.len].
    assert (take 8 (drop 24 (bytes_of (at_layout h y) sp g t)) = layout_bytes y) as -> by reflexivity. by rewrite read_layout_bytes. }
  rewrite Hfits. split; [done|]. change DB_HEADER_SIZE with 320 in Hps. change PAGE_SIZE with 4096 in Hps.
  assert (Hmin : 320 <= len).
  { destruct Hlen as (l & Hl & <-). pose proof (file_bytes_min _ Hl) as Hmin. pose proof (ho_fields _ Hh) as (? & ? & _). cbn in Hmin. nia. }
  destruct (layout_valid h y) eqn:Hv; cbn [andb].
  2: { destruct (invalid_layout_refused h y g t sp Hh Hy1 Hy2 Hlt Hv) as (e & He). exists e. apply open_rejected; try done; [by apply length_bytes_of|lia]. }
  apply layout_valid_ok in Hv; [|done..]. destruct (torn_slot so n t Hso Hn Hdet Ht) as (st & cor & Hst & Hstok & _).
  destruct (Z.leb_spec (file_bytes (layout_of (at_layout h y))) len) as [Hle|Hgt].
  - assert (Hlen' : layout_length (at_layout h y) len) by (destruct Hlen as (l & Hl); by exists l).
    destruct (recover_mixture (at_layout h y) sp so n tp Hv Hps Hsp Hso Hn Hdet Hold Hnew io' g t len Hio Ht Hg Hlen' Hle) as (f' & h' & Hopen & Hb & Hpr & Hlast).
    split; [destruct Hpr; [left|right]; by exists f', h'|]. intros E1 E2. exists f', h'. auto.
  - assert (Hgi : g.1 = primary_slot_index h \/ g.1 = Z.lxor (primary_slot_index h) 1) by (destruct Hg as [->|[-> _]]; auto).
    destruct (read_mixture (at_layout h y) sp Hv Hsp g t st cor Hgi Hlt Hst Hstok) as (Hread & Hok & Hl & _). set (u := if g.1 =? _ then _ else _) in Hread.
    assert (Hu : UnrepairedDatabaseHeader.inner u = mixed (at_layout h y) sp g st) by (unfold u; by destruct (g.1 =? _)).
    eexists. apply (open_too_short io' _ _ u); rewrite ?Hu; try done; [change DB_HEADER_SIZE with 320; cbn; lia..].
Qed.

Lemma layout_in_u h l : header_ok (at_layout h l) -> in_u 32 l.1 /\ in_u 32 l.2.
Proof.
  intros [_ (_ & _ & Hm & Ht & Hf & Hn) _]. cbn in *. change (MAX_PAGE_INDEX + 1) with (2 ^ 20) in *. change MAX_REGIONS with (2 ^ 20) in *. unfold in_u.
  destruct (0 <? l.2); lia.
Qed.

(** The file at a time of a commit to the layout [l] *)
Lemma commit_file io' h h0 sp so n tp l shrunk d pre rest f :
  header_ok h -> DB_HEADER_SIZE <= DatabaseHeader.page_size h <= PAGE_SIZE -> stored_header h h0 -> stored_file h h0 d ->
  DatabaseHeader.primary_slot h0 = Ret sp -> DatabaseHeader.secondary_slot h0 = Ret so ->
  transaction_id so < transaction_id sp \/ so = sp -> transaction_id sp < transaction_id n -> slot_ok n -> checksum_detects so n ->
  (forall d e, io' d e = true) -> header_ok (at_layout h l) -> file_bytes (layout_of (at_layout h l)) <= file_bytes (layout_of h) ->
  commit_events h sp n tp l (shrink_events (at_layout h l) shrunk) = pre ++ rest -> contents (disk_run d pre) f ->
  (if layout_fits h f then opens io' h f sp \/ opens io' h f n else refused io' h f) /\
  (l = layout_fields h0 -> layout_fits h f = true) /\ (rest = [] -> layout_fits h f = true /\ opens io' h f n).
Proof.
  intros Hh Hps Hst0 (Hdur & Hpend & Hlens & Hlast) Hpr Hse Hold Hnew Hn Hdet Hio Hok Hle Hev Hf.
  destruct (stored_header_entry h h0 sp so Hst0 Hh Hpr Hse) as (Hsp & Hso & _ & Hbytes & Hlay0 & Hok0). destruct (layout_in_u h l Hok) as [Hl1 Hl2].
  destruct d as [w0 ws k0 ks]. cbn [durable pending pending_lens durable_len lengths] in *. subst ws. rewrite Hdur, Hbytes in Hf. rewrite Forall_forall in Hlens.
  destruct (commit_crash h sp so n tp (layout_fields h0) l k0 ks (shrink_events (at_layout h l) shrunk) pre rest f Hl1 Hl2) as
    (g & y & t & Hhead & Hy1 & Hy2 & Ht & Hg & Hsame & Hend); [destruct shrunk; [right; eauto|by left]|done|done|].
  set (gn := (Z.lxor (primary_slot_index h) 1, tp)) in *.
  assert (Hlen : layout_length h (File.len f) /\ (l = layout_fields h0 -> file_bytes (layout_of (at_layout h l)) <= File.len f) /\
    (rest = [] -> g = gn /\ t = slot_bytes n /\ y = l /\ file_bytes (layout_of (at_layout h l)) <= File.len f)).
  { destruct Hend as [(-> & -> & -> & [E|E])|[Hr Hk]].
    - rewrite E, Hlast. split_and!; [exists (layout_fields h); by rewrite at_layout_fields|done|done].
    - destruct shrunk; [|done]. injection E as E. rewrite <-E. split_and!; [by exists l|done|done].
    - destruct (Hlens _ Hk) as [Hkl Hk0]. split_and!; [done|intros ->; by rewrite <-Hlay0|done]. }
  destruct Hlen as (Hlen & Hsame_len & Hlast_len).
  destruct (open_mixture io' h sp so n tp f g y t Hh Hps Hsp Hso Hn Hdet Hold Hnew Hio Hlen Hhead Hy1 Hy2 Ht Hg) as [Hfits Hopen].
  assert (Hfit : y = l -> file_bytes (layout_of (at_layout h l)) <= File.len f -> layout_fits h f = true).
  { intros -> Hb. rewrite Hfits, (proj2 (layout_valid_ok h l Hh Hl1 Hl2) Hok), (proj2 (Z.leb_le _ _)) by done. done. }
  split_and!.
  - destruct (layout_fits h f); [by destruct Hopen|done].
  - intros E. apply Hfit; [by apply Hsame|by apply Hsame_len].
  - intros E. destruct (Hlast_len E) as (Eg & Et & Ey & Hb). rewrite (Hfit Ey Hb) in Hopen |- *. split; [done|]. by apply Hopen.
Qed.


(** A commit of a first table to a file that has grown by two pages since its header was
    written, and that the commit can shrink *)
Definition demo_stored : DatabaseHeader.t :=
  DatabaseHeader.mk 0 true false 4096 0 16 1 2 [TransactionHeader.new 1; TransactionHeader.new 0].
Definition demo_root : option BtreeHeader.t := Some (BtreeHeader.mk demo_page 99 12).
Definition demo_slot : TransactionHeader.t := TransactionalMemory.commit_slot (TransactionHeader.new 0) demo_root None 2.
Definition demo_disk : disk := Disk (header_bytes demo_stored) [] (4096 * 19) [4096 * 21].

Lemma empty_slot_ok i : in_u 64 i -> slot_ok (TransactionHeader.new i).
Proof. intros Hi. split; [done|]. split; [done|]. split; [done|exact Hi]. Qed.
Lemma demo_stored_ok : header_ok demo_stored.
Proof.
  split; [by left|vm_compute; split_and!; done|]. eexists _, _. split; [reflexivity|]. split; by apply empty_slot_ok.
Qed.
Lemma demo_slot_ok : slot_ok demo_slot.
Proof. split_and!; try done; vm_compute; split_and!; done. Qed.
Lemma demo_slot_detects : checksum_detects (TransactionHeader.new 0) demo_slot.
Proof. apply detects_ok; [by apply empty_slot_ok|exact demo_slot_ok|]. vm_compute. reflexivity. Qed.


(** C26. Creating a database in an empty file succeeds for every page size from 512 bytes to
    4 MiB and every region size that is a power of two and at least a page: the file
    that is left has a valid header with an empty first transaction and regions of a
    power of two of pages, and opening it again, read-only or not, gives the same
    memory and leaves the file as it is. *)
Theorem create_then_open io j r rs :
  (forall d e, io d e = true) -> 9 <= j <= 22 -> j <= r -> requested rs r ->
  exists h, Open.new io File.empty true (2 ^ j) rs false = Ret (Okay (clean_file h, opened h)) /\
    header_ok h /\ DatabaseHeader.page_size h = 2 ^ j /\ region_max_data_pages h = capacity j r /\
    DatabaseHeader.primary_slot h = Ret (TransactionHeader.new 0) /\
    forall rs' ro allow, requested rs' r -> Open.new io (clean_file h) allow (2 ^ j) rs' ro = Ret (Okay (clean_file h, opened h)).
Proof.
  intros Hio Hj Hr Hrs. destruct (new_empty io Hio j r Hj Hr rs Hrs) as (q & n & Hq & Hn & Hpos & Hnew).
  exists (first_header j r q n). assert (Hh : header_ok (first_header j r q n)) by (by apply first_header_ok).
  split_and!; try done. intros rs' ro allow Hrs'. by apply (new_clean io Hio j r).
Qed.

Lemma create_then_open_witness :
  exists h, Open.new io_works File.empty true (2 ^ 12) None false = Ret (Okay (clean_file h, opened h)) /\
    header_ok h /\ DatabaseHeader.page_size h = 2 ^ 12 /\ region_max_data_pages h = capacity 12 32 /\
    DatabaseHeader.primary_slot h = Ret (TransactionHeader.new 0) /\
    forall rs' ro allow, requested rs' 32 -> Open.new io_works (clean_file h) allow (2 ^ 12) rs' ro = Ret (Okay (clean_file h, opened h)).
Proof. apply (create_then_open io_works 12 32 None); [reflexivity|lia|lia|reflexivity]. Defined.
