(* ===== verification/Tracker.v ===== *)
(** The transaction tracker (src/src/transaction_tracker.rs): which transactions are read, by
    read transactions, by savepoints and on behalf of commits that are not durable yet; the
    one write transaction; and the savepoints.

    Transactions and savepoints are their numbers.  A [BTreeMap] is a finite map with its
    keys in order.  The [HashMap] of pending commits is a finite map, whose order of
    iteration is a parameter.  A method holds the lock of the state from its start to its
    end, so it is a function of the state; [deallocate_savepoint] takes the lock twice. *)
From stdpp Require Import gmultiset sorting.
From S2P Require Import Prelude Buddy Pages Layout Region Header PageManager.

(** * Model *)

Definition TransactionId_next (id : Z) : outcome Z := uadd 64 id 1.
Definition SavepointId_next (id : Z) : outcome Z := uadd 64 id 1.

(** The elements of a [BTreeSet] in order *)
Definition in_order (s : gset Z) : list Z := merge_sort Z.le (elements s).

Module TransactionTracker.

Record State := mk {
  next_savepoint_id : Z;
  live_read_transactions : gmap Z Z;
  next_transaction_id : Z;
  live_write_transaction : option Z;
  valid_savepoints : gmap Z Z;
  persistent_savepoints : gset Z;
  pending_non_durable_commits : gmap Z Z;
  unprocessed_freed_non_durable_commits : gset Z }.

Definition set_reads (s : State) (x : gmap Z Z) : State := mk (next_savepoint_id s) x (next_transaction_id s) (live_write_transaction s) (valid_savepoints s) (persistent_savepoints s) (pending_non_durable_commits s) (unprocessed_freed_non_durable_commits s).
Definition set_writer (s : State) (next : Z) (w : option Z) : State := mk (next_savepoint_id s) (live_read_transactions s) next w (valid_savepoints s) (persistent_savepoints s) (pending_non_durable_commits s) (unprocessed_freed_non_durable_commits s).
Definition set_savepoints (s : State) (next : Z) (valid : gmap Z Z) (persistent : gset Z) : State := mk next (live_read_transactions s) (next_transaction_id s) (live_write_transaction s) valid persistent (pending_non_durable_commits s) (unprocessed_freed_non_durable_commits s).
Definition set_pending (s : State) (pending : gmap Z Z) (unprocessed : gset Z) : State := mk (next_savepoint_id s) (live_read_transactions s) (next_transaction_id s) (live_write_transaction s) (valid_savepoints s) (persistent_savepoints s) pending unprocessed.

Definition new (next_transaction_id : Z) : State := mk 0 ∅ next_transaction_id None ∅ ∅ ∅ ∅.

(** One more reference, and one less *)
Definition acquire (reads : gmap Z Z) (id : Z) : outcome (gmap Z Z) :=
  match reads !! id with
  | Some x => y ← uadd 64 x 1; Ret (<[id := y]> reads)
  | None => Ret (<[id := 1]> reads)
  end.
Definition release (reads : gmap Z Z) (id : Z) : outcome (gmap Z Z) :=
  ref_count ← unwrap (reads !! id);
  ref_count ← usub ref_count 1;
  Ret (if ref_count =? 0 then delete id reads else <[id := ref_count]> reads).

(** The part of [start_write_transaction] after the wait; there is none while a write
    transaction is live. *)
Definition start_write_transaction (s : State) : outcome (State * Z) :=
  _ ← rassert (match live_write_transaction s with None => true | Some _ => false end);
  transaction_id ← TransactionId_next (next_transaction_id s);
  Ret (set_writer s transaction_id (Some transaction_id), transaction_id).
Definition end_write_transaction (s : State) (id : Z) : outcome State :=
  w ← unwrap (live_write_transaction s);
  _ ← rassert (w =? id);
  Ret (set_writer s (next_transaction_id s) None).

Section clear.
  Context (iter : gmap Z Z -> list (Z * Z)).
Definition clear_pending_non_durable_commits (s : State) : outcome State :=
  let ids := iter (pending_non_durable_commits s) in
  let s := set_pending s ∅ (unprocessed_freed_non_durable_commits s) in
  for_each (fun x s => reads ← release (live_read_transactions s) x.2; Ret (set_reads s reads)) ids s.
End clear.

Definition is_unprocessed_non_durable_commit (s : State) (id : Z) : bool := bool_decide (id ∈ unprocessed_freed_non_durable_commits s).
Definition mark_non_durable_freed_pages_processed (s : State) (ids : list Z) : State :=
  foldl (fun s id => set_pending s (pending_non_durable_commits s) (unprocessed_freed_non_durable_commits s ∖ {[id]})) s ids.
Definition oldest_unprocessed_non_durable_commit (s : State) : option Z := head (in_order (unprocessed_freed_non_durable_commits s)).
Definition register_non_durable_commit (s : State) (id durable_ancestor : Z) (has_unprocessed_freed_pages : bool) : outcome State :=
  reads ← acquire (live_read_transactions s) durable_ancestor;
  let s := set_reads s reads in
  let old := pending_non_durable_commits s !! id in
  let s := set_pending s (<[id := durable_ancestor]> (pending_non_durable_commits s)) (unprocessed_freed_non_durable_commits s) in
  _ ← rassert (match old with None => true | Some _ => false end);
  Ret (if has_unprocessed_freed_pages then set_pending s (pending_non_durable_commits s) (unprocessed_freed_non_durable_commits s ∪ {[id]}) else s).
Definition reserve_transaction_id (s : State) (id live : Z) : outcome State :=
  _ ← rassert (bool_decide (live_write_transaction s = Some live));
  next ← TransactionId_next (next_transaction_id s);
  _ ← rassert (id =? next);
  Ret (set_writer s id (live_write_transaction s)).

Definition restore_savepoint_counter_state (s : State) (next_savepoint : Z) : outcome State :=
  _ ← rassert (bool_decide (valid_savepoints s = ∅));
  _ ← rassert (bool_decide (persistent_savepoints s = ∅));
  Ret (set_savepoints s next_savepoint (valid_savepoints s) (persistent_savepoints s)).
Definition register_persistent_savepoint (s : State) (id transaction : Z) : outcome State :=
  reads ← acquire (live_read_transactions s) transaction;
  let s := set_reads s reads in
  Ret (set_savepoints s (next_savepoint_id s) (<[id := transaction]> (valid_savepoints s)) (persistent_savepoints s ∪ {[id]})).
Definition mark_savepoint_persistent (s : State) (id : Z) : outcome State :=
  _ ← rassert (bool_decide (is_Some (valid_savepoints s !! id)));
  Ret (set_savepoints s (next_savepoint_id s) (valid_savepoints s) (persistent_savepoints s ∪ {[id]})).
Definition register_read_transaction (s : State) (mem : TransactionalMemory.t) : outcome (State * Z) :=
  id ← TransactionalMemory.get_last_committed_transaction_id mem;
  reads ← acquire (live_read_transactions s) id;
  Ret (set_reads s reads, id).
Definition deallocate_read_transaction (s : State) (id : Z) : outcome State :=
  reads ← release (live_read_transactions s) id;
  Ret (set_reads s reads).

Definition any_savepoint_exists (s : State) : bool := negb (bool_decide (valid_savepoints s = ∅)).
Definition any_persistent_savepoint_exists (s : State) : bool := negb (bool_decide (persistent_savepoints s = ∅)).
Definition any_ephemeral_savepoint_exists (s : State) : bool :=
  existsb (fun id => negb (bool_decide (id ∈ persistent_savepoints s))) (in_order (dom (valid_savepoints s))).
Definition any_user_read_reference_exists (s : State) : bool :=
  existsb (fun x =>
    let pending_count := vlen (filter (fun ancestor => ancestor = x.1) (map_to_list (pending_non_durable_commits s)).*2) in
    pending_count <? x.2) (map_to_list (live_read_transactions s)).

Definition allocate_savepoint (s : State) (transaction : Z) : outcome (State * Z) :=
  id ← SavepointId_next (next_savepoint_id s);
  Ret (set_savepoints s id (<[id := transaction]> (valid_savepoints s)) (persistent_savepoints s), id).
Definition forget_savepoint (s : State) (id : Z) : State :=
  set_savepoints s (next_savepoint_id s) (delete id (valid_savepoints s)) (persistent_savepoints s ∖ {[id]}).
Definition deallocate_savepoint (s : State) (savepoint transaction : Z) : outcome State :=
  let s := forget_savepoint s savepoint in
  deallocate_read_transaction s transaction.
Definition is_valid_savepoint (s : State) (id : Z) : bool := bool_decide (is_Some (valid_savepoints s !! id)).
Definition list_savepoints_after (s : State) (id : Z) : list Z := filter (fun x => id < x) (in_order (dom (valid_savepoints s))).
Definition invalidate_savepoints (s : State) (savepoints : list Z) : State := foldl forget_savepoint s savepoints.
Definition oldest_savepoint_excluding (s : State) (exclude : gset Z) : option (Z * Z) :=
  id ← head (filter (fun id => id ∉ exclude) (in_order (dom (valid_savepoints s))));
  transaction ← valid_savepoints s !! id;
  Some (id, transaction).
Definition oldest_live_read_transaction (s : State) : option Z := head (in_order (dom (live_read_transactions s))).
Definition oldest_live_read_nondurable_transaction (s : State) : option Z :=
  head (filter (fun id => is_Some (pending_non_durable_commits s !! id)) (in_order (dom (live_read_transactions s)))).

End TransactionTracker.

(** * What the tracker promises *)

(** The least element of a list *)
Fixpoint least (l : list Z) : option Z :=
  match l with [] => None | x :: l => Some (match least l with Some y => Z.min x y | None => x end) end.

(** References are kept apart by who holds them: [users] has the transaction of every live
    read transaction and every savepoint, [commits] the pending commits with the durable
    transaction that each of them pins. *)
Record ledger := Ledger {
  users : gmultiset Z;
  commits : gmap Z Z;
  unprocessed : gset Z;
  writer : option Z;
  last_id : Z;
  savepoints : gmap Z Z;
  permanent : gset Z;
  last_savepoint : Z }.
Definition ancestors (commits : gmap Z Z) : gmultiset Z := list_to_set_disj (map_to_list commits).*2.
Definition references (a : ledger) : gmultiset Z := users a ⊎ ancestors (commits a).

Inductive call :=
  | Start_write | End_write (id : Z) | Reserve (id live : Z)
  | Register_commit (id ancestor : Z) (has_freed : bool) | Clear_pending | Mark_processed (ids : list Z)
  | Register_read (mem : TransactionalMemory.t) | Release_read (id : Z)
  | Restore_counter (next : Z) | Register_savepoint (id transaction : Z) | Mark_persistent (id : Z) | Allocate_savepoint (transaction : Z)
  | Forget_savepoint (id : Z) | Invalidate (ids : list Z)
  | Oldest_read | Oldest_nondurable_read | Oldest_unprocessed | Is_unprocessed (id : Z)
  | Any_user | Any_savepoint | Any_persistent | Any_ephemeral | Is_valid (id : Z) | Savepoints_after (id : Z) | Oldest_savepoint (exclude : gset Z).
Inductive answer := Done | Number (id : Z) | Oldest (id : option Z) | Truth (b : bool) | Numbers (ids : list Z) | Pinned (x : option (Z * Z)).

Import TransactionTracker.

(** The calls of the tracker *)
Section calls.
  Context (iter : gmap Z Z -> list (Z * Z)).

Definition done_with (s : outcome State) : outcome (State * answer) := s ← s; Ret (s, Done).
Definition perform (s : State) (c : call) : outcome (State * answer) :=
  match c with
  | Start_write => '(s, id) ← start_write_transaction s; Ret (s, Number id)
  | End_write id => done_with (end_write_transaction s id)
  | Reserve id live => done_with (reserve_transaction_id s id live)
  | Register_commit id ancestor has => done_with (register_non_durable_commit s id ancestor has)
  | Clear_pending => done_with (clear_pending_non_durable_commits iter s)
  | Mark_processed ids => Ret (mark_non_durable_freed_pages_processed s ids, Done)
  | Register_read mem => '(s, id) ← register_read_transaction s mem; Ret (s, Number id)
  | Release_read id => done_with (deallocate_read_transaction s id)
  | Restore_counter next => done_with (restore_savepoint_counter_state s next)
  | Register_savepoint id transaction => done_with (register_persistent_savepoint s id transaction)
  | Mark_persistent id => done_with (mark_savepoint_persistent s id)
  | Allocate_savepoint transaction => '(s, id) ← allocate_savepoint s transaction; Ret (s, Number id)
  | Forget_savepoint id => Ret (forget_savepoint s id, Done)
  | Invalidate ids => Ret (invalidate_savepoints s ids, Done)
  | Oldest_read => Ret (s, Oldest (oldest_live_read_transaction s))
  | Oldest_nondurable_read => Ret (s, Oldest (oldest_live_read_nondurable_transaction s))
  | Oldest_unprocessed => Ret (s, Oldest (oldest_unprocessed_non_durable_commit s))
  | Is_unprocessed id => Ret (s, Truth (is_unprocessed_non_durable_commit s id))
  | Any_user => Ret (s, Truth (any_user_read_reference_exists s))
  | Any_savepoint => Ret (s, Truth (any_savepoint_exists s))
  | Any_persistent => Ret (s, Truth (any_persistent_savepoint_exists s))
  | Any_ephemeral => Ret (s, Truth (any_ephemeral_savepoint_exists s))
  | Is_valid id => Ret (s, Truth (is_valid_savepoint s id))
  | Savepoints_after id => Ret (s, Numbers (list_savepoints_after s id))
  | Oldest_savepoint exclude => Ret (s, Pinned (oldest_savepoint_excluding s exclude))
  end.
Fixpoint perform_all (s : State) (cs : list call) : outcome (State * list answer) :=
  match cs with [] => Ret (s, []) | c :: cs => '(s, x) ← perform s c; '(s, l) ← perform_all s cs; Ret (s, x :: l) end.
End calls.

(** The same calls on the ledger *)
Definition with_users (a : ledger) (u : gmultiset Z) : ledger := Ledger u (commits a) (unprocessed a) (writer a) (last_id a) (savepoints a) (permanent a) (last_savepoint a).
Definition with_commits (a : ledger) (c : gmap Z Z) (u : gset Z) : ledger := Ledger (users a) c u (writer a) (last_id a) (savepoints a) (permanent a) (last_savepoint a).
Definition with_writer (a : ledger) (w : option Z) (n : Z) : ledger := Ledger (users a) (commits a) (unprocessed a) w n (savepoints a) (permanent a) (last_savepoint a).
Definition with_savepoints (a : ledger) (m : gmap Z Z) (p : gset Z) (n : Z) : ledger := Ledger (users a) (commits a) (unprocessed a) (writer a) (last_id a) m p n.
Definition without (a : ledger) (ids : gset Z) : ledger := with_savepoints a (filter (fun x => x.1 ∉ ids) (savepoints a)) (permanent a ∖ ids) (last_savepoint a).
Definition committed (mem : TransactionalMemory.t) : Z := match TransactionalMemory.get_last_committed_transaction_id mem with Ret id => id | Panic => 0 end.

Definition expected (a : ledger) (c : call) : ledger * answer :=
  match c with
  | Start_write => let id := last_id a + 1 in (with_writer a (Some id) id, Number id)
  | End_write _ => (with_writer a None (last_id a), Done)
  | Reserve id _ => (with_writer a (writer a) id, Done)
  | Register_commit id ancestor has => (with_commits a (<[id := ancestor]> (commits a)) (if has then unprocessed a ∪ {[id]} else unprocessed a), Done)
  | Clear_pending => (with_commits a ∅ (unprocessed a), Done)
  | Mark_processed ids => (with_commits a (commits a) (unprocessed a ∖ list_to_set ids), Done)
  | Register_read mem => (with_users a (users a ⊎ {[+ committed mem +]}), Number (committed mem))
  | Release_read id => (with_users a (users a ∖ {[+ id +]}), Done)
  | Restore_counter next => (with_savepoints a (savepoints a) (permanent a) next, Done)
  | Register_savepoint id transaction => (with_savepoints (with_users a (users a ⊎ {[+ transaction +]})) (<[id := transaction]> (savepoints a)) (permanent a ∪ {[id]}) (last_savepoint a), Done)
  | Mark_persistent id => (with_savepoints a (savepoints a) (permanent a ∪ {[id]}) (last_savepoint a), Done)
  | Allocate_savepoint transaction => let id := last_savepoint a + 1 in (with_savepoints a (<[id := transaction]> (savepoints a)) (permanent a) id, Number id)
  | Forget_savepoint id => (without a {[id]}, Done)
  | Invalidate ids => (without a (list_to_set ids), Done)
  | Oldest_read => (a, Oldest (least (elements (references a))))
  | Oldest_nondurable_read => (a, Oldest (least (filter (fun id => is_Some (commits a !! id)) (elements (references a)))))
  | Oldest_unprocessed => (a, Oldest (least (elements (unprocessed a))))
  | Is_unprocessed id => (a, Truth (bool_decide (id ∈ unprocessed a)))
  | Any_user => (a, Truth (bool_decide (users a ≠ ∅)))
  | Any_savepoint => (a, Truth (bool_decide (savepoints a ≠ ∅)))
  | Any_persistent => (a, Truth (bool_decide (permanent a ≠ ∅)))
  | Any_ephemeral => (a, Truth (bool_decide (¬ dom (savepoints a) ⊆ permanent a)))
  | Is_valid id => (a, Truth (bool_decide (id ∈ dom (savepoints a))))
  | Savepoints_after id => (a, Numbers (filter (fun x => id < x) (in_order (dom (savepoints a)))))
  | Oldest_savepoint exclude => (a, Pinned (id ← least (elements (dom (savepoints a) ∖ exclude)); (fun t => (id, t)) <$> savepoints a !! id))
  end.
Fixpoint expected_all (a : ledger) (cs : list call) : ledger * list answer :=
  match cs with [] => (a, []) | c :: cs => let x := expected a c in let y := expected_all x.1 cs in (y.1, x.2 :: y.2) end.

(** What a caller has to keep to: it ends the transaction that it started and releases a
    reference that it has; counters stay below [2 ^ 64]. *)
Definition allowed (a : ledger) (c : call) : Prop :=
  match c with
  | Start_write => writer a = None /\ last_id a + 1 < 2 ^ 64
  | End_write id => writer a = Some id
  | Reserve id live => writer a = Some live /\ id = last_id a + 1 /\ id < 2 ^ 64
  | Register_commit id _ _ => commits a !! id = None /\ Z.of_nat (size (references a)) + 1 < 2 ^ 64
  | Register_read mem => (exists id, TransactionalMemory.get_last_committed_transaction_id mem = Ret id) /\ Z.of_nat (size (references a)) + 1 < 2 ^ 64
  | Release_read id => id ∈ users a
  | Restore_counter _ => savepoints a = ∅ /\ permanent a = ∅
  | Register_savepoint _ _ => Z.of_nat (size (references a)) + 1 < 2 ^ 64
  | Mark_persistent id => id ∈ dom (savepoints a)
  | Allocate_savepoint _ => last_savepoint a + 1 < 2 ^ 64
  | _ => True
  end.
Fixpoint all_allowed (a : ledger) (cs : list call) : Prop :=
  match cs with [] => True | c :: cs => allowed a c /\ all_allowed (expected a c).1 cs end.

(** * Counting references *)

(** [reads] counts the elements of [T]. *)
Definition counts (reads : gmap Z Z) (T : gmultiset Z) : Prop :=
  forall id, reads !! id = match multiplicity id T with O => None | n => Some (Z.of_nat n) end.

Lemma multiplicity_size (T : gmultiset Z) id : (multiplicity id T <= size T)%nat.
Proof.
  induction T as [|x T IH] using gmultiset_ind; [by rewrite multiplicity_empty|]. rewrite multiplicity_disj_union, gmultiset_size_disj_union, gmultiset_size_singleton.
  destruct (decide (id = x)) as [->|Hx]; [rewrite multiplicity_singleton_eq|rewrite multiplicity_singleton_ne by done]; lia.
Qed.
Lemma counts_acquire reads T id : counts reads T -> Z.of_nat (size T) + 1 < 2 ^ 64 -> exists reads', acquire reads id = Ret reads' /\ counts reads' (T ⊎ {[+ id +]}).
Proof.
  intros HC Hs. unfold acquire. rewrite (HC id). pose proof (multiplicity_size T id).
  assert (HN : forall y, y = Z.of_nat (S (multiplicity id T)) -> counts (<[id := y]> reads) (T ⊎ {[+ id +]})).
  { intros y -> x. rewrite multiplicity_disj_union. destruct (decide (x = id)) as [->|Hx].
    - rewrite lookup_insert_eq, multiplicity_singleton_eq. by replace (multiplicity id T + 1)%nat with (S (multiplicity id T)) by lia.
    - rewrite lookup_insert_ne, multiplicity_singleton_ne, Nat.add_0_r by done. apply HC. }
  destruct (multiplicity id T) as [|k] eqn:E; [eexists; split; [done|by apply HN]|]. rewrite uadd_ok by lia. eexists. split; [done|]. apply HN. lia.
Qed.
Lemma counts_release reads T id : counts reads T -> id ∈ T -> exists reads', release reads id = Ret reads' /\ counts reads' (T ∖ {[+ id +]}).
Proof.
  intros HC Hin. unfold release. rewrite (HC id). rewrite elem_of_multiplicity in Hin. destruct (multiplicity id T) as [|k] eqn:E; [lia|]. cbn [unwrap mbind outcome_bind]. rewrite usub_ok by lia. cbn [mbind outcome_bind]. eexists. split; [done|].
  intros x. rewrite multiplicity_difference. destruct (decide (x = id)) as [->|Hx].
  - rewrite multiplicity_singleton_eq, E. replace (S k - 1)%nat with k by lia. destruct (Z.eqb_spec (Z.of_nat (S k) - 1) 0); destruct k; try lia; [by rewrite lookup_delete_eq|]. rewrite lookup_insert_eq. f_equal. lia.
  - rewrite multiplicity_singleton_ne, Nat.sub_0_r by done. rewrite <-(HC x). case_match; [by rewrite lookup_delete_ne|by rewrite lookup_insert_ne].
Qed.
Lemma counts_release_all l : forall reads U, counts reads (U ⊎ list_to_set_disj l) -> exists reads', for_each (fun id reads => release reads id) l reads = Ret reads' /\ counts reads' U.
Proof.
  induction l as [|x l IH]; intros reads U HC; cbn [for_each].
  - exists reads. split; [done|]. rewrite list_to_set_disj_nil in HC. by rewrite (right_id_L ∅ (⊎)) in HC.
  - destruct (counts_release reads _ x HC) as (r1 & E1 & H1); [rewrite list_to_set_disj_cons; multiset_solver|]. rewrite E1. cbn [mbind outcome_bind]. apply IH. replace (U ⊎ list_to_set_disj l) with ((U ⊎ list_to_set_disj (x :: l)) ∖ {[+ x +]}); [done|]. rewrite list_to_set_disj_cons. multiset_solver.
Qed.
Lemma counts_dom reads T x : counts reads T -> x ∈ dom reads <-> x ∈ T.
Proof. intros HC. rewrite elem_of_dom, (HC x), elem_of_multiplicity. destruct (multiplicity x T); split; intros Hx; [by destruct Hx|lia|lia|by eexists]. Qed.

(** * The oldest *)

Definition is_least (o : option Z) (P : Z -> Prop) : Prop := match o with Some m => P m /\ (forall x, P x -> m <= x) | None => forall x, ~ P x end.
Lemma is_least_unique o1 o2 P : is_least o1 P -> is_least o2 P -> o1 = o2.
Proof.
  destruct o1 as [a|], o2 as [b|]; cbn; [|intros [Ha _] Hn; by destruct (Hn a)|intros Hn [Hb _]; by destruct (Hn b)|done]. intros [Ha Ha'] [Hb Hb']. f_equal. specialize (Ha' b Hb). specialize (Hb' a Ha). lia.
Qed.
Lemma least_ok l : is_least (least l) (fun x => x ∈ l).
Proof.
  induction l as [|x l IH]; [intros x Hx; by apply elem_of_nil in Hx|]. cbn [least]. destruct (least l) as [y|]; cbn in *.
  - destruct IH as [Hy IH]. split; [destruct (Z.min_spec x y) as [[_ ->]|[_ ->]]; [left|by right]|]. intros z [->|Hz]%elem_of_cons; [lia|]. specialize (IH z Hz). lia.
  - split; [left|]. intros z [->|Hz]%elem_of_cons; [lia|]. by destruct (IH z).
Qed.
Lemma sorted_head l : Sorted Z.le l -> is_least (head l) (fun x => x ∈ l).
Proof.
  intros Hs%Sorted_StronglySorted; [|intros ???; lia]. destruct l as [|x l]; [intros x Hx; by apply elem_of_nil in Hx|]. cbn. apply StronglySorted_inv in Hs as [_ Hs]. split; [left|]. intros z [->|Hz]%elem_of_cons; [lia|]. rewrite Forall_forall in Hs. by apply Hs.
Qed.
Lemma in_order_sorted s : Sorted Z.le (in_order s).
Proof. unfold in_order. apply (Sorted_merge_sort Z.le). Qed.
Lemma elem_of_in_order s x : x ∈ in_order s <-> x ∈ s.
Proof. unfold in_order. by rewrite merge_sort_Permutation, elem_of_elements. Qed.
Lemma StronglySorted_filter (P : Z -> Prop) `{forall x, Decision (P x)} l : StronglySorted Z.le l -> StronglySorted Z.le (filter P l).
Proof.
  induction 1 as [|x l Hl IH Hx]; [constructor|]. rewrite filter_cons. case_decide; [|done]. constructor; [done|]. rewrite Forall_forall in Hx |- *. intros y [_ Hy]%list_elem_of_filter. by apply Hx.
Qed.
(** The first in order that has a property is the least. *)
Lemma first_least (P : Z -> Prop) `{forall x, Decision (P x)} s l : (forall x, x ∈ l <-> x ∈ s /\ P x) -> head (filter P (in_order s)) = least l.
Proof.
  intros Hl. apply (is_least_unique _ _ (fun x => x ∈ l)); [|apply least_ok].
  assert (Hs : is_least (head (filter P (in_order s))) (fun x => x ∈ filter P (in_order s))).
  { apply sorted_head. eapply StronglySorted_Sorted, StronglySorted_filter, Sorted_StronglySorted, in_order_sorted. intros ???; lia. }
  assert (He : forall x, x ∈ filter P (in_order s) <-> x ∈ l) by (intros x; rewrite list_elem_of_filter, elem_of_in_order, Hl; tauto).
  destruct (head _) as [m|]; cbn in *; [destruct Hs as [Hm Hs]; split; [by apply He|]; intros x Hx; by apply Hs, He|]. intros x Hx. by apply (Hs x), He.
Qed.

Lemma order_least s l : (forall x, x ∈ l <-> x ∈ s) -> head (in_order s) = least l.
Proof.
  intros Hl. apply (is_least_unique _ _ (fun x => x ∈ l)); [|apply least_ok]. pose proof (sorted_head _ (in_order_sorted s)) as Hs. assert (He : forall x, x ∈ in_order s <-> x ∈ l) by (intros x; by rewrite elem_of_in_order, Hl).
  destruct (head _) as [m|]; cbn in *; [destruct Hs as [Hm Hs]; split; [by apply He|]; intros x Hx; by apply Hs, He|]. intros x Hx. by apply (Hs x), He.
Qed.

(** * The tracker keeps the ledger *)

Definition concrete (reads : gmap Z Z) (a : ledger) : State :=
  mk (last_savepoint a) reads (last_id a) (writer a) (savepoints a) (permanent a) (commits a) (unprocessed a).
Definition tracks (s : State) (a : ledger) : Prop := exists reads, s = concrete reads a /\ counts reads (references a) /\ Z.of_nat (size (references a)) < 2 ^ 64.

Lemma ancestors_insert m id x : m !! id = None -> ancestors (<[id := x]> m) = ancestors m ⊎ {[+ x +]}.
Proof.
  intros Hm. unfold ancestors. rewrite (list_to_set_disj_perm (map_to_list (<[id := x]> m)).*2 ((id, x) :: map_to_list m).*2) by (by rewrite map_to_list_insert). cbn [fmap list_fmap]. rewrite list_to_set_disj_cons. multiset_solver.
Qed.
Lemma multiplicity_list l x : multiplicity x (list_to_set_disj l) = length (filter (fun y : Z => y = x) l).
Proof.
  induction l as [|y l IH]; [done|]. rewrite list_to_set_disj_cons, multiplicity_disj_union, IH, filter_cons. case_decide as E; [subst y; by rewrite multiplicity_singleton_eq|by rewrite multiplicity_singleton_ne by done].
Qed.
Lemma any_user_ok reads a : counts reads (references a) -> any_user_read_reference_exists (concrete reads a) = bool_decide (users a ≠ ∅).
Proof.
  intros HC. unfold any_user_read_reference_exists. cbn [concrete live_read_transactions pending_non_durable_commits]. apply eq_bool_prop_intro. rewrite bool_decide_spec. rewrite existb_True. split.
  - intros ([id n] & Hx & Hlt)%Exists_exists. cbn [fst snd] in Hlt. apply elem_of_map_to_list in Hx. apply Is_true_true, Z.ltb_lt in Hlt. intros Hu. unfold references in HC. rewrite Hu in HC. rewrite (HC id), multiplicity_disj_union, multiplicity_empty in Hx. unfold ancestors in Hx. rewrite multiplicity_list in Hx. unfold vlen in Hlt.
    destruct (length _) eqn:E in Hx; [done|]. injection Hx as <-. cbn in E. lia.
  - intros [id Hid]%gmultiset_choose. apply Exists_exists. exists (id, Z.of_nat (multiplicity id (references a))). rewrite elem_of_map_to_list, (HC id). unfold references. rewrite multiplicity_disj_union. rewrite elem_of_multiplicity in Hid. split; [destruct (_ + _)%nat eqn:E; [lia|done]|].
    cbn [fst snd]. apply Is_true_true, Z.ltb_lt. unfold ancestors. rewrite multiplicity_list. unfold vlen. lia.
Qed.
Lemma forget_ok reads a id : forget_savepoint (concrete reads a) id = concrete reads (without a {[id]}).
Proof.
  unfold forget_savepoint, without, concrete, set_savepoints, with_savepoints. cbn. f_equal. apply map_eq. intros i. rewrite map_lookup_filter. destruct (decide (i = id)) as [->|Hi]; [rewrite lookup_delete_eq|rewrite lookup_delete_ne by done]; destruct (savepoints a !! _); cbn; try done; case_guard; set_solver.
Qed.
Lemma without_without a I J : without (without a I) J = without a (I ∪ J).
Proof.
  unfold without, with_savepoints. cbn. f_equal; [|set_solver]. apply map_eq. intros i. rewrite !map_lookup_filter. destruct (savepoints a !! i); cbn; [|done]. repeat case_guard; cbn; repeat case_guard; try done; set_solver.
Qed.
Lemma invalidate_ok reads ids : forall a, invalidate_savepoints (concrete reads a) ids = concrete reads (without a (list_to_set ids)).
Proof.
  induction ids as [|id ids IH]; intros a; unfold invalidate_savepoints in *; cbn [foldl].
  - unfold without, concrete, with_savepoints. cbn. f_equal; [|set_solver]. symmetry. apply map_filter_id. set_solver.
  - rewrite forget_ok, IH, without_without. done.
Qed.
Lemma processed_ok reads ids : forall a, mark_non_durable_freed_pages_processed (concrete reads a) ids = concrete reads (with_commits a (commits a) (unprocessed a ∖ list_to_set ids)).
Proof.
  unfold mark_non_durable_freed_pages_processed. induction ids as [|id ids IH]; intros a; cbn [foldl].
  - unfold concrete, with_commits. cbn. f_equal. set_solver.
  - etransitivity; [exact (IH (with_commits a (commits a) (unprocessed a ∖ {[id]})))|]. unfold concrete, with_commits. cbn [users commits unprocessed writer last_id savepoints permanent last_savepoint]. f_equal. by rewrite list_to_set_cons, difference_difference_l_L.
Qed.

(** One more reference of a user, and one less *)
Lemma user_added reads a id : counts reads (references a) -> Z.of_nat (size (references a)) + 1 < 2 ^ 64 ->
  exists reads', acquire reads id = Ret reads' /\ counts reads' (references (with_users a (users a ⊎ {[+ id +]}))) /\ Z.of_nat (size (references (with_users a (users a ⊎ {[+ id +]})))) < 2 ^ 64.
Proof.
  intros HC Hs. destruct (counts_acquire reads _ id HC Hs) as (r & E & HC'). exists r. split; [done|].
  assert (ER : references (with_users a (users a ⊎ {[+ id +]})) = references a ⊎ {[+ id +]}) by (unfold references; cbn; multiset_solver). rewrite ER. split; [done|]. rewrite gmultiset_size_disj_union, gmultiset_size_singleton. lia.
Qed.
Lemma user_released reads a id : counts reads (references a) -> Z.of_nat (size (references a)) < 2 ^ 64 -> id ∈ users a ->
  exists reads', release reads id = Ret reads' /\ counts reads' (references (with_users a (users a ∖ {[+ id +]}))) /\ Z.of_nat (size (references (with_users a (users a ∖ {[+ id +]})))) < 2 ^ 64.
Proof.
  intros HC Hs Hu. destruct (counts_release reads _ id HC) as (r & E & HC'); [unfold references; multiset_solver|]. exists r. split; [done|].
  assert (ER : references (with_users a (users a ∖ {[+ id +]})) = references a ∖ {[+ id +]}) by (unfold references; cbn; multiset_solver). rewrite ER. split; [done|].
  pose proof (gmultiset_subseteq_size (references a ∖ {[+ id +]}) (references a) ltac:(multiset_solver)). lia.
Qed.
Lemma commit_added reads a id x has : counts reads (references a) -> Z.of_nat (size (references a)) + 1 < 2 ^ 64 -> commits a !! id = None ->
  let a' := with_commits a (<[id := x]> (commits a)) has in exists reads', acquire reads x = Ret reads' /\ counts reads' (references a') /\ Z.of_nat (size (references a')) < 2 ^ 64.
Proof.
  intros HC Hs Hid a'. destruct (counts_acquire reads _ x HC Hs) as (r & E & HC'). exists r. split; [done|].
  assert (ER : references a' = references a ⊎ {[+ x +]}) by (unfold references, a'; cbn; rewrite ancestors_insert by done; multiset_solver). rewrite ER. split; [done|]. rewrite gmultiset_size_disj_union, gmultiset_size_singleton. lia.
Qed.
Section simulation.
  Context (iter : gmap Z Z -> list (Z * Z)) (iter_perm : forall m, iter m ≡ₚ map_to_list m).

Lemma commits_cleared reads a : counts reads (references a) -> Z.of_nat (size (references a)) < 2 ^ 64 ->
  exists reads', clear_pending_non_durable_commits iter (concrete reads a) = Ret (concrete reads' (with_commits a ∅ (unprocessed a))) /\ counts reads' (references (with_commits a ∅ (unprocessed a))) /\ Z.of_nat (size (references (with_commits a ∅ (unprocessed a)))) < 2 ^ 64.
Proof using iter_perm.
  intros HC Hs. assert (ER : references (with_commits a ∅ (unprocessed a)) = users a) by (unfold references, ancestors; cbn; rewrite map_to_list_empty; multiset_solver).
  assert (EA : references a = users a ⊎ list_to_set_disj (iter (commits a)).*2) by (unfold references, ancestors; f_equal; apply list_to_set_disj_perm; by rewrite iter_perm). rewrite EA in HC.
  destruct (counts_release_all _ _ _ HC) as (r & E & HC'). exists r. rewrite ER. split; [|split; [done|pose proof (gmultiset_subseteq_size (users a) (references a) ltac:(unfold references; multiset_solver)); lia]].
  unfold clear_pending_non_durable_commits. cbn [concrete pending_non_durable_commits]. clear -E. change (set_pending (concrete reads a) ∅ (unprocessed_freed_non_durable_commits (concrete reads a))) with (concrete reads (with_commits a ∅ (unprocessed a))).
  revert reads E. generalize (iter (commits a)) as l. induction l as [|x l IH]; intros reads E; cbn [for_each fmap list_fmap] in *; [by injection E as ->|]. cbn [concrete live_read_transactions]. destruct (release reads x.2) as [r1|]; [|done]. cbn [mbind outcome_bind] in *. exact (IH r1 E).
Qed.

Lemma tracks_of reads a : counts reads (references a) -> Z.of_nat (size (references a)) < 2 ^ 64 -> tracks (concrete reads a) a.
Proof using. intros HC Hs. by exists reads. Qed.
(** A call that only reads *)
Lemma query_ok reads a (x y : answer) : counts reads (references a) -> Z.of_nat (size (references a)) < 2 ^ 64 -> x = y -> exists s', Ret (concrete reads a, x) = Ret (s', y) /\ tracks s' a.
Proof using. intros HC Hs ->. eexists. split; [done|]. by apply tracks_of. Qed.
Lemma oldest_ok reads a : counts reads (references a) -> oldest_live_read_transaction (concrete reads a) = least (elements (references a)) /\
  oldest_live_read_nondurable_transaction (concrete reads a) = least (filter (fun id => is_Some (commits a !! id)) (elements (references a))).
Proof using.
  intros HC. split; unfold oldest_live_read_transaction, oldest_live_read_nondurable_transaction; cbn [concrete live_read_transactions pending_non_durable_commits].
  - apply order_least. intros x. by rewrite gmultiset_elem_of_elements, (counts_dom _ _ x HC).
  - apply first_least. intros x. rewrite list_elem_of_filter, gmultiset_elem_of_elements, (counts_dom _ _ x HC). tauto.
Qed.
Lemma savepoint_queries reads a : any_savepoint_exists (concrete reads a) = bool_decide (savepoints a ≠ ∅) /\ any_persistent_savepoint_exists (concrete reads a) = bool_decide (permanent a ≠ ∅) /\
  any_ephemeral_savepoint_exists (concrete reads a) = bool_decide (¬ dom (savepoints a) ⊆ permanent a) /\
  forall exclude, oldest_savepoint_excluding (concrete reads a) exclude = (id ← least (elements (dom (savepoints a) ∖ exclude)); (fun t => (id, t)) <$> savepoints a !! id).
Proof using.
  split; [unfold any_savepoint_exists; cbn; by repeat case_bool_decide|]. split; [unfold any_persistent_savepoint_exists; cbn; by repeat case_bool_decide|]. split.
  - unfold any_ephemeral_savepoint_exists. cbn [concrete valid_savepoints persistent_savepoints]. apply eq_bool_prop_intro. rewrite bool_decide_spec, existb_True, Exists_exists. split.
    + intros (id & Hid%elem_of_in_order & Hn) Hs. rewrite negb_True, bool_decide_spec in Hn. by apply Hn, Hs.
    + intros Hn. destruct (set_choose_or_empty (dom (savepoints a) ∖ permanent a)) as [[id Hid]|He]; [|destruct Hn; clear -He; set_solver]. exists id. rewrite elem_of_in_order, negb_True, bool_decide_spec. by apply elem_of_difference in Hid.
  - intros exclude. unfold oldest_savepoint_excluding. cbn [concrete valid_savepoints]. rewrite (first_least _ _ (elements (dom (savepoints a) ∖ exclude))) by (clear; set_solver). done.
Qed.

Lemma perform_ok s a c : tracks s a -> allowed a c -> exists s', perform iter s c = Ret (s', (expected a c).2) /\ tracks s' (expected a c).1.
Proof using iter_perm.
  intros (reads & -> & HC & Hs) Hc. destruct (oldest_ok reads a HC) as [Q1 Q2], (savepoint_queries reads a) as (Q3 & Q4 & Q5 & Q6).
  destruct c; cbn [perform expected fst snd allowed] in *; try (apply query_ok; [done|done|]; by rewrite ?any_user_ok, ?Q1, ?Q2, ?Q3, ?Q4, ?Q5, ?Q6).
  - destruct Hc as [Hw Hl]. unfold start_write_transaction, TransactionId_next. cbn [concrete live_write_transaction next_transaction_id]. rewrite Hw, uadd_ok by lia. eexists. split; [done|]. by apply (tracks_of reads (with_writer a _ _)).
  - unfold end_write_transaction. cbn [concrete live_write_transaction]. rewrite Hc. cbn [unwrap mbind outcome_bind]. rewrite Z.eqb_refl. eexists. split; [done|]. by apply (tracks_of reads (with_writer a _ _)).
  - destruct Hc as (Hw & -> & Hl). unfold reserve_transaction_id, TransactionId_next. cbn [concrete live_write_transaction next_transaction_id]. rewrite bool_decide_true by done. cbn [rassert mbind outcome_bind]. rewrite uadd_ok by lia. cbn [mbind outcome_bind]. rewrite Z.eqb_refl. eexists. split; [done|]. by apply (tracks_of reads (with_writer a _ _)).
  - destruct Hc as [Hid Hl]. destruct (commit_added reads a id ancestor (if has_freed then unprocessed a ∪ {[id]} else unprocessed a) HC Hl Hid) as (r & E & HC' & Hs').
    unfold register_non_durable_commit. cbn [concrete live_read_transactions]. rewrite E. cbn [mbind outcome_bind set_reads concrete pending_non_durable_commits]. rewrite Hid. cbn [rassert mbind outcome_bind]. eexists. split; [done|]. exists r. split; [|done]. by destruct has_freed.
  - destruct (commits_cleared reads a HC Hs) as (r & E & HC' & Hs'). rewrite E. eexists. split; [done|]. by apply tracks_of.
  - rewrite processed_ok. eexists. split; [done|]. by apply tracks_of.
  - destruct Hc as [[id Hid] Hl]. unfold register_read_transaction, committed. rewrite Hid. cbn [mbind outcome_bind concrete live_read_transactions]. destruct (user_added reads a id HC Hl) as (r & E & HC' & Hs'). rewrite E. eexists. split; [done|]. by apply (tracks_of r (with_users a _)).
  - unfold deallocate_read_transaction. cbn [concrete live_read_transactions]. destruct (user_released reads a id HC Hs Hc) as (r & E & HC' & Hs'). rewrite E. eexists. split; [done|]. by apply (tracks_of r (with_users a _)).
  - destruct Hc as [H1 H2]. unfold restore_savepoint_counter_state. cbn [concrete valid_savepoints persistent_savepoints]. rewrite !bool_decide_true by done. eexists. split; [done|]. by apply (tracks_of reads (with_savepoints a _ _ _)).
  - unfold register_persistent_savepoint. cbn [concrete live_read_transactions]. destruct (user_added reads a transaction HC Hc) as (r & E & HC' & Hs'). rewrite E. eexists. split; [done|]. by apply (tracks_of r (with_savepoints (with_users a _) _ _ _)).
  - unfold mark_savepoint_persistent. cbn [concrete valid_savepoints]. rewrite bool_decide_true by (by apply elem_of_dom). eexists. split; [done|]. by apply (tracks_of reads (with_savepoints a _ _ _)).
  - unfold allocate_savepoint, SavepointId_next. cbn [concrete next_savepoint_id]. rewrite uadd_ok by lia. eexists. split; [done|]. by apply (tracks_of reads (with_savepoints a _ _ _)).
  - rewrite forget_ok. eexists. split; [done|]. by apply tracks_of.
  - rewrite invalidate_ok. eexists. split; [done|]. by apply tracks_of.
  - apply query_ok; [done|done|]. f_equal. unfold oldest_unprocessed_non_durable_commit. cbn [concrete unprocessed_freed_non_durable_commits]. apply order_least. clear. set_solver.
  - apply query_ok; [done|done|]. f_equal. unfold is_valid_savepoint. cbn. apply bool_decide_ext. by rewrite elem_of_dom.
Qed.
Lemma perform_all_ok cs : forall s a, tracks s a -> all_allowed a cs -> exists s', perform_all iter s cs = Ret (s', (expected_all a cs).2) /\ tracks s' (expected_all a cs).1.
Proof using iter_perm.
  induction cs as [|c cs IH]; intros s a Ht Hc; cbn [perform_all expected_all fst snd]; [by exists s|]. destruct Hc as [Hc Hcs]. destruct (perform_ok s a c Ht Hc) as (s1 & E1 & Ht1). rewrite E1. cbn [mbind outcome_bind].
  destruct (IH s1 _ Ht1 Hcs) as (s2 & E2 & Ht2). rewrite E2. by exists s2.
Qed.
End simulation.

(** A new tracker, with the number of the last transaction *)
Definition fresh (n : Z) : ledger := Ledger ∅ ∅ ∅ None n ∅ ∅ 0.
Lemma new_tracks n : tracks (new n) (fresh n).
Proof. exists ∅. split; [done|]. unfold references, ancestors. cbn. rewrite map_to_list_empty. split; [intros id; by rewrite lookup_empty|done]. Qed.

(** * Threads that write *)

(** The threads that wait for the condition variable, and those that it has woken and that
    have not the lock yet *)
Record system := System { tracker : State; waiting : nat; woken : nat }.
Definition writes (c : call) : bool := match c with Start_write | End_write _ => true | _ => false end.

Section threads.
  Context (iter : gmap Z Z -> list (Z * Z)).

(** A step of a thread, with the number of the transaction that it starts *)
Inductive step : system -> option Z -> system -> Prop :=
  | start_at_once s s' w k id : live_write_transaction s = None -> start_write_transaction s = Ret (s', id) -> step (System s w k) (Some id) (System s' w k)
  | start_waiting s w k id : live_write_transaction s = Some id -> step (System s w k) None (System s (S w) k)
  | wake_spuriously s w k : step (System s (S w) k) None (System s w (S k))
  | start_woken s s' w k id : live_write_transaction s = None -> start_write_transaction s = Ret (s', id) -> step (System s w (S k)) (Some id) (System s' w k)
  | wait_again s w k id : live_write_transaction s = Some id -> step (System s w (S k)) None (System s (S w) k)
  | end_alone s s' k id : end_write_transaction s id = Ret s' -> step (System s 0 k) None (System s' 0 k)
  | end_notify s s' w k id : end_write_transaction s id = Ret s' -> step (System s (S w) k) None (System s' w (S k))
  | other_call s s' w k c x : writes c = false -> perform iter s c = Ret (s', x) -> step (System s w k) None (System s' w k).
(** The numbers of the transactions that were started, the last one first *)
Inductive runs_to (n : Z) : list Z -> system -> Prop :=
  | not_started : runs_to n [] (System (new n) 0 0)
  | one_more ids y o y' : runs_to n ids y -> step y o y' -> runs_to n (match o with Some id => id :: ids | None => ids end) y'.

Lemma start_facts s s' id : start_write_transaction s = Ret (s', id) -> live_write_transaction s' = Some id /\ next_transaction_id s' = id /\ id = next_transaction_id s + 1.
Proof.
  unfold start_write_transaction, TransactionId_next, uadd. destruct (live_write_transaction s); [done|]. cbn [rassert mbind outcome_bind]. case_match; [|done]. cbn [mbind outcome_bind]. intros [= <- <-]. done.
Qed.
Lemma end_facts s s' id : end_write_transaction s id = Ret s' -> live_write_transaction s = Some id /\ live_write_transaction s' = None /\ next_transaction_id s' = next_transaction_id s.
Proof.
  unfold end_write_transaction. destruct (live_write_transaction s) as [w|]; [|done]. cbn [unwrap mbind outcome_bind]. destruct (Z.eqb_spec w id) as [->|]; [|done]. cbn [rassert mbind outcome_bind]. by intros [= <-].
Qed.
Lemma foldl_keeps {A X} (g : State -> X) (f : State -> A -> State) l : (forall s x, g (f s x) = g s) -> forall s, g (foldl f s l) = g s.
Proof. intros Hf. induction l as [|x l IH]; intros s; cbn [foldl]; [done|]. by rewrite IH. Qed.
Lemma for_each_keeps {A X} (g : State -> X) (f : A -> State -> outcome State) l : (forall x s s', f x s = Ret s' -> g s' = g s) -> forall s s', for_each f l s = Ret s' -> g s' = g s.
Proof.
  intros Hf. induction l as [|x l IH]; intros s s' H; cbn [for_each] in H; [by apply Ret_inj in H as ->|]. apply outcome_bind_Ret in H as (s1 & H1 & H2). by rewrite (IH _ _ H2), (Hf _ _ _ H1).
Qed.
(** The transaction that writes and the last number *)
Definition turn (s : State) : option Z * Z := (live_write_transaction s, next_transaction_id s).
Lemma other_facts s s' c x : writes c = false -> perform iter s c = Ret (s', x) -> live_write_transaction s' = live_write_transaction s /\ next_transaction_id s <= next_transaction_id s'.
Proof.
  intros Hw H. assert (Hsame : turn s' = turn s -> live_write_transaction s' = live_write_transaction s /\ next_transaction_id s <= next_transaction_id s') by (intros [= -> ->]; split; [done|lia]).
  destruct c; cbn [writes perform] in *; try done; unfold done_with, reserve_transaction_id, register_non_durable_commit, register_read_transaction, deallocate_read_transaction, restore_savepoint_counter_state, register_persistent_savepoint, mark_savepoint_persistent, allocate_savepoint in H;
    rinv H; simplify_eq; try (by apply Hsame).
  - apply Z.eqb_eq in H2 as ->. split; [done|]. cbn. unfold TransactionId_next, uadd in H0. case_match; [|done]. apply Ret_inj in H0. lia.
  - apply Hsame. by destruct has_freed.
  - apply Hsame. match goal with E : clear_pending_non_durable_commits _ _ = _ |- _ => unfold clear_pending_non_durable_commits in E; by apply (for_each_keeps turn) in E; [|intros y s0 s1 Ey; rinv Ey] end.
  - apply Hsame. by apply (foldl_keeps turn).
  - apply Hsame. by apply (foldl_keeps turn).
Qed.

Record orderly (n : Z) (ids : list Z) (y : system) : Prop := {
  or_sorted : StronglySorted (fun a b => b < a) ids;
  or_after : Forall (fun id => n < id <= next_transaction_id (tracker y)) ids;
  or_next : n <= next_transaction_id (tracker y);
  or_live : forall id, live_write_transaction (tracker y) = Some id -> head ids = Some id;
  or_woken : live_write_transaction (tracker y) = None -> waiting y = O \/ (0 < woken y)%nat }.
Lemma orderly_start n ids s s' w w' k k' id : orderly n ids (System s w k) -> start_write_transaction s = Ret (s', id) -> orderly n (id :: ids) (System s' w' k').
Proof.
  intros [H1 H2 H3 _ _] (E1 & E2 & E3)%start_facts. cbn [tracker] in *. split; cbn [tracker]; rewrite ?E1, ?E2.
  - constructor; [done|]. eapply Forall_impl; [exact H2|]. intros i Hi. cbn in *. lia.
  - constructor; [lia|]. eapply Forall_impl; [exact H2|]. intros i Hi. cbn in *. lia.
  - lia.
  - intros i [= <-]. done.
  - done.
Qed.
Lemma orderly_same n ids s s' w w' k k' : orderly n ids (System s w k) -> live_write_transaction s' = live_write_transaction s \/ live_write_transaction s' = None -> next_transaction_id s <= next_transaction_id s' ->
  (live_write_transaction s' = None -> w' = O \/ (0 < k')%nat) -> orderly n ids (System s' w' k').
Proof.
  intros [H1 H2 H3 H4 _] Hl Hn Hw. cbn [tracker] in *. split; cbn [tracker]; [done| |lia| |done].
  - eapply Forall_impl; [exact H2|]. intros i Hi. cbn in *. lia.
  - intros id Hid. apply H4. destruct Hl as [<-|Hl]; congruence.
Qed.
Lemma orderly_step n ids y o y' : orderly n ids y -> step y o y' -> orderly n (match o with Some id => id :: ids | None => ids end) y'.
Proof.
  intros HO Hs. pose proof (or_woken _ _ _ HO) as Hw. destruct Hs as [s s' w k id _ E|s w k id E|s w k|s s' w k id _ E|s w k id E|s s' k id E|s s' w k id E|s s' w k c x Hc E]; cbn [tracker waiting woken] in *.
  - by eapply orderly_start.
  - eapply orderly_same; [exact HO|by left|lia|]. intros. congruence.
  - eapply orderly_same; [exact HO|by left|lia|]. intros. right. lia.
  - by eapply orderly_start.
  - eapply orderly_same; [exact HO|by left|lia|]. intros. congruence.
  - apply end_facts in E as (_ & E1 & E2). eapply orderly_same; [exact HO|by right|lia|]. by left.
  - apply end_facts in E as (_ & E1 & E2). eapply orderly_same; [exact HO|by right|lia|]. right. lia.
  - apply (other_facts _ _ _ _ Hc) in E as [E1 E2]. eapply orderly_same; [exact HO|by left|done|]. by rewrite E1.
Qed.
Lemma orderly_always n ids y : runs_to n ids y -> orderly n ids y.
Proof. induction 1 as [|ids y o y' _ IH Hs]; [split; cbn; [constructor|constructor|lia|done|by left]|]. by eapply orderly_step. Qed.
End threads.

(** * Properties *)



Definition demo_calls : list call := [Start_write; Register_commit 6 5 true; Register_savepoint 1 5; Oldest_read; Any_user; Clear_pending; Oldest_read; End_write 6].
