(* ===== verification/Types.v ===== *)
(** The encodings of values and keys: integers, characters, strings, options, arrays,
    vectors and tuples, their type names, and the order of keys
    (src/src/types.rs, src/src/tuple_types.rs, src/src/complex_types.rs). *)
From stdpp Require Import strings pretty.
From S2P Require Import Prelude.

(** * Model

    The offsets and lengths of slices are [usize] values below the length of a
    slice, or the sum of two of them and a [u32], which no build overflows;
    they are plain sums here. *)

(** ** Type names *)

(** The bytes of an ASCII literal *)
Fixpoint ascii (s : string) : list Z :=
  match s with
  | EmptyString => []
  | String c t => Z.of_N (Ascii.N_of_ascii c) :: ascii t
  end.

(** A continuation byte of UTF-8 *)
Definition continuation (b : Z) : bool := (128 <=? b) && (b <? 192).

(** The check of [std::str::from_utf8]; [fuel] bounds the number of characters *)
Fixpoint utf8_fuel (fuel : nat) (data : list Z) : bool :=
  match fuel with
  | O => false
  | S f =>
      match data with
      | [] => true
      | b0 :: rest0 =>
          if b0 <? 128 then utf8_fuel f rest0
          else match rest0 with
          | [] => false
          | b1 :: rest1 =>
              if (194 <=? b0) && (b0 <=? 223) then continuation b1 && utf8_fuel f rest1
              else match rest1 with
              | [] => false
              | b2 :: rest2 =>
                  if (224 <=? b0) && (b0 <=? 239) then
                    continuation b1 && continuation b2 && negb ((b0 =? 224) && (b1 <? 160)) &&
                    negb ((b0 =? 237) && (160 <=? b1)) && utf8_fuel f rest2
                  else match rest2 with
                  | [] => false
                  | b3 :: rest3 =>
                      (240 <=? b0) && (b0 <=? 244) && continuation b1 && continuation b2 && continuation b3 &&
                      negb ((b0 =? 240) && (b1 <? 144)) && negb ((b0 =? 244) && (144 <=? b1)) && utf8_fuel f rest3
                  end
              end
          end
      end
  end.
Definition valid_utf8 (data : list Z) : bool := utf8_fuel (S (length data)) data.
(** [std::str::from_utf8(data).unwrap()] *)
Definition from_utf8 (data : list Z) : outcome (list Z) := if valid_utf8 data then Ret data else Panic.

Inductive TypeClassification := Internal | UserDefined | Internal2.

Definition classification_to_byte (c : TypeClassification) : Z :=
  match c with Internal => 1 | UserDefined => 2 | Internal2 => 3 end.
Definition classification_from_byte (b : Z) : outcome TypeClassification :=
  if b =? 1 then Ret Internal else if b =? 2 then Ret UserDefined else if b =? 3 then Ret Internal2 else Panic.

(** The name is a [String], that is, its UTF-8 bytes *)
Module TypeName.

Record t := mk { classification : TypeClassification; name : list Z }.

Definition new (name : list Z) : t := mk UserDefined name.
Definition internal (name : list Z) : t := mk Internal name.
Definition internal2 (name : list Z) : t := mk Internal2 name.

Definition to_bytes (n : t) : list Z := classification_to_byte (classification n) :: name n.
Definition from_bytes (bytes : list Z) : outcome t :=
  b ← vget bytes 0;
  c ← classification_from_byte b;
  rest ← slice_from bytes 1;
  name ← from_utf8 rest;
  Ret (mk c name).

End TypeName.

(** ** The traits *)

(** [trait Value]: how the values of [T] are stored *)
Class Value (T : Type) := {
  fixed_width : option Z;
  from_bytes : list Z -> outcome T;
  as_bytes : T -> outcome (list Z);
  type_name : TypeName.t }.
Arguments fixed_width T {_}.
Arguments type_name T {_}.

(** [trait Key]: the order of two stored keys *)
Class Key (T : Type) `{Value T} := compare : list Z -> list Z -> outcome comparison.
Arguments compare T {_ _}.

(** The lexicographic order of slices *)
Fixpoint list_cmp {A} (cmp : A -> A -> comparison) (a b : list A) : comparison :=
  match a, b with
  | [], [] => Eq
  | [], _ :: _ => Lt
  | _ :: _, [] => Gt
  | x :: a, y :: b => match cmp x y with Eq => list_cmp cmp a b | c => c end
  end.
(** [<[u8]>::cmp] *)
Definition bytes_cmp : list Z -> list Z -> comparison := list_cmp Z.compare.

(** ** Plain types *)

#[global] Instance unit_value : Value unit := {
  fixed_width := Some 0;
  from_bytes := fun _ => Ret tt;
  as_bytes := fun _ => Ret [];
  type_name := TypeName.internal (ascii "()") }.
#[global] Instance unit_key : Key unit := fun _ _ => Ret Eq.

Definition bool_from_bytes (data : list Z) : outcome bool :=
  b ← vget data 0;
  if b =? 0 then Ret false else if b =? 1 then Ret true else Panic.
#[global] Instance bool_value : Value bool := {
  fixed_width := Some 1;
  from_bytes := bool_from_bytes;
  as_bytes := fun v => Ret [if v then 1 else 0];
  type_name := TypeName.internal (ascii "bool") }.
(** [bool::cmp] *)
Definition bool_cmp (a b : bool) : comparison := match a, b with false, true => Lt | true, false => Gt | _, _ => Eq end.
#[global] Instance bool_key : Key bool := fun data1 data2 =>
  value1 ← from_bytes data1; value2 ← from_bytes data2; Ret (bool_cmp value1 value2).

(** [&[u8]] *)
Record bytes := Bytes { slice_of : list Z }.
#[global] Instance bytes_value : Value bytes := {
  fixed_width := None;
  from_bytes := fun data => Ret (Bytes data);
  as_bytes := fun v => Ret (slice_of v);
  type_name := TypeName.internal (ascii "&[u8]") }.
#[global] Instance bytes_key : Key bytes := fun data1 data2 => Ret (bytes_cmp data1 data2).

(** [&[u8; N]] *)
Record byte_array (N : nat) := ByteArray { array_of : list Z }.
Arguments ByteArray {N}.
Arguments array_of {N}.
#[global] Instance byte_array_value N : Value (byte_array N) := {
  fixed_width := Some (Z.of_nat N);
  from_bytes := fun data => if (length data =? N)%nat then Ret (ByteArray data) else Panic;
  as_bytes := fun v => Ret (array_of v);
  type_name := TypeName.internal (ascii ("[u8;" +:+ pretty N +:+ "]")) }.
#[global] Instance byte_array_key N : Key (byte_array N) := fun data1 data2 => Ret (bytes_cmp data1 data2).

(** [&str] and [String], which differ in their names; the text is its UTF-8 bytes *)
Record text (owned : bool) := Text { utf8_of : list Z }.
Arguments Text {owned}.
Arguments utf8_of {owned}.
#[global] Instance text_value owned : Value (text owned) := {
  fixed_width := None;
  from_bytes := fun data => s ← from_utf8 data; Ret (Text s);
  as_bytes := fun v => Ret (utf8_of v);
  type_name := TypeName.internal (if owned then ascii "String" else ascii "&str") }.
#[global] Instance text_key owned : Key (text owned) := fun data1 data2 =>
  s1 ← from_utf8 data1; s2 ← from_utf8 data2; Ret (bytes_cmp s1 s2).

(** [char] *)
Record char := Char { code_point : Z }.
(** [char::from_u32(..).unwrap()] *)
Definition char_from_u32 (x : Z) : outcome char :=
  if (x <? 55296) || ((57344 <=? x) && (x <? 1114112)) then Ret (Char x) else Panic.
#[global] Instance char_value : Value char := {
  fixed_width := Some 3;
  from_bytes := fun data =>
    b0 ← vget data 0; b1 ← vget data 1; b2 ← vget data 2; char_from_u32 (from_le_bytes [b0; b1; b2; 0]);
  as_bytes := fun v =>
    let bytes := to_le_bytes 4 (code_point v) in
    b0 ← vget bytes 0; b1 ← vget bytes 1; b2 ← vget bytes 2; Ret [b0; b1; b2];
  type_name := TypeName.internal (ascii "char") }.
#[global] Instance char_key : Key char := fun data1 data2 =>
  c1 ← from_bytes data1; c2 ← from_bytes data2; Ret (Z.compare (code_point c1) (code_point c2)).

(** ** Integers *)

(** [le_value!]: the unsigned types, by their number of bytes *)
Record uint (n : nat) := UInt { uint_val : Z }.
Arguments UInt {n}.
Arguments uint_val {n}.
#[global] Instance uint_value n : Value (uint n) := {
  fixed_width := Some (Z.of_nat n);
  from_bytes := fun data => if (length data =? n)%nat then Ret (UInt (from_le_bytes data)) else Panic;
  as_bytes := fun v => Ret (to_le_bytes n (uint_val v));
  type_name := TypeName.internal (ascii ("u" +:+ pretty (8 * n)%nat)) }.
(** [le_impl!] *)
#[global] Instance uint_key n : Key (uint n) := fun data1 data2 =>
  v1 ← (from_bytes data1 : outcome (uint n)); v2 ← (from_bytes data2 : outcome (uint n)); Ret (Z.compare (uint_val v1) (uint_val v2)).

(** The signed types, in two's complement *)
Record sint (n : nat) := SInt { sint_val : Z }.
Arguments SInt {n}.
Arguments sint_val {n}.
Definition to_signed (n : nat) (x : Z) : Z := if x <? 2 ^ (8 * Z.of_nat n - 1) then x else x - 2 ^ (8 * Z.of_nat n).
Definition to_unsigned (n : nat) (x : Z) : Z := x mod 2 ^ (8 * Z.of_nat n).
#[global] Instance sint_value n : Value (sint n) := {
  fixed_width := Some (Z.of_nat n);
  from_bytes := fun data => if (length data =? n)%nat then Ret (SInt (to_signed n (from_le_bytes data))) else Panic;
  as_bytes := fun v => Ret (to_le_bytes n (to_unsigned n (sint_val v)));
  type_name := TypeName.internal (ascii ("i" +:+ pretty (8 * n)%nat)) }.
#[global] Instance sint_key n : Key (sint n) := fun data1 data2 =>
  v1 ← (from_bytes data1 : outcome (sint n)); v2 ← (from_bytes data2 : outcome (sint n)); Ret (Z.compare (sint_val v1) (sint_val v2)).

(** [f32] and [f64], by their bits; these are no keys *)
Record float (n : nat) := Float { float_bits : Z }.
Arguments Float {n}.
Arguments float_bits {n}.
#[global] Instance float_value n : Value (float n) := {
  fixed_width := Some (Z.of_nat n);
  from_bytes := fun data => if (length data =? n)%nat then Ret (Float (from_le_bytes data)) else Panic;
  as_bytes := fun v => Ret (to_le_bytes n (float_bits v));
  type_name := TypeName.internal (ascii ("f" +:+ pretty (8 * n)%nat)) }.

(** ** Options *)

Section option.
  Context {T : Type} `{Value T}.

Definition option_from_bytes (data : list Z) : outcome (option T) :=
  b ← vget data 0;
  if b =? 0 then Ret None
  else if b =? 1 then rest ← slice_from data 1; x ← from_bytes rest; Ret (Some x)
  else Panic.

Definition option_as_bytes (value : option T) : outcome (list Z) :=
  match value with
  | Some x => b ← as_bytes x; Ret (1 :: b)
  | None => Ret (0 :: match fixed_width T with Some w => replicate (Z.to_nat w) 0 | None => [] end)
  end.

#[global] Instance option_value : Value (option T) := {
  fixed_width := match fixed_width T with Some x => Some (x + 1) | None => None end;
  from_bytes := option_from_bytes;
  as_bytes := option_as_bytes;
  type_name := TypeName.internal (ascii "Option<" ++ TypeName.name (type_name T) ++ ascii ">") }.

#[global] Instance option_key `{!Key T} : Key (option T) := fun data1 data2 =>
  b1 ← vget data1 0;
  b2 ← vget data2 0;
  if b1 =? 0 then Ret (if b2 =? 0 then Eq else Lt)
  else if b2 =? 0 then Ret Gt
  else r1 ← slice_from data1 1; r2 ← slice_from data2 1; compare T r1 r2.

End option.

(** ** Arrays *)

(** [[T; N]]; an element of the type has [N] elements *)
Record array (T : Type) (N : nat) := Array { elements : list T }.
Arguments Array {T N}.
Arguments elements {T N}.

Section array.
  Context {T : Type} `{Value T} (N : nat).

Definition array_from_bytes (data : list Z) : outcome (array T N) :=
  result ← match fixed_width T with
    | Some fixed =>
        omap_list (fun i => d ← slice data (fixed * i) (fixed * (i + 1)); from_bytes d) (seqZ 0 (Z.of_nat N))
    | None => read_sections from_bytes N data 0 (4 * Z.of_nat N)
    end;
  Ret (Array result).

(** Appends an element and writes its end to the table *)
Definition array_push (i : Z) (item : T) (result : list Z) : outcome (list Z) :=
  d ← as_bytes item;
  let result := result ++ d in
  end_ ← utry 32 (vlen result);
  splice result (4 * i) (to_le_bytes 4 end_).

Definition array_as_bytes (value : array T N) : outcome (list Z) :=
  match fixed_width T with
  | Some _ => for_each (fun item result => d ← as_bytes item; Ret (result ++ d)) (elements value) []
  | None =>
      for_each (fun i result => item ← vget (elements value) i; array_push i item result)
        (seqZ 0 (Z.of_nat N)) (replicate (4 * N) 0)
  end.

#[global] Instance array_value : Value (array T N) := {
  fixed_width := match fixed_width T with Some x => Some (x * Z.of_nat N) | None => None end;
  from_bytes := array_from_bytes;
  as_bytes := array_as_bytes;
  type_name := TypeName.internal (ascii "[" ++ TypeName.name (type_name T) ++ ascii (";" +:+ pretty N +:+ "]")) }.

(** The two loops of [compare], over the indices that are left *)
Fixpoint array_compare_fixed `{!Key T} (fixed : Z) (indices : list Z) (data1 data2 : list Z) : outcome comparison :=
  match indices with
  | [] => Ret Eq
  | i :: rest =>
      d1 ← slice data1 (fixed * i) (fixed * (i + 1));
      d2 ← slice data2 (fixed * i) (fixed * (i + 1));
      comparison ← compare T d1 d2;
      match comparison with Eq => array_compare_fixed fixed rest data1 data2 | c => Ret c end
  end.
Fixpoint array_compare_variable `{!Key T} (indices : list Z) (data1 data2 : list Z) (start1 start2 : Z)
    : outcome comparison :=
  match indices with
  | [] => Ret Eq
  | i :: rest =>
      e1 ← slice data1 (4 * i) (4 * (i + 1));
      e2 ← slice data2 (4 * i) (4 * (i + 1));
      let end1 := from_le_bytes e1 in
      let end2 := from_le_bytes e2 in
      d1 ← slice data1 start1 end1;
      d2 ← slice data2 start2 end2;
      comparison ← compare T d1 d2;
      match comparison with Eq => array_compare_variable rest data1 data2 end1 end2 | c => Ret c end
  end.

#[global] Instance array_key `{!Key T} : Key (array T N) := fun data1 data2 =>
  match fixed_width T with
  | Some fixed => array_compare_fixed fixed (seqZ 0 (Z.of_nat N)) data1 data2
  | None =>
      array_compare_variable (seqZ 0 (Z.of_nat N)) data1 data2 (4 * Z.of_nat N) (4 * Z.of_nat N)
  end.

End array.

(** ** Vectors *)

Definition encode_varint_len (len : Z) (output : list Z) : outcome (list Z) :=
  if len <? 254 then b ← utry 8 len; Ret (output ++ [b])
  else if len <=? umax 16 then u16_len ← utry 16 len; Ret ((output ++ [254]) ++ to_le_bytes 2 u16_len)
  else u32_len ← utry 32 len; Ret ((output ++ [255]) ++ to_le_bytes 4 u32_len).

Definition decode_varint_len (data : list Z) : outcome (Z * Z) :=
  b ← vget data 0;
  if b <=? 253 then Ret (b, 1)
  else if b =? 254 then d ← slice data 1 3; Ret (from_le_bytes d, 3)
  else d ← slice data 1 5; Ret (from_le_bytes d, 5).

Record vec (T : Type) := Vec { items : list T }.
Arguments Vec {T}.
Arguments items {T}.

Section vec.
  Context {T : Type} `{Value T}.

(** The loop of [from_bytes] over the [n] elements that are left *)
Fixpoint vec_read (n : nat) (data : list Z) (offset : Z) : outcome (list T * Z) :=
  match n with
  | O => Ret ([], offset)
  | S m =>
      lo ← match fixed_width T with
        | Some len => Ret (len, offset)
        | None => rest ← slice_from data offset; lc ← decode_varint_len rest; Ret (lc.1, offset + lc.2)
        end;
      let element_len := lo.1 in
      let offset := lo.2 in
      d ← slice data offset (offset + element_len);
      x ← from_bytes d;
      r ← vec_read m data (offset + element_len);
      Ret (x :: r.1, r.2)
  end.

Definition vec_from_bytes (data : list Z) : outcome (vec T) :=
  eo ← decode_varint_len data;
  r ← vec_read (Z.to_nat eo.1) data eo.2;
  _ ← rassert (r.2 =? vlen data);
  Ret (Vec r.1).

Definition vec_push (element : T) (result : list Z) : outcome (list Z) :=
  serialized ← as_bytes element;
  result ← match fixed_width T with None => encode_varint_len (vlen serialized) result | Some _ => Ret result end;
  Ret (result ++ serialized).

Definition vec_as_bytes (value : vec T) : outcome (list Z) :=
  result ← encode_varint_len (vlen (items value)) [];
  for_each vec_push (items value) result.

#[global] Instance vec_value : Value (vec T) := {
  fixed_width := None;
  from_bytes := vec_from_bytes;
  as_bytes := vec_as_bytes;
  type_name := TypeName.internal (ascii "Vec<" ++ TypeName.name (type_name T) ++ ascii ">") }.

End vec.

(** ** Tuples *)

Fixpoint sum_list (l : list Z) : Z := match l with [] => 0 | x :: t => x + sum_list t end.

(** The lengths that are stored: those of the elements of variable width, the last element apart *)
Fixpoint stored_lens (is_fixed_width : list bool) (slices : list (list Z)) : list Z :=
  match is_fixed_width, slices with
  | fixed :: fs, x :: xs => (if fixed then [] else [vlen x]) ++ stored_lens fs xs
  | _, _ => []
  end.

Definition serialize_tuple_elements_variable (is_fixed_width : list bool) (slices : list (list Z)) : outcome (list Z) :=
  let total_len := sum_list (map vlen slices) in
  let worst_case_len_overhead := sum_list (map (fun x : bool => if x then 0 else 5) is_fixed_width) in
  n ← usub (vlen slices) 1;
  output ← for_each encode_varint_len
    (stored_lens (take (Z.to_nat n) is_fixed_width) (take (Z.to_nat n) slices)) [];
  let output := foldl (fun o slice => o ++ slice) output slices in
  _ ← rassert (vlen output <=? total_len + worst_case_len_overhead);
  Ret output.

Definition serialize_tuple_elements_fixed (slices : list (list Z)) : list Z := foldl (fun o slice => o ++ slice) [] slices.

(** The loop of [parse_lens] over the widths that are left; it returns the offset and the lengths *)
Fixpoint parse_lens_from (fixed_width : list (option Z)) (data : list Z) (offset : Z) : outcome (Z * list Z) :=
  match fixed_width with
  | [] => Ret (offset, [])
  | Some len :: rest => r ← parse_lens_from rest data offset; Ret (r.1, len :: r.2)
  | None :: rest =>
      d ← slice_from data offset;
      lb ← decode_varint_len d;
      r ← parse_lens_from rest data (offset + lb.2);
      Ret (r.1, lb.1 :: r.2)
  end.
Definition parse_lens (fixed_width : list (option Z)) (data : list Z) : outcome (Z * list Z) :=
  parse_lens_from fixed_width data 0.

Definition not_equal (T : Type) `{Key T} (data1 data2 : list Z) : outcome (option comparison) :=
  c ← compare T data1 data2;
  Ret (match c with Lt => Some Lt | Eq => None | Gt => Some Gt end).

(** The macros expand to one block per element; these classes hold the blocks,
    from some element on.  [one] is the last element of a tuple, [more] an
    element before others. *)
Class Elements (R : Type) := {
  (** the [fixed_width] of each element *)
  widths : list (option Z);
  names : list (list Z);
  slices : R -> outcome (list (list Z));
  (** [from_bytes_fixed_impl!] from an offset *)
  from_bytes_fixed : list Z -> Z -> outcome R;
  (** [from_bytes_variable_impl!] from an offset, with the lengths of the elements before the last *)
  from_bytes_variable : list Z -> Z -> list Z -> outcome R }.
Arguments widths R {_}.
Arguments names R {_}.

Class ElementKeys (R : Type) `{Elements R} := {
  (** [compare_fixed_impl!] from an offset *)
  compare_fixed : list Z -> list Z -> Z -> outcome comparison;
  (** [compare_variable_impl!] from the offsets, with the lengths *)
  compare_variable : list Z -> list Z -> Z -> Z -> list Z -> list Z -> outcome comparison }.
Arguments compare_fixed R {_ _}.
Arguments compare_variable R {_ _}.

Record one (T : Type) := One { last_element : T }.
Arguments One {T}.
Arguments last_element {T}.
Record more (T R : Type) := More { element : T; others : R }.
Arguments More {T R}.
Arguments element {T R}.
Arguments others {T R}.

#[global] Instance one_elements {T} `{Value T} : Elements (one T) := {
  widths := [fixed_width T];
  names := [TypeName.name (type_name T)];
  slices := fun r => d ← as_bytes (last_element r); Ret [d];
  from_bytes_fixed := fun data offset =>
    len ← unwrap (fixed_width T);
    d ← slice data offset (offset + len);
    v ← from_bytes d;
    Ret (One v);
  from_bytes_variable := fun data offset _ =>
    d ← slice_from data offset;
    v ← from_bytes d;
    Ret (One v) }.

#[global] Instance more_elements {T R} `{Value T} `{Elements R} : Elements (more T R) := {
  widths := fixed_width T :: widths R;
  names := TypeName.name (type_name T) :: names R;
  slices := fun r => d ← as_bytes (element r); ds ← slices (others r); Ret (d :: ds);
  from_bytes_fixed := fun data offset =>
    len ← unwrap (fixed_width T);
    d ← slice data offset (offset + len);
    v ← from_bytes d;
    r ← from_bytes_fixed data (offset + len);
    Ret (More v r);
  from_bytes_variable := fun data offset lens =>
    len ← vget lens 0;
    d ← slice data offset (offset + len);
    v ← from_bytes d;
    r ← from_bytes_variable data (offset + len) (tail lens);
    Ret (More v r) }.

#[global] Instance one_keys {T} `{Key T} : ElementKeys (one T) := {
  compare_fixed := fun data0 data1 offset =>
    len ← unwrap (fixed_width T);
    d0 ← slice data0 offset (offset + len);
    d1 ← slice data1 offset (offset + len);
    ne ← not_equal T d0 d1;
    Ret (match ne with Some order => order | None => Eq end);
  compare_variable := fun data0 data1 offset0 offset1 _ _ =>
    d0 ← slice_from data0 offset0;
    d1 ← slice_from data1 offset1;
    compare T d0 d1 }.

#[global] Instance more_keys {T R} `{Key T} `{ElementKeys R} : ElementKeys (more T R) := {
  compare_fixed := fun data0 data1 offset =>
    len ← unwrap (fixed_width T);
    d0 ← slice data0 offset (offset + len);
    d1 ← slice data1 offset (offset + len);
    ne ← not_equal T d0 d1;
    match ne with Some order => Ret order | None => compare_fixed R data0 data1 (offset + len) end;
  compare_variable := fun data0 data1 offset0 offset1 lens0 lens1 =>
    len0 ← vget lens0 0;
    len1 ← vget lens1 0;
    d0 ← slice data0 offset0 (offset0 + len0);
    d1 ← slice data1 offset1 (offset1 + len1);
    ne ← not_equal T d0 d1;
    match ne with
    | Some order => Ret order
    | None => compare_variable R data0 data1 (offset0 + len0) (offset1 + len1) (tail lens0) (tail lens1)
    end }.

(** [fixed_width_impl!]; [sum] is what was added so far *)
Fixpoint fixed_width_sum (sum : Z) (widths : list (option Z)) : option Z :=
  match widths with
  | [] => Some sum
  | Some w :: rest => fixed_width_sum (sum + w) rest
  | None :: _ => None
  end.

(** A tuple of at least two elements *)
Record tuple (T R : Type) := Tuple { parts : more T R }.
Arguments Tuple {T R}.
Arguments parts {T R}.

Section tuple.
  Context {T R : Type} `{Value T} `{Elements R}.

Definition tuple_fixed_width : option Z := fixed_width_sum 0 (widths (more T R)).

Definition tuple_from_bytes (data : list Z) : outcome (tuple T R) :=
  match tuple_fixed_width with
  | Some _ => r ← from_bytes_fixed data 0; Ret (Tuple r)
  | None =>
      ol ← parse_lens (removelast (widths (more T R))) data;
      r ← from_bytes_variable data ol.1 ol.2;
      Ret (Tuple r)
  end.

Definition tuple_as_bytes (value : tuple T R) : outcome (list Z) :=
  match tuple_fixed_width with
  | Some _ => ds ← slices (parts value); Ret (serialize_tuple_elements_fixed ds)
  | None =>
      ds ← slices (parts value);
      serialize_tuple_elements_variable
        (map (fun w => match w with Some _ => true | None => false end) (widths (more T R))) ds
  end.

(** [type_name_impl!] *)
Definition tuple_type_name : TypeName.t :=
  let result := ascii "(" ++ TypeName.name (type_name T) ++ concat (map (fun n => ascii "," ++ n) (names R)) ++ ascii ")" in
  match tuple_fixed_width with Some _ => TypeName.internal result | None => TypeName.internal2 result end.

#[global] Instance tuple_value : Value (tuple T R) := {
  fixed_width := tuple_fixed_width;
  from_bytes := tuple_from_bytes;
  as_bytes := tuple_as_bytes;
  type_name := tuple_type_name }.

#[global] Instance tuple_key `{!Key T} `{!ElementKeys R} : Key (tuple T R) := fun data1 data2 =>
  match tuple_fixed_width with
  | Some _ => compare_fixed (more T R) data1 data2 0
  | None =>
      ol1 ← parse_lens (removelast (widths (more T R))) data1;
      ol2 ← parse_lens (removelast (widths (more T R))) data2;
      compare_variable (more T R) data1 data2 ol1.1 ol2.1 ol1.2 ol2.2
  end.

End tuple.

(** [(T,)] *)
Record single (T : Type) := Single { single_of : T }.
Arguments Single {T}.
Arguments single_of {T}.
#[global] Instance single_value {T} `{Value T} : Value (single T) := {
  fixed_width := fixed_width T;
  from_bytes := fun data => v ← from_bytes data; Ret (Single v);
  as_bytes := fun v => as_bytes (single_of v);
  type_name := TypeName.internal (ascii "(" ++ TypeName.name (type_name T) ++ ascii ",)") }.
#[global] Instance single_key {T} `{Key T} : Key (single T) := fun data1 data2 => compare T data1 data2.

(** * What is proved of the encodings *)

(** [d] is the encoding of [v], it decodes to [v], and it has the declared width. *)
Definition encodes {T} `{Value T} (v : T) (d : list Z) : Prop :=
  as_bytes v = Ret d /\ from_bytes d = Ret v /\ Forall byte d /\ (forall w, fixed_width T = Some w -> vlen d = w).
(** The length of the encoding *)
Definition encoded_len {T} `{Value T} (v : T) : Z := match as_bytes v with Ret d => vlen d | Panic => 0 end.
(** A length prefix can hold the length of [v], if it needs one *)
Definition fits_len {T} `{Value T} (v : T) : Prop := fixed_width T = None -> encoded_len v < 2 ^ 32.

Record value_laws (T : Type) `{Value T} (valid : T -> Prop) : Prop := {
  width_nonneg : forall w, fixed_width T = Some w -> 0 <= w;
  encode_ok : forall v, valid v -> exists d, encodes v d;
  name_ascii : Forall (fun b => 0 <= b < 128) (TypeName.name (type_name T)) }.

Record total_order {A} (cmp : A -> A -> comparison) : Prop := {
  order_eq : forall a b, cmp a b = Eq <-> a = b;
  order_opp : forall a b, cmp b a = CompOpp (cmp a b);
  order_trans : forall a b c, cmp a b = Lt -> cmp b c = Lt -> cmp a c = Lt }.

(** The order of the encodings is the order [cmp] of the values, and it is total. *)
Record key_laws (T : Type) `{Key T} (valid : T -> Prop) (cmp : T -> T -> comparison) : Prop := {
  key_order : total_order cmp;
  key_compare : forall v1 v2 d1 d2, valid v1 -> valid v2 -> as_bytes v1 = Ret d1 -> as_bytes v2 = Ret d2 ->
    compare T d1 d2 = Ret (cmp v1 v2) }.

(** ** Orders *)

Lemma order_refl {A} (cmp : A -> A -> comparison) a : total_order cmp -> cmp a a = Eq.
Proof. intros H. by apply (order_eq cmp H). Qed.

Lemma total_order_Z : total_order Z.compare.
Proof.
  split; [apply Z.compare_eq_iff|intros; apply Z.compare_antisym|].
  intros a b c. rewrite !Z.compare_lt_iff. lia.
Qed.

(** An order pulled back along an injection *)
Lemma total_order_inj {A B} (cmp : B -> B -> comparison) (f : A -> B) :
  total_order cmp -> (forall a b, f a = f b -> a = b) -> total_order (fun a b => cmp (f a) (f b)).
Proof.
  intros [He Ho Ht] Hf. split; [|intros; apply Ho|intros a b c; apply Ht].
  intros a b. rewrite He. split; [apply Hf|by intros ->].
Qed.

Lemma total_order_list {A} (cmp : A -> A -> comparison) : total_order cmp -> total_order (list_cmp cmp).
Proof.
  intros [He Ho Ht]. split.
  - induction a as [|x a IH]; intros [|y b]; cbn [list_cmp]; [done..|]. destruct (cmp x y) eqn:E.
    + apply He in E as ->. rewrite IH. split; [by intros ->|by intros [= ->]].
    + split; [done|]. intros [= -> ->]. by rewrite (proj2 (He y y)) in E.
    + split; [done|]. intros [= -> ->]. by rewrite (proj2 (He y y)) in E.
  - induction a as [|x a IH]; intros [|y b]; cbn [list_cmp]; [done..|]. rewrite (Ho x y).
    destruct (cmp x y); simpl; [apply IH|done..].
  - induction a as [|x a IH]; intros [|y b] [|z c]; cbn [list_cmp]; try done.
    destruct (cmp x y) eqn:E1; [apply He in E1 as ->| |done].
    + destruct (cmp y z); [apply IH|done..].
    + intros _. destruct (cmp y z) eqn:E2; [apply He in E2 as ->| |done]; intros _; [by rewrite E1|by rewrite (Ht x y z)].
Qed.

(** The order of pairs, first components first *)
Definition pair_cmp {A B} (ca : A -> A -> comparison) (cb : B -> B -> comparison) (p q : A * B) : comparison :=
  match ca p.1 q.1 with Eq => cb p.2 q.2 | c => c end.
Lemma total_order_pair {A B} (ca : A -> A -> comparison) (cb : B -> B -> comparison) :
  total_order ca -> total_order cb -> total_order (pair_cmp ca cb).
Proof.
  intros [Ea Oa Ta] [Eb Ob Tb]. split.
  - intros [x a] [y b]. unfold pair_cmp. simpl. destruct (ca x y) eqn:E.
    + apply Ea in E as ->. rewrite Eb. split; [by intros ->|by intros [= ->]].
    + split; [done|]. intros [= -> ->]. by rewrite (proj2 (Ea y y)) in E.
    + split; [done|]. intros [= -> ->]. by rewrite (proj2 (Ea y y)) in E.
  - intros [x a] [y b]. unfold pair_cmp. simpl. rewrite (Oa x y). destruct (ca x y); simpl; [apply Ob|done..].
  - intros [x a] [y b] [z c]. unfold pair_cmp. simpl.
    destruct (ca x y) eqn:E1; [apply Ea in E1 as ->| |done].
    + destruct (ca y z); [apply Tb|done..].
    + intros _. destruct (ca y z) eqn:E2; [apply Ea in E2 as ->| |done]; intros _; [by rewrite E1|by rewrite (Ta x y z)].
Qed.

Definition option_cmp {A} (cmp : A -> A -> comparison) (a b : option A) : comparison :=
  match a, b with None, None => Eq | None, Some _ => Lt | Some _, None => Gt | Some x, Some y => cmp x y end.
Lemma total_order_option {A} (cmp : A -> A -> comparison) : total_order cmp -> total_order (option_cmp cmp).
Proof.
  intros [He Ho Ht]. split.
  - intros [x|] [y|]; simpl; try done. rewrite He. split; [by intros ->|by intros [= ->]].
  - intros [x|] [y|]; simpl; auto.
  - intros [x|] [y|] [z|]; simpl; try done. apply Ht.
Qed.

(** ** Names *)

Lemma ascii_app s t : ascii (s +:+ t) = ascii s ++ ascii t.
Proof. induction s as [|c s IH]; [done|]. cbn [ascii app]. rewrite <-IH. done. Qed.

Lemma ascii_pretty_go x : forall s, Forall (fun b => 0 <= b < 128) (ascii s) ->
  Forall (fun b => 0 <= b < 128) (ascii (pretty_N_go x s)).
Proof.
  induction (N.lt_wf_0 x) as [x _ IH]. intros s Hs. destruct (decide (0 < x)%N) as [Hx|Hx].
  - rewrite pretty_N_go_step by done. apply IH; [apply N.div_lt; lia|]. cbn. constructor; [|done].
    unfold pretty_N_char. by repeat case_match.
  - assert (x = 0%N) as -> by lia. by rewrite pretty_N_go_0.
Qed.
Lemma ascii_pretty (n : nat) : Forall (fun b => 0 <= b < 128) (ascii (pretty n)).
Proof.
  unfold pretty, pretty_nat, pretty, pretty_N. case_match; [by repeat constructor|]. apply ascii_pretty_go. constructor.
Qed.

(** Proves that a name is made of ASCII characters *)
Ltac names :=
  cbn; repeat first
    [ rewrite ascii_app; cbn [ascii]
    | match goal with |- Forall _ (_ ++ _) => apply Forall_app; split end
    | apply ascii_pretty
    | eassumption
    | match goal with |- Forall _ (_ :: _) => constructor; [done|] | |- Forall _ [] => constructor end
    | by eapply name_ascii ].

Lemma utf8_ascii bs : Forall (fun b => 0 <= b < 128) bs -> forall fuel, (length bs < fuel)%nat -> utf8_fuel fuel bs = true.
Proof.
  induction 1 as [|b bs Hb _ IH]; intros [|f] Hf; simpl in Hf |- *; [lia|done|lia|].
  rewrite (proj2 (Z.ltb_lt b 128)) by lia. apply IH. lia.
Qed.
Lemma from_utf8_ascii bs : Forall (fun b => 0 <= b < 128) bs -> from_utf8 bs = Ret bs.
Proof. intros H. unfold from_utf8, valid_utf8. by rewrite utf8_ascii by (done || lia). Qed.

Lemma type_name_read n :
  from_utf8 (TypeName.name n) = Ret (TypeName.name n) -> TypeName.from_bytes (TypeName.to_bytes n) = Ret n.
Proof.
  destruct n as [c n]. cbn [TypeName.name]. intros Hn. unfold TypeName.from_bytes, TypeName.to_bytes. cbn [TypeName.name TypeName.classification].
  change (vget (classification_to_byte c :: n) 0) with (Ret (classification_to_byte c)). cbn [mbind outcome_bind].
  rewrite slice_from_ok by (unfold vlen; simpl; lia). cbn [Z.to_nat drop Pos.to_nat Pos.iter_op].
  change (drop (Z.to_nat 1) (classification_to_byte c :: n)) with n.
  destruct c; cbn [classification_to_byte classification_from_byte mbind outcome_bind];
    simpl; rewrite ?Hn; done.
Qed.

(** ** Plain types *)

Lemma unit_laws : value_laws unit (fun _ => True).
Proof.
  split; [intros w [= <-]; lia| |names].
  intros [] _. exists []. repeat split; [constructor|by intros w [= <-]].
Qed.
Lemma unit_key_laws : key_laws unit (fun _ => True) (fun _ _ => Eq).
Proof. split; [split|]; try done. intros [] []; done. Qed.

Lemma bool_laws : value_laws bool (fun _ => True).
Proof.
  split; [intros w [= <-]; lia| |names].
  intros b _. exists [if b then 1 else 0]. repeat split; [by destruct b|by destruct b; repeat constructor|by intros w [= <-]].
Qed.
Lemma bool_key_laws : key_laws bool (fun _ => True) bool_cmp.
Proof.
  split; [split; [by intros [] []|by intros [] []|by intros [] [] []]|].
  intros b1 b2 d1 d2 _ _ [= <-] [= <-]. by destruct b1, b2.
Qed.

Lemma bytes_laws : value_laws bytes (fun v => Forall byte (slice_of v)).
Proof.
  split; [done| |names].
  intros v Hv. exists (slice_of v). split; [done|]. split; [by destruct v|]. done.
Qed.
Lemma bytes_key_laws valid : key_laws bytes valid (fun a b => bytes_cmp (slice_of a) (slice_of b)).
Proof.
  split; [apply total_order_inj; [apply total_order_list, total_order_Z|by intros [] [] [= ->]]|].
  by intros v1 v2 d1 d2 _ _ [= <-] [= <-].
Qed.

Lemma byte_array_laws N :
  value_laws (byte_array N) (fun v => Forall byte (array_of v) /\ length (array_of v) = N).
Proof.
  split; [intros w [= <-]; lia| |names].
  intros [v] [Hb Hl]. simpl in *. exists v. split; [done|]. split; [|split; [done|]].
  - cbn. by rewrite (proj2 (Nat.eqb_eq _ _)).
  - intros w [= <-]. unfold vlen. by rewrite Hl.
Qed.
Lemma byte_array_key_laws N valid : key_laws (byte_array N) valid (fun a b => bytes_cmp (array_of a) (array_of b)).
Proof.
  split; [apply total_order_inj; [apply total_order_list, total_order_Z|by intros [] [] [= ->]]|].
  by intros v1 v2 d1 d2 _ _ [= <-] [= <-].
Qed.

Lemma text_laws owned :
  value_laws (text owned) (fun v => Forall byte (utf8_of v) /\ valid_utf8 (utf8_of v) = true).
Proof.
  split; [done| |destruct owned; names].
  intros [v] [Hb Hu]. simpl in *. exists v. split; [done|]. split; [|done]. cbn. unfold from_utf8. by rewrite Hu.
Qed.
Lemma text_key_laws owned :
  key_laws (text owned) (fun v => Forall byte (utf8_of v) /\ valid_utf8 (utf8_of v) = true)
    (fun a b => bytes_cmp (utf8_of a) (utf8_of b)).
Proof.
  split; [apply total_order_inj; [apply total_order_list, total_order_Z|by intros [] [] [= ->]]|].
  intros v1 v2 d1 d2 [_ H1] [_ H2] [= <-] [= <-]. unfold compare, text_key, from_utf8. by rewrite H1, H2.
Qed.

(** The values of [char]: the code points, the surrogates apart *)
Definition char_valid (c : char) : Prop := 0 <= code_point c < 55296 \/ 57344 <= code_point c < 1114112.
Lemma char_encodes c : char_valid c -> encodes c (to_le_bytes 3 (code_point c)).
Proof.
  destruct c as [x]. unfold char_valid. cbn [code_point]. intros Hx. split; [done|]. split; [|split].
  - transitivity (char_from_u32 (from_le_bytes (to_le_bytes 3 x))); [by cbn; rewrite Z.mul_0_r|].
    rewrite from_to_le_bytes by (cbn; lia). unfold char_from_u32. destruct Hx.
    + by rewrite (proj2 (Z.ltb_lt x 55296)) by lia.
    + rewrite (proj2 (Z.ltb_ge x 55296)), (proj2 (Z.leb_le 57344 x)), (proj2 (Z.ltb_lt x 1114112)) by lia. done.
  - apply to_le_bytes_byte.
  - by intros w [= <-].
Qed.
Lemma char_laws : value_laws char char_valid.
Proof. split; [intros w [= <-]; lia| |names]. intros c Hc. eexists. by apply char_encodes. Qed.
Lemma char_key_laws : key_laws char char_valid (fun a b => Z.compare (code_point a) (code_point b)).
Proof.
  split; [apply total_order_inj; [apply total_order_Z|by intros [] [] [= ->]]|].
  intros v1 v2 d1 d2 H1 H2 E1 E2.
  destruct (char_encodes v1 H1) as (F1 & R1 & _), (char_encodes v2 H2) as (F2 & R2 & _).
  rewrite F1 in E1. rewrite F2 in E2. apply Ret_inj in E1 as <-. apply Ret_inj in E2 as <-.
  unfold compare, char_key. by rewrite R1, R2.
Qed.

Definition uint_valid {n} (v : uint n) : Prop := in_u (8 * Z.of_nat n) (uint_val v).
Definition sint_valid {n} (v : sint n) : Prop :=
  - 2 ^ (8 * Z.of_nat n - 1) <= sint_val v < 2 ^ (8 * Z.of_nat n - 1).
Definition float_valid {n} (v : float n) : Prop := in_u (8 * Z.of_nat n) (float_bits v).

Lemma to_signed_unsigned n x : (0 < n)%nat ->
  - 2 ^ (8 * Z.of_nat n - 1) <= x < 2 ^ (8 * Z.of_nat n - 1) ->
  in_u (8 * Z.of_nat n) (to_unsigned n x) /\ to_signed n (to_unsigned n x) = x.
Proof.
  intros Hn Hx. unfold to_signed, to_unsigned, in_u. set (m := 8 * Z.of_nat n - 1) in *.
  assert (E : 2 ^ (8 * Z.of_nat n) = 2 * 2 ^ m).
  { replace (8 * Z.of_nat n) with (1 + m) by lia. rewrite Z.pow_add_r by lia. lia. }
  rewrite E. split; [apply Z.mod_pos_bound; lia|].
  destruct (Z.neg_nonneg_cases x).
  - replace (x mod (2 * 2 ^ m)) with (x + 2 * 2 ^ m)
      by (apply Z.mod_unique with (-1); lia). rewrite (proj2 (Z.ltb_ge _ _)) by lia. lia.
  - rewrite Z.mod_small by lia. by rewrite (proj2 (Z.ltb_lt _ _)) by lia.
Qed.

Lemma uint_encodes n (v : uint n) : uint_valid v -> encodes v (to_le_bytes n (uint_val v)).
Proof.
  destruct v as [x]. intros Hx. split; [done|]. split; [|split; [apply to_le_bytes_byte|]].
  - cbn. rewrite length_to_le_bytes, Nat.eqb_refl, from_to_le_bytes; done.
  - intros w [= <-]. apply vlen_to_le_bytes.
Qed.
Lemma uint_laws n : value_laws (uint n) uint_valid.
Proof. split; [intros w [= <-]; lia| |names]. intros v Hv. eexists. by apply uint_encodes. Qed.
Lemma sint_encodes n (v : sint n) : (0 < n)%nat -> sint_valid v -> encodes v (to_le_bytes n (to_unsigned n (sint_val v))).
Proof.
  destruct v as [x]. intros Hn Hx. destruct (to_signed_unsigned n x Hn Hx) as [Hu Hs].
  split; [done|]. split; [|split; [apply to_le_bytes_byte|]].
  - cbn. rewrite length_to_le_bytes, Nat.eqb_refl, from_to_le_bytes by done. by rewrite Hs.
  - intros w [= <-]. apply vlen_to_le_bytes.
Qed.
Lemma sint_laws n : (0 < n)%nat -> value_laws (sint n) sint_valid.
Proof. intros Hn. split; [intros w [= <-]; lia| |names]. intros v Hv. eexists. by apply sint_encodes. Qed.
Lemma float_laws n : value_laws (float n) float_valid.
Proof.
  split; [intros w [= <-]; lia| |names]. intros [x] Hx. eexists. split; [done|].
  split; [|split; [apply to_le_bytes_byte|]].
  - cbn. rewrite length_to_le_bytes, Nat.eqb_refl, from_to_le_bytes; done.
  - intros w [= <-]. apply vlen_to_le_bytes.
Qed.

Lemma uint_key_laws n : key_laws (uint n) uint_valid (fun a b => Z.compare (uint_val a) (uint_val b)).
Proof.
  split; [apply total_order_inj; [apply total_order_Z|by intros [] [] [= ->]]|].
  intros v1 v2 d1 d2 H1 H2 <-%Ret_inj <-%Ret_inj. unfold compare, uint_key.
  destruct (uint_encodes n v1 H1) as (_ & -> & _), (uint_encodes n v2 H2) as (_ & -> & _). done.
Qed.
Lemma sint_key_laws n : (0 < n)%nat ->
  key_laws (sint n) sint_valid (fun a b => Z.compare (sint_val a) (sint_val b)).
Proof.
  intros Hn. split; [apply total_order_inj; [apply total_order_Z|by intros [] [] [= ->]]|].
  intros v1 v2 d1 d2 H1 H2 <-%Ret_inj <-%Ret_inj. unfold compare, sint_key.
  destruct (sint_encodes n v1 Hn H1) as (_ & -> & _), (sint_encodes n v2 Hn H2) as (_ & -> & _). done.
Qed.

(** ** Options *)

(** What two facts about one encoding say together *)
Lemma encodes_fun {T} `{Value T} (v : T) d d' : encodes v d -> as_bytes v = Ret d' -> d' = d.
Proof. intros [E _] E'. rewrite E in E'. by apply Ret_inj in E'. Qed.

Definition option_valid {T} (valid : T -> Prop) (o : option T) : Prop := match o with Some v => valid v | None => True end.

Lemma slice_from_cons {A} (x : A) l : slice_from (x :: l) 1 = Ret l.
Proof. rewrite slice_from_ok; [done|]. unfold vlen. simpl. lia. Qed.

Lemma option_laws {T} `{Value T} valid : value_laws T valid -> value_laws (option T) (option_valid valid).
Proof.
  intros L. split.
  - intros w. cbn. destruct (fixed_width T) eqn:E; [|done]. intros [= <-]. pose proof (width_nonneg T _ L _ E). lia.
  - intros [v|] Hv.
    + destruct (encode_ok T _ L v Hv) as (d & Ha & Hf & Hb & Hw). exists (1 :: d). split; [|split; [|split]].
      * cbn. by rewrite Ha.
      * cbn -[slice_from]. rewrite slice_from_cons. cbn. by rewrite Hf.
      * constructor; [unfold byte; lia|done].
      * intros w. cbn. destruct (fixed_width T) eqn:E; [|done]. intros [= <-]. specialize (Hw _ eq_refl). revert Hw. unfold vlen. simpl. lia.
    + eexists. split; [done|]. split; [done|]. split.
      * constructor; [unfold byte; lia|]. case_match; [|constructor]. apply Forall_replicate. unfold byte. lia.
      * intros w. cbn. destruct (fixed_width T) eqn:E; [|done]. intros [= <-]. pose proof (width_nonneg T _ L _ E).
        unfold vlen. cbn [length]. rewrite length_replicate. lia.
  - names.
Qed.

Lemma option_key_laws {T} `{Key T} valid cmp :
  key_laws T valid cmp -> key_laws (option T) (option_valid valid) (option_cmp cmp).
Proof.
  intros [Ho Hc]. split; [by apply total_order_option|].
  intros [v1|] [v2|] d1 d2 H1 H2 E1 E2; cbn in E1, E2; rinv E1; rinv E2; unfold compare, option_key; try done.
  change (vget (1 :: a) 0) with (Ret 1). change (vget (1 :: a0) 0) with (Ret 1). cbn [mbind outcome_bind Z.eqb].
  rewrite !slice_from_cons. cbn [mbind outcome_bind]. by apply Hc.
Qed.

(** ** Arrays *)

Lemma end_offsets_byte ds : forall off ends, end_offsets ds off = Ret ends -> Forall byte ends.
Proof.
  induction ds as [|d ds IH]; intros off ends He; cbn [end_offsets] in He; [injection He as <-; constructor|].
  apply outcome_bind_Ret in He as (o & _ & He). apply outcome_bind_Ret in He as (r & Hr & He). apply Ret_inj in He as <-.
  apply Forall_app. split; [apply to_le_bytes_byte|by eapply IH].
Qed.

Definition array_valid {T N} `{Value T} (valid : T -> Prop) (a : array T N) : Prop :=
  length (elements a) = N /\ Forall valid (elements a) /\
  (fixed_width T = None -> 4 * Z.of_nat N + sum_list (map encoded_len (elements a)) < 2 ^ 32).

Section compound.
  Context {T : Type} `{Value T} (valid : T -> Prop) (L : value_laws T valid).

Lemma encode_all l : Forall valid l -> exists ds, Forall2 encodes l ds.
Proof using L.
  induction 1 as [|v l Hv _ [ds IH]]; [by exists []; constructor|].
  destruct (encode_ok T _ L v Hv) as [d Hd]. exists (d :: ds). by constructor.
Qed.

Lemma encodes_bytes (l : list T) ds : Forall2 encodes l ds -> Forall byte (concat ds).
Proof. induction 1 as [|v d l ds (_ & _ & Hb & _) _ IH]; [constructor|]. by apply Forall_app. Qed.

Lemma encodes_lens (l : list T) ds : Forall2 encodes l ds -> sum_list (map encoded_len l) = vlen (concat ds).
Proof.
  induction 1 as [|v d l ds (Ha & _) _ IH]; [done|]. cbn [map sum_list concat]. unfold encoded_len at 1.
  by rewrite Ha, vlen_app, IH.
Qed.

Lemma push_all (l : list T) ds r : Forall2 encodes l ds ->
  for_each (fun item result => d ← as_bytes item; Ret (result ++ d)) l r = Ret (r ++ concat ds).
Proof.
  intros HF. revert r. induction HF as [|v d l ds (Ha & _) _ IH]; intros r; cbn [for_each concat]; [by rewrite app_nil_r|].
  rewrite Ha. cbn [mbind outcome_bind]. by rewrite IH, <-app_assoc.
Qed.

Lemma vlen_concat_fixed w (ds : list (list Z)) : Forall (fun d => vlen d = w) ds -> vlen (concat ds) = w * vlen ds.
Proof.
  induction 1 as [|d ds Hd _ IH]; [unfold vlen; simpl; lia|]. cbn [concat]. rewrite vlen_app, Hd, IH. unfold vlen. simpl. lia.
Qed.

Lemma encodes_widths (l : list T) ds w : fixed_width T = Some w -> Forall2 encodes l ds -> Forall (fun d => vlen d = w) ds.
Proof. intros Hw. induction 1 as [|v d l ds (_ & _ & _ & Hd) _ IH]; constructor; auto. Qed.

(** An element of the encodings of fixed width, [i] of them being before it *)
Lemma slice_fixed w (pre : list (list Z)) d post i :
  Forall (fun d => vlen d = w) pre -> vlen pre = i -> vlen d = w ->
  slice (concat (pre ++ d :: post)) (w * i) (w * (i + 1)) = Ret d.
Proof.
  intros Hpre Hi Hd. rewrite concat_app. cbn [concat]. apply slice_middle; rewrite (vlen_concat_fixed w) by done; lia.
Qed.

(** The loop that writes the elements and their ends, the elements [pre] being written *)
Lemma array_table N (v : array T N) rem : forall ds pre E D ends,
  Forall2 encodes rem ds -> elements v = pre ++ rem -> vlen E = 4 * vlen pre ->
  vlen E + 4 * vlen rem + vlen D + vlen (concat ds) < 2 ^ 32 ->
  end_offsets ds (vlen E + 4 * vlen rem + vlen D) = Ret ends ->
  for_each (fun i result => item ← vget (elements v) i; array_push i item result)
    (seqZ (vlen pre) (vlen rem)) (E ++ replicate (4 * length rem) 0 ++ D) = Ret (E ++ ends ++ D ++ concat ds).
Proof.
  induction rem as [|x rem IH]; intros ds pre E D ends HF Hel HE Hsz Hends.
  - apply Forall2_nil_inv_l in HF as ->. injection Hends as <-. cbn. by rewrite app_nil_r.
  - apply Forall2_cons_inv_l in HF as (d & ds' & (Ha & Hf & Hb & Hw) & HF & ->).
    assert (HL : vlen (x :: rem) = 1 + vlen rem) by (unfold vlen; simpl; lia). rewrite HL in *.
    pose proof (vlen_nonneg rem). pose proof (vlen_nonneg D). pose proof (vlen_nonneg pre). pose proof (vlen_nonneg d).
    cbn [concat] in Hsz. rewrite vlen_app in Hsz. pose proof (vlen_nonneg (concat ds')).
    rewrite seqZ_cons by lia. cbn [for_each]. rewrite Hel, (vget_ok _ _ x); [|lia|].
    2:{ unfold vlen. by rewrite Nat2Z.id, list_lookup_middle. }
    cbn [mbind outcome_bind]. unfold array_push. rewrite Ha. cbn [mbind outcome_bind].
    cbn [end_offsets] in Hends. apply outcome_bind_Ret in Hends as (o & Ho & Hends).
    apply outcome_bind_Ret in Hends as (r & Hr & Hends). apply Ret_inj in Hends as <-.
    set (result := (E ++ replicate (4 * length (x :: rem)) 0 ++ D) ++ d).
    assert (Hres : vlen result = vlen E + 4 * (1 + vlen rem) + vlen D + vlen d).
    { subst result. rewrite !vlen_app. unfold vlen at 2. rewrite length_replicate. unfold vlen. cbn [length]. lia. }
    rewrite Hres. rewrite Ho. cbn [mbind outcome_bind]. subst result.
    replace (4 * length (x :: rem))%nat with (4 + 4 * length rem)%nat by (cbn [length]; lia).
    rewrite replicate_add, <-!app_assoc, (splice_middle E (replicate 4 0)) by (lia || by rewrite length_to_le_bytes).
    cbn [mbind outcome_bind].
    specialize (IH ds' (pre ++ [x]) (E ++ to_le_bytes 4 o) (D ++ d) r HF).
    replace (vlen (pre ++ [x])) with (Z.succ (vlen pre)) in IH by (rewrite vlen_app; unfold vlen; simpl; lia).
    replace (Z.pred (1 + vlen rem)) with (vlen rem) by lia.
    rewrite !vlen_app, vlen_to_le_bytes, <-!app_assoc in IH. rewrite Hel in IH. cbn [app concat] in *. apply IH; [done|lia|lia|].
    rewrite <-Hr. f_equal. lia.
Qed.

(** The encoding of an array *)
Lemma array_shape N (v : array T N) : array_valid valid v -> exists ds, Forall2 encodes (elements v) ds /\
  match fixed_width T with
  | Some _ => as_bytes v = Ret (concat ds)
  | None => exists ends, end_offsets ds (4 * Z.of_nat N) = Ret ends /\ as_bytes v = Ret (ends ++ concat ds)
  end.
Proof using L.
  intros (HN & Hv & Hsz). destruct (encode_all _ Hv) as [ds HF]. exists ds. split; [done|].
  cbn. unfold array_as_bytes. destruct (fixed_width T) as [w|] eqn:Ew; [by rewrite (push_all _ ds)|].
  specialize (Hsz eq_refl). rewrite (encodes_lens _ _ HF) in Hsz.
  destruct (end_offsets_ok ds (4 * Z.of_nat N)) as [ends He]; [lia|lia|]. exists ends. split; [done|].
  pose proof (array_table N v (elements v) ds [] [] [] ends HF eq_refl) as Ht.
  unfold vlen in Ht. cbn [length app] in Ht. rewrite HN, app_nil_r in Ht. apply Ht; [done|unfold vlen in Hsz; lia|].
  rewrite <-He. f_equal. lia.
Qed.

Lemma array_laws N : value_laws (array T N) (array_valid valid).
Proof using L.
  split.
  - intros w. cbn. destruct (fixed_width T) eqn:E; [|done]. intros [= <-]. pose proof (width_nonneg T _ L _ E). lia.
  - intros v Hv. destruct (array_shape N v Hv) as (ds & HF & Hs). destruct Hv as (HN & _). destruct v as [l]. cbn [elements] in *. subst N.
    pose proof (Forall2_length _ _ _ HF) as Hlen. unfold encodes. cbn [from_bytes array_value fixed_width]. unfold array_from_bytes.
    destruct (fixed_width T) as [w|] eqn:Ew.
    + exists (concat ds). pose proof (encodes_widths _ _ _ Ew HF) as Hw. split; [done|]. split; [|split; [by eapply encodes_bytes|]].
      * change (Z.of_nat (length l)) with (vlen l). rewrite (omap_list_seqZ _ l); [done|].
        intros i x Hx. destruct (Forall2_lookup_l _ _ _ _ _ HF Hx) as (d & Hd & _ & Hf & _ & Hdw).
        rewrite <-(take_drop_middle ds i d Hd), (slice_fixed w); [cbn; by rewrite Hf|by apply Forall_take| |by apply Hdw].
        apply lookup_lt_Some in Hd. unfold vlen. rewrite length_take. lia.
      * intros w' [= <-]. rewrite (vlen_concat_fixed w) by done. unfold vlen. by rewrite <-Hlen.
    + destruct Hs as (ends & He & Hs). exists (ends ++ concat ds). split; [done|]. split; [|split; [|done]].
      * pose proof (read_sections_spec from_bytes id l ds [] [] ends 0 (4 * Z.of_nat (length l))) as Hr. cbn [app] in Hr.
        rewrite Hr; [by rewrite map_id| |done|done|].
        -- eapply Forall2_impl; [exact HF|]. by intros x d (_ & Hf & _).
        -- rewrite (end_offsets_len _ _ _ He). unfold vlen. cbn [length]. lia.
      * apply Forall_app. split; [by eapply end_offsets_byte|by eapply encodes_bytes].
  - names.
Qed.
End compound.

Section compound_key.
  Context {T : Type} `{Key T} (valid : T -> Prop) (cmp : T -> T -> comparison).
  Context (L : value_laws T valid) (K : key_laws T valid cmp).

(** The encodings of valid elements *)
Definition encoded (v : T) (d : list Z) : Prop := valid v /\ encodes v d.

Lemma encoded_compare v1 v2 d1 d2 : encoded v1 d1 -> encoded v2 d2 -> compare T d1 d2 = Ret (cmp v1 v2).
Proof using K. intros (V1 & E1 & _) (V2 & E2 & _). by apply (key_compare T valid cmp K). Qed.

Lemma encoded_all l ds : Forall valid l -> Forall2 encodes l ds -> Forall2 encoded l ds.
Proof. intros Hv HF. revert Hv. induction HF; intros Hv; [constructor|]. inversion Hv; subst. constructor; [by split|auto]. Qed.

Lemma array_compare_fixed_spec w l1 : forall l2 ds1 ds2 pre1 pre2 i,
  fixed_width T = Some w -> Forall2 encoded l1 ds1 -> Forall2 encoded l2 ds2 -> length l1 = length l2 ->
  Forall (fun d => vlen d = w) pre1 -> Forall (fun d => vlen d = w) pre2 -> vlen pre1 = i -> vlen pre2 = i ->
  array_compare_fixed w (seqZ i (vlen l1)) (concat (pre1 ++ ds1)) (concat (pre2 ++ ds2)) = Ret (list_cmp cmp l1 l2).
Proof using K.
  induction l1 as [|x1 l1 IH]; intros [|x2 l2] ds1 ds2 pre1 pre2 i Hw F1 F2 Hl Hp1 Hp2 Hi1 Hi2; try done.
  apply Forall2_cons_inv_l in F1 as (d1 & r1 & E1 & F1 & ->). apply Forall2_cons_inv_l in F2 as (d2 & r2 & E2 & F2 & ->).
  assert (W1 : vlen d1 = w) by (by apply E1). assert (W2 : vlen d2 = w) by (by apply E2).
  assert (HL : vlen (x1 :: l1) = 1 + vlen l1) by (unfold vlen; simpl; lia). pose proof (vlen_nonneg l1).
  rewrite HL, seqZ_cons by lia. cbn [array_compare_fixed]. rewrite (slice_fixed w pre1), (slice_fixed w pre2) by done.
  cbn [mbind outcome_bind]. rewrite (encoded_compare x1 x2) by done. cbn [mbind outcome_bind list_cmp].
  destruct (cmp x1 x2); [|done..]. replace (Z.pred (1 + vlen l1)) with (vlen l1) by lia.
  replace (pre1 ++ d1 :: r1) with ((pre1 ++ [d1]) ++ r1) by (by rewrite <-app_assoc).
  replace (pre2 ++ d2 :: r2) with ((pre2 ++ [d2]) ++ r2) by (by rewrite <-app_assoc).
  apply IH; try done; [by injection Hl|..]; rewrite ?Forall_app, ?Forall_singleton, ?vlen_app; try done;
    change (vlen [d1]) with 1; change (vlen [d2]) with 1; lia.
Qed.

Lemma array_compare_variable_spec l1 : forall l2 ds1 ds2 A1 A2 P1 P2 e1 e2 s1 s2 i,
  Forall2 encoded l1 ds1 -> Forall2 encoded l2 ds2 -> length l1 = length l2 ->
  end_offsets ds1 s1 = Ret e1 -> end_offsets ds2 s2 = Ret e2 -> vlen A1 = 4 * i -> vlen A2 = 4 * i ->
  s1 = vlen A1 + vlen e1 + vlen P1 -> s2 = vlen A2 + vlen e2 + vlen P2 ->
  array_compare_variable (seqZ i (vlen l1)) (A1 ++ e1 ++ P1 ++ concat ds1) (A2 ++ e2 ++ P2 ++ concat ds2) s1 s2 =
  Ret (list_cmp cmp l1 l2).
Proof using K.
  induction l1 as [|x1 l1 IH]; intros [|x2 l2] ds1 ds2 A1 A2 P1 P2 e1 e2 s1 s2 i F1 F2 Hl He1 He2 HA1 HA2 Hs1 Hs2; try done.
  apply Forall2_cons_inv_l in F1 as (d1 & r1 & E1 & F1 & ->). apply Forall2_cons_inv_l in F2 as (d2 & r2 & E2 & F2 & ->).
  destruct (section_step d1 r1 A1 P1 e1 (4 * i) s1 He1) as (t1 & u1 & -> & Hu1 & Hd1 & Ha1 & Hb1 & S1 & Hf1 & D1); [lia..|].
  destruct (section_step d2 r2 A2 P2 e2 (4 * i) s2 He2) as (t2 & u2 & -> & Hu2 & Hd2 & Ha2 & Hb2 & S2 & Hf2 & D2); [lia..|].
  assert (HL : vlen (x1 :: l1) = 1 + vlen l1) by (unfold vlen; simpl; lia). pose proof (vlen_nonneg l1).
  rewrite HL, seqZ_cons by lia. cbn [array_compare_variable]. replace (4 * (i + 1)) with (4 * i + 4) by lia.
  rewrite S1, S2. cbn [mbind outcome_bind]. rewrite Hf1, Hf2, D1, D2. cbn [mbind outcome_bind].
  rewrite (encoded_compare x1 x2) by done. cbn [mbind outcome_bind list_cmp]. destruct (cmp x1 x2); [|done..].
  replace (Z.pred (1 + vlen l1)) with (vlen l1) by lia. rewrite Hd1, Hd2. apply IH; try done; [by injection Hl|lia..].
Qed.

Lemma array_key_laws N : key_laws (array T N) (array_valid valid) (fun a b => list_cmp cmp (elements a) (elements b)).
Proof using L K.
  split; [apply total_order_inj; [by apply total_order_list, (key_order T valid cmp K)|by intros [] [] [= ->]]|].
  intros v1 v2 d1 d2 H1 H2 E1 E2.
  destruct (array_shape valid L N v1 H1) as (ds1 & F1 & S1), (array_shape valid L N v2 H2) as (ds2 & F2 & S2).
  destruct H1 as (N1 & V1 & _), H2 as (N2 & V2 & _).
  pose proof (encoded_all _ _ V1 F1) as G1. pose proof (encoded_all _ _ V2 F2) as G2.
  unfold compare, array_key. destruct (fixed_width T) as [w|] eqn:Ew.
  - rewrite S1 in E1. rewrite S2 in E2. apply Ret_inj in E1 as <-. apply Ret_inj in E2 as <-.
    replace (seqZ 0 (Z.of_nat N)) with (seqZ 0 (vlen (elements v1))) by (unfold vlen; by rewrite N1).
    apply (array_compare_fixed_spec w _ _ ds1 ds2 [] []); done || congruence.
  - destruct S1 as (e1 & He1 & S1), S2 as (e2 & He2 & S2).
    rewrite S1 in E1. rewrite S2 in E2. apply Ret_inj in E1 as <-. apply Ret_inj in E2 as <-.
    pose proof (end_offsets_len _ _ _ He1) as L1. pose proof (end_offsets_len _ _ _ He2) as L2.
    unfold vlen in L1, L2. rewrite <-(Forall2_length _ _ _ F1), N1 in L1. rewrite <-(Forall2_length _ _ _ F2), N2 in L2.
    replace (seqZ 0 (Z.of_nat N)) with (seqZ 0 (vlen (elements v1))) by (unfold vlen; by rewrite N1).
    apply (array_compare_variable_spec _ _ ds1 ds2 [] [] [] [] e1 e2); try done; unfold vlen; cbn [length]; lia || congruence.
Qed.
End compound_key.

(** ** Vectors *)

(** The stored form of a length *)
Definition varint (len : Z) : list Z :=
  if len <? 254 then [len] else if len <=? umax 16 then 254 :: to_le_bytes 2 len else 255 :: to_le_bytes 4 len.

Lemma encode_varint_ok len out : 0 <= len < 2 ^ 32 -> encode_varint_len len out = Ret (out ++ varint len).
Proof.
  intros Hl. unfold encode_varint_len, varint. destruct (Z.ltb_spec len 254); [by rewrite utry_ok by lia|].
  change (umax 16) with 65535. destruct (Z.leb_spec len 65535); rewrite utry_ok by lia; cbn [mbind outcome_bind]; by rewrite <-app_assoc.
Qed.

Lemma decode_varint_ok len rest : 0 <= len < 2 ^ 32 -> decode_varint_len (varint len ++ rest) = Ret (len, vlen (varint len)).
Proof.
  intros Hl. unfold decode_varint_len, varint. change (umax 16) with 65535.
  destruct (Z.ltb_spec len 254); [|destruct (Z.leb_spec len 65535)].
  - change (vget ([len] ++ rest) 0) with (Ret len). cbn [mbind outcome_bind].
    by rewrite (proj2 (Z.leb_le len 253)) by lia.
  - change (vget ((254 :: to_le_bytes 2 len) ++ rest) 0) with (Ret 254). cbn [mbind outcome_bind Z.leb Z.eqb Z.compare Pos.compare Pos.compare_cont Pos.eqb].
    rewrite (slice_middle [254] (to_le_bytes 2 len) rest) by done. cbn [mbind outcome_bind].
    by rewrite from_to_le_bytes by (cbn; lia).
  - change (vget ((255 :: to_le_bytes 4 len) ++ rest) 0) with (Ret 255). cbn [mbind outcome_bind Z.leb Z.eqb Z.compare Pos.compare Pos.compare_cont Pos.eqb].
    rewrite (slice_middle [255] (to_le_bytes 4 len) rest) by done. cbn [mbind outcome_bind].
    by rewrite from_to_le_bytes by (cbn; lia).
Qed.

Lemma varint_byte len : 0 <= len -> Forall byte (varint len).
Proof.
  intros. unfold varint. destruct (Z.ltb_spec len 254); [repeat constructor; lia|].
  case_match; constructor; (unfold byte; lia) || apply to_le_bytes_byte.
Qed.
Lemma varint_len len : 0 <= vlen (varint len) <= 5.
Proof. unfold varint. repeat case_match; unfold vlen; simpl; lia. Qed.

Definition vec_valid {T} `{Value T} (valid : T -> Prop) (v : vec T) : Prop :=
  vlen (items v) < 2 ^ 32 /\ Forall valid (items v) /\ Forall fits_len (items v).

Section vec_laws.
  Context {T : Type} `{Value T} (valid : T -> Prop) (L : value_laws T valid).

(** An element, with its length where it needs one *)
Definition chunk (d : list Z) : list Z := match fixed_width T with None => varint (vlen d) | Some _ => [] end ++ d.

Lemma fits_len_ok (x : T) d : encodes x d -> fits_len x -> fixed_width T = None -> 0 <= vlen d < 2 ^ 32.
Proof. intros (E & _) Hf Hw. specialize (Hf Hw). unfold encoded_len in Hf. rewrite E in Hf. pose proof (vlen_nonneg d). lia. Qed.

Lemma vec_push_ok (x : T) d r : encodes x d -> fits_len x -> vec_push x r = Ret (r ++ chunk d).
Proof.
  intros He Hf. pose proof (fits_len_ok x d He Hf) as HL. destruct He as (Ha & _). unfold vec_push, chunk. rewrite Ha.
  cbn [mbind outcome_bind]. destruct (fixed_width T); [done|]. rewrite encode_varint_ok by (by apply HL).
  cbn [mbind outcome_bind]. by rewrite <-app_assoc.
Qed.

Lemma vec_push_all (l : list T) ds r : Forall2 encodes l ds -> Forall fits_len l ->
  for_each vec_push l r = Ret (r ++ concat (map chunk ds)).
Proof.
  intros HF. revert r. induction HF as [|x d l ds He _ IH]; intros r Hfit; cbn [for_each map concat]; [by rewrite app_nil_r|].
  inversion Hfit; subst. rewrite (vec_push_ok x d) by done. cbn [mbind outcome_bind]. rewrite IH by done. by rewrite <-app_assoc.
Qed.

Lemma vec_read_all (l : list T) ds : forall A, Forall2 encodes l ds -> Forall fits_len l ->
  vec_read (length l) (A ++ concat (map chunk ds)) (vlen A) = Ret (l, vlen (A ++ concat (map chunk ds))).
Proof.
  intros A HF. revert A. induction HF as [|x d l ds He _ IH]; intros A Hfit; cbn [length vec_read map concat].
  { by rewrite app_nil_r. }
  inversion Hfit; subst.
  assert (HL : fixed_width T = None -> 0 <= vlen d < 2 ^ 32) by (by apply (fits_len_ok x)).
  destruct He as (_ & Hf & _ & Hd). set (R := concat (map chunk ds)) in *.
  assert (Hmain : forall B, B ++ d ++ R = A ++ chunk d ++ R ->
    (e ← slice (A ++ chunk d ++ R) (vlen B) (vlen B + vlen d);
     y ← from_bytes e;
     r ← vec_read (length l) (A ++ chunk d ++ R) (vlen B + vlen d);
     Ret (y :: r.1, r.2)) = Ret (x :: l, vlen (A ++ chunk d ++ R))).
  { intros B HB. rewrite <-HB, (slice_middle B d R) by done. cbn [mbind outcome_bind]. rewrite Hf. cbn [mbind outcome_bind].
    rewrite app_assoc, <-vlen_app. by rewrite IH by done. }
  destruct (fixed_width T) as [w|] eqn:Ew; cbn [mbind outcome_bind fst snd].
  - rewrite <-(Hd w eq_refl). apply Hmain. unfold chunk. by rewrite Ew.
  - assert (Hc : chunk d = varint (vlen d) ++ d) by (unfold chunk; by rewrite Ew).
    rewrite slice_from_suffix by done. cbn [mbind outcome_bind]. rewrite Hc, <-(app_assoc (varint _)).
    rewrite decode_varint_ok by (by apply HL). cbn [mbind outcome_bind fst snd]. rewrite <-vlen_app.
    rewrite (app_assoc (varint _)), <-Hc. apply Hmain. by rewrite Hc, <-!app_assoc.
Qed.

Lemma chunks_byte ds : Forall byte (concat ds) -> Forall byte (concat (map chunk ds)).
Proof.
  induction ds as [|d ds IH]; [done|]. cbn [map concat]. rewrite !Forall_app. intros [Hd Hr]. split; [|by apply IH].
  apply Forall_app. split; [|done]. case_match; [constructor|apply varint_byte, vlen_nonneg].
Qed.

Lemma vec_laws : value_laws (vec T) (vec_valid valid).
Proof using L.
  split; [done| |names]. intros [l] (Hn & Hv & Hf). cbn [items] in *. destruct (encode_all valid L l Hv) as [ds HF].
  pose proof (vlen_nonneg l). exists (varint (vlen l) ++ concat (map chunk ds)). split; [|split; [|split; [|done]]].
  - cbn [as_bytes vec_value]. unfold vec_as_bytes. cbn [items]. rewrite encode_varint_ok by lia. cbn [mbind outcome_bind]. by rewrite (vec_push_all l ds).
  - cbn [from_bytes vec_value]. unfold vec_from_bytes. rewrite decode_varint_ok by lia. cbn [mbind outcome_bind fst snd].
    replace (Z.to_nat (vlen l)) with (length l) by (unfold vlen; lia). rewrite (vec_read_all l ds) by done. cbn [mbind outcome_bind fst snd].
    by rewrite Z.eqb_refl.
  - apply Forall_app. split; [by apply varint_byte|]. eapply chunks_byte, encodes_bytes, HF.
Qed.
End vec_laws.

(** ** Tuples *)

Definition is_fixed (w : option Z) : bool := match w with Some _ => true | None => false end.

(** [ds] are the encodings of the elements [r]; the tuple reads them back from
    wherever they are in a slice. *)
Record elements_encode {R} `{Elements R} (r : R) (ds : list (list Z)) : Prop := {
  ee_slices : slices r = Ret ds;
  ee_bytes : Forall byte (concat ds);
  ee_nonempty : (0 < length ds)%nat;
  ee_widths : Forall2 (fun w d => forall x, w = Some x -> vlen d = x) (widths R) ds;
  ee_fit : Forall2 (fun w d => w = None -> vlen d < 2 ^ 32) (removelast (widths R)) (removelast ds);
  ee_fixed : forall A s, forallb is_fixed (widths R) = true ->
    from_bytes_fixed (A ++ concat ds ++ s) (vlen A) = Ret r;
  ee_variable : forall A, from_bytes_variable (A ++ concat ds) (vlen A) (map vlen (removelast ds)) = Ret r }.

Record elements_laws (R : Type) `{Elements R} (valid : R -> Prop) : Prop := {
  widths_nonneg : Forall (fun w => forall x, w = Some x -> 0 <= x) (widths R);
  widths_nonempty : (0 < length (widths R))%nat;
  elements_ok : forall r, valid r -> exists ds, elements_encode r ds;
  names_ascii : Forall (Forall (fun b => 0 <= b < 128)) (names R) }.

Definition one_valid {T} (valid : T -> Prop) (r : one T) : Prop := valid (last_element r).
Definition more_valid {T R} `{Value T} (valid : T -> Prop) (valids : R -> Prop) (r : more T R) : Prop :=
  valid (element r) /\ fits_len (element r) /\ valids (others r).

Lemma one_laws {T} `{Value T} valid : value_laws T valid -> elements_laws (one T) (one_valid valid).
Proof.
  intros L. split.
  - constructor; [|constructor]. intros w. apply (width_nonneg T valid L).
  - simpl. lia.
  - intros [v] Hv. destruct (encode_ok T valid L v Hv) as (d & Ha & Hf & Hb & Hw). exists [d]. split.
    + cbn. by rewrite Ha.
    + cbn. by rewrite app_nil_r.
    + simpl. lia.
    + by repeat constructor.
    + constructor.
    + intros A s Hfix. cbn in Hfix |- *. destruct (fixed_width T) as [w|]; [|done]. cbn [unwrap mbind outcome_bind].
      rewrite app_nil_r, (slice_middle A d s); [|done|by rewrite (Hw w)]. cbn [mbind outcome_bind]. by rewrite Hf.
    + intros A. cbn [from_bytes_variable one_elements concat]. rewrite app_nil_r, slice_from_suffix by done.
      cbn [mbind outcome_bind]. by rewrite Hf.
  - cbn. constructor; [apply (name_ascii T valid L)|constructor].
Qed.

Lemma removelast_cons {A} (x : A) l : (0 < length l)%nat -> removelast (x :: l) = x :: removelast l.
Proof. destruct l; simpl; [lia|done]. Qed.

Lemma more_laws {T R} `{Value T} `{Elements R} valid valids :
  value_laws T valid -> elements_laws R valids -> elements_laws (more T R) (more_valid valid valids).
Proof.
  intros L LR. split.
  - constructor; [intros w; apply (width_nonneg T valid L)|apply (widths_nonneg R valids LR)].
  - simpl. lia.
  - intros [v r] (Hv & Hfit & Hr). cbn [element others] in *. destruct (encode_ok T valid L v Hv) as (d & He).
    destruct (elements_ok R valids LR r Hr) as (ds & D). pose proof (fits_len_ok v d He Hfit) as HL.
    destruct He as (Ha & Hf & Hb & Hw). pose proof (ee_nonempty _ _ D) as Hne.
    pose proof (widths_nonempty R valids LR) as Hwn. exists (d :: ds). split.
    + cbn. rewrite Ha. cbn [mbind outcome_bind]. by rewrite (ee_slices _ _ D).
    + cbn. apply Forall_app. split; [done|apply (ee_bytes _ _ D)].
    + simpl. lia.
    + constructor; [done|apply (ee_widths _ _ D)].
    + cbn [widths more_elements]. rewrite !removelast_cons by done. constructor; [intros E; by apply HL|apply (ee_fit _ _ D)].
    + intros A s Hfix. cbn [widths more_elements forallb] in Hfix. apply andb_prop in Hfix as [Hf1 Hf2].
      cbn [from_bytes_fixed more_elements concat]. destruct (fixed_width T) as [w|]; [|done]. cbn [unwrap mbind outcome_bind].
      rewrite <-app_assoc, (slice_middle A d); [|done|by rewrite (Hw w)]. cbn [mbind outcome_bind]. rewrite Hf. cbn [mbind outcome_bind].
      rewrite <-(Hw w eq_refl), app_assoc, <-vlen_app, (ee_fixed _ _ D) by done. done.
    + intros A. cbn [from_bytes_variable more_elements concat]. rewrite removelast_cons by done. cbn [map].
      change (vget (vlen d :: ?l) 0) with (Ret (vlen d)). cbn [mbind outcome_bind tail].
      rewrite (slice_middle A d) by done. cbn [mbind outcome_bind]. rewrite Hf. cbn [mbind outcome_bind].
      rewrite app_assoc, <-vlen_app, (ee_variable _ _ D). done.
  - cbn. constructor; [apply (name_ascii T valid L)|apply (names_ascii R valids LR)].
Qed.

(** The sum of the widths, when every element has one *)
Lemma fixed_width_sum_ok ws : forall sum,
  fixed_width_sum sum ws = (if forallb is_fixed ws then Some (sum + sum_list (map (default 0) ws)) else None).
Proof.
  induction ws as [|[w|] ws IH]; intros sum; cbn [fixed_width_sum forallb is_fixed map sum_list default andb from_option id];
    [f_equal; lia| |done]. rewrite IH. destruct (forallb is_fixed ws); [f_equal; lia|done].
Qed.

Lemma sum_widths_nonneg ws : Forall (fun w => forall x, w = Some x -> 0 <= x) ws -> 0 <= sum_list (map (default 0) ws).
Proof. induction 1 as [|[x|] l Hx _ IH]; simpl; [lia|specialize (Hx _ eq_refl); lia|lia]. Qed.
Lemma sum_widths ws (ds : list (list Z)) : forallb is_fixed ws = true -> Forall2 (fun w d => forall x, w = Some x -> vlen d = x) ws ds ->
  vlen (concat ds) = sum_list (map (default 0) ws).
Proof.
  intros Hf HF. revert Hf. induction HF as [|[x|] d ws ds Hx _ IH]; intros Hf; [done| |done].
  cbn [concat map sum_list]. rewrite vlen_app, IH by done. simpl. by rewrite (Hx x).
Qed.

Lemma foldl_app (ds : list (list Z)) : forall o, foldl (fun o slice => o ++ slice) o ds = o ++ concat ds.
Proof. induction ds as [|d ds IH]; intros o; cbn [foldl concat]; [by rewrite app_nil_r|]. by rewrite IH, <-app_assoc. Qed.

Lemma sum_list_vlen (ds : list (list Z)) : sum_list (map vlen ds) = vlen (concat ds).
Proof. induction ds as [|d ds IH]; [done|]. cbn [map sum_list concat]. by rewrite vlen_app, IH. Qed.

(** The stored lengths: written, bounded and read *)
Definition lens_bytes (ws : list (option Z)) (ds : list (list Z)) : list Z :=
  concat (map varint (stored_lens (map is_fixed ws) ds)).

Lemma write_lens ws ds out : Forall2 (fun w d => w = None -> vlen d < 2 ^ 32) ws ds ->
  for_each encode_varint_len (stored_lens (map is_fixed ws) ds) out = Ret (out ++ lens_bytes ws ds).
Proof.
  intros HF. revert out. induction HF as [|w d ws ds Hd _ IH]; intros out; [by cbn; rewrite app_nil_r|].
  unfold lens_bytes. destruct w; cbn [map stored_lens is_fixed app for_each concat]; [apply IH|].
  pose proof (vlen_nonneg d). rewrite encode_varint_ok by auto with lia. cbn [mbind outcome_bind].
  by rewrite IH, <-app_assoc.
Qed.

Lemma lens_bytes_le ws ds : Forall2 (fun w d => w = None -> vlen d < 2 ^ 32) ws ds ->
  vlen (lens_bytes ws ds) <= sum_list (map (fun w => if is_fixed w then 0 else 5) ws).
Proof.
  induction 1 as [|w d ws ds Hd _ IH]; [unfold vlen; simpl; lia|]. unfold lens_bytes in *.
  destruct w; cbn [map stored_lens is_fixed app concat sum_list]; [lia|]. rewrite vlen_app. pose proof (varint_len (vlen d)). lia.
Qed.

Lemma lens_bytes_byte ws ds : Forall byte (lens_bytes ws ds).
Proof.
  unfold lens_bytes. revert ds. induction ws as [|w ws IH]; intros [|d ds]; cbn [map stored_lens concat]; try constructor.
  rewrite map_app, concat_app. apply Forall_app. split; [|apply IH]. destruct w; cbn; [constructor|].
  rewrite app_nil_r. apply varint_byte, vlen_nonneg.
Qed.

Lemma read_lens ws ds : forall A s, Forall2 (fun w d => w = None -> vlen d < 2 ^ 32) ws ds ->
  Forall2 (fun w d => forall x, w = Some x -> vlen d = x) ws ds ->
  parse_lens_from ws (A ++ lens_bytes ws ds ++ s) (vlen A) = Ret (vlen A + vlen (lens_bytes ws ds), map vlen ds).
Proof.
  intros A s HF. revert A s. induction HF as [|w d ws ds Hd _ IH]; intros A s HW; [by cbn; rewrite Z.add_0_r|].
  inversion HW as [|? ? ? ? Hx HW']; subst. unfold lens_bytes.
  destruct w as [x|]; cbn [map stored_lens is_fixed app concat parse_lens_from].
  - unfold lens_bytes in IH. rewrite IH by done. cbn [mbind outcome_bind fst snd]. by rewrite (Hx x eq_refl).
  - rewrite <-app_assoc, slice_from_suffix by done. cbn [mbind outcome_bind]. pose proof (vlen_nonneg d).
    rewrite decode_varint_ok by auto with lia. cbn [mbind outcome_bind fst snd].
    rewrite app_assoc, <-vlen_app. unfold lens_bytes in IH. rewrite IH by done. cbn [mbind outcome_bind fst snd].
    rewrite !vlen_app. do 2 f_equal. lia.
Qed.

Lemma take_removelast {A} (l : list A) n : vlen l = n -> take (Z.to_nat (n - 1)) l = removelast l.
Proof. intros <-. rewrite removelast_firstn_len. f_equal. unfold vlen. lia. Qed.
Lemma map_removelast {A B} (f : A -> B) l : map f (removelast l) = removelast (map f l).
Proof. induction l as [|x [|y l] IH]; [done..|]. cbn [removelast map] in *. by rewrite IH. Qed.
Lemma sum_removelast (ws : list (option Z)) :
  sum_list (map (fun w => if is_fixed w then 0 else 5) (removelast ws)) <=
  sum_list (map (fun x : bool => if x then 0 else 5) (map is_fixed ws)).
Proof.
  induction ws as [|w [|w' ws] IH]; [done|cbn; case_match; lia|]. rewrite removelast_cons by (simpl; lia).
  cbn [map sum_list] in *. lia.
Qed.
Lemma Forall2_removelast {A B} (P : A -> B -> Prop) l k : Forall2 P l k -> Forall2 P (removelast l) (removelast k).
Proof.
  induction 1 as [|x y l k Hx HF IH]; [done|]. destruct HF; [constructor|]. by constructor.
Qed.

Section tuple_laws.
  Context {T R : Type} `{Value T} `{Elements R} (valid : T -> Prop) (valids : R -> Prop).

Definition tuple_valid (v : tuple T R) : Prop := more_valid valid valids (parts v).
(** The lengths before the elements *)
Definition tuple_lens (ds : list (list Z)) : list Z :=
  if forallb is_fixed (widths (more T R)) then [] else lens_bytes (removelast (widths (more T R))) (removelast ds).

Lemma tuple_shape (v : tuple T R) ds : elements_encode (parts v) ds -> as_bytes v = Ret (tuple_lens ds ++ concat ds).
Proof.
  intros D. cbn [as_bytes tuple_value]. unfold tuple_as_bytes, tuple_fixed_width, tuple_lens. rewrite fixed_width_sum_ok.
  rewrite (ee_slices _ _ D). set (ws := widths (more T R)). pose proof (Forall2_length _ _ _ (ee_widths _ _ D)) as HL.
  destruct (forallb is_fixed ws) eqn:Ef; cbn [mbind outcome_bind].
  - unfold serialize_tuple_elements_fixed. by rewrite foldl_app.
  - unfold serialize_tuple_elements_variable. pose proof (ee_nonempty _ _ D). rewrite usub_ok by (unfold vlen; lia).
    cbn [mbind outcome_bind]. change (fun w : option Z => match w with Some _ => true | None => false end) with is_fixed.
    rewrite !take_removelast by (done || (unfold vlen; rewrite length_map; subst ws; lia)).
    rewrite <-map_removelast, write_lens by apply (ee_fit _ _ D). cbn [mbind outcome_bind app].
    rewrite foldl_app, sum_list_vlen. pose proof (lens_bytes_le _ _ (ee_fit _ _ D)) as Hle.
    pose proof (sum_removelast ws). rewrite (proj2 (Z.leb_le _ _)); [done|]. rewrite vlen_app. subst ws. lia.
Qed.

Lemma tuple_read (v : tuple T R) ds : elements_encode (parts v) ds -> from_bytes (tuple_lens ds ++ concat ds) = Ret v.
Proof.
  intros D. cbn [from_bytes tuple_value]. unfold tuple_from_bytes, tuple_fixed_width, tuple_lens. rewrite fixed_width_sum_ok.
  destruct (forallb is_fixed (widths (more T R))) eqn:Ef.
  - pose proof (ee_fixed _ _ D [] [] Ef) as Hr. cbn [app] in Hr. rewrite app_nil_r in Hr. change (vlen (@nil Z)) with 0 in Hr.
    cbn [app]. rewrite Hr. by destruct v.
  - pose proof (read_lens _ _ [] (concat ds) (ee_fit _ _ D) (Forall2_removelast _ _ _ (ee_widths _ _ D))) as Hl.
    cbn [app] in Hl. unfold parse_lens. change (vlen []) with 0 in Hl. rewrite Hl. cbn [mbind outcome_bind fst snd].
    rewrite Z.add_0_l, (ee_variable _ _ D). by destruct v.
Qed.

Lemma tuple_laws : value_laws T valid -> elements_laws R valids -> value_laws (tuple T R) tuple_valid.
Proof.
  intros L LR. pose proof (more_laws valid valids L LR) as LM. split.
  - intros w. cbn [fixed_width tuple_value]. unfold tuple_fixed_width. rewrite fixed_width_sum_ok.
    destruct (forallb _ _); [|done]. intros <-%(inj Some). rewrite Z.add_0_l. apply sum_widths_nonneg, (widths_nonneg _ _ LM).
  - intros v Hv. destruct (elements_ok _ _ LM (parts v) Hv) as (ds & D). exists (tuple_lens ds ++ concat ds).
    split; [by apply tuple_shape|]. split; [by apply tuple_read|]. split.
    + apply Forall_app. split; [|apply (ee_bytes _ _ D)]. unfold tuple_lens. case_match; [constructor|apply lens_bytes_byte].
    + intros w. cbn [fixed_width tuple_value]. unfold tuple_fixed_width, tuple_lens. rewrite fixed_width_sum_ok.
      destruct (forallb _ _) eqn:Ef; [|done]. intros <-%(inj Some). rewrite Z.add_0_l. by apply sum_widths, (ee_widths _ _ D).
  - cbn [type_name tuple_value]. unfold tuple_type_name.
    assert (Hn : Forall (fun b => 0 <= b < 128) (concat (map (fun n => ascii "," ++ n) (names R)))).
    { induction (names_ascii R valids LR) as [|n ns Hn _ IH]; [constructor|]. cbn [map concat]. by names. }
    destruct tuple_fixed_width; names.
Qed.
End tuple_laws.

(** *** Keys *)

Record elements_key_laws (R : Type) `{ElementKeys R} (valid : R -> Prop) (cmp : R -> R -> comparison) : Prop := {
  ek_order : total_order cmp;
  ek_fixed : forall r1 r2 ds1 ds2 A1 A2 s1 s2, valid r1 -> valid r2 -> elements_encode r1 ds1 -> elements_encode r2 ds2 ->
    forallb is_fixed (widths R) = true -> vlen A1 = vlen A2 ->
    compare_fixed R (A1 ++ concat ds1 ++ s1) (A2 ++ concat ds2 ++ s2) (vlen A1) = Ret (cmp r1 r2);
  ek_variable : forall r1 r2 ds1 ds2 A1 A2, valid r1 -> valid r2 -> elements_encode r1 ds1 -> elements_encode r2 ds2 ->
    compare_variable R (A1 ++ concat ds1) (A2 ++ concat ds2) (vlen A1) (vlen A2)
      (map vlen (removelast ds1)) (map vlen (removelast ds2)) = Ret (cmp r1 r2) }.

Lemma not_equal_ok {T} `{Key T} valid cmp v1 v2 d1 d2 : key_laws T valid cmp ->
  valid v1 -> valid v2 -> as_bytes v1 = Ret d1 -> as_bytes v2 = Ret d2 ->
  not_equal T d1 d2 = Ret (match cmp v1 v2 with Eq => None | c => Some c end).
Proof. intros K V1 V2 E1 E2. unfold not_equal. rewrite (key_compare T valid cmp K v1 v2) by done. by destruct (cmp v1 v2). Qed.

(** The encodings of the only element, and of the first of several *)
Lemma one_encode {T} `{Value T} (v : T) ds : elements_encode (One v) ds -> exists d, ds = [d] /\ as_bytes v = Ret d /\
  (forall w, fixed_width T = Some w -> vlen d = w).
Proof.
  intros D. pose proof (ee_slices _ _ D) as Hs. cbn in Hs. rinv Hs. exists a. split; [done|]. split; [done|].
  intros w Hw. pose proof (ee_widths _ _ D) as HW. inversion HW; subst. auto.
Qed.
Lemma more_encode {T R} `{Value T} `{Elements R} valid valids v r ds :
  value_laws T valid -> elements_laws R valids -> valid v -> valids r ->
  elements_encode (More v r) ds -> exists d ds', ds = d :: ds' /\ as_bytes v = Ret d /\
  (forall w, fixed_width T = Some w -> vlen d = w) /\ elements_encode r ds'.
Proof.
  intros L LR Hv Hr D. destruct (encode_ok T valid L v Hv) as (d & Ha & _ & _ & Hw). destruct (elements_ok R valids LR r Hr) as (ds' & D').
  pose proof (ee_slices _ _ D) as Hs. cbn in Hs. rewrite Ha in Hs. cbn [mbind outcome_bind] in Hs.
  rewrite (ee_slices _ _ D') in Hs. apply Ret_inj in Hs as <-. by exists d, ds'.
Qed.

Lemma one_key_laws {T} `{Key T} valid cmp : key_laws T valid cmp ->
  elements_key_laws (one T) (one_valid valid) (fun a b => cmp (last_element a) (last_element b)).
Proof.
  intros K. split.
  - apply total_order_inj; [apply (key_order T valid cmp K)|by intros [] [] [= ->]].
  - intros [v1] [v2] ds1 ds2 A1 A2 s1 s2 V1 V2 D1 D2 Hf HA. destruct (one_encode _ _ D1) as (d1 & -> & E1 & W1), (one_encode _ _ D2) as (d2 & -> & E2 & W2).
    cbn in Hf. destruct (fixed_width T) as [w|] eqn:Ew; [|done]. specialize (W1 w eq_refl). specialize (W2 w eq_refl).
    cbn [compare_fixed one_keys concat]. rewrite Ew. cbn [unwrap mbind outcome_bind]. rewrite !app_nil_r.
    rewrite (slice_middle A1 d1), (slice_middle A2 d2) by lia. cbn [mbind outcome_bind].
    rewrite (not_equal_ok valid cmp v1 v2) by done. cbn. by destruct (cmp v1 v2).
  - intros [v1] [v2] ds1 ds2 A1 A2 V1 V2 D1 D2. destruct (one_encode _ _ D1) as (d1 & -> & E1 & _), (one_encode _ _ D2) as (d2 & -> & E2 & _).
    cbn [compare_variable one_keys concat]. rewrite !app_nil_r, !slice_from_suffix by done. cbn [mbind outcome_bind].
    by apply (key_compare T valid cmp K).
Qed.

Definition more_cmp {T R} (cmp : T -> T -> comparison) (cmps : R -> R -> comparison) (a b : more T R) : comparison :=
  pair_cmp cmp cmps (element a, others a) (element b, others b).

Lemma more_key_laws {T R} `{Key T} `{ElementKeys R} valid valids cmp cmps :
  value_laws T valid -> elements_laws R valids -> key_laws T valid cmp -> elements_key_laws R valids cmps ->
  elements_key_laws (more T R) (more_valid valid valids) (more_cmp cmp cmps).
Proof.
  intros L LR K KR. split.
  - apply (total_order_inj (pair_cmp cmp cmps)); [apply total_order_pair; [apply (key_order T valid cmp K)|apply (ek_order R valids cmps KR)]|].
    by intros [] [] [= -> ->].
  - intros [v1 r1] [v2 r2] ds1 ds2 A1 A2 s1 s2 (V1 & _ & U1) (V2 & _ & U2) D1 D2 Hf HA. cbn [element others] in *.
    destruct (more_encode valid valids _ _ _ L LR V1 U1 D1) as (d1 & ds1' & -> & E1 & W1 & D1').
    destruct (more_encode valid valids _ _ _ L LR V2 U2 D2) as (d2 & ds2' & -> & E2 & W2 & D2').
    cbn [widths more_elements forallb] in Hf. apply andb_prop in Hf as [Hf1 Hf2].
    destruct (fixed_width T) as [w|] eqn:Ew; [|done]. specialize (W1 w eq_refl). specialize (W2 w eq_refl).
    cbn [compare_fixed more_keys concat]. rewrite Ew. cbn [unwrap mbind outcome_bind]. rewrite <-!app_assoc.
    rewrite (slice_middle A1 d1), (slice_middle A2 d2) by lia. cbn [mbind outcome_bind].
    rewrite (not_equal_ok valid cmp v1 v2) by done. unfold more_cmp, pair_cmp. cbn [fst snd element others mbind outcome_bind].
    destruct (cmp v1 v2); [|done..]. rewrite <-W1, (app_assoc A1), (app_assoc A2), <-vlen_app.
    apply (ek_fixed R valids cmps KR); try done. rewrite !vlen_app. lia.
  - intros [v1 r1] [v2 r2] ds1 ds2 A1 A2 (V1 & _ & U1) (V2 & _ & U2) D1 D2. cbn [element others] in *.
    destruct (more_encode valid valids _ _ _ L LR V1 U1 D1) as (d1 & ds1' & -> & E1 & W1 & D1').
    destruct (more_encode valid valids _ _ _ L LR V2 U2 D2) as (d2 & ds2' & -> & E2 & W2 & D2').
    cbn [compare_variable more_keys concat]. rewrite !removelast_cons by (by eapply ee_nonempty). cbn [map].
    change (vget (vlen d1 :: ?l) 0) with (Ret (vlen d1)). change (vget (vlen d2 :: ?l) 0) with (Ret (vlen d2)). cbn [mbind outcome_bind tail].
    rewrite (slice_middle A1 d1), (slice_middle A2 d2) by lia. cbn [mbind outcome_bind].
    rewrite (not_equal_ok valid cmp v1 v2) by done. unfold more_cmp, pair_cmp. cbn [fst snd element others mbind outcome_bind].
    destruct (cmp v1 v2); [|done..]. rewrite (app_assoc A1), (app_assoc A2), <-!vlen_app. by apply (ek_variable R valids cmps KR).
Qed.

Lemma tuple_key_laws {T R} `{Key T} `{ElementKeys R} valid valids cmp cmps :
  value_laws T valid -> elements_laws R valids -> key_laws T valid cmp -> elements_key_laws R valids cmps ->
  key_laws (tuple T R) (tuple_valid valid valids) (fun a b => more_cmp cmp cmps (parts a) (parts b)).
Proof.
  intros L LR K KR. pose proof (more_laws valid valids L LR) as LM. pose proof (more_key_laws valid valids cmp cmps L LR K KR) as KM.
  split; [apply total_order_inj; [apply (ek_order _ _ _ KM)|by intros [] [] [= ->]]|].
  intros v1 v2 d1 d2 V1 V2 E1 E2.
  destruct (elements_ok _ _ LM (parts v1) V1) as (ds1 & D1), (elements_ok _ _ LM (parts v2) V2) as (ds2 & D2).
  rewrite (tuple_shape v1 ds1 D1) in E1. rewrite (tuple_shape v2 ds2 D2) in E2. apply Ret_inj in E1 as <-. apply Ret_inj in E2 as <-.
  unfold compare, tuple_key, tuple_fixed_width, tuple_lens. rewrite fixed_width_sum_ok.
  destruct (forallb is_fixed (widths (more T R))) eqn:Ef.
  - pose proof (ek_fixed _ _ _ KM (parts v1) (parts v2) ds1 ds2 [] [] [] [] V1 V2 D1 D2 Ef eq_refl) as Hc.
    cbn [app] in *. by rewrite !app_nil_r in Hc.
  - pose proof (read_lens _ _ [] (concat ds1) (ee_fit _ _ D1) (Forall2_removelast _ _ _ (ee_widths _ _ D1))) as L1.
    pose proof (read_lens _ _ [] (concat ds2) (ee_fit _ _ D2) (Forall2_removelast _ _ _ (ee_widths _ _ D2))) as L2.
    cbn [app] in L1, L2. unfold parse_lens. change (vlen []) with 0 in L1, L2. rewrite L1, L2. cbn [mbind outcome_bind fst snd].
    rewrite !Z.add_0_l. by apply (ek_variable _ _ _ KM).
Qed.

Definition single_valid {T} (valid : T -> Prop) (v : single T) : Prop := valid (single_of v).
Lemma single_laws {T} `{Value T} valid : value_laws T valid -> value_laws (single T) (single_valid valid).
Proof.
  intros L. split; [apply (width_nonneg T valid L)| |names].
  intros [v] Hv. destruct (encode_ok T valid L v Hv) as (d & Ha & Hf & Hb & Hw). exists d. split; [done|]. split; [|done].
  cbn. by rewrite Hf.
Qed.
Lemma single_key_laws {T} `{Key T} valid cmp : key_laws T valid cmp ->
  key_laws (single T) (single_valid valid) (fun a b => cmp (single_of a) (single_of b)).
Proof.
  intros K. split; [apply total_order_inj; [apply (key_order T valid cmp K)|by intros [] [] [= ->]]|].
  intros [v1] [v2] d1 d2 V1 V2 E1 E2. by apply (key_compare T valid cmp K).
Qed.

(** ** The types that can be stored *)

(** The number of bytes of an integer type *)
Definition int_width (n : nat) : Prop := n ∈ [1; 2; 4; 8; 16]%nat.

(** The types built in: the [Value] instance of each, and its values *)
Inductive stored : forall T : Type, Value T -> (T -> Prop) -> Prop :=
| stored_unit : stored unit _ (fun _ => True)
| stored_bool : stored bool _ (fun _ => True)
| stored_bytes : stored bytes _ (fun v => Forall byte (slice_of v))
| stored_byte_array N : stored (byte_array N) _ (fun v => Forall byte (array_of v) /\ length (array_of v) = N)
| stored_text owned : stored (text owned) _ (fun v => Forall byte (utf8_of v) /\ valid_utf8 (utf8_of v) = true)
| stored_char : stored char _ char_valid
| stored_uint n : int_width n -> stored (uint n) _ uint_valid
| stored_sint n : int_width n -> stored (sint n) _ sint_valid
| stored_float n : n = 4%nat \/ n = 8%nat -> stored (float n) _ float_valid
| stored_option T V P : stored T V P -> stored (option T) _ (option_valid P)
| stored_array T V P N : stored T V P -> stored (array T N) _ (array_valid P)
| stored_vec T V P : stored T V P -> stored (vec T) _ (vec_valid P)
| stored_single T V P : stored T V P -> stored (single T) _ (single_valid P)
| stored_tuple T V P R E Q : stored T V P -> stored_elements R E Q -> stored (tuple T R) _ (tuple_valid P Q)
with stored_elements : forall R : Type, Elements R -> (R -> Prop) -> Prop :=
| stored_one T V P : stored T V P -> stored_elements (one T) _ (one_valid P)
| stored_more T V P R E Q : stored T V P -> stored_elements R E Q -> stored_elements (more T R) _ (more_valid P Q).

(** The types whose values are ordered, as Rust orders them *)
Inductive ordered : forall (T : Type) (V : Value T), Key T -> (T -> Prop) -> (T -> T -> comparison) -> Prop :=
| ordered_unit : ordered unit _ _ (fun _ => True) (fun _ _ => Eq)
| ordered_bool : ordered bool _ _ (fun _ => True) bool_cmp
| ordered_bytes : ordered bytes _ _ (fun v => Forall byte (slice_of v)) (fun a b => bytes_cmp (slice_of a) (slice_of b))
| ordered_byte_array N : ordered (byte_array N) _ _ (fun v => Forall byte (array_of v) /\ length (array_of v) = N)
    (fun a b => bytes_cmp (array_of a) (array_of b))
| ordered_text owned : ordered (text owned) _ _ (fun v => Forall byte (utf8_of v) /\ valid_utf8 (utf8_of v) = true)
    (fun a b => bytes_cmp (utf8_of a) (utf8_of b))
| ordered_char : ordered char _ _ char_valid (fun a b => Z.compare (code_point a) (code_point b))
| ordered_uint n : int_width n -> ordered (uint n) _ _ uint_valid (fun a b => Z.compare (uint_val a) (uint_val b))
| ordered_sint n : int_width n -> ordered (sint n) _ _ sint_valid (fun a b => Z.compare (sint_val a) (sint_val b))
| ordered_option T V K P c : ordered T V K P c -> ordered (option T) _ _ (option_valid P) (option_cmp c)
| ordered_array T V K P c N : ordered T V K P c ->
    ordered (array T N) _ _ (array_valid P) (fun a b => list_cmp c (elements a) (elements b))
| ordered_single T V K P c : ordered T V K P c ->
    ordered (single T) _ _ (single_valid P) (fun a b => c (single_of a) (single_of b))
| ordered_tuple T V K P c R E KR Q cs : ordered T V K P c -> ordered_elements R E KR Q cs ->
    ordered (tuple T R) _ _ (tuple_valid P Q) (fun a b => more_cmp c cs (parts a) (parts b))
with ordered_elements : forall (R : Type) (E : Elements R), ElementKeys R -> (R -> Prop) -> (R -> R -> comparison) -> Prop :=
| ordered_one T V K P c : ordered T V K P c ->
    ordered_elements (one T) _ _ (one_valid P) (fun a b => c (last_element a) (last_element b))
| ordered_more T V K P c R E KR Q cs : ordered T V K P c -> ordered_elements R E KR Q cs ->
    ordered_elements (more T R) _ _ (more_valid P Q) (more_cmp c cs).

Scheme stored_mut := Induction for stored Sort Prop with stored_elements_mut := Induction for stored_elements Sort Prop.
Scheme ordered_mut := Induction for ordered Sort Prop with ordered_elements_mut := Induction for ordered_elements Sort Prop.

Lemma int_width_pos n : int_width n -> (0 < n)%nat.
Proof. unfold int_width. set_unfold. lia. Qed.

Create HintDb types.
#[export] Hint Resolve unit_laws bool_laws bytes_laws byte_array_laws text_laws char_laws uint_laws sint_laws float_laws
  option_laws array_laws vec_laws single_laws tuple_laws one_laws more_laws int_width_pos : types.
#[export] Hint Resolve unit_key_laws bool_key_laws bytes_key_laws byte_array_key_laws text_key_laws char_key_laws uint_key_laws
  sint_key_laws option_key_laws array_key_laws single_key_laws tuple_key_laws one_key_laws more_key_laws : types.

Lemma stored_laws T V valid : stored T V valid -> value_laws T valid.
Proof.
  revert T V valid. apply (stored_mut (fun T V P _ => value_laws T P) (fun R E Q _ => elements_laws R Q)); eauto with types.
Qed.

Lemma ordered_laws T V K valid cmp : ordered T V K valid cmp -> value_laws T valid /\ key_laws T valid cmp.
Proof.
  revert T V K valid cmp.
  apply (ordered_mut (fun T V K P c _ => value_laws T P /\ key_laws T P c)
    (fun R E K Q c _ => elements_laws R Q /\ elements_key_laws R Q c)); intuition eauto with types.
Qed.

(** * Theorems *)

(** C19. Every value of every built-in type (the unit, booleans, characters, integers, floats, strings, byte slices and arrays, and
    the options, arrays, vectors and tuples of these at any depth) has an encoding, which decodes to that value and whose
    decoded value has that encoding again.  The values are those of the Rust type; the elements of variable width must
    be shorter than 4 GiB, as their lengths are stored in 32 bits. *)
Theorem values_round_trip T V valid (v : T) : stored T V valid -> valid v ->
  exists d, as_bytes v = Ret d /\ from_bytes d = Ret v /\ (v' ← (from_bytes d : outcome T); as_bytes v') = Ret d.
Proof.
  intros HS Hv. destruct (encode_ok T valid (stored_laws T V valid HS) v Hv) as (d & Ha & Hf & _).
  exists d. split; [done|]. split; [done|]. by rewrite Hf.
Qed.

(** [(&str, Option<u64>, Vec<[i32; 2]>)] *)
Definition demo_type : Type := tuple (text false) (more (option (uint 8)) (one (vec (array (sint 4) 2)))).
Definition demo_value : demo_type :=
  Tuple (More (Text (ascii "key")) (More (Some (UInt 300)) (One (Vec [Array [SInt (-1); SInt 7]])))).
Lemma demo_stored : exists valid, stored demo_type tuple_value valid /\ valid demo_value.
Proof.
  eexists. split.
  - apply stored_tuple; [apply stored_text|]. apply stored_more; [apply stored_option, stored_uint; unfold int_width; set_solver|].
    apply stored_one, stored_vec, stored_array, stored_sint. unfold int_width; set_solver.
  - repeat split; cbn; repeat constructor; cbn; unfold byte, fits_len, uint_valid, in_u, sint_valid; cbn; lia || done.
Qed.

Lemma values_round_trip_witness : exists d, as_bytes demo_value = Ret d /\ from_bytes d = Ret demo_value /\
  (v' ← (from_bytes d : outcome demo_type); as_bytes v') = Ret d.
Proof.
  destruct demo_stored as (valid & HS & Hv). exact (values_round_trip _ _ _ _ HS Hv).
Defined.

(** C31. The declared shape of every built-in type holds of its encodings: they are bytes, they have the fixed width the type
    declares, and the name of the type, as the table definitions store it, reads back as that name. *)
Theorem declared_types_hold T V valid (v : T) d : stored T V valid -> valid v -> as_bytes v = Ret d ->
  Forall byte d /\ (forall w, fixed_width T = Some w -> vlen d = w) /\
  TypeName.from_bytes (TypeName.to_bytes (type_name T)) = Ret (type_name T).
Proof.
  intros HS Hv Hd. pose proof (stored_laws T V valid HS) as L. destruct (encode_ok T valid L v Hv) as (d' & He).
  rewrite (encodes_fun v d' d He Hd). destruct He as (_ & _ & Hb & Hw). split; [done|]. split; [done|].
  by apply type_name_read, from_utf8_ascii, (name_ascii T valid).
Qed.

Lemma declared_types_hold_witness : exists d, as_bytes (Some (Char 955)) = Ret d /\ Forall byte d /\
  (forall w, fixed_width (option char) = Some w -> vlen d = w) /\
  TypeName.from_bytes (TypeName.to_bytes (type_name (option char))) = Ret (type_name (option char)).
Proof.
  eexists. split; [reflexivity|]. apply (declared_types_hold _ _ _ (Some (Char 955)) _ (stored_option _ _ _ stored_char)).
  - left. cbn. lia.
  - reflexivity.
Defined.

(** C20. [Key::compare] on the encodings of two values of a built-in key type never panics and is the order of the values: the
    numeric order of the integers and characters, the order of the bytes of strings, [None] before [Some], and the
    lexicographic order of arrays and tuples.  That order is total: it is [Equal] for equal values only, the other way
    round it is reversed, and it is transitive. *)
Theorem key_compare_is_order T V K valid cmp : ordered T V K valid cmp ->
  (forall v1 v2 d1 d2, valid v1 -> valid v2 -> as_bytes v1 = Ret d1 -> as_bytes v2 = Ret d2 ->
     compare T d1 d2 = Ret (cmp v1 v2)) /\
  (forall a b, cmp a b = Eq <-> a = b) /\ (forall a b, cmp b a = CompOpp (cmp a b)) /\
  (forall a b c, cmp a b = Lt -> cmp b c = Lt -> cmp a c = Lt).
Proof.
  intros HO. destruct (ordered_laws T V K valid cmp HO) as [_ [[He Hopp Ht] Hc]]. done.
Qed.

Lemma key_compare_is_order_witness :
  compare (tuple (text true) (one (sint 4)))
    (3 :: ascii "abc" ++ to_le_bytes 4 (to_unsigned 4 (-5))) (3 :: ascii "abc" ++ to_le_bytes 4 2) = Ret Lt.
Proof.
  destruct (key_compare_is_order (tuple (text true) (one (sint 4))) _ _ _ _
    (ordered_tuple _ _ _ _ _ _ _ _ _ _ (ordered_text true) (ordered_one _ _ _ _ _ (ordered_sint 4 ltac:(unfold int_width; set_solver)))))
    as (Hc & _).
  rewrite (Hc (Tuple (More (Text (ascii "abc")) (One (SInt (-5))))) (Tuple (More (Text (ascii "abc")) (One (SInt 2))))).
  - reflexivity.
  - repeat split; cbn; repeat constructor; cbn; unfold byte, fits_len, sint_valid; cbn; lia || done.
  - repeat split; cbn; repeat constructor; cbn; unfold byte, fits_len, sint_valid; cbn; lia || done.
  - reflexivity.
  - reflexivity.
Defined.
