(* ===== verification/KeyOrder.v ===== *)
(** The order of keys as the B-trees use it: the promise of a [Key] type to the
    pages that hold its keys, and its proof for the built-in types. *)
From S2P Require Import Prelude Types.

(** [compare] orders the encodings of keys, the lists [valid], by the total order [cmp]. *)
Class ByteOrder (compare : list Z -> list Z -> outcome comparison) (valid : list Z -> Prop)
    (cmp : list Z -> list Z -> comparison) : Prop := {
  bo_compare : forall a b, valid a -> valid b -> compare a b = Ret (cmp a b);
  bo_eq : forall a b, valid a -> valid b -> cmp a b = Eq <-> a = b;
  bo_opp : forall a b, valid a -> valid b -> cmp b a = CompOpp (cmp a b);
  bo_trans : forall a b c, valid a -> valid b -> valid c -> cmp a b = Lt -> cmp b c = Lt -> cmp a c = Lt }.

(** ** Sorted lists of keys *)

Section sorted.
  Context {compare valid cmp} `{BO : ByteOrder compare valid cmp}.

Definition below (q : list Z) (l : list (list Z)) : Prop := Forall (fun k => cmp k q = Lt) l.
Definition above (q : list Z) (l : list (list Z)) : Prop := Forall (fun k => cmp q k = Lt) l.
(** Ascending, without duplicates *)
Fixpoint sorted (l : list (list Z)) : Prop :=
  match l with [] => True | k :: t => above k t /\ sorted t end.

Lemma cmp_refl a : valid a -> cmp a a = Eq.
Proof using BO. intros. by apply (@bo_eq _ _ _ BO a a). Qed.
Lemma cmp_gt a b : valid a -> valid b -> cmp a b = Gt <-> cmp b a = Lt.
Proof using BO. intros Ha Hb. rewrite (@bo_opp _ _ _ BO a b Ha Hb). by destruct (cmp a b). Qed.

Lemma above_trans a b l : valid a -> valid b -> Forall valid l -> cmp a b = Lt -> above b l -> above a l.
Proof using BO.
  intros Ha Hb Hl Hab Hbl. apply Forall_forall. intros k Hk. unfold above in Hbl. rewrite Forall_forall in Hl, Hbl.
  apply (@bo_trans _ _ _ BO a b k); [done|done|by apply Hl|done|by apply Hbl].
Qed.
Lemma below_trans a b l : valid a -> valid b -> Forall valid l -> cmp a b = Lt -> below a l -> below b l.
Proof using BO.
  intros Ha Hb Hl Hab Hal. apply Forall_forall. intros k Hk. unfold below in Hal. rewrite Forall_forall in Hl, Hal.
  apply (@bo_trans _ _ _ BO k a b); [by apply Hl|done|done|by apply Hal|done].
Qed.

(** A list around a key *)
Lemma sorted_app l k : sorted (l ++ k) <-> sorted l /\ sorted k /\ Forall (fun x => above x k) l.
Proof.
  induction l as [|x l IH]; cbn [app sorted].
  - split; [intros H; split; [done|]; split; [done|constructor]|tauto].
  - unfold above in *. rewrite Forall_app, Forall_cons, IH. tauto.
Qed.
Lemma sorted_middle l q k : sorted (l ++ q :: k) <-> sorted l /\ sorted k /\ below q l /\ above q k /\ Forall (fun x => above x k) l.
Proof.
  rewrite sorted_app. cbn [sorted].
  assert (Forall (fun x => above x (q :: k)) l <-> below q l /\ Forall (fun x => above x k) l) as ->; [|tauto].
  unfold below, above. rewrite !Forall_forall. setoid_rewrite Forall_cons. split; [intros H; split; intros x Hx; by apply H|].
  intros [H1 H2] x Hx. auto.
Qed.
(** A key between two parts of a sorted list *)
Lemma sorted_insert l q k : valid q -> Forall valid l -> Forall valid k -> sorted (l ++ k) -> below q l -> above q k -> sorted (l ++ q :: k).
Proof using BO.
  intros Hq Hl Hk Hs Hb Ha. apply sorted_middle. apply sorted_app in Hs as (H1 & H2 & H3). done.
Qed.
Lemma sorted_remove l q k : sorted (l ++ q :: k) -> sorted (l ++ k).
Proof. intros (H1 & H2 & _ & _ & H3)%sorted_middle. by apply sorted_app. Qed.

(** The split at a key is unique. *)
Lemma below_above_disjoint q x l k : valid q -> valid x -> below q l -> above q k -> x ∈ l -> x ∈ k -> False.
Proof using BO.
  intros Hq Hx Hl Hk H1 H2. unfold below, above in *. rewrite Forall_forall in Hl, Hk. specialize (Hl x H1). specialize (Hk x H2).
  cbn beta in *. apply (cmp_gt q x) in Hl; [|done..]. congruence.
Qed.
End sorted.

#[global] Arguments below cmp q l : clear implicits.
#[global] Arguments above cmp q l : clear implicits.
#[global] Arguments sorted cmp l : clear implicits.

(** ** The types of keys keep the promise *)

Section laws.
  Context {T : Type} {V : Value T} {K : Key T} {validT : T -> Prop} {cmpT : T -> T -> comparison}.

(** The encodings of the keys *)
Definition encoding (d : list Z) : Prop := exists v, validT v /\ as_bytes v = Ret d.
Definition encoding_cmp (a b : list Z) : comparison :=
  match from_bytes a, from_bytes b with Ret x, Ret y => cmpT x y | _, _ => Eq end.

Context (L : value_laws T validT).
Lemma encoding_read v d : validT v -> as_bytes v = Ret d -> from_bytes d = Ret v.
Proof using L.
  intros Hv Hd. destruct (encode_ok T validT L v Hv) as (d' & He).
  rewrite (encodes_fun v d' d He Hd). by destruct He as (_ & ? & _).
Qed.

Lemma laws_byte_order : key_laws T validT cmpT -> ByteOrder (compare T) encoding encoding_cmp.
Proof using L.
  intros [[Oe Oo Ot] Hc]. unfold encoding_cmp. split.
  - intros a b (v & Hv & Ea) (w & Hw & Eb). rewrite (encoding_read v a), (encoding_read w b) by done. by apply Hc.
  - intros a b (v & Hv & Ea) (w & Hw & Eb). rewrite (encoding_read v a), (encoding_read w b), Oe by done.
    split; [intros ->; rewrite Ea in Eb; by apply Ret_inj in Eb|].
    intros ->. pose proof (encoding_read v b Hv Ea) as R1. rewrite (encoding_read w b Hw Eb) in R1. by apply Ret_inj in R1.
  - intros a b (v & Hv & Ea) (w & Hw & Eb). rewrite (encoding_read v a), (encoding_read w b) by done. apply Oo.
  - intros a b c (v & Hv & Ea) (w & Hw & Eb) (u & Hu & Ec).
    rewrite (encoding_read v a), (encoding_read w b), (encoding_read u c) by done. apply Ot.
Qed.
End laws.

Lemma builtin_byte_order {T : Type} {V : Value T} {K : Key T} {validT : T -> Prop} {cmpT : T -> T -> comparison} : ordered T V K validT cmpT ->
  ByteOrder (compare T) (encoding (validT := validT)) (encoding_cmp (cmpT := cmpT)).
Proof. intros HO. destruct (ordered_laws T V K validT cmpT HO) as [L KL]. by apply laws_byte_order. Qed.
