(* ===== verification/Catalog.v ===== *)
(** What the system stores about tables and transactions: the definitions of tables
    (src/src/tree_store/table_tree_base.rs), savepoints (page_store/savepoint.rs), and the keys
    and values of the system tables (transactions.rs, transaction_tracker.rs, table_tree.rs).
    Their encodings read back, their keys are ordered, so that the system tables are
    B-trees as any other, and a page list is a list of pages. *)
From stdpp Require Import strings.
From S2P Require Import Prelude Pages Header Types KeyOrder.

(** * Definitions of tables *)

Definition ALIGNMENT : Z := 1.

Module TableType.

Inductive t := Normal | Multimap.
#[global] Instance eq_dec : EqDecision t.
Proof. solve_decision. Defined.
Definition is_legacy (value : Z) : bool := (value =? 1) || (value =? 2).
Definition into (ty : t) : Z := match ty with Normal => 3 | Multimap => 4 end.
Definition from (value : Z) : outcome t := if value =? 3 then Ret Normal else if value =? 4 then Ret Multimap else Panic.

End TableType.

#[global] Instance TypeClassification_eq_dec : EqDecision TypeClassification.
Proof. solve_decision. Defined.
#[global] Instance TypeName_eq_dec : EqDecision TypeName.t.
Proof. solve_decision. Defined.

(** The errors of opening a table *)
Inductive TableError :=
  | TableTypeMismatch (table : list Z) (key value : TypeName.t)
  | TableIsMultimap (name : list Z)
  | TableIsNotMultimap (name : list Z)
  | TypeDefinitionChanged (name : TypeName.t) (alignment : Z) (width : option Z)
  | TableDoesNotExist (name : list Z)
  | TableExists (name : list Z).

Module InternalTableDefinition.

(** The fields that both variants have *)
Record fields := mk {
  table_root : option BtreeHeader.t;
  table_length : Z;
  fixed_key_size : option Z;
  fixed_value_size : option Z;
  key_alignment : Z;
  value_alignment : Z;
  key_type : TypeName.t;
  value_type : TypeName.t }.
Inductive t := Normal (f : fields) | Multimap (f : fields).

Definition get (d : t) : fields := match d with Normal f | Multimap f => f end.
Definition get_type (d : t) : TableType.t := match d with Normal _ => TableType.Normal | Multimap _ => TableType.Multimap end.
Definition of_type (ty : TableType.t) (f : fields) : t := match ty with TableType.Normal => Normal f | TableType.Multimap => Multimap f end.
Definition get_length (d : t) : Z := table_length (get d).
Definition get_root (d : t) : option BtreeHeader.t := table_root (get d).

Definition new (K V : Type) `{Value K} `{Value V} (table_type : TableType.t) (root : option BtreeHeader.t) (length : Z) : t :=
  of_type table_type (mk root length (fixed_width K) (fixed_width V) ALIGNMENT ALIGNMENT (type_name K) (type_name V)).
Definition set_header (d : t) (root : option BtreeHeader.t) (length : Z) : t :=
  let f := get d in
  of_type (get_type d) (mk root length (fixed_key_size f) (fixed_value_size f) (key_alignment f) (value_alignment f) (key_type f) (value_type f)).

Definition check_match_untyped (d : t) (table_type : TableType.t) (name : list Z) : result unit TableError :=
  let f := get d in
  if bool_decide (get_type d ≠ table_type) then
    if bool_decide (get_type d = TableType.Multimap) then Err (TableIsMultimap name) else Err (TableIsNotMultimap name)
  else if negb (key_alignment f =? ALIGNMENT) then Err (TypeDefinitionChanged (key_type f) (key_alignment f) (fixed_key_size f))
  else if negb (value_alignment f =? ALIGNMENT) then Err (TypeDefinitionChanged (value_type f) (value_alignment f) (fixed_value_size f))
  else Okay tt.
Definition check_match (K V : Type) `{Value K} `{Value V} (d : t) (table_type : TableType.t) (name : list Z) : result unit TableError :=
  let f := get d in
  match check_match_untyped d table_type name with
  | Err e => Err e
  | Okay _ =>
      if bool_decide (key_type f ≠ type_name K) || bool_decide (value_type f ≠ type_name V) then Err (TableTypeMismatch name (key_type f) (value_type f))
      else if bool_decide (fixed_key_size f ≠ fixed_width K) then Err (TypeDefinitionChanged (type_name K) (key_alignment f) (fixed_key_size f))
      else if bool_decide (fixed_value_size f ≠ fixed_width V) then Err (TypeDefinitionChanged (type_name V) (value_alignment f) (fixed_value_size f))
      else Okay tt
  end.

(** A number that may be missing *)
Definition fixed_from_bytes (data : list Z) (offset : Z) : outcome (option Z) :=
  b ← vget data offset;
  if b =? 0 then Ret None else x ← slice data (offset + 1) (offset + 1 + 4); Ret (Some (from_le_bytes x)).
Definition from_bytes (data : list Z) : outcome t :=
  _ ← rassert (22 <? vlen data);
  let offset := 0 in
  b ← vget data offset;
  _ ← rassert (negb (TableType.is_legacy b));
  table_type ← TableType.from b;
  let offset := offset + 1 in
  len ← slice data offset (offset + 8);
  let offset := offset + 8 in
  non_null ← vget data offset;
  let offset := offset + 1 in
  table_root ← (if non_null =? 0 then Ret None
    else h ← slice data offset (offset + BtreeHeader.serialized_size); h ← BtreeHeader.from_le_bytes h; Ret (Some h));
  let offset := offset + BtreeHeader.serialized_size in
  fixed_key_size ← fixed_from_bytes data offset;
  let offset := offset + 1 + 4 in
  fixed_value_size ← fixed_from_bytes data offset;
  let offset := offset + 1 + 4 in
  key_alignment ← slice data offset (offset + 4);
  let offset := offset + 4 in
  value_alignment ← slice data offset (offset + 4);
  let offset := offset + 4 in
  n ← slice data offset (offset + 4);
  let key_type_len := from_le_bytes n in
  let offset := offset + 4 in
  k ← slice data offset (offset + key_type_len);
  key_type ← TypeName.from_bytes k;
  let offset := offset + key_type_len in
  w ← slice_from data offset;
  value_type ← TypeName.from_bytes w;
  Ret (of_type table_type (mk table_root (from_le_bytes len) fixed_key_size fixed_value_size (from_le_bytes key_alignment) (from_le_bytes value_alignment) key_type value_type)).

Definition fixed_as_bytes (fixed : option Z) : outcome (list Z) :=
  match fixed with
  | Some w => x ← utry 32 w; Ret (1 :: to_le_bytes 4 x)
  | None => Ret (0 :: replicate 4 0)
  end.
Definition as_bytes (d : t) : outcome (list Z) :=
  let result := [TableType.into (get_type d)] ++ to_le_bytes 8 (get_length d) in
  header ← match get_root d with
    | Some h => x ← BtreeHeader.to_le_bytes h; Ret (1 :: x)
    | None => Ret (0 :: replicate (Z.to_nat BtreeHeader.serialized_size) 0)
    end;
  k ← fixed_as_bytes (fixed_key_size (get d));
  v ← fixed_as_bytes (fixed_value_size (get d));
  ka ← utry 32 (key_alignment (get d));
  va ← utry 32 (value_alignment (get d));
  let key_type_bytes := TypeName.to_bytes (key_type (get d)) in
  n ← utry 32 (vlen key_type_bytes);
  Ret (result ++ header ++ k ++ v ++ to_le_bytes 4 ka ++ to_le_bytes 4 va ++ to_le_bytes 4 n ++ key_type_bytes ++ TypeName.to_bytes (value_type (get d))).

End InternalTableDefinition.

#[global] Instance table_definition_value : Value InternalTableDefinition.t := {
  fixed_width := None;
  from_bytes := InternalTableDefinition.from_bytes;
  as_bytes := InternalTableDefinition.as_bytes;
  type_name := TypeName.internal (ascii "redb::InternalTableDefinition") }.

(** * Transactions and savepoints *)

Record SavepointId := savepoint_id { savepoint_raw : Z }.

#[global] Instance savepoint_id_value : Value SavepointId := {
  fixed_width := Some 8;
  from_bytes := fun data => if (length data =? 8)%nat then Ret (savepoint_id (from_le_bytes data)) else Panic;
  as_bytes := fun v => Ret (to_le_bytes 8 (savepoint_raw v));
  type_name := TypeName.internal (ascii "redb::SavepointId") }.
#[global] Instance savepoint_id_key : Key SavepointId := fun data1 data2 =>
  v1 ← (from_bytes data1 : outcome SavepointId); v2 ← (from_bytes data2 : outcome SavepointId); Ret (Z.compare (savepoint_raw v1) (savepoint_raw v2)).

(** [Savepoint], without the tracker it belongs to; a transaction is its number. *)
Module Savepoint.

Record t := mk { version : Z; id : SavepointId; transaction : Z; user_root : option BtreeHeader.t; ephemeral : bool }.
Definition new_ephemeral (version : Z) (id : SavepointId) (transaction : Z) (user_root : option BtreeHeader.t) : t := mk version id transaction user_root true.
Definition set_persistent (s : t) : t := mk (version s) (id s) (transaction s) (user_root s) false.

End Savepoint.

(** The bytes of a savepoint; both variants are slices. *)
Module SerializedSavepoint.

Record t := Serialized { data : list Z }.

Definition from_savepoint (savepoint : Savepoint.t) : outcome t :=
  _ ← rassert (Savepoint.version savepoint =? FILE_FORMAT_VERSION3);
  let result := [Savepoint.version savepoint] ++ to_le_bytes 8 (savepoint_raw (Savepoint.id savepoint)) ++ to_le_bytes 8 (Savepoint.transaction savepoint) in
  root ← match Savepoint.user_root savepoint with
    | Some header => h ← BtreeHeader.to_le_bytes header; Ret (1 :: h)
    | None => Ret (0 :: replicate (Z.to_nat BtreeHeader.serialized_size) 0)
    end;
  Ret (Serialized (result ++ root)).
Definition to_savepoint (s : t) : outcome Savepoint.t :=
  let data := data s in
  let offset := 0 in
  version ← vget data offset;
  _ ← rassert (version =? FILE_FORMAT_VERSION3);
  let offset := offset + 1 in
  id ← slice data offset (offset + 8);
  let offset := offset + 8 in
  transaction ← slice data offset (offset + 8);
  let offset := offset + 8 in
  not_null ← vget data offset;
  _ ← rassert ((not_null =? 0) || (not_null =? 1));
  let offset := offset + 1 in
  user_root ← (if not_null =? 1 then h ← slice data offset (offset + BtreeHeader.serialized_size); h ← BtreeHeader.from_le_bytes h; Ret (Some h) else Ret None);
  let offset := offset + BtreeHeader.serialized_size in
  _ ← rassert (offset =? vlen data);
  Ret (Savepoint.mk version (savepoint_id (from_le_bytes id)) (from_le_bytes transaction) user_root false).

End SerializedSavepoint.

#[global] Instance serialized_savepoint_value : Value SerializedSavepoint.t := {
  fixed_width := None;
  from_bytes := fun data => Ret (SerializedSavepoint.Serialized data);
  as_bytes := fun v => Ret (SerializedSavepoint.data v);
  type_name := TypeName.internal (ascii "redb::SerializedSavepoint") }.

(** * Keys and values of the system tables *)

Record TransactionIdWithPagination := paginated { transaction_of : Z; pagination_id : Z }.
#[global] Instance paginated_value : Value TransactionIdWithPagination := {
  fixed_width := Some (2 * 8);
  from_bytes := fun data =>
    t ← slice data 0 8;
    p ← slice_from data 8;
    if (length p =? 8)%nat then Ret (paginated (from_le_bytes t) (from_le_bytes p)) else Panic;
  as_bytes := fun v =>
    let result := replicate 16 0 in
    result ← splice result 0 (to_le_bytes 8 (transaction_of v));
    splice result 8 (to_le_bytes 8 (pagination_id v));
  type_name := TypeName.internal (ascii "redb::TransactionIdWithPagination") }.
#[global] Instance paginated_key : Key TransactionIdWithPagination := fun data1 data2 =>
  value1 ← (from_bytes data1 : outcome TransactionIdWithPagination);
  value2 ← (from_bytes data2 : outcome TransactionIdWithPagination);
  Ret (match Z.compare (transaction_of value1) (transaction_of value2) with
    | Gt => Gt
    | Eq => Z.compare (pagination_id value1) (pagination_id value2)
    | Lt => Lt
    end).

Module AllocatorStateKey.

Inductive t := Deprecated | Region (region : Z) | RegionTracker | TransactionId.
Definition from_bytes (data : list Z) : outcome t :=
  b ← vget data 0;
  if (0 <=? b) && (b <=? 2) then Ret Deprecated
  else if b =? 3 then r ← slice_from data 1; if (length r =? 4)%nat then Ret (Region (from_le_bytes r)) else Panic
  else if b =? 4 then Ret RegionTracker
  else if b =? 5 then Ret TransactionId
  else Panic.
Definition as_bytes (value : t) : outcome (list Z) :=
  let result := replicate 5 0 in
  match value with
  | Region region => result ← vset result 0 3; splice result 1 (to_le_bytes 4 region)
  | RegionTracker => vset result 0 4
  | TransactionId => vset result 0 5
  | Deprecated => vset result 0 0
  end.
(** The derived order: the variants as they are listed, and the fields *)
Definition variant (k : t) : Z := match k with Deprecated => 0 | Region _ => 1 | RegionTracker => 2 | TransactionId => 3 end.
Definition cmp (a b : t) : comparison :=
  match a, b with
  | Region x, Region y => Z.compare x y
  | _, _ => Z.compare (variant a) (variant b)
  end.

End AllocatorStateKey.

#[global] Instance allocator_state_value : Value AllocatorStateKey.t := {
  fixed_width := Some (1 + 4);
  from_bytes := AllocatorStateKey.from_bytes;
  as_bytes := AllocatorStateKey.as_bytes;
  type_name := TypeName.internal (ascii "redb::AllocatorStateKey") }.
#[global] Instance allocator_state_key : Key AllocatorStateKey.t := fun data1 data2 =>
  a ← (from_bytes data1 : outcome AllocatorStateKey.t); b ← (from_bytes data2 : outcome AllocatorStateKey.t); Ret (AllocatorStateKey.cmp a b).

(** [PageList] and [PageListMut] *)
Module PageList.

Record t := List { data : list Z }.
Definition required_bytes (len : Z) : Z := 2 + PageNumber.serialized_size * len.
Definition len (l : t) : outcome Z := x ← slice (data l) 0 2; Ret (from_le_bytes x).
Definition get (l : t) (index : Z) : outcome PageNumber.t :=
  let start := 2 + PageNumber.serialized_size * index in
  b ← slice (data l) start (start + PageNumber.serialized_size);
  PageNumber.from_bytes b.
Definition initialize (data : list Z) : outcome (list Z) :=
  _ ← rassert (8 <=? vlen data);
  splice data 0 (replicate 8 0).
Definition push_back (l : t) (value : PageNumber.t) : outcome t :=
  x ← slice (data l) 0 2;
  let len := from_le_bytes x in
  n ← uadd 16 len 1;
  d ← splice (data l) 0 (to_le_bytes 2 n);
  let start := 2 + PageNumber.serialized_size * len in
  d ← splice d start (PageNumber.to_bytes value);
  Ret (List d).
Definition clear (l : t) : outcome t := d ← splice (data l) 0 (replicate 2 0); Ret (List d).

End PageList.

#[global] Instance page_list_value : Value PageList.t := {
  fixed_width := None;
  from_bytes := fun data => Ret (PageList.List data);
  as_bytes := fun v => Ret (PageList.data v);
  type_name := TypeName.internal (ascii "redb::PageList") }.

(** * The parts of an encoding *)

(** A slice that is one of the parts *)
Lemma slice_part (L : list (list Z)) i x a b : L !! i = Some x -> a = vlen (concat (take i L)) -> b = a + vlen x -> slice (concat L) a b = Ret x.
Proof.
  intros Hi -> ->. rewrite <-(take_drop_middle L i x Hi) at 1. rewrite concat_app. cbn [concat]. by apply slice_middle.
Qed.
Lemma slice_from_part (L : list (list Z)) i x a : L !! i = Some x -> length L = S i -> a = vlen (concat (take i L)) -> slice_from (concat L) a = Ret x.
Proof.
  intros Hi Hl ->. rewrite <-(take_drop_middle L i x Hi) at 1. rewrite (drop_ge L) by lia. rewrite concat_app. cbn [concat]. rewrite app_nil_r. by apply slice_from_suffix.
Qed.
Lemma vget_part (L : list (list Z)) i x a : L !! i = Some [x] -> a = vlen (concat (take i L)) -> vget (concat L) a = Ret x.
Proof.
  intros Hi ->. rewrite <-(take_drop_middle L i [x] Hi) at 1. rewrite concat_app. cbn [concat app]. apply vget_ok; [apply vlen_nonneg|]. unfold vlen. rewrite Nat2Z.id. by apply list_lookup_middle.
Qed.

(** The root of a tree that may be empty, and a width that may be missing *)
Definition root_ok (root : option BtreeHeader.t) : Prop := match root with Some h => btree_header_ok h | None => True end.
Definition root_bytes (root : option BtreeHeader.t) : list Z := match root with Some h => btree_header_bytes h | None => replicate 32 0 end.
Definition flag {A} (x : option A) : Z := match x with Some _ => 1 | None => 0 end.
Definition width_ok (w : option Z) : Prop := match w with Some w => in_u 32 w | None => True end.
Definition width_bytes (w : option Z) : list Z := match w with Some w => to_le_bytes 4 w | None => replicate 4 0 end.
Lemma vlen_root root : vlen (root_bytes root) = 32.
Proof. destruct root; [|done]. unfold vlen. cbn [root_bytes]. by rewrite length_btree_header_bytes. Qed.
Lemma vlen_width w : vlen (width_bytes w) = 4.
Proof. destruct w; [|done]. apply vlen_to_le_bytes. Qed.
Lemma root_bytes_byte root : Forall byte (root_bytes root).
Proof. destruct root; [apply btree_header_bytes_byte|]. apply Forall_replicate. unfold byte. lia. Qed.
Lemma width_bytes_byte w : Forall byte (width_bytes w).
Proof. destruct w; [apply to_le_bytes_byte|]. apply Forall_replicate. unfold byte. lia. Qed.

(** * Definitions of tables read back *)

Import InternalTableDefinition.
Definition name_ok (n : TypeName.t) : Prop := from_utf8 (TypeName.name n) = Ret (TypeName.name n) /\ Forall byte (TypeName.name n).
Definition definition_ok (d : t) : Prop := let f := get d in
  root_ok (table_root f) /\ in_u 64 (table_length f) /\ width_ok (fixed_key_size f) /\ width_ok (fixed_value_size f) /\ in_u 32 (key_alignment f) /\ in_u 32 (value_alignment f) /\
  name_ok (key_type f) /\ name_ok (value_type f) /\ vlen (TypeName.to_bytes (key_type f)) < 2 ^ 32.
Definition definition_parts (d : t) : list (list Z) := let f := get d in
  [[TableType.into (get_type d)]; to_le_bytes 8 (table_length f); [flag (table_root f)]; root_bytes (table_root f); [flag (fixed_key_size f)]; width_bytes (fixed_key_size f); [flag (fixed_value_size f)]; width_bytes (fixed_value_size f);
   to_le_bytes 4 (key_alignment f); to_le_bytes 4 (value_alignment f); to_le_bytes 4 (vlen (TypeName.to_bytes (key_type f))); TypeName.to_bytes (key_type f); TypeName.to_bytes (value_type f)].

Lemma vlen_none : vlen (@nil Z) = 0.
Proof. done. Qed.
Lemma vlen_one (x : Z) : vlen [x] = 1.
Proof. done. Qed.
(** The offset of a part *)
Ltac part_offset L := unfold L; match goal with L := ?f _ |- _ => unfold f end; cbn [take concat]; rewrite ?vlen_app, ?vlen_one, ?vlen_to_le_bytes, ?vlen_root, ?vlen_width, ?vlen_none; unfold BtreeHeader.serialized_size, PageNumber.serialized_size; cbn [Z.of_nat Pos.of_succ_nat Pos.succ]; lia.
Ltac read_part L i a := rewrite (slice_part L i _ a _ eq_refl) by part_offset L; cbn [mbind outcome_bind].
Ltac get_part L i a := rewrite (vget_part L i _ a eq_refl) by part_offset L; cbn [mbind outcome_bind].

Lemma definition_as_bytes d : definition_ok d -> InternalTableDefinition.as_bytes d = Ret (concat (definition_parts d)).
Proof.
  intros (Hr & Hl & Hk & Hv & Hka & Hva & _ & _ & Hn). unfold as_bytes, get_root, get_length. set (f := get d) in *.
  assert (E1 : match table_root f with Some h => x ← BtreeHeader.to_le_bytes h; Ret (1 :: x) | None => Ret (0 :: replicate (Z.to_nat BtreeHeader.serialized_size) 0) end = Ret ([flag (table_root f)] ++ root_bytes (table_root f))).
  { destruct (table_root f); [|done]. by rewrite btree_header_to_bytes. }
  assert (E2 : forall w, width_ok w -> fixed_as_bytes w = Ret ([flag w] ++ width_bytes w)) by (intros [w|] Hw; [|done]; cbn; by rewrite utry_ok).
  rewrite E1, (E2 _ Hk), (E2 _ Hv), !utry_ok by (done || (split; [apply vlen_nonneg|done])). cbn [mbind outcome_bind]. f_equal. unfold definition_parts. fold f. cbn [concat]. rewrite <-!app_assoc, app_nil_r. done.
Qed.

Lemma fixed_read (L : list (list Z)) i w a : width_ok w -> L !! i = Some [flag w] -> L !! S i = Some (width_bytes w) -> a = vlen (concat (take i L)) -> fixed_from_bytes (concat L) a = Ret w.
Proof.
  intros Hw H1 H2 ->. unfold fixed_from_bytes. rewrite (vget_part L i _ _ H1 eq_refl). cbn [mbind outcome_bind]. destruct w as [w|]; [|done]. cbn [flag Z.eqb].
  rewrite (slice_part L (S i) _ _ _ H2); [cbn [mbind outcome_bind width_bytes]; by rewrite from_to_le_bytes| |by rewrite vlen_width].
  rewrite (take_S_r _ _ _ H1), concat_app, vlen_app. cbn [concat app]. by rewrite vlen_one.
Qed.
Lemma definition_from_bytes d : definition_ok d -> InternalTableDefinition.from_bytes (concat (definition_parts d)) = Ret d.
Proof.
  intros (Hr & Hl & Hk & Hv & Hka & Hva & [Hkn _] & [Hvn _] & Hn). unfold from_bytes. set (L := definition_parts d).
  assert (Hlen : 22 <? vlen (concat L) = true).
  { apply Z.ltb_lt. unfold L, definition_parts. cbn [concat]. rewrite !vlen_app, !vlen_one, !vlen_to_le_bytes, !vlen_root, !vlen_width, vlen_none. pose proof (vlen_nonneg (TypeName.to_bytes (key_type (get d)))). pose proof (vlen_nonneg (TypeName.to_bytes (value_type (get d)))). lia. }
  rewrite Hlen. cbn [rassert mbind outcome_bind]. get_part L 0%nat 0.
  assert (Ht : TableType.is_legacy (TableType.into (get_type d)) = false /\ TableType.from (TableType.into (get_type d)) = Ret (get_type d)) by (by destruct (get_type d)). destruct Ht as [-> ->]. cbn [negb mbind outcome_bind rassert].
  read_part L 1%nat (0 + 1). get_part L 2%nat (0 + 1 + 8).
  assert (E1 : (if flag (table_root (get d)) =? 0 then Ret None else h ← slice (concat L) (0 + 1 + 8 + 1) (0 + 1 + 8 + 1 + BtreeHeader.serialized_size); h ← BtreeHeader.from_le_bytes h; Ret (Some h)) = Ret (table_root (get d))).
  { read_part L 3%nat (0 + 1 + 8 + 1). destruct (table_root (get d)) as [h|]; [|done]. cbn [flag root_bytes Z.eqb]. by rewrite btree_header_roundtrip. }
  rewrite E1. cbn [mbind outcome_bind]. rewrite (fixed_read L 4 _ (0 + 1 + 8 + 1 + BtreeHeader.serialized_size) Hk eq_refl eq_refl) by part_offset L. cbn [mbind outcome_bind]. rewrite (fixed_read L 6 _ (0 + 1 + 8 + 1 + BtreeHeader.serialized_size + 1 + 4) Hv eq_refl eq_refl) by part_offset L. cbn [mbind outcome_bind].
  read_part L 8%nat (0 + 1 + 8 + 1 + BtreeHeader.serialized_size + 1 + 4 + 1 + 4). read_part L 9%nat (0 + 1 + 8 + 1 + BtreeHeader.serialized_size + 1 + 4 + 1 + 4 + 4). read_part L 10%nat (0 + 1 + 8 + 1 + BtreeHeader.serialized_size + 1 + 4 + 1 + 4 + 4 + 4). rewrite (from_to_le_bytes 4 (vlen (TypeName.to_bytes (key_type (get d))))) by (split; [apply vlen_nonneg|done]).
  read_part L 11%nat (0 + 1 + 8 + 1 + BtreeHeader.serialized_size + 1 + 4 + 1 + 4 + 4 + 4 + 4). rewrite type_name_read by done. cbn [mbind outcome_bind]. rewrite (slice_from_part L 12 _ _ eq_refl eq_refl) by part_offset L. cbn [mbind outcome_bind]. rewrite type_name_read by done. cbn [mbind outcome_bind].
  rewrite !from_to_le_bytes by done. by destruct d as [[]|[]].
Qed.

(** The encoding does not depend on the length of the table, and its length not on the root. *)
Lemma definition_len d : vlen (concat (definition_parts d)) = 64 + vlen (TypeName.to_bytes (key_type (get d))) + vlen (TypeName.to_bytes (value_type (get d))).
Proof. unfold definition_parts. cbn [concat]. rewrite !vlen_app, !vlen_one, !vlen_to_le_bytes, !vlen_root, !vlen_width, vlen_none. lia. Qed.
Lemma definition_byte d : definition_ok d -> Forall byte (concat (definition_parts d)).
Proof.
  intros (_ & _ & _ & _ & _ & _ & [_ Hk] & [_ Hv] & _). unfold definition_parts. cbn [concat].
  assert (Hn : forall n, Forall byte (TypeName.name n) -> Forall byte (TypeName.to_bytes n)) by (intros [[] n] Hb; constructor; [done..|]; exact Hb).
  assert (Hf : forall A (x : option A), byte (flag x)) by (by intros A []). assert (Ht : byte (TableType.into (get_type d))) by (by destruct (get_type d)).
  repeat (apply Forall_app; split); auto using to_le_bytes_byte, root_bytes_byte, width_bytes_byte, Forall_cons_2, Forall_nil_2.
Qed.

(** * Savepoints read back *)

Definition savepoint_ok (s : Savepoint.t) : Prop :=
  Savepoint.version s = FILE_FORMAT_VERSION3 /\ in_u 64 (savepoint_raw (Savepoint.id s)) /\ in_u 64 (Savepoint.transaction s) /\ root_ok (Savepoint.user_root s).
Definition savepoint_parts (s : Savepoint.t) : list (list Z) :=
  [[Savepoint.version s]; to_le_bytes 8 (savepoint_raw (Savepoint.id s)); to_le_bytes 8 (Savepoint.transaction s); [flag (Savepoint.user_root s)]; root_bytes (Savepoint.user_root s)].
Lemma savepoint_write s : savepoint_ok s -> SerializedSavepoint.from_savepoint s = Ret (SerializedSavepoint.Serialized (concat (savepoint_parts s))).
Proof.
  intros (Hv & Hi & Ht & Hr). unfold SerializedSavepoint.from_savepoint. rewrite Hv, Z.eqb_refl. cbn [rassert mbind outcome_bind]. unfold savepoint_parts. cbn [concat]. rewrite app_nil_r, Hv.
  destruct (Savepoint.user_root s); [rewrite btree_header_to_bytes|]; cbn [mbind outcome_bind]; do 2 f_equal; by rewrite <-!app_assoc.
Qed.
Lemma savepoint_read s : savepoint_ok s -> SerializedSavepoint.to_savepoint (SerializedSavepoint.Serialized (concat (savepoint_parts s))) = Ret (Savepoint.set_persistent s).
Proof.
  intros (Hv & Hi & Ht & Hr). unfold SerializedSavepoint.to_savepoint. cbn [SerializedSavepoint.data]. set (L := savepoint_parts s). get_part L 0%nat 0. rewrite Hv, Z.eqb_refl. cbn [rassert mbind outcome_bind].
  read_part L 1%nat (0 + 1). read_part L 2%nat (0 + 1 + 8). get_part L 3%nat (0 + 1 + 8 + 8). replace ((flag (Savepoint.user_root s) =? 0) || (flag (Savepoint.user_root s) =? 1)) with true by (by destruct (Savepoint.user_root s)). cbn [rassert mbind outcome_bind].
  assert (E1 : (if flag (Savepoint.user_root s) =? 1 then h ← slice (concat L) (0 + 1 + 8 + 8 + 1) (0 + 1 + 8 + 8 + 1 + BtreeHeader.serialized_size); h ← BtreeHeader.from_le_bytes h; Ret (Some h) else Ret None) = Ret (Savepoint.user_root s)).
  { read_part L 4%nat (0 + 1 + 8 + 8 + 1). destruct (Savepoint.user_root s) as [h|]; [|done]. cbn [flag root_bytes Z.eqb Pos.eqb]. by rewrite btree_header_roundtrip. }
  rewrite E1. cbn [mbind outcome_bind]. replace (_ =? vlen (concat L)) with true by (symmetry; apply Z.eqb_eq; part_offset L). cbn [rassert mbind outcome_bind]. rewrite !from_to_le_bytes by done.
  unfold Savepoint.set_persistent. rewrite Hv. by destruct s as [? [] ? ? ?].
Qed.

(** * The keys of the system tables *)

Lemma savepoint_id_laws : value_laws SavepointId (fun v => in_u 64 (savepoint_raw v)).
Proof.
  split; [by intros w [= <-]| |names]. intros v Hv. exists (to_le_bytes 8 (savepoint_raw v)). unfold encodes. cbn [Types.as_bytes Types.from_bytes savepoint_id_value fixed_width]. split; [done|].
  rewrite length_to_le_bytes, from_to_le_bytes by done. split; [by destruct v|]. split; [apply to_le_bytes_byte|]. intros w [= <-]. apply vlen_to_le_bytes.
Qed.
Lemma savepoint_id_key_laws : key_laws SavepointId (fun v => in_u 64 (savepoint_raw v)) (fun a b => Z.compare (savepoint_raw a) (savepoint_raw b)).
Proof.
  split; [apply (total_order_inj _ savepoint_raw total_order_Z); by intros [] [] [= ->]|]. intros v1 v2 d1 d2 H1 H2 <-%Ret_inj <-%Ret_inj. unfold compare, savepoint_id_key. cbn [Types.from_bytes savepoint_id_value]. by rewrite !length_to_le_bytes, !from_to_le_bytes.
Qed.

Definition paginated_ok (v : TransactionIdWithPagination) : Prop := in_u 64 (transaction_of v) /\ in_u 64 (pagination_id v).
Definition paginated_cmp (a b : TransactionIdWithPagination) : comparison :=
  match Z.compare (transaction_of a) (transaction_of b) with Eq => Z.compare (pagination_id a) (pagination_id b) | c => c end.
Lemma paginated_encodes v : paginated_ok v -> encodes v (to_le_bytes 8 (transaction_of v) ++ to_le_bytes 8 (pagination_id v)).
Proof.
  intros [Ht Hp]. unfold encodes. cbn [Types.as_bytes Types.from_bytes paginated_value fixed_width]. change (replicate 16 0) with (replicate 8 0 ++ replicate 8 0). rewrite splice_prefix by (by rewrite length_to_le_bytes). cbn [mbind outcome_bind].
  rewrite splice_suffix by (rewrite ?vlen_to_le_bytes, ?length_to_le_bytes; done). split; [done|]. rewrite slice_prefix by apply vlen_to_le_bytes. cbn [mbind outcome_bind]. rewrite slice_from_suffix by (by rewrite vlen_to_le_bytes). cbn [mbind outcome_bind]. rewrite length_to_le_bytes, !from_to_le_bytes by done.
  split; [by destruct v|]. split; [apply Forall_app; split; apply to_le_bytes_byte|]. intros w [= <-]. by rewrite vlen_app, !vlen_to_le_bytes.
Qed.
Lemma paginated_laws : value_laws TransactionIdWithPagination paginated_ok.
Proof. split; [by intros w [= <-]| |names]. intros v Hv. eexists. by apply paginated_encodes. Qed.
Lemma paginated_key_laws : key_laws TransactionIdWithPagination paginated_ok paginated_cmp.
Proof.
  split.
  - apply (total_order_inj _ (fun v => (transaction_of v, pagination_id v)) (total_order_pair _ _ total_order_Z total_order_Z)). by intros [] [] [= -> ->].
  - intros v1 v2 d1 d2 H1 H2 E1 E2. destruct (paginated_encodes v1 H1) as (F1 & G1 & _), (paginated_encodes v2 H2) as (F2 & G2 & _). rewrite E1 in F1. rewrite E2 in F2. apply Ret_inj in F1 as ->, F2 as ->.
    unfold compare, paginated_key. rewrite G1, G2. cbn [mbind outcome_bind]. unfold paginated_cmp. by destruct (transaction_of v1 ?= transaction_of v2).
Qed.

Definition state_key_ok (k : AllocatorStateKey.t) : Prop := match k with AllocatorStateKey.Region r => in_u 32 r | _ => True end.
Lemma state_key_encodes k : state_key_ok k -> exists d, encodes k d.
Proof.
  intros Hk. unfold encodes. cbn [Types.as_bytes Types.from_bytes allocator_state_value fixed_width]. destruct k as [|r| |]; cbn [state_key_ok] in Hk.
  - eexists. split; [done|]. split; [done|]. split; [by repeat constructor|by intros w [= <-]].
  - exists (3 :: to_le_bytes 4 r). split; [|split; [|split; [constructor; [done|apply to_le_bytes_byte]|intros w [= <-]; unfold vlen; cbn [length]; by rewrite length_to_le_bytes]]].
    + change (splice ([3] ++ replicate 4 0) 1 (to_le_bytes 4 r) = Ret ([3] ++ to_le_bytes 4 r)). by apply splice_suffix; [|rewrite length_to_le_bytes].
    + unfold AllocatorStateKey.from_bytes. change (vget (3 :: to_le_bytes 4 r) 0) with (Ret 3). cbn [mbind outcome_bind Z.leb Z.compare Pos.compare Pos.compare_cont andb Z.eqb Pos.eqb]. change (3 :: to_le_bytes 4 r) with ([3] ++ to_le_bytes 4 r).
      rewrite slice_from_suffix by done. cbn [mbind outcome_bind]. by rewrite length_to_le_bytes, from_to_le_bytes.
  - eexists. split; [done|]. split; [done|]. split; [by repeat constructor|by intros w [= <-]].
  - eexists. split; [done|]. split; [done|]. split; [by repeat constructor|by intros w [= <-]].
Qed.
Lemma state_key_laws : value_laws AllocatorStateKey.t state_key_ok.
Proof. split; [by intros w [= <-]|apply state_key_encodes|names]. Qed.
Lemma state_key_order : total_order AllocatorStateKey.cmp.
Proof.
  split.
  - intros [|r| |] [|s| |]; cbn; try done. rewrite Z.compare_eq_iff. split; [by intros ->|by intros [= ->]].
  - intros [|r| |] [|s| |]; cbn; try done. apply Z.compare_antisym.
  - intros [|r| |] [|s| |] [|u| |]; cbn; try done. rewrite !Z.compare_lt_iff. lia.
Qed.
Lemma state_key_key_laws : key_laws AllocatorStateKey.t state_key_ok AllocatorStateKey.cmp.
Proof.
  split; [apply state_key_order|]. intros v1 v2 d1 d2 H1 H2 E1 E2. destruct (state_key_encodes v1 H1) as (e1 & F1 & G1 & _), (state_key_encodes v2 H2) as (e2 & F2 & G2 & _). rewrite E1 in F1. rewrite E2 in F2. apply Ret_inj in F1 as ->, F2 as ->.
  unfold compare, allocator_state_key. by rewrite G1, G2.
Qed.

(** * Page lists *)

(** The list holds the pages [ps]. *)
Definition page_list (l : PageList.t) (ps : list PageNumber.t) : Prop :=
  exists slack, PageList.data l = to_le_bytes 2 (vlen ps) ++ concat (map PageNumber.to_bytes ps) ++ slack /\ vlen ps < 2 ^ 16.
Lemma vlen_pages ps : vlen (concat (map PageNumber.to_bytes ps)) = PageNumber.serialized_size * vlen ps.
Proof. rewrite (vlen_concat_chunks PageNumber.to_bytes 8) by apply length_page_bytes. unfold PageNumber.serialized_size. lia. Qed.
Lemma page_list_len l ps : page_list l ps -> PageList.len l = Ret (vlen ps).
Proof.
  intros (slack & E & Hn). unfold PageList.len. rewrite E, slice_prefix by apply vlen_to_le_bytes. cbn [mbind outcome_bind]. rewrite from_to_le_bytes; [done|]. split; [apply vlen_nonneg|done].
Qed.
Lemma page_list_get l ps i p : page_list l ps -> Forall encodable ps -> ps !! i = Some p -> PageList.get l (Z.of_nat i) = Ret p.
Proof.
  intros (slack & E & Hn) Hp Hi. unfold PageList.get. rewrite E. pose proof (slice_chunk PageNumber.to_bytes 8 (to_le_bytes 2 (vlen ps)) ps slack i p length_page_bytes Hi) as Hs. rewrite vlen_to_le_bytes in Hs.
  change (Z.of_nat 2) with 2 in Hs. change (Z.of_nat 8) with PageNumber.serialized_size in Hs. rewrite (Z.mul_comm (Z.of_nat i)) in Hs. rewrite Hs. cbn [mbind outcome_bind]. rewrite encodable_roundtrip; [done|]. rewrite Forall_forall in Hp. apply Hp. by eapply list_elem_of_lookup_2.
Qed.
Lemma page_list_new data : 8 <= vlen data -> exists d, PageList.initialize data = Ret d /\ page_list (PageList.List d) [] /\ vlen d = vlen data.
Proof.
  intros Hl. destruct (split_list data 8 (length data - 8)) as (a & b & -> & Ha & _); [unfold vlen in Hl; lia|]. unfold PageList.initialize. rewrite (proj2 (Z.leb_le _ _)) by done. cbn [rassert mbind outcome_bind].
  rewrite splice_prefix by (by rewrite Ha). eexists. split; [done|]. split; [by exists (replicate 6 0 ++ b)|]. rewrite !vlen_app. unfold vlen. by rewrite Ha.
Qed.
Lemma page_list_clear l ps : page_list l ps -> exists l', PageList.clear l = Ret l' /\ page_list l' [] /\ vlen (PageList.data l') = vlen (PageList.data l).
Proof.
  intros (slack & E & Hn). unfold PageList.clear. rewrite E, splice_prefix by (by rewrite length_to_le_bytes). eexists. split; [done|]. split; [by eexists|]. cbn [PageList.data]. by rewrite !vlen_app, vlen_to_le_bytes.
Qed.
Lemma page_list_push l ps p : page_list l ps -> vlen ps + 1 < 2 ^ 16 -> PageList.required_bytes (vlen ps + 1) <= vlen (PageList.data l) ->
  exists l', PageList.push_back l p = Ret l' /\ page_list l' (ps ++ [p]) /\ vlen (PageList.data l') = vlen (PageList.data l).
Proof.
  intros (slack & E & Hn) Hn1 Hroom. unfold PageList.push_back, PageList.required_bytes in *. rewrite E in Hroom |- *. rewrite !vlen_app, vlen_to_le_bytes, vlen_pages in Hroom.
  rewrite slice_prefix by apply vlen_to_le_bytes. cbn [mbind outcome_bind]. rewrite from_to_le_bytes by (split; [apply vlen_nonneg|done]). rewrite uadd_ok by lia. cbn [mbind outcome_bind]. rewrite splice_prefix by (by rewrite !length_to_le_bytes). cbn [mbind outcome_bind].
  destruct (split_list slack 8 (length slack - 8)) as (a & b & -> & Ha & _); [unfold vlen, PageNumber.serialized_size in *; lia|]. rewrite app_assoc, splice_middle by (rewrite ?vlen_app, ?vlen_to_le_bytes, ?vlen_pages, ?Ha, ?length_page_bytes; done).
  eexists. split; [done|]. split.
  - exists b. rewrite vlen_app, map_app, concat_app. cbn [PageList.data map concat]. rewrite app_nil_r, <-!app_assoc. done.
  - cbn [PageList.data]. rewrite !vlen_app, !vlen_to_le_bytes. unfold vlen. rewrite Ha, length_page_bytes. lia.
Qed.
Fixpoint push_all (l : PageList.t) (ps : list PageNumber.t) : outcome PageList.t :=
  match ps with [] => Ret l | p :: ps => l ← PageList.push_back l p; push_all l ps end.
Lemma pages_pushed ps : forall l qs, page_list l qs -> vlen (qs ++ ps) < 2 ^ 16 -> PageList.required_bytes (vlen (qs ++ ps)) <= vlen (PageList.data l) -> exists l', push_all l ps = Ret l' /\ page_list l' (qs ++ ps).
Proof.
  induction ps as [|p ps IH]; intros l qs Hl Hn Hroom; cbn [push_all]; [exists l; by rewrite app_nil_r|]. rewrite vlen_app in Hn, Hroom. pose proof (vlen_nonneg ps).
  assert (E : vlen (p :: ps) = 1 + vlen ps) by (unfold vlen; cbn [length]; lia). rewrite E in Hn, Hroom. unfold PageList.required_bytes, PageNumber.serialized_size in *.
  destruct (page_list_push l qs p Hl) as (l1 & E1 & Hl1 & Hlen); [lia|unfold PageList.required_bytes, PageNumber.serialized_size; lia|]. rewrite E1. cbn [mbind outcome_bind].
  destruct (IH l1 (qs ++ [p]) Hl1) as (l2 & E2 & Hl2); [rewrite <-app_assoc, vlen_app; cbn [app]; lia|rewrite <-app_assoc, vlen_app; cbn [app]; rewrite Hlen; lia|]. exists l2. split; [done|]. by rewrite <-app_assoc in Hl2.
Qed.

(** The types of keys of the system tables *)
Inductive system_key : forall (T : Type) (V : Value T), Key T -> (T -> Prop) -> (T -> T -> comparison) -> Prop :=
  | savepoint_keys : system_key SavepointId _ _ (fun v => in_u 64 (savepoint_raw v)) (fun a b => Z.compare (savepoint_raw a) (savepoint_raw b))
  | pagination_keys : system_key TransactionIdWithPagination _ _ paginated_ok paginated_cmp
  | allocator_keys : system_key AllocatorStateKey.t _ _ state_key_ok AllocatorStateKey.cmp.
Lemma system_key_laws T V K valid cmp : system_key T V K valid cmp -> value_laws T valid /\ key_laws T valid cmp.
Proof.
  intros []; split; auto using savepoint_id_laws, savepoint_id_key_laws, paginated_laws, paginated_key_laws, state_key_laws, state_key_key_laws.
Qed.

(** * Properties *)

(** C21. The definition of a table is encoded without a panic and its encoding, a list
    of bytes, reads back as the definition.  Another root or length changes neither
    this nor the length of the encoding, so that the definition can be replaced in
    place. *)
Theorem table_definition_stored d root length : definition_ok d -> root_ok root -> in_u 64 length ->
  exists b b', InternalTableDefinition.as_bytes d = Ret b /\ InternalTableDefinition.from_bytes b = Ret d /\ Forall byte b /\
    InternalTableDefinition.as_bytes (set_header d root length) = Ret b' /\ InternalTableDefinition.from_bytes b' = Ret (set_header d root length) /\ vlen b' = vlen b.
Proof.
  intros Hd Hr Hl. assert (Hd' : definition_ok (set_header d root length)) by (destruct Hd as (_ & _ & H1 & H2 & H3 & H4 & H5); destruct d; done).
  exists (concat (definition_parts d)), (concat (definition_parts (set_header d root length))). split; [by apply definition_as_bytes|]. split; [by apply definition_from_bytes|]. split; [by apply definition_byte|]. split; [by apply definition_as_bytes|]. split; [by apply definition_from_bytes|].
  rewrite !definition_len. by destruct d.
Qed.

(** Opening a table with types of keys and values succeeds if and only if its
    definition is the one that creating a table with these types stores, with
    whatever root and length: kind of table, type names, widths and alignments are
    all compared. *)
Theorem table_opens_as_created K V `{Value K} `{Value V} d table_type name :
  check_match K V d table_type name = Okay tt <-> d = new K V table_type (get_root d) (get_length d).
Proof.
  unfold check_match, check_match_untyped. split.
  - intros Hm. destruct (bool_decide_reflect (get_type d ≠ table_type)) as [|Ht]; [by case_bool_decide|]. destruct (Z.eqb_spec (key_alignment (get d)) ALIGNMENT) as [Hk|]; [|done]. destruct (Z.eqb_spec (value_alignment (get d)) ALIGNMENT) as [Hv|]; [|done]. cbn [negb] in Hm.
    case_bool_decide as H1; [done|]. case_bool_decide as H2; [done|]. cbn [orb] in Hm. case_bool_decide as H3; [done|]. case_bool_decide as H4; [done|]. apply dec_stable in Ht.
    destruct d as [[]|[]]; cbn [get get_type key_alignment value_alignment key_type value_type fixed_key_size fixed_value_size] in *; by subst.
  - intros ->. destruct table_type; cbn [get get_type new of_type key_alignment value_alignment key_type value_type fixed_key_size fixed_value_size]; rewrite !Z.eqb_refl; cbn [negb]; rewrite !bool_decide_false by auto; done.
Qed.

(** C22. The keys of the system tables (savepoints, freed and allocated pages, the state of
    the allocators) read back from their encodings, and the order of the encodings is
    the total order of the keys, which is what the B-trees rely on. *)
Theorem system_keys_ordered T V K valid cmp : system_key T V K valid cmp ->
  (forall v, valid v -> exists d, encodes v d) /\ ByteOrder (compare T) (encoding (validT := valid)) (encoding_cmp (cmpT := cmp)).
Proof. intros Hs. destruct (system_key_laws _ _ _ _ _ Hs) as [L KL]. split; [apply L|by apply laws_byte_order]. Qed.

(** A savepoint is written in 50 bytes that read back as the savepoint, which is then
    a persistent one. *)
Theorem savepoint_stored s : savepoint_ok s ->
  exists b, SerializedSavepoint.from_savepoint s = Ret b /\ SerializedSavepoint.to_savepoint b = Ret (Savepoint.set_persistent s) /\ vlen (SerializedSavepoint.data b) = 50.
Proof.
  intros Hs. eexists. split; [by apply savepoint_write|]. split; [by apply savepoint_read|]. cbn [SerializedSavepoint.data]. set (L := savepoint_parts s). part_offset L.
Qed.

(** A buffer of the bytes that [required_bytes] asks for, initialized as a page list,
    takes as many pages as were asked for, and reads back as exactly these pages. *)
Theorem page_list_filled buffer ps : ps ≠ [] -> vlen ps < 2 ^ 16 -> Forall encodable ps -> vlen buffer = PageList.required_bytes (vlen ps) ->
  exists l, (d ← PageList.initialize buffer; push_all (PageList.List d) ps) = Ret l /\ PageList.len l = Ret (vlen ps) /\ forall i p, ps !! i = Some p -> PageList.get l (Z.of_nat i) = Ret p.
Proof.
  intros Hne Hn Hp Hb. destruct (page_list_new buffer) as (d & E & Hd & Hlen); [rewrite Hb; unfold PageList.required_bytes, PageNumber.serialized_size, vlen; destruct ps; [done|cbn [length]; lia]|]. rewrite E. cbn [mbind outcome_bind].
  destruct (pages_pushed ps (PageList.List d) [] Hd Hn) as (l & El & Hl); [cbn [app PageList.data]; by rewrite Hlen, Hb|]. exists l. split; [done|]. split; [by apply page_list_len|]. intros i p. by apply page_list_get.
Qed.

Definition demo_definition : t := InternalTableDefinition.Multimap (mk None 0 None (Some 5) 6 7 (TypeName.new (ascii "test::Key")) (TypeName.new (ascii "test::Value"))).
Definition demo_header : BtreeHeader.t := BtreeHeader.mk (PageNumber.mk 0 1 0) 5 7.
Lemma demo_root_ok : root_ok (Some demo_header).
Proof. cbn. unfold btree_header_ok, encodable, in_u. by split_and!. Qed.
Lemma table_definition_stored_witness : exists b b', InternalTableDefinition.as_bytes demo_definition = Ret b /\ InternalTableDefinition.from_bytes b = Ret demo_definition /\ Forall byte b /\
  InternalTableDefinition.as_bytes (set_header demo_definition (Some demo_header) 3) = Ret b' /\ InternalTableDefinition.from_bytes b' = Ret (set_header demo_definition (Some demo_header) 3) /\ vlen b' = vlen b.
Proof.
  apply table_definition_stored; [|apply demo_root_ok|unfold in_u; lia]. unfold definition_ok, in_u. cbn [demo_definition get table_root table_length fixed_key_size fixed_value_size key_alignment value_alignment key_type value_type root_ok width_ok]. unfold in_u.
  split; [exact I|]. split; [lia|]. split; [exact I|]. split; [lia|]. split; [lia|]. split; [lia|]. split; [split; [reflexivity|]; repeat constructor; done|]. split; [split; [reflexivity|]; repeat constructor; done|]. reflexivity.
Defined.
Lemma system_keys_ordered_witness : exists d, encodes (savepoint_id 7) d /\ ByteOrder (compare SavepointId) (encoding (validT := fun v => in_u 64 (savepoint_raw v))) (encoding_cmp (cmpT := fun a b => Z.compare (savepoint_raw a) (savepoint_raw b))).
Proof.
  destruct (system_keys_ordered _ _ _ _ _ savepoint_keys) as [He HB]. destruct (He (savepoint_id 7)) as [d Hd]; [unfold in_u; cbn; lia|]. exists d. exact (conj Hd HB).
Defined.
Lemma savepoint_stored_witness : exists b, SerializedSavepoint.from_savepoint (Savepoint.new_ephemeral 3 (savepoint_id 1) 9 (Some demo_header)) = Ret b /\
  SerializedSavepoint.to_savepoint b = Ret (Savepoint.mk 3 (savepoint_id 1) 9 (Some demo_header) false) /\ vlen (SerializedSavepoint.data b) = 50.
Proof.
  apply (savepoint_stored (Savepoint.new_ephemeral 3 (savepoint_id 1) 9 (Some demo_header))). unfold savepoint_ok, in_u. cbn [Savepoint.new_ephemeral Savepoint.version Savepoint.id Savepoint.transaction Savepoint.user_root savepoint_raw].
  split; [reflexivity|]. split; [lia|]. split; [lia|]. apply demo_root_ok.
Defined.
Lemma page_list_filled_witness : exists l, (d ← PageList.initialize (replicate 18 255); push_all (PageList.List d) [PageNumber.mk 0 1 0; PageNumber.mk 1 4 2]) = Ret l /\ PageList.len l = Ret 2 /\
  PageList.get l 1 = Ret (PageNumber.mk 1 4 2).
Proof.
  destruct (page_list_filled (replicate 18 255) [PageNumber.mk 0 1 0; PageNumber.mk 1 4 2]) as (l & E & Hl & Hg); [discriminate|reflexivity| |reflexivity|].
  - repeat constructor; done.
  - exists l. split; [exact E|]. split; [exact Hl|]. exact (Hg 1%nat _ eq_refl).
Defined.
