(* ===== verification/Leaf.v ===== *)
(** Leaf pages: reading them ([LeafAccessor]), writing them ([RawLeafBuilder],
    [LeafBuilder]) and changing them in place ([LeafMutator])
    (src/src/tree_store/btree_base.rs).

    A page is the list of its bytes.  The sums and products of [usize] values
    below are offsets into a page plus at most a few lengths of slices, which
    no build overflows; they are plain here.  Subtractions, conversions to
    narrower integers, slices and [unwrap] are checked. *)
From S2P Require Import Prelude.

(** * Model *)

Definition LEAF : Z := 1.

(** A computation of an [Option], with the [?] operator *)
Definition try_some {A B} (c : outcome (option A)) (k : A -> outcome (option B)) : outcome (option B) :=
  match c with Ret (Some a) => k a | Ret None => Ret None | Panic => Panic end.
Notation "x ⇐ c ; k" := (try_some c (fun x => k)) (at level 20, c at level 100, k at level 200, right associativity).
(** [.unwrap()] on such a computation *)
Definition expect {A} (c : outcome (option A)) : outcome A := o ← c; unwrap o.
(** [.unwrap_or(d)] *)
Definition unwrap_or {A} (c : outcome (option A)) (d : A) : outcome A := o ← c; Ret (default d o).
(** [page.get(a..b)] *)
Definition get_range (page : list Z) (a b : Z) : option (list Z) :=
  match slice page a b with Ret d => Some d | Panic => None end.
(** [page.copy_within(a..b, dest)] *)
Definition copy_within (page : list Z) (a b dest : Z) : outcome (list Z) :=
  d ← slice page a b; splice page dest d.
(** [usize::midpoint] *)
Definition midpoint (a b : Z) : Z := (a + b) / 2.
(** The first loop over [start..end] of a computation on the page *)
Definition range_loop (start end_ : Z) (body : Z -> list Z -> outcome (list Z)) (page : list Z) : outcome (list Z) :=
  for_each body (seqZ start (end_ - start)) page.

(** ** Reading *)

Module LeafAccessor.

Record t := mk { page : list Z; fixed_key_size : option Z; fixed_value_size : option Z; num_pairs : Z }.

Definition new (page : list Z) (fixed_key_size fixed_value_size : option Z) : outcome t :=
  b ← vget page 0;
  _ ← rassert (b =? LEAF);
  d ← slice page 2 4;
  Ret (mk page fixed_key_size fixed_value_size (from_le_bytes d)).

Definition key_section_start (a : t) : Z :=
  let offset := 4 in
  let offset := match fixed_key_size a with None => offset + 4 * num_pairs a | Some _ => offset end in
  match fixed_value_size a with None => offset + 4 * num_pairs a | Some _ => offset end.

Definition key_end (a : t) (n : Z) : outcome (option Z) :=
  if num_pairs a <=? n then Ret None
  else match fixed_key_size a with
  | Some fixed => Ret (Some (key_section_start a + fixed * (n + 1)))
  | None =>
      let offset := 4 + 4 * n in
      d ⇐ Ret (get_range (page a) offset (offset + 4));
      Ret (Some (from_le_bytes d))
  end.

Definition key_start (a : t) (n : Z) : outcome (option Z) :=
  if n =? 0 then Ret (Some (key_section_start a))
  else m ← usub n 1; key_end a m.

Definition value_end (a : t) (n : Z) : outcome (option Z) :=
  if num_pairs a <=? n then Ret None
  else match fixed_value_size a with
  | Some fixed =>
      last ⇐ Ret (if 1 <=? num_pairs a then Some (num_pairs a - 1) else None);
      e ⇐ key_end a last;
      Ret (Some (e + fixed * (n + 1)))
  | None =>
      let offset := 4 + 4 * n in
      let offset := match fixed_key_size a with None => offset + 4 * num_pairs a | Some _ => offset end in
      d ⇐ Ret (get_range (page a) offset (offset + 4));
      Ret (Some (from_le_bytes d))
  end.

Definition value_start (a : t) (n : Z) : outcome (option Z) :=
  if n =? 0 then m ← usub (num_pairs a) 1; key_end a m
  else m ← usub n 1; value_end a m.

Definition offset_of_value (a : t) (n : Z) : outcome (option Z) := value_start a n.
Definition offset_of_first_value (a : t) : outcome Z := expect (offset_of_value a 0).
Definition value_range (a : t) (n : Z) : outcome (option (Z * Z)) :=
  s ⇐ value_start a n; e ⇐ value_end a n; Ret (Some (s, e)).

Definition length_of_values (a : t) (start end_ : Z) : outcome Z :=
  if end_ =? 0 then Ret 0
  else
    m ← usub end_ 1;
    end_offset ← expect (value_end a m);
    start_offset ← expect (value_start a start);
    usub end_offset start_offset.
Definition length_of_keys (a : t) (start end_ : Z) : outcome Z :=
  if end_ =? 0 then Ret 0
  else
    m ← usub end_ 1;
    end_offset ← expect (key_end a m);
    start_offset ← expect (key_start a start);
    usub end_offset start_offset.
Definition length_of_pairs (a : t) (start end_ : Z) : outcome Z :=
  v ← length_of_values a start end_; k ← length_of_keys a start end_; Ret (v + k).
Definition total_length (a : t) : outcome Z :=
  m ← usub (num_pairs a) 1; expect (value_end a m).

Definition key_unchecked (a : t) (n : Z) : outcome (list Z) :=
  s ← expect (key_start a n); e ← expect (key_end a n); slice (page a) s e.

(** The key and the value *)
Definition entry (a : t) (n : Z) : outcome (option (list Z * list Z)) :=
  ks ⇐ key_start a n;
  ke ⇐ key_end a n;
  key ← slice (page a) ks ke;
  vs ⇐ value_start a n;
  ve ⇐ value_end a n;
  value ← slice (page a) vs ve;
  Ret (Some (key, value)).
(** The ranges of the key and of the value *)
Definition entry_ranges (a : t) (n : Z) : outcome (option ((Z * Z) * (Z * Z))) :=
  ks ⇐ key_start a n;
  ke ⇐ key_end a n;
  vs ⇐ value_start a n;
  ve ⇐ value_end a n;
  Ret (Some ((ks, ke), (vs, ve))).
Definition last_entry (a : t) : outcome (list Z * list Z) :=
  m ← usub (num_pairs a) 1; expect (entry a m).

(** The binary search of [position]; each round shrinks the range, so that
    [num_pairs] rounds are enough *)
Fixpoint search (compare : list Z -> list Z -> outcome comparison) (a : t) (query : list Z)
    (fuel : nat) (min_entry max_entry : Z) : outcome (Z * bool) :=
  match fuel with
  | O => Panic
  | S f =>
      if min_entry <? max_entry then
        let mid := midpoint min_entry max_entry in
        key ← key_unchecked a mid;
        c ← compare query key;
        match c with
        | Lt => search compare a query f min_entry mid
        | Eq => Ret (mid, true)
        | Gt => search compare a query f (mid + 1) max_entry
        end
      else
        _ ← rassert (min_entry =? max_entry);
        Ret (min_entry, false)
  end.
Definition position (compare : list Z -> list Z -> outcome comparison) (a : t) (query : list Z) : outcome (Z * bool) :=
  search compare a query (S (Z.to_nat (num_pairs a))) 0 (num_pairs a).
Definition find_key (compare : list Z -> list Z -> outcome comparison) (a : t) (query : list Z) : outcome (option Z) :=
  '(entry, found) ← position compare a query;
  Ret (if (found : bool) then Some entry else None).

End LeafAccessor.

(** ** Writing *)

Module RawLeafBuilder.

Record t := mk {
  page : list Z; fixed_key_size : option Z; fixed_value_size : option Z; num_pairs : Z;
  provisioned_key_bytes : Z; pairs_written : Z }.

Definition required_bytes (num_pairs keys_values_bytes : Z) (key_size value_size : option Z) : Z :=
  let result := 4 in
  let result := match key_size with None => result + num_pairs * 4 | Some _ => result end in
  let result := match value_size with None => result + num_pairs * 4 | Some _ => result end in
  result + keys_values_bytes.

Definition new (page : list Z) (num_pairs : Z) (fixed_key_size fixed_value_size : option Z) (key_bytes : Z) : outcome t :=
  page ← vset page 0 LEAF;
  n ← utry 16 num_pairs;
  page ← splice page 2 (to_le_bytes 2 n);
  (* Poison the key & value offsets *)
  let last := 4 in
  let last := match fixed_key_size with None => last + 4 * num_pairs | Some _ => last end in
  let last := match fixed_value_size with None => last + 4 * num_pairs | Some _ => last end in
  page ← splice page 4 (replicate (Z.to_nat (last - 4)) 255);
  Ret (mk page fixed_key_size fixed_value_size num_pairs key_bytes 0).

Definition key_section_start (b : t) : Z :=
  let offset := 4 in
  let offset := match fixed_key_size b with None => offset + 4 * num_pairs b | Some _ => offset end in
  match fixed_value_size b with None => offset + 4 * num_pairs b | Some _ => offset end.

Definition value_end (b : t) (n : Z) : outcome Z :=
  match fixed_value_size b with
  | Some fixed => Ret (key_section_start b + provisioned_key_bytes b + fixed * (n + 1))
  | None =>
      let offset := 4 + 4 * n in
      let offset := match fixed_key_size b with None => offset + 4 * num_pairs b | Some _ => offset end in
      d ← slice (page b) offset (offset + 4);
      Ret (from_le_bytes d)
  end.

Definition key_end (b : t) (n : Z) : outcome Z :=
  match fixed_key_size b with
  | Some fixed => Ret (key_section_start b + fixed * (n + 1))
  | None =>
      let offset := 4 + 4 * n in
      d ← slice (page b) offset (offset + 4);
      Ret (from_le_bytes d)
  end.

Definition append (b : t) (key value : list Z) : outcome t :=
  _ ← rassert (match fixed_key_size b with Some key_width => key_width =? vlen key | None => true end);
  _ ← rassert (match fixed_value_size b with Some value_width => value_width =? vlen value | None => true end);
  key_offset ← (if pairs_written b =? 0 then Ret (key_section_start b)
                else m ← usub (pairs_written b) 1; key_end b m);
  value_offset ← (if pairs_written b =? 0 then Ret (key_section_start b + provisioned_key_bytes b)
                  else m ← usub (pairs_written b) 1; value_end b m);
  let n := pairs_written b in
  page ← match fixed_key_size b with
    | None => e ← utry 32 (key_offset + vlen key); splice (page b) (4 + 4 * n) (to_le_bytes 4 e)
    | Some _ => Ret (page b)
    end;
  page ← splice page key_offset key;
  written_key_len ← usub (key_offset + vlen key) (key_section_start b);
  _ ← rassert (written_key_len <=? provisioned_key_bytes b);
  page ← match fixed_value_size b with
    | None =>
        let offset := 4 + 4 * n in
        let offset := match fixed_key_size b with None => offset + 4 * num_pairs b | Some _ => offset end in
        e ← utry 32 (value_offset + vlen value);
        splice page offset (to_le_bytes 4 e)
    | Some _ => Ret page
    end;
  page ← splice page value_offset value;
  Ret (mk page (fixed_key_size b) (fixed_value_size b) (num_pairs b) (provisioned_key_bytes b) (n + 1)).

(** The checks of [drop]; the page is then what was borrowed *)
Definition drop (b : t) : outcome (list Z) :=
  _ ← rassert (pairs_written b =? num_pairs b);
  m ← usub (num_pairs b) 1;
  e ← key_end b m;
  _ ← rassert (key_section_start b + provisioned_key_bytes b =? e);
  Ret (page b).

End RawLeafBuilder.

(** ** Changing in place *)

Module LeafMutator.

(** The checks of [new]; the mutator borrows the page *)
Definition new (page : list Z) : outcome (list Z) :=
  b ← vget page 0; _ ← rassert (b =? LEAF); Ret page.

Section widths.
  Context (fixed_key_size fixed_value_size : option Z).

Definition key_ptr_size : Z := match fixed_key_size with None => 4 | Some _ => 0 end.
Definition value_ptr_size : Z := match fixed_value_size with None => 4 | Some _ => 0 end.
Definition accessor (page : list Z) : outcome LeafAccessor.t := LeafAccessor.new page fixed_key_size fixed_value_size.

(** [.map(|(s, e)| e - s).unwrap_or_default()] on [value_range] *)
Definition value_len (a : LeafAccessor.t) (i : Z) : outcome Z :=
  r ← LeafAccessor.value_range a i;
  match r with Some (s, e) => usub e s | None => Ret 0 end.

Definition sufficient_replace_inplace_space (page : list Z) (position : Z) (new_value : list Z) : outcome bool :=
  a ← accessor page;
  total ← LeafAccessor.total_length a;
  remaining ← usub (vlen page) total;
  existing_value_len ← value_len a position;
  new_len ← utry 63 (vlen new_value);
  existing ← utry 63 existing_value_len;
  let required_delta := new_len - existing in
  t ← usub total existing_value_len;
  let new_total_length := t + vlen new_value in
  if umax 32 <? new_total_length then Ret false
  else r ← utry 63 remaining; Ret (required_delta <=? r).

Definition sufficient_insert_inplace_space (page : list Z) (page_order position : Z) (new_key new_value : list Z) : outcome bool :=
  a ← accessor page;
  if umax 16 <=? LeafAccessor.num_pairs a then Ret false
  else if (0 <? page_order) && (position <? LeafAccessor.num_pairs a) then Ret false
  else
    total ← LeafAccessor.total_length a;
    remaining ← usub (vlen page) total;
    let required_delta := vlen new_key + vlen new_value + key_ptr_size + value_ptr_size in
    if umax 32 <? total + required_delta then Ret false
    else Ret (required_delta <=? remaining).

(** Adds [delta] to the [u32] at [offset] *)
Definition update_ptr (page : list Z) (offset delta : Z) : outcome (list Z) :=
  d ← slice page offset (offset + 4);
  ptr ← utry 63 (from_le_bytes d);
  ptr ← utry 32 (ptr + delta);
  splice page offset (to_le_bytes 4 ptr).

Definition update_key_end (page : list Z) (i delta : Z) : outcome (list Z) :=
  match fixed_key_size with
  | Some _ => Ret page
  | None => update_ptr page (4 + 4 * i) delta
  end.

Definition update_value_end (page : list Z) (i delta : Z) : outcome (list Z) :=
  match fixed_value_size with
  | Some _ => Ret page
  | None =>
      a ← accessor page;
      let offset := 4 + 4 * i in
      let offset := match fixed_key_size with None => offset + 4 * LeafAccessor.num_pairs a | Some _ => offset end in
      update_ptr page offset delta
  end.

Definition replace (page : list Z) (i : Z) (value : list Z) : outcome (list Z) :=
  a ← accessor page;
  let num_pairs := LeafAccessor.num_pairs a in
  m ← usub num_pairs 1;
  last_value_end ← expect (LeafAccessor.value_end a m);
  shift_value_start ← unwrap_or (LeafAccessor.value_start a (i + 1)) last_value_end;
  existing_value_len ← value_len a i;
  new_len ← utry 63 (vlen value);
  existing ← utry 63 existing_value_len;
  let value_delta := new_len - existing in
  total ← LeafAccessor.total_length a;
  total ← utry 63 total;
  len ← utry 63 (vlen page);
  _ ← rassert (total + value_delta <=? len);
  page ← range_loop i num_pairs (fun j page => update_value_end page j value_delta) page;
  start ← utry 63 shift_value_start;
  dest ← utry 64 (start + value_delta);
  page ← copy_within page shift_value_start last_value_end dest;
  dest ← usub dest (vlen value);
  splice page dest value.

(** The pointer updates of [insert] before the index and from it on *)
Definition insert_update_before (key : list Z) (j : Z) (page : list Z) : outcome (list Z) :=
  kd ← utry 63 (key_ptr_size + value_ptr_size);
  page ← update_key_end page j kd;
  value_delta ← utry 63 (key_ptr_size + value_ptr_size + vlen key);
  update_value_end page j value_delta.
Definition insert_update_after (key value : list Z) (j : Z) (page : list Z) : outcome (list Z) :=
  key_delta ← utry 63 (key_ptr_size + value_ptr_size + vlen key);
  page ← update_key_end page j key_delta;
  vl ← utry 63 (vlen value);
  update_value_end page j (key_delta + vl).

(** The write of a key or value pointer before [dest], if there are such pointers *)
Definition insert_pointer (fixed_size : option Z) (page : list Z) (dest inserted_end : Z) : outcome (list Z * Z) :=
  match fixed_size with
  | None => dest ← usub dest 4; page ← splice page dest (to_le_bytes 4 inserted_end); Ret (page, dest)
  | Some _ => Ret (page, dest)
  end.

(** The moves of [insert], from the last part of the page to the first *)
Definition insert_data (page : list Z) (num_pairs i shift_key_start shift_value_start last_value_end : Z)
    (key value : list Z) : outcome (list Z) :=
  (* Right shift the trailing values *)
  let dest := shift_value_start + key_ptr_size + value_ptr_size + vlen key + vlen value in
  page ← copy_within page shift_value_start last_value_end dest;
  (* Insert the value *)
  inserted_value_end ← utry 32 dest;
  dest ← usub dest (vlen value);
  page ← splice page dest value;
  (* Right shift the trailing key data & preceding value data *)
  d ← usub shift_value_start shift_key_start;
  dest ← usub dest d;
  page ← copy_within page shift_key_start shift_value_start dest;
  (* Insert the key *)
  inserted_key_end ← utry 32 dest;
  dest ← usub dest (vlen key);
  page ← splice page dest key;
  (* Right shift the trailing value pointers & preceding key data *)
  let start := 4 + key_ptr_size * num_pairs + value_ptr_size * i in
  d ← usub shift_key_start start;
  dest ← usub dest d;
  _ ← rassert (dest =? 4 + key_ptr_size * (num_pairs + 1) + value_ptr_size * (i + 1));
  page ← copy_within page start shift_key_start dest;
  (* Insert the value pointer *)
  '(page, dest) ← insert_pointer fixed_value_size page dest inserted_value_end;
  (* Right shift the trailing key pointers & preceding value pointers *)
  let start := 4 + key_ptr_size * i in
  let end_ := 4 + key_ptr_size * num_pairs + value_ptr_size * i in
  d ← usub end_ start;
  dest ← usub dest d;
  _ ← rassert (dest =? 4 + key_ptr_size * (i + 1));
  page ← copy_within page start end_ dest;
  (* Insert the key pointer *)
  '(page, dest) ← insert_pointer fixed_key_size page dest inserted_key_end;
  _ ← rassert (dest =? 4 + key_ptr_size * i);
  Ret page.

Definition insert (page : list Z) (i : Z) (key value : list Z) : outcome (list Z) :=
  a ← accessor page;
  required_delta ← utry 63 (vlen key + vlen value + key_ptr_size + value_ptr_size);
  total ← LeafAccessor.total_length a;
  total ← utry 63 total;
  len ← utry 63 (vlen page);
  _ ← rassert (total + required_delta <=? len);
  let num_pairs := LeafAccessor.num_pairs a in
  m ← usub num_pairs 1;
  last_key_end ← expect (LeafAccessor.key_end a m);
  last_value_end ← expect (LeafAccessor.value_end a m);
  shift_key_start ← unwrap_or (LeafAccessor.key_start a i) last_key_end;
  shift_value_start ← unwrap_or (LeafAccessor.value_start a i) last_value_end;
  page ← range_loop 0 i (insert_update_before key) page;
  page ← range_loop i num_pairs (insert_update_after key value) page;
  let new_num_pairs := num_pairs + 1 in
  n ← utry 16 new_num_pairs;
  page ← splice page 2 (to_le_bytes 2 n);
  insert_data page num_pairs i shift_key_start shift_value_start last_value_end key value.

(** The pointer updates of [remove] before the index and after it *)
Definition remove_update_before (key_len : Z) (j : Z) (page : list Z) : outcome (list Z) :=
  p ← utry 63 (key_ptr_size + value_ptr_size);
  page ← update_key_end page j (- p);
  k ← utry 63 key_len;
  update_value_end page j (- p - k).
Definition remove_update_after (key_len value_len : Z) (j : Z) (page : list Z) : outcome (list Z) :=
  p ← utry 63 (key_ptr_size + value_ptr_size);
  k ← utry 63 key_len;
  page ← update_key_end page j (- p - k);
  v ← utry 63 value_len;
  update_value_end page j (- p - k - v).

(** The moves of [remove], from the first part of the page to the last *)
Definition remove_data (page : list Z) (num_pairs new_num_pairs i key_start key_end value_start value_end last_value_end key_len : Z)
    : outcome (list Z) :=
  (* Left shift the trailing key pointers & preceding value pointers *)
  let dest := 4 + key_ptr_size * i in
  let start := 4 + key_ptr_size * (i + 1) in
  let end_ := 4 + key_ptr_size * num_pairs + value_ptr_size * i in
  page ← copy_within page start end_ dest;
  d ← usub end_ start;
  let dest := dest + d in
  _ ← rassert (dest =? 4 + key_ptr_size * new_num_pairs + value_ptr_size * i);
  (* Left shift the trailing value pointers & preceding key data *)
  let start := 4 + key_ptr_size * num_pairs + value_ptr_size * (i + 1) in
  page ← copy_within page start key_start dest;
  d ← usub key_start start;
  let dest := dest + d in
  preceding_key_len ← usub key_start (4 + (key_ptr_size + value_ptr_size) * num_pairs);
  _ ← rassert (dest =? 4 + (key_ptr_size + value_ptr_size) * new_num_pairs + preceding_key_len);
  (* Left shift the trailing key data & preceding value data *)
  page ← copy_within page key_end value_start dest;
  d ← usub value_start key_end;
  let dest := dest + d in
  p ← usub value_start (4 + (key_ptr_size + value_ptr_size) * num_pairs);
  preceding_data_len ← usub p key_len;
  _ ← rassert (dest =? 4 + (key_ptr_size + value_ptr_size) * new_num_pairs + preceding_data_len);
  (* Left shift the trailing value data *)
  copy_within page value_end last_value_end dest.

Definition remove (page : list Z) (i : Z) : outcome (list Z) :=
  a ← accessor page;
  let num_pairs := LeafAccessor.num_pairs a in
  _ ← rassert (i <? num_pairs);
  _ ← rassert (1 <? num_pairs);
  key_start ← expect (LeafAccessor.key_start a i);
  key_end ← expect (LeafAccessor.key_end a i);
  value_start ← expect (LeafAccessor.value_start a i);
  value_end ← expect (LeafAccessor.value_end a i);
  m ← usub num_pairs 1;
  last_value_end ← expect (LeafAccessor.value_end a m);
  key_len ← usub key_end key_start;
  value_len ← usub value_end value_start;
  page ← range_loop 0 i (remove_update_before key_len) page;
  page ← range_loop (i + 1) num_pairs (remove_update_after key_len value_len) page;
  new_num_pairs ← usub num_pairs 1;
  n ← utry 16 new_num_pairs;
  page ← splice page 2 (to_le_bytes 2 n);
  remove_data page num_pairs new_num_pairs i key_start key_end value_start value_end last_value_end key_len.

(** [RemovedLeafRanges]; a range is its start and its end *)
Record RemovedLeafRanges := mk_removed {
  indices : list Z; key_ranges : list (Z * Z); value_ranges : list (Z * Z);
  key_bytes : Z; value_bytes : Z; old_total_len : Z; num_pairs : Z }.

(** [indices.windows(2).all(|pair| pair[0] < pair[1])] *)
Fixpoint ascending (l : list Z) : bool :=
  match l with
  | x :: (y :: _) as t => (x <? y) && ascending t
  | _ => true
  end.
(** [Range::len] *)
Definition range_len (r : Z * Z) : Z := saturating_sub (r.2) (r.1).

(** The page, [source] and [dest] of the compaction *)
Definition compaction : Type := list Z * (Z * Z).

Definition compact_before_hole (hole : Z * Z) (s : compaction) : outcome compaction :=
  let '(page, (source, dest)) := s in
  _ ← rassert (source <=? hole.1);
  '(page, dest) ← (if source <? hole.1 then
      page ← (if source =? dest then Ret page else copy_within page source hole.1 dest);
      Ret (page, dest + (hole.1 - source))
    else Ret (page, dest));
  Ret (page, (hole.2, dest)).

Definition compact_tail (end_ : Z) (s : compaction) : outcome compaction :=
  let '(page, (source, dest)) := s in
  if source <? end_ then
    page ← (if source =? dest then Ret page else copy_within page source end_ dest);
    Ret (page, (source, dest + (end_ - source)))
  else Ret (page, (source, dest)).

(** The state of the loop of [update_removed_indices]: the page, [removed], and the removed bytes before *)
Definition update_removed_index (removed_pointer_bytes : Z) (r : RemovedLeafRanges) (i : Z)
    (s : list Z * (Z * (Z * Z))) : outcome (list Z * (Z * (Z * Z))) :=
  let '(page, (removed, (removed_key_bytes_before, removed_value_bytes_before))) := s in
  hit ← (if removed <? vlen (indices r) then x ← vget (indices r) removed; Ret (x =? i) else Ret false);
  if (hit : bool) then
    kr ← vget (key_ranges r) removed;
    vr ← vget (value_ranges r) removed;
    Ret (page, (removed + 1, (removed_key_bytes_before + range_len kr, removed_value_bytes_before + range_len vr)))
  else
    page ← match fixed_key_size with
      | None => delta ← utry 63 (removed_pointer_bytes + removed_key_bytes_before); update_key_end page i (- delta)
      | Some _ => Ret page
      end;
    page ← match fixed_value_size with
      | None =>
          delta ← utry 63 (removed_pointer_bytes + key_bytes r + removed_value_bytes_before);
          update_value_end page i (- delta)
      | Some _ => Ret page
      end;
    Ret (page, (removed, (removed_key_bytes_before, removed_value_bytes_before))).

Definition update_removed_indices (page : list Z) (removed_pointer_bytes : Z) (r : RemovedLeafRanges) : outcome (list Z) :=
  '(page, (removed, _)) ← for_each (update_removed_index removed_pointer_bytes r) (seqZ 0 (num_pairs r)) (page, (0, (0, 0)));
  _ ← rassert (removed =? vlen (indices r));
  Ret page.

Definition remove_index_ranges (page : list Z) (r : RemovedLeafRanges) : outcome (list Z) :=
  _ ← rassert (vlen (indices r) =? vlen (key_ranges r));
  _ ← rassert (vlen (indices r) =? vlen (value_ranges r));
  _ ← rassert (ascending (indices r));
  last ← unwrap (last (indices r));
  _ ← rassert (last <? num_pairs r);
  _ ← rassert (vlen (indices r) <? num_pairs r);
  new_num_pairs ← usub (num_pairs r) (vlen (indices r));
  let removed_pointer_bytes := (key_ptr_size + value_ptr_size) * vlen (indices r) in
  page ← update_removed_indices page removed_pointer_bytes r;
  s ← (if key_ptr_size =? 0 then Ret (page, (4, 4))
       else for_each (fun index =>
              let start := 4 + key_ptr_size * index in
              compact_before_hole (start, start + key_ptr_size)) (indices r) (page, (4, 4)));
  s ← (if value_ptr_size =? 0 then Ret s
       else for_each (fun index =>
              let start := 4 + key_ptr_size * num_pairs r + value_ptr_size * index in
              compact_before_hole (start, start + value_ptr_size)) (indices r) s);
  s ← for_each compact_before_hole (key_ranges r) s;
  s ← for_each compact_before_hole (value_ranges r) s;
  '(page, (source, dest)) ← compact_tail (old_total_len r) s;
  d ← usub (old_total_len r) removed_pointer_bytes;
  d ← usub d (key_bytes r);
  d ← usub d (value_bytes r);
  _ ← rassert (dest =? d);
  n ← utry 16 new_num_pairs;
  splice page 2 (to_le_bytes 2 n).

(** The ranges to remove and their lengths, in the order of [indices] *)
Definition collect_range (a : LeafAccessor.t) (index : Z)
    (s : (list (Z * Z) * list (Z * Z)) * (Z * Z)) : outcome ((list (Z * Z) * list (Z * Z)) * (Z * Z)) :=
  let '((key_ranges, value_ranges), (key_bytes, value_bytes)) := s in
  '(key, value) ← expect (LeafAccessor.entry_ranges a index);
  Ret ((key_ranges ++ [key], value_ranges ++ [value]), (key_bytes + range_len key, value_bytes + range_len value)).

Definition remove_indices (page : list Z) (indices : list Z) : outcome (list Z) :=
  a ← accessor page;
  _ ← rassert (negb (vlen indices =? 0));
  _ ← rassert (ascending indices);
  last ← unwrap (last indices);
  _ ← rassert (last <? LeafAccessor.num_pairs a);
  _ ← rassert (vlen indices <? LeafAccessor.num_pairs a);
  '((key_ranges, value_ranges), (key_bytes, value_bytes)) ← for_each (collect_range a) indices (([], []), (0, 0));
  total ← LeafAccessor.total_length a;
  remove_index_ranges page
    (mk_removed indices key_ranges value_ranges key_bytes value_bytes total (LeafAccessor.num_pairs a)).

End widths.
End LeafMutator.

(** ** Building *)

Module LeafBuilder.

(** The pages are allocated by the caller of [fill] *)
Record t := mk {
  pairs : list (list Z * list Z); fixed_key_size : option Z; fixed_value_size : option Z;
  total_key_bytes : Z; total_value_bytes : Z }.

Definition new (fixed_key_size fixed_value_size : option Z) : t := mk [] fixed_key_size fixed_value_size 0 0.

Definition required_bytes (b : t) (num_pairs keys_values_bytes : Z) : Z :=
  RawLeafBuilder.required_bytes num_pairs keys_values_bytes (fixed_key_size b) (fixed_value_size b).

Definition push (b : t) (key value : list Z) : t :=
  mk (pairs b ++ [(key, value)]) (fixed_key_size b) (fixed_value_size b)
    (total_key_bytes b + vlen key) (total_value_bytes b + vlen value).

(** The loop of [push_all_except_indexes]; the state is the builder and [next_except] *)
Definition push_unless (accessor : LeafAccessor.t) (except : list Z) (i : Z) (s : t * Z) : outcome (t * Z) :=
  let '(b, next_except) := s in
  hit ← (if next_except <? vlen except then x ← vget except next_except; Ret (x =? i) else Ret false);
  if (hit : bool) then Ret (b, next_except + 1)
  else '(key, value) ← expect (LeafAccessor.entry accessor i); Ret (push b key value, next_except).
Definition push_all_except_indexes (b : t) (accessor : LeafAccessor.t) (except : list Z) : outcome t :=
  _ ← rassert (LeafMutator.ascending except);
  '(b, next_except) ← for_each (push_unless accessor except) (seqZ 0 (LeafAccessor.num_pairs accessor)) (b, 0);
  _ ← rassert (next_except =? vlen except);
  Ret b.
Definition push_all_except (b : t) (accessor : LeafAccessor.t) (except : option Z) : outcome t :=
  match except with
  | Some except => push_all_except_indexes b accessor [except]
  | None => push_all_except_indexes b accessor []
  end.

Definition should_split (b : t) (page_size : Z) : bool :=
  let required_size := required_bytes b (vlen (pairs b)) (total_key_bytes b + total_value_bytes b) in
  let too_many_pairs := umax 16 <? vlen (pairs b) in
  ((page_size <? required_size) || too_many_pairs) && (1 <? vlen (pairs b)).

Definition sum_lens (l : list (list Z)) : Z := foldr (fun x s => vlen x + s) 0 l.

(** The loop that finds the division by bytes: the division, and the bytes of the keys and the values before it *)
Fixpoint divide (total_size : Z) (pairs : list (list Z * list Z)) (s : Z * (Z * Z)) : Z * (Z * Z) :=
  match pairs with
  | [] => s
  | (key, value) :: rest =>
      let '(division, (kb, vb)) := s in
      let kb := kb + vlen key in
      let vb := vb + vlen value in
      let division := division + 1 in
      if total_size / 2 <=? kb + vb then (division, (kb, vb)) else divide total_size rest (division, (kb, vb))
  end.
(** The division of [build_split], with the bytes of the keys and the values of the first page *)
Definition division (b : t) : outcome (Z * (Z * Z)) :=
  let total_size := total_key_bytes b + total_value_bytes b in
  m ← usub (vlen (pairs b)) 1;
  let '(division, (kb, vb)) := divide total_size (take (Z.to_nat m) (pairs b)) (0, (0, 0)) in
  let max_pairs := umax 16 in
  _ ← rassert (vlen (pairs b) <=? 2 * max_pairs);
  (* Ord::clamp panics if min > max *)
  _ ← rassert (saturating_sub (vlen (pairs b)) max_pairs <=? max_pairs);
  let clamped := Z.min (Z.max division (saturating_sub (vlen (pairs b)) max_pairs)) max_pairs in
  if clamped =? division then Ret (division, (kb, vb))
  else
    first ← slice (pairs b) 0 clamped;
    Ret (clamped, (sum_lens (map fst first), sum_lens (map snd first))).

(** Writes the pairs to an allocated page *)
Definition fill (page : list Z) (fixed_key_size fixed_value_size : option Z) (key_bytes : Z)
    (pairs : list (list Z * list Z)) : outcome (list Z) :=
  builder ← RawLeafBuilder.new page (vlen pairs) fixed_key_size fixed_value_size key_bytes;
  builder ← for_each (fun '(key, value) builder => RawLeafBuilder.append builder key value) pairs builder;
  RawLeafBuilder.drop builder.

(** The bytes [build] asks for, and what it writes to the page *)
Definition required_size (b : t) : Z := required_bytes b (vlen (pairs b)) (total_key_bytes b + total_value_bytes b).
Definition write (b : t) (page : list Z) : outcome (list Z) :=
  fill page (fixed_key_size b) (fixed_value_size b) (total_key_bytes b) (pairs b).

(** The bytes [build_split] asks for, its split key, and what it writes to the two pages *)
Definition split_sizes (b : t) (d : Z * (Z * Z)) : outcome (Z * Z) :=
  let '(division, (kb, vb)) := d in
  n ← usub (vlen (pairs b)) division;
  x ← usub (total_key_bytes b + total_value_bytes b) kb;
  x ← usub x vb;
  Ret (required_bytes b division (kb + vb), required_bytes b n x).
Definition write_first (b : t) (d : Z * (Z * Z)) (page : list Z) : outcome (list Z) :=
  let '(division, (kb, _)) := d in
  fill page (fixed_key_size b) (fixed_value_size b) kb (take (Z.to_nat division) (pairs b)).
Definition write_second (b : t) (d : Z * (Z * Z)) (page : list Z) : outcome (list Z) :=
  let '(division, (kb, _)) := d in
  rest ← slice_from (pairs b) division;
  k ← usub (total_key_bytes b) kb;
  fill page (fixed_key_size b) (fixed_value_size b) k rest.
Definition split_key (b : t) (d : Z * (Z * Z)) : outcome (list Z) :=
  m ← usub d.1 1; p ← vget (pairs b) m; Ret p.1.

End LeafBuilder.

(** * What a leaf page holds *)

(** The total length of a list of slices *)
Definition size (l : list (list Z)) : Z := vlen (concat l).
(** Where each of the slices ends, if the first starts at [base] *)
Fixpoint ends (base : Z) (l : list (list Z)) : list Z :=
  match l with [] => [] | x :: t => (base + vlen x) :: ends (base + vlen x) t end.
(** A table of offsets, which is there for elements of variable width *)
Definition tab (fixed : option Z) (es : list Z) : list Z :=
  match fixed with None => concat (map (to_le_bytes 4) es) | Some _ => [] end.

(** ** Moving parts of a page *)

(** A part [X] moves right over the [G] after it, or left over the [G] before it. *)
Lemma shift_right (P X G D page : list Z) a b dest :
  page = P ++ X ++ G ++ D -> a = vlen P -> b = vlen P + vlen X -> dest = vlen P + vlen G ->
  exists G', vlen G' = vlen G /\ copy_within page a b dest = Ret (P ++ G' ++ X ++ D).
Proof.
  intros -> -> -> ->. exists (take (length G) (X ++ G)). split.
  { unfold vlen. rewrite length_take, length_app. lia. }
  unfold copy_within. rewrite (slice_middle P X) by done. cbn [mbind outcome_bind].
  replace (P ++ X ++ G ++ D) with ((P ++ take (length G) (X ++ G)) ++ drop (length G) (X ++ G) ++ D).
  - rewrite splice_middle; [by rewrite <-app_assoc| |].
    + rewrite vlen_app. unfold vlen. rewrite length_take, length_app. lia.
    + rewrite length_drop, length_app. lia.
  - rewrite <-app_assoc, (app_assoc (take _ _)), take_drop. by rewrite <-app_assoc.
Qed.
Lemma shift_left (P G X D page : list Z) a b dest :
  page = P ++ G ++ X ++ D -> a = vlen P + vlen G -> b = vlen P + vlen G + vlen X -> dest = vlen P ->
  exists G', vlen G' = vlen G /\ copy_within page a b dest = Ret (P ++ X ++ G' ++ D).
Proof.
  intros -> -> -> ->. exists (drop (length X) (G ++ X)). split.
  { unfold vlen. rewrite length_drop, length_app. lia. }
  unfold copy_within. rewrite (app_assoc P G), (slice_middle (P ++ G) X) by (rewrite ?vlen_app; lia). cbn [mbind outcome_bind].
  replace ((P ++ G) ++ X ++ D) with (P ++ take (length X) (G ++ X) ++ (drop (length X) (G ++ X) ++ D)).
  - rewrite splice_middle; [done|done|]. rewrite length_take, length_app. lia.
  - rewrite (app_assoc (take _ _)), take_drop. by rewrite <-!app_assoc.
Qed.
(** A part is written to the end of the free [G]. *)
Lemma write_end (P G D new page : list Z) dest :
  page = P ++ G ++ D -> dest = vlen P + vlen G - vlen new -> vlen new <= vlen G ->
  exists G', vlen G' = vlen G - vlen new /\ splice page dest new = Ret (P ++ G' ++ new ++ D).
Proof.
  intros -> -> Hle. unfold vlen in Hle. exists (take (length G - length new) G). split.
  { unfold vlen. rewrite length_take. lia. }
  replace (P ++ G ++ D) with ((P ++ take (length G - length new) G) ++ drop (length G - length new) G ++ D).
  - rewrite splice_middle; [by rewrite <-app_assoc| |].
    + rewrite vlen_app. unfold vlen. rewrite length_take. lia.
    + rewrite length_drop. lia.
  - rewrite <-app_assoc, (app_assoc (take _ _)), take_drop. done.
Qed.
(** A part moves right over the free [G], and a new part is written before it. *)
Lemma shift_write (P X G D new page : list Z) a b dest dest' :
  page = P ++ X ++ G ++ D -> a = vlen P -> b = vlen P + vlen X -> dest = vlen P + vlen G -> dest' = dest - vlen new ->
  vlen new <= vlen G ->
  exists page1 G', vlen G' = vlen G - vlen new /\ copy_within page a b dest = Ret page1 /\
    splice page1 dest' new = Ret (P ++ G' ++ new ++ X ++ D).
Proof.
  intros Hp Ha Hb Hd -> Hle. destruct (shift_right P X G D page a b dest Hp Ha Hb Hd) as (G1 & L1 & S1).
  destruct (write_end P G1 (X ++ D) new _ (dest - vlen new) eq_refl) as (G2 & L2 & S2); [lia|lia|].
  exists (P ++ G1 ++ X ++ D), G2. split; [lia|done].
Qed.
(** The part [X] after [v] moves so that [d] more bytes are before it. *)
Lemma resize_gap (P v X S page : list Z) a b d dest :
  page = P ++ v ++ X ++ S -> a = vlen P + vlen v -> b = a + vlen X -> dest = a + d -> 0 <= vlen v + d -> d <= vlen S ->
  exists M S', vlen M = vlen v + d /\ vlen S' = vlen S - d /\ copy_within page a b dest = Ret (P ++ M ++ X ++ S').
Proof.
  intros -> -> -> -> Hv Hd. destruct (Z.le_gt_cases 0 d) as [Hp|Hp].
  - destruct (shift_right (P ++ v) X (take (Z.to_nat d) S) (drop (Z.to_nat d) S) (P ++ v ++ X ++ S)
      (vlen P + vlen v) (vlen P + vlen v + vlen X) (vlen P + vlen v + d)) as (G' & HG & Hc).
    + rewrite take_drop. by rewrite <-app_assoc.
    + by rewrite vlen_app.
    + by rewrite vlen_app.
    + rewrite vlen_app, vlen_take by lia. done.
    + exists (v ++ G'), (drop (Z.to_nat d) S). rewrite vlen_app, HG, vlen_take, vlen_drop by lia.
      split; [done|]. split; [done|]. rewrite Hc. by rewrite <-!app_assoc.
  - set (k := Z.to_nat (vlen v + d)). assert (Hk : (k <= length v)%nat) by (subst k; unfold vlen; lia).
    destruct (shift_left (P ++ take k v) (drop k v) X S (P ++ v ++ X ++ S)
      (vlen P + vlen v) (vlen P + vlen v + vlen X) (vlen P + vlen v + d)) as (G' & HG & Hc).
    + rewrite <-app_assoc, (app_assoc (take k v)), take_drop. done.
    + rewrite vlen_app. unfold vlen. rewrite length_take, length_drop. lia.
    + rewrite vlen_app. unfold vlen. rewrite length_take, length_drop. lia.
    + rewrite vlen_app. unfold vlen in *. rewrite length_take. lia.
    + exists (take k v), (G' ++ S). split; [unfold vlen in *; rewrite length_take; lia|].
      rewrite vlen_app, HG. split; [unfold vlen in *; rewrite length_drop; lia|]. rewrite Hc. by rewrite <-!app_assoc.
Qed.

Section leaf.
  Context (fk fv : option Z).
  Notation kp := (LeafMutator.key_ptr_size fk).
  Notation vp := (LeafMutator.value_ptr_size fv).

(** Where the keys of a leaf of [n] pairs start *)
Definition section (n : Z) : Z := 4 + kp * n + vp * n.
Definition header (pad n : Z) : list Z := [LEAF; pad] ++ to_le_bytes 2 n.
(** A page with the given tables *)
Definition leaf_page (pad n : Z) (E F : list Z) (body : list Z) : list Z := header pad n ++ tab fk E ++ tab fv F ++ body.

Definition keys_of (pairs : list (list Z * list Z)) : list (list Z) := map fst pairs.
Definition values_of (pairs : list (list Z * list Z)) : list (list Z) := map snd pairs.
Definition key_off (pairs : list (list Z * list Z)) (i : nat) : Z := section (vlen pairs) + size (take i (keys_of pairs)).
Definition value_off (pairs : list (list Z * list Z)) (i : nat) : Z :=
  section (vlen pairs) + size (keys_of pairs) + size (take i (values_of pairs)).
Definition key_ends (pairs : list (list Z * list Z)) : list Z := ends (section (vlen pairs)) (keys_of pairs).
Definition value_ends (pairs : list (list Z * list Z)) : list Z :=
  ends (section (vlen pairs) + size (keys_of pairs)) (values_of pairs).
(** The bytes a leaf of these pairs takes *)
Definition total (pairs : list (list Z * list Z)) : Z :=
  section (vlen pairs) + size (keys_of pairs) + size (values_of pairs).

(** The page of a leaf: [slack] is the free space at its end. *)
Definition leaf (pad : Z) (pairs : list (list Z * list Z)) (slack : list Z) : list Z :=
  leaf_page pad (vlen pairs) (key_ends pairs) (value_ends pairs)
    (concat (keys_of pairs) ++ concat (values_of pairs) ++ slack).

(** The widths of the types are respected *)
Definition widths_ok (pairs : list (list Z * list Z)) : Prop :=
  (forall w, fk = Some w -> Forall (fun k => vlen k = w) (keys_of pairs)) /\
  (forall w, fv = Some w -> Forall (fun v => vlen v = w) (values_of pairs)).
Record leaf_ok (pairs : list (list Z * list Z)) : Prop := {
  leaf_nonempty : 0 < vlen pairs;
  leaf_count : vlen pairs < 2 ^ 16;
  leaf_widths : widths_ok pairs;
  leaf_total : total pairs < 2 ^ 32 }.

(** [page] is a leaf page that holds [pairs]. *)
Definition is_leaf (page : list Z) (pairs : list (list Z * list Z)) : Prop :=
  exists pad slack, page = leaf pad pairs slack /\ leaf_ok pairs /\ vlen page < 2 ^ 63.

(** ** Sizes and tables *)

Lemma ptr_sizes : (kp = 0 \/ kp = 4) /\ (vp = 0 \/ vp = 4).
Proof. unfold LeafMutator.key_ptr_size, LeafMutator.value_ptr_size. destruct fk, fv; lia. Qed.

Lemma size_app l k : size (l ++ k) = size l + size k.
Proof. unfold size. by rewrite concat_app, vlen_app. Qed.
Lemma size_cons x l : size (x :: l) = vlen x + size l.
Proof. unfold size. cbn [concat]. apply vlen_app. Qed.
Lemma size_nonneg l : 0 <= size l.
Proof. apply vlen_nonneg. Qed.
Lemma size_take_S l i x : l !! i = Some x -> size (take (S i) l) = size (take i l) + vlen x.
Proof. intros Hx. rewrite (take_S_r _ _ _ Hx), size_app, size_cons. change (size []) with 0. lia. Qed.
Lemma size_take_le l i : size (take i l) <= size l.
Proof. rewrite <-(take_drop i l) at 2. rewrite size_app. pose proof (size_nonneg (drop i l)). lia. Qed.
Lemma size_fixed w l : Forall (fun x => vlen x = w) l -> size l = w * vlen l.
Proof.
  unfold size. induction 1 as [|d ds Hd _ IH]; [unfold vlen; simpl; lia|]. cbn [concat]. rewrite vlen_app, Hd, IH. unfold vlen. simpl. lia.
Qed.

Lemma ends_app b l k : ends b (l ++ k) = ends b l ++ ends (b + size l) k.
Proof.
  revert b. induction l as [|x l IH]; intros b; cbn [ends app]; [by rewrite Z.add_0_r|].
  rewrite IH, size_cons. by rewrite Z.add_assoc.
Qed.
Lemma length_ends b l : length (ends b l) = length l.
Proof. revert b. induction l; intros b; simpl; auto. Qed.
Lemma ends_shift d b l : map (Z.add d) (ends b l) = ends (d + b) l.
Proof. revert b. induction l as [|x l IH]; intros b; [done|]. cbn [ends map]. by rewrite IH, Z.add_assoc. Qed.
Lemma ends_lookup b l i x : l !! i = Some x -> ends b l !! i = Some (b + size (take (S i) l)).
Proof.
  intros Hx. rewrite <-(take_drop_middle l i x Hx) at 1. rewrite ends_app. apply lookup_lt_Some in Hx as Hi.
  rewrite lookup_app_r, length_ends, length_take_le, Nat.sub_diag by (rewrite ?length_ends, ?length_take_le; lia).
  cbn [ends]. rewrite (size_take_S l i x Hx). simpl. f_equal. lia.
Qed.
Lemma ends_bound b l e : e ∈ ends b l -> b <= e <= b + size l.
Proof.
  revert b. induction l as [|x l IH]; intros b; cbn [ends]; [set_solver|]. rewrite elem_of_cons, size_cons.
  pose proof (vlen_nonneg x). pose proof (size_nonneg l). intros [->|He]; [lia|]. apply IH in He. lia.
Qed.

Lemma vlen_tab fixed es : vlen (tab fixed es) = (match fixed with None => 4 | Some _ => 0 end) * vlen es.
Proof.
  destruct fixed; cbn [tab]; [done|]. rewrite (vlen_concat_chunks _ 4) by (intros; apply length_to_le_bytes). lia.
Qed.
Lemma tab_app fixed E1 E2 : tab fixed (E1 ++ E2) = tab fixed E1 ++ tab fixed E2.
Proof. destruct fixed; [done|]. cbn [tab]. by rewrite map_app, concat_app. Qed.
Lemma vlen_header pad n : vlen (header pad n) = 4.
Proof. unfold header. rewrite vlen_app, vlen_to_le_bytes. done. Qed.
Lemma vlen_key_tab E : vlen (tab fk E) = kp * vlen E.
Proof. apply vlen_tab. Qed.
Lemma vlen_value_tab F : vlen (tab fv F) = vp * vlen F.
Proof. apply vlen_tab. Qed.
Lemma vlen_ends b l : vlen (ends b l) = vlen l.
Proof. unfold vlen. by rewrite length_ends. Qed.
Lemma vlen_map {A B} (f : A -> B) l : vlen (map f l) = vlen l.
Proof. unfold vlen. by rewrite length_map. Qed.
Lemma vlen_keys pairs : vlen (keys_of pairs) = vlen pairs.
Proof. apply vlen_map. Qed.
Lemma vlen_values pairs : vlen (values_of pairs) = vlen pairs.
Proof. apply vlen_map. Qed.
Lemma vlen_key_ends pairs : vlen (key_ends pairs) = vlen pairs.
Proof. unfold key_ends. by rewrite vlen_ends, vlen_keys. Qed.
Lemma vlen_value_ends pairs : vlen (value_ends pairs) = vlen pairs.
Proof. unfold value_ends. by rewrite vlen_ends, vlen_values. Qed.
Lemma vlen_tables E F pad n : vlen E = n -> vlen F = n -> vlen (header pad n ++ tab fk E ++ tab fv F) = section n.
Proof. intros HE HF. rewrite !vlen_app, vlen_header, vlen_key_tab, vlen_value_tab, HE, HF. unfold section. lia. Qed.

Lemma concat_split (l : list (list Z)) i x : l !! i = Some x -> concat l = concat (take i l) ++ x ++ concat (drop (S i) l).
Proof. intros Hx. rewrite <-(take_drop_middle l i x Hx) at 1. by rewrite concat_app. Qed.

(** A slice of a page, whatever way the page is put together *)
Lemma slice_at {A} (p m s page : list A) a b :
  page = p ++ m ++ s -> a = vlen p -> b = a + vlen m -> slice page a b = Ret m.
Proof. intros -> -> ->. by apply slice_middle. Qed.

(** ** Reading a leaf *)

Definition accessor_of (pad : Z) (pairs : list (list Z * list Z)) (slack : list Z) : LeafAccessor.t :=
  LeafAccessor.mk (leaf pad pairs slack) fk fv (vlen pairs).

Lemma leaf_page_accessor pad n E F body : 0 <= n < 2 ^ 16 ->
  LeafAccessor.new (leaf_page pad n E F body) fk fv = Ret (LeafAccessor.mk (leaf_page pad n E F body) fk fv n).
Proof.
  intros Hn. unfold LeafAccessor.new, leaf_page, header. cbn [app].
  change (vget (LEAF :: ?l) 0) with (Ret LEAF). cbn [mbind outcome_bind rassert]. rewrite Z.eqb_refl.
  cbn [mbind outcome_bind rassert].
  change (LEAF :: pad :: to_le_bytes 2 n ++ ?l) with ([LEAF; pad] ++ to_le_bytes 2 n ++ l).
  rewrite (slice_middle [LEAF; pad] (to_le_bytes 2 n)) by done. cbn [mbind outcome_bind].
  by rewrite from_to_le_bytes by (cbn; lia).
Qed.

Lemma leaf_accessor pad pairs slack : leaf_ok pairs ->
  LeafAccessor.new (leaf pad pairs slack) fk fv = Ret (accessor_of pad pairs slack).
Proof. intros [H1 H2 _ _]. apply leaf_page_accessor. lia. Qed.

Lemma accessor_section pad pairs slack : LeafAccessor.key_section_start (accessor_of pad pairs slack) = section (vlen pairs).
Proof.
  unfold LeafAccessor.key_section_start, section, LeafMutator.key_ptr_size, LeafMutator.value_ptr_size. cbn.
  destruct fk, fv; lia.
Qed.

(** The entry of a table *)
Lemma get_range_tab h es s i e : es !! i = Some e -> 0 <= e < 2 ^ 32 ->
  get_range (h ++ concat (map (to_le_bytes 4) es) ++ s) (vlen h + 4 * Z.of_nat i) (vlen h + 4 * Z.of_nat i + 4) =
  Some (to_le_bytes 4 e) /\ from_le_bytes (to_le_bytes 4 e) = e.
Proof.
  intros He Hb. split; [|by apply from_to_le_bytes]. unfold get_range.
  pose proof (slice_chunk (to_le_bytes 4) 4 h es s i e (fun w => length_to_le_bytes 4 w) He) as Hs.
  rewrite (Z.mul_comm 4). change 4 with (Z.of_nat 4). by rewrite Hs.
Qed.

Lemma take_fixed w l i : (i <= length l)%nat -> Forall (fun x => vlen x = w) l -> size (take i l) = w * Z.of_nat i.
Proof.
  intros Hi Hf. rewrite (size_fixed w) by (by apply Forall_take). unfold vlen. rewrite length_take_le by lia. done.
Qed.

Section accessor.
  Context (pad : Z) (pairs : list (list Z * list Z)) (slack : list Z) (Hok : leaf_ok pairs).
  Notation a := (accessor_of pad pairs slack).
  Notation n := (vlen pairs).

Lemma section_pos : 4 <= section n.
Proof. unfold section. pose proof ptr_sizes. pose proof (vlen_nonneg pairs). nia. Qed.
Lemma key_off_bound i : 0 <= key_off pairs i < 2 ^ 32.
Proof using Hok.
  destruct Hok as [_ _ _ Ht]. unfold total, key_off in *. pose proof section_pos. pose proof (size_nonneg (take i (keys_of pairs))).
  pose proof (size_take_le (keys_of pairs) i). pose proof (size_nonneg (values_of pairs)). lia.
Qed.
Lemma value_off_bound i : 0 <= value_off pairs i < 2 ^ 32.
Proof using Hok.
  destruct Hok as [_ _ _ Ht]. unfold total, value_off in *. pose proof section_pos. pose proof (size_nonneg (take i (values_of pairs))).
  pose proof (size_take_le (values_of pairs) i). pose proof (size_nonneg (keys_of pairs)). lia.
Qed.

Lemma key_end_ok i : (i < length pairs)%nat -> LeafAccessor.key_end a (Z.of_nat i) = Ret (Some (key_off pairs (S i))).
Proof using Hok.
  intros Hi. unfold LeafAccessor.key_end. cbn [LeafAccessor.num_pairs accessor_of LeafAccessor.fixed_key_size LeafAccessor.page].
  rewrite (proj2 (Z.leb_gt _ _)) by (unfold vlen; lia).
  destruct (lookup_lt_is_Some_2 (keys_of pairs) i) as [k Hk]; [unfold keys_of; by rewrite length_map|].
  pose proof (leaf_widths _ Hok) as [Hw _]. destruct fk as [w|] eqn:Ek.
  - rewrite accessor_section. unfold key_off. rewrite (take_fixed w) by (apply lookup_lt_Some in Hk; auto with lia).
    do 2 f_equal. lia.
  - pose proof (ends_lookup (section n) _ _ _ Hk) as He. fold (key_off pairs (S i)) in He.
    destruct (get_range_tab (header pad n) (key_ends pairs) (tab fv (value_ends pairs) ++ concat (keys_of pairs) ++ concat (values_of pairs) ++ slack)
      i _ He (key_off_bound (S i))) as [Hg Hf].
    rewrite vlen_header in Hg. unfold leaf, leaf_page. rewrite Ek. cbn [tab]. rewrite Hg. cbn [try_some]. by rewrite Hf.
Qed.
Lemma key_end_none i : n <= i -> LeafAccessor.key_end a i = Ret None.
Proof.
  intros Hi. unfold LeafAccessor.key_end. cbn [LeafAccessor.num_pairs accessor_of]. by rewrite (proj2 (Z.leb_le _ _)) by lia.
Qed.

Lemma last_index : Z.of_nat (length pairs - 1) = n - 1.
Proof using Hok. destruct Hok as [H _ _ _]. unfold vlen in *. lia. Qed.
Lemma key_off_all : key_off pairs (length pairs) = section n + size (keys_of pairs).
Proof. unfold key_off. rewrite take_ge; [done|]. unfold keys_of. by rewrite length_map. Qed.
Lemma value_off_0 : value_off pairs 0 = section n + size (keys_of pairs).
Proof. unfold value_off. rewrite take_0. change (size []) with 0. lia. Qed.
Lemma value_off_all : value_off pairs (length pairs) = total pairs.
Proof. unfold value_off, total. rewrite (take_ge (values_of pairs)); [done|]. unfold values_of. by rewrite length_map. Qed.

Lemma last_key_end : LeafAccessor.key_end a (n - 1) = Ret (Some (section n + size (keys_of pairs))).
Proof using Hok.
  pose proof (leaf_nonempty _ Hok) as Hn. rewrite <-last_index, key_end_ok by (unfold vlen in Hn; lia).
  do 2 f_equal. rewrite <-key_off_all. f_equal. unfold vlen in Hn. lia.
Qed.

Lemma value_end_ok i : (i < length pairs)%nat -> LeafAccessor.value_end a (Z.of_nat i) = Ret (Some (value_off pairs (S i))).
Proof using Hok.
  intros Hi. unfold LeafAccessor.value_end. cbn [LeafAccessor.num_pairs accessor_of LeafAccessor.fixed_value_size LeafAccessor.fixed_key_size LeafAccessor.page].
  rewrite (proj2 (Z.leb_gt _ _)) by (unfold vlen; lia).
  destruct (lookup_lt_is_Some_2 (values_of pairs) i) as [v Hv]; [unfold values_of; by rewrite length_map|].
  pose proof (leaf_widths _ Hok) as [_ Hw]. pose proof (leaf_nonempty _ Hok) as Hn. destruct fv as [w|] eqn:Ev.
  - rewrite (proj2 (Z.leb_le 1 n)) by lia. cbn [try_some]. rewrite last_key_end. cbn [try_some].
    unfold value_off. rewrite (take_fixed w) by (apply lookup_lt_Some in Hv; auto with lia). do 2 f_equal. lia.
  - pose proof (ends_lookup (section n + size (keys_of pairs)) _ _ _ Hv) as He. fold (value_off pairs (S i)) in He.
    destruct (get_range_tab (header pad n ++ tab fk (key_ends pairs)) (value_ends pairs) (concat (keys_of pairs) ++ concat (values_of pairs) ++ slack)
      i _ He (value_off_bound (S i))) as [Hg Hf].
    rewrite vlen_app, vlen_header, vlen_key_tab in Hg. rewrite vlen_key_ends in Hg.
    unfold leaf, leaf_page. rewrite Ev. cbn [tab]. rewrite <-app_assoc in Hg.
    replace (match fk with Some _ => 4 + 4 * Z.of_nat i | None => 4 + 4 * Z.of_nat i + 4 * n end)
      with (4 + kp * n + 4 * Z.of_nat i) by (unfold LeafMutator.key_ptr_size; destruct fk; lia).
    rewrite Hg. cbn [try_some]. by rewrite Hf.
Qed.
Lemma value_end_none i : n <= i -> LeafAccessor.value_end a i = Ret None.
Proof.
  intros Hi. unfold LeafAccessor.value_end. cbn [LeafAccessor.num_pairs accessor_of]. by rewrite (proj2 (Z.leb_le _ _)) by lia.
Qed.

Lemma key_start_ok i : (i <= length pairs)%nat -> LeafAccessor.key_start a (Z.of_nat i) = Ret (Some (key_off pairs i)).
Proof using Hok.
  intros Hi. unfold LeafAccessor.key_start. destruct i as [|i].
  - rewrite accessor_section. unfold key_off. rewrite take_0. change (size []) with 0. by rewrite Z.add_0_r.
  - rewrite (proj2 (Z.eqb_neq _ _)), usub_ok by lia. cbn [mbind outcome_bind].
    replace (Z.of_nat (S i) - 1) with (Z.of_nat i) by lia. apply key_end_ok. lia.
Qed.
Lemma value_start_ok i : (i <= length pairs)%nat -> LeafAccessor.value_start a (Z.of_nat i) = Ret (Some (value_off pairs i)).
Proof using Hok.
  intros Hi. pose proof (leaf_nonempty _ Hok) as Hn. unfold LeafAccessor.value_start. cbn [LeafAccessor.num_pairs accessor_of]. destruct i as [|i].
  - cbn [Z.of_nat Z.eqb]. rewrite usub_ok by lia. cbn [mbind outcome_bind]. rewrite last_key_end, value_off_0. done.
  - rewrite (proj2 (Z.eqb_neq _ _)), usub_ok by lia. cbn [mbind outcome_bind].
    replace (Z.of_nat (S i) - 1) with (Z.of_nat i) by lia. apply value_end_ok. lia.
Qed.
Lemma last_value_end : LeafAccessor.value_end a (n - 1) = Ret (Some (total pairs)).
Proof using Hok.
  pose proof (leaf_nonempty _ Hok) as Hn. rewrite <-last_index, value_end_ok by (unfold vlen in Hn; lia).
  do 2 f_equal. rewrite <-value_off_all. f_equal. unfold vlen in Hn. lia.
Qed.
Lemma total_length_ok : LeafAccessor.total_length a = Ret (total pairs).
Proof using Hok.
  pose proof (leaf_nonempty _ Hok) as Hn. unfold LeafAccessor.total_length. cbn [LeafAccessor.num_pairs accessor_of].
  rewrite usub_ok by lia. cbn [mbind outcome_bind]. by rewrite last_value_end.
Qed.

Lemma slice_key i k : keys_of pairs !! i = Some k -> slice (leaf pad pairs slack) (key_off pairs i) (key_off pairs (S i)) = Ret k.
Proof.
  intros Hk. apply (slice_at (header pad n ++ tab fk (key_ends pairs) ++ tab fv (value_ends pairs) ++ concat (take i (keys_of pairs)))
    k (concat (drop (S i) (keys_of pairs)) ++ concat (values_of pairs) ++ slack)).
  - unfold leaf, leaf_page. rewrite (concat_split _ _ _ Hk). by rewrite <-!app_assoc.
  - rewrite !vlen_app, vlen_header, vlen_key_tab, vlen_value_tab, vlen_key_ends, vlen_value_ends.
    unfold key_off, section, size. lia.
  - unfold key_off. rewrite (size_take_S _ _ _ Hk). lia.
Qed.
Lemma slice_value i v : values_of pairs !! i = Some v -> slice (leaf pad pairs slack) (value_off pairs i) (value_off pairs (S i)) = Ret v.
Proof.
  intros Hv. apply (slice_at (header pad n ++ tab fk (key_ends pairs) ++ tab fv (value_ends pairs) ++ concat (keys_of pairs) ++ concat (take i (values_of pairs)))
    v (concat (drop (S i) (values_of pairs)) ++ slack)).
  - unfold leaf, leaf_page. rewrite (concat_split _ _ _ Hv). by rewrite <-!app_assoc.
  - rewrite !vlen_app, vlen_header, vlen_key_tab, vlen_value_tab, vlen_key_ends, vlen_value_ends.
    unfold value_off, section, size. lia.
  - unfold value_off. rewrite (size_take_S _ _ _ Hv). lia.
Qed.

Lemma keys_lookup i : keys_of pairs !! i = fst <$> pairs !! i.
Proof. apply list_lookup_fmap. Qed.
Lemma values_lookup i : values_of pairs !! i = snd <$> pairs !! i.
Proof. apply list_lookup_fmap. Qed.

Lemma key_unchecked_ok i k v : pairs !! i = Some (k, v) -> LeafAccessor.key_unchecked a (Z.of_nat i) = Ret k.
Proof using Hok.
  intros Hp. apply lookup_lt_Some in Hp as Hi. unfold LeafAccessor.key_unchecked, expect.
  rewrite key_start_ok, key_end_ok by lia. cbn [mbind outcome_bind unwrap]. apply slice_key. rewrite keys_lookup, Hp. done.
Qed.
Lemma entry_ok i k v : pairs !! i = Some (k, v) -> LeafAccessor.entry a (Z.of_nat i) = Ret (Some (k, v)).
Proof using Hok.
  intros Hp. apply lookup_lt_Some in Hp as Hi. unfold LeafAccessor.entry.
  rewrite key_start_ok, key_end_ok, value_start_ok, value_end_ok by lia. cbn [try_some LeafAccessor.page accessor_of].
  rewrite (slice_key i k) by (by rewrite keys_lookup, Hp). cbn [mbind outcome_bind].
  by rewrite (slice_value i v) by (by rewrite values_lookup, Hp).
Qed.
Lemma entry_ranges_ok i : (i < length pairs)%nat -> LeafAccessor.entry_ranges a (Z.of_nat i) =
  Ret (Some ((key_off pairs i, key_off pairs (S i)), (value_off pairs i, value_off pairs (S i)))).
Proof using Hok.
  intros Hi. unfold LeafAccessor.entry_ranges. by rewrite key_start_ok, key_end_ok, value_start_ok, value_end_ok by lia.
Qed.
Lemma value_range_ok i : (i < length pairs)%nat ->
  LeafAccessor.value_range a (Z.of_nat i) = Ret (Some (value_off pairs i, value_off pairs (S i))).
Proof using Hok. intros Hi. unfold LeafAccessor.value_range. by rewrite value_start_ok, value_end_ok by lia. Qed.
End accessor.

(** The offsets of the pair that follows [P1] *)
Lemma keys_app P Q : keys_of (P ++ Q) = keys_of P ++ keys_of Q.
Proof. apply map_app. Qed.
Lemma values_app P Q : values_of (P ++ Q) = values_of P ++ values_of Q.
Proof. apply map_app. Qed.
Lemma key_off_at P1 P2 : key_off (P1 ++ P2) (length P1) = section (vlen (P1 ++ P2)) + size (keys_of P1).
Proof. unfold key_off. rewrite keys_app, take_app_length'; [done|]. unfold keys_of. by rewrite length_map. Qed.
Lemma value_off_at P1 P2 :
  value_off (P1 ++ P2) (length P1) = section (vlen (P1 ++ P2)) + size (keys_of (P1 ++ P2)) + size (values_of P1).
Proof. unfold value_off. rewrite values_app, take_app_length'; [done|]. unfold values_of. by rewrite length_map. Qed.
Lemma key_off_after P1 k v P2 : key_off (P1 ++ (k, v) :: P2) (S (length P1)) =
  section (vlen (P1 ++ (k, v) :: P2)) + size (keys_of P1) + vlen k.
Proof.
  unfold key_off. rewrite (size_take_S _ _ k); [|rewrite keys_lookup, list_lookup_middle; done].
  rewrite keys_app, take_app_length'; [lia|]. unfold keys_of. by rewrite length_map.
Qed.
Lemma value_off_after P1 k v P2 : value_off (P1 ++ (k, v) :: P2) (S (length P1)) =
  section (vlen (P1 ++ (k, v) :: P2)) + size (keys_of (P1 ++ (k, v) :: P2)) + size (values_of P1) + vlen v.
Proof.
  unfold value_off. rewrite (size_take_S _ _ v); [|rewrite values_lookup, list_lookup_middle; done].
  rewrite values_app, take_app_length'; [lia|]. unfold values_of. by rewrite length_map.
Qed.
Lemma vlen_leaf pad pairs slack : vlen (leaf pad pairs slack) = total pairs + vlen slack.
Proof.
  unfold leaf, leaf_page. rewrite !vlen_app, vlen_header, vlen_key_tab, vlen_value_tab, vlen_key_ends, vlen_value_ends.
  unfold total, section, size. lia.
Qed.
Lemma total_pos pairs : 4 <= total pairs.
Proof. unfold total. pose proof (section_pos pairs). pose proof (size_nonneg (keys_of pairs)). pose proof (size_nonneg (values_of pairs)). lia. Qed.

(** ** Changing the tables *)

Lemma update_ptr_ok h E1 e E2 s d : 0 <= e < 2 ^ 32 -> 0 <= d + e < 2 ^ 32 ->
  LeafMutator.update_ptr (h ++ concat (map (to_le_bytes 4) (E1 ++ e :: E2)) ++ s) (vlen h + 4 * vlen E1) d =
  Ret (h ++ concat (map (to_le_bytes 4) (E1 ++ (d + e) :: E2)) ++ s).
Proof.
  intros He Hd. rewrite !map_app, !concat_app. cbn [map concat]. set (t1 := concat (map (to_le_bytes 4) E1)).
  assert (Ht : vlen t1 = 4 * vlen E1) by (subst t1; rewrite (vlen_concat_chunks _ 4) by (intros; apply length_to_le_bytes); lia).
  rewrite <-!app_assoc, (app_assoc h t1), (app_assoc h t1). unfold LeafMutator.update_ptr.
  rewrite (slice_middle (h ++ t1) (to_le_bytes 4 e)) by (rewrite ?vlen_app, ?vlen_to_le_bytes; lia). cbn [mbind outcome_bind].
  rewrite from_to_le_bytes, (utry_ok 63 e) by (cbn in *; lia). cbn [mbind outcome_bind].
  rewrite (Z.add_comm e d), utry_ok by lia. cbn [mbind outcome_bind].
  rewrite (splice_middle (h ++ t1) (to_le_bytes 4 e)) by (rewrite ?vlen_app, ?length_to_le_bytes; lia). done.
Qed.

Lemma update_key_end_ok pad n E1 e E2 F body d : 0 <= e < 2 ^ 32 -> 0 <= d + e < 2 ^ 32 ->
  LeafMutator.update_key_end fk (leaf_page pad n (E1 ++ e :: E2) F body) (vlen E1) d =
  Ret (leaf_page pad n (E1 ++ (d + e) :: E2) F body).
Proof.
  intros He Hd. unfold LeafMutator.update_key_end, leaf_page. destruct fk; [done|]. cbn [tab].
  rewrite <-(vlen_header pad n) at 2. by apply update_ptr_ok.
Qed.
Lemma update_value_end_ok pad n E F1 f F2 body d : 0 <= n < 2 ^ 16 -> vlen E = n -> 0 <= f < 2 ^ 32 -> 0 <= d + f < 2 ^ 32 ->
  LeafMutator.update_value_end fk fv (leaf_page pad n E (F1 ++ f :: F2) body) (vlen F1) d =
  Ret (leaf_page pad n E (F1 ++ (d + f) :: F2) body).
Proof.
  intros Hn HE He Hd. unfold LeafMutator.update_value_end, LeafMutator.accessor. destruct fv as [w|] eqn:Ev.
  { unfold leaf_page. by rewrite Ev. }
  rewrite <-Ev at 1. rewrite leaf_page_accessor by done. cbn [mbind outcome_bind LeafAccessor.num_pairs].
  replace (match fk with Some _ => 4 + 4 * vlen F1 | None => 4 + 4 * vlen F1 + 4 * n end)
    with (vlen (header pad n ++ tab fk E) + 4 * vlen F1)
    by (rewrite vlen_app, vlen_header, vlen_key_tab; unfold LeafMutator.key_ptr_size; destruct fk; lia).
  unfold leaf_page. rewrite Ev. cbn [tab]. rewrite !(app_assoc (header pad n)). by apply update_ptr_ok.
Qed.

(** A loop that adds [dk] to the key ends and [dv] to the value ends *)
Definition updates (pad n : Z) (body : list Z) (dk dv : Z) (step : Z -> list Z -> outcome (list Z)) : Prop :=
  forall E1 e E2 F1 f F2, vlen (E1 ++ e :: E2) = n -> vlen E1 = vlen F1 ->
  0 <= e < 2 ^ 32 -> 0 <= dk + e < 2 ^ 32 -> 0 <= f < 2 ^ 32 -> 0 <= dv + f < 2 ^ 32 ->
  step (vlen E1) (leaf_page pad n (E1 ++ e :: E2) (F1 ++ f :: F2) body) =
  Ret (leaf_page pad n (E1 ++ (dk + e) :: E2) (F1 ++ (dv + f) :: F2) body).

Lemma update_loop pad n body dk dv step E2 : forall F2 E1 E3 F1 F3 lo hi, updates pad n body dk dv step ->
  vlen (E1 ++ E2 ++ E3) = n -> vlen E1 = vlen F1 -> length E2 = length F2 -> lo = vlen E1 -> hi = lo + vlen E2 ->
  Forall (fun e => 0 <= e < 2 ^ 32 /\ 0 <= dk + e < 2 ^ 32) E2 ->
  Forall (fun f => 0 <= f < 2 ^ 32 /\ 0 <= dv + f < 2 ^ 32) F2 ->
  range_loop lo hi step (leaf_page pad n (E1 ++ E2 ++ E3) (F1 ++ F2 ++ F3) body) =
  Ret (leaf_page pad n (E1 ++ map (Z.add dk) E2 ++ E3) (F1 ++ map (Z.add dv) F2 ++ F3) body).
Proof.
  unfold range_loop. induction E2 as [|e E2 IH]; intros [|f F2] E1 E3 F1 F3 lo hi Hu Hn HE HL -> -> Hb1 Hb2; try done.
  { rewrite Z.add_0_r, Z.sub_diag. done. }
  apply Forall_cons in Hb1 as [[] Hb1]. apply Forall_cons in Hb2 as [[] Hb2]. assert (HLe : vlen (e :: E2) = 1 + vlen E2) by (unfold vlen; simpl; lia).
  pose proof (vlen_nonneg E2). rewrite HLe. replace (vlen E1 + (1 + vlen E2) - vlen E1) with (1 + vlen E2) by lia.
  rewrite seqZ_cons by lia. cbn [for_each app map]. rewrite (Hu E1 e (E2 ++ E3) F1 f (F2 ++ F3)) by done.
  cbn [mbind outcome_bind]. specialize (IH F2 (E1 ++ [dk + e]) E3 (F1 ++ [dv + f]) F3 (Z.succ (vlen E1)) (Z.succ (vlen E1) + vlen E2)).
  replace (Z.succ (vlen E1) + vlen E2 - Z.succ (vlen E1)) with (Z.pred (1 + vlen E2)) in IH by lia.
  rewrite <-!app_assoc in IH. cbn [app] in IH.
  apply IH; try done; rewrite ?vlen_app in *; unfold vlen in *; cbn [length app] in *; rewrite ?length_app in *; lia.
Qed.

(** ** Replacing a value *)

Lemma value_ends_bounds pairs : leaf_ok pairs -> Forall (fun f => 0 <= f < 2 ^ 32) (value_ends pairs).
Proof.
  intros [_ _ _ Ht]. apply Forall_forall. intros f Hf. apply ends_bound in Hf. unfold total in Ht.
  pose proof (section_pos pairs). pose proof (size_nonneg (keys_of pairs)). lia.
Qed.
Lemma key_ends_bounds pairs : leaf_ok pairs -> Forall (fun f => 0 <= f < 2 ^ 32) (key_ends pairs).
Proof.
  intros [_ _ _ Ht]. apply Forall_forall. intros f Hf. apply ends_bound in Hf. unfold total in Ht.
  pose proof (section_pos pairs). pose proof (size_nonneg (values_of pairs)). lia.
Qed.

Lemma update_value_only pad n body d : 0 <= n < 2 ^ 16 -> updates pad n body 0 d (fun j page => LeafMutator.update_value_end fk fv page j d).
Proof.
  intros Hn E1 e E2 F1 f F2 HE HEF _ _ Hf Hdf. rewrite HEF. apply update_value_end_ok; [done| |done|done].
  rewrite <-HE. rewrite !vlen_app. unfold vlen. simpl. lia.
Qed.

Lemma ends_resize b x y l : map (Z.add (vlen y - vlen x)) (ends b (x :: l)) = ends b (y :: l).
Proof. cbn [ends map]. rewrite ends_shift. f_equal; [lia|f_equal; lia]. Qed.

Lemma map_add_0 l : map (Z.add 0) l = l.
Proof. apply map_id. Qed.
Lemma vlen_cons {A} (x : A) l : vlen (x :: l) = 1 + vlen l.
Proof. unfold vlen. simpl. lia. Qed.
Lemma Forall_shift d l : Forall (fun e => 0 <= e < 2 ^ 32) l -> Forall (fun e => 0 <= e < 2 ^ 32) (map (Z.add d) l) ->
  Forall (fun e => 0 <= e < 2 ^ 32 /\ 0 <= d + e < 2 ^ 32) l.
Proof. induction 1 as [|e l He _ IH]; intros H2; [constructor|]. apply Forall_cons in H2 as [? ?]. constructor; auto. Qed.

Section replace.
  Context (pad : Z) (P1 P2 : list (list Z * list Z)) (k v value : list Z) (slack : list Z).
  Notation pairs := (P1 ++ (k, v) :: P2).
  Notation pairs' := (P1 ++ (k, value) :: P2).
  Context (Hok : leaf_ok pairs) (Hok' : leaf_ok pairs').

Lemma replace_same : vlen pairs' = vlen pairs /\ keys_of pairs' = keys_of pairs /\ values_of pairs = values_of P1 ++ v :: values_of P2 /\
  values_of pairs' = values_of P1 ++ value :: values_of P2.
Proof. unfold keys_of, values_of. rewrite !map_app, !vlen_app, !vlen_cons. done. Qed.

(** The loop of [replace] *)
Lemma replace_loop body (d := vlen value - vlen v) :
  range_loop (vlen P1) (vlen pairs) (fun j page => LeafMutator.update_value_end fk fv page j d)
    (leaf_page pad (vlen pairs) (key_ends pairs) (value_ends pairs) body) =
  Ret (leaf_page pad (vlen pairs') (key_ends pairs') (value_ends pairs') body).
Proof using Hok Hok'.
  destruct replace_same as (Hn & Hk & Hv & Hv'). set (c := section (vlen pairs) + size (keys_of pairs)).
  assert (HF : value_ends pairs = ends c (values_of P1) ++ ends (c + size (values_of P1)) (v :: values_of P2) ++ []).
  { unfold value_ends. by rewrite Hv, ends_app, app_nil_r. }
  assert (HF' : value_ends pairs' = ends c (values_of P1) ++ map (Z.add d) (ends (c + size (values_of P1)) (v :: values_of P2)) ++ []).
  { unfold value_ends. rewrite Hn, Hk, Hv', ends_app, app_nil_r. f_equal. unfold d. by rewrite ends_resize. }
  assert (HE : key_ends pairs' = key_ends pairs) by (unfold key_ends; by rewrite Hn, Hk).
  rewrite HE, HF, HF', Hn.
  replace (key_ends pairs) with (take (length P1) (key_ends pairs) ++ drop (length P1) (key_ends pairs) ++ []) at 1
    by (by rewrite app_nil_r, take_drop).
  pose proof (vlen_key_ends pairs) as HKE. pose proof (leaf_count _ Hok) as Hc.
  rewrite (update_loop pad (vlen pairs) body 0 d).
  - by rewrite map_add_0, app_nil_r, take_drop.
  - apply update_value_only. pose proof (vlen_nonneg pairs). lia.
  - rewrite app_nil_r, take_drop. done.
  - rewrite vlen_ends, vlen_values. unfold vlen in *. rewrite length_take. rewrite length_app in *. lia.
  - rewrite length_ends, length_drop. cbn [length]. unfold values_of. rewrite length_map. unfold vlen in HKE. rewrite length_app in *. cbn [length] in *. lia.
  - unfold vlen in *. rewrite length_take, length_app in *. lia.
  - unfold vlen in *. rewrite length_drop, length_app in *. lia.
  - apply Forall_drop, Forall_shift; [|rewrite map_add_0]; by apply key_ends_bounds.
  - apply Forall_shift.
    + pose proof (value_ends_bounds _ Hok) as Hb. rewrite HF, !Forall_app in Hb. tauto.
    + pose proof (value_ends_bounds _ Hok') as Hb. rewrite HF', !Forall_app in Hb. tauto.
Qed.

Lemma replace_ok : vlen (leaf pad pairs slack) < 2 ^ 63 -> total pairs' <= vlen (leaf pad pairs slack) ->
  exists slack', vlen (leaf pad pairs' slack') = vlen (leaf pad pairs slack) /\
  LeafMutator.replace fk fv (leaf pad pairs slack) (vlen P1) value = Ret (leaf pad pairs' slack').
Proof using Hok Hok'.
  intros Hpage Hfit. destruct replace_same as (Hn & Hk & Hv & Hv').
  set (c := section (vlen pairs) + size (keys_of pairs) + size (values_of P1)).
  assert (Ht : total pairs = c + vlen v + size (values_of P2)).
  { unfold total, c. rewrite Hv, size_app, size_cons. lia. }
  assert (Ht' : total pairs' = c + vlen value + size (values_of P2)).
  { unfold total, c. rewrite Hn, Hk, Hv', size_app, size_cons. lia. }
  pose proof (leaf_total _ Hok) as Hb. pose proof (leaf_total _ Hok') as Hb'. pose proof (vlen_leaf pad pairs slack) as HL.
  assert (Hc : 4 <= c) by (unfold c; pose proof (section_pos pairs); pose proof (size_nonneg (keys_of pairs)); pose proof (size_nonneg (values_of P1)); lia).
  pose proof (vlen_nonneg v). pose proof (vlen_nonneg value). pose proof (size_nonneg (values_of P2)).
  assert (Hi : (length P1 < length pairs)%nat) by (rewrite length_app; simpl; lia). pose proof (leaf_nonempty _ Hok).
  assert (A2 : LeafAccessor.value_start (accessor_of pad pairs slack) (vlen P1 + 1) = Ret (Some (c + vlen v))).
  { replace (vlen P1 + 1) with (Z.of_nat (S (length P1))) by (unfold vlen; lia).
    rewrite value_start_ok, value_off_after by (done || lia). done. }
  assert (A3 : LeafMutator.value_len (accessor_of pad pairs slack) (vlen P1) = Ret (vlen v)).
  { unfold LeafMutator.value_len, vlen at 1. rewrite value_range_ok, value_off_at, value_off_after by done.
    fold c. cbn [mbind outcome_bind]. rewrite usub_ok by lia. f_equal. lia. }
  unfold LeafMutator.replace, LeafMutator.accessor. rewrite leaf_accessor by done. cbn [mbind outcome_bind].
  change (LeafAccessor.num_pairs (accessor_of pad pairs slack)) with (vlen pairs). ostep.
  unfold expect, unwrap_or. rewrite last_value_end, A2, A3, total_length_ok by done. cbn [mbind outcome_bind unwrap default].
  osteps.
  pose proof (replace_loop (concat (keys_of pairs) ++ concat (values_of pairs) ++ slack)) as Hloop.
  fold (leaf pad pairs slack) in Hloop. rewrite Hloop. cbn [mbind outcome_bind id]. osteps.
  destruct (resize_gap (header pad (vlen pairs') ++ tab fk (key_ends pairs') ++ tab fv (value_ends pairs') ++ concat (keys_of pairs) ++ concat (values_of P1))
    v (concat (values_of P2)) slack (leaf_page pad (vlen pairs') (key_ends pairs') (value_ends pairs') (concat (keys_of pairs) ++ concat (values_of pairs) ++ slack))
    (c + vlen v) (total pairs) (vlen value - vlen v) (c + vlen v + (vlen value - vlen v))) as (M & S' & HM & HS & Hcw).
  - unfold leaf_page. rewrite Hv, concat_app. cbn [concat]. by rewrite <-!app_assoc.
  - rewrite !vlen_app, vlen_header, vlen_key_tab, vlen_value_tab, vlen_key_ends, vlen_value_ends, Hn. unfold c, section, size. lia.
  - rewrite Ht. done.
  - done.
  - lia.
  - lia.
  - rewrite Hcw. cbn [mbind outcome_bind]. exists S'. split; [rewrite !vlen_leaf; lia|].
    rewrite splice_middle; [| |unfold vlen in *; lia].
    + unfold leaf, leaf_page. rewrite Hv', Hk, concat_app. cbn [concat]. by rewrite <-!app_assoc.
    + rewrite !vlen_app, vlen_header, vlen_key_tab, vlen_value_tab, vlen_key_ends, vlen_value_ends, Hn. unfold c, section, size. lia.
Qed.
End replace.

(** ** Inserting a pair *)

Lemma tab_1 fixed e : tab fixed [e] = match fixed with None => to_le_bytes 4 e | Some _ => [] end.
Proof. destruct fixed; [done|]. cbn [tab map concat]. by rewrite app_nil_r. Qed.

(** The write of a pointer, if there is one *)
Lemma insert_pointer_ok fixed (P G D page : list Z) e dest :
  page = P ++ G ++ D -> dest = vlen P + vlen G -> vlen (tab fixed [e]) <= vlen G ->
  exists G', vlen G' = vlen G - vlen (tab fixed [e]) /\
  LeafMutator.insert_pointer fixed page dest e = Ret (P ++ G' ++ tab fixed [e] ++ D, vlen P + vlen G').
Proof.
  intros Hp -> Hle. rewrite tab_1 in *. unfold LeafMutator.insert_pointer. destruct fixed.
  - exists G. rewrite Hp. cbn [app]. split; [unfold vlen; simpl; lia|done].
  - rewrite vlen_to_le_bytes in *. pose proof (vlen_nonneg P).
    destruct (write_end P G D (to_le_bytes 4 e) page (vlen P + vlen G - 4)) as (G' & HG & Hs);
      [done|rewrite vlen_to_le_bytes; lia|rewrite vlen_to_le_bytes; lia|].
    exists G'. rewrite vlen_to_le_bytes in HG. split; [done|]. rewrite usub_ok by lia. cbn [mbind outcome_bind]. rewrite Hs.
    cbn [mbind outcome_bind]. do 2 f_equal. lia.
Qed.

Lemma shift_pointer fixed (P X G D page : list Z) a b dest e :
  page = P ++ X ++ G ++ D -> a = vlen P -> b = vlen P + vlen X -> dest = vlen P + vlen G -> vlen (tab fixed [e]) <= vlen G ->
  exists page1 G', vlen G' = vlen G - vlen (tab fixed [e]) /\ copy_within page a b dest = Ret page1 /\
    LeafMutator.insert_pointer fixed page1 dest e = Ret (P ++ G' ++ tab fixed [e] ++ X ++ D, vlen P + vlen G').
Proof.
  intros Hp Ha Hb Hd Hle. destruct (shift_right P X G D page a b dest Hp Ha Hb Hd) as (G1 & L1 & S1).
  destruct (insert_pointer_ok fixed P G1 (X ++ D) _ e dest eq_refl) as (G2 & L2 & S2); [lia|lia|].
  exists (P ++ G1 ++ X ++ D), G2. split; [lia|done].
Qed.

Section insert_data.
  Context (pad N num i sks svs lve : Z) (A1 A2 B1 B2 k1 k2 v1 v2 key value G R : list Z).
  Context (HA1 : vlen A1 = i) (HB1 : vlen B1 = i) (HA2 : vlen A2 = num - i) (HB2 : vlen B2 = num - i).
  Context (Hsks : sks = 4 + kp * num + vp * num + vlen k1) (Hsvs : svs = sks + vlen k2 + vlen v1) (Hlve : lve = svs + vlen v2).
  Context (HG : vlen G = kp + vp + vlen key + vlen value) (Hfit : lve + vlen G < 2 ^ 32).

Lemma insert_data_ok :
  LeafMutator.insert_data fk fv (leaf_page pad N (A1 ++ A2) (B1 ++ B2) (k1 ++ k2 ++ v1 ++ v2 ++ G ++ R)) num i sks svs lve key value =
  Ret (leaf_page pad N (A1 ++ (sks + kp + vp + vlen key) :: A2) (B1 ++ (svs + vlen G) :: B2) (k1 ++ key ++ k2 ++ v1 ++ value ++ v2 ++ R)).
Proof using All.
  pose proof ptr_sizes as [Hkp Hvp]. pose proof (vlen_nonneg key). pose proof (vlen_nonneg value). pose proof (vlen_nonneg v1).
  pose proof (vlen_nonneg v2). pose proof (vlen_nonneg k1). pose proof (vlen_nonneg k2). pose proof (vlen_nonneg A1). pose proof (vlen_nonneg A2).
  set (HD := header pad N). set (TK1 := tab fk A1). set (TK2 := tab fk A2). set (TV1 := tab fv B1). set (TV2 := tab fv B2).
  assert (LH : vlen HD = 4) by apply vlen_header.
  assert (LK1 : vlen TK1 = kp * i) by (unfold TK1; by rewrite vlen_key_tab, HA1).
  assert (LK2 : vlen TK2 = kp * num - kp * i) by (unfold TK2; rewrite vlen_key_tab, HA2; lia).
  assert (LV1 : vlen TV1 = vp * i) by (unfold TV1; by rewrite vlen_value_tab, HB1).
  assert (LV2 : vlen TV2 = vp * num - vp * i) by (unfold TV2; rewrite vlen_value_tab, HB2; lia).
  assert (LE : forall e, vlen (tab fk [e]) = kp /\ vlen (tab fv [e]) = vp).
  { intros e. rewrite vlen_key_tab, vlen_value_tab. unfold vlen. simpl. lia. }
  unfold LeafMutator.insert_data.
  (* the values *)
  destruct (shift_write (HD ++ TK1 ++ TK2 ++ TV1 ++ TV2 ++ k1 ++ k2 ++ v1) v2 G R value
    (leaf_page pad N (A1 ++ A2) (B1 ++ B2) (k1 ++ k2 ++ v1 ++ v2 ++ G ++ R)) svs lve (svs + kp + vp + vlen key + vlen value) _
    ltac:(unfold leaf_page; rewrite !tab_app; by rewrite <-!app_assoc) ltac:(rewrite !vlen_app; lia) ltac:(rewrite !vlen_app; lia)
    ltac:(rewrite !vlen_app; lia) eq_refl ltac:(lia)) as (page1 & G1 & L1 & S1 & W1).
  rewrite S1. cbn [mbind outcome_bind]. osteps. rewrite W1. cbn [mbind outcome_bind]. osteps.
  (* the keys *)
  destruct (shift_write (HD ++ TK1 ++ TK2 ++ TV1 ++ TV2 ++ k1) (k2 ++ v1) G1 (value ++ v2 ++ R) key
    ((HD ++ TK1 ++ TK2 ++ TV1 ++ TV2 ++ k1 ++ k2 ++ v1) ++ G1 ++ value ++ v2 ++ R) sks svs
    (svs + kp + vp + vlen key + vlen value - vlen value - (svs - sks)) _
    ltac:(by rewrite <-!app_assoc) ltac:(rewrite !vlen_app; lia) ltac:(rewrite !vlen_app; lia)
    ltac:(rewrite !vlen_app; lia) eq_refl ltac:(lia)) as (page2 & G2 & L2 & S2 & W2).
  rewrite S2. cbn [mbind outcome_bind]. osteps. rewrite W2. cbn [mbind outcome_bind]. osteps.
  (* the value pointers *)
  set (vend := svs + kp + vp + vlen key + vlen value) in *. set (kend := vend - vlen value - (svs - sks)) in *.
  set (dest := kend - vlen key - (sks - (4 + kp * num + vp * i))).
  destruct (shift_pointer fv (HD ++ TK1 ++ TK2 ++ TV1) (TV2 ++ k1) G2 (key ++ (k2 ++ v1) ++ value ++ v2 ++ R)
    ((HD ++ TK1 ++ TK2 ++ TV1 ++ TV2 ++ k1) ++ G2 ++ key ++ (k2 ++ v1) ++ value ++ v2 ++ R) (4 + kp * num + vp * i) sks dest vend
    ltac:(by rewrite <-!app_assoc) ltac:(rewrite !vlen_app; lia) ltac:(rewrite !vlen_app; lia)
    ltac:(rewrite !vlen_app; lia) ltac:(rewrite (proj2 (LE _)); lia)) as (page3 & G3 & L3 & S3 & W3).
  rewrite S3. cbn [mbind outcome_bind]. rewrite W3. cbn [mbind outcome_bind]. rewrite (proj2 (LE _)) in L3. rewrite !vlen_app. osteps.
  (* the key pointers *)
  set (dest2 := vlen HD + (vlen TK1 + (vlen TK2 + vlen TV1)) + vlen G3 - (4 + kp * num + vp * i - (4 + kp * i))).
  destruct (shift_pointer fk (HD ++ TK1) (TK2 ++ TV1) G3 (tab fv [vend] ++ (TV2 ++ k1) ++ key ++ (k2 ++ v1) ++ value ++ v2 ++ R)
    ((HD ++ TK1 ++ TK2 ++ TV1) ++ G3 ++ tab fv [vend] ++ (TV2 ++ k1) ++ key ++ (k2 ++ v1) ++ value ++ v2 ++ R)
    (4 + kp * i) (4 + kp * num + vp * i) dest2 kend
    ltac:(by rewrite <-!app_assoc) ltac:(rewrite !vlen_app; lia) ltac:(rewrite !vlen_app; lia)
    ltac:(rewrite !vlen_app; lia) ltac:(rewrite (proj1 (LE _)); lia)) as (page4 & G8 & L8 & S4 & W4).
  rewrite S4. cbn [mbind outcome_bind]. rewrite W4. cbn [mbind outcome_bind]. rewrite (proj1 (LE _)) in L8. rewrite !vlen_app. osteps.
  assert (G8 = []) as -> by (apply length_zero_iff_nil; unfold vlen in *; lia).
  unfold leaf_page. rewrite !tab_app, (tab_app fk [_] A2 : tab fk (_ :: A2) = _), (tab_app fv [_] B2 : tab fv (_ :: B2) = _).
  replace (sks + kp + vp + vlen key) with kend by (subst kend vend; lia). replace (svs + vlen G) with vend by (subst vend; lia).
  fold HD TK1 TK2 TV1 TV2. cbn [app]. by rewrite <-!app_assoc.
Qed.
End insert_data.

(** The updates of [insert] *)
Lemma insert_before_updates pad n body key : 0 <= n < 2 ^ 16 -> kp + vp + vlen key < 2 ^ 63 ->
  updates pad n body (kp + vp) (kp + vp + vlen key) (LeafMutator.insert_update_before fk fv key).
Proof.
  intros Hn Hk E1 e E2 F1 f F2 HE HEF He Hde Hf Hdf. pose proof ptr_sizes. pose proof (vlen_nonneg key).
  unfold LeafMutator.insert_update_before. osteps. rewrite update_key_end_ok by done. cbn [mbind outcome_bind]. osteps.
  rewrite HEF. apply update_value_end_ok; try done. rewrite <-HE, !vlen_app, !vlen_cons. done.
Qed.
Lemma insert_after_updates pad n body key value : 0 <= n < 2 ^ 16 -> kp + vp + vlen key + vlen value < 2 ^ 63 ->
  updates pad n body (kp + vp + vlen key) (kp + vp + vlen key + vlen value) (LeafMutator.insert_update_after fk fv key value).
Proof.
  intros Hn Hk E1 e E2 F1 f F2 HE HEF He Hde Hf Hdf. pose proof ptr_sizes. pose proof (vlen_nonneg key). pose proof (vlen_nonneg value).
  unfold LeafMutator.insert_update_after. osteps. rewrite update_key_end_ok by done. cbn [mbind outcome_bind]. osteps.
  rewrite HEF. apply update_value_end_ok; try done. rewrite <-HE, !vlen_app, !vlen_cons. done.
Qed.

(** Writing the number of pairs *)
Lemma set_count pad n m E F body : splice (leaf_page pad n E F body) 2 (to_le_bytes 2 m) = Ret (leaf_page pad m E F body).
Proof.
  unfold leaf_page, header. rewrite <-!app_assoc. by rewrite (splice_middle [LEAF; pad] (to_le_bytes 2 n)).
Qed.

Section insert.
  Context (pad : Z) (P1 P2 : list (list Z * list Z)) (key value slack : list Z).
  Notation pairs := (P1 ++ P2).
  Notation pairs' := (P1 ++ (key, value) :: P2).
  Notation S0 := (section (vlen pairs)).
  Notation K1 := (keys_of P1).
  Notation K2 := (keys_of P2).
  Notation V1 := (values_of P1).
  Notation V2 := (values_of P2).
  Context (Hok : leaf_ok pairs) (Hok' : leaf_ok pairs').

Lemma insert_section : vlen pairs' = vlen pairs + 1 /\ section (vlen pairs') = S0 + kp + vp.
Proof. assert (vlen pairs' = vlen pairs + 1) as -> by (rewrite !vlen_app, vlen_cons; lia). split; [done|]. unfold section. lia. Qed.
Lemma insert_sizes : size (keys_of pairs) = size K1 + size K2 /\ size (values_of pairs) = size V1 + size V2 /\
  size (keys_of pairs') = size K1 + vlen key + size K2 /\ size (values_of pairs') = size V1 + vlen value + size V2.
Proof. rewrite !keys_app, !values_app, !size_app. cbn [keys_of values_of map fst snd]. rewrite !size_cons. unfold keys_of, values_of. lia. Qed.

(** The tables before and after *)
Lemma insert_key_tables : key_ends pairs = ends S0 K1 ++ ends (S0 + size K1) K2 /\
  key_ends pairs' = map (Z.add (kp + vp)) (ends S0 K1) ++ (S0 + size K1 + kp + vp + vlen key) ::
    map (Z.add (kp + vp + vlen key)) (ends (S0 + size K1) K2).
Proof.
  destruct insert_section as [_ HS]. unfold key_ends. rewrite !keys_app, !ends_app, HS, !ends_shift. split; [done|].
  cbn [keys_of map fst ends]. f_equal; [f_equal; lia|]. f_equal; [lia|f_equal; lia].
Qed.
Lemma insert_value_tables (c := S0 + size (keys_of pairs)) : value_ends pairs = ends c V1 ++ ends (c + size V1) V2 /\
  value_ends pairs' = map (Z.add (kp + vp + vlen key)) (ends c V1) ++ (c + size V1 + kp + vp + vlen key + vlen value) ::
    map (Z.add (kp + vp + vlen key + vlen value)) (ends (c + size V1) V2).
Proof.
  destruct insert_section as [_ HS]. destruct insert_sizes as (Hk & Hv & Hk' & Hv'). unfold value_ends, c.
  rewrite !values_app, !ends_app, HS, !ends_shift, Hk, Hk'. split; [done|].
  cbn [values_of map snd ends]. f_equal; [f_equal; lia|]. f_equal; [lia|f_equal; lia].
Qed.

(** The two loops of [insert] *)
Lemma insert_loops body (c := S0 + size (keys_of pairs)) :
  (page ← range_loop 0 (vlen P1) (LeafMutator.insert_update_before fk fv key)
     (leaf_page pad (vlen pairs) (key_ends pairs) (value_ends pairs) body);
   range_loop (vlen P1) (vlen pairs) (LeafMutator.insert_update_after fk fv key value) page) =
  Ret (leaf_page pad (vlen pairs)
    (map (Z.add (kp + vp)) (ends S0 K1) ++ map (Z.add (kp + vp + vlen key)) (ends (S0 + size K1) K2))
    (map (Z.add (kp + vp + vlen key)) (ends c V1) ++ map (Z.add (kp + vp + vlen key + vlen value)) (ends (c + size V1) V2)) body).
Proof using Hok Hok'.
  destruct insert_key_tables as [TE TE'], insert_value_tables as [TF TF']. fold c in TF, TF'.
  pose proof (key_ends_bounds _ Hok) as BE. pose proof (key_ends_bounds _ Hok') as BE'.
  pose proof (value_ends_bounds _ Hok) as BF. pose proof (value_ends_bounds _ Hok') as BF'.
  rewrite TE, Forall_app in BE. rewrite TE', Forall_app, Forall_cons in BE'. rewrite TF, Forall_app in BF. rewrite TF', Forall_app, Forall_cons in BF'.
  pose proof (leaf_count _ Hok) as Hc. pose proof (leaf_total _ Hok') as Ht. unfold total in Ht. destruct insert_section as [Hn HS], insert_sizes as (_ & _ & Hk' & Hv').
  pose proof (section_pos pairs). pose proof (size_nonneg K1). pose proof (size_nonneg K2). pose proof (size_nonneg V1). pose proof (size_nonneg V2).
  pose proof (vlen_nonneg key). pose proof (vlen_nonneg value). pose proof (vlen_nonneg pairs). pose proof ptr_sizes.
  rewrite TE, TF.
  pose proof (update_loop pad (vlen pairs) body (kp + vp) (kp + vp + vlen key) (LeafMutator.insert_update_before fk fv key)
    (ends S0 K1) (ends c V1) [] (ends (S0 + size K1) K2) [] (ends (c + size V1) V2) 0 (vlen P1)
    ltac:(apply insert_before_updates; lia)) as Hloop1.
  cbn [app] in Hloop1. rewrite Hloop1; clear Hloop1;
    [|solve [rewrite ?vlen_app, ?vlen_ends, ?vlen_keys; done | apply Forall_shift; tauto
      | rewrite !length_ends; unfold keys_of, values_of; by rewrite !length_map] ..].
  cbn [mbind outcome_bind].
  pose proof (update_loop pad (vlen pairs) body (kp + vp + vlen key) (kp + vp + vlen key + vlen value) (LeafMutator.insert_update_after fk fv key value)
    (ends (S0 + size K1) K2) (ends (c + size V1) V2) (map (Z.add (kp + vp)) (ends S0 K1)) [] (map (Z.add (kp + vp + vlen key)) (ends c V1)) []
    (vlen P1) (vlen pairs) ltac:(apply insert_after_updates; lia)) as Hloop.
  rewrite !app_nil_r in Hloop. apply Hloop;
    solve [rewrite ?vlen_app, ?vlen_map, ?vlen_ends, ?vlen_keys, ?vlen_values; done | apply Forall_shift; tauto
      | rewrite !length_ends; unfold keys_of, values_of; by rewrite !length_map].
Qed.

Lemma insert_ok : vlen (leaf pad pairs slack) < 2 ^ 63 -> total pairs' <= vlen (leaf pad pairs slack) ->
  exists slack', vlen (leaf pad pairs' slack') = vlen (leaf pad pairs slack) /\
  LeafMutator.insert fk fv (leaf pad pairs slack) (vlen P1) key value = Ret (leaf pad pairs' slack').
Proof using Hok Hok'.
  intros Hpage Hfit. destruct insert_section as [Hn HS], insert_sizes as (Hk & Hv & Hk' & Hv').
  destruct insert_key_tables as [_ TE'], insert_value_tables as [_ TF'].
  pose proof (vlen_leaf pad pairs slack) as HL. pose proof (leaf_total _ Hok) as Ht. pose proof (leaf_total _ Hok') as Ht'.
  pose proof (leaf_nonempty _ Hok). pose proof (leaf_count _ Hok'). pose proof ptr_sizes as Hps. unfold total in *.
  pose proof (section_pos pairs). pose proof (size_nonneg K1). pose proof (size_nonneg K2). pose proof (size_nonneg V1). pose proof (size_nonneg V2).
  pose proof (vlen_nonneg key). pose proof (vlen_nonneg value).
  set (d := kp + vp + vlen key + vlen value). assert (Hd : 0 <= d <= vlen slack) by lia.
  exists (drop (Z.to_nat d) slack). split; [rewrite vlen_leaf, vlen_drop by lia; unfold total; lia|].
  unfold LeafMutator.insert, LeafMutator.accessor. rewrite leaf_accessor by done. cbn [mbind outcome_bind].
  change (LeafAccessor.num_pairs (accessor_of pad pairs slack)) with (vlen pairs).
  rewrite total_length_ok by done. cbn [mbind outcome_bind]. unfold total. osteps.
  assert (HP : (length P1 <= length pairs)%nat) by (rewrite length_app; lia).
  assert (A1 : LeafAccessor.key_start (accessor_of pad pairs slack) (vlen P1) = Ret (Some (S0 + size K1))).
  { unfold vlen at 1. by rewrite key_start_ok, key_off_at. }
  assert (A2 : LeafAccessor.value_start (accessor_of pad pairs slack) (vlen P1) = Ret (Some (S0 + size (keys_of pairs) + size V1))).
  { unfold vlen at 1. by rewrite value_start_ok, value_off_at. }
  unfold expect, unwrap_or. rewrite last_key_end, last_value_end, A1, A2 by done. cbn [mbind outcome_bind unwrap default id].
  pose proof (insert_loops (concat (keys_of pairs) ++ concat (values_of pairs) ++ slack)) as Hloops.
  fold (leaf pad pairs slack) in Hloops. apply outcome_bind_Ret in Hloops as (page1 & Hl1 & Hl2). rewrite Hl1. cbn [mbind outcome_bind].
  rewrite Hl2. cbn [mbind outcome_bind]. osteps. rewrite set_count. cbn [mbind outcome_bind].
  pose proof (insert_data_ok pad (vlen pairs + 1) (vlen pairs) (vlen P1) (S0 + size K1) (S0 + size (keys_of pairs) + size V1) (total pairs)
    (map (Z.add (kp + vp)) (ends S0 K1)) (map (Z.add (kp + vp + vlen key)) (ends (S0 + size K1) K2))
    (map (Z.add (kp + vp + vlen key)) (ends (S0 + size (keys_of pairs)) V1))
    (map (Z.add (kp + vp + vlen key + vlen value)) (ends (S0 + size (keys_of pairs) + size V1) V2))
    (concat K1) (concat K2) (concat V1) (concat V2) key value (take (Z.to_nat d) slack) (drop (Z.to_nat d) slack)) as Hdata.
  rewrite !vlen_map, !vlen_ends, !vlen_keys, !vlen_values, vlen_take in Hdata by lia. pose proof (vlen_app P1 P2) as HPn.
  rewrite take_drop, (app_assoc (concat K1)), (app_assoc (concat V1)), <-!concat_app, <-keys_app, <-values_app in Hdata.
  rewrite Hdata; clear Hdata; [|unfold total, section, size in *; lia ..].
  unfold leaf. rewrite TE', TF', Hn. rewrite !keys_app, !values_app, !concat_app. cbn [keys_of values_of map fst snd concat].
  unfold d. rewrite !Z.add_assoc, <-!app_assoc. done.
Qed.
End insert.

(** ** Removing a pair *)

Section remove_data.
  Context (pad N num i ks ke vs ve lve klen e f : Z) (A1 A2 B1 B2 k1 k k2 v1 v v2 R : list Z).
  Context (HA1 : vlen A1 = i) (HB1 : vlen B1 = i) (HA2 : vlen A2 = num - i - 1) (HB2 : vlen B2 = num - i - 1).
  Context (Hks : ks = 4 + kp * num + vp * num + vlen k1) (Hke : ke = ks + vlen k) (Hvs : vs = ke + vlen k2 + vlen v1)
    (Hve : ve = vs + vlen v) (Hlve : lve = ve + vlen v2) (Hklen : klen = vlen k).

Lemma remove_data_ok : exists G, vlen G = kp + vp + vlen k + vlen v /\
  LeafMutator.remove_data fk fv (leaf_page pad N (A1 ++ e :: A2) (B1 ++ f :: B2) (k1 ++ k ++ k2 ++ v1 ++ v ++ v2 ++ R))
    num (num - 1) i ks ke vs ve lve klen =
  Ret (leaf_page pad N (A1 ++ A2) (B1 ++ B2) (k1 ++ k2 ++ v1 ++ v2 ++ G ++ R)).
Proof using All.
  pose proof ptr_sizes as [Hkp Hvp]. pose proof (vlen_nonneg k). pose proof (vlen_nonneg v). pose proof (vlen_nonneg v1).
  pose proof (vlen_nonneg v2). pose proof (vlen_nonneg k1). pose proof (vlen_nonneg k2). pose proof (vlen_nonneg A1). pose proof (vlen_nonneg A2).
  set (HD := header pad N). set (TK1 := tab fk A1). set (TK2 := tab fk A2). set (TV1 := tab fv B1). set (TV2 := tab fv B2).
  set (te := tab fk [e]). set (tf := tab fv [f]).
  assert (LH : vlen HD = 4) by apply vlen_header.
  assert (LK1 : vlen TK1 = kp * i) by (unfold TK1; by rewrite vlen_key_tab, HA1).
  assert (LK2 : vlen TK2 = kp * num - kp * i - kp) by (unfold TK2; rewrite vlen_key_tab, HA2; lia).
  assert (LV1 : vlen TV1 = vp * i) by (unfold TV1; by rewrite vlen_value_tab, HB1).
  assert (LV2 : vlen TV2 = vp * num - vp * i - vp) by (unfold TV2; rewrite vlen_value_tab, HB2; lia).
  assert (Lte : vlen te = kp) by (unfold te; rewrite vlen_key_tab; unfold vlen; simpl; lia).
  assert (Ltf : vlen tf = vp) by (unfold tf; rewrite vlen_value_tab; unfold vlen; simpl; lia).
  pose proof (vlen_nonneg TK2). pose proof (vlen_nonneg TV2). pose proof (vlen_nonneg TV1). pose proof (vlen_nonneg TK1).
  unfold LeafMutator.remove_data. osteps.
  destruct (shift_left (HD ++ TK1) te (TK2 ++ TV1) (tf ++ TV2 ++ k1 ++ k ++ k2 ++ v1 ++ v ++ v2 ++ R)
    (leaf_page pad N (A1 ++ e :: A2) (B1 ++ f :: B2) (k1 ++ k ++ k2 ++ v1 ++ v ++ v2 ++ R))
    (4 + kp * (i + 1)) (4 + kp * num + vp * i) (4 + kp * i)) as (G1 & L1 & S1).
  { unfold leaf_page. rewrite (tab_app fk A1), (tab_app fk [e]  A2 : tab fk (e :: A2) = _), (tab_app fv B1), (tab_app fv [f] B2 : tab fv (f :: B2) = _).
    by rewrite <-!app_assoc. }
  1-3: rewrite !vlen_app; lia.
  rewrite S1. cbn [mbind outcome_bind]. osteps.
  set (dest := 4 + kp * i + (4 + kp * num + vp * i - (4 + kp * (i + 1)))).
  destruct (shift_left (HD ++ TK1 ++ TK2 ++ TV1) (G1 ++ tf) (TV2 ++ k1) (k ++ k2 ++ v1 ++ v ++ v2 ++ R)
    ((HD ++ TK1) ++ (TK2 ++ TV1) ++ G1 ++ tf ++ TV2 ++ k1 ++ k ++ k2 ++ v1 ++ v ++ v2 ++ R)
    (4 + kp * num + vp * (i + 1)) ks dest) as (G2 & L2 & S2); [by rewrite <-!app_assoc|rewrite !vlen_app; lia ..|].
  rewrite S2. cbn [mbind outcome_bind]. osteps. rewrite vlen_app in L2.
  set (dest2 := dest + (ks - (4 + kp * num + vp * (i + 1)))).
  destruct (shift_left (HD ++ TK1 ++ TK2 ++ TV1 ++ TV2 ++ k1) (G2 ++ k) (k2 ++ v1) (v ++ v2 ++ R)
    ((HD ++ TK1 ++ TK2 ++ TV1) ++ (TV2 ++ k1) ++ G2 ++ k ++ k2 ++ v1 ++ v ++ v2 ++ R) ke vs dest2) as (G3 & L3 & S3);
    [by rewrite <-!app_assoc|rewrite !vlen_app; lia ..|].
  rewrite S3. cbn [mbind outcome_bind]. osteps. rewrite vlen_app in L3.
  destruct (shift_left (HD ++ TK1 ++ TK2 ++ TV1 ++ TV2 ++ k1 ++ k2 ++ v1) (G3 ++ v) v2 R
    ((HD ++ TK1 ++ TK2 ++ TV1 ++ TV2 ++ k1) ++ (k2 ++ v1) ++ G3 ++ v ++ v2 ++ R) ve lve (dest2 + (vs - ke))) as (G4 & L4 & S4);
    [by rewrite <-!app_assoc|rewrite !vlen_app; lia ..|].
  rewrite S4. exists G4. rewrite vlen_app in L4. split; [lia|]. unfold leaf_page. rewrite !tab_app. fold HD TK1 TK2 TV1 TV2. by rewrite <-!app_assoc.
Qed.
End remove_data.

(** The updates of [remove] *)
Lemma remove_before_updates pad n body klen : 0 <= n < 2 ^ 16 -> 0 <= klen < 2 ^ 63 ->
  updates pad n body (- (kp + vp)) (- (kp + vp) - klen) (LeafMutator.remove_update_before fk fv klen).
Proof.
  intros Hn Hk E1 e E2 F1 f F2 HE HEF He Hde Hf Hdf. pose proof ptr_sizes.
  unfold LeafMutator.remove_update_before. osteps. rewrite update_key_end_ok by done. cbn [mbind outcome_bind]. osteps.
  rewrite HEF. apply update_value_end_ok; try done. rewrite <-HE, !vlen_app, !vlen_cons. done.
Qed.
Lemma remove_after_updates pad n body klen valen : 0 <= n < 2 ^ 16 -> 0 <= klen < 2 ^ 63 -> 0 <= valen < 2 ^ 63 ->
  updates pad n body (- (kp + vp) - klen) (- (kp + vp) - klen - valen) (LeafMutator.remove_update_after fk fv klen valen).
Proof.
  intros Hn Hk Hv E1 e E2 F1 f F2 HE HEF He Hde Hf Hdf. pose proof ptr_sizes.
  unfold LeafMutator.remove_update_after. osteps. rewrite update_key_end_ok by done. cbn [mbind outcome_bind]. osteps.
  rewrite HEF. apply update_value_end_ok; try done. rewrite <-HE, !vlen_app, !vlen_cons. done.
Qed.

Lemma map_add_cancel d d' l : d' = - d -> map (Z.add d') (map (Z.add d) l) = l.
Proof. intros ->. induction l as [|x l IH]; [done|]. cbn [map]. rewrite IH. f_equal. lia. Qed.

Section remove.
  Context (pad : Z) (P1 P2 : list (list Z * list Z)) (k v slack : list Z).
  Notation pairs := (P1 ++ (k, v) :: P2).
  Notation pairs' := (P1 ++ P2).
  Notation S0 := (section (vlen pairs')).
  Notation K1 := (keys_of P1).
  Notation K2 := (keys_of P2).
  Notation V1 := (values_of P1).
  Notation V2 := (values_of P2).
  Context (Hok : leaf_ok pairs) (Hok' : leaf_ok pairs').

(** The two loops of [remove], which skip the pair *)
Lemma remove_loops body (c := S0 + size (keys_of pairs')) :
  (page ← range_loop 0 (vlen P1) (LeafMutator.remove_update_before fk fv (vlen k))
     (leaf_page pad (vlen pairs) (key_ends pairs) (value_ends pairs) body);
   range_loop (vlen P1 + 1) (vlen pairs) (LeafMutator.remove_update_after fk fv (vlen k) (vlen v)) page) =
  Ret (leaf_page pad (vlen pairs)
    (ends S0 K1 ++ (S0 + size K1 + kp + vp + vlen k) :: ends (S0 + size K1) K2)
    (ends c V1 ++ (c + size V1 + kp + vp + vlen k + vlen v) :: ends (c + size V1) V2) body).
Proof using Hok Hok'.
  destruct (insert_key_tables P1 P2 k v) as [TE TE'], (insert_value_tables P1 P2 k v) as [TF TF']. fold c in TF, TF'.
  pose proof (key_ends_bounds _ Hok') as BE. pose proof (key_ends_bounds _ Hok) as BE'.
  pose proof (value_ends_bounds _ Hok') as BF. pose proof (value_ends_bounds _ Hok) as BF'.
  rewrite TE, Forall_app in BE. rewrite TE', Forall_app, Forall_cons in BE'. rewrite TF, Forall_app in BF. rewrite TF', Forall_app, Forall_cons in BF'.
  pose proof (leaf_count _ Hok) as Hc. pose proof (leaf_total _ Hok) as Ht. unfold total in Ht.
  destruct (insert_section P1 P2 k v) as [Hn HS], (insert_sizes P1 P2 k v) as (_ & _ & Hk' & Hv').
  pose proof (section_pos pairs'). pose proof (size_nonneg K1). pose proof (size_nonneg K2). pose proof (size_nonneg V1). pose proof (size_nonneg V2).
  pose proof (vlen_nonneg k). pose proof (vlen_nonneg v). pose proof (vlen_nonneg pairs). pose proof ptr_sizes.
  set (EA := map (Z.add (kp + vp)) (ends S0 K1)) in *. set (EB := map (Z.add (kp + vp + vlen k)) (ends (S0 + size K1) K2)) in *.
  set (FA := map (Z.add (kp + vp + vlen k)) (ends c V1)) in *. set (FB := map (Z.add (kp + vp + vlen k + vlen v)) (ends (c + size V1) V2)) in *.
  set (e := S0 + size K1 + kp + vp + vlen k) in *. set (f := c + size V1 + kp + vp + vlen k + vlen v) in *.
  assert (CEA : map (Z.add (- (kp + vp))) EA = ends S0 K1) by (apply map_add_cancel; lia).
  assert (CEB : map (Z.add (- (kp + vp) - vlen k)) EB = ends (S0 + size K1) K2) by (apply map_add_cancel; lia).
  assert (CFA : map (Z.add (- (kp + vp) - vlen k)) FA = ends c V1) by (apply map_add_cancel; lia).
  assert (CFB : map (Z.add (- (kp + vp) - vlen k - vlen v)) FB = ends (c + size V1) V2) by (apply map_add_cancel; lia).
  assert (LEA : length EA = length P1) by (unfold EA; rewrite length_map, length_ends; apply length_map).
  assert (LEB : length EB = length P2) by (unfold EB; rewrite length_map, length_ends; apply length_map).
  assert (LFA : length FA = length P1) by (unfold FA; rewrite length_map, length_ends; apply length_map).
  assert (LFB : length FB = length P2) by (unfold FB; rewrite length_map, length_ends; apply length_map).
  clearbody EA EB FA FB e f. rewrite TE', TF'.
  pose proof (update_loop pad (vlen pairs) body (- (kp + vp)) (- (kp + vp) - vlen k) (LeafMutator.remove_update_before fk fv (vlen k))
    EA FA [] (e :: EB) [] (f :: FB) 0 (vlen P1) ltac:(apply remove_before_updates; lia)) as Hloop1.
  cbn [app] in Hloop1. rewrite CEA, CFA in Hloop1. rewrite Hloop1; clear Hloop1;
    [|solve [unfold vlen; rewrite ?length_app; simpl; lia | apply Forall_shift; [tauto|rewrite ?CEA, ?CFA; tauto]] ..].
  cbn [mbind outcome_bind].
  pose proof (update_loop pad (vlen pairs) body (- (kp + vp) - vlen k) (- (kp + vp) - vlen k - vlen v)
    (LeafMutator.remove_update_after fk fv (vlen k) (vlen v))
    EB FB (ends S0 K1 ++ [e]) [] (ends c V1 ++ [f]) [] (vlen P1 + 1) (vlen pairs) ltac:(apply remove_after_updates; lia)) as Hloop.
  rewrite !app_nil_r, CEB, CFB, <-!app_assoc in Hloop. cbn [app] in Hloop. apply Hloop;
    solve [unfold vlen; rewrite ?length_app; cbn [length]; rewrite ?length_ends; unfold keys_of, values_of; rewrite ?length_map; lia
          | apply Forall_shift; [tauto|rewrite ?CEB, ?CFB; tauto]].
Qed.

Lemma remove_ok : exists slack', vlen (leaf pad pairs' slack') = vlen (leaf pad pairs slack) /\
  LeafMutator.remove fk fv (leaf pad pairs slack) (vlen P1) = Ret (leaf pad pairs' slack').
Proof using Hok Hok'.
  destruct (insert_section P1 P2 k v) as [Hn HS], (insert_sizes P1 P2 k v) as (Hk & Hv & Hk' & Hv').
  destruct (insert_key_tables P1 P2 k v) as [TE _], (insert_value_tables P1 P2 k v) as [TF _].
  pose proof (leaf_total _ Hok) as Ht. pose proof (leaf_nonempty _ Hok'). pose proof (leaf_count _ Hok). pose proof ptr_sizes as Hps. unfold total in *.
  pose proof (section_pos pairs'). pose proof (size_nonneg K1). pose proof (size_nonneg K2). pose proof (size_nonneg V1). pose proof (size_nonneg V2).
  pose proof (vlen_nonneg k). pose proof (vlen_nonneg v). pose proof (vlen_app P1 P2) as HPn. pose proof (vlen_nonneg P2).
  assert (HP : (length P1 < length pairs)%nat) by (rewrite length_app; simpl; lia).
  set (sb := section (vlen pairs)) in *. set (cb := sb + size (keys_of pairs)).
  assert (A1 : LeafAccessor.key_start (accessor_of pad pairs slack) (vlen P1) = Ret (Some (sb + size K1))).
  { unfold vlen at 1. rewrite key_start_ok, key_off_at by (done || lia). done. }
  assert (A2 : LeafAccessor.value_start (accessor_of pad pairs slack) (vlen P1) = Ret (Some (cb + size V1))).
  { unfold vlen at 1. rewrite value_start_ok, value_off_at by (done || lia). done. }
  assert (A3 : LeafAccessor.key_end (accessor_of pad pairs slack) (vlen P1) = Ret (Some (sb + size K1 + vlen k))).
  { unfold vlen at 1. rewrite key_end_ok, key_off_after by done. done. }
  assert (A4 : LeafAccessor.value_end (accessor_of pad pairs slack) (vlen P1) = Ret (Some (cb + size V1 + vlen v))).
  { unfold vlen at 1. rewrite value_end_ok, value_off_after by done. done. }
  unfold LeafMutator.remove, LeafMutator.accessor. rewrite leaf_accessor by done. cbn [mbind outcome_bind].
  change (LeafAccessor.num_pairs (accessor_of pad pairs slack)) with (vlen pairs). osteps.
  unfold expect. rewrite A1, A2, A3, A4, last_value_end by done. cbn [mbind outcome_bind unwrap]. osteps.
  replace (sb + size K1 + vlen k - (sb + size K1)) with (vlen k) by lia. replace (cb + size V1 + vlen v - (cb + size V1)) with (vlen v) by lia.
  pose proof (remove_loops (concat (keys_of pairs) ++ concat (values_of pairs) ++ slack)) as Hloops.
  fold (leaf pad pairs slack) in Hloops. apply outcome_bind_Ret in Hloops as (page1 & Hl1 & Hl2). rewrite Hl1. cbn [mbind outcome_bind].
  rewrite Hl2. cbn [mbind outcome_bind]. rewrite set_count. cbn [mbind outcome_bind].
  replace (concat (keys_of pairs) ++ concat (values_of pairs) ++ slack)
    with (concat K1 ++ k ++ concat K2 ++ concat V1 ++ v ++ concat V2 ++ slack)
    by (rewrite !keys_app, !values_app, !concat_app; cbn [keys_of values_of map concat fst snd]; by rewrite <-!app_assoc).
  edestruct (remove_data_ok pad (vlen pairs - 1) (vlen pairs) (vlen P1) (sb + size K1) (sb + size K1 + vlen k) (cb + size V1) (cb + size V1 + vlen v)
    (total pairs) (vlen k)) as (G & HG & Hdata); [..|rewrite Hdata].
  all: rewrite ?vlen_ends, ?vlen_keys, ?vlen_values; try (unfold total, section, size in *; lia).
  exists (G ++ slack). split; [rewrite !vlen_leaf, vlen_app; unfold total; lia|].
  unfold leaf. rewrite TE, TF. replace (vlen pairs - 1) with (vlen pairs') by lia.
  rewrite !keys_app, !values_app, !concat_app, <-!app_assoc. done.
Qed.
End remove.
End leaf.
