(* ===== verification/LeafTheorems.v ===== *)
(** What the operations on leaf pages do: batches of removals, building pages,
    the search for a key, and the theorems that say that every operation on the
    bytes of a page is the operation on the list of pairs the page holds. *)
From S2P Require Import Prelude Types KeyOrder Leaf.

(** * Removing several pairs *)

(** The positions of the marks, from position [i] on *)
Fixpoint marked (i : Z) (bs : list bool) : list Z :=
  match bs with
  | [] => []
  | b :: t => (if b : bool then [i] else []) ++ marked (i + 1) t
  end.
(** The elements without and with a mark *)
Fixpoint kept {A} (bs : list bool) (l : list A) : list A :=
  match bs, l with
  | b :: bs, x :: l => (if b : bool then [] else [x]) ++ kept bs l
  | _, _ => []
  end.
Fixpoint dropped {A} (bs : list bool) (l : list A) : list A :=
  match bs, l with
  | b :: bs, x :: l => (if b : bool then [x] else []) ++ dropped bs l
  | _, _ => []
  end.
(** The ranges of the marked slices, if the first slice starts at [pos] *)
Fixpoint holes (pos : Z) (bs : list bool) (l : list (list Z)) : list (Z * Z) :=
  match bs, l with
  | b :: bs, x :: l => (if b : bool then [(pos, pos + vlen x)] else []) ++ holes (pos + vlen x) bs l
  | _, _ => []
  end.
(** The table after the updates: [base] and the removed bytes before are taken off the entries that stay *)
Fixpoint shifted (base removed : Z) (bs : list bool) (es lens : list Z) : list Z :=
  match bs, es, lens with
  | b :: bs, e :: es, len :: lens =>
      (if b : bool then e else - (base + removed) + e) :: shifted base (if b then removed + len else removed) bs es lens
  | _, _, _ => []
  end.

Lemma for_each_map {A B S} (f : A -> B) (body : B -> S -> outcome S) l s :
  for_each body (map f l) s = for_each (fun x => body (f x)) l s.
Proof.
  revert s. induction l as [|x l IH]; intros s; [done|]. cbn [map for_each]. destruct (body (f x) s); [|done]. apply IH.
Qed.

Lemma kept_map {A B} (f : A -> B) bs l : kept bs (map f l) = map f (kept bs l).
Proof. revert l. induction bs as [|[] bs IH]; intros [|x l]; try done; cbn [kept map app]; by rewrite IH. Qed.
Lemma dropped_map {A B} (f : A -> B) bs l : dropped bs (map f l) = map f (dropped bs l).
Proof. revert l. induction bs as [|[] bs IH]; intros [|x l]; try done; cbn [dropped map app]; by rewrite IH. Qed.
Lemma kept_dropped_len {A} bs (l : list A) : length bs = length l -> vlen (kept bs l) + vlen (dropped bs l) = vlen l.
Proof.
  revert l. induction bs as [|[] bs IH]; intros [|x l]; try done; intros [= Hl]; specialize (IH l Hl);
    cbn [kept dropped app]; rewrite ?vlen_cons; lia.
Qed.
Lemma kept_dropped_size bs l : length bs = length l -> size (kept bs l) + size (dropped bs l) = size l.
Proof.
  revert l. induction bs as [|[] bs IH]; intros [|x l]; try done; intros [= Hl]; specialize (IH l Hl);
    cbn [kept dropped app]; rewrite ?size_cons; lia.
Qed.
Lemma marked_len {A} i bs (l : list A) : length bs = length l -> vlen (marked i bs) = vlen (dropped bs l).
Proof.
  revert i l. induction bs as [|[] bs IH]; intros i [|x l]; try done; intros [= Hl]; cbn [marked dropped app];
    rewrite ?vlen_cons; rewrite (IH _ l Hl); done.
Qed.
Lemma marked_bound i bs x : x ∈ marked i bs -> i <= x < i + vlen bs.
Proof.
  revert i. induction bs as [|b bs IH]; intros i; cbn [marked]; [set_solver|]. rewrite elem_of_app, vlen_cons. pose proof (vlen_nonneg bs).
  intros [Hx|Hx]; [|specialize (IH _ Hx); lia]. destruct b; [|set_solver]. apply list_elem_of_singleton in Hx. lia.
Qed.
Lemma marked_ascending bs : forall i, LeafMutator.ascending (marked i bs) = true.
Proof.
  induction bs as [|b bs IH]; intros i; [done|]. cbn [marked]. destruct b; [|apply IH]. cbn [app].
  specialize (IH (i + 1)). destruct (marked (i + 1) bs) as [|y t] eqn:E; [done|].
  pose proof (marked_bound (i + 1) bs y ltac:(rewrite E; left)). cbn [LeafMutator.ascending].
  rewrite (proj2 (Z.ltb_lt i y)) by lia. done.
Qed.
(** Every ascending list of positions is that of some marks. *)
Lemma marked_exists l : forall i n, LeafMutator.ascending l = true -> Forall (fun x => i <= x < i + Z.of_nat n) l ->
  exists bs, length bs = n /\ marked i bs = l.
Proof.
  intros i n. revert l i. induction n as [|n IH]; intros l i Ha Hb.
  { exists []. split; [done|]. destruct l as [|x l]; [done|]. apply Forall_cons in Hb as [? _]. lia. }
  destruct l as [|x l].
  { destruct (IH [] (i + 1)) as (bs & Hl & Hm); [done|constructor|]. exists (false :: bs). by split; [simpl; lia|]. }
  apply Forall_cons in Hb as [Hx Hb].
  assert (Hl : LeafMutator.ascending l = true /\ Forall (fun y => x < y) l).
  { clear -Ha. revert x Ha. induction l as [|y l IH]; intros x Ha; [done|]. cbn [LeafMutator.ascending] in Ha.
    apply andb_prop in Ha as [Hxy%Z.ltb_lt Ha]. split; [done|]. constructor; [done|]. destruct (IH y Ha) as [_ HF].
    eapply Forall_impl; [exact HF|]. simpl. lia. }
  destruct Hl as [Hal Hgt]. destruct (decide (x = i)) as [->|Hne].
  - destruct (IH l (i + 1)) as (bs & Hlen & Hm); [done| |exists (true :: bs); split; [simpl; lia|cbn; by rewrite Hm]].
    apply Forall_forall. intros y Hy. rewrite Forall_forall in Hb, Hgt. specialize (Hb y Hy). specialize (Hgt y Hy). lia.
  - destruct (IH (x :: l) (i + 1)) as (bs & Hlen & Hm); [done| |exists (false :: bs); split; [simpl; lia|done]].
    constructor; [lia|]. apply Forall_forall. intros y Hy. rewrite Forall_forall in Hb, Hgt. specialize (Hb y Hy). specialize (Hgt y Hy). lia.
Qed.

(** The entries that stay are the ends of the slices that stay. *)
Lemma kept_shifted base bs l : forall c removed,
  kept bs (shifted base removed bs (ends c l) (map vlen l)) = ends (c - base - removed) (kept bs l).
Proof.
  revert bs. induction l as [|x l IH]; intros [|b bs] c removed; try done. cbn [ends map shifted kept].
  destruct b; cbn [app]; rewrite IH; [f_equal; lia|]. cbn [ends]. f_equal; [lia|f_equal; lia].
Qed.
Lemma length_shifted base removed bs es lens : length es = length bs -> length lens = length bs ->
  length (shifted base removed bs es lens) = length bs.
Proof.
  revert removed es lens. induction bs as [|b bs IH]; intros removed [|e es] [|n lens]; try done. intros [= H1] [= H2].
  cbn [shifted length]. by rewrite IH.
Qed.

(** ** The compaction *)

(** The state of the compaction: [D] is done, [G] is garbage, [P] is to be moved
    down, and [R] was not reached. *)
Definition compacting (D G P R : list Z) (s : LeafMutator.compaction) : Prop :=
  s = (D ++ G ++ P ++ R, (vlen D + vlen G, vlen D)).

Lemma compact_hole_ok D G P x R s : compacting D G P (x ++ R) s ->
  exists G' s', LeafMutator.compact_before_hole (vlen D + vlen G + vlen P, vlen D + vlen G + vlen P + vlen x) s = Ret s' /\
    vlen G' = vlen G + vlen x /\ compacting (D ++ P) G' [] R s'.
Proof.
  intros ->. unfold LeafMutator.compact_before_hole. cbn [fst snd]. pose proof (vlen_nonneg P). pose proof (vlen_nonneg G). pose proof (vlen_nonneg D).
  ostep. destruct (Z.ltb_spec (vlen D + vlen G) (vlen D + vlen G + vlen P)) as [HP|HP].
  - destruct (Z.eqb_spec (vlen D + vlen G) (vlen D)) as [HG|HG]; cbn [mbind outcome_bind].
    + assert (G = []) as -> by (apply length_zero_iff_nil; unfold vlen in HG; lia). change (vlen (@nil Z)) with 0 in *. cbn [app].
      exists x. eexists. split; [done|]. split; [lia|]. unfold compacting. rewrite !vlen_app, <-!app_assoc. cbn [app].
      f_equal; f_equal; lia.
    + destruct (shift_left D G P (x ++ R) (D ++ G ++ P ++ x ++ R) (vlen D + vlen G) (vlen D + vlen G + vlen P) (vlen D)) as (G' & L & S); [done..|].
      rewrite S. cbn [mbind outcome_bind]. exists (G' ++ x). eexists. split; [done|]. rewrite vlen_app. split; [lia|].
      unfold compacting. rewrite !vlen_app, <-!app_assoc. cbn [app]. f_equal; f_equal; lia.
  - assert (P = []) as -> by (apply length_zero_iff_nil; unfold vlen in *; lia). cbn [mbind outcome_bind].
    exists (G ++ x). eexists. split; [done|]. rewrite vlen_app. split; [lia|]. unfold compacting. rewrite app_nil_r, !vlen_app, <-!app_assoc.
    change (vlen (@nil Z)) with 0. cbn [app]. f_equal; f_equal; lia.
Qed.

(** The holes of a list of slices *)
Lemma compact_holes bs : forall l D G P R s pos, length bs = length l -> compacting D G P (concat l ++ R) s ->
  pos = vlen D + vlen G + vlen P ->
  exists D' G' P' s', for_each LeafMutator.compact_before_hole (holes pos bs l) s = Ret s' /\
    D' ++ P' = D ++ P ++ concat (kept bs l) /\ vlen G' = vlen G + size (dropped bs l) /\ compacting D' G' P' R s'.
Proof.
  induction bs as [|b bs IH]; intros [|x l] D G P R s pos Hl Hs Hpos; try done.
  { exists D, G, P, s. cbn. rewrite app_nil_r. split; [done|]. split; [done|]. split; [unfold size, vlen; simpl; lia|done]. }
  injection Hl as Hl. cbn [concat] in Hs. rewrite <-app_assoc in Hs. cbn [holes kept dropped]. destruct b; cbn [app].
  - destruct (compact_hole_ok D G P x (concat l ++ R) s Hs) as (G1 & s1 & Hc & HG1 & Hs1). cbn [for_each]. rewrite Hpos, Hc. cbn [mbind outcome_bind].
    destruct (IH l (D ++ P) G1 [] R s1 (vlen D + vlen G + vlen P + vlen x) Hl Hs1) as (D' & G' & P' & s' & Hf & HDP & HG' & Hs').
    { rewrite vlen_app. change (vlen (@nil Z)) with 0. lia. }
    exists D', G', P', s'. split; [done|]. split; [by rewrite HDP, <-app_assoc|]. split; [rewrite size_cons; lia|done].
  - destruct (IH l D G (P ++ x) R s (pos + vlen x) Hl) as (D' & G' & P' & s' & Hf & HDP & HG' & Hs').
    { unfold compacting in *. rewrite Hs, <-!app_assoc. done. }
    { rewrite vlen_app. lia. }
    exists D', G', P', s'. split; [done|]. split; [rewrite HDP; cbn [concat]; by rewrite <-!app_assoc|done].
Qed.

Lemma compact_tail_ok D G P R s : compacting D G P R s ->
  exists G' src, vlen G' = vlen G /\
    LeafMutator.compact_tail (vlen D + vlen G + vlen P) s = Ret (D ++ P ++ G' ++ R, (src, vlen D + vlen P)).
Proof.
  intros ->. unfold LeafMutator.compact_tail. pose proof (vlen_nonneg P). pose proof (vlen_nonneg G).
  destruct (Z.ltb_spec (vlen D + vlen G) (vlen D + vlen G + vlen P)) as [HP|HP].
  - destruct (Z.eqb_spec (vlen D + vlen G) (vlen D)) as [HG|HG]; cbn [mbind outcome_bind].
    + assert (G = []) as -> by (apply length_zero_iff_nil; unfold vlen in HG; lia). exists []. eexists. split; [done|].
      cbn [app]. do 3 f_equal. lia.
    + destruct (shift_left D G P R (D ++ G ++ P ++ R) (vlen D + vlen G) (vlen D + vlen G + vlen P) (vlen D)) as (G' & L & S); [done..|].
      rewrite S. cbn [mbind outcome_bind]. exists G'. eexists. split; [done|]. do 3 f_equal. lia.
  - assert (P = []) as -> by (apply length_zero_iff_nil; unfold vlen in *; lia). exists G. eexists. split; [done|]. cbn [app].
    do 3 f_equal. change (vlen (@nil Z)) with 0. lia.
Qed.

(** The holes in a table of pointers *)
Lemma pointer_holes bs : forall es i pos, length bs = length es ->
  map (fun index => (pos + 4 * index, pos + 4 * index + 4)) (marked i bs) = holes (pos + 4 * i) bs (map (to_le_bytes 4) es).
Proof.
  induction bs as [|b bs IH]; intros [|e es] i pos Hl; try done. injection Hl as Hl. cbn [marked map holes]. rewrite map_app, (IH es _ _ Hl).
  rewrite vlen_to_le_bytes. replace (pos + 4 * i + Z.of_nat 4) with (pos + 4 * (i + 1)) by lia. f_equal. destruct b; [|done]. cbn [map].
  do 2 f_equal. lia.
Qed.

(** A table of pointers is compacted by its loop, if there is one. *)
Lemma compact_table fixed bs es D G P R s ptr pos : ptr = (match fixed with None => 4 | Some _ => 0 end) ->
  length bs = length es -> compacting D G P (tab fixed es ++ R) s -> pos = vlen D + vlen G + vlen P ->
  exists D' G' P' s',
    (if ptr =? 0 then Ret s
     else for_each (fun index => let start := pos + ptr * index in LeafMutator.compact_before_hole (start, start + ptr)) (marked 0 bs) s) = Ret s' /\
    D' ++ P' = D ++ P ++ tab fixed (kept bs es) /\ vlen G' = vlen G + ptr * vlen (dropped bs es) /\ compacting D' G' P' R s'.
Proof.
  intros -> Hl Hs Hpos. destruct fixed as [w|]; cbn [tab Z.eqb] in *.
  { exists D, G, P, s. rewrite app_nil_r. split; [done|]. split; [done|]. split; [lia|done]. }
  destruct (compact_holes bs (map (to_le_bytes 4) es) D G P R s (pos + 4 * 0)) as (D' & G' & P' & s' & Hf & HDP & HG & Hs').
  - by rewrite length_map.
  - done.
  - lia.
  - exists D', G', P', s'. rewrite <-(pointer_holes bs es 0 pos Hl), for_each_map in Hf. split; [done|].
    rewrite kept_map in HDP. split; [done|]. split; [|done]. rewrite HG, dropped_map. unfold size.
    rewrite (vlen_concat_chunks _ 4) by (intros; apply length_to_le_bytes). lia.
Qed.

(** ** The tables of a batch *)

Section batch.
  Context (fk fv : option Z).
  Notation kp := (LeafMutator.key_ptr_size fk).
  Notation vp := (LeafMutator.value_ptr_size fv).
  Notation leaf_page := (leaf_page fk fv).
  Notation update := (LeafMutator.update_removed_index fk fv).

(** What [RemovedLeafRanges] says of the marks that are left *)
Definition ranges_left (r : LeafMutator.RemovedLeafRanges) (removed i : Z) (bs : list bool) (kl vl : list Z) : Prop :=
  drop (Z.to_nat removed) (LeafMutator.indices r) = marked i bs /\
  map LeafMutator.range_len (drop (Z.to_nat removed) (LeafMutator.key_ranges r)) = dropped bs kl /\
  map LeafMutator.range_len (drop (Z.to_nat removed) (LeafMutator.value_ranges r)) = dropped bs vl.

Lemma drop_cons_lookup {A} (l : list A) n x t : 0 <= n -> drop (Z.to_nat n) l = x :: t ->
  vget l n = Ret x /\ n < vlen l /\ drop (Z.to_nat (n + 1)) l = t.
Proof.
  intros Hn Hd. assert (Hx : l !! Z.to_nat n = Some x) by (rewrite <-(Nat.add_0_r (Z.to_nat n)), <-lookup_drop, Hd; done).
  split; [by apply vget_ok|]. split; [apply lookup_lt_Some in Hx; unfold vlen; lia|].
  replace (Z.to_nat (n + 1)) with (Z.to_nat n + 1)%nat by lia. rewrite <-drop_drop, Hd. done.
Qed.
Lemma drop_nil_vlen {A} (l : list A) n : 0 <= n -> drop (Z.to_nat n) l = [] -> vlen l <= n.
Proof. intros Hn Hd. apply (f_equal length) in Hd. rewrite length_drop in Hd. unfold vlen. simpl in Hd. lia. Qed.

(** A mark that is set, and one that is not *)
Lemma update_marked rpb r i removed kb vb page bs k kl v vl : 0 <= removed -> ranges_left r removed i (true :: bs) (k :: kl) (v :: vl) ->
  update rpb r i (page, (removed, (kb, vb))) = Ret (page, (removed + 1, (kb + k, vb + v))) /\
  ranges_left r (removed + 1) (i + 1) bs kl vl.
Proof.
  intros Hr (Hi & Hk & Hv). cbn [marked dropped app] in *.
  destruct (drop_cons_lookup _ _ _ _ Hr Hi) as (Gi & Li & Ti). apply map_eq_cons in Hk as (kr & krs & Hkr & <- & Hk).
  apply map_eq_cons in Hv as (vr & vrs & Hvr & <- & Hv).
  destruct (drop_cons_lookup _ _ _ _ Hr Hkr) as (Gk & _ & Tk), (drop_cons_lookup _ _ _ _ Hr Hvr) as (Gv & _ & Tv).
  unfold LeafMutator.update_removed_index, ranges_left. rewrite Ti, Tk, Tv. split; [|done].
  rewrite (proj2 (Z.ltb_lt _ _)) by done. rewrite Gi. cbn [mbind outcome_bind]. rewrite Z.eqb_refl, Gk. cbn [mbind outcome_bind].
  by rewrite Gv.
Qed.
Lemma update_hit_false r i removed bs kl vl : 0 <= removed -> ranges_left r removed i (false :: bs) kl vl ->
  (if removed <? vlen (LeafMutator.indices r) then x ← vget (LeafMutator.indices r) removed; Ret (x =? i) else Ret false) = Ret false.
Proof.
  intros Hr (Hi & _). cbn [marked app] in Hi. destruct (Z.ltb_spec removed (vlen (LeafMutator.indices r))) as [Hlt|]; [|done].
  destruct (marked (i + 1) bs) as [|x t] eqn:E; [apply drop_nil_vlen in Hi; lia|].
  destruct (drop_cons_lookup _ _ _ _ Hr Hi) as (Gi & _ & _). rewrite Gi. cbn [mbind outcome_bind].
  pose proof (marked_bound (i + 1) bs x ltac:(rewrite E; left)). by rewrite (proj2 (Z.eqb_neq x i)) by lia.
Qed.

Lemma update_unmarked rpb r pad n body removed kb vb bs kl vl E1 e E2 F1 f F2 :
  0 <= removed -> ranges_left r removed (vlen E1) (false :: bs) kl vl -> vlen (E1 ++ e :: E2) = n -> vlen E1 = vlen F1 -> 0 <= n < 2 ^ 16 ->
  0 <= rpb + kb < 2 ^ 63 -> 0 <= rpb + LeafMutator.key_bytes r + vb < 2 ^ 63 ->
  0 <= e < 2 ^ 32 -> 0 <= - (rpb + kb) + e < 2 ^ 32 -> 0 <= f < 2 ^ 32 -> 0 <= - (rpb + LeafMutator.key_bytes r + vb) + f < 2 ^ 32 ->
  update rpb r (vlen E1) (leaf_page pad n (E1 ++ e :: E2) (F1 ++ f :: F2) body, (removed, (kb, vb))) =
  Ret (leaf_page pad n (E1 ++ (- (rpb + kb) + e) :: E2) (F1 ++ (- (rpb + LeafMutator.key_bytes r + vb) + f) :: F2) body, (removed, (kb, vb))).
Proof.
  intros Hr HR Hn HEF Hn16 Hk Hv He He' Hf Hf'. unfold LeafMutator.update_removed_index. rewrite (update_hit_false r _ _ _ _ _ Hr HR).
  cbn [mbind outcome_bind]. pose proof (update_key_end_ok fk fv pad n E1 e E2 (F1 ++ f :: F2) body (- (rpb + kb)) He He') as U1.
  pose proof (update_value_end_ok fk fv pad n (E1 ++ (- (rpb + kb) + e) :: E2) F1 f F2 body (- (rpb + LeafMutator.key_bytes r + vb)) Hn16) as U2.
  rewrite <-HEF in U2. specialize (U2 ltac:(rewrite <-Hn, !vlen_app, !vlen_cons; done) Hf Hf').
  osteps.
  assert (Hk1 : match fk with None => LeafMutator.update_key_end fk (leaf_page pad n (E1 ++ e :: E2) (F1 ++ f :: F2) body) (vlen E1) (- (rpb + kb))
    | Some _ => Ret (leaf_page pad n (E1 ++ e :: E2) (F1 ++ f :: F2) body) end = Ret (leaf_page pad n (E1 ++ (- (rpb + kb) + e) :: E2) (F1 ++ f :: F2) body)).
  { destruct fk; [|done]. rewrite <-U1. done. }
  rewrite Hk1. cbn [mbind outcome_bind].
  assert (Hv1 : match fv with None => LeafMutator.update_value_end fk fv (leaf_page pad n (E1 ++ (- (rpb + kb) + e) :: E2) (F1 ++ f :: F2) body) (vlen E1) (- (rpb + LeafMutator.key_bytes r + vb))
    | Some _ => Ret (leaf_page pad n (E1 ++ (- (rpb + kb) + e) :: E2) (F1 ++ f :: F2) body) end =
    Ret (leaf_page pad n (E1 ++ (- (rpb + kb) + e) :: E2) (F1 ++ (- (rpb + LeafMutator.key_bytes r + vb) + f) :: F2) body)).
  { destruct fv; [|done]. rewrite <-U2. done. }
  rewrite Hv1. done.
Qed.

(** The sum of the lengths of the slices with a mark *)
Definition dropped_sum (bs : list bool) (l : list Z) : Z := foldr Z.add 0 (dropped bs l).

Lemma update_all rpb r pad n body bs : forall E F kl vl E1 F1 removed kb vb,
  length E = length bs -> length F = length bs -> length kl = length bs -> length vl = length bs ->
  0 <= removed -> ranges_left r removed (vlen E1) bs kl vl -> vlen (E1 ++ E) = n -> vlen E1 = vlen F1 -> 0 <= n < 2 ^ 16 ->
  Forall (fun x => 0 <= x) kl -> Forall (fun x => 0 <= x) vl -> 0 <= rpb -> 0 <= kb -> 0 <= vb -> 0 <= LeafMutator.key_bytes r ->
  rpb + kb + dropped_sum bs kl < 2 ^ 63 -> rpb + LeafMutator.key_bytes r + vb + dropped_sum bs vl < 2 ^ 63 ->
  Forall (fun e => 0 <= e < 2 ^ 32) E -> Forall (fun e => 0 <= e < 2 ^ 32) F ->
  Forall (fun e => 0 <= e < 2 ^ 32) (kept bs (shifted rpb kb bs E kl)) ->
  Forall (fun e => 0 <= e < 2 ^ 32) (kept bs (shifted (rpb + LeafMutator.key_bytes r) vb bs F vl)) ->
  exists kb' vb', for_each (update rpb r) (seqZ (vlen E1) (vlen bs)) (leaf_page pad n (E1 ++ E) (F1 ++ F) body, (removed, (kb, vb))) =
  Ret (leaf_page pad n (E1 ++ shifted rpb kb bs E kl) (F1 ++ shifted (rpb + LeafMutator.key_bytes r) vb bs F vl) body,
       (removed + vlen (marked (vlen E1) bs), (kb', vb'))).
Proof.
  induction bs as [|b bs IH]; intros E F kl vl E1 F1 removed kb vb LE LF Lk Lv Hr HR Hn HEF Hn16 Pk Pv H0 Hkb Hvb Hkeyb Bk Bv BE BF BE' BF'.
  { destruct E, F; try done. exists kb, vb. cbn. rewrite Z.add_0_r. done. }
  destruct E as [|e E], F as [|f F], kl as [|k kl], vl as [|v vl]; try done. injection LE as LE. injection LF as LF. injection Lk as Lk. injection Lv as Lv.
  apply Forall_cons in Pk as [Pk0 Pk]. apply Forall_cons in Pv as [Pv0 Pv]. apply Forall_cons in BE as [BE0 BE]. apply Forall_cons in BF as [BF0 BF].
  pose proof (vlen_nonneg bs). pose proof (vlen_nonneg E1). rewrite vlen_cons, seqZ_cons by lia. replace (Z.pred (1 + vlen bs)) with (vlen bs) by lia. cbn [for_each].
  cbn [shifted kept app] in BE', BF'. cbn [shifted].
  assert (Hs : forall x, vlen (E1 ++ [x]) = Z.succ (vlen E1)) by (intros x; rewrite vlen_app; done).
  assert (Ht : forall x, vlen (F1 ++ [x]) = Z.succ (vlen E1)) by (intros x; rewrite vlen_app, HEF; done).
  rewrite vlen_app, vlen_cons in Hn.
  destruct b.
  - destruct (update_marked rpb r (vlen E1) removed kb vb (leaf_page pad n (E1 ++ e :: E) (F1 ++ f :: F) body) bs k kl v vl Hr HR) as [HU HR'].
    rewrite HU. cbn [mbind outcome_bind]. unfold dropped_sum in Bk, Bv. cbn [dropped app foldr] in Bk, Bv. fold (dropped_sum bs kl) in Bk. fold (dropped_sum bs vl) in Bv.
    destruct (IH E F kl vl (E1 ++ [e]) (F1 ++ [f]) (removed + 1) (kb + k) (vb + v)) as (kb' & vb' & HF); try done; try lia.
    + rewrite Hs. replace (Z.succ (vlen E1)) with (vlen E1 + 1) by lia. done.
    + rewrite <-app_assoc, vlen_app. cbn [app]. rewrite vlen_cons. lia.
    + by rewrite Hs, Ht.
    + exists kb', vb'. rewrite Hs, <-!app_assoc in HF. cbn [app] in HF. rewrite HF. cbn [marked app]. rewrite vlen_cons. do 3 f_equal.
      replace (Z.succ (vlen E1)) with (vlen E1 + 1) by lia. lia.
  - apply Forall_cons in BE' as [BE0' BE']. apply Forall_cons in BF' as [BF0' BF'].
    assert (Hks : 0 <= dropped_sum bs kl /\ 0 <= dropped_sum bs vl).
    { clear -Pk Pv. split; [clear Pv; rename Pk into P; rename kl into l|clear Pk; rename Pv into P; rename vl into l];
      revert bs; (induction P as [|x l Hx _ IHl]; intros [|[] bs]; unfold dropped_sum in *; cbn; try lia; specialize (IHl bs); lia). }
    unfold dropped_sum in Bk, Bv. cbn [dropped app] in Bk, Bv. fold (dropped_sum bs kl) in Bk. fold (dropped_sum bs vl) in Bv.
    rewrite (update_unmarked rpb r pad n body removed kb vb bs (k :: kl) (v :: vl)); try done; try lia.
    2:{ rewrite vlen_app, vlen_cons. lia. }
    cbn [mbind outcome_bind]. destruct HR as (HR1 & HR2 & HR3).
    destruct (IH E F kl vl (E1 ++ [- (rpb + kb) + e]) (F1 ++ [- (rpb + LeafMutator.key_bytes r + vb) + f]) removed kb vb) as (kb' & vb' & HF); try done; try lia.
    + rewrite Hs. replace (Z.succ (vlen E1)) with (vlen E1 + 1) by lia. done.
    + rewrite <-app_assoc, vlen_app. cbn [app]. rewrite vlen_cons. lia.
    + by rewrite Hs, Ht.
    + exists kb', vb'. rewrite Hs, <-!app_assoc in HF. cbn [app] in HF. rewrite HF. cbn [marked app].
      replace (Z.succ (vlen E1)) with (vlen E1 + 1) by lia. done.
Qed.
End batch.

Lemma range_len_holes bs : forall l pos, map LeafMutator.range_len (holes pos bs l) = dropped bs (map vlen l).
Proof.
  induction bs as [|b bs IH]; intros [|x l] pos; try done. cbn [holes dropped map]. rewrite map_app, IH. f_equal. destruct b; [|done].
  cbn. unfold LeafMutator.range_len, saturating_sub. cbn [fst snd]. pose proof (vlen_nonneg x). f_equal. lia.
Qed.
Lemma vlen_holes bs : forall l pos, vlen (holes pos bs l) = vlen (dropped bs l).
Proof. induction bs as [|[] bs IH]; intros [|x l] pos; try done; cbn [holes dropped app]; rewrite ?vlen_cons, IH; done. Qed.
Lemma dropped_sum_size bs l : dropped_sum bs (map vlen l) = size (dropped bs l).
Proof.
  unfold dropped_sum. rewrite dropped_map. generalize (dropped bs l). intros k. induction k as [|x k IH]; [done|].
  cbn [map foldr]. by rewrite size_cons, IH.
Qed.

Section remove_indices.
  Context (fk fv : option Z) (pad : Z) (pairs : list (list Z * list Z)) (slack : list Z) (bs : list bool).
  Notation kp := (LeafMutator.key_ptr_size fk).
  Notation vp := (LeafMutator.value_ptr_size fv).
  Notation a := (accessor_of fk fv pad pairs slack).
  Notation n := (vlen pairs).
  Notation S0 := (section fk fv n).
  Context (Hok : leaf_ok fk fv pairs).

Lemma collect_ranges cs : forall i kr vr kb vb, length cs = length (drop i pairs) ->
  for_each (LeafMutator.collect_range a) (marked (Z.of_nat i) cs) ((kr, vr), (kb, vb)) =
  Ret ((kr ++ holes (key_off fk fv pairs i) cs (keys_of (drop i pairs)), vr ++ holes (value_off fk fv pairs i) cs (values_of (drop i pairs))),
       (kb + size (dropped cs (keys_of (drop i pairs))), vb + size (dropped cs (values_of (drop i pairs))))).
Proof using Hok.
  induction cs as [|c cs IH]; intros i kr vr kb vb Hl.
  { destruct (drop i pairs); [|done]. cbn. rewrite !app_nil_r. change (size []) with 0. by rewrite !Z.add_0_r. }
  rewrite length_drop in Hl. cbn [length] in Hl. destruct (lookup_lt_is_Some_2 pairs i) as [[k v] Hp]; [lia|].
  rewrite (drop_S _ _ _ Hp). cbn [keys_of values_of map fst snd holes dropped marked].
  assert (Hk : keys_of pairs !! i = Some k) by (rewrite keys_lookup, Hp; done).
  assert (Hv : values_of pairs !! i = Some v) by (rewrite values_lookup, Hp; done).
  assert (HK : key_off fk fv pairs (S i) = key_off fk fv pairs i + vlen k) by (unfold key_off; rewrite (size_take_S _ _ _ Hk); lia).
  assert (HV : value_off fk fv pairs (S i) = value_off fk fv pairs i + vlen v) by (unfold value_off; rewrite (size_take_S _ _ _ Hv); lia).
  specialize (IH (S i)). rewrite length_drop in IH. replace (Z.of_nat i + 1) with (Z.of_nat (S i)) by lia. rewrite HK, HV in IH.
  destruct c; cbn [app]; [|apply IH; lia]. cbn [for_each]. pose proof (vlen_nonneg k). pose proof (vlen_nonneg v).
  assert (Hc : LeafMutator.collect_range a (Z.of_nat i) (kr, vr, (kb, vb)) =
    Ret (kr ++ [(key_off fk fv pairs i, key_off fk fv pairs i + vlen k)], vr ++ [(value_off fk fv pairs i, value_off fk fv pairs i + vlen v)], (kb + vlen k, vb + vlen v))).
  { unfold LeafMutator.collect_range, expect. rewrite entry_ranges_ok by (done || lia). cbn [mbind outcome_bind unwrap].
    rewrite HK, HV. unfold LeafMutator.range_len, saturating_sub. cbn [fst snd]. do 3 f_equal; lia. }
  rewrite Hc. cbn [mbind outcome_bind]. rewrite IH by lia. rewrite <-!app_assoc. cbn [app].
  rewrite !size_cons. unfold keys_of, values_of. do 3 f_equal; lia.
Qed.

Context (Hlen : length bs = length pairs).
Notation pairs' := (kept bs pairs).
Notation ndrop := (vlen (dropped bs pairs)).
Notation KB := (size (dropped bs (keys_of pairs))).
Notation VB := (size (dropped bs (values_of pairs))).
Context (Hok' : leaf_ok fk fv pairs') (Hsome : 0 < ndrop).

Lemma batch_sizes : vlen pairs' + ndrop = n /\ size (keys_of pairs') + KB = size (keys_of pairs) /\
  size (values_of pairs') + VB = size (values_of pairs) /\ section fk fv (vlen pairs') = S0 - (kp + vp) * ndrop.
Proof using Hlen.
  pose proof (kept_dropped_len bs pairs Hlen) as H1. split; [done|].
  pose proof (kept_dropped_size bs (keys_of pairs)) as H2. pose proof (kept_dropped_size bs (values_of pairs)) as H3.
  unfold keys_of, values_of in *. rewrite length_map in H2, H3. rewrite !kept_map in *.
  split; [apply H2, Hlen|]. split; [apply H3, Hlen|]. unfold section. nia.
Qed.

Definition batch : LeafMutator.RemovedLeafRanges :=
  LeafMutator.mk_removed (marked 0 bs) (holes S0 bs (keys_of pairs)) (holes (S0 + size (keys_of pairs)) bs (values_of pairs))
    KB VB (total fk fv pairs) n.

(** The tables after the updates *)
Notation E' := (shifted ((kp + vp) * ndrop) 0 bs (key_ends fk fv pairs) (map vlen (keys_of pairs))).
Notation F' := (shifted ((kp + vp) * ndrop + KB) 0 bs (value_ends fk fv pairs) (map vlen (values_of pairs))).

Lemma batch_tables : kept bs E' = key_ends fk fv pairs' /\ kept bs F' = value_ends fk fv pairs'.
Proof using Hlen.
  destruct batch_sizes as (Hn & Hk & Hv & HS). unfold key_ends, value_ends. rewrite !kept_shifted, HS.
  unfold keys_of, values_of in *. rewrite !kept_map, !Z.sub_0_r. split; [done|]. f_equal. lia.
Qed.

Lemma batch_updates body :
  LeafMutator.update_removed_indices fk fv (leaf_page fk fv pad n (key_ends fk fv pairs) (value_ends fk fv pairs) body) ((kp + vp) * ndrop) batch =
  Ret (leaf_page fk fv pad n E' F' body).
Proof using Hlen Hok Hok' Hsome.
  destruct batch_sizes as (Hn & Hk & Hv & HS), batch_tables as [TE TF]. pose proof (leaf_count _ _ _ Hok). pose proof (leaf_total _ _ _ Hok) as Ht.
  pose proof (leaf_nonempty _ _ _ Hok) as Hne. pose proof (ptr_sizes fk fv) as Hps. unfold total in Ht. pose proof (section_pos fk fv pairs).
  pose proof (size_nonneg (keys_of pairs')). pose proof (size_nonneg (values_of pairs')). pose proof (size_nonneg (keys_of pairs)). pose proof (size_nonneg (values_of pairs)).
  pose proof (size_nonneg (dropped bs (keys_of pairs))). pose proof (size_nonneg (dropped bs (values_of pairs))).
  assert (Hp : 0 <= (kp + vp) * ndrop < 2 ^ 32) by (pose proof (section_pos fk fv pairs'); unfold section in *; nia).
  unfold LeafMutator.update_removed_indices. cbn [LeafMutator.num_pairs batch LeafMutator.indices].
  assert (HB : vlen bs = n) by (unfold vlen; by rewrite Hlen).
  destruct (update_all fk fv ((kp + vp) * ndrop) batch pad n body bs (key_ends fk fv pairs) (value_ends fk fv pairs)
    (map vlen (keys_of pairs)) (map vlen (values_of pairs)) [] [] 0 0 0) as (kb' & vb' & HU).
  1-4: unfold key_ends, value_ends, keys_of, values_of; rewrite ?length_ends, ?length_map; done.
  all: rewrite ?dropped_sum_size; cbn [batch LeafMutator.key_bytes]; try lia; try done.
  - unfold ranges_left. cbn [batch LeafMutator.indices LeafMutator.key_ranges LeafMutator.value_ranges]. rewrite !drop_0, !range_len_holes. done.
  - cbn [app]. apply vlen_key_ends.
  - apply Forall_map, Forall_forall. intros x _. apply vlen_nonneg.
  - apply Forall_map, Forall_forall. intros x _. apply vlen_nonneg.
  - by apply key_ends_bounds.
  - by apply value_ends_bounds.
  - rewrite TE. by apply key_ends_bounds.
  - rewrite TF. by apply value_ends_bounds.
  - cbn [app] in HU. change (vlen (@nil Z)) with 0 in HU. rewrite HB in HU. rewrite HU. cbn [mbind outcome_bind].
    rewrite Z.add_0_l, Z.eqb_refl. done.
Qed.

Lemma bind_conv {A B} (m : outcome A) (f : A -> outcome B) x b : m = Ret x -> f x = b -> (m ≫= f) = b.
Proof. by intros ->. Qed.

(** The whole compaction *)
Lemma batch_compaction page : page = leaf_page fk fv pad n E' F' (concat (keys_of pairs) ++ concat (values_of pairs) ++ slack) ->
  exists G src, vlen G = (kp + vp) * ndrop + KB + VB /\
  (s ← (if kp =? 0 then Ret (page, (4, 4))
        else for_each (fun index => let start := 4 + kp * index in LeafMutator.compact_before_hole (start, start + kp)) (marked 0 bs) (page, (4, 4)));
   s ← (if vp =? 0 then Ret s
        else for_each (fun index => let start := 4 + kp * n + vp * index in LeafMutator.compact_before_hole (start, start + vp)) (marked 0 bs) s);
   s ← for_each LeafMutator.compact_before_hole (holes S0 bs (keys_of pairs)) s;
   s ← for_each LeafMutator.compact_before_hole (holes (S0 + size (keys_of pairs)) bs (values_of pairs)) s;
   LeafMutator.compact_tail (total fk fv pairs) s) =
  Ret (leaf_page fk fv pad n (key_ends fk fv pairs') (value_ends fk fv pairs') (concat (keys_of pairs') ++ concat (values_of pairs') ++ G ++ slack),
       (src, total fk fv pairs')).
Proof using Hlen.
  intros ->. destruct batch_sizes as (Hn & Hk & Hv & HS), batch_tables as [TE TF].
  assert (LE : length bs = length E') by (symmetry; apply length_shifted; unfold key_ends, keys_of; rewrite ?length_ends, !length_map; done).
  assert (LF : length bs = length F') by (symmetry; apply length_shifted; unfold value_ends, values_of; rewrite ?length_ends, !length_map; done).
  assert (DE : vlen (dropped bs E') = ndrop) by (rewrite <-(marked_len 0 bs E' LE); by apply marked_len).
  assert (DF : vlen (dropped bs F') = ndrop) by (rewrite <-(marked_len 0 bs F' LF); by apply marked_len).
  assert (VE : vlen E' = n) by (transitivity (Z.of_nat (length bs)); [exact (f_equal Z.of_nat (eq_sym LE))|unfold vlen; by rewrite Hlen]).
  assert (VF : vlen F' = n) by (transitivity (Z.of_nat (length bs)); [exact (f_equal Z.of_nat (eq_sym LF))|unfold vlen; by rewrite Hlen]).
  set (EE := E') in *. set (FF := F') in *. clearbody EE FF.
  destruct (compact_table fk bs EE (header pad n) [] [] (tab fv FF ++ concat (keys_of pairs) ++ concat (values_of pairs) ++ slack)
    (leaf_page fk fv pad n EE FF (concat (keys_of pairs) ++ concat (values_of pairs) ++ slack), (4, 4)) kp 4)
    as (D1 & G1 & P1 & s1 & C1 & X1 & L1 & I1); [done|done|..].
  { unfold compacting, leaf_page. cbn [app]. rewrite vlen_header. done. }
  { rewrite vlen_header. done. }
  assert (N1 : vlen D1 + vlen P1 = 4 + kp * (n - ndrop)).
  { rewrite <-vlen_app, X1. cbn [app]. rewrite vlen_app, vlen_header, vlen_key_tab, TE, vlen_key_ends. f_equal. f_equal. lia. }
  destruct (compact_table fv bs FF D1 G1 P1 (concat (keys_of pairs) ++ concat (values_of pairs) ++ slack) s1 vp (4 + kp * n))
    as (D2 & G2 & P2 & s2 & C2 & X2 & L2 & I2); [done|done|done| |].
  { change (vlen (@nil Z)) with 0 in L1. rewrite DE in L1. lia. }
  assert (N2 : vlen D2 + vlen P2 = section fk fv (vlen pairs')).
  { rewrite <-vlen_app, X2, !vlen_app, vlen_value_tab, TF, vlen_value_ends. unfold section. replace (vlen pairs') with (n - ndrop) by lia. lia. }
  change (vlen (@nil Z)) with 0 in L1. rewrite DE in L1. rewrite DF in L2.
  destruct (compact_holes bs (keys_of pairs) D2 G2 P2 (concat (values_of pairs) ++ slack) s2 S0) as (D3 & G3 & P3 & s3 & C3 & X3 & L3 & I3);
    [unfold keys_of; by rewrite length_map|done|lia|].
  assert (N3 : vlen D3 + vlen P3 = section fk fv (vlen pairs') + size (keys_of pairs')).
  { rewrite <-vlen_app, X3, !vlen_app. unfold keys_of. rewrite kept_map. unfold size. lia. }
  destruct (compact_holes bs (values_of pairs) D3 G3 P3 slack s3 (S0 + size (keys_of pairs))) as (D4 & G4 & P4 & s4 & C4 & X4 & L4 & I4);
    [unfold values_of; by rewrite length_map|done|lia|].
  assert (N4 : vlen D4 + vlen P4 = total fk fv pairs').
  { rewrite <-vlen_app, X4, !vlen_app. unfold values_of. rewrite kept_map. unfold total, size in *. unfold values_of. lia. }
  destruct (compact_tail_ok D4 G4 P4 slack s4 I4) as (G5 & src & L5 & C5).
  replace (vlen D4 + vlen G4 + vlen P4) with (total fk fv pairs) in C5 by (unfold total in *; lia).
  exists G5, src. split; [lia|].
  do 4 (eapply bind_conv; [eassumption|]; cbv beta). rewrite C5, N4. do 2 f_equal. unfold leaf_page. rewrite <-TE, <-TF.
  rewrite (app_assoc D4), X4, (app_assoc D3), X3, (app_assoc D2), X2, (app_assoc D1), X1. cbn [app].
  unfold keys_of, values_of. rewrite !kept_map, <-!app_assoc. done.
Qed.

Lemma remove_indices_ok : exists slack', vlen (leaf fk fv pad pairs' slack') = vlen (leaf fk fv pad pairs slack) /\
  LeafMutator.remove_indices fk fv (leaf fk fv pad pairs slack) (marked 0 bs) = Ret (leaf fk fv pad pairs' slack').
Proof using Hlen Hok Hok' Hsome.
  destruct batch_sizes as (Hn & Hk & Hv & HS). pose proof (leaf_nonempty _ _ _ Hok') as Hne'. pose proof (leaf_count _ _ _ Hok) as Hc.
  pose proof (marked_len 0 bs pairs Hlen) as HM.
  assert (Hlast : exists x, last (marked 0 bs) = Some x /\ 0 <= x < n).
  { destruct (last (marked 0 bs)) as [x|] eqn:E; [|apply last_None in E; rewrite E in HM; unfold vlen in HM at 1; simpl in HM; lia].
    exists x. split; [done|]. apply last_Some_elem_of, marked_bound in E. unfold vlen in E. rewrite Hlen in E. unfold vlen. lia. }
  destruct Hlast as (x & Hx & Hxn).
  unfold LeafMutator.remove_indices, LeafMutator.accessor. rewrite leaf_accessor by done. cbn [mbind outcome_bind].
  change (LeafAccessor.num_pairs a) with n. rewrite (proj2 (Z.eqb_neq (vlen (marked 0 bs)) 0)) by lia. cbn [negb rassert mbind outcome_bind].
  rewrite marked_ascending, Hx. cbn [rassert mbind outcome_bind unwrap]. osteps.
  pose proof (collect_ranges bs 0 [] [] 0 0) as HC. rewrite drop_0 in HC. cbn [app] in HC. change (Z.of_nat 0) with 0 in HC. rewrite !Z.add_0_l in HC. rewrite HC by done. clear HC.
  cbn [mbind outcome_bind]. rewrite total_length_ok by done. cbn [mbind outcome_bind].
  replace (key_off fk fv pairs 0) with S0 by (unfold key_off; rewrite take_0; change (size []) with 0; lia). rewrite value_off_0. fold batch.
  unfold LeafMutator.remove_index_ranges. cbn [batch LeafMutator.indices LeafMutator.key_ranges LeafMutator.value_ranges LeafMutator.num_pairs
    LeafMutator.old_total_len LeafMutator.key_bytes LeafMutator.value_bytes].
  assert (DK : vlen (dropped bs (keys_of pairs)) = ndrop) by (unfold keys_of; by rewrite dropped_map, vlen_map).
  assert (DV : vlen (dropped bs (values_of pairs)) = ndrop) by (unfold values_of; by rewrite dropped_map, vlen_map).
  rewrite !vlen_holes, DK, DV, HM, Z.eqb_refl. cbn [rassert mbind outcome_bind].
  rewrite marked_ascending, Hx. cbn [rassert mbind outcome_bind unwrap]. osteps.
  fold batch. pose proof (batch_updates (concat (keys_of pairs) ++ concat (values_of pairs) ++ slack)) as HU. fold (leaf fk fv pad pairs slack) in HU.
  destruct (batch_compaction _ eq_refl) as (G & src & HG & HCmp). set (page1 := leaf_page fk fv pad n E' F' _) in *.
  do 4 (apply outcome_bind_Ret in HCmp as (? & ? & HCmp)). pose proof (section_pos fk fv pairs').
  pose proof (size_nonneg (keys_of pairs')). pose proof (size_nonneg (values_of pairs')).
  pose proof (size_nonneg (dropped bs (keys_of pairs))). pose proof (size_nonneg (dropped bs (values_of pairs))).
  exists (G ++ slack). split; [rewrite !vlen_leaf, vlen_app; unfold total; lia|].
  do 6 (eapply bind_conv; [eassumption|]; cbv beta iota). unfold total. osteps. rewrite set_count. unfold leaf.
  replace (n - ndrop) with (vlen pairs') by lia. done.
Qed.
End remove_indices.

(** * Building a page *)

Lemma splice_at {A} (p m s src page : list A) a :
  page = p ++ m ++ s -> a = vlen p -> vlen src = vlen m -> splice page a src = Ret (p ++ src ++ s).
Proof. intros -> -> Hl. apply splice_middle; [done|]. unfold vlen in Hl. lia. Qed.
Lemma split_at {A} (l : list A) n : 0 <= n <= vlen l -> exists x y, l = x ++ y /\ vlen x = n /\ vlen y = vlen l - n.
Proof.
  intros Hn. exists (take (Z.to_nat n) l), (drop (Z.to_nat n) l). rewrite take_drop. unfold vlen in *. rewrite length_take, length_drop. split; [done|lia].
Qed.
(** The write of an entry of a table, if there is one *)
Lemma write_entry fixed (p m s page : list Z) e off :
  page = p ++ m ++ s -> (fixed = None -> off = vlen p) -> 0 <= e < 2 ^ 32 -> vlen m = vlen (tab fixed [e]) ->
  match fixed with None => x ← utry 32 e; splice page off (to_le_bytes 4 x) | Some _ => Ret page end = Ret (p ++ tab fixed [e] ++ s).
Proof.
  intros -> Hoff He Hm. rewrite tab_1 in *. destruct fixed.
  - assert (m = []) as -> by (apply length_zero_iff_nil; unfold vlen in Hm; simpl in Hm; lia). done.
  - rewrite utry_ok by lia. cbn [mbind outcome_bind]. rewrite Hoff by done. by rewrite (splice_at p m s).
Qed.

Section build.
  Context (fk fv : option Z) (n KB : Z).
  Notation kp := (LeafMutator.key_ptr_size fk).
  Notation vp := (LeafMutator.value_ptr_size fv).
  Notation S0 := (section fk fv n).
  Context (Hn : 0 < n < 2 ^ 16).

(** The builder after the pairs [P]: the rest of each part of the page is anything. *)
Definition building (pad len : Z) (P : list (list Z * list Z)) (b : RawLeafBuilder.t) : Prop :=
  exists X1 X2 J1 J2,
    b = RawLeafBuilder.mk (header pad n ++ tab fk (ends S0 (keys_of P)) ++ X1 ++ tab fv (ends (S0 + KB) (values_of P)) ++ X2 ++
      concat (keys_of P) ++ J1 ++ concat (values_of P) ++ J2) fk fv n KB (vlen P) /\
    vlen X1 = kp * (n - vlen P) /\ vlen X2 = vp * (n - vlen P) /\ vlen J1 = KB - size (keys_of P) /\
    S0 + KB + size (values_of P) + vlen J2 = len.

Lemma builder_section P page : RawLeafBuilder.key_section_start (RawLeafBuilder.mk page fk fv n KB P) = S0.
Proof.
  unfold RawLeafBuilder.key_section_start, section, LeafMutator.key_ptr_size, LeafMutator.value_ptr_size. cbn. destruct fk, fv; lia.
Qed.

(** The last entry of a table *)
Lemma slice_last h l e s : slice (h ++ concat (map (to_le_bytes 4) (l ++ [e])) ++ s) (vlen h + 4 * vlen l) (vlen h + 4 * vlen l + 4) = Ret (to_le_bytes 4 e).
Proof.
  rewrite map_app, concat_app. cbn [map concat]. rewrite app_nil_r, <-!app_assoc, app_assoc.
  apply slice_middle; rewrite vlen_app, (vlen_concat_chunks _ 4) by (intros; apply length_to_le_bytes); [lia|rewrite vlen_to_le_bytes; lia].
Qed.
Lemma ends_snoc b l x : ends b (l ++ [x]) = ends b l ++ [b + size l + vlen x].
Proof. by rewrite ends_app. Qed.

Context (Hbound : S0 + KB < 2 ^ 32).

(** Where the next key goes *)
Lemma builder_key_offset pad len P b : building pad len P b -> (forall w, fk = Some w -> Forall (fun k => vlen k = w) (keys_of P)) -> 0 <= KB ->
  (if RawLeafBuilder.pairs_written b =? 0 then Ret (RawLeafBuilder.key_section_start b)
   else m ← usub (RawLeafBuilder.pairs_written b) 1; RawLeafBuilder.key_end b m) = Ret (S0 + size (keys_of P)).
Proof using Hbound Hn.
  intros (X1 & X2 & J1 & J2 & -> & HX1 & HX2 & HJ1 & HJ2) Hw HKB. cbn [RawLeafBuilder.pairs_written].
  pose proof (vlen_nonneg J1). destruct P as [|p P] using rev_ind.
  { cbn. rewrite builder_section. change (size []) with 0. by rewrite Z.add_0_r. }
  rewrite vlen_app in *. change (vlen [p]) with 1 in *. pose proof (vlen_nonneg P). rewrite (proj2 (Z.eqb_neq _ _)), usub_ok by lia. cbn [mbind outcome_bind].
  unfold RawLeafBuilder.key_end. rewrite builder_section. cbn [RawLeafBuilder.fixed_key_size RawLeafBuilder.page].
  rewrite keys_app in *. cbn [keys_of map] in *. fold (keys_of P) in *.
  assert (4 <= S0) by (unfold section; pose proof (ptr_sizes fk fv); nia). set (s0 := S0) in *. clearbody s0. destruct fk as [w|] eqn:Ek.
  - rewrite (size_fixed w (keys_of P ++ [fst p])) by auto. rewrite vlen_app, vlen_keys. change (vlen [fst p]) with 1. f_equal. lia.
  - cbn [tab]. rewrite ends_snoc. replace (4 + 4 * (vlen P + 1 - 1)) with (vlen (header pad n) + 4 * vlen (ends s0 (keys_of P)))
      by (rewrite vlen_header, vlen_ends, vlen_keys; lia).
    rewrite slice_last. cbn [mbind outcome_bind]. pose proof (size_nonneg (keys_of P)). pose proof (vlen_nonneg (fst p)).
    rewrite size_app, size_cons in *. change (size []) with 0 in *.
    rewrite from_to_le_bytes by (cbn; lia). f_equal. lia.
Qed.

(** Where the next value goes *)
Lemma builder_value_offset pad len P b : building pad len P b -> (forall w, fv = Some w -> Forall (fun v => vlen v = w) (values_of P)) ->
  0 <= KB -> S0 + KB + size (values_of P) < 2 ^ 32 ->
  (if RawLeafBuilder.pairs_written b =? 0 then Ret (RawLeafBuilder.key_section_start b + RawLeafBuilder.provisioned_key_bytes b)
   else m ← usub (RawLeafBuilder.pairs_written b) 1; RawLeafBuilder.value_end b m) = Ret (S0 + KB + size (values_of P)).
Proof using Hn.
  intros (X1 & X2 & J1 & J2 & -> & HX1 & HX2 & HJ1 & HJ2) Hw HKB Hsz. cbn [RawLeafBuilder.pairs_written RawLeafBuilder.provisioned_key_bytes].
  destruct P as [|p P] using rev_ind.
  { cbn. rewrite builder_section. change (size []) with 0. by rewrite Z.add_0_r. }
  rewrite vlen_app in *. change (vlen [p]) with 1 in *. pose proof (vlen_nonneg P). rewrite (proj2 (Z.eqb_neq _ _)), usub_ok by lia. cbn [mbind outcome_bind].
  unfold RawLeafBuilder.value_end. rewrite builder_section. cbn [RawLeafBuilder.fixed_key_size RawLeafBuilder.fixed_value_size RawLeafBuilder.num_pairs
    RawLeafBuilder.provisioned_key_bytes RawLeafBuilder.page].
  rewrite values_app in *. cbn [values_of map] in *. fold (values_of P) in *. pose proof (size_nonneg (values_of P)). pose proof (vlen_nonneg (snd p)).
  assert (4 <= S0) by (unfold section; pose proof (ptr_sizes fk fv); nia).
  assert (HT : vlen (header pad n ++ tab fk (ends S0 (keys_of (P ++ [p]))) ++ X1) = 4 + kp * n).
  { rewrite !vlen_app, vlen_header, vlen_key_tab, vlen_ends, vlen_keys, vlen_app, HX1. change (vlen [p]) with 1. lia. }
  set (s0 := S0) in *. clearbody s0. destruct fv as [w|] eqn:Ev.
  - rewrite (size_fixed w (values_of P ++ [snd p])) by auto. rewrite vlen_app, vlen_values. change (vlen [snd p]) with 1. f_equal. lia.
  - cbn [tab]. rewrite ends_snoc.
    pose proof (slice_last (header pad n ++ tab fk (ends s0 (keys_of (P ++ [p]))) ++ X1) (ends (s0 + KB) (values_of P)) (s0 + KB + size (values_of P) + vlen (snd p))
      (X2 ++ concat (keys_of (P ++ [p])) ++ J1 ++ concat (values_of P ++ [snd p]) ++ J2)) as Hs.
    rewrite HT, vlen_ends, vlen_values, <-!app_assoc in Hs.
    replace (match fk with Some _ => 4 + 4 * (vlen P + 1 - 1) | None => 4 + 4 * (vlen P + 1 - 1) + 4 * n end) with (4 + kp * n + 4 * vlen P)
      by (unfold LeafMutator.key_ptr_size; destruct fk; lia).
    rewrite Hs. cbn [mbind outcome_bind]. rewrite size_app, size_cons in *. change (size []) with 0 in *.
    rewrite from_to_le_bytes by (cbn; lia). f_equal. lia.
Qed.

Lemma append_ok pad len P k v b : building pad len P b -> widths_ok fk fv (P ++ [(k, v)]) -> vlen P < n ->
  size (keys_of P) + vlen k <= KB -> S0 + KB + size (values_of P) + vlen v <= len -> S0 + KB + size (values_of P) + vlen v < 2 ^ 32 ->
  exists b', RawLeafBuilder.append b k v = Ret b' /\ building pad len (P ++ [(k, v)]) b'.
Proof using Hbound Hn.
  intros HB [Wk Wv] HPn Hk Hv Hv32. rewrite keys_app, values_app in *. cbn [keys_of values_of map fst snd] in *. fold (keys_of P) (values_of P) in *.
  pose proof (size_nonneg (keys_of P)). pose proof (size_nonneg (values_of P)). pose proof (vlen_nonneg k). pose proof (vlen_nonneg v). pose proof (vlen_nonneg P).
  assert (HS4 : 4 <= S0) by (unfold section; pose proof (ptr_sizes fk fv); nia). pose proof (ptr_sizes fk fv) as Hps.
  assert (Ak : match fk with Some w => w =? vlen k | None => true end = true).
  { destruct fk as [w|]; [|done]. specialize (Wk w eq_refl). rewrite Forall_app, Forall_singleton in Wk. destruct Wk as [_ <-]. apply Z.eqb_refl. }
  assert (Av : match fv with Some w => w =? vlen v | None => true end = true).
  { destruct fv as [w|]; [|done]. specialize (Wv w eq_refl). rewrite Forall_app, Forall_singleton in Wv. destruct Wv as [_ <-]. apply Z.eqb_refl. }
  pose proof (builder_key_offset pad len P b HB) as OK. pose proof (builder_value_offset pad len P b HB) as OV.
  destruct HB as (X1 & X2 & J1 & J2 & -> & HX1 & HX2 & HJ1 & HJ2). unfold RawLeafBuilder.append.
  rewrite OK; [|intros w Hw; specialize (Wk w Hw); by apply Forall_app in Wk as [? _]|lia].
  rewrite OV; [|intros w Hw; specialize (Wv w Hw); by apply Forall_app in Wv as [? _]|lia|lia]. clear OK OV.
  cbn [RawLeafBuilder.fixed_key_size RawLeafBuilder.fixed_value_size RawLeafBuilder.num_pairs RawLeafBuilder.provisioned_key_bytes RawLeafBuilder.page RawLeafBuilder.pairs_written].
  rewrite Ak, Av, builder_section. cbn [rassert mbind outcome_bind].
  assert (LK : forall e, vlen (tab fk [e]) = kp) by (intros e; rewrite vlen_key_tab; unfold vlen; simpl; lia).
  assert (LV : forall e, vlen (tab fv [e]) = vp) by (intros e; rewrite vlen_value_tab; unfold vlen; simpl; lia).
  destruct (split_at X1 kp) as (x1 & X1' & -> & Hx1 & HX1'); [nia|]. destruct (split_at X2 vp) as (x2 & X2' & -> & Hx2 & HX2'); [nia|].
  destruct (split_at J1 (vlen k)) as (j1 & J1' & -> & Hj1 & HJ1'); [lia|]. destruct (split_at J2 (vlen v)) as (j2 & J2' & -> & Hj2 & HJ2'); [lia|].
  set (TK := tab fk (ends S0 (keys_of P))). set (TV := tab fv (ends (S0 + KB) (values_of P))).
  assert (LTK : vlen TK = kp * vlen P) by (unfold TK; by rewrite vlen_key_tab, vlen_ends, vlen_keys).
  assert (LTV : vlen TV = vp * vlen P) by (unfold TV; by rewrite vlen_value_tab, vlen_ends, vlen_values).
  set (ke := S0 + size (keys_of P) + vlen k). set (ve := S0 + KB + size (values_of P) + vlen v).
  set (HD := header pad n). assert (LH : vlen HD = 4) by apply vlen_header.
  set (CK := concat (keys_of P)). set (CV := concat (values_of P)). assert (LCK : vlen CK = size (keys_of P)) by done. assert (LCV : vlen CV = size (values_of P)) by done.
  rewrite (write_entry fk (HD ++ TK) x1 (X1' ++ TV ++ (x2 ++ X2') ++ CK ++ (j1 ++ J1') ++ CV ++ (j2 ++ J2'))); cycle 1.
  { by rewrite <-!app_assoc. }
  { intros Ek. rewrite vlen_app, LH, LTK. unfold LeafMutator.key_ptr_size. rewrite Ek. lia. }
  { lia. }
  { by rewrite LK. }
  cbn [mbind outcome_bind].
  rewrite (splice_at (HD ++ TK ++ tab fk [ke] ++ X1' ++ TV ++ (x2 ++ X2') ++ CK) j1 (J1' ++ CV ++ (j2 ++ J2'))); cycle 1.
  { by rewrite <-!app_assoc. }
  { rewrite !vlen_app, LK. unfold section. lia. }
  { done. }
  cbn [mbind outcome_bind]. rewrite usub_ok by lia. cbn [mbind outcome_bind].
  rewrite (proj2 (Z.leb_le _ KB)) by lia. cbn [rassert mbind outcome_bind].
  rewrite (write_entry fv (HD ++ TK ++ tab fk [ke] ++ X1' ++ TV) x2 (X2' ++ CK ++ k ++ J1' ++ CV ++ (j2 ++ J2'))); cycle 1.
  { by rewrite <-!app_assoc. }
  { intros Ev. rewrite !vlen_app, LH, LTK, LTV, LK. unfold LeafMutator.key_ptr_size, LeafMutator.value_ptr_size in *. rewrite Ev in *. destruct fk; lia. }
  { lia. }
  { by rewrite LV. }
  cbn [mbind outcome_bind].
  rewrite (splice_at (HD ++ TK ++ tab fk [ke] ++ X1' ++ TV ++ tab fv [ve] ++ X2' ++ CK ++ k ++ J1' ++ CV) j2 J2'); cycle 1.
  { by rewrite <-!app_assoc. }
  { rewrite !vlen_app, LK, LV. unfold section. lia. }
  { done. }
  cbn [mbind outcome_bind]. eexists. split; [done|]. exists X1', X2', J1', J2'. rewrite keys_app, values_app. cbn [keys_of values_of map fst snd].
  fold (keys_of P) (values_of P). rewrite !ends_snoc, !tab_app, !concat_app. cbn [concat]. rewrite !app_nil_r. fold TK TV HD CK CV ke ve. rewrite <-!app_assoc.
  rewrite !vlen_app, !size_app, !size_cons in *. change (size []) with 0. change (vlen [(k, v)]) with 1. split; [done|]. lia.
Qed.

Lemma new_ok page : 0 <= KB -> S0 + KB <= vlen page ->
  exists pad b, RawLeafBuilder.new page n fk fv KB = Ret b /\ building pad (vlen page) [] b.
Proof using Hbound Hn.
  intros HKB Hlen. pose proof (ptr_sizes fk fv) as Hps. assert (HS4 : 4 <= S0) by (unfold section; nia).
  destruct (split_at page 4) as (h & rest & -> & Hh & Hr); [lia|]. rewrite vlen_app in *.
  destruct h as [|h0 [|pad [|h2 [|h3 []]]]]; unfold vlen in Hh; simpl in Hh; try lia. clear Hh.
  destruct (split_at rest (S0 - 4)) as (tb & rest' & -> & Htb & Hr'); [lia|]. rewrite vlen_app in *.
  destruct (split_at rest' KB) as (j1 & j2 & -> & Hj1 & Hj2); [lia|]. rewrite !vlen_app in *.
  exists pad. unfold RawLeafBuilder.new. rewrite vset_ok by (rewrite vlen_app; unfold vlen; simpl; lia). cbn [mbind outcome_bind].
  change (Z.to_nat 0) with 0%nat. cbn [app]. cbn [insert list_insert]. rewrite utry_ok by lia. cbn [mbind outcome_bind].
  rewrite (splice_at [LEAF; pad] [h2; h3] (tb ++ j1 ++ j2)) by done. cbn [mbind outcome_bind].
  assert (Hlast : match fv with None => (match fk with None => 4 + 4 * n | Some _ => 4 end) + 4 * n | Some _ => match fk with None => 4 + 4 * n | Some _ => 4 end end = S0).
  { unfold section, LeafMutator.key_ptr_size, LeafMutator.value_ptr_size. destruct fk, fv; lia. }
  rewrite Hlast. rewrite (splice_at (header pad n) tb (j1 ++ j2)); cycle 1.
  { done. }
  { by rewrite vlen_header. }
  { unfold vlen at 1. rewrite length_replicate. lia. }
  cbn [mbind outcome_bind]. eexists. split; [done|]. set (R := replicate (Z.to_nat (S0 - 4)) 255).
  assert (HR : vlen R = S0 - 4) by (unfold R, vlen; rewrite length_replicate; lia).
  destruct (split_at R (kp * n)) as (X1 & X2 & HX & HX1 & HX2); [rewrite HR; unfold section; nia|].
  exists X1, X2, j1, j2. unfold keys_of, values_of. cbn [map ends concat]. rewrite HX.
  assert (HT : forall f, tab f [] = []) by (by intros []). rewrite !HT. cbn [app]. change (vlen (@nil (list Z * list Z))) with 0. change (size []) with 0.
  rewrite <-!app_assoc. split; [done|]. assert (S0 = 4 + kp * n + vp * n) by done. change (vlen [h0; pad; h2; h3]) with 4. rewrite Z.sub_0_r. lia.
Qed.

Lemma append_all pad len rest : forall P b, building pad len P b -> widths_ok fk fv (P ++ rest) -> vlen (P ++ rest) = n ->
  size (keys_of (P ++ rest)) = KB -> S0 + KB + size (values_of (P ++ rest)) <= len -> S0 + KB + size (values_of (P ++ rest)) < 2 ^ 32 ->
  exists b', for_each (fun '(key, value) builder => RawLeafBuilder.append builder key value) rest b = Ret b' /\ building pad len (P ++ rest) b'.
Proof using Hbound Hn.
  induction rest as [|[k v] rest IH]; intros P b HB Hw Hln Hk Hl H32.
  { exists b. by rewrite app_nil_r. }
  replace (P ++ (k, v) :: rest) with ((P ++ [(k, v)]) ++ rest) in * by (by rewrite <-app_assoc).
  assert (Hw1 : widths_ok fk fv (P ++ [(k, v)])).
  { destruct Hw as [W1 W2]. split; intros w E; [specialize (W1 w E); rewrite keys_app in W1|specialize (W2 w E); rewrite values_app in W2];
      rewrite Forall_app in *; tauto. }
  assert (Hs : size (keys_of (P ++ [(k, v)])) = size (keys_of P) + vlen k /\ size (values_of (P ++ [(k, v)])) = size (values_of P) + vlen v).
  { rewrite keys_app, values_app, !size_app. cbn [keys_of values_of map fst snd]. rewrite !size_cons. change (size []) with 0. lia. }
  pose proof Hln as Hln'. pose proof Hk as Hk'. pose proof Hl as Hl'. pose proof H32 as H32'.
  rewrite vlen_app in Hln'. rewrite keys_app, size_app in Hk'. rewrite values_app, size_app in Hl', H32'. pose proof (vlen_nonneg rest).
  pose proof (size_nonneg (keys_of rest)). pose proof (size_nonneg (values_of rest)).
  rewrite vlen_app in Hln'. change (vlen [(k, v)]) with 1 in Hln'.
  destruct (append_ok pad len P k v b HB Hw1) as (b1 & Ha & HB1); [lia..|]. cbn [for_each]. rewrite Ha. cbn [mbind outcome_bind].
  by apply IH.
Qed.
End build.

Lemma fill_ok fk fv page pairs : leaf_ok fk fv pairs -> total fk fv pairs <= vlen page ->
  exists pad slack, LeafBuilder.fill page fk fv (size (keys_of pairs)) pairs = Ret (leaf fk fv pad pairs slack) /\
    vlen (leaf fk fv pad pairs slack) = vlen page.
Proof.
  intros Hok Hlen. pose proof (leaf_nonempty _ _ _ Hok) as Hn0. pose proof (leaf_count _ _ _ Hok) as Hn1. pose proof (leaf_total _ _ _ Hok) as Ht.
  pose proof (leaf_widths _ _ _ Hok) as Hw. unfold total in *. set (n := vlen pairs) in *. set (KB := size (keys_of pairs)).
  pose proof (size_nonneg (keys_of pairs)). pose proof (size_nonneg (values_of pairs)).
  destruct (new_ok fk fv n KB (conj Hn0 Hn1) ltac:(lia) page) as (pad & b & Hnew & HB); [lia|lia|].
  unfold LeafBuilder.fill. fold n. rewrite Hnew. cbn [mbind outcome_bind].
  destruct (append_all fk fv n KB (conj Hn0 Hn1) ltac:(lia) pad (vlen page) pairs [] b HB) as (b' & Hall & HB'); try done; try lia.
  rewrite Hall. cbn [mbind outcome_bind app] in *. pose proof (builder_key_offset fk fv n KB (conj Hn0 Hn1) ltac:(lia) pad (vlen page) pairs b' HB') as Hend.
  destruct HB' as (X1 & X2 & J1 & J2 & -> & HX1 & HX2 & HJ1 & HJ2). unfold RawLeafBuilder.drop. fold n in HX1, HX2, Hend |- *.
  cbn [RawLeafBuilder.pairs_written RawLeafBuilder.num_pairs] in *. rewrite Z.eqb_refl. cbn [rassert mbind outcome_bind].
  rewrite (proj2 (Z.eqb_neq n 0)) in Hend by lia. specialize (Hend ltac:(by destruct Hw) ltac:(lia)). rewrite usub_ok in * by lia. cbn [mbind outcome_bind] in *.
  rewrite Hend, builder_section. cbn [mbind outcome_bind RawLeafBuilder.provisioned_key_bytes]. ostep.
  assert (X1 = [] /\ X2 = [] /\ J1 = []) as (-> & -> & ->).
  { rewrite Z.sub_diag, Z.mul_0_r in *. repeat split; apply length_zero_iff_nil; unfold vlen in *; lia. }
  exists pad, J2. cbn [RawLeafBuilder.page]. split; [done|]. rewrite vlen_leaf. unfold total. fold n. lia.
Qed.

(** * The search for a key *)

Section search.
  Context {compare valid cmp} `{BO : ByteOrder compare valid cmp}.

(** The keys from [i] on, and before [i], relative to [q] *)
Definition split_by (keys : list (list Z)) (q : list Z) (lo hi : nat) : Prop :=
  below cmp q (take lo keys) /\ above cmp q (drop hi keys).

Lemma midpoint_between a b : a < b -> a <= midpoint a b < b.
Proof. intros. unfold midpoint. split; [apply Z.div_le_lower_bound; lia|apply Z.div_lt_upper_bound; lia]. Qed.

(** A probe narrows the range. *)
Lemma split_less keys q lo hi m k : Forall valid keys -> sorted cmp keys -> valid q -> keys !! m = Some k -> cmp q k = Lt ->
  split_by keys q lo hi -> split_by keys q lo m.
Proof using BO.
  intros Hv Hs Hq Hk Hlt [H1 _]. split; [done|]. rewrite (drop_S _ _ _ Hk). rewrite <-(take_drop_middle _ _ _ Hk) in Hs, Hv.
  apply sorted_middle in Hs as (_ & _ & _ & Ha & _). rewrite Forall_app, Forall_cons in Hv. destruct Hv as (_ & Hvk & Hvd).
  constructor; [done|]. by apply (above_trans q k).
Qed.
Lemma split_greater keys q lo hi m k : Forall valid keys -> sorted cmp keys -> valid q -> keys !! m = Some k -> cmp q k = Gt ->
  split_by keys q lo hi -> split_by keys q (S m) hi.
Proof using BO.
  intros Hv Hs Hq Hk Hgt [_ H2]. split; [|done]. rewrite (take_S_r _ _ _ Hk). rewrite <-(take_drop_middle _ _ _ Hk) in Hs, Hv.
  apply sorted_middle in Hs as (_ & _ & Hb & _ & _). rewrite Forall_app, Forall_cons in Hv. destruct Hv as (Hvt & Hvk & _).
  apply (cmp_gt q k Hq Hvk) in Hgt. apply Forall_app. split; [by apply (below_trans k q)|]. by constructor.
Qed.

Context (fk fv : option Z) (pad : Z) (pairs : list (list Z * list Z)) (slack : list Z) (Hok : leaf_ok fk fv pairs).
Context (Hv : Forall valid (keys_of pairs)) (Hs : sorted cmp (keys_of pairs)).

Lemma search_ok q fuel : forall lo hi, valid q -> (lo <= hi <= length pairs)%nat -> (hi - lo < fuel)%nat -> split_by (keys_of pairs) q lo hi ->
  exists i found, LeafAccessor.search compare (accessor_of fk fv pad pairs slack) q fuel (Z.of_nat lo) (Z.of_nat hi) = Ret (Z.of_nat i, found) /\
    (i <= length pairs)%nat /\
    if found : bool then keys_of pairs !! i = Some q else split_by (keys_of pairs) q i i.
Proof using BO Hok Hs Hv.
  induction fuel as [|fuel IH]; intros lo hi Hq Hlh Hf Hsp; [lia|]. cbn [LeafAccessor.search].
  destruct (Z.ltb_spec (Z.of_nat lo) (Z.of_nat hi)) as [Hlt|Hge].
  - pose proof (midpoint_between _ _ Hlt) as Hm. set (m := Z.to_nat (midpoint (Z.of_nat lo) (Z.of_nat hi))).
    replace (midpoint (Z.of_nat lo) (Z.of_nat hi)) with (Z.of_nat m) in * by (unfold m; lia).
    destruct (lookup_lt_is_Some_2 pairs m) as [[k v] Hp]; [lia|].
    assert (Hk : keys_of pairs !! m = Some k) by (rewrite keys_lookup, Hp; done).
    assert (Hvk : valid k) by (rewrite Forall_lookup in Hv; by eapply Hv).
    rewrite (key_unchecked_ok fk fv pad pairs slack Hok m k v Hp). cbn [mbind outcome_bind].
    rewrite (@bo_compare _ _ _ BO q k) by done. cbn [mbind outcome_bind]. destruct (cmp q k) eqn:E.
    + apply (@bo_eq _ _ _ BO) in E as ->; [|done..]. exists m, true. split; [done|]. split; [lia|done].
    + apply IH; [done|lia|lia|by eapply split_less].
    + replace (Z.of_nat m + 1) with (Z.of_nat (S m)) by lia. apply IH; [done|lia|lia|by eapply split_greater].
  - assert (lo = hi) as -> by lia. rewrite Z.eqb_refl. cbn [rassert mbind outcome_bind]. exists hi, false. split; [done|]. split; [lia|done].
Qed.

(** The pairs before and from the position that [position] returns *)
Lemma position_ok q : valid q ->
  exists P1 P2 found, LeafAccessor.position compare (accessor_of fk fv pad pairs slack) q = Ret (vlen P1, found) /\ pairs = P1 ++ P2 /\
    below cmp q (keys_of P1) /\
    if found : bool then exists v P3, P2 = (q, v) :: P3 /\ above cmp q (keys_of P3) else above cmp q (keys_of P2).
Proof using BO Hok Hs Hv.
  intros Hq. unfold LeafAccessor.position. change (LeafAccessor.num_pairs (accessor_of fk fv pad pairs slack)) with (vlen pairs).
  replace (Z.to_nat (vlen pairs)) with (length pairs) by (unfold vlen; lia). change (vlen pairs) with (Z.of_nat (length pairs)). change 0 with (Z.of_nat 0).
  destruct (search_ok q (S (length pairs)) 0 (length pairs) Hq) as (i & found & Hr & Hi & Hsp); [lia|lia| |].
  { split; [rewrite take_0; constructor|]. rewrite drop_ge; [constructor|]. unfold keys_of. by rewrite length_map. }
  rewrite Hr. exists (take i pairs), (drop i pairs), found.
  assert (HK : keys_of (take i pairs) = take i (keys_of pairs) /\ keys_of (drop i pairs) = drop i (keys_of pairs)).
  { unfold keys_of. split; [apply fmap_take|apply fmap_drop]. }
  destruct HK as [HK1 HK2]. split; [unfold vlen; rewrite length_take_le by lia; done|]. split; [by rewrite take_drop|].
  rewrite HK1. destruct found.
  - rewrite keys_lookup in Hsp. destruct (pairs !! i) as [[k v]|] eqn:Hp; [|done]. injection Hsp as ->.
    assert (Hk : keys_of pairs !! i = Some q) by (rewrite keys_lookup, Hp; done). rewrite <-(take_drop_middle _ _ _ Hk) in Hs.
    apply sorted_middle in Hs as (_ & _ & Hb & Ha & _). split; [done|]. exists v, (drop (S i) pairs). split; [by apply drop_S|].
    unfold keys_of in *. rewrite <-(fmap_drop fst) in Ha. done.
  - rewrite HK2. by destruct Hsp.
Qed.
End search.

(** * The builder *)

(** The byte counts of a builder are those of its pairs. *)
Definition builder_ok (b : LeafBuilder.t) : Prop :=
  LeafBuilder.total_key_bytes b = size (keys_of (LeafBuilder.pairs b)) /\
  LeafBuilder.total_value_bytes b = size (values_of (LeafBuilder.pairs b)).

Lemma new_builder_ok fk fv : builder_ok (LeafBuilder.new fk fv).
Proof. done. Qed.
Lemma push_ok b k v : builder_ok b -> builder_ok (LeafBuilder.push b k v).
Proof.
  intros [H1 H2]. unfold builder_ok, LeafBuilder.push. cbn. rewrite keys_app, values_app, !size_app, H1, H2. cbn [keys_of values_of map fst snd].
  rewrite !size_cons. change (size []) with 0. lia.
Qed.

Lemma required_bytes_total fk fv pairs :
  RawLeafBuilder.required_bytes (vlen pairs) (size (keys_of pairs) + size (values_of pairs)) fk fv = total fk fv pairs.
Proof.
  unfold RawLeafBuilder.required_bytes, total, section, LeafMutator.key_ptr_size, LeafMutator.value_ptr_size. destruct fk, fv; lia.
Qed.

Lemma divide_ok T l : forall d kb vb, exists j, (j <= length l)%nat /\ (l <> [] -> (0 < j)%nat) /\
  LeafBuilder.divide T l (d, (kb, vb)) = (d + Z.of_nat j, (kb + size (keys_of (take j l)), vb + size (values_of (take j l)))).
Proof.
  induction l as [|[k v] l IH]; intros d kb vb.
  { exists 0%nat. split; [simpl; lia|]. split; [done|]. cbn. change (size []) with 0. by rewrite !Z.add_0_r. }
  cbn [LeafBuilder.divide]. destruct (T / 2 <=? kb + vlen k + (vb + vlen v)).
  - exists 1%nat. split; [simpl; lia|]. split; [lia|]. cbn [take keys_of values_of map fst snd]. rewrite !take_0. cbn [map]. rewrite !size_cons.
    change (size []) with 0. rewrite !Z.add_0_r. done.
  - destruct (IH (d + 1) (kb + vlen k) (vb + vlen v)) as (j & Hj & _ & ->). exists (S j). split; [simpl; lia|]. split; [lia|].
    cbn [take keys_of values_of map fst snd]. rewrite !size_cons. unfold keys_of, values_of. f_equal; [lia|f_equal; lia].
Qed.

Lemma sum_lens_size l : LeafBuilder.sum_lens l = size l.
Proof. induction l as [|x l IH]; [done|]. unfold LeafBuilder.sum_lens in *. cbn [foldr]. by rewrite IH, size_cons. Qed.

(** The division: both halves are there, and fit the count of a page. *)
Lemma division_ok b : builder_ok b -> 1 < vlen (LeafBuilder.pairs b) <= 2 * umax 16 ->
  exists P1 P2, LeafBuilder.pairs b = P1 ++ P2 /\ 0 < vlen P1 <= umax 16 /\ 0 < vlen P2 <= umax 16 /\
    LeafBuilder.division b = Ret (vlen P1, (size (keys_of P1), size (values_of P1))).
Proof.
  intros Hb Hl. set (pairs := LeafBuilder.pairs b) in *. change (umax 16) with 65535 in *. unfold LeafBuilder.division. fold pairs.
  change (umax 16) with 65535. rewrite usub_ok by lia. cbn [mbind outcome_bind].
  set (l := take (Z.to_nat (vlen pairs - 1)) pairs). assert (Ll : length l = (length pairs - 1)%nat) by (unfold l, vlen; rewrite length_take; lia).
  destruct (divide_ok (LeafBuilder.total_key_bytes b + LeafBuilder.total_value_bytes b) l 0 0 0) as (j & Hj & Hj0 & Hd).
  rewrite Hd, !Z.add_0_l. unfold vlen in Hl. assert (0 < j)%nat by (apply Hj0; intros E; rewrite E in Ll; simpl in Ll; lia).
  assert (Htake : take j l = take j pairs) by (unfold l; rewrite take_take; f_equal; unfold vlen; lia). rewrite Htake.
  rewrite (proj2 (Z.leb_le (vlen pairs) (2 * 65535))) by (unfold vlen; lia). cbn [rassert mbind outcome_bind].
  rewrite (proj2 (Z.leb_le (saturating_sub (vlen pairs) 65535) 65535)) by (unfold saturating_sub, vlen; lia). cbn [rassert mbind outcome_bind].
  set (c := Z.min (Z.max (Z.of_nat j) (saturating_sub (vlen pairs) 65535)) 65535).
  assert (Hc : 0 < c < vlen pairs /\ c <= 65535 /\ vlen pairs - c <= 65535) by (unfold c, saturating_sub, vlen; lia).
  destruct (Z.eqb_spec c (Z.of_nat j)) as [Ec|Ec].
  - exists (take j pairs), (drop j pairs). rewrite take_drop. unfold vlen in *. rewrite length_take_le, length_drop by lia.
    split; [done|]. split; [lia|]. split; [lia|done].
  - rewrite slice_ok by (unfold vlen in *; lia). cbn [mbind outcome_bind]. rewrite drop_0, Z.sub_0_r, !sum_lens_size.
    exists (take (Z.to_nat c) pairs), (drop (Z.to_nat c) pairs). rewrite take_drop. unfold vlen in *. rewrite length_take_le, length_drop by lia.
    split; [done|]. split; [lia|]. split; [lia|]. unfold keys_of, values_of. do 2 f_equal. lia.
Qed.

(** The rest of a sequence of pairs has the widths and takes at most the bytes of the whole. *)
Lemma part_ok fk fv P1 P2 : widths_ok fk fv (P1 ++ P2) -> widths_ok fk fv P1 /\ widths_ok fk fv P2.
Proof.
  intros [W1 W2]. split; split; intros w E; [specialize (W1 w E)|specialize (W2 w E)|specialize (W1 w E)|specialize (W2 w E)];
    rewrite ?keys_app, ?values_app, Forall_app in *; tauto.
Qed.
Lemma total_app fk fv P1 P2 : total fk fv (P1 ++ P2) = total fk fv P1 + total fk fv P2 - 4.
Proof. unfold total, section. rewrite keys_app, values_app, !size_app, vlen_app. lia. Qed.

Lemma is_leaf_intro fk fv pad pairs slack : leaf_ok fk fv pairs -> vlen (leaf fk fv pad pairs slack) < 2 ^ 63 ->
  is_leaf fk fv (leaf fk fv pad pairs slack) pairs.
Proof. intros. by exists pad, slack. Qed.

(** What [build] writes *)
Lemma write_ok b page : builder_ok b -> leaf_ok (LeafBuilder.fixed_key_size b) (LeafBuilder.fixed_value_size b) (LeafBuilder.pairs b) ->
  LeafBuilder.required_size b <= vlen page < 2 ^ 63 ->
  exists page', LeafBuilder.write b page = Ret page' /\ vlen page' = vlen page /\
    is_leaf (LeafBuilder.fixed_key_size b) (LeafBuilder.fixed_value_size b) page' (LeafBuilder.pairs b).
Proof.
  intros [Hk Hv] Hok [Hs Hp]. unfold LeafBuilder.required_size, LeafBuilder.required_bytes in Hs. rewrite Hk, Hv, required_bytes_total in Hs.
  destruct (fill_ok _ _ page _ Hok Hs) as (pad & slack & Hf & Hl). unfold LeafBuilder.write. rewrite Hk, Hf.
  eexists. split; [done|]. split; [done|]. apply is_leaf_intro; [done|lia].
Qed.

(** What [build_split] writes *)
Lemma split_ok b (fk := LeafBuilder.fixed_key_size b) (fv := LeafBuilder.fixed_value_size b) :
  builder_ok b -> 1 < vlen (LeafBuilder.pairs b) <= 2 * umax 16 -> widths_ok fk fv (LeafBuilder.pairs b) ->
  (forall P1 P2, LeafBuilder.pairs b = P1 ++ P2 -> vlen P1 <= umax 16 -> vlen P2 <= umax 16 -> total fk fv P1 < 2 ^ 32 /\ total fk fv P2 < 2 ^ 32) ->
  exists P1 P2 d s1 s2, LeafBuilder.pairs b = P1 ++ P2 /\ LeafBuilder.division b = Ret d /\ LeafBuilder.split_sizes b d = Ret (s1, s2) /\
    leaf_ok fk fv P1 /\ leaf_ok fk fv P2 /\ s1 = total fk fv P1 /\ s2 = total fk fv P2 /\
    (exists k, last (keys_of P1) = Some k /\ LeafBuilder.split_key b d = Ret k) /\
    (forall page1, s1 <= vlen page1 < 2 ^ 63 -> exists p1, LeafBuilder.write_first b d page1 = Ret p1 /\ vlen p1 = vlen page1 /\ is_leaf fk fv p1 P1) /\
    (forall page2, s2 <= vlen page2 < 2 ^ 63 -> exists p2, LeafBuilder.write_second b d page2 = Ret p2 /\ vlen p2 = vlen page2 /\ is_leaf fk fv p2 P2).
Proof.
  intros Hb Hl Hw Ht. destruct (division_ok b Hb Hl) as (P1 & P2 & HP & HP1 & HP2 & Hd). destruct Hb as [Hk Hv].
  destruct (Ht P1 P2 HP ltac:(lia) ltac:(lia)) as [HtA HtB]. clear Ht.
  change (umax 16) with 65535 in *. rewrite HP in *. rewrite keys_app, size_app in Hk. rewrite values_app, size_app in Hv.
  pose proof (total_pos fk fv P1). pose proof (total_pos fk fv P2). destruct (part_ok _ _ _ _ Hw) as [W1 W2].
  assert (O1 : leaf_ok fk fv P1) by (split; [lia|lia|done|lia]). assert (O2 : leaf_ok fk fv P2) by (split; [lia|lia|done|lia]).
  pose proof (size_nonneg (keys_of P1)). pose proof (size_nonneg (values_of P1)). pose proof (size_nonneg (keys_of P2)). pose proof (size_nonneg (values_of P2)).
  exists P1, P2, (vlen P1, (size (keys_of P1), size (values_of P1))), (total fk fv P1), (total fk fv P2).
  split; [done|]. split; [done|]. split; [|split; [done|split; [done|split; [done|split; [done|split; [|split]]]]]].
  - unfold LeafBuilder.split_sizes. rewrite HP, Hk, Hv, vlen_app. rewrite usub_ok by lia. cbn [mbind outcome_bind]. rewrite usub_ok by lia.
    cbn [mbind outcome_bind]. rewrite usub_ok by lia. cbn [mbind outcome_bind]. unfold LeafBuilder.required_bytes. fold fk fv.
    rewrite required_bytes_total. replace (vlen P1 + vlen P2 - vlen P1) with (vlen P2) by lia.
    replace (size (keys_of P1) + size (keys_of P2) + (size (values_of P1) + size (values_of P2)) - size (keys_of P1) - size (values_of P1))
      with (size (keys_of P2) + size (values_of P2)) by lia. by rewrite required_bytes_total.
  - destruct P1 as [|[k v] P1 _] using rev_ind; [unfold vlen in HP1; simpl in HP1; lia|]. exists k. rewrite keys_app. cbn [keys_of map fst].
    split; [apply last_snoc|]. unfold LeafBuilder.split_key. cbn [fst]. rewrite HP, vlen_app. change (vlen [(k, v)]) with 1. pose proof (vlen_nonneg P1).
    rewrite usub_ok by lia. cbn [mbind outcome_bind]. replace (vlen P1 + 1 - 1) with (vlen P1) by lia.
    rewrite (vget_ok _ _ (k, v)); [done|lia|]. unfold vlen. rewrite Nat2Z.id, <-app_assoc. by apply list_lookup_middle.
  - intros page1 Hp. destruct (fill_ok fk fv page1 P1 O1 ltac:(lia)) as (pad & slack & Hf & Hlen). unfold LeafBuilder.write_first. rewrite HP.
    replace (Z.to_nat (vlen P1)) with (length P1) by (unfold vlen; lia). rewrite take_app_length. fold fk fv. rewrite Hf.
    eexists. split; [done|]. split; [done|]. apply is_leaf_intro; [done|lia].
  - intros page2 Hp. destruct (fill_ok fk fv page2 P2 O2 ltac:(lia)) as (pad & slack & Hf & Hlen). unfold LeafBuilder.write_second. rewrite HP.
    rewrite slice_from_suffix by done. cbn [mbind outcome_bind]. rewrite Hk, usub_ok by lia. cbn [mbind outcome_bind]. fold fk fv.
    replace (size (keys_of P1) + size (keys_of P2) - size (keys_of P1)) with (size (keys_of P2)) by lia. rewrite Hf.
    eexists. split; [done|]. split; [done|]. apply is_leaf_intro; [done|lia].
Qed.

(** Pushing the pairs of a leaf, those with a mark apart *)
Lemma push_marked fk fv pad pairs slack (Hok : leaf_ok fk fv pairs) idx bs : forall i b nx,
  length bs = length (drop i pairs) -> 0 <= nx -> drop (Z.to_nat nx) idx = marked (Z.of_nat i) bs ->
  exists b', for_each (LeafBuilder.push_unless (accessor_of fk fv pad pairs slack) idx) (seqZ (Z.of_nat i) (vlen bs)) (b, nx) = Ret (b', nx + vlen (marked (Z.of_nat i) bs)) /\
    LeafBuilder.pairs b' = LeafBuilder.pairs b ++ kept bs (drop i pairs) /\ LeafBuilder.fixed_key_size b' = LeafBuilder.fixed_key_size b /\
    LeafBuilder.fixed_value_size b' = LeafBuilder.fixed_value_size b /\ (builder_ok b -> builder_ok b').
Proof.
  induction bs as [|c bs IH]; intros i b nx Hl Hnx Hidx.
  { exists b. cbn. rewrite app_nil_r, Z.add_0_r. done. }
  rewrite length_drop in Hl. cbn [length] in Hl. destruct (lookup_lt_is_Some_2 pairs i) as [[k v] Hp]; [lia|].
  pose proof (vlen_nonneg bs). rewrite vlen_cons, seqZ_cons by lia. replace (Z.pred (1 + vlen bs)) with (vlen bs) by lia. cbn [for_each marked].
  rewrite (drop_S _ _ _ Hp). cbn [kept]. replace (Z.succ (Z.of_nat i)) with (Z.of_nat (S i)) by lia. replace (Z.of_nat i + 1) with (Z.of_nat (S i)) in * by lia.
  cbn [marked] in Hidx. replace (Z.of_nat i + 1) with (Z.of_nat (S i)) in Hidx by lia. destruct c; cbn [app] in *.
  - destruct (drop_cons_lookup _ _ _ _ Hnx Hidx) as (Hg & Hlt & Hd). 
    assert (Hstep : LeafBuilder.push_unless (accessor_of fk fv pad pairs slack) idx (Z.of_nat i) (b, nx) = Ret (b, nx + 1)).
    { unfold LeafBuilder.push_unless. rewrite (proj2 (Z.ltb_lt _ _)), Hg by done. cbn [mbind outcome_bind]. by rewrite Z.eqb_refl. }
    rewrite Hstep. cbn [mbind outcome_bind].
    destruct (IH (S i) b (nx + 1)) as (b' & HF & H1 & H2 & H3 & H4); [rewrite length_drop; lia|lia|done|].
    exists b'. rewrite vlen_cons, Z.add_assoc. done.
  - assert (Hhit : (if nx <? vlen idx then x ← vget idx nx; Ret (x =? Z.of_nat i) else Ret false) = Ret false).
    { destruct (Z.ltb_spec nx (vlen idx)); [|done]. destruct (marked (Z.of_nat (S i)) bs) as [|x t] eqn:E; [apply drop_nil_vlen in Hidx; lia|].
      destruct (drop_cons_lookup _ _ _ _ Hnx Hidx) as (Hg & _ & _). rewrite Hg. cbn [mbind outcome_bind].
      pose proof (marked_bound (Z.of_nat (S i)) bs x ltac:(rewrite E; left)). by rewrite (proj2 (Z.eqb_neq x (Z.of_nat i))) by lia. }
    assert (Hstep : LeafBuilder.push_unless (accessor_of fk fv pad pairs slack) idx (Z.of_nat i) (b, nx) = Ret (LeafBuilder.push b k v, nx)).
    { unfold LeafBuilder.push_unless. rewrite Hhit. cbn [mbind outcome_bind]. unfold expect. by rewrite (entry_ok fk fv pad pairs slack Hok i k v Hp). }
    rewrite Hstep. cbn [mbind outcome_bind].
    destruct (IH (S i) (LeafBuilder.push b k v) nx) as (b' & HF & H1 & H2 & H3 & H4); [rewrite length_drop; lia|lia|done|].
    exists b'. split; [done|]. cbn [LeafBuilder.push LeafBuilder.pairs LeafBuilder.fixed_key_size LeafBuilder.fixed_value_size] in *.
    rewrite H1, <-app_assoc. split; [done|]. split; [done|]. split; [done|]. intros Hb. apply H4. by apply push_ok.
Qed.

Lemma push_all_except_ok fk fv pad pairs slack b bs : leaf_ok fk fv pairs -> length bs = length pairs ->
  exists b', LeafBuilder.push_all_except_indexes b (accessor_of fk fv pad pairs slack) (marked 0 bs) = Ret b' /\
    LeafBuilder.pairs b' = LeafBuilder.pairs b ++ kept bs pairs /\ LeafBuilder.fixed_key_size b' = LeafBuilder.fixed_key_size b /\
    LeafBuilder.fixed_value_size b' = LeafBuilder.fixed_value_size b /\ (builder_ok b -> builder_ok b').
Proof.
  intros Hok Hl. unfold LeafBuilder.push_all_except_indexes. rewrite marked_ascending. cbn [rassert mbind outcome_bind].
  change (LeafAccessor.num_pairs (accessor_of fk fv pad pairs slack)) with (vlen pairs).
  destruct (push_marked fk fv pad pairs slack Hok (marked 0 bs) bs 0 b 0) as (b' & HF & H1); [by rewrite drop_0|lia|done|].
  rewrite drop_0 in H1. exists b'. split; [|done]. replace (vlen bs) with (vlen pairs) in HF by (unfold vlen; by rewrite Hl).
  change (Z.of_nat 0) with 0 in HF. rewrite HF. cbn [mbind outcome_bind]. rewrite Z.add_0_l, Z.eqb_refl. done.
Qed.

(** * Theorems *)

Lemma widths_app fk fv P Q : widths_ok fk fv (P ++ Q) <-> widths_ok fk fv P /\ widths_ok fk fv Q.
Proof.
  split; [apply part_ok|]. intros [[A1 A2] [B1 B2]]. split; intros w E; rewrite ?keys_app, ?values_app; apply Forall_app; auto.
Qed.
Lemma widths_cons fk fv p P : widths_ok fk fv (p :: P) <-> widths_ok fk fv [p] /\ widths_ok fk fv P.
Proof. apply (widths_app fk fv [p] P). Qed.
Lemma total_insert fk fv P1 p P2 : total fk fv (P1 ++ p :: P2) =
  total fk fv (P1 ++ P2) + LeafMutator.key_ptr_size fk + LeafMutator.value_ptr_size fv + vlen p.1 + vlen p.2.
Proof.
  rewrite !total_app, (total_app fk fv [p] P2 : total fk fv (p :: P2) = _). unfold total at 2, section. cbn [keys_of values_of map].
  rewrite !size_cons. change (size []) with 0. change (vlen [p]) with 1. lia.
Qed.
Lemma vlen_middle {A} (P1 : list A) p P2 : vlen (P1 ++ p :: P2) = vlen (P1 ++ P2) + 1.
Proof. rewrite !vlen_app, vlen_cons. lia. Qed.

Lemma kept_widths fk fv bs : forall pairs, widths_ok fk fv pairs -> widths_ok fk fv (kept bs pairs).
Proof.
  induction bs as [|b bs IH]; intros pairs Hw; [by split; intros; constructor|].
  destruct pairs as [|p pairs]; [by split; intros; constructor|]. apply widths_cons in Hw as [H1 H2].
  destruct b; cbn [kept app]; [by apply IH|apply widths_cons; split; [done|by apply IH]].
Qed.
Lemma kept_total fk fv bs pairs : length bs = length pairs -> total fk fv (kept bs pairs) <= total fk fv pairs.
Proof.
  revert pairs. induction bs as [|b bs IH]; intros [|p pairs] Hl; try done. injection Hl as Hl. specialize (IH pairs Hl).
  pose proof (total_insert fk fv [] p pairs) as H1. pose proof (total_insert fk fv [] p (kept bs pairs)) as H2. cbn [app] in *.
  pose proof (ptr_sizes fk fv). pose proof (vlen_nonneg p.1). pose proof (vlen_nonneg p.2). destruct b; cbn [kept app]; lia.
Qed.
Lemma kept_none {A} bs (l : list A) i : length bs = length l -> marked i bs = [] -> kept bs l = l.
Proof.
  revert l i. induction bs as [|b bs IH]; intros [|x l] i Hl Hm; try done. injection Hl as Hl. cbn [marked] in Hm. destruct b; [done|].
  cbn [kept app]. by rewrite (IH l (i + 1)).
Qed.
(** A single mark *)
Lemma marked_one {A} bs (l : list A) i j : length bs = length l -> marked i bs = [j] ->
  exists l1 x l2, l = l1 ++ x :: l2 /\ kept bs l = l1 ++ l2 /\ j = i + vlen l1.
Proof.
  revert l i. induction bs as [|b bs IH]; intros [|x l] i Hl Hm; try done. injection Hl as Hl. cbn [marked] in Hm. destruct b; cbn [app] in Hm.
  - injection Hm as -> Hm. exists [], x, l. cbn [kept app]. rewrite (kept_none bs l (j + 1)) by done. split; [done|]. split; [done|]. unfold vlen. simpl. lia.
  - destruct (IH l (i + 1) Hl Hm) as (l1 & y & l2 & -> & Hk & ->). exists (x :: l1), y, l2. cbn [kept app]. rewrite Hk, vlen_cons. split; [done|]. split; [done|lia].
Qed.

(** Whether a pair fits, and its insertion *)
Lemma sufficient_insert_ok fk fv page P1 P2 key value page_order :
  is_leaf fk fv page (P1 ++ P2) -> widths_ok fk fv [(key, value)] ->
  exists b, LeafMutator.sufficient_insert_inplace_space fk fv page page_order (vlen P1) key value = Ret b /\
    (b = true <-> vlen (P1 ++ P2) < 65535 /\ (0 < page_order -> P2 = []) /\
       total fk fv (P1 ++ (key, value) :: P2) <= Z.min (vlen page) (2 ^ 32 - 1)) /\
    (b = true -> exists page', LeafMutator.insert fk fv page (vlen P1) key value = Ret page' /\ vlen page' = vlen page /\
       is_leaf fk fv page' (P1 ++ (key, value) :: P2)).
Proof.
  intros (pad & slack & -> & Hok & Hp) Hw. set (pairs := P1 ++ P2) in *. set (pairs' := P1 ++ (key, value) :: P2).
  pose proof (total_insert fk fv P1 (key, value) P2) as Ht. fold pairs pairs' in Ht. cbn [fst snd] in Ht. pose proof (vlen_middle P1 (key, value) P2) as Hn. fold pairs pairs' in Hn.
  pose proof (leaf_nonempty _ _ _ Hok). pose proof (leaf_widths _ _ _ Hok) as Hwp. pose proof (vlen_leaf fk fv pad pairs slack) as HL. pose proof (vlen_nonneg slack).
  assert (HP2 : vlen P1 < vlen pairs <-> P2 <> []).
  { unfold pairs. rewrite vlen_app. destruct P2; [split; [unfold vlen; simpl; lia|done]|]. rewrite vlen_cons. pose proof (vlen_nonneg P2). split; [done|lia]. }
  assert (Hgo : vlen pairs < 65535 /\ total fk fv pairs' <= Z.min (vlen (leaf fk fv pad pairs slack)) (2 ^ 32 - 1) ->
    exists page', LeafMutator.insert fk fv (leaf fk fv pad pairs slack) (vlen P1) key value = Ret page' /\ vlen page' = vlen (leaf fk fv pad pairs slack) /\ is_leaf fk fv page' pairs').
  { intros [Hc Hfit]. assert (Hok' : leaf_ok fk fv pairs').
    { split; [lia|lia| |lia]. unfold pairs', pairs in *. rewrite widths_app, widths_cons in *. tauto. }
    destruct (insert_ok fk fv pad P1 P2 key value slack Hok Hok' Hp ltac:(fold pairs pairs'; lia)) as (slack' & Hlen & Hi).
    eexists. split; [exact Hi|]. split; [done|]. apply is_leaf_intro; [done|]. fold pairs pairs' in Hlen. lia. }
  unfold LeafMutator.sufficient_insert_inplace_space, LeafMutator.accessor. rewrite leaf_accessor by done. cbn [mbind outcome_bind].
  change (LeafAccessor.num_pairs (accessor_of fk fv pad pairs slack)) with (vlen pairs). change (umax 16) with 65535. change (umax 32) with (2 ^ 32 - 1).
  destruct (Z.leb_spec 65535 (vlen pairs)) as [Hc|Hc].
  { exists false. split; [done|]. split; [split; [done|lia]|done]. }
  destruct (Z.ltb_spec 0 page_order) as [Ho|Ho], (Z.ltb_spec (vlen P1) (vlen pairs)) as [Hi|Hi]; cbn [andb].
  { exists false. split; [done|]. split; [split; [done|]|done]. intros (_ & Hx & _). apply HP2 in Hi. tauto. }
  all: assert (HE : 0 < page_order -> P2 = []) by (intros; destruct P2; [done|]; exfalso; pose proof (proj2 HP2 ltac:(done)); lia).
  all: rewrite total_length_ok by done; cbn [mbind outcome_bind]; rewrite usub_ok by lia; cbn [mbind outcome_bind].
  all: destruct (Z.ltb_spec (2 ^ 32 - 1) (total fk fv pairs + (vlen key + vlen value + LeafMutator.key_ptr_size fk + LeafMutator.value_ptr_size fv))).
  all: try (exists false; split; [done|]; split; [split; [done|lia]|done]).
  all: eexists; split; [done|]; rewrite Z.leb_le; split; [|intros Hd; apply Hgo; lia]; split; [intros Hd; split; [lia|]; split; [done|lia]|lia].
Qed.

(** C15. Inserting in place.  On a page that holds [P1 ++ P2], [sufficient_insert_inplace_space] at the position after [P1]
    returns, and it is true exactly when the page has less than 65535 pairs, is a small page or the position is its end,
    and the new pairs fit the page and 32-bit offsets.  When it is true, [LeafMutator::insert] there does not panic, and
    the page then holds the pairs with the new pair after [P1]. *)
Theorem leaf_insert_in_place fk fv page P1 P2 key value page_order :
  is_leaf fk fv page (P1 ++ P2) -> widths_ok fk fv [(key, value)] ->
  exists b, LeafMutator.sufficient_insert_inplace_space fk fv page page_order (vlen P1) key value = Ret b /\
    (b = true <-> vlen (P1 ++ P2) < 65535 /\ (0 < page_order -> P2 = []) /\
       total fk fv (P1 ++ (key, value) :: P2) <= Z.min (vlen page) (2 ^ 32 - 1)) /\
    (b = true -> exists page', LeafMutator.insert fk fv page (vlen P1) key value = Ret page' /\ vlen page' = vlen page /\
       is_leaf fk fv page' (P1 ++ (key, value) :: P2)).
Proof. apply sufficient_insert_ok. Qed.

(** A small page with two pairs of variable width *)
Definition demo_pairs : list (list Z * list Z) := [([97], [1; 2]); ([99], [3])].
Definition demo_page : list Z := leaf None None 0 demo_pairs (replicate 30 0).
Lemma demo_is_leaf : is_leaf None None demo_page demo_pairs.
Proof.
  exists 0, (replicate 30 0). split; [done|]. split; [split; [done|done|split; intros w E; discriminate E|done]|done].
Qed.
Lemma widths_none p : widths_ok None None p.
Proof. by split. Qed.

Lemma leaf_insert_in_place_witness : exists page', LeafMutator.insert None None demo_page 1 [98] [4; 5] = Ret page' /\ vlen page' = vlen demo_page /\
  is_leaf None None page' [([97], [1; 2]); ([98], [4; 5]); ([99], [3])].
Proof.
  destruct (leaf_insert_in_place None None demo_page [([97], [1; 2])] [([99], [3])] [98] [4; 5] 0 demo_is_leaf (widths_none _)) as (b & Hb & Hc & Hi).
  apply Hi, Hc. vm_compute. repeat split; congruence.
Defined.

(** Replacing a value in place.  On a page that holds [P1 ++ (k, v) :: P2], [sufficient_replace_inplace_space] at the pair
    returns, and it is true exactly when the pairs with the new value fit the page and 32-bit offsets.  When it is true,
    [LeafMutator::replace] does not panic, and the page then holds the new value at that pair and is otherwise unchanged. *)
Lemma sufficient_replace_ok fk fv page P1 k v P2 value :
  is_leaf fk fv page (P1 ++ (k, v) :: P2) -> widths_ok fk fv [(k, value)] -> vlen value < 2 ^ 63 ->
  exists b, LeafMutator.sufficient_replace_inplace_space fk fv page (vlen P1) value = Ret b /\
    (b = true <-> total fk fv (P1 ++ (k, value) :: P2) <= Z.min (vlen page) (2 ^ 32 - 1)) /\
    (b = true -> exists page', LeafMutator.replace fk fv page (vlen P1) value = Ret page' /\ vlen page' = vlen page /\
       is_leaf fk fv page' (P1 ++ (k, value) :: P2)).
Proof.
  intros (pad & slack & -> & Hok & Hp) Hw Hlv. set (pairs := P1 ++ (k, v) :: P2) in *. set (pairs' := P1 ++ (k, value) :: P2).
  pose proof (total_insert fk fv P1 (k, v) P2) as Ht. pose proof (total_insert fk fv P1 (k, value) P2) as Ht'. fold pairs in Ht. fold pairs' in Ht'. cbn [fst snd] in Ht, Ht'.
  assert (Hn : vlen pairs' = vlen pairs) by (unfold pairs', pairs; by rewrite !vlen_middle).
  pose proof (leaf_nonempty _ _ _ Hok). pose proof (leaf_count _ _ _ Hok). pose proof (leaf_widths _ _ _ Hok) as Hwp. pose proof (leaf_total _ _ _ Hok).
  pose proof (vlen_leaf fk fv pad pairs slack) as HL. pose proof (vlen_nonneg slack). pose proof (vlen_nonneg v). pose proof (vlen_nonneg value).
  pose proof (total_pos fk fv (P1 ++ P2)). pose proof (ptr_sizes fk fv). pose proof (vlen_nonneg k).
  assert (Hgo : total fk fv pairs' <= Z.min (vlen (leaf fk fv pad pairs slack)) (2 ^ 32 - 1) ->
    exists page', LeafMutator.replace fk fv (leaf fk fv pad pairs slack) (vlen P1) value = Ret page' /\ vlen page' = vlen (leaf fk fv pad pairs slack) /\ is_leaf fk fv page' pairs').
  { intros Hfit. assert (Hok' : leaf_ok fk fv pairs').
    { split; [lia|lia| |lia]. unfold pairs', pairs in *. rewrite widths_app, widths_cons in *. tauto. }
    destruct (replace_ok fk fv pad P1 P2 k v value slack Hok Hok' Hp ltac:(fold pairs pairs'; lia)) as (slack' & Hlen & Hi).
    eexists. split; [exact Hi|]. split; [done|]. apply is_leaf_intro; [done|]. fold pairs pairs' in Hlen. lia. }
  assert (Hi : (length P1 < length pairs)%nat) by (unfold pairs; rewrite length_app; simpl; lia).
  assert (A3 : LeafMutator.value_len (accessor_of fk fv pad pairs slack) (vlen P1) = Ret (vlen v)).
  { unfold LeafMutator.value_len, vlen at 1. rewrite value_range_ok by done. unfold pairs. rewrite value_off_at, value_off_after.
    cbn [mbind outcome_bind]. rewrite usub_ok by lia. f_equal. lia. }
  unfold LeafMutator.sufficient_replace_inplace_space, LeafMutator.accessor. rewrite leaf_accessor by done. cbn [mbind outcome_bind].
  rewrite total_length_ok by done. cbn [mbind outcome_bind]. rewrite usub_ok by lia. cbn [mbind outcome_bind]. rewrite A3. cbn [mbind outcome_bind]. osteps.
  change (umax 32) with (2 ^ 32 - 1). destruct (Z.ltb_spec (2 ^ 32 - 1) (total fk fv pairs - vlen v + vlen value)).
  - exists false. split; [done|]. split; [split; [done|lia]|done].
  - eexists. split; [done|]. rewrite Z.leb_le. split; [lia|]. intros. apply Hgo. lia.
Qed.

(** C16. Removing pairs in place.  Given a page and strictly ascending positions of it, at least one but not all of them,
    [LeafMutator::remove_indices] does not panic, and the page then holds the pairs at the other positions, in their order
    ([kept] by the marks [bs] of the positions); [LeafMutator::remove] does the same for one position. *)
Theorem leaf_remove_in_place fk fv page pairs indices :
  is_leaf fk fv page pairs -> LeafMutator.ascending indices = true -> Forall (fun i => 0 <= i < vlen pairs) indices ->
  0 < vlen indices < vlen pairs ->
  exists bs, length bs = length pairs /\ marked 0 bs = indices /\
    (exists page', LeafMutator.remove_indices fk fv page indices = Ret page' /\ vlen page' = vlen page /\ is_leaf fk fv page' (kept bs pairs)) /\
    (forall i, indices = [i] -> exists page', LeafMutator.remove fk fv page i = Ret page' /\ vlen page' = vlen page /\ is_leaf fk fv page' (kept bs pairs)).
Proof.
  intros (pad & slack & -> & Hok & Hp) Ha Hb Hc.
  destruct (marked_exists indices 0 (length pairs) Ha ltac:(eapply Forall_impl; [exact Hb|]; unfold vlen; simpl; lia)) as (bs & Hl & Hm). exists bs. split; [done|]. split; [done|].
  rewrite <-Hm, (marked_len 0 bs pairs Hl) in Hc. pose proof (kept_dropped_len bs pairs Hl) as Hkd. destruct Hok as [H1 H2 H3 H4].
  assert (Hok : leaf_ok fk fv pairs) by done. assert (Hok' : leaf_ok fk fv (kept bs pairs)).
  { split; [lia|lia|by apply kept_widths|]. pose proof (kept_total fk fv bs pairs Hl). lia. }
  split.
  - destruct (remove_indices_ok fk fv pad pairs slack bs Hok Hl Hok' ltac:(lia)) as (slack' & Hlen & Hr).
    rewrite <-Hm. eexists. split; [exact Hr|]. split; [done|]. apply is_leaf_intro; [done|lia].
  - intros i ->. destruct (marked_one bs pairs 0 i Hl Hm) as (P1 & [k v] & P2 & -> & Hkeep & Hi). rewrite Hkeep in *. replace i with (vlen P1) by lia.
    destruct (remove_ok fk fv pad P1 P2 k v slack Hok Hok') as (slack' & Hlen & Hr).
    eexists. split; [exact Hr|]. split; [done|]. apply is_leaf_intro; [done|lia].
Qed.

Lemma leaf_remove_in_place_witness : exists page', LeafMutator.remove_indices None None demo_page [0] = Ret page' /\ vlen page' = vlen demo_page /\
  is_leaf None None page' [([99], [3])].
Proof.
  destruct (leaf_remove_in_place None None demo_page demo_pairs [0] demo_is_leaf) as (bs & Hl & Hm & Hr & _).
  - reflexivity.
  - constructor; [vm_compute; split; congruence|constructor].
  - vm_compute. split; congruence.
  - destruct bs as [|[] [|[] []]]; try discriminate Hl; try discriminate Hm. exact Hr.
Defined.

(** What [LeafAccessor] reads from a page is what the page holds. *)
Definition reads_as (fk fv : option Z) (page : list Z) (pairs : list (list Z * list Z)) : Prop :=
  exists a, LeafAccessor.new page fk fv = Ret a /\ LeafAccessor.num_pairs a = vlen pairs /\
    LeafAccessor.total_length a = Ret (total fk fv pairs) /\
    forall i : nat, LeafAccessor.entry a (Z.of_nat i) = Ret (pairs !! i).

Lemma leaf_reads fk fv page pairs : is_leaf fk fv page pairs -> reads_as fk fv page pairs.
Proof.
  intros (pad & slack & -> & Hok & _). exists (accessor_of fk fv pad pairs slack). split; [by apply leaf_accessor|]. split; [done|].
  split; [by apply total_length_ok|]. intros i. destruct (pairs !! i) as [[k v]|] eqn:E; [by apply entry_ok|].
  apply lookup_ge_None in E. pose proof (leaf_nonempty _ _ _ Hok). unfold LeafAccessor.entry, LeafAccessor.key_start.
  assert (Hend : forall j, (length pairs <= j)%nat -> LeafAccessor.key_end (accessor_of fk fv pad pairs slack) (Z.of_nat j) = Ret None).
  { intros j Hj. unfold LeafAccessor.key_end. cbn [LeafAccessor.num_pairs accessor_of]. unfold vlen. by rewrite (proj2 (Z.leb_le _ _)) by lia. }
  destruct (Z.eqb_spec (Z.of_nat i) 0); [unfold vlen in *; lia|]. rewrite usub_ok by lia. cbn [mbind outcome_bind].
  replace (Z.of_nat i - 1) with (Z.of_nat (i - 1)) by lia.
  destruct (decide (length pairs = i)) as [<-|Hne].
  - rewrite key_end_ok by (done || lia). cbn [try_some]. by rewrite Hend.
  - by rewrite Hend by lia.
Qed.

Definition push_pairs (b : LeafBuilder.t) (pairs : list (list Z * list Z)) : LeafBuilder.t :=
  fold_left (fun b p => LeafBuilder.push b p.1 p.2) pairs b.
Lemma push_pairs_ok pairs : forall b, builder_ok b -> builder_ok (push_pairs b pairs) /\ LeafBuilder.pairs (push_pairs b pairs) = LeafBuilder.pairs b ++ pairs /\
  LeafBuilder.fixed_key_size (push_pairs b pairs) = LeafBuilder.fixed_key_size b /\
  LeafBuilder.fixed_value_size (push_pairs b pairs) = LeafBuilder.fixed_value_size b.
Proof.
  induction pairs as [|[k v] pairs IH]; intros b Hb; cbn [push_pairs fold_left fst snd]; [by rewrite app_nil_r|].
  destruct (IH (LeafBuilder.push b k v) (push_ok b k v Hb)) as (H1 & H2 & H3 & H4). unfold push_pairs in *.
  split; [done|]. rewrite H2, H3, H4. cbn [LeafBuilder.push LeafBuilder.pairs LeafBuilder.fixed_key_size LeafBuilder.fixed_value_size]. by rewrite <-app_assoc.
Qed.

(** C18. Building a page and reading it.  Pushing pairs to a new builder and building onto a page of at least the bytes the builder
    asks for does not panic, and the accessor then reads every pair back, nothing else, and the length the builder asked for. *)
Theorem leaf_build_reads_back fk fv pairs page (b := push_pairs (LeafBuilder.new fk fv) pairs) :
  0 < vlen pairs < 2 ^ 16 -> widths_ok fk fv pairs -> LeafBuilder.required_size b < 2 ^ 32 ->
  LeafBuilder.required_size b <= vlen page < 2 ^ 63 ->
  exists page', LeafBuilder.write b page = Ret page' /\ vlen page' = vlen page /\ reads_as fk fv page' pairs /\
    total fk fv pairs = LeafBuilder.required_size b.
Proof.
  intros Hn Hw Ht Hl. destruct (push_pairs_ok pairs _ (new_builder_ok fk fv)) as (Hb & Hp & Hk & Hv). fold b in Hb, Hp, Hk, Hv.
  cbn [LeafBuilder.new LeafBuilder.pairs LeafBuilder.fixed_key_size LeafBuilder.fixed_value_size app] in Hp, Hk, Hv.
  assert (Ht' : LeafBuilder.required_size b = total fk fv pairs).
  { destruct Hb as [H1 H2]. unfold LeafBuilder.required_size, LeafBuilder.required_bytes. by rewrite H1, H2, Hp, Hk, Hv, required_bytes_total. }
  destruct (write_ok b page Hb) as (page' & H1 & H2 & H3); [|done|].
  - rewrite Hp, Hk, Hv. split; [lia|lia|done|lia].
  - exists page'. rewrite Hp, Hk, Hv in H3. apply leaf_reads in H3. done.
Qed.

Lemma leaf_build_reads_back_witness : exists page',
  LeafBuilder.write (push_pairs (LeafBuilder.new (Some 1) None) demo_pairs) (replicate 20 0) = Ret page' /\ vlen page' = 20 /\
  reads_as (Some 1) None page' demo_pairs.
Proof.
  destruct (leaf_build_reads_back (Some 1) None demo_pairs (replicate 20 0)) as (p & H1 & H2 & H3 & _).
  - vm_compute. split; congruence.
  - split; [|done]. intros w [= <-]. by repeat constructor.
  - vm_compute. reflexivity.
  - vm_compute. split; congruence.
  - exists p. split; [exact H1|]. split; [exact H2|exact H3].
Defined.

(** C30. The binary search.  On a page whose keys are encodings of a key type and ascend in its order, [LeafAccessor::position] of a
    key ends without a panic.  It returns the number of pairs with a smaller key, and whether the pair at that position has the
    key; the keys after it are greater.  [LeafAccessor::find_key] returns a position exactly when the page has the key. *)
Theorem leaf_position {compare valid cmp} `{BO : ByteOrder compare valid cmp} fk fv page pairs q :
  is_leaf fk fv page pairs -> Forall valid (keys_of pairs) -> sorted cmp (keys_of pairs) -> valid q ->
  exists a P1 P2 found, LeafAccessor.new page fk fv = Ret a /\ LeafAccessor.position compare a q = Ret (vlen P1, found) /\
    LeafAccessor.find_key compare a q = Ret (if found then Some (vlen P1) else None) /\
    pairs = P1 ++ P2 /\ below cmp q (keys_of P1) /\
    (found = true <-> q ∈ keys_of pairs) /\
    (if found : bool then exists v P3, P2 = (q, v) :: P3 /\ above cmp q (keys_of P3) else above cmp q (keys_of P2)).
Proof.
  intros (pad & slack & -> & Hok & _) Hv Hs Hq. destruct (position_ok fk fv pad pairs slack Hok Hv Hs q Hq) as (P1 & P2 & found & Hr & HP & Hb & Ha).
  exists (accessor_of fk fv pad pairs slack), P1, P2, found. split; [by apply leaf_accessor|]. split; [done|]. split; [unfold LeafAccessor.find_key; by rewrite Hr|].
  split; [done|]. split; [done|]. split; [|done]. rewrite HP, keys_app, elem_of_app. rewrite HP, keys_app, Forall_app in Hv. destruct found.
  - destruct Ha as (v & P3 & -> & _). split; [|done]. intros _. right. left.
  - split; [done|]. pose proof (cmp_refl q Hq) as Hr'. unfold below, above in *. rewrite !Forall_forall in *. intros [H|H]; [apply Hb in H|apply Ha in H]; congruence.
Qed.

Lemma leaf_position_witness : exists a P1 P2 found, LeafAccessor.new demo_page None None = Ret a /\
  LeafAccessor.position (compare bytes) a [99] = Ret (vlen P1, found) /\
  LeafAccessor.find_key (compare bytes) a [99] = Ret (if found then Some (vlen P1) else None) /\
  demo_pairs = P1 ++ P2 /\ (found = true <-> [99] ∈ keys_of demo_pairs).
Proof.
  destruct (@leaf_position _ _ _ (builtin_byte_order ordered_bytes) None None demo_page demo_pairs [99] demo_is_leaf) as (a & P1 & P2 & found & H1 & H2 & H3 & H4 & _ & H6 & _).
  - repeat constructor; [exists (Bytes [97])|exists (Bytes [99])]; split; try reflexivity; repeat constructor; unfold byte; lia.
  - repeat constructor.
  - exists (Bytes [99]). split; [|reflexivity]. repeat constructor; unfold byte; lia.
  - exists a, P1, P2, found. repeat (split; [assumption|]). assumption.
Defined.

(** C17. Splitting a full page.  A builder of at least two pairs, and at most twice the greatest number of pairs of a page, that holds
    less than 4 GiB divides its pairs in two non-empty parts, of at most 65535 pairs each, and asks for the bytes of each part.  On pages of
    these sizes nothing panics; the accessor reads the first part from the first page and the rest from the second, and the
    key that separates them is the last key of the first. *)
Theorem leaf_split_reads_back fk fv pairs page1 page2 (b := push_pairs (LeafBuilder.new fk fv) pairs) :
  1 < vlen pairs <= 2 * umax 16 -> widths_ok fk fv pairs -> LeafBuilder.required_size b < 2 ^ 32 ->
  exists P1 P2 d s1 s2, pairs = P1 ++ P2 /\ 0 < vlen P1 <= umax 16 /\ 0 < vlen P2 <= umax 16 /\
    LeafBuilder.division b = Ret d /\ LeafBuilder.split_sizes b d = Ret (s1, s2) /\ s1 + s2 = LeafBuilder.required_size b + 4 /\
    (exists k, last (keys_of P1) = Some k /\ LeafBuilder.split_key b d = Ret k) /\
    (s1 <= vlen page1 < 2 ^ 63 -> exists p1, LeafBuilder.write_first b d page1 = Ret p1 /\ vlen p1 = vlen page1 /\ reads_as fk fv p1 P1) /\
    (s2 <= vlen page2 < 2 ^ 63 -> exists p2, LeafBuilder.write_second b d page2 = Ret p2 /\ vlen p2 = vlen page2 /\ reads_as fk fv p2 P2).
Proof.
  intros Hn Hw Ht. destruct (push_pairs_ok pairs _ (new_builder_ok fk fv)) as (Hb & Hp & Hk & Hv). fold b in Hb, Hp, Hk, Hv.
  cbn [LeafBuilder.new LeafBuilder.pairs LeafBuilder.fixed_key_size LeafBuilder.fixed_value_size app] in Hp, Hk, Hv.
  assert (Ht' : LeafBuilder.required_size b = total fk fv pairs).
  { destruct Hb as [H1 H2]. unfold LeafBuilder.required_size, LeafBuilder.required_bytes. by rewrite H1, H2, Hp, Hk, Hv, required_bytes_total. }
  destruct (split_ok b Hb) as (P1 & P2 & d & s1 & s2 & HP & Hd & Hs & Hok1 & Hok2 & -> & -> & Hkey & Hw1 & Hw2); rewrite ?Hp, ?Hk, ?Hv in *; [done|done| |].
  { intros Q1 Q2 HQ _ _. rewrite Ht', HQ, total_app in Ht. pose proof (total_pos fk fv Q1). pose proof (total_pos fk fv Q2). lia. }
  destruct Hok1 as [? ? _ _], Hok2 as [? ? _ _]. change (umax 16) with 65535. exists P1, P2, d, (total fk fv P1), (total fk fv P2). split; [done|]. split; [lia|]. split; [lia|]. split; [done|]. split; [done|].
  split; [rewrite Ht', HP, total_app; lia|]. split; [done|]. split; intros Hl.
  - destruct (Hw1 page1 Hl) as (p & H3 & H4 & H5%leaf_reads). by exists p.
  - destruct (Hw2 page2 Hl) as (p & H3 & H4 & H5%leaf_reads). by exists p.
Qed.

Lemma leaf_split_reads_back_witness : exists P1 P2 d, demo_pairs = P1 ++ P2 /\ 0 < vlen P1 <= umax 16 /\ 0 < vlen P2 <= umax 16 /\
  LeafBuilder.division (push_pairs (LeafBuilder.new None None) demo_pairs) = Ret d /\
  exists p1, LeafBuilder.write_first (push_pairs (LeafBuilder.new None None) demo_pairs) d (replicate 30 0) = Ret p1 /\ reads_as None None p1 P1.
Proof.
  destruct (leaf_split_reads_back None None demo_pairs (replicate 30 0) (replicate 30 0)) as (P1 & P2 & d & s1 & s2 & H1 & H2 & H3 & H4 & H5 & H6 & _ & H8 & _).
  - vm_compute. split; congruence.
  - apply widths_none.
  - vm_compute. reflexivity.
  - exists P1, P2, d. split; [exact H1|]. split; [exact H2|]. split; [exact H3|]. split; [exact H4|].
    destruct H8 as (p & H9 & _ & H10).
    + assert (Hd : d = (1, (1, 2))) by (assert (E : Ret d = Ret (1, (1, 2))) by (rewrite <-H4; vm_compute; reflexivity); congruence).
      rewrite Hd in H5. vm_compute in H5. injection H5 as <- <-. vm_compute. split; congruence.
    + exists p. split; [exact H9|exact H10].
Defined.
