(* ===== verification/Branch.v ===== *)
(** Branch pages: reading them ([BranchAccessor]), writing them
    ([RawBranchBuilder], [BranchBuilder]) and changing a child in place
    ([BranchMutator]) (src/src/tree_store/btree_base.rs).

    As in [Leaf], offsets into a page are plain sums. *)
From S2P Require Import Prelude Buddy Pages Types KeyOrder Leaf LeafTheorems.

(** * Model *)

Definition BRANCH : Z := 2.
Definition DEFERRED : Z := 999.

(** A child of a branch: its page and the checksum the branch has for it *)
Notation child := (PageNumber.t * Z)%type.

(** ** Reading *)

Module BranchAccessor.

Record t := mk { page : list Z; num_keys : Z; fixed_key_size : option Z }.

Definition new (page : list Z) (fixed_key_size : option Z) : outcome t :=
  b ← vget page 0;
  _ ← rassert (b =? BRANCH);
  d ← slice page 2 4;
  Ret (mk page (from_le_bytes d) fixed_key_size).

Definition count_children (a : t) : Z := num_keys a + 1.

Definition key_section_start (a : t) : Z :=
  match fixed_key_size a with
  | None => 8 + (8 + 16) * count_children a + 4 * num_keys a
  | Some _ => 8 + (8 + 16) * count_children a
  end.

Definition key_end (a : t) (n : Z) : option Z :=
  match fixed_key_size a with
  | Some fixed => Some (key_section_start a + fixed * (n + 1))
  | None =>
      let offset := 8 + (8 + 16) * count_children a + 4 * n in
      from_le_bytes <$> get_range (page a) offset (offset + 4)
  end.

Definition key_offset (a : t) (n : Z) : outcome Z :=
  if n =? 0 then Ret (key_section_start a)
  else m ← usub n 1; unwrap (key_end a m).

Definition key (a : t) (n : Z) : outcome (option (list Z)) :=
  if num_keys a <=? n then Ret None
  else
    offset ← key_offset a n;
    e ⇐ Ret (key_end a n);
    d ← slice (page a) offset e;
    Ret (Some d).

Definition child_checksum (a : t) (n : Z) : outcome (option Z) :=
  if count_children a <=? n then Ret None
  else
    let offset := 8 + 16 * n in
    d ← slice (page a) offset (offset + 16);
    Ret (Some (from_le_bytes d)).

Definition child_page (a : t) (n : Z) : outcome (option PageNumber.t) :=
  if count_children a <=? n then Ret None
  else
    let offset := 8 + 16 * count_children a + 8 * n in
    d ← slice (page a) offset (offset + 8);
    p ← PageNumber.from_bytes d;
    Ret (Some p).

Definition total_length (a : t) : outcome Z :=
  m ← usub (num_keys a) 1; unwrap (key_end a m).

(** The binary search of [child_for_key]: the index of the child *)
Fixpoint search (compare : list Z -> list Z -> outcome comparison) (a : t) (query : list Z)
    (fuel : nat) (min_child max_child : Z) : outcome Z :=
  match fuel with
  | O => Panic
  | S f =>
      if min_child <? max_child then
        let mid := midpoint min_child max_child in
        k ← expect (key a mid);
        c ← compare query k;
        match c with
        | Lt => search compare a query f min_child mid
        | Eq => Ret mid
        | Gt => search compare a query f (mid + 1) max_child
        end
      else
        _ ← rassert (min_child =? max_child);
        Ret min_child
  end.
Definition child_for_key (compare : list Z -> list Z -> outcome comparison) (a : t) (query : list Z)
    : outcome (Z * PageNumber.t) :=
  i ← search compare a query (S (Z.to_nat (num_keys a))) 0 (num_keys a);
  p ← expect (child_page a i);
  Ret (i, p).

End BranchAccessor.

(** ** Writing *)

Module RawBranchBuilder.

Record t := mk { page : list Z; fixed_key_size : option Z; num_keys : Z; keys_written : Z }.

Definition required_bytes (num_keys size_of_keys : Z) (fixed_key_size : option Z) : Z :=
  match fixed_key_size with
  | None => size_of_keys + (8 + (8 + 16) * (num_keys + 1) + 4 * num_keys)
  | Some _ => size_of_keys + (8 + (8 + 16) * (num_keys + 1))
  end.

Definition new (page : list Z) (num_keys : Z) (fixed_key_size : option Z) : outcome t :=
  _ ← rassert (0 <? num_keys);
  page ← vset page 0 BRANCH;
  n ← utry 16 num_keys;
  page ← splice page 2 (to_le_bytes 2 n);
  (* Poison all the child pointers & key offsets *)
  let start := 8 + 16 * (num_keys + 1) in
  let last := 8 + (8 + 16) * (num_keys + 1) in
  let last := match fixed_key_size with None => last + 4 * num_keys | Some _ => last end in
  page ← splice page start (replicate (Z.to_nat (last - start)) 255);
  Ret (mk page fixed_key_size num_keys 0).

Definition write_first_page (b : t) (c : child) : outcome t :=
  page ← splice (page b) 8 (to_le_bytes 16 c.2);
  page ← splice page (8 + 16 * (num_keys b + 1)) (PageNumber.to_bytes c.1);
  Ret (mk page (fixed_key_size b) (num_keys b) (keys_written b)).

Definition key_section_start (b : t) : Z :=
  let offset := 8 + (8 + 16) * (num_keys b + 1) in
  match fixed_key_size b with None => offset + 4 * num_keys b | Some _ => offset end.

Definition key_end (b : t) (n : Z) : outcome Z :=
  match fixed_key_size b with
  | Some fixed => Ret (key_section_start b + fixed * (n + 1))
  | None =>
      let offset := 8 + (8 + 16) * (num_keys b + 1) + 4 * n in
      d ← slice (page b) offset (offset + 4);
      Ret (from_le_bytes d)
  end.

Definition write_nth_key (b : t) (key : list Z) (c : child) (n : Z) : outcome t :=
  _ ← rassert (n <? num_keys b);
  _ ← rassert (n =? keys_written b);
  page1 ← splice (page b) (8 + 16 * (n + 1)) (to_le_bytes 16 c.2);
  let offset := 8 + 16 * (num_keys b + 1) + 8 * (n + 1) in
  page2 ← splice page1 offset (PageNumber.to_bytes c.1);
  data_offset ← (if 0 <? n then
      m ← usub n 1; key_end (mk page2 (fixed_key_size b) (num_keys b) (keys_written b + 1)) m
    else Ret (key_section_start b));
  page3 ← match fixed_key_size b with
    | None =>
        e ← utry 32 (data_offset + vlen key);
        splice page2 (8 + (8 + 16) * (num_keys b + 1) + 4 * n) (to_le_bytes 4 e)
    | Some _ => Ret page2
    end;
  _ ← rassert (offset <? data_offset);
  page4 ← splice page3 data_offset key;
  Ret (mk page4 (fixed_key_size b) (num_keys b) (keys_written b + 1)).

(** The check of [drop]; the page is then what was borrowed *)
Definition drop (b : t) : outcome (list Z) :=
  _ ← rassert (keys_written b =? num_keys b); Ret (page b).

End RawBranchBuilder.

(** ** Building *)

Module BranchBuilder.

(** The pages are allocated by the callers of [write] and the functions after it. *)
Record t := mk { children : list child; keys : list (list Z); total_key_bytes : Z; fixed_key_size : option Z }.

Definition new (fixed_key_size : option Z) : t := mk [] [] 0 fixed_key_size.

Definition replace_child (b : t) (index : Z) (c : child) : outcome t :=
  cs ← vset (children b) index c; Ret (mk cs (keys b) (total_key_bytes b) (fixed_key_size b)).
Definition push_child (b : t) (c : child) : t :=
  mk (children b ++ [c]) (keys b) (total_key_bytes b) (fixed_key_size b).
Definition push_key (b : t) (key : list Z) : t :=
  mk (children b) (keys b ++ [key]) (total_key_bytes b + vlen key) (fixed_key_size b).

(** The child at an index of a page *)
Definition read_child (a : BranchAccessor.t) (i : Z) : outcome child :=
  p ← expect (BranchAccessor.child_page a i);
  c ← expect (BranchAccessor.child_checksum a i);
  Ret (p, c).
Definition push_all (b : t) (accessor : BranchAccessor.t) : outcome t :=
  b ← for_each (fun i b => c ← read_child accessor i; Ret (push_child b c))
    (seqZ 0 (BranchAccessor.count_children accessor)) b;
  n ← usub (BranchAccessor.count_children accessor) 1;
  for_each (fun i b => k ← expect (BranchAccessor.key accessor i); Ret (push_key b k)) (seqZ 0 n) b.

Definition to_single_child (b : t) : outcome (option child) :=
  if 1 <? vlen (children b) then Ret None else c ← vget (children b) 0; Ret (Some c).

Definition required_bytes (b : t) : Z :=
  RawBranchBuilder.required_bytes (vlen (keys b)) (total_key_bytes b) (fixed_key_size b).

Definition into_parts (b : t) : list child * list (list Z) := (children b, keys b).

(** Writes [count] keys from [start] on, with the children around them, to an allocated page *)
Definition write_node (b : t) (start count : Z) (page : list Z) : outcome (list Z) :=
  builder ← RawBranchBuilder.new page count (fixed_key_size b);
  c ← vget (children b) start;
  builder ← RawBranchBuilder.write_first_page builder c;
  builder ← for_each (fun i builder =>
      key ← vget (keys b) i;
      c ← vget (children b) (i + 1);
      n ← usub i start;
      RawBranchBuilder.write_nth_key builder key c n) (seqZ start count) builder;
  RawBranchBuilder.drop builder.

(** The check of [build] before it allocates [required_bytes], and what it writes *)
Definition check_build (b : t) : outcome unit := rassert (vlen (children b) =? vlen (keys b) + 1).
Definition write (b : t) (page : list Z) : outcome (list Z) := write_node b 0 (vlen (keys b)) page.

Definition should_split (b : t) (page_size : Z) : bool :=
  let too_many_keys := umax 16 <? vlen (keys b) in
  ((page_size <? required_bytes b) || too_many_keys) && (3 <=? vlen (keys b)).

(** The division of [build_split], its key, and the sizes of the two pages *)
Definition split_plan (b : t) : outcome (Z * (list Z * (Z * Z))) :=
  _ ← rassert (vlen (children b) =? vlen (keys b) + 1);
  _ ← rassert (3 <=? vlen (keys b));
  let division := vlen (keys b) / 2 in
  let first_split_key_len := LeafBuilder.sum_lens (take (Z.to_nat division) (keys b)) in
  division_key ← vget (keys b) division;
  x ← usub (total_key_bytes b) first_split_key_len;
  second_split_key_len ← usub x (vlen division_key);
  let size1 := RawBranchBuilder.required_bytes division first_split_key_len (fixed_key_size b) in
  n ← usub (vlen (keys b)) division;
  n ← usub n 1;
  let size2 := RawBranchBuilder.required_bytes n second_split_key_len (fixed_key_size b) in
  Ret (division, (division_key, (size1, size2))).
Definition write_first (b : t) (division : Z) (page : list Z) : outcome (list Z) := write_node b 0 division page.
Definition write_second (b : t) (division : Z) (page : list Z) : outcome (list Z) :=
  n ← usub (vlen (keys b)) division;
  n ← usub n 1;
  write_node b (division + 1) n page.

End BranchBuilder.

(** ** Changing in place *)

Module BranchMutator.

(** The check of [new]; the mutator borrows the page *)
Definition new (page : list Z) : outcome (list Z) :=
  b ← vget page 0; _ ← rassert (b =? BRANCH); Ret page.
Definition num_keys (page : list Z) : outcome Z := d ← slice page 2 4; Ret (from_le_bytes d).

Definition write_child_page (page : list Z) (i : Z) (c : child) : outcome (list Z) :=
  n ← num_keys page;
  _ ← rassert (i <=? n);
  page1 ← splice page (8 + 16 * i) (to_le_bytes 16 c.2);
  n ← num_keys page1;
  splice page1 (8 + 16 * (n + 1) + 8 * i) (PageNumber.to_bytes c.1).

End BranchMutator.

(** * What a branch page holds *)

Definition sums (cs : list child) : list Z := concat (map (fun c : child => to_le_bytes 16 c.2) cs).
Definition numbers (cs : list child) : list Z := concat (map (fun c : child => PageNumber.to_bytes c.1) cs).
Definition branch_header (pad n : Z) (pad4 : list Z) : list Z := [BRANCH; pad] ++ to_le_bytes 2 n ++ pad4.

(** The children a branch can store *)
Definition child_ok (c : child) : Prop := encodable c.1 /\ in_u 128 c.2.

Lemma slice_nth {A B} (f : A -> list B) (n : nat) h ws s i w page a b :
  (forall w, length (f w) = n) -> ws !! i = Some w -> page = h ++ concat (map f ws) ++ s ->
  a = vlen h + Z.of_nat n * Z.of_nat i -> b = a + Z.of_nat n -> slice page a b = Ret (f w).
Proof. intros Hf Hw -> -> ->. rewrite (Z.mul_comm (Z.of_nat n)). by apply slice_chunk. Qed.
Lemma length_number (c : child) : length (PageNumber.to_bytes c.1) = 8%nat.
Proof. apply length_to_le_bytes. Qed.
Lemma length_sum (c : child) : length (to_le_bytes 16 c.2) = 16%nat.
Proof. apply length_to_le_bytes. Qed.
Lemma vlen_sums cs : vlen (sums cs) = 16 * vlen cs.
Proof. unfold sums. rewrite (vlen_concat_chunks _ 16) by apply length_sum. lia. Qed.
Lemma vlen_numbers cs : vlen (numbers cs) = 8 * vlen cs.
Proof. unfold numbers. rewrite (vlen_concat_chunks _ 8) by apply length_number. lia. Qed.
Lemma sums_app cs ds : sums (cs ++ ds) = sums cs ++ sums ds.
Proof. unfold sums. by rewrite map_app, concat_app. Qed.
Lemma numbers_app cs ds : numbers (cs ++ ds) = numbers cs ++ numbers ds.
Proof. unfold numbers. by rewrite map_app, concat_app. Qed.
Lemma sums_1 c : sums [c] = to_le_bytes 16 c.2.
Proof. unfold sums. cbn [map concat]. by rewrite app_nil_r. Qed.
Lemma numbers_1 c : numbers [c] = PageNumber.to_bytes c.1.
Proof. unfold numbers. cbn [map concat]. by rewrite app_nil_r. Qed.
Lemma vlen_branch_header pad n pad4 : vlen pad4 = 4 -> vlen (branch_header pad n pad4) = 8.
Proof. intros H. unfold branch_header. rewrite !vlen_app, vlen_to_le_bytes, H. done. Qed.

Section branch.
  Context (fk : option Z).
  Notation kp := (LeafMutator.key_ptr_size fk).

(** Where the keys of a branch of [n] keys start *)
Definition base (n : Z) : Z := 8 + 24 * (n + 1) + kp * n.
Definition key_pos (ks : list (list Z)) (i : nat) : Z := base (vlen ks) + size (take i ks).
(** The bytes a branch with these keys takes *)
Definition branch_total (ks : list (list Z)) : Z := base (vlen ks) + size ks.
Definition branch (pad : Z) (pad4 : list Z) (cs : list child) (ks : list (list Z)) (slack : list Z) : list Z :=
  branch_header pad (vlen ks) pad4 ++ sums cs ++ numbers cs ++ tab fk (ends (base (vlen ks)) ks) ++ concat ks ++ slack.

Definition key_widths_ok (ks : list (list Z)) : Prop := forall w, fk = Some w -> Forall (fun k => vlen k = w) ks.
Record branch_ok (cs : list child) (ks : list (list Z)) : Prop := {
  branch_nonempty : 0 < vlen ks;
  branch_count : vlen ks < 2 ^ 16;
  branch_children : vlen cs = vlen ks + 1;
  branch_child_ok : Forall child_ok cs;
  branch_widths : key_widths_ok ks;
  branch_bound : branch_total ks < 2 ^ 32 }.
(** [page] is a branch page with the children [cs], separated by [ks]. *)
Definition is_branch (page : list Z) (cs : list child) (ks : list (list Z)) : Prop :=
  exists pad pad4 slack, vlen pad4 = 4 /\ page = branch pad pad4 cs ks slack /\ branch_ok cs ks.

Lemma kp_size : kp = 0 \/ kp = 4.
Proof. unfold LeafMutator.key_ptr_size. destruct fk; lia. Qed.
Lemma base_pos n : 0 <= n -> 32 <= base n.
Proof. unfold base. pose proof kp_size. nia. Qed.
Lemma required_bytes_branch ks : RawBranchBuilder.required_bytes (vlen ks) (size ks) fk = branch_total ks.
Proof.
  unfold RawBranchBuilder.required_bytes, branch_total, base, LeafMutator.key_ptr_size. destruct fk; lia.
Qed.

Lemma vlen_branch pad pad4 cs ks slack : vlen pad4 = 4 -> vlen cs = vlen ks + 1 -> vlen (branch pad pad4 cs ks slack) = branch_total ks + vlen slack.
Proof.
  intros Hp Hc. unfold branch, branch_total, base. rewrite !vlen_app, vlen_branch_header, vlen_sums, vlen_numbers, vlen_key_tab, vlen_ends by done. unfold size. lia.
Qed.

(** ** Reading *)

Section accessor.
  Context (pad : Z) (pad4 : list Z) (cs : list child) (ks : list (list Z)) (slack : list Z).
  Context (Hok : branch_ok cs ks) (Hpad : vlen pad4 = 4).
  Notation n := (vlen ks).
  Notation HD := (branch_header pad n pad4).

Definition branch_accessor_of : BranchAccessor.t := BranchAccessor.mk (branch pad pad4 cs ks slack) n fk.
Notation a := branch_accessor_of.

Lemma branch_accessor : BranchAccessor.new (branch pad pad4 cs ks slack) fk = Ret a.
Proof using Hok.
  destruct Hok as [H1 H2 _ _ _ _]. unfold BranchAccessor.new, branch, branch_header. cbn [app].
  change (vget (BRANCH :: ?l) 0) with (Ret BRANCH). cbn [mbind outcome_bind rassert]. rewrite Z.eqb_refl. cbn [mbind outcome_bind rassert].
  rewrite <-!app_assoc. change (BRANCH :: pad :: to_le_bytes 2 n ++ ?l) with ([BRANCH; pad] ++ to_le_bytes 2 n ++ l).
  rewrite (slice_middle [BRANCH; pad] (to_le_bytes 2 n)) by done. cbn [mbind outcome_bind].
  rewrite from_to_le_bytes by (cbn; lia). unfold branch_accessor_of, branch, branch_header. by rewrite <-!app_assoc.
Qed.

Lemma child_checksum_ok i c : cs !! i = Some c -> BranchAccessor.child_checksum a (Z.of_nat i) = Ret (Some c.2).
Proof using Hok Hpad.
  intros Hc. pose proof (branch_children _ _ Hok) as Hl. apply lookup_lt_Some in Hc as Hi.
  pose proof (proj1 (Forall_lookup _ _) (branch_child_ok _ _ Hok) i c Hc) as [_ Hb].
  unfold BranchAccessor.child_checksum, BranchAccessor.count_children. cbn [BranchAccessor.num_keys branch_accessor_of BranchAccessor.page].
  rewrite (proj2 (Z.leb_gt _ _)) by (unfold vlen in *; lia).
  rewrite (slice_nth (fun c : child => to_le_bytes 16 c.2) 16 HD cs (numbers cs ++ tab fk (ends (base n) ks) ++ concat ks ++ slack) i c);
    [|apply length_sum|done|done|rewrite vlen_branch_header by done; lia|lia]. cbn [mbind outcome_bind].
  by rewrite from_to_le_bytes.
Qed.
Lemma child_page_ok i c : cs !! i = Some c -> BranchAccessor.child_page a (Z.of_nat i) = Ret (Some c.1).
Proof using Hok Hpad.
  intros Hc. pose proof (branch_children _ _ Hok) as Hl. apply lookup_lt_Some in Hc as Hi.
  pose proof (proj1 (Forall_lookup _ _) (branch_child_ok _ _ Hok) i c Hc) as [Hb _].
  unfold BranchAccessor.child_page, BranchAccessor.count_children. cbn [BranchAccessor.num_keys branch_accessor_of BranchAccessor.page].
  rewrite (proj2 (Z.leb_gt _ _)) by (unfold vlen in *; lia).
  rewrite (slice_nth (fun c : child => PageNumber.to_bytes c.1) 8 (HD ++ sums cs) cs (tab fk (ends (base n) ks) ++ concat ks ++ slack) i c);
    [|apply length_number|done|by rewrite <-app_assoc|rewrite vlen_app, vlen_branch_header, vlen_sums by done; lia|lia].
  cbn [mbind outcome_bind]. by rewrite encodable_roundtrip.
Qed.
Lemma read_child_ok i c : cs !! i = Some c -> BranchBuilder.read_child a (Z.of_nat i) = Ret c.
Proof using Hok Hpad.
  intros Hc. unfold BranchBuilder.read_child. rewrite (child_page_ok i c Hc), (child_checksum_ok i c Hc). by destruct c.
Qed.

Lemma base_section : BranchAccessor.key_section_start a = base n.
Proof.
  unfold BranchAccessor.key_section_start, BranchAccessor.count_children, base, LeafMutator.key_ptr_size. cbn. destruct fk; lia.
Qed.
Lemma key_pos_bound i : 0 <= key_pos ks i < 2 ^ 32.
Proof using Hok.
  destruct Hok as [H1 _ _ _ _ Ht]. unfold branch_total, key_pos in *. pose proof (base_pos n ltac:(lia)). pose proof (size_nonneg (take i ks)).
  pose proof (size_take_le ks i). lia.
Qed.
Lemma branch_key_end i : (i < length ks)%nat -> BranchAccessor.key_end a (Z.of_nat i) = Some (key_pos ks (S i)).
Proof using Hok Hpad.
  intros Hi. unfold BranchAccessor.key_end, BranchAccessor.count_children. rewrite base_section.
  cbn [BranchAccessor.num_keys branch_accessor_of BranchAccessor.page BranchAccessor.fixed_key_size].
  destruct (lookup_lt_is_Some_2 ks i) as [k Hk]; [done|]. pose proof (branch_widths _ _ Hok) as Hw. pose proof (branch_children _ _ Hok) as Hc. destruct fk as [w|] eqn:Ek.
  - unfold key_pos. rewrite (take_fixed w) by (auto with lia). f_equal. lia.
  - pose proof (ends_lookup (base n) _ _ _ Hk) as He. fold (key_pos ks (S i)) in He.
    destruct (get_range_tab (HD ++ sums cs ++ numbers cs) (ends (base n) ks) (concat ks ++ slack) i _ He (key_pos_bound (S i))) as [Hg Hf].
    rewrite !vlen_app, vlen_branch_header, vlen_sums, vlen_numbers, Hc, <-!app_assoc in Hg by done.
    unfold branch. rewrite Ek. cbn [tab]. replace (8 + (8 + 16) * (n + 1) + 4 * Z.of_nat i) with (8 + (16 * (n + 1) + 8 * (n + 1)) + 4 * Z.of_nat i) by lia.
    rewrite Hg. cbn [fmap option_fmap option_map]. by rewrite Hf.
Qed.
Lemma branch_key_offset i : (i <= length ks)%nat -> BranchAccessor.key_offset a (Z.of_nat i) = Ret (key_pos ks i).
Proof using Hok Hpad.
  intros Hi. unfold BranchAccessor.key_offset. destruct i as [|i].
  - cbn [Z.of_nat Z.eqb]. rewrite base_section. unfold key_pos. rewrite take_0. change (size []) with 0. by rewrite Z.add_0_r.
  - rewrite (proj2 (Z.eqb_neq _ _)), usub_ok by lia. cbn [mbind outcome_bind].
    replace (Z.of_nat (S i) - 1) with (Z.of_nat i) by lia. by rewrite branch_key_end by lia.
Qed.
Lemma branch_key_ok i k : ks !! i = Some k -> BranchAccessor.key a (Z.of_nat i) = Ret (Some k).
Proof using Hok Hpad.
  intros Hk. apply lookup_lt_Some in Hk as Hi. unfold BranchAccessor.key. cbn [BranchAccessor.num_keys branch_accessor_of].
  rewrite (proj2 (Z.leb_gt _ _)) by (unfold vlen; lia). fold a. rewrite branch_key_offset, branch_key_end by lia. cbn [mbind outcome_bind try_some BranchAccessor.page branch_accessor_of].
  pose proof (branch_children _ _ Hok) as Hc. unfold branch. rewrite (concat_split ks i k Hk).
  rewrite (slice_at (HD ++ sums cs ++ numbers cs ++ tab fk (ends (base n) ks) ++ concat (take i ks)) k (concat (drop (S i) ks) ++ slack)).
  - done.
  - by rewrite <-!app_assoc.
  - rewrite !vlen_app, vlen_branch_header, vlen_sums, vlen_numbers, vlen_tab, vlen_ends, Hc by done. unfold key_pos, base, size.
    unfold LeafMutator.key_ptr_size. lia.
  - unfold key_pos. rewrite (size_take_S _ _ _ Hk). lia.
Qed.
Lemma branch_key_none i : n <= i -> BranchAccessor.key a i = Ret None.
Proof. intros Hi. unfold BranchAccessor.key. cbn [BranchAccessor.num_keys branch_accessor_of]. by rewrite (proj2 (Z.leb_le _ _)). Qed.
Lemma branch_total_length : BranchAccessor.total_length a = Ret (branch_total ks).
Proof using Hok Hpad.
  pose proof (branch_nonempty _ _ Hok) as Hn. unfold BranchAccessor.total_length. cbn [BranchAccessor.num_keys branch_accessor_of].
  rewrite usub_ok by lia. cbn [mbind outcome_bind]. replace (n - 1) with (Z.of_nat (length ks - 1)) by (unfold vlen in *; lia).
  rewrite branch_key_end by (unfold vlen in *; lia). cbn [unwrap]. unfold key_pos, branch_total. rewrite take_ge by (unfold vlen in *; lia). done.
Qed.
End accessor.
End branch.

(** ** Writing *)

Section write.
  Context (fk : option Z) (n : Z) (Hn : 0 < n < 2 ^ 16).
  Notation kp := (LeafMutator.key_ptr_size fk).
  Notation S0 := (base fk n).

(** The builder after the children [C] and the keys [K]: the rest of each part of the page is anything. *)
Definition bbuilding (pad : Z) (pad4 : list Z) (len : Z) (C : list child) (K : list (list Z)) (b : RawBranchBuilder.t) : Prop :=
  exists X0 X1 X2 J,
    b = RawBranchBuilder.mk (branch_header pad n pad4 ++ sums C ++ X0 ++ numbers C ++ X1 ++ tab fk (ends S0 K) ++ X2 ++ concat K ++ J)
      fk n (vlen K) /\
    vlen C = vlen K + 1 /\ vlen X0 = 16 * (n - vlen K) /\ vlen X1 = 8 * (n - vlen K) /\ vlen X2 = kp * (n - vlen K) /\
    S0 + size K + vlen J = len.

Lemma raw_branch_section page w : RawBranchBuilder.key_section_start (RawBranchBuilder.mk page fk n w) = S0.
Proof. unfold RawBranchBuilder.key_section_start, base, LeafMutator.key_ptr_size. cbn. destruct fk; lia. Qed.

(** Opening a builder and writing the first child *)
Lemma branch_new_ok page c : S0 <= vlen page ->
  exists pad pad4 b0 b, vlen pad4 = 4 /\ RawBranchBuilder.new page n fk = Ret b0 /\ RawBranchBuilder.write_first_page b0 c = Ret b /\
    bbuilding pad pad4 (vlen page) [c] [] b.
Proof using Hn.
  intros Hlen. pose proof (kp_size fk) as Hkp. assert (HS : S0 = 8 + 24 * (n + 1) + kp * n) by done.
  destruct (split_at page 4) as (h & rest & -> & Hh & Hr); [nia|]. rewrite vlen_app in *.
  destruct h as [|h0 [|pad [|h2 [|h3 []]]]]; unfold vlen in Hh; simpl in Hh; try lia. clear Hh. change (vlen [h0; pad; h2; h3]) with 4 in *.
  destruct (split_at rest 4) as (pad4 & rest1 & -> & Hp4 & Hr1); [nia|]. rewrite !vlen_app in *.
  destruct (split_at rest1 16) as (x0 & rest2 & -> & Hx0 & Hr2); [nia|]. rewrite !vlen_app in *.
  destruct (split_at rest2 (16 * n)) as (X0 & rest3 & -> & HX0 & Hr3); [nia|]. rewrite !vlen_app in *.
  destruct (split_at rest3 (S0 - 8 - 16 * (n + 1))) as (T & J & -> & HT & HJ); [nia|]. rewrite !vlen_app in *.
  unfold RawBranchBuilder.new. rewrite (proj2 (Z.ltb_lt 0 n)) by lia. cbn [rassert mbind outcome_bind]. rewrite vset_ok by (rewrite vlen_app; unfold vlen; simpl; lia). cbn [mbind outcome_bind].
  change (Z.to_nat 0) with 0%nat. cbn [app]. cbn [insert list_insert]. rewrite utry_ok by lia. cbn [mbind outcome_bind].
  rewrite (splice_at [BRANCH; pad] [h2; h3] (pad4 ++ x0 ++ X0 ++ T ++ J)) by done. cbn [mbind outcome_bind].
  set (R := replicate (Z.to_nat (S0 - 8 - 16 * (n + 1))) 255).
  assert (HR : vlen R = 8 + (8 * n + kp * n)) by (unfold R, vlen; rewrite length_replicate; lia).
  assert (Hlast : match fk with None => 8 + (8 + 16) * (n + 1) + 4 * n | Some _ => 8 + (8 + 16) * (n + 1) end = S0).
  { rewrite HS. unfold LeafMutator.key_ptr_size. destruct fk; lia. }
  rewrite Hlast. replace (S0 - (8 + 16 * (n + 1))) with (S0 - 8 - 16 * (n + 1)) by lia. fold R.
  rewrite (splice_at (branch_header pad n pad4 ++ x0 ++ X0) T J); cycle 1.
  { unfold branch_header. by rewrite <-!app_assoc. }
  { rewrite !vlen_app, vlen_branch_header by done. lia. }
  { lia. }
  cbn [mbind outcome_bind].
  destruct (split_at R 8) as (r0 & R1 & ER & Hr0 & HR1); [nia|]. destruct (split_at R1 (8 * n)) as (X1 & X2 & -> & HX1 & HX2); [nia|]. rewrite ER.
  exists pad, pad4. eexists _, _. split; [done|]. split; [done|]. unfold RawBranchBuilder.write_first_page. cbn [RawBranchBuilder.page RawBranchBuilder.num_keys].
  rewrite (splice_at (branch_header pad n pad4) x0 (X0 ++ (r0 ++ X1 ++ X2) ++ J)); [|by rewrite <-!app_assoc|by rewrite vlen_branch_header|by rewrite vlen_to_le_bytes].
  cbn [mbind outcome_bind].
  rewrite (splice_at (branch_header pad n pad4 ++ to_le_bytes 16 c.2 ++ X0) r0 (X1 ++ X2 ++ J)); cycle 1.
  { by rewrite <-!app_assoc. }
  { rewrite !vlen_app, vlen_branch_header, vlen_to_le_bytes by done. lia. }
  { unfold PageNumber.to_bytes. rewrite vlen_to_le_bytes. lia. }
  cbn [mbind outcome_bind RawBranchBuilder.fixed_key_size RawBranchBuilder.keys_written]. split; [done|].
  exists X0, X1, X2, J. rewrite sums_1, numbers_1. assert (tab fk (ends S0 []) = []) as -> by (by destruct fk). cbn [app concat].
  rewrite <-!app_assoc. split; [done|]. change (vlen (@nil (list Z))) with 0. change (size []) with 0. rewrite Z.sub_0_r. split; [done|]. lia.
Qed.

(** Where the next key goes *)
Lemma branch_data_offset pad pad4 len C K b page1 : vlen pad4 = 4 -> bbuilding pad pad4 len C K b -> S0 + size K < 2 ^ 32 -> key_widths_ok fk K ->
  (exists Y, vlen Y = 8 + 24 * (n + 1) /\ exists Z, page1 = Y ++ tab fk (ends S0 K) ++ Z) ->
  (if 0 <? vlen K then m ← usub (vlen K) 1; RawBranchBuilder.key_end (RawBranchBuilder.mk page1 fk n (vlen K + 1)) m else Ret S0) = Ret (S0 + size K).
Proof using Hn.
  intros Hp4 HB Hb Hw (Y & HY & Z & ->). pose proof (size_nonneg K). pose proof (base_pos fk n ltac:(lia)). destruct K as [|k K] using rev_ind.
  { cbn. change (size []) with 0. by rewrite Z.add_0_r. }
  clear IHK. rewrite vlen_app. change (vlen [k]) with 1. pose proof (vlen_nonneg K). rewrite (proj2 (Z.ltb_lt _ _)) by lia. rewrite usub_ok by lia.
  cbn [mbind outcome_bind]. unfold RawBranchBuilder.key_end. rewrite raw_branch_section. cbn [RawBranchBuilder.fixed_key_size RawBranchBuilder.num_keys RawBranchBuilder.page].
  set (s0 := S0) in *. clearbody s0. rewrite ends_snoc. destruct fk as [w|] eqn:Ek.
  - rewrite (size_fixed w (K ++ [k])) by (by apply Hw). rewrite vlen_app. change (vlen [k]) with 1. f_equal. lia.
  - cbn [tab]. pose proof (slice_last Y (ends s0 K) (s0 + size K + vlen k) Z) as Hs. rewrite vlen_ends, HY in Hs.
    replace (8 + (8 + 16) * (n + 1) + 4 * (vlen K + 1 - 1)) with (8 + 24 * (n + 1) + 4 * vlen K) by lia. rewrite Hs. cbn [mbind outcome_bind].
    rewrite size_app, size_cons in *. change (size []) with 0 in *. pose proof (vlen_nonneg k). pose proof (size_nonneg K).
    rewrite from_to_le_bytes by (cbn; lia). f_equal. lia.
Qed.

Lemma write_nth_key_ok pad pad4 len C K b k c : vlen pad4 = 4 -> bbuilding pad pad4 len C K b -> vlen K < n -> key_widths_ok fk (K ++ [k]) ->
  S0 + size K + vlen k < 2 ^ 32 -> S0 + size K + vlen k <= len ->
  exists b', RawBranchBuilder.write_nth_key b k c (vlen K) = Ret b' /\ bbuilding pad pad4 len (C ++ [c]) (K ++ [k]) b'.
Proof using Hn.
  intros Hp4 HB HKn Hw H32 Hlen. pose proof (size_nonneg K). pose proof (vlen_nonneg k). pose proof (vlen_nonneg K). pose proof (kp_size fk) as Hkp.
  assert (HwK : key_widths_ok fk K) by (intros w E; specialize (Hw w E); by apply Forall_app in Hw as [? _]).
  pose proof (fun page1 => branch_data_offset pad pad4 len C K b page1 Hp4 HB ltac:(lia) HwK) as OFF.
  destruct HB as (X0 & X1 & X2 & J & -> & HC & HX0 & HX1 & HX2 & HJ). unfold RawBranchBuilder.write_nth_key.
  cbn [RawBranchBuilder.num_keys RawBranchBuilder.keys_written RawBranchBuilder.page RawBranchBuilder.fixed_key_size].
  rewrite (proj2 (Z.ltb_lt (vlen K) n)), Z.eqb_refl by lia. cbn [rassert mbind outcome_bind].
  destruct (split_at X0 16) as (x0 & X0' & -> & Hx0 & HX0'); [lia|]. destruct (split_at X1 8) as (x1 & X1' & -> & Hx1 & HX1'); [lia|].
  destruct (split_at X2 kp) as (x2 & X2' & -> & Hx2 & HX2'); [nia|]. destruct (split_at J (vlen k)) as (j & J' & -> & Hj & HJ'); [lia|].
  set (HD := branch_header pad n pad4). assert (LH : vlen HD = 8) by (by apply vlen_branch_header).
  pose proof (vlen_sums C) as LS. pose proof (vlen_numbers C) as LN.
  set (TK := tab fk (ends S0 K)) in *. assert (LT : vlen TK = kp * vlen K) by (unfold TK; rewrite vlen_tab, vlen_ends; done).
  set (sc := to_le_bytes 16 c.2). assert (Lsc : vlen sc = 16) by apply vlen_to_le_bytes.
  set (pc := PageNumber.to_bytes c.1). assert (Lpc : vlen pc = 8) by apply vlen_to_le_bytes.
  rewrite (splice_at (HD ++ sums C) x0 (X0' ++ numbers C ++ (x1 ++ X1') ++ TK ++ (x2 ++ X2') ++ concat K ++ (j ++ J'))); [|by rewrite <-!app_assoc|rewrite vlen_app; lia|lia].
  cbn [mbind outcome_bind].
  rewrite (splice_at (HD ++ sums C ++ sc ++ X0' ++ numbers C) x1 (X1' ++ TK ++ (x2 ++ X2') ++ concat K ++ (j ++ J'))); [|by rewrite <-!app_assoc|rewrite !vlen_app; lia|lia].
  cbn [mbind outcome_bind]. rewrite raw_branch_section, OFF; cycle 1.
  { exists (HD ++ sums C ++ sc ++ X0' ++ numbers C ++ pc ++ X1'). split; [rewrite !vlen_app; lia|]. exists ((x2 ++ X2') ++ concat K ++ (j ++ J')). by rewrite <-!app_assoc. }
  cbn [mbind outcome_bind]. set (ke := S0 + size K + vlen k).
  assert (LK : vlen (tab fk [ke]) = kp) by (rewrite vlen_tab; unfold LeafMutator.key_ptr_size; destruct fk; done).
  assert (HS : S0 = 8 + 24 * (n + 1) + kp * n) by done. pose proof (base_pos fk n ltac:(lia)).
  rewrite (write_entry fk (HD ++ sums C ++ sc ++ X0' ++ numbers C ++ pc ++ X1' ++ TK) x2 (X2' ++ concat K ++ (j ++ J'))); cycle 1.
  { by rewrite <-!app_assoc. }
  { intros E. rewrite !vlen_app. unfold LeafMutator.key_ptr_size in *. rewrite E in *. lia. }
  { lia. }
  { lia. }
  cbn [mbind outcome_bind]. rewrite (proj2 (Z.ltb_lt _ (S0 + size K))) by nia. cbn [rassert mbind outcome_bind].
  rewrite (splice_at (HD ++ sums C ++ sc ++ X0' ++ numbers C ++ pc ++ X1' ++ TK ++ tab fk [ke] ++ X2' ++ concat K) j J'); cycle 1.
  { by rewrite <-!app_assoc. }
  { rewrite !vlen_app, LK, LT. change (vlen (concat K)) with (size K). lia. }
  { lia. }
  cbn [mbind outcome_bind]. eexists. split; [done|]. exists X0', X1', X2', J'.
  rewrite sums_app, numbers_app, sums_1, numbers_1, ends_snoc, tab_app, concat_app. cbn [concat]. rewrite app_nil_r. fold TK HD sc pc ke. rewrite <-!app_assoc.
  rewrite !vlen_app, size_app, size_cons in *. change (size []) with 0. change (vlen [k]) with 1. change (vlen [c]) with 1.
  split; [done|]. lia.
Qed.
End write.

Lemma seqZ_succ start m : 0 <= m -> seqZ start (1 + m) = start :: seqZ (start + 1) m.
Proof. intros. rewrite seqZ_cons by lia. f_equal. f_equal; lia. Qed.

Lemma lookup_inner {A} (X Y Z W : list A) x i : i = (length X + length Y)%nat -> (X ++ (Y ++ x :: Z) ++ W) !! i = Some x.
Proof. intros ->. rewrite <-(app_assoc Y), (app_assoc X). cbn [app]. apply list_lookup_middle. by rewrite length_app. Qed.

(** The loop over the keys; [C1] and [K1] are what is before the part that is written. *)
Lemma write_keys_ok fk n pad pad4 len start (Hn : 0 < n < 2 ^ 16) rest : forall C K b C1 K1 cs ks C2 K2,
  vlen pad4 = 4 -> bbuilding fk n pad pad4 len C K b -> vlen rest = vlen cs -> rest = ks -> vlen (K ++ ks) <= n ->
  key_widths_ok fk (K ++ ks) -> base fk n + size (K ++ ks) < 2 ^ 32 -> base fk n + size (K ++ ks) <= len ->
  vlen K1 = start -> vlen C1 = start ->
  exists b', for_each (fun i builder =>
      key ← vget (K1 ++ (K ++ ks) ++ K2) i;
      c ← vget (C1 ++ (C ++ cs) ++ C2) (i + 1);
      m ← usub i start;
      RawBranchBuilder.write_nth_key builder key c m) (seqZ (start + vlen K) (vlen ks)) b = Ret b' /\
    bbuilding fk n pad pad4 len (C ++ cs) (K ++ ks) b'.
Proof.
  induction rest as [|k rest IH]; intros C K b C1 K1 cs ks C2 K2 Hp4 HB Hl <- Hln Hw H32 Hlen HK1 HC1.
  { destruct cs as [|c cs]; [|unfold vlen in Hl; simpl in Hl; lia]. exists b. rewrite !app_nil_r. split; [|done].
    change (vlen []) with 0. by rewrite (seqZ_nil _ 0) by lia. }
  destruct cs as [|c cs]; [unfold vlen in Hl; simpl in Hl; lia|]. rewrite !vlen_cons in *.
  assert (HC : vlen C = vlen K + 1) by (by destruct HB as (?&?&?&?&_&?&_)).
  rewrite seqZ_succ by apply vlen_nonneg. cbn [for_each].
  rewrite !vlen_app, !size_app, !vlen_cons, !size_cons in *. pose proof (vlen_nonneg rest). pose proof (size_nonneg rest). pose proof (vlen_nonneg K). pose proof (vlen_nonneg K1).
  rewrite (vget_ok _ _ k), (vget_ok _ _ c) by (lia || apply lookup_inner; unfold vlen in *; lia).
  cbn [mbind outcome_bind]. rewrite usub_ok by lia. cbn [mbind outcome_bind]. replace (start + vlen K - start) with (vlen K) by lia.
  replace (K ++ k :: rest) with ((K ++ [k]) ++ rest) in * by (by rewrite <-app_assoc). replace (C ++ c :: cs) with ((C ++ [c]) ++ cs) in * by (by rewrite <-app_assoc).
  destruct (write_nth_key_ok fk n Hn pad pad4 len C K b k c Hp4 HB) as (b1 & E1 & HB1); [lia| |lia|lia|].
  { intros w E. specialize (Hw w E). by apply Forall_app in Hw as [? _]. }
  rewrite E1. cbn [mbind outcome_bind].
  destruct (IH (C ++ [c]) (K ++ [k]) b1 C1 K1 cs rest C2 K2) as (b' & E & HB'); try done.
  - lia.
  - rewrite !vlen_app. change (vlen [k]) with 1. lia.
  - rewrite !size_app, !size_cons. change (size []) with 0. lia.
  - rewrite !size_app, !size_cons. change (size []) with 0. lia.
  - exists b'. split; [|done]. rewrite vlen_app in E. change (vlen [k]) with 1 in E. rewrite Z.add_assoc in E. exact E.
Qed.

(** A part of the keys of a builder, with the children around them, is written as a branch page. *)
Lemma write_node_ok b page C1 cs C2 K1 ks K2 (fk := BranchBuilder.fixed_key_size b) :
  BranchBuilder.children b = C1 ++ cs ++ C2 -> BranchBuilder.keys b = K1 ++ ks ++ K2 -> vlen C1 = vlen K1 ->
  branch_ok fk cs ks -> branch_total fk ks <= vlen page ->
  exists page', BranchBuilder.write_node b (vlen K1) (vlen ks) page = Ret page' /\ vlen page' = vlen page /\ is_branch fk page' cs ks.
Proof.
  intros HC HK H1 Hok Hlen. destruct Hok as [O1 O2 O3 O4 O5 O6]. assert (Hok : branch_ok fk cs ks) by done. unfold branch_total in *.
  destruct cs as [|c cs]; [unfold vlen in O3; simpl in O3; pose proof (vlen_nonneg ks); unfold vlen in *; lia|]. rewrite vlen_cons in O3.
  unfold BranchBuilder.write_node. fold fk. rewrite HC, HK. pose proof (size_nonneg ks). pose proof (vlen_nonneg C1).
  destruct (branch_new_ok fk (vlen ks) (conj O1 O2) page c) as (pad & pad4 & b0 & b1 & Hp4 & -> & HW & HB); [lia|]. cbn [mbind outcome_bind].
  rewrite (vget_ok _ _ c); [|lia|].
  2:{ apply (lookup_inner C1 [] cs C2). unfold vlen in *. simpl. lia. }
  cbn [mbind outcome_bind]. rewrite HW. cbn [mbind outcome_bind].
  destruct (write_keys_ok fk (vlen ks) pad pad4 (vlen page) (vlen K1) (conj O1 O2) ks [c] [] b1 C1 K1 cs ks C2 K2 Hp4 HB) as (b2 & E2 & HB2); try done; try lia.
  change (vlen []) with 0 in E2. rewrite Z.add_0_r in E2. cbn [app] in E2. cbn [app]. rewrite E2. cbn [mbind outcome_bind app] in *.
  destruct HB2 as (X0 & X1 & X2 & J & -> & L & HX0 & HX1 & HX2 & HJ). rewrite Z.sub_diag, Z.mul_0_r in *.
  assert (X0 = [] /\ X1 = [] /\ X2 = []) as (-> & -> & ->) by (repeat split; apply length_zero_iff_nil; unfold vlen in *; lia).
  unfold RawBranchBuilder.drop. cbn [RawBranchBuilder.keys_written RawBranchBuilder.num_keys RawBranchBuilder.page]. rewrite Z.eqb_refl. cbn [rassert mbind outcome_bind app].
  eexists. split; [done|]. split.
  - rewrite !vlen_app, vlen_branch_header, vlen_sums, vlen_numbers, vlen_tab, vlen_ends, vlen_cons by done. change (vlen (concat ks)) with (size ks).
    unfold base, LeafMutator.key_ptr_size in *. lia.
  - exists pad, pad4, J. split; [done|]. split; [|done]. done.
Qed.

(** ** The builder *)

Definition branch_builder_ok (b : BranchBuilder.t) : Prop := BranchBuilder.total_key_bytes b = size (BranchBuilder.keys b).

Lemma push_key_ok b k : branch_builder_ok b -> branch_builder_ok (BranchBuilder.push_key b k).
Proof. unfold branch_builder_ok. cbn. intros ->. rewrite size_app, size_cons. change (size []) with 0. lia. Qed.
Lemma builder_required b : branch_builder_ok b ->
  BranchBuilder.required_bytes b = branch_total (BranchBuilder.fixed_key_size b) (BranchBuilder.keys b).
Proof. intros H. unfold BranchBuilder.required_bytes. by rewrite H, required_bytes_branch. Qed.

Lemma branch_write_ok b page (fk := BranchBuilder.fixed_key_size b) : branch_builder_ok b ->
  branch_ok fk (BranchBuilder.children b) (BranchBuilder.keys b) -> BranchBuilder.required_bytes b <= vlen page ->
  BranchBuilder.check_build b = Ret tt /\
  exists page', BranchBuilder.write b page = Ret page' /\ vlen page' = vlen page /\ is_branch fk page' (BranchBuilder.children b) (BranchBuilder.keys b).
Proof.
  intros Hb Hok Hlen. rewrite builder_required in Hlen by done. split.
  { unfold BranchBuilder.check_build. rewrite (branch_children _ _ _ Hok), Z.eqb_refl. done. }
  apply (write_node_ok b page [] (BranchBuilder.children b) [] [] (BranchBuilder.keys b) []); try done; by rewrite app_nil_r.
Qed.

(** What [build_split] makes of a builder *)
Lemma branch_split_ok b (fk := BranchBuilder.fixed_key_size b) (ks := BranchBuilder.keys b) (cs := BranchBuilder.children b) :
  branch_builder_ok b -> vlen cs = vlen ks + 1 -> 3 <= vlen ks < 2 ^ 17 -> Forall child_ok cs -> key_widths_ok fk ks ->
  (forall ks', ks' `sublist_of` ks -> vlen ks' < 2 ^ 16 -> branch_total fk ks' < 2 ^ 32) ->
  exists C1 C2 K1 k K2, cs = C1 ++ C2 /\ ks = K1 ++ k :: K2 /\ branch_ok fk C1 K1 /\ branch_ok fk C2 K2 /\
    BranchBuilder.split_plan b = Ret (vlen K1, (k, (branch_total fk K1, branch_total fk K2))) /\
    (forall page1, branch_total fk K1 <= vlen page1 -> exists p1, BranchBuilder.write_first b (vlen K1) page1 = Ret p1 /\ vlen p1 = vlen page1 /\ is_branch fk p1 C1 K1) /\
    (forall page2, branch_total fk K2 <= vlen page2 -> exists p2, BranchBuilder.write_second b (vlen K1) page2 = Ret p2 /\ vlen p2 = vlen page2 /\ is_branch fk p2 C2 K2).
Proof.
  intros Hb Hc Hk Hco Hw Hfit. set (d := vlen ks / 2). assert (Hd : 1 <= d /\ 2 * d <= vlen ks < 2 * d + 2).
  { unfold d. pose proof (Z.div_mod (vlen ks) 2 ltac:(lia)). pose proof (Z.mod_pos_bound (vlen ks) 2 ltac:(lia)). lia. }
  destruct (split_at ks d) as (K1 & KR & EK & HK1 & HKR); [lia|]. destruct KR as [|k K2]; [unfold vlen in HKR at 1; simpl in HKR; lia|]. rewrite vlen_cons in HKR.
  destruct (split_at cs (d + 1)) as (C1 & C2 & EC & HC1 & HC2); [lia|]. exists C1, C2, K1, k, K2. split; [done|]. split; [done|].
  rewrite EC, Forall_app in Hco. destruct Hco as [HcA HcB].
  assert (W : key_widths_ok fk K1 /\ key_widths_ok fk K2).
  { split; intros w E; specialize (Hw w E); rewrite EK, Forall_app, Forall_cons in Hw; tauto. } destruct W as [W1 W2].
  assert (O1 : branch_ok fk C1 K1). { split; [lia|lia|lia|done|done|]. apply Hfit; [|lia]. rewrite EK. by apply sublist_inserts_r. }
  assert (O2 : branch_ok fk C2 K2). { split; [lia|lia|lia|done|done|]. apply Hfit; [|lia]. rewrite EK. apply sublist_inserts_l. by apply sublist_cons. }
  split; [done|]. split; [done|]. split.
  - unfold BranchBuilder.split_plan. fold cs ks. rewrite Hc, Z.eqb_refl, (proj2 (Z.leb_le 3 _)) by lia. cbn [rassert mbind outcome_bind]. fold d.
    rewrite EK. rewrite (vget_ok _ _ k); [|lia|]. 2:{ replace (Z.to_nat d) with (length K1) by (unfold vlen in *; lia). by apply list_lookup_middle. }
    cbn [mbind outcome_bind]. unfold branch_builder_ok in Hb. fold ks in Hb. rewrite Hb, EK, sum_lens_size.
    replace (Z.to_nat d) with (length K1) by (unfold vlen in *; lia). rewrite take_app_length, size_app, size_cons.
    pose proof (size_nonneg K2). pose proof (vlen_nonneg k). pose proof (vlen_nonneg K2). rewrite vlen_app, vlen_cons.
    repeat (rewrite usub_ok by lia; cbn [mbind outcome_bind]).
    rewrite <-HK1, required_bytes_branch. replace (vlen K1 + (1 + vlen K2) - vlen K1 - 1) with (vlen K2) by lia.
    replace (size K1 + (vlen k + size K2) - size K1 - vlen k) with (size K2) by lia. by rewrite required_bytes_branch.
  - split; intros page1 Hl.
    + apply (write_node_ok b page1 [] C1 C2 [] K1 (k :: K2)); done.
    + unfold BranchBuilder.write_second. fold ks. rewrite EK, vlen_app, vlen_cons, usub_ok by (pose proof (vlen_nonneg K2); lia). cbn [mbind outcome_bind].
      rewrite usub_ok by (pose proof (vlen_nonneg K2); lia). cbn [mbind outcome_bind].
      replace (vlen K1 + (1 + vlen K2) - vlen K1 - 1) with (vlen K2) by lia.
      destruct (write_node_ok b page1 C1 C2 [] (K1 ++ [k]) K2 []) as (p & Hp & Hrest); try done.
      * fold cs. by rewrite app_nil_r.
      * fold ks. by rewrite app_nil_r, <-app_assoc.
      * rewrite vlen_app. change (vlen [k]) with 1. lia.
      * rewrite vlen_app in Hp. change (vlen [k]) with 1 in Hp. by exists p.
Qed.

(** The children and the keys of a page, pushed to a builder *)
Lemma push_children_ok fk pad pad4 cs ks slack (Hok : branch_ok fk cs ks) (Hp4 : vlen pad4 = 4) rest : forall i b, drop i cs = rest ->
  for_each (fun i b => c ← BranchBuilder.read_child (branch_accessor_of fk pad pad4 cs ks slack) i; Ret (BranchBuilder.push_child b c))
    (seqZ (Z.of_nat i) (vlen rest)) b =
  Ret (BranchBuilder.mk (BranchBuilder.children b ++ rest) (BranchBuilder.keys b) (BranchBuilder.total_key_bytes b) (BranchBuilder.fixed_key_size b)).
Proof.
  induction rest as [|c rest IH]; intros i b Hd.
  { change (vlen []) with 0. rewrite seqZ_nil, app_nil_r by lia. by destruct b. }
  rewrite vlen_cons, seqZ_succ by apply vlen_nonneg. cbn [for_each].
  assert (Hc : cs !! i = Some c) by (rewrite <-(Nat.add_0_r i), <-lookup_drop, Hd; done).
  rewrite (read_child_ok fk pad pad4 cs ks slack Hok Hp4 i c Hc). cbn [mbind outcome_bind].
  replace (Z.of_nat i + 1) with (Z.of_nat (S i)) by lia. rewrite IH; [by cbn; rewrite <-app_assoc|].
  rewrite (drop_S _ _ _ Hc) in Hd. by injection Hd.
Qed.
Lemma push_keys_ok fk pad pad4 cs ks slack (Hok : branch_ok fk cs ks) (Hp4 : vlen pad4 = 4) rest : forall i b, drop i ks = rest ->
  for_each (fun i b => k ← expect (BranchAccessor.key (branch_accessor_of fk pad pad4 cs ks slack) i); Ret (BranchBuilder.push_key b k))
    (seqZ (Z.of_nat i) (vlen rest)) b =
  Ret (BranchBuilder.mk (BranchBuilder.children b) (BranchBuilder.keys b ++ rest) (BranchBuilder.total_key_bytes b + size rest) (BranchBuilder.fixed_key_size b)).
Proof.
  induction rest as [|k rest IH]; intros i b Hd.
  { change (vlen []) with 0. change (size []) with 0. rewrite seqZ_nil, app_nil_r, Z.add_0_r by lia. by destruct b. }
  rewrite vlen_cons, seqZ_succ by apply vlen_nonneg. cbn [for_each].
  assert (Hk : ks !! i = Some k) by (rewrite <-(Nat.add_0_r i), <-lookup_drop, Hd; done).
  rewrite (branch_key_ok fk pad pad4 cs ks slack Hok Hp4 i k Hk). cbn [expect mbind outcome_bind unwrap].
  replace (Z.of_nat i + 1) with (Z.of_nat (S i)) by lia. rewrite IH; [cbn; rewrite <-app_assoc, size_cons, Z.add_assoc; done|].
  rewrite (drop_S _ _ _ Hk) in Hd. by injection Hd.
Qed.
Lemma push_all_ok fk pad pad4 cs ks slack b : branch_ok fk cs ks -> vlen pad4 = 4 ->
  BranchBuilder.push_all b (branch_accessor_of fk pad pad4 cs ks slack) =
  Ret (BranchBuilder.mk (BranchBuilder.children b ++ cs) (BranchBuilder.keys b ++ ks) (BranchBuilder.total_key_bytes b + size ks) (BranchBuilder.fixed_key_size b)).
Proof.
  intros Hok Hp4. unfold BranchBuilder.push_all.
  change (BranchAccessor.count_children (branch_accessor_of fk pad pad4 cs ks slack)) with (vlen ks + 1). rewrite <-(branch_children _ _ _ Hok). pose proof (push_children_ok fk pad pad4 cs ks slack Hok Hp4 cs 0 b eq_refl) as H1.
  change (Z.of_nat 0) with 0 in H1. rewrite H1.
  cbn [mbind outcome_bind]. rewrite usub_ok by (rewrite (branch_children _ _ _ Hok); pose proof (vlen_nonneg ks); lia). cbn [mbind outcome_bind].
  rewrite (branch_children _ _ _ Hok). replace (vlen ks + 1 - 1) with (vlen ks) by lia.
  pose proof (fun b => push_keys_ok fk pad pad4 cs ks slack Hok Hp4 ks 0 b eq_refl) as H2. change (Z.of_nat 0) with 0 in H2. by rewrite H2.
Qed.

(** ** Changing a child in place *)

Lemma write_child_page_ok fk page C1 c C2 ks c' : is_branch fk page (C1 ++ c :: C2) ks -> child_ok c' ->
  exists page', BranchMutator.write_child_page page (vlen C1) c' = Ret page' /\ vlen page' = vlen page /\ is_branch fk page' (C1 ++ c' :: C2) ks.
Proof.
  intros (pad & pad4 & slack & Hp4 & -> & Hok) Hc'. destruct Hok as [O1 O2 O3 O4 O5 O6]. rewrite vlen_middle, vlen_app in O3.
  pose proof (vlen_nonneg C1). pose proof (vlen_nonneg C2).
  assert (Hnum : forall rest, BranchMutator.num_keys (branch_header pad (vlen ks) pad4 ++ rest) = Ret (vlen ks)).
  { intros rest. unfold BranchMutator.num_keys, branch_header. rewrite <-!app_assoc.
    rewrite (slice_middle [BRANCH; pad] (to_le_bytes 2 (vlen ks))) by done. cbn [mbind outcome_bind]. by rewrite from_to_le_bytes by (cbn; lia). }
  unfold BranchMutator.write_child_page, branch. rewrite Hnum. cbn [mbind outcome_bind]. rewrite (proj2 (Z.leb_le _ _)) by lia. cbn [rassert mbind outcome_bind].
  assert (HS : forall x, sums (C1 ++ x :: C2) = sums C1 ++ to_le_bytes 16 x.2 ++ sums C2) by (intros x; rewrite sums_app; done).
  assert (HN : forall x, numbers (C1 ++ x :: C2) = numbers C1 ++ PageNumber.to_bytes x.1 ++ numbers C2) by (intros x; rewrite numbers_app; done).
  set (T := tab fk (ends (base fk (vlen ks)) ks)). rewrite (HS c), (HN c).
  rewrite (splice_at (branch_header pad (vlen ks) pad4 ++ sums C1) (to_le_bytes 16 c.2) (sums C2 ++ (numbers C1 ++ PageNumber.to_bytes c.1 ++ numbers C2) ++ T ++ concat ks ++ slack));
    [|by rewrite <-!app_assoc|rewrite vlen_app, vlen_branch_header, vlen_sums by done; lia|by rewrite !vlen_to_le_bytes].
  cbn [mbind outcome_bind]. rewrite <-(app_assoc (branch_header _ _ _)), Hnum. cbn [mbind outcome_bind].
  rewrite (splice_at (branch_header pad (vlen ks) pad4 ++ sums C1 ++ to_le_bytes 16 c'.2 ++ sums C2 ++ numbers C1) (PageNumber.to_bytes c.1) (numbers C2 ++ T ++ concat ks ++ slack)).
  2:{ by rewrite <-!app_assoc. }
  2:{ rewrite !vlen_app, vlen_branch_header, !vlen_sums, vlen_to_le_bytes, vlen_numbers by done. lia. }
  2:{ unfold PageNumber.to_bytes. by rewrite !vlen_to_le_bytes. }
  eexists. split; [done|]. split.
  - unfold PageNumber.to_bytes. rewrite !vlen_app, !vlen_to_le_bytes. lia.
  - exists pad, pad4, slack. split; [done|]. split; [unfold branch; rewrite HS, HN, <-!app_assoc; done|].
    split; [done|done|rewrite vlen_middle, vlen_app; lia| |done|done]. rewrite Forall_app, Forall_cons in *. tauto.
Qed.

(** ** The search for a child *)

Section child_search.
  Context {compare valid cmp} `{BO : ByteOrder compare valid cmp}.

(** No key of the list is less than [q]. *)
Definition not_below (q : list Z) (l : list (list Z)) : Prop := Forall (fun k => cmp q k <> Gt) l.

Lemma not_below_from q k l : valid q -> valid k -> Forall valid l -> cmp q k <> Gt -> above cmp k l -> not_below q (k :: l).
Proof using BO.
  intros Hq Hk Hl Hqk Ha. constructor; [done|]. unfold above in Ha. rewrite Forall_forall in *. intros x Hx. specialize (Ha x Hx).
  destruct (cmp q k) eqn:E; [|by rewrite (@bo_trans _ _ _ BO q k x); auto|done].
  apply (@bo_eq _ _ _ BO) in E as ->; [|done..]. by rewrite Ha.
Qed.

Context (fk : option Z) (pad : Z) (pad4 : list Z) (cs : list child) (ks : list (list Z)) (slack : list Z).
Context (Hok : branch_ok fk cs ks) (Hpad : vlen pad4 = 4) (Hv : Forall valid ks) (Hs : sorted cmp ks).

Lemma drop_not_below q m k : valid q -> ks !! m = Some k -> cmp q k <> Gt -> not_below q (drop m ks).
Proof using BO Hs Hv.
  intros Hq Hk Hc. rewrite (drop_S _ _ _ Hk). rewrite <-(take_drop_middle _ _ _ Hk), Forall_app, Forall_cons in Hv. rewrite <-(take_drop_middle _ _ _ Hk) in Hs.
  apply sorted_middle in Hs as (_ & _ & _ & Ha & _). destruct Hv as (_ & Hvk & Hvd). by apply not_below_from.
Qed.

Lemma branch_search_ok q fuel : forall lo hi, valid q -> (lo <= hi <= length ks)%nat -> (hi - lo < fuel)%nat ->
  below cmp q (take lo ks) -> not_below q (drop hi ks) ->
  exists i, BranchAccessor.search compare (branch_accessor_of fk pad pad4 cs ks slack) q fuel (Z.of_nat lo) (Z.of_nat hi) = Ret (Z.of_nat i) /\
    (i <= length ks)%nat /\ below cmp q (take i ks) /\ not_below q (drop i ks).
Proof using BO Hok Hpad Hs Hv.
  induction fuel as [|fuel IH]; intros lo hi Hq Hlh Hf H1 H2; [lia|]. cbn [BranchAccessor.search].
  destruct (Z.ltb_spec (Z.of_nat lo) (Z.of_nat hi)) as [Hlt|Hge].
  - pose proof (midpoint_between _ _ Hlt) as Hm. set (m := Z.to_nat (midpoint (Z.of_nat lo) (Z.of_nat hi))).
    replace (midpoint (Z.of_nat lo) (Z.of_nat hi)) with (Z.of_nat m) in * by (unfold m; lia).
    destruct (lookup_lt_is_Some_2 ks m) as [k Hk]; [lia|].
    assert (Hvk : valid k) by (rewrite Forall_lookup in Hv; by eapply Hv).
    rewrite (branch_key_ok fk pad pad4 cs ks slack Hok Hpad m k Hk). cbn [expect mbind outcome_bind unwrap].
    rewrite (@bo_compare _ _ _ BO q k) by done. cbn [mbind outcome_bind]. destruct (cmp q k) eqn:E.
    + apply (@bo_eq _ _ _ BO) in E as ->; [|done..]. exists m. split; [done|]. split; [lia|].
      split; [|apply (drop_not_below k m k); [done|done|by rewrite (cmp_refl (cmp := cmp))]].
      rewrite <-(take_drop_middle _ _ _ Hk) in Hs. by apply sorted_middle in Hs as (_ & _ & ? & _).
    + apply IH; [done|lia|lia|done|]. eapply drop_not_below; [done|done|by rewrite E].
    + replace (Z.of_nat m + 1) with (Z.of_nat (S m)) by lia. apply IH; [done|lia|lia| |done].
      destruct (split_greater ks q 0 (length ks) m k Hv Hs Hq Hk E) as [? _]; [|done].
      split; [rewrite take_0; constructor|]. rewrite drop_ge by lia. constructor.
  - assert (lo = hi) as -> by lia. rewrite Z.eqb_refl. cbn [rassert mbind outcome_bind]. exists hi. split; [done|]. split; [lia|done].
Qed.

Lemma child_for_key_ok q : valid q ->
  exists C1 c C2 K1 K2, cs = C1 ++ c :: C2 /\ ks = K1 ++ K2 /\ vlen C1 = vlen K1 /\
    BranchAccessor.child_for_key compare (branch_accessor_of fk pad pad4 cs ks slack) q = Ret (vlen C1, c.1) /\
    below cmp q K1 /\ not_below q K2.
Proof using BO Hok Hpad Hs Hv.
  intros Hq. pose proof (branch_children _ _ _ Hok) as Hc.
  destruct (branch_search_ok q (S (length ks)) 0 (length ks) Hq) as (i & Hr & Hi & H1 & H2); [lia|lia|rewrite take_0; constructor|rewrite drop_ge by lia; constructor|].
  destruct (lookup_lt_is_Some_2 cs i) as [c Hci]; [unfold vlen in *; lia|].
  exists (take i cs), c, (drop (S i) cs), (take i ks), (drop i ks). split; [by rewrite take_drop_middle|]. split; [by rewrite take_drop|].
  apply lookup_lt_Some in Hci as Hil. assert (L : vlen (take i cs) = Z.of_nat i) by (unfold vlen; rewrite length_take; lia).
  split; [rewrite L; unfold vlen; rewrite length_take; lia|]. split; [|done]. rewrite L.
  unfold BranchAccessor.child_for_key. change (BranchAccessor.num_keys (branch_accessor_of fk pad pad4 cs ks slack)) with (vlen ks).
  replace (Z.to_nat (vlen ks)) with (length ks) by (unfold vlen; lia). change (Z.of_nat 0) with 0 in Hr. unfold vlen. rewrite Hr. cbn [mbind outcome_bind].
  by rewrite (child_page_ok fk pad pad4 cs ks slack Hok Hpad i c Hci).
Qed.
End child_search.
