(* ===== verification/PageStore.v ===== *)
(** The pages a write transaction works on, as the B-trees see them: the
    operations of [PageAllocator] (src/src/tree_store/page_store/page_manager.rs)
    as a class, what they promise as the class of their laws, and a program
    logic for computations over them.

    A page that is read is a copy of its bytes; the counters of borrowed pages
    that debug builds keep are not part of the interface. *)
From S2P Require Import Prelude Buddy Pages.

(** * Computations *)

(** [StorageError] (src/src/error.rs), without the messages and the poisoned locks *)
Inductive StorageError := IoError | Corrupted | ValueTooLarge (len : Z) | PreviousIo | DatabaseClosed.

(** A computation on a state that panics, fails or returns *)
Definition M (S A : Type) : Type := S -> outcome (S * result A StorageError).

#[export] Instance M_ret {S} : MRet (M S) := fun A a s => Ret (s, Okay a).
#[export] Instance M_bind {S} : MBind (M S) := fun A B k c s =>
  r ← c s;
  match r.2 with Okay a => k a r.1 | Err e => Ret (r.1, Err e) end.

Definition lift {S A} (c : outcome A) : M S A := fun s => a ← c; Ret (s, Okay a).
Definition gets {S A} (f : S -> A) : M S A := fun s => Ret (s, Okay (f s)).
Definition modify {S} (f : S -> S) : M S unit := fun s => Ret (f s, Okay tt).
Definition throw {S A} (e : StorageError) : M S A := fun s => Ret (s, Err e).

(** [for] loops whose body is such a computation *)
Fixpoint for_each_m {S A B} (body : A -> B -> M S B) (l : list A) (b : B) : M S B :=
  match l with
  | [] => mret b
  | x :: t => b' ← body x b; for_each_m body t b'
  end.

(** * The operations on pages *)

Class PageStore (S : Type) := {
  get_page_size : S -> Z;
  get_page : PageNumber.t -> M S (list Z);
  get_page_mut : PageNumber.t -> M S (list Z);
  (** the memory of a [PageMut] is written *)
  put_page : PageNumber.t -> list Z -> S -> outcome S;
  (** a new page and its bytes *)
  allocate : Z -> M S (PageNumber.t * list Z);
  free : PageNumber.t -> M S unit;
  free_if_uncommitted : PageNumber.t -> M S bool;
  uncommitted : PageNumber.t -> S -> outcome bool }.

(** The promises: the allocated pages are a finite map, some of them are
    uncommitted.  [room s n] says that [n] more pages can be allocated before the
    page numbers run out, [page_limit] is the size of the largest page. *)
Class PageStoreLaws (S : Type) `{PageStore S} := {
  contents : S -> gmap PageNumber.t (list Z);
  dirty : S -> gset PageNumber.t;
  store_ok : S -> Prop;
  room : S -> nat -> Prop;
  page_size : Z;
  page_limit : Z;
  (** some operation of the file fails *)
  may_fail : Prop;
  (** two states that only differ in what the interface does not show *)
  same_store (s s' : S) : Prop := store_ok s' /\ contents s' = contents s /\ dirty s' = dirty s /\ (forall n, room s n -> room s' n);
  law_size s : store_ok s -> get_page_size s = page_size;
  law_page_size : 0 < page_size;
  law_limit : page_limit < 2 ^ 32;
  law_dirty s : store_ok s -> dirty s ⊆ dom (contents s);
  law_room s n m : room s n -> (m <= n)%nat -> room s m;
  law_pages s p bytes : store_ok s -> contents s !! p = Some bytes -> encodable p /\ vlen bytes < 2 ^ 63;
  law_get_page s p bytes : store_ok s -> contents s !! p = Some bytes ->
    exists s' r, get_page p s = Ret (s', r) /\ same_store s s' /\ match r with Okay b => b = bytes | Err _ => may_fail end;
  law_get_page_mut s p bytes : store_ok s -> contents s !! p = Some bytes -> p ∈ dirty s ->
    exists s' r, get_page_mut p s = Ret (s', r) /\ same_store s s' /\ match r with Okay b => b = bytes | Err _ => may_fail end;
  law_put_page s p bytes bytes' : store_ok s -> contents s !! p = Some bytes -> p ∈ dirty s -> vlen bytes' = vlen bytes ->
    exists s', put_page p bytes' s = Ret s' /\ store_ok s' /\ contents s' = <[p := bytes']> (contents s) /\ dirty s' = dirty s /\
      (forall n, room s n -> room s' n);
  law_allocate s size n : store_ok s -> 0 < size <= page_limit -> room s (1 + n) ->
    exists s' r, allocate size s = Ret (s', r) /\ store_ok s' /\ room s' n /\
      match r with
      | Okay (p, bytes) => contents s !! p = None /\ size <= vlen bytes /\
          contents s' = <[p := bytes]> (contents s) /\ dirty s' = {[p]} ∪ dirty s
      | Err _ => may_fail /\ forall p bytes, contents s !! p = Some bytes -> p ∉ dirty s -> contents s' !! p = Some bytes /\ p ∉ dirty s'
      end;
  law_free s p : store_ok s -> p ∈ dirty s ->
    exists s', free p s = Ret (s', Okay tt) /\ store_ok s' /\ contents s' = delete p (contents s) /\ dirty s' = dirty s ∖ {[p]} /\
      (forall n, room s n -> room s' n);
  law_uncommitted s p : store_ok s -> uncommitted p s = Ret (bool_decide (p ∈ dirty s));
  law_free_if s p : store_ok s -> is_Some (contents s !! p) ->
    exists s', free_if_uncommitted p s = Ret (s', Okay (bool_decide (p ∈ dirty s))) /\ store_ok s' /\
      (forall n, room s n -> room s' n) /\
      contents s' = (if bool_decide (p ∈ dirty s) then delete p (contents s) else contents s) /\ dirty s' = dirty s ∖ {[p]} }.

(** * The state of a write transaction on one tree *)

(** The pages, and the committed pages to free later ([freed] of [MutateHelper]) *)
Record txn (S : Type) := Txn { store : S; freed : list PageNumber.t }.
Arguments Txn {S}.
Arguments store {S}.
Arguments freed {S}.

Definition on_store {S A} (c : M S A) : M (txn S) A := fun t =>
  r ← c (store t); Ret (Txn r.1 (freed t), r.2).
Definition push_freed {S} (p : PageNumber.t) : M (txn S) unit := modify (fun t => Txn (store t) (freed t ++ [p])).
Definition is_uncommitted {S} `{PageStore S} (p : PageNumber.t) : M (txn S) bool := fun t =>
  b ← uncommitted p (store t); Ret (t, Okay b).
Definition put {S} `{PageStore S} (p : PageNumber.t) (bytes : list Z) : M (txn S) unit := fun t =>
  s ← put_page p bytes (store t); Ret (Txn s (freed t), Okay tt).

(** * A program logic *)

(** [c] returns from [t]: with a value in a state that satisfies [Q], or with an error in a state that satisfies [E]. *)
Definition runs {T A} (c : M T A) (t : T) (Q : T -> A -> Prop) (E : T -> Prop) : Prop :=
  exists t' r, c t = Ret (t', r) /\ match r with Okay a => Q t' a | Err _ => E t' end.

Section runs.
  Context {T : Type}.

Lemma runs_ret {A} (a : A) t (Q : T -> A -> Prop) E : Q t a -> runs (mret a) t Q E.
Proof. intros H. by exists t, (Okay a). Qed.
Lemma runs_ret_bind {A B} (a : A) (k : A -> M T B) t Q E : runs (k a) t Q E -> runs (mret a ≫= k) t Q E.
Proof. done. Qed.
Lemma runs_bind {A B} (c : M T A) (k : A -> M T B) t Q1 Q E :
  runs c t Q1 E -> (forall t1 a, Q1 t1 a -> runs (k a) t1 Q E) -> runs (c ≫= k) t Q E.
Proof.
  intros (t1 & r & Hc & Hr) Hk. unfold runs, mbind, M_bind. rewrite Hc. cbn [mbind outcome_bind snd fst].
  destruct r as [a|e]; [apply Hk, Hr|]. by exists t1, (Err e).
Qed.
Lemma runs_weaken {A} (c : M T A) t (Q1 Q : T -> A -> Prop) (E1 E : T -> Prop) :
  runs c t Q1 E1 -> (forall t1 a, Q1 t1 a -> Q t1 a) -> (forall t1, E1 t1 -> E t1) -> runs c t Q E.
Proof. intros (t1 & r & Hc & Hr) HQ HE. exists t1, r. split; [done|]. destruct r; auto. Qed.
Lemma runs_lift {A B} (c : outcome A) a (k : A -> M T B) t Q E :
  c = Ret a -> runs (k a) t Q E -> runs (lift c ≫= k) t Q E.
Proof. intros -> H. unfold runs, mbind, M_bind, lift. exact H. Qed.
Lemma runs_gets {A B} (f : T -> A) (k : A -> M T B) t Q E : runs (k (f t)) t Q E -> runs (gets f ≫= k) t Q E.
Proof. done. Qed.
End runs.

(** * Views of the pages *)

Record view := View { pages : gmap PageNumber.t (list Z); dirty_of : gset PageNumber.t; freed_of : list PageNumber.t }.

(** From [v] to [v'] the pages [A] were replaced by the pages [B]: other pages are as they were, no committed page has changed, the
    pages of [B] that are not in [A] are new, and the pages of [A] that are not in [B] are free or, if they are committed, to be
    freed. *)
Record evolves (v v' : view) (A B : gset PageNumber.t) : Prop := {
  ev_sub : A ⊆ dom (pages v);
  ev_frame q : q ∈ dom (pages v) -> q ∉ A -> pages v' !! q = pages v !! q /\ (q ∈ dirty_of v' <-> q ∈ dirty_of v);
  ev_clean q : q ∈ dom (pages v) -> q ∉ dirty_of v -> pages v' !! q = pages v !! q /\ q ∉ dirty_of v';
  ev_new q : q ∈ B -> q ∉ A -> q ∉ dom (pages v);
  ev_dirty q : q ∈ B -> q ∈ dirty_of v' <-> q ∈ dirty_of v \/ q ∉ A;
  ev_dom q : q ∈ dom (pages v') <-> (q ∈ dom (pages v) /\ ~ (q ∈ A /\ q ∉ B /\ q ∈ dirty_of v)) \/ q ∈ B;
  ev_freed : exists F, freed_of v' = freed_of v ++ F /\ NoDup F /\ forall q, q ∈ F <-> q ∈ A /\ q ∉ B /\ q ∉ dirty_of v }.

Section evolves.

Lemma evolves_refl v : evolves v v ∅ ∅.
Proof.
  split; try set_solver. exists []. rewrite app_nil_r. split; [done|]. split; [constructor|set_solver].
Qed.

Lemma evolves_trans v1 v2 v3 A B C : evolves v1 v2 A B -> evolves v2 v3 B C -> evolves v1 v3 A C.
Proof.
  intros H1 H2. pose proof (ev_dom _ _ _ _ H1) as D1. pose proof (ev_dom _ _ _ _ H2) as D2. pose proof (ev_dirty _ _ _ _ H1) as Y1. pose proof (ev_new _ _ _ _ H1) as N1.
  pose proof (ev_sub _ _ _ _ H1) as S1. split.
  - done.
  - intros q Hd Hq. destruct (decide (q ∈ B)) as [HB|HB]; [by destruct (N1 q HB Hq)|].
    destruct (ev_frame _ _ _ _ H1 q Hd Hq) as [E1 E2]. assert (q ∈ dom (pages v2)) as Hd2 by (apply D1; tauto).
    destruct (ev_frame _ _ _ _ H2 q Hd2 HB) as [E3 E4]. rewrite E3, E4. done.
  - intros q Hd Hc. destruct (ev_clean _ _ _ _ H1 q Hd Hc) as [E1 E2]. assert (q ∈ dom (pages v2)) as Hd2 by (apply D1; tauto).
    destruct (ev_clean _ _ _ _ H2 q Hd2 E2) as [E3 E4]. by rewrite E3.
  - intros q HC HA Hd. destruct (decide (q ∈ B)) as [HB|HB]; [by apply (N1 q)|]. apply (ev_new _ _ _ _ H2 q HC HB). apply D1. tauto.
  - intros q HC. rewrite (ev_dirty _ _ _ _ H2 q HC). destruct (decide (q ∈ B)) as [HB|HB]; [rewrite (Y1 q HB); tauto|].
    split; [|tauto]. intros _. destruct (decide (q ∈ A)) as [HA|]; [|tauto]. destruct (decide (q ∈ dirty_of v1)); [tauto|].
    destruct (ev_new _ _ _ _ H2 q HC HB). apply D1. apply S1 in HA. tauto.
  - intros q. rewrite D2, D1. destruct (decide (q ∈ C)); [tauto|]. specialize (Y1 q). specialize (N1 q). specialize (S1 q).
    destruct (decide (q ∈ B)), (decide (q ∈ A)), (decide (q ∈ dirty_of v1)); tauto.
  - destruct (ev_freed _ _ _ _ H1) as (F1 & E1 & U1 & M1). destruct (ev_freed _ _ _ _ H2) as (F2 & E2 & U2 & M2).
    exists (F1 ++ F2). split; [by rewrite E2, E1, app_assoc|]. split.
    + apply NoDup_app. split; [done|]. split; [|done]. intros q Hq1 Hq2. apply M1 in Hq1. apply M2 in Hq2. tauto.
    + intros q. rewrite elem_of_app, M1, M2. pose proof (ev_clean _ _ _ _ H1 q) as K1. pose proof (ev_new _ _ _ _ H2 q) as N2. specialize (D1 q). specialize (Y1 q). specialize (S1 q).
      destruct (decide (q ∈ A)), (decide (q ∈ B)), (decide (q ∈ C)), (decide (q ∈ dirty_of v1)); tauto.
Qed.

(** What is apart from the pages that are replaced can be added on both sides. *)
Lemma evolves_frame v v' A B R : evolves v v' A B -> R ⊆ dom (pages v) -> R ## A -> evolves v v' (A ∪ R) (B ∪ R).
Proof.
  intros H HR HA. pose proof (ev_dom _ _ _ _ H) as D1. pose proof (ev_new _ _ _ _ H) as N1. pose proof (ev_sub _ _ _ _ H) as S1. split.
  - set_solver.
  - intros q Hd Hq. apply (ev_frame _ _ _ _ H); [done|set_solver].
  - apply (ev_clean _ _ _ _ H).
  - intros q Hq Hn. apply N1; set_solver.
  - intros q Hq. destruct (decide (q ∈ B)) as [HB|HB].
    + rewrite (ev_dirty _ _ _ _ H q HB). assert (q ∉ A <-> q ∉ A ∪ R) as ->; [|done]. specialize (N1 q HB). set_solver.
    + assert (q ∈ R) as HqR by set_solver. destruct (ev_frame _ _ _ _ H q) as [_ E]; [set_solver|set_solver|]. rewrite E. set_solver.
  - intros q. rewrite D1, !elem_of_union. specialize (HA q). specialize (HR q). destruct (decide (q ∈ R)); tauto.
  - destruct (ev_freed _ _ _ _ H) as (F & E & U & MF). exists F. split; [done|]. split; [done|]. intros q. rewrite MF. set_solver.
Qed.

(** One page is written, added, or given up. *)
Lemma evolves_write v p b : p ∈ dom (pages v) -> p ∈ dirty_of v -> evolves v (View (<[p := b]> (pages v)) (dirty_of v) (freed_of v)) {[p]} {[p]}.
Proof.
  intros Hp Hd. split; cbn [pages dirty_of freed_of].
  - by intros q ->%elem_of_singleton.
  - intros q _ Hq. by rewrite lookup_insert_ne by (intros ->; apply Hq, elem_of_singleton; done).
  - intros q _ Hq. by rewrite lookup_insert_ne by (intros ->; done).
  - done.
  - intros q. tauto.
  - intros q. rewrite dom_insert, elem_of_union, elem_of_singleton. split; [intros [->|Hq]; [by right|]|intros [[Hq _]| ->]; [by right|by left]]. left. tauto.
  - exists []. rewrite app_nil_r. split; [done|]. split; [constructor|]. intros q. split; [by intros ?%not_elem_of_nil|tauto].
Qed.
Lemma evolves_add v p b : p ∉ dom (pages v) -> dirty_of v ⊆ dom (pages v) ->
  evolves v (View (<[p := b]> (pages v)) ({[p]} ∪ dirty_of v) (freed_of v)) ∅ {[p]}.
Proof.
  intros Hp Hd. split; cbn [pages dirty_of freed_of].
  - apply empty_subseteq.
  - intros q Hq _. rewrite lookup_insert_ne by (intros ->; done). split; [done|]. rewrite elem_of_union, elem_of_singleton. split; [intros [->|]; done|by right].
  - intros q Hq Hdq. rewrite lookup_insert_ne by (intros ->; done). split; [done|]. rewrite elem_of_union, elem_of_singleton. intros [->|]; done.
  - by intros q ->%elem_of_singleton.
  - intros q ->%elem_of_singleton. rewrite elem_of_union, elem_of_singleton. split; [intros _; right; apply not_elem_of_empty|by left].
  - intros q. rewrite dom_insert, elem_of_union, elem_of_singleton. split; [intros [->|Hq]; [by right|]|intros [[Hq _]| ->]; [by right|by left]].
    left. split; [done|]. by intros [?%not_elem_of_empty _].
  - exists []. rewrite app_nil_r. split; [done|]. split; [constructor|]. intros q. split; [by intros ?%not_elem_of_nil|by intros [?%not_elem_of_empty _]].
Qed.
Lemma evolves_drop v p : p ∈ dom (pages v) -> p ∈ dirty_of v -> evolves v (View (delete p (pages v)) (dirty_of v ∖ {[p]}) (freed_of v)) {[p]} ∅.
Proof.
  intros Hp Hd. split; cbn [pages dirty_of freed_of].
  - by intros q ->%elem_of_singleton.
  - intros q _ Hq. rewrite lookup_delete_ne by (intros ->; apply Hq, elem_of_singleton; done). split; [done|]. rewrite elem_of_difference. tauto.
  - intros q _ Hq. rewrite lookup_delete_ne by (intros ->; done). split; [done|]. rewrite elem_of_difference. tauto.
  - by intros q ?%not_elem_of_empty.
  - by intros q ?%not_elem_of_empty.
  - intros q. rewrite dom_delete, elem_of_difference, elem_of_singleton. split.
    + intros [Hq Hn]. left. split; [done|]. by intros [-> _].
    + intros [[Hq Hn]|?%not_elem_of_empty]; [|done]. split; [done|]. intros ->. apply Hn. split; [done|]. split; [apply not_elem_of_empty|done].
  - exists []. rewrite app_nil_r. split; [done|]. split; [constructor|]. intros q. split; [by intros ?%not_elem_of_nil|]. by intros (->%elem_of_singleton & _ & ?).
Qed.
Lemma evolves_defer v p : p ∈ dom (pages v) -> p ∉ dirty_of v -> evolves v (View (pages v) (dirty_of v) (freed_of v ++ [p])) {[p]} ∅.
Proof.
  intros Hp Hd. split; cbn [pages dirty_of freed_of].
  - by intros q ->%elem_of_singleton.
  - done.
  - done.
  - by intros q ?%not_elem_of_empty.
  - by intros q ?%not_elem_of_empty.
  - intros q. split; [|intros [[Hq _]|?%not_elem_of_empty]; done]. intros Hq. left. split; [done|]. by intros (->%elem_of_singleton & _ & ?).
  - exists [p]. split; [done|]. split; [apply NoDup_singleton|]. intros q. rewrite list_elem_of_singleton, elem_of_singleton.
    split; [intros ->; split; [done|]; split; [apply not_elem_of_empty|done]|by intros [-> _]].
Qed.

Lemma evolves_eq v v' A B A' B' : evolves v v' A B -> A ≡ A' -> B ≡ B' -> evolves v v' A' B'.
Proof. intros H HA HB. apply leibniz_equiv in HA, HB. by subst. Qed.

(** Composing steps *)
Lemma evolves_also v v' A B R : evolves v v' A B -> R ⊆ dom (pages v) -> R ## A -> evolves v v' (R ∪ A) (R ∪ B).
Proof. intros. eapply evolves_eq; [by apply evolves_frame| |]; by rewrite (union_comm R). Qed.
Lemma evolves_self v P : Forall (fun q => q ∈ dom (pages v)) P -> evolves v v (list_to_set P) (list_to_set P).
Proof.
  intros HP. eapply evolves_eq; [apply (evolves_also v v ∅ ∅ (list_to_set P) (evolves_refl v))|..]; [|apply disjoint_empty_r|by rewrite (right_id ∅ (∪))..].
  intros q Hq%elem_of_list_to_set. rewrite Forall_forall in HP. by apply HP.
Qed.
(** A page is added to those that are there. *)
Lemma evolves_page v v' p P : evolves v v' ∅ {[p]} -> Forall (fun q => q ∈ dom (pages v)) P -> evolves v v' (list_to_set P) (list_to_set (p :: P)).
Proof.
  intros He HP. eapply evolves_eq; [apply (evolves_also v v' ∅ {[p]} (list_to_set P) He)|..]; [|apply disjoint_empty_r|by rewrite (right_id ∅ (∪))|apply union_comm].
  intros q Hq%elem_of_list_to_set. rewrite Forall_forall in HP. by apply HP.
Qed.
(** A step on the pages [B] of those that are there *)
Lemma evolves_then v1 v2 v3 A R B C : evolves v1 v2 A (R ∪ B) -> R ## B -> evolves v2 v3 B C -> evolves v1 v3 A (R ∪ C).
Proof.
  intros H1 Hd H2. eapply evolves_trans; [exact H1|]. apply evolves_also; [done| |done]. intros q Hq. apply (ev_dom _ _ _ _ H1). right. set_solver.
Qed.
Lemma evolves_in v v' A B q : evolves v v' A B -> q ∈ B -> q ∈ dom (pages v').
Proof. intros H Hq. apply (ev_dom _ _ _ _ H). by right. Qed.
Lemma evolves_disjoint v v' A B R : evolves v v' A B -> R ⊆ dom (pages v) -> R ## A -> R ## B.
Proof. intros H HR HA q Hq HB. apply (ev_new _ _ _ _ H q HB); [|by apply HR]. intros Hq'. by apply (HA q). Qed.
(** A page is given up for new ones. *)
Lemma evolves_replace v v1 v2 p N : evolves v v1 ∅ N -> p ∈ dom (pages v) -> evolves v1 v2 {[p]} ∅ ->
  evolves v v2 {[p]} N /\ forall q, q ∈ N -> pages v2 !! q = pages v1 !! q /\ (q ∈ dirty_of v2 <-> q ∈ dirty_of v1).
Proof.
  intros H1 Hp H2. assert (Hn : forall q, q ∈ N -> q <> p).
  { intros q Hq ->. apply (ev_new _ _ _ _ H1 p Hq); set_solver. }
  split.
  - eapply evolves_eq; [|reflexivity|apply (right_id ∅ (∪))]. eapply (evolves_then v v1 v2 {[p]} N {[p]} ∅); [| |done].
    + eapply evolves_eq; [apply (evolves_also v v1 ∅ N {[p]} H1)|..]; set_solver.
    + intros q Hq Hq2. apply (Hn q Hq). set_solver.
  - intros q Hq. apply (ev_frame _ _ _ _ H2); [by eapply evolves_in|]. specialize (Hn q Hq). set_solver.
Qed.
End evolves.

(** * The operations in terms of views *)

Section ops.
  Context {S : Type} `{PageStoreLaws S}.

(** The view [v] of [t], if the bytes [pend] are still to be written; [n] more pages can be allocated. *)
Record shows (pend : gmap PageNumber.t (list Z)) (n : nat) (t : txn S) (v : view) : Prop := {
  sh_ok : store_ok (store t);
  sh_room : room (store t) n;
  sh_pages : pages v = pend ∪ contents (store t);
  sh_dirty : dirty_of v = dirty (store t);
  sh_freed : freed_of v = freed t;
  sh_pend p b : pend !! p = Some b -> p ∈ dirty (store t) /\ exists b0, contents (store t) !! p = Some b0 /\ vlen b = vlen b0 }.

(** The file failed, but no committed page of [v] has changed. *)
Definition intact (v : view) (t : txn S) : Prop :=
  may_fail /\ forall p b, pages v !! p = Some b -> p ∉ dirty_of v -> contents (store t) !! p = Some b /\ p ∉ dirty (store t).

Lemma intact_evolves v v' A B t : evolves v v' A B -> intact v' t -> intact v t.
Proof using.
  intros He [Hf Hi]. split; [done|]. intros p b Hp Hd. destruct (ev_clean _ _ _ _ He p) as [E1 E2]; [by apply elem_of_dom|done|]. apply Hi; [by rewrite E1|done].
Qed.
Lemma shows_weaken pend n m t v : shows pend n t v -> (m <= n)%nat -> shows pend m t v.
Proof using. intros [] Hm. split; try done. by eapply law_room. Qed.
Lemma shows_dirty_sub pend n t v : shows pend n t v -> dirty_of v ⊆ dom (pages v).
Proof using.
  intros Hs q Hq. rewrite (sh_dirty _ _ _ _ Hs) in Hq. rewrite (sh_pages _ _ _ _ Hs), dom_union, elem_of_union.
  right. by apply (law_dirty _ (sh_ok _ _ _ _ Hs)).
Qed.
Lemma shows_contents pend n t v p : shows pend n t v -> p ∉ dom pend -> pages v !! p = contents (store t) !! p.
Proof using. intros Hs Hp. rewrite (sh_pages _ _ _ _ Hs). apply lookup_union_r. by apply not_elem_of_dom. Qed.
Lemma shows_bounds pend n t v p b : shows pend n t v -> pages v !! p = Some b -> encodable p /\ vlen b < 2 ^ 63.
Proof using.
  intros Hs Hp. destruct (pend !! p) as [b'|] eqn:E.
  - destruct (sh_pend _ _ _ _ Hs p b' E) as (_ & b0 & Hc & Hl). destruct (law_pages _ _ _ (sh_ok _ _ _ _ Hs) Hc) as [H1 H2].
    rewrite (sh_pages _ _ _ _ Hs) in Hp. rewrite (lookup_union_Some_l _ _ _ _ E) in Hp. injection Hp as <-. rewrite Hl. done.
  - rewrite (shows_contents _ _ _ _ _ Hs) in Hp by (by apply not_elem_of_dom). by apply (law_pages _ _ _ (sh_ok _ _ _ _ Hs) Hp).
Qed.
Lemma shows_same pend n t v s' : shows pend n t v -> same_store (store t) s' -> shows pend n (Txn s' (freed t)) v.
Proof using.
  intros [] (E1 & E2 & E3 & E4). split; cbn [store freed]; try done; [by apply E4|by rewrite E2|by rewrite E3|]. intros p b. rewrite E2, E3. auto.
Qed.
Lemma intact_same pend n t v s' : may_fail -> shows pend n t v -> same_store (store t) s' -> intact v (Txn s' (freed t)).
Proof using.
  intros Hf Hs (_ & E2 & E3 & _). split; [done|]. intros p b Hp Hd. cbn [store]. rewrite E2, E3. rewrite (sh_dirty _ _ _ _ Hs) in Hd. split; [|done].
  rewrite <-(shows_contents _ _ _ _ _ Hs); [done|]. intros (b' & Hb)%elem_of_dom. by destruct (sh_pend _ _ _ _ Hs p b' Hb).
Qed.

Lemma read_runs pend n t v p b : shows pend n t v -> p ∉ dom pend -> pages v !! p = Some b ->
  runs (on_store (get_page p)) t (fun t' b' => b' = b /\ shows pend n t' v) (intact v).
Proof using.
  intros Hs Hp Hb. rewrite (shows_contents _ _ _ _ _ Hs Hp) in Hb. destruct (law_get_page _ _ _ (sh_ok _ _ _ _ Hs) Hb) as (s' & r & E & Hsame & Hr).
  exists (Txn s' (freed t)), r. unfold on_store. rewrite E. split; [done|].
  destruct r as [b'|e]; [split; [done|by eapply shows_same]|by eapply intact_same].
Qed.
Lemma read_mut_runs pend n t v p b : shows pend n t v -> p ∉ dom pend -> pages v !! p = Some b -> p ∈ dirty_of v ->
  runs (on_store (get_page_mut p)) t (fun t' b' => b' = b /\ shows pend n t' v) (intact v).
Proof using.
  intros Hs Hp Hb Hd. rewrite (shows_contents _ _ _ _ _ Hs Hp) in Hb. rewrite (sh_dirty _ _ _ _ Hs) in Hd.
  destruct (law_get_page_mut _ _ _ (sh_ok _ _ _ _ Hs) Hb Hd) as (s' & r & E & Hsame & Hr).
  exists (Txn s' (freed t)), r. unfold on_store. rewrite E. split; [done|].
  destruct r as [b'|e]; [split; [done|by eapply shows_same]|by eapply intact_same].
Qed.
Lemma uncommitted_runs pend n t v p : shows pend n t v ->
  runs (is_uncommitted p) t (fun t' b => b = bool_decide (p ∈ dirty_of v) /\ shows pend n t' v) (intact v).
Proof using.
  intros Hs. exists t, (Okay (bool_decide (p ∈ dirty_of v))). unfold is_uncommitted. rewrite (sh_dirty _ _ _ _ Hs), law_uncommitted by apply Hs. done.
Qed.

(** A page that may be written gets new bytes. *)
Lemma put_runs pend n t v p b b' : shows pend n t v -> p ∉ dom pend -> pages v !! p = Some b -> p ∈ dirty_of v -> vlen b' = vlen b ->
  runs (put p b') t (fun t' _ => exists v', shows pend n t' v' /\ evolves v v' {[p]} {[p]} /\ pages v' = <[p := b']> (pages v) /\ dirty_of v' = dirty_of v /\
    freed_of v' = freed_of v) (intact v).
Proof using.
  intros Hs Hp Hb Hd Hl. pose proof Hb as Hb0. rewrite (shows_contents _ _ _ _ _ Hs Hp) in Hb0. pose proof Hd as Hd0. rewrite (sh_dirty _ _ _ _ Hs) in Hd0.
  destruct (law_put_page _ _ _ _ (sh_ok _ _ _ _ Hs) Hb0 Hd0 Hl) as (s' & E & Hok & Hc & Hdd & Hr).
  exists (Txn s' (freed t)), (Okay tt). unfold put. rewrite E. split; [done|].
  exists (View (<[p := b']> (pages v)) (dirty_of v) (freed_of v)). split; [|split; [|done]].
  - destruct Hs as [S1 S2 S3 S4 S5 S6]. split; cbn [store freed pages dirty_of freed_of]; try done; [by apply Hr| |by rewrite Hdd|].
    + rewrite S3, Hc. apply insert_union_r. by apply not_elem_of_dom.
    + intros q c Hq. rewrite Hdd, Hc. destruct (S6 q c Hq) as (H1 & b0 & H2 & H3). split; [done|]. exists b0. rewrite lookup_insert_ne; [done|].
      intros ->. apply Hp, elem_of_dom. by exists c.
  - apply evolves_write; [apply elem_of_dom; by exists b|done].
Qed.

(** A new page *)
Lemma alloc_runs pend n t v size : shows pend (1 + n) t v -> 0 < size <= page_limit ->
  runs (on_store (allocate size)) t (fun t' r => r.1 ∉ dom (pages v) /\ r.1 ∉ dom pend /\ encodable r.1 /\ size <= vlen r.2 < 2 ^ 63 /\
    exists v', shows pend n t' v' /\ evolves v v' ∅ {[r.1]} /\ pages v' = <[r.1 := r.2]> (pages v) /\ dirty_of v' = {[r.1]} ∪ dirty_of v) (intact v).
Proof using.
  intros Hs Hsz. destruct (law_allocate _ _ _ (sh_ok _ _ _ _ Hs) Hsz (sh_room _ _ _ _ Hs)) as (s' & r & E & Hok & Hroom & Hr).
  exists (Txn s' (freed t)), r. unfold on_store. rewrite E. split; [done|]. destruct r as [[p b]|e].
  - destruct Hr as (Hn & Hl & Hc & Hd). cbn [fst snd]. assert (Hnp : p ∉ dom pend).
    { intros (b' & Hb)%elem_of_dom. destruct (sh_pend _ _ _ _ Hs p b' Hb) as (_ & b0 & Hb0 & _). congruence. }
    assert (Hnv : p ∉ dom (pages v)) by (apply not_elem_of_dom; by rewrite (shows_contents _ _ _ _ _ Hs)).
    assert (Hc' : contents s' !! p = Some b) by (rewrite Hc; apply lookup_insert_eq). destruct (law_pages _ _ _ Hok Hc') as [He Hl'].
    split; [done|]. split; [done|]. split; [done|]. split; [done|].
    exists (View (<[p := b]> (pages v)) ({[p]} ∪ dirty_of v) (freed_of v)). split; [|split; [|done]].
    + destruct Hs as [S1 S2 S3 S4 S5 S6]. split; cbn [store freed pages dirty_of freed_of]; try done; [|by rewrite Hd, S4|].
      * rewrite S3, Hc. apply insert_union_r. by apply not_elem_of_dom.
      * intros q c Hq. rewrite Hd, Hc. destruct (S6 q c Hq) as (H1 & b0 & H2 & H3). split; [set_solver|]. exists b0. rewrite lookup_insert_ne; [done|].
        intros ->. apply Hnp, elem_of_dom. by exists c.
    + apply evolves_add; [done|by eapply shows_dirty_sub].
  - destruct Hr as [Hf Hr]. split; [done|]. intros p b Hp Hd. rewrite (sh_dirty _ _ _ _ Hs) in Hd. apply Hr; [|done]. rewrite <-(shows_contents _ _ _ _ _ Hs); [done|].
    intros (b' & Hb)%elem_of_dom. by destruct (sh_pend _ _ _ _ Hs p b' Hb).
Qed.

(** An uncommitted page is freed. *)
Lemma shows_delete pend n t v p s' : shows pend n t v -> p ∉ dom pend -> store_ok s' -> (forall n, room (store t) n -> room s' n) ->
  contents s' = delete p (contents (store t)) -> dirty s' = dirty (store t) ∖ {[p]} ->
  shows pend n (Txn s' (freed t)) (View (delete p (pages v)) (dirty_of v ∖ {[p]}) (freed_of v)).
Proof using.
  intros [S1 S2 S3 S4 S5 S6] Hp Hok Hr Hc Hd. split; cbn [store freed pages dirty_of freed_of]; try done.
  - by apply Hr.
  - rewrite S3, Hc, delete_union, (delete_id pend); [done|]. by apply not_elem_of_dom.
  - by rewrite Hd, S4.
  - intros q c Hq. rewrite Hd, Hc. destruct (S6 q c Hq) as (H1 & b0 & H2 & H3). assert (q <> p) by (intros ->; apply Hp, elem_of_dom; by exists c).
    rewrite elem_of_difference, elem_of_singleton. split; [done|]. exists b0. by rewrite lookup_delete_ne.
Qed.
Lemma free_runs pend n t v p : shows pend n t v -> p ∉ dom pend -> p ∈ dirty_of v ->
  runs (on_store (free p)) t (fun t' _ => exists v', shows pend n t' v' /\ evolves v v' {[p]} ∅) (intact v).
Proof using.
  intros Hs Hp Hd. pose proof (shows_dirty_sub _ _ _ _ Hs p Hd) as Hdom. pose proof Hd as Hd0. rewrite (sh_dirty _ _ _ _ Hs) in Hd0.
  destruct (law_free _ _ (sh_ok _ _ _ _ Hs) Hd0) as (s' & E & Hok & Hc & Hdd & Hr). exists (Txn s' (freed t)), (Okay tt). unfold on_store. rewrite E.
  split; [done|]. eexists. split; [by eapply shows_delete|by apply evolves_drop].
Qed.
(** A committed page is to be freed. *)
Lemma push_freed_runs pend n t v p : shows pend n t v -> p ∈ dom (pages v) -> p ∉ dirty_of v ->
  runs (push_freed p) t (fun t' _ => exists v', shows pend n t' v' /\ evolves v v' {[p]} ∅) (intact v).
Proof using.
  intros Hs Hp Hd. exists (Txn (store t) (freed t ++ [p])), (Okay tt). split; [done|]. eexists. split; [|by apply evolves_defer].
  destruct Hs as [S1 S2 S3 S4 S5 S6]. split; cbn [store freed pages dirty_of freed_of]; try done. by rewrite S5.
Qed.
Lemma free_if_runs pend n t v p : shows pend n t v -> p ∉ dom pend -> p ∈ dom (pages v) ->
  runs (on_store (free_if_uncommitted p)) t (fun t' b => b = bool_decide (p ∈ dirty_of v) /\
    if b : bool then exists v', shows pend n t' v' /\ evolves v v' {[p]} ∅ else shows pend n t' v) (intact v).
Proof using.
  intros Hs Hp Hdom. assert (Hc : is_Some (contents (store t) !! p)).
  { rewrite <-(shows_contents _ _ _ _ _ Hs) by done. by apply elem_of_dom. }
  destruct (law_free_if _ _ (sh_ok _ _ _ _ Hs) Hc) as (s' & E & Hok & Hr & Hcc & Hdd). eexists _, _. unfold on_store. rewrite E. split; [done|].
  rewrite (sh_dirty _ _ _ _ Hs). split; [done|]. cbn [fst]. case_bool_decide as Hd.
  - eexists. split; [by eapply shows_delete|]. rewrite <-(sh_dirty _ _ _ _ Hs) in Hd. by apply evolves_drop.
  - destruct Hs as [S1 S2 S3 S4 S5 S6]. assert (dirty s' = dirty (store t)) as Hdd' by (rewrite Hdd; set_solver).
    split; cbn [store freed]; try done; [by apply Hr|by rewrite Hcc|by rewrite Hdd'|]. intros q c. rewrite Hdd', Hcc. apply S6.
Qed.

(** The bytes that are still to be written are written. *)
Lemma put_pending_runs n t v p b : shows {[p := b]} n t v ->
  runs (put p b) t (fun t' _ => shows ∅ n t' v) (intact v).
Proof using.
  intros Hs. destruct (sh_pend _ _ _ _ Hs p b (lookup_singleton_eq _ _)) as (Hd & b0 & Hc & Hl).
  destruct (law_put_page _ _ _ _ (sh_ok _ _ _ _ Hs) Hc Hd Hl) as (s' & E & Hok & Hcc & Hdd & Hr).
  exists (Txn s' (freed t)), (Okay tt). unfold put. rewrite E. split; [done|].
  destruct Hs as [S1 S2 S3 S4 S5 S6]. split; cbn [store freed]; try done; [by apply Hr| |by rewrite Hdd].
  rewrite S3, Hcc, (left_id_L ∅ (∪)), <-insert_union_singleton_l. done.
Qed.
(** Bytes that will be written later *)
Lemma shows_pend n t v p b b' : shows ∅ n t v -> pages v !! p = Some b -> p ∈ dirty_of v -> vlen b' = vlen b ->
  exists v', shows {[p := b']} n t v' /\ evolves v v' {[p]} {[p]} /\ pages v' = <[p := b']> (pages v) /\ dirty_of v' = dirty_of v.
Proof using.
  intros Hs Hb Hd Hl. exists (View (<[p := b']> (pages v)) (dirty_of v) (freed_of v)). split; [|split; [|done]].
  - pose proof Hb as Hb0. rewrite (shows_contents _ _ _ _ _ Hs) in Hb0 by (rewrite dom_empty; apply not_elem_of_empty).
    destruct Hs as [S1 S2 S3 S4 S5 S6]. split; cbn [pages dirty_of freed_of]; try done.
    + rewrite S3, (left_id_L ∅ (∪)), <-insert_union_singleton_l. done.
    + intros q c [<- <-]%lookup_singleton_Some. rewrite <-S4. split; [done|]. by exists b.
  - apply evolves_write; [apply elem_of_dom; by exists b|done].
Qed.
End ops.
