(* ===== verification/Mutator.v ===== *)
(** Insertion into and deletion from a B-tree ([MutateHelper],
    src/src/tree_store/btree_mutator.rs), with the guards it returns
    (src/src/tree_store/btree_base.rs), over any page store.

    The key and value types are the widths of their encodings and the comparison
    of keys; keys and values are their encodings. *)
From S2P Require Import Prelude Buddy Pages Header Types KeyOrder Leaf LeafTheorems Branch PageStore.

(** * Guards *)

Inductive EitherPage :=
| Immutable (mem : list Z)
| Mutable (page : PageNumber.t) (mem : list Z)
| OwnedMemory (mem : list Z)
| ArcMemory (mem : list Z).

Module AccessGuard.

(** [OnDrop::RemoveEntry] has a position and the width of keys. *)
Record t := mk { page : EitherPage; offset : Z; len : Z; on_drop : option (Z * option Z) }.

Definition memory (p : EitherPage) : list Z :=
  match p with Immutable mem | Mutable _ mem | OwnedMemory mem | ArcMemory mem => mem end.

Definition with_page (mem : list Z) (range : Z * Z) : t := mk (Immutable mem) range.1 (LeafMutator.range_len range) None.
Definition with_arc_page (mem : list Z) (range : Z * Z) : t := mk (ArcMemory mem) range.1 (LeafMutator.range_len range) None.
Definition with_owned_value (value : list Z) : t := mk (OwnedMemory value) 0 (vlen value) None.
Definition remove_on_drop (p : PageNumber.t) (mem : list Z) (offset len position : Z) (fixed_key_size : option Z) : t :=
  mk (Mutable p mem) offset len (Some (position, fixed_key_size)).

(** The bytes of the value *)
Definition value (g : t) : outcome (list Z) := slice (memory (page g)) (offset g) (offset g + len g).

Definition drop {S} `{PageStore S} (value_width : option Z) (g : t) : M (txn S) unit :=
  match on_drop g with
  | None => mret tt
  | Some (position, fixed_key_size) =>
      match page g with
      | Mutable p mem =>
          mem ← lift (LeafMutator.new mem);
          mem ← lift (LeafMutator.remove fixed_key_size value_width mem position);
          put p mem
      | _ => lift Panic
      end
  end.

End AccessGuard.

(** [AccessGuardMutInPlace]: where the inserted value is *)
Record AccessGuardMutInPlace := mk_in_place { guard_page : PageNumber.t; guard_offset : Z; guard_len : Z }.

(** * The results of the helpers *)

Inductive DeletedPairs :=
| One (index : Z)
| Many (indexes : list Z).
Definition deleted_len (d : DeletedPairs) : Z := match d with One _ => 1 | Many indexes => vlen indexes end.

Inductive DeletionResult :=
| Subtree (page : PageNumber.t)
| DeletedLeaf
| PartialLeaf (page : list Z) (deleted_pairs : DeletedPairs)
| PartialBranch (children : list child) (keys : list (list Z))
| DeletedBranch (page : PageNumber.t) (checksum : Z).

Inductive LeafDeleteDisposition := Delete | Merge | Rebuild.
Definition disposition_eqb (a b : LeafDeleteDisposition) : bool :=
  match a, b with Delete, Delete | Merge, Merge | Rebuild, Rebuild => true | _, _ => false end.
Record LeafDeletePlan := mk_plan { retained_pairs : Z; disposition : LeafDeleteDisposition }.

Record InsertionResult := mk_insertion {
  new_root : PageNumber.t; root_checksum : Z; additional_sibling : option (list Z * PageNumber.t * Z);
  inserted_value : AccessGuardMutInPlace; old_value : option AccessGuard.t }.

Module MutateHelper.

Section helper.
  Context {S : Type} `{PageStore S} (compare : list Z -> list Z -> outcome comparison) (key_width value_width : option Z).

(** A page that was read: its number and its bytes *)
Definition page_impl : Type := PageNumber.t * list Z.

Definition read (p : PageNumber.t) : M (txn S) page_impl := mem ← on_store (get_page p); mret (p, mem).
Definition page_size : M (txn S) Z := gets (fun t => get_page_size (store t)).

Definition conditional_free (page_number : PageNumber.t) : M (txn S) unit :=
  b ← on_store (free_if_uncommitted page_number);
  if (b : bool) then mret tt else push_freed page_number.

(** ** Building pages *)

(** [LeafBuilder::build] and [build_split]; the new pages and the key between them *)
Definition build_leaf (b : LeafBuilder.t) : M (txn S) page_impl :=
  '(p, mem) ← on_store (allocate (LeafBuilder.required_size b));
  mem ← lift (LeafBuilder.write b mem);
  _ ← put p mem;
  mret (p, mem).
Definition build_split_leaf (b : LeafBuilder.t) : M (txn S) (page_impl * list Z * page_impl) :=
  d ← lift (LeafBuilder.division b);
  '(size1, size2) ← lift (LeafBuilder.split_sizes b d);
  '(p1, mem1) ← on_store (allocate size1);
  mem1 ← lift (LeafBuilder.write_first b d mem1);
  _ ← put p1 mem1;
  '(p2, mem2) ← on_store (allocate size2);
  mem2 ← lift (LeafBuilder.write_second b d mem2);
  _ ← put p2 mem2;
  key ← lift (LeafBuilder.split_key b d);
  mret ((p1, mem1), key, (p2, mem2)).

(** [BranchBuilder::build] and [build_split] *)
Definition build_branch (b : BranchBuilder.t) : M (txn S) PageNumber.t :=
  _ ← lift (BranchBuilder.check_build b);
  '(p, mem) ← on_store (allocate (BranchBuilder.required_bytes b));
  mem ← lift (BranchBuilder.write b mem);
  _ ← put p mem;
  mret p.
Definition build_split_branch (b : BranchBuilder.t) : M (txn S) (PageNumber.t * list Z * PageNumber.t) :=
  '(division, (key, (size1, size2))) ← lift (BranchBuilder.split_plan b);
  '(p1, mem1) ← on_store (allocate size1);
  mem1 ← lift (BranchBuilder.write_first b division mem1);
  _ ← put p1 mem1;
  '(p2, mem2) ← on_store (allocate size2);
  mem2 ← lift (BranchBuilder.write_second b division mem2);
  _ ← put p2 mem2;
  mret (p1, key, p2).

Definition leaf_builder : LeafBuilder.t := LeafBuilder.new key_width value_width.
Definition branch_builder : BranchBuilder.t := BranchBuilder.new key_width.
Definition leaf_accessor (mem : list Z) : outcome LeafAccessor.t := LeafAccessor.new mem key_width value_width.

(** ** Insertion *)

(** A leaf of a single pair that fills a page or more *)
Definition single_large_value (a : LeafAccessor.t) (page_size : Z) : outcome bool :=
  if LeafAccessor.num_pairs a =? 1 then total ← LeafAccessor.total_length a; Ret (page_size <=? total) else Ret false.

(** The loop that pushes the pairs of a page and the new one *)
Definition push_pair (a : LeafAccessor.t) (position : Z) (found : bool) (key value : list Z) (i : Z) (b : LeafBuilder.t) : outcome LeafBuilder.t :=
  let b := if i =? position then LeafBuilder.push b key value else b in
  if negb found || negb (i =? position) then
    '(k, v) ← expect (LeafAccessor.entry a i); Ret (LeafBuilder.push b k v)
  else Ret b.
Definition push_with (a : LeafAccessor.t) (position : Z) (found : bool) (key value : list Z) : outcome LeafBuilder.t :=
  b ← for_each (push_pair a position found key value) (seqZ 0 (LeafAccessor.num_pairs a)) leaf_builder;
  Ret (if LeafAccessor.num_pairs a =? position then LeafBuilder.push b key value else b).

(** The page that was replaced is given up; the guard of the value it had for the key *)
Definition release_leaf (page : page_impl) (a : LeafAccessor.t) (position : Z) (found : bool) : M (txn S) (option AccessGuard.t) :=
  if found then
    range ← lift (expect (LeafAccessor.value_range a position));
    u ← is_uncommitted page.1;
    if (u : bool) then
      _ ← on_store (free page.1);
      mret (Some (AccessGuard.with_arc_page page.2 range))
    else
      _ ← push_freed page.1;
      mret (Some (AccessGuard.with_page page.2 range))
  else
    _ ← conditional_free page.1;
    mret None.

(** Where a value is in a page *)
Definition value_guard (page : page_impl) (position : Z) (value : list Z) : outcome AccessGuardMutInPlace :=
  a ← leaf_accessor page.2;
  offset ← expect (LeafAccessor.offset_of_value a position);
  Ret (mk_in_place page.1 offset (vlen value)).

(** A leaf with a single large value gets a sibling *)
Definition insert_beside (page : page_impl) (page_checksum : Z) (a : LeafAccessor.t) (position : Z) (key value : list Z) : M (txn S) InsertionResult :=
  new_page ← build_leaf (LeafBuilder.push leaf_builder key value);
  new_accessor ← lift (leaf_accessor new_page.2);
  offset ← lift (LeafAccessor.offset_of_first_value new_accessor);
  let guard := mk_in_place new_page.1 offset (vlen value) in
  if position =? 0 then
    mret (mk_insertion new_page.1 DEFERRED (Some (key, page.1, page_checksum)) guard None)
  else
    last ← lift (LeafAccessor.last_entry a);
    mret (mk_insertion page.1 page_checksum (Some (last.1, new_page.1, DEFERRED)) guard None).

(** The fast path for uncommitted pages *)
Definition has_inplace_space (page : page_impl) (position : Z) (found : bool) (key value : list Z) : outcome bool :=
  if found then LeafMutator.sufficient_replace_inplace_space key_width value_width page.2 position value
  else LeafMutator.sufficient_insert_inplace_space key_width value_width page.2 (PageNumber.page_order page.1) position key value.
Definition insert_in_page (page : page_impl) (a : LeafAccessor.t) (position : Z) (found : bool) (key value : list Z) : M (txn S) InsertionResult :=
  existing_value ← lift (if found then '(_, v) ← expect (LeafAccessor.entry a position); Ret (Some (AccessGuard.with_owned_value v)) else Ret None);
  mem ← on_store (get_page_mut page.1);
  mem ← lift (LeafMutator.new mem);
  mem ← lift (if found then LeafMutator.replace key_width value_width mem position value
              else LeafMutator.insert key_width value_width mem position key value);
  guard ← lift (value_guard (page.1, mem) position value);
  _ ← put page.1 mem;
  mret (mk_insertion page.1 DEFERRED None guard existing_value).

(** A new page, or two *)
Definition insert_rebuilt (page : page_impl) (a : LeafAccessor.t) (position : Z) (found : bool) (key value : list Z) : M (txn S) InsertionResult :=
  builder ← lift (push_with a position found key value);
  size ← page_size;
  if negb (LeafBuilder.should_split builder size) then
    new_page ← build_leaf builder;
    existing_value ← release_leaf page a position found;
    guard ← lift (value_guard new_page position value);
    mret (mk_insertion new_page.1 DEFERRED None guard existing_value)
  else
    '(new_page1, split_key, new_page2) ← build_split_leaf builder;
    existing_value ← release_leaf page a position found;
    accessor ← lift (leaf_accessor new_page1.2);
    let division := LeafAccessor.num_pairs accessor in
    guard ← lift (if position <? division then value_guard new_page1 position value
                  else m ← usub position division; value_guard new_page2 m value);
    mret (mk_insertion new_page1.1 DEFERRED (Some (split_key, new_page2.1, DEFERRED)) guard existing_value).

(** The [LEAF] case of [insert_helper] *)
Definition insert_leaf (page : page_impl) (page_checksum : Z) (key value : list Z) : M (txn S) InsertionResult :=
  a ← lift (leaf_accessor page.2);
  '(position, found) ← lift (LeafAccessor.position compare a key);
  size ← page_size;
  large ← lift (single_large_value a size);
  if negb found && large then insert_beside page page_checksum a position key value
  else
    u ← is_uncommitted page.1;
    fits ← lift (if (u : bool) then has_inplace_space page position found key value else Ret false);
    if (fits : bool) then insert_in_page page a position found key value
    else insert_rebuilt page a position found key value.

(** The child that was inserted into, and its new sibling *)
Definition push_result (b : BranchBuilder.t) (r : InsertionResult) : BranchBuilder.t :=
  let b := BranchBuilder.push_child b (new_root r, root_checksum r) in
  match additional_sibling r with
  | Some (index_key2, page2, page2_checksum) =>
      BranchBuilder.push_child (BranchBuilder.push_key b index_key2) (page2, page2_checksum)
  | None => b
  end.
Definition push_child_at (a : BranchAccessor.t) (child_index : Z) (r : InsertionResult) (i : Z) (b : BranchBuilder.t) : outcome BranchBuilder.t :=
  m ← usub i 1;
  k ← BranchAccessor.key a m;
  match k with
  | Some key =>
      let b := BranchBuilder.push_key b key in
      if i =? child_index then Ret (push_result b r)
      else c ← BranchBuilder.read_child a i; Ret (BranchBuilder.push_child b c)
  | None => Panic
  end.
Definition push_children (a : BranchAccessor.t) (child_index : Z) (r : InsertionResult) : outcome BranchBuilder.t :=
  b ← (if child_index =? 0 then Ret (push_result branch_builder r)
       else c ← BranchBuilder.read_child a 0; Ret (BranchBuilder.push_child branch_builder c));
  for_each (push_child_at a child_index r) (seqZ 1 (BranchAccessor.count_children a - 1)) b.

(** The page of the branch is replaced by one or two new ones *)
Definition rebuild_branch (page : page_impl) (a : BranchAccessor.t) (child_index : Z) (r : InsertionResult) : M (txn S) InsertionResult :=
  builder ← lift (push_children a child_index r);
  size ← page_size;
  result ← (if BranchBuilder.should_split builder size then
      '(new_page1, split_key, new_page2) ← build_split_branch builder;
      mret (mk_insertion new_page1 DEFERRED (Some (split_key, new_page2, DEFERRED)) (inserted_value r) (old_value r))
    else
      new_page ← build_branch builder;
      mret (mk_insertion new_page DEFERRED None (inserted_value r) (old_value r)));
  _ ← conditional_free page.1;
  mret result.

(** What [insert_helper] does with the result for a child *)
Definition insert_branch (page : page_impl) (page_checksum : Z) (a : BranchAccessor.t) (child_index : Z) (child_page : PageNumber.t)
    (child_checksum : Z) (r : InsertionResult) : M (txn S) InsertionResult :=
  match additional_sibling r with
  | None =>
      if bool_decide (new_root r = child_page) && (root_checksum r =? child_checksum) then
        mret (mk_insertion page.1 page_checksum None (inserted_value r) (old_value r))
      else
        u ← is_uncommitted page.1;
        if (u : bool) then
          mem ← on_store (get_page_mut page.1);
          mem ← lift (BranchMutator.new mem);
          mem ← lift (BranchMutator.write_child_page mem child_index (new_root r, root_checksum r));
          _ ← put page.1 mem;
          mret (mk_insertion page.1 DEFERRED None (inserted_value r) (old_value r))
        else rebuild_branch page a child_index r
  | Some _ => rebuild_branch page a child_index r
  end.

(** The recursion goes down one level of the tree at a time; [fuel] bounds the height. *)
Fixpoint insert_helper (fuel : nat) (page : page_impl) (page_checksum : Z) (key value : list Z) : M (txn S) InsertionResult :=
  match fuel with
  | O => lift Panic
  | Datatypes.S f =>
      kind ← lift (vget page.2 0);
      if kind =? LEAF then insert_leaf page page_checksum key value
      else if kind =? BRANCH then
        a ← lift (BranchAccessor.new page.2 key_width);
        '(child_index, child_page) ← lift (BranchAccessor.child_for_key compare a key);
        child_checksum ← lift (expect (BranchAccessor.child_checksum a child_index));
        child ← read child_page;
        sub_result ← insert_helper f child child_checksum key value;
        insert_branch page page_checksum a child_index child_page child_checksum sub_result
      else lift Panic
  end.

(** The new root, the guard of the old value and the guard of the new one *)
Definition insert (fuel : nat) (root : option BtreeHeader.t) (key value : list Z)
    : M (txn S) (option BtreeHeader.t * option AccessGuard.t * AccessGuardMutInPlace) :=
  match root with
  | Some header =>
      page ← read (BtreeHeader.root header);
      result ← insert_helper fuel page (BtreeHeader.checksum header) key value;
      new_length ← lift (match old_value result with Some _ => Ret (BtreeHeader.length header) | None => uadd 64 (BtreeHeader.length header) 1 end);
      new_root ← match additional_sibling result with
        | Some (key, page2, page2_checksum) =>
            let builder := BranchBuilder.push_child branch_builder (new_root result, root_checksum result) in
            let builder := BranchBuilder.push_key builder key in
            let builder := BranchBuilder.push_child builder (page2, page2_checksum) in
            new_page ← build_branch builder;
            mret (BtreeHeader.mk new_page DEFERRED new_length)
        | None => mret (BtreeHeader.mk (new_root result) (root_checksum result) new_length)
        end;
      mret (Some new_root, old_value result, inserted_value result)
  | None =>
      page ← build_leaf (LeafBuilder.push leaf_builder key value);
      a ← lift (leaf_accessor page.2);
      offset ← lift (LeafAccessor.offset_of_first_value a);
      mret (Some (BtreeHeader.mk page.1 DEFERRED 1), None, mk_in_place page.1 offset (vlen value))
  end.

(** ** Insertion in place *)

Definition put_value (page : page_impl) (key value : list Z) : M (txn S) unit :=
  a ← lift (leaf_accessor page.2);
  '(position, found) ← lift (LeafAccessor.position compare a key);
  _ ← lift (rassert found);
  '(_, old) ← lift (expect (LeafAccessor.entry a position));
  _ ← lift (rassert (vlen value <=? vlen old));
  mem ← lift (LeafMutator.new page.2);
  mem ← lift (LeafMutator.replace key_width value_width mem position value);
  put page.1 mem.
Fixpoint insert_inplace_helper (fuel : nat) (page : page_impl) (key value : list Z) : M (txn S) unit :=
  match fuel with
  | O => lift Panic
  | Datatypes.S f =>
      u ← is_uncommitted page.1;
      _ ← lift (rassert u);
      kind ← lift (vget page.2 0);
      if kind =? LEAF then put_value page key value
      else if kind =? BRANCH then
        a ← lift (BranchAccessor.new page.2 key_width);
        '(child_index, child_page) ← lift (BranchAccessor.child_for_key compare a key);
        mem ← on_store (get_page_mut child_page);
        _ ← insert_inplace_helper f (child_page, mem) key value;
        mem ← lift (BranchMutator.new page.2);
        mem ← lift (BranchMutator.write_child_page mem child_index (child_page, DEFERRED));
        put page.1 mem
      else lift Panic
  end.
Definition insert_inplace (fuel : nat) (root : option BtreeHeader.t) (key value : list Z) : M (txn S) (option BtreeHeader.t) :=
  header ← lift (unwrap root);
  mem ← on_store (get_page_mut (BtreeHeader.root header));
  _ ← insert_inplace_helper fuel (BtreeHeader.root header, mem) key value;
  mret (Some (BtreeHeader.mk (BtreeHeader.root header) DEFERRED (BtreeHeader.length header))).

(** ** Deletion from a leaf *)

Definition push_all_except_deleted (b : LeafBuilder.t) (a : LeafAccessor.t) (deleted_pairs : DeletedPairs) : outcome LeafBuilder.t :=
  match deleted_pairs with
  | One index => LeafBuilder.push_all_except b a (Some index)
  | Many indexes => LeafBuilder.push_all_except_indexes b a indexes
  end.

Definition plan_leaf_delete (a : LeafAccessor.t) (deleted_pairs deleted_bytes page_size : Z) : outcome LeafDeletePlan :=
  retained_pairs ← usub (LeafAccessor.num_pairs a) deleted_pairs;
  l ← LeafAccessor.length_of_pairs a 0 (LeafAccessor.num_pairs a);
  new_kv_bytes ← usub l deleted_bytes;
  let new_required_bytes := RawLeafBuilder.required_bytes retained_pairs new_kv_bytes key_width value_width in
  Ret (mk_plan retained_pairs
    (if retained_pairs =? 0 then Delete else if new_required_bytes <? page_size / 3 then Merge else Rebuild)).

Definition build_leaf_except_indexes (a : LeafAccessor.t) (indexes : list Z) : M (txn S) PageNumber.t :=
  b ← lift (LeafBuilder.push_all_except_indexes leaf_builder a indexes);
  new_page ← build_leaf b;
  mret new_page.1.

(** What becomes of a leaf that is not changed in place *)
Definition delete_result (page : page_impl) (a : LeafAccessor.t) (plan : LeafDeletePlan) (deleted_pairs : DeletedPairs) (indexes : list Z)
    : M (txn S) DeletionResult :=
  match disposition plan with
  | Delete => mret DeletedLeaf
  | Merge => mret (PartialLeaf page.2 deleted_pairs)
  | Rebuild => p ← build_leaf_except_indexes a indexes; mret (Subtree p)
  end.

(** The result, the guard of the key if it is wanted, and the guard of the value *)
Definition delete_leaf_at_position (page : page_impl) (position : Z) (want_key allow_in_place : bool)
    : M (txn S) (DeletionResult * option AccessGuard.t * AccessGuard.t) :=
  a ← lift (leaf_accessor page.2);
  _ ← lift (rassert (position <? LeafAccessor.num_pairs a));
  deleted_bytes ← lift (LeafAccessor.length_of_pairs a position (position + 1));
  size ← page_size;
  plan ← lift (plan_leaf_delete a 1 deleted_bytes size);
  u ← is_uncommitted page.1;
  if allow_in_place && u && disposition_eqb (disposition plan) Rebuild then
    '(start, end_) ← lift (expect (LeafAccessor.value_range a position));
    key_guard ← lift (if want_key then '(k, _) ← expect (LeafAccessor.entry a position); Ret (Some (AccessGuard.with_owned_value k)) else Ret None);
    mem ← on_store (get_page_mut page.1);
    len ← lift (usub end_ start);
    mret (Subtree page.1, key_guard, AccessGuard.remove_on_drop page.1 mem start len position key_width)
  else
    result ← delete_result page a plan (One position) [position];
    '(key_range, value_range) ← lift (expect (LeafAccessor.entry_ranges a position));
    if (u : bool) then
      _ ← on_store (free page.1);
      mret (result, if want_key then Some (AccessGuard.with_arc_page page.2 key_range) else None, AccessGuard.with_arc_page page.2 value_range)
    else
      _ ← push_freed page.1;
      mret (result, if want_key then Some (AccessGuard.with_page page.2 key_range) else None, AccessGuard.with_page page.2 value_range).

Definition delete_leaf_helper (page : page_impl) (key : list Z) (allow_in_place : bool) : M (txn S) (DeletionResult * option AccessGuard.t) :=
  a ← lift (leaf_accessor page.2);
  '(position, found) ← lift (LeafAccessor.position compare a key);
  if negb found then mret (Subtree page.1, None)
  else
    '(result, key_guard, value_guard) ← delete_leaf_at_position page position false allow_in_place;
    _ ← lift (rassert (match key_guard with None => true | Some _ => false end));
    mret (result, Some value_guard).

Definition delete_leaf_indexes (page : page_impl) (indexes : list Z) (allow_in_place : bool) : M (txn S) DeletionResult :=
  _ ← lift (rassert (negb (vlen indexes =? 0)));
  _ ← lift (rassert (LeafMutator.ascending indexes));
  a ← lift (leaf_accessor page.2);
  last ← lift (unwrap (last indexes));
  _ ← lift (rassert (last <? LeafAccessor.num_pairs a));
  deleted_bytes ← lift (for_each (fun index sum => l ← LeafAccessor.length_of_pairs a index (index + 1); Ret (sum + l)) indexes 0);
  size ← page_size;
  plan ← lift (plan_leaf_delete a (vlen indexes) deleted_bytes size);
  u ← is_uncommitted page.1;
  if allow_in_place && u && disposition_eqb (disposition plan) Rebuild then
    mem ← on_store (get_page_mut page.1);
    mem ← lift (LeafMutator.new mem);
    mem ← lift (LeafMutator.remove_indices key_width value_width mem indexes);
    _ ← put page.1 mem;
    mret (Subtree page.1)
  else
    result ← delete_result page a plan (Many indexes) indexes;
    _ ← conditional_free page.1;
    mret result.

(** ** Deletion from a branch *)

Definition finalize_branch_builder (builder : BranchBuilder.t) (page_size : Z) : M (txn S) DeletionResult :=
  only ← lift (BranchBuilder.to_single_child builder);
  match only with
  | Some (only_child, checksum) => mret (DeletedBranch only_child checksum)
  | None =>
      if BranchBuilder.required_bytes builder <? page_size / 3 then
        let (children, keys) := BranchBuilder.into_parts builder in mret (PartialBranch children keys)
      else
        new_page ← build_branch builder;
        mret (Subtree new_page)
  end.

(** The child is a proper subtree *)
Definition apply_subtree (page : page_impl) (a : BranchAccessor.t) (child_index : Z) (child_page_number : PageNumber.t) (child_checksum : Z)
    (new_child : PageNumber.t) : M (txn S) DeletionResult :=
  if bool_decide (new_child = child_page_number) && (child_checksum =? DEFERRED) then mret (Subtree page.1)
  else
    u ← is_uncommitted page.1;
    if (u : bool) then
      mem ← on_store (get_page_mut page.1);
      mem ← lift (BranchMutator.new mem);
      mem ← lift (BranchMutator.write_child_page mem child_index (new_child, DEFERRED));
      _ ← put page.1 mem;
      mret (Subtree page.1)
    else
      builder ← lift (BranchBuilder.push_all branch_builder a);
      builder ← lift (BranchBuilder.replace_child builder child_index (new_child, DEFERRED));
      new_page ← build_branch builder;
      _ ← conditional_free page.1;
      mret (Subtree new_page).

(** The child is gone *)
Definition push_others (a : BranchAccessor.t) (child_index : Z) : outcome BranchBuilder.t :=
  let count := BranchAccessor.count_children a in
  builder ← for_each (fun i b => if i =? child_index then Ret b else c ← BranchBuilder.read_child a i; Ret (BranchBuilder.push_child b c))
    (seqZ 0 count) branch_builder;
  m ← usub count 1;
  end_ ← (if child_index =? m then usub count 2 else Ret m);
  for_each (fun i b => if i =? child_index then Ret b else k ← expect (BranchAccessor.key a i); Ret (BranchBuilder.push_key b k))
    (seqZ 0 end_) builder.

(** The loop over the children when the child at [child_index] is merged with its sibling [merge_with]; [merged] pushes what they become *)
Definition merge_step (a : BranchAccessor.t) (child_index merge_with : Z) (merged : BranchBuilder.t -> M (txn S) BranchBuilder.t)
    (i : Z) (builder : BranchBuilder.t) : M (txn S) BranchBuilder.t :=
  if i =? child_index then mret builder
  else
    c ← lift (BranchBuilder.read_child a i);
    m ← lift (usub (BranchAccessor.count_children a) 1);
    if i =? merge_with then
      builder ← merged builder;
      let merged_key_index := Z.max child_index merge_with in
      if merged_key_index <? m then
        k ← lift (expect (BranchAccessor.key a merged_key_index)); mret (BranchBuilder.push_key builder k)
      else mret builder
    else
      let builder := BranchBuilder.push_child builder c in
      if i <? m then k ← lift (expect (BranchAccessor.key a i)); mret (BranchBuilder.push_key builder k)
      else mret builder.
Definition merge_children (a : BranchAccessor.t) (child_index merge_with : Z) (merged : BranchBuilder.t -> M (txn S) BranchBuilder.t)
    : M (txn S) BranchBuilder.t :=
  for_each_m (merge_step a child_index merge_with merged) (seqZ 0 (BranchAccessor.count_children a)) branch_builder.

(** The index of the sibling *)
Definition sibling (child_index : Z) : outcome Z := if child_index =? 0 then Ret 1 else usub child_index 1.

(** The leaf at [child_index], of which the pairs [deleted_pairs] are removed, is merged with its sibling *)
Definition merge_leaves (partial sibling : LeafAccessor.t) (deleted_pairs : DeletedPairs) (child_index merge_with : Z) (builder : BranchBuilder.t)
    : M (txn S) BranchBuilder.t :=
  b ← lift (if child_index <? merge_with then push_all_except_deleted leaf_builder partial deleted_pairs else Ret leaf_builder);
  b ← lift (LeafBuilder.push_all_except b sibling None);
  b ← lift (if merge_with <? child_index then push_all_except_deleted b partial deleted_pairs else Ret b);
  size ← page_size;
  if LeafBuilder.should_split b size then
    '(new_page1, split_key, new_page2) ← build_split_leaf b;
    mret (BranchBuilder.push_child (BranchBuilder.push_child (BranchBuilder.push_key builder split_key) (new_page1.1, DEFERRED)) (new_page2.1, DEFERRED))
  else
    new_page ← build_leaf b;
    mret (BranchBuilder.push_child builder (new_page.1, DEFERRED)).
Definition apply_partial_leaf (page : page_impl) (a : BranchAccessor.t) (child_index : Z) (partial_page : list Z) (deleted_pairs : DeletedPairs)
    : M (txn S) DeletionResult :=
  partial ← lift (leaf_accessor partial_page);
  _ ← lift (rassert (1 <? LeafAccessor.num_pairs partial));
  _ ← lift (usub (LeafAccessor.num_pairs partial) (deleted_len deleted_pairs));
  merge_with ← lift (sibling child_index);
  _ ← lift (rassert (merge_with <? BranchAccessor.count_children a));
  merge_with_page_number ← lift (expect (BranchAccessor.child_page a merge_with));
  merge_with_page ← read merge_with_page_number;
  merge_with_accessor ← lift (leaf_accessor merge_with_page.2);
  size ← page_size;
  large ← lift (single_large_value merge_with_accessor size);
  if (large : bool) then
    b ← lift (push_all_except_deleted leaf_builder partial deleted_pairs);
    new_page ← build_leaf b;
    builder ← lift (BranchBuilder.push_all branch_builder a);
    builder ← lift (BranchBuilder.replace_child builder child_index (new_page.1, DEFERRED));
    finalize_branch_builder builder size
  else
    builder ← merge_children a child_index merge_with (merge_leaves partial merge_with_accessor deleted_pairs child_index merge_with);
    result ← finalize_branch_builder builder size;
    _ ← conditional_free merge_with_page_number;
    mret result.

(** The branch at [child_index], of which [children] and [keys] are left, is merged with its sibling *)
Definition push_parts (b : BranchBuilder.t) (children : list child) (keys : list (list Z)) : BranchBuilder.t :=
  foldl BranchBuilder.push_key (foldl BranchBuilder.push_child b children) keys.
Definition merge_branches (sibling : BranchAccessor.t) (separator_key : list Z) (children : list child) (keys : list (list Z))
    (child_index merge_with : Z) (builder : BranchBuilder.t) : M (txn S) BranchBuilder.t :=
  let b := if child_index <? merge_with then BranchBuilder.push_key (push_parts branch_builder children keys) separator_key else branch_builder in
  b ← lift (BranchBuilder.push_all b sibling);
  let b := if merge_with <? child_index then push_parts (BranchBuilder.push_key b separator_key) children keys else b in
  size ← page_size;
  if BranchBuilder.should_split b size then
    '(new_page1, separator, new_page2) ← build_split_branch b;
    mret (BranchBuilder.push_child (BranchBuilder.push_key (BranchBuilder.push_child builder (new_page1, DEFERRED)) separator) (new_page2, DEFERRED))
  else
    new_page ← build_branch b;
    mret (BranchBuilder.push_child builder (new_page, DEFERRED)).
Definition apply_partial_branch (page : page_impl) (a : BranchAccessor.t) (child_index : Z) (children : list child) (keys : list (list Z))
    : M (txn S) DeletionResult :=
  merge_with ← lift (sibling child_index);
  merge_with_page_number ← lift (expect (BranchAccessor.child_page a merge_with));
  merge_with_page ← read merge_with_page_number;
  merge_with_accessor ← lift (BranchAccessor.new merge_with_page.2 key_width);
  _ ← lift (rassert (merge_with <? BranchAccessor.count_children a));
  builder ← merge_children a child_index merge_with (fun builder =>
    separator_key ← lift (expect (BranchAccessor.key a (Z.min child_index merge_with)));
    merge_branches merge_with_accessor separator_key children keys child_index merge_with builder);
  size ← page_size;
  result ← finalize_branch_builder builder size;
  _ ← conditional_free merge_with_page_number;
  mret result.

Definition apply_child_deletion_result (page : page_impl) (child_index : Z) (result : DeletionResult) : M (txn S) DeletionResult :=
  a ← lift (BranchAccessor.new page.2 key_width);
  child_page_number ← lift (expect (BranchAccessor.child_page a child_index));
  child_checksum ← lift (expect (BranchAccessor.child_checksum a child_index));
  match result with
  | Subtree new_child => apply_subtree page a child_index child_page_number child_checksum new_child
  | _ =>
      final_result ← match result with
        | Subtree _ => lift Panic
        | DeletedLeaf =>
            builder ← lift (push_others a child_index);
            size ← page_size;
            finalize_branch_builder builder size
        | PartialLeaf partial_page deleted_pairs => apply_partial_leaf page a child_index partial_page deleted_pairs
        | DeletedBranch only_grandchild grandchild_checksum =>
            apply_partial_branch page a child_index [(only_grandchild, grandchild_checksum)] []
        | PartialBranch children keys => apply_partial_branch page a child_index children keys
        end;
      _ ← conditional_free page.1;
      mret final_result
  end.

Fixpoint delete_helper (fuel : nat) (page : page_impl) (key : list Z) (allow_in_place : bool) : M (txn S) (DeletionResult * option AccessGuard.t) :=
  match fuel with
  | O => lift Panic
  | Datatypes.S f =>
      kind ← lift (vget page.2 0);
      if kind =? LEAF then delete_leaf_helper page key allow_in_place
      else if kind =? BRANCH then
        a ← lift (BranchAccessor.new page.2 key_width);
        '(child_index, child_page_number) ← lift (BranchAccessor.child_for_key compare a key);
        child ← read child_page_number;
        '(result, found) ← delete_helper f child key allow_in_place;
        match found with
        | None => mret (Subtree page.1, None)
        | Some _ =>
            final_result ← apply_child_deletion_result page child_index result;
            mret (final_result, found)
        end
      else lift Panic
  end.

(** The new root *)
Definition finish_deletion (deletion_result : DeletionResult) (new_length : Z) : M (txn S) (option BtreeHeader.t) :=
  match deletion_result with
  | Subtree page => mret (Some (BtreeHeader.mk page DEFERRED new_length))
  | DeletedLeaf => mret None
  | PartialLeaf page deleted_pairs =>
      a ← lift (leaf_accessor page);
      retained ← lift (usub (LeafAccessor.num_pairs a) (deleted_len deleted_pairs));
      b ← lift (push_all_except_deleted leaf_builder a deleted_pairs);
      new_page ← build_leaf b;
      _ ← lift (rassert (new_length =? retained));
      mret (Some (BtreeHeader.mk new_page.1 DEFERRED new_length))
  | PartialBranch children keys =>
      new_page ← build_branch (push_parts branch_builder children keys);
      mret (Some (BtreeHeader.mk new_page DEFERRED new_length))
  | DeletedBranch remaining_child checksum => mret (Some (BtreeHeader.mk remaining_child checksum new_length))
  end.

Definition delete_key (fuel : nat) (root : option BtreeHeader.t) (key : list Z) (allow_in_place : bool)
    : M (txn S) (option BtreeHeader.t * option AccessGuard.t) :=
  match root with
  | Some header =>
      page ← read (BtreeHeader.root header);
      '(deletion_result, found) ← delete_helper fuel page key allow_in_place;
      match found with
      | None => mret (root, None)
      | Some _ =>
          new_length ← lift (usub (BtreeHeader.length header) 1);
          new_root ← finish_deletion deletion_result new_length;
          mret (new_root, found)
      end
  | None => mret (None, None)
  end.
Definition delete (fuel : nat) (root : option BtreeHeader.t) (key : list Z) : M (txn S) (option BtreeHeader.t * option AccessGuard.t) :=
  delete_key fuel root key true.

(** The loop of [pop_leaf_entry] and [delete_leaf_entries] over the path from the leaf to the root *)
Definition apply_path (path : list (page_impl * Z)) (result : DeletionResult) : M (txn S) DeletionResult :=
  for_each_m (fun step result => apply_child_deletion_result step.1 step.2 result) (reverse path) result.
Definition pop_leaf_entry (root : option BtreeHeader.t) (leaf : page_impl) (path : list (page_impl * Z)) (position : Z)
    : M (txn S) (option BtreeHeader.t * (AccessGuard.t * AccessGuard.t)) :=
  header ← lift (unwrap root);
  '(result, key, value) ← delete_leaf_at_position leaf position true true;
  result ← apply_path path result;
  new_length ← lift (usub (BtreeHeader.length header) 1);
  new_root ← finish_deletion result new_length;
  key ← lift (unwrap key);
  mret (new_root, (key, value)).
Definition delete_leaf_entries (root : option BtreeHeader.t) (leaf : page_impl) (path : list (page_impl * Z)) (indexes : list Z) (allow_in_place : bool)
    : M (txn S) (option BtreeHeader.t) :=
  if vlen indexes =? 0 then mret root
  else
    header ← lift (unwrap root);
    result ← delete_leaf_indexes leaf indexes allow_in_place;
    result ← apply_path path result;
    new_length ← lift (usub (BtreeHeader.length header) (vlen indexes));
    finish_deletion result new_length.

End helper.
End MutateHelper.
