(* ===== verification/Trees.v ===== *)
(** What the pages of a B-tree (src/src/tree_store/btree_base.rs,
    btree_mutator.rs) mean: the sorted pairs they hold, the bounds that the
    separators of the branches give, and which pages belong to the tree. *)
From S2P Require Import Prelude Buddy Pages Header Types KeyOrder Leaf LeafTheorems Branch PageStore.

(** * Sorted association lists *)

Notation pair := (list Z * list Z)%type.

Section kv.
  Context {compare valid cmp} `{BO : ByteOrder compare valid cmp}.

(** What a tree promises: the map of the keys to the values, as the list of its pairs in order *)
Fixpoint kv_lookup (q : list Z) (l : list pair) : option (list Z) :=
  match l with
  | [] => None
  | (k, w) :: t => match cmp k q with Lt => kv_lookup q t | Eq => Some w | Gt => None end
  end.
Fixpoint kv_insert (q v : list Z) (l : list pair) : list pair :=
  match l with
  | [] => [(q, v)]
  | (k, w) :: t => match cmp k q with Lt => (k, w) :: kv_insert q v t | Eq => (q, v) :: t | Gt => (q, v) :: (k, w) :: t end
  end.
Fixpoint kv_remove (q : list Z) (l : list pair) : list pair :=
  match l with
  | [] => []
  | (k, w) :: t => match cmp k q with Lt => (k, w) :: kv_remove q t | Eq => t | Gt => (k, w) :: t end
  end.

(** The pairs before and after a key do not matter. *)
Lemma kv_before q v l k : below cmp q (keys_of l) ->
  kv_lookup q (l ++ k) = kv_lookup q k /\ kv_insert q v (l ++ k) = l ++ kv_insert q v k /\ kv_remove q (l ++ k) = l ++ kv_remove q k.
Proof.
  intros Hl. induction l as [|[x w] l IH]; [done|]. cbn [keys_of map] in Hl. apply Forall_cons in Hl as [H1 H2]. cbn [fst] in H1.
  destruct (IH H2) as (E1 & E2 & E3). cbn [app kv_lookup kv_insert kv_remove]. by rewrite H1, E1, E2, E3.
Qed.
Lemma kv_at q v w l : valid q -> kv_lookup q ((q, w) :: l) = Some w /\ kv_insert q v ((q, w) :: l) = (q, v) :: l /\ kv_remove q ((q, w) :: l) = l.
Proof using BO. intros Hq. cbn [kv_lookup kv_insert kv_remove]. by rewrite (cmp_refl (cmp := cmp)). Qed.
Lemma kv_none q v l : valid q -> Forall valid (keys_of l) -> above cmp q (keys_of l) ->
  kv_lookup q l = None /\ kv_insert q v l = (q, v) :: l /\ kv_remove q l = l.
Proof using BO.
  intros Hq Hv Ha. destruct l as [|[k w] l]; [done|]. cbn [keys_of map fst] in Ha, Hv. apply Forall_cons in Ha as [Ha _]. apply Forall_cons in Hv as [Hv _].
  cbn [kv_lookup kv_insert kv_remove]. apply (cmp_gt (cmp := cmp)) in Ha; [|done|done]. cbn [fst] in Ha. by rewrite Ha.
Qed.
Lemma kv_after q v l k : valid q -> Forall valid (keys_of k) -> above cmp q (keys_of k) ->
  kv_lookup q (l ++ k) = kv_lookup q l /\ kv_insert q v (l ++ k) = kv_insert q v l ++ k /\ kv_remove q (l ++ k) = kv_remove q l ++ k.
Proof using BO.
  intros Hq Hv Ha. induction l as [|[x w] l IH]; [by apply kv_none|]. destruct IH as (E1 & E2 & E3).
  cbn [app kv_lookup kv_insert kv_remove]. destruct (cmp x q); by rewrite ?E1, ?E2, ?E3.
Qed.

(** A key divides a sorted list. *)
Lemma kv_split q l : valid q -> Forall valid (keys_of l) -> sorted cmp (keys_of l) ->
  exists l1 l2, below cmp q (keys_of l1) /\ above cmp q (keys_of l2) /\ (l = l1 ++ l2 \/ exists w, l = l1 ++ (q, w) :: l2).
Proof using BO.
  intros Hq. induction l as [|[k w] l IH]; cbn [keys_of map fst sorted]; intros Hv Hs.
  - exists [], []. split; [constructor|]. split; [constructor|by left].
  - apply Forall_cons in Hv as [Hk Hv]. destruct Hs as [Ha Hs]. destruct (cmp k q) eqn:E.
    + apply (@bo_eq _ _ _ BO) in E as ->; [|done..]. exists [], l. split; [constructor|]. split; [done|]. right. by exists w.
    + destruct (IH Hv Hs) as (l1 & l2 & H1 & H2 & H3). exists ((k, w) :: l1), l2. split; [by constructor|]. split; [done|].
      destruct H3 as [->|[x ->]]; [by left|right; by exists x].
    + apply (cmp_gt (cmp := cmp)) in E; [|done|done]. exists [], ((k, w) :: l). split; [constructor|]. split; [|by left].
      constructor; [done|]. by apply (above_trans (cmp := cmp) q k).
Qed.

Lemma keys_not_elem q l : valid q -> Forall valid (keys_of l) -> below cmp q (keys_of l) \/ above cmp q (keys_of l) -> q ∉ keys_of l.
Proof using BO.
  intros Hq Hv Hor Hin. unfold below, above in Hor. rewrite !Forall_forall in Hor. pose proof (cmp_refl (cmp := cmp) q Hq) as E.
  destruct Hor as [H|H]; specialize (H q Hin); cbn beta in H; congruence.
Qed.

(** The operations are those of finite maps. *)
Lemma kv_map q v l : valid q -> Forall valid (keys_of l) -> sorted cmp (keys_of l) ->
  (list_to_map l : gmap (list Z) (list Z)) !! q = kv_lookup q l /\
  list_to_map (kv_insert q v l) = <[q := v]> (list_to_map l : gmap (list Z) (list Z)) /\
  list_to_map (kv_remove q l) = delete q (list_to_map l : gmap (list Z) (list Z)).
Proof using BO.
  intros Hq Hv Hs. destruct (kv_split q l Hq Hv Hs) as (l1 & l2 & H1 & H2 & [->|[w ->]]).
  - rewrite keys_app, Forall_app in Hv. destruct Hv as [V1 V2].
    assert (N1 : (list_to_map l1 : gmap (list Z) (list Z)) !! q = None) by (apply not_elem_of_list_to_map_1, (keys_not_elem q l1); auto).
    assert (N2 : (list_to_map l2 : gmap (list Z) (list Z)) !! q = None) by (apply not_elem_of_list_to_map_1, (keys_not_elem q l2); auto).
    destruct (kv_before q v l1 l2 H1) as (-> & -> & ->). destruct (kv_none q v l2 Hq V2 H2) as (-> & -> & ->).
    rewrite !list_to_map_app. cbn [list_to_map foldr]. rewrite lookup_union_None_2 by done. split; [done|]. split.
    + cbn. by rewrite insert_union_r.
    + rewrite delete_id; [done|]. by apply lookup_union_None_2.
  - rewrite keys_app, Forall_app in Hv. destruct Hv as [V1 V2]. cbn [keys_of map fst] in V2. apply Forall_cons in V2 as [_ V2].
    assert (N1 : (list_to_map l1 : gmap (list Z) (list Z)) !! q = None) by (apply not_elem_of_list_to_map_1, (keys_not_elem q l1); auto).
    assert (N2 : (list_to_map l2 : gmap (list Z) (list Z)) !! q = None) by (apply not_elem_of_list_to_map_1, (keys_not_elem q l2); auto).
    destruct (kv_before q v l1 ((q, w) :: l2) H1) as (-> & -> & ->). destruct (kv_at q v w l2 Hq) as (-> & -> & ->).
    rewrite !list_to_map_app. cbn. rewrite <-!insert_union_r, lookup_insert_eq, insert_insert_eq by done. split; [done|]. split; [done|].
    rewrite delete_insert_id; [done|]. by apply lookup_union_None_2.
Qed.

Lemma kv_insert_length q v l : vlen (kv_insert q v l) = vlen l + match kv_lookup q l with Some _ => 0 | None => 1 end.
Proof.
  induction l as [|[k w] l IH]; [done|]. cbn [kv_insert kv_lookup]. destruct (cmp k q); rewrite !vlen_cons in *; [lia|rewrite IH; lia|lia].
Qed.
Lemma kv_remove_length q l : vlen (kv_remove q l) = vlen l - match kv_lookup q l with Some _ => 1 | None => 0 end.
Proof.
  induction l as [|[k w] l IH]; [done|]. cbn [kv_remove kv_lookup]. destruct (cmp k q); rewrite !vlen_cons in *; [lia|rewrite IH; lia|lia].
Qed.
Lemma kv_remove_none q l : kv_lookup q l = None -> kv_remove q l = l.
Proof. induction l as [|[k w] l IH]; [done|]. cbn [kv_remove kv_lookup]. destruct (cmp k q); [done|intros Hl; by rewrite IH|done]. Qed.

(** They keep lists sorted. *)
Lemma kv_insert_keys q v l : valid q -> Forall valid (keys_of l) -> sorted cmp (keys_of l) ->
  Forall valid (keys_of (kv_insert q v l)) /\ sorted cmp (keys_of (kv_insert q v l)) /\
  forall R : list Z -> Prop, R q -> Forall R (keys_of l) -> Forall R (keys_of (kv_insert q v l)).
Proof using BO.
  intros Hq Hv Hs. destruct (kv_split q l Hq Hv Hs) as (l1 & l2 & H1 & H2 & [->|[w ->]]); rewrite keys_app in *; cbn [keys_of map fst] in *; fold (keys_of l2) in *.
  - rewrite Forall_app in Hv. destruct Hv as [V1 V2]. destruct (kv_before q v l1 l2 H1) as (_ & -> & _). destruct (kv_none q v l2 Hq V2 H2) as (_ & -> & _).
    rewrite keys_app. cbn [keys_of map fst]. fold (keys_of l2). split; [by apply Forall_app; split; [|constructor]|]. split; [by apply (sorted_insert (cmp := cmp))|].
    intros R HR. rewrite !Forall_app, Forall_cons. tauto.
  - destruct (kv_before q v l1 ((q, w) :: l2) H1) as (_ & -> & _). destruct (kv_at q v w l2 Hq) as (_ & -> & _).
    rewrite keys_app. cbn [keys_of map fst]. done.
Qed.
Lemma kv_remove_keys q l : valid q -> Forall valid (keys_of l) -> sorted cmp (keys_of l) ->
  Forall valid (keys_of (kv_remove q l)) /\ sorted cmp (keys_of (kv_remove q l)) /\
  forall R : list Z -> Prop, Forall R (keys_of l) -> Forall R (keys_of (kv_remove q l)).
Proof using BO.
  intros Hq Hv Hs. destruct (kv_split q l Hq Hv Hs) as (l1 & l2 & H1 & H2 & [->|[w ->]]); rewrite keys_app in *; cbn [keys_of map fst] in *; fold (keys_of l2) in *.
  - rewrite Forall_app in Hv. destruct Hv as [V1 V2]. destruct (kv_before q [] l1 l2 H1) as (_ & _ & ->). destruct (kv_none q [] l2 Hq V2 H2) as (_ & _ & ->).
    rewrite keys_app. split; [by apply Forall_app|]. done.
  - destruct (kv_before q [] l1 ((q, w) :: l2) H1) as (_ & _ & ->). destruct (kv_at q [] w l2 Hq) as (_ & _ & ->).
    rewrite keys_app. rewrite Forall_app, Forall_cons in Hv. split; [apply Forall_app; tauto|]. split; [by eapply (sorted_remove (cmp := cmp))|].
    intros R. rewrite !Forall_app, Forall_cons. tauto.
Qed.

(** ** Comparisons *)

Lemma cmp_le_lt a b c : valid a -> valid b -> valid c -> cmp a b <> Gt -> cmp b c = Lt -> cmp a c = Lt.
Proof using BO.
  intros Ha Hb Hc H1 H2. destruct (cmp a b) eqn:E; [|by apply (@bo_trans _ _ _ BO a b c)|done]. apply (@bo_eq _ _ _ BO) in E as ->; done.
Qed.
Lemma cmp_lt_le a b c : valid a -> valid b -> valid c -> cmp a b = Lt -> cmp b c <> Gt -> cmp a c = Lt.
Proof using BO.
  intros Ha Hb Hc H1 H2. destruct (cmp b c) eqn:E; [|by apply (@bo_trans _ _ _ BO a b c)|done]. apply (@bo_eq _ _ _ BO) in E as <-; done.
Qed.
Lemma cmp_le_trans a b c : valid a -> valid b -> valid c -> cmp a b <> Gt -> cmp b c <> Gt -> cmp a c <> Gt.
Proof using BO.
  intros Ha Hb Hc H1 H2. destruct (cmp b c) eqn:E; [|by rewrite (cmp_le_lt a b c)|done]. apply (@bo_eq _ _ _ BO) in E as ->; done.
Qed.
End kv.
#[global] Arguments kv_lookup cmp q l : clear implicits.
#[global] Arguments kv_insert cmp q v l : clear implicits.
#[global] Arguments kv_remove cmp q l : clear implicits.

(** * Forests *)

(** A bound of the keys below a page: a separator, or none *)
Notation bound := (option (list Z)).
(** What is below a child: the bounds of its keys, the child, its pairs and its pages *)
Notation below_child := (bound -> bound -> child -> list pair -> list PageNumber.t -> Prop).

Section forest.
  Context {compare valid cmp} `{BO : ByteOrder compare valid cmp}.

Definition above_lo (lo : bound) (k : list Z) : Prop := match lo with Some l => cmp l k = Lt | None => True end.
Definition below_hi (hi : bound) (k : list Z) : Prop := match hi with Some h => cmp k h <> Gt | None => True end.
Definition in_range (lo hi : bound) (k : list Z) : Prop := above_lo lo k /\ below_hi hi k.
Definition bound_ok (b : bound) : Prop := match b with Some k => valid k | None => True end.

(** Wider bounds *)
Definition lo_le (lo' lo : bound) : Prop := forall k, valid k -> above_lo lo k -> above_lo lo' k.
Definition hi_le (hi hi' : bound) : Prop := forall k, valid k -> below_hi hi k -> below_hi hi' k.

Section children.
  Context (T : below_child).

(** Children and the separators between them *)
Inductive forest : bound -> bound -> list child -> list (list Z) -> list pair -> list PageNumber.t -> Prop :=
| forest_one lo hi c L P : T lo hi c L P -> forest lo hi [c] [] L P
| forest_cons lo k hi c cs ks L1 L2 P1 P2 : T lo (Some k) c L1 P1 -> valid k -> forest (Some k) hi cs ks L2 P2 ->
    forest lo hi (c :: cs) (k :: ks) (L1 ++ L2) (P1 ++ P2).
(** The children before a child, each with the separator after it *)
Inductive prefix : bound -> bound -> list child -> list (list Z) -> list pair -> list PageNumber.t -> Prop :=
| prefix_nil lo : prefix lo lo [] [] [] []
| prefix_cons lo k lo' c cs ks L1 L2 P1 P2 : T lo (Some k) c L1 P1 -> valid k -> prefix (Some k) lo' cs ks L2 P2 ->
    prefix lo lo' (c :: cs) (k :: ks) (L1 ++ L2) (P1 ++ P2).
(** The children after a child, each with the separator before it *)
Inductive suffix : bound -> bound -> list child -> list (list Z) -> list pair -> list PageNumber.t -> Prop :=
| suffix_nil hi : suffix hi hi [] [] [] []
| suffix_cons k hi cs ks L P : valid k -> forest (Some k) hi cs ks L P -> suffix (Some k) hi cs (k :: ks) L P.

Lemma forest_length lo hi cs ks L P : forest lo hi cs ks L P -> length cs = S (length ks).
Proof. induction 1; simpl; lia. Qed.
Lemma prefix_length lo lo' cs ks L P : prefix lo lo' cs ks L P -> length cs = length ks.
Proof. induction 1; simpl; lia. Qed.
Lemma suffix_length hi hi' cs ks L P : suffix hi hi' cs ks L P -> length cs = length ks.
Proof. destruct 1 as [|? ? ? ? ? ? ? H%forest_length]; simpl; lia. Qed.

Lemma suffix_inv hi' hi cs ks L P : suffix hi' hi cs ks L P ->
  (cs = [] /\ ks = [] /\ L = [] /\ P = [] /\ hi' = hi) \/ (exists k kr, ks = k :: kr /\ hi' = Some k /\ valid k /\ forest (Some k) hi cs kr L P).
Proof. destruct 1; [by left|right]. by eexists _, _. Qed.

Lemma forest_suffix lo k hi c cs ks L1 L2 P1 P2 : T lo k c L1 P1 -> suffix k hi cs ks L2 P2 -> forest lo hi (c :: cs) ks (L1 ++ L2) (P1 ++ P2).
Proof. intros H1 H2. destruct H2; [rewrite !app_nil_r; by constructor|by constructor]. Qed.
Lemma suffix_app lo hi' hi cs ks L P cs2 ks2 L2 P2 : forest lo hi' cs ks L P -> suffix hi' hi cs2 ks2 L2 P2 ->
  forest lo hi (cs ++ cs2) (ks ++ ks2) (L ++ L2) (P ++ P2).
Proof.
  induction 1; intros Hs; cbn [app]; [by eapply forest_suffix|]. rewrite <-!app_assoc. constructor; auto.
Qed.
(** A child can be replaced by any number of children. *)
Lemma forest_plug lo lo' hi' hi C1 K1 La Pa cs ks L P C2 K2 Lb Pb :
  prefix lo lo' C1 K1 La Pa -> forest lo' hi' cs ks L P -> suffix hi' hi C2 K2 Lb Pb ->
  forest lo hi (C1 ++ cs ++ C2) (K1 ++ ks ++ K2) (La ++ L ++ Lb) (Pa ++ P ++ Pb).
Proof.
  intros H1 H2 H3. induction H1; cbn [app]; [by eapply suffix_app|]. rewrite <-!app_assoc. constructor; auto.
Qed.
Lemma forest_focus lo hi C1 c C2 K1 K2 L P : forest lo hi (C1 ++ c :: C2) (K1 ++ K2) L P -> length C1 = length K1 ->
  exists lo' hi' La Lc Lb Pa Pc Pb, prefix lo lo' C1 K1 La Pa /\ T lo' hi' c Lc Pc /\ suffix hi' hi C2 K2 Lb Pb /\
    L = La ++ Lc ++ Lb /\ P = Pa ++ Pc ++ Pb.
Proof.
  revert K1 lo L P. induction C1 as [|d C1 IH]; intros K1 lo L P HF Hl; destruct K1 as [|k K1]; try done; cbn [app] in HF.
  - inversion HF; subst.
    + exists lo, hi, [], L, [], [], P, []. rewrite !app_nil_r. split; [constructor|]. split; [done|]. split; [constructor|done].
    + eexists lo, (Some k), [], _, _, [], _, _. split; [constructor|]. split; [done|]. split; [by constructor|done].
  - inversion HF as [|? ? ? ? ? ? L1 L2 P1 P2 HT Hk HF']; subst. injection Hl as Hl.
    destruct (IH _ _ _ _ HF' Hl) as (lo' & hi' & La & Lc & Lb & Pa & Pc & Pb & H1 & H2 & H3 & -> & ->).
    exists lo', hi', (L1 ++ La), Lc, Lb, (P1 ++ Pa), Pc, Pb. split; [by constructor|]. split; [done|]. split; [done|]. by rewrite <-!app_assoc.
Qed.
(** Two neighbours *)
Lemma forest_focus2 lo hi C1 c d C2 K1 k K2 L P : forest lo hi (C1 ++ c :: d :: C2) (K1 ++ k :: K2) L P -> length C1 = length K1 ->
  exists lo' hi' La L1 L2 Lb Pa P1 P2 Pb, prefix lo lo' C1 K1 La Pa /\ T lo' (Some k) c L1 P1 /\ valid k /\ T (Some k) hi' d L2 P2 /\
    suffix hi' hi C2 K2 Lb Pb /\ L = La ++ (L1 ++ L2) ++ Lb /\ P = Pa ++ (P1 ++ P2) ++ Pb.
Proof.
  intros HF Hl. destruct (forest_focus _ _ _ _ _ _ _ _ _ HF Hl) as (lo' & hi' & La & Lc & Lb & Pa & Pc & Pb & H1 & H2 & H3 & -> & ->).
  inversion H3 as [|? ? ? ? ? ? Hk HF2]; subst. destruct (forest_focus _ _ [] d C2 [] K2 _ _ HF2 eq_refl) as (lo2 & hi2 & La2 & Ld & Lb2 & Pa2 & Pd & Pb2 & G1 & G2 & G3 & -> & ->).
  inversion G1; subst. exists lo', hi2, La, Lc, Ld, Lb2, Pa, Pc, Pd, Pb2. rewrite <-!app_assoc. done.
Qed.
(** A forest divides at a separator, and two forests are joined by one. *)
Lemma forest_split lo hi C1 C2 K1 k K2 L P : forest lo hi (C1 ++ C2) (K1 ++ k :: K2) L P -> length C1 = S (length K1) ->
  exists L1 L2 P1 P2, forest lo (Some k) C1 K1 L1 P1 /\ valid k /\ forest (Some k) hi C2 K2 L2 P2 /\ L = L1 ++ L2 /\ P = P1 ++ P2.
Proof.
  intros HF Hl. destruct C1 as [|c C1 _] using rev_ind; [done|]. rewrite length_app in Hl. cbn [length] in Hl.
  rewrite <-app_assoc in HF. destruct (forest_focus _ _ _ _ _ _ _ _ _ HF ltac:(lia)) as (lo' & hi' & La & Lc & Lb & Pa & Pc & Pb & H1 & H2 & H3 & -> & ->).
  inversion H3; subst. exists (La ++ Lc), Lb, (Pa ++ Pc), Pb. split.
  - pose proof (forest_plug _ _ _ _ _ _ _ _ _ _ _ _ _ _ _ _ H1 (forest_one _ _ _ _ _ H2) (suffix_nil _)) as H. rewrite !app_nil_r in H. exact H.
  - rewrite <-!app_assoc. done.
Qed.
Lemma forest_join lo hi C1 C2 K1 k K2 L1 L2 P1 P2 : forest lo (Some k) C1 K1 L1 P1 -> valid k -> forest (Some k) hi C2 K2 L2 P2 ->
  forest lo hi (C1 ++ C2) (K1 ++ k :: K2) (L1 ++ L2) (P1 ++ P2).
Proof. intros H1 Hk H2. eapply suffix_app; [done|by constructor]. Qed.

(** The children before a child are a forest. *)
Lemma prefix_forest lo lo' cs ks k L P : prefix lo lo' cs (ks ++ [k]) L P -> lo' = Some k /\ valid k /\ forest lo (Some k) cs ks L P.
Proof.
  revert lo cs L P. induction ks as [|k1 ks IH]; intros lo cs L P HP; cbn [app] in HP; inversion HP as [|? ? ? ? ? ? ? ? ? ? HT Hk HP']; subst.
  - inversion HP'; subst. rewrite !app_nil_r. split; [done|]. split; [done|]. by constructor.
  - destruct (IH _ _ _ _ HP') as (-> & Vk & HF). split; [done|]. split; [done|]. by constructor.
Qed.
(** The pairs and pages of the children one by one *)
Lemma forest_parts lo hi cs ks L P : forest lo hi cs ks L P -> exists Ls Ps, length Ls = length cs /\ length Ps = length cs /\ L = concat Ls /\ P = concat Ps /\
  forall i c, cs !! i = Some c -> exists lo' hi' Li Pi, Ls !! i = Some Li /\ Ps !! i = Some Pi /\ T lo' hi' c Li Pi.
Proof.
  induction 1 as [lo hi c L P HT|lo k hi c cs ks L1 L2 P1 P2 HT Hk HF (Ls & Ps & H1 & H2 & -> & -> & H3)].
  - exists [L], [P]. cbn. rewrite !app_nil_r. repeat split. intros [|[|]] d [=]. subst d. exists lo, hi, L, P. done.
  - exists (L1 :: Ls), (P1 :: Ps). cbn. rewrite H1, H2. repeat split. intros [|i] d; cbn; [intros [= <-]; by exists lo, (Some k), L1, P1|apply H3].
Qed.
Lemma prefix_snoc lo lo' cs c ks k L P : prefix lo lo' (cs ++ [c]) (ks ++ [k]) L P ->
  exists lo2 L1 L2 P1 P2, prefix lo lo2 cs ks L1 P1 /\ T lo2 (Some k) c L2 P2 /\ valid k /\ lo' = Some k /\ L = L1 ++ L2 /\ P = P1 ++ P2.
Proof.
  revert lo cs L P. induction ks as [|k1 ks IH]; intros lo cs L P HP; cbn [app] in HP; pose proof (prefix_length _ _ _ _ _ _ HP) as Hlen; rewrite length_app in Hlen; simpl in Hlen.
  - destruct cs; [|simpl in Hlen; lia]. cbn [app] in HP. inversion HP as [|? ? ? ? ? ? L1 L2 P1 P2 HT Hk HP']; subst. inversion HP'; subst.
    exists lo, [], L1, [], P1. rewrite !app_nil_r. split; [constructor|]. done.
  - destruct cs as [|c1 cs]; [rewrite length_app in Hlen; simpl in Hlen; lia|]. cbn [app] in HP. inversion HP as [|? ? ? ? ? ? L1 L2 P1 P2 HT Hk HP']; subst.
    destruct (IH _ _ _ _ HP') as (lo2 & M1 & M2 & Q1 & Q2 & H1 & H2 & H3 & H4 & -> & ->). exists lo2, (L1 ++ M1), M2, (P1 ++ Q1), Q2. rewrite <-!app_assoc.
    split; [by constructor|]. done.
Qed.
Lemma forest_children lo hi cs ks L P (R : child -> Prop) : (forall lo hi c L P, T lo hi c L P -> R c) -> forest lo hi cs ks L P -> Forall R cs.
Proof. intros HR. induction 1; eauto. Qed.
Lemma forest_pages lo hi cs ks L P (R : PageNumber.t -> Prop) : (forall lo hi c L P, T lo hi c L P -> Forall R P) -> forest lo hi cs ks L P -> Forall R P.
Proof. intros HR. induction 1; [eauto|apply Forall_app; eauto]. Qed.
Lemma prefix_pages lo lo' cs ks L P (R : PageNumber.t -> Prop) : (forall lo hi c L P, T lo hi c L P -> Forall R P) -> prefix lo lo' cs ks L P -> Forall R P.
Proof. intros HR. induction 1; [constructor|apply Forall_app; eauto]. Qed.
Lemma suffix_pages hi' hi cs ks L P (R : PageNumber.t -> Prop) : (forall lo hi c L P, T lo hi c L P -> Forall R P) -> suffix hi' hi cs ks L P -> Forall R P.
Proof. intros HR. destruct 1; [constructor|by eapply forest_pages]. Qed.
End children.

(** What is below the children may change. *)
Section mono.
  Context (T T' : below_child).
Lemma forest_mono_at lo hi cs ks L P : forest T lo hi cs ks L P ->
  (forall lo hi c L P0, c ∈ cs -> P0 ⊆ P -> T lo hi c L P0 -> T' lo hi c L P0) -> forest T' lo hi cs ks L P.
Proof.
  induction 1; intros HT; constructor; auto; [apply HT; [left|done|done]|apply HT; [left|set_solver|done]|].
  apply IHforest. intros. apply HT; [by right|set_solver|done].
Qed.
Lemma forest_mono lo hi cs ks L P : forest T lo hi cs ks L P ->
  (forall lo hi c L P0, P0 ⊆ P -> T lo hi c L P0 -> T' lo hi c L P0) -> forest T' lo hi cs ks L P.
Proof. intros HF HT. eapply forest_mono_at; [done|]. intros. by apply HT. Qed.
Lemma prefix_mono lo hi cs ks L P : prefix T lo hi cs ks L P ->
  (forall lo hi c L P0, P0 ⊆ P -> T lo hi c L P0 -> T' lo hi c L P0) -> prefix T' lo hi cs ks L P.
Proof.
  induction 1; intros HT; constructor; auto; [apply HT; [set_solver|done]|]. apply IHprefix. intros. apply HT; [set_solver|done].
Qed.
Lemma suffix_mono lo hi cs ks L P : suffix T lo hi cs ks L P ->
  (forall lo hi c L P0, P0 ⊆ P -> T lo hi c L P0 -> T' lo hi c L P0) -> suffix T' lo hi cs ks L P.
Proof. destruct 1; intros HT; constructor; auto. by eapply forest_mono. Qed.
End mono.

(** ** The order *)

(** The pairs below a child are in order and within the bounds, and there are some. *)
Record pairs_ok (lo hi : bound) (L : list pair) : Prop := {
  pairs_lo : bound_ok lo;
  pairs_hi : bound_ok hi;
  pairs_some : L <> [];
  pairs_valid : Forall valid (keys_of L);
  pairs_sorted : sorted cmp (keys_of L);
  pairs_range : Forall (in_range lo hi) (keys_of L) }.

Lemma pairs_ok_first lo hi L : pairs_ok lo hi L -> exists k, k ∈ keys_of L /\ valid k /\ in_range lo hi k.
Proof.
  intros [_ _ Hn Hv _ Hr]. destruct L as [|[k v] L]; [done|]. exists k. cbn [keys_of map fst] in *. rewrite Forall_cons in Hv, Hr. split; [left|]. tauto.
Qed.
(** There is a key between the bounds. *)
Lemma pairs_ok_bounds lo k L : pairs_ok lo (Some k) L -> above_lo lo k.
Proof using BO.
  intros Ho. destruct (Ho) as [Hlo Hk _ _ _ _]. destruct lo as [l|]; [|done]. destruct (pairs_ok_first _ _ _ Ho) as (x & _ & Hx & H1 & H2). cbn in *.
  by apply (cmp_lt_le (cmp := cmp) l x k).
Qed.
Lemma in_range_join_l lo k hi x : valid k -> valid x -> bound_ok hi -> (exists y, valid y /\ in_range (Some k) hi y) ->
  in_range lo (Some k) x -> in_range lo hi x.
Proof using BO.
  intros Hk Hx Hhi (y & Hy & [Y1 Y2]) [H1 H2]. split; [done|]. destruct hi as [h|]; [|done]. cbn in *.
  rewrite (cmp_lt_le (cmp := cmp) x y h); try done. by apply (cmp_le_lt (cmp := cmp) x k y).
Qed.
Lemma in_range_join_r lo k hi x : valid k -> valid x -> bound_ok lo -> above_lo lo k -> in_range (Some k) hi x -> in_range lo hi x.
Proof using BO.
  intros Hk Hx Hlo Hl [H1 H2]. split; [|done]. destruct lo as [l|]; [|done]. cbn in *. by apply (@bo_trans _ _ _ BO l k x).
Qed.
Lemma pairs_ok_app lo k hi L1 L2 : pairs_ok lo (Some k) L1 -> pairs_ok (Some k) hi L2 -> pairs_ok lo hi (L1 ++ L2).
Proof using BO.
  intros H1 H2. pose proof (pairs_ok_bounds _ _ _ H1) as Hl. pose proof (pairs_ok_first _ _ _ H2) as (y & _ & Hy & Hry).
  destruct H1 as [Hlo Hk N1 V1 S1 R1], H2 as [_ Hhi N2 V2 S2 R2]. split; rewrite ?keys_app; [done|done|..].
  - by destruct L1.
  - by apply Forall_app.
  - apply sorted_app. split; [done|]. split; [done|]. rewrite Forall_forall in *. intros x Hx. apply Forall_forall. intros z Hz.
    specialize (R1 x Hx). specialize (R2 z Hz). apply (cmp_le_lt (cmp := cmp) x k z); [by apply V1|done|by apply V2|apply R1|apply R2].
  - rewrite Forall_forall in *. intros x [Hx|Hx]%elem_of_app.
    + apply (in_range_join_l lo k hi); auto. by exists y.
    + apply (in_range_join_r lo k hi); auto.
Qed.
Lemma pairs_ok_sub lo hi A L B : pairs_ok lo hi (A ++ L ++ B) -> L <> [] -> pairs_ok lo hi L.
Proof.
  intros [Hlo Hhi _ V S0 R] Hn. rewrite !keys_app in V, S0, R. split; [done|done|done|..].
  - rewrite !Forall_app in V. tauto.
  - apply sorted_app in S0 as (_ & S0 & _). apply sorted_app in S0. tauto.
  - rewrite !Forall_app in R. tauto.
Qed.

Section forest_ok.
  Context (T : below_child) (HT : forall lo hi c L P, T lo hi c L P -> pairs_ok lo hi L).

Lemma forest_pairs_ok lo hi cs ks L P : forest T lo hi cs ks L P -> pairs_ok lo hi L.
Proof using BO HT. induction 1; intros; [by eapply HT|]. eapply pairs_ok_app; eauto. Qed.
Lemma forest_keys lo hi cs ks L P : forest T lo hi cs ks L P ->
  Forall valid ks /\ sorted cmp ks /\ Forall (in_range lo hi) ks.
Proof using BO HT.
  induction 1 as [|lo k hi c cs ks L1 L2 P1 P2 H1 Hk HF IH]; [repeat constructor|]. destruct IH as (V & S0 & R).
  pose proof (pairs_ok_bounds _ _ _ (HT _ _ _ _ _ H1)) as Hl. pose proof (pairs_lo _ _ _ (HT _ _ _ _ _ H1)) as Hlo. pose proof (forest_pairs_ok _ _ _ _ _ _ HF) as Ho.
  pose proof (pairs_hi _ _ _ Ho) as Hhi. pose proof (pairs_ok_first _ _ _ Ho) as (y & _ & Hy & Hry).
  split; [by constructor|]. split; [split; [|done]; eapply Forall_impl; [exact R|]; intros x Hx; apply Hx|]. constructor.
  - apply (in_range_join_l lo k hi); [done|done|done|by exists y|]. split; [done|]. cbn. by rewrite (cmp_refl (cmp := cmp)).
  - rewrite Forall_forall in *. intros x Hx. apply (in_range_join_r lo k hi); auto.
Qed.
(** The keys before a child are up to its lower bound, those after it are above its upper bound. *)
Lemma prefix_ok lo lo' cs ks L P : prefix T lo lo' cs ks L P -> bound_ok lo ->
  bound_ok lo' /\ Forall valid (keys_of L) /\ (forall l, lo = Some l -> exists l', lo' = Some l' /\ cmp l l' <> Gt) /\
  Forall (fun x => exists l', lo' = Some l' /\ cmp x l' <> Gt) (keys_of L).
Proof using BO HT.
  induction 1 as [|lo k lo' c cs ks L1 L2 P1 P2 H1 Hk HF IH]; intros Hlo.
  { split; [done|]. split; [constructor|]. split; [|constructor]. intros l ->. exists l. split; [done|]. by rewrite (cmp_refl (cmp := cmp)). }
  destruct (IH Hk) as (V & S0 & E1 & E2). destruct (E1 k eq_refl) as (l' & -> & Hl). pose proof (HT _ _ _ _ _ H1) as Ho. pose proof (pairs_ok_bounds _ _ _ Ho) as Hlk.
  split; [done|]. rewrite keys_app. split; [apply Forall_app; split; [apply Ho|done]|]. split.
  - intros l ->. exists l'. split; [done|]. cbn in *. by rewrite (cmp_lt_le (cmp := cmp) l k l').
  - apply Forall_app. split; [|done]. destruct Ho as [_ _ _ Hv _ Hr]. rewrite Forall_forall in *. intros x Hx. exists l'. split; [done|].
    destruct (Hr x Hx) as [_ Hxk]. cbn in Hxk. apply (cmp_le_trans x k l'); auto.
Qed.
Lemma suffix_ok hi' hi cs ks L P : suffix T hi' hi cs ks L P -> bound_ok hi ->
  bound_ok hi' /\ Forall valid (keys_of L) /\ Forall (fun x => exists h, hi' = Some h /\ cmp h x = Lt) (keys_of L) /\
  (forall x, valid x -> below_hi hi' x -> below_hi hi x).
Proof using BO HT.
  destruct 1 as [|k hi cs ks L P Hk HF]; intros Hhi.
  { split; [done|]. split; [constructor|]. split; [constructor|done]. }
  pose proof (forest_pairs_ok _ _ _ _ _ _ HF) as Ho. destruct (pairs_ok_first _ _ _ Ho) as (y & _ & Hy & [Y1 Y2]). cbn in Y1.
  split; [done|]. split; [apply Ho|]. split.
  - destruct Ho as [_ _ _ _ _ Hr]. eapply Forall_impl; [exact Hr|]. intros x [Hx _]. by exists k.
  - intros x Hx Hxk. destruct hi as [h|]; [|done]. cbn in *. rewrite (cmp_lt_le (cmp := cmp) x y h); try done. by apply (cmp_le_lt (cmp := cmp) x k y).
Qed.
(** The search ends at the child whose bounds the key is within. *)
Lemma focus_range lo lo' hi' hi C1 K1 La Pa C2 K2 Lb Pb q : prefix T lo lo' C1 K1 La Pa -> suffix T hi' hi C2 K2 Lb Pb ->
  in_range lo hi q -> below cmp q K1 -> not_below (cmp := cmp) q K2 -> in_range lo' hi' q.
Proof.
  intros H1 H2 [Hq1 Hq2] Hb Hn. split.
  - clear -H1 Hq1 Hb. induction H1; [done|]. apply Forall_cons in Hb as [? ?]. by apply IHprefix.
  - destruct H2; [done|]. by apply Forall_cons in Hn as [? _].
Qed.
(** The operations on the pairs of a forest are those on the pairs of that child. *)
Lemma focus_kv lo lo' hi' hi C1 K1 La Pa C2 K2 Lb Pb q v L : prefix T lo lo' C1 K1 La Pa -> suffix T hi' hi C2 K2 Lb Pb ->
  bound_ok lo -> bound_ok hi -> valid q -> in_range lo' hi' q ->
  kv_lookup cmp q (La ++ L ++ Lb) = kv_lookup cmp q L /\ kv_insert cmp q v (La ++ L ++ Lb) = La ++ kv_insert cmp q v L ++ Lb /\
  kv_remove cmp q (La ++ L ++ Lb) = La ++ kv_remove cmp q L ++ Lb.
Proof using BO HT.
  intros H1 H2 Hlo Hhi Hq [Hq1 Hq2]. destruct (prefix_ok _ _ _ _ _ _ H1 Hlo) as (B1 & V1 & _ & R1). destruct (suffix_ok _ _ _ _ _ _ H2 Hhi) as (B2 & V2 & R2 & _).
  destruct (kv_before (cmp := cmp) q v La (L ++ Lb)) as (-> & -> & ->).
  { unfold below. rewrite Forall_forall in *. intros x Hx. destruct (R1 x Hx) as (l' & -> & Hl). cbn in Hq1. apply (cmp_le_lt (cmp := cmp) x l' q); auto. }
  destruct (kv_after (cmp := cmp) q v L Lb Hq V2) as (-> & -> & ->); [|done].
  unfold above. rewrite Forall_forall in *. intros x Hx. destruct (R2 x Hx) as (h & -> & Hl). cbn in Hq2. apply (cmp_le_lt (cmp := cmp) q h x); auto.
Qed.
End forest_ok.
End forest.
#[global] Arguments in_range cmp lo hi k : clear implicits.
#[global] Arguments bound_ok valid b : clear implicits.
#[global] Arguments pairs_ok valid cmp lo hi L : clear implicits.
#[global] Arguments forest valid T lo hi cs ks L P : clear implicits, rename.
#[global] Arguments prefix valid T lo lo' cs ks L P : clear implicits, rename.
#[global] Arguments suffix valid T hi' hi cs ks L P : clear implicits, rename.

(** * Trees *)

Section tree.
  Context {compare valid cmp} `{BO : ByteOrder compare valid cmp} (fk fv : option Z).
  (** [good page c]: the checksum of the page is [c]. *)
  Context (good : list Z -> Z -> Prop).

(** A committed page has its checksum, and the pages below it are committed. *)
Definition settled (v : view) (c : child) (page : list Z) (P : list PageNumber.t) : Prop :=
  c.1 ∈ dirty_of v \/ (c.1 ∉ dirty_of v /\ good page c.2 /\ Forall (fun q => q ∉ dirty_of v) P).
Record leaf_node (v : view) (lo hi : bound) (c : child) (L : list pair) (page : list Z) : Prop := {
  ln_page : pages v !! c.1 = Some page;
  ln_leaf : is_leaf fk fv page L;
  ln_pairs : pairs_ok valid cmp lo hi L;
  ln_child : child_ok c;
  ln_settled : settled v c page [] }.
Record branch_node (v : view) (c : child) (cs : list child) (ks : list (list Z)) (P : list PageNumber.t) (page : list Z) : Prop := {
  bn_page : pages v !! c.1 = Some page;
  bn_branch : is_branch fk page cs ks;
  bn_child : child_ok c;
  bn_settled : settled v c page P }.

(** A tree of height [h] below the child [c] *)
Fixpoint tree (v : view) (h : nat) (lo hi : bound) (c : child) (L : list pair) (P : list PageNumber.t) : Prop :=
  match h with
  | O => exists page, leaf_node v lo hi c L page /\ P = [c.1]
  | S h => exists page cs ks P', branch_node v c cs ks P' page /\ forest valid (tree v h) lo hi cs ks L P' /\ P = c.1 :: P'
  end.

Lemma tree_pairs v h : forall lo hi c L P, tree v h lo hi c L P -> pairs_ok valid cmp lo hi L.
Proof using BO.
  induction h as [|h IH]; intros lo hi c L P; [intros (page & Hn & _); apply Hn|].
  intros (page & cs & ks & P' & _ & HF & _). by eapply forest_pairs_ok.
Qed.
Lemma tree_child v h lo hi c L P : tree v h lo hi c L P -> child_ok c.
Proof. destruct h; [intros (page & Hn & _)|intros (page & cs & ks & P' & Hn & _)]; apply Hn. Qed.
Lemma tree_page v h lo hi c L P : tree v h lo hi c L P -> exists page, pages v !! c.1 = Some page.
Proof. destruct h; [intros (page & Hn & _)|intros (page & cs & ks & P' & Hn & _)]; exists page; apply Hn. Qed.
Lemma tree_root v h lo hi c L P : tree v h lo hi c L P -> c.1 ∈ P.
Proof. destruct h; [intros (page & _ & ->)|intros (page & cs & ks & P' & _ & _ & ->)]; left. Qed.
Lemma tree_dom v h : forall lo hi c L P, tree v h lo hi c L P -> Forall (fun q => q ∈ dom (pages v)) P.
Proof.
  induction h as [|h IH]; intros lo hi c L P.
  - intros (page & Hn & ->). constructor; [|constructor]. apply elem_of_dom. eexists. apply Hn.
  - intros (page & cs & ks & P' & Hn & HF & ->). constructor; [apply elem_of_dom; eexists; apply Hn|]. by eapply forest_pages.
Qed.

(** The pages [P] are the same in both views. *)
Definition agrees (v v' : view) (P : list PageNumber.t) : Prop :=
  forall q, q ∈ P -> pages v' !! q = pages v !! q /\ (q ∈ dirty_of v' <-> q ∈ dirty_of v).

Lemma settled_agrees v v' c page P : agrees v v' (c.1 :: P) -> settled v c page P -> settled v' c page P.
Proof.
  intros Ha Hs. destruct (Ha c.1 ltac:(left)) as [_ E]. unfold settled. rewrite E. destruct Hs as [?|(H1 & H2 & H3)]; [by left|right].
  split; [done|]. split; [done|]. rewrite Forall_forall in *. intros q Hq. destruct (Ha q ltac:(by right)) as [_ ->]. by apply H3.
Qed.
Lemma tree_agrees v v' h : forall lo hi c L P, agrees v v' P -> tree v h lo hi c L P -> tree v' h lo hi c L P.
Proof.
  induction h as [|h IH]; intros lo hi c L P Ha.
  - intros (page & [N1 N2 N3 N4 N5] & ->). exists page. split; [|done]. split; try done; [|by eapply settled_agrees]. by destruct (Ha c.1 ltac:(left)) as [-> _].
  - intros (page & cs & ks & P' & [N1 N2 N3 N4] & HF & ->). exists page, cs, ks, P'. split; [|split; [|done]].
    + split; try done; [|by eapply settled_agrees]. by destruct (Ha c.1 ltac:(left)) as [-> _].
    + eapply forest_mono; [done|]. intros lo0 hi0 c0 L0 P0 HP HT. apply IH; [|done]. intros q Hq. apply Ha. right. by apply HP.
Qed.
Lemma agrees_sub v v' P P' : P' ⊆ P -> agrees v v' P -> agrees v v' P'.
Proof. intros Hs Ha q Hq. by apply Ha, Hs. Qed.
Lemma forest_agrees v v' h lo hi cs ks L P : agrees v v' P -> forest valid (tree v h) lo hi cs ks L P -> forest valid (tree v' h) lo hi cs ks L P.
Proof. intros Ha HF. eapply forest_mono; [done|]. intros. eapply tree_agrees; [|done]. by eapply agrees_sub. Qed.
Lemma prefix_agrees v v' h lo hi cs ks L P : agrees v v' P -> prefix valid (tree v h) lo hi cs ks L P -> prefix valid (tree v' h) lo hi cs ks L P.
Proof. intros Ha HF. eapply prefix_mono; [done|]. intros. eapply tree_agrees; [|done]. by eapply agrees_sub. Qed.
Lemma suffix_agrees v v' h lo hi cs ks L P : agrees v v' P -> suffix valid (tree v h) lo hi cs ks L P -> suffix valid (tree v' h) lo hi cs ks L P.
Proof. intros Ha HF. eapply suffix_mono; [done|]. intros. eapply tree_agrees; [|done]. by eapply agrees_sub. Qed.

(** Pages that are not replaced are the same. *)
Lemma evolves_agrees v v' A B P : evolves v v' A B -> Forall (fun q => q ∈ dom (pages v)) P -> (forall q, q ∈ P -> q ∉ A) -> agrees v v' P.
Proof. intros He Hd Hn q Hq. rewrite Forall_forall in Hd. apply (ev_frame _ _ _ _ He); auto. Qed.

(** The checksum of an uncommitted page does not matter yet. *)
Lemma tree_dirty v h lo hi p c c' L P : tree v h lo hi (p, c) L P -> p ∈ dirty_of v -> in_u 128 c' -> tree v h lo hi (p, c') L P.
Proof.
  intros HT Hd Hc. assert (Hok : child_ok (p, c')) by (split; [apply (tree_child _ _ _ _ _ _ _ HT)|done]). destruct h.
  - destruct HT as (page & [N1 N2 N3 N4 N5] & ->). exists page. split; [|done]. split; try done. by left.
  - destruct HT as (page & cs & ks & P' & [N1 N2 N3 N4] & HF & ->). exists page, cs, ks, P'. split; [|done]. split; try done. by left.
Qed.
(** The pages below a committed page are committed. *)
Lemma tree_settled v h lo hi c L P : tree v h lo hi c L P -> c.1 ∉ dirty_of v -> Forall (fun q => q ∉ dirty_of v) P.
Proof.
  intros HT Hd. destruct h.
  - destruct HT as (page & _ & ->). by repeat constructor.
  - destruct HT as (page & cs & ks & P' & [_ _ _ [N|(_ & _ & N)]] & _ & ->); [done|by constructor].
Qed.

(** The bounds can be widened. *)
Lemma pairs_ok_widen lo hi lo' hi' L : pairs_ok valid cmp lo hi L -> bound_ok valid lo' -> bound_ok valid hi' ->
  lo_le (valid := valid) (cmp := cmp) lo' lo -> hi_le (valid := valid) (cmp := cmp) hi hi' -> pairs_ok valid cmp lo' hi' L.
Proof.
  intros [H1 H2 H3 H4 H5 H6] Hlo Hhi HL HH. split; try done. rewrite Forall_forall in *. intros x Hx. destruct (H6 x Hx) as [R1 R2].
  split; [apply HL|apply HH]; auto.
Qed.
Lemma forest_widen_gen (T : below_child) lo hi lo' hi' cs ks L P :
  (forall lo hi lo' hi' c L P, T lo hi c L P -> bound_ok valid lo' -> bound_ok valid hi' ->
    lo_le (valid := valid) (cmp := cmp) lo' lo -> hi_le (valid := valid) (cmp := cmp) hi hi' -> T lo' hi' c L P) ->
  forest valid T lo hi cs ks L P -> bound_ok valid lo' -> bound_ok valid hi' ->
  lo_le (valid := valid) (cmp := cmp) lo' lo -> hi_le (valid := valid) (cmp := cmp) hi hi' -> forest valid T lo' hi' cs ks L P.
Proof.
  intros HT HF Hlo Hhi HL HH. revert lo' Hlo HL. induction HF as [lo hi c L P Hc|lo k hi c cs ks L1 L2 P1 P2 Hc Hk HF IHF]; intros lo' Hlo HL.
  - constructor. by eapply HT.
  - constructor; [|done|].
    + eapply HT; [exact Hc|done|done|done|by intros ?].
    + apply IHF; [done|done|by intros ?].
Qed.
Lemma tree_widen v h : forall lo hi lo' hi' c L P, tree v h lo hi c L P -> bound_ok valid lo' -> bound_ok valid hi' ->
  lo_le (valid := valid) (cmp := cmp) lo' lo -> hi_le (valid := valid) (cmp := cmp) hi hi' -> tree v h lo' hi' c L P.
Proof.
  induction h as [|h IH]; intros lo hi lo' hi' c L P.
  - intros (page & [N1 N2 N3 N4 N5] & ->) ? ? ? ?. exists page. split; [|done]. split; try done. by eapply pairs_ok_widen.
  - intros (page & cs & ks & P' & N & HF & ->) Hlo Hhi HL HH. exists page, cs, ks, P'. split; [done|]. split; [|done]. by eapply forest_widen_gen.
Qed.
Lemma forest_widen v h lo hi lo' hi' cs ks L P : forest valid (tree v h) lo hi cs ks L P -> bound_ok valid lo' -> bound_ok valid hi' ->
  lo_le (valid := valid) (cmp := cmp) lo' lo -> hi_le (valid := valid) (cmp := cmp) hi hi' -> forest valid (tree v h) lo' hi' cs ks L P.
Proof. apply forest_widen_gen, tree_widen. Qed.

(** Sorted pairs are divided by any of their keys. *)
Lemma pairs_ok_split lo hi L1 L2 k : pairs_ok valid cmp lo hi (L1 ++ L2) -> last (keys_of L1) = Some k -> L2 <> [] ->
  valid k /\ pairs_ok valid cmp lo (Some k) L1 /\ pairs_ok valid cmp (Some k) hi L2.
Proof using BO.
  intros Ho Hk H2. destruct L1 as [|[k0 v0] L1 _] using rev_ind; [done|]. rewrite keys_app in Hk. cbn [keys_of map fst] in Hk. rewrite last_snoc in Hk. injection Hk as ->.
  destruct Ho as [B1 B2 _ V S0 R]. rewrite !keys_app in *. cbn [keys_of map fst] in *. fold (keys_of L1) in *. rewrite !Forall_app in V, R. destruct V as [[V1 Vk] V2], R as [[R1 Rk] R2].
  apply Forall_cons in Vk as [Vk _]. apply Forall_cons in Rk as [Rk _]. apply sorted_app in S0 as (S1 & S2 & S3). apply sorted_middle in S1 as (S1 & _ & Sb & _).
  assert (Hkr : below_hi (cmp := cmp) (Some k) k) by (cbn; by rewrite (cmp_refl (cmp := cmp))).
  split; [done|]. split; split; try done; rewrite ?keys_app; cbn [keys_of map fst]; fold (keys_of L1).
  - by destruct L1.
  - apply Forall_app. by repeat constructor.
  - apply sorted_middle. split; [done|]. split; [done|]. split; [done|]. split; [constructor|]. apply Forall_forall. intros. constructor.
  - apply Forall_app. split; [|by repeat constructor; [apply Rk|]]. rewrite Forall_forall in *. intros x Hx. split; [by apply R1|]. cbn. unfold below in Sb.
    rewrite Forall_forall in Sb. by rewrite (Sb x Hx).
  - rewrite Forall_app, Forall_cons in S3. destruct S3 as (_ & S3 & _). unfold above in S3. rewrite Forall_forall in *. intros x Hx. split; [by apply S3|]. by apply R2.
Qed.

(** ** New pages *)

Lemma deferred_ok p : encodable p -> child_ok (p, DEFERRED).
Proof. intros Hp. split; [done|]. vm_compute. by split. Qed.
Lemma new_leaf_tree v' p mem lo hi L' : pages v' !! p = Some mem -> p ∈ dirty_of v' -> encodable p -> is_leaf fk fv mem L' -> pairs_ok valid cmp lo hi L' ->
  tree v' 0 lo hi (p, DEFERRED) L' [p].
Proof. intros H1 H2 H3 H4 H5. exists mem. split; [|done]. split; try done. by left. Qed.
(** Two leaves that share the pairs of one *)
Lemma split_leaf_forest v' p1 p2 mem1 mem2 lo hi L1 L2 k : pages v' !! p1 = Some mem1 -> pages v' !! p2 = Some mem2 -> p1 ∈ dirty_of v' -> p2 ∈ dirty_of v' ->
  encodable p1 -> encodable p2 -> is_leaf fk fv mem1 L1 -> is_leaf fk fv mem2 L2 -> last (keys_of L1) = Some k -> pairs_ok valid cmp lo hi (L1 ++ L2) ->
  forest valid (tree v' 0) lo hi [(p1, DEFERRED); (p2, DEFERRED)] [k] (L1 ++ L2) [p1; p2].
Proof.
  intros A1 A2 B1 B2 C1 C2 D1 D2 Hk Ho. assert (H2 : L2 <> []).
  { destruct D2 as (? & ? & _ & [Hn _ _ _] & _). intros ->. unfold vlen in Hn. simpl in Hn. lia. }
  destruct (pairs_ok_split lo hi L1 L2 k Ho Hk H2) as (Vk & O1 & O2).
  apply (forest_cons _ lo k hi _ [(p2, DEFERRED)] [] L1 L2 [p1] [p2]); [by eapply new_leaf_tree|done|]. constructor. by eapply new_leaf_tree.
Qed.
Lemma new_branch_tree v' p mem h lo hi cs ks L P : pages v' !! p = Some mem -> p ∈ dirty_of v' -> encodable p -> is_branch fk mem cs ks ->
  forest valid (tree v' h) lo hi cs ks L P -> tree v' (S h) lo hi (p, DEFERRED) L (p :: P).
Proof. intros H1 H2 H3 H4 H5. exists mem, cs, ks, P. split; [|done]. split; try done. by left. Qed.
Lemma is_branch_length mem cs ks : is_branch fk mem cs ks -> length cs = S (length ks).
Proof. intros (? & ? & ? & _ & _ & Hok). pose proof (branch_children _ _ _ Hok) as Hc. unfold vlen in Hc. lia. Qed.
Lemma split_branch_forest v' p1 p2 mem1 mem2 h lo hi C1 C2 K1 k K2 L P : pages v' !! p1 = Some mem1 -> pages v' !! p2 = Some mem2 ->
  p1 ∈ dirty_of v' -> p2 ∈ dirty_of v' -> encodable p1 -> encodable p2 -> is_branch fk mem1 C1 K1 -> is_branch fk mem2 C2 K2 ->
  forest valid (tree v' h) lo hi (C1 ++ C2) (K1 ++ k :: K2) L P ->
  exists P', forest valid (tree v' (S h)) lo hi [(p1, DEFERRED); (p2, DEFERRED)] [k] L P' /\ P' ≡ₚ p1 :: p2 :: P.
Proof.
  intros A1 A2 B1 B2 D1 D2 H1 H2 HF. destruct (forest_split _ _ _ _ _ _ _ _ _ _ HF (is_branch_length _ _ _ H1)) as (L1 & L2 & Pa & Pb & F1 & Vk & F2 & -> & ->).
  exists ((p1 :: Pa) ++ (p2 :: Pb)). split.
  - apply (forest_cons _ lo k hi _ [(p2, DEFERRED)] [] L1 L2); [by eapply new_branch_tree|done|]. constructor. by eapply new_branch_tree.
  - cbn [app]. by rewrite <-Permutation_middle.
Qed.
(** A child was replaced; the pages around it are as they were. *)
Lemma focus_evolves v v1 h lo lo' hi' hi C1 K1 La Pa C2 K2 Lb Pb p Pc Pc' :
  prefix valid (tree v h) lo lo' C1 K1 La Pa -> suffix valid (tree v h) hi' hi C2 K2 Lb Pb -> p ∈ dom (pages v) -> NoDup (p :: Pa ++ Pc ++ Pb) -> NoDup Pc' ->
  evolves v v1 (list_to_set Pc) (list_to_set Pc') ->
  prefix valid (tree v1 h) lo lo' C1 K1 La Pa /\ suffix valid (tree v1 h) hi' hi C2 K2 Lb Pb /\ agrees v v1 [p] /\
  NoDup (p :: Pa ++ Pc' ++ Pb) /\ evolves v v1 (list_to_set (p :: Pa ++ Pc ++ Pb)) (list_to_set (p :: Pa ++ Pc' ++ Pb)).
Proof.
  intros H1 H2 Hp Hnd Hnd' He. assert (D1 : Forall (fun q => q ∈ dom (pages v)) Pa) by (eapply prefix_pages; [|exact H1]; intros; by eapply tree_dom).
  assert (D2 : Forall (fun q => q ∈ dom (pages v)) Pb) by (eapply suffix_pages; [|exact H2]; intros; by eapply tree_dom).
  apply NoDup_cons in Hnd as [Np Hnd]. rewrite !NoDup_app in Hnd. destruct Hnd as (Na & Nac & Nc & Ncb & Nb). rewrite Forall_forall in D1, D2.
  set (R := {[p]} ∪ list_to_set Pa ∪ list_to_set Pb : gset PageNumber.t).
  assert (HR : R ⊆ dom (pages v)). { unfold R. intros q. rewrite !elem_of_union, elem_of_singleton, !elem_of_list_to_set. intros [[->|?]|?]; auto. }
  assert (HRA : forall q, q ∈ R -> q ∉ Pc).
  { unfold R. intros q. rewrite !elem_of_union, elem_of_singleton, !elem_of_list_to_set. intros [[->|Hq]|Hq] Hc; [apply Np; set_solver|eapply Nac; [done|set_solver]|by eapply Ncb]. }
  assert (HRC : R ## list_to_set Pc) by (intros q Hq Hc%elem_of_list_to_set; by apply (HRA q)).
  pose proof (evolves_disjoint _ _ _ _ R He HR HRC) as HRB.
  assert (Hagr : forall l, (forall q, q ∈ l -> q ∈ R) -> agrees v v1 l).
  { intros l Hsub. eapply evolves_agrees; [exact He|apply Forall_forall; auto|]. intros q Hq Hc%elem_of_list_to_set. apply (HRA q); auto. }
  split; [eapply prefix_agrees; [|exact H1]; apply Hagr; unfold R; set_solver|]. split; [eapply suffix_agrees; [|exact H2]; apply Hagr; unfold R; set_solver|].
  split; [apply Hagr; unfold R; set_solver|]. split.
  - apply NoDup_cons. split; [|rewrite !NoDup_app; split; [done|]; split; [|split; [done|split; [|done]]]].
    + rewrite !elem_of_app. intros [Hq|[Hq|Hq]]; [apply Np; set_solver| |apply Np; set_solver]. apply (HRB p); [unfold R; set_solver|by apply elem_of_list_to_set].
    + intros q Hq [Hc|Hb]%elem_of_app; [apply (HRB q); [unfold R; set_solver|by apply elem_of_list_to_set]|eapply Nac; [done|set_solver]].
    + intros q Hc Hb. apply (HRB q); [unfold R; set_solver|by apply elem_of_list_to_set].
  - eapply evolves_eq; [apply (evolves_also v v1 _ _ R He HR HRC)|..]; unfold R; intros q; rewrite !elem_of_union, !elem_of_list_to_set, elem_of_singleton, elem_of_cons, !elem_of_app; tauto.
Qed.
Lemma vget_leaf pad L slack : vget (leaf fk fv pad L slack) 0 = Ret LEAF.
Proof. reflexivity. Qed.
Lemma vget_branch pad pad4 cs ks slack : vget (branch fk pad pad4 cs ks slack) 0 = Ret BRANCH.
Proof. reflexivity. Qed.

(** ** The way down *)

(** The child of a branch that has the key [q] *)
Record descent (v : view) (h : nat) (lo hi : bound) (p : PageNumber.t) (c : Z) (L : list pair) (P : list PageNumber.t) (mem q : list Z) (cs : list child) (ks : list (list Z))
    (pad : Z) (pad4 slack : list Z) (C1 : list child) (cp : PageNumber.t) (cc : Z) (C2 : list child) (K1 K2 : list (list Z)) (lo' hi' : bound)
    (La Lc Lb : list pair) (Pa Pc Pb : list PageNumber.t) (cmem : list Z) : Prop := {
  de_mem : mem = branch fk pad pad4 cs ks slack;
  de_pad : vlen pad4 = 4;
  de_ok : branch_ok fk cs ks;
  de_node : branch_node v (p, c) cs ks (Pa ++ Pc ++ Pb) (branch fk pad pad4 cs ks slack);
  de_children : cs = C1 ++ (cp, cc) :: C2;
  de_keys : ks = K1 ++ K2;
  de_length : length C1 = length K1;
  de_find : BranchAccessor.child_for_key compare (branch_accessor_of fk pad pad4 cs ks slack) q = Ret (vlen C1, cp);
  de_before : prefix valid (tree v h) lo lo' C1 K1 La Pa;
  de_child : tree v h lo' hi' (cp, cc) Lc Pc;
  de_after : suffix valid (tree v h) hi' hi C2 K2 Lb Pb;
  de_range : in_range cmp lo' hi' q;
  de_pairs : L = La ++ Lc ++ Lb;
  de_pages : P = p :: Pa ++ Pc ++ Pb;
  de_page : pages v !! cp = Some cmem;
  de_lo : bound_ok valid lo;
  de_hi : bound_ok valid hi }.

Lemma branch_descend v h lo hi p c L P mem q : tree v (S h) lo hi (p, c) L P -> pages v !! p = Some mem -> valid q -> in_range cmp lo hi q ->
  exists cs ks pad pad4 slack C1 cp cc C2 K1 K2 lo' hi' La Lc Lb Pa Pc Pb cmem, descent v h lo hi p c L P mem q cs ks pad pad4 slack C1 cp cc C2 K1 K2 lo' hi' La Lc Lb Pa Pc Pb cmem.
Proof using BO.
  intros (mem' & cs & ks & P0 & Hnode & HF & ->) Hpage Hq Hr. pose proof (bn_page _ _ _ _ _ _ Hnode) as E. cbn [fst] in E. rewrite Hpage in E. injection E as <-.
  destruct (bn_branch _ _ _ _ _ _ Hnode) as (pad & pad4 & slack & Hpad & Em & Hok).
  destruct (forest_keys _ (tree_pairs v h) _ _ _ _ _ _ HF) as (Hkv & Hks & _).
  destruct (child_for_key_ok fk pad pad4 cs ks slack Hok Hpad Hkv Hks q Hq) as (C1 & [cp cc] & C2 & K1 & K2 & Ec & Ek & Hl & Hfind & Hb & Hnb).
  assert (Hl' : length C1 = length K1) by (unfold vlen in Hl; lia). pose proof (forest_pairs_ok _ (tree_pairs v h) _ _ _ _ _ _ HF) as Ho.
  rewrite Ec, Ek in HF. destruct (forest_focus _ _ _ _ _ _ _ _ _ _ HF Hl') as (lo' & hi' & La & Lc & Lb & Pa & Pc & Pb & F1 & F2 & F3 & EL & EP).
  destruct (tree_page _ _ _ _ _ _ _ F2) as (cmem & Hcmem).
  exists cs, ks, pad, pad4, slack, C1, cp, cc, C2, K1, K2, lo', hi', La, Lc, Lb, Pa, Pc, Pb, cmem.
  split; try done; [by rewrite <-EP, <-Em|by eapply focus_range|by rewrite EP|apply Ho|apply Ho].
Qed.
Lemma descent_kv v h lo hi p c L P mem q cs ks pad pad4 slack C1 cp cc C2 K1 K2 lo' hi' La Lc Lb Pa Pc Pb cmem w :
  descent v h lo hi p c L P mem q cs ks pad pad4 slack C1 cp cc C2 K1 K2 lo' hi' La Lc Lb Pa Pc Pb cmem -> valid q ->
  kv_lookup cmp q L = kv_lookup cmp q Lc /\ kv_insert cmp q w L = La ++ kv_insert cmp q w Lc ++ Lb /\ kv_remove cmp q L = La ++ kv_remove cmp q Lc ++ Lb.
Proof using BO.
  intros D Hq. destruct (D) as [_ _ _ _ _ _ _ _ _ _ _ _ -> _ _ _ _]. eapply (focus_kv _ (tree_pairs v h)); [apply D|apply D|apply D|apply D|done|apply D].
Qed.

(** The tree of a root: its height, its pairs in order and its pages *)
Definition btree (v : view) (h : nat) (root : option BtreeHeader.t) (L : list pair) (P : list PageNumber.t) : Prop :=
  match root with
  | Some r => tree v h None None (BtreeHeader.root r, BtreeHeader.checksum r) L P /\ BtreeHeader.length r = vlen L
  | None => h = O /\ L = [] /\ P = []
  end.
End tree.
#[global] Arguments btree valid cmp fk fv good v h root L P : clear implicits.
#[global] Arguments settled good v c page P : clear implicits.
#[global] Arguments leaf_node valid cmp fk fv good v lo hi c L page : clear implicits.
#[global] Arguments branch_node fk good v c cs ks P page : clear implicits.
#[global] Arguments tree valid cmp fk fv good v h lo hi c L P : clear implicits.
#[global] Arguments descent compare valid cmp fk fv good v h lo hi p c L P mem q cs ks pad pad4 slack C1 cp cc C2 K1 K2 lo' hi' La Lc Lb Pa Pc Pb cmem : clear implicits.
#[global] Arguments ln_page {valid cmp fk fv good v lo hi c L page} _ : rename.
#[global] Arguments ln_leaf {valid cmp fk fv good v lo hi c L page} _ : rename.
#[global] Arguments ln_pairs {valid cmp fk fv good v lo hi c L page} _ : rename.
#[global] Arguments ln_child {valid cmp fk fv good v lo hi c L page} _ : rename.
#[global] Arguments ln_settled {valid cmp fk fv good v lo hi c L page} _ : rename.
#[global] Arguments bn_page {fk good v c cs ks P page} _ : rename.
#[global] Arguments bn_branch {fk good v c cs ks P page} _ : rename.
#[global] Arguments bn_child {fk good v c cs ks P page} _ : rename.
#[global] Arguments bn_settled {fk good v c cs ks P page} _ : rename.
