(* ===== verification/Building.v ===== *)
(** The steps of the mutators of B-trees (src/src/tree_store/btree_mutator.rs)
    in the program logic of page stores: building leaf and branch pages, and
    giving pages up. *)
From S2P Require Import Prelude Buddy Pages Types KeyOrder Leaf LeafTheorems Branch PageStore Mutator Trees.

Lemma bind_assoc {T A B C} (c : M T A) (f : A -> M T B) (g : B -> M T C) t Q E :
  runs (x ← c; f x ≫= g) t Q E -> runs ((x ← c; f x) ≫= g) t Q E.
Proof.
  unfold runs, mbind, M_bind, outcome_bind. destruct (c t) as [[t1 [a|e]]|]; cbn; done.
Qed.

(** A loop over the indexes of a list *)
Lemma runs_indexes {T A B} (body : Z -> B -> M T B) (l : list A) (I : nat -> T -> B -> Prop) E t b :
  I 0%nat t b -> (forall i x t b, l !! i = Some x -> I i t b -> runs (body (Z.of_nat i) b) t (I (S i)) E) ->
  runs (for_each_m body (seqZ 0 (vlen l)) b) t (I (length l)) E.
Proof.
  intros H0 Hstep. assert (Hgen : forall l' i t b, drop i l = l' -> I i t b -> (i + length l' = length l)%nat ->
    runs (for_each_m body (seqZ (Z.of_nat i) (vlen l')) b) t (I (length l)) E); [|apply (Hgen l 0%nat); done].
  induction l' as [|x l' IH]; intros i t1 b1 Hd Hi Hlen.
  - cbn in Hlen |- *. rewrite Nat.add_0_r in Hlen. rewrite <-Hlen. by apply runs_ret.
  - pose proof (vlen_nonneg l'). rewrite vlen_cons, seqZ_succ by done. cbn [for_each_m]. assert (Hx : l !! i = Some x) by (rewrite <-(Nat.add_0_r i), <-lookup_drop, Hd; done).
    eapply runs_bind; [by eapply Hstep|]. intros t2 b2 Hi2. replace (Z.of_nat i + 1) with (Z.of_nat (S i)) by lia. cbn in Hlen. apply IH; [|done|lia].
    rewrite (drop_S _ _ _ Hx) in Hd. by injection Hd.
Qed.

Section steps.
  Context {S : Type} `{PageStoreLaws S}.

(** The continuation starts in a later view. *)
Lemma runs_next {A B} (c : M (txn S) A) (k : A -> M (txn S) B) t v Q1 Q :
  runs c t Q1 (intact v) -> (forall t1 a, Q1 t1 a -> exists v1 X Y, evolves v v1 X Y /\ runs (k a) t1 Q (intact v1)) ->
  runs (c ≫= k) t Q (intact v).
Proof using.
  intros Hc Hk. eapply runs_bind; [exact Hc|]. intros t1 a Ha. destruct (Hk t1 a Ha) as (v1 & X & Y & He & Hr).
  eapply runs_weaken; [exact Hr|done|]. intros t2 Hi. by eapply intact_evolves.
Qed.

(** A page was added *)
Record new_page (pend : gmap PageNumber.t (list Z)) (n : nat) (v : view) (t' : txn S) (p : PageNumber.t) (mem : list Z) (v' : view) : Prop := {
  np_shows : shows pend n t' v';
  np_evolves : evolves v v' ∅ {[p]};
  np_page : pages v' !! p = Some mem;
  np_dirty : p ∈ dirty_of v';
  np_fresh : p ∉ dom (pages v);
  np_encodable : encodable p }.

(** A page is allocated and written. *)
Lemma write_new_runs {A} pend n t v size (write : list Z -> outcome (list Z)) (R : list Z -> Prop) (k : PageNumber.t * list Z -> M (txn S) A) Q :
  shows pend (1 + n) t v -> 0 < size <= page_limit ->
  (forall mem, size <= vlen mem < 2 ^ 63 -> exists mem', write mem = Ret mem' /\ vlen mem' = vlen mem /\ R mem') ->
  (forall t' p mem v', new_page pend n v t' p mem v' -> R mem -> runs (k (p, mem)) t' Q (intact v')) ->
  runs ('(p, mem) ← on_store (allocate size); mem ← lift (write mem); _ ← put p mem; k (p, mem)) t Q (intact v).
Proof using.
  intros Hs Hsz Hw Hk. eapply runs_next; [by apply alloc_runs|]. intros t1 [p mem] (Hf & Hnp & Henc & Hlen & v1 & Hs1 & He1 & Hp1 & Hd1). cbn [fst snd] in *.
  exists v1, ∅, {[p]}. split; [done|]. destruct (Hw mem Hlen) as (mem' & Hwr & Hl' & HR). eapply runs_lift; [exact Hwr|].
  eapply runs_next; [eapply put_runs; [exact Hs1|done|by rewrite Hp1, lookup_insert_eq|rewrite Hd1; set_solver|done]|].
  intros t2 _ (v2 & Hs2 & He2 & Hp2 & Hd2 & _). exists v2, {[p]}, {[p]}. split; [done|]. apply Hk; [|done]. split; try done.
  - by eapply evolves_trans.
  - by rewrite Hp2, lookup_insert_eq.
  - rewrite Hd2, Hd1. set_solver.
Qed.

(** ** Pages that are given up *)

Lemma conditional_free_runs pend n t v p : shows pend n t v -> p ∉ dom pend -> p ∈ dom (pages v) ->
  runs (MutateHelper.conditional_free p) t (fun t' _ => exists v', shows pend n t' v' /\ evolves v v' {[p]} ∅) (intact v).
Proof using.
  intros Hs Hp Hd. eapply runs_bind; [by apply free_if_runs|]. intros t1 b [-> Hb]. case_bool_decide as Hdirty; [by apply runs_ret|].
  by apply push_freed_runs.
Qed.
End steps.

(** * Building *)

Section build.
  Context {S : Type} `{PageStoreLaws S}.
  Context (fk fv : option Z).

(** As many of these pairs as a leaf can have, next to each other, fit a page. *)
Definition runs_fit (L : list pair) : Prop :=
  forall A B C, L = A ++ B ++ C -> vlen B <= 65535 -> total fk fv B <= page_limit.

Lemma runs_fit_sub A B C : runs_fit (A ++ B ++ C) -> runs_fit B.
Proof using. intros Hf X Y Z -> Hy. apply (Hf (A ++ X) Y (Z ++ C)); [|done]. by rewrite <-!app_assoc. Qed.

(** ** Leaves *)

Lemma required_total b : builder_ok b -> LeafBuilder.fixed_key_size b = fk -> LeafBuilder.fixed_value_size b = fv ->
  LeafBuilder.required_size b = total fk fv (LeafBuilder.pairs b).
Proof using.
  intros [H1 H2] Hk Hv. unfold LeafBuilder.required_size, LeafBuilder.required_bytes. by rewrite H1, H2, Hk, Hv, required_bytes_total.
Qed.
(** The builder of some pairs *)
Definition leaf_builder_of (L : list pair) : LeafBuilder.t := push_pairs (MutateHelper.leaf_builder fk fv) L.
Lemma leaf_builder_of_ok L : builder_ok (leaf_builder_of L) /\ LeafBuilder.pairs (leaf_builder_of L) = L /\
  LeafBuilder.fixed_key_size (leaf_builder_of L) = fk /\ LeafBuilder.fixed_value_size (leaf_builder_of L) = fv.
Proof using. apply (push_pairs_ok L (MutateHelper.leaf_builder fk fv) (new_builder_ok fk fv)). Qed.

Lemma build_leaf_runs pend n t v b : shows pend (1 + n) t v -> builder_ok b -> LeafBuilder.fixed_key_size b = fk -> LeafBuilder.fixed_value_size b = fv ->
  leaf_ok fk fv (LeafBuilder.pairs b) -> total fk fv (LeafBuilder.pairs b) <= page_limit ->
  runs (MutateHelper.build_leaf b) t (fun t' r => exists v', new_page pend n v t' r.1 r.2 v' /\ is_leaf fk fv r.2 (LeafBuilder.pairs b)) (intact v).
Proof using.
  intros Hs Hb Hk Hv Hok Ht. unfold MutateHelper.build_leaf. pose proof (total_pos fk fv (LeafBuilder.pairs b)).
  apply (write_new_runs pend n t v (LeafBuilder.required_size b) (LeafBuilder.write b) (fun mem => is_leaf fk fv mem (LeafBuilder.pairs b))
    (fun r => mret r)); [done|rewrite required_total by done; lia| |].
  - intros mem Hmem. rewrite <-Hk, <-Hv in *. by apply write_ok.
  - intros t' p mem v' Hn Hl. apply runs_ret. by exists v'.
Qed.

(** Two new pages *)
Record new_pages (pend : gmap PageNumber.t (list Z)) (n : nat) (v : view) (t' : txn S) (p1 p2 : PageNumber.t) (mem1 mem2 : list Z) (v' : view) : Prop := {
  nps_shows : shows pend n t' v';
  nps_evolves : evolves v v' ∅ {[p1; p2]};
  nps_page1 : pages v' !! p1 = Some mem1;
  nps_page2 : pages v' !! p2 = Some mem2;
  nps_dirty1 : p1 ∈ dirty_of v';
  nps_dirty2 : p2 ∈ dirty_of v';
  nps_fresh1 : p1 ∉ dom (pages v);
  nps_fresh2 : p2 ∉ dom (pages v);
  nps_distinct : p1 <> p2;
  nps_encodable1 : encodable p1;
  nps_encodable2 : encodable p2 }.

Lemma new_pages_intro pend n m v t1 t2 v1 v2 p1 p2 mem1 mem2 : new_page pend m v t1 p1 mem1 v1 -> new_page pend n v1 t2 p2 mem2 v2 ->
  new_pages pend n v t2 p1 p2 mem1 mem2 v2.
Proof using.
  intros [A1 A2 A3 A4 A5 A6] [B1 B2 B3 B4 B5 B6]. pose proof (evolves_in _ _ _ _ p1 A2 ltac:(set_solver)) as Hin.
  assert (Hne : p1 <> p2) by (intros ->; done). destruct (ev_frame _ _ _ _ B2 p1) as [E1 E2]; [done|set_solver|].
  split; try done.
  - eapply (evolves_then v v1 v2 ∅ {[p1]} ∅ {[p2]}); [|set_solver|done]. by rewrite (right_id_L ∅ (∪)).
  - by rewrite E1.
  - by apply E2.
  - intros Hp. apply B5, (ev_dom _ _ _ _ A2). left. split; [done|]. set_solver.
Qed.

Lemma build_split_leaf_runs pend n t v b : shows pend (2 + n) t v -> builder_ok b -> LeafBuilder.fixed_key_size b = fk -> LeafBuilder.fixed_value_size b = fv ->
  1 < vlen (LeafBuilder.pairs b) <= 2 * 65535 -> widths_ok fk fv (LeafBuilder.pairs b) -> runs_fit (LeafBuilder.pairs b) ->
  runs (MutateHelper.build_split_leaf b) t (fun t' r => exists v' P1 P2, new_pages pend n v t' r.1.1.1 r.2.1 r.1.1.2 r.2.2 v' /\
    LeafBuilder.pairs b = P1 ++ P2 /\ is_leaf fk fv r.1.1.2 P1 /\ is_leaf fk fv r.2.2 P2 /\ last (keys_of P1) = Some r.1.2) (intact v).
Proof using.
  intros Hs Hb Hk Hv Hn Hw Hf. unfold MutateHelper.build_split_leaf. pose proof law_limit as Hlim.
  assert (Hfit : forall P1 P2, LeafBuilder.pairs b = P1 ++ P2 -> vlen P1 <= umax 16 -> vlen P2 <= umax 16 -> total fk fv P1 <= page_limit /\ total fk fv P2 <= page_limit).
  { intros P1 P2 E H1 H2. split; [apply (Hf [] P1 P2)|apply (Hf P1 P2 [])]; rewrite ?app_nil_r; done. }
  pose proof (split_ok b Hb Hn) as Hsp. rewrite Hk, Hv in Hsp. destruct Hsp as (P1 & P2 & d & s1 & s2 & HP & Hd & Hss & Hok1 & Hok2 & -> & -> & (key & Hlast & Hkey') & W1 & W2); [done| |].
  { intros P1 P2 E H1 H2. destruct (Hfit P1 P2 E H1 H2). lia. }
  destruct (Hfit P1 P2 HP) as [F1 F2]; [pose proof (leaf_count _ _ _ Hok1); unfold umax; lia|pose proof (leaf_count _ _ _ Hok2); unfold umax; lia|].
  pose proof (total_pos fk fv P1). pose proof (total_pos fk fv P2).
  eapply runs_lift; [exact Hd|]. eapply runs_lift; [exact Hss|].
  apply (write_new_runs pend (1 + n) t v (total fk fv P1) (LeafBuilder.write_first b d) (fun mem => is_leaf fk fv mem P1)
    (fun r1 => '(p2, mem2) ← on_store (allocate (total fk fv P2)); mem2 ← lift (LeafBuilder.write_second b d mem2); _ ← put p2 mem2;
               key ← lift (LeafBuilder.split_key b d); mret (r1, key, (p2, mem2)))); [done|lia|done|].
  intros t1 p1 mem1 v1 Hn1 Hl1.
  apply (write_new_runs pend n t1 v1 (total fk fv P2) (LeafBuilder.write_second b d) (fun mem => is_leaf fk fv mem P2)
    (fun r2 => key ← lift (LeafBuilder.split_key b d); mret ((p1, mem1), key, r2))); [apply Hn1|lia|done|].
  intros t2 p2 mem2 v2 Hn2 Hl2. eapply runs_lift; [exact Hkey'|]. apply runs_ret. exists v2, P1, P2. cbn [fst snd].
  split; [by eapply new_pages_intro|done].
Qed.

(** ** Branches *)

  (** Keys have their width, and are not larger than [kmax]; a branch with as many of these keys as it can have fits a page. *)
  Context (valid : list Z -> Prop) (kmax : Z) (Hkey : forall k, valid k -> vlen k <= kmax /\ forall w, fk = Some w -> vlen k = w).
  Context (Hkmax : 0 <= kmax /\ base fk 65535 + 65535 * kmax <= page_limit).

Lemma sublist_Forall {A} (R : A -> Prop) l k : l `sublist_of` k -> Forall R k -> Forall R l.
Proof using. intros Hs Hk. rewrite Forall_forall in *. intros x Hx. apply Hk. by apply (elem_of_sublist l). Qed.
Lemma size_le ks : Forall valid ks -> size ks <= kmax * vlen ks.
Proof using Hkey.
  induction 1 as [|k ks Hk _ IH]; [change (size []) with 0; change (vlen []) with 0; lia|]. rewrite size_cons, vlen_cons. destruct (Hkey k Hk). lia.
Qed.
Lemma branch_fits ks : Forall valid ks -> vlen ks <= 65535 -> branch_total fk ks <= page_limit.
Proof using Hkey Hkmax.
  intros Hv Hl. pose proof (size_le ks Hv). destruct Hkmax as [Hk0 Hk]. unfold branch_total, base in *. pose proof (kp_size fk).
  assert (kmax * vlen ks <= kmax * 65535) by (apply Z.mul_le_mono_nonneg_l; done). lia.
Qed.
Lemma key_widths ks : Forall valid ks -> key_widths_ok fk ks.
Proof using Hkey. intros Hv w Hw. eapply Forall_impl; [exact Hv|]. intros k Hk. by apply Hkey. Qed.

(** The builder of some children and keys *)
Definition branch_builder_of (cs : list child) (ks : list (list Z)) : BranchBuilder.t := BranchBuilder.mk cs ks (size ks) fk.

Lemma branch_builder_of_ok cs ks : branch_builder_ok (branch_builder_of cs ks).
Proof using. done. Qed.
Lemma should_split_false cs ks size : BranchBuilder.should_split (branch_builder_of cs ks) size = false -> vlen ks <= 65535.
Proof using.
  unfold BranchBuilder.should_split. cbn [BranchBuilder.keys branch_builder_of]. change (umax 16) with 65535.
  intros Hf. apply andb_false_iff in Hf as [Hf|Hf]; [apply orb_false_iff in Hf as [_ Hf]; by apply Z.ltb_ge in Hf|apply Z.leb_gt in Hf; lia].
Qed.
Lemma should_split_true cs ks size : BranchBuilder.should_split (branch_builder_of cs ks) size = true -> 3 <= vlen ks.
Proof using. intros [_ Hf]%andb_true_iff. by apply Z.leb_le in Hf. Qed.

Lemma build_branch_runs pend n t v cs ks : shows pend (1 + n) t v -> Forall valid ks -> Forall child_ok cs -> vlen cs = vlen ks + 1 -> 0 < vlen ks <= 65535 ->
  runs (MutateHelper.build_branch (branch_builder_of cs ks)) t (fun t' p => exists mem v', new_page pend n v t' p mem v' /\ is_branch fk mem cs ks) (intact v).
Proof using Hkey Hkmax.
  intros Hs Hv Hc Hl Hn. pose proof (branch_fits ks Hv ltac:(lia)) as Hfit. pose proof law_limit as Hlim.
  assert (Hok : branch_ok fk cs ks) by (split; [lia|lia|done|done|by apply key_widths|lia]). set (b := branch_builder_of cs ks).
  pose proof (fun page => branch_write_ok b page (branch_builder_of_ok cs ks) Hok) as Hw. pose proof (builder_required b (branch_builder_of_ok cs ks)) as Hr.
  cbn [b branch_builder_of BranchBuilder.fixed_key_size BranchBuilder.children BranchBuilder.keys] in Hw, Hr. fold (branch_builder_of cs ks) in Hw, Hr. fold b in Hw, Hr.
  pose proof (base_pos fk (vlen ks) ltac:(lia)). pose proof (size_nonneg ks). unfold branch_total in *.
  unfold MutateHelper.build_branch. eapply runs_lift; [by apply (Hw (replicate (Z.to_nat (BranchBuilder.required_bytes b)) 0)); unfold vlen; rewrite length_replicate; lia|].
  apply (write_new_runs pend n t v (BranchBuilder.required_bytes b) (BranchBuilder.write b) (fun mem => is_branch fk mem cs ks) (fun r => mret r.1)).
  - done.
  - lia.
  - intros mem [Hmem _]. by apply Hw.
  - intros t' p mem v' Hnp Hb. apply runs_ret. by exists mem, v'.
Qed.
Lemma build_split_branch_runs pend n t v cs ks : shows pend (2 + n) t v -> Forall valid ks -> Forall child_ok cs -> vlen cs = vlen ks + 1 -> 3 <= vlen ks < 2 ^ 17 ->
  runs (MutateHelper.build_split_branch (branch_builder_of cs ks)) t (fun t' r => exists mem1 mem2 v' C1 C2 K1 K2, new_pages pend n v t' r.1.1 r.2 mem1 mem2 v' /\
    cs = C1 ++ C2 /\ ks = K1 ++ r.1.2 :: K2 /\ is_branch fk mem1 C1 K1 /\ is_branch fk mem2 C2 K2) (intact v).
Proof using Hkey Hkmax.
  intros Hs Hv Hc Hl Hn. set (b := branch_builder_of cs ks). pose proof law_limit as Hlim.
  destruct (branch_split_ok b (branch_builder_of_ok cs ks) Hl Hn Hc (key_widths ks Hv)) as (C1 & C2 & K1 & k & K2 & EC & EK & O1 & O2 & Hplan & W1 & W2).
  { intros ks' Hsub Hks'. pose proof (branch_fits ks' ltac:(by eapply sublist_Forall) ltac:(lia)). cbn. lia. }
  cbn [b branch_builder_of BranchBuilder.fixed_key_size BranchBuilder.children BranchBuilder.keys] in EC, EK, O1, O2, Hplan, W1, W2.
  fold (branch_builder_of cs ks) in Hplan, W1, W2. fold b in Hplan, W1, W2.
  assert (V12 : Forall valid K1 /\ Forall valid K2) by (rewrite EK, Forall_app, Forall_cons in Hv; tauto). destruct V12 as [V1 V2].
  destruct O1 as [O1a O1b _ _ _ _], O2 as [O2a O2b _ _ _ _]. pose proof (branch_fits K1 V1 ltac:(lia)). pose proof (branch_fits K2 V2 ltac:(lia)).
  pose proof (base_pos fk (vlen K1) ltac:(lia)). pose proof (base_pos fk (vlen K2) ltac:(lia)). pose proof (size_nonneg K1). pose proof (size_nonneg K2).
  unfold MutateHelper.build_split_branch. eapply runs_lift; [exact Hplan|].
  apply (write_new_runs pend (1 + n) t v (branch_total fk K1) (BranchBuilder.write_first b (vlen K1)) (fun mem => is_branch fk mem C1 K1)
    (fun r1 => '(p2, mem2) ← on_store (allocate (branch_total fk K2)); mem2 ← lift (BranchBuilder.write_second b (vlen K1) mem2); _ ← put p2 mem2; mret (r1.1, k, p2))).
  - done.
  - unfold branch_total in *. lia.
  - intros mem [Hmem _]. by apply W1.
  - intros t1 p1 mem1 v1 Hn1 Hb1. cbn [fst].
    apply (write_new_runs pend n t1 v1 (branch_total fk K2) (BranchBuilder.write_second b (vlen K1)) (fun mem => is_branch fk mem C2 K2) (fun r2 => mret (p1, k, r2.1))).
    + apply Hn1.
    + unfold branch_total in *. lia.
    + intros mem [Hmem _]. by apply W2.
    + intros t2 p2 mem2 v2 Hn2 Hb2. apply runs_ret. exists mem1, mem2, v2, C1, C2, K1, K2. cbn [fst snd]. split; [by eapply new_pages_intro|done].
Qed.
End build.


(** ** What is pushed to the builder of a branch *)

Section push.
  Context (fk : option Z).

Definition push_more (b : BranchBuilder.t) (cs : list child) (ks : list (list Z)) : BranchBuilder.t :=
  BranchBuilder.mk (BranchBuilder.children b ++ cs) (BranchBuilder.keys b ++ ks) (BranchBuilder.total_key_bytes b + size ks) (BranchBuilder.fixed_key_size b).

Lemma push_more_more b C1 K1 C2 K2 : push_more (push_more b C1 K1) C2 K2 = push_more b (C1 ++ C2) (K1 ++ K2).
Proof using. unfold push_more. cbn. by rewrite size_app, <-!app_assoc, Z.add_assoc. Qed.
Lemma push_child_more b c : BranchBuilder.push_child b c = push_more b [c] [].
Proof using. unfold push_more, BranchBuilder.push_child. rewrite app_nil_r. change (size []) with 0. by rewrite Z.add_0_r. Qed.
Lemma push_key_more b k : BranchBuilder.push_key b k = push_more b [] [k].
Proof using. unfold push_more, BranchBuilder.push_key. rewrite app_nil_r, size_cons. change (size []) with 0. by rewrite Z.add_0_r. Qed.
Lemma builder_of_more cs ks : branch_builder_of fk cs ks = push_more (MutateHelper.branch_builder fk) cs ks.
Proof using. done. Qed.
Lemma push_more_nil b : push_more b [] [] = b.
Proof using. unfold push_more. rewrite !app_nil_r. change (size []) with 0. rewrite Z.add_0_r. by destruct b. Qed.

End push.
