(* ===== verification/Insertion.v ===== *)
(** Insertion into a B-tree is insertion into the sorted list of its pairs
    ([MutateHelper::insert] and [insert_helper],
    src/src/tree_store/btree_mutator.rs). *)
From S2P Require Import Prelude Buddy Pages Header Types KeyOrder Leaf LeafTheorems Branch PageStore Mutator Trees Building.

(** * Leaves *)

Lemma lookup_at {A} (P1 : list A) x P2 : (P1 ++ x :: P2) !! length P1 = Some x.
Proof. by apply list_lookup_middle. Qed.

(** Two ways to divide a list *)
Lemma app_eq_inv {A} (a b c d : list A) : a ++ b = c ++ d -> (exists x, c = a ++ x /\ b = x ++ d) \/ (exists x, a = c ++ x /\ d = x ++ b).
Proof.
  revert c. induction a as [|x a IH]; intros c E; cbn [app] in E; [left; by exists c|]. destruct c as [|y c]; cbn [app] in E.
  - right. exists (x :: a). done.
  - injection E as -> E. destruct (IH c E) as [(z & -> & ->)|(z & -> & ->)]; [left|right]; by exists z.
Qed.

Section leaf.
  Context (fk fv : option Z).

(** The pairs of a page from [i] on, none of which is at the position *)
Lemma push_others_ok pad L slack position found q value (Hok : leaf_ok fk fv L) rest : forall i b T, drop i L = rest ++ T ->
  (position < Z.of_nat i \/ Z.of_nat i + vlen rest <= position) ->
  for_each (MutateHelper.push_pair (accessor_of fk fv pad L slack) position found q value) (seqZ (Z.of_nat i) (vlen rest)) b = Ret (push_pairs b rest).
Proof using.
  induction rest as [|[k v] rest IH]; intros i b T Hd Hp; [done|]. pose proof (vlen_nonneg rest). rewrite vlen_cons in *. rewrite seqZ_succ by done. cbn [for_each].
  assert (Hi : L !! i = Some (k, v)) by (rewrite <-(Nat.add_0_r i), <-lookup_drop, Hd; done).
  assert (Hstep : MutateHelper.push_pair (accessor_of fk fv pad L slack) position found q value (Z.of_nat i) b = Ret (LeafBuilder.push b k v)).
  { unfold MutateHelper.push_pair. rewrite (proj2 (Z.eqb_neq _ _)), orb_true_r by lia. unfold expect. by rewrite (entry_ok fk fv pad L slack Hok i k v Hi). }
  rewrite Hstep. cbn [mbind outcome_bind].
  replace (Z.of_nat i + 1) with (Z.of_nat (S i)) by lia. rewrite (IH (S i) _ T); [done| |lia]. rewrite (drop_S _ _ _ Hi) in Hd. by injection Hd.
Qed.
Lemma push_pairs_app b P Q : push_pairs b (P ++ Q) = push_pairs (push_pairs b P) Q.
Proof using. unfold push_pairs. by rewrite fold_left_app. Qed.
Lemma seqZ_split (a b c : Z) : 0 <= b -> 0 <= c -> seqZ a (b + c) = seqZ a b ++ seqZ (a + b) c.
Proof using. intros Hb Hc. rewrite seqZ_app by done. done. Qed.

(** The pairs of a page and the new one, in order *)
Lemma push_with_ok pad slack P1 P2 P3 q value (found : bool) : leaf_ok fk fv (P1 ++ P2) -> (if found then exists w, P2 = (q, w) :: P3 else P2 = P3) ->
  MutateHelper.push_with fk fv (accessor_of fk fv pad (P1 ++ P2) slack) (vlen P1) found q value = Ret (leaf_builder_of fk fv (P1 ++ (q, value) :: P3)).
Proof using.
  intros Hok HP. unfold MutateHelper.push_with. set (a := accessor_of fk fv pad (P1 ++ P2) slack). change (LeafAccessor.num_pairs a) with (vlen (P1 ++ P2)).
  set (b0 := MutateHelper.leaf_builder fk fv). pose proof (vlen_nonneg P1). pose proof (vlen_nonneg P2).
  rewrite vlen_app, seqZ_split, Z.add_0_l by done. rewrite for_each_app.
  pose proof (push_others_ok pad (P1 ++ P2) slack (vlen P1) found q value Hok P1 0 b0 P2 eq_refl ltac:(right; lia)) as E1. change (Z.of_nat 0) with 0 in E1.
  fold a in E1. rewrite E1. cbn [mbind outcome_bind]. unfold leaf_builder_of. fold b0. rewrite push_pairs_app. set (b1 := push_pairs b0 P1).
  destruct P2 as [|[k w] P2].
  { destruct found; [by destruct HP|]. subst P3. cbn. change (vlen []) with 0. rewrite Z.add_0_r, Z.eqb_refl. done. }
  rewrite vlen_cons, seqZ_succ by apply vlen_nonneg. pose proof (vlen_nonneg P2). cbn [for_each]. rewrite (proj2 (Z.eqb_neq _ _)) by lia.
  assert (Hent : expect (LeafAccessor.entry a (vlen P1)) = Ret (k, w)).
  { unfold expect, vlen, a. rewrite (entry_ok fk fv pad _ slack Hok (length P1) k w (lookup_at _ _ _)). done. }
  assert (Hrest : forall b, for_each (MutateHelper.push_pair a (vlen P1) found q value) (seqZ (vlen P1 + 1) (vlen P2)) b = Ret (push_pairs b P2)).
  { intros b. replace (vlen P1 + 1) with (Z.of_nat (S (length P1))) by (unfold vlen; lia).
    apply (push_others_ok pad (P1 ++ (k, w) :: P2) slack (vlen P1) found q value Hok P2 (S (length P1)) b []); [|left; unfold vlen; lia].
    rewrite app_nil_r. replace (S (length P1)) with (length P1 + 1)%nat by lia. rewrite drop_app_add'; [done|lia]. }
  assert (Hstep : MutateHelper.push_pair a (vlen P1) found q value (vlen P1) b1 =
    Ret (push_pairs b1 ((q, value) :: if found then [] else [(k, w)]))).
  { unfold MutateHelper.push_pair. rewrite Z.eqb_refl, Hent. by destruct found. }
  rewrite Hstep. cbn [mbind outcome_bind]. rewrite Hrest, <-push_pairs_app. cbn [mbind outcome_bind]. f_equal.
  destruct found; [by destruct HP as (w' & [= -> -> ->])|by subst P3].
Qed.

(** Where a value is *)
Lemma value_guard_ok p mem A q value B : is_leaf fk fv mem (A ++ (q, value) :: B) ->
  MutateHelper.value_guard fk fv (p, mem) (vlen A) value =
  Ret (mk_in_place p (value_off fk fv (A ++ (q, value) :: B) (length A)) (vlen value)).
Proof using.
  intros (pad & slack & -> & Hok & _). unfold MutateHelper.value_guard, MutateHelper.leaf_accessor. cbn [fst snd]. rewrite leaf_accessor by done. cbn [mbind outcome_bind].
  unfold LeafAccessor.offset_of_value. change (vlen A) with (Z.of_nat (length A)). rewrite value_start_ok by (done || rewrite length_app; lia). done.
Qed.
Lemma first_value_ok mem q value : is_leaf fk fv mem [(q, value)] ->
  exists a, MutateHelper.leaf_accessor fk fv mem = Ret a /\ LeafAccessor.offset_of_first_value a = Ret (value_off fk fv [(q, value)] 0).
Proof using.
  intros (pad & slack & -> & Hok & _). exists (accessor_of fk fv pad [(q, value)] slack). unfold MutateHelper.leaf_accessor. rewrite leaf_accessor by done. split; [done|].
  unfold LeafAccessor.offset_of_first_value, LeafAccessor.offset_of_value. pose proof (value_start_ok fk fv pad _ slack Hok 0 ltac:(simpl; lia)) as E. change (Z.of_nat 0) with 0 in E. by rewrite E.
Qed.
Lemma value_off_slice mem A q value B : is_leaf fk fv mem (A ++ (q, value) :: B) ->
  slice mem (value_off fk fv (A ++ (q, value) :: B) (length A)) (value_off fk fv (A ++ (q, value) :: B) (length A) + vlen value) = Ret value.
Proof using.
  intros (pad & slack & -> & Hok & _). rewrite <-(slice_value fk fv pad (A ++ (q, value) :: B) slack (length A) value); [|by rewrite values_lookup, lookup_at].
  f_equal. rewrite value_off_at, value_off_after. done.
Qed.
(** The guards of a pair *)
Lemma range_guards mem A q value B (L := A ++ (q, value) :: B) : is_leaf fk fv mem L ->
  AccessGuard.value (AccessGuard.with_page mem (key_off fk fv L (length A), key_off fk fv L (S (length A)))) = Ret q /\
  AccessGuard.value (AccessGuard.with_page mem (value_off fk fv L (length A), value_off fk fv L (S (length A)))) = Ret value.
Proof using.
  intros (pad & slack & -> & Hok & _). unfold AccessGuard.value, AccessGuard.with_page, LeafMutator.range_len, saturating_sub.
  cbn [AccessGuard.page AccessGuard.offset AccessGuard.len AccessGuard.memory fst snd]. pose proof (vlen_nonneg value). pose proof (vlen_nonneg q). split.
  - rewrite <-(slice_key fk fv pad L slack (length A) q) by (by rewrite keys_lookup; unfold L; rewrite lookup_at). f_equal. unfold L. rewrite key_off_at, key_off_after. lia.
  - rewrite <-(slice_value fk fv pad L slack (length A) value) by (by rewrite values_lookup; unfold L; rewrite lookup_at). f_equal. unfold L. rewrite value_off_at, value_off_after. lia.
Qed.
Lemma single_large_ok pad L slack size : leaf_ok fk fv L ->
  exists b : bool, MutateHelper.single_large_value (accessor_of fk fv pad L slack) size = Ret b /\ (b = true -> vlen L = 1).
Proof using.
  intros Hok. unfold MutateHelper.single_large_value. change (LeafAccessor.num_pairs (accessor_of fk fv pad L slack)) with (vlen L).
  destruct (Z.eqb_spec (vlen L) 1); [|by exists false]. rewrite total_length_ok by done. eexists. split; [done|done].
Qed.
End leaf.

(** * The promise of [insert_helper] *)

(** The children that replace the one inserted into *)
Definition children_of (r : InsertionResult) : list child :=
  (new_root r, root_checksum r) :: match additional_sibling r with Some (_, p, c) => [(p, c)] | None => [] end.
Definition keys_between (r : InsertionResult) : list (list Z) :=
  match additional_sibling r with Some (k, _, _) => [k] | None => [] end.
(** A guard, if there is one, has the value, if there is one. *)
Definition guard_is (g : option AccessGuard.t) (w : option (list Z)) : Prop :=
  match g, w with Some g, Some w => AccessGuard.value g = Ret w /\ AccessGuard.on_drop g = None | None, None => True | _, _ => False end.

Section release.
  Context {St : Type} `{LS : PageStoreLaws St} (fk fv : option Z).

(** The page of a leaf is given up *)
Lemma release_leaf_runs n t v p pad P1 P2 P3 slack q (found : bool) lk : shows ∅ n t v -> p ∈ dom (pages v) -> leaf_ok fk fv (P1 ++ P2) ->
  (if found then exists w, P2 = (q, w) :: P3 /\ lk = Some w else P2 = P3 /\ lk = None) ->
  runs (MutateHelper.release_leaf (p, leaf fk fv pad (P1 ++ P2) slack) (accessor_of fk fv pad (P1 ++ P2) slack) (vlen P1) found) t
    (fun t' g => guard_is g lk /\ exists v', shows ∅ n t' v' /\ evolves v v' {[p]} ∅) (intact v).
Proof using.
  intros Hs Hp Hok Hf. unfold MutateHelper.release_leaf. destruct found.
  - destruct Hf as (w & -> & ->).
    set (r := (value_off fk fv (P1 ++ (q, w) :: P3) (length P1), value_off fk fv (P1 ++ (q, w) :: P3) (Datatypes.S (length P1)))).
    eapply (runs_lift _ r).
    { unfold expect, vlen. rewrite value_range_ok; [done|done|]. rewrite length_app. simpl. lia. }
    assert (Hval : slice (leaf fk fv pad (P1 ++ (q, w) :: P3) slack) r.1 (r.1 + LeafMutator.range_len r) = Ret w).
    { pose proof (slice_value fk fv pad (P1 ++ (q, w) :: P3) slack (length P1) w) as E. rewrite values_lookup, lookup_at in E. specialize (E eq_refl).
      unfold LeafMutator.range_len, saturating_sub. cbn [r fst snd] in *. rewrite <-E. f_equal. rewrite value_off_at, value_off_after.
      pose proof (vlen_nonneg w). lia. }
    eapply runs_bind; [by apply uncommitted_runs|]. intros t1 u [-> Hs1]. case_bool_decide as Hd.
    + eapply runs_bind; [apply (free_runs ∅ n); [done|set_solver|done]|]. intros t2 [] Hv2. apply runs_ret. split; [split; [exact Hval|done]|done].
    + eapply runs_bind; [by apply (push_freed_runs ∅ n)|]. intros t2 [] Hv2. apply runs_ret. split; [split; [exact Hval|done]|done].
  - destruct Hf as [-> ->]. eapply runs_bind; [apply (conditional_free_runs ∅ n); [done|set_solver|done]|]. intros t1 [] Hv. apply runs_ret. done.
Qed.
End release.

(** ** The children of a branch with the result for one of them *)

Section push_children.
  Context (fk : option Z) (pad : Z) (pad4 : list Z) (cs : list child) (ks : list (list Z)) (slack : list Z).
  Context (Hok : branch_ok fk cs ks) (Hpad : vlen pad4 = 4).
  Notation a := (branch_accessor_of fk pad pad4 cs ks slack).

Lemma push_result_more b r : MutateHelper.push_result b r = push_more b (children_of r) (keys_between r).
Proof using.
  unfold MutateHelper.push_result, children_of, keys_between. destruct (additional_sibling r) as [[[k p] c]|]; rewrite ?push_key_more, !push_child_more; [|done].
  by rewrite !push_more_more.
Qed.
(** The children from [i] on, each with the key before it *)
Lemma push_block ci r crest : forall krest i b T U, drop i cs = crest ++ T -> drop (i - 1) ks = krest ++ U -> length crest = length krest -> (1 <= i)%nat ->
  (ci < Z.of_nat i \/ Z.of_nat i + vlen crest <= ci) ->
  for_each (MutateHelper.push_child_at a ci r) (seqZ (Z.of_nat i) (vlen crest)) b = Ret (push_more b crest krest).
Proof using Hok Hpad.
  induction crest as [|c crest IH]; intros krest i b T U Hc Hk Hl Hi Hci; destruct krest as [|k krest]; try done; [by rewrite push_more_nil|].
  pose proof (vlen_nonneg crest). rewrite vlen_cons in *. rewrite seqZ_succ by done. cbn [for_each].
  assert (E1 : cs !! i = Some c) by (rewrite <-(Nat.add_0_r i), <-lookup_drop, Hc; done).
  assert (E2 : ks !! (i - 1)%nat = Some k) by (rewrite <-(Nat.add_0_r (i - 1)), <-lookup_drop, Hk; done).
  assert (Hstep : MutateHelper.push_child_at a ci r (Z.of_nat i) b = Ret (push_more b [c] [k])).
  { unfold MutateHelper.push_child_at. rewrite usub_ok by lia. cbn [mbind outcome_bind]. replace (Z.of_nat i - 1) with (Z.of_nat (i - 1)) by lia.
    rewrite (branch_key_ok fk pad pad4 cs ks slack Hok Hpad (i - 1) k E2). cbn [mbind outcome_bind]. rewrite (proj2 (Z.eqb_neq _ _)) by lia.
    rewrite (read_child_ok fk pad pad4 cs ks slack Hok Hpad i c E1). cbn [mbind outcome_bind]. by rewrite push_key_more, push_child_more, push_more_more. }
  rewrite Hstep. cbn [mbind outcome_bind]. replace (Z.of_nat i + 1) with (Z.of_nat (S i)) by lia.
  rewrite (IH krest (S i) _ T U).
  - by rewrite push_more_more.
  - rewrite (drop_S _ _ _ E1) in Hc. by injection Hc.
  - rewrite (drop_S _ _ _ E2) in Hk. replace (S i - 1)%nat with (S (i - 1)) by lia. by injection Hk.
  - by injection Hl.
  - lia.
  - lia.
Qed.

Lemma push_children_runs C1 c C2 K1 K2 r : cs = C1 ++ c :: C2 -> ks = K1 ++ K2 -> length C1 = length K1 ->
  MutateHelper.push_children fk a (vlen C1) r = Ret (branch_builder_of fk (C1 ++ children_of r ++ C2) (K1 ++ keys_between r ++ K2)).
Proof using Hok Hpad.
  intros Ec Ek Hl. pose proof (branch_children _ _ _ Hok) as Hn. assert (Hl2 : length C2 = length K2).
  { rewrite Ec, Ek in Hn. unfold vlen in Hn. rewrite !length_app in Hn. simpl in Hn. lia. }
  unfold MutateHelper.push_children. change (BranchAccessor.count_children a) with (vlen ks + 1). replace (vlen ks + 1 - 1) with (vlen ks) by lia.
  rewrite builder_of_more. set (b0 := MutateHelper.branch_builder fk).
  assert (Hend : forall b, for_each (MutateHelper.push_child_at a (vlen C1) r) (seqZ (vlen C1 + 1) (vlen K2)) b = Ret (push_more b C2 K2)).
  { intros b. replace (vlen C1 + 1) with (Z.of_nat (S (length C1))) by (unfold vlen; lia). replace (vlen K2) with (vlen C2) by (unfold vlen; lia).
    apply (push_block (vlen C1) r C2 K2 (S (length C1)) b [] []); [| |done|lia|left; unfold vlen; lia]; rewrite app_nil_r.
    - rewrite Ec. replace (S (length C1)) with (length C1 + 1)%nat by lia. rewrite drop_app_add'; [done|lia].
    - rewrite Ek. replace (S (length C1) - 1)%nat with (length K1) by lia. apply drop_app_length. }
  destruct C1 as [|c0 C1]; [destruct K1 as [|k0 K1]; [|done]|].
  - cbn [app] in *. change (vlen (A := child) []) with 0. cbn [mbind outcome_bind]. change (0 =? 0) with true. cbn beta iota.
    change (vlen (A := child) []) with 0 in Hend. rewrite Z.add_0_l in Hend. subst ks. cbn [mbind outcome_bind]. by rewrite Hend, push_result_more, push_more_more.
  - destruct K1 as [|kl K1 _] using rev_ind; [done|]. rewrite length_app in Hl. cbn [length] in Hl. rewrite vlen_cons in *. pose proof (vlen_nonneg C1).
    rewrite (proj2 (Z.eqb_neq _ _)) by lia. pose proof (read_child_ok fk pad pad4 cs ks slack Hok Hpad 0 c0 ltac:(by rewrite Ec)) as R0. change (Z.of_nat 0) with 0 in R0.
    rewrite R0. cbn [mbind outcome_bind]. rewrite push_child_more.
    assert (Hks : vlen ks = vlen C1 + (1 + vlen K2)) by (rewrite Ek; unfold vlen; rewrite !length_app; simpl; lia).
    rewrite Hks, seqZ_split, for_each_app by (pose proof (vlen_nonneg K2); lia).
    pose proof (push_block (1 + vlen C1) r C1 K1 1 (push_more b0 [c0] []) (c :: C2) (kl :: K2)) as HB. change (Z.of_nat 1) with 1 in HB.
    rewrite HB; [|by rewrite Ec|by rewrite Ek, <-app_assoc|lia|lia|right; lia]. cbn [mbind outcome_bind]. rewrite seqZ_succ by apply vlen_nonneg. cbn [for_each].
    assert (Hstep : forall b, MutateHelper.push_child_at a (1 + vlen C1) r (1 + vlen C1) b = Ret (push_more b (children_of r) (kl :: keys_between r))).
    { intros b. unfold MutateHelper.push_child_at. rewrite usub_ok by lia. cbn [mbind outcome_bind]. replace (1 + vlen C1 - 1) with (Z.of_nat (length K1)) by (unfold vlen; lia).
      rewrite (branch_key_ok fk pad pad4 cs ks slack Hok Hpad (length K1) kl) by (rewrite Ek, <-app_assoc; apply lookup_at). cbn [mbind outcome_bind].
      rewrite Z.eqb_refl. by rewrite push_result_more, push_key_more, push_more_more. }
    rewrite Hstep. cbn [mbind outcome_bind]. rewrite (Z.add_comm _ 1) in Hend. rewrite (Z.add_comm _ 1), Hend. rewrite !push_more_more. f_equal. f_equal; cbn [app]; rewrite <-?app_assoc; done.
Qed.
End push_children.

Section insertion.
  Context {St : Type} `{LS : PageStoreLaws St}.
  Context {compare valid cmp} `{BO : ByteOrder compare valid cmp} (fk fv : option Z) (good : list Z -> Z -> Prop) (kmax : Z).
  Context (Hkey : forall k, valid k -> vlen k <= kmax /\ forall w, fk = Some w -> vlen k = w).
  Context (Hkmax : 0 <= kmax /\ base fk 65535 + 65535 * kmax <= page_limit).
  Notation tree := (tree valid cmp fk fv good).

(** The guard is at the value of [q] in an uncommitted leaf page of [P]. *)
Definition guards (v : view) (P : list PageNumber.t) (g : AccessGuardMutInPlace) (q value : list Z) : Prop :=
  exists mem A B, guard_page g ∈ P /\ pages v !! guard_page g = Some mem /\ guard_page g ∈ dirty_of v /\ is_leaf fk fv mem (A ++ (q, value) :: B) /\
    guard_offset g = value_off fk fv (A ++ (q, value) :: B) (length A) /\ guard_len g = vlen value.

Record inserted (v v' : view) (h : nat) (lo hi : bound) (L : list pair) (P : list PageNumber.t) (q value : list Z) (r : InsertionResult)
    (P' : list PageNumber.t) : Prop := {
  ins_forest : forest valid (tree v' h) lo hi (children_of r) (keys_between r) (kv_insert cmp q value L) P';
  ins_nodup : NoDup P';
  ins_evolves : evolves v v' (list_to_set P) (list_to_set P');
  ins_dirty : additional_sibling r = None -> new_root r ∈ dirty_of v';
  ins_guard : guards v' P' (inserted_value r) q value;
  ins_old : guard_is (old_value r) (kv_lookup cmp q L) }.

(** ** The pairs of a leaf *)

Lemma insert_pairs_ok lo hi L q value : pairs_ok valid cmp lo hi L -> valid q -> in_range cmp lo hi q -> pairs_ok valid cmp lo hi (kv_insert cmp q value L).
Proof using BO.
  intros [B1 B2 N V S0 R] Hq Hr. destruct (kv_insert_keys (cmp := cmp) q value L Hq V S0) as (K1 & K2 & K3). split; try done; [|by apply K3].
  destruct L as [|[k w] L]; [done|]. cbn [kv_insert]. by destruct (cmp k q).
Qed.
(** The position of a key in a leaf *)
Lemma leaf_place lo hi pad L slack q value : leaf_ok fk fv L -> pairs_ok valid cmp lo hi L -> valid q ->
  exists P1 P2 P3 (found : bool), LeafAccessor.position compare (accessor_of fk fv pad L slack) q = Ret (vlen P1, found) /\ L = P1 ++ P2 /\
    (if found then exists w, P2 = (q, w) :: P3 /\ kv_lookup cmp q L = Some w else P2 = P3 /\ kv_lookup cmp q L = None) /\
    kv_insert cmp q value L = P1 ++ (q, value) :: P3 /\ kv_remove cmp q L = P1 ++ P3.
Proof using BO.
  intros Hok [_ _ _ V S0 _] Hq. destruct (position_ok fk fv pad L slack Hok V S0 q Hq) as (P1 & P2 & found & Hpos & -> & Hb & Hf).
  rewrite keys_app, Forall_app in V. destruct V as [V1 V2]. destruct (kv_before (cmp := cmp) q value P1 P2 Hb) as (E1 & E2 & E3). destruct found.
  - destruct Hf as (w & P3 & -> & _). destruct (kv_at (cmp := cmp) q value w P3 Hq) as (F1 & F2 & F3).
    exists P1, ((q, w) :: P3), P3, true. rewrite E1, E2, E3, F1, F2, F3. split; [done|]. split; [done|]. split; [by exists w|done].
  - destruct (kv_none (cmp := cmp) q value P2 Hq V2 Hf) as (F1 & F2 & F3). exists P1, P2, P2, false. rewrite E1, E2, E3, F1, F2, F3. done.
Qed.

(** ** Insertion into a leaf *)

Section leaf_case.
  Context (v : view) (lo hi : bound) (p : PageNumber.t) (c : Z) (pad : Z) (slack : list Z) (P1 P2 P3 : list pair) (q value : list Z) (found : bool).
  Notation L := (P1 ++ P2).
  Notation L' := (P1 ++ (q, value) :: P3).
  Notation mem := (leaf fk fv pad L slack).
  Notation a := (accessor_of fk fv pad L slack).
  Context (Hnode : leaf_node valid cmp fk fv good v lo hi (p, c) L mem) (Hq : valid q) (Hr : in_range cmp lo hi q).
  Context (Hval : forall w, fv = Some w -> vlen value = w) (Hfit : runs_fit fk fv L').
  Context (Hok : leaf_ok fk fv L) (HP : if found then exists w, P2 = (q, w) :: P3 /\ kv_lookup cmp q L = Some w else P2 = P3 /\ kv_lookup cmp q L = None).
  Context (HL' : kv_insert cmp q value L = L').
  Notation post n := (fun t' r => exists v' P', shows ∅ n t' v' /\ inserted v v' 0 lo hi L [p] q value r P').

Lemma pair_widths : widths_ok fk fv [(q, value)].
Proof. split; intros w Hw; repeat constructor; [by apply (Hkey q Hq)|by apply Hval]. Qed.
Lemma new_pairs_ok : pairs_ok valid cmp lo hi L'.
Proof. rewrite <-HL'. by apply insert_pairs_ok; [apply Hnode|..]. Qed.
Lemma new_pairs_widths : widths_ok fk fv L'.
Proof.
  pose proof (leaf_widths _ _ _ Hok) as Hw. apply widths_app in Hw as [W1 W2]. apply widths_app. split; [done|]. apply widths_cons. split; [apply pair_widths|].
  destruct found; [|by destruct HP as [<- _]]. destruct HP as (w & -> & _). by apply widths_cons in W2 as [_ ?].
Qed.
Lemma new_pairs_count : 0 < vlen L' <= vlen L + 1.
Proof.
  rewrite !vlen_app, vlen_cons. pose proof (vlen_nonneg P1). pose proof (vlen_nonneg P3). destruct found; [destruct HP as (w & -> & _)|destruct HP as [-> _]]; rewrite ?vlen_cons; lia.
Qed.
Lemma page_dom : p ∈ dom (pages v).
Proof using Hnode. apply elem_of_dom. eexists. apply (ln_page Hnode). Qed.

Lemma insert_in_page_runs n t : shows ∅ n t v -> p ∈ dirty_of v ->
  MutateHelper.has_inplace_space fk fv (p, mem) (vlen P1) found q value = Ret true ->
  runs (MutateHelper.insert_in_page fk fv (p, mem) a (vlen P1) found q value) t (post n) (intact v).
Proof.
  intros Hs Hd Hspace. pose proof (ln_leaf Hnode) as Hleaf. pose proof (ln_page Hnode) as Hpage. cbn [fst] in Hpage.
  unfold MutateHelper.insert_in_page, MutateHelper.has_inplace_space in *. cbn [fst snd] in *.
  assert (Hold : exists g, (if found then '(_, v) ← expect (LeafAccessor.entry a (vlen P1)); Ret (Some (AccessGuard.with_owned_value v)) else Ret None) = Ret g /\
    guard_is g (kv_lookup cmp q L)).
  { destruct found; [|by exists None; destruct HP as [_ ->]]. destruct HP as (w & E2 & ->). exists (Some (AccessGuard.with_owned_value w)).
    unfold expect, vlen. rewrite (entry_ok fk fv pad L slack Hok (length P1) q w) by (rewrite E2; apply lookup_at). split; [done|].
    cbn. unfold AccessGuard.value. cbn. rewrite Z.add_0_l. rewrite <-(app_nil_r w) at 1. split; [by apply slice_prefix|done]. }
  destruct Hold as (g & Hg & Hgi). eapply runs_lift; [exact Hg|].
  eapply runs_bind; [apply (read_mut_runs ∅ n); [done|set_solver|exact Hpage|done]|]. intros t1 m [-> Hs1].
  assert (Hnew : LeafMutator.new mem = Ret mem) by reflexivity. eapply runs_lift; [exact Hnew|].
  assert (Hmem : exists mem', (if found then LeafMutator.replace fk fv mem (vlen P1) value else LeafMutator.insert fk fv mem (vlen P1) q value) = Ret mem' /\
    vlen mem' = vlen mem /\ is_leaf fk fv mem' L').
  { destruct found.
    - destruct HP as (w & E2 & _). rewrite E2 in Hleaf, Hspace |- *. pose proof (Hfit P1 [(q, value)] P3 eq_refl ltac:(done)) as Ht. pose proof (total_insert fk fv [] (q, value) []) as Ht2.
      pose proof (total_pos fk fv []). pose proof law_limit. pose proof (ptr_sizes fk fv). pose proof (vlen_nonneg q). cbn [app fst snd] in Ht2.
      destruct (sufficient_replace_ok fk fv _ P1 q w P3 value Hleaf pair_widths ltac:(lia)) as (b & Hb & _ & Hgo). rewrite Hb in Hspace. apply Ret_inj in Hspace as ->. auto.
    - destruct HP as [<- _]. destruct (sufficient_insert_ok fk fv _ P1 P2 q value (PageNumber.page_order p) Hleaf pair_widths) as (b & Hb & _ & Hgo).
      rewrite Hb in Hspace. apply Ret_inj in Hspace as ->. auto. }
  destruct Hmem as (mem' & Hm & Hlen & Hleaf'). eapply runs_lift; [exact Hm|].
  eapply runs_lift; [by apply (value_guard_ok fk fv p mem' P1 q value P3)|].
  eapply runs_bind; [apply (put_runs ∅ n t1 v p mem mem'); [done|set_solver|done|done|done]|]. intros t2 [] (v2 & Hs2 & He & Hp2 & Hd2 & _).
  apply runs_ret. assert (Hpg : pages v2 !! p = Some mem') by (rewrite Hp2; apply lookup_insert_eq). assert (Hdd : p ∈ dirty_of v2) by (by rewrite Hd2).
  exists v2, [p]. split; [done|]. split; cbn [new_root root_checksum additional_sibling inserted_value old_value children_of keys_between].
  - rewrite HL'. constructor. eapply new_leaf_tree; [done|done| |done|apply new_pairs_ok]. by destruct (ln_child Hnode) as [? _].
  - apply NoDup_singleton.
  - cbn. by rewrite (right_id_L ∅ (∪)).
  - done.
  - exists mem', P1, P3. cbn. split; [left|done].
  - done.
Qed.
(** The old page is kept beside a new one. *)
Lemma old_leaf_tree v1 N lo1 hi1 : evolves v v1 ∅ N -> pairs_ok valid cmp lo1 hi1 L -> tree v1 0 lo1 hi1 (p, c) L [p].
Proof using Hnode.
  intros He Ho. assert (Ha : agrees v v1 [p]) by (eapply evolves_agrees; [exact He|repeat constructor; apply page_dom|intros ? _; apply not_elem_of_empty]).
  exists mem. split; [|done]. split; [|apply Hnode|done|apply Hnode|eapply settled_agrees; [exact Ha|apply Hnode]].
  destruct (Ha p ltac:(left)) as [E _]. cbn [fst]. rewrite E. apply Hnode.
Qed.
Lemma beside_evolves v1 p' : evolves v v1 ∅ {[p']} -> evolves v v1 {[p]} {[p; p']}.
Proof using Hnode.
  intros He. pose proof page_dom as Hd. clear -He Hd. eapply evolves_eq; [apply (evolves_also v v1 ∅ {[p']} {[p]} He)|..]; set_solver.
Qed.
Lemma insert_beside_runs n t : shows ∅ (1 + n) t v -> found = false -> vlen L = 1 ->
  runs (MutateHelper.insert_beside fk fv (p, mem) c a (vlen P1) q value) t (post n) (intact v).
Proof.
  intros Hs -> Hone. destruct HP as [E2 Hlk]. pose proof new_pairs_ok as Ho. pose proof pair_widths as Hw. unfold MutateHelper.insert_beside.
  change (LeafBuilder.push (MutateHelper.leaf_builder fk fv) q value) with (leaf_builder_of fk fv [(q, value)]).
  destruct (leaf_builder_of_ok fk fv [(q, value)]) as (B1 & B2 & B3 & B4). pose proof (Hfit P1 [(q, value)] P3 eq_refl ltac:(done)) as Ht. pose proof law_limit.
  eapply runs_next; [apply (build_leaf_runs fk fv ∅ n); [done|done|done|done|rewrite B2; split; [done|done|done|lia]|by rewrite B2]|].
  intros t1 [p' mem'] (v1 & Hn & Hleaf). cbn [fst snd] in *. rewrite B2 in Hleaf. exists v1, ∅, {[p']}. split; [apply Hn|]. destruct Hn as [N1 N2 N3 N4 N5 N6].
  destruct (first_value_ok fk fv mem' q value Hleaf) as (a' & Ha1 & Ha2). eapply runs_lift; [exact Ha1|]. eapply runs_lift; [exact Ha2|].
  assert (Hg : guards v1 [p; p'] (mk_in_place p' (value_off fk fv [(q, value)] 0) (vlen value)) q value).
  { exists mem', [], []. cbn. split; [right; left|done]. }
  assert (Hg' : guards v1 [p'; p] (mk_in_place p' (value_off fk fv [(q, value)] 0) (vlen value)) q value).
  { exists mem', [], []. cbn. split; [left|done]. }
  assert (Hne : p' <> p) by (intros ->; apply N5, page_dom).
  destruct (Z.eqb_spec (vlen P1) 0) as [E0|E0].
  - assert (P1 = []) as E1 by (destruct P1; [done|rewrite vlen_cons in E0; pose proof (vlen_nonneg l); lia]).
    apply runs_ret. exists v1, [p'; p]. split; [done|]. split; cbn [new_root root_checksum additional_sibling inserted_value old_value children_of keys_between]; [|..|by rewrite Hlk].
    + rewrite HL'. rewrite E1, <-E2 in Ho |- *. destruct (pairs_ok_split lo hi [(q, value)] P2 q Ho eq_refl) as (_ & O1 & O2).
      { intros ->. rewrite E1 in Hone. done. }
      apply (forest_cons _ lo q hi _ [(p, c)] [] [(q, value)] P2 [p'] [p]); [by eapply new_leaf_tree|done|]. constructor.
      pose proof (old_leaf_tree v1 {[p']} (Some q) hi N2) as HT. rewrite E1 in HT. by apply HT.
    + apply NoDup_cons. split; [set_solver|apply NoDup_singleton].
    + eapply evolves_eq; [by apply beside_evolves|set_solver|set_solver].
    + done.
    + done.
  - assert (exists x, P1 = [x] /\ P2 = []) as ([k0 w0] & E1 & E3).
    { rewrite vlen_app in Hone. destruct P1 as [|x [|y l]]; rewrite ?vlen_cons in *; [done| |pose proof (vlen_nonneg l); pose proof (vlen_nonneg P2); lia].
      exists x. split; [done|]. destruct P2; [done|]. rewrite vlen_cons in Hone. change (vlen []) with 0 in Hone. pose proof (vlen_nonneg l). lia. }
    assert (Hlast : LeafAccessor.last_entry a = Ret (k0, w0)).
    { unfold LeafAccessor.last_entry. change (LeafAccessor.num_pairs a) with (vlen L). rewrite Hone, usub_ok by lia. cbn [mbind outcome_bind].
      change (1 - 1) with (Z.of_nat 0). unfold expect. rewrite (entry_ok fk fv pad L slack Hok 0 k0 w0) by (by rewrite E1). done. }
    eapply runs_lift; [exact Hlast|]. apply runs_ret. exists v1, [p; p']. split; [done|].
    split; cbn [new_root root_checksum additional_sibling inserted_value old_value children_of keys_between fst]; [|..|by rewrite Hlk].
    + rewrite HL'. rewrite E1, <-E2, E3 in Ho |- *. destruct (pairs_ok_split lo hi [(k0, w0)] [(q, value)] k0 Ho eq_refl) as (Hk0 & O1 & O2); [done|].
      apply (forest_cons _ lo k0 hi _ [(p', DEFERRED)] [] [(k0, w0)] [(q, value)] [p] [p']); [|done|constructor; by eapply new_leaf_tree].
      pose proof (old_leaf_tree v1 {[p']} lo (Some k0) N2) as HT. rewrite E1, E3 in HT. by apply HT.
    + apply NoDup_cons. split; [set_solver|apply NoDup_singleton].
    + eapply evolves_eq; [by apply beside_evolves|set_solver|set_solver].
    + done.
    + done.
Qed.
(** New pages replace the old one. *)
Lemma insert_rebuilt_runs n t : shows ∅ (2 + n) t v ->
  runs (MutateHelper.insert_rebuilt fk fv (p, mem) a (vlen P1) found q value) t (post n) (intact v).
Proof.
  intros Hs. pose proof new_pairs_ok as Ho. pose proof new_pairs_count as Hc. pose proof new_pairs_widths as Hw. pose proof page_dom as Hdom. pose proof (leaf_count _ _ _ Hok) as Hcount.
  unfold MutateHelper.insert_rebuilt. eapply runs_lift.
  { apply (push_with_ok fk fv pad slack P1 P2 P3 q value found Hok). destruct found; [destruct HP as (w & ? & _); by exists w|apply HP]. }
  destruct (leaf_builder_of_ok fk fv L') as (B1 & B2 & B3 & B4). apply runs_gets. pose proof law_limit as Hlim.
  destruct (LeafBuilder.should_split (leaf_builder_of fk fv L') _) eqn:Hsplit; cbn [negb].
  - unfold LeafBuilder.should_split in Hsplit. apply andb_true_iff in Hsplit as [_ Hsplit]. apply Z.ltb_lt in Hsplit. rewrite B2 in Hsplit.
    eapply runs_next; [apply (build_split_leaf_runs fk fv ∅ n); rewrite ?B2; [done|done|done|done|lia|done|done]|].
    intros t1 [[[p1 mem1] key] [p2 mem2]] (v1 & Q1 & Q2 & Hn & HQ & Hl1 & Hl2 & Hlast). cbn [fst snd] in *. rewrite B2 in HQ. exists v1, ∅, {[p1; p2]}. split; [apply Hn|].
    destruct Hn as [N1 N2 N3 N4 N5 N6 N7 N8 N9 N10 N11].
    eapply runs_next; [apply (release_leaf_runs fk fv n t1 v1 p pad P1 P2 P3 slack q found (kv_lookup cmp q L)); [done| |done|done]|].
    { apply (ev_dom _ _ _ _ N2). left. split; [done|]. by intros [?%not_elem_of_empty _]. }
    intros t2 g (Hgi & v2 & Hs2 & He2). exists v2, {[p]}, ∅. split; [done|]. destruct (evolves_replace v v1 v2 p _ N2 Hdom He2) as [Hev Hkeep].
    destruct (Hkeep p1 ltac:(apply elem_of_union; left; by apply elem_of_singleton)) as [K1 K2]. destruct (Hkeep p2 ltac:(apply elem_of_union; right; by apply elem_of_singleton)) as [K3 K4].
    destruct Hl1 as (pad1 & slack1 & -> & Hok1 & Hp1). pose proof (leaf_count _ _ _ Hok1) as Hc1.
    eapply (runs_lift _ (accessor_of fk fv pad1 Q1 slack1)); [by apply leaf_accessor|]. change (LeafAccessor.num_pairs (accessor_of fk fv pad1 Q1 slack1)) with (vlen Q1).
    assert (Hg : exists gu, (if vlen P1 <? vlen Q1 then MutateHelper.value_guard fk fv (p1, leaf fk fv pad1 Q1 slack1) (vlen P1) value
        else m ← usub (vlen P1) (vlen Q1); MutateHelper.value_guard fk fv (p2, mem2) m value) = Ret gu /\ guards v2 [p1; p2] gu q value).
    { destruct (Z.ltb_spec (vlen P1) (vlen Q1)) as [Hlt|Hge].
      - destruct (app_eq_inv _ _ _ _ HQ) as [(X & -> & E)|(X & -> & ->)]; [|rewrite vlen_app in Hlt; pose proof (vlen_nonneg X); lia].
        destruct X as [|x X]; [rewrite app_nil_r in Hlt; lia|]. injection E as <- ->. eexists. split; [apply (value_guard_ok fk fv p1 _ P1 q value X); by exists pad1, slack1|].
        exists (leaf fk fv pad1 (P1 ++ (q, value) :: X) slack1), P1, X. cbn. split; [left|]. split; [by rewrite K1|]. split; [by apply K2|]. split; [by exists pad1, slack1|done].
      - destruct (app_eq_inv _ _ _ _ HQ) as [(X & -> & E)|(X & -> & ->)].
        + rewrite vlen_app in Hge. pose proof (vlen_nonneg X). destruct X as [|x X]; [|rewrite vlen_cons in Hge; pose proof (vlen_nonneg X); lia]. cbn [app] in E. subst Q2.
          rewrite app_nil_r, usub_ok by lia. rewrite Z.sub_diag. cbn [mbind outcome_bind]. eexists. split; [apply (value_guard_ok fk fv p2 mem2 [] q value P3 Hl2)|].
          exists mem2, [], P3. cbn. split; [right; left|]. split; [by rewrite K3|]. split; [by apply K4|done].
        + rewrite vlen_app, usub_ok by (pose proof (vlen_nonneg X); lia). replace (vlen Q1 + vlen X - vlen Q1) with (vlen X) by lia. cbn [mbind outcome_bind].
          eexists. split; [apply (value_guard_ok fk fv p2 mem2 X q value P3 Hl2)|].
          exists mem2, X, P3. cbn. split; [right; left|]. split; [by rewrite K3|]. split; [by apply K4|done]. }
    destruct Hg as (gu & Hgu & Hguards). eapply runs_lift; [exact Hgu|]. apply runs_ret. exists v2, [p1; p2]. split; [done|].
    split; cbn [new_root root_checksum additional_sibling inserted_value old_value children_of keys_between]; [|..|done].
    + rewrite HL', HQ. rewrite HQ in Ho. eapply split_leaf_forest; [by rewrite K1|by rewrite K3|by apply K2|by apply K4|done|done|by exists pad1, slack1|done|done|done].
    + apply NoDup_cons. split; [by intros ->%list_elem_of_singleton|apply NoDup_singleton].
    + cbn. by rewrite !(right_id_L ∅ (∪)).
    + done.
    + done.
  - assert (Hle : vlen L' <= 65535).
    { unfold LeafBuilder.should_split in Hsplit. rewrite B2 in Hsplit. change (umax 16) with 65535 in Hsplit.
      apply andb_false_iff in Hsplit as [Hf|Hf]; [apply orb_false_iff in Hf as [_ Hf]|]; apply Z.ltb_ge in Hf; lia. }
    pose proof (Hfit [] L' [] ltac:(by rewrite app_nil_r) Hle) as Ht.
    eapply runs_next; [apply (build_leaf_runs fk fv ∅ (1 + n)); rewrite ?B2; [done|done|done|done|split; [lia|lia|done|lia]|done]|].
    intros t1 [p1 mem1] (v1 & Hn & Hl1). cbn [fst snd] in *. rewrite B2 in Hl1. exists v1, ∅, {[p1]}. split; [apply Hn|]. destruct Hn as [N1 N2 N3 N4 N5 N6].
    eapply runs_next; [apply (release_leaf_runs fk fv (1 + n) t1 v1 p pad P1 P2 P3 slack q found (kv_lookup cmp q L)); [done| |done|done]|].
    { apply (ev_dom _ _ _ _ N2). left. split; [done|]. by intros [?%not_elem_of_empty _]. }
    intros t2 g (Hgi & v2 & Hs2 & He2). exists v2, {[p]}, ∅. split; [done|]. destruct (evolves_replace v v1 v2 p _ N2 Hdom He2) as [Hev Hkeep].
    destruct (Hkeep p1 ltac:(by apply elem_of_singleton)) as [K1 K2].
    eapply runs_lift; [by apply (value_guard_ok fk fv p1 mem1 P1 q value P3)|]. apply runs_ret. exists v2, [p1]. split; [eapply shows_weaken; [done|lia]|].
    split; cbn [new_root root_checksum additional_sibling inserted_value old_value children_of keys_between]; [|..|done].
    + rewrite HL'. constructor. eapply new_leaf_tree; [by rewrite K1|by apply K2|done|done|done].
    + apply NoDup_singleton.
    + cbn. by rewrite !(right_id_L ∅ (∪)).
    + intros _. by apply K2.
    + exists mem1, P1, P3. cbn. split; [left|]. split; [by rewrite K1|]. split; [by apply K2|done].
Qed.
End leaf_case.

Lemma insert_leaf_runs n t v lo hi p c L mem q value : shows ∅ (2 + n) t v -> leaf_node valid cmp fk fv good v lo hi (p, c) L mem ->
  valid q -> in_range cmp lo hi q -> (forall w, fv = Some w -> vlen value = w) -> runs_fit fk fv (kv_insert cmp q value L) ->
  runs (MutateHelper.insert_leaf compare fk fv (p, mem) c q value) t
    (fun t' r => exists v' P', shows ∅ n t' v' /\ inserted v v' 0 lo hi L [p] q value r P') (intact v).
Proof.
  intros Hs Hnode Hq Hr Hval Hfit. destruct (ln_leaf Hnode) as (pad & slack & -> & Hok & Hp). unfold MutateHelper.insert_leaf. cbn [fst snd].
  eapply (runs_lift _ (accessor_of fk fv pad L slack)); [by apply leaf_accessor|].
  destruct (leaf_place lo hi pad L slack q value Hok (ln_pairs Hnode) Hq) as (P1 & P2 & P3 & found & Hpos & -> & HP & HL' & _).
  eapply runs_lift; [exact Hpos|]. cbn beta iota. apply runs_gets. rewrite HL' in Hfit.
  destruct (single_large_ok fk fv pad (P1 ++ P2) slack (get_page_size (store t)) Hok) as (large & Hlarge & Hone). eapply runs_lift; [exact Hlarge|].
  destruct (negb found && large) eqn:Hcase.
  - apply andb_true_iff in Hcase as [Hf Hl]. apply negb_true_iff in Hf.
    apply (insert_beside_runs v lo hi p c pad slack P1 P2 P3 q value found Hnode Hq Hr Hval Hfit Hok HP HL' n t); [eapply shows_weaken; [done|lia]|done|auto].
  - eapply runs_bind; [by apply uncommitted_runs|]. intros t1 u [-> Hs1].
    assert (Hfits : exists b, (if bool_decide (p ∈ dirty_of v) then MutateHelper.has_inplace_space fk fv (p, leaf fk fv pad (P1 ++ P2) slack) (vlen P1) found q value else Ret false) = Ret b).
    { case_bool_decide; [|by exists false]. unfold MutateHelper.has_inplace_space. cbn [fst snd]. pose proof (pair_widths q value Hq Hval) as Hpw. destruct found.
      - destruct HP as (w & -> & _). pose proof (Hfit P1 [(q, value)] P3 eq_refl ltac:(done)) as Ht. pose proof (total_insert fk fv [] (q, value) []) as Ht2.
        pose proof (total_pos fk fv []). pose proof law_limit. pose proof (ptr_sizes fk fv). pose proof (vlen_nonneg q). cbn [app fst snd] in Ht2.
        destruct (sufficient_replace_ok fk fv _ P1 q w P3 value (ln_leaf Hnode) Hpw ltac:(lia)) as (b & Hb & _). by exists b.
      - destruct (sufficient_insert_ok fk fv _ P1 P2 q value (PageNumber.page_order p) (ln_leaf Hnode) Hpw) as (b & Hb & _). by exists b. }
    destruct Hfits as (b & Hb). eapply runs_lift; [exact Hb|]. destruct b.
    + case_bool_decide as Hd; [|done].
      apply (insert_in_page_runs v lo hi p c pad slack P1 P2 P3 q value found Hnode Hq Hr Hval Hfit Hok HP HL' n t1); [eapply shows_weaken; [done|lia]|done|done].
    + apply (insert_rebuilt_runs v lo hi p c pad slack P1 P2 P3 q value found Hnode Hq Hr Hval Hfit Hok HP HL' n t1). done.
Qed.

(** ** Branches *)


(** The page [p] of a branch, with the pages [P1] of its new children, is replaced. *)
Record rebuilt (v1 v' : view) (h : nat) (lo hi : bound) (p : PageNumber.t) (P1 : list PageNumber.t) (L' : list pair) (r r' : InsertionResult)
    (P' : list PageNumber.t) : Prop := {
  rb_forest : forest valid (tree v' (S h)) lo hi (children_of r') (keys_between r') L' P';
  rb_nodup : NoDup P';
  rb_evolves : evolves v1 v' (list_to_set (p :: P1)) (list_to_set P');
  rb_dirty : additional_sibling r' = None -> new_root r' ∈ dirty_of v';
  rb_sub : P1 ⊆ P';
  rb_agrees : agrees v1 v' P1;
  rb_guard : inserted_value r' = inserted_value r;
  rb_old : old_value r' = old_value r }.

Section branch_case.
  Context (v1 : view) (h : nat) (lo hi : bound) (p : PageNumber.t) (pad : Z) (pad4 : list Z) (cs : list child) (ks : list (list Z)) (slack : list Z).
  Context (C1 : list child) (c : child) (C2 : list child) (K1 K2 : list (list Z)) (r : InsertionResult) (L' : list pair) (P1 : list PageNumber.t).
  Notation page := (branch fk pad pad4 cs ks slack).
  Notation a := (branch_accessor_of fk pad pad4 cs ks slack).
  Notation CS := (C1 ++ children_of r ++ C2).
  Notation KS := (K1 ++ keys_between r ++ K2).
  Context (Hok : branch_ok fk cs ks) (Hpad : vlen pad4 = 4) (Ec : cs = C1 ++ c :: C2) (Ek : ks = K1 ++ K2) (Hl : length C1 = length K1).
  Context (Hpage : pages v1 !! p = Some page) (HF : forest valid (tree v1 h) lo hi CS KS L' P1) (Hnd : NoDup (p :: P1)).
  Notation post n := (fun t' r' => exists v' P', shows ∅ n t' v' /\ rebuilt v1 v' h lo hi p P1 L' r r' P').

Lemma forest_dom : Forall (fun q => q ∈ dom (pages v1)) P1.
Proof using HF. eapply forest_pages; [|exact HF]. intros. by eapply tree_dom. Qed.
Lemma new_children_ok : Forall child_ok CS /\ Forall valid KS /\ vlen CS = vlen KS + 1 /\ 0 < vlen KS < 2 ^ 17.
Proof.
  split; [eapply forest_children; [|exact HF]; intros; by eapply tree_child|]. destruct (forest_keys _ (tree_pairs fk fv good v1 h) _ _ _ _ _ _ HF) as (HV & _ & _).
  split; [done|]. pose proof (forest_length _ _ _ _ _ _ _ HF) as Hlen. split; [unfold vlen; lia|]. destruct Hok as [H1 H2 _ _ _ _]. rewrite Ek, vlen_app in *.
  rewrite !vlen_app. unfold keys_between. pose proof (vlen_nonneg K1). pose proof (vlen_nonneg K2).
  destruct (additional_sibling r) as [[[? ?] ?]|]; [change (vlen [l]) with 1|change (vlen (A := list Z) []) with 0]; lia.
Qed.
(** New pages [N] take the place of [p]. *)
Lemma rebuilt_intro v2 v3 (N : gset PageNumber.t) P' r' : evolves v1 v2 ∅ N -> evolves v2 v3 {[p]} ∅ ->
  forest valid (tree v3 (S h)) lo hi (children_of r') (keys_between r') L' P' -> NoDup P' -> (forall q, q ∈ P' <-> q ∈ P1 \/ q ∈ N) ->
  (additional_sibling r' = None -> new_root r' ∈ dirty_of v3) -> inserted_value r' = inserted_value r -> old_value r' = old_value r ->
  rebuilt v1 v3 h lo hi p P1 L' r r' P'.
Proof.
  intros He1 He2 HF' Hnd' HP' Hd Hg Ho. assert (Hdom : p ∈ dom (pages v1)) by (apply elem_of_dom; by eexists). destruct (evolves_replace v1 v2 v3 p N He1 Hdom He2) as [He _].
  pose proof forest_dom as Hd1. destruct (proj1 (NoDup_cons _ _) Hnd) as [Hp Hnd1]. rewrite Forall_forall in Hd1.
  assert (Ha : agrees v1 v3 P1). { eapply evolves_agrees; [exact He|by apply Forall_forall|]. intros q Hq ->%elem_of_singleton. done. }
  split; try done.
  - eapply evolves_eq; [eapply (evolves_also v1 v3 {[p]} N (list_to_set P1) He)|..].
    + intros q Hq%elem_of_list_to_set. by apply Hd1.
    + intros q Hq%elem_of_list_to_set ->%elem_of_singleton. done.
    + cbn. intros q. rewrite !elem_of_union. tauto.
    + intros q. rewrite elem_of_union, !elem_of_list_to_set, HP'. done.
  - intros q Hq. apply HP'. by left.
Qed.

Lemma rebuild_branch_runs n t : shows ∅ (2 + n) t v1 -> runs (MutateHelper.rebuild_branch fk (p, page) a (vlen C1) r) t (post n) (intact v1).
Proof.
  intros Hs. destruct new_children_ok as (Hco & Hkv & Hlen & Hcnt). pose proof forest_dom as Hd1. destruct (proj1 (NoDup_cons _ _) Hnd) as [Hp Hnd1].
  assert (Hdom : p ∈ dom (pages v1)) by (apply elem_of_dom; by eexists).
  unfold MutateHelper.rebuild_branch. eapply runs_lift; [by apply (push_children_runs fk pad pad4 cs ks slack Hok Hpad C1 c C2 K1 K2)|]. apply runs_gets.
  destruct (BranchBuilder.should_split _ _) eqn:Hsplit.
  - apply should_split_true in Hsplit. apply bind_assoc.
    eapply runs_next; [apply (build_split_branch_runs fk valid kmax Hkey Hkmax ∅ n); [done|done|done|done|lia]|].
    intros t2 [[p1 k] p2] (mem1 & mem2 & v2 & D1 & D2 & E1 & E2 & Hn & EC & EK & Hb1 & Hb2). cbn [fst snd] in *. exists v2, ∅, {[p1; p2]}. split; [apply Hn|].
    destruct Hn as [N1 N2 N3 N4 N5 N6 N7 N8 N9 N10 N11].
    apply runs_ret_bind. eapply runs_next; [apply (conditional_free_runs ∅ n); [done|set_solver|]|].
    { apply (ev_dom _ _ _ _ N2). left. split; [done|]. by intros [?%not_elem_of_empty _]. }
    intros t3 [] (v3 & Hs3 & He3). exists v3, {[p]}, ∅. split; [done|]. destruct (evolves_replace v1 v2 v3 p _ N2 Hdom He3) as [Hev Hkeep].
    destruct (Hkeep p1 ltac:(set_solver)) as [J1 J2]. destruct (Hkeep p2 ltac:(set_solver)) as [J3 J4].
    assert (HF3 : forest valid (tree v3 h) lo hi (D1 ++ D2) (E1 ++ k :: E2) L' P1).
    { rewrite <-EC, <-EK. eapply forest_agrees; [|exact HF]. eapply evolves_agrees; [exact Hev|done|]. intros q Hq ->%elem_of_singleton. done. }
    destruct (split_branch_forest (valid := valid) (cmp := cmp) fk fv good v3 p1 p2 mem1 mem2 h lo hi D1 D2 E1 k E2 L' P1) as (P' & HF' & HP'); [by rewrite J1|by rewrite J3|by apply J2|by apply J4|done..|].
    apply runs_ret. exists v3, P'. split; [done|]. eapply (rebuilt_intro v2 v3 {[p1; p2]}); [done|done|exact HF'| | |done|done|done].
    + rewrite HP'. rewrite Forall_forall in Hd1. apply NoDup_cons. split; [|apply NoDup_cons; split; [|done]].
      * intros [->|Hq]%elem_of_cons; [done|]. by apply N7, Hd1.
      * intros Hq. by apply N8, Hd1.
    + intros q. rewrite HP'. set_solver.
  - apply should_split_false in Hsplit. apply bind_assoc.
    eapply runs_next; [apply (build_branch_runs fk valid kmax Hkey Hkmax ∅ (1 + n)); [done|done|done|done|lia]|].
    intros t2 p1 (mem1 & v2 & Hn & Hb1). exists v2, ∅, {[p1]}. split; [apply Hn|]. destruct Hn as [N1 N2 N3 N4 N5 N6].
    apply runs_ret_bind. eapply runs_next; [apply (conditional_free_runs ∅ (1 + n)); [done|set_solver|]|].
    { apply (ev_dom _ _ _ _ N2). left. split; [done|]. by intros [?%not_elem_of_empty _]. }
    intros t3 [] (v3 & Hs3 & He3). exists v3, {[p]}, ∅. split; [done|]. destruct (evolves_replace v1 v2 v3 p _ N2 Hdom He3) as [Hev Hkeep].
    destruct (Hkeep p1 ltac:(set_solver)) as [J1 J2].
    assert (HF3 : forest valid (tree v3 h) lo hi CS KS L' P1).
    { eapply forest_agrees; [|exact HF]. eapply evolves_agrees; [exact Hev|done|]. intros q Hq ->%elem_of_singleton. done. }
    apply runs_ret. exists v3, (p1 :: P1). split; [eapply shows_weaken; [done|lia]|]. eapply (rebuilt_intro v2 v3 {[p1]}); [done|done| | | | |done|done].
    + constructor. eapply new_branch_tree; [by rewrite J1|by apply J2|done|done|done].
    + rewrite Forall_forall in Hd1. apply NoDup_cons. split; [|done]. intros Hq. by apply N5, Hd1.
    + set_solver.
    + intros _. by apply J2.
Qed.
(** The branch after the child at [c] was inserted into *)
Lemma insert_branch_runs pc n t : shows ∅ (2 + n) t v1 -> child_ok (p, pc) -> (additional_sibling r = None -> new_root r = c.1 -> p ∈ dirty_of v1) ->
  runs (MutateHelper.insert_branch fk (p, page) pc a (vlen C1) c.1 c.2 r) t (post n) (intact v1).
Proof.
  intros Hs Hpc Hclean. unfold MutateHelper.insert_branch. destruct (additional_sibling r) as [[[k p2] c2]|] eqn:Hsib; [by apply rebuild_branch_runs|].
  assert (HCS : CS = C1 ++ (new_root r, root_checksum r) :: C2 /\ KS = ks) by (unfold children_of, keys_between; by rewrite Hsib, Ek). destruct HCS as [HCS HKS].
  pose proof forest_dom as Hd1. destruct (proj1 (NoDup_cons _ _) Hnd) as [Hp Hnd1]. assert (Hdom : p ∈ dom (pages v1)) by (apply elem_of_dom; by eexists).
  destruct (bool_decide (new_root r = c.1) && (root_checksum r =? c.2)) eqn:Hsame.
  - apply andb_true_iff in Hsame as [H1 H2]. apply bool_decide_eq_true in H1. apply Z.eqb_eq in H2. specialize (Hclean eq_refl H1). apply runs_ret.
    exists v1, (p :: P1). split; [eapply shows_weaken; [done|lia]|]. split; try done.
    + constructor. exists page, cs, ks, P1. split; [|split; [|done]].
      * split; [done| |done|by left]. by exists pad, pad4, slack.
      * rewrite HCS, HKS, H1, H2, <-surjective_pairing, <-Ec in HF. done.
    + eapply evolves_eq; [apply (evolves_also v1 v1 ∅ ∅ (list_to_set (p :: P1)) (evolves_refl v1))|..].
      * intros q Hq%elem_of_list_to_set. apply elem_of_cons in Hq as [->|Hq]; [done|]. rewrite Forall_forall in Hd1. by apply Hd1.
      * apply disjoint_empty_r.
      * by rewrite (right_id ∅ (∪)).
      * by rewrite (right_id ∅ (∪)).
    + intros q Hq. by right.
  - clear Hsame. eapply runs_bind; [by apply uncommitted_runs|]. intros t2 u [-> Hs2]. case_bool_decide as Hd; [|by apply rebuild_branch_runs].
    eapply runs_bind; [apply (read_mut_runs ∅ (2 + n)); [done|set_solver|exact Hpage|done]|]. intros t3 m [-> Hs3].
    eapply (runs_lift _ page); [done|]. destruct new_children_ok as (Hco & _).
    destruct (write_child_page_ok fk page C1 c C2 ks (new_root r, root_checksum r)) as (page' & Hw & Hlen & Hb).
    { rewrite <-Ec. by exists pad, pad4, slack. }
    { rewrite HCS in Hco. by apply Forall_app in Hco as [_ [? _]%Forall_cons]. }
    eapply runs_lift; [exact Hw|]. eapply runs_bind; [apply (put_runs ∅ (2 + n) t3 v1 p page page'); [done|set_solver|done|done|done]|].
    intros t4 [] (v2 & Hs4 & He & Hp2 & Hd2 & _). apply runs_ret. exists v2, (p :: P1). split; [eapply shows_weaken; [done|lia]|].
    assert (Ha : agrees v1 v2 P1). { eapply evolves_agrees; [exact He|done|]. intros q Hq ->%elem_of_singleton. done. }
    split; try done.
    + constructor. eapply new_branch_tree; [by rewrite Hp2, lookup_insert_eq|by rewrite Hd2|by destruct Hpc|exact Hb|]. rewrite <-HCS, <-HKS. by eapply forest_agrees.
    + eapply evolves_eq; [apply (evolves_also v1 v2 {[p]} {[p]} (list_to_set P1) He)|..].
      * intros q Hq%elem_of_list_to_set. rewrite Forall_forall in Hd1. by apply Hd1.
      * intros q Hq%elem_of_list_to_set ->%elem_of_singleton. done.
      * cbn. apply union_comm.
      * cbn. apply union_comm.
    + intros _. cbn. by rewrite Hd2.
    + intros q Hq. by right.
Qed.
End branch_case.

Lemma inserted_branch v v1 v' h lo hi lo' hi' p P P1 Lc Pc r Pc' r' P' L q value : inserted v v1 h lo' hi' Lc Pc q value r Pc' ->
  rebuilt v1 v' h lo hi p P1 (kv_insert cmp q value L) r r' P' -> evolves v v1 (list_to_set P) (list_to_set (p :: P1)) ->
  Pc' ⊆ P1 -> kv_lookup cmp q L = kv_lookup cmp q Lc -> inserted v v' (S h) lo hi L P q value r' P'.
Proof.
  intros [I1 I2 I3 I4 I5 I6] [R1 R2 R3 R4 R5 R6 R7 R8] He Hsub Hlk. split; try done.
  - by eapply evolves_trans.
  - destruct I5 as (mem & A & B & G1 & G2 & G3 & G4 & G5). rewrite R7. destruct (R6 (guard_page (inserted_value r))) as [E1 E2]; [by apply Hsub|].
    exists mem, A, B. split; [by apply R5, Hsub|]. split; [by rewrite E1|]. split; [by apply E2|done].
  - by rewrite R8, Hlk.
Qed.



Lemma insert_helper_runs h : forall fuel n t v lo hi p c L P mem q value, (h < fuel)%nat -> shows ∅ (2 * S h + n) t v -> tree v h lo hi (p, c) L P -> NoDup P ->
  pages v !! p = Some mem -> valid q -> in_range cmp lo hi q -> (forall w, fv = Some w -> vlen value = w) -> runs_fit fk fv (kv_insert cmp q value L) ->
  runs (MutateHelper.insert_helper compare fk fv fuel (p, mem) c q value) t
    (fun t' r => exists v' P', shows ∅ n t' v' /\ inserted v v' h lo hi L P q value r P') (intact v).
Proof.
  induction h as [|h IH]; intros [|fuel] n t v lo hi p c L P mem q value Hfuel Hs HT Hnd Hpage Hq Hr Hval Hfit; try lia; cbn [MutateHelper.insert_helper snd].
  - destruct HT as (mem' & Hnode & ->). pose proof (ln_page Hnode) as E. cbn [fst] in E. rewrite Hpage in E. injection E as <-.
    destruct (ln_leaf Hnode) as (pad & slack & Em & _). eapply (runs_lift _ LEAF); [rewrite Em; apply vget_leaf|]. cbn [LEAF Z.eqb Pos.eqb].
    apply insert_leaf_runs; [eapply shows_weaken; [done|lia]|done..].
  - destruct (branch_descend fk fv good v h lo hi p c L P mem q HT Hpage Hq Hr) as (cs & ks & pad & pad4 & slack & C1 & cp & cc & C2 & K1 & K2 & lo' & hi' & La & Lc & Lb & Pa & Pc & Pb & cmem & D).
    destruct (descent_kv fk fv good _ _ _ _ _ _ _ _ _ _ _ _ _ _ _ _ _ _ _ _ _ _ _ _ _ _ _ _ _ _ value D Hq) as (Klk & Kin & _).
    destruct D as [Em Hpad Hok Hnode Ec Ek Hl' Hfind F1 F2 F3 Hr' EL EP Hcmem Hlo Hhi]. subst mem P. eapply (runs_lift _ BRANCH); [apply vget_branch|]. cbn [BRANCH LEAF Z.eqb Pos.eqb].
    eapply (runs_lift _ (branch_accessor_of fk pad pad4 cs ks slack)); [by apply branch_accessor|]. eapply runs_lift; [exact Hfind|]. cbn beta iota.
    eapply (runs_lift _ cc).
    { unfold expect, vlen. by rewrite (child_checksum_ok fk pad pad4 cs ks slack Hok Hpad (length C1) (cp, cc)) by (rewrite Ec; apply lookup_at). }
    rewrite EL in Klk, Kin, Hfit |- *. clear EL.
    unfold MutateHelper.read. apply bind_assoc. eapply runs_bind; [apply (read_runs ∅ (2 * S (S h) + n)); [done|set_solver|exact Hcmem]|]. intros t1 ? [-> Hs1].
    apply runs_ret_bind. assert (Hnc : NoDup Pc) by (apply NoDup_cons in Hnd as [_ Hnd]; rewrite !NoDup_app in Hnd; tauto).
    eapply runs_next; [apply (IH fuel (2 + n)%nat t1 v lo' hi' cp cc Lc Pc cmem q value); [lia|eapply shows_weaken; [done|lia]|done|done|done|done|done|done|]|].
    { rewrite Kin in Hfit. by eapply runs_fit_sub. }
    intros t2 r (v1 & Pc' & Hs2 & Hins). exists v1, (list_to_set Pc), (list_to_set Pc'). split; [apply Hins|].
    assert (Hdom : p ∈ dom (pages v)) by (apply elem_of_dom; by eexists).
    destruct (focus_evolves fk fv good v v1 h lo lo' hi' hi C1 K1 La Pa C2 K2 Lb Pb p Pc Pc' F1 F3 Hdom Hnd (ins_nodup _ _ _ _ _ _ _ _ _ _ _ Hins) (ins_evolves _ _ _ _ _ _ _ _ _ _ _ Hins))
      as (G1 & G3 & Ha & Hnd1 & He1).
    pose proof (forest_plug _ _ _ _ _ _ _ _ _ _ _ _ _ _ _ _ _ G1 (ins_forest _ _ _ _ _ _ _ _ _ _ _ Hins) G3) as HF1. destruct (Ha p ltac:(left)) as [Ep Ed].
    eapply runs_weaken; [apply (insert_branch_runs v1 h lo hi p pad pad4 cs ks slack C1 (cp, cc) C2 K1 K2 r _ _ Hok Hpad Ec Ek Hl' ltac:(by rewrite Ep) HF1 Hnd1 c n t2 Hs2 (bn_child Hnode))| |done].
    + intros Hnone Hroot. cbn [fst] in Hroot. apply Ed. destruct (bn_settled Hnode) as [?|(_ & _ & Hcl)]; [done|]. exfalso.
      pose proof (ins_dirty _ _ _ _ _ _ _ _ _ _ _ Hins Hnone) as Hd. rewrite Hroot in Hd.
      assert (cp ∈ Pc) as Hin by (apply (tree_root _ _ _ _ _ _ _ _ _ _ F2)). rewrite Forall_forall in Hcl. specialize (Hcl cp ltac:(set_solver)).
      destruct (ev_clean _ _ _ _ (ins_evolves _ _ _ _ _ _ _ _ _ _ _ Hins) cp) as [_ ?]; [apply elem_of_dom; by eexists|done|done].
    + intros t3 r' (v' & P' & Hs3 & Hreb). exists v', P'. split; [done|]. rewrite <-Kin in Hreb. eapply inserted_branch; [exact Hins|exact Hreb|exact He1|set_solver|done].
Qed.

(** ** Insertion *)

(** A root above the result *)
Lemma root_branch_runs n t v1 h p1 c1 k p2 c2 L P : shows ∅ (1 + n) t v1 -> forest valid (tree v1 h) None None [(p1, c1); (p2, c2)] [k] L P -> NoDup P ->
  runs (MutateHelper.build_branch (BranchBuilder.push_child (BranchBuilder.push_key (BranchBuilder.push_child (MutateHelper.branch_builder fk) (p1, c1)) k) (p2, c2))) t
    (fun t' p => exists v', shows ∅ n t' v' /\ tree v' (S h) None None (p, DEFERRED) L (p :: P) /\ NoDup (p :: P) /\
      evolves v1 v' (list_to_set P) (list_to_set (p :: P)) /\ agrees v1 v' P) (intact v1).
Proof.
  intros Hs HF Hnd. rewrite !push_child_more, push_key_more, !push_more_more.
  change (push_more _ _ _) with (branch_builder_of fk [(p1, c1); (p2, c2)] [k]).
  assert (Hco : Forall child_ok [(p1, c1); (p2, c2)]) by (eapply forest_children; [|exact HF]; intros; by eapply tree_child).
  assert (Hd1 : Forall (fun q => q ∈ dom (pages v1)) P) by (eapply forest_pages; [|exact HF]; intros; by eapply tree_dom).
  destruct (forest_keys _ (tree_pairs fk fv good v1 h) _ _ _ _ _ _ HF) as (Hkv & _ & _).
  eapply runs_weaken; [by apply (build_branch_runs fk valid kmax Hkey Hkmax ∅ n)| |done]. intros t' p (mem & v' & [N1 N2 N3 N4 N5 N6] & Hb). exists v'. split; [done|].
  assert (Ha : agrees v1 v' P) by (eapply evolves_agrees; [exact N2|done|set_solver]). split; [|split; [|split; [by apply evolves_page|done]]].
  - eapply new_branch_tree; [done|done|done|done|]. by eapply forest_agrees.
  - apply NoDup_cons. split; [|done]. rewrite Forall_forall in Hd1. intros Hp. by apply N5, Hd1.
Qed.

Lemma insert_runs fuel n t v h root L P q value : (h < fuel)%nat -> shows ∅ (2 * h + 3 + n) t v -> btree valid cmp fk fv good v h root L P -> NoDup P ->
  valid q -> (forall w, fv = Some w -> vlen value = w) -> runs_fit fk fv (kv_insert cmp q value L) -> vlen L < 2 ^ 64 - 1 ->
  runs (MutateHelper.insert compare fk fv fuel root q value) t (fun t' r => exists v' h' P', shows ∅ n t' v' /\
    btree valid cmp fk fv good v' h' r.1.1 (kv_insert cmp q value L) P' /\ (h <= h' <= S h)%nat /\ NoDup P' /\ evolves v v' (list_to_set P) (list_to_set P') /\
    guard_is r.1.2 (kv_lookup cmp q L) /\ guards v' P' r.2 q value) (intact v).
Proof.
  intros Hfuel Hs HB Hnd Hq Hval Hfit Hlen. assert (Hr : in_range cmp None None q) by done. unfold MutateHelper.insert. destruct root as [[rp rc rl]|].
  - destruct HB as [HT Hl]. cbn in HT, Hl. subst rl. destruct (tree_page _ _ _ _ _ _ _ _ _ _ HT) as (mem & Hmem). cbn [fst] in Hmem.
    unfold MutateHelper.read. apply bind_assoc. cbn [BtreeHeader.root BtreeHeader.checksum BtreeHeader.length].
    eapply runs_bind; [apply (read_runs ∅ (2 * h + 3 + n)); [done|set_solver|exact Hmem]|]. intros t1 ? [-> Hs1]. apply runs_ret_bind.
    eapply runs_next; [apply (insert_helper_runs h fuel (1 + n) t1 v None None rp rc L P mem q value); [done|eapply shows_weaken; [done|lia]|done..]|].
    intros t2 r (v1 & P1 & Hs2 & [I1 I2 I3 I4 I5 I6]). exists v1, (list_to_set P), (list_to_set P1). split; [done|].
    pose proof (kv_insert_length (cmp := cmp) q value L) as HKL. set (len' := vlen (kv_insert cmp q value L)) in *.
    eapply (runs_lift _ len').
    { unfold guard_is in I6. destruct (old_value r), (kv_lookup cmp q L); try done; [f_equal; lia|]. rewrite uadd_ok by lia. f_equal. lia. }
    unfold children_of, keys_between in I1. destruct (additional_sibling r) as [[[k p2] c2]|].
    + apply bind_assoc. eapply runs_next; [apply (root_branch_runs n t2 v1 h (new_root r) (root_checksum r) k p2 c2 _ P1 Hs2 I1 I2)|].
      intros t3 p (v2 & Hs3 & HT2 & Hnd2 & He2 & Ha2). exists v2, (list_to_set P1), (list_to_set (p :: P1)). split; [done|]. apply runs_ret_bind. apply runs_ret. cbn [fst snd].
      exists v2, (S h), (p :: P1). split; [done|]. split; [done|]. split; [lia|]. split; [done|]. split; [by eapply evolves_trans|]. split; [done|].
      destruct I5 as (gm & A & B & G1 & G2 & G3 & G4 & G5). destruct (Ha2 _ G1) as [E1 E2]. exists gm, A, B. split; [by right|]. split; [by rewrite E1|]. split; [by apply E2|done].
    + apply runs_ret_bind. apply runs_ret. cbn [fst snd]. exists v1, h, P1. split; [eapply shows_weaken; [done|lia]|].
      split; [by inversion I1; subst|]. split; [lia|done].
  - destruct HB as (-> & -> & ->). change (LeafBuilder.push (MutateHelper.leaf_builder fk fv) q value) with (leaf_builder_of fk fv [(q, value)]).
    destruct (leaf_builder_of_ok fk fv [(q, value)]) as (B1 & B2 & B3 & B4). pose proof (Hfit [] [(q, value)] [] eq_refl ltac:(done)) as Ht. pose proof law_limit.
    pose proof (pair_widths q value Hq Hval) as Hw.
    eapply runs_next; [apply (build_leaf_runs fk fv ∅ (2 + n)); [done|done|done|done|rewrite B2; split; [done|done|done|lia]|by rewrite B2]|].
    intros t1 [p' mem'] (v1 & Hn & Hleaf). cbn [fst snd] in *. rewrite B2 in Hleaf. exists v1, ∅, {[p']}. split; [apply Hn|]. destruct Hn as [N1 N2 N3 N4 N5 N6].
    destruct (first_value_ok fk fv mem' q value Hleaf) as (a' & Ha1 & Ha2). eapply runs_lift; [exact Ha1|]. eapply runs_lift; [exact Ha2|]. apply runs_ret.
    exists v1, O, [p']. cbn [fst snd]. split; [eapply shows_weaken; [done|lia]|]. split; [|split; [lia|split; [apply NoDup_singleton|split; [|split; [done|]]]]].
    + split; [|done]. eapply new_leaf_tree; [done|done|done|done|]. split; try done; by repeat constructor.
    + cbn. by rewrite (right_id_L ∅ (∪)).
    + exists mem', [], []. split; [left|done].
Qed.
End insertion.
