(* ===== verification/Deletion.v ===== *)
(** Deletion from a B-tree is removal from the sorted list of its pairs
    ([MutateHelper::delete_key], [delete_helper] and
    [apply_child_deletion_result], src/src/tree_store/btree_mutator.rs). *)
From S2P Require Import Prelude Buddy Pages Header Types KeyOrder Leaf LeafTheorems Branch PageStore Mutator Trees Building Insertion.

(** * Marks *)

(** No mark *)
Lemma no_mark {A} (l : list A) : forall i, marked i (replicate (length l) false) = [] /\ kept (replicate (length l) false) l = l /\ dropped (replicate (length l) false) l = [].
Proof. induction l as [|y l IH]; intros i; [done|]. cbn [length replicate marked kept dropped app]. destruct (IH (i + 1)) as (-> & -> & ->). done. Qed.
(** A single mark *)
Lemma one_mark {A} (P1 : list A) x P3 (bs := replicate (length P1) false ++ true :: replicate (length P3) false) :
  length bs = length (P1 ++ x :: P3) /\ marked 0 bs = [vlen P1] /\ kept bs (P1 ++ x :: P3) = P1 ++ P3 /\ dropped bs (P1 ++ x :: P3) = [x].
Proof.
  assert (Hgen : forall i, length bs = length (P1 ++ x :: P3) /\ marked i bs = [i + vlen P1] /\ kept bs (P1 ++ x :: P3) = P1 ++ P3 /\ dropped bs (P1 ++ x :: P3) = [x]).
  { unfold bs. clear bs. induction P1 as [|y P1 IH]; intros i; cbn [length replicate app marked kept dropped].
    - destruct (no_mark P3 (i + 1)) as (-> & -> & ->). rewrite length_replicate. split; [done|]. split; [f_equal; change (vlen []) with 0; lia|done].
    - destruct (IH (i + 1)) as (-> & -> & -> & ->). rewrite vlen_cons. split; [done|]. split; [f_equal; lia|done]. }
  apply (Hgen 0).
Qed.

(** * The plan for a leaf *)

(** The removed pairs by their indexes *)
Definition indexes_of (d : DeletedPairs) : list Z := match d with One i => [i] | Many l => l end.

Section plan.
  Context (fk fv : option Z) (pad : Z) (L : list pair) (slack : list Z) (Hok : leaf_ok fk fv L).
  Notation a := (accessor_of fk fv pad L slack).

Lemma length_of_pairs_ok i j : (i < j <= length L)%nat ->
  LeafAccessor.length_of_pairs a (Z.of_nat i) (Z.of_nat j) =
  Ret (size (take (j - i) (drop i (keys_of L))) + size (take (j - i) (drop i (values_of L)))).
Proof using Hok.
  intros Hij. assert (Hoff : forall l : list (list Z), size (take j l) = size (take i l) + size (take (j - i) (drop i l))).
  { intros l. rewrite <-size_app. f_equal. replace j with (i + (j - i))%nat at 1 by lia. by rewrite take_take_drop. }
  pose proof (Hoff (keys_of L)) as Ok. pose proof (Hoff (values_of L)) as Ov.
  pose proof (size_nonneg (take (j - i) (drop i (keys_of L)))). pose proof (size_nonneg (take (j - i) (drop i (values_of L)))).
  unfold LeafAccessor.length_of_pairs, LeafAccessor.length_of_values, LeafAccessor.length_of_keys. rewrite (proj2 (Z.eqb_neq _ _)) by lia.
  rewrite usub_ok by lia. cbn [mbind outcome_bind]. replace (Z.of_nat j - 1) with (Z.of_nat (j - 1)) by lia.
  unfold expect. rewrite value_end_ok, value_start_ok by (done || lia). cbn [mbind outcome_bind unwrap]. replace (S (j - 1)) with j by lia.
  unfold value_off. rewrite usub_ok by lia. cbn [mbind outcome_bind]. rewrite key_end_ok, key_start_ok by (done || lia). cbn [mbind outcome_bind unwrap]. replace (S (j - 1)) with j by lia.
  unfold key_off. rewrite usub_ok by lia. cbn [mbind outcome_bind]. f_equal. lia.
Qed.
Lemma pair_bytes_ok i k w : L !! i = Some (k, w) -> LeafAccessor.length_of_pairs a (Z.of_nat i) (Z.of_nat i + 1) = Ret (vlen k + vlen w).
Proof using Hok.
  intros Hi. apply lookup_lt_Some in Hi as Hlt. replace (Z.of_nat i + 1) with (Z.of_nat (S i)) by lia. rewrite length_of_pairs_ok by lia. replace (S i - i)%nat with 1%nat by lia.
  rewrite (drop_S (keys_of L) k i) by (by rewrite keys_lookup, Hi). rewrite (drop_S (values_of L) w i) by (by rewrite values_lookup, Hi).
  cbn [take]. rewrite !take_0, !size_cons. change (size []) with 0. f_equal. lia.
Qed.
Lemma all_bytes_ok : LeafAccessor.length_of_pairs a 0 (vlen L) = Ret (size (keys_of L) + size (values_of L)).
Proof using Hok.
  pose proof (leaf_nonempty _ _ _ Hok) as Hn. change 0 with (Z.of_nat 0). unfold vlen. rewrite length_of_pairs_ok by (unfold vlen in Hn; lia).
  rewrite Nat.sub_0_r, !drop_0, !take_ge by (rewrite ?length_map; unfold keys_of, values_of; rewrite ?length_map; lia). done.
Qed.

Context (bs : list bool) (Hbs : length bs = length L).
Notation L' := (kept bs L).

(** The bytes of the removed pairs *)
Definition dropped_bytes : Z := size (keys_of (dropped bs L)) + size (values_of (dropped bs L)).

Lemma plan_ok page_size : MutateHelper.plan_leaf_delete fk fv a (vlen (dropped bs L)) dropped_bytes page_size =
  Ret (mk_plan (vlen L') (if vlen L' =? 0 then Delete else if total fk fv L' <? page_size / 3 then Merge else Rebuild)).
Proof using Hok Hbs.
  unfold MutateHelper.plan_leaf_delete, dropped_bytes. change (LeafAccessor.num_pairs a) with (vlen L). pose proof (kept_dropped_len bs L Hbs) as H1.
  pose proof (kept_dropped_size bs (keys_of L) ltac:(unfold keys_of; by rewrite length_map)) as H2. pose proof (kept_dropped_size bs (values_of L) ltac:(unfold values_of; by rewrite length_map)) as H3.
  unfold keys_of, values_of in *. rewrite !kept_map, !dropped_map in H2, H3. fold (keys_of L) (values_of L) (keys_of L') (values_of L') (keys_of (dropped bs L)) (values_of (dropped bs L)) in *.
  pose proof (vlen_nonneg L'). pose proof (size_nonneg (keys_of L')). pose proof (size_nonneg (values_of L')).
  rewrite usub_ok by lia. cbn [mbind outcome_bind]. rewrite all_bytes_ok. cbn [mbind outcome_bind]. rewrite usub_ok by lia. cbn [mbind outcome_bind].
  replace (vlen L - vlen (dropped bs L)) with (vlen L') by lia.
  replace (size (keys_of L) + size (values_of L) - (size (keys_of (dropped bs L)) + size (values_of (dropped bs L)))) with (size (keys_of L') + size (values_of L')) by lia.
  by rewrite required_bytes_total.
Qed.
(** The removed pairs are left out. *)
Lemma push_except_ok b d : indexes_of d = marked 0 bs -> builder_ok b ->
  exists b', MutateHelper.push_all_except_deleted b a d = Ret b' /\ LeafBuilder.pairs b' = LeafBuilder.pairs b ++ L' /\ builder_ok b' /\
    LeafBuilder.fixed_key_size b' = LeafBuilder.fixed_key_size b /\ LeafBuilder.fixed_value_size b' = LeafBuilder.fixed_value_size b.
Proof using Hok Hbs.
  intros Hd Hb. destruct (push_all_except_ok fk fv pad L slack b bs Hok Hbs) as (b' & E & H1 & H2 & H3 & H4). exists b'. split; [|auto].
  destruct d; cbn [indexes_of] in Hd; cbn [MutateHelper.push_all_except_deleted LeafBuilder.push_all_except]; by rewrite Hd.
Qed.
End plan.
(** All pairs of a leaf *)
Lemma push_rest_ok fk fv pad L slack b : leaf_ok fk fv L -> builder_ok b ->
  exists b', LeafBuilder.push_all_except b (accessor_of fk fv pad L slack) None = Ret b' /\ LeafBuilder.pairs b' = LeafBuilder.pairs b ++ L /\ builder_ok b' /\
    LeafBuilder.fixed_key_size b' = LeafBuilder.fixed_key_size b /\ LeafBuilder.fixed_value_size b' = LeafBuilder.fixed_value_size b.
Proof.
  intros Hok Hb. destruct (no_mark L 0) as (Hm & Hk & _). destruct (push_all_except_ok fk fv pad L slack b (replicate (length L) false) Hok ltac:(apply length_replicate)) as (b' & E & H1 & H2 & H3 & H4).
  rewrite Hm in E. rewrite Hk in H1. exists b'. split; [exact E|]. auto.
Qed.

Lemma vset_middle {A} (X : list A) x Y y : vset (X ++ x :: Y) (vlen X) y = Ret (X ++ y :: Y).
Proof.
  rewrite vset_ok by (rewrite vlen_app, vlen_cons; pose proof (vlen_nonneg X); pose proof (vlen_nonneg Y); lia).
  unfold vlen. rewrite Nat2Z.id. f_equal. rewrite insert_app_r_alt by lia. by rewrite Nat.sub_diag.
Qed.
(** What is left is in order. *)
Lemma kept_sublist {A} bs : forall l : list A, kept bs l `sublist_of` l.
Proof. induction bs as [|b bs IH]; intros [|x l]; cbn [kept]; try by constructor; try apply sublist_nil_l. destruct b; cbn [app]; by constructor. Qed.
Lemma sorted_sublist cmp l k : l `sublist_of` k -> sorted cmp k -> sorted cmp l.
Proof.
  induction 1 as [|x l k Hs IH|x l k Hs IH]; cbn [sorted]; [done| |tauto]. intros [Ha Hk]. split; [|auto]. unfold above in *. by eapply sublist_Forall.
Qed.
Lemma kept_pairs_ok valid cmp lo hi L bs : pairs_ok valid cmp lo hi L -> kept bs L <> [] -> pairs_ok valid cmp lo hi (kept bs L).
Proof.
  intros [B1 B2 _ V S0 R] Hn. assert (Hsub : keys_of (kept bs L) `sublist_of` keys_of L) by (unfold keys_of; rewrite <-kept_map; apply kept_sublist).
  split; try done; [by eapply sublist_Forall|by eapply sorted_sublist|by eapply sublist_Forall].
Qed.

(** * The loops over the children of a branch *)

Lemma for_each_m_app {T A B} (f : A -> B -> M T B) l k b t Q E :
  runs (b' ← for_each_m f l b; for_each_m f k b') t Q E -> runs (for_each_m f (l ++ k) b) t Q E.
Proof.
  revert b t. induction l as [|x l IH]; intros b t; cbn [for_each_m app]; [done|]. intros Hr.
  unfold runs, mbind, M_bind, outcome_bind in *. destruct (f x b t) as [[t1 [b1|e]]|]; cbn in *; [apply IH; exact Hr|done|done].
Qed.
(** A step that changes nothing *)
Lemma runs_skip {T A B} (c : M T A) a (k : A -> M T B) t Q E : c t = Ret (t, Okay a) -> runs (k a) t Q E -> runs (c ≫= k) t Q E.
Proof. intros Hc Hk. unfold runs, mbind, M_bind. rewrite Hc. exact Hk. Qed.

Section loops.
  Context {St : Type} `{PageStore St} (fk : option Z) (pad : Z) (pad4 : list Z) (cs : list child) (ks : list (list Z)) (slack : list Z).
  Context (Hok : branch_ok fk cs ks) (Hpad : vlen pad4 = 4).
  Notation a := (branch_accessor_of fk pad pad4 cs ks slack).

(** The children from [i] on, with their keys, none of which is merged *)
Lemma merge_block ci mw merged crest : forall i b T (t : txn St), drop i cs = crest ++ T ->
  (forall j, Z.of_nat i <= j < Z.of_nat i + vlen crest -> j <> ci /\ j <> mw) ->
  for_each_m (MutateHelper.merge_step a ci mw merged) (seqZ (Z.of_nat i) (vlen crest)) b t = Ret (t, Okay (push_more b crest (take (length crest) (drop i ks)))).
Proof using Hok Hpad.
  induction crest as [|c crest IH]; intros i b T t Hd Hi; [by cbn; rewrite take_0, push_more_nil|].
  pose proof (vlen_nonneg crest). rewrite vlen_cons in *. rewrite seqZ_succ by done. cbn [for_each_m].
  assert (Hc : cs !! i = Some c) by (rewrite <-(Nat.add_0_r i), <-lookup_drop, Hd; done). pose proof (branch_children _ _ _ Hok) as Hn. pose proof (branch_nonempty _ _ _ Hok).
  destruct (Hi (Z.of_nat i) ltac:(lia)) as [N1 N2].
  assert (Hstep : MutateHelper.merge_step a ci mw merged (Z.of_nat i) b t = Ret (t, Okay (push_more b [c] (take 1 (drop i ks))))).
  { unfold MutateHelper.merge_step. rewrite (proj2 (Z.eqb_neq _ _) N1), (read_child_ok fk pad pad4 cs ks slack Hok Hpad i c Hc). change (BranchAccessor.count_children a) with (vlen ks + 1).
    rewrite usub_ok by lia. rewrite (proj2 (Z.eqb_neq _ _) N2). unfold mbind, M_bind, lift. cbn [mbind outcome_bind snd fst].
    replace (vlen ks + 1 - 1) with (vlen ks) by lia. destruct (Z.ltb_spec (Z.of_nat i) (vlen ks)) as [Hlt|Hge].
    - destruct (lookup_lt_is_Some_2 ks i) as [k Hk]; [unfold vlen in Hlt; lia|]. rewrite (branch_key_ok fk pad pad4 cs ks slack Hok Hpad i k Hk). cbn [expect mbind outcome_bind unwrap snd fst].
      rewrite (drop_S _ _ _ Hk). cbn [take]. rewrite take_0, push_key_more, push_child_more, push_more_more. done.
    - rewrite drop_ge by (unfold vlen in Hge; lia). cbn [take]. by rewrite push_child_more. }
  unfold mbind, M_bind. rewrite Hstep. cbn [mbind outcome_bind snd fst]. replace (Z.of_nat i + 1) with (Z.of_nat (S i)) by lia.
  rewrite (IH (S i) _ T t); [|rewrite (drop_S _ _ _ Hc) in Hd; by injection Hd|intros j Hj; apply Hi; lia].
  rewrite push_more_more. cbn [app length]. do 3 f_equal. destruct (ks !! i) as [k|] eqn:Hk; [by rewrite (drop_S _ _ _ Hk)|].
  apply lookup_ge_None in Hk. rewrite !drop_ge by lia. by rewrite !take_nil.
Qed.

Lemma merge_children_runs Cl x y Cr Kl k Kr ci mw merged (t : txn St) (R : txn St -> list child -> list (list Z) -> Prop) E :
  cs = Cl ++ x :: y :: Cr -> ks = Kl ++ k :: Kr -> length Cl = length Kl -> (ci = vlen Cl /\ mw = vlen Cl + 1 \/ ci = vlen Cl + 1 /\ mw = vlen Cl) ->
  (forall b, runs (merged b) t (fun t' b' => exists CM KM, b' = push_more b CM KM /\ R t' CM KM) E) ->
  runs (MutateHelper.merge_children fk a ci mw merged) t
    (fun t' b' => exists CM KM, b' = branch_builder_of fk (Cl ++ CM ++ Cr) (Kl ++ KM ++ Kr) /\ R t' CM KM) E.
Proof using Hok Hpad.
  intros Ec Ek Hl Hci Hm. pose proof (branch_children _ _ _ Hok) as Hn. pose proof (vlen_nonneg Cl). pose proof (vlen_nonneg Cr). pose proof (vlen_nonneg Kr).
  assert (Hlr : length Cr = length Kr) by (rewrite Ec, Ek in Hn; unfold vlen in Hn; rewrite !length_app in Hn; simpl in Hn; lia).
  assert (Hks : vlen ks = vlen Cl + 1 + vlen Kr) by (rewrite Ek, vlen_app, vlen_cons; unfold vlen; lia).
  unfold MutateHelper.merge_children. change (BranchAccessor.count_children a) with (vlen ks + 1).
  replace (vlen ks + 1) with (vlen Cl + (1 + (1 + vlen Cr))) by (unfold vlen in *; lia).
  rewrite seqZ_split, Z.add_0_l by lia. apply for_each_m_app.
  pose proof (merge_block ci mw merged Cl 0 (MutateHelper.branch_builder fk) (x :: y :: Cr) t ltac:(by rewrite Ec) ltac:(intros; lia)) as Hpre. change (Z.of_nat 0) with 0 in Hpre.
  unfold runs, mbind, M_bind. rewrite Hpre. cbn [mbind outcome_bind snd fst]. rewrite drop_0. assert (HtK : take (length Cl) ks = Kl) by (rewrite Ek, Hl; apply take_app_length). rewrite HtK.
  rewrite !seqZ_succ by lia. set (b1 := push_more _ Cl Kl). fold (runs (for_each_m (MutateHelper.merge_step a ci mw merged) (vlen Cl :: vlen Cl + 1 :: seqZ (vlen Cl + 1 + 1) (vlen Cr)) b1) t
    (fun t' b' => exists CM KM, b' = branch_builder_of fk (Cl ++ CM ++ Cr) (Kl ++ KM ++ Kr) /\ R t' CM KM) E).
  assert (Hskip : forall b t', MutateHelper.merge_step a ci mw merged ci b t' = Ret (t', Okay b)) by (intros; unfold MutateHelper.merge_step; by rewrite Z.eqb_refl).
  assert (Hne : mw <> ci) by lia. assert (Hmax : ci `max` mw = vlen Cl + 1) by lia.
  assert (Hmw : forall b, runs (MutateHelper.merge_step a ci mw merged mw b) t (fun t' b' => exists CM KM, b' = push_more b CM (KM ++ take 1 Kr) /\ R t' CM KM) E).
  { intros b. unfold MutateHelper.merge_step. rewrite (proj2 (Z.eqb_neq _ _) Hne), Z.eqb_refl. change (BranchAccessor.count_children a) with (vlen ks + 1).
    assert (exists c, cs !! Z.to_nat mw = Some c) as [c Hc].
    { apply lookup_lt_is_Some_2. rewrite Ec, length_app. simpl. unfold vlen in *. lia. }
    eapply (runs_lift _ c); [rewrite <-(read_child_ok fk pad pad4 cs ks slack Hok Hpad _ c Hc); f_equal; lia|].
    eapply (runs_lift _ (vlen ks)); [rewrite usub_ok by lia; f_equal; lia|].
    eapply runs_bind; [apply Hm|]. intros t' b' (CM & KM & -> & HR). rewrite Hmax. destruct Kr as [|kr Kr].
    - change (vlen []) with 0 in Hks. rewrite (proj2 (Z.ltb_ge _ _)) by lia. apply runs_ret. exists CM, KM. rewrite take_nil, app_nil_r. done.
    - rewrite vlen_cons in Hks. pose proof (vlen_nonneg Kr). rewrite (proj2 (Z.ltb_lt _ _)) by lia.
      eapply (runs_lift _ kr).
      { replace (vlen Cl + 1) with (Z.of_nat (S (length Kl))) by (unfold vlen; lia). rewrite (branch_key_ok fk pad pad4 cs ks slack Hok Hpad (S (length Kl)) kr); [done|].
        rewrite Ek. replace (S (length Kl)) with (length Kl + 1)%nat by lia. rewrite lookup_app_r by lia. by replace (length Kl + 1 - length Kl)%nat with 1%nat by lia. }
      apply runs_ret. exists CM, KM. rewrite push_key_more, push_more_more, app_nil_r. cbn [take]. by rewrite take_0. }
  assert (Hend : forall CM KM t', R t' CM KM -> runs (for_each_m (MutateHelper.merge_step a ci mw merged) (seqZ (vlen Cl + 1 + 1) (vlen Cr)) (push_more b1 CM (KM ++ take 1 Kr))) t'
    (fun t' b' => exists CM KM, b' = branch_builder_of fk (Cl ++ CM ++ Cr) (Kl ++ KM ++ Kr) /\ R t' CM KM) E).
  { intros CM KM t' HR. pose proof (merge_block ci mw merged Cr (length Cl + 2) (push_more b1 CM (KM ++ take 1 Kr)) [] t') as Hb.
    rewrite Ec, app_nil_r, drop_app_add in Hb. specialize (Hb eq_refl ltac:(intros; unfold vlen in *; lia)). replace (Z.of_nat (length Cl + 2)) with (vlen Cl + 1 + 1) in Hb by (unfold vlen; lia).
    eexists _, _. split; [rewrite Ec; exact Hb|]. exists CM, KM. split; [|done]. unfold b1. rewrite !push_more_more, builder_of_more.
    f_equal. rewrite <-!app_assoc. do 2 f_equal. rewrite Ek. replace (length Cl + 2)%nat with (length Kl + 2)%nat by lia. rewrite drop_app_add. cbn [drop]. rewrite Hlr.
    destruct Kr as [|kr Kr]; [done|]. cbn [drop take length]. rewrite take_0, drop_0. cbn [app]. f_equal. rewrite take_ge; [done|lia]. }
  cbn [for_each_m]. destruct Hci as [[E1 E2]|[E1 E2]].
  - eapply runs_skip; [rewrite <-E1; apply Hskip|]. eapply runs_bind; [rewrite <-E2; apply Hmw|]. intros t' b' (CM & KM & -> & HR). by apply Hend.
  - eapply runs_bind; [rewrite <-E2; apply Hmw|]. intros t' b' (CM & KM & -> & HR). eapply runs_skip; [rewrite <-E1; apply Hskip|]. by apply Hend.
Qed.

(** The children, and the keys, apart from one of them *)
Lemma other_children ci crest : forall i b T, drop i cs = crest ++ T -> (ci < Z.of_nat i \/ Z.of_nat i + vlen crest <= ci) ->
  for_each (fun i b => if i =? ci then Ret b else c ← BranchBuilder.read_child a i; Ret (BranchBuilder.push_child b c)) (seqZ (Z.of_nat i) (vlen crest)) b = Ret (push_more b crest []).
Proof using Hok Hpad.
  induction crest as [|c crest IH]; intros i b T Hd Hi; [by rewrite push_more_nil|]. pose proof (vlen_nonneg crest). rewrite vlen_cons in *. rewrite seqZ_succ by done. cbn [for_each].
  assert (Hc : cs !! i = Some c) by (rewrite <-(Nat.add_0_r i), <-lookup_drop, Hd; done).
  rewrite (proj2 (Z.eqb_neq (Z.of_nat i) ci)), (read_child_ok fk pad pad4 cs ks slack Hok Hpad i c Hc) by lia. cbn [mbind outcome_bind]. replace (Z.of_nat i + 1) with (Z.of_nat (S i)) by lia.
  rewrite (IH (S i) _ T), push_child_more, push_more_more; [done| |lia]. rewrite (drop_S _ _ _ Hc) in Hd. by injection Hd.
Qed.
Lemma other_keys ci krest : forall i b T, drop i ks = krest ++ T -> (ci < Z.of_nat i \/ Z.of_nat i + vlen krest <= ci) ->
  for_each (fun i b => if i =? ci then Ret b else k ← expect (BranchAccessor.key a i); Ret (BranchBuilder.push_key b k)) (seqZ (Z.of_nat i) (vlen krest)) b = Ret (push_more b [] krest).
Proof using Hok Hpad.
  induction krest as [|k krest IH]; intros i b T Hd Hi; [by rewrite push_more_nil|]. pose proof (vlen_nonneg krest). rewrite vlen_cons in *. rewrite seqZ_succ by done. cbn [for_each].
  assert (Hk : ks !! i = Some k) by (rewrite <-(Nat.add_0_r i), <-lookup_drop, Hd; done).
  rewrite (proj2 (Z.eqb_neq (Z.of_nat i) ci)), (branch_key_ok fk pad pad4 cs ks slack Hok Hpad i k Hk) by lia. cbn [expect mbind outcome_bind unwrap]. replace (Z.of_nat i + 1) with (Z.of_nat (S i)) by lia.
  rewrite (IH (S i) _ T), push_key_more, push_more_more; [done| |lia]. rewrite (drop_S _ _ _ Hk) in Hd. by injection Hd.
Qed.
Lemma drop_middle {A} (X : list A) y Z0 : drop (S (length X)) (X ++ y :: Z0) = Z0.
Proof using. replace (S (length X)) with (length X + 1)%nat by lia. by rewrite drop_app_add. Qed.
(** The keys that are left when the child after [K1] is gone *)
Definition keys_without (K1 K2 : list (list Z)) : list (list Z) := match K2 with [] => removelast K1 | _ :: K2 => K1 ++ K2 end.
Lemma push_others_runs C1 c C2 K1 K2 : cs = C1 ++ c :: C2 -> ks = K1 ++ K2 -> length C1 = length K1 ->
  MutateHelper.push_others fk a (vlen C1) = Ret (branch_builder_of fk (C1 ++ C2) (keys_without K1 K2)).
Proof using Hok Hpad.
  intros Ec Ek Hl. pose proof (branch_children _ _ _ Hok) as Hn. pose proof (branch_nonempty _ _ _ Hok) as Hne. pose proof (vlen_nonneg C1). pose proof (vlen_nonneg C2).
  unfold MutateHelper.push_others. change (BranchAccessor.count_children a) with (vlen ks + 1).
  assert (Hcount : vlen ks + 1 = vlen C1 + (1 + vlen C2)) by (rewrite <-Hn, Ec, vlen_app, vlen_cons; lia).
  rewrite Hcount at 1. rewrite seqZ_split, for_each_app, Z.add_0_l by lia.
  pose proof (other_children (vlen C1) C1 0 (MutateHelper.branch_builder fk) (c :: C2) ltac:(by rewrite Ec) ltac:(lia)) as Q1. change (Z.of_nat 0) with 0 in Q1. rewrite Q1. cbn [mbind outcome_bind].
  rewrite seqZ_succ by lia. cbn [for_each]. rewrite Z.eqb_refl. cbn [mbind outcome_bind]. replace (vlen C1 + 1) with (Z.of_nat (S (length C1))) at 1 by (unfold vlen; lia).
  rewrite (other_children (vlen C1) C2 (S (length C1)) _ []); [|rewrite Ec, app_nil_r; apply drop_middle|left; unfold vlen; lia].
  cbn [mbind outcome_bind]. rewrite push_more_more, (usub_ok (vlen ks + 1) 1) by lia. cbn [mbind outcome_bind app]. replace (vlen ks + 1 - 1) with (vlen ks) by lia. rewrite builder_of_more.
  destruct K2 as [|k K2].
  - assert (C2 = []) as -> by (destruct C2; [done|]; rewrite Ek, app_nil_r, vlen_cons in Hcount; unfold vlen in *; lia).
    rewrite app_nil_r in Ek. assert (Hkk : vlen ks = vlen C1) by (rewrite Ek; unfold vlen; lia). rewrite Hkk, Z.eqb_refl.
    destruct K1 as [|kl K1 _] using rev_ind; [rewrite Ek in Hne; unfold vlen in Hne; simpl in Hne; lia|].
    assert (Hv : vlen C1 = vlen K1 + 1) by (unfold vlen; rewrite Hl, length_app; simpl; lia). rewrite usub_ok by (pose proof (vlen_nonneg K1); lia). cbn [mbind outcome_bind].
    replace (vlen C1 + 1 - 2) with (vlen K1) by lia. pose proof (fun b => other_keys (vlen C1) K1 0 b [kl] ltac:(by rewrite Ek) ltac:(lia)) as Q2. change (Z.of_nat 0) with 0 in Q2. rewrite Q2.
    cbn [keys_without]. rewrite removelast_last, push_more_more, !app_nil_r. done.
  - assert (Hks : vlen ks = vlen C1 + (1 + vlen K2)) by (rewrite Ek, vlen_app, vlen_cons; unfold vlen; lia). pose proof (vlen_nonneg K2).
    rewrite (proj2 (Z.eqb_neq (vlen C1) (vlen ks))) by lia. cbn [mbind outcome_bind]. rewrite Hks, seqZ_split, for_each_app, Z.add_0_l by lia.
    replace (vlen C1) with (vlen K1) by (unfold vlen; lia).
    pose proof (fun b => other_keys (vlen K1) K1 0 b (k :: K2) ltac:(by rewrite Ek) ltac:(lia)) as Q2. change (Z.of_nat 0) with 0 in Q2. rewrite Q2. cbn [mbind outcome_bind].
    rewrite seqZ_succ by lia. cbn [for_each]. rewrite Z.eqb_refl. cbn [mbind outcome_bind]. replace (vlen K1 + 1) with (Z.of_nat (S (length K1))) by (unfold vlen; lia).
    rewrite (other_keys (vlen K1) K2 (S (length K1)) _ []); [|rewrite Ek, app_nil_r; apply drop_middle|left; unfold vlen; lia]. rewrite !push_more_more, !app_nil_r. done.
Qed.
End loops.

(** * The promise of [delete_helper] *)

Section deletion.
  Context {St : Type} `{LS : PageStoreLaws St}.
  Context {compare valid cmp} `{BO : ByteOrder compare valid cmp} (fk fv : option Z) (good : list Z -> Z -> Prop) (kmax : Z).
  Context (Hkey : forall k, valid k -> vlen k <= kmax /\ forall w, fk = Some w -> vlen k = w).
  Context (Hkmax : 0 <= kmax /\ base fk 65535 + 65535 * kmax <= page_limit).
  Notation tree := (tree valid cmp fk fv good).

(** What is left of a tree of height [h]: its pairs [L] and its pages [P], as the result has them *)
Definition left_over (v : view) (h : nat) (lo hi : bound) (L : list pair) (P : list PageNumber.t) (r : DeletionResult) : Prop :=
  match r, h with
  | Subtree p, _ => tree v h lo hi (p, DEFERRED) L P /\ p ∈ dirty_of v
  | DeletedLeaf, O => L = [] /\ P = []
  | PartialLeaf mem d, O => exists pairs bs, is_leaf fk fv mem pairs /\ length bs = length pairs /\ indexes_of d = marked 0 bs /\ kept bs pairs = L /\
      0 < vlen (indexes_of d) /\ pairs_ok valid cmp lo hi L /\ P = []
  | PartialBranch cs ks, S h => forest valid (tree v h) lo hi cs ks L P /\ 0 < vlen ks <= 65535
  | DeletedBranch p c, S h => tree v h lo hi (p, c) L P
  | _, _ => False
  end.

Lemma left_over_agrees v v' h lo hi L P r : agrees v v' P -> left_over v h lo hi L P r -> left_over v' h lo hi L P r.
Proof.
  intros Ha. destruct r as [p| |mem d|cs ks|p c], h as [|h]; cbn [left_over]; try done.
  - intros [HT Hd]. split; [by eapply tree_agrees|]. apply Ha; [|done]. apply (tree_root _ _ _ _ _ _ _ _ _ _ HT).
  - intros [HT Hd]. split; [by eapply tree_agrees|]. apply Ha; [|done]. apply (tree_root _ _ _ _ _ _ _ _ _ _ HT).
  - intros [HF Hk]. split; [by eapply forest_agrees|done].
  - by apply tree_agrees.
Qed.
Lemma left_over_dom v h lo hi L P r : left_over v h lo hi L P r -> Forall (fun q => q ∈ dom (pages v)) P.
Proof.
  destruct r as [p| |mem d|cs ks|p c], h as [|h]; cbn [left_over]; try done.
  - intros [HT _]. by eapply tree_dom.
  - intros [HT _]. by eapply tree_dom.
  - intros [_ ->]. constructor.
  - intros (? & ? & _ & _ & _ & _ & _ & _ & ->). constructor.
  - intros [HF _]. eapply forest_pages; [|exact HF]. intros. by eapply tree_dom.
  - by apply tree_dom.
Qed.

Lemma left_deleted v h lo hi L P : left_over v h lo hi L P DeletedLeaf -> L = [] /\ P = [].
Proof. by destruct h. Qed.
Lemma left_partial v h lo hi L P mem d : left_over v h lo hi L P (PartialLeaf mem d) -> h = O /\ P = [] /\ left_over v 0 lo hi L [] (PartialLeaf mem d).
Proof. destruct h; [|done]. intros (pairs & bs & HP). split; [done|]. split; [apply HP|]. exists pairs, bs. tauto. Qed.
Lemma left_branch v h lo hi L P cs ks : left_over v h lo hi L P (PartialBranch cs ks) -> exists h', h = S h' /\ forest valid (tree v h') lo hi cs ks L P /\ 0 < vlen ks <= 65535.
Proof. destruct h as [|h']; [done|]. intros HP. by exists h'. Qed.
Lemma left_child v h lo hi L P p c : left_over v h lo hi L P (DeletedBranch p c) -> exists h', h = S h' /\ tree v h' lo hi (p, c) L P.
Proof. destruct h as [|h']; [done|]. intros HP. by exists h'. Qed.

(** The pages [A] were replaced by those of what is left. *)
Definition finished (v1 : view) (h : nat) (lo hi : bound) (A : gset PageNumber.t) (L : list pair) (pend : gmap PageNumber.t (list Z)) (n : nat) (t' : txn St)
    (r : DeletionResult) : Prop :=
  exists v' P', shows pend n t' v' /\ left_over v' h lo hi L P' r /\ NoDup P' /\ evolves v1 v' A (list_to_set P').

Lemma finished_trans v1 v2 h lo hi A B L pend n t' r : evolves v1 v2 A B -> finished v2 h lo hi B L pend n t' r -> finished v1 h lo hi A L pend n t' r.
Proof. intros He (v' & P' & H1 & H2 & H3 & H4). exists v', P'. split; [done|]. split; [done|]. split; [done|]. by eapply evolves_trans. Qed.

(** Another page is given up. *)
Lemma finished_free (c : M (txn St) unit) p v h lo hi X L pend n t1 r : finished v h lo hi X L pend n t1 r -> p ∈ dom (pages v) -> p ∉ X ->
  (forall v1, shows pend n t1 v1 -> p ∈ dom (pages v1) -> (p ∈ dirty_of v1 <-> p ∈ dirty_of v) ->
    runs c t1 (fun t' _ => exists v', shows pend n t' v' /\ evolves v1 v' {[p]} ∅) (intact v1)) ->
  runs c t1 (fun t' _ => finished v h lo hi ({[p]} ∪ X) L pend n t' r) (intact v).
Proof.
  intros (v1 & P' & Hs & Hl & Hnd & He) Hp HX Hc.
  assert (Hd : {[p]} ## (list_to_set P' : gset PageNumber.t)) by (eapply evolves_disjoint; [exact He|set_solver|set_solver]).
  destruct (ev_frame _ _ _ _ He p Hp HX) as [_ Hdd].
  eapply runs_weaken; [apply (Hc v1 Hs); [|done]| |intros t2; by eapply intact_evolves].
  { apply (ev_dom _ _ _ _ He). left. split; [done|]. by intros [? _]. }
  intros t2 [] (v2 & Hs2 & He2). exists v2, P'. split; [done|]. split; [|split; [done|]].
  - eapply left_over_agrees; [|exact Hl]. eapply evolves_agrees; [exact He2|by eapply left_over_dom|]. intros q Hq ->%elem_of_singleton. apply (Hd p); [set_solver|by apply elem_of_list_to_set].
  - eapply evolves_eq; [eapply (evolves_then v v1 v2 ({[p]} ∪ X) (list_to_set P') {[p]} ∅); [|done|exact He2]|done|by rewrite (right_id ∅ (∪))].
    eapply evolves_eq; [apply (evolves_also v v1 X (list_to_set P') {[p]} He); set_solver|done|apply union_comm].
Qed.
Lemma also_free_runs p v h lo hi X L pend n t1 r : finished v h lo hi X L pend n t1 r -> p ∈ dom (pages v) -> p ∉ X -> p ∉ dom pend ->
  runs (MutateHelper.conditional_free p) t1 (fun t' _ => finished v h lo hi ({[p]} ∪ X) L pend n t' r) (intact v).
Proof. intros Hf Hp HX Hpend. eapply finished_free; [done|done|done|]. intros v1 Hs Hd _. by apply (conditional_free_runs pend n). Qed.

(** The branch that is left over *)
Lemma finalize_runs n t v h lo hi cs ks L P size : shows ∅ (1 + n) t v -> forest valid (tree v h) lo hi cs ks L P -> NoDup P -> vlen ks <= 65535 ->
  runs (MutateHelper.finalize_branch_builder (branch_builder_of fk cs ks) size) t (finished v (S h) lo hi (list_to_set P) L ∅ n) (intact v).
Proof.
  intros Hs HF Hnd Hk. pose proof (forest_length _ _ _ _ _ _ _ HF) as Hlen.
  assert (Hco : Forall child_ok cs) by (eapply forest_children; [|exact HF]; intros; by eapply tree_child).
  assert (Hd1 : Forall (fun q => q ∈ dom (pages v)) P) by (eapply forest_pages; [|exact HF]; intros; by eapply tree_dom).
  destruct (forest_keys _ (tree_pairs fk fv good v h) _ _ _ _ _ _ HF) as (Hkv & _ & _).
  pose proof (evolves_self v P Hd1) as Hrefl.
  unfold MutateHelper.finalize_branch_builder, BranchBuilder.to_single_child. cbn [BranchBuilder.children branch_builder_of]. destruct (Z.ltb_spec 1 (vlen cs)) as [H1|H1].
  - eapply (runs_lift _ None); [done|]. destruct (BranchBuilder.required_bytes _ <? size / 3).
    + cbn [BranchBuilder.into_parts BranchBuilder.children BranchBuilder.keys branch_builder_of]. apply runs_ret. exists v, P. split; [eapply shows_weaken; [done|lia]|]. split; [split; [done|unfold vlen in *; lia]|done].
    + eapply runs_next; [apply (build_branch_runs fk valid kmax Hkey Hkmax ∅ n); [done|done|done|unfold vlen in *; lia|unfold vlen in *; lia]|].
      intros t1 p (mem & v1 & [N1 N2 N3 N4 N5 N6] & Hb). exists v1, ∅, {[p]}. split; [done|]. apply runs_ret. exists v1, (p :: P). split; [done|].
      assert (Ha : agrees v v1 P) by (eapply evolves_agrees; [exact N2|done|set_solver]). split; [|split; [|by apply evolves_page]].
      * split; [|done]. eapply new_branch_tree; [done|done|done|done|]. by eapply forest_agrees.
      * apply NoDup_cons. split; [|done]. rewrite Forall_forall in Hd1. intros Hp. by apply N5, Hd1.
  - assert (exists c, cs = [c] /\ ks = []) as ([cp cc] & -> & ->).
    { unfold vlen in H1. destruct cs as [|c [|d cs]]; simpl in *; [lia| |lia]. destruct ks; simpl in Hlen; [|lia]. by exists c. }
    eapply (runs_lift _ (Some (cp, cc))); [done|]. apply runs_ret. exists v, P. split; [eapply shows_weaken; [done|lia]|]. inversion HF; subst. done.
Qed.

(** ** Leaves *)

(** [g] has the value [w], and what is pending is what its drop writes. *)
Definition guard_reads (g : option AccessGuard.t) (w : option (list Z)) : Prop :=
  match g, w with Some g, Some w => AccessGuard.value g = Ret w | None, None => True | _, _ => False end.
Definition drops (pend : gmap PageNumber.t (list Z)) (g : AccessGuard.t) : Prop :=
  (AccessGuard.on_drop g = None /\ pend = ∅) \/
  (exists p mem off len i mem', g = AccessGuard.remove_on_drop p mem off len i fk /\ LeafMutator.new mem = Ret mem /\
    LeafMutator.remove fk fv mem i = Ret mem' /\ pend = {[p := mem']}).

Lemma drop_runs pend n t v g : shows pend n t v -> drops pend g -> runs (AccessGuard.drop fv g) t (fun t' _ => shows ∅ n t' v) (intact v).
Proof using.
  intros Hs [[Hd ->]|(p & mem & off & len & i & mem' & -> & Hn & Hm & ->)]; unfold AccessGuard.drop.
  - rewrite Hd. by apply runs_ret.
  - cbn [AccessGuard.on_drop AccessGuard.remove_on_drop AccessGuard.page]. eapply runs_lift; [exact Hn|]. eapply runs_lift; [exact Hm|]. by apply put_pending_runs.
Qed.

Section leaf_case.
  Context (v : view) (lo hi : bound) (p : PageNumber.t) (c : Z) (pad : Z) (L : list pair) (slack : list Z) (bs : list bool).
  Notation mem := (leaf fk fv pad L slack).
  Notation a := (accessor_of fk fv pad L slack).
  Notation L' := (kept bs L).
  Context (Hnode : leaf_node valid cmp fk fv good v lo hi (p, c) L mem) (Hok : leaf_ok fk fv L) (Hbs : length bs = length L) (Hsome : 0 < vlen (marked 0 bs)).
  Context (Hfit : runs_fit fk fv L').

Lemma leaf_left_ok : L' <> [] -> leaf_ok fk fv L' /\ total fk fv L' <= page_limit.
Proof.
  intros Hn. pose proof (kept_dropped_len bs L Hbs). pose proof (vlen_nonneg (dropped bs L)). destruct Hok as [O1 O2 O3 O4]. pose proof law_limit.
  assert (0 < vlen L') by (destruct L' as [|x l]; [done|rewrite vlen_cons; pose proof (vlen_nonneg l); lia]).
  pose proof (Hfit [] L' [] ltac:(by rewrite app_nil_r) ltac:(lia)). split; [|done]. split; [done|lia|by apply kept_widths|lia].
Qed.

(** A leaf that is not changed in place *)
Lemma delete_result_runs n t (d : DeletedPairs) disp retained : shows ∅ (1 + n) t v -> indexes_of d = marked 0 bs ->
  (disp = Delete <-> L' = []) ->
  runs (MutateHelper.delete_result fk fv (p, mem) a (mk_plan retained disp) d (marked 0 bs)) t (finished v 0 lo hi ∅ L' ∅ n) (intact v).
Proof.
  intros Hs Hd Hdisp. unfold MutateHelper.delete_result. cbn [disposition]. pose proof (ln_pairs Hnode) as Ho. destruct disp.
  - apply runs_ret. exists v, []. split; [eapply shows_weaken; [done|lia]|]. split; [split; [by apply Hdisp|done]|]. split; [constructor|]. apply evolves_refl.
  - assert (Hn : L' <> []) by (intros E; by apply Hdisp in E). apply runs_ret. exists v, []. split; [eapply shows_weaken; [done|lia]|]. split; [|split; [constructor|apply evolves_refl]].
    exists L, bs. split; [apply (ln_leaf Hnode)|]. split; [done|]. split; [done|]. split; [done|]. split; [by rewrite Hd|]. split; [by apply kept_pairs_ok|done].
  - assert (Hn : L' <> []) by (intros E; by apply Hdisp in E). destruct (leaf_left_ok Hn) as [Hok' Ht]. unfold MutateHelper.build_leaf_except_indexes.
    destruct (push_all_except_ok fk fv pad L slack (MutateHelper.leaf_builder fk fv) bs Hok Hbs) as (b' & E & H1 & H2 & H3 & H4). cbn [app] in H1. specialize (H4 (new_builder_ok fk fv)).
    apply bind_assoc. eapply runs_lift; [exact E|]. apply bind_assoc.
    eapply runs_next; [apply (build_leaf_runs fk fv ∅ n); [done|done|done|done|by rewrite H1|by rewrite H1]|]. intros t1 [p' mem'] (v1 & [N1 N2 N3 N4 N5 N6] & Hleaf). cbn [fst snd] in *.
    rewrite H1 in Hleaf. exists v1, ∅, {[p']}. split; [done|]. apply runs_ret_bind, runs_ret. exists v1, [p']. split; [done|]. split; [|split; [apply NoDup_singleton|]].
    + split; [|done]. eapply new_leaf_tree; [done|done|done|done|]. by apply kept_pairs_ok.
    + cbn. by rewrite (right_id_L ∅ (∪)).
Qed.
(** The removal in place, which a guard or the caller writes *)
Lemma page_dom' : p ∈ dom (pages v).
Proof using Hnode. apply elem_of_dom. eexists. apply (ln_page Hnode). Qed.
Lemma in_place_tree v1 mem' : pages v1 = <[p := mem']> (pages v) -> dirty_of v1 = dirty_of v -> p ∈ dirty_of v -> is_leaf fk fv mem' L' -> L' <> [] ->
  tree v1 0 lo hi (p, DEFERRED) L' [p].
Proof.
  intros Hp Hd Hpd Hleaf Hn. eapply new_leaf_tree; [by rewrite Hp, lookup_insert_eq|by rewrite Hd|by destruct (ln_child Hnode)|done|]. apply kept_pairs_ok; [apply (ln_pairs Hnode)|done].
Qed.
End leaf_case.

(** One pair is removed *)
Definition pend_ok (pend : gmap PageNumber.t (list Z)) (A : gset PageNumber.t) (r : DeletionResult) : Prop :=
  pend = ∅ \/ ((exists p, r = Subtree p) /\ dom pend ⊆ A).

Lemma delete_at_runs n t v lo hi p c P1 q w P3 mem want_key allow : shows ∅ (1 + n) t v ->
  leaf_node valid cmp fk fv good v lo hi (p, c) (P1 ++ (q, w) :: P3) mem -> runs_fit fk fv (P1 ++ P3) ->
  runs (MutateHelper.delete_leaf_at_position fk fv (p, mem) (vlen P1) want_key allow) t
    (fun t' r => exists pend, finished v 0 lo hi {[p]} (P1 ++ P3) pend n t' r.1.1 /\ pend_ok pend {[p]} r.1.1 /\ (allow = false -> pend = ∅) /\
      AccessGuard.value r.2 = Ret w /\ drops pend r.2 /\ guard_reads r.1.2 (if want_key then Some q else None)) (intact v).
Proof.
  intros Hs Hnode Hfit. destruct (ln_leaf Hnode) as (pad & slack & -> & Hok & Hp). pose proof (page_dom' v lo hi p c pad _ slack Hnode) as Hdom.
  destruct (one_mark P1 (q, w) P3) as (Hbs & Hm & Hkp & Hdr). set (bs := replicate (length P1) false ++ true :: replicate (length P3) false) in *.
  set (L := P1 ++ (q, w) :: P3) in *. set (a := accessor_of fk fv pad L slack). assert (Hlk : L !! length P1 = Some (q, w)) by apply lookup_at.
  unfold MutateHelper.delete_leaf_at_position. cbn [fst snd]. eapply (runs_lift _ a); [by apply leaf_accessor|]. change (LeafAccessor.num_pairs a) with (vlen L).
  assert (Hlt : vlen P1 < vlen L) by (unfold L; rewrite vlen_app, vlen_cons; pose proof (vlen_nonneg P3); lia). rewrite (proj2 (Z.ltb_lt _ _) Hlt). eapply (runs_lift _ tt); [done|].
  eapply runs_lift; [apply (pair_bytes_ok fk fv pad L slack Hok (length P1) q w Hlk)|]. apply runs_gets.
  pose proof (plan_ok fk fv pad L slack Hok bs Hbs (get_page_size (store t))) as Hplan. unfold dropped_bytes in Hplan. rewrite Hkp, Hdr in Hplan. cbn [keys_of values_of map fst snd] in Hplan.
  rewrite !size_cons in Hplan. change (size []) with 0 in Hplan. rewrite !Z.add_0_r in Hplan. change (vlen [(q, w)]) with 1 in Hplan. eapply runs_lift; [exact Hplan|].
  set (disp := if vlen (P1 ++ P3) =? 0 then Delete else if total fk fv (P1 ++ P3) <? get_page_size (store t) / 3 then Merge else Rebuild).
  assert (Hdisp : disp = Delete <-> P1 ++ P3 = []).
  { unfold disp. destruct (Z.eqb_spec (vlen (P1 ++ P3)) 0) as [E|E].
    - split; [intros _|done]. destruct (P1 ++ P3) as [|x l]; [done|rewrite vlen_cons in E; pose proof (vlen_nonneg l); lia].
    - destruct (_ <? _); (split; [done|]); intros E2; rewrite E2 in E; done. }
  eapply runs_bind; [by apply uncommitted_runs|]. intros t1 u [-> Hs1]. cbn [disposition].
  destruct (allow && bool_decide (p ∈ dirty_of v) && disposition_eqb disp Rebuild) eqn:Hfast.
  - apply andb_true_iff in Hfast as [Hfast Hre]. apply andb_true_iff in Hfast as [-> Hd]. apply bool_decide_eq_true in Hd.
    assert (Hn : P1 ++ P3 <> []) by (intros E; apply Hdisp in E; by rewrite E in Hre).
    eapply runs_lift. { unfold expect, vlen, a. rewrite value_range_ok; [done|done|]. unfold L. rewrite length_app. simpl. lia. } cbn beta iota.
    eapply (runs_lift _ (if want_key then Some (AccessGuard.with_owned_value q) else None)).
    { destruct want_key; [|done]. unfold expect, vlen, a. by rewrite (entry_ok fk fv pad L slack Hok (length P1) q w Hlk). }
    eapply runs_bind; [apply (read_mut_runs ∅ (1 + n)); [done|set_solver|apply (ln_page Hnode)|done]|]. intros t2 m [-> Hs2].
    eapply (runs_lift _ (vlen w)). { unfold L. rewrite value_off_at, value_off_after, usub_ok; [f_equal; lia|pose proof (vlen_nonneg w); lia]. }
    destruct (leaf_left_ok L bs Hok Hbs ltac:(by rewrite Hkp) ltac:(by rewrite Hkp)) as [Hok' _]. rewrite Hkp in Hok'.
    destruct (remove_ok fk fv pad P1 P3 q w slack Hok Hok') as (slack' & Hlen & Hrem). set (mem' := leaf fk fv pad (P1 ++ P3) slack') in *.
    destruct (shows_pend (1 + n) t2 v p (leaf fk fv pad L slack) mem' Hs2 (ln_page Hnode) Hd Hlen) as (v1 & Hs3 & He & Hpg & Hdd).
    apply runs_ret. exists {[p := mem']}. cbn [fst snd]. split; [|split; [right; split; [by eexists|by rewrite dom_singleton_L]|split; [done|split; [|split]]]].
    + exists v1, [p]. split; [eapply shows_weaken; [done|lia]|]. split; [|split; [apply NoDup_singleton|cbn; by rewrite (right_id_L ∅ (∪))]].
      split; [|by rewrite Hdd]. eapply new_leaf_tree; [by rewrite Hpg, lookup_insert_eq|by rewrite Hdd|by destruct (ln_child Hnode)| |].
      * apply is_leaf_intro; [done|]. fold mem'. rewrite Hlen. done.
      * rewrite <-Hkp. apply kept_pairs_ok; [apply (ln_pairs Hnode)|by rewrite Hkp].
    + unfold AccessGuard.value. cbn. rewrite <-(value_off_slice fk fv (leaf fk fv pad L slack) P1 q w P3) by apply (ln_leaf Hnode). done.
    + right. by exists p, (leaf fk fv pad L slack), (value_off fk fv L (length P1)), (vlen w), (vlen P1), mem'.
    + destruct want_key; [|done]. cbn. unfold AccessGuard.value. cbn. rewrite Z.add_0_l. rewrite <-(app_nil_r q) at 1. by apply slice_prefix.
  - clear Hfast. rewrite <-Hkp in Hdisp, Hfit |- *.
    pose proof (delete_result_runs v lo hi p c pad L slack bs Hnode Hok Hbs ltac:(by rewrite Hm) Hfit n t1 (One (vlen P1)) disp (vlen (kept bs L)) Hs1 ltac:(by rewrite Hm) Hdisp) as Hdel.
    rewrite Hm in Hdel. eapply runs_bind; [exact Hdel|]. intros t2 res Hfin.
    eapply runs_lift. { unfold expect, vlen, a. rewrite entry_ranges_ok; [done|done|]. unfold L. rewrite length_app. simpl. lia. } cbn beta iota.
    destruct (range_guards fk fv (leaf fk fv pad L slack) P1 q w P3 (ln_leaf Hnode)) as [Hkv Hval].
    assert (HX : {[p]} ∪ ∅ = ({[p]} : gset PageNumber.t)) by apply (right_id_L ∅ (∪)).
    case_bool_decide as Hd.
    + eapply runs_bind; [eapply (finished_free (on_store (free p)) p v 0 lo hi ∅); [exact Hfin|done|set_solver|]|].
      { intros v1 Hs3 Hd3 Hdd. apply (free_runs ∅ n); [done|set_solver|by apply Hdd]. }
      intros t3 [] Hfin3. rewrite HX in Hfin3. apply runs_ret. exists ∅. cbn [fst snd]. split; [done|]. split; [by left|]. split; [done|]. split; [exact Hval|]. split; [by left|].
      destruct want_key; [exact Hkv|done].
    + eapply runs_bind; [eapply (finished_free (push_freed p) p v 0 lo hi ∅); [exact Hfin|done|set_solver|]|].
      { intros v1 Hs3 Hd3 Hdd. apply (push_freed_runs ∅ n); [done|done|by rewrite Hdd]. }
      intros t3 [] Hfin3. rewrite HX in Hfin3. apply runs_ret. exists ∅. cbn [fst snd]. split; [done|]. split; [by left|]. split; [done|]. split; [exact Hval|]. split; [by left|].
      destruct want_key; [exact Hkv|done].
Qed.

(** ** The branch above *)

Lemma finished_refl v h lo hi L P pend n t r : shows pend n t v -> left_over v h lo hi L P r -> NoDup P -> finished v h lo hi (list_to_set P) L pend n t r.
Proof.
  intros Hs Hl Hnd. exists v, P. split; [done|]. split; [done|]. split; [done|]. apply evolves_self. by eapply left_over_dom.
Qed.

(** ** Two neighbours become one or two *)

Section merging.
  Context (v1 : view) (lo2 hi2 : bound).

(** The children [CM] with the pairs [LM] are new, but for the pages [Pk] that were there. *)
Definition merged_into (h : nat) (LM : list pair) (Pk : list PageNumber.t) (n : nat) (t' : txn St) (CM : list child) (KM : list (list Z)) : Prop :=
  exists v2 PM N, shows ∅ n t' v2 /\ evolves v1 v2 ∅ N /\ forest valid (tree v2 h) lo2 hi2 CM KM LM PM /\ NoDup PM /\ (forall q, q ∈ PM <-> q ∈ N \/ q ∈ Pk) /\ vlen KM <= 1.

(** *** Leaves *)

Lemma merge_leaves_runs n t (ci mw : Z) b padp Lp slackp bs d pads Ls slacks (LM := if ci <? mw then kept bs Lp ++ Ls else Ls ++ kept bs Lp) :
  shows ∅ (2 + n) t v1 -> leaf_ok fk fv Lp -> length bs = length Lp -> indexes_of d = marked 0 bs -> leaf_ok fk fv Ls -> ci <> mw -> pairs_ok valid cmp lo2 hi2 LM -> runs_fit fk fv LM ->
  runs (MutateHelper.merge_leaves fk fv (accessor_of fk fv padp Lp slackp) (accessor_of fk fv pads Ls slacks) d ci mw b) t
    (fun t' b' => exists CM KM, b' = push_more b CM KM /\ merged_into 0 LM [] n t' CM KM) (intact v1).
Proof.
  intros Hs Okp Hbs Hd Oks Hne Ho Hfit. unfold MutateHelper.merge_leaves. pose proof law_limit as Hlim.
  set (ap := accessor_of fk fv padp Lp slackp). set (as_ := accessor_of fk fv pads Ls slacks).
  pose proof (new_builder_ok fk fv) as Hb0. change (LeafBuilder.new fk fv) with (MutateHelper.leaf_builder fk fv) in Hb0. set (b0 := MutateHelper.leaf_builder fk fv) in *.
  assert (H1 : exists b1, (if ci <? mw then MutateHelper.push_all_except_deleted b0 ap d else Ret b0) = Ret b1 /\ builder_ok b1 /\
    LeafBuilder.pairs b1 = (if ci <? mw then kept bs Lp else []) /\ LeafBuilder.fixed_key_size b1 = fk /\ LeafBuilder.fixed_value_size b1 = fv).
  { destruct (ci <? mw); [|by exists b0]. destruct (push_except_ok fk fv padp Lp slackp Okp bs Hbs b0 d Hd Hb0) as (b1 & E & Q1 & Q2 & Q3 & Q4). exists b1. done. }
  destruct H1 as (b1 & E1 & B1 & P1 & F1 & V1). eapply runs_lift; [exact E1|].
  destruct (push_rest_ok fk fv pads Ls slacks b1 Oks B1) as (b2 & E2 & P2 & B2 & F2 & V2). eapply runs_lift; [exact E2|].
  assert (H3 : exists b3, (if mw <? ci then MutateHelper.push_all_except_deleted b2 ap d else Ret b2) = Ret b3 /\ builder_ok b3 /\
    LeafBuilder.pairs b3 = LM /\ LeafBuilder.fixed_key_size b3 = fk /\ LeafBuilder.fixed_value_size b3 = fv).
  { unfold LM. destruct (Z.ltb_spec ci mw), (Z.ltb_spec mw ci); try lia.
    - exists b2. rewrite P2, P1, F2, V2, F1, V1. done.
    - destruct (push_except_ok fk fv padp Lp slackp Okp bs Hbs b2 d Hd B2) as (b3 & E & Q1 & Q2 & Q3 & Q4). exists b3. rewrite Q1, Q3, Q4, P2, P1, F2, V2, F1, V1. done. }
  destruct H3 as (b3 & E3 & B3 & P3 & F3 & V3). eapply runs_lift; [exact E3|]. apply runs_gets.
  assert (Hcnt : 0 < vlen LM <= 2 * 65535 /\ widths_ok fk fv LM).
  { pose proof (kept_dropped_len bs Lp Hbs). pose proof (vlen_nonneg (dropped bs Lp)). pose proof (vlen_nonneg (kept bs Lp)). pose proof (kept_widths fk fv bs Lp (leaf_widths _ _ _ Okp)).
    destruct Okp as [_ Cp _ _], Oks as [Ns Cs Ws _]. unfold LM. destruct (ci <? mw); rewrite vlen_app, widths_app; (split; [lia|done]). }
  destruct Hcnt as [Hcnt HwM]. destruct (LeafBuilder.should_split b3 _) eqn:Hsplit.
  - unfold LeafBuilder.should_split in Hsplit. apply andb_true_iff in Hsplit as [_ Hsplit]. apply Z.ltb_lt in Hsplit. rewrite P3 in Hsplit.
    eapply runs_next; [apply (build_split_leaf_runs fk fv ∅ n); rewrite ?P3; [done|done|done|done|lia|done|done]|].
    intros t1 [[[p1 mem1] key] [p2 mem2]] (v2 & Q1 & Q2 & Hn & HQ & Hl1 & Hl2 & Hlast). cbn [fst snd] in *. rewrite P3 in HQ. exists v2, ∅, {[p1; p2]}. split; [apply Hn|].
    destruct Hn as [N1 N2 N3 N4 N5 N6 N7 N8 N9 N10 N11]. apply runs_ret. exists [(p1, DEFERRED); (p2, DEFERRED)], [key].
    split; [by rewrite push_key_more, !push_child_more, !push_more_more|]. exists v2, [p1; p2], {[p1; p2]}. split; [done|]. split; [done|]. split; [|split; [|split; [|done]]].
    + rewrite HQ. rewrite HQ in Ho. by eapply split_leaf_forest.
    + apply NoDup_cons. split; [by intros ->%list_elem_of_singleton|apply NoDup_singleton].
    + set_solver.
  - assert (Hle : vlen LM <= 65535).
    { unfold LeafBuilder.should_split in Hsplit. rewrite P3 in Hsplit. change (umax 16) with 65535 in Hsplit.
      apply andb_false_iff in Hsplit as [Hf|Hf]; [apply orb_false_iff in Hf as [_ Hf]|]; apply Z.ltb_ge in Hf; lia. }
    pose proof (Hfit [] LM [] ltac:(by rewrite app_nil_r) Hle) as Ht.
    eapply runs_next; [apply (build_leaf_runs fk fv ∅ (1 + n)); rewrite ?P3; [done|done|done|done|split; [lia|lia|done|lia]|done]|].
    intros t1 [p1 mem1] (v2 & Hn & Hl1). cbn [fst snd] in *. rewrite P3 in Hl1. exists v2, ∅, {[p1]}. split; [apply Hn|]. destruct Hn as [N1 N2 N3 N4 N5 N6].
    apply runs_ret. exists [(p1, DEFERRED)], []. split; [by rewrite push_child_more|]. exists v2, [p1], {[p1]}. split; [eapply shows_weaken; [done|lia]|]. split; [done|]. split; [|split; [|split; [|done]]].
    + constructor. by eapply new_leaf_tree.
    + apply NoDup_singleton.
    + set_solver.
Qed.

(** *** Branches *)

Lemma push_parts_more b csp ksp : MutateHelper.push_parts b csp ksp = push_more b csp ksp.
Proof.
  unfold MutateHelper.push_parts. assert (H1 : forall csp b, foldl BranchBuilder.push_child b csp = push_more b csp []).
  { clear. induction csp as [|c csp IH]; intros b; [by rewrite push_more_nil|]. cbn [foldl]. by rewrite IH, push_child_more, push_more_more. }
  assert (H2 : forall ksp b, foldl BranchBuilder.push_key b ksp = push_more b [] ksp).
  { clear. induction ksp as [|c ksp IH]; intros b; [by rewrite push_more_nil|]. cbn [foldl]. by rewrite IH, push_key_more, push_more_more. }
  rewrite H1, H2, push_more_more, app_nil_r. done.
Qed.
Lemma merge_branches_runs n t (ci mw : Z) b k pads pad4s css kss slacks csp ksp h L1 L2 P1 P2
    (A := if ci <? mw then (csp, ksp) else (css, kss)) (B := if ci <? mw then (css, kss) else (csp, ksp)) :
  shows ∅ (2 + n) t v1 -> branch_ok fk css kss -> vlen pad4s = 4 -> ci <> mw -> valid k -> vlen ksp <= 65535 ->
  forest valid (tree v1 h) lo2 (Some k) A.1 A.2 L1 P1 -> forest valid (tree v1 h) (Some k) hi2 B.1 B.2 L2 P2 -> NoDup (P1 ++ P2) ->
  runs (MutateHelper.merge_branches fk (branch_accessor_of fk pads pad4s css kss slacks) k csp ksp ci mw b) t
    (fun t' b' => exists CM KM, b' = push_more b CM KM /\ merged_into (S h) (L1 ++ L2) (P1 ++ P2) n t' CM KM) (intact v1).
Proof.
  intros Hs Oks Hp4 Hne Vk Hksp HA HB Hnd. unfold MutateHelper.merge_branches. pose proof law_limit as Hlim.
  set (b0 := MutateHelper.branch_builder fk).
  pose proof (forest_join _ _ _ _ _ _ _ _ _ _ _ _ HA Vk HB) as HF. set (CS := A.1 ++ B.1) in *. set (KS := A.2 ++ k :: B.2) in *.
  assert (Hd1 : Forall (fun q => q ∈ dom (pages v1)) (P1 ++ P2)) by (eapply forest_pages; [|exact HF]; intros; by eapply tree_dom).
  assert (Hco : Forall child_ok CS) by (eapply forest_children; [|exact HF]; intros; by eapply tree_child).
  destruct (forest_keys _ (tree_pairs fk fv good v1 h) _ _ _ _ _ _ HF) as (Hkv & _ & _). pose proof (forest_length _ _ _ _ _ _ _ HF) as Hlen.
  assert (Hcnt : 0 < vlen KS < 2 ^ 17).
  { pose proof (branch_count _ _ _ Oks). unfold KS, A, B. pose proof (vlen_nonneg ksp). pose proof (vlen_nonneg kss). destruct (ci <? mw); cbn [fst snd]; rewrite vlen_app, vlen_cons; lia. }
  eapply (runs_lift _ (push_more (if ci <? mw then BranchBuilder.push_key (MutateHelper.push_parts b0 csp ksp) k else b0) css kss)); [by apply push_all_ok|].
  assert (Hb3 : (if mw <? ci then MutateHelper.push_parts (BranchBuilder.push_key (push_more (if ci <? mw then BranchBuilder.push_key (MutateHelper.push_parts b0 csp ksp) k else b0) css kss) k) csp ksp
      else push_more (if ci <? mw then BranchBuilder.push_key (MutateHelper.push_parts b0 csp ksp) k else b0) css kss) = branch_builder_of fk CS KS).
  { unfold CS, KS, A, B. rewrite builder_of_more. fold b0. destruct (Z.ltb_spec ci mw), (Z.ltb_spec mw ci); try lia; cbn [fst snd];
      rewrite !push_parts_more, !push_key_more, !push_more_more, ?app_nil_r, <-?app_assoc; done. }
  cbn zeta. rewrite Hb3. apply runs_gets. rewrite Forall_forall in Hd1. destruct (BranchBuilder.should_split _ _) eqn:Hsplit.
  - apply should_split_true in Hsplit. eapply runs_next; [apply (build_split_branch_runs fk valid kmax Hkey Hkmax ∅ n); [done|done|done|unfold vlen; lia|lia]|].
    intros t2 [[p1 sk] p2] (mem1 & mem2 & v2 & D1 & D2 & E1 & E2 & Hn & EC & EK & Hb1 & Hb2). cbn [fst snd] in *. exists v2, ∅, {[p1; p2]}. split; [apply Hn|].
    destruct Hn as [N1 N2 N3 N4 N5 N6 N7 N8 N9 N10 N11].
    assert (HF2 : forest valid (tree v2 h) lo2 hi2 (D1 ++ D2) (E1 ++ sk :: E2) (L1 ++ L2) (P1 ++ P2)).
    { rewrite <-EC, <-EK. eapply forest_agrees; [|exact HF]. eapply evolves_agrees; [exact N2|by apply Forall_forall|intros ? _; apply not_elem_of_empty]. }
    destruct (split_branch_forest (valid := valid) (cmp := cmp) fk fv good v2 p1 p2 mem1 mem2 h lo2 hi2 D1 D2 E1 sk E2 (L1 ++ L2) (P1 ++ P2)) as (P' & HF' & HP'); [done..|].
    apply runs_ret. exists [(p1, DEFERRED); (p2, DEFERRED)], [sk]. split; [by rewrite push_key_more, !push_child_more, !push_more_more|].
    exists v2, P', {[p1; p2]}. split; [done|]. split; [done|]. split; [done|]. split; [|split; [|done]].
    + rewrite HP'. apply NoDup_cons. split; [|apply NoDup_cons; split; [|done]].
      * intros [->|Hq]%elem_of_cons; [done|]. by apply N7, Hd1.
      * intros Hq. by apply N8, Hd1.
    + intros q. rewrite HP', elem_of_union, !elem_of_singleton, !elem_of_cons. tauto.
  - apply should_split_false in Hsplit. eapply runs_next; [apply (build_branch_runs fk valid kmax Hkey Hkmax ∅ (1 + n)); [done|done|done|unfold vlen; lia|lia]|].
    intros t2 p1 (mem1 & v2 & Hn & Hb1). exists v2, ∅, {[p1]}. split; [apply Hn|]. destruct Hn as [N1 N2 N3 N4 N5 N6].
    assert (HF2 : forest valid (tree v2 h) lo2 hi2 CS KS (L1 ++ L2) (P1 ++ P2)).
    { eapply forest_agrees; [|exact HF]. eapply evolves_agrees; [exact N2|by apply Forall_forall|intros ? _; apply not_elem_of_empty]. }
    apply runs_ret. exists [(p1, DEFERRED)], []. split; [by rewrite push_child_more|]. exists v2, (p1 :: P1 ++ P2), {[p1]}. split; [eapply shows_weaken; [done|lia]|]. split; [done|].
    split; [|split; [|split; [|done]]].
    + constructor. by eapply new_branch_tree.
    + apply NoDup_cons. split; [|done]. intros Hq. by apply N5, Hd1.
    + intros q. rewrite elem_of_singleton, elem_of_cons. tauto.
Qed.

(** *** The branch above *)

Context (lo hi : bound) (cs : list child) (ks : list (list Z)) (Cl Cr : list child) (Kl : list (list Z)) (k : list Z) (Kr : list (list Z)).
Context (La Lb : list pair) (Pa Pb : list PageNumber.t) (Hok : branch_ok fk cs ks) (Ek : ks = Kl ++ k :: Kr).

Lemma merge_finish h LM Pk n t' CM KM sp size : prefix valid (tree v1 h) lo lo2 Cl Kl La Pa -> suffix valid (tree v1 h) hi2 hi Cr Kr Lb Pb ->
  NoDup (Pa ++ (sp :: Pk) ++ Pb) -> Forall (fun q => q ∈ dom (pages v1)) (sp :: Pk) -> merged_into h LM Pk (1 + n) t' CM KM ->
  runs (result ← MutateHelper.finalize_branch_builder (branch_builder_of fk (Cl ++ CM ++ Cr) (Kl ++ KM ++ Kr)) size; _ ← MutateHelper.conditional_free sp; mret result) t'
    (finished v1 (S h) lo hi (list_to_set (Pa ++ (sp :: Pk) ++ Pb)) (La ++ LM ++ Lb) ∅ n) (intact v1).
Proof.
  intros G1 G3 Hnd Hdk (v2 & PM & N & Hs & He & HF & HndM & HPM & HKM).
  assert (Da : Forall (fun q => q ∈ dom (pages v1)) Pa) by (eapply prefix_pages; [|exact G1]; intros; by eapply tree_dom).
  assert (Db : Forall (fun q => q ∈ dom (pages v1)) Pb) by (eapply suffix_pages; [|exact G3]; intros; by eapply tree_dom).
  apply Forall_cons in Hdk as [Hdsp Hdk]. rewrite Forall_forall in Da, Db, Hdk.
  assert (HN : forall q, q ∈ N -> q ∉ dom (pages v1)) by (intros q Hq; apply (ev_new _ _ _ _ He q Hq), not_elem_of_empty).
  assert (Hagr : forall l, (forall q, q ∈ l -> q ∈ dom (pages v1)) -> agrees v1 v2 l).
  { intros l Hd. eapply evolves_agrees; [exact He|by apply Forall_forall|intros ? _; apply not_elem_of_empty]. }
  assert (HF2 : forest valid (tree v2 h) lo hi (Cl ++ CM ++ Cr) (Kl ++ KM ++ Kr) (La ++ LM ++ Lb) (Pa ++ PM ++ Pb)).
  { eapply forest_plug; [eapply prefix_agrees; [by apply Hagr|exact G1]|exact HF|eapply suffix_agrees; [by apply Hagr|exact G3]]. }
  rewrite !NoDup_app in Hnd. destruct Hnd as (Na & Nab & Nk & Nkb & Nb). apply NoDup_cons in Nk as [Nsp Nk].
  assert (Hnd2 : NoDup (Pa ++ PM ++ Pb)).
  { rewrite !NoDup_app. split; [done|]. split; [|split; [done|split; [|done]]].
    - intros q Hq [[Hn|Hk]%HPM|Hb]%elem_of_app; [by apply (HN q Hn), Da|..]; (eapply Nab; [exact Hq|]); rewrite elem_of_app, elem_of_cons; tauto.
    - intros q [Hn|Hk]%HPM Hb; [by apply (HN q Hn), Db|]. eapply Nkb; [|exact Hb]. by right. }
  assert (Hev : evolves v1 v2 (list_to_set (Pa ++ Pk ++ Pb)) (list_to_set (Pa ++ PM ++ Pb))).
  { eapply evolves_eq; [apply (evolves_also v1 v2 ∅ N (list_to_set (Pa ++ Pk ++ Pb)) He)|..]; [|apply disjoint_empty_r|by rewrite (right_id ∅ (∪))|].
    - intros q. rewrite elem_of_list_to_set, !elem_of_app. intros [?|[?|?]]; auto.
    - intros q. rewrite elem_of_union, !elem_of_list_to_set, !elem_of_app, HPM. tauto. }
  eapply runs_bind.
  { eapply runs_weaken; [apply (finalize_runs n t' v2 h lo hi _ _ _ _ size Hs HF2 Hnd2)|intros t1 r Hfin; exact (finished_trans _ _ _ _ _ _ _ _ _ _ _ _ Hev Hfin)|intros t1; by eapply intact_evolves].
    pose proof (branch_count _ _ _ Hok) as Hc. rewrite Ek in Hc. rewrite !vlen_app, ?vlen_cons in *. lia. }
  intros t1 r Hfin. eapply runs_bind; [apply (also_free_runs sp _ _ _ _ _ _ _ _ _ _ Hfin Hdsp)|].
  - rewrite elem_of_list_to_set, !elem_of_app. intros [Hq|[Hq|Hq]]; [|done|eapply Nkb; [|exact Hq]; left]. eapply Nab; [exact Hq|]. left.
  - rewrite dom_empty. apply not_elem_of_empty.
  - intros t2 [] Hfin2. apply runs_ret. assert (HX : {[sp]} ∪ list_to_set (Pa ++ Pk ++ Pb) = (list_to_set (Pa ++ (sp :: Pk) ++ Pb) : gset PageNumber.t)); [|by rewrite HX in Hfin2].
    apply leibniz_equiv. intros q. rewrite elem_of_union, elem_of_singleton, !elem_of_list_to_set, !elem_of_app, elem_of_cons. tauto.
Qed.

End merging.

Section parent.
  Context (v1 : view) (h : nat) (lo hi lo' hi' : bound) (p : PageNumber.t) (pad : Z) (pad4 : list Z) (cs : list child) (ks : list (list Z)) (slack : list Z).
  Context (C1 : list child) (c : child) (C2 : list child) (K1 K2 : list (list Z)) (La Lb : list pair) (Pa Pb : list PageNumber.t).
  Notation page := (branch fk pad pad4 cs ks slack).
  Notation a := (branch_accessor_of fk pad pad4 cs ks slack).
  Context (Hok : branch_ok fk cs ks) (Hpad : vlen pad4 = 4) (Ec : cs = C1 ++ c :: C2) (Ek : ks = K1 ++ K2) (Hl : length C1 = length K1).
  Context (Hpage : pages v1 !! p = Some page) (Henc : encodable p).
  Context (G1 : prefix valid (tree v1 h) lo lo' C1 K1 La Pa) (G3 : suffix valid (tree v1 h) hi' hi C2 K2 Lb Pb).
  Context (Hlo : bound_ok valid lo) (Hhi : bound_ok valid hi) (Hwit : exists y, valid y /\ in_range cmp lo' hi' y).

Lemma parent_dom : p ∈ dom (pages v1).
Proof using Hpage. apply elem_of_dom. by eexists. Qed.

(** The child is a tree again. *)
Lemma apply_subtree_runs pend n t np Lc Pc : shows pend (1 + n) t v1 -> p ∉ dom pend -> tree v1 h lo' hi' (np, DEFERRED) Lc Pc -> NoDup (p :: Pa ++ Pc ++ Pb) ->
  (np = c.1 -> p ∈ dirty_of v1) ->
  runs (MutateHelper.apply_subtree fk (p, page) a (vlen C1) c.1 c.2 np) t
    (fun t' r => finished v1 (S h) lo hi (list_to_set (p :: Pa ++ Pc ++ Pb)) (La ++ Lc ++ Lb) pend n t' r /\ exists p', r = Subtree p') (intact v1).
Proof.
  intros Hs Hpend HT Hnd Hclean. pose proof parent_dom as Hdom. destruct (proj1 (NoDup_cons _ _) Hnd) as [Hp Hnd1].
  pose proof (forest_plug _ _ _ _ _ _ _ _ _ _ _ _ _ _ _ _ _ G1 (forest_one _ _ _ _ _ _ HT) G3) as HF. cbn [app] in HF. rewrite <-Ek in HF.
  assert (Hd1 : Forall (fun q => q ∈ dom (pages v1)) (Pa ++ Pc ++ Pb)) by (eapply forest_pages; [|exact HF]; intros; by eapply tree_dom).
  assert (Hco : Forall child_ok (C1 ++ (np, DEFERRED) :: C2)) by (eapply forest_children; [|exact HF]; intros; by eapply tree_child).
  destruct (forest_keys _ (tree_pairs fk fv good v1 h) _ _ _ _ _ _ HF) as (Hkv & _ & _). destruct Hok as [O1 O2 O3 _ _ _].
  assert (Hbr : is_branch fk page cs ks) by (by exists pad, pad4, slack).
  unfold MutateHelper.apply_subtree. cbn [fst]. destruct (bool_decide (np = c.1) && (c.2 =? DEFERRED)) eqn:Hsame.
  - apply andb_true_iff in Hsame as [E1 E2]. apply bool_decide_eq_true in E1. apply Z.eqb_eq in E2. apply runs_ret. split; [|by eexists].
    apply finished_refl; [eapply shows_weaken; [done|lia]| |done]. split; [|by apply Hclean]. rewrite E1, <-E2, <-surjective_pairing, <-Ec in HF.
    eapply new_branch_tree; [done|by apply Hclean|done|done|done].
  - clear Hsame. eapply runs_bind; [by apply uncommitted_runs|]. intros t1 u [-> Hs1]. case_bool_decide as Hd.
    + eapply runs_bind; [apply (read_mut_runs pend (1 + n)); [done|done|exact Hpage|done]|]. intros t2 m [-> Hs2]. eapply (runs_lift _ page); [done|].
      destruct (write_child_page_ok fk page C1 c C2 ks (np, DEFERRED)) as (page' & Hw & Hlen & Hb); [by rewrite <-Ec|by apply Forall_app in Hco as [_ [? _]%Forall_cons]|].
      eapply runs_lift; [exact Hw|]. eapply runs_bind; [apply (put_runs pend (1 + n) t2 v1 p page page'); [done|done|done|done|done]|].
      intros t3 [] (v2 & Hs3 & He & Hp2 & Hd2 & _). apply runs_ret. split; [|by eexists].
      assert (Ha : agrees v1 v2 (Pa ++ Pc ++ Pb)). { eapply evolves_agrees; [exact He|done|]. intros q Hq ->%elem_of_singleton. done. }
      exists v2, (p :: Pa ++ Pc ++ Pb). split; [eapply shows_weaken; [done|lia]|]. split; [|split; [done|]].
      * split; [|by rewrite Hd2]. eapply new_branch_tree; [by rewrite Hp2, lookup_insert_eq|by rewrite Hd2|done|exact Hb|]. by eapply forest_agrees.
      * eapply evolves_eq; [apply (evolves_also v1 v2 {[p]} {[p]} (list_to_set (Pa ++ Pc ++ Pb)) He)|cbn; apply union_comm|cbn; apply union_comm].
        -- intros q Hq%elem_of_list_to_set. rewrite Forall_forall in Hd1. by apply Hd1.
        -- intros q Hq%elem_of_list_to_set ->%elem_of_singleton. done.
    + eapply (runs_lift _ (branch_builder_of fk cs ks)); [by apply push_all_ok|].
      eapply (runs_lift _ (branch_builder_of fk (C1 ++ (np, DEFERRED) :: C2) ks)).
      { unfold BranchBuilder.replace_child. cbn [BranchBuilder.children branch_builder_of]. rewrite Ec, vset_middle. done. }
      eapply runs_next; [apply (build_branch_runs fk valid kmax Hkey Hkmax pend n); [done|done|done|rewrite <-O3, Ec; unfold vlen; rewrite !length_app; simpl; lia|lia]|].
      intros t2 p' (mem & v2 & [N1 N2 N3 N4 N5 N6] & Hb). exists v2, ∅, {[p']}. split; [done|].
      eapply runs_next; [apply (conditional_free_runs pend n); [done|done|]|].
      { apply (ev_dom _ _ _ _ N2). left. split; [done|]. by intros [?%not_elem_of_empty _]. }
      intros t3 [] (v3 & Hs3 & He3). exists v3, {[p]}, ∅. split; [done|]. apply runs_ret. split; [|by eexists].
      destruct (evolves_replace v1 v2 v3 p _ N2 Hdom He3) as [Hev Hkeep]. destruct (Hkeep p' ltac:(set_solver)) as [J1 J2].
      assert (Ha : agrees v1 v3 (Pa ++ Pc ++ Pb)). { eapply evolves_agrees; [exact Hev|done|]. intros q Hq ->%elem_of_singleton. done. }
      exists v3, (p' :: Pa ++ Pc ++ Pb). split; [done|]. split; [|split].
      * split; [|by apply J2]. eapply new_branch_tree; [by rewrite J1|by apply J2|done|exact Hb|]. by eapply forest_agrees.
      * apply NoDup_cons. split; [|done]. rewrite Forall_forall in Hd1. intros Hq. by apply N5, Hd1.
      * eapply evolves_eq; [apply (evolves_also v1 v3 {[p]} {[p']} (list_to_set (Pa ++ Pc ++ Pb)) Hev)|cbn; apply union_comm|cbn; apply union_comm].
        -- intros q Hq%elem_of_list_to_set. rewrite Forall_forall in Hd1. by apply Hd1.
        -- intros q Hq%elem_of_list_to_set ->%elem_of_singleton. done.
Qed.

(** The child is gone. *)
Lemma gone_forest : forest valid (tree v1 h) lo hi (C1 ++ C2) (keys_without K1 K2) (La ++ Lb) (Pa ++ Pb).
Proof.
  destruct Hwit as (y & Hy & [Y1 Y2]). pose proof (branch_nonempty _ _ _ Hok) as Hne. destruct (prefix_ok _ (tree_pairs fk fv good v1 h) _ _ _ _ _ _ G1 Hlo) as (Hlo' & _).
  destruct (suffix_inv _ _ _ _ _ _ _ G3) as [(EC & EK2 & EL & EP & Eh)|(k & Kr & EK2 & Eh & Hk & HF)]; rewrite EK2; rewrite Eh in Y2.
  - rewrite EC, EL, EP, !app_nil_r. cbn [keys_without]. rewrite Ek, EK2, app_nil_r in Hne. destruct K1 as [|kl Kl _] using rev_ind; [unfold vlen in Hne; simpl in Hne; lia|].
    rewrite removelast_last. destruct (prefix_forest _ _ _ _ _ _ _ _ G1) as (El & Vk & HF). rewrite El in Y1. eapply forest_widen; [exact HF|done|done|by intros ?|].
    intros x Hx Hxk. destruct hi as [hk|]; [|done]. cbn in *. rewrite (cmp_lt_le (cmp := cmp) x y hk); try done. by apply (cmp_le_lt (cmp := cmp) x kl y).
  - cbn [keys_without].
    assert (HF2 : forest valid (tree v1 h) lo' hi C2 Kr Lb Pb).
    { eapply forest_widen; [exact HF|done|done| |by intros ?]. intros x Hx Hxk. destruct lo' as [l|]; [|done]. cbn in *.
      apply (@bo_trans _ _ _ BO l k x); try done. by apply (cmp_lt_le (cmp := cmp) l y k). }
    pose proof (forest_plug _ _ _ _ _ _ _ _ _ _ _ _ _ _ _ _ _ G1 HF2 (suffix_nil _ hi)) as HP. by rewrite !app_nil_r in HP.
Qed.
Lemma deleted_leaf_runs n t : shows ∅ (1 + n) t v1 -> NoDup (Pa ++ Pb) ->
  runs (builder ← lift (MutateHelper.push_others fk a (vlen C1)); size ← MutateHelper.page_size; MutateHelper.finalize_branch_builder builder size) t
    (finished v1 (S h) lo hi (list_to_set (Pa ++ Pb)) (La ++ Lb) ∅ n) (intact v1).
Proof.
  intros Hs Hnd. eapply runs_lift; [by apply (push_others_runs fk pad pad4 cs ks slack Hok Hpad C1 c C2 K1 K2)|]. apply runs_gets. apply finalize_runs; [done|apply gone_forest|done|].
  pose proof (forest_length _ _ _ _ _ _ _ gone_forest) as HL. pose proof (branch_children _ _ _ Hok) as HC. pose proof (branch_count _ _ _ Hok).
  rewrite Ec in HC. unfold vlen in *. rewrite length_app in *. simpl in *. lia.
Qed.
(** The sibling to merge with, on the right of the first child and on the left of the others *)
Lemma siblings : exists (right : bool) Cl x y Cr Kl k Kr lo2 hi2 La2 Lb2 Pa2 Pb2 sp sc Ls Ps mw,
  cs = Cl ++ x :: y :: Cr /\ ks = Kl ++ k :: Kr /\ length Cl = length Kl /\ valid k /\
  prefix valid (tree v1 h) lo lo2 Cl Kl La2 Pa2 /\ suffix valid (tree v1 h) hi2 hi Cr Kr Lb2 Pb2 /\
  (vlen C1 = vlen Cl /\ mw = vlen Cl + 1 \/ vlen C1 = vlen Cl + 1 /\ mw = vlen Cl) /\ (vlen C1 <? mw) = right /\
  MutateHelper.sibling (vlen C1) = Ret mw /\ 0 <= mw < vlen cs /\ cs !! Z.to_nat mw = Some (sp, sc) /\
  (if right then lo' = lo2 /\ hi' = Some k /\ tree v1 h (Some k) hi2 (sp, sc) Ls Ps else lo' = Some k /\ hi' = hi2 /\ tree v1 h lo2 (Some k) (sp, sc) Ls Ps) /\
  (forall X, pairs_ok valid cmp lo' hi' X -> pairs_ok valid cmp lo2 hi2 (if right then X ++ Ls else Ls ++ X)) /\
  (forall X, La ++ X ++ Lb = La2 ++ (if right then X ++ Ls else Ls ++ X) ++ Lb2) /\ (forall X, Pa ++ X ++ Pb = Pa2 ++ (if right then X ++ Ps else Ps ++ X) ++ Pb2).
Proof.
  pose proof (branch_nonempty _ _ _ Hok) as Hne. unfold MutateHelper.sibling. destruct C1 as [|s0 C1' _] using rev_ind.
  - destruct K1; [|done]. inversion G1; subst lo' La Pa. destruct (suffix_inv _ _ _ _ _ _ _ G3) as [(EC & EK2 & EL & EP & Eh)|(k & Kr & EK2 & Eh & Hk & HF)].
    { rewrite Ek, EK2 in Hne. done. }
    destruct C2 as [|[sp sc] Cr]; [by apply forest_length in HF|].
    destruct (forest_focus _ _ _ [] (sp, sc) Cr [] Kr _ _ HF eq_refl) as (lo3 & hi2 & La2 & Ls & Lb2 & Pa2 & Ps & Pb2 & F1 & F2 & F3 & EL & EP). inversion F1; subst lo3 La2 Pa2.
    exists true, [], c, (sp, sc), Cr, [], k, Kr, lo, hi2, [], Lb2, [], Pb2, sp, sc, Ls, Ps, 1.
    split; [done|]. split; [by rewrite Ek, EK2|]. split; [done|]. split; [done|]. split; [constructor|]. split; [done|]. split; [by left|]. split; [done|]. split; [done|].
    rewrite Ec. cbn [app]. rewrite !vlen_cons. pose proof (vlen_nonneg Cr). split; [lia|]. split; [done|]. split; [done|].
    cbn [app] in EL, EP. split; [intros X; rewrite Eh; intros HX; eapply pairs_ok_app; [exact HX|by eapply tree_pairs]|]. split; intros X; cbn [app]; [rewrite EL|rewrite EP]; by rewrite app_assoc.
  - destruct K1 as [|k Kl _] using rev_ind; [rewrite length_app in Hl; simpl in Hl; lia|]. rewrite !length_app in Hl. simpl in Hl. destruct s0 as [sp sc].
    destruct (prefix_snoc _ _ _ _ _ _ _ _ _ G1) as (lo2 & La2 & Ls & Pa2 & Ps & F1 & F2 & Vk & El & EL & EP).
    exists false, C1', (sp, sc), c, C2, Kl, k, K2, lo2, hi', La2, Lb, Pa2, Pb, sp, sc, Ls, Ps, (vlen C1').
    assert (Hv : vlen (C1' ++ [(sp, sc)]) = vlen C1' + 1) by (rewrite vlen_app; done). pose proof (vlen_nonneg C1'). rewrite Hv.
    split; [by rewrite Ec, <-app_assoc|]. split; [by rewrite Ek, <-app_assoc|]. split; [lia|]. split; [done|]. split; [done|]. split; [done|]. split; [by right|]. split; [apply Z.ltb_ge; lia|].
    rewrite (proj2 (Z.eqb_neq _ _)), usub_ok by lia. split; [f_equal; lia|]. split; [rewrite Ec, vlen_app, vlen_cons, Hv; pose proof (vlen_nonneg C2); lia|].
    split; [unfold vlen; rewrite Nat2Z.id, Ec, <-app_assoc; apply lookup_at|]. split; [done|].
    split; [intros X; rewrite El; intros HX; eapply pairs_ok_app; [by eapply tree_pairs|exact HX]|]. split; intros X; [rewrite EL|rewrite EP]; by rewrite <-!app_assoc.
Qed.

Lemma others_dom q : q ∈ Pa ++ Pb -> q ∈ dom (pages v1).
Proof using G1 G3.
  assert (Da : Forall (fun q => q ∈ dom (pages v1)) Pa) by (eapply prefix_pages; [|exact G1]; intros; by eapply tree_dom).
  assert (Db : Forall (fun q => q ∈ dom (pages v1)) Pb) by (eapply suffix_pages; [|exact G3]; intros; by eapply tree_dom).
  rewrite Forall_forall in Da, Db. rewrite elem_of_app. intros [Hq|Hq]; auto.
Qed.

(** A child that is left with few pairs, beside a leaf with one large value *)
Lemma keep_leaf_runs n t Lp bs padp slackp d size : h = O -> shows ∅ (2 + n) t v1 -> leaf_ok fk fv Lp -> length bs = length Lp -> indexes_of d = marked 0 bs ->
  pairs_ok valid cmp lo' hi' (kept bs Lp) -> NoDup (p :: Pa ++ Pb) -> runs_fit fk fv (kept bs Lp) ->
  runs (b ← lift (MutateHelper.push_all_except_deleted (MutateHelper.leaf_builder fk fv) (accessor_of fk fv padp Lp slackp) d);
    new_page ← MutateHelper.build_leaf b;
    builder ← lift (BranchBuilder.push_all (MutateHelper.branch_builder fk) a);
    builder ← lift (BranchBuilder.replace_child builder (vlen C1) (new_page.1, DEFERRED));
    MutateHelper.finalize_branch_builder builder size) t (finished v1 (S h) lo hi (list_to_set (Pa ++ Pb)) (La ++ kept bs Lp ++ Lb) ∅ n) (intact v1).
Proof.
  intros Eh Hs Okp Hbs Hd Hoc Hnd Hfit.
  destruct (push_except_ok fk fv padp Lp slackp Okp bs Hbs (MutateHelper.leaf_builder fk fv) d Hd (new_builder_ok fk fv)) as (b & Eb & Pb1 & Bb & Fb & Vb). eapply runs_lift; [exact Eb|].
  cbn [app LeafBuilder.pairs MutateHelper.leaf_builder LeafBuilder.new] in Pb1. destruct (leaf_left_ok Lp bs Okp Hbs Hfit ltac:(apply Hoc)) as [Ok' Ht'].
  eapply runs_next; [apply (build_leaf_runs fk fv ∅ (1 + n)); rewrite ?Pb1; done|]. intros t2 [np mem'] (v2 & [N1 N2 N3 N4 N5 N6] & Hleaf). cbn [fst snd] in *. rewrite Pb1 in Hleaf.
  exists v2, ∅, {[np]}. split; [done|].
  assert (HT' : tree v2 h lo' hi' (np, DEFERRED) (kept bs Lp) [np]) by (rewrite Eh; eapply new_leaf_tree; done).
  destruct (focus_evolves fk fv good v1 v2 h lo lo' hi' hi C1 K1 La Pa C2 K2 Lb Pb p [] [np] G1 G3 parent_dom Hnd) as (J1 & J3 & _ & Jnd & _); [apply NoDup_singleton|cbn; by rewrite (right_id_L ∅ (∪))|].
  apply NoDup_cons in Jnd as [_ Jnd]. pose proof (forest_plug _ _ _ _ _ _ _ _ _ _ _ _ _ _ _ _ _ J1 (forest_one _ _ _ _ _ _ HT') J3) as HF. cbn [app] in HF. rewrite <-Ek in HF.
  eapply (runs_lift _ (branch_builder_of fk cs ks)); [by apply push_all_ok|]. eapply (runs_lift _ (branch_builder_of fk (C1 ++ (np, DEFERRED) :: C2) ks)).
  { unfold BranchBuilder.replace_child. cbn [BranchBuilder.children branch_builder_of]. rewrite Ec, vset_middle. done. }
  eapply runs_weaken; [apply (finalize_runs n t2 v2 h lo hi _ _ _ _ _ N1 HF Jnd)|intros t3 r; apply finished_trans|done].
  { pose proof (branch_count _ _ _ Hok). lia. }
  eapply evolves_eq; [apply (evolves_also v1 v2 ∅ {[np]} (list_to_set (Pa ++ Pb)) N2)|..]; [|apply disjoint_empty_r|by rewrite (right_id ∅ (∪))|set_solver].
  intros q Hq%elem_of_list_to_set. by apply others_dom.
Qed.
(** A child that is left with few pairs *)
Lemma apply_partial_leaf_runs n t mem d Lc : h = O -> shows ∅ (3 + n) t v1 -> left_over v1 0 lo' hi' Lc [] (PartialLeaf mem d) -> NoDup (p :: Pa ++ Pb) -> runs_fit fk fv (La ++ Lc ++ Lb) ->
  runs (MutateHelper.apply_partial_leaf fk fv (p, page) a (vlen C1) mem d) t (finished v1 (S h) lo hi (list_to_set (Pa ++ Pb)) (La ++ Lc ++ Lb) ∅ n) (intact v1).
Proof.
  intros Eh Hs (Lp & bs & (padp & slackp & -> & Okp & _) & Hbs & Hd & <- & Hsome & Hoc & _) Hnd Hfit.
  destruct siblings as (right & Cl & x & y & Cr & Kl & k & Kr & lo2 & hi2 & La2 & Lb2 & Pa2 & Pb2 & sp & sc & Ls & Ps & mw & Ec2 & Ek2 & Hl2 & Vk & F1 & F3 & Hci & Hr & Hsib & Hmw & Hcs & HT & HX & EL & EP).
  assert (HT2 : exists lo3 hi3, tree v1 h lo3 hi3 (sp, sc) Ls Ps) by (destruct right; destruct HT as (_ & _ & HT); by eauto). destruct HT2 as (lo3 & hi3 & HT2). rewrite Eh in HT2.
  destruct HT2 as (mems & Hnode & EPs). destruct (ln_leaf Hnode) as (pads & slacks & -> & Oks & _). cbn [fst] in EPs.
  pose proof (branch_children _ _ _ Hok) as Hn. pose proof (kept_dropped_len bs Lp Hbs) as Hkd. rewrite <-(marked_len 0 bs Lp Hbs), <-Hd in Hkd.
  assert (Hk1 : 0 < vlen (kept bs Lp)).
  { destruct Hoc as [_ _ Hn0 _ _ _]. destruct (kept bs Lp) as [|x0 l]; [done|]. rewrite vlen_cons. pose proof (vlen_nonneg l). lia. }
  unfold MutateHelper.apply_partial_leaf. eapply (runs_lift _ (accessor_of fk fv padp Lp slackp)); [by apply leaf_accessor|].
  change (LeafAccessor.num_pairs (accessor_of fk fv padp Lp slackp)) with (vlen Lp). rewrite (proj2 (Z.ltb_lt 1 (vlen Lp))) by lia. eapply (runs_lift _ tt); [done|].
  eapply (runs_lift _ (vlen Lp - deleted_len d)); [apply usub_ok; destruct d; cbn [deleted_len indexes_of] in *; [change (vlen [_]) with 1 in Hkd|]; lia|].
  eapply runs_lift; [exact Hsib|]. change (BranchAccessor.count_children a) with (vlen ks + 1). rewrite (proj2 (Z.ltb_lt mw (vlen ks + 1))) by lia. eapply (runs_lift _ tt); [done|].
  eapply (runs_lift _ sp); [rewrite <-(Z2Nat.id mw) by lia; by rewrite (child_page_ok fk pad pad4 cs ks slack Hok Hpad _ _ Hcs)|].
  apply bind_assoc. eapply runs_bind; [by apply (read_runs ∅ (3 + n) t v1 sp); [done|rewrite dom_empty; apply not_elem_of_empty|apply (ln_page Hnode)]|].
  intros t1 m [-> Hs1]. apply runs_ret_bind. cbn [snd]. eapply (runs_lift _ (accessor_of fk fv pads Ls slacks)); [by apply leaf_accessor|]. apply runs_gets.
  destruct (single_large_ok fk fv pads Ls slacks (get_page_size (store t1)) Oks) as (large & Hlarge & _). eapply runs_lift; [exact Hlarge|]. destruct large.
  - apply keep_leaf_runs; [done|eapply shows_weaken; [done|lia]|done..|by eapply runs_fit_sub].
  - rewrite EL in Hfit |- *. specialize (HX _ Hoc). rewrite <-Hr in Hfit, HX |- *. pose proof (EP []) as EP0. cbn [app] in EP0.
    assert (EPm : Pa ++ Pb = Pa2 ++ [sp] ++ Pb2) by (rewrite EP0, EPs; by destruct right; rewrite ?app_nil_r). rewrite EPm in Hnd |- *. apply NoDup_cons in Hnd as [_ Hnd]. rewrite Eh in F1, F3 |- *.
    eapply runs_bind; [apply (merge_children_runs fk pad pad4 cs ks slack Hok Hpad Cl x y Cr Kl k Kr (vlen C1) mw _ t1 (merged_into v1 lo2 hi2 0 (if vlen C1 <? mw then kept bs Lp ++ Ls else Ls ++ kept bs Lp) [] (1 + n)) _ Ec2 Ek2 Hl2 Hci)|].
    { intros b. apply merge_leaves_runs; [done..|lia|done|by eapply runs_fit_sub]. }
    intros t2 b (CM & KM & -> & HM). eapply merge_finish; [done..| |done].
    constructor; [|constructor]. apply others_dom. rewrite EPm, !elem_of_app. right; left; left.
Qed.

(** A child that is left with few children *)
Lemma apply_partial_branch_runs n t h' csp ksp Lc Pc : h = S h' -> shows ∅ (3 + n) t v1 -> forest valid (tree v1 h') lo' hi' csp ksp Lc Pc -> vlen ksp <= 65535 -> NoDup (p :: Pa ++ Pc ++ Pb) ->
  runs (MutateHelper.apply_partial_branch fk (p, page) a (vlen C1) csp ksp) t (finished v1 (S h) lo hi (list_to_set (Pa ++ Pc ++ Pb)) (La ++ Lc ++ Lb) ∅ n) (intact v1).
Proof.
  intros Eh Hs HFc Hkc Hnd.
  destruct siblings as (right & Cl & x & y & Cr & Kl & k & Kr & lo2 & hi2 & La2 & Lb2 & Pa2 & Pb2 & sp & sc & Ls & Ps & mw & Ec2 & Ek2 & Hl2 & Vk & F1 & F3 & Hci & Hr & Hsib & Hmw & Hcs & HT & _ & EL & EP).
  assert (HT2 : exists css kss pads pad4s slacks Ps', pages v1 !! sp = Some (branch fk pads pad4s css kss slacks) /\ vlen pad4s = 4 /\ branch_ok fk css kss /\ Ps = sp :: Ps' /\
    (if right then lo' = lo2 /\ hi' = Some k /\ forest valid (tree v1 h') (Some k) hi2 css kss Ls Ps' else lo' = Some k /\ hi' = hi2 /\ forest valid (tree v1 h') lo2 (Some k) css kss Ls Ps')).
  { rewrite Eh in HT. destruct right; destruct HT as (E1 & E2 & (mems & css & kss & Ps' & [B1 (pads & pad4s & slacks & B2 & -> & B3) _ _] & HF & E3)); exists css, kss, pads, pad4s, slacks, Ps'; done. }
  destruct HT2 as (css & kss & pads & pad4s & slacks & Ps' & Hsp & Hp4 & Oks & EPs & HFs). pose proof (branch_children _ _ _ Hok) as Hn.
  unfold MutateHelper.apply_partial_branch. eapply runs_lift; [exact Hsib|].
  eapply (runs_lift _ sp); [rewrite <-(Z2Nat.id mw) by lia; by rewrite (child_page_ok fk pad pad4 cs ks slack Hok Hpad _ _ Hcs)|].
  apply bind_assoc. eapply runs_bind; [by apply (read_runs ∅ (3 + n) t v1 sp); [done|rewrite dom_empty; apply not_elem_of_empty|exact Hsp]|].
  intros t1 m [-> Hs1]. apply runs_ret_bind. cbn [snd]. eapply (runs_lift _ (branch_accessor_of fk pads pad4s css kss slacks)); [by apply branch_accessor|].
  change (BranchAccessor.count_children a) with (vlen ks + 1). rewrite (proj2 (Z.ltb_lt mw (vlen ks + 1))) by lia. eapply (runs_lift _ tt); [done|].
  set (Pk := if vlen C1 <? mw then Pc ++ Ps' else Ps' ++ Pc). set (LM := if vlen C1 <? mw then Lc ++ Ls else Ls ++ Lc).
  assert (HP : Pa ++ Pc ++ Pb ≡ₚ Pa2 ++ (sp :: Pk) ++ Pb2).
  { rewrite EP, EPs. unfold Pk. rewrite Hr. destruct right; [|done]. apply Permutation_app_head, Permutation_app_tail. by rewrite <-Permutation_middle. }
  destruct (proj1 (NoDup_cons _ _) Hnd) as [_ Hnd1]. rewrite HP in Hnd1. rewrite (list_to_set_perm_L _ _ HP), EL, <-Hr. fold LM.
  assert (Hdk : Forall (fun q => q ∈ dom (pages v1)) (sp :: Pk)).
  { constructor; [apply elem_of_dom; by eexists|]. assert (Forall (fun q => q ∈ dom (pages v1)) Pc) by (eapply forest_pages; [|exact HFc]; intros; by eapply tree_dom).
    assert (Forall (fun q => q ∈ dom (pages v1)) Ps') by (destruct right, HFs as (_ & _ & HFs); (eapply forest_pages; [|exact HFs]; intros; by eapply tree_dom)).
    unfold Pk. destruct (vlen C1 <? mw); by apply Forall_app. }
  eapply runs_bind; [apply (merge_children_runs fk pad pad4 cs ks slack Hok Hpad Cl x y Cr Kl k Kr (vlen C1) mw _ t1 (merged_into v1 lo2 hi2 h LM Pk (1 + n)) _ Ec2 Ek2 Hl2 Hci)|].
  { intros b. eapply (runs_lift _ k).
    { replace (vlen C1 `min` mw) with (Z.of_nat (length Kl)) by (unfold vlen in *; lia). rewrite (branch_key_ok fk pad pad4 cs ks slack Hok Hpad _ k); [done|]. rewrite Ek2. apply lookup_at. }
    rewrite Eh. assert (HndP : NoDup Pk) by (rewrite !NoDup_app, NoDup_cons in Hnd1; tauto).
    pose proof (merge_branches_runs v1 lo2 hi2 (1 + n) t1 (vlen C1) mw b k pads pad4s css kss slacks csp ksp h') as Hm. unfold LM, Pk in *. rewrite Hr in *.
    destruct right; destruct HFs as (E1 & E2 & HFs); rewrite E1, E2 in HFc; (apply Hm; [done|done|done|lia|done|done|done|done|done]). }
  intros t2 b (CM & KM & -> & HM). apply runs_gets. exact (merge_finish v1 lo2 hi2 lo hi cs ks Cl Cr Kl k Kr La2 Lb2 Pa2 Pb2 Hok Ek2 h LM Pk n t2 CM KM sp _ F1 F3 Hnd1 Hdk HM).
Qed.

(** Whatever the child is left with *)
Lemma apply_child_runs pend n t r Lc Pc : shows pend (3 + n) t v1 -> (pend = ∅ \/ exists q, r = Subtree q) -> p ∉ dom pend -> left_over v1 h lo' hi' Lc Pc r ->
  NoDup (p :: Pa ++ Pc ++ Pb) -> runs_fit fk fv (La ++ Lc ++ Lb) -> (r = Subtree c.1 -> p ∈ dirty_of v1) ->
  runs (MutateHelper.apply_child_deletion_result fk fv (p, page) (vlen C1) r) t
    (fun t' r' => finished v1 (S h) lo hi (list_to_set (p :: Pa ++ Pc ++ Pb)) (La ++ Lc ++ Lb) pend n t' r' /\ (pend = ∅ \/ exists q, r' = Subtree q)) (intact v1).
Proof.
  intros Hs Hpend Hp Hl0 Hnd Hfit Hclean. unfold MutateHelper.apply_child_deletion_result. cbn [fst snd].
  assert (Hc : cs !! length C1 = Some c) by (rewrite Ec; apply lookup_at).
  eapply (runs_lift _ a); [by apply branch_accessor|]. eapply (runs_lift _ c.1); [unfold vlen; by rewrite (child_page_ok fk pad pad4 cs ks slack Hok Hpad _ _ Hc)|].
  eapply (runs_lift _ c.2); [unfold vlen; by rewrite (child_checksum_ok fk pad pad4 cs ks slack Hok Hpad _ _ Hc)|].
  destruct (proj1 (NoDup_cons _ _) Hnd) as [Hp' Hnd'].
  assert (Hfree : forall m, runs m t (finished v1 (S h) lo hi (list_to_set (Pa ++ Pc ++ Pb)) (La ++ Lc ++ Lb) ∅ n) (intact v1) -> pend = ∅ ->
    runs (r' ← m; _ ← MutateHelper.conditional_free p; mret r') t
      (fun t' r' => finished v1 (S h) lo hi (list_to_set (p :: Pa ++ Pc ++ Pb)) (La ++ Lc ++ Lb) pend n t' r' /\ (pend = ∅ \/ exists q, r' = Subtree q)) (intact v1)).
  { intros m Hm E. rewrite E. eapply runs_bind; [exact Hm|]. intros t1 r1 Hf. eapply runs_bind; [apply (also_free_runs p _ _ _ _ _ _ _ _ _ _ Hf parent_dom)|].
    - by rewrite elem_of_list_to_set.
    - rewrite dom_empty. apply not_elem_of_empty.
    - intros t2 [] Hf2. apply runs_ret. split; [exact Hf2|by left]. }
  destruct r as [np| |mem d|csp ksp|gp gc].
  - destruct Hl0 as [HT _]. eapply runs_weaken; [apply (apply_subtree_runs pend n t np Lc Pc); [eapply shows_weaken; [done|lia]|done|done|done|]|intros t1 r1 [Hf Hq]; split; [done|by right]|done].
    intros E. apply Hclean. by rewrite E.
  - destruct (left_deleted _ _ _ _ _ _ Hl0) as [-> ->]. destruct Hpend as [E|[q E]]; [|done]. rewrite E in Hs. apply Hfree; [|done]. cbn [app] in *.
    apply deleted_leaf_runs; [eapply shows_weaken; [done|lia]|done].
  - destruct (left_partial _ _ _ _ _ _ _ _ Hl0) as (Eh & EPc & Hl1). destruct Hpend as [E|[q E]]; [|done]. rewrite E in Hs. apply Hfree; [|done]. rewrite EPc in Hnd |- *.
    by apply apply_partial_leaf_runs.
  - destruct (left_branch _ _ _ _ _ _ _ _ Hl0) as (h' & Eh & HF & Hk). destruct Hpend as [E|[q E]]; [|done]. rewrite E in Hs. apply Hfree; [|done]. eapply apply_partial_branch_runs; [done..|lia|done].
  - destruct (left_child _ _ _ _ _ _ _ _ Hl0) as (h' & Eh & HT). destruct Hpend as [E|[q E]]; [|done]. rewrite E in Hs. apply Hfree; [|done].
    eapply apply_partial_branch_runs; [exact Eh|done|by apply forest_one|done|done].
Qed.
End parent.

(** A branch above a child that changed *)
Lemma branch_step_runs pend n t v h lo hi lo' hi' p pc pad pad4 cs ks slack C1 c C2 K1 K2 La Lc Lb Pa Pc Pb r L' :
  branch_node fk good v (p, pc) cs ks (Pa ++ Pc ++ Pb) (branch fk pad pad4 cs ks slack) -> vlen pad4 = 4 -> branch_ok fk cs ks -> cs = C1 ++ c :: C2 -> ks = K1 ++ K2 ->
  length C1 = length K1 -> prefix valid (tree v h) lo lo' C1 K1 La Pa -> tree v h lo' hi' c Lc Pc -> suffix valid (tree v h) hi' hi C2 K2 Lb Pb -> bound_ok valid lo -> bound_ok valid hi ->
  NoDup (p :: Pa ++ Pc ++ Pb) -> finished v h lo' hi' (list_to_set Pc) L' pend (3 + n) t r -> pend_ok pend (list_to_set Pc) r -> runs_fit fk fv (La ++ L' ++ Lb) ->
  runs (MutateHelper.apply_child_deletion_result fk fv (p, branch fk pad pad4 cs ks slack) (vlen C1) r) t
    (fun t' r' => finished v (S h) lo hi (list_to_set (p :: Pa ++ Pc ++ Pb)) (La ++ L' ++ Lb) pend n t' r' /\ pend_ok pend (list_to_set (p :: Pa ++ Pc ++ Pb)) r') (intact v).
Proof.
  intros Hnode Hpad Hok Ec Ek Hl F1 F2 F3 Hlo Hhi Hnd (v1 & Pc' & Hs & Hleft & Hnd' & He) Hpend Hfit.
  assert (Hpg : pages v !! p = Some (branch fk pad pad4 cs ks slack)) by apply (bn_page Hnode). assert (Hdom : p ∈ dom (pages v)) by (apply elem_of_dom; by eexists).
  destruct (focus_evolves fk fv good v v1 h lo lo' hi' hi C1 K1 La Pa C2 K2 Lb Pb p Pc Pc' F1 F3 Hdom Hnd Hnd' He) as (G1 & G3 & Ha & Hnd1 & He1). destruct (Ha p ltac:(left)) as [Ep Ed].
  assert (HpPc : p ∉ Pc). { apply NoDup_cons in Hnd as [Hnd _]. intros Hin. apply Hnd. rewrite !elem_of_app. tauto. }
  assert (Hsub : list_to_set Pc ⊆ (list_to_set (p :: Pa ++ Pc ++ Pb) : gset PageNumber.t)) by (intros q; rewrite !elem_of_list_to_set, elem_of_cons, !elem_of_app; tauto).
  assert (Hp1 : p ∉ dom pend). { destruct Hpend as [->|[_ Hd]]; [by rewrite dom_empty; apply not_elem_of_empty|]. intros Hin%Hd. by rewrite elem_of_list_to_set in Hin. }
  destruct (pairs_ok_first _ _ _ (tree_pairs fk fv good v h _ _ _ _ _ F2)) as (y & _ & Hy & Hyr).
  eapply runs_weaken; [apply (apply_child_runs v1 h lo hi lo' hi' p pad pad4 cs ks slack C1 c C2 K1 K2 La Lb Pa Pb Hok Hpad Ec Ek Hl ltac:(by rewrite Ep) (proj1 (bn_child Hnode)) G1 G3 Hlo Hhi
    (ex_intro _ y (conj Hy Hyr)) pend n t r L' Pc' Hs)|..].
  - destruct Hpend as [?|[? _]]; [by left|by right].
  - done.
  - done.
  - done.
  - done.
  - intros ->. destruct Hleft as [_ Hd]. apply Ed. destruct (bn_settled Hnode) as [?|(_ & _ & Hcl)]; [done|]. exfalso. pose proof (tree_root _ _ _ _ _ _ _ _ _ _ F2) as Hin.
    rewrite Forall_forall in Hcl. specialize (Hcl c.1 ltac:(rewrite !elem_of_app; tauto)). pose proof (tree_dom _ _ _ _ _ _ _ _ _ _ F2) as Hdc. rewrite Forall_forall in Hdc.
    by destruct (ev_clean _ _ _ _ He c.1 (Hdc _ Hin) Hcl) as [_ ?].
  - intros t' r' [Hf Hq]. split; [by eapply finished_trans|]. destruct Hq as [?|?]; [by left|]. destruct Hpend as [?|[_ Hd]]; [by left|]. right. split; [done|]. by etrans.
  - intros t'. by eapply intact_evolves.
Qed.

(** ** Deletion *)

(** The pair of [q] is gone and the guard has its value, or there is none. *)
Definition deleted (v : view) (h : nat) (lo hi : bound) (L : list pair) (P : list PageNumber.t) (q : list Z) (allow : bool) (n : nat) (t' : txn St)
    (r : DeletionResult * option AccessGuard.t) : Prop :=
  match kv_lookup cmp q L, r.2 with
  | None, None => shows ∅ n t' v
  | Some w, Some g => exists pend, finished v h lo hi (list_to_set P) (kv_remove cmp q L) pend n t' r.1 /\ pend_ok pend (list_to_set P) r.1 /\ (allow = false -> pend = ∅) /\
      AccessGuard.value g = Ret w /\ drops pend g
  | _, _ => False
  end.

Lemma delete_leaf_runs n t v lo hi p c L mem q allow : shows ∅ (1 + n) t v -> leaf_node valid cmp fk fv good v lo hi (p, c) L mem -> valid q -> runs_fit fk fv (kv_remove cmp q L) ->
  runs (MutateHelper.delete_leaf_helper compare fk fv (p, mem) q allow) t (deleted v 0 lo hi L [p] q allow n) (intact v).
Proof.
  intros Hs Hnode Hq Hfit. destruct (ln_leaf Hnode) as (pad & slack & Em & Hok & _). unfold MutateHelper.delete_leaf_helper. cbn [snd].
  eapply (runs_lift _ (accessor_of fk fv pad L slack)); [rewrite Em; by apply leaf_accessor|].
  destruct (leaf_place fk fv lo hi pad L slack q [] Hok (ln_pairs Hnode) Hq) as (P1 & P2 & P3 & found & Hpos & EL & Hf & _ & Hrm). eapply runs_lift; [exact Hpos|]. cbn beta iota.
  unfold deleted. destruct found; cbn [negb].
  - destruct Hf as (w & EP2 & Hlk). rewrite Hlk. rewrite Hrm in Hfit |- *. rewrite EP2 in EL. rewrite EL in Hnode.
    eapply runs_bind; [by apply (delete_at_runs n t v lo hi p c P1 q w P3 mem false allow)|]. intros t' [[r kg] g] (pend & Hfin & Hpend & Hallow & Hval & Hdrop & Hkg). cbn [fst snd] in *.
    destruct kg; [done|]. eapply (runs_lift _ tt); [done|]. apply runs_ret. exists pend. cbn [fst snd list_to_set]. by rewrite (right_id_L ∅ (∪)).
  - destruct Hf as [_ Hlk]. rewrite Hlk. apply runs_ret. cbn [snd]. eapply shows_weaken; [done|lia].
Qed.

Lemma delete_helper_runs h : forall fuel n t v lo hi p c L P mem q allow, (h < fuel)%nat -> shows ∅ (1 + 3 * h + n) t v -> tree v h lo hi (p, c) L P -> NoDup P ->
  pages v !! p = Some mem -> valid q -> in_range cmp lo hi q -> runs_fit fk fv (kv_remove cmp q L) ->
  runs (MutateHelper.delete_helper compare fk fv fuel (p, mem) q allow) t (deleted v h lo hi L P q allow n) (intact v).
Proof.
  induction h as [|h IH]; intros [|fuel] n t v lo hi p c L P mem q allow Hfuel Hs HT Hnd Hpage Hq Hr Hfit; try lia; cbn [MutateHelper.delete_helper snd].
  - destruct HT as (mem' & Hnode & ->). pose proof (ln_page Hnode) as E. cbn [fst] in E. rewrite Hpage in E. injection E as <-.
    destruct (ln_leaf Hnode) as (pad & slack & Em & _). eapply (runs_lift _ LEAF); [rewrite Em; apply vget_leaf|]. cbn [LEAF Z.eqb Pos.eqb].
    by eapply delete_leaf_runs.
  - destruct (branch_descend fk fv good v h lo hi p c L P mem q HT Hpage Hq Hr) as (cs & ks & pad & pad4 & slack & C1 & cp & cc & C2 & K1 & K2 & lo' & hi' & La & Lc & Lb & Pa & Pc & Pb & cmem & D).
    destruct (descent_kv fk fv good _ _ _ _ _ _ _ _ _ _ _ _ _ _ _ _ _ _ _ _ _ _ _ _ _ _ _ _ _ _ [] D Hq) as (Klk & _ & Krm).
    destruct D as [Em Hpad Hok Hnode Ec Ek Hl' Hfind F1 F2 F3 Hr' EL EP Hcmem Hlo Hhi]. subst mem P. eapply (runs_lift _ BRANCH); [apply vget_branch|]. cbn [BRANCH LEAF Z.eqb Pos.eqb].
    eapply (runs_lift _ (branch_accessor_of fk pad pad4 cs ks slack)); [by apply branch_accessor|]. eapply runs_lift; [exact Hfind|]. cbn beta iota.
    rewrite Krm in Hfit.
    unfold MutateHelper.read. apply bind_assoc. eapply runs_bind; [apply (read_runs ∅ (1 + 3 * S h + n)); [done|set_solver|exact Hcmem]|]. intros t1 ? [-> Hs1].
    apply runs_ret_bind. assert (Hnc : NoDup Pc) by (apply NoDup_cons in Hnd as [_ Hnd]; rewrite !NoDup_app in Hnd; tauto).
    eapply runs_bind; [apply (IH fuel (3 + n)%nat t1 v lo' hi' cp cc Lc Pc cmem q allow); [lia|eapply shows_weaken; [done|lia]|done..|by eapply runs_fit_sub]|].
    intros t2 [r found] Hdel. unfold deleted in *. rewrite Klk. cbn [fst snd] in *. destruct (kv_lookup cmp q Lc) as [w|], found as [g|]; try done.
    + destruct Hdel as (pend & Hfin & Hpend & Hallow & Hval & Hdrop).
      eapply runs_bind; [eapply (branch_step_runs pend n t2 v h lo hi lo' hi' p c pad pad4 cs ks slack C1 (cp, cc)); done|].
      intros t3 r' [Hf3 Hp3]. apply runs_ret. exists pend. cbn [fst snd]. by rewrite Krm.
    + apply runs_ret. cbn [snd]. eapply shows_weaken; [done|lia].
Qed.

(** The new root *)
Lemma finish_deletion_runs pend n t v h A L r : finished v h None None A L pend (1 + n) t r -> pend = ∅ \/ (exists q, r = Subtree q) -> runs_fit fk fv L ->
  runs (MutateHelper.finish_deletion fk fv r (vlen L)) t
    (fun t' root => exists v' h' P', shows pend n t' v' /\ btree valid cmp fk fv good v' h' root L P' /\ (h' <= h)%nat /\ NoDup P' /\ evolves v v' A (list_to_set P')) (intact v).
Proof.
  intros (v1 & P & Hs & Hleft & Hnd & He) Hpend Hfit. assert (Hs' : shows pend n t v1) by (eapply shows_weaken; [done|lia]). pose proof (left_over_dom _ _ _ _ _ _ _ Hleft) as Hd.
  eapply (runs_weaken _ _ (fun t' root => exists v' h' P', shows pend n t' v' /\ btree valid cmp fk fv good v' h' root L P' /\ (h' <= h)%nat /\ NoDup P' /\
    evolves v1 v' (list_to_set P) (list_to_set P')) _ (intact v1)); [|intros t' root (v' & h' & P' & H1 & H2 & H3 & H4 & H5); exists v', h', P'; do 4 (split; [done|]); by eapply evolves_trans|intros t'; by eapply intact_evolves].
  unfold MutateHelper.finish_deletion. pose proof (evolves_self v1 P Hd) as Hself. destruct r as [p| |mem d|cs ks|p c].
  - destruct Hleft as [HT _]. apply runs_ret. exists v1, h, P. split; [done|]. split; [done|]. done.
  - destruct (left_deleted _ _ _ _ _ _ Hleft) as [-> ->]. apply runs_ret. exists v1, 0%nat, []. split; [done|]. split; [done|]. split; [lia|]. done.
  - destruct Hpend as [E|[q E]]; [|done]. rewrite E in Hs |- *. destruct (left_partial _ _ _ _ _ _ _ _ Hleft) as (-> & -> & (Lp & bs & (padp & slackp & -> & Okp & _) & Hbs & Hid & <- & Hsome & Hoc & _)).
    eapply (runs_lift _ (accessor_of fk fv padp Lp slackp)); [by apply leaf_accessor|]. change (LeafAccessor.num_pairs (accessor_of fk fv padp Lp slackp)) with (vlen Lp).
    pose proof (kept_dropped_len bs Lp Hbs) as Hkd. rewrite <-(marked_len 0 bs Lp Hbs), <-Hid in Hkd. pose proof (vlen_nonneg (kept bs Lp)).
    assert (Hdl : deleted_len d = vlen (indexes_of d)) by (by destruct d). rewrite Hdl. eapply (runs_lift _ (vlen (kept bs Lp))); [rewrite usub_ok by lia; f_equal; lia|].
    destruct (push_except_ok fk fv padp Lp slackp Okp bs Hbs (MutateHelper.leaf_builder fk fv) d Hid (new_builder_ok fk fv)) as (b & Eb & Pb1 & Bb & Fb & Vb). eapply runs_lift; [exact Eb|].
    cbn [app LeafBuilder.pairs MutateHelper.leaf_builder LeafBuilder.new] in Pb1. destruct (leaf_left_ok Lp bs Okp Hbs Hfit ltac:(apply Hoc)) as [Ok' Ht'].
    eapply runs_next; [apply (build_leaf_runs fk fv ∅ n); rewrite ?Pb1; done|]. intros t2 [np mem'] (v2 & [N1 N2 N3 N4 N5 N6] & Hleaf). cbn [fst snd] in *. rewrite Pb1 in Hleaf.
    exists v2, ∅, {[np]}. split; [done|]. rewrite Z.eqb_refl. eapply (runs_lift _ tt); [done|]. apply runs_ret. exists v2, 0%nat, [np]. split; [done|].
    split; [split; [by eapply new_leaf_tree|done]|]. split; [done|]. split; [apply NoDup_singleton|by apply (evolves_page v1 v2 np [])].
  - destruct Hpend as [E|[q E]]; [|done]. rewrite E in Hs |- *. destruct (left_branch _ _ _ _ _ _ _ _ Hleft) as (h' & -> & HF & Hk). rewrite push_parts_more, <-builder_of_more.
    assert (Hco : Forall child_ok cs) by (eapply forest_children; [|exact HF]; intros; by eapply tree_child). destruct (forest_keys _ (tree_pairs fk fv good v1 h') _ _ _ _ _ _ HF) as (Hkv & _ & _).
    pose proof (forest_length _ _ _ _ _ _ _ HF) as Hlen.
    eapply runs_next; [apply (build_branch_runs fk valid kmax Hkey Hkmax ∅ n); [done|done|done|unfold vlen in *; lia|lia]|].
    intros t1 p (mem & v2 & [N1 N2 N3 N4 N5 N6] & Hb). exists v2, ∅, {[p]}. split; [done|]. apply runs_ret. exists v2, (S h'), (p :: P). split; [done|].
    assert (Ha : agrees v1 v2 P) by (eapply evolves_agrees; [exact N2|done|intros ? _; apply not_elem_of_empty]). rewrite Forall_forall in Hd. split; [|split; [done|split; [|by apply evolves_page, Forall_forall]]].
    + split; [|done]. eapply new_branch_tree; [done|done|done|done|]. by eapply forest_agrees.
    + apply NoDup_cons. split; [|done]. intros Hp. by apply N5, Hd.
  - destruct (left_child _ _ _ _ _ _ _ _ Hleft) as (h' & -> & HT). apply runs_ret. exists v1, h', P. split; [done|]. split; [done|]. split; [lia|]. done.
Qed.

Lemma delete_key_runs fuel n t v h root L P q allow : (h < fuel)%nat -> shows ∅ (2 + 3 * h + n) t v -> btree valid cmp fk fv good v h root L P -> NoDup P ->
  valid q -> runs_fit fk fv (kv_remove cmp q L) ->
  runs (MutateHelper.delete_key compare fk fv fuel root q allow) t (fun t' r => exists pend v' h' P', shows pend n t' v' /\
    btree valid cmp fk fv good v' h' r.1 (kv_remove cmp q L) P' /\ (h' <= h)%nat /\ NoDup P' /\ evolves v v' (list_to_set P) (list_to_set P') /\
    guard_reads r.2 (kv_lookup cmp q L) /\ (allow = false -> pend = ∅) /\ match r.2 with Some g => drops pend g | None => pend = ∅ /\ v' = v /\ r.1 = root end) (intact v).
Proof.
  intros Hfuel Hs HB Hnd Hq Hfit. unfold MutateHelper.delete_key. destruct root as [[rp rc rl]|].
  - destruct HB as [HT Hl]. cbn in HT, Hl. subst rl. destruct (tree_page _ _ _ _ _ _ _ _ _ _ HT) as (mem & Hmem). cbn [fst] in Hmem.
    unfold MutateHelper.read. apply bind_assoc. cbn [BtreeHeader.root BtreeHeader.length].
    eapply runs_bind; [apply (read_runs ∅ (2 + 3 * h + n)); [done|set_solver|exact Hmem]|]. intros t1 ? [-> Hs1]. apply runs_ret_bind.
    eapply runs_bind; [apply (delete_helper_runs h fuel (1 + n) t1 v None None rp rc L P mem q allow); [done|eapply shows_weaken; [done|lia]|done..]|].
    intros t2 [r found] Hdel. unfold deleted in Hdel. cbn [fst snd] in Hdel. pose proof (kv_remove_length (cmp := cmp) q L) as HKL.
    destruct (kv_lookup cmp q L) as [w|] eqn:Hlk, found as [g|]; try done.
    + destruct Hdel as (pend & Hfin & Hpend & Hallow & Hval & Hdrop). pose proof (vlen_nonneg (kv_remove cmp q L)). eapply (runs_lift _ (vlen (kv_remove cmp q L))); [rewrite usub_ok by lia; f_equal; lia|].
      eapply runs_bind; [apply (finish_deletion_runs pend n t2 v h _ _ _ Hfin); [by destruct Hpend as [?|[? _]]; [left|right]|done]|].
      intros t3 root (v' & h' & P' & H1 & H2 & H3 & H4 & H5). apply runs_ret. exists pend, v', h', P'. cbn [fst snd]. done.
    + apply runs_ret. exists ∅, v, h, P. cbn [fst snd]. rewrite kv_remove_none by done. split; [eapply shows_weaken; [done|lia]|]. split; [done|]. split; [done|]. split; [done|].
      split; [apply evolves_self; by eapply tree_dom|done].
  - destruct HB as (-> & -> & ->). apply runs_ret. exists ∅, v, 0%nat, []. cbn [fst snd]. split; [eapply shows_weaken; [done|lia]|]. split; [done|]. split; [done|]. split; [done|].
    split; [apply evolves_refl|done].
Qed.
End deletion.
