(* ===== verification/Btrees.v ===== *)
(** B-trees over any page store (src/src/tree_store/btree.rs): lookup, the first
    and the last pair, the mutable guards, the walk over the pages, relocation,
    the checksums of a transaction's pages and their verification, statistics.
    Every helper that descends takes the height it may descend as fuel.

    Pages are read through [PageResolver] or [PageAllocator]; both are the page
    store.  The cursors (btree_cursor.rs, btree_iters.rs) are not part of this file. *)
From S2P Require Import Prelude Buddy Pages Header Types KeyOrder Leaf LeafTheorems Branch PageStore Mutator.

(** * Checksums of pages *)

(** A page without pairs or with offsets beyond its end is corrupted. *)
Definition checksum_upto (memory : list Z) (end_ : Z) : outcome (result Z StorageError) :=
  if vlen memory <? end_ then Ret (Err Corrupted)
  else d ← slice memory 0 end_; c ← xxh3_checksum d; Ret (Okay c).

Definition leaf_checksum (memory : list Z) (fixed_key_size fixed_value_size : option Z) : outcome (result Z StorageError) :=
  a ← LeafAccessor.new memory fixed_key_size fixed_value_size;
  if LeafAccessor.num_pairs a <? 1 then Ret (Err Corrupted)
  else
    e ← LeafAccessor.value_end a (LeafAccessor.num_pairs a - 1);
    match e with
    | None => Ret (Err Corrupted)
    | Some end_ => checksum_upto memory end_
    end.

Definition branch_checksum (memory : list Z) (fixed_key_size : option Z) : outcome (result Z StorageError) :=
  a ← BranchAccessor.new memory fixed_key_size;
  if BranchAccessor.num_keys a <? 1 then Ret (Err Corrupted)
  else match BranchAccessor.key_end a (BranchAccessor.num_keys a - 1) with
  | None => Ret (Err Corrupted)
  | Some end_ => checksum_upto memory end_
  end.

(** [?] on a result that was computed without the state *)
Definition try_lift {S A} (c : outcome (result A StorageError)) : M S A := r ← lift c; match r with Okay a => mret a | Err e => throw e end.

(** An error that is returned as a value, with what changed before it *)
Definition catch {S A} (c : M S A) : M S (result A StorageError) := fun s => r ← c s; Ret (r.1, Okay r.2).

(** * Walks *)

Module PagePath.

Definition t : Type := list PageNumber.t.
Definition new_root (page_number : PageNumber.t) : t := [page_number].
Definition with_child (path : t) (page_number : PageNumber.t) : t := path ++ [page_number].
Definition with_subpath (path other : t) : t := path ++ other.
Definition parents (path : t) : outcome (list PageNumber.t) := m ← usub (vlen path) 1; slice path 0 m.
Definition page_number (path : t) : outcome PageNumber.t := m ← usub (vlen path) 1; vget path m.

End PagePath.

Module UntypedBtree.

Section tree.
  Context {S : Type} `{PageStore S} (key_width : option Z).

(** The visitor has a state of its own. *)
Fixpoint visit_pages_helper {B} (fuel : nat) (path : PagePath.t) (visitor : PagePath.t -> B -> M (txn S) B) (b : B) : M (txn S) B :=
  match fuel with
  | O => lift Panic
  | Datatypes.S f =>
      b ← visitor path b;
      p ← lift (PagePath.page_number path);
      mem ← on_store (get_page p);
      kind ← lift (vget mem 0);
      if kind =? LEAF then mret b
      else if kind =? BRANCH then
        a ← lift (BranchAccessor.new mem key_width);
        for_each_m (fun i b =>
          child ← lift (expect (BranchAccessor.child_page a i));
          visit_pages_helper f (PagePath.with_child path child) visitor b) (seqZ 0 (BranchAccessor.count_children a)) b
      else lift Panic
  end.
Definition visit_all_pages {B} (fuel : nat) (root : option BtreeHeader.t) (visitor : PagePath.t -> B -> M (txn S) B) (b : B) : M (txn S) B :=
  match root with
  | Some x => visit_pages_helper fuel (PagePath.new_root (BtreeHeader.root x)) visitor b
  | None => mret b
  end.

End tree.

End UntypedBtree.

Module UntypedBtreeMut.

Section tree.
  Context {S : Type} `{PageStore S} (key_width value_width : option Z).

(** The new checksum of an uncommitted page, below which the checksums are new *)
Fixpoint finalize_dirty_checksums_helper (fuel : nat) (page_number : PageNumber.t) : M (txn S) Z :=
  match fuel with
  | O => lift Panic
  | Datatypes.S f =>
      u ← is_uncommitted page_number;
      _ ← lift (rassert u);
      mem ← on_store (get_page_mut page_number);
      kind ← lift (vget mem 0);
      if kind =? LEAF then try_lift (leaf_checksum mem key_width value_width)
      else if kind =? BRANCH then
        a ← lift (BranchAccessor.new mem key_width);
        new_children ← for_each_m (fun i new_children =>
          child_page ← lift (expect (BranchAccessor.child_page a i));
          u ← is_uncommitted child_page;
          if (u : bool) then
            new_checksum ← finalize_dirty_checksums_helper f child_page;
            mret (new_children ++ [Some (i, (child_page, new_checksum))])
          else mret (new_children ++ [None])) (seqZ 0 (BranchAccessor.count_children a)) [];
        mem ← lift (BranchMutator.new mem);
        mem ← lift (for_each (fun c mem => match c with Some (child_index, c) => BranchMutator.write_child_page mem child_index c | None => Ret mem end)
          new_children mem);
        _ ← put page_number mem;
        try_lift (branch_checksum mem key_width)
      else lift Panic
  end.
Definition finalize_dirty_checksums (fuel : nat) (root : option BtreeHeader.t) : M (txn S) (option BtreeHeader.t) :=
  match root with
  | Some h =>
      u ← is_uncommitted (BtreeHeader.root h);
      if negb u then mret root
      else
        checksum ← finalize_dirty_checksums_helper fuel (BtreeHeader.root h);
        mret (Some (BtreeHeader.mk (BtreeHeader.root h) checksum (BtreeHeader.length h)))
  | None => mret None
  end.

Fixpoint dirty_leaf_visitor_helper (fuel : nat) (page_number : PageNumber.t) (visitor : PageNumber.t -> list Z -> M (txn S) unit) : M (txn S) unit :=
  match fuel with
  | O => lift Panic
  | Datatypes.S f =>
      u ← is_uncommitted page_number;
      _ ← lift (rassert u);
      mem ← on_store (get_page_mut page_number);
      kind ← lift (vget mem 0);
      if kind =? LEAF then visitor page_number mem
      else if kind =? BRANCH then
        a ← lift (BranchAccessor.new mem key_width);
        for_each_m (fun i _ =>
          child_page ← lift (expect (BranchAccessor.child_page a i));
          u ← is_uncommitted child_page;
          if (u : bool) then dirty_leaf_visitor_helper f child_page visitor else mret tt) (seqZ 0 (BranchAccessor.count_children a)) tt
      else lift Panic
  end.
Definition dirty_leaf_visitor (fuel : nat) (root : option BtreeHeader.t) (visitor : PageNumber.t -> list Z -> M (txn S) unit) : M (txn S) unit :=
  match root with
  | Some h =>
      u ← is_uncommitted (BtreeHeader.root h);
      if negb u then mret tt
      else
        mem ← on_store (get_page_mut (BtreeHeader.root h));
        kind ← lift (vget mem 0);
        if kind =? LEAF then visitor (BtreeHeader.root h) mem
        else if kind =? BRANCH then dirty_leaf_visitor_helper fuel (BtreeHeader.root h) visitor
        else lift Panic
  | None => mret tt
  end.

(** The pages of [relocation_map] get their new places, which are allocated already. *)
Fixpoint relocate_helper (fuel : nat) (page_number : PageNumber.t) (relocation_map : gmap PageNumber.t PageNumber.t) : M (txn S) (option child) :=
  match fuel with
  | O => lift Panic
  | Datatypes.S f =>
      old ← on_store (get_page page_number);
      match relocation_map !! page_number with
      | None => mret None
      | Some new_page_number =>
          new ← on_store (get_page_mut new_page_number);
          _ ← lift (rassert (vlen new =? vlen old));
          kind ← lift (vget old 0);
          _ ← put new_page_number old;
          _ ← (if kind =? LEAF then mret old
            else if kind =? BRANCH then
              a ← lift (BranchAccessor.new old key_width);
              new ← lift (BranchMutator.new old);
              for_each_m (fun i new =>
                child ← lift (expect (BranchAccessor.child_page a i));
                moved ← relocate_helper f child relocation_map;
                match moved with
                | Some c => new ← lift (BranchMutator.write_child_page new i c); _ ← put new_page_number new; mret new
                | None => mret new
                end) (seqZ 0 (BranchAccessor.count_children a)) new
            else lift Panic);
          _ ← MutateHelper.conditional_free page_number;
          mret (Some (new_page_number, DEFERRED))
      end
  end.
(** The new root, and whether it moved *)
Definition relocate (fuel : nat) (root : option BtreeHeader.t) (relocation_map : gmap PageNumber.t PageNumber.t) : M (txn S) (option BtreeHeader.t * bool) :=
  match root with
  | Some h =>
      moved ← relocate_helper fuel (BtreeHeader.root h) relocation_map;
      mret match moved with
           | Some (new_root, new_checksum) => (Some (BtreeHeader.mk new_root new_checksum (BtreeHeader.length h)), true)
           | None => (root, false)
           end
  | None => mret (root, false)
  end.

End tree.

End UntypedBtreeMut.

(** * Reading *)

Module Btree.

Section tree.
  Context {S : Type} `{PageStore S} (compare : list Z -> list Z -> outcome comparison) (key_width value_width : option Z).

(** The tree and its cached root page *)
Record t := mk { cached_root : option (list Z); root : option BtreeHeader.t }.

Definition new (root : option BtreeHeader.t) : M (txn S) t :=
  match root with
  | Some header => mem ← on_store (get_page (BtreeHeader.root header)); mret (mk (Some mem) root)
  | None => mret (mk None root)
  end.

Fixpoint get_helper (fuel : nat) (mem query : list Z) : M (txn S) (option AccessGuard.t) :=
  match fuel with
  | O => lift Panic
  | Datatypes.S f =>
      kind ← lift (vget mem 0);
      if kind =? LEAF then
        a ← lift (LeafAccessor.new mem key_width value_width);
        found ← lift (LeafAccessor.find_key compare a query);
        match found with
        | Some entry_index =>
            range ← lift (expect (LeafAccessor.value_range a entry_index));
            mret (Some (AccessGuard.with_page mem range))
        | None => mret None
        end
      else if kind =? BRANCH then
        a ← lift (BranchAccessor.new mem key_width);
        '(_, child_page) ← lift (BranchAccessor.child_for_key compare a query);
        child ← on_store (get_page child_page);
        get_helper f child query
      else lift Panic
  end.
Definition get (fuel : nat) (b : t) (key : list Z) : M (txn S) (option AccessGuard.t) :=
  match cached_root b with Some root_page => get_helper fuel root_page key | None => mret None end.

(** The guards of the pair at [index] *)
Definition entry_guards (a : LeafAccessor.t) (mem : list Z) (index : Z) : outcome (AccessGuard.t * AccessGuard.t) :=
  '(key_range, value_range) ← expect (LeafAccessor.entry_ranges a index);
  Ret (AccessGuard.with_page mem key_range, AccessGuard.with_page mem value_range).
Fixpoint first_helper (fuel : nat) (mem : list Z) : M (txn S) (option (AccessGuard.t * AccessGuard.t)) :=
  match fuel with
  | O => lift Panic
  | Datatypes.S f =>
      kind ← lift (vget mem 0);
      if kind =? LEAF then
        a ← lift (LeafAccessor.new mem key_width value_width);
        guards ← lift (entry_guards a mem 0);
        mret (Some guards)
      else if kind =? BRANCH then
        a ← lift (BranchAccessor.new mem key_width);
        child_page ← lift (expect (BranchAccessor.child_page a 0));
        child ← on_store (get_page child_page);
        first_helper f child
      else lift Panic
  end.
Definition first (fuel : nat) (b : t) : M (txn S) (option (AccessGuard.t * AccessGuard.t)) :=
  match cached_root b with Some root_page => first_helper fuel root_page | None => mret None end.
Fixpoint last_helper (fuel : nat) (mem : list Z) : M (txn S) (option (AccessGuard.t * AccessGuard.t)) :=
  match fuel with
  | O => lift Panic
  | Datatypes.S f =>
      kind ← lift (vget mem 0);
      if kind =? LEAF then
        a ← lift (LeafAccessor.new mem key_width value_width);
        m ← lift (usub (LeafAccessor.num_pairs a) 1);
        guards ← lift (entry_guards a mem m);
        mret (Some guards)
      else if kind =? BRANCH then
        a ← lift (BranchAccessor.new mem key_width);
        m ← lift (usub (BranchAccessor.count_children a) 1);
        child_page ← lift (expect (BranchAccessor.child_page a m));
        child ← on_store (get_page child_page);
        last_helper f child
      else lift Panic
  end.
Definition last (fuel : nat) (b : t) : M (txn S) (option (AccessGuard.t * AccessGuard.t)) :=
  match cached_root b with Some root_page => last_helper fuel root_page | None => mret None end.

Definition len (root : option BtreeHeader.t) : Z := match root with Some x => BtreeHeader.length x | None => 0 end.

End tree.

End Btree.

(** * Writing *)

Definition MAX_VALUE_LENGTH : Z := 3 * 1024 * 1024 * 1024.
Definition MAX_PAIR_LENGTH : Z := 3 * 1024 * 1024 * 1024 + 768 * 1024 * 1024.

(** [AccessGuardMut]: an uncommitted leaf and its parent, with their bytes, and where the value is *)
Module AccessGuardMut.

Record t := mk { page : MutateHelper.page_impl; offset : Z; len : Z; entry_index : Z; parent : option (MutateHelper.page_impl * Z); root_ref : BtreeHeader.t }.

Section guard.
  Context {S : Type} `{PageStore S} (key_width value_width : option Z).

Definition new (page : MutateHelper.page_impl) (offset len entry_index : Z) (parent : option (MutateHelper.page_impl * Z)) (root : BtreeHeader.t) : M (txn S) t :=
  u ← is_uncommitted page.1;
  _ ← lift (rassert u);
  _ ← match parent with
      | Some (parent_page, _) => u ← is_uncommitted parent_page.1; lift (rassert u)
      | None => mret tt
      end;
  mret (mk page offset len entry_index parent root).

Definition value (g : t) : outcome (list Z) := slice (page g).2 (offset g) (offset g + len g).

(** The pairs of the leaf with the new value *)
Definition push_replaced (a : LeafAccessor.t) (entry_index : Z) (value : list Z) : outcome LeafBuilder.t :=
  for_each (fun i b => '(k, v) ← expect (LeafAccessor.entry a i); Ret (LeafBuilder.push b k (if i =? entry_index then value else v)))
    (seqZ 0 (LeafAccessor.num_pairs a)) (LeafBuilder.new key_width value_width).
(** A page in place of the leaf, which the parent or the root refers to *)
Definition replace_leaf (g : t) (value : list Z) : M (txn S) t :=
  a ← lift (LeafAccessor.new (page g).2 key_width value_width);
  b ← lift (push_replaced a (entry_index g) value);
  new_page ← MutateHelper.build_leaf b;
  '(parent, root) ← match parent g with
    | Some (parent_page, parent_entry_index) =>
        mem ← lift (BranchMutator.new parent_page.2);
        mem ← lift (BranchMutator.write_child_page mem parent_entry_index (new_page.1, DEFERRED));
        _ ← put parent_page.1 mem;
        mret (Some ((parent_page.1, mem), parent_entry_index), root_ref g)
    | None => mret (None, BtreeHeader.mk new_page.1 DEFERRED (BtreeHeader.length (root_ref g)))
    end;
  freed ← on_store (free_if_uncommitted (page g).1);
  _ ← lift (rassert freed);
  mret (mk new_page (offset g) (len g) (entry_index g) parent root).
Definition insert (g : t) (value : list Z) : M (txn S) t :=
  if MAX_VALUE_LENGTH <? vlen value then throw (ValueTooLarge (vlen value))
  else
    a ← lift (LeafAccessor.new (page g).2 key_width value_width);
    '(key, _) ← lift (expect (LeafAccessor.entry a (entry_index g)));
    if MAX_PAIR_LENGTH <? vlen value + vlen key then throw (ValueTooLarge (vlen value + vlen key))
    else
      space ← lift (LeafMutator.sufficient_replace_inplace_space key_width value_width (page g).2 (entry_index g) value);
      g ← (if (space : bool) then
          mem ← lift (LeafMutator.new (page g).2);
          mem ← lift (LeafMutator.replace key_width value_width mem (entry_index g) value);
          _ ← put (page g).1 mem;
          mret (mk ((page g).1, mem) (offset g) (len g) (entry_index g) (parent g) (root_ref g))
        else replace_leaf g value);
      a ← lift (LeafAccessor.new (page g).2 key_width value_width);
      '(new_start, new_end) ← lift (expect (LeafAccessor.value_range a (entry_index g)));
      len ← lift (usub new_end new_start);
      mret (mk (page g) new_start len (entry_index g) (parent g) (root_ref g)).

End guard.

End AccessGuardMut.

Module BtreeMut.

Section tree.
  Context {S : Type} `{PageStore S} (compare : list Z -> list Z -> outcome comparison) (key_width value_width : option Z).

Definition finalize_dirty_checksums (fuel : nat) (root : option BtreeHeader.t) : M (txn S) (option BtreeHeader.t) :=
  UntypedBtreeMut.finalize_dirty_checksums key_width value_width fuel root.
Definition visit_all_pages {B} (fuel : nat) (root : option BtreeHeader.t) (visitor : PagePath.t -> B -> M (txn S) B) (b : B) : M (txn S) B :=
  tree ← Btree.new root;
  UntypedBtree.visit_all_pages key_width fuel (Btree.root tree) visitor b.

Definition insert (fuel : nat) (root : option BtreeHeader.t) (key value : list Z) : M (txn S) (option BtreeHeader.t * option AccessGuard.t) :=
  '(root, old_value, _) ← MutateHelper.insert compare key_width value_width fuel root key value;
  mret (root, old_value).
(** It frees nothing: its list of freed pages is its own. *)
Definition insert_inplace (fuel : nat) (root : option BtreeHeader.t) (key value : list Z) : M (txn S) (option BtreeHeader.t) := fun t =>
  r ← MutateHelper.insert_inplace compare key_width value_width fuel root key value (Txn (store t) []);
  match r.2 with
  | Okay root => _ ← rassert (bool_decide (freed r.1 = [])); Ret (Txn (store r.1) (freed t), Okay root)
  | Err e => Ret (Txn (store r.1) (freed t), Err e)
  end.
Definition remove (fuel : nat) (root : option BtreeHeader.t) (key : list Z) : M (txn S) (option BtreeHeader.t * option AccessGuard.t) :=
  MutateHelper.delete compare key_width value_width fuel root key.

Definition get (fuel : nat) (root : option BtreeHeader.t) (key : list Z) : M (txn S) (option AccessGuard.t) :=
  tree ← Btree.new root;
  Btree.get compare key_width value_width fuel tree key.
Definition first (fuel : nat) (root : option BtreeHeader.t) : M (txn S) (option (AccessGuard.t * AccessGuard.t)) :=
  tree ← Btree.new root;
  Btree.first key_width value_width fuel tree.
Definition last (fuel : nat) (root : option BtreeHeader.t) : M (txn S) (option (AccessGuard.t * AccessGuard.t)) :=
  tree ← Btree.new root;
  Btree.last key_width value_width fuel tree.

(** The new root and the bytes at [key] *)
Definition force_uncommitted (fuel : nat) (root : option BtreeHeader.t) (key placeholder : list Z) : M (txn S) (option BtreeHeader.t * list Z) :=
  existing ← get fuel root key;
  bytes ← match existing with Some guard => lift (AccessGuard.value guard) | None => mret placeholder end;
  '(root, _) ← insert fuel root key bytes;
  mret (root, bytes).

(** A page that may be changed: the page itself, or a copy when it is committed *)
Definition copy_page (p : PageNumber.t) : M (txn S) MutateHelper.page_impl :=
  page_size ← MutateHelper.page_size;
  size ← lift (utry 32 page_size);
  required ← lift (PageNumber.page_size_bytes p size);
  '(np, mem) ← on_store (allocate required);
  old ← on_store (get_page p);
  _ ← lift (rassert (vlen mem =? vlen old));
  _ ← put np old;
  _ ← push_freed p;
  mret (np, old).
Fixpoint get_mut_helper (fuel : nat) (root : BtreeHeader.t) (parent : option (MutateHelper.page_impl * Z)) (page : MutateHelper.page_impl) (query : list Z)
    : M (txn S) (option AccessGuardMut.t) :=
  match fuel with
  | O => lift Panic
  | Datatypes.S f =>
      kind ← lift (vget page.2 0);
      if kind =? LEAF then
        a ← lift (LeafAccessor.new page.2 key_width value_width);
        found ← lift (LeafAccessor.find_key compare a query);
        match found with
        | Some entry_index =>
            '(start, end_) ← lift (expect (LeafAccessor.value_range a entry_index));
            len ← lift (usub end_ start);
            guard ← AccessGuardMut.new page start len entry_index parent root;
            mret (Some guard)
        | None => mret None
        end
      else if kind =? BRANCH then
        a ← lift (BranchAccessor.new page.2 key_width);
        '(child_index, child_page) ← lift (BranchAccessor.child_for_key compare a query);
        u ← is_uncommitted child_page;
        if (u : bool) then
          mem ← on_store (get_page_mut child_page);
          get_mut_helper f root (Some (page, child_index)) (child_page, mem) query
        else
          new_page ← copy_page child_page;
          mem ← lift (BranchMutator.new page.2);
          mem ← lift (BranchMutator.write_child_page mem child_index (new_page.1, DEFERRED));
          _ ← put page.1 mem;
          get_mut_helper f root (Some ((page.1, mem), child_index)) new_page query
      else lift Panic
  end.
(** The new root, which an error below it leaves as it is, and the guard *)
Definition get_mut (fuel : nat) (root : option BtreeHeader.t) (key : list Z)
    : M (txn S) (option BtreeHeader.t * result (option AccessGuardMut.t) StorageError) :=
  match root with
  | Some header =>
      u ← is_uncommitted (BtreeHeader.root header);
      '(header, page) ← (if (u : bool) then
          mem ← on_store (get_page_mut (BtreeHeader.root header));
          mret (header, (BtreeHeader.root header, mem))
        else
          page ← copy_page (BtreeHeader.root header);
          mret (BtreeHeader.mk page.1 DEFERRED (BtreeHeader.length header), page));
      guard ← catch (get_mut_helper fuel header None page key);
      mret (Some header, guard)
  | None => mret (None, Okay None)
  end.

(** [initialize] is [MutInPlaceValue::initialize] of the type of values. *)
Definition insert_reserve (initialize : list Z -> outcome (list Z)) (fuel : nat) (root : option BtreeHeader.t) (key : list Z) (value_length : Z)
    : M (txn S) (option BtreeHeader.t * AccessGuardMutInPlace) :=
  value ← lift (initialize (replicate (Z.to_nat value_length) 0));
  '(root, _, guard) ← MutateHelper.insert compare key_width value_width fuel root key value;
  mret (root, guard).

End tree.

End BtreeMut.

(** * Verification *)

Module RawBtree.

Section tree.
  Context {S : Type} `{PageStore S} (fixed_key_size fixed_value_size : option Z).

Fixpoint verify_checksum_helper (fuel : nat) (page_number : PageNumber.t) (expected_checksum : Z) : M (txn S) bool :=
  match fuel with
  | O => lift Panic
  | Datatypes.S f =>
      mem ← on_store (get_page page_number);
      kind ← lift (vget mem 0);
      if kind =? LEAF then
        computed ← lift (leaf_checksum mem fixed_key_size fixed_value_size);
        mret match computed with Okay c => expected_checksum =? c | Err _ => false end
      else if kind =? BRANCH then
        computed ← lift (branch_checksum mem fixed_key_size);
        if negb match computed with Okay c => expected_checksum =? c | Err _ => false end then mret false
        else
          a ← lift (BranchAccessor.new mem fixed_key_size);
          for_each_m (fun i (ok : bool) =>
            if negb ok then mret false
            else
              p ← lift (expect (BranchAccessor.child_page a i));
              c ← lift (expect (BranchAccessor.child_checksum a i));
              verify_checksum_helper f p c) (seqZ 0 (BranchAccessor.count_children a)) true
      else mret false
  end.
Definition verify_checksum (fuel : nat) (root : option BtreeHeader.t) : M (txn S) bool :=
  match root with
  | Some header => verify_checksum_helper fuel (BtreeHeader.root header) (BtreeHeader.checksum header)
  | None => mret true
  end.

End tree.

End RawBtree.

(** * Statistics *)

Record BtreeStats := mk_stats {
  tree_height : Z; leaf_pages : Z; branch_pages : Z; stored_leaf_bytes : Z; metadata_bytes : Z; fragmented_bytes : Z }.

Section stats.
  Context {S : Type} `{PageStore S} (fixed_key_size fixed_value_size : option Z).

(** The statistics of a child are added; its height counts when it is the largest. *)
Definition add_stats (a b : BtreeStats) : outcome BtreeStats :=
  leaf ← uadd 64 (leaf_pages a) (leaf_pages b);
  branch ← uadd 64 (branch_pages a) (branch_pages b);
  stored ← uadd 64 (stored_leaf_bytes a) (stored_leaf_bytes b);
  metadata ← uadd 64 (metadata_bytes a) (metadata_bytes b);
  fragmented ← uadd 64 (fragmented_bytes a) (fragmented_bytes b);
  Ret (mk_stats (tree_height a `max` tree_height b) leaf branch stored metadata fragmented).
Fixpoint stats_helper (fuel : nat) (page_number : PageNumber.t) : M (txn S) BtreeStats :=
  match fuel with
  | O => lift Panic
  | Datatypes.S f =>
      mem ← on_store (get_page page_number);
      kind ← lift (vget mem 0);
      if kind =? LEAF then
        a ← lift (LeafAccessor.new mem fixed_key_size fixed_value_size);
        leaf_bytes ← lift (LeafAccessor.length_of_pairs a 0 (LeafAccessor.num_pairs a));
        total ← lift (LeafAccessor.total_length a);
        overhead_bytes ← lift (usub total leaf_bytes);
        fragmented ← lift (usub (vlen mem) total);
        mret (mk_stats 1 1 0 leaf_bytes overhead_bytes fragmented)
      else if kind =? BRANCH then
        a ← lift (BranchAccessor.new mem fixed_key_size);
        total ← lift (BranchAccessor.total_length a);
        fragmented ← lift (usub (vlen mem) total);
        s ← for_each_m (fun i s =>
          child ← lift (BranchAccessor.child_page a i);
          match child with
          | Some child => stats ← stats_helper f child; lift (add_stats s stats)
          | None => mret s
          end) (seqZ 0 (BranchAccessor.count_children a)) (mk_stats 0 0 1 0 total fragmented);
        height ← lift (uadd 32 (tree_height s) 1);
        mret (mk_stats height (leaf_pages s) (branch_pages s) (stored_leaf_bytes s) (metadata_bytes s) (fragmented_bytes s))
      else lift Panic
  end.
Definition btree_stats (fuel : nat) (root : option PageNumber.t) : M (txn S) BtreeStats :=
  match root with Some root => stats_helper fuel root | None => mret (mk_stats 0 0 0 0 0 0) end.

End stats.
