(* ===== verification/Lookup.v ===== *)
(** Reading B-trees (src/src/tree_store/btree.rs): lookup, the first and the last
    pair, and the walk over the pages, against the pairs the tree holds. *)
From S2P Require Import Prelude Buddy Pages Header Types KeyOrder Leaf LeafTheorems Branch PageStore Mutator Trees Building Insertion Btrees.

Section reading.
  Context {St : Type} `{LS : PageStoreLaws St}.
  Context {compare valid cmp} `{BO : ByteOrder compare valid cmp} (fk fv : option Z) (good : list Z -> Z -> Prop).
  Notation tree := (tree valid cmp fk fv good).

(** ** Lookup *)

Lemma get_helper_runs h : forall fuel n t v lo hi p c L P mem q, (h < fuel)%nat -> shows ∅ n t v -> tree v h lo hi (p, c) L P -> pages v !! p = Some mem -> valid q -> in_range cmp lo hi q ->
  runs (Btree.get_helper compare fk fv fuel mem q) t (fun t' r => shows ∅ n t' v /\ guard_is r (kv_lookup cmp q L)) (intact v).
Proof.
  induction h as [|h IH]; intros [|fuel] n t v lo hi p c L P mem q Hfuel Hs HT Hpage Hq Hr; try lia; cbn [Btree.get_helper].
  - destruct HT as (mem' & Hnode & ->). pose proof (ln_page Hnode) as E. cbn [fst] in E. rewrite Hpage in E. injection E as <-.
    destruct (ln_leaf Hnode) as (pad & slack & Em & Hok & _). eapply (runs_lift _ LEAF); [rewrite Em; apply vget_leaf|]. cbn [LEAF Z.eqb Pos.eqb].
    eapply (runs_lift _ (accessor_of fk fv pad L slack)); [rewrite Em; by apply leaf_accessor|].
    destruct (leaf_place fk fv lo hi pad L slack q [] Hok (ln_pairs Hnode) Hq) as (P1 & P2 & P3 & found & Hpos & EL & Hf & _).
    eapply (runs_lift _ (if found then Some (vlen P1) else None)); [unfold LeafAccessor.find_key; by rewrite Hpos|]. destruct found.
    + destruct Hf as (w & EP2 & Hlk). rewrite Hlk. rewrite EP2 in EL.
      eapply runs_lift. { unfold expect, vlen. rewrite value_range_ok; [done|done|]. rewrite EL, length_app. simpl. lia. }
      apply runs_ret. split; [done|]. destruct (range_guards fk fv mem P1 q w P3) as [_ Hval]; [rewrite <-EL; apply (ln_leaf Hnode)|]. split; [by rewrite EL|done].
    + destruct Hf as [_ ->]. by apply runs_ret.
  - destruct (branch_descend fk fv good v h lo hi p c L P mem q HT Hpage Hq Hr) as (cs & ks & pad & pad4 & slack & C1 & cp & cc & C2 & K1 & K2 & lo' & hi' & La & Lc & Lb & Pa & Pc & Pb & cmem & D).
    destruct (descent_kv fk fv good _ _ _ _ _ _ _ _ _ _ _ _ _ _ _ _ _ _ _ _ _ _ _ _ _ _ _ _ _ _ [] D Hq) as (-> & _ & _).
    destruct D as [-> Hpad Hok Hnode Ec Ek Hl' Hfind F1 F2 F3 Hr' EL EP Hcmem Hlo Hhi]. eapply (runs_lift _ BRANCH); [apply vget_branch|]. cbn [BRANCH LEAF Z.eqb Pos.eqb].
    eapply (runs_lift _ (branch_accessor_of fk pad pad4 cs ks slack)); [by apply branch_accessor|]. eapply runs_lift; [exact Hfind|]. cbn beta iota.
    eapply runs_bind; [apply (read_runs ∅ n); [done|set_solver|exact Hcmem]|]. intros t1 ? [-> Hs1]. eapply (IH fuel n t1 v lo' hi' cp cc); [lia|done..].
Qed.

(** The cached root page *)
Lemma new_runs n t v h root L P : shows ∅ n t v -> btree valid cmp fk fv good v h root L P ->
  runs (Btree.new root) t (fun t' b => shows ∅ n t' v /\ Btree.root b = root /\
    match root with Some r => exists mem, Btree.cached_root b = Some mem /\ pages v !! BtreeHeader.root r = Some mem | None => Btree.cached_root b = None end) (intact v).
Proof.
  intros Hs HB. unfold Btree.new. destruct root as [[rp rc rl]|]; [|by apply runs_ret]. destruct HB as [HT _]. cbn in HT.
  destruct (tree_page _ _ _ _ _ _ _ _ _ _ HT) as (mem & Hmem). cbn [BtreeHeader.root]. eapply runs_bind; [apply (read_runs ∅ n); [done|set_solver|exact Hmem]|].
  intros t1 ? [-> Hs1]. apply runs_ret. split; [done|]. split; [done|]. by exists mem.
Qed.
Lemma get_runs fuel n t v h root L P q : (h < fuel)%nat -> shows ∅ n t v -> btree valid cmp fk fv good v h root L P -> valid q ->
  runs (BtreeMut.get compare fk fv fuel root q) t (fun t' r => shows ∅ n t' v /\ guard_is r (kv_lookup cmp q L)) (intact v).
Proof.
  intros Hf Hs HB Hq. unfold BtreeMut.get. eapply runs_bind; [by eapply new_runs|]. intros t1 b (Hs1 & _ & Hc). unfold Btree.get. destruct root as [[rp rc rl]|].
  - destruct Hc as (mem & -> & Hmem). destruct HB as [HT _]. by eapply get_helper_runs.
  - destruct HB as (_ & -> & _). rewrite Hc. by apply runs_ret.
Qed.

(** ** The first and the last pair *)

Definition pair_guards (r : option (AccessGuard.t * AccessGuard.t)) (x : option pair) : Prop :=
  match r, x with
  | Some (k, w), Some (key, value) => AccessGuard.value k = Ret key /\ AccessGuard.value w = Ret value
  | None, None => True
  | _, _ => False
  end.

Lemma entry_guards_ok pad slack mem A q w B : mem = leaf fk fv pad (A ++ (q, w) :: B) slack -> is_leaf fk fv mem (A ++ (q, w) :: B) -> leaf_ok fk fv (A ++ (q, w) :: B) ->
  exists g, Btree.entry_guards (accessor_of fk fv pad (A ++ (q, w) :: B) slack) mem (vlen A) = Ret g /\ pair_guards (Some g) (Some (q, w)).
Proof.
  intros Em Hleaf Hok. unfold Btree.entry_guards, expect, vlen. rewrite entry_ranges_ok by (done || rewrite length_app; simpl; lia). cbn [mbind outcome_bind unwrap].
  eexists. split; [done|]. by apply range_guards.
Qed.

Lemma branch_open v h lo hi c L P : tree v (S h) lo hi c L P -> exists pad pad4 slack cs ks P', pages v !! c.1 = Some (branch fk pad pad4 cs ks slack) /\ vlen pad4 = 4 /\ branch_ok fk cs ks /\
  forest valid (tree v h) lo hi cs ks L P' /\ P = c.1 :: P'.
Proof. intros (mem & cs & ks & P' & [N1 (pad & pad4 & slack & Hp & -> & Hok) _ _] & HF & ->). exists pad, pad4, slack, cs, ks, P'. done. Qed.

Lemma first_helper_runs h : forall fuel n t v lo hi c L P mem, (h < fuel)%nat -> shows ∅ n t v -> tree v h lo hi c L P -> pages v !! c.1 = Some mem ->
  runs (Btree.first_helper fk fv fuel mem) t (fun t' r => shows ∅ n t' v /\ pair_guards r (head L)) (intact v).
Proof.
  induction h as [|h IH]; intros [|fuel] n t v lo hi c L P mem Hfuel Hs HT Hpage; try lia; cbn [Btree.first_helper].
  - destruct HT as (mem' & Hnode & ->). pose proof (ln_page Hnode) as E. rewrite Hpage in E. injection E as <-. destruct (ln_leaf Hnode) as (pad & slack & Em & Hok & _).
    eapply (runs_lift _ LEAF); [rewrite Em; apply vget_leaf|]. cbn [LEAF Z.eqb Pos.eqb]. eapply (runs_lift _ (accessor_of fk fv pad L slack)); [rewrite Em; by apply leaf_accessor|].
    destruct L as [|[q w] B]; [by destruct (ln_pairs Hnode)|]. destruct (entry_guards_ok pad slack mem [] q w B Em (ln_leaf Hnode) Hok) as (g & Hg & Hpg).
    eapply runs_lift; [exact Hg|]. by apply runs_ret.
  - destruct (branch_open _ _ _ _ _ _ _ HT) as (pad & pad4 & slack & cs & ks & P' & Hp & Hpad & Hok & HF & ->). rewrite Hpage in Hp. injection Hp as ->.
    eapply (runs_lift _ BRANCH); [apply vget_branch|]. cbn [BRANCH LEAF Z.eqb Pos.eqb]. eapply (runs_lift _ (branch_accessor_of fk pad pad4 cs ks slack)); [by apply branch_accessor|].
    destruct cs as [|c1 C2]; [by apply forest_length in HF|]. destruct (forest_focus _ _ _ [] c1 C2 [] ks _ _ HF eq_refl) as (lo' & hi' & La & Lc & Lb & Pa & Pc & Pb & F1 & F2 & _ & -> & _).
    inversion F1; subst La. pose proof (child_page_ok fk pad pad4 (c1 :: C2) ks slack Hok Hpad 0 c1 eq_refl) as Hcp. change (Z.of_nat 0) with 0 in Hcp. eapply (runs_lift _ c1.1); [by rewrite Hcp|].
    destruct (tree_page _ _ _ _ _ _ _ _ _ _ F2) as (cmem & Hcmem). eapply runs_bind; [apply (read_runs ∅ n); [done|set_solver|exact Hcmem]|]. intros t1 ? [-> Hs1].
    eapply runs_weaken; [eapply (IH fuel n t1 v lo' hi' c1 Lc Pc cmem); [lia|done..]| |done]. intros t2 r [Hs2 Hr]. split; [done|].
    destruct (pairs_ok_first _ _ _ (tree_pairs fk fv good v h _ _ _ _ _ F2)) as (x & Hx & _). by destruct Lc as [|? ?]; [apply elem_of_nil in Hx|].
Qed.
Lemma last_helper_runs h : forall fuel n t v lo hi c L P mem, (h < fuel)%nat -> shows ∅ n t v -> tree v h lo hi c L P -> pages v !! c.1 = Some mem ->
  runs (Btree.last_helper fk fv fuel mem) t (fun t' r => shows ∅ n t' v /\ pair_guards r (last L)) (intact v).
Proof.
  induction h as [|h IH]; intros [|fuel] n t v lo hi c L P mem Hfuel Hs HT Hpage; try lia; cbn [Btree.last_helper].
  - destruct HT as (mem' & Hnode & ->). pose proof (ln_page Hnode) as E. rewrite Hpage in E. injection E as <-. destruct (ln_leaf Hnode) as (pad & slack & Em & Hok & _).
    eapply (runs_lift _ LEAF); [rewrite Em; apply vget_leaf|]. cbn [LEAF Z.eqb Pos.eqb]. eapply (runs_lift _ (accessor_of fk fv pad L slack)); [rewrite Em; by apply leaf_accessor|].
    destruct L as [|[q w] A _] using rev_ind; [by destruct (ln_pairs Hnode)|]. rewrite last_snoc. destruct (entry_guards_ok pad slack mem A q w [] Em (ln_leaf Hnode) Hok) as (g & Hg & Hpg).
    change (LeafAccessor.num_pairs (accessor_of fk fv pad (A ++ [(q, w)]) slack)) with (vlen (A ++ [(q, w)])). pose proof (vlen_nonneg A).
    eapply (runs_lift _ (vlen A)); [rewrite vlen_app; change (vlen [(q, w)]) with 1; rewrite usub_ok by lia; f_equal; lia|]. eapply runs_lift; [exact Hg|]. by apply runs_ret.
  - destruct (branch_open _ _ _ _ _ _ _ HT) as (pad & pad4 & slack & cs & ks & P' & Hp & Hpad & Hok & HF & ->). rewrite Hpage in Hp. injection Hp as ->.
    eapply (runs_lift _ BRANCH); [apply vget_branch|]. cbn [BRANCH LEAF Z.eqb Pos.eqb]. eapply (runs_lift _ (branch_accessor_of fk pad pad4 cs ks slack)); [by apply branch_accessor|].
    pose proof (forest_length _ _ _ _ _ _ _ HF) as Hlen. destruct cs as [|c1 C1 _] using rev_ind; [done|]. rewrite length_app in Hlen. simpl in Hlen.
    rewrite <-(app_nil_r ks) in HF. destruct (forest_focus _ _ _ C1 c1 [] ks [] _ _ HF ltac:(lia)) as (lo' & hi' & La & Lc & Lb & Pa & Pc & Pb & _ & F2 & F3 & -> & _).
    inversion F3; subst Lb. change (BranchAccessor.count_children (branch_accessor_of fk pad pad4 (C1 ++ [c1]) ks slack)) with (vlen ks + 1).
    eapply (runs_lift _ (Z.of_nat (length C1))); [unfold vlen; rewrite usub_ok by lia; f_equal; lia|].
    eapply (runs_lift _ c1.1); [by rewrite (child_page_ok fk pad pad4 (C1 ++ [c1]) ks slack Hok Hpad (length C1) c1) by apply lookup_at|].
    destruct (tree_page _ _ _ _ _ _ _ _ _ _ F2) as (cmem & Hcmem). eapply runs_bind; [apply (read_runs ∅ n); [done|set_solver|exact Hcmem]|]. intros t1 ? [-> Hs1].
    eapply runs_weaken; [eapply (IH fuel n t1 v lo' hi' c1 Lc Pc cmem); [lia|done..]| |done]. intros t2 r [Hs2 Hr]. split; [done|].
    destruct (pairs_ok_first _ _ _ (tree_pairs fk fv good v h _ _ _ _ _ F2)) as (x & Hx & _). rewrite app_nil_r. destruct Lc as [|y Lc' _] using rev_ind; [by apply elem_of_nil in Hx|].
    rewrite app_assoc, last_snoc. by rewrite last_snoc in Hr.
Qed.
Lemma first_runs fuel n t v h root L P : (h < fuel)%nat -> shows ∅ n t v -> btree valid cmp fk fv good v h root L P ->
  runs (BtreeMut.first fk fv fuel root) t (fun t' r => shows ∅ n t' v /\ pair_guards r (head L)) (intact v).
Proof.
  intros Hf Hs HB. unfold BtreeMut.first. eapply runs_bind; [by eapply new_runs|]. intros t1 b (Hs1 & _ & Hc). unfold Btree.first. destruct root as [[rp rc rl]|].
  - destruct Hc as (mem & -> & Hmem). destruct HB as [HT _]. by eapply first_helper_runs.
  - destruct HB as (_ & -> & _). rewrite Hc. by apply runs_ret.
Qed.
Lemma last_runs fuel n t v h root L P : (h < fuel)%nat -> shows ∅ n t v -> btree valid cmp fk fv good v h root L P ->
  runs (BtreeMut.last fk fv fuel root) t (fun t' r => shows ∅ n t' v /\ pair_guards r (last L)) (intact v).
Proof.
  intros Hf Hs HB. unfold BtreeMut.last. eapply runs_bind; [by eapply new_runs|]. intros t1 b (Hs1 & _ & Hc). unfold Btree.last. destruct root as [[rp rc rl]|].
  - destruct Hc as (mem & -> & Hmem). destruct HB as [HT _]. by eapply last_helper_runs.
  - destruct HB as (_ & -> & _). rewrite Hc. by apply runs_ret.
Qed.

(** ** The walk over the pages *)

(** The paths [Q] lead from [pre] to the pages [P]. *)
Definition leads (pre : PagePath.t) (Q : list PagePath.t) (P : list PageNumber.t) : Prop := Forall2 (fun path p => exists mid, path = pre ++ mid ++ [p]) Q P.

Lemma visit_helper_runs {B} (f : PagePath.t -> B -> B) h : forall fuel n t v lo hi c L P pre b, (h < fuel)%nat -> shows ∅ n t v -> tree v h lo hi c L P ->
  runs (UntypedBtree.visit_pages_helper fk fuel (pre ++ [c.1]) (fun path b => mret (f path b)) b) t
    (fun t' b' => shows ∅ n t' v /\ exists Q, b' = foldl (fun b path => f path b) b Q /\ leads pre Q P) (intact v).
Proof.
  induction h as [|h IH]; intros [|fuel] n t v lo hi c L P pre b Hfuel Hs HT; try lia; cbn [UntypedBtree.visit_pages_helper]; apply runs_ret_bind;
    (eapply (runs_lift _ c.1); [unfold PagePath.page_number; pose proof (vlen_nonneg pre); rewrite vlen_app; change (vlen [c.1]) with 1; rewrite usub_ok by lia; cbn [mbind outcome_bind];
      replace (vlen pre + 1 - 1) with (vlen pre) by lia; apply vget_ok; [done|unfold vlen; rewrite Nat2Z.id; apply lookup_at]|]).
  - destruct HT as (mem & Hnode & ->). eapply runs_bind; [apply (read_runs ∅ n); [done|set_solver|apply (ln_page Hnode)]|]. intros t1 ? [-> Hs1].
    destruct (ln_leaf Hnode) as (pad & slack & -> & Hok & _). eapply (runs_lift _ LEAF); [apply vget_leaf|]. cbn [LEAF Z.eqb Pos.eqb]. apply runs_ret. split; [done|].
    exists [pre ++ [c.1]]. split; [done|]. constructor; [by exists []|constructor].
  - destruct (branch_open _ _ _ _ _ _ _ HT) as (pad & pad4 & slack & cs & ks & P' & Hp & Hpad & Hok & HF & ->).
    eapply runs_bind; [apply (read_runs ∅ n); [done|set_solver|exact Hp]|]. intros t1 ? [-> Hs1].
    eapply (runs_lift _ BRANCH); [apply vget_branch|]. cbn [BRANCH LEAF Z.eqb Pos.eqb]. eapply (runs_lift _ (branch_accessor_of fk pad pad4 cs ks slack)); [by apply branch_accessor|].
    change (BranchAccessor.count_children (branch_accessor_of fk pad pad4 cs ks slack)) with (vlen ks + 1). rewrite <-(branch_children _ _ _ Hok).
    destruct (forest_parts _ _ _ _ _ _ _ HF) as (Ls & Ps & H1 & H2 & -> & -> & Hch).
    eapply runs_weaken; [apply (runs_indexes _ cs (fun i t' b' => shows ∅ n t' v /\ exists Q, b' = foldl (fun b path => f path b) (f (pre ++ [c.1]) b) Q /\ leads (pre ++ [c.1]) Q (concat (take i Ps))))| |done].
    + split; [done|]. exists []. split; [done|]. rewrite take_0. constructor.
    + intros i d t2 b2 Hd [Hs2 (Q & -> & HQ)]. destruct (Hch i d Hd) as (lo' & hi' & Li & Pi & HLi & HPi & HTi).
      eapply (runs_lift _ d.1); [by rewrite (child_page_ok fk pad pad4 cs ks slack Hok Hpad i d Hd)|]. eapply runs_weaken; [eapply (IH fuel n t2 v lo' hi' d Li Pi (pre ++ [c.1])); [lia|done..]| |done].
      intros t3 b3 [Hs3 (Q' & -> & HQ')]. split; [done|]. exists (Q ++ Q'). rewrite list_monad.list.foldl_app. split; [done|]. rewrite (take_S_r _ _ _ HPi), concat_app. cbn [concat]. rewrite app_nil_r. by apply Forall2_app.
    + intros t2 b2 [Hs2 (Q & -> & HQ)]. split; [done|]. exists ((pre ++ [c.1]) :: Q). split; [done|]. constructor; [by exists []|]. rewrite take_ge in HQ by lia.
      eapply Forall2_impl; [exact HQ|]. intros path p [mid ->]. exists ([c.1] ++ mid). by rewrite <-!app_assoc.
Qed.
Lemma visit_runs {B} (f : PagePath.t -> B -> B) fuel n t v h root L P b : (h < fuel)%nat -> shows ∅ n t v -> btree valid cmp fk fv good v h root L P ->
  runs (BtreeMut.visit_all_pages fk fuel root (fun path b => mret (f path b)) b) t
    (fun t' b' => shows ∅ n t' v /\ exists Q, b' = foldl (fun b path => f path b) b Q /\ leads [] Q P) (intact v).
Proof.
  intros Hf Hs HB. unfold BtreeMut.visit_all_pages. eapply runs_bind; [by eapply new_runs|]. intros t1 bt (Hs1 & -> & _). unfold UntypedBtree.visit_all_pages. destruct root as [[rp rc rl]|].
  - destruct HB as [HT _]. by apply (visit_helper_runs f h fuel n t1 v None None (rp, rc) L P []).
  - destruct HB as (_ & _ & ->). apply runs_ret. split; [done|]. exists []. split; [done|]. constructor.
Qed.
End reading.
