(* ===== verification/Sealing.v ===== *)
(** The checksums of B-trees (src/src/tree_store/btree.rs): what a transaction
    writes into its pages before it commits, and the verification that finds every
    page whose checksum is not the one its parent has. *)
From S2P Require Import Prelude Buddy Pages Header Types KeyOrder Leaf LeafTheorems Branch PageStore Mutator Trees Building Insertion Btrees Lookup.

(** * One page *)

Section page.
  Context (fk fv : option Z).

(** [c] is the checksum of the page. *)
Definition sum_ok (page : list Z) (c : Z) : Prop :=
  (vget page 0 = Ret LEAF /\ leaf_checksum page fk fv = Ret (Okay c)) \/ (vget page 0 = Ret BRANCH /\ branch_checksum page fk = Ret (Okay c)).

Lemma checksum_upto_ok page e : Forall byte page -> 0 <= e <= vlen page -> exists c, checksum_upto page e = Ret (Okay c) /\ in_u 128 c.
Proof.
  intros Hb He. unfold checksum_upto. rewrite (proj2 (Z.ltb_ge _ _)), slice_ok by lia. cbn [mbind outcome_bind].
  destruct (checksum_ok (take (Z.to_nat (e - 0)) (drop (Z.to_nat 0) page))) as [-> Hc]; [by apply Forall_take, Forall_drop|]. by eexists.
Qed.
Lemma leaf_checksum_ok page L : is_leaf fk fv page L -> Forall byte page -> exists c, leaf_checksum page fk fv = Ret (Okay c) /\ in_u 128 c.
Proof.
  intros (pad & slack & -> & Hok & _) Hb. unfold leaf_checksum. rewrite leaf_accessor by done. cbn [mbind outcome_bind]. pose proof (leaf_nonempty _ _ _ Hok) as Hn.
  change (LeafAccessor.num_pairs (accessor_of fk fv pad L slack)) with (vlen L). rewrite (proj2 (Z.ltb_ge _ _)) by lia.
  rewrite (last_value_end fk fv pad L slack Hok). cbn [mbind outcome_bind]. apply checksum_upto_ok; [done|].
  rewrite vlen_leaf. pose proof (vlen_nonneg slack). pose proof (total_pos fk fv L). lia.
Qed.
Lemma branch_checksum_ok page cs ks : is_branch fk page cs ks -> Forall byte page -> exists c, branch_checksum page fk = Ret (Okay c) /\ in_u 128 c.
Proof.
  intros (pad & pad4 & slack & Hp4 & -> & Hok) Hb. unfold branch_checksum. rewrite branch_accessor by done. cbn [mbind outcome_bind]. pose proof (branch_nonempty _ _ _ Hok) as Hn.
  change (BranchAccessor.num_keys (branch_accessor_of fk pad pad4 cs ks slack)) with (vlen ks). rewrite (proj2 (Z.ltb_ge _ _)) by lia.
  replace (vlen ks - 1) with (Z.of_nat (length ks - 1)) by (unfold vlen in *; lia). rewrite (branch_key_end fk pad pad4 cs ks slack Hok Hp4) by (unfold vlen in *; lia).
  apply checksum_upto_ok; [done|]. rewrite vlen_branch by (done || apply (branch_children _ _ _ Hok)). unfold key_pos, branch_total. rewrite take_ge by (unfold vlen in *; lia).
  pose proof (base_pos fk (vlen ks) ltac:(lia)). pose proof (size_nonneg ks). pose proof (vlen_nonneg slack). lia.
Qed.

(** The children of a branch page *)
Definition page_children (page : list Z) : outcome (list child) :=
  a ← BranchAccessor.new page fk; b ← BranchBuilder.push_all (BranchBuilder.new fk) a; Ret (BranchBuilder.children b).
Lemma page_children_ok page cs ks : is_branch fk page cs ks -> page_children page = Ret cs.
Proof.
  intros (pad & pad4 & slack & Hp4 & -> & Hok). unfold page_children. rewrite branch_accessor by done. cbn [mbind outcome_bind].
  change (BranchBuilder.new fk) with (MutateHelper.branch_builder fk). by rewrite push_all_ok.
Qed.
End page.

(** * The pages of a tree *)

Section sealing.
  Context {St : Type} `{LS : PageStoreLaws St}.
  Context {compare valid cmp} `{BO : ByteOrder compare valid cmp} (fk fv : option Z).
  Notation good := (sum_ok fk fv).
  Notation tree := (tree valid cmp fk fv good).

(** Every page below the child [c], with its own, has the checksum that its parent has. *)
Fixpoint sealed (v : view) (h : nat) (c : child) : Prop :=
  exists page, pages v !! c.1 = Some page /\ good page c.2 /\
    match h with
    | O => True
    | S h => exists cs, page_children fk page = Ret cs /\ Forall (sealed v h) cs
    end.

Definition bytes_at (v : view) (P : list PageNumber.t) : Prop := forall p b, p ∈ P -> pages v !! p = Some b -> Forall byte b.

Lemma forest_elem (T : below_child) lo hi cs ks L P c : forest valid T lo hi cs ks L P -> c ∈ cs -> exists lo' hi' L' P', P' ⊆ P /\ T lo' hi' c L' P'.
Proof.
  clear. induction 1 as [lo hi d L P HT|lo k hi d cs ks L1 L2 P1 P2 HT Hk HF IH].
  - intros ->%list_elem_of_singleton. by exists lo, hi, L, P.
  - intros [->|Hc]%elem_of_cons; [exists lo, (Some k), L1, P1; split; [set_solver|done]|]. destruct (IH Hc) as (lo' & hi' & L' & P' & HP & HT'). exists lo', hi', L', P'. split; [set_solver|done].
Qed.

Lemma sealed_agrees v v' h : forall lo hi c L P, agrees v v' P -> tree v h lo hi c L P -> sealed v h c -> sealed v' h c.
Proof.
  induction h as [|h IH]; intros lo hi c L P Ha HT (page & Hp & Hg & Hs); pose proof (tree_root _ _ _ _ _ _ _ _ _ _ HT) as Hr; destruct (Ha _ Hr) as [E _]; exists page; rewrite E; (split; [done|split; [done|]]); [done|].
  destruct Hs as (cs & Hcs & Hs). exists cs. split; [done|]. destruct HT as (page' & cs' & ks & P' & Hn & HF & ->). pose proof (bn_page Hn) as Hp'. rewrite Hp in Hp'. injection Hp' as <-.
  pose proof (page_children_ok fk page cs' ks (bn_branch Hn)) as Hc. rewrite Hcs in Hc. injection Hc as <-. rewrite Forall_forall in *. intros d Hd.
  destruct (forest_elem _ _ _ _ _ _ _ _ HF Hd) as (lo' & hi' & L' & P0 & HP & HT'). eapply IH; [|exact HT'|by apply Hs]. eapply agrees_sub; [|exact Ha]. set_solver.
Qed.
(** Committed trees are sealed. *)
Lemma clean_sealed v h : forall lo hi c L P, tree v h lo hi c L P -> c.1 ∉ dirty_of v -> sealed v h c.
Proof.
  induction h as [|h IH]; intros lo hi c L P HT Hd.
  - destruct HT as (page & [N1 _ _ _ [?|(_ & Hg & _)]] & _); [done|]. by exists page.
  - destruct HT as (page & cs & ks & P' & [N1 N2 _ [?|(_ & Hg & Hcl)]] & HF & _); [done|]. exists page. split; [done|]. split; [done|]. exists cs. split; [by eapply page_children_ok|].
    apply Forall_forall. intros d Hin. destruct (forest_elem _ _ _ _ _ _ _ _ HF Hin) as (lo' & hi' & L' & P0 & HP & HT'). eapply IH; [exact HT'|].
    rewrite Forall_forall in Hcl. apply Hcl, HP. apply (tree_root _ _ _ _ _ _ _ _ _ _ HT').
Qed.

(** A sealed tree can be committed: no page of it is dirty any more. *)
Lemma sealed_commit v F h : forall lo hi c L P, tree v h lo hi c L P -> sealed v h c -> tree (View (pages v) ∅ F) h lo hi c L P.
Proof.
  induction h as [|h IH]; intros lo hi c L P HT (page & Hp & Hg & Hs).
  - destruct HT as (page' & [N1 N2 N3 N4 N5] & ->). rewrite Hp in N1. injection N1 as <-. exists page. split; [|done]. split; try done.
    right. split; [apply not_elem_of_empty|]. split; [done|constructor].
  - destruct HT as (page' & cs & ks & P' & [N1 N2 N3 N4] & HF & ->). rewrite Hp in N1. injection N1 as <-. destruct Hs as (cs' & Hcs & Hall).
    rewrite (page_children_ok fk page cs ks N2) in Hcs. apply Ret_inj in Hcs as <-. exists page, cs, ks, P'. split; [|split; [|done]].
    + split; try done. right. split; [apply not_elem_of_empty|]. split; [done|]. apply Forall_forall. intros q _. apply not_elem_of_empty.
    + rewrite Forall_forall in Hall. eapply forest_mono_at; [exact HF|]. intros. apply IH; [done|by apply Hall].
Qed.

(** ** Verification *)

Lemma sealed_leaf v c page s : pages v !! c.1 = Some page -> vget page 0 = Ret LEAF -> leaf_checksum page fk fv = Ret (Okay s) -> c.2 = s <-> sealed v 0 c.
Proof.
  intros Hp Hk Hs. split; [intros E; exists page; split; [done|]; split; [left; by rewrite E|done]|].
  intros (page' & Hp' & [[_ Hs']|[Hk' _]] & _); rewrite Hp in Hp'; injection Hp' as <-; [rewrite Hs in Hs'; by injection Hs'|by rewrite Hk in Hk'].
Qed.
Lemma sealed_branch v h c page cs ks s : pages v !! c.1 = Some page -> vget page 0 = Ret BRANCH -> is_branch fk page cs ks -> branch_checksum page fk = Ret (Okay s) ->
  c.2 = s /\ Forall (sealed v h) cs <-> sealed v (S h) c.
Proof.
  intros Hp Hk Hb Hs. pose proof (page_children_ok fk page cs ks Hb) as Hc. split.
  - intros [E Hcs]. exists page. split; [done|]. split; [right; by rewrite E|]. by exists cs.
  - intros (page' & Hp' & Hg & cs' & Hc' & Hcs). rewrite Hp in Hp'; injection Hp' as <-. rewrite Hc in Hc'. injection Hc' as <-.
    destruct Hg as [[Hk' _]|[_ Hs']]; [by rewrite Hk in Hk'|]. rewrite Hs in Hs'. by injection Hs'.
Qed.

(** Whatever the checksums in the tree are, [any] *)
Lemma verify_helper_runs any h : forall fuel n t v lo hi c L P, (h < fuel)%nat -> shows ∅ n t v -> Trees.tree valid cmp fk fv any v h lo hi c L P -> bytes_at v P ->
  runs (RawBtree.verify_checksum_helper fk fv fuel c.1 c.2) t (fun t' b => shows ∅ n t' v /\ (b = true <-> sealed v h c)) (intact v).
Proof.
  induction h as [|h IH]; intros [|fuel] n t v lo hi c L P Hfuel Hs HT Hby; try lia; cbn [RawBtree.verify_checksum_helper].
  - destruct HT as (page & Hn & ->). eapply runs_bind; [apply (read_runs ∅ n); [done|set_solver|apply (ln_page Hn)]|]. intros t1 ? [-> Hs1].
    assert (Hk : vget page 0 = Ret LEAF) by (destruct (ln_leaf Hn) as (pad & slack & -> & _); apply vget_leaf). eapply (runs_lift _ LEAF); [done|]. cbn [LEAF Z.eqb Pos.eqb].
    destruct (leaf_checksum_ok fk fv page L (ln_leaf Hn)) as (s & Hc & _); [apply (Hby c.1); [left|apply (ln_page Hn)]|]. eapply runs_lift; [exact Hc|]. apply runs_ret. split; [done|].
    rewrite <-(sealed_leaf v c page s (ln_page Hn) Hk Hc). apply Z.eqb_eq.
  - destruct HT as (page & cs & ks & P' & Hn & HF & ->). eapply runs_bind; [apply (read_runs ∅ n); [done|set_solver|apply (bn_page Hn)]|]. intros t1 ? [-> Hs1].
    destruct (bn_branch Hn) as (pad & pad4 & slack & Hpad & Em & Hok). assert (Hk : vget page 0 = Ret BRANCH) by (rewrite Em; apply vget_branch). eapply (runs_lift _ BRANCH); [done|].
    cbn [BRANCH LEAF Z.eqb Pos.eqb]. destruct (branch_checksum_ok fk page cs ks (bn_branch Hn)) as (s & Hc & _); [apply (Hby c.1); [left|apply (bn_page Hn)]|]. eapply runs_lift; [exact Hc|].
    pose proof (sealed_branch v h c page cs ks s (bn_page Hn) Hk (bn_branch Hn) Hc) as Hiff. cbn beta iota. destruct (Z.eqb_spec c.2 s) as [E|E]; cbn [negb]; [|apply runs_ret; split; [done|split; [done|tauto]]].
    eapply (runs_lift _ (branch_accessor_of fk pad pad4 cs ks slack)); [rewrite Em; by apply branch_accessor|].
    change (BranchAccessor.count_children (branch_accessor_of fk pad pad4 cs ks slack)) with (vlen ks + 1). rewrite <-(branch_children _ _ _ Hok).
    eapply runs_weaken; [apply (runs_indexes _ cs (fun i t' b => shows ∅ n t' v /\ (b = true <-> Forall (sealed v h) (take i cs))))| |done].
    + split; [done|]. rewrite take_0. split; [by constructor|done].
    + intros i d t2 b Hd [Hs2 Hb]. assert (Hnext : Forall (sealed v h) (take (S i) cs) <-> Forall (sealed v h) (take i cs) /\ sealed v h d) by (by rewrite (take_S_r _ _ _ Hd), Forall_app, Forall_singleton).
      destruct b; cbn [negb]; [|apply runs_ret; split; [done|split; [done|tauto]]].
      eapply (runs_lift _ d.1); [by rewrite (child_page_ok fk pad pad4 cs ks slack Hok Hpad i d Hd)|]. eapply (runs_lift _ d.2); [by rewrite (child_checksum_ok fk pad pad4 cs ks slack Hok Hpad i d Hd)|].
      destruct (forest_elem _ _ _ _ _ _ _ _ HF (list_elem_of_lookup_2 _ _ _ Hd)) as (lo' & hi' & L' & P0 & HP & HT').
      eapply runs_weaken; [eapply (IH fuel n t2 v lo' hi' d L' P0); [lia|done|done|]| |done]; [intros q b Hq; apply Hby; set_solver|]. intros t3 b' [Hs3 Hb']. split; [done|]. tauto.
    + intros t2 b [Hs2 Hb]. split; [done|]. rewrite take_ge in Hb by lia. tauto.
Qed.
Lemma verify_runs any fuel n t v h root L P : (h < fuel)%nat -> shows ∅ n t v -> btree valid cmp fk fv any v h root L P -> bytes_at v P ->
  runs (RawBtree.verify_checksum fk fv fuel root) t (fun t' b => shows ∅ n t' v /\
    (b = true <-> match root with Some r => sealed v h (BtreeHeader.root r, BtreeHeader.checksum r) | None => True end)) (intact v).
Proof.
  intros Hf Hs HB Hby. unfold RawBtree.verify_checksum. destruct root as [[rp rc rl]|]; [|by apply runs_ret].
  destruct HB as [HT _]. by apply (verify_helper_runs any h fuel n t v None None (rp, rc) L P).
Qed.

(** ** The checksums of a transaction *)

(** The children [cs'] in place of [cs] from the index [i] on, and the list of those that changed *)
Inductive updates : nat -> list (option (Z * child)) -> list child -> list child -> Prop :=
| updates_nil i : updates i [] [] []
| updates_clean i us c cs cs' : updates (S i) us cs cs' -> updates i (None :: us) (c :: cs) (c :: cs')
| updates_dirty i us c c' cs cs' : updates (S i) us cs cs' -> updates i (Some (Z.of_nat i, c') :: us) (c :: cs) (c' :: cs').

Lemma updates_app i us cs cs' us2 ds ds' : updates i us cs cs' -> updates (i + length cs) us2 ds ds' -> updates i (us ++ us2) (cs ++ ds) (cs' ++ ds').
Proof.
  clear. induction 1 as [i|i us c cs cs' H IH|i us c c' cs cs' H IH]; cbn [app length]; intros H2; [by rewrite Nat.add_0_r in H2|constructor; apply IH..]; by replace (S i + length cs)%nat with (i + S (length cs))%nat by lia.
Qed.
Lemma updates_length i us cs cs' : updates i us cs cs' -> length cs' = length cs.
Proof. clear. induction 1; simpl; lia. Qed.

Lemma splice_bytes (l : list Z) a src l' : splice l a src = Ret l' -> Forall byte l -> Forall byte src -> Forall byte l'.
Proof. clear. unfold splice. destruct (_ && _); [|done]. intros [= <-] Hl Hs. rewrite !Forall_app. auto using Forall_take, Forall_drop. Qed.
Lemma write_child_bytes page i c page' : BranchMutator.write_child_page page i c = Ret page' -> Forall byte page -> Forall byte page'.
Proof.
  clear. intros Hw Hb. unfold BranchMutator.write_child_page in Hw. destruct (BranchMutator.num_keys page); [|done]. cbn [mbind outcome_bind] in Hw. destruct (rassert _); [|done]. cbn [mbind outcome_bind] in Hw.
  destruct (splice page _ _) eqn:E1; [|done]. cbn [mbind outcome_bind] in Hw. destruct (BranchMutator.num_keys _); [|done]. cbn [mbind outcome_bind] in Hw.
  eapply splice_bytes; [exact Hw| |apply to_le_bytes_byte]. eapply splice_bytes; [exact E1|done|apply to_le_bytes_byte].
Qed.
Lemma write_children_ok i us cs cs' : updates i us cs cs' -> forall A page ks, length A = i -> is_branch fk page (A ++ cs) ks -> Forall child_ok cs' -> Forall byte page ->
  exists page', for_each (fun c mem => match c with Some (child_index, c) => BranchMutator.write_child_page mem child_index c | None => Ret mem end) us page = Ret page' /\
    vlen page' = vlen page /\ is_branch fk page' (A ++ cs') ks /\ Forall byte page'.
Proof.
  clear. induction 1 as [i|i us c cs cs' H IH|i us c c' cs cs' H IH]; intros A page ks HA Hb Hco Hby; cbn [for_each].
  - by exists page.
  - apply Forall_cons in Hco as [_ Hco]. cbn [mbind outcome_bind]. destruct (IH (A ++ [c]) page ks) as (page' & E & Hl & Hb' & Hby'); [rewrite length_app; simpl; lia|by rewrite <-app_assoc|done|done|].
    exists page'. rewrite <-app_assoc in Hb'. done.
  - apply Forall_cons in Hco as [Hc Hco]. destruct (write_child_page_ok fk page A c cs ks c' Hb Hc) as (page1 & E1 & Hl1 & Hb1). unfold vlen in E1. rewrite HA in E1. rewrite E1. cbn [mbind outcome_bind].
    destruct (IH (A ++ [c']) page1 ks) as (page' & E & Hl & Hb' & Hby'); [rewrite length_app; simpl; lia|by rewrite <-app_assoc|done|by eapply write_child_bytes|].
    exists page'. rewrite <-app_assoc in Hb'. split; [done|]. split; [lia|]. done.
Qed.

Lemma bytes_agrees v v' P : agrees v v' P -> bytes_at v P -> bytes_at v' P.
Proof. intros Ha Hb p b Hp Hl. destruct (Ha p Hp) as [E _]. rewrite E in Hl. by eapply Hb. Qed.
Lemma bytes_app v P Q : bytes_at v (P ++ Q) <-> bytes_at v P /\ bytes_at v Q.
Proof. unfold bytes_at. split; [intros H0; split; intros p b Hp; apply H0; rewrite elem_of_app; tauto|]. intros [H1 H2] p b [Hp|Hp]%elem_of_app; [by apply H1|by apply H2]. Qed.

(** The tree below [p] after its checksums were computed: [s] is that of its root. *)
Definition resealed (v v' : view) (h : nat) (lo hi : bound) (L : list pair) (P : list PageNumber.t) (c : child) : Prop :=
  tree v' h lo hi c L P /\ sealed v' h c /\ evolves v v' (list_to_set P) (list_to_set P) /\ dirty_of v' = dirty_of v /\ bytes_at v' P.

Lemma prefix_elem (T : below_child) lo hi cs ks L P c : prefix valid T lo hi cs ks L P -> c ∈ cs -> exists lo' hi' L' P', P' ⊆ P /\ T lo' hi' c L' P'.
Proof.
  clear. induction 1 as [lo|lo k lo' d cs ks L1 L2 P1 P2 HT Hk HF IH]; [by intros ?%elem_of_nil|].
  intros [->|Hc]%elem_of_cons; [exists lo, (Some k), L1, P1; split; [set_solver|done]|]. destruct (IH Hc) as (lo2 & hi2 & L' & P' & HP & HT'). exists lo2, hi2, L', P'. split; [set_solver|done].
Qed.

Section children.
  Context (v : view) (h : nat) (lo hi : bound) (p : PageNumber.t) (page : list Z) (cs : list child) (ks : list (list Z)) (L : list pair) (P' : list PageNumber.t).

(** The first [i] children have their checksums, which [us] lists. *)
Definition progress (n i : nat) (t : txn St) (us : list (option (Z * child))) : Prop := exists vi C1,
  shows ∅ n t vi /\ evolves v vi (list_to_set (p :: P')) (list_to_set (p :: P')) /\ dirty_of vi = dirty_of v /\ pages vi !! p = Some page /\
  forest valid (tree vi h) lo hi (C1 ++ drop i cs) ks L P' /\ Forall (sealed vi h) C1 /\ updates 0 us (take i cs) C1 /\ bytes_at vi P'.

Lemma progress_clean n i t us vi C1 d : shows ∅ n t vi -> evolves v vi (list_to_set (p :: P')) (list_to_set (p :: P')) -> dirty_of vi = dirty_of v -> pages vi !! p = Some page ->
  forest valid (tree vi h) lo hi (C1 ++ drop i cs) ks L P' -> Forall (sealed vi h) C1 -> updates 0 us (take i cs) C1 -> bytes_at vi P' ->
  cs !! i = Some d -> sealed vi h d -> progress n (S i) t (us ++ [None]).
Proof.
  intros Hs He Hd Hp HF Hse Hu Hby Hi Hsd. exists vi, (C1 ++ [d]). do 4 (split; [done|]). split; [by rewrite <-app_assoc; rewrite (drop_S _ _ _ Hi) in HF|].
  split; [by apply Forall_app; split; [|constructor; [|constructor]]|]. split; [|done]. rewrite (take_S_r _ _ _ Hi). eapply updates_app; [done|]. constructor. constructor.
Qed.
Lemma progress_dirty n i t us vi v1 C1 C2 K1 K2 d s lo' hi' La Lc Lb Pa Pc Pb : evolves v vi (list_to_set (p :: P')) (list_to_set (p :: P')) -> dirty_of vi = dirty_of v -> pages vi !! p = Some page ->
  prefix valid (tree vi h) lo lo' C1 K1 La Pa -> suffix valid (tree vi h) hi' hi C2 K2 Lb Pb -> P' = Pa ++ Pc ++ Pb -> L = La ++ Lc ++ Lb -> ks = K1 ++ K2 -> NoDup (p :: P') ->
  Forall (sealed vi h) C1 -> updates 0 us (take i cs) C1 -> bytes_at vi P' -> cs !! i = Some d -> drop (S i) cs = C2 -> (i <= length cs)%nat ->
  shows ∅ n t v1 -> resealed vi v1 h lo' hi' Lc Pc (d.1, s) -> progress n (S i) t (us ++ [Some (Z.of_nat i, (d.1, s))]).
Proof.
  intros He Hd Hp F1 F3 EP EL Ek Hnd Hse Hu Hby Hi Hdr Hle Hs1 (T1 & S1 & E1 & D1 & B1). assert (Hdom : p ∈ dom (pages vi)) by (apply elem_of_dom; by eexists).
  rewrite EP in Hnd. pose proof Hnd as [_ Hnd1]%NoDup_cons. rewrite !NoDup_app in Hnd1. destruct Hnd1 as (Na & Nab & Nc & Ncb & Nb).
  destruct (focus_evolves fk fv good vi v1 h lo lo' hi' hi C1 K1 La Pa C2 K2 Lb Pb p Pc Pc F1 F3 Hdom Hnd Nc E1) as (G1 & G3 & Ha & _ & E2). destruct (Ha p ltac:(left)) as [Ep _].
  assert (Hab : agrees vi v1 (Pa ++ Pb)).
  { eapply evolves_agrees; [exact E1|apply Forall_app; split|].
    - eapply prefix_pages; [|exact F1]. intros; by eapply tree_dom.
    - eapply suffix_pages; [|exact F3]. intros; by eapply tree_dom.
    - intros q [Hq|Hq]%elem_of_app Hc%elem_of_list_to_set; [eapply Nab; [exact Hq|]|eapply Ncb; [exact Hc|exact Hq]]. rewrite elem_of_app. by left. }
  exists v1, (C1 ++ [(d.1, s)]). split; [done|]. rewrite <-EP in E2. split; [by eapply evolves_trans|]. split; [by rewrite D1|]. split; [by rewrite Ep|]. split.
  { pose proof (forest_plug _ _ _ _ _ _ _ _ _ _ _ _ _ _ _ _ _ G1 (forest_one _ _ _ _ _ _ T1) G3) as HF. cbn [app] in HF. rewrite <-app_assoc. cbn [app]. by rewrite Hdr, EL, EP, Ek. }
  split; [apply Forall_app; split; [|by constructor]|split].
  - rewrite Forall_forall in *. intros x Hx. destruct (prefix_elem _ _ _ _ _ _ _ _ F1 Hx) as (lo2 & hi2 & L2 & P2 & HP2 & HT2). eapply sealed_agrees; [|exact HT2|by apply Hse].
    eapply agrees_sub; [|exact Hab]. set_solver.
  - rewrite (take_S_r _ _ _ Hi). eapply updates_app; [done|]. rewrite length_take_le by done. cbn [Nat.add]. constructor. constructor.
  - rewrite EP, !bytes_app in Hby |- *. destruct Hby as (Y1 & _ & Y3). split; [|split; [done|]]; (eapply bytes_agrees; [|done]); (eapply agrees_sub; [|exact Hab]); set_solver.
Qed.
End children.

(** The branch page gets the checksums of its children, and its own. *)
Lemma seal_branch_runs n t v vi h lo hi p page pad pad4 slack cs ks L P' us C1 : page = branch fk pad pad4 cs ks slack -> vlen pad4 = 4 -> branch_ok fk cs ks -> encodable p -> NoDup (p :: P') ->
  p ∈ dirty_of v -> Forall byte page -> shows ∅ n t vi -> evolves v vi (list_to_set (p :: P')) (list_to_set (p :: P')) -> dirty_of vi = dirty_of v -> pages vi !! p = Some page ->
  forest valid (tree vi h) lo hi C1 ks L P' -> Forall (sealed vi h) C1 -> updates 0 us cs C1 -> bytes_at vi P' ->
  runs (mem ← lift (BranchMutator.new page);
    mem ← lift (for_each (fun c mem => match c with Some (child_index, c) => BranchMutator.write_child_page mem child_index c | None => Ret mem end) us mem);
    _ ← put p mem; try_lift (branch_checksum mem fk)) t (fun t' s => exists v', shows ∅ n t' v' /\ resealed v v' (S h) lo hi L (p :: P') (p, s)) (intact v).
Proof.
  intros Em Hpad Hok Henc Hnd Hd Hbp Hs He Hdd Hp HF Hse Hu Hby. assert (Hbr : is_branch fk page cs ks) by (by exists pad, pad4, slack).
  assert (Hco : Forall child_ok C1) by (eapply forest_children; [|exact HF]; intros; by eapply tree_child).
  destruct (write_children_ok 0 us cs C1 Hu [] page ks eq_refl Hbr Hco Hbp) as (page' & Hw & Hlen & Hb' & Hby'). cbn [app] in Hb'.
  eapply (runs_lift _ page); [by rewrite Em|]. eapply runs_lift; [exact Hw|].
  eapply runs_weaken with (E1 := intact vi); [|intros ? ? HQ; exact HQ|intros t'; by eapply intact_evolves].
  eapply runs_next; [apply (put_runs ∅ n t vi p page page'); [done|set_solver|done|by rewrite Hdd|done]|]. intros t1 [] (v2 & Hs2 & He2 & Hp2 & Hd2 & _). exists v2, {[p]}, {[p]}. split; [done|].
  destruct (branch_checksum_ok fk page' C1 ks Hb' Hby') as (s & Hsum & Hsu). unfold try_lift. eapply runs_lift; [exact Hsum|]. apply runs_ret. exists v2. split; [done|].
  assert (Hd1 : Forall (fun q => q ∈ dom (pages vi)) P') by (eapply forest_pages; [|exact HF]; intros; by eapply tree_dom). apply NoDup_cons in Hnd as [Hnp Hnd].
  assert (Ha : agrees vi v2 P') by (eapply evolves_agrees; [exact He2|done|]; intros q Hq ->%elem_of_singleton; done).
  assert (Hp2' : pages v2 !! p = Some page') by (by rewrite Hp2, lookup_insert_eq). split; [|split; [|split; [|split]]].
  - exists page', C1, ks, P'. split; [|split; [by eapply forest_agrees|done]]. split; [done|done|done|left; by rewrite Hd2, Hdd].
  - exists page'. split; [done|]. split; [right; split; [destruct Hb' as (? & ? & ? & _ & -> & _); apply vget_branch|done]|]. exists C1. split; [by eapply page_children_ok|].
    rewrite Forall_forall in *. intros x Hx. destruct (forest_elem _ _ _ _ _ _ _ _ HF Hx) as (lo2 & hi2 & L2 & P2 & HP2 & HT2). eapply sealed_agrees; [|exact HT2|by apply Hse]. by eapply agrees_sub.
  - eapply evolves_trans; [exact He|]. eapply evolves_eq; [apply (evolves_also vi v2 {[p]} {[p]} (list_to_set P') He2)|cbn; apply union_comm|cbn; apply union_comm].
    + intros q Hq%elem_of_list_to_set. rewrite Forall_forall in Hd1. by apply Hd1.
    + intros q Hq%elem_of_list_to_set ->%elem_of_singleton. done.
  - by rewrite Hd2.
  - intros q b [->|Hq]%elem_of_cons Hl; [rewrite Hp2' in Hl; by injection Hl as <-|]. by eapply (bytes_agrees vi v2 P').
Qed.

Lemma finalize_helper_runs h : forall fuel n t v lo hi p c L P, (h < fuel)%nat -> shows ∅ n t v -> tree v h lo hi (p, c) L P -> NoDup P -> p ∈ dirty_of v -> bytes_at v P ->
  runs (UntypedBtreeMut.finalize_dirty_checksums_helper fk fv fuel p) t (fun t' s => exists v', shows ∅ n t' v' /\ resealed v v' h lo hi L P (p, s)) (intact v).
Proof.
  induction h as [|h IH]; intros [|fuel] n t v lo hi p c L P Hfuel Hs HT Hnd Hd Hby; try lia; cbn [UntypedBtreeMut.finalize_dirty_checksums_helper];
    (eapply runs_bind; [by apply uncommitted_runs|]); intros t1 u [-> Hs1]; rewrite bool_decide_eq_true_2 by done; (eapply (runs_lift _ tt); [done|]).
  - destruct HT as (page & Hn & ->). pose proof (ln_page Hn) as Hpg. cbn [fst] in Hpg. eapply runs_bind; [apply (read_mut_runs ∅ n t1 v p page); [done|set_solver|done|done]|]. intros t2 ? [-> Hs2].
    assert (Hk : vget page 0 = Ret LEAF) by (destruct (ln_leaf Hn) as (pad & slack & -> & _); apply vget_leaf). eapply (runs_lift _ LEAF); [done|]. cbn [LEAF Z.eqb Pos.eqb].
    destruct (leaf_checksum_ok fk fv page L (ln_leaf Hn)) as (s & Hc & Hsu); [apply (Hby p); [left|done]|]. unfold try_lift. eapply runs_lift; [exact Hc|]. apply runs_ret. exists v. split; [done|].
    destruct Hn as [N1 N2 N3 N4 N5]. split; [|split; [|split; [|done]]].
    + exists page. split; [|done]. split; try done; [split; [apply N4|done]|by left].
    + exists page. split; [done|]. split; [by left|done].
    + apply evolves_self. constructor; [|constructor]. apply elem_of_dom. by eexists.
  - destruct HT as (page & cs & ks & P' & Hn & HF & ->). pose proof (bn_page Hn) as Hpg. cbn [fst] in Hpg. eapply runs_bind; [apply (read_mut_runs ∅ n t1 v p page); [done|set_solver|done|done]|]. intros t2 ? [-> Hs2].
    destruct (bn_branch Hn) as (pad & pad4 & slack & Hpad & Em & Hok). eapply (runs_lift _ BRANCH); [rewrite Em; apply vget_branch|]. cbn [BRANCH LEAF Z.eqb Pos.eqb].
    eapply (runs_lift _ (branch_accessor_of fk pad pad4 cs ks slack)); [rewrite Em; by apply branch_accessor|].
    change (BranchAccessor.count_children (branch_accessor_of fk pad pad4 cs ks slack)) with (vlen ks + 1). pose proof (branch_children _ _ _ Hok) as Hck. rewrite <-Hck.
    assert (Hd1 : Forall (fun q => q ∈ dom (pages v)) (p :: P')).
    { constructor; [apply elem_of_dom; by eexists|]. eapply forest_pages; [|exact HF]; intros; by eapply tree_dom. }
    assert (Hbp : Forall byte page) by (apply (Hby p); [left|done]).
    eapply runs_bind; [apply (runs_indexes _ cs (progress v h lo hi p page cs ks L P' n))|].
    + exists v, []. split; [done|]. split; [by apply evolves_self|]. split; [done|]. split; [done|]. split; [by rewrite drop_0|]. split; [constructor|]. split; [rewrite take_0; constructor|].
      intros q b Hq. apply Hby. by right.
    + intros i d t3 us Hi (vi & C1 & Hs3 & He & Hdd & Hp3 & HF3 & Hse & Hu & Hb3). pose proof (lookup_lt_Some _ _ _ Hi) as Hlt.
      eapply (runs_lift _ d.1); [by rewrite (child_page_ok fk pad pad4 cs ks slack Hok Hpad i d Hi)|]. eapply runs_weaken with (E1 := intact vi); [|intros ? ? HQ; exact HQ|intros t'; by eapply intact_evolves].
      pose proof (updates_length _ _ _ _ Hu) as HlC. rewrite length_take_le in HlC by lia. pose proof HF3 as HF4. rewrite (drop_S _ _ _ Hi), <-(take_drop i ks) in HF4.
      destruct (forest_focus _ _ _ C1 d (drop (S i) cs) (take i ks) (drop i ks) _ _ HF4) as (lo' & hi' & La & Lc & Lb & Pa & Pc & Pb & F1 & F2 & F3 & EL & EP); [rewrite length_take_le; unfold vlen in Hck; lia|].
      eapply runs_bind; [by apply uncommitted_runs|]. intros t4 u4 [-> Hs4]. case_bool_decide as Hdc.
      * assert (NoDup Pc). { apply NoDup_cons in Hnd as [_ Hnd]. rewrite EP, !NoDup_app in Hnd. tauto. }
        destruct d as [dp dc]. eapply runs_next; [apply (IH fuel n t4 vi lo' hi' dp dc Lc Pc); [lia|done..|]|]; [rewrite EP, !bytes_app in Hb3; tauto|]. intros t5 s (v1 & Hs5 & Hre).
        exists v1, (list_to_set Pc), (list_to_set Pc). split; [apply Hre|]. apply runs_ret. eapply (progress_dirty v h lo hi p page cs ks L P'); [done..|by rewrite take_drop|done|done|done|done|done|done|lia|done|done].
      * apply runs_ret. eapply progress_clean; [done..|]. by eapply clean_sealed.
    + intros t3 us (vi & C1 & Hs3 & He & Hdd & Hp3 & HF3 & Hse & Hu & Hb3). rewrite drop_ge, app_nil_r in HF3 by lia. rewrite take_ge in Hu by lia.
      eapply seal_branch_runs; [done..|apply (bn_child Hn)|done|done|done|done|done|done|done|done|done|done|done].
Qed.
Lemma finalize_tree_runs fuel n t v h root L P : (h < fuel)%nat -> shows ∅ n t v -> btree valid cmp fk fv good v h root L P -> NoDup P -> bytes_at v P ->
  runs (BtreeMut.finalize_dirty_checksums fk fv fuel root) t (fun t' root' => exists v', shows ∅ n t' v' /\ btree valid cmp fk fv good v' h root' L P /\
    evolves v v' (list_to_set P) (list_to_set P) /\ dirty_of v' = dirty_of v /\ bytes_at v' P /\
    match root' with Some r => sealed v' h (BtreeHeader.root r, BtreeHeader.checksum r) | None => root = None end) (intact v).
Proof.
  intros Hf Hs HB Hnd Hby. unfold BtreeMut.finalize_dirty_checksums, UntypedBtreeMut.finalize_dirty_checksums. destruct root as [[rp rc rl]|].
  - destruct HB as [HT Hl]. cbn [BtreeHeader.root BtreeHeader.checksum BtreeHeader.length] in *. eapply runs_bind; [by apply uncommitted_runs|]. intros t1 u [-> Hs1]. case_bool_decide as Hd; cbn [negb].
    + eapply runs_bind; [by apply (finalize_helper_runs h fuel n t1 v None None rp rc L P)|]. intros t2 s (v' & Hs2 & R1 & R2 & R3 & R4 & R5). apply runs_ret. exists v'. done.
    + apply runs_ret. exists v. split; [done|]. split; [done|]. split; [apply evolves_self; by eapply tree_dom|]. split; [done|]. split; [done|]. by eapply clean_sealed.
  - destruct HB as (-> & -> & ->). apply runs_ret. exists v. split; [done|]. split; [done|]. split; [apply evolves_refl|done].
Qed.
End sealing.
