(* ===== verification/Store.v ===== *)
(** The pages of a write transaction: [PageAllocator] and [TransactionalMemory]
    (src/src/tree_store/page_store/page_manager.rs) with the bytes of the pages, as
    a page store for the B-trees.

    The bytes of a page are those that were written last: the paged file is a map.
    A borrow of a page ends before the next operation.  What a new page holds is a
    parameter, [fresh]; the oracle [io] answers the operations of the file. *)
From S2P Require Import Prelude Buddy Pages Layout Region Header PageManager PageStore.

Module TxnStore.

Record t := mk { mem : TransactionalMemory.t; allocator : PageAllocator.t; allocated : PageTrackerPolicy.t; data : gmap PageNumber.t (list Z) }.

Definition set_mem (s : t) (m : TransactionalMemory.t) : t := mk m (allocator s) (allocated s) (data s).
Definition set_data (s : t) (d : gmap PageNumber.t (list Z)) : t := mk (mem s) (allocator s) (allocated s) d.
Definition set_allocator (s : t) (a : PageAllocator.t) (tr : PageTrackerPolicy.t) : t := mk (mem s) a tr (data s).

(** An operation of the memory *)
Definition on_mem {A} (c : TransactionalMemory.M A) : M t A := fun s =>
  r ← c (mem s); Ret (set_mem s r.1, match r.2 with Okay a => Okay a | Err _ => Err IoError end).

Section store.
  Context (io : list event -> event -> bool) (fresh : TransactionalMemory.t -> PageNumber.t -> list Z).

Definition bytes_of (p : PageNumber.t) : M t (list Z) := fun s => b ← unwrap (data s !! p); Ret (s, Okay b).

Definition get_page (p : PageNumber.t) : M t (list Z) :=
  _ ← on_mem (TransactionalMemory.get_page io p);
  _ ← on_mem (TransactionalMemory.drop_page p);
  bytes_of p.
Definition get_page_mut (p : PageNumber.t) : M t (list Z) :=
  _ ← on_mem (TransactionalMemory.get_page_mut io p);
  _ ← on_mem (TransactionalMemory.drop_page_mut p);
  bytes_of p.
Definition put_page (p : PageNumber.t) (bytes : list Z) (s : t) : outcome t :=
  old ← unwrap (data s !! p);
  _ ← rassert (vlen old =? vlen bytes);
  Ret (set_data s (<[p := bytes]> (data s))).
Definition allocate (size : Z) : M t (PageNumber.t * list Z) :=
  s ← gets (fun s => s);
  '(a, p, tr) ← on_mem (PageAllocator.allocate io (allocator s) size (allocated s));
  _ ← modify (fun s => set_allocator s a tr);
  _ ← on_mem (TransactionalMemory.drop_page_mut p);
  m ← gets mem;
  let bytes := fresh m p in
  _ ← modify (fun s => set_data s (<[p := bytes]> (data s)));
  mret (p, bytes).
Definition free (p : PageNumber.t) : M t unit :=
  s ← gets (fun s => s);
  '(a, tr) ← on_mem (PageAllocator.free (allocator s) p (allocated s));
  _ ← modify (fun s => set_allocator s a tr);
  modify (fun s => set_data s (delete p (data s))).
Definition free_if_uncommitted (p : PageNumber.t) : M t bool :=
  s ← gets (fun s => s);
  '(a, tr, freed) ← on_mem (PageAllocator.free_if_uncommitted (allocator s) p (allocated s));
  _ ← modify (fun s => set_allocator s a tr);
  if (freed : bool) then _ ← modify (fun s => set_data s (delete p (data s))); mret true else mret false.

#[export] Instance txn_store : PageStore t := {
  get_page_size s := TransactionalMemory.page_size (mem s);
  PageStore.get_page := get_page;
  PageStore.get_page_mut := get_page_mut;
  PageStore.put_page := put_page;
  PageStore.allocate := allocate;
  PageStore.free := free;
  PageStore.free_if_uncommitted := free_if_uncommitted;
  uncommitted p s := PageAllocator.uncommitted (allocator s) p }.

(** ** The promises *)

Section laws.
  (** The size of pages, and the number of pages of a region *)
  Context (ps cap : Z) (Hps : 0 < ps).
  Context (fresh_len : forall m p, TransactionalMemory.page_size m = ps -> vlen (fresh m p) = 2 ^ PageNumber.page_order p * ps).

(** The pages allocated since the last commit *)
Definition since (s : t) : gset PageNumber.t := match PageAllocator.allocated_since_commit (allocator s) with PageTrackerPolicy.Track X => X | _ => ∅ end.

Record ok (s : t) : Prop := {
  ok_mem : mem_ok (mem s);
  ok_dirty : TransactionalMemory.open_dirty_pages (mem s) = ∅;
  ok_refs : TransactionalMemory.read_page_ref_counts (mem s) = ∅;
  ok_since : PageAllocator.allocated_since_commit (allocator s) = PageTrackerPolicy.Track (since s);
  ok_sub : since s ⊆ dom (data s);
  ok_data : dom (data s) ⊆ TransactionalMemory.allocated_pages (mem s);
  ok_len p b : data s !! p = Some b -> vlen b = 2 ^ PageNumber.page_order p * ps;
  ok_size : TransactionalMemory.page_size (mem s) = ps;
  ok_cap : DatabaseHeader.region_max_data_pages (InMemoryState.header (TransactionalMemory.state (mem s))) = cap;
  ok_tracker : match allocated s with
    | PageTrackerPolicy.Ignore => True
    | PageTrackerPolicy.Track X => since s ⊆ X /\ X ⊆ TransactionalMemory.allocated_pages (mem s)
    | PageTrackerPolicy.Closed => False
    end }.

Definition room_for (s : t) (n : nat) : Prop :=
  regions_of (layout_of (InMemoryState.header (TransactionalMemory.state (mem s)))) + 2 * Z.of_nat n <= MAX_REGIONS.
Definition limit : Z := Z.min (cap * ps) (2 ^ 32 - 1).

(** The pages of the heap *)
Lemma ok_page s p : ok s -> p ∈ TransactionalMemory.allocated_pages (mem s) -> page_wf p /\ exists start, TransactionalMemory.page_address p (mem s) = Ret (mem s, Okay (start, 2 ^ PageNumber.page_order p * ps)).
Proof.
  intros Hs Hp. destruct (mem_at_intro _ (ok_mem _ Hs)) as (nn & a & Hat). assert (Hwf : page_wf p) by (destruct Hat as (_ & _ & _ & Hh); by destruct (hp_wf _ _ Hh p Hp)).
  split; [done|]. rewrite <-(ok_size _ Hs). by eapply page_address_ok.
Qed.

(** A state that differs in what was recorded only *)
Lemma ok_record s m : ok s -> mem_ok m -> TransactionalMemory.open_dirty_pages m = ∅ -> TransactionalMemory.read_page_ref_counts m = ∅ ->
  TransactionalMemory.allocated_pages m = TransactionalMemory.allocated_pages (mem s) -> TransactionalMemory.page_size m = TransactionalMemory.page_size (mem s) ->
  TransactionalMemory.state m = TransactionalMemory.state (mem s) -> ok (set_mem s m).
Proof. intros [H1 H2 H3 H4 H5 H6 H7 H8 H9 H10] Hm Hd Hr Ha Hp Hst. split; cbn; rewrite ?Ha, ?Hp, ?Hst; done. Qed.

Lemma borrowed s p c1 c2 : ok s -> p ∈ dom (data s) -> 
  (forall m, m = mem s -> exists m1 r1, c1 m = Ret (m1, r1) /\ mem_ok m1 /\ TransactionalMemory.allocated_pages m1 = TransactionalMemory.allocated_pages m /\
    TransactionalMemory.page_size m1 = TransactionalMemory.page_size m /\ TransactionalMemory.state m1 = TransactionalMemory.state m /\
    match r1 with
    | Okay tt => exists m2, c2 m1 = Ret (m2, Okay tt) /\ mem_ok m2 /\ TransactionalMemory.allocated_pages m2 = TransactionalMemory.allocated_pages m /\
        TransactionalMemory.page_size m2 = TransactionalMemory.page_size m /\ TransactionalMemory.state m2 = TransactionalMemory.state m /\
        TransactionalMemory.open_dirty_pages m2 = ∅ /\ TransactionalMemory.read_page_ref_counts m2 = ∅
    | Err _ => TransactionalMemory.open_dirty_pages m1 = ∅ /\ TransactionalMemory.read_page_ref_counts m1 = ∅ /\ io_fails io
    end) ->
  exists m' r, (_ ← on_mem c1; _ ← on_mem c2; bytes_of p) s = Ret (set_mem s m', r) /\ ok (set_mem s m') /\ TransactionalMemory.state m' = TransactionalMemory.state (mem s) /\
    match r with Okay b => data s !! p = Some b | Err _ => io_fails io end.
Proof.
  intros Hs Hp Hc. destruct (Hc _ eq_refl) as (m1 & r1 & E1 & Hm1 & HA1 & HP1 & HS1 & Hr). unfold on_mem, mbind, M_bind. rewrite E1. cbn [mbind outcome_bind fst snd]. destruct r1 as [[]|e].
  - destruct Hr as (m2 & E2 & Hm2 & HA2 & HP2 & HS2 & HD2 & HR2). cbn [mem set_mem]. rewrite E2. cbn [mbind outcome_bind fst snd]. apply elem_of_dom in Hp as [b Hb].
    unfold bytes_of. cbn [data set_mem]. rewrite Hb. cbn [unwrap mbind outcome_bind]. exists m2, (Okay b). split; [done|]. split; [by apply ok_record|]. split; [done|]. done.
  - destruct Hr as (HD1 & HR1 & Hio). exists m1, (Err IoError). split; [done|]. split; [by apply ok_record|]. done.
Qed.

Lemma mem_ok_debug m e D R : mem_ok m -> D ⊆ TransactionalMemory.allocated_pages m -> dom R ⊆ TransactionalMemory.allocated_pages m ->
  mem_ok (TransactionalMemory.set_debug (TransactionalMemory.record m e) D R (TransactionalMemory.allocated_pages m)).
Proof. intros [M1 M2 M3 M4 M5 M6] HD HR. by split. Qed.
Lemma mem_ok_record m e : mem_ok m -> mem_ok (TransactionalMemory.record m e).
Proof. intros [M1 M2 M3 M4 M5 M6]. by split. Qed.

Definition same (s s' : t) : Prop := ok s' /\ data s' = data s /\ since s' = since s /\ forall n, room_for s n -> room_for s' n.
Lemma same_mem s m : ok (set_mem s m) -> TransactionalMemory.state m = TransactionalMemory.state (mem s) -> same s (set_mem s m).
Proof. intros Hs Hst. split; [done|]. split; [done|]. split; [done|]. intros n. unfold room_for. cbn. by rewrite Hst. Qed.

Lemma get_page_ok s p bytes : ok s -> data s !! p = Some bytes ->
  exists s' r, get_page p s = Ret (s', r) /\ same s s' /\ match r with Okay b => b = bytes | Err _ => io_fails io end.
Proof.
  intros Hs Hp. assert (Hpd : p ∈ dom (data s)) by (apply elem_of_dom; by eexists). assert (Hpa := ok_data _ Hs p Hpd). destruct (ok_page s p Hs Hpa) as (_ & start & Ha).
  destruct (borrowed s p (TransactionalMemory.get_page io p) (TransactionalMemory.drop_page p) Hs Hpd) as (m' & r & E & Hok & Hst & Hr); [|exists (set_mem s m'), r; split; [exact E|]; split; [by apply same_mem|]; destruct r; [congruence|done]].
  intros m ->. unfold TransactionalMemory.get_page, mbind, TransactionalMemory.M_bind. rewrite Ha. cbn [fst snd]. unfold TransactionalMemory.perform.
  set (e := ReadPage start (2 ^ PageNumber.page_order p * ps)). pose proof (mem_ok_record _ e (ok_mem _ Hs)) as Hrec. destruct (io _ e) eqn:Eio.
  - unfold TransactionalMemory.require, TransactionalMemory.modify. cbn [TransactionalMemory.open_dirty_pages TransactionalMemory.record]. rewrite (ok_dirty _ Hs), bool_decide_eq_true_2 by apply not_elem_of_empty.
    cbn [rassert mbind outcome_bind TransactionalMemory.read_page_ref_counts TransactionalMemory.record TransactionalMemory.allocated_pages]. rewrite (ok_refs _ Hs), lookup_empty. cbn [default Z.add]. eexists _, _. split; [done|]. split.
    { apply (mem_ok_debug (mem s) e); [apply (ok_mem _ Hs)|apply (mo_dirty _ (ok_mem _ Hs))|]. rewrite dom_insert_L, dom_empty_L. set_solver. }
    split; [done|]. split; [done|]. split; [done|]. unfold TransactionalMemory.drop_page, mbind, TransactionalMemory.M_bind, TransactionalMemory.gets, TransactionalMemory.lift, TransactionalMemory.modify.
    cbn [TransactionalMemory.read_page_ref_counts TransactionalMemory.set_debug]. rewrite lookup_insert_eq. cbn [unwrap mbind outcome_bind rassert Z.ltb Z.compare Z.sub Z.opp Z.add Z.eqb Z.pos_sub].
    eexists. split; [done|]. rewrite delete_insert_id by apply lookup_empty. split; [|do 3 (split; [done|]); split; [apply (ok_dirty _ Hs)|done]].
    apply (mem_ok_debug (mem s) e); [apply (ok_mem _ Hs)|apply (mo_dirty _ (ok_mem _ Hs))|]. change (dom (∅ : gmap PageNumber.t Z) ⊆ TransactionalMemory.allocated_pages (mem s)). rewrite dom_empty_L. set_solver.
  - eexists _, _. split; [done|]. split; [done|]. split; [done|]. split; [done|]. split; [done|]. split; [apply (ok_dirty _ Hs)|split; [apply (ok_refs _ Hs)|by eexists _, _]].
Qed.
Lemma get_page_mut_ok s p bytes : ok s -> data s !! p = Some bytes ->
  exists s' r, get_page_mut p s = Ret (s', r) /\ same s s' /\ match r with Okay b => b = bytes | Err _ => io_fails io end.
Proof.
  intros Hs Hp. assert (Hpd : p ∈ dom (data s)) by (apply elem_of_dom; by eexists). assert (Hpa := ok_data _ Hs p Hpd). destruct (ok_page s p Hs Hpa) as (_ & start & Ha).
  destruct (borrowed s p (TransactionalMemory.get_page_mut io p) (TransactionalMemory.drop_page_mut p) Hs Hpd) as (m' & r & E & Hok & Hst & Hr); [|exists (set_mem s m'), r; split; [exact E|]; split; [by apply same_mem|]; destruct r; [congruence|done]].
  intros m ->. unfold TransactionalMemory.get_page_mut, mbind, TransactionalMemory.M_bind, TransactionalMemory.require, TransactionalMemory.modify, TransactionalMemory.perform.
  rewrite (ok_refs _ Hs), lookup_empty, bool_decide_eq_true_2 by done. cbn [rassert mbind outcome_bind]. rewrite (ok_dirty _ Hs), bool_decide_eq_true_2 by apply not_elem_of_empty.
  cbn [rassert mbind outcome_bind]. rewrite Ha. cbn [fst snd].
  set (e := WritePage start (2 ^ PageNumber.page_order p * ps)). pose proof (mem_ok_record _ e (ok_mem _ Hs)) as Hrec. destruct (io _ e) eqn:Eio.
  - cbn [TransactionalMemory.open_dirty_pages TransactionalMemory.record TransactionalMemory.read_page_ref_counts TransactionalMemory.allocated_pages]. rewrite (ok_dirty _ Hs), bool_decide_eq_true_2 by apply not_elem_of_empty.
    cbn [rassert mbind outcome_bind]. eexists _, _. split; [done|]. split.
    { apply (mem_ok_debug (mem s) e); [apply (ok_mem _ Hs)|apply union_least; [by apply singleton_subseteq_l|apply (mo_dirty _ (ok_mem _ Hs))]|apply (mo_refs _ (ok_mem _ Hs))]. }
    split; [done|]. split; [done|]. split; [done|]. unfold TransactionalMemory.drop_page_mut, mbind, TransactionalMemory.M_bind, TransactionalMemory.require, TransactionalMemory.modify.
    cbn [TransactionalMemory.open_dirty_pages TransactionalMemory.set_debug TransactionalMemory.record]. rewrite (ok_dirty _ Hs), bool_decide_eq_true_2 by set_solver. cbn [rassert mbind outcome_bind].
    assert (HE : ({[p]} ∪ ∅) ∖ {[p]} = (∅ : gset PageNumber.t)) by set_solver.
    eexists. split; [done|]. split; [|do 3 (split; [done|]); split; [exact HE|apply (ok_refs _ Hs)]].
    apply (mem_ok_debug (mem s) e); [apply (ok_mem _ Hs)| |apply (mo_refs _ (ok_mem _ Hs))]. etrans; [|apply empty_subseteq]. by apply reflexive_eq.
  - eexists _, _. split; [done|]. split; [done|]. split; [done|]. split; [done|]. split; [done|]. split; [apply (ok_dirty _ Hs)|split; [apply (ok_refs _ Hs)|by eexists _, _]].
Qed.

Lemma put_page_ok s p bytes bytes' : ok s -> data s !! p = Some bytes -> vlen bytes' = vlen bytes ->
  exists s', put_page p bytes' s = Ret s' /\ ok s' /\ data s' = <[p := bytes']> (data s) /\ since s' = since s /\ (forall n, room_for s n -> room_for s' n).
Proof.
  intros Hs Hp Hl. unfold put_page. rewrite Hp. cbn [unwrap mbind outcome_bind]. rewrite Hl, Z.eqb_refl. cbn [rassert mbind outcome_bind]. eexists. split; [done|]. split; [|done].
  assert (Hdom : dom (<[p := bytes']> (data s)) = dom (data s)) by (apply dom_insert_lookup_L; by eexists).
  destruct Hs as [H1 H2 H3 H4 H5 H6 H7 H8 H9 H10]. split; cbn [mem allocator allocated data set_data]; rewrite ?Hdom; try done.
  intros q b [[<- <-]|[_ Hb]]%lookup_insert_Some; [rewrite Hl|]; by apply H7.
Qed.

(** The tracker of the caller learns of a new page. *)
Lemma tracker_insert s p A : ok s -> p ∉ A -> A = TransactionalMemory.allocated_pages (mem s) ->
  exists tr, PageTrackerPolicy.insert (allocated s) p = Ret tr /\
    match tr with PageTrackerPolicy.Ignore => True | PageTrackerPolicy.Track X => {[p]} ∪ since s ⊆ X /\ X ⊆ {[p]} ∪ A | PageTrackerPolicy.Closed => False end.
Proof.
  intros Hs Hp ->. pose proof (ok_tracker _ Hs) as Ht. destruct (allocated s) as [|X|]; [by exists PageTrackerPolicy.Ignore| |done]. destruct Ht as [T1 T2].
  cbn [PageTrackerPolicy.insert]. rewrite bool_decide_eq_true_2 by set_solver. exists (PageTrackerPolicy.Track ({[p]} ∪ X)). split; [done|]. set_solver.
Qed.
Lemma tracker_remove s p : ok s -> p ∈ since s ->
  exists tr, PageTrackerPolicy.remove (allocated s) p = Ret tr /\
    match tr with PageTrackerPolicy.Ignore => True
    | PageTrackerPolicy.Track X => since s ∖ {[p]} ⊆ X /\ X ⊆ TransactionalMemory.allocated_pages (mem s) ∖ {[p]} | PageTrackerPolicy.Closed => False end.
Proof.
  intros Hs Hp. pose proof (ok_tracker _ Hs) as Ht. destruct (allocated s) as [|X|]; [by exists PageTrackerPolicy.Ignore| |done]. destruct Ht as [T1 T2].
  cbn [PageTrackerPolicy.remove]. rewrite bool_decide_eq_true_2 by set_solver. exists (PageTrackerPolicy.Track (X ∖ {[p]})). split; [done|]. set_solver.
Qed.

Lemma allocate_ok s size n : ok s -> 0 < size <= limit -> room_for s (1 + n) ->
  exists s' r, allocate size s = Ret (s', r) /\ ok s' /\ room_for s' n /\
    match r with
    | Okay (p, bytes) => data s !! p = None /\ size <= vlen bytes /\ data s' = <[p := bytes]> (data s) /\ since s' = {[p]} ∪ since s
    | Err _ => io_fails io /\ data s' = data s /\ since s' = since s
    end.
Proof.
  intros Hs Hsize Hroom. unfold limit in Hsize. unfold room_for in Hroom. set (m := mem s) in *.
  assert (Hpre : div_ceil size (TransactionalMemory.page_size m) <= DatabaseHeader.region_max_data_pages (InMemoryState.header (TransactionalMemory.state m))).
  { unfold m. rewrite (ok_size _ Hs), (ok_cap _ Hs). unfold div_ceil.
    pose proof (Z.div_mod size ps ltac:(lia)). pose proof (Z.mod_pos_bound size ps Hps). destruct (Z.eqb_spec (size mod ps) 0); nia. }
  set (lowest := match PageAllocator.policy (allocator s) with AllocDefault => false | AllocLowest => true end).
  destruct (allocate_grows io m size lowest (ok_mem _ Hs) ltac:(lia) Hpre ltac:(fold m in Hroom; lia)) as (m' & r & E & (Hm' & Hk & Hr) & Hg & Hio).
  assert (Hsz : TransactionalMemory.page_size m' = ps) by (rewrite (proj1 (kp_sizes _ _ Hk)); apply (ok_size _ Hs)).
  assert (Hcap : DatabaseHeader.region_max_data_pages (InMemoryState.header (TransactionalMemory.state m')) = cap).
  { destruct (kp_header _ _ Hk) as (q & n0 & ->). apply (ok_cap _ Hs). }
  assert (Hrefs : TransactionalMemory.read_page_ref_counts m' = ∅) by (rewrite (kp_refs _ _ Hk); apply (ok_refs _ Hs)).
  assert (Hroom' : room_for (set_mem s m') n) by (unfold room_for, grows in *; cbn [mem set_mem]; lia).
  unfold allocate, PageAllocator.allocate, PageAllocator.alloc_with, TransactionalMemory.allocate, on_mem, gets, mbind, M_bind, TransactionalMemory.M_bind. fold lowest m. cbn [mbind outcome_bind fst snd]. fold m. unfold lowest in E. rewrite E.
  destruct r as [p|e].
  - destruct Hr as (Hnew & HA & HD & Hwf & Hlen & _). unfold m in HD, HA, Hnew. rewrite (ok_dirty _ Hs), (right_id_L ∅ (∪)) in HD.
    destruct (tracker_insert s p _ Hs Hnew eq_refl) as (tr & Etr & Htr). assert (Hns : p ∉ since s) by (intros Hin; by apply Hnew, (ok_data _ Hs), (ok_sub _ Hs)).
    assert (Hnd : data s !! p = None) by (apply not_elem_of_dom; intros Hin; by apply Hnew, (ok_data _ Hs)).
    unfold TransactionalMemory.lift, mret, TransactionalMemory.M_ret, M_ret. rewrite Etr. cbn [mbind outcome_bind fst snd]. rewrite (ok_since _ Hs). cbn [PageTrackerPolicy.insert]. rewrite bool_decide_eq_true_2 by done.
    cbn [rassert mbind outcome_bind fst snd modify set_allocator set_mem mem]. unfold TransactionalMemory.drop_page_mut, mbind, TransactionalMemory.M_bind, TransactionalMemory.require, TransactionalMemory.modify.
    rewrite HD, bool_decide_eq_true_2 by set_solver. cbn [rassert mbind outcome_bind fst snd]. assert (HE : ({[p]} : gset PageNumber.t) ∖ {[p]} = ∅) by set_solver.
    eexists _, _. split; [reflexivity|]. split; [|split; [exact Hroom'|]].
    + split; cbn; rewrite ?HE, ?dom_insert_L; try done.
      * destruct Hm' as [M1 M2 M3 M4 M5 M6]. split; cbn; rewrite ?HD; try done. set_solver.
      * by rewrite HD.
      * pose proof (ok_sub _ Hs). set_solver.
      * rewrite HA. pose proof (ok_data _ Hs). set_solver.
      * intros q b [[<- <-]|[_ Hb]]%lookup_insert_Some; [by apply fresh_len|by apply (ok_len _ Hs)].
      * rewrite HA. done.
    + split; [done|]. cbn [mem data set_mem set_data]. split; [rewrite fresh_len by done; by rewrite <-(ok_size _ Hs)|]. split; [done|]. unfold since. cbn. done.
  - destruct Hr as [HA HD]. unfold m in HA, HD. rewrite (ok_dirty _ Hs) in HD. eexists _, _. split; [reflexivity|]. split; [|split; [exact Hroom'|split; [by eapply Hio|done]]].
    destruct Hs as [H1 H2 H3 H4 H5 H6 H7 H8 H9 H10]. split; cbn; try done; [by etrans|]. destruct (allocated s); try done. destruct H10. split; [done|by etrans].
Qed.

(** A page allocated since the last commit is freed. *)
Lemma free_state s p m' tr : ok s -> p ∈ since s -> freed_one (mem s) p m' ->
  InMemoryState.header (TransactionalMemory.state m') = InMemoryState.header (TransactionalMemory.state (mem s)) ->
  match tr with PageTrackerPolicy.Ignore => True
  | PageTrackerPolicy.Track X => since s ∖ {[p]} ⊆ X /\ X ⊆ TransactionalMemory.allocated_pages (mem s) ∖ {[p]} | PageTrackerPolicy.Closed => False end ->
  let s' := mk m' (PageAllocator.mk (PageAllocator.policy (allocator s)) (PageTrackerPolicy.Track (since s ∖ {[p]}))) tr (delete p (data s)) in
  ok s' /\ since s' = since s ∖ {[p]} /\ (forall n, room_for s n -> room_for s' n).
Proof.
  intros Hs Hp (Hm' & Hk & HA & HD) Hh Htr s'. split; [|split; [done|]].
  - split; cbn; rewrite ?HA, ?HD, ?dom_delete_L, ?(kp_refs _ _ Hk), ?(proj1 (kp_sizes _ _ Hk)), ?Hh; try done; try apply Hs.
    + unfold since at 1. cbn. pose proof (ok_sub _ Hs). set_solver.
    + pose proof (ok_data _ Hs). set_solver.
    + intros q' b [_ Hb]%lookup_delete_Some. by apply (ok_len _ Hs).
  - intros n. unfold room_for. cbn [mem s']. by rewrite Hh.
Qed.
Lemma free_mem s p : ok s -> p ∈ since s -> exists m' tr, TransactionalMemory.free p (allocated s) (mem s) = Ret (m', Okay tr) /\
  let s' := mk m' (PageAllocator.mk (PageAllocator.policy (allocator s)) (PageTrackerPolicy.Track (since s ∖ {[p]}))) tr (delete p (data s)) in
  ok s' /\ since s' = since s ∖ {[p]} /\ (forall n, room_for s n -> room_for s' n).
Proof.
  intros Hs Hp. destruct (tracker_remove s p Hs Hp) as (tr & Etr & Htr). assert (Hpa : p ∈ TransactionalMemory.allocated_pages (mem s)) by (by apply (ok_data _ Hs), (ok_sub _ Hs)).
  destruct (free_keeps_header (mem s) p (allocated s) tr) as (m' & r & E & Hf & Hh & ->); [apply (ok_mem _ Hs)|done|rewrite (ok_dirty _ Hs); apply not_elem_of_empty|by rewrite (ok_refs _ Hs)|done|].
  exists m', tr. split; [done|]. by apply free_state.
Qed.
Lemma free_ok s p : ok s -> p ∈ since s ->
  exists s', free p s = Ret (s', Okay tt) /\ ok s' /\ data s' = delete p (data s) /\ since s' = since s ∖ {[p]} /\ (forall n, room_for s n -> room_for s' n).
Proof.
  intros Hs Hp. destruct (free_mem s p Hs Hp) as (m' & tr & E & Hok & Hsi & Hro).
  unfold free, PageAllocator.free, on_mem, gets, modify, mbind, M_bind, TransactionalMemory.M_bind, TransactionalMemory.lift. cbn [mbind outcome_bind fst snd]. rewrite (ok_since _ Hs).
  cbn [PageTrackerPolicy.remove_if_present mbind outcome_bind fst snd]. rewrite E. eexists. split; [reflexivity|]. done.
Qed.
Lemma free_if_ok s p : ok s -> is_Some (data s !! p) ->
  exists s', free_if_uncommitted p s = Ret (s', Okay (bool_decide (p ∈ since s))) /\ ok s' /\ (forall n, room_for s n -> room_for s' n) /\
    data s' = (if bool_decide (p ∈ since s) then delete p (data s) else data s) /\ since s' = since s ∖ {[p]}.
Proof.
  intros Hs _. unfold free_if_uncommitted, PageAllocator.free_if_uncommitted, on_mem, gets, modify, mbind, M_bind, TransactionalMemory.M_bind, TransactionalMemory.lift.
  cbn [mbind outcome_bind fst snd]. rewrite (ok_since _ Hs). cbn [PageTrackerPolicy.remove_if_present mbind outcome_bind fst snd]. case_bool_decide as Hp.
  - destruct (free_mem s p Hs Hp) as (m' & tr & E & Hok & Hsi & Hro). rewrite E. eexists. split; [reflexivity|]. done.
  - assert (HE : since s ∖ {[p]} = since s) by set_solver. rewrite HE. eexists. split; [reflexivity|]. split; [|done].
    destruct Hs as [H1 H2 H3 H4 H5 H6 H7 H8 H9 H10]. by split.
Qed.

Lemma uncommitted_ok s p : ok s -> PageAllocator.uncommitted (allocator s) p = Ret (bool_decide (p ∈ since s)).
Proof. intros Hs. unfold PageAllocator.uncommitted. by rewrite (ok_since _ Hs). Qed.
Lemma pages_ok s p bytes : ok s -> data s !! p = Some bytes -> encodable p /\ vlen bytes < 2 ^ 63.
Proof.
  intros Hs Hp. assert (Hpa : p ∈ TransactionalMemory.allocated_pages (mem s)) by (apply (ok_data _ Hs), elem_of_dom; by eexists). destruct (ok_page s p Hs Hpa) as [Hwf _]. split.
  - pose proof (page_wf_index p Hwf). destruct Hwf as (Hr & Ho & Hi & _). change MAX_MAX_PAGE_ORDER with 20 in Ho. unfold encodable. rewrite Z.min_r by lia. lia.
  - rewrite (ok_len _ Hs p bytes Hp). destruct Hwf as (_ & Ho & _). change MAX_MAX_PAGE_ORDER with 20 in Ho. pose proof (order_pages _ Ho).
    destruct (mem_at_intro _ (ok_mem _ Hs)) as (nn & a & _ & _ & Hst & _). pose proof (so_page _ _ _ Hst) as Hpg. rewrite <-(mo_page_size _ (ok_mem _ Hs)), (ok_size _ Hs) in Hpg.
    assert (2 ^ PageNumber.page_order p * ps <= 2 ^ 20 * 2 ^ 22) by nia. lia.
Qed.

#[export] Instance txn_store_laws : PageStoreLaws t.
Proof.
  refine {| contents := data; dirty := since; store_ok := ok; room := room_for; page_size := ps; page_limit := limit; may_fail := io_fails io |}.
  - intros s Hs. apply (ok_size _ Hs).
  - done.
  - unfold limit. lia.
  - intros s Hs. apply (ok_sub _ Hs).
  - unfold room_for. intros s n m Hr Hm. lia.
  - apply pages_ok.
  - apply get_page_ok.
  - intros s p bytes Hs Hp _. by apply get_page_mut_ok.
  - intros s p bytes bytes' Hs Hp _. by apply put_page_ok.
  - intros s size n Hs Hsize Hroom. destruct (allocate_ok s size n Hs Hsize Hroom) as (s' & r & E & Hok & Hro & Hr). exists s', r. split; [done|]. split; [done|]. split; [done|].
    destruct r as [[p bytes]|e]; [done|]. destruct Hr as (Hf & Hd & Hsi). split; [done|]. intros p bytes Hp Hn. by rewrite Hd, Hsi.
  - apply free_ok.
  - intros s p Hs. by apply uncommitted_ok.
  - apply free_if_ok.
Defined.
End laws.
End store.
End TxnStore.
