(* ===== verification/BtreeTheorems.v ===== *)
(** The B-trees (src/src/tree_store/btree.rs, btree_mutator.rs) as finite maps:
    what the operations of [BtreeMut] do to a tree of a write transaction, for any
    store of pages that keeps the promises of [PageStoreLaws] and any type of keys
    with the promises of [ByteOrder]; and the store of a transaction, [TxnStore],
    as an instance. *)
From S2P Require Import Prelude Buddy Pages Layout Region Header PageManager Types KeyOrder Leaf LeafTheorems Branch PageStore Mutator Trees Building Insertion Deletion Btrees Lookup Sealing Store.

(** * Trees in a store *)

Section store.
  Context {St : Type} `{LS : PageStoreLaws St}.

(** What a transaction sees of the pages *)
Definition view_of (t : txn St) : view := View (contents (store t)) (dirty (store t)) (freed t).
Lemma shows_view n t : store_ok (store t) -> room (store t) n -> shows ∅ n t (view_of t).
Proof. intros Hs Hr. split; try done. cbn. by rewrite (left_id_L ∅ (∪)). Qed.
Lemma shows_of n t v : shows ∅ n t v -> store_ok (store t) /\ room (store t) n /\ v = view_of t.
Proof.
  intros [H1 H2 H3 H4 H5 _]. split; [done|]. split; [done|]. rewrite (left_id_L ∅ (∪)) in H3. destruct v. cbn in *. by subst.
Qed.
End store.

(** * Requests of a client *)

(** The operations on a tree, one after another *)
Inductive request :=
  | Insert (key value : list Z)
  | Remove (key : list Z)
  | Get (key : list Z)
  | First
  | Last.
Inductive answer :=
  | Value (value : option (list Z))
  | Entry (entry : option (list Z * list Z)).

Section client.
  Context {S : Type} `{PageStore S} (compare : list Z -> list Z -> outcome comparison) (key_width value_width : option Z) (fuel : nat).

(** The value of a guard, which is dropped *)
Definition consume (g : option AccessGuard.t) : M (txn S) (option (list Z)) :=
  match g with
  | Some g => v ← lift (AccessGuard.value g); _ ← AccessGuard.drop value_width g; mret (Some v)
  | None => mret None
  end.
Definition consume_pair (g : option (AccessGuard.t * AccessGuard.t)) : M (txn S) (option (list Z * list Z)) :=
  match g with
  | Some (key, value) => k ← lift (AccessGuard.value key); v ← lift (AccessGuard.value value); mret (Some (k, v))
  | None => mret None
  end.
Definition serve (root : option BtreeHeader.t) (r : request) : M (txn S) (option BtreeHeader.t * answer) :=
  match r with
  | Insert key value => '(root, old) ← BtreeMut.insert compare key_width value_width fuel root key value; v ← consume old; mret (root, Value v)
  | Remove key => '(root, old) ← BtreeMut.remove compare key_width value_width fuel root key; v ← consume old; mret (root, Value v)
  | Get key => g ← BtreeMut.get compare key_width value_width fuel root key; v ← consume g; mret (root, Value v)
  | First => g ← BtreeMut.first key_width value_width fuel root; e ← consume_pair g; mret (root, Entry e)
  | Last => g ← BtreeMut.last key_width value_width fuel root; e ← consume_pair g; mret (root, Entry e)
  end.
Fixpoint serve_all (root : option BtreeHeader.t) (rs : list request) : M (txn S) (option BtreeHeader.t * list answer) :=
  match rs with
  | [] => mret (root, [])
  | r :: rs => '(root, a) ← serve root r; '(root, l) ← serve_all root rs; mret (root, a :: l)
  end.
End client.

(** What the client expects: the pairs are a sorted list. *)
Section expected.
  Context (cmp : list Z -> list Z -> comparison).

Definition expect_one (L : list pair) (r : request) : list pair * answer :=
  match r with
  | Insert key value => (kv_insert cmp key value L, Value (kv_lookup cmp key L))
  | Remove key => (kv_remove cmp key L, Value (kv_lookup cmp key L))
  | Get key => (L, Value (kv_lookup cmp key L))
  | First => (L, Entry (head L))
  | Last => (L, Entry (last L))
  end.
Fixpoint expect_all (L : list pair) (rs : list request) : list pair * list answer :=
  match rs with
  | [] => (L, [])
  | r :: rs => let x := expect_one L r in let y := expect_all x.1 rs in (y.1, x.2 :: y.2)
  end.
End expected.

(** * What the operations do *)

Section btree.
  Context {St : Type} `{LS : PageStoreLaws St}.
  Context {compare valid cmp} `{BO : ByteOrder compare valid cmp} (fk fv : option Z) (kmax : Z).
  Context (Hkey : forall k, valid k -> vlen k <= kmax /\ forall w, fk = Some w -> vlen k = w).
  Context (Hkmax : 0 <= kmax /\ base fk 65535 + 65535 * kmax <= page_limit).
  Notation good := (sum_ok fk fv).

(** The transaction [t] has the tree of [root] with the pairs [L] and the pages [P]; [n] more pages can be allocated. *)
Record tree_in (n : nat) (t : txn St) (h : nat) (root : option BtreeHeader.t) (L : list pair) (P : list PageNumber.t) : Prop := {
  st_store : store_ok (store t);
  st_room : room (store t) n;
  st_tree : btree valid cmp fk fv good (view_of t) h root L P;
  st_pages : NoDup P }.

Lemma tree_in_shows n t h root L P : tree_in n t h root L P -> shows ∅ n t (view_of t).
Proof using. intros []. by apply shows_view. Qed.
Lemma tree_in_of n t v h root L P : shows ∅ n t v -> btree valid cmp fk fv good v h root L P -> NoDup P -> tree_in n t h root L P /\ v = view_of t.
Proof using. intros (H1 & H2 & ->)%shows_of HB Hnd. done. Qed.
Lemma tree_in_weaken n m t h root L P : tree_in n t h root L P -> (m <= n)%nat -> tree_in m t h root L P.
Proof using. intros [] Hm. split; try done. by eapply law_room. Qed.
Lemma tree_in_keys n t h root L P : tree_in n t h root L P -> Forall valid (keys_of L) /\ sorted cmp (keys_of L).
Proof.
  intros [_ _ HB _]. destruct root as [r|]; [|destruct HB as (_ & -> & _); split; [constructor|done]].
  destruct HB as [HT _]. by destruct (tree_pairs _ _ _ _ _ _ _ _ _ _ HT).
Qed.

Lemma tree_in_self n t h root L P : tree_in n t h root L P -> evolves (view_of t) (view_of t) (list_to_set P) (list_to_set P).
Proof.
  intros [_ _ HB _]. apply evolves_self. destruct root as [x|]; [|destruct HB as (_ & _ & ->); constructor]. destruct HB as [HT _]. by eapply tree_dom.
Qed.

(** ** One request *)

Lemma insert_request n t h root L P key value fuel : (h < fuel)%nat -> tree_in (2 * h + 3 + n) t h root L P ->
  valid key -> (forall w, fv = Some w -> vlen value = w) -> runs_fit fk fv (kv_insert cmp key value L) -> vlen L < 2 ^ 64 - 1 ->
  runs (BtreeMut.insert compare fk fv fuel root key value) t (fun t' r => exists h' P', tree_in n t' h' r.1 (kv_insert cmp key value L) P' /\
    (h <= h' <= S h)%nat /\ guard_is r.2 (kv_lookup cmp key L) /\ evolves (view_of t) (view_of t') (list_to_set P) (list_to_set P')) (intact (view_of t)).
Proof using All.
  intros Hf Hst Hk Hv Hfit Hlen. unfold BtreeMut.insert.
  eapply runs_bind; [eapply (insert_runs fk fv good kmax Hkey Hkmax fuel n t _ h); [exact Hf|by eapply tree_in_shows|apply (st_tree _ _ _ _ _ _ Hst)|apply (st_pages _ _ _ _ _ _ Hst)|done|done|done|done]|].
  intros t' [[root' old] g] (v' & h' & P' & Hs & HB & Hh & Hnd & He & Hg & _). cbn [fst snd] in *. apply runs_ret.
  destruct (tree_in_of _ _ _ _ _ _ _ Hs HB Hnd) as [Hst' ->]. by exists h', P'.
Qed.
Lemma remove_request n t h root L P key fuel : (h < fuel)%nat -> tree_in (2 + 3 * h + n) t h root L P -> valid key -> runs_fit fk fv (kv_remove cmp key L) ->
  runs (BtreeMut.remove compare fk fv fuel root key) t (fun t1 r => runs (consume fv r.2) t1 (fun t' w => w = kv_lookup cmp key L /\
    exists h' P', tree_in n t' h' r.1 (kv_remove cmp key L) P' /\ (h' <= h)%nat /\ evolves (view_of t) (view_of t') (list_to_set P) (list_to_set P')) (intact (view_of t))) (intact (view_of t)).
Proof using All.
  intros Hf Hst Hk Hfit. unfold BtreeMut.remove, MutateHelper.delete.
  eapply runs_weaken; [eapply (delete_key_runs fk fv good kmax Hkey Hkmax fuel n t _ h); [exact Hf|by eapply tree_in_shows|apply (st_tree _ _ _ _ _ _ Hst)|apply (st_pages _ _ _ _ _ _ Hst)|done|done]| |done].
  intros t' [root' g] (pend & v' & h' & P' & Hs & HB & Hh & Hnd & He & Hg & _ & Hd). cbn [fst snd] in *. unfold consume, guard_reads in *.
  destruct g as [g|], (kv_lookup cmp key L) as [w|]; try done.
  - eapply runs_lift; [exact Hg|]. eapply runs_weaken with (E1 := intact v'); [|intros ? ? HQ; exact HQ|intros t2; by eapply intact_evolves].
    eapply runs_bind; [by eapply drop_runs|]. intros t2 [] Hs2. apply runs_ret. destruct (tree_in_of _ _ _ _ _ _ _ Hs2 HB Hnd) as [Hst' ->]. split; [done|]. by exists h', P'.
  - destruct Hd as (-> & -> & ->). apply runs_ret. destruct (tree_in_of _ _ _ _ _ _ _ Hs HB Hnd) as [Hst' E]. split; [done|]. exists h', P'. by rewrite <-E.
Qed.
Lemma consume_runs g w n t v : shows ∅ n t v -> guard_is g w -> runs (consume fv g) t (fun t' x => t' = t /\ x = w) (intact v).
Proof using.
  intros Hs Hg. unfold consume. destruct g as [g|], w as [w|]; try done; [|by apply runs_ret]. destruct Hg as [H1 H2].
  eapply runs_lift; [exact H1|]. unfold AccessGuard.drop. rewrite H2. by apply runs_ret.
Qed.
Lemma consume_pair_runs g w n t v : shows ∅ n t v -> pair_guards g w -> runs (consume_pair g) t (fun t' x => t' = t /\ x = w) (intact v).
Proof using.
  intros Hs Hg. unfold consume_pair. destruct g as [[a b]|], w as [[k x]|]; try done; [|by apply runs_ret]. destruct Hg as [H1 H2].
  eapply runs_lift; [exact H1|]. eapply runs_lift; [exact H2|]. by apply runs_ret.
Qed.

(** ** Requests one after another *)

(** Keys and values so small that any 65535 pairs fit in a page *)
Context (vmax : Z) (Hvmax : 0 <= vmax /\ 4 + 65535 * (8 + kmax + vmax) <= page_limit).

Definition small (L : list pair) : Prop := Forall (fun x => vlen x.1 <= kmax /\ vlen x.2 <= vmax) L.
Definition request_ok (r : request) : Prop :=
  match r with
  | Insert key value => valid key /\ (forall w, fv = Some w -> vlen value = w) /\ vlen value <= vmax
  | Remove key | Get key => valid key
  | First | Last => True
  end.

Lemma small_total L : small L -> total fk fv L <= 4 + vlen L * (8 + kmax + vmax).
Proof using.
  induction 1 as [|[k w] L [H1 H2] HL IH]; [unfold total, section; change (vlen []) with 0; change (size (keys_of [])) with 0; change (size (values_of [])) with 0; lia|]. cbn [fst snd] in H1, H2.
  pose proof (total_insert fk fv [] (k, w) L) as E. cbn [app fst snd] in E. rewrite E, vlen_cons. destruct (ptr_sizes fk fv) as [[-> | ->] [-> | ->]]; lia.
Qed.
Lemma small_fit L : small L -> runs_fit fk fv L.
Proof using Hkmax Hvmax.
  intros Hs A B C -> Hb. unfold small in Hs. rewrite !Forall_app in Hs. destruct Hs as (_ & HB & _). pose proof (small_total B HB). pose proof (vlen_nonneg B). nia.
Qed.
Lemma small_insert L key value : small L -> vlen key <= kmax -> vlen value <= vmax -> small (kv_insert cmp key value L).
Proof using.
  clear. intros Hs Hk Hv. induction Hs as [|[k w] L Hx HL IH]; cbn [kv_insert]; [by repeat constructor|]. destruct (cmp k key); constructor; auto.
Qed.
Lemma small_remove L key : small L -> small (kv_remove cmp key L).
Proof using. clear. intros Hs. induction Hs as [|[k w] L Hx HL IH]; cbn [kv_remove]; [constructor|]. destruct (cmp k key); auto; by constructor. Qed.

Lemma expect_small L r : small L -> request_ok r -> small (expect_one cmp L r).1 /\ vlen (expect_one cmp L r).1 <= vlen L + 1.
Proof using Hkey.
  intros Hs Hr. destruct r as [key value|key|key| |]; cbn [expect_one fst]; try (split; [done|lia]).
  - destruct Hr as (Hk & _ & Hv). split; [apply small_insert; [done|by apply Hkey|done]|]. rewrite kv_insert_length. destruct (kv_lookup cmp key L); lia.
  - split; [by apply small_remove|]. rewrite kv_remove_length. destruct (kv_lookup cmp key L); lia.
Qed.

Lemma expect_all_small rs : forall L, small L -> Forall request_ok rs -> small (expect_all cmp L rs).1 /\ vlen (expect_all cmp L rs).1 <= vlen L + vlen rs.
Proof using Hkey.
  induction rs as [|r rs IH]; intros L Hs Hok; cbn [expect_all fst]; [change (vlen (@nil request)) with 0; split; [done|lia]|].
  apply Forall_cons in Hok as [Hr Hok]. destruct (expect_small L r Hs Hr) as [H1 H2]. destruct (IH _ H1 Hok) as [H3 H4]. rewrite vlen_cons. split; [done|lia].
Qed.

Lemma serve_runs fuel n t h root L P r : (h < fuel)%nat -> tree_in (3 * h + 3 + n) t h root L P -> small L -> vlen L < 2 ^ 64 - 1 -> request_ok r ->
  runs (serve compare fk fv fuel root r) t (fun t' x => exists h' P', tree_in n t' h' x.1 (expect_one cmp L r).1 P' /\ (h' <= S h)%nat /\
    x.2 = (expect_one cmp L r).2 /\ evolves (view_of t) (view_of t') (list_to_set P) (list_to_set P')) (intact (view_of t)).
Proof using All.
  intros Hf Hst Hsm Hlen Hr. pose proof (expect_small L r Hsm Hr) as [Hsm' _]. pose proof (tree_in_shows _ _ _ _ _ _ Hst) as Hs.
  assert (Hsame : forall t' (y : answer), shows ∅ (3 * h + 3 + n) t' (view_of t) -> exists h' P', tree_in n t' h' (root, y).1 L P' /\ (h' <= S h)%nat /\ (root, y).2 = y /\
    evolves (view_of t) (view_of t') (list_to_set P) (list_to_set P')).
  { intros t' y Hs1. destruct (tree_in_of _ _ _ _ _ _ _ Hs1 (st_tree _ _ _ _ _ _ Hst) (st_pages _ _ _ _ _ _ Hst)) as [Hst1 E]. exists h, P.
    split; [eapply tree_in_weaken; [done|lia]|]. split; [lia|]. split; [done|]. rewrite <-E. by apply (tree_in_self _ _ _ _ _ _ Hst). }
  destruct r as [key value|key|key| |]; cbn [expect_one fst snd serve] in *.
  - destruct Hr as (Hk & Hw & _). eapply runs_bind; [apply (insert_request n t h root L P key value fuel); [done|eapply tree_in_weaken; [done|lia]|done|done|by apply small_fit|done]|].
    intros t1 [root1 g] (h1 & P1 & Hst1 & Hh & Hg & He). cbn [fst snd] in *. eapply runs_weaken with (E1 := intact (view_of t1)); [|intros ? ? HQ; exact HQ|intros t2; by eapply intact_evolves].
    eapply runs_bind; [eapply consume_runs; [by eapply tree_in_shows|done]|]. intros t2 x [-> ->]. apply runs_ret. exists h1, P1. split; [done|]. split; [lia|done].
  - eapply runs_bind; [apply (remove_request n t h root L P key fuel); [done|eapply tree_in_weaken; [done|lia]|done|by apply small_fit]|].
    intros t1 [root1 g] Hg. cbn [fst snd] in *. eapply runs_bind; [exact Hg|]. intros t2 w (-> & h1 & P1 & H1 & H2 & H3). apply runs_ret. exists h1, P1. split; [done|]. split; [lia|done].
  - eapply runs_bind; [by apply (get_runs fk fv good fuel _ t (view_of t) h root L P key Hf Hs (st_tree _ _ _ _ _ _ Hst) Hr)|]. intros t1 g [Hs1 Hg].
    eapply runs_bind; [by eapply consume_runs|]. intros t2 x [-> ->]. apply runs_ret. by apply Hsame.
  - eapply runs_bind; [by apply (first_runs fk fv good fuel _ t (view_of t) h root L P Hf Hs (st_tree _ _ _ _ _ _ Hst))|]. intros t1 g [Hs1 Hg].
    eapply runs_bind; [by eapply consume_pair_runs|]. intros t2 x [-> ->]. apply runs_ret. by apply Hsame.
  - eapply runs_bind; [by apply (last_runs fk fv good fuel _ t (view_of t) h root L P Hf Hs (st_tree _ _ _ _ _ _ Hst))|]. intros t1 g [Hs1 Hg].
    eapply runs_bind; [by eapply consume_pair_runs|]. intros t2 x [-> ->]. apply runs_ret. by apply Hsame.
Qed.

Lemma serve_all_runs fuel n rs : forall t h root L P, (h + length rs < fuel)%nat -> tree_in (length rs * (3 * (h + length rs) + 3) + n) t h root L P ->
  small L -> vlen L + vlen rs < 2 ^ 64 -> Forall request_ok rs ->
  runs (serve_all compare fk fv fuel root rs) t (fun t' x => exists h' P', tree_in n t' h' x.1 (expect_all cmp L rs).1 P' /\ (h' <= h + length rs)%nat /\
    x.2 = (expect_all cmp L rs).2 /\ evolves (view_of t) (view_of t') (list_to_set P) (list_to_set P')) (intact (view_of t)).
Proof using All.
  induction rs as [|r rs IH]; intros t h root L P Hf Hst Hsm Hlen Hok; cbn [serve_all expect_all fst snd].
  - apply runs_ret. exists h, P. split; [done|]. split; [lia|]. split; [done|]. by eapply tree_in_self.
  - apply Forall_cons in Hok as [Hr Hok]. rewrite vlen_cons in Hlen. pose proof (vlen_nonneg rs). cbn [length] in *. destruct (expect_small L r Hsm Hr) as [Hsm1 Hlen1].
    eapply runs_bind; [apply (serve_runs fuel (length rs * (3 * (S h + length rs) + 3) + n) t h root L P r); [lia|eapply tree_in_weaken; [done|nia]|done|lia|done]|].
    intros t1 [root1 a] (h1 & P1 & Hst1 & Hh1 & Ea & He1). cbn [fst snd] in *. rewrite Ea. eapply runs_weaken with (E1 := intact (view_of t1)); [|intros ? ? HQ; exact HQ|intros t2; by eapply intact_evolves].
    eapply runs_bind; [apply (IH t1 h1 root1); [lia|eapply tree_in_weaken; [done|nia]|done|lia|done]|].
    intros t2 [root2 l] (h2 & P2 & Hst2 & Hh2 & El & He2). cbn [fst snd] in *. rewrite El. apply runs_ret. exists h2, P2. split; [done|]. split; [lia|]. split; [done|]. by eapply evolves_trans.
Qed.
End btree.
#[global] Arguments tree_in {St H LS} valid cmp fk fv n t h root L P.

(** * A transaction on a small file *)

(** The encodings of [u64] as keys *)
Definition u64_key : list Z -> Prop := encoding (T := uint 8) (validT := uint_valid).
Definition u64_cmp : list Z -> list Z -> comparison := encoding_cmp (T := uint 8) (cmpT := fun a b => Z.compare (uint_val a) (uint_val b)).
#[export] Instance u64_order : ByteOrder (compare (uint 8)) u64_key u64_cmp.
Proof. apply builtin_byte_order, ordered_uint. right; right; right; by left. Qed.
Definition u64 (x : Z) : list Z := to_le_bytes 8 x.
Lemma u64_valid x : 0 <= x < 2 ^ 64 -> u64_key (u64 x).
Proof. intros Hx. exists (UInt x). done. Qed.
Lemma u64_width k : u64_key k -> vlen k <= 8 /\ forall w, Some 8 = Some w -> vlen k = w.
Proof.
  intros (x & Hx & Hk). apply Ret_inj in Hk. assert (E : vlen k = 8) by (unfold vlen; by rewrite <-Hk, length_to_le_bytes).
  rewrite E. split; [lia|]. by intros w [= <-].
Qed.

(** A file with regions of 4 MiB, of which one is full and one has four pages; nothing is allocated. *)
Definition small_file : DatabaseHeader.t :=
  DatabaseHeader.mk 0 true false 4096 0 1024 1 4 [TransactionHeader.new 1; TransactionHeader.new 0].
Definition small_memory0 : TransactionalMemory.t :=
  TransactionalMemory.mk ∅ ∅ ∅ [] (InMemoryState.new small_file) ∅ ∅ ∅ 4096 (1024 * 4096) 0.
Definition small_memory : TransactionalMemory.t := after TransactionalMemory.reset_allocator_state small_memory0.
Definition zeros (m : TransactionalMemory.t) (p : PageNumber.t) : list Z :=
  replicate (Z.to_nat (2 ^ PageNumber.page_order p * TransactionalMemory.page_size m)) 0.
Definition new_txn (m : TransactionalMemory.t) : txn TxnStore.t :=
  Txn (TxnStore.mk m (PageAllocator.mk AllocDefault (PageTrackerPolicy.Track ∅)) PageTrackerPolicy.Ignore ∅) [].
Definition empty_txn : txn TxnStore.t := new_txn small_memory.
Lemma small_memory_ok : mem_ok small_memory /\ InMemoryState.header (TransactionalMemory.state small_memory) = small_file /\
  TransactionalMemory.open_dirty_pages small_memory = ∅ /\ TransactionalMemory.read_page_ref_counts small_memory = ∅ /\ TransactionalMemory.page_size small_memory = 4096.
Proof.
  assert (Hh : header_ok small_file).
  { split; [by left| |].
    - unfold fields_ok. cbn. change (MAX_PAGE_INDEX + 1) with 1048576. change MAX_REGIONS with 1048576. lia.
    - eexists _, _. split; [done|]. split; (split; [done|]); (split; [done|]); (split; [done|]); vm_compute; done. }
  assert (Hps : DatabaseHeader.page_size small_file <= 2 ^ 22) by (by vm_compute).
  assert (Hk : exists k, 0 <= k <= MAX_MAX_PAGE_ORDER /\ DatabaseHeader.region_max_data_pages small_file = 2 ^ k) by (exists 10; split; vm_compute; done).
  destruct (runs_after _ _ _ (reset_runs small_memory0 Hh Hps Hk eq_refl eq_refl eq_refl eq_refl eq_refl)) as (r & _ & H1 & H2 & H3 & H4 & H5).
  split; [exact H1|]. split; [exact H2|]. split; [exact H4|]. split; [exact H5|]. exact (eq_trans (mo_page_size _ H1) (f_equal DatabaseHeader.page_size H2)).
Qed.

(** The pages of the file, when every operation on the file succeeds *)
#[export] Instance demo_store : PageStore TxnStore.t := TxnStore.txn_store io_works zeros.
Lemma zeros_len m p : TransactionalMemory.page_size m = 4096 -> vlen (zeros m p) = 2 ^ PageNumber.page_order p * 4096.
Proof. intros E. unfold zeros, vlen. rewrite length_replicate, E. pose proof (Z.pow_nonneg 2 (PageNumber.page_order p) ltac:(lia)). lia. Qed.
#[export] Instance demo_laws : PageStoreLaws TxnStore.t := TxnStore.txn_store_laws io_works zeros 4096 1024 eq_refl zeros_len.

Definition demo_room : nat := Z.to_nat 500000.
Lemma new_txn_ok m : mem_ok m -> InMemoryState.header (TransactionalMemory.state m) = small_file -> TransactionalMemory.open_dirty_pages m = ∅ ->
  TransactionalMemory.read_page_ref_counts m = ∅ -> TransactionalMemory.page_size m = 4096 ->
  tree_in u64_key u64_cmp (Some 8) None demo_room (new_txn m) 0 None [] [].
Proof.
  intros Hm Hh HD HR Hps. split; [| |done|constructor].
  - split; cbn [store new_txn TxnStore.mem TxnStore.allocator TxnStore.allocated TxnStore.data]; try done.
    by rewrite Hh.
  - unfold room, demo_laws, TxnStore.txn_store_laws, TxnStore.room_for. cbn [store new_txn TxnStore.mem]. rewrite Hh. unfold demo_room. rewrite Z2Nat.id by lia. by vm_compute.
Qed.
Lemma empty_txn_ok : tree_in u64_key u64_cmp (Some 8) None demo_room empty_txn 0 None [] [].
Proof. destruct small_memory_ok as (Hm & Hh & HD & HR & Hps). exact (new_txn_ok small_memory Hm Hh HD HR Hps). Qed.
Lemma demo_limit : @page_limit TxnStore.t demo_store demo_laws = 4194304.
Proof. reflexivity. Qed.

(** The tree after some requests: 100 values of 40 bytes are inserted, a few are removed again. *)
Definition demo_requests : list request :=
  map (fun i => Insert (u64 (Z.of_nat i * 37 mod 101)) (replicate 40 (Z.of_nat i))) (seq 0 100) ++ [Remove (u64 3); Remove (u64 4); Remove (u64 77)].
Definition demo_pairs : list pair := (expect_all u64_cmp [] demo_requests).1.
Definition demo_run (rs : list request) : outcome (txn TxnStore.t * result (option BtreeHeader.t * list answer) StorageError) :=
  serve_all (compare (uint 8)) (Some 8) None 200 None rs empty_txn.
(** The state and the value that a computation ends with *)
Definition ends_in {T A} (t : T) (x : outcome (T * result A StorageError)) : T := match x with Ret (t, _) => t | Panic => t end.
Definition ends_with {T A} (a : A) (x : outcome (T * result A StorageError)) : A := match x with Ret (_, Okay a) => a | _ => a end.
Definition txn_after (rs : list request) : txn TxnStore.t := ends_in empty_txn (demo_run rs).
Definition root_after (rs : list request) : option BtreeHeader.t := (ends_with (None, []) (demo_run rs)).1.
Definition demo_txn : txn TxnStore.t := txn_after demo_requests.
Definition demo_root : option BtreeHeader.t := root_after demo_requests.

Lemma demo_keys_fit : 0 <= 8 /\ base (Some 8) 65535 + 65535 * 8 <= @page_limit TxnStore.t demo_store demo_laws.
Proof. rewrite demo_limit. by vm_compute. Qed.
Lemma demo_values_fit : 0 <= 40 /\ 4 + 65535 * (8 + 8 + 40) <= @page_limit TxnStore.t demo_store demo_laws.
Proof. rewrite demo_limit. by vm_compute. Qed.

Lemma demo_requests_ok : Forall (request_ok (valid := u64_key) None 40) demo_requests.
Proof.
  unfold demo_requests. apply Forall_app. split.
  - apply Forall_forall. intros r (i & -> & _)%list_elem_of_fmap. split; [apply u64_valid; pose proof (Z.mod_pos_bound (Z.of_nat i * 37) 101 ltac:(lia)); lia|].
    split; [done|]. unfold vlen. rewrite length_replicate. lia.
  - repeat constructor; apply u64_valid; lia.
Qed.
(** Requests that succeed *)
Lemma runs_okay {A} (c : M (txn TxnStore.t) A) t Q v : runs c t Q (intact v) ->
  exists t' a, c t = Ret (t', Okay a) /\ Q t' a.
Proof. intros (t' & [a|e] & E & HQ); [by exists t', a|]. destruct HQ as [(l & ev & Hio) _]. done. Qed.
Lemma ends_okay {A} (c : outcome (txn TxnStore.t * result A StorageError)) t a Q :
  (exists t' a, c = Ret (t', Okay a) /\ Q t' a) -> Q (ends_in t c) (ends_with a c).
Proof. by intros (t' & a' & -> & HQ). Qed.
Definition demo_left : nat := Z.to_nat 100000.
Lemma tree_after rs : (length rs <= 103)%nat -> Forall (request_ok (valid := u64_key) None 40) rs ->
  exists h P, (h < 200)%nat /\ tree_in u64_key u64_cmp (Some 8) None demo_left (txn_after rs) h (root_after rs) (expect_all u64_cmp [] rs).1 P.
Proof.
  intros Hl Hok. assert (Hrun : runs (serve_all (compare (uint 8)) (Some 8) None 200 None rs) empty_txn (fun t' x => exists h P, (h < 200)%nat /\
    tree_in u64_key u64_cmp (Some 8) None demo_left t' h x.1 (expect_all u64_cmp [] rs).1 P) (intact (view_of empty_txn))).
  { eapply runs_weaken; [apply (serve_all_runs (Some 8) None 8 u64_width demo_keys_fit 40 demo_values_fit 200 demo_left rs empty_txn 0 None [] [])| |done].
    - lia.
    - eapply tree_in_weaken; [apply empty_txn_ok|]. unfold demo_left, demo_room. nia.
    - constructor.
    - change (vlen (@nil pair)) with 0. unfold vlen. lia.
    - done.
    - intros t' x (h & P & H1 & H2 & _). exists h, P. split; [lia|done]. }
  exact (ends_okay (demo_run rs) empty_txn (None, []) _ (runs_okay _ _ _ _ Hrun)).
Qed.
Lemma demo_tree : exists h P, (h < 200)%nat /\ tree_in u64_key u64_cmp (Some 8) None demo_left demo_txn h demo_root demo_pairs P.
Proof. apply (tree_after demo_requests); [change (length demo_requests) with 103%nat; lia|exact demo_requests_ok]. Qed.

Definition byteb (b : Z) : bool := (0 <=? b) && (b <? 256).
Lemma checked_bytes (m : gmap PageNumber.t (list Z)) : forallb (fun x => forallb byteb x.2) (map_to_list m) = true -> forall p b, m !! p = Some b -> Forall byte b.
Proof.
  intros Hall p b Hb. rewrite forallb_forall in Hall. specialize (Hall (p, b)). cbn [snd] in Hall. rewrite forallb_forall in Hall.
  apply Forall_forall. intros x Hx%list_elem_of_In. unfold byteb in Hall. unfold byte. enough ((0 <=? x) && (x <? 256) = true) by lia.
  apply Hall; [|done]. by apply list_elem_of_In, elem_of_map_to_list.
Qed.
(** A tree of one leaf *)
Definition leaf_requests : list request := [Insert (u64 1) [1; 2; 3]; Insert (u64 2) [4]; Remove (u64 1)].
Definition leaf_txn : txn TxnStore.t := txn_after leaf_requests.
Definition leaf_root : option BtreeHeader.t := root_after leaf_requests.
Lemma leaf_tree : exists h P, (h < 200)%nat /\ tree_in u64_key u64_cmp (Some 8) None demo_left leaf_txn h leaf_root [(u64 2, [4])] P.
Proof.
  apply (tree_after leaf_requests); [cbn; lia|]. repeat constructor; try (apply u64_valid; lia); done.
Qed.
Lemma leaf_bytes P : bytes_at (view_of leaf_txn) P.
Proof. intros p b _. apply (checked_bytes (TxnStore.data (store leaf_txn))). vm_compute. reflexivity. Qed.
#[global] Opaque txn_after root_after.

(** * The properties *)

Notation map_of L := (list_to_map L : gmap (list Z) (list Z)).

Section properties.
  Context {St : Type} `{LS : PageStoreLaws St}.
  Context {compare valid cmp} `{BO : ByteOrder compare valid cmp} (fk fv : option Z) (kmax : Z).
  Context (Hkey : forall k, valid k -> vlen k <= kmax /\ forall w, fk = Some w -> vlen k = w).
  Context (Hkmax : 0 <= kmax /\ base fk 65535 + 65535 * kmax <= page_limit).

(** C2. A tree serves any sequence of requests like a sorted map.  Inserting, removing,
    looking up and asking for the first and the last pair never panics: the answers
    are those of the sorted list of pairs, the tree that is left is well formed and has
    the pairs of the list, or an operation of the file failed.  No committed page is
    changed, the pages of other trees stay as they are, and every page that the tree gave
    up is free, or in the list of pages to free if it was committed.  The keys and values have
    bounds such that 65535 pairs fit the largest page (a key and its value may take about
    64 KiB together if that is 4 GiB), and the store has room for the pages that the
    requests may allocate. *)
Theorem btree_session vmax fuel n rs t h root L P :
  0 <= vmax /\ 4 + 65535 * (8 + kmax + vmax) <= page_limit ->
  (h + length rs < fuel)%nat -> tree_in valid cmp fk fv (length rs * (3 * (h + length rs) + 3) + n) t h root L P ->
  small kmax vmax L -> vlen L + vlen rs < 2 ^ 64 -> Forall (request_ok (valid := valid) fv vmax) rs ->
  runs (serve_all compare fk fv fuel root rs) t (fun t' x => exists h' P', tree_in valid cmp fk fv n t' h' x.1 (expect_all cmp L rs).1 P' /\
    x.2 = (expect_all cmp L rs).2 /\ evolves (view_of t) (view_of t') (list_to_set P) (list_to_set P')) (intact (view_of t)).
Proof.
  intros Hv Hf Hst Hsm Hlen Hok. eapply runs_weaken; [by apply (serve_all_runs fk fv kmax Hkey Hkmax vmax Hv fuel n rs t h root L P)| |done].
  intros t' x (h' & P' & H1 & _ & H2 & H3). by exists h', P'.
Qed.

(** C3. Inserting a pair.  [BtreeMut::insert] never panics, whatever the sizes of the
    values, as long as no 65535 consecutive pairs exceed the largest page: the tree
    has the pair, the guard has the value that was there before, the height grows by one at
    most, and pages are replaced by copy on write.  The store has room for the pages that the
    insertion may allocate. *)
Theorem btree_insert fuel n t h root L P key value :
  (h < fuel)%nat -> tree_in valid cmp fk fv (2 * h + 3 + n) t h root L P -> valid key -> (forall w, fv = Some w -> vlen value = w) ->
  runs_fit fk fv (kv_insert cmp key value L) -> vlen L < 2 ^ 64 - 1 ->
  runs (BtreeMut.insert compare fk fv fuel root key value) t (fun t' r => exists h' L' P', tree_in valid cmp fk fv n t' h' r.1 L' P' /\
    map_of L' = <[key := value]> (map_of L) /\ guard_is r.2 (map_of L !! key) /\ (h <= h' <= S h)%nat /\
    evolves (view_of t) (view_of t') (list_to_set P) (list_to_set P')) (intact (view_of t)).
Proof.
  intros Hf Hst Hk Hv Hfit Hlen. destruct (tree_in_keys _ _ _ _ _ _ _ _ Hst) as [K1 K2]. destruct (kv_map (cmp := cmp) key value L Hk K1 K2) as (E1 & E2 & _).
  eapply runs_weaken; [by apply (insert_request fk fv kmax Hkey Hkmax n t h root L P)| |done]. intros t' r (h' & P' & H1 & H2 & H3 & H4).
  exists h', (kv_insert cmp key value L), P'. by rewrite E1, E2.
Qed.

(** C4. Removing a key.  [BtreeMut::remove] never panics: its guard has the value that the
    key had, and when the guard is dropped the tree is well formed, has exactly the other pairs and is not
    higher than before; every page it gave up is free, or listed to be freed if it was committed, and no committed page was
    changed.  The store has room for the pages that are written, and no 65535 consecutive pairs may exceed the
    largest page. *)
Theorem btree_remove fuel n t h root L P key :
  (h < fuel)%nat -> tree_in valid cmp fk fv (2 + 3 * h + n) t h root L P -> valid key -> runs_fit fk fv (kv_remove cmp key L) ->
  runs (BtreeMut.remove compare fk fv fuel root key) t (fun t1 r => runs (consume fv r.2) t1 (fun t' w => w = map_of L !! key /\
    exists h' L' P', tree_in valid cmp fk fv n t' h' r.1 L' P' /\ map_of L' = delete key (map_of L) /\ (h' <= h)%nat /\
      evolves (view_of t) (view_of t') (list_to_set P) (list_to_set P')) (intact (view_of t))) (intact (view_of t)).
Proof.
  intros Hf Hst Hk Hfit. destruct (tree_in_keys _ _ _ _ _ _ _ _ Hst) as [K1 K2]. destruct (kv_map (cmp := cmp) key [] L Hk K1 K2) as (E1 & _ & E3).
  eapply runs_weaken; [by apply (remove_request fk fv kmax Hkey Hkmax n t h root L P)| |done]. intros t1 r Hr.
  eapply runs_weaken; [exact Hr| |done]. intros t' w (-> & h' & P' & H1 & H2 & H3). split; [done|]. by exists h', (kv_remove cmp key L), P'.
Qed.

(** C6. Committing a tree.  After [finalize_dirty_checksums] every page of the tree has the
    checksum that its parent has, so that [verify_checksum] accepts it and the pages can be
    committed as they are; the pairs and the pages are the same, only pages of the
    transaction were written. *)
Theorem btree_commit fuel n t h root L P :
  (h < fuel)%nat -> tree_in valid cmp fk fv n t h root L P -> bytes_at (view_of t) P ->
  runs (root ← BtreeMut.finalize_dirty_checksums fk fv fuel root; ok ← RawBtree.verify_checksum fk fv fuel root; mret (root, ok)) t
    (fun t' r => r.2 = true /\ tree_in valid cmp fk fv n t' h r.1 L P /\ btree valid cmp fk fv (sum_ok fk fv) (View (contents (store t')) ∅ []) h r.1 L P /\
      evolves (view_of t) (view_of t') (list_to_set P) (list_to_set P)) (intact (view_of t)).
Proof.
  intros Hf Hst Hby. eapply runs_bind; [apply (finalize_tree_runs fk fv fuel n t (view_of t) h root L P Hf); [by eapply tree_in_shows|apply Hst|apply Hst|done]|].
  intros t1 root1 (v1 & Hs1 & HB1 & He1 & _ & Hby1 & Hsl). eapply runs_weaken with (E1 := intact v1); [|intros ? ? HQ; exact HQ|intros t2; by eapply intact_evolves].
  eapply runs_bind; [by eapply (verify_runs fk fv (sum_ok fk fv) fuel n t1 v1 h root1 L P)|]. intros t2 ok [Hs2 Hok]. apply runs_ret. cbn [fst snd].
  destruct (tree_in_of _ _ _ _ _ _ _ _ _ Hs2 HB1 (st_pages _ _ _ _ _ _ _ _ Hst)) as [Hst2 ->]. split; [apply Hok; by destruct root1|]. split; [done|]. split; [|done].
  destruct root1 as [r|]; [|done]. destruct HB1 as [HT Hl]. split; [|done]. by apply (sealed_commit fk fv (view_of t2) []).
Qed.

(** C32. Verifying a tree.  Whatever checksums the branches have, [verify_checksum] returns true
    exactly if every page of the tree has the checksum that its parent has for it. *)
Theorem btree_verify any fuel n t v h root L P :
  (h < fuel)%nat -> shows ∅ n t v -> btree valid cmp fk fv any v h root L P -> bytes_at v P ->
  runs (RawBtree.verify_checksum fk fv fuel root) t (fun t' b => shows ∅ n t' v /\
    (b = true <-> match root with Some r => sealed fk fv v h (BtreeHeader.root r, BtreeHeader.checksum r) | None => True end)) (intact v).
Proof. apply verify_runs. Qed.

(** C33. Walking over a tree.  [visit_all_pages] visits every page of the tree once, with a
    path that ends at the page, and changes nothing. *)
Theorem btree_visit {B} (f : PagePath.t -> B -> B) fuel n t h root L P b :
  (h < fuel)%nat -> tree_in valid cmp fk fv n t h root L P ->
  runs (BtreeMut.visit_all_pages fk fuel root (fun path b => mret (f path b)) b) t
    (fun t' b' => view_of t' = view_of t /\ exists Q, b' = foldl (fun b path => f path b) b Q /\
      Forall2 (fun path p => exists parents, path = parents ++ [p]) Q P /\ NoDup P) (intact (view_of t)).
Proof.
  intros Hf Hst. eapply runs_weaken; [apply (visit_runs fk fv (sum_ok fk fv) f fuel n t (view_of t) h root L P b Hf); [by eapply tree_in_shows|apply Hst]| |done].
  intros t' b' (Hs & Q & -> & HQ). destruct (shows_of _ _ _ Hs) as (_ & _ & ->). split; [done|]. exists Q. split; [done|]. split; [exact HQ|apply Hst].
Qed.
End properties.

Lemma demo_small : small 8 40 demo_pairs /\ vlen demo_pairs <= 103.
Proof. exact (expect_all_small (Some 8) None 8 u64_width 40 demo_requests [] (List.Forall_nil _) demo_requests_ok). Qed.

Lemma btree_session_witness : exists t' x, serve_all (compare (uint 8)) (Some 8) None 200 None demo_requests empty_txn = Ret (t', Okay x) /\
  x.2 = (expect_all u64_cmp [] demo_requests).2 /\ exists h P, tree_in u64_key u64_cmp (Some 8) None demo_left t' h x.1 demo_pairs P.
Proof.
  destruct (runs_okay _ _ _ _ (btree_session (Some 8) None 8 u64_width demo_keys_fit 40 200 demo_left demo_requests empty_txn 0 None [] [] demo_values_fit
    ltac:(change (length demo_requests) with 103%nat; lia)
    ltac:(eapply tree_in_weaken; [apply empty_txn_ok|]; unfold demo_left, demo_room; change (length demo_requests) with 103%nat; lia)
    ltac:(constructor) ltac:(by vm_compute) demo_requests_ok)) as (t' & x & E & h & P & H1 & H2 & _).
  exists t', x. split; [exact E|]. split; [exact H2|]. exists h, P. exact H1.
Defined.

Lemma btree_insert_witness : exists t' r, BtreeMut.insert (compare (uint 8)) (Some 8) None 200 demo_root (u64 200) [1; 2; 3] demo_txn = Ret (t', Okay r) /\
  exists h L P, tree_in u64_key u64_cmp (Some 8) None 0 t' h r.1 L P /\ map_of L = <[u64 200 := [1; 2; 3]]> (map_of demo_pairs).
Proof.
  destruct demo_tree as (h & P & Hh & HT).
  destruct (runs_okay _ _ _ _ (btree_insert (Some 8) None 8 u64_width demo_keys_fit 200 0 demo_txn h demo_root demo_pairs P (u64 200) [1; 2; 3] Hh
    ltac:(eapply tree_in_weaken; [exact HT|]; unfold demo_left; lia) ltac:(apply u64_valid; lia) ltac:(done)
    ltac:(apply (small_fit (Some 8) None 8 demo_keys_fit 40 demo_values_fit), small_insert; [apply demo_small|by vm_compute..]) ltac:(pose proof (proj2 demo_small); lia)))
    as (t' & r & E & h' & L' & P' & H1 & H2 & _).
  exists t', r. split; [exact E|]. exists h', L', P'. exact (conj H1 H2).
Defined.

Lemma btree_remove_witness : exists t1 r t' w, BtreeMut.remove (compare (uint 8)) (Some 8) None 200 demo_root (u64 37) demo_txn = Ret (t1, Okay r) /\
  consume None r.2 t1 = Ret (t', Okay w) /\ w = map_of demo_pairs !! u64 37 /\
  exists h L P, tree_in u64_key u64_cmp (Some 8) None 0 t' h r.1 L P /\ map_of L = delete (u64 37) (map_of demo_pairs).
Proof.
  destruct demo_tree as (h & P & Hh & HT).
  destruct (runs_okay _ _ _ _ (btree_remove (Some 8) None 8 u64_width demo_keys_fit 200 0 demo_txn h demo_root demo_pairs P (u64 37) Hh
    ltac:(eapply tree_in_weaken; [exact HT|]; unfold demo_left; lia) ltac:(apply u64_valid; lia)
    ltac:(apply (small_fit (Some 8) None 8 demo_keys_fit 40 demo_values_fit), small_remove, (proj1 demo_small)))) as (t1 & r & E & Hr).
  destruct (runs_okay _ _ _ _ Hr) as (t' & w & E' & -> & h' & L' & P' & H1 & H2 & _).
  exists t1, r, t', (map_of demo_pairs !! u64 37). split; [exact E|]. split; [exact E'|]. split; [reflexivity|]. exists h', L', P'. exact (conj H1 H2).
Defined.

Lemma btree_commit_witness : exists t' r h P, (root ← BtreeMut.finalize_dirty_checksums (Some 8) None 200 leaf_root; ok ← RawBtree.verify_checksum (Some 8) None 200 root; mret (root, ok)) leaf_txn =
    Ret (t', Okay (r, true)) /\ btree u64_key u64_cmp (Some 8) None (sum_ok (Some 8) None) (View (contents (store t')) ∅ []) h r [(u64 2, [4])] P.
Proof.
  destruct leaf_tree as (h & P & Hh & HT).
  destruct (runs_okay _ _ _ _ (btree_commit (Some 8) None 200 demo_left leaf_txn h leaf_root [(u64 2, [4])] P Hh HT (leaf_bytes P))) as (t' & [r ok] & E & H1 & _ & H2 & _).
  cbn [fst snd] in *. subst ok. exists t', r, h, P. exact (conj E H2).
Defined.

Lemma btree_verify_witness : exists t' h r, leaf_root = Some r /\ RawBtree.verify_checksum (Some 8) None 200 leaf_root leaf_txn = Ret (t', Okay false) /\
  ~ sealed (Some 8) None (view_of leaf_txn) h (BtreeHeader.root r, BtreeHeader.checksum r).
Proof.
  destruct leaf_tree as (h & P & Hh & HT). pose proof (tree_in_shows _ _ _ _ _ _ _ _ HT) as Hs. pose proof (st_tree _ _ _ _ _ _ _ _ HT) as HB.
  pose proof (btree_verify (Some 8) None (sum_ok (Some 8) None) 200 demo_left leaf_txn (view_of leaf_txn) h leaf_root [(u64 2, [4])] P Hh Hs HB (leaf_bytes P)) as Hrun.
  apply runs_okay in Hrun. destruct Hrun as (t' & b & E & _ & Hb).
  assert (Hf : ends_with true (RawBtree.verify_checksum (Some 8) None 200 leaf_root leaf_txn) = false) by (vm_compute; reflexivity).
  rewrite E in Hf. cbn [ends_with] in Hf. subst b. destruct leaf_root as [r|]; [|exfalso; discriminate (proj2 Hb I)].
  exists t', h, r. split; [reflexivity|]. split; [exact E|]. intros Hx. discriminate (proj2 Hb Hx).
Defined.

Lemma btree_visit_witness : exists t' b, BtreeMut.visit_all_pages (Some 8) 200 demo_root (fun path b => mret (b ++ [path])) [] demo_txn = Ret (t', Okay b) /\
  exists P, Forall2 (fun path p => exists parents, path = parents ++ [p]) b P /\ NoDup P.
Proof.
  destruct demo_tree as (h & P & Hh & HT).
  destruct (runs_okay _ _ _ _ (btree_visit (Some 8) None (fun path b => b ++ [path]) 200 demo_left demo_txn h demo_root demo_pairs P [] Hh HT)) as (t' & b & E & _ & Q & Hb & HQ & Hnd).
  exists t', b. split; [exact E|]. exists P. assert (E2 : forall l0, foldl (fun b path => b ++ [path]) l0 Q = l0 ++ Q).
  { clear. induction Q as [|q Q IH]; intros l0; [by rewrite app_nil_r|]. cbn. by rewrite IH, <-app_assoc. }
  rewrite Hb, (E2 []). exact (conj HQ Hnd).
Defined.
