(* ===== verification/Cursors.v ===== *)
(** Iteration over B-trees: the gap cursor (src/src/tree_store/btree_cursor.rs), the
    double-ended ranges (btree_cursor_range.rs) and the iterator over the page numbers of a
    tree (btree_iters.rs).

    A cursor is changed in place, also by a call that fails: computations on it have it in their
    state.  A call that returns [Some(Err(_))] fails here.  The depth of a descent is
    bounded by fuel. *)
From S2P Require Import Prelude Buddy Pages Header Types KeyOrder Leaf LeafTheorems Branch PageStore Mutator Btrees.
Import MutateHelper (page_impl).

(** A computation that does not touch the cursor *)
Definition in_store {X S A} (c : M (txn S) A) : M (X * txn S) A := fun s => r ← c s.2; Ret ((s.1, r.1), r.2).

Inductive Bound := Included (key : list Z) | Excluded (key : list Z) | Unbounded.

(** * Entries *)

Module EntryGuard.

Record t := new { page : page_impl; key_range : Z * Z; value_range : Z * Z }.
Definition key_bytes (g : t) : outcome (list Z) := slice (page g).2 (key_range g).1 (key_range g).2.
Definition value_bytes (g : t) : outcome (list Z) := slice (page g).2 (value_range g).1 (value_range g).2.

End EntryGuard.

(** * The cursor *)

Inductive Position := Start | End_ | Before (key : list Z) | After (key : list Z).
Inductive Direction := Next | Previous.
Definition is_next (d : Direction) : bool := match d with Next => true | Previous => false end.

Module Cursor.

Record Branch := mk_branch { branch_page : page_impl; child_index : Z }.
Record Leaf := mk_leaf { leaf_page : page_impl; position : Z; len : Z }.
Record t := mk { root : PageNumber.t; path : list Branch; leaf : option Leaf }.
Definition set_path (c : t) (p : list Branch) : t := mk (root c) p (leaf c).
Definition set_leaf (c : t) (l : option Leaf) : t := mk (root c) (path c) l.

Section cursor.
  Context {S : Type} `{PageStore S} (compare : list Z -> list Z -> outcome comparison) (key_width value_width : option Z).

Definition lower_bound_entry (a : LeafAccessor.t) (p : Position) : outcome Z :=
  match p with
  | Start => Ret 0
  | End_ => Ret (LeafAccessor.num_pairs a)
  | Before query => '(position_index, _) ← LeafAccessor.position compare a query; Ret position_index
  | After query =>
      '(position_index, found) ← LeafAccessor.position compare a query;
      if (found : bool) then uadd 64 position_index 1 else Ret position_index
  end.
Definition child_to_visit (a : BranchAccessor.t) (p : Position) : outcome Z :=
  match p with
  | Start => Ret 0
  | End_ => usub (BranchAccessor.count_children a) 1
  | Before query | After query => r ← BranchAccessor.child_for_key compare a query; Ret r.1
  end.

(** The path is the state; branches are pushed on the way down. *)
Definition push_branch (b : Branch) : M (list Branch * txn S) unit := modify (fun s => (s.1 ++ [b], s.2)).
Fixpoint descend_to_position (fuel : nat) (page : page_impl) (p : Position) : M (list Branch * txn S) Leaf :=
  match fuel with
  | O => lift Panic
  | Datatypes.S f =>
      kind ← lift (vget page.2 0);
      if kind =? LEAF then
        a ← lift (LeafAccessor.new page.2 key_width value_width);
        i ← lift (lower_bound_entry a p);
        mret (mk_leaf page i (LeafAccessor.num_pairs a))
      else if kind =? BRANCH then
        a ← lift (BranchAccessor.new page.2 key_width);
        i ← lift (child_to_visit a p);
        child_page ← lift (expect (BranchAccessor.child_page a i));
        _ ← push_branch (mk_branch page i);
        child ← in_store (MutateHelper.read child_page);
        descend_to_position f child p
      else lift Panic
  end.

(** The child of a branch that is next in a direction *)
Definition next_child (d : Direction) (frame : Branch) : outcome (option (Z * PageNumber.t)) :=
  a ← BranchAccessor.new (branch_page frame).2 key_width;
  match d with
  | Next =>
      i ← uadd 64 (child_index frame) 1;
      if i <? BranchAccessor.count_children a then p ← expect (BranchAccessor.child_page a i); Ret (Some (i, p)) else Ret None
  | Previous =>
      if child_index frame <? 1 then Ret None
      else let i := child_index frame - 1 in p ← expect (BranchAccessor.child_page a i); Ret (Some (i, p))
  end.
(** The loop over the path, from the branch before [index] up *)
Fixpoint adjacent_loop (fuel : nat) (d : Direction) (index : nat) : M (list Branch * txn S) (option Leaf) :=
  match index with
  | O => mret None
  | Datatypes.S index =>
      path ← gets fst;
      frame ← lift (vget path (Z.of_nat index));
      next ← lift (next_child d frame);
      match next with
      | Some (i, child_page) =>
          _ ← modify (fun s => (take index path ++ [mk_branch (branch_page frame) i], s.2));
          page ← in_store (MutateHelper.read child_page);
          leaf ← descend_to_position fuel page (if is_next d then Start else End_);
          mret (Some leaf)
      | None => adjacent_loop fuel d index
      end
  end.
Definition move_to_adjacent_leaf (fuel : nat) (d : Direction) : M (list Branch * txn S) (option Leaf) :=
  path ← gets fst; adjacent_loop fuel d (length path).

(** The cursor is the state. *)
Definition on_path {A} (c : M (list Branch * txn S) A) : M (t * txn S) A := fun s =>
  r ← c (path s.1, s.2); Ret ((set_path s.1 r.1.1, r.1.2), r.2).
Definition put_leaf (l : Leaf) : M (t * txn S) unit := modify (fun s => (set_leaf s.1 (Some l), s.2)).

Definition new (root : PageNumber.t) : t := mk root [] None.
Definition seek_to (fuel : nat) (p : Position) : M (t * txn S) unit :=
  _ ← modify (fun s => (set_path s.1 [], s.2));
  c ← gets fst;
  root_page ← in_store (MutateHelper.read (root c));
  leaf ← on_path (descend_to_position fuel root_page p);
  put_leaf leaf.

(** [prepare_leaf]; [n] bounds the number of leaves it looks at *)
Fixpoint prepare_leaf (n fuel : nat) (d : Direction) : M (t * txn S) bool :=
  match n with
  | O => lift Panic
  | Datatypes.S n =>
      c ← gets fst;
      match leaf c with
      | None => mret false
      | Some current =>
          if (is_next d && (position current <? len current)) || (negb (is_next d) && (0 <? position current)) then mret true
          else
            next_leaf ← on_path (move_to_adjacent_leaf fuel d);
            match next_leaf with
            | None => mret false
            | Some l => _ ← put_leaf l; prepare_leaf n fuel d
            end
      end
  end.
Definition ensure_has_entry (fuel : nat) (d : Direction) : M (t * txn S) bool := prepare_leaf (Datatypes.S fuel) fuel d.
Definition normalize_forward_gap (fuel : nat) : M (t * txn S) unit :=
  c ← gets fst;
  match leaf c with
  | Some l =>
      if position l =? len l then
        next_leaf ← on_path (move_to_adjacent_leaf fuel Next);
        match next_leaf with Some l => put_leaf l | None => mret tt end
      else mret tt
  | None => mret tt
  end.

Definition entry (l : Leaf) (i : Z) : outcome EntryGuard.t :=
  a ← LeafAccessor.new (leaf_page l).2 key_width value_width;
  '(key, value) ← expect (LeafAccessor.entry_ranges a i);
  Ret (EntryGuard.new (leaf_page l) key value).
Definition next (fuel : nat) : M (t * txn S) (option EntryGuard.t) :=
  has ← ensure_has_entry fuel Next;
  if (has : bool) then
    c ← gets fst;
    l ← lift (unwrap (leaf c));
    p ← lift (uadd 64 (position l) 1);
    _ ← put_leaf (mk_leaf (leaf_page l) p (len l));
    e ← lift (entry l (position l));
    mret (Some e)
  else mret None.
Definition prev (fuel : nat) : M (t * txn S) (option EntryGuard.t) :=
  has ← ensure_has_entry fuel Previous;
  if (has : bool) then
    c ← gets fst;
    l ← lift (unwrap (leaf c));
    p ← lift (usub (position l) 1);
    _ ← put_leaf (mk_leaf (leaf_page l) p (len l));
    e ← lift (entry l p);
    mret (Some e)
  else mret None.

(** The first difference of two paths *)
Fixpoint compare_paths (p q : list Branch) : outcome comparison :=
  match p, q with
  | f :: p, g :: q => match child_index f ?= child_index g with Eq => compare_paths p q | c => Ret c end
  | _, _ => Panic
  end.
Definition compare_position (c other : t) : outcome comparison :=
  l ← unwrap (leaf c);
  m ← unwrap (leaf other);
  if bool_decide ((leaf_page l).1 = (leaf_page m).1) then Ret (position l ?= position m)
  else
    _ ← rassert (vlen (path c) =? vlen (path other));
    compare_paths (path c) (path other).

End cursor.

End Cursor.

(** * Ranges *)

Section range_is_empty.
  Context (compare : list Z -> list Z -> outcome comparison).

Definition range_is_empty (lower upper : Bound) : outcome bool :=
  match lower, upper with
  | Unbounded, _ | _, Unbounded => Ret false
  | Included start, Excluded end_ | Excluded start, Included end_ | Excluded start, Excluded end_ =>
      c ← compare start end_; Ret (match c with Lt => false | _ => true end)
  | Included start, Included end_ => c ← compare start end_; Ret (match c with Gt => true | _ => false end)
  end.

End range_is_empty.

Inductive Slot := Uninitialized | Active (c : Cursor.t) | Exhausted.
Definition active (s : Slot) : option Cursor.t := match s with Active c => Some c | Uninitialized | Exhausted => None end.
Definition is_uninitialized (s : Slot) : bool := match s with Uninitialized => true | _ => false end.
Inductive Side := Front | Back.

Module BtreeCursorRange.

Record t := mk { root : option PageNumber.t; lower_bound : Bound; upper_bound : Bound; front : Slot; back : Slot }.

Definition slot (r : t) (side : Side) : Slot := match side with Front => front r | Back => back r end.
Definition set_slot (r : t) (side : Side) (s : Slot) : t :=
  match side with
  | Front => mk (root r) (lower_bound r) (upper_bound r) s (back r)
  | Back => mk (root r) (lower_bound r) (upper_bound r) (front r) s
  end.
Definition opposite_slot (r : t) (side : Side) : Slot := match side with Front => back r | Back => front r end.

Section range.
  Context {S : Type} `{PageStore S} (compare : list Z -> list Z -> outcome comparison) (key_width value_width : option Z).

Definition empty : t := mk None Unbounded Unbounded Exhausted Exhausted.
Definition new (lower upper : Bound) (table_root : option PageNumber.t) : outcome t :=
  match table_root with
  | None => Ret empty
  | Some _ =>
      e ← range_is_empty compare lower upper;
      if (e : bool) then Ret empty else Ret (mk table_root lower upper Uninitialized Uninitialized)
  end.
Definition closed (r : t) : t := mk None (lower_bound r) (upper_bound r) Exhausted Exhausted.
Definition close : M (t * txn S) unit := modify (fun s => (closed s.1, s.2)).

(** The cursor of a side runs; what is there when it fails is kept. *)
Definition on_cursor {A} (side : Side) (c : M (Cursor.t * txn S) A) : M (t * txn S) A := fun s =>
  cursor ← unwrap (active (slot s.1 side));
  r ← c (cursor, s.2);
  Ret ((set_slot s.1 side (Active r.1.1), r.1.2), r.2).

Definition side_position (r : t) (side : Side) : Position :=
  match side with
  | Front => match lower_bound r with Included key => Before key | Excluded key => After key | Unbounded => Start end
  | Back => match upper_bound r with Included key => After key | Excluded key => Before key | Unbounded => End_ end
  end.
(** A new cursor is lost if it fails. *)
Definition initialize_side (fuel : nat) (side : Side) : M (t * txn S) unit := fun s =>
  _ ← rassert (is_uninitialized (slot s.1 side));
  root ← unwrap (root s.1);
  r ← Cursor.seek_to compare key_width value_width fuel (side_position s.1 side) (Cursor.new root, s.2);
  match r.2 with
  | Okay _ => Ret ((set_slot s.1 side (Active r.1.1), r.1.2), Okay tt)
  | Err e => Ret ((s.1, r.1.2), Err e)
  end.
Definition prepare (fuel : nat) (side : Side) : M (t * txn S) bool :=
  r ← gets fst;
  _ ← (if is_uninitialized (slot r side) then initialize_side fuel side else mret tt);
  gets (fun s => match active (slot s.1 side) with Some _ => true | None => false end).

Definition cursors_have_remaining (fuel : nat) : M (t * txn S) bool :=
  r ← gets fst;
  _ ← match front r, back r with
    | Active _, Active _ => on_cursor Front (Cursor.normalize_forward_gap compare key_width value_width fuel)
    | _, _ => mret tt
    end;
  r ← gets fst;
  match front r, back r with
  | Active front, Active back => c ← lift (Cursor.compare_position front back); mret (match c with Lt => true | _ => false end)
  | Exhausted, _ | _, Exhausted => mret false
  | Uninitialized, _ | _, Uninitialized => mret true
  end.
Definition advance_cursor (fuel : nat) (side : Side) : M (t * txn S) (option EntryGuard.t) :=
  match side with
  | Front => on_cursor Front (Cursor.next compare key_width value_width fuel)
  | Back => on_cursor Back (Cursor.prev compare key_width value_width fuel)
  end.
Definition entry_within_open_bound (r : t) (entry : EntryGuard.t) (side : Side) : outcome bool :=
  key ← EntryGuard.key_bytes entry;
  match side with
  | Front =>
      match upper_bound r with
      | Included bound => c ← compare key bound; Ret (match c with Gt => false | _ => true end)
      | Excluded bound => c ← compare key bound; Ret (match c with Lt => true | _ => false end)
      | Unbounded => Ret true
      end
  | Back =>
      match lower_bound r with
      | Included bound => c ← compare key bound; Ret (match c with Lt => false | _ => true end)
      | Excluded bound => c ← compare key bound; Ret (match c with Gt => true | _ => false end)
      | Unbounded => Ret true
      end
  end.
Definition next_from (fuel : nat) (side : Side) : M (t * txn S) (option EntryGuard.t) :=
  ready ← prepare fuel side;
  if (ready : bool) then
    remaining ← cursors_have_remaining fuel;
    if (remaining : bool) then
      next ← advance_cursor fuel side;
      match next with
      | Some entry =>
          r ← gets fst;
          within ← (if is_uninitialized (opposite_slot r side) then lift (entry_within_open_bound r entry side) else mret true);
          if (within : bool) then mret (Some entry) else _ ← close; mret None
      | None => _ ← close; mret None
      end
    else _ ← close; mret None
  else mret None.

End range.

End BtreeCursorRange.

(** * The page numbers of a tree *)

Module AllPageNumbersBtreeIter.

(** [pending] is a stack with its top at the end. *)
Record t := mk { pending : list PageNumber.t }.

Section iterator.
  Context {S : Type} `{PageStore S} (fixed_key_size : option Z).

Definition new (root : PageNumber.t) : t := mk [root].
Definition push_child (a : BranchAccessor.t) (child : Z) : M (t * txn S) unit :=
  p ← lift (expect (BranchAccessor.child_page a child));
  modify (fun s => (mk (pending s.1 ++ [p]), s.2)).
Definition next : M (t * txn S) (option PageNumber.t) :=
  stack ← gets (fun s => pending s.1);
  match last stack with
  | None => mret None
  | Some page_number =>
      _ ← modify (fun s => (mk (take (length stack - 1) stack), s.2));
      page ← in_store (MutateHelper.read page_number);
      kind ← lift (vget page.2 0);
      if kind =? LEAF then mret (Some page_number)
      else if kind =? BRANCH then
        a ← lift (BranchAccessor.new page.2 fixed_key_size);
        _ ← for_each_m (fun child (_ : unit) => push_child a child) (reverse (seqZ 0 (BranchAccessor.count_children a))) tt;
        mret (Some page_number)
      else lift Panic
  end.

End iterator.

End AllPageNumbersBtreeIter.

(** * Iterators of a tree *)

Section trees.
  Context {S : Type} `{PageStore S} (compare : list Z -> list Z -> outcome comparison) (key_width : option Z).

(** [Btree::range] and [BtreeMut::range] *)
Definition range (tree : Btree.t) (lower upper : Bound) : outcome BtreeCursorRange.t :=
  BtreeCursorRange.new compare lower upper (BtreeHeader.root <$> Btree.root tree).
Definition range_mut (root : option BtreeHeader.t) (lower upper : Bound) : M (txn S) BtreeCursorRange.t :=
  tree ← Btree.new root;
  lift (range tree lower upper).
Definition all_pages_iter (root : option BtreeHeader.t) : option AllPageNumbersBtreeIter.t := (fun r => AllPageNumbersBtreeIter.new (BtreeHeader.root r)) <$> root.

End trees.
