(* ===== verification/Gaps.v ===== *)
(** Gaps between the pairs of a B-tree, and what the cursor of
    src/src/tree_store/btree_cursor.rs does with them: the descent to a position, the
    steps between leaves and the comparison of cursors. *)
From S2P Require Import Prelude Buddy Pages Header Types KeyOrder Leaf LeafTheorems Branch PageStore Mutator Trees Building Insertion Cursors.
Import MutateHelper (page_impl).

(** * Children of a forest *)

Section children.
  Context {compare valid cmp} `{BO : ByteOrder compare valid cmp} (T : below_child).
  Notation prefix := (prefix valid T).
  Notation suffix := (suffix valid T).
  Notation forest := (forest valid T).

Lemma prefix_extend lo lo' k cs c ks L P Lc Pc : prefix lo lo' cs ks L P -> T lo' (Some k) c Lc Pc -> valid k -> prefix lo (Some k) (cs ++ [c]) (ks ++ [k]) (L ++ Lc) (P ++ Pc).
Proof.
  induction 1 as [lo|lo k1 lo' c1 cs ks L1 L2 P1 P2 HT Hk HP IH]; intros Hc Hv; cbn [app].
  - rewrite <-(app_nil_r Lc), <-(app_nil_r Pc). constructor; [done|done|constructor].
  - rewrite <-!app_assoc. constructor; auto.
Qed.
(** The next child and the previous one *)
Lemma focus_next lo lo' hi' hi C1 c d C2 K1 K2 La Lc Lb Pa Pc Pb : prefix lo lo' C1 K1 La Pa -> T lo' hi' c Lc Pc -> suffix hi' hi (d :: C2) K2 Lb Pb ->
  exists k K2' hi2 Ld Lb' Pd Pb', K2 = k :: K2' /\ prefix lo (Some k) (C1 ++ [c]) (K1 ++ [k]) (La ++ Lc) (Pa ++ Pc) /\ T (Some k) hi2 d Ld Pd /\ suffix hi2 hi C2 K2' Lb' Pb' /\
    Lb = Ld ++ Lb' /\ Pb = Pd ++ Pb'.
Proof.
  intros H1 H2 H3. inversion H3 as [|k ? ? ks ? ? Hk HF]; subst. inversion HF as [? ? ? ? ? HT|? k2 ? ? ? ks2 L1 L2 P1 P2 HT Hk2 HF2]; subst.
  - exists k, [], hi, Lb, [], Pb, []. rewrite !app_nil_r. split; [done|]. split; [by eapply prefix_extend|]. split; [done|]. split; [constructor|done].
  - exists k, (k2 :: ks2), (Some k2), L1, L2, P1, P2. split; [done|]. split; [by eapply prefix_extend|]. split; [done|]. split; [by constructor|done].
Qed.
Lemma focus_prev lo lo' hi' hi C1 d c C2 K1 K2 La Lc Lb Pa Pc Pb : prefix lo lo' (C1 ++ [d]) K1 La Pa -> T lo' hi' c Lc Pc -> suffix hi' hi C2 K2 Lb Pb ->
  exists k K1' lo2 La' Ld Pa' Pd, K1 = K1' ++ [k] /\ prefix lo lo2 C1 K1' La' Pa' /\ T lo2 (Some k) d Ld Pd /\ suffix (Some k) hi (c :: C2) (k :: K2) (Lc ++ Lb) (Pc ++ Pb) /\
    La = La' ++ Ld /\ Pa = Pa' ++ Pd.
Proof.
  intros H1 H2 H3. pose proof (prefix_length _ _ _ _ _ _ _ H1) as Hlen. rewrite length_app in Hlen. simpl in Hlen. destruct K1 as [|k K1 _] using rev_ind; [simpl in Hlen; lia|].
  destruct (prefix_snoc _ _ _ _ _ _ _ _ _ H1) as (lo2 & L1 & L2 & P1 & P2 & F1 & F2 & Hk & -> & -> & ->). exists k, K1, lo2, L1, L2, P1, P2. split; [done|]. split; [done|]. split; [done|].
  split; [|done]. constructor; [done|]. by eapply forest_suffix.
Qed.

(** The pairs and pages are determined by the children. *)
Context (Tuniq : forall lo hi c L P lo2 hi2 L2 P2, T lo hi c L P -> T lo2 hi2 c L2 P2 -> L = L2 /\ P = P2).
Lemma forest_unique lo hi cs ks L P : forest lo hi cs ks L P -> forall lo2 hi2 ks2 L2 P2, forest lo2 hi2 cs ks2 L2 P2 -> L = L2 /\ P = P2.
Proof.
  induction 1 as [lo hi c L P HT|lo k hi c cs ks La Lb Pa Pb HT Hk HF IH]; intros lo2 hi2 ks2 L2 P2 H2.
  - inversion H2 as [? ? ? ? ? HT2|? ? ? ? ? ? ? ? ? ? HT2 Hk2 HF2]; subst; [by eapply Tuniq|]. apply forest_length in HF2. done.
  - inversion H2 as [? ? ? ? ? HT2|? ? ? ? ? ? ? ? ? ? HT2 Hk2 HF2]; subst; [apply forest_length in HF; done|].
    destruct (Tuniq _ _ _ _ _ _ _ _ _ HT HT2) as [-> ->]. by destruct (IH _ _ _ _ _ HF2) as [-> ->].
Qed.
Lemma prefix_unique lo lo' cs ks L P : prefix lo lo' cs ks L P -> forall lo2 lo2' ks2 L2 P2, prefix lo2 lo2' cs ks2 L2 P2 -> L = L2 /\ P = P2.
Proof.
  induction 1 as [lo|lo k lo' c cs ks La Lb Pa Pb HT Hk HF IH]; intros lo2 lo2' ks2 L2 P2 H2; inversion H2 as [|? ? ? ? ? ? ? ? ? ? HT2 Hk2 HF2]; subst; [done|].
  destruct (Tuniq _ _ _ _ _ _ _ _ _ HT HT2) as [-> ->]. by destruct (IH _ _ _ _ _ HF2) as [-> ->].
Qed.
(** A longer prefix has the shorter one and the child after it. *)
Lemma prefix_app_inv lo lo' C1 c C2 ks L P : prefix lo lo' (C1 ++ c :: C2) ks L P ->
  exists lo1 hi1 lo2 K1 K2 La Lc Lb Pa Pc Pb, prefix lo lo1 C1 K1 La Pa /\ T lo1 hi1 c Lc Pc /\ prefix lo2 lo' C2 K2 Lb Pb /\ L = La ++ Lc ++ Lb /\ P = Pa ++ Pc ++ Pb.
Proof.
  revert lo ks L P. induction C1 as [|c1 C1 IH]; intros lo ks L P HP; cbn [app] in HP; inversion HP as [|? k ? ? ? ? L1 L2 P1 P2 HT Hk HP']; subst.
  - exists lo, (Some k), (Some k), [], ks0, [], L1, L2, [], P1, P2. split; [constructor|done].
  - destruct (IH _ _ _ _ HP') as (lo1 & hi1 & lo2 & K1 & K2 & La & Lc & Lb & Pa & Pc & Pb & F1 & F2 & F3 & -> & ->).
    exists lo1, hi1, lo2, (k :: K1), K2, (L1 ++ La), Lc, Lb, (P1 ++ Pa), Pc, Pb. rewrite <-!app_assoc. split; [by constructor|done].
Qed.
End children.

(** * Pages determine trees *)

Section unique.
  Context {compare valid cmp} `{BO : ByteOrder compare valid cmp} (fk fv : option Z) (good : list Z -> Z -> Prop).
  Notation tree := (tree valid cmp fk fv good).

Lemma is_leaf_unique page L L2 : is_leaf fk fv page L -> is_leaf fk fv page L2 -> L = L2.
Proof.
  intros (pad & slack & E & Hok & _) (pad2 & slack2 & E2 & Hok2 & _). assert (Ea : accessor_of fk fv pad L slack = accessor_of fk fv pad2 L2 slack2).
  { pose proof (leaf_accessor fk fv pad L slack Hok) as A1. pose proof (leaf_accessor fk fv pad2 L2 slack2 Hok2) as A2. rewrite <-E in A1. rewrite <-E2 in A2. congruence. }
  pose proof (f_equal LeafAccessor.num_pairs Ea) as Hn. cbn in Hn. apply list_eq. intros i. destruct (L !! i) as [[k w]|] eqn:E1, (L2 !! i) as [[k2 w2]|] eqn:E3; [| | |done].
  - pose proof (entry_ok fk fv pad L slack Hok i k w E1) as H1. rewrite Ea, (entry_ok fk fv pad2 L2 slack2 Hok2 i k2 w2 E3) in H1. congruence.
  - apply lookup_lt_Some in E1. apply lookup_ge_None in E3. unfold vlen in Hn. lia.
  - apply lookup_lt_Some in E3. apply lookup_ge_None in E1. unfold vlen in Hn. lia.
Qed.
Lemma is_branch_unique page cs ks cs2 ks2 : is_branch fk page cs ks -> is_branch fk page cs2 ks2 -> cs = cs2 /\ ks = ks2.
Proof.
  intros (pad & pad4 & slack & Hp & E & Hok) (pad2 & pad42 & slack2 & Hp2 & E2 & Hok2). assert (Ea : branch_accessor_of fk pad pad4 cs ks slack = branch_accessor_of fk pad2 pad42 cs2 ks2 slack2).
  { pose proof (branch_accessor fk pad pad4 cs ks slack Hok) as A1. pose proof (branch_accessor fk pad2 pad42 cs2 ks2 slack2 Hok2) as A2. rewrite <-E in A1. rewrite <-E2 in A2. congruence. }
  pose proof (f_equal BranchAccessor.num_keys Ea) as Hn. cbn in Hn. unfold vlen in Hn. pose proof (branch_children _ _ _ Hok) as L1. pose proof (branch_children _ _ _ Hok2) as L2. unfold vlen in L1, L2. split; apply list_eq; intros i.
  - destruct (cs !! i) as [[p x]|] eqn:E1, (cs2 !! i) as [[p2 x2]|] eqn:E3; [| | |done].
    + pose proof (child_page_ok fk pad pad4 cs ks slack Hok Hp i _ E1) as H1. rewrite Ea, (child_page_ok fk pad2 pad42 cs2 ks2 slack2 Hok2 Hp2 i _ E3) in H1.
      pose proof (child_checksum_ok fk pad pad4 cs ks slack Hok Hp i _ E1) as H2. rewrite Ea, (child_checksum_ok fk pad2 pad42 cs2 ks2 slack2 Hok2 Hp2 i _ E3) in H2. cbn in H1, H2. congruence.
    + apply lookup_lt_Some in E1. apply lookup_ge_None in E3. lia.
    + apply lookup_lt_Some in E3. apply lookup_ge_None in E1. lia.
  - destruct (ks !! i) as [k|] eqn:E1, (ks2 !! i) as [k2|] eqn:E3; [| | |done].
    + pose proof (branch_key_ok fk pad pad4 cs ks slack Hok Hp i _ E1) as H1. rewrite Ea, (branch_key_ok fk pad2 pad42 cs2 ks2 slack2 Hok2 Hp2 i _ E3) in H1. congruence.
    + apply lookup_lt_Some in E1. apply lookup_ge_None in E3. lia.
    + apply lookup_lt_Some in E3. apply lookup_ge_None in E1. lia.
Qed.
Lemma tree_unique v h : forall lo hi c L P lo2 hi2 L2 P2, tree v h lo hi c L P -> tree v h lo2 hi2 c L2 P2 -> L = L2 /\ P = P2.
Proof.
  induction h as [|h IH]; intros lo hi c L P lo2 hi2 L2 P2.
  - intros (page & N1 & ->) (page2 & N2 & ->). pose proof (ln_page N1) as E. rewrite (ln_page N2) in E. injection E as ->. split; [|done]. eapply is_leaf_unique; [apply N1|apply N2].
  - intros (page & cs & ks & P' & N1 & F1 & ->) (page2 & cs2 & ks2 & P2' & N2 & F2 & ->). pose proof (bn_page N1) as E. rewrite (bn_page N2) in E. injection E as ->.
    destruct (is_branch_unique _ _ _ _ _ (bn_branch N1) (bn_branch N2)) as [-> ->]. destruct (forest_unique _ IH _ _ _ _ _ _ F1 _ _ _ _ _ F2) as [-> ->]. done.
Qed.
End unique.

(** * Positions *)

Section rank.
  Context {compare valid cmp} `{BO : ByteOrder compare valid cmp}.

(** The key is before the position. *)
Definition goes_before (p : Position) (k : list Z) : bool :=
  match p with
  | Start => false
  | End_ => true
  | Before q => match cmp k q with Lt => true | _ => false end
  | After q => match cmp k q with Gt => false | _ => true end
  end.
(** The number of pairs before the position *)
Definition rank (p : Position) (L : list pair) : Z := vlen (filter (fun x => goes_before p x.1 = true) L).
Definition position_ok (p : Position) : Prop := match p with Before q | After q => valid q | _ => True end.
Definition position_in (lo hi : bound) (p : Position) : Prop := match p with Before q | After q => in_range cmp lo hi q | _ => True end.

Lemma rank_app p A B : rank p (A ++ B) = rank p A + rank p B.
Proof. unfold rank. rewrite filter_app. apply vlen_app. Qed.
Lemma rank_all p L : Forall (fun k => goes_before p k = true) (keys_of L) -> rank p L = vlen L.
Proof.
  unfold rank. induction L as [|x L IH]; [done|]. intros [Hx HL]%Forall_cons. rewrite filter_cons_True by done. specialize (IH HL). unfold vlen in *. cbn [length]. lia.
Qed.
Lemma rank_none p L : Forall (fun k => goes_before p k = false) (keys_of L) -> rank p L = 0.
Proof. unfold rank. induction L as [|x L IH]; [done|]. intros [Hx HL]%Forall_cons. cbn in Hx. rewrite filter_cons_False by congruence. by apply IH. Qed.
Lemma rank_start L : rank Start L = 0.
Proof. apply rank_none, Forall_forall. done. Qed.
Lemma rank_end L : rank End_ L = vlen L.
Proof. apply rank_all, Forall_forall. done. Qed.
Lemma rank_bounds p L : 0 <= rank p L <= vlen L.
Proof. unfold rank. split; [apply vlen_nonneg|]. unfold vlen. pose proof (length_filter (fun x : pair => goes_before p x.1 = true) L). lia. Qed.

(** The position in a leaf *)
Lemma rank_key (p : Position) q P1 P2 : p = Before q \/ p = After q -> valid q -> Forall valid (keys_of (P1 ++ P2)) -> below cmp q (keys_of P1) -> above cmp q (keys_of P2) -> rank p (P1 ++ P2) = vlen P1.
Proof using BO.
  intros Hp Hq Hv H1 H2. rewrite keys_app, Forall_app in Hv. destruct Hv as [V1 V2]. rewrite rank_app, rank_all, rank_none; [lia|..].
  - unfold above in H2. rewrite Forall_forall in *. intros k Hk. specialize (H2 k Hk). assert (E : cmp k q = Gt) by (rewrite (@bo_opp _ _ _ BO q k), H2; auto). destruct Hp as [-> | ->]; cbn; by rewrite E.
  - unfold below in H1. rewrite Forall_forall in *. intros k Hk. specialize (H1 k Hk). destruct Hp as [-> | ->]; cbn; by rewrite H1.
Qed.
Lemma rank_found q w P1 P3 : valid q -> Forall valid (keys_of (P1 ++ (q, w) :: P3)) -> below cmp q (keys_of P1) -> above cmp q (keys_of P3) ->
  rank (Before q) (P1 ++ (q, w) :: P3) = vlen P1 /\ rank (After q) (P1 ++ (q, w) :: P3) = vlen P1 + 1.
Proof using BO.
  intros Hq Hv H1 H2. rewrite keys_app, Forall_app in Hv. destruct Hv as [V1 [_ V3]%Forall_cons]. assert (Hr : forall p, p = Before q \/ p = After q -> rank p P1 = vlen P1 /\ rank p P3 = 0).
  { intros p Hp. pose proof (rank_key p q P1 [] Hp Hq) as R1. pose proof (rank_key p q [] P3 Hp Hq) as R3. rewrite app_nil_r in R1. split; [apply R1; [done|done|constructor]|apply R3; [done|constructor|done]]. }
  change ((q, w) :: P3) with ([(q, w)] ++ P3). rewrite !rank_app. destruct (Hr (Before q)) as [-> ->]; [by left|]. destruct (Hr (After q)) as [-> ->]; [by right|].
  unfold rank. split.
  - rewrite filter_cons_False by (cbn; by rewrite (cmp_refl (cmp := cmp))). rewrite filter_nil. change (vlen (@nil pair)) with 0. lia.
  - rewrite filter_cons_True by (cbn; by rewrite (cmp_refl (cmp := cmp))). rewrite filter_nil. change (vlen [(q, w)]) with 1. lia.
Qed.
(** The position in a child *)
Lemma rank_focus (T : below_child) (HT : forall lo hi c L P, T lo hi c L P -> pairs_ok valid cmp lo hi L) lo lo' hi' hi C1 K1 La Pa C2 K2 Lb Pb Lc p q :
  p = Before q \/ p = After q -> valid q -> prefix valid T lo lo' C1 K1 La Pa -> suffix valid T hi' hi C2 K2 Lb Pb -> bound_ok valid lo -> bound_ok valid hi ->
  in_range cmp lo' hi' q -> rank p (La ++ Lc ++ Lb) = vlen La + rank p Lc.
Proof using BO.
  intros Hp Hq H1 H2 Hlo Hhi [Hq1 Hq2]. destruct (prefix_ok _ HT _ _ _ _ _ _ H1 Hlo) as (B1 & V1 & _ & R1). destruct (suffix_ok _ HT _ _ _ _ _ _ H2 Hhi) as (B2 & V2 & R2 & _).
  rewrite !rank_app, (rank_all p La), (rank_none p Lb); [lia|..]; rewrite Forall_forall in *.
  - intros k Hk. destruct (R2 k Hk) as (h & -> & Hl). cbn in Hq2. assert (E : cmp k q = Gt).
    { rewrite (@bo_opp _ _ _ BO q k) by auto. by rewrite (cmp_le_lt (cmp := cmp) q h k) by auto. }
    destruct Hp as [-> | ->]; cbn; by rewrite E.
  - intros k Hk. destruct (R1 k Hk) as (l & -> & Hl). cbn in Hq1. assert (E : cmp k q = Lt) by (apply (cmp_le_lt (cmp := cmp) k l q); auto). destruct Hp as [-> | ->]; cbn; by rewrite E.
Qed.
End rank.
#[global] Arguments rank cmp p L : clear implicits.
#[global] Arguments goes_before cmp p k : clear implicits.
#[global] Arguments position_ok valid p : clear implicits.
#[global] Arguments position_in cmp lo hi p : clear implicits.

(** * Gaps *)

Section gap.
  Context {compare valid cmp} `{BO : ByteOrder compare valid cmp} (fk fv : option Z) (good : list Z -> Z -> Prop).
  Notation tree := (tree valid cmp fk fv good).

(** The child [d] of the branch [c], the children and pairs before it and after it *)
Definition focus (v : view) (h : nat) (c : child) (L : list pair) (P : list PageNumber.t) (mem : list Z) (C1 : list child) (d : child) (C2 : list child)
    (La Lc Lb : list pair) (Pa Pc Pb : list PageNumber.t) : Prop :=
  exists lo hi lo' hi' K1 K2, branch_node fk good v c (C1 ++ d :: C2) (K1 ++ K2) (Pa ++ Pc ++ Pb) mem /\ length C1 = length K1 /\
    prefix valid (tree v h) lo lo' C1 K1 La Pa /\ tree v h lo' hi' d Lc Pc /\ suffix valid (tree v h) hi' hi C2 K2 Lb Pb /\
    L = La ++ Lc ++ Lb /\ P = c.1 :: Pa ++ Pc ++ Pb.
(** The gap before the pair [i] of the tree below [c]: the branches on the way to it, and its leaf *)
Fixpoint gap (v : view) (h : nat) (c : child) (L : list pair) (P : list PageNumber.t) (path : list Cursor.Branch) (leaf : Cursor.Leaf) (i : Z) : Prop :=
  match h with
  | O => exists lo hi page, leaf_node valid cmp fk fv good v lo hi c L page /\ P = [c.1] /\ path = [] /\ leaf = Cursor.mk_leaf (c.1, page) i (vlen L) /\ 0 <= i <= vlen L
  | S h => exists mem C1 d C2 La Lc Lb Pa Pc Pb path' i', focus v h c L P mem C1 d C2 La Lc Lb Pa Pc Pb /\ path = Cursor.mk_branch (c.1, mem) (vlen C1) :: path' /\
      gap v h d Lc Pc path' leaf i' /\ i = vlen La + i'
  end.

Lemma focus_tree v h c L P mem C1 d C2 La Lc Lb Pa Pc Pb : focus v h c L P mem C1 d C2 La Lc Lb Pa Pc Pb -> exists lo hi, tree v h lo hi d Lc Pc.
Proof. intros (lo & hi & lo' & hi' & K1 & K2 & _ & _ & _ & HT & _). by exists lo', hi'. Qed.
Lemma tree_some v h lo hi c L P : tree v h lo hi c L P -> 0 < vlen L.
Proof using BO. intros HT. destruct (tree_pairs fk fv good v h _ _ _ _ _ HT) as [_ _ Hn _ _ _]. unfold vlen. destruct L; [done|]. cbn [length]. lia. Qed.
(** The branch page *)
Lemma focus_page v h c L P mem C1 d C2 La Lc Lb Pa Pc Pb : focus v h c L P mem C1 d C2 La Lc Lb Pa Pc Pb -> pages v !! c.1 = Some mem /\
  exists a, BranchAccessor.new mem fk = Ret a /\ BranchAccessor.count_children a = vlen C1 + 1 + vlen C2 /\ vlen C1 + 1 + vlen C2 < 2 ^ 17 /\
    forall i e, (C1 ++ d :: C2) !! i = Some e -> BranchAccessor.child_page a (Z.of_nat i) = Ret (Some e.1).
Proof.
  intros (lo & hi & lo' & hi' & K1 & K2 & Hn & Hl & _). split; [apply Hn|]. destruct (bn_branch Hn) as (pad & pad4 & slack & Hpad & -> & Hok).
  exists (branch_accessor_of fk pad pad4 (C1 ++ d :: C2) (K1 ++ K2) slack). split; [by apply branch_accessor|]. pose proof (branch_children _ _ _ Hok) as Hc. destruct Hok as [O1 O2 O3 O4 O5 O6] eqn:EO. clear EO.
  unfold BranchAccessor.count_children. cbn [BranchAccessor.num_keys branch_accessor_of]. unfold vlen in *. rewrite !length_app in *. cbn [length] in *. split; [lia|]. split; [lia|]. intros i e He. by apply child_page_ok.
Qed.
Lemma focus_right v h c L P mem C1 d e C2 La Lc Lb Pa Pc Pb : focus v h c L P mem C1 d (e :: C2) La Lc Lb Pa Pc Pb ->
  exists Le Lb' Pe Pb', focus v h c L P mem (C1 ++ [d]) e C2 (La ++ Lc) Le Lb' (Pa ++ Pc) Pe Pb' /\ Lb = Le ++ Lb' /\ Pb = Pe ++ Pb'.
Proof.
  intros (lo & hi & lo' & hi' & K1 & K2 & Hn & Hl & F1 & F2 & F3 & -> & ->). destruct (focus_next _ _ _ _ _ _ _ _ _ _ _ _ _ _ _ _ _ F1 F2 F3) as (k & K2' & hi2 & Le & Lb' & Pe & Pb' & -> & G1 & G2 & G3 & -> & ->).
  exists Le, Lb', Pe, Pb'. split; [|done]. exists lo, hi, (Some k), hi2, (K1 ++ [k]), K2'. rewrite <-!app_assoc. cbn [app]. split; [done|]. rewrite !length_app. split; [cbn; lia|]. done.
Qed.
Lemma focus_left v h c L P mem C1 d e C2 La Lc Lb Pa Pc Pb : focus v h c L P mem (C1 ++ [e]) d C2 La Lc Lb Pa Pc Pb ->
  exists La' Le Pa' Pe, focus v h c L P mem C1 e (d :: C2) La' Le (Lc ++ Lb) Pa' Pe (Pc ++ Pb) /\ La = La' ++ Le /\ Pa = Pa' ++ Pe.
Proof.
  intros (lo & hi & lo' & hi' & K1 & K2 & Hn & Hl & F1 & F2 & F3 & -> & ->). destruct (focus_prev _ _ _ _ _ _ _ _ _ _ _ _ _ _ _ _ _ F1 F2 F3) as (k & K1' & lo2 & La' & Le & Pa' & Pe & -> & G1 & G2 & G3 & -> & ->).
  exists La', Le, Pa', Pe. split; [|done]. rewrite <-!app_assoc in Hn. cbn [app] in Hn. exists lo, hi, lo2, (Some k), K1', (k :: K2). rewrite !length_app in Hl. cbn in Hl. rewrite <-!app_assoc. split; [done|]. split; [lia|]. done.
Qed.
(** The bounds of a gap and of its leaf *)
Lemma gap_bounds v h : forall c L P path leaf i, gap v h c L P path leaf i ->
  0 <= Cursor.position leaf <= Cursor.len leaf /\ 0 < Cursor.len leaf < 2 ^ 16 /\ 0 <= i - Cursor.position leaf /\ i - Cursor.position leaf + Cursor.len leaf <= vlen L.
Proof.
  induction h as [|h IH]; intros c L P path leaf i.
  - intros (lo & hi & page & Hn & _ & _ & -> & Hi). cbn. destruct (ln_leaf Hn) as (pad & slack & _ & [O1 O2 _ _] & _). lia.
  - intros (mem & C1 & d & C2 & La & Lc & Lb & Pa & Pc & Pb & path' & i' & HF & _ & Hg & ->). destruct (IH _ _ _ _ _ _ Hg) as (H1 & H2 & H3 & H4). destruct HF as (lo & hi & lo' & hi' & K1 & K2 & _ & _ & _ & _ & _ & -> & _).
    rewrite !vlen_app. pose proof (vlen_nonneg La). pose proof (vlen_nonneg Lb). lia.
Qed.
(** The pair after the gap and the pair before it *)
Lemma gap_entry v h : forall c L P path leaf i j, gap v h c L P path leaf i -> 0 <= j < Cursor.len leaf ->
  exists q w g, L !! Z.to_nat (i - Cursor.position leaf + j) = Some (q, w) /\ Cursor.entry fk fv leaf j = Ret g /\ EntryGuard.key_bytes g = Ret q /\ EntryGuard.value_bytes g = Ret w.
Proof.
  induction h as [|h IH]; intros c L P path leaf i j.
  - intros (lo & hi & page & Hn & _ & _ & -> & Hi) Hj. cbn [Cursor.position Cursor.len] in Hj |- *. replace (i - i + j) with j by lia. destruct (lookup_lt_is_Some_2 L (Z.to_nat j)) as [[q w] Hq]; [unfold vlen in Hj; lia|].
    destruct (ln_leaf Hn) as (pad & slack & Ep & Hok & _). unfold Cursor.entry. cbn [Cursor.leaf_page snd]. rewrite Ep, leaf_accessor by done. cbn [mbind outcome_bind]. unfold expect. rewrite <-(Z2Nat.id j) by lia.
    rewrite entry_ranges_ok by (done || by eapply lookup_lt_Some). cbn [mbind outcome_bind unwrap fst snd]. rewrite Nat2Z.id. exists q, w. eexists. split; [done|]. split; [done|]. unfold EntryGuard.key_bytes, EntryGuard.value_bytes. cbn [EntryGuard.page EntryGuard.key_range EntryGuard.value_range fst snd].
    split; [apply slice_key; by rewrite keys_lookup, Hq|apply slice_value; by rewrite values_lookup, Hq].
  - intros (mem & C1 & d & C2 & La & Lc & Lb & Pa & Pc & Pb & path' & i' & HF & _ & Hg & ->) Hj. destruct (gap_bounds _ _ _ _ _ _ _ _ Hg) as (H1 & H2 & H3 & H4).
    destruct (IH _ _ _ _ _ _ _ Hg Hj) as (q & w & g & Hq & Hrest). exists q, w, g. split; [|done]. destruct HF as (lo & hi & lo' & hi' & K1 & K2 & _ & _ & _ & _ & _ & -> & _).
    rewrite lookup_app_r by (unfold vlen; lia). rewrite lookup_app_l by (apply lookup_lt_Some in Hq; unfold vlen in *; lia). rewrite <-Hq. f_equal. unfold vlen. lia.
Qed.
End gap.

(** * Moving *)

Section moving.
  Context {St : Type} `{LS : PageStoreLaws St}.
  Context {compare valid cmp} `{BO : ByteOrder compare valid cmp} (fk fv : option Z) (good : list Z -> Z -> Prop).
  Notation tree := (tree valid cmp fk fv good).
  Notation gap := (gap fk fv good (valid := valid) (cmp := cmp)).
  Notation focus := (focus fk fv good (valid := valid) (cmp := cmp)).

Lemma in_store_read {X} (x : X) n t v p mem : shows ∅ n t v -> pages v !! p = Some mem ->
  runs (in_store (MutateHelper.read p)) (x, t) (fun s a => a = (p, mem) /\ s.1 = x /\ shows ∅ n s.2 v) (fun s => intact v s.2).
Proof.
  intros Hs Hp. destruct (read_runs ∅ n t v p mem Hs) as (t' & r & E & Hr); [set_solver|done|]. unfold runs, in_store, MutateHelper.read, mbind, M_bind. cbn [snd]. rewrite E. cbn [mbind outcome_bind fst snd].
  destruct r as [b|e]; [destruct Hr as [-> Hr]|]; eexists _, _; (split; [reflexivity|]); done.
Qed.

(** The child that a descent visits *)
Lemma branch_visit v h lo hi c L P mem p : tree v (S h) lo hi c L P -> pages v !! c.1 = Some mem -> position_ok valid p -> position_in cmp lo hi p ->
  vget mem 0 = Ret BRANCH /\ exists a C1 d C2 La Lc Lb Pa Pc Pb lo' hi', focus v h c L P mem C1 d C2 La Lc Lb Pa Pc Pb /\ tree v h lo' hi' d Lc Pc /\ position_in cmp lo' hi' p /\
    BranchAccessor.new mem fk = Ret a /\ Cursor.child_to_visit compare a p = Ret (vlen C1) /\ BranchAccessor.child_page a (vlen C1) = Ret (Some d.1) /\
    rank cmp p L = vlen La + rank cmp p Lc.
Proof.
  intros HT Hmem Hp Hin. destruct HT as (mem' & cs & ks & P' & Hn & HF & ->). pose proof (bn_page Hn) as E. rewrite Hmem in E. injection E as <-. destruct (bn_branch Hn) as (pad & pad4 & slack & Hpad & -> & Hok).
  split; [apply vget_branch|]. exists (branch_accessor_of fk pad pad4 cs ks slack). pose proof (forest_length _ _ _ _ _ _ _ HF) as Hlen. pose proof (forest_pairs_ok _ (tree_pairs fk fv good v h) _ _ _ _ _ _ HF) as Ho.
  assert (Hgen : forall C1 d C2 K1 K2, cs = C1 ++ d :: C2 -> ks = K1 ++ K2 -> length C1 = length K1 -> Cursor.child_to_visit compare (branch_accessor_of fk pad pad4 cs ks slack) p = Ret (vlen C1) ->
    (forall lo' hi' La Lc Lb Pa Pc Pb, prefix valid (tree v h) lo lo' C1 K1 La Pa -> tree v h lo' hi' d Lc Pc -> suffix valid (tree v h) hi' hi C2 K2 Lb Pb ->
      position_in cmp lo' hi' p /\ rank cmp p (La ++ Lc ++ Lb) = vlen La + rank cmp p Lc) ->
    exists C1 d C2 La Lc Lb Pa Pc Pb lo' hi', focus v h c L (c.1 :: P') (branch fk pad pad4 cs ks slack) C1 d C2 La Lc Lb Pa Pc Pb /\ tree v h lo' hi' d Lc Pc /\ position_in cmp lo' hi' p /\
      BranchAccessor.new (branch fk pad pad4 cs ks slack) fk = Ret (branch_accessor_of fk pad pad4 cs ks slack) /\ Cursor.child_to_visit compare (branch_accessor_of fk pad pad4 cs ks slack) p = Ret (vlen C1) /\
      BranchAccessor.child_page (branch_accessor_of fk pad pad4 cs ks slack) (vlen C1) = Ret (Some d.1) /\ rank cmp p L = vlen La + rank cmp p Lc).
  { intros C1 d C2 K1 K2 Ec Ek Hl Hv Hpos. pose proof HF as HF'. rewrite Ec, Ek in HF'. destruct (forest_focus _ _ _ _ _ _ _ _ _ _ HF' Hl) as (lo' & hi' & La & Lc & Lb & Pa & Pc & Pb & F1 & F2 & F3 & EL & EP).
    destruct (Hpos _ _ _ _ _ _ _ _ F1 F2 F3) as [Hin' Hr]. exists C1, d, C2, La, Lc, Lb, Pa, Pc, Pb, lo', hi'. split; [|split; [done|split; [done|split; [by apply branch_accessor|split; [done|split; [|by rewrite EL]]]]]].
    - exists lo, hi, lo', hi', K1, K2. rewrite <-Ec, <-Ek, <-EP. split; [done|]. done.
    - unfold vlen. apply child_page_ok; [done|done|]. rewrite Ec. by apply lookup_at. }
  assert (Hkey : forall q, p = Before q \/ p = After q -> valid q -> in_range cmp lo hi q -> exists C1 d C2 K1 K2, cs = C1 ++ d :: C2 /\ ks = K1 ++ K2 /\ length C1 = length K1 /\
    Cursor.child_to_visit compare (branch_accessor_of fk pad pad4 cs ks slack) p = Ret (vlen C1) /\ forall lo' hi' La Lc Lb Pa Pc Pb, prefix valid (tree v h) lo lo' C1 K1 La Pa -> tree v h lo' hi' d Lc Pc -> suffix valid (tree v h) hi' hi C2 K2 Lb Pb ->
      position_in cmp lo' hi' p /\ rank cmp p (La ++ Lc ++ Lb) = vlen La + rank cmp p Lc).
  { intros q Hpq Hq Hr. destruct (forest_keys _ (tree_pairs fk fv good v h) _ _ _ _ _ _ HF) as (Hkv & Hks & _).
    destruct (child_for_key_ok fk pad pad4 cs ks slack Hok Hpad Hkv Hks q Hq) as (C1 & d & C2 & K1 & K2 & Ec & Ek & Hl & Hfind & Hb & Hnb). exists C1, d, C2, K1, K2. split; [done|]. split; [done|]. split; [unfold vlen in Hl; lia|].
    split; [destruct Hpq as [-> | ->]; cbn [Cursor.child_to_visit]; by rewrite Hfind|]. intros lo' hi' La Lc Lb Pa Pc Pb F1 F2 F3. assert (Hr' : in_range cmp lo' hi' q) by (by eapply focus_range).
    split; [by destruct Hpq as [-> | ->]|]. eapply (rank_focus _ (tree_pairs fk fv good v h)); [done|done|done|done|apply Ho|apply Ho|done]. }
  destruct p as [| |q|q].
  - destruct cs as [|d C2]; [done|]. apply (Hgen [] d C2 [] ks); [done..|]. intros lo' hi' La Lc Lb Pa Pc Pb F1 F2 F3. inversion F1; subst. split; [done|]. by rewrite !rank_start.
  - destruct cs as [|d C1 _] using rev_ind; [done|]. rewrite length_app in Hlen. cbn in Hlen. apply (Hgen C1 d [] ks []); [done|by rewrite app_nil_r|lia| |].
    + cbn [Cursor.child_to_visit]. unfold BranchAccessor.count_children. cbn [BranchAccessor.num_keys branch_accessor_of]. unfold vlen. rewrite usub_ok by lia. f_equal. lia.
    + intros lo' hi' La Lc Lb Pa Pc Pb F1 F2 F3. inversion F3; subst. split; [done|]. rewrite !rank_end, app_nil_r, vlen_app. done.
  - destruct (Hkey q) as (C1 & d & C2 & K1 & K2 & H1 & H2 & H3 & H4 & H5); [by left|done|done|]. by eapply Hgen.
  - destruct (Hkey q) as (C1 & d & C2 & K1 & K2 & H1 & H2 & H3 & H4 & H5); [by right|done|done|]. by eapply Hgen.
Qed.
(** The position in a leaf *)
Lemma leaf_visit v lo hi c L page p : leaf_node valid cmp fk fv good v lo hi c L page -> position_ok valid p ->
  vget page 0 = Ret LEAF /\ exists a, LeafAccessor.new page fk fv = Ret a /\ LeafAccessor.num_pairs a = vlen L /\ Cursor.lower_bound_entry compare a p = Ret (rank cmp p L).
Proof.
  intros Hn Hp. destruct (ln_leaf Hn) as (pad & slack & -> & Hok & _). split; [apply vget_leaf|]. exists (accessor_of fk fv pad L slack). split; [by apply leaf_accessor|]. split; [done|].
  destruct (ln_pairs Hn) as [_ _ _ V S0 _]. destruct p as [| |q|q]; cbn [Cursor.lower_bound_entry]; [by rewrite rank_start|by rewrite rank_end|..];
    destruct (LeafTheorems.position_ok fk fv pad L slack Hok V S0 q Hp) as (P1 & P2 & found & -> & EL & Hb & Hf); cbn [mbind outcome_bind]; rewrite EL in V |- *.
  - f_equal. destruct found; [destruct Hf as (w & P3 & -> & Ha); symmetry; by apply rank_found|symmetry; apply (rank_key (Before q) q); auto].
  - destruct Hok as [_ Hc _ _]. rewrite EL, vlen_app in Hc. pose proof (vlen_nonneg P1). pose proof (vlen_nonneg P2). destruct found.
    + destruct Hf as (w & P3 & -> & Ha). rewrite uadd_ok by lia. f_equal. symmetry. by apply rank_found.
    + f_equal. symmetry. apply (rank_key (After q) q); auto.
Qed.
Lemma descend_runs h : forall fuel pre n t v lo hi c L P mem p, (h < fuel)%nat -> shows ∅ n t v -> tree v h lo hi c L P -> pages v !! c.1 = Some mem -> position_ok valid p -> position_in cmp lo hi p ->
  runs (Cursor.descend_to_position compare fk fv fuel (c.1, mem) p) (pre, t) (fun s l => shows ∅ n s.2 v /\ exists path, s.1 = pre ++ path /\ gap v h c L P path l (rank cmp p L)) (fun s => intact v s.2).
Proof.
  induction h as [|h IH]; intros [|fuel] pre n t v lo hi c L P mem p Hf Hs HT Hmem Hp Hin; try lia; cbn [Cursor.descend_to_position snd].
  - destruct HT as (page & Hn & ->). pose proof (ln_page Hn) as E. rewrite Hmem in E. injection E as <-. destruct (leaf_visit _ _ _ _ _ _ p Hn Hp) as (Hk & a & Ha & Hnum & Hlb).
    eapply runs_lift; [exact Hk|]. cbn [LEAF Z.eqb Pos.eqb]. eapply runs_lift; [exact Ha|]. eapply runs_lift; [exact Hlb|]. apply runs_ret. split; [done|]. exists []. rewrite app_nil_r. split; [done|].
    exists lo, hi, mem. rewrite Hnum. split; [done|]. split; [done|]. split; [done|]. split; [done|]. apply rank_bounds.
  - destruct (branch_visit v h lo hi c L P mem p HT Hmem Hp Hin) as (Hk & a & C1 & d & C2 & La & Lc & Lb & Pa & Pc & Pb & lo' & hi' & HF & HT' & Hin' & Ha & Hcv & Hcp & Hr).
    eapply runs_lift; [exact Hk|]. cbn [BRANCH LEAF Z.eqb Pos.eqb]. eapply runs_lift; [exact Ha|]. eapply runs_lift; [exact Hcv|]. eapply (runs_lift _ d.1); [unfold expect; by rewrite Hcp|].
    destruct (tree_page _ _ _ _ _ _ _ _ _ _ HT') as (cmem & Hcmem).
    eapply (runs_bind _ _ _ (fun s _ => s = (pre ++ [Cursor.mk_branch (c.1, mem) (vlen C1)], t))); [by eexists _, (Okay tt)|]. intros s1 [] ->. eapply runs_bind; [by apply in_store_read|]. intros [path1 t1] ? (-> & E1 & Hs1). cbn in E1, Hs1. subst path1.
    eapply runs_weaken; [eapply (IH fuel _ n t1 v lo' hi' d Lc Pc cmem p); [lia|done..]| |done]. intros s2 l (Hs2 & path & E2 & Hg). split; [done|]. exists (Cursor.mk_branch (c.1, mem) (vlen C1) :: path).
    split; [by rewrite E2, <-app_assoc|]. exists mem, C1, d, C2, La, Lc, Lb, Pa, Pc, Pb, path, (rank cmp p Lc). done.
Qed.

(** The edge of a leaf in a direction, and whether there are pairs beyond it *)
Definition edge (d : Direction) (leaf : Cursor.Leaf) (i : Z) : Z := match d with Next => i - Cursor.position leaf + Cursor.len leaf | Previous => i - Cursor.position leaf end.
Definition beyond (d : Direction) (L : list pair) (e : Z) : bool := match d with Next => e <? vlen L | Previous => 0 <? e end.
(** The leaf where a step in a direction ends *)
Definition entered (d : Direction) (leaf : Cursor.Leaf) : Prop := match d with Next => Cursor.position leaf = 0 | Previous => Cursor.position leaf = Cursor.len leaf end.
Lemma rank_entered d v h c L P path leaf : gap v h c L P path leaf (rank cmp (if is_next d then Start else End_) L) -> entered d leaf.
Proof.
  destruct d; cbn [is_next entered]; [rewrite rank_start|rewrite rank_end]; intros Hg; destruct (gap_bounds _ _ _ _ _ _ _ _ _ _ _ Hg); lia.
Qed.

(** The next child of a branch, and the focus on it *)
Lemma next_child_ok d v h c L P mem C1 e C2 La Lc Lb Pa Pc Pb : focus v h c L P mem C1 e C2 La Lc Lb Pa Pc Pb ->
  match d with
  | Next => match C2 with
    | [] => Lb = [] /\ Cursor.next_child fk Next (Cursor.mk_branch (c.1, mem) (vlen C1)) = Ret None
    | e2 :: C2' => Cursor.next_child fk Next (Cursor.mk_branch (c.1, mem) (vlen C1)) = Ret (Some (vlen (C1 ++ [e]), e2.1)) /\
        exists Le Lb' Pe Pb', focus v h c L P mem (C1 ++ [e]) e2 C2' (La ++ Lc) Le Lb' (Pa ++ Pc) Pe Pb' /\ Lb = Le ++ Lb'
    end
  | Previous => (C1 = [] /\ La = [] /\ Cursor.next_child fk Previous (Cursor.mk_branch (c.1, mem) (vlen C1)) = Ret None) \/
      exists C1' e1, C1 = C1' ++ [e1] /\ Cursor.next_child fk Previous (Cursor.mk_branch (c.1, mem) (vlen C1)) = Ret (Some (vlen C1', e1.1)) /\
        exists La' Le Pa' Pe, focus v h c L P mem C1' e1 (e :: C2) La' Le (Lc ++ Lb) Pa' Pe (Pc ++ Pb) /\ La = La' ++ Le
  end.
Proof.
  intros HF. destruct (focus_page _ _ _ _ _ _ _ _ _ _ _ _ _ _ _ _ _ _ HF) as (_ & a & Ha & Hcc & Hlt & Hcp). pose proof (vlen_nonneg C1). pose proof (vlen_nonneg C2). unfold Cursor.next_child. cbn [Cursor.branch_page Cursor.child_index snd]. rewrite Ha. cbn [mbind outcome_bind]. destruct d.
  - rewrite uadd_ok by lia. cbn [mbind outcome_bind]. rewrite Hcc. destruct C2 as [|e2 C2].
    + rewrite (proj2 (Z.ltb_ge _ _)) by (change (vlen (@nil child)) with 0; lia). split; [|done]. destruct HF as (lo & hi & lo' & hi' & K1 & K2 & _ & _ & _ & _ & F3 & _). inversion F3 as [|? ? ? ? ? ? ? HF']; subst; [done|]. by apply forest_length in HF'.
    + rewrite (proj2 (Z.ltb_lt _ _)) by (unfold vlen; cbn [length]; lia). unfold expect. replace (vlen C1 + 1) with (Z.of_nat (length (C1 ++ [e]))) by (rewrite length_app; unfold vlen; cbn; lia).
      rewrite (Hcp (length (C1 ++ [e])) e2); [|change (e :: e2 :: C2) with ([e] ++ e2 :: C2); rewrite app_assoc; by apply lookup_at]. split; [done|].
      destruct (focus_right _ _ _ _ _ _ _ _ _ _ _ _ _ _ _ _ _ _ _ HF) as (Le & Lb' & Pe & Pb' & F & -> & ->). by exists Le, Lb', Pe, Pb'.
  - destruct C1 as [|e1 C1 _] using rev_ind.
    + left. split; [done|]. split; [|done]. destruct HF as (lo & hi & lo' & hi' & K1 & K2 & _ & _ & F1 & _). by inversion F1.
    + right. exists C1, e1. split; [done|]. pose proof (vlen_nonneg C1). rewrite vlen_app. change (vlen [e1]) with 1. rewrite (proj2 (Z.ltb_ge _ _)) by lia. unfold expect. replace (vlen C1 + 1 - 1) with (Z.of_nat (length C1)) by (unfold vlen; lia).
      rewrite (Hcp (length C1) e1); [|rewrite <-app_assoc; by apply lookup_at]. split; [done|].
      destruct (focus_left _ _ _ _ _ _ _ _ _ _ _ _ _ _ _ _ _ _ _ HF) as (La' & Le & Pa' & Pe & F & -> & ->). by exists La', Le, Pa', Pe.
Qed.

(** One turn of the loop over the path: the child in the direction is entered. *)
Lemma enter_child d fuel pre frame rest n t v h c L P mem C1 e C2 La Lc Lb Pa Pc Pb : (h < fuel)%nat -> shows ∅ n t v -> focus v h c L P mem C1 e C2 La Lc Lb Pa Pc Pb ->
  Cursor.next_child fk d frame = Ret (Some (vlen C1, e.1)) -> Cursor.branch_page frame = (c.1, mem) ->
  runs (Cursor.adjacent_loop compare fk fv fuel d (S (length pre))) (pre ++ frame :: rest, t) (fun s r => shows ∅ n s.2 v /\ exists path l, r = Some l /\ s.1 = pre ++ path /\
    gap v (S h) c L P path l (vlen La + (if is_next d then 0 else vlen Lc)) /\ entered d l) (fun s => intact v s.2).
Proof.
  intros Hf Hs HF Hnc Hpage. cbn [Cursor.adjacent_loop]. apply runs_gets. cbn [fst]. eapply (runs_lift _ frame); [apply vget_ok; [lia|rewrite Nat2Z.id; by apply lookup_at]|]. eapply runs_lift; [exact Hnc|]. cbn beta iota.
  eapply (runs_bind _ _ _ (fun s _ => s = (pre ++ [Cursor.mk_branch (c.1, mem) (vlen C1)], t))); [eexists _, (Okay tt); split; [done|]; cbn [snd]; by rewrite take_app_length, Hpage|]. intros s1 [] ->.
  destruct (focus_tree _ _ _ _ _ _ _ _ _ _ _ _ _ _ _ _ _ _ HF) as (lo & hi & HT). destruct (tree_page _ _ _ _ _ _ _ _ _ _ HT) as (cmem & Hcmem).
  eapply runs_bind; [by apply in_store_read|]. intros [path1 t1] ? (-> & E1 & Hs1). cbn in E1, Hs1. subst path1.
  eapply runs_bind; [eapply (descend_runs h fuel _ n t1 v lo hi e Lc Pc cmem (if is_next d then Start else End_)); [done|done|done|done|by destruct d|by destruct d]|].
  intros s2 l (Hs2 & path & E2 & Hg). apply runs_ret. split; [done|]. exists (Cursor.mk_branch (c.1, mem) (vlen C1) :: path), l. split; [done|]. split; [by rewrite E2, <-app_assoc|]. split; [|by eapply rank_entered].
  exists mem, C1, e, C2, La, Lc, Lb, Pa, Pc, Pb, path. eexists. split; [done|]. split; [done|]. split; [exact Hg|]. destruct d; cbn [is_next]; [by rewrite rank_start|by rewrite rank_end].
Qed.
Lemma adjacent_loop_runs d h : forall fuel pre n t v c L P path leaf i, (h <= fuel)%nat -> shows ∅ n t v -> gap v h c L P path leaf i ->
  if beyond d L (edge d leaf i) then
    runs (Cursor.adjacent_loop compare fk fv fuel d (length (pre ++ path))) (pre ++ path, t) (fun s r => shows ∅ n s.2 v /\ exists path' leaf', r = Some leaf' /\ s.1 = pre ++ path' /\
      gap v h c L P path' leaf' (edge d leaf i) /\ entered d leaf') (fun s => intact v s.2)
  else Cursor.adjacent_loop compare fk fv fuel d (length (pre ++ path)) (pre ++ path, t) = Cursor.adjacent_loop compare fk fv fuel d (length pre) (pre ++ path, t).
Proof.
  induction h as [|h IH]; intros fuel pre n t v c L P path leaf i Hf Hs Hg.
  - destruct Hg as (lo & hi & page & Hn & _ & -> & -> & Hi). rewrite app_nil_r. assert (E : beyond d L (edge d (Cursor.mk_leaf (c.1, page) i (vlen L)) i) = false); [|by rewrite E]. destruct d; cbn; [apply Z.ltb_ge|apply Z.ltb_ge]; lia.
  - destruct Hg as (mem & C1 & e & C2 & La & Lc & Lb & Pa & Pc & Pb & path' & i' & HF & -> & Hg & ->). set (fr := Cursor.mk_branch (c.1, mem) (vlen C1)).
    specialize (IH fuel (pre ++ [fr]) n t v e Lc Pc path' leaf i' ltac:(lia) Hs Hg). rewrite <-app_assoc in IH. cbn [app] in IH. destruct (gap_bounds _ _ _ _ _ _ _ _ _ _ _ Hg) as (B1 & B2 & B3 & B4).
    destruct (focus_tree _ _ _ _ _ _ _ _ _ _ _ _ _ _ _ _ _ _ HF) as (lo & hi & HT). assert (EL : L = La ++ Lc ++ Lb) by (by destruct HF as (? & ? & ? & ? & ? & ? & _ & _ & _ & _ & _ & E & _)).
    assert (Hedge : edge d leaf (vlen La + i') = vlen La + edge d leaf i') by (destruct d; cbn; lia). rewrite Hedge. pose proof (vlen_nonneg La). pose proof (vlen_nonneg Lb).
    assert (Hlen : length (pre ++ [fr]) = S (length pre)) by (rewrite length_app; cbn; lia). rewrite Hlen in IH.
    assert (Hin : beyond d Lc (edge d leaf i') = true -> beyond d L (vlen La + edge d leaf i') = true).
    { rewrite EL. destruct d; cbn; rewrite !Z.ltb_lt, ?vlen_app; lia. }
    destruct (beyond d Lc (edge d leaf i')) eqn:Eb.
    + rewrite (Hin eq_refl). eapply runs_weaken; [exact IH| |done]. intros s r (Hs1 & path2 & leaf2 & -> & E2 & Hg2 & He). split; [done|]. exists (fr :: path2), leaf2. split; [done|]. split; [by rewrite E2, <-app_assoc|]. split; [|done].
      exists mem, C1, e, C2, La, Lc, Lb, Pa, Pc, Pb, path2. eexists. split; [done|]. split; [done|]. split; [exact Hg2|done].
    + pose proof (next_child_ok d _ _ _ _ _ _ _ _ _ _ _ _ _ _ _ HF) as Hnc. fold fr in Hnc. destruct d.
      * cbn in Eb. apply Z.ltb_ge in Eb. destruct C2 as [|e2 C2].
        -- destruct Hnc as [-> Hnc]. cbn [beyond]. rewrite (proj2 (Z.ltb_ge _ _)) by (rewrite EL, app_nil_r, vlen_app; cbn; lia). rewrite IH. cbn [Cursor.adjacent_loop]. unfold mbind at 1, M_bind at 1, gets, lift. cbn [mbind outcome_bind fst snd].
           unfold mbind at 1, M_bind at 1. rewrite (vget_ok _ _ fr) by (lia || (rewrite Nat2Z.id; by apply lookup_at)). cbn [mbind outcome_bind fst snd]. unfold mbind at 1, M_bind at 1. rewrite Hnc. done.
        -- destruct Hnc as [Hnc (Le & Lb' & Pe & Pb' & HF2 & ->)]. destruct (focus_tree _ _ _ _ _ _ _ _ _ _ _ _ _ _ _ _ _ _ HF2) as (lo2 & hi2 & HT2). pose proof (tree_some _ _ _ _ _ _ _ _ _ _ HT2). pose proof (vlen_nonneg Lb').
           cbn [beyond]. rewrite (proj2 (Z.ltb_lt _ _)) by (rewrite EL, !vlen_app; cbn; lia). unfold runs. rewrite IH. eapply runs_weaken; [eapply (enter_child Next); [|done|exact HF2|exact Hnc|done]; lia| |done].
           intros s r (Hs1 & path2 & l & -> & E2 & Hg2 & He). split; [done|]. exists path2, l. split; [done|]. split; [done|]. split; [|done]. cbn [is_next] in Hg2. rewrite vlen_app in Hg2. replace (vlen La + edge Next leaf i') with (vlen La + vlen Lc + 0); [done|]. cbn. lia.
      * cbn in Eb. apply Z.ltb_ge in Eb. destruct Hnc as [(-> & -> & Hnc)|(C1' & e1 & -> & Hnc & La' & Le & Pa' & Pe & HF2 & ->)].
        -- cbn [beyond]. rewrite (proj2 (Z.ltb_ge _ _)) by (change (vlen (@nil pair)) with 0; unfold edge; lia). rewrite IH. cbn [Cursor.adjacent_loop]. unfold mbind at 1, M_bind at 1, gets, lift. cbn [mbind outcome_bind fst snd].
           unfold mbind at 1, M_bind at 1. rewrite (vget_ok _ _ fr) by (lia || (rewrite Nat2Z.id; by apply lookup_at)). cbn [mbind outcome_bind fst snd]. unfold mbind at 1, M_bind at 1. rewrite Hnc. done.
        -- destruct (focus_tree _ _ _ _ _ _ _ _ _ _ _ _ _ _ _ _ _ _ HF2) as (lo2 & hi2 & HT2). pose proof (tree_some _ _ _ _ _ _ _ _ _ _ HT2). pose proof (vlen_nonneg La').
           cbn [beyond]. rewrite (proj2 (Z.ltb_lt _ _)) by (rewrite !vlen_app; cbn; lia). unfold runs. rewrite IH. eapply runs_weaken; [eapply (enter_child Previous); [|done|exact HF2|exact Hnc|done]; lia| |done].
           intros s r (Hs1 & path2 & l & -> & E2 & Hg2 & He). split; [done|]. exists path2, l. split; [done|]. split; [done|]. split; [|done]. cbn [is_next] in Hg2. rewrite vlen_app. replace (vlen La' + vlen Le + edge Previous leaf i') with (vlen La' + vlen Le); [done|]. cbn. lia.
Qed.

(** ** The cursor *)

(** The cursor is at the gap before the pair [i]. *)
Definition at_gap (v : view) (h : nat) (c : child) (L : list pair) (P : list PageNumber.t) (cu : Cursor.t) (i : Z) : Prop :=
  exists leaf, Cursor.leaf cu = Some leaf /\ gap v h c L P (Cursor.path cu) leaf i.
(** There is a pair in a direction. *)
Definition more (d : Direction) (L : list pair) (i : Z) : bool := match d with Next => i <? vlen L | Previous => 0 <? i end.
Definition in_leaf (d : Direction) (leaf : Cursor.Leaf) : bool := (is_next d && (Cursor.position leaf <? Cursor.len leaf)) || (negb (is_next d) && (0 <? Cursor.position leaf)).

Lemma in_leaf_more d v h c L P path leaf i : gap v h c L P path leaf i -> in_leaf d leaf = true -> more d L i = true.
Proof.
  intros Hg. destruct (gap_bounds _ _ _ _ _ _ _ _ _ _ _ Hg) as (B1 & B2 & B3 & B4). unfold in_leaf. destruct d; cbn; rewrite ?andb_true_r, ?orb_false_r, !Z.ltb_lt; lia.
Qed.
Lemma in_leaf_edge d v h c L P path leaf i : gap v h c L P path leaf i -> in_leaf d leaf = false -> edge d leaf i = i.
Proof.
  intros Hg. destruct (gap_bounds _ _ _ _ _ _ _ _ _ _ _ Hg) as (B1 & B2 & B3 & B4). unfold in_leaf. destruct d; cbn; rewrite ?andb_true_r, ?orb_false_r, !Z.ltb_ge; lia.
Qed.
Lemma entered_in_leaf d v h c L P path leaf i : gap v h c L P path leaf i -> entered d leaf -> in_leaf d leaf = true.
Proof.
  intros Hg He. destruct (gap_bounds _ _ _ _ _ _ _ _ _ _ _ Hg) as (B1 & B2 & B3 & B4). unfold in_leaf, entered in *. destruct d; cbn; rewrite ?andb_true_r, ?orb_false_r, !Z.ltb_lt; lia.
Qed.

Lemma adjacent_runs d fuel n t v h c L P cu leaf i : (h <= fuel)%nat -> shows ∅ n t v -> gap v h c L P (Cursor.path cu) leaf i ->
  runs (Cursor.on_path (Cursor.move_to_adjacent_leaf compare fk fv fuel d)) (cu, t) (fun s r => shows ∅ n s.2 v /\ Cursor.leaf s.1 = Cursor.leaf cu /\
    if beyond d L (edge d leaf i) then exists leaf', r = Some leaf' /\ gap v h c L P (Cursor.path s.1) leaf' (edge d leaf i) /\ entered d leaf' else r = None /\ Cursor.path s.1 = Cursor.path cu) (fun s => intact v s.2).
Proof.
  intros Hf Hs Hg. pose proof (adjacent_loop_runs d h fuel [] n t v c L P _ leaf i Hf Hs Hg) as Hl. cbn [app length] in Hl.
  assert (E0 : Cursor.move_to_adjacent_leaf compare fk fv fuel d (Cursor.path cu, t) = Cursor.adjacent_loop compare fk fv fuel d (length (Cursor.path cu)) (Cursor.path cu, t)) by reflexivity.
  unfold runs, Cursor.on_path. cbn [fst snd]. rewrite E0. destruct (beyond d L (edge d leaf i)).
  - destruct Hl as (s & r & E & Hr). rewrite E. cbn [mbind outcome_bind fst snd]. eexists _, r. split; [reflexivity|]. destruct r as [r|e]; [|exact Hr]. destruct Hr as (Hs1 & path' & leaf' & -> & E1 & Hg' & He).
    cbn [Cursor.set_path Cursor.path Cursor.leaf fst snd]. rewrite E1. split; [done|]. split; [done|]. by exists leaf'.
  - rewrite Hl. eexists _, (Okay None). split; [reflexivity|]. done.
Qed.
Lemma seek_runs fuel n t v h c L P cu p : (h < fuel)%nat -> shows ∅ n t v -> tree v h None None c L P -> Cursor.root cu = c.1 -> position_ok valid p ->
  runs (Cursor.seek_to compare fk fv fuel p) (cu, t) (fun s _ => shows ∅ n s.2 v /\ at_gap v h c L P s.1 (rank cmp p L)) (fun s => intact v s.2).
Proof.
  intros Hf Hs HT Hroot Hp. unfold Cursor.seek_to. eapply (runs_bind _ _ _ (fun s _ => s = (Cursor.set_path cu [], t))); [by eexists _, (Okay tt)|]. intros s1 [] ->. apply runs_gets. cbn [fst Cursor.set_path Cursor.root]. rewrite Hroot. destruct (tree_page _ _ _ _ _ _ _ _ _ _ HT) as (mem & Hmem).
  eapply runs_bind; [by apply in_store_read|]. intros [cu1 t1] ? (-> & E1 & Hs1). cbn in E1, Hs1. subst cu1.
  destruct (descend_runs h fuel [] n t1 v None None c L P mem p) as (s & r & E & Hr); [done|done|done|done|done|by destruct p|].
  eapply (runs_bind _ _ _ (fun s l => shows ∅ n s.2 v /\ gap v h c L P (Cursor.path s.1) l (rank cmp p L))).
  - unfold runs, Cursor.on_path. cbn [fst snd Cursor.set_path Cursor.path]. rewrite E. cbn [mbind outcome_bind fst snd]. eexists _, r. split; [reflexivity|]. destruct r as [l|e]; [|exact Hr]. destruct Hr as (Hs2 & path & E2 & Hg). cbn in *. by rewrite E2.
  - intros s2 l [Hs2 Hg]. eexists _, (Okay tt). split; [reflexivity|]. split; [done|]. by exists l.
Qed.
Lemma prepare_runs d fuel n t v h c L P : (h <= fuel)%nat -> forall m cu i, (2 <= m)%nat -> shows ∅ n t v -> at_gap v h c L P cu i ->
  runs (Cursor.prepare_leaf compare fk fv m fuel d) (cu, t) (fun s b => shows ∅ n s.2 v /\ b = more d L i /\ exists leaf, Cursor.leaf s.1 = Some leaf /\ gap v h c L P (Cursor.path s.1) leaf i /\ (b = true -> in_leaf d leaf = true)) (fun s => intact v s.2).
Proof.
  intros Hf [|[|m]] cu i Hm Hs (leaf & El & Hg); [lia|lia|]. cbn [Cursor.prepare_leaf]. apply runs_gets. cbn [fst]. rewrite El. fold (in_leaf d leaf). destruct (in_leaf d leaf) eqn:Ei.
  { apply runs_ret. split; [done|]. split; [symmetry; by eapply in_leaf_more|]. by exists leaf. }
  pose proof (in_leaf_edge _ _ _ _ _ _ _ _ _ Hg Ei) as Hedge. eapply runs_bind; [by eapply (adjacent_runs d)|]. intros [cu1 t1] r (Hs1 & E1 & Hr). cbn [fst snd] in *. rewrite Hedge in Hr. assert (Hb : beyond d L i = more d L i) by (by destruct d). rewrite Hb in Hr. destruct (more d L i).
  - destruct Hr as (leaf' & -> & Hg' & He). eapply (runs_bind _ _ _ (fun s _ => s = (Cursor.set_leaf cu1 (Some leaf'), t1))); [by eexists _, (Okay tt)|]. intros s2 [] ->. cbn [Cursor.prepare_leaf]. apply runs_gets. cbn [fst Cursor.set_leaf Cursor.leaf].
    fold (in_leaf d leaf'). rewrite (entered_in_leaf _ _ _ _ _ _ _ _ _ Hg' He). apply runs_ret. split; [done|]. split; [done|]. exists leaf'. split; [done|]. split; [done|]. intros _. by eapply entered_in_leaf.
  - destruct Hr as [-> Ep]. apply runs_ret. split; [done|]. split; [done|]. exists leaf. cbn [fst]. rewrite E1, Ep. done.
Qed.
(** The guard of the pair at [i], if there is one *)
Definition entry_is (g : option EntryGuard.t) (x : option pair) : Prop :=
  match g, x with Some g, Some (q, w) => EntryGuard.key_bytes g = Ret q /\ EntryGuard.value_bytes g = Ret w | None, None => True | _, _ => False end.
(** The gap moves within the leaf. *)
Lemma gap_shift v h : forall c L P path leaf i p, gap v h c L P path leaf i -> 0 <= p <= Cursor.len leaf ->
  gap v h c L P path (Cursor.mk_leaf (Cursor.leaf_page leaf) p (Cursor.len leaf)) (i - Cursor.position leaf + p).
Proof.
  induction h as [|h IH]; intros c L P path leaf i p.
  - intros (lo & hi & page & Hn & -> & -> & -> & Hi) Hp. cbn in Hp. exists lo, hi, page. cbn [Cursor.leaf_page Cursor.len Cursor.position]. replace (i - i + p) with p by lia. done.
  - intros (mem & C1 & d & C2 & La & Lc & Lb & Pa & Pc & Pb & path' & i' & HF & -> & Hg & ->) Hp. exists mem, C1, d, C2, La, Lc, Lb, Pa, Pc, Pb, path', (i' - Cursor.position leaf + p).
    split; [done|]. split; [done|]. split; [by apply IH|lia].
Qed.
Lemma next_runs fuel n t v h c L P cu i : (h < fuel)%nat -> shows ∅ n t v -> at_gap v h c L P cu i ->
  runs (Cursor.next compare fk fv fuel) (cu, t) (fun s g => shows ∅ n s.2 v /\ entry_is g (if more Next L i then L !! Z.to_nat i else None) /\ at_gap v h c L P s.1 (if more Next L i then i + 1 else i)) (fun s => intact v s.2).
Proof.
  intros Hf Hs Hat. unfold Cursor.next, Cursor.ensure_has_entry. eapply runs_bind; [apply (prepare_runs Next fuel n t v h c L P ltac:(lia) _ cu i); [lia|done|done]|].
  intros [cu1 t1] b (Hs1 & -> & leaf & El & Hg & Hin). cbn [fst snd] in *. destruct (more Next L i) eqn:Em; [|apply runs_ret; split; [done|]; split; [done|]; by exists leaf].
  specialize (Hin eq_refl). unfold in_leaf in Hin. cbn in Hin. rewrite orb_false_r in Hin. apply Z.ltb_lt in Hin. destruct (gap_bounds _ _ _ _ _ _ _ _ _ _ _ Hg) as (B1 & B2 & B3 & B4).
  apply runs_gets. cbn [fst]. rewrite El. eapply (runs_lift _ leaf); [done|]. eapply (runs_lift _ (Cursor.position leaf + 1)); [rewrite uadd_ok by lia; done|].
  eapply (runs_bind _ _ _ (fun s _ => s = (Cursor.set_leaf cu1 (Some (Cursor.mk_leaf (Cursor.leaf_page leaf) (Cursor.position leaf + 1) (Cursor.len leaf))), t1))); [by eexists _, (Okay tt)|]. intros s2 [] ->.
  destruct (gap_entry _ _ _ _ _ _ _ _ _ _ _ (Cursor.position leaf) Hg) as (q & w & g & Hq & Hge & Hk & Hv); [lia|]. eapply runs_lift; [exact Hge|]. apply runs_ret. split; [done|].
  replace (i - Cursor.position leaf + Cursor.position leaf) with i in Hq by lia. rewrite Hq. split; [done|]. eexists. split; [reflexivity|]. replace (i + 1) with (i - Cursor.position leaf + (Cursor.position leaf + 1)) by lia. apply gap_shift; [done|lia].
Qed.
Lemma prev_runs fuel n t v h c L P cu i : (h < fuel)%nat -> shows ∅ n t v -> at_gap v h c L P cu i ->
  runs (Cursor.prev compare fk fv fuel) (cu, t) (fun s g => shows ∅ n s.2 v /\ entry_is g (if more Previous L i then L !! Z.to_nat (i - 1) else None) /\ at_gap v h c L P s.1 (if more Previous L i then i - 1 else i)) (fun s => intact v s.2).
Proof.
  intros Hf Hs Hat. unfold Cursor.prev, Cursor.ensure_has_entry. eapply runs_bind; [apply (prepare_runs Previous fuel n t v h c L P ltac:(lia) _ cu i); [lia|done|done]|].
  intros [cu1 t1] b (Hs1 & -> & leaf & El & Hg & Hin). cbn [fst snd] in *. destruct (more Previous L i) eqn:Em; [|apply runs_ret; split; [done|]; split; [done|]; by exists leaf].
  specialize (Hin eq_refl). unfold in_leaf in Hin. cbn in Hin. apply Z.ltb_lt in Hin. destruct (gap_bounds _ _ _ _ _ _ _ _ _ _ _ Hg) as (B1 & B2 & B3 & B4).
  apply runs_gets. cbn [fst]. rewrite El. eapply (runs_lift _ leaf); [done|]. eapply (runs_lift _ (Cursor.position leaf - 1)); [rewrite usub_ok by lia; done|].
  eapply (runs_bind _ _ _ (fun s _ => s = (Cursor.set_leaf cu1 (Some (Cursor.mk_leaf (Cursor.leaf_page leaf) (Cursor.position leaf - 1) (Cursor.len leaf))), t1))); [by eexists _, (Okay tt)|]. intros s2 [] ->.
  destruct (gap_entry _ _ _ _ _ _ _ _ _ _ _ (Cursor.position leaf - 1) Hg) as (q & w & g & Hq & Hge & Hk & Hv); [lia|]. eapply runs_lift; [exact Hge|]. apply runs_ret. split; [done|].
  replace (i - Cursor.position leaf + (Cursor.position leaf - 1)) with (i - 1) in Hq by lia. rewrite Hq. split; [done|]. eexists. split; [reflexivity|]. replace (i - 1) with (i - Cursor.position leaf + (Cursor.position leaf - 1)) by lia. apply gap_shift; [done|lia].
Qed.
Lemma normalize_runs fuel n t v h c L P cu i : (h <= fuel)%nat -> shows ∅ n t v -> at_gap v h c L P cu i ->
  runs (Cursor.normalize_forward_gap compare fk fv fuel) (cu, t) (fun s _ => shows ∅ n s.2 v /\ exists leaf, Cursor.leaf s.1 = Some leaf /\ gap v h c L P (Cursor.path s.1) leaf i /\
    (Cursor.position leaf < Cursor.len leaf \/ i = vlen L)) (fun s => intact v s.2).
Proof.
  intros Hf Hs (leaf & El & Hg). unfold Cursor.normalize_forward_gap. apply runs_gets. cbn [fst]. rewrite El. destruct (gap_bounds _ _ _ _ _ _ _ _ _ _ _ Hg) as (B1 & B2 & B3 & B4).
  destruct (Z.eqb_spec (Cursor.position leaf) (Cursor.len leaf)); [|apply runs_ret; split; [done|]; exists leaf; split; [done|]; split; [done|]; left; lia].
  eapply runs_bind; [by eapply (adjacent_runs Next)|]. intros [cu1 t1] r (Hs1 & E1 & Hr). cbn [fst snd] in *. assert (Hedge : edge Next leaf i = i) by (cbn; lia). rewrite Hedge in Hr. cbn [beyond] in Hr. destruct (Z.ltb_spec i (vlen L)).
  - destruct Hr as (leaf' & -> & Hg' & He). eexists _, (Okay tt). split; [reflexivity|]. split; [done|]. exists leaf'. split; [done|]. split; [done|]. left. destruct (gap_bounds _ _ _ _ _ _ _ _ _ _ _ Hg'). cbn in He. lia.
  - destruct Hr as [-> Ep]. apply runs_ret. split; [done|]. exists leaf. cbn [fst]. rewrite E1, Ep. split; [done|]. split; [done|]. right. lia.
Qed.

(** ** Comparing cursors *)

Lemma gap_leaf_page v h : forall c L P path leaf i, gap v h c L P path leaf i -> (Cursor.leaf_page leaf).1 ∈ P.
Proof.
  induction h as [|h IH]; intros c L P path leaf i.
  - intros (lo & hi & page & Hn & -> & _ & -> & _). left.
  - intros (mem & C1 & d & C2 & La & Lc & Lb & Pa & Pc & Pb & path' & i' & HF & _ & Hg & _). destruct HF as (? & ? & ? & ? & ? & ? & _ & _ & _ & _ & _ & _ & ->). apply IH in Hg. set_solver.
Qed.
Lemma app_before {A} (C1 C2 D1 D2 : list A) (d e : A) : C1 ++ d :: C2 = D1 ++ e :: D2 -> (length C1 < length D1)%nat -> exists X, D1 = C1 ++ d :: X.
Proof.
  intros E Hlt. exists (drop (S (length C1)) D1). pose proof (f_equal (take (S (length C1))) E) as Et. rewrite (take_app_le D1) in Et by lia. replace (take (S (length C1)) (C1 ++ d :: C2)) with (C1 ++ [d]) in Et.
  - rewrite <-(take_drop (S (length C1)) D1) at 1. by rewrite <-Et, <-app_assoc.
  - rewrite take_app, take_ge by lia. replace (S (length C1) - length C1)%nat with 1%nat by lia. done.
Qed.
(** The child of one focus is before the child of the other. *)
Lemma focus_before v h c L P m1 C1 d C2 La Lc Lb Pa Pc Pb m2 D1 e D2 Ma Mc Mb Qa Qc Qb : focus v h c L P m1 C1 d C2 La Lc Lb Pa Pc Pb -> focus v h c L P m2 D1 e D2 Ma Mc Mb Qa Qc Qb ->
  (length C1 < length D1)%nat -> exists X Y, Ma = La ++ Lc ++ X /\ Qa = Pa ++ Pc ++ Y.
Proof.
  intros (lo & hi & lo' & hi' & K1 & K2 & N1 & H1 & F1 & F2 & F3 & _ & _) (lo2 & hi2 & lo2' & hi2' & J1 & J2 & N2 & H2 & G1 & G2 & G3 & _ & _) Hlt. pose proof (bn_page N1) as E. rewrite (bn_page N2) in E. injection E as ->.
  destruct (is_branch_unique _ _ _ _ _ _ (bn_branch N1) (bn_branch N2)) as [Ec _]. destruct (app_before _ _ _ _ _ _ Ec Hlt) as [X ->].
  destruct (prefix_app_inv _ _ _ _ _ _ _ _ _ G1) as (lo1 & hi1 & lo3 & I1 & I2 & Na & Nc & Nb & Ra & Rc & Rb & I3 & I4 & I5 & -> & ->).
  destruct (prefix_unique _ (tree_unique fk fv good v h) _ _ _ _ _ _ F1 _ _ _ _ _ I3) as [-> ->]. destruct (tree_unique fk fv good v h _ _ _ _ _ _ _ _ _ F2 I4) as [-> ->]. by exists Nb, Rb.
Qed.
Lemma focus_same v h c L P m1 C1 d C2 La Lc Lb Pa Pc Pb m2 D1 e D2 Ma Mc Mb Qa Qc Qb : focus v h c L P m1 C1 d C2 La Lc Lb Pa Pc Pb -> focus v h c L P m2 D1 e D2 Ma Mc Mb Qa Qc Qb ->
  length C1 = length D1 -> d = e /\ La = Ma /\ Lc = Mc /\ Pc = Qc.
Proof.
  intros (lo & hi & lo' & hi' & K1 & K2 & N1 & H1 & F1 & F2 & F3 & _ & _) (lo2 & hi2 & lo2' & hi2' & J1 & J2 & N2 & H2 & G1 & G2 & G3 & _ & _) Heq. pose proof (bn_page N1) as E. rewrite (bn_page N2) in E. injection E as ->.
  destruct (is_branch_unique _ _ _ _ _ _ (bn_branch N1) (bn_branch N2)) as [Ec _]. destruct (app_inj_1 _ _ _ _ Heq Ec) as [-> [= <- _]].
  destruct (prefix_unique _ (tree_unique fk fv good v h) _ _ _ _ _ _ F1 _ _ _ _ _ G1) as [-> _]. destruct (tree_unique fk fv good v h _ _ _ _ _ _ _ _ _ F2 G2) as [-> ->]. done.
Qed.
Notation start leaf i := (i - Cursor.position leaf).
(** Two leaves are the same, or one is before the other and the paths tell which. *)
Lemma compare_gaps v h : forall c L P p1 l1 i p2 l2 j, NoDup P -> gap v h c L P p1 l1 i -> gap v h c L P p2 l2 j -> length p1 = length p2 /\
  (((Cursor.leaf_page l1).1 = (Cursor.leaf_page l2).1 /\ start l1 i = start l2 j) \/
   ((Cursor.leaf_page l1).1 <> (Cursor.leaf_page l2).1 /\ Cursor.compare_paths p1 p2 = Ret Lt /\ start l1 i + Cursor.len l1 <= start l2 j) \/
   ((Cursor.leaf_page l1).1 <> (Cursor.leaf_page l2).1 /\ Cursor.compare_paths p1 p2 = Ret Gt /\ start l2 j + Cursor.len l2 <= start l1 i)).
Proof.
  induction h as [|h IH]; intros c L P p1 l1 i p2 l2 j Hnd.
  - intros (lo & hi & page & _ & _ & -> & -> & _) (lo2 & hi2 & page2 & _ & _ & -> & -> & _). split; [done|]. left. cbn. split; [done|lia].
  - intros (m1 & C1 & d & C2 & La & Lc & Lb & Pa & Pc & Pb & p1' & i' & F & -> & Hg1 & ->) (m2 & D1 & e & D2 & Ma & Mc & Mb & Qa & Qc & Qb & p2' & j' & G & -> & Hg2 & ->).
    assert (EP : P = c.1 :: Pa ++ Pc ++ Pb) by (by destruct F as (? & ? & ? & ? & ? & ? & _ & _ & _ & _ & _ & _ & E)). assert (EQ : P = c.1 :: Qa ++ Qc ++ Qb) by (by destruct G as (? & ? & ? & ? & ? & ? & _ & _ & _ & _ & _ & _ & E)).
    pose proof (gap_leaf_page _ _ _ _ _ _ _ _ Hg1) as In1. pose proof (gap_leaf_page _ _ _ _ _ _ _ _ Hg2) as In2.
    destruct (gap_bounds _ _ _ _ _ _ _ _ _ _ _ Hg1) as (A1 & A2 & A3 & A4). destruct (gap_bounds _ _ _ _ _ _ _ _ _ _ _ Hg2) as (B1 & B2 & B3 & B4).
    assert (Hlen : length p1' = length p2' -> length (Cursor.mk_branch (c.1, m1) (vlen C1) :: p1') = length (Cursor.mk_branch (c.1, m2) (vlen D1) :: p2')) by (cbn; lia).
    assert (Hdepth : forall c L P p l i, gap v h c L P p l i -> length p = h).
    { clear. induction h as [|h IH]; intros c L P p l i; [by intros (? & ? & ? & _ & _ & -> & _)|]. intros (? & ? & ? & ? & ? & ? & ? & ? & ? & ? & p' & ? & _ & -> & Hg & _). cbn. f_equal. by eapply IH. }
    split; [apply Hlen; rewrite (Hdepth _ _ _ _ _ _ Hg1), (Hdepth _ _ _ _ _ _ Hg2); done|]. cbn [Cursor.compare_paths Cursor.child_index]. destruct (Nat.lt_trichotomy (length C1) (length D1)) as [Hlt|[Heq|Hgt]].
    + destruct (focus_before _ _ _ _ _ _ _ _ _ _ _ _ _ _ _ _ _ _ _ _ _ _ _ _ _ F G Hlt) as (X & Y & -> & ->). right. left. split; [|split].
      * intros Ep. rewrite EQ in Hnd. apply NoDup_cons in Hnd as [_ Hnd]. apply NoDup_app in Hnd as (_ & Hd & _). apply (Hd (Cursor.leaf_page l1).1); [set_solver|]. rewrite Ep. set_solver.
      * unfold vlen. rewrite (proj2 (Z.compare_lt_iff _ _)) by lia. done.
      * rewrite !vlen_app. pose proof (vlen_nonneg X). lia.
    + destruct (focus_same _ _ _ _ _ _ _ _ _ _ _ _ _ _ _ _ _ _ _ _ _ _ _ _ _ F G Heq) as (<- & <- & <- & <-). assert (Hnd' : NoDup Pc).
      { rewrite EP in Hnd. apply NoDup_cons in Hnd as [_ Hnd]. apply NoDup_app in Hnd as (_ & _ & Hnd). by apply NoDup_app in Hnd as (Hnd & _). }
      destruct (IH _ _ _ _ _ _ _ _ _ Hnd' Hg1 Hg2) as [_ Hc]. replace (vlen C1 ?= vlen D1) with Eq by (unfold vlen; rewrite Heq; symmetry; apply Z.compare_refl).
      destruct Hc as [[H1 H2]|[(H1 & H2 & H3)|(H1 & H2 & H3)]]; [left; split; [done|lia]|right; left; split; [done|]; split; [done|lia]|right; right; split; [done|]; split; [done|lia]].
    + destruct (focus_before _ _ _ _ _ _ _ _ _ _ _ _ _ _ _ _ _ _ _ _ _ _ _ _ _ G F Hgt) as (X & Y & -> & ->). right. right. split; [|split].
      * intros Ep. rewrite EP in Hnd. apply NoDup_cons in Hnd as [_ Hnd]. apply NoDup_app in Hnd as (_ & Hd & _). apply (Hd (Cursor.leaf_page l1).1); [rewrite Ep; set_solver|]. set_solver.
      * unfold vlen. rewrite (proj2 (Z.compare_gt_iff _ _)) by lia. done.
      * rewrite !vlen_app. pose proof (vlen_nonneg X). lia.
Qed.
(** The comparison of a cursor that is not at the end of a leaf with another *)
Lemma compare_position_ok v h c L P front back leaf i j : NoDup P -> Cursor.leaf front = Some leaf -> gap v h c L P (Cursor.path front) leaf i -> (Cursor.position leaf < Cursor.len leaf \/ i = vlen L) ->
  at_gap v h c L P back j -> exists o, Cursor.compare_position front back = Ret o /\ (o = Lt <-> i < j).
Proof.
  intros Hnd El Hg Hnorm (leaf2 & El2 & Hg2). destruct (compare_gaps _ _ _ _ _ _ _ _ _ _ _ Hnd Hg Hg2) as [Hlen Hc]. destruct (gap_bounds _ _ _ _ _ _ _ _ _ _ _ Hg) as (A1 & A2 & A3 & A4). destruct (gap_bounds _ _ _ _ _ _ _ _ _ _ _ Hg2) as (B1 & B2 & B3 & B4).
  unfold Cursor.compare_position. rewrite El, El2. cbn [unwrap mbind outcome_bind]. destruct Hc as [[H1 H2]|Hc].
  - rewrite bool_decide_eq_true_2 by done. eexists. split; [done|]. rewrite Z.compare_lt_iff. lia.
  - assert (Hne : (Cursor.leaf_page leaf).1 <> (Cursor.leaf_page leaf2).1) by (by destruct Hc as [[? _]|[? _]]). rewrite bool_decide_eq_false_2 by done. unfold vlen. rewrite Hlen, Z.eqb_refl. cbn [rassert mbind outcome_bind].
    destruct Hc as [(_ & -> & H3)|(_ & -> & H3)]; eexists; (split; [done|]); split; try done; lia.
Qed.
End moving.
