(* ===== verification/Ranges.v ===== *)
(** The ranges of B-trees (src/src/tree_store/btree_cursor_range.rs): iterating from both ends
    over the pairs between two bounds, and the iterator over the pages of a tree
    (btree_iters.rs). *)
From S2P Require Import Prelude Buddy Pages Header Types KeyOrder Leaf LeafTheorems Branch PageStore Mutator Trees Building Insertion Btrees Lookup Sealing Store BtreeTheorems Cursors Gaps.

(** * The pairs within bounds *)

Section bounds.
  Context {compare valid cmp} `{BO : ByteOrder compare valid cmp}.

Definition above_bound (b : Bound) (k : list Z) : bool :=
  match b with Included q => negb (bool_decide (cmp k q = Lt)) | Excluded q => bool_decide (cmp k q = Gt) | Unbounded => true end.
Definition below_bound (b : Bound) (k : list Z) : bool :=
  match b with Included q => negb (bool_decide (cmp k q = Gt)) | Excluded q => bool_decide (cmp k q = Lt) | Unbounded => true end.
Definition pairs_between (lower upper : Bound) (L : list pair) : list pair := filter (fun x => above_bound lower x.1 && below_bound upper x.1 = true) L.
Definition bound_valid (b : Bound) : Prop := match b with Included q | Excluded q => valid q | Unbounded => True end.

(** The gaps at the bounds *)
Definition lower_position (b : Bound) : Position := match b with Included q => Before q | Excluded q => After q | Unbounded => Start end.
Definition upper_position (b : Bound) : Position := match b with Included q => After q | Excluded q => Before q | Unbounded => End_ end.
Lemma lower_goes_before b k : goes_before cmp (lower_position b) k = negb (above_bound b k).
Proof. destruct b as [q|q|]; cbn; [|..|done]; destruct (cmp k q); done. Qed.
Lemma upper_goes_before b k : goes_before cmp (upper_position b) k = below_bound b k.
Proof. destruct b as [q|q|]; cbn; [|..|done]; destruct (cmp k q); done. Qed.
Lemma bound_position_ok b : bound_valid b -> position_ok valid (lower_position b) /\ position_ok valid (upper_position b).
Proof. by destruct b. Qed.

(** Keys before a position are before all others. *)
Lemma goes_before_down p k1 k2 : position_ok valid p -> valid k1 -> valid k2 -> cmp k1 k2 = Lt -> goes_before cmp p k2 = true -> goes_before cmp p k1 = true.
Proof using BO.
  intros Hp H1 H2 Hlt. destruct p as [| |q|q]; cbn; [done|done|..].
  - destruct (cmp k2 q) eqn:E; try done. intros _. by rewrite (@bo_trans _ _ _ BO k1 k2 q).
  - intros Hk. assert (E : cmp k1 q = Lt) by (apply (cmp_lt_le (cmp := cmp) k1 k2 q); [done..|]; destruct (cmp k2 q); done). by rewrite E.
Qed.
Lemma rank_lookup p L : position_ok valid p -> Forall valid (keys_of L) -> sorted cmp (keys_of L) -> forall i k w, L !! i = Some (k, w) -> goes_before cmp p k = (Z.of_nat i <? rank cmp p L).
Proof using BO.
  intros Hp. induction L as [|[k0 w0] L IH]; intros Hv Hs i k w Hi; [done|]. cbn [keys_of map fst] in Hv, Hs. apply Forall_cons in Hv as [V0 Hv]. destruct Hs as [S0 Hs]. change ((k0, w0) :: L) with ([(k0, w0)] ++ L) in Hi |- *. rewrite rank_app.
  destruct (goes_before cmp p k0) eqn:E0.
  - rewrite (rank_all p [(k0, w0)]) by (constructor; [done|constructor]). change (vlen [(k0, w0)]) with 1. destruct i as [|i]; cbn in Hi.
    + injection Hi as <- <-. rewrite E0. symmetry. apply Z.ltb_lt. pose proof (rank_bounds (cmp := cmp) p L). lia.
    + rewrite (IH Hv Hs i k w Hi). destruct (Z.ltb_spec (Z.of_nat i) (rank cmp p L)), (Z.ltb_spec (Z.of_nat (S i)) (1 + rank cmp p L)); try done; lia.
  - rewrite (rank_none p [(k0, w0)]) by (constructor; [done|constructor]). assert (HL : Forall (fun k => goes_before cmp p k = false) (keys_of L)).
    { unfold above in S0. rewrite Forall_forall in *. intros k1 H1. destruct (goes_before cmp p k1) eqn:E1; [|done]. rewrite (goes_before_down p k0 k1) in E0; [done|done|done|by apply Hv|by apply S0|done]. }
    rewrite (rank_none p L) by done. assert (Ek : goes_before cmp p k = false).
    { destruct i as [|i]; cbn in Hi; [by injection Hi as <- <-|]. rewrite Forall_forall in HL. apply HL. apply list_elem_of_fmap. exists (k, w). split; [done|]. by eapply list_elem_of_lookup_2. }
    rewrite Ek. symmetry. apply Z.ltb_ge. lia.
Qed.

Lemma rank_mono p1 p2 L : Forall (fun k => goes_before cmp p1 k = true -> goes_before cmp p2 k = true) (keys_of L) -> rank cmp p1 L <= rank cmp p2 L.
Proof.
  unfold rank. induction L as [|x L IH]; [done|]. intros [Hx HL]%Forall_cons. specialize (IH HL). cbn in Hx. destruct (goes_before cmp p1 x.1) eqn:E1.
  - rewrite !filter_cons_True by auto. unfold vlen in *. cbn [length]. lia.
  - rewrite (filter_cons_False _ x) by congruence. rewrite filter_cons. case_decide; unfold vlen in *; cbn [length]; lia.
Qed.
(** Bounds that [range_is_empty] rejects have no key between them, and others are in order. *)
Lemma range_is_empty_ok lower upper : bound_valid lower -> bound_valid upper -> exists e, range_is_empty compare lower upper = Ret e /\
  forall k, valid k -> if (e : bool) then above_bound lower k && below_bound upper k = false else goes_before cmp (lower_position lower) k = true -> goes_before cmp (upper_position upper) k = true.
Proof using BO.
  intros Hl Hu.
  assert (Hcmp : forall a b k, valid a -> valid b -> valid k -> (cmp k a = Lt -> cmp a b = Lt -> cmp k b = Lt) /\ (cmp k a = Eq -> cmp k b = cmp a b) /\ (cmp a b = Eq -> cmp k a = cmp k b) /\ (cmp a b = Gt -> cmp b a = Lt)).
  { intros a b k Ha Hb Hk. split; [intros; by apply (@bo_trans _ _ _ BO k a b)|]. split; [by intros ->%(@bo_eq _ _ _ BO)|]. split; [by intros ->%(@bo_eq _ _ _ BO)|]. intros E. by rewrite (@bo_opp _ _ _ BO a b), E. }
  destruct lower as [a|a|], upper as [b|b|]; cbn [bound_valid range_is_empty] in *; try (eexists; split; [done|]; intros k Hk; cbn; done); rewrite (@bo_compare _ _ _ BO) by done; cbn [mbind outcome_bind]; destruct (cmp a b) eqn:E;
    (eexists; split; [done|]); intros k Hk; destruct (Hcmp a b k Hl Hu Hk) as (F1 & F2 & F3 & F4), (Hcmp b a k Hu Hl Hk) as (G1 & G2 & _ & _); cbn [above_bound below_bound lower_position upper_position goes_before];
    rewrite ?E in *; try rewrite (F4 eq_refl) in *; try rewrite (F3 eq_refl) in *; destruct (cmp k a), (cmp k b); intuition discriminate.
Qed.
(** The pairs between two gaps *)
Definition between (i j : Z) (L : list pair) : list pair := take (Z.to_nat (j - i)) (drop (Z.to_nat i) L).
Lemma lookup_between i j L k : 0 <= i -> between i j L !! k = if decide (i + Z.of_nat k < j) then L !! (Z.to_nat i + k)%nat else None.
Proof. intros Hi. unfold between. case_decide; [rewrite lookup_take_lt by lia; apply lookup_drop|apply lookup_take_ge; lia]. Qed.
Lemma filter_none {A} (f : A -> bool) (l : list A) : (forall x, x ∈ l -> f x = false) -> filter (fun x => f x = true) l = [].
Proof. induction l as [|x l IH]; [done|]. intros H. rewrite filter_cons_False by (rewrite H; [done|left]). apply IH. intros y Hy. apply H. by right. Qed.
Lemma filter_all {A} (f : A -> bool) (l : list A) : (forall x, x ∈ l -> f x = true) -> filter (fun x => f x = true) l = l.
Proof. induction l as [|x l IH]; [done|]. intros H. rewrite filter_cons_True by (rewrite H; [done|left]). rewrite IH; [done|]. intros y Hy. apply H. by right. Qed.
Lemma pairs_between_ranks lower upper L : bound_valid lower -> bound_valid upper -> Forall valid (keys_of L) -> sorted cmp (keys_of L) ->
  pairs_between lower upper L = between (rank cmp (lower_position lower) L) (rank cmp (upper_position upper) L) L.
Proof using BO.
  intros Hl Hu Hv Hs. set (i := rank cmp (lower_position lower) L). set (j := rank cmp (upper_position upper) L).
  pose proof (rank_bounds (cmp := cmp) (lower_position lower) L) as Bi. pose proof (rank_bounds (cmp := cmp) (upper_position upper) L) as Bj. fold i in Bi. fold j in Bj.
  assert (Hat : forall n k w, L !! n = Some (k, w) -> above_bound lower k && below_bound upper k = (i <=? Z.of_nat n) && (Z.of_nat n <? j)).
  { intros n k w Hn. pose proof (rank_lookup _ L (proj1 (bound_position_ok _ Hl)) Hv Hs n k w Hn) as E1. pose proof (rank_lookup _ L (proj2 (bound_position_ok _ Hu)) Hv Hs n k w Hn) as E2.
    rewrite lower_goes_before in E1. rewrite upper_goes_before in E2. fold i in E1. fold j in E2. rewrite E2. f_equal. destruct (above_bound lower k); cbn in E1; symmetry in E1 |- *; [apply Z.ltb_ge in E1; by apply Z.leb_le|apply Z.ltb_lt in E1; by apply Z.leb_gt]. }
  unfold pairs_between. rewrite <-(take_drop (Z.to_nat i) L) at 1. rewrite <-(take_drop (Z.to_nat (j - i)) (drop (Z.to_nat i) L)). fold (between i j L). rewrite !filter_app.
  rewrite (filter_none _ (take _ L)), (filter_all _ (between i j L)), (filter_none _ (drop _ (drop _ L))); [by rewrite app_nil_r|..]; intros [k w] [n Hn]%list_elem_of_lookup; cbn [fst].
  - rewrite drop_drop, lookup_drop in Hn. rewrite (Hat _ _ _ Hn). apply andb_false_iff. right. apply Z.ltb_ge. lia.
  - rewrite lookup_between in Hn by lia. case_decide; [|done]. rewrite (Hat _ _ _ Hn). apply andb_true_iff. split; [apply Z.leb_le; lia|apply Z.ltb_lt; lia].
  - apply lookup_take_Some in Hn as [Hn Hlt]. rewrite (Hat _ _ _ Hn). apply andb_false_iff. left. apply Z.leb_gt. lia.
Qed.
End bounds.

Lemma between_front (L : list pair) i j : 0 <= i < j -> j <= vlen L -> exists x, L !! Z.to_nat i = Some x /\ between i j L = x :: between (i + 1) j L.
Proof.
  intros Hi Hj. destruct (lookup_lt_is_Some_2 L (Z.to_nat i)) as [x Hx]; [unfold vlen in Hj; lia|]. exists x. split; [done|]. unfold between. rewrite (drop_S _ x) by done. replace (Z.to_nat (j - i)) with (S (Z.to_nat (j - (i + 1)))) by lia.
  cbn [take]. by replace (Z.to_nat (i + 1)) with (S (Z.to_nat i)) by lia.
Qed.
Lemma between_back (L : list pair) i j : 0 <= i < j -> j <= vlen L -> exists x, L !! Z.to_nat (j - 1) = Some x /\ between i j L = between i (j - 1) L ++ [x].
Proof.
  intros Hi Hj. destruct (lookup_lt_is_Some_2 L (Z.to_nat (j - 1))) as [x Hx]; [unfold vlen in Hj; lia|]. exists x. split; [done|]. unfold between. replace (Z.to_nat (j - i)) with (S (Z.to_nat (j - 1 - i))) by lia.
  apply take_S_r. rewrite lookup_drop. rewrite <-Hx. f_equal. lia.
Qed.
Lemma between_none (L : list pair) i j : j <= i -> between i j L = [].
Proof. intros Hj. unfold between. by replace (Z.to_nat (j - i)) with 0%nat by lia. Qed.

(** The first or the last pair is taken. *)
Definition pop (side : Side) (R : list pair) : option pair * list pair := match side with Front => (head R, tail R) | Back => (last R, take (length R - 1) R) end.
Definition taken (L : list pair) (side : Side) (i j : Z) : option pair * Z * Z := match side with Front => (L !! Z.to_nat i, i + 1, j) | Back => (L !! Z.to_nat (j - 1), i, j - 1) end.
Lemma pop_between (L : list pair) side i j : 0 <= i < j -> j <= vlen L -> pop side (between i j L) = ((taken L side i j).1.1, between (taken L side i j).1.2 (taken L side i j).2 L).
Proof.
  intros Hi Hj. destruct side; cbn [pop taken fst snd].
  - destruct (between_front L i j Hi Hj) as (x & -> & ->). done.
  - destruct (between_back L i j Hi Hj) as (x & -> & ->). rewrite last_snoc, length_app. cbn [length]. replace (length (between i (j - 1) L) + 1 - 1)%nat with (length (between i (j - 1) L)) by lia. by rewrite take_app_length.
Qed.
#[global] Arguments above_bound cmp b k : clear implicits.
#[global] Arguments below_bound cmp b k : clear implicits.
#[global] Arguments pairs_between cmp lower upper L : clear implicits.
#[global] Arguments bound_valid valid b : clear implicits.


Definition range_closed (r : BtreeCursorRange.t) : Prop := BtreeCursorRange.front r = Exhausted /\ BtreeCursorRange.back r = Exhausted.
Lemma closed_next {St : Type} `{PageStore St} {compare} (fk fv : option Z) fuel side r (t : txn St) E : range_closed r -> runs (BtreeCursorRange.next_from compare fk fv fuel side) (r, t) (fun s g => s = (r, t) /\ g = None) E.
Proof.
  intros [Hf Hb]. eapply (runs_bind _ _ _ (fun s b => s = (r, t) /\ b = false)).
  - unfold BtreeCursorRange.prepare. apply runs_gets. cbn [fst]. assert (Es : BtreeCursorRange.slot r side = Exhausted) by (by destruct side). rewrite Es. apply runs_ret_bind. eexists _, (Okay _). split; [reflexivity|]. cbn [fst]. by rewrite Es.
  - intros s b [-> ->]. by apply runs_ret.
Qed.

(** * Ranges of a tree *)

Section range.
  Context {St : Type} `{LS : PageStoreLaws St}.
  Context {compare valid cmp} `{BO : ByteOrder compare valid cmp} (fk fv : option Z) (good : list Z -> Z -> Prop).
  Notation tree := (tree valid cmp fk fv good).
  Notation at_gap := (at_gap fk fv good (valid := valid) (cmp := cmp)).
  Context (v : view) (h : nat) (c : child) (L : list pair) (P : list PageNumber.t) (HT : tree v h None None c L P) (Hnd : NoDup P).
  Context (lower upper : Bound) (Hlo : bound_valid valid lower) (Hup : bound_valid valid upper).
  Notation from := (rank cmp (lower_position lower) L).
  Notation upto := (rank cmp (upper_position upper) L).

Lemma tree_order : Forall valid (keys_of L) /\ sorted cmp (keys_of L).
Proof using BO HT. by destruct (tree_pairs _ _ _ _ _ _ _ _ _ _ HT). Qed.

(** A side that is at the gap [i], or will be *)
Definition slot_at (s : Slot) (first i : Z) : Prop := match s with Uninitialized => i = first | Active cu => at_gap v h c L P cu i | Exhausted => False end.
(** The pairs from [i] to [j] are left. *)
Record range_open (r : BtreeCursorRange.t) (i j : Z) : Prop := {
  ro_root : BtreeCursorRange.root r = Some c.1;
  ro_lower : BtreeCursorRange.lower_bound r = lower;
  ro_upper : BtreeCursorRange.upper_bound r = upper;
  ro_order : 0 <= i <= j;
  ro_end : j <= vlen L;
  ro_front : slot_at (BtreeCursorRange.front r) from i;
  ro_back : slot_at (BtreeCursorRange.back r) upto j }.
Definition range_left (r : BtreeCursorRange.t) (R : list pair) : Prop := (exists i j, range_open r i j /\ R = between i j L) \/ (range_closed r /\ R = []).

(** The gap of a side *)
Definition gap_of (side : Side) (i j : Z) : Z := match side with Front => i | Back => j end.
Definition first_of (side : Side) : Z := match side with Front => from | Back => upto end.
Lemma slot_of side r i j : range_open r i j -> slot_at (BtreeCursorRange.slot r side) (first_of side) (gap_of side i j).
Proof using. intros []. by destruct side. Qed.
Lemma open_set side r i j x cu : range_open r i j -> at_gap v h c L P cu x -> 0 <= match side with Front => x | Back => i end <= match side with Front => j | Back => x end ->
  match side with Front => j | Back => x end <= vlen L -> range_open (BtreeCursorRange.set_slot r side (Active cu)) match side with Front => x | Back => i end match side with Front => j | Back => x end.
Proof using. intros [] Hat Ho He. destruct side; by split. Qed.
Lemma on_cursor_runs {A} side (op : M (Cursor.t * txn St) A) r t cu Q : BtreeCursorRange.slot r side = Active cu -> runs op (cu, t) Q (fun s => intact v s.2) ->
  runs (BtreeCursorRange.on_cursor side op) (r, t) (fun s a => exists cu', s.1 = BtreeCursorRange.set_slot r side (Active cu') /\ Q (cu', s.2) a) (fun s => intact v s.2).
Proof using.
  intros Hs (s & a & E & Ha). unfold runs, BtreeCursorRange.on_cursor. cbn [fst snd]. rewrite Hs. cbn [active unwrap mbind outcome_bind]. rewrite E. cbn [mbind outcome_bind fst snd]. eexists _, a. split; [reflexivity|].
  destruct a as [a|e]; [|exact Ha]. exists s.1. split; [done|]. by destruct s.
Qed.
Lemma side_position_eq side r i j : range_open r i j -> BtreeCursorRange.side_position r side = match side with Front => lower_position lower | Back => upper_position upper end.
Proof using Hlo Hup. intros [_ <- <- _ _ _ _]. destruct side; cbn; [by destruct (BtreeCursorRange.lower_bound r)|by destruct (BtreeCursorRange.upper_bound r)]. Qed.

Context (fuel : nat) (Hfuel : (h < fuel)%nat) (n : nat).
Lemma prepare_side_runs side r t i j : shows ∅ n t v -> range_open r i j ->
  runs (BtreeCursorRange.prepare compare fk fv fuel side) (r, t) (fun s b => shows ∅ n s.2 v /\ b = true /\ range_open s.1 i j /\ (exists cu, BtreeCursorRange.slot s.1 side = Active cu) /\
    BtreeCursorRange.opposite_slot s.1 side = BtreeCursorRange.opposite_slot r side) (fun s => intact v s.2).
Proof using All.
  intros Hs Ho. pose proof (slot_of side r i j Ho) as Hslot. unfold BtreeCursorRange.prepare. apply runs_gets. cbn [fst]. destruct (BtreeCursorRange.slot r side) as [|cu|] eqn:Es; [| |done]; cbn [is_uninitialized].
  - destruct (seek_runs fk fv good fuel n t v h c L P (Cursor.new c.1) (BtreeCursorRange.side_position r side) Hfuel Hs HT eq_refl) as (s & x & E & Hx).
    { rewrite (side_position_eq side r i j Ho). destruct side; apply bound_position_ok; done. }
    eapply (runs_bind _ _ _ (fun s1 _ => shows ∅ n s1.2 v /\ exists cu, s1.1 = BtreeCursorRange.set_slot r side (Active cu) /\ at_gap v h c L P cu (gap_of side i j))).
    + unfold runs, BtreeCursorRange.initialize_side. cbn [fst snd]. rewrite Es. cbn [is_uninitialized rassert mbind outcome_bind]. rewrite (ro_root _ _ _ Ho). cbn [unwrap mbind outcome_bind]. rewrite E. cbn [mbind outcome_bind].
      destruct x as [[]|e]; eexists _, _; (split; [reflexivity|]); [|exact Hx]. destruct Hx as [Hs1 Hat]. split; [done|]. exists s.1. split; [done|]. rewrite (side_position_eq side r i j Ho) in Hat. cbn in Hslot. rewrite Hslot. by destruct side.
    + intros [r1 t1] _ (Hs1 & cu & E1 & Hat). cbn [fst snd] in *. eexists _, (Okay _). split; [reflexivity|]. cbn [fst snd]. rewrite E1. destruct Ho as [O1 O2 O3 O4 O5 O6 O7]. split; [done|]. destruct side; (split; [done|]); (split; [by split|]); (split; [by eexists|done]).
  - apply runs_ret_bind. eexists (r, t), (Okay _). split; [reflexivity|]. cbn [fst snd]. rewrite Es. split; [done|]. split; [done|]. split; [done|]. split; [by eexists|done].
Qed.

(** The slots are as before, but for the positions of their cursors. *)
Definition slots_like (r r' : BtreeCursorRange.t) : Prop := forall side,
  is_uninitialized (BtreeCursorRange.slot r' side) = is_uninitialized (BtreeCursorRange.slot r side) /\ ((exists cu, BtreeCursorRange.slot r side = Active cu) -> exists cu, BtreeCursorRange.slot r' side = Active cu).
Lemma remaining_runs r t i j : shows ∅ n t v -> range_open r i j ->
  runs (BtreeCursorRange.cursors_have_remaining compare fk fv fuel) (r, t) (fun s b => shows ∅ n s.2 v /\ range_open s.1 i j /\ slots_like r s.1 /\
    b = (is_uninitialized (BtreeCursorRange.front r) || is_uninitialized (BtreeCursorRange.back r) || (i <? j))) (fun s => intact v s.2).
Proof using All.
  intros Hs Ho. pose proof Ho as [O1 O2 O3 O4 O5 O6 O7]. unfold BtreeCursorRange.cursors_have_remaining. apply runs_gets. cbn [fst]. destruct (BtreeCursorRange.front r) as [|front|] eqn:Ef; [|destruct (BtreeCursorRange.back r) as [|back|] eqn:Eb; [| |done]|done].
  - apply runs_ret_bind, runs_gets. cbn [fst]. rewrite Ef. cbn [slot_at] in O7. destruct (BtreeCursorRange.back r) eqn:Eb; [..|done]; (apply runs_ret; split; [done|]; split; [done|]; split; [by intros side|done]).
  - apply runs_ret_bind, runs_gets. cbn [fst]. rewrite Ef, Eb. apply runs_ret. split; [done|]. split; [done|]. split; [by intros side|done].
  - cbn [slot_at] in O6, O7. eapply runs_bind; [apply (on_cursor_runs Front _ r t front); [exact Ef|]; apply (normalize_runs fk fv good fuel n t v h c L P front i); [lia|done|done]|].
    intros [r1 t1] _ (cu & E1 & Hs1 & leaf & El & Hg & Hnorm). cbn [fst snd] in *. subst r1. apply runs_gets. cbn [fst BtreeCursorRange.set_slot BtreeCursorRange.front BtreeCursorRange.back]. rewrite Eb.
    destruct (compare_position_ok fk fv good v h c L P cu back leaf i j Hnd El Hg Hnorm O7) as (o & Eo & Hlt). eapply runs_lift; [exact Eo|]. apply runs_ret. split; [done|]. split.
    + split; try done. by exists leaf.
    + split; [intros [|]; cbn; rewrite ?Ef, ?Eb; split; try done; intros _; by eexists|]. cbn [is_uninitialized orb]. destruct (Z.ltb_spec i j), o; try done; [destruct Hlt as [_ Hlt]; by specialize (Hlt ltac:(lia))..|destruct Hlt as [Hlt _]; specialize (Hlt eq_refl); lia].
Qed.

Lemma closed_left r : range_left (BtreeCursorRange.closed r) [].
Proof using. right. done. Qed.

(** The pair that the cursor of a side goes over is within the bound of the other side. *)
Lemma open_bound side r i j g q w : range_open r i j -> is_uninitialized (BtreeCursorRange.opposite_slot r side) = true ->
  (taken L side i j).1.1 = Some (q, w) -> 0 <= match side with Front => i | Back => j - 1 end -> EntryGuard.key_bytes g = Ret q ->
  BtreeCursorRange.entry_within_open_bound compare r g side = Ret (i <? j).
Proof using All.
  intros [O1 O2 O3 O4 O5 O6 O7] Hun Hq Hge Hk. destruct tree_order as [Hv Hs]. assert (Hval : valid q).
  { rewrite Forall_forall in Hv. apply Hv. apply list_elem_of_fmap. exists (q, w). split; [done|]. destruct side; cbn in Hq; by eapply list_elem_of_lookup_2. }
  assert (Hcmp : forall b, valid b -> compare q b = Ret (cmp q b)) by (intros b Hb; by apply (@bo_compare _ _ _ BO)).
  unfold BtreeCursorRange.entry_within_open_bound. rewrite Hk. cbn [mbind outcome_bind]. destruct side; cbn [BtreeCursorRange.opposite_slot taken fst] in Hun, Hq.
  - rewrite O3. destruct (BtreeCursorRange.back r); [|done..]. cbn in O7. pose proof (rank_lookup _ L (proj2 (bound_position_ok _ Hup)) Hv Hs _ q w Hq) as E. rewrite upper_goes_before, Z2Nat.id in E by done. rewrite <-O7 in E. rewrite <-E.
    clear -Hcmp Hup. destruct upper as [b|b|]; cbn [below_bound bound_valid] in *; [rewrite Hcmp by done..|done]; cbn [mbind outcome_bind]; destruct (cmp q b); done.
  - rewrite O2. destruct (BtreeCursorRange.front r); [|done..]. cbn in O6. pose proof (rank_lookup _ L (proj1 (bound_position_ok _ Hlo)) Hv Hs _ q w Hq) as E. rewrite lower_goes_before, Z2Nat.id in E by done. rewrite <-O6 in E.
    assert (E2 : above_bound cmp lower q = (i <? j)) by (destruct (above_bound cmp lower q), (Z.ltb_spec (j - 1) i), (Z.ltb_spec i j); cbn in E; try done; lia). rewrite <-E2.
    clear -Hcmp Hlo. destruct lower as [b|b|]; cbn [above_bound bound_valid] in *; [rewrite Hcmp by done..|done]; cbn [mbind outcome_bind]; destruct (cmp q b); done.
Qed.
(** The cursor of a side goes over a pair. *)
Lemma advance_runs side r t i j : shows ∅ n t v -> range_open r i j -> (exists cu, BtreeCursorRange.slot r side = Active cu) ->
  runs (BtreeCursorRange.advance_cursor compare fk fv fuel side) (r, t) (fun s g => shows ∅ n s.2 v /\ BtreeCursorRange.opposite_slot s.1 side = BtreeCursorRange.opposite_slot r side /\
    BtreeCursorRange.lower_bound s.1 = lower /\ BtreeCursorRange.upper_bound s.1 = upper /\ BtreeCursorRange.root s.1 = Some c.1 /\
    let more := match side with Front => i <? vlen L | Back => 0 <? j end in
    entry_is g (if more then (taken L side i j).1.1 else None) /\ (more = true -> exists cu, s.1 = BtreeCursorRange.set_slot r side (Active cu) /\ at_gap v h c L P cu match side with Front => i + 1 | Back => j - 1 end)) (fun s => intact v s.2).
Proof using All.
  intros Hs Ho [cu Hcu]. pose proof (slot_of side r i j Ho) as Hat. rewrite Hcu in Hat. cbn [slot_at] in Hat. destruct Ho as [O1 O2 O3 O4 O5 O6 O7]. destruct side; cbn [BtreeCursorRange.advance_cursor gap_of] in *.
  - eapply runs_weaken; [apply (on_cursor_runs Front _ r t cu); [exact Hcu|]; by apply (next_runs fk fv good fuel n t v h c L P cu i)| |done]. intros [r1 t1] g (cu1 & E1 & Hs1 & He & Hg). cbn [fst snd] in *. subst r1. cbn [more] in *.
    split; [done|]. split; [done|]. split; [done|]. split; [done|]. split; [done|]. split; [by destruct (i <? vlen L)|]. intros Hm. rewrite Hm in Hg. by exists cu1.
  - eapply runs_weaken; [apply (on_cursor_runs Back _ r t cu); [exact Hcu|]; by apply (prev_runs fk fv good fuel n t v h c L P cu j)| |done]. intros [r1 t1] g (cu1 & E1 & Hs1 & He & Hg). cbn [fst snd] in *. subst r1. cbn [more] in *.
    split; [done|]. split; [done|]. split; [done|]. split; [done|]. split; [done|]. split; [by destruct (0 <? j)|]. intros Hm. rewrite Hm in Hg. by exists cu1.
Qed.

Lemma closing_runs {A} r t (x : A) : shows ∅ n t v -> runs (_ ← BtreeCursorRange.close; mret x) (r, t) (fun s g => shows ∅ n s.2 v /\ g = x /\ range_left s.1 []) (fun s => intact v s.2).
Proof using All. intros Hs. eapply (runs_bind _ _ _ (fun s _ => s = (BtreeCursorRange.closed r, t))); [by eexists _, (Okay tt)|]. intros s _ ->. apply runs_ret. split; [done|]. split; [done|apply closed_left]. Qed.

(** The cursor that went over a pair leaves the pairs after it. *)
Lemma taken_left side r i j cu : range_open r i j -> i < j -> at_gap v h c L P cu match side with Front => i + 1 | Back => j - 1 end ->
  range_left (BtreeCursorRange.set_slot r side (Active cu)) (pop side (between i j L)).2.
Proof using All.
  intros Ho Hij Hat. pose proof Ho as [_ _ _ O4 O5 _ _]. rewrite pop_between by lia. left. exists (taken L side i j).1.2, (taken L side i j).2. split; [|done].
  destruct Ho as [O1 O2 O3 _ _ O6 O7]. destruct side; cbn [taken fst snd]; split; try done; lia.
Qed.
Lemma remaining_order side r r' i j : (exists cu, BtreeCursorRange.slot r side = Active cu) -> slots_like r r' -> is_uninitialized (BtreeCursorRange.opposite_slot r' side) = false ->
  true = is_uninitialized (BtreeCursorRange.front r) || is_uninitialized (BtreeCursorRange.back r) || (i <? j) -> i < j.
Proof using.
  intros [cu Hcu] Hl Hop Hb. destruct (Hl Front) as [Hf _], (Hl Back) as [Hk _]. destruct side; cbn [BtreeCursorRange.slot BtreeCursorRange.opposite_slot] in *.
  - rewrite Hcu, <-Hk, Hop in Hb. by apply Z.ltb_lt.
  - rewrite <-Hf, Hop, Hcu in Hb. by apply Z.ltb_lt.
Qed.
(** A call of [next] or [next_back] takes the first or the last of the pairs left. *)
Lemma next_from_runs side r t R : shows ∅ n t v -> range_left r R ->
  runs (BtreeCursorRange.next_from compare fk fv fuel side) (r, t) (fun s g => shows ∅ n s.2 v /\ entry_is g (pop side R).1 /\ range_left s.1 (pop side R).2) (fun s => intact v s.2).
Proof using All.
  intros Hs [(i & j & Ho & ->)|[Hc ->]].
  2:{ eapply runs_weaken; [by apply (closed_next fk fv fuel side r t (fun s => intact v s.2))| |done]. intros s g [-> ->]. split; [done|]. destruct side; (split; [done|by right]). }
  eapply runs_bind; [by apply (prepare_side_runs side r t i j)|]. intros [r1 t1] b (Hs1 & -> & Ho1 & Hac & _). cbn [fst snd] in *.
  eapply runs_bind; [by apply (remaining_runs r1 t1 i j)|]. intros [r2 t2] b (Hs2 & Ho2 & Hlike & Hb). cbn [fst snd] in *.
  destruct b.
  2:{ eapply runs_weaken; [by apply closing_runs| |done]. intros s g (Hs3 & -> & Hl). symmetry in Hb. apply orb_false_iff in Hb as [_ Hb%Z.ltb_ge]. rewrite between_none by done. destruct side; done. }
  destruct (Hlike side) as [_ Hac2]. specialize (Hac2 Hac). eapply runs_bind; [by apply (advance_runs side r2 t2 i j)|]. intros [r3 t3] g (Hs3 & Hop & Hlo3 & Hup3 & Hroot & He & Hg). cbn [fst snd] in *.
  pose proof Ho2 as [_ _ _ O4 O5 _ _]. destruct (match side with Front => i <? vlen L | Back => 0 <? j end) eqn:Em.
  2:{ destruct g; [done|]. eapply runs_weaken; [by apply closing_runs| |done]. intros s g (Hs4 & -> & Hl). rewrite between_none by (destruct side; apply Z.ltb_ge in Em; lia). destruct side; done. }
  destruct (Hg eq_refl) as (cu & E3 & Hat). subst r3. assert (Hge : 0 <= match side with Front => i | Back => j - 1 end) by (destruct side; apply Z.ltb_lt in Em; lia).
  assert (Ht : is_Some (taken L side i j).1.1) by (destruct side; apply lookup_lt_is_Some_2; apply Z.ltb_lt in Em; unfold vlen in *; lia).
  destruct Ht as [[q w] Et]. rewrite Et in He. destruct g as [g|]; [|done]. pose proof He as [Hkey _].
  assert (Hend : i < j -> shows ∅ n t3 v /\ entry_is (Some g) (pop side (between i j L)).1 /\ range_left (BtreeCursorRange.set_slot r2 side (Active cu)) (pop side (between i j L)).2).
  { intros Hij. split; [done|]. split; [|by apply taken_left]. rewrite pop_between by lia. cbn [fst]. by rewrite Et. }
  apply runs_gets. cbn [fst]. rewrite Hop. destruct (is_uninitialized (BtreeCursorRange.opposite_slot r2 side)) eqn:Eo.
  - eapply runs_lift; [by transitivity (BtreeCursorRange.entry_within_open_bound compare r2 g side); [destruct side|apply (open_bound side r2 i j g q w)]|].
    destruct (Z.ltb_spec i j); [by apply runs_ret, Hend|]. eapply runs_weaken; [by apply closing_runs| |done]. intros s x (Hs4 & -> & Hl). rewrite between_none by lia. destruct side; done.
  - apply runs_ret_bind, runs_ret, Hend. by apply (remaining_order side r1 r2).
Qed.
End range.

(** * The iterators of a client *)

Section client.
  Context {St : Type} `{PageStore St} (compare : list Z -> list Z -> outcome comparison) (fk fv : option Z) (fuel : nat).

Definition read_entry (g : option EntryGuard.t) : outcome (option pair) :=
  match g with Some g => k ← EntryGuard.key_bytes g; w ← EntryGuard.value_bytes g; Ret (Some (k, w)) | None => Ret None end.
(** Calls of [next] and [next_back] *)
Fixpoint iterate (sides : list Side) : M (BtreeCursorRange.t * txn St) (list (option pair)) :=
  match sides with
  | [] => mret []
  | side :: sides => g ← BtreeCursorRange.next_from compare fk fv fuel side; x ← lift (read_entry g); l ← iterate sides; mret (x :: l)
  end.
(** An iterator is used, and dropped. *)
Definition with_iterator {X A} (x : X) (c : M (X * txn St) A) : M (txn St) A := fun t => r ← c (x, t); Ret (r.1.2, r.2).
Definition iterate_range (root : option BtreeHeader.t) (lower upper : Bound) (sides : list Side) : M (txn St) (list (option pair)) :=
  r ← range_mut compare root lower upper; with_iterator r (iterate sides).
Fixpoint next_pages (n : nat) : M (AllPageNumbersBtreeIter.t * txn St) (list (option PageNumber.t)) :=
  match n with
  | O => mret []
  | S n => p ← AllPageNumbersBtreeIter.next fk; l ← next_pages n; mret (p :: l)
  end.
End client.

(** What the client expects: the pairs are taken from a list. *)
Fixpoint pops (sides : list Side) (R : list pair) : list (option pair) :=
  match sides with [] => [] | side :: sides => (pop side R).1 :: pops sides (pop side R).2 end.

Section iterators.
  Context {St : Type} `{LS : PageStoreLaws St}.
  Context {compare valid cmp} `{BO : ByteOrder compare valid cmp} (fk fv : option Z).
  Notation good := (sum_ok fk fv).

Lemma with_iterator_runs {X A} (x : X) (c : M (X * txn St) A) t Q v : runs c (x, t) (fun s a => Q s.2 a) (fun s => intact v s.2) -> runs (with_iterator x c) t Q (intact v).
Proof. intros ([x' t'] & r & E & Hr). exists t', r. split; [|done]. unfold with_iterator. by rewrite E. Qed.
Lemma read_entry_ok g x : entry_is g x -> read_entry g = Ret x.
Proof. destruct g as [g|], x as [[k w]|]; try done. intros [E1 E2]. cbn [read_entry]. by rewrite E1, E2. Qed.

Lemma iterate_runs v h c L P lower upper fuel n sides : tree valid cmp fk fv good v h None None c L P -> NoDup P -> bound_valid valid lower -> bound_valid valid upper -> (h < fuel)%nat ->
  forall r t R, shows ∅ n t v -> range_left fk fv good v h c L P lower upper (valid := valid) (cmp := cmp) r R ->
  runs (iterate compare fk fv fuel sides) (r, t) (fun s l => shows ∅ n s.2 v /\ l = pops sides R) (fun s => intact v s.2).
Proof.
  intros HT Hnd Hlo Hup Hf. induction sides as [|side sides IH]; intros r t R Hs Hl; cbn [iterate]; [by apply runs_ret|].
  eapply runs_bind; [by apply (next_from_runs fk fv good v h c L P HT Hnd lower upper Hlo Hup fuel Hf n side r t R)|]. intros [r1 t1] g (Hs1 & He & Hl1). cbn [fst snd] in *.
  eapply runs_lift; [by apply read_entry_ok|]. eapply runs_bind; [by apply IH|]. intros s l [Hs2 ->]. apply runs_ret. done.
Qed.

(** A new range *)
Lemma new_range v h c L P lower upper : tree valid cmp fk fv good v h None None c L P -> bound_valid valid lower -> bound_valid valid upper ->
  exists r, BtreeCursorRange.new compare lower upper (Some c.1) = Ret r /\ range_left fk fv good v h c L P lower upper (valid := valid) (cmp := cmp) r (pairs_between cmp lower upper L).
Proof using BO.
  intros HT Hlo Hup. destruct (tree_order fk fv good v h c L P HT) as [Hv Hs]. destruct (range_is_empty_ok lower upper Hlo Hup) as (e & E & He). cbn [BtreeCursorRange.new]. rewrite E. cbn [mbind outcome_bind]. destruct e; (eexists; split; [done|]).
  - right. split; [done|]. apply filter_none. intros x Hx. apply He. rewrite Forall_forall in Hv. apply Hv. apply list_elem_of_fmap. by exists x.
  - left. rewrite pairs_between_ranks by done. eexists _, _. split; [|done]. split; try done.
    + split; [apply (rank_bounds (cmp := cmp))|]. apply rank_mono. eapply Forall_impl; [exact Hv|]. intros k Hk. by apply He.
    + apply (rank_bounds (cmp := cmp)).
Qed.
Lemma closed_runs v fuel n sides : forall r t, shows ∅ n t v -> range_closed r ->
  runs (iterate compare fk fv fuel sides) (r, t) (fun s l => shows ∅ n s.2 v /\ l = pops sides []) (fun s => intact v s.2).
Proof using.
  induction sides as [|side sides IH]; intros r t Hs Hc; cbn [iterate]; [by apply runs_ret|]. eapply runs_bind; [by apply closed_next|]. intros s g [-> ->]. cbn [read_entry]. apply runs_ret_bind. eapply runs_bind; [by apply IH|]. intros s l [Hs2 ->]. apply runs_ret. split; [done|]. by destruct side.
Qed.

(** ** The pages of a tree *)

(** The trees whose roots are on the stack, the top first, have the pages [R]. *)
Inductive stacked (v : view) : list PageNumber.t -> list PageNumber.t -> Prop :=
| stacked_nil : stacked v [] []
| stacked_cons h lo hi c L P stack R : tree valid cmp fk fv good v h lo hi c L P -> stacked v stack R -> stacked v (c.1 :: stack) (P ++ R).
Lemma stacked_forest v h lo hi cs ks L P stack R : forest valid (tree valid cmp fk fv good v h) lo hi cs ks L P -> stacked v stack R -> stacked v (map fst cs ++ stack) (P ++ R).
Proof.
  induction 1 as [lo hi c L P HT|lo k hi c cs ks L1 L2 P1 P2 HT _ _ IH]; intros HR; cbn [map app]; [by econstructor|]. rewrite <-app_assoc. econstructor; [exact HT|]. by apply IH.
Qed.
Lemma stack_children_runs a (cs : list child) (t : txn St) E : (forall i c, cs !! i = Some c -> BranchAccessor.child_page a (Z.of_nat i) = Ret (Some c.1)) -> forall k stack, (k <= length cs)%nat ->
  runs (for_each_m (fun child (_ : unit) => AllPageNumbersBtreeIter.push_child a child) (reverse (seqZ 0 (Z.of_nat k))) tt) (AllPageNumbersBtreeIter.mk (reverse stack), t)
    (fun s _ => s = (AllPageNumbersBtreeIter.mk (reverse (map fst (take k cs) ++ stack)), t)) E.
Proof.
  intros Hc. induction k as [|k IH]; intros stack Hk; [by apply runs_ret|]. rewrite seqZ_S, reverse_snoc. cbn [for_each_m]. destruct (lookup_lt_is_Some_2 cs k) as [c Ec]; [lia|].
  eapply (runs_bind _ _ _ (fun s _ => s = (AllPageNumbersBtreeIter.mk (reverse (c.1 :: stack)), t))).
  - unfold AllPageNumbersBtreeIter.push_child. eapply runs_lift; [by rewrite Z.add_0_l, (Hc k c Ec)|]. eexists _, (Okay tt). split; [reflexivity|]. cbn [fst snd AllPageNumbersBtreeIter.pending]. by rewrite reverse_cons.
  - intros s [] ->. eapply runs_weaken; [apply (IH (c.1 :: stack)); lia| |done]. intros s _ ->. rewrite (take_S_r _ _ c) by done. by rewrite map_app, <-app_assoc.
Qed.

(** A call of [next] takes the first of the pages. *)
Lemma next_page_runs v n t stack R : shows ∅ n t v -> stacked v stack R ->
  runs (AllPageNumbersBtreeIter.next fk) (AllPageNumbersBtreeIter.mk (reverse stack), t)
    (fun s p => shows ∅ n s.2 v /\ p = head R /\ exists stack', s.1 = AllPageNumbersBtreeIter.mk (reverse stack') /\ stacked v stack' (tail R)) (fun s => intact v s.2).
Proof.
  intros Hs HR. unfold AllPageNumbersBtreeIter.next. apply runs_gets. cbn [fst AllPageNumbersBtreeIter.pending]. destruct HR as [|h lo hi c L P stack R HT HR]; [apply runs_ret; split; [done|]; split; [done|]; by exists []; split; [|constructor]|].
  rewrite reverse_cons, last_snoc, length_app. cbn [length]. rewrite Nat.add_sub, take_app_length.
  eapply (runs_bind _ _ _ (fun s _ => s = (AllPageNumbersBtreeIter.mk (reverse stack), t))); [by eexists _, (Okay tt)|]. intros s [] ->.
  destruct (tree_page _ _ _ _ _ _ _ _ _ _ HT) as [page Hp]. eapply runs_bind; [by apply in_store_read|]. intros [x t1] mem (-> & E1 & Hs1). cbn [fst snd] in *. subst x. destruct h as [|h].
  - destruct HT as (page' & Hn & ->). pose proof (ln_page Hn) as E. rewrite Hp in E. injection E as <-. destruct (ln_leaf Hn) as (pad & slack & -> & _). eapply runs_lift; [apply vget_leaf|]. rewrite Z.eqb_refl. apply runs_ret. split; [done|]. split; [done|]. by exists stack.
  - destruct HT as (page' & cs & ks & P' & Hn & HF & ->). pose proof (bn_page Hn) as E. rewrite Hp in E. injection E as <-. destruct (bn_branch Hn) as (pad & pad4 & slack & Hpad & -> & Hok).
    eapply runs_lift; [apply vget_branch|]. cbn [Z.eqb LEAF BRANCH Pos.eqb]. eapply runs_lift; [by apply branch_accessor|].
    eapply runs_bind; [|intros s [] Es; apply runs_ret; instantiate (1 := fun s _ => s = (AllPageNumbersBtreeIter.mk (reverse (map fst cs ++ stack)), t1)) in Es; cbn beta in Es; subst s; split; [done|]; split; [done|]; eexists; split; [done|]; by eapply stacked_forest].
    pose proof (forest_length _ _ _ _ _ _ _ HF) as Hlen. replace (BranchAccessor.count_children _) with (Z.of_nat (length cs)) by (unfold BranchAccessor.count_children; cbn [branch_accessor_of BranchAccessor.num_keys]; unfold vlen in *; lia).
    eapply runs_weaken; [apply (stack_children_runs _ cs t1 (fun s => intact v s.2)); [intros i d Hd; by apply child_page_ok|lia]| |done]. intros s _ ->. by rewrite take_ge.
Qed.
Lemma next_pages_runs v n k : forall t stack R, shows ∅ n t v -> stacked v stack R ->
  runs (next_pages fk k) (AllPageNumbersBtreeIter.mk (reverse stack), t) (fun s l => shows ∅ n s.2 v /\ l = map (fun i => R !! i) (seq 0 k)) (fun s => intact v s.2).
Proof.
  induction k as [|k IH]; intros t stack R Hs HR; cbn [next_pages]; [by apply runs_ret|]. eapply runs_bind; [by apply (next_page_runs v n t stack R)|]. intros [it t1] p (Hs1 & -> & stack' & E & HR'). cbn [fst snd] in *. subst it.
  eapply runs_bind; [by apply (IH t1 stack' (tail R))|]. intros s l [Hs2 ->]. apply runs_ret. split; [done|]. cbn [seq map]. f_equal; [by destruct R|]. rewrite <-(fmap_S_seq 0 k). rewrite map_map. apply map_ext. intros i. by rewrite lookup_tail.
Qed.

(** The range that [range_mut] returns *)
Lemma range_mut_runs n t v h root L P lower upper : shows ∅ n t v -> btree valid cmp fk fv good v h root L P -> bound_valid valid lower -> bound_valid valid upper ->
  runs (range_mut compare root lower upper) t (fun t' r => shows ∅ n t' v /\
    match root with
    | Some x => range_left fk fv good v h (BtreeHeader.root x, BtreeHeader.checksum x) L P lower upper (valid := valid) (cmp := cmp) r (pairs_between cmp lower upper L)
    | None => range_closed r
    end) (intact v).
Proof using LS BO.
  intros Hs HB Hlo Hup. unfold range_mut. eapply runs_bind; [by eapply new_runs|]. intros t' b (Hs' & Hr & _). unfold range. rewrite Hr. destruct root as [x|]; cbn [fmap option_fmap option_map].
  - destruct HB as [HT _]. destruct (new_range v h _ L P lower upper HT Hlo Hup) as (r & E & Hl). cbn [fst] in E. exists t', (Okay r). split; [|done]. unfold lift. by rewrite E.
  - by eexists t', (Okay _).
Qed.

(** * Properties *)

(** C5. Iterating over the pairs of a tree between two bounds, with any sequence of
    calls of [next] and [next_back], takes the pairs within the bounds one by one from
    the front and from the back, in the order of the keys, each exactly once, and then
    nothing: the cursors of the two ends walk over leaf pages and their ancestors and
    meet where no pair is left.  It never panics, it changes nothing, and it fails only
    if the file does. *)
Theorem btree_range fuel n t h root L P lower upper sides : (h < fuel)%nat -> tree_in valid cmp fk fv n t h root L P -> bound_valid valid lower -> bound_valid valid upper ->
  runs (iterate_range compare fk fv fuel root lower upper sides) t (fun t' l => tree_in valid cmp fk fv n t' h root L P /\ view_of t' = view_of t /\
    l = pops sides (pairs_between cmp lower upper L)) (intact (view_of t)).
Proof using LS BO.
  intros Hf HI Hlo Hup. pose proof (tree_in_shows _ _ _ _ _ _ _ _ HI) as Hs. pose proof HI as [_ _ HB Hnd].
  eapply runs_bind; [by apply (range_mut_runs n t (view_of t) h root L P lower upper)|]. intros t' r [Hs' Hr]. apply with_iterator_runs.
  eapply runs_weaken with (Q1 := fun s l => shows ∅ n s.2 (view_of t) /\ l = pops sides (pairs_between cmp lower upper L)) (E1 := fun s => intact (view_of t) s.2); [| |done].
  - destruct root as [x|]; [destruct HB as [HT _]; by apply (iterate_runs (view_of t) h _ L P lower upper fuel n sides HT Hnd Hlo Hup Hf)|]. destruct HB as (_ & -> & _). by apply closed_runs.
  - intros s l [Hs2 ->]. destruct (tree_in_of fk fv _ _ _ _ _ _ _ Hs2 HB Hnd) as [? <-]. done.
Qed.

(** C34. Iterating over the pages of a tree gives each page of it exactly once, a branch
    before its children and the children in order, and then nothing.  It never
    panics, it changes nothing, and it fails only if the file does. *)
Theorem btree_pages n t h root L P k : tree_in valid cmp fk fv n t h root L P ->
  match all_pages_iter root with
  | Some it => runs (with_iterator it (next_pages fk k)) t (fun t' l => tree_in valid cmp fk fv n t' h root L P /\ view_of t' = view_of t /\ l = map (fun i => P !! i) (seq 0 k)) (intact (view_of t))
  | None => P = []
  end.
Proof using LS BO.
  intros HI. pose proof (tree_in_shows _ _ _ _ _ _ _ _ HI) as Hs. pose proof HI as [_ _ HB Hnd]. destruct root as [x|]; cbn; [|apply HB]. apply with_iterator_runs. destruct HB as [HT Hlen].
  eapply runs_weaken; [apply (next_pages_runs (view_of t) n k t [BtreeHeader.root x] P); [done|]| |done].
  - rewrite <-(app_nil_r P). exact (stacked_cons _ _ _ _ _ _ _ _ _ HT (stacked_nil _)).
  - intros s l [Hs2 ->]. destruct (tree_in_of fk fv n s.2 _ h (Some x) L P Hs2 (conj HT Hlen) Hnd) as [? <-]. done.
Qed.
End iterators.

Lemma btree_range_witness : exists t', iterate_range (compare (uint 8)) (Some 8) None 200 demo_root (Included (u64 2)) (Excluded (u64 90)) [Front; Back; Front] demo_txn =
  Ret (t', Okay (pops [Front; Back; Front] (pairs_between u64_cmp (Included (u64 2)) (Excluded (u64 90)) demo_pairs))) /\ view_of t' = view_of demo_txn.
Proof.
  destruct demo_tree as (h & P & Hh & HT).
  destruct (runs_okay _ _ _ _ (btree_range (Some 8) None 200 demo_left demo_txn h demo_root demo_pairs P (Included (u64 2)) (Excluded (u64 90)) [Front; Back; Front] Hh HT (u64_valid 2 ltac:(lia)) (u64_valid 90 ltac:(lia)))) as (t' & l & E & _ & Hv & El). rewrite El in E.
  exists t'. exact (conj E Hv).
Defined.

Lemma btree_pages_witness : exists r P t', leaf_root = Some r /\ with_iterator (AllPageNumbersBtreeIter.new (BtreeHeader.root r)) (next_pages (Some 8) 3) leaf_txn = Ret (t', Okay (map (fun i => P !! i) (seq 0 3))) /\ NoDup P.
Proof.
  destruct leaf_tree as (h & P & _ & HT). pose proof (btree_pages (Some 8) None demo_left leaf_txn h leaf_root _ P 3 HT) as Hp. pose proof (st_tree _ _ _ _ _ _ _ _ HT) as HB. pose proof (st_pages _ _ _ _ _ _ _ _ HT) as Hnd.
  destruct leaf_root as [r|]; [|destruct HB as (_ & Hd & _); discriminate Hd].
  destruct (runs_okay _ _ _ _ Hp) as (t' & l & E & _ & _ & El). rewrite El in E. exists r, P, t'. exact (conj eq_refl (conj E Hnd)).
Defined.
