(* ===== verification/Lru.v ===== *)
(** The cache of pages: [LRUCache] (src/src/tree_store/page_store/lru_cache.rs),
    a map with a queue of keys and a second chance for keys that were used.

    The flags of the second chance are atomics that [get] sets through a shared
    reference: here [get] returns the new cache. *)
From S2P Require Import Prelude.

Module LRUCache.

Section cache.
  Context {T : Type}.

Record t := mk { cache : gmap Z (T * bool); lru_queue : list Z }.

Definition new : t := mk ∅ [].
Definition len (c : t) : Z := Z.of_nat (size (cache c)).

(** The new cache and the value that was there *)
Definition insert (c : t) (key : Z) (value : T) : t * option T :=
  let result := fst <$> cache c !! key in
  (mk (<[key := (value, false)]> (cache c)) (match result with None => lru_queue c ++ [key] | Some _ => lru_queue c end), result).

(** One turn of the loop in [remove] *)
Definition cycle (c : t) : t :=
  match lru_queue c with
  | [] => c
  | removed_key :: q =>
      match cache c !! removed_key with
      | Some (value, _) => mk (<[removed_key := (value, false)]> (cache c)) (q ++ [removed_key])
      | None => mk (cache c) q
      end
  end.
Definition remove (c : t) (key : Z) : t * option T :=
  match cache c !! key with
  | Some (value, _) =>
      let c := mk (delete key (cache c)) (lru_queue c) in
      (if 2 * len c <? vlen (lru_queue c) then cycle (cycle c) else c, Some value)
  | None => (c, None)
  end.

Definition get (c : t) (key : Z) : t * option T :=
  match cache c !! key with
  | Some (value, _) => (mk (<[key := (value, true)]> (cache c)) (lru_queue c), Some value)
  | None => (c, None)
  end.
(** The value that the reference leads to is changed by [f]. *)
Definition get_mut (c : t) (key : Z) (f : T -> T) : t * option T :=
  match cache c !! key with
  | Some (value, _) => (mk (<[key := (f value, true)]> (cache c)) (lru_queue c), Some value)
  | None => (c, None)
  end.

Fixpoint pop_loop (fuel : nat) (c : t) : outcome (t * option (Z * T)) :=
  match fuel with
  | O => Panic
  | S f =>
      match lru_queue c with
      | [] => Ret (c, None)
      | key :: q =>
          match cache c !! key with
          | Some (value, true) => pop_loop f (mk (<[key := (value, false)]> (cache c)) (q ++ [key]))
          | Some (value, false) => Ret (mk (delete key (cache c)) q, Some (key, value))
          | None => pop_loop f (mk (cache c) q)
          end
      end
  end.
Definition pop_lowest_priority (c : t) : outcome (t * option (Z * T)) :=
  pop_loop (S (length (lru_queue c) + size (cache c))) c.

Definition clear (c : t) : t := mk ∅ [].

End cache.
#[global] Arguments t : clear implicits.

End LRUCache.

(** * What a cache holds *)

Section lru.
  Context {T : Type}.
  Implicit Types c : LRUCache.t T.

(** The values *)
Definition held c : gmap Z T := fst <$> LRUCache.cache c.
(** Every key of the map is in the queue, so that it can be evicted. *)
Definition lru_ok c : Prop := forall k, k ∈ dom (LRUCache.cache c) -> k ∈ LRUCache.lru_queue c.

Lemma held_lookup c k : held c !! k = fst <$> LRUCache.cache c !! k.
Proof. apply lookup_fmap. Qed.
Lemma held_size c : size (held c) = size (LRUCache.cache c).
Proof. apply map_size_fmap. Qed.

Lemma new_held : held LRUCache.new = ∅ /\ lru_ok LRUCache.new.
Proof. split; [apply fmap_empty|]. intros k. cbn. rewrite dom_empty. set_solver. Qed.

Lemma lru_insert c k v : let r := LRUCache.insert c k v in
  r.2 = held c !! k /\ held r.1 = <[k := v]> (held c) /\ (lru_ok c -> lru_ok r.1).
Proof.
  cbn. unfold held. rewrite lookup_fmap, fmap_insert. split; [done|]. split; [done|]. intros Hok j. cbn. rewrite dom_insert, elem_of_union, elem_of_singleton.
  destruct (LRUCache.cache c !! k) as [[w b]|] eqn:E; cbn.
  - intros [->|Hj]; [|by apply Hok]. apply Hok, elem_of_dom. by eexists.
  - rewrite elem_of_app, list_elem_of_singleton. intros [->|Hj]; [by right|left; by apply Hok].
Qed.

Lemma cycle_ok c : held (LRUCache.cycle c) = held c /\ (lru_ok c -> lru_ok (LRUCache.cycle c)).
Proof.
  unfold LRUCache.cycle. destruct (LRUCache.lru_queue c) as [|x q] eqn:E; [done|]. destruct (LRUCache.cache c !! x) as [[v b]|] eqn:Ex; cbn; unfold held; cbn.
  - rewrite fmap_insert, insert_id by (by rewrite lookup_fmap, Ex). split; [done|]. intros Hok j. cbn. rewrite dom_insert, elem_of_union, elem_of_singleton, elem_of_app, list_elem_of_singleton.
    intros [->|Hj%Hok]; [by right|]. rewrite E, elem_of_cons in Hj. tauto.
  - split; [done|]. intros Hok j Hj. pose proof (Hok j Hj) as Hq. rewrite E, elem_of_cons in Hq. destruct Hq as [->|]; [|done]. apply elem_of_dom in Hj as [? Hj]. cbn in Hj. congruence.
Qed.
Lemma lru_remove c k : let r := LRUCache.remove c k in
  r.2 = held c !! k /\ held r.1 = delete k (held c) /\ (lru_ok c -> lru_ok r.1).
Proof.
  cbn. unfold LRUCache.remove. rewrite held_lookup. destruct (LRUCache.cache c !! k) as [[v b]|] eqn:E; cbn.
  - split; [done|]. set (c1 := LRUCache.mk (delete k (LRUCache.cache c)) (LRUCache.lru_queue c)).
    assert (H1 : held c1 = delete k (held c)) by (unfold held, c1; cbn; apply fmap_delete).
    assert (H2 : lru_ok c -> lru_ok c1) by (intros Hok j; unfold c1; cbn; rewrite dom_delete; intros Hj; apply Hok; set_solver).
    case_match; [|done]. destruct (cycle_ok c1) as [E1 O1], (cycle_ok (LRUCache.cycle c1)) as [E2 O2]. rewrite E2, E1. auto.
  - split; [done|]. split; [|done]. rewrite delete_id; [done|]. by rewrite held_lookup, E.
Qed.
Lemma lru_get c k : let r := LRUCache.get c k in r.2 = held c !! k /\ held r.1 = held c /\ (lru_ok c -> lru_ok r.1).
Proof.
  cbn. unfold LRUCache.get. rewrite held_lookup. destruct (LRUCache.cache c !! k) as [[v b]|] eqn:E; cbn; [|done]. split; [done|]. split.
  - unfold held. cbn. rewrite fmap_insert, insert_id; [done|]. by rewrite lookup_fmap, E.
  - intros Hok j. cbn. rewrite dom_insert_lookup_L by (rewrite E; by eexists). apply Hok.
Qed.
Lemma lru_get_mut c k f : let r := LRUCache.get_mut c k f in r.2 = held c !! k /\ held r.1 = alter f k (held c) /\ (lru_ok c -> lru_ok r.1).
Proof.
  cbn. unfold LRUCache.get_mut. rewrite held_lookup. destruct (LRUCache.cache c !! k) as [[v b]|] eqn:E; cbn.
  - split; [done|]. split.
    + unfold held. cbn. rewrite fmap_insert. cbn. apply map_eq. intros j. destruct (decide (j = k)) as [->|Hj].
      * rewrite lookup_insert_eq, lookup_alter_eq, lookup_fmap, E. done.
      * by rewrite lookup_insert_ne, lookup_alter_ne.
    + intros Hok j. cbn. rewrite dom_insert_lookup_L by (rewrite E; by eexists). apply Hok.
  - split; [done|]. split; [|done]. apply map_eq. intros j. destruct (decide (j = k)) as [->|Hj]; [|by rewrite lookup_alter_ne].
    by rewrite lookup_alter_eq, held_lookup, E.
Qed.

(** ** Eviction *)

(** The keys that have a second chance *)
Definition chances c : gmap Z (T * bool) := filter (fun x => x.2.2 = true) (LRUCache.cache c).
Lemma chances_size c : (size (chances c) <= size (LRUCache.cache c))%nat.
Proof. apply map_subseteq_size, map_filter_subseteq. Qed.
Lemma chances_used (m : gmap Z (T * bool)) k v : m !! k = Some (v, true) ->
  size (filter (fun x => x.2.2 = true) m) = S (size (filter (fun x => x.2.2 = true) (<[k := (v, false)]> m))).
Proof.
  intros Hk. rewrite map_filter_insert_False by done. rewrite map_filter_delete, map_size_delete_Some by (exists (v, true); by apply map_lookup_filter_Some).
  assert (size (filter (fun x : Z * (T * bool) => x.2.2 = true) m) <> 0%nat); [|lia]. rewrite map_size_non_empty_iff. intros E.
  assert (Hn : filter (fun x : Z * (T * bool) => x.2.2 = true) m !! k = Some (v, true)) by (by apply map_lookup_filter_Some). by rewrite E, lookup_empty in Hn.
Qed.

(** A value is evicted if there is one. *)
Lemma pop_loop_ok n : forall c fuel, (length (LRUCache.lru_queue c) + size (chances c) <= n < fuel)%nat -> lru_ok c ->
  exists c' r, LRUCache.pop_loop fuel c = Ret (c', r) /\ lru_ok c' /\
    match r with Some (k, v) => held c !! k = Some v /\ held c' = delete k (held c) | None => held c = ∅ /\ held c' = ∅ end.
Proof.
  induction n as [|n IH]; intros c [|fuel] Hn Hok; try lia; cbn [LRUCache.pop_loop]; destruct (LRUCache.lru_queue c) as [|k q] eqn:Eq; cbn [length] in Hn; try lia;
    try (exists c, None; assert (held c = ∅); [|done]; apply fmap_empty_iff, map_empty; intros j; apply not_elem_of_dom; intros Hj%Hok; rewrite Eq in Hj; by apply not_elem_of_nil in Hj).
  destruct (LRUCache.cache c !! k) as [[v [|]]|] eqn:Ek.
  - set (c1 := LRUCache.mk (<[k := (v, false)]> (LRUCache.cache c)) (q ++ [k])). assert (Hh : held c1 = held c).
    { unfold held, c1. cbn. rewrite fmap_insert, insert_id; [done|]. by rewrite lookup_fmap, Ek. }
    rewrite <-Hh. apply (IH c1); [|intros j; cbn].
    + unfold chances in Hn |- *. cbn. rewrite (chances_used _ k v Ek) in Hn. rewrite length_app. cbn. lia.
    + rewrite dom_insert_lookup_L by (rewrite Ek; by eexists). intros Hj%Hok. rewrite Eq, elem_of_cons in Hj. rewrite elem_of_app, list_elem_of_singleton. tauto.
  - eexists _, _. split; [done|]. split; [|cbn beta iota; split; [by rewrite held_lookup, Ek|apply fmap_delete]]. intros j. cbn. rewrite dom_delete, elem_of_difference, elem_of_singleton.
    intros [Hj%Hok Hne]. rewrite Eq, elem_of_cons in Hj. tauto.
  - apply (IH (LRUCache.mk (LRUCache.cache c) q)); [unfold chances in *; cbn; lia|]. intros j Hj. cbn in *. pose proof (Hok j Hj) as Hq. rewrite Eq, elem_of_cons in Hq. destruct Hq as [->|]; [|done].
    apply elem_of_dom in Hj as [? Hj]. congruence.
Qed.
Lemma lru_pop c : lru_ok c -> exists c' r, LRUCache.pop_lowest_priority c = Ret (c', r) /\ lru_ok c' /\
  match r with Some (k, v) => held c !! k = Some v /\ held c' = delete k (held c) | None => held c = ∅ /\ held c' = ∅ end.
Proof. intros Hok. apply (pop_loop_ok (length (LRUCache.lru_queue c) + size (chances c))); [|done]. pose proof (chances_size c). lia. Qed.
End lru.

(** * The length of the queue *)

(** A key is removed and put back. *)
Definition churn (c : LRUCache.t Z) (key : Z) : LRUCache.t Z := (LRUCache.insert (LRUCache.remove c key).1 key 0).1.
Definition three_keys : LRUCache.t Z := foldl (fun c k => (LRUCache.insert c k 0).1) LRUCache.new [1; 2; 3].

(** Three live keys, and no other in the queue *)
Definition three_live (c : LRUCache.t Z) : Prop := dom (LRUCache.cache c) = {[1; 2; 3]} /\ Forall (fun k => k ∈ [1; 2; 3]) (LRUCache.lru_queue c).

(** A live key that is not one of the first two of the queue *)
Lemma third_key (a b : Z) : exists k, k ∈ [1; 2; 3] /\ k <> a /\ k <> b.
Proof.
  destruct (decide (1 <> a /\ 1 <> b)); [exists 1; split; [left|done]|]. destruct (decide (2 <> a /\ 2 <> b)); [exists 2; split; [right; left|done]|].
  exists 3. split; [right; right; left|]. lia.
Qed.
Lemma cycle_live (c : LRUCache.t Z) x q : LRUCache.lru_queue c = x :: q -> x ∈ dom (LRUCache.cache c) ->
  LRUCache.lru_queue (LRUCache.cycle c) = q ++ [x] /\ dom (LRUCache.cache (LRUCache.cycle c)) = dom (LRUCache.cache c).
Proof.
  intros Eq [[v b] Ex]%elem_of_dom. unfold LRUCache.cycle. rewrite Eq, Ex. cbn. split; [done|]. apply dom_insert_lookup_L. rewrite Ex. by eexists.
Qed.
(** Removing a key keeps the length of the queue, if the first two keys are others. *)
Lemma remove_keeps_queue (c : LRUCache.t Z) a b q k : LRUCache.lru_queue c = a :: b :: q -> {[a; b; k]} ⊆ dom (LRUCache.cache c) -> k <> a -> k <> b ->
  let c' := (LRUCache.remove c k).1 in dom (LRUCache.cache c') = dom (LRUCache.cache c) ∖ {[k]} /\ LRUCache.lru_queue c' ≡ₚ LRUCache.lru_queue c.
Proof.
  intros Eq Hd Ha Hb. cbn. unfold LRUCache.remove. assert (Hk : k ∈ dom (LRUCache.cache c)) by set_solver. apply elem_of_dom in Hk as [[w f] Ek]. rewrite Ek. cbn [fst].
  set (c1 := LRUCache.mk (delete k (LRUCache.cache c)) (LRUCache.lru_queue c)). assert (D1 : dom (LRUCache.cache c1) = dom (LRUCache.cache c) ∖ {[k]}) by (unfold c1; cbn; apply dom_delete_L).
  case_match; [|done]. destruct (cycle_live c1 a (b :: q)) as [Q1 E1]; [done|rewrite D1; set_solver|].
  destruct (cycle_live (LRUCache.cycle c1) b (q ++ [a])) as [Q2 E2]; [done|rewrite E1, D1; set_solver|]. rewrite E2, E1, Q2, Eq, <-app_assoc. split; [done|].
  rewrite Permutation_app_comm. done.
Qed.
Lemma churn_grows c : three_live c -> (3 <= length (LRUCache.lru_queue c))%nat ->
  exists k, k ∈ [1; 2; 3] /\ three_live (churn c k) /\ length (LRUCache.lru_queue (churn c k)) = S (length (LRUCache.lru_queue c)).
Proof.
  intros [Hd Hq] Hlen. destruct (LRUCache.lru_queue c) as [|a [|b q]] eqn:Eq; cbn in Hlen; try lia. destruct (third_key a b) as (k & Hk & Ha & Hb). exists k. split; [done|].
  pose proof Hq as Hq0. apply Forall_cons in Hq as [Qa Hq]. apply Forall_cons in Hq as [Qb Hq].
  destruct (remove_keeps_queue c a b q k Eq) as [D P]; [rewrite Hd; set_solver|done|done|]. unfold churn. set (c' := (LRUCache.remove c k).1) in *. unfold LRUCache.insert. cbn [fst].
  rewrite (not_elem_of_dom_1 (LRUCache.cache c') k) by (rewrite D; set_solver). cbn. unfold three_live. cbn. rewrite Eq in P. split.
  - rewrite dom_insert_L, D, <-union_difference_singleton_L by (rewrite Hd; set_solver). split; [done|]. rewrite P. apply Forall_app. split; [done|]. by apply Forall_singleton.
  - rewrite length_app, P. cbn. lia.
Qed.

(** C40. The queue of the cache is not bounded by the number of its entries.  [remove] moves
    two keys of the queue to ensure that it does not grow without bound, but a
    cache of three entries, of which one is removed and inserted again and again, can
    have a queue of any length. *)
Theorem lru_queue_grows_without_bound n : exists keys, length keys = n /\
  let c := foldl churn three_keys keys in LRUCache.len c = 3 /\ length (LRUCache.lru_queue c) = (3 + n)%nat.
Proof.
  assert (H : exists keys, length keys = n /\ three_live (foldl churn three_keys keys) /\ length (LRUCache.lru_queue (foldl churn three_keys keys)) = (3 + n)%nat).
  { induction n as [|n (keys & Hn & Hl & Hq)].
    - exists []. split; [done|]. split; [|done]. split; [vm_compute; done|]. repeat constructor; set_solver.
    - destruct (churn_grows _ Hl) as (k & _ & Hl' & Hq'); [lia|]. exists (keys ++ [k]). rewrite list_monad.list.foldl_app. cbn [foldl]. rewrite length_app, Hq', Hq. cbn. split; [lia|]. split; [done|lia]. }
  destruct H as (keys & Hn & [Hd _] & Hq). exists keys. split; [done|]. cbv zeta. split; [|done]. unfold LRUCache.len. rewrite <-(size_dom (D := gset Z)), Hd. done.
Qed.
