(* ===== verification/CachedFile.v ===== *)
(** The file under the page store: the storage backends (src/src/db.rs,
    src/src/tree_store/page_store/backends.rs), the checks around them and the
    read cache and write buffer (src/src/tree_store/page_store/cached_file.rs).

    A thread runs alone: the locks and the atomics are fields of the state.  The
    counters of the feature [cache_metrics] are left out.  The order in which a
    hash map is iterated is a parameter, [iter]. *)
From S2P Require Import Prelude Buddy Pages PageStore Lru.

(** * Backends *)

(** [trait StorageBackend]; [read] returns the bytes it puts in the buffer, of which it gets the length *)
Class StorageBackend (B : Type) := {
  backend_len : M B Z;
  backend_read : Z -> Z -> M B (list Z);
  backend_set_len : Z -> M B unit;
  backend_sync_data : M B unit;
  backend_write : Z -> list Z -> M B unit;
  backend_close : M B unit }.

Module InMemoryBackend.

Definition t : Type := list Z.
Definition new : t := [].

Definition len : M t Z := gets vlen.
Definition read (offset n : Z) : M t (list Z) :=
  guard ← gets (fun b : t => b);
  end_ ← lift (uadd 64 offset n);
  if end_ <=? vlen guard then lift (slice guard offset end_) else throw IoError.
Definition set_len (n : Z) : M t unit := modify (fun b : t => take (Z.to_nat n) b ++ replicate (Z.to_nat n - length b) 0).
Definition sync_data : M t unit := mret tt.
Definition write (offset : Z) (data : list Z) : M t unit :=
  guard ← gets (fun b : t => b);
  end_ ← lift (uadd 64 offset (vlen data));
  if end_ <=? vlen guard then b ← lift (splice guard offset data); modify (fun _ => b) else throw IoError.

#[global] Instance in_memory : StorageBackend t := {
  backend_len := len;
  backend_read := read;
  backend_set_len := set_len;
  backend_sync_data := sync_data;
  backend_write := write;
  backend_close := mret tt }.

End InMemoryBackend.

Module ReadOnlyBackend.

Section backend.
  Context {B : Type} `{StorageBackend B}.

Record t := mk { inner : B }.
Definition on_inner {A} (c : M B A) : M t A := fun s => r ← c (inner s); Ret (mk r.1, r.2).

#[global] Instance read_only : StorageBackend t := {
  backend_len := on_inner backend_len;
  backend_read offset n := on_inner (backend_read offset n);
  backend_set_len _ := lift Panic;
  backend_sync_data := lift Panic;
  backend_write _ _ := lift Panic;
  backend_close := on_inner backend_close }.

End backend.

End ReadOnlyBackend.

Module CheckedBackend.

Section backend.
  Context {B : Type} `{StorageBackend B}.

Record t := mk { file : B; io_failed : bool; closed : bool }.
Definition new (file : B) : t := mk file false false.

Definition check_failure : M t unit := fun s =>
  if io_failed s then Ret (s, Err (if closed s then DatabaseClosed else PreviousIo)) else Ret (s, Okay tt).
(** An operation of the file, of which a failure is remembered *)
Definition attempt {A} (c : M B A) : M t A := fun s =>
  r ← c (file s);
  match r.2 with
  | Okay a => Ret (mk r.1 (io_failed s) (closed s), Okay a)
  | Err _ => Ret (mk r.1 true (closed s), Err IoError)
  end.
Definition checked {A} (c : M B A) : M t A := _ ← check_failure; attempt c.
Definition close : M t unit := fun s =>
  r ← backend_close (file s);
  Ret (mk r.1 true true, match r.2 with Okay _ => Okay tt | Err _ => Err IoError end).
Definition len : M t Z := checked backend_len.
Definition read (offset n : Z) : M t (list Z) := checked (backend_read offset n).
Definition set_len (n : Z) : M t unit := checked (backend_set_len n).
Definition sync_data : M t unit := checked backend_sync_data.
Definition write (offset : Z) (data : list Z) : M t unit := checked (backend_write offset data).

End backend.
#[global] Arguments t : clear implicits.

End CheckedBackend.

(** * The write buffer *)

(** A value that is [None] is borrowed by a writable page. *)
Module LRUWriteCache.

Definition t : Type := LRUCache.t (option (list Z)).

Definition insert (c : t) (key : Z) (value : list Z) : outcome t :=
  let r := LRUCache.insert c key (Some value) in
  _ ← rassert (match r.2 with None => true | Some _ => false end);
  Ret r.1.
Definition get (c : t) (key : Z) : outcome (t * option (list Z)) :=
  let r := LRUCache.get c key in
  match r.2 with None => Ret (r.1, None) | Some x => v ← unwrap x; Ret (r.1, Some v) end.
Definition remove (c : t) (key : Z) : outcome (t * option (list Z)) :=
  let r := LRUCache.remove c key in
  match r.2 with
  | Some value => _ ← rassert (match value with Some _ => true | None => false end); Ret (r.1, value)
  | None => Ret (r.1, None)
  end.
Definition return_value (c : t) (key : Z) (value : list Z) : outcome t :=
  let r := LRUCache.get_mut c key (fun _ => Some value) in
  old ← unwrap r.2;
  _ ← rassert (match old with None => true | Some _ => false end);
  Ret r.1.
Definition take_value (c : t) (key : Z) : outcome (t * option (list Z)) :=
  let r := LRUCache.get_mut c key (fun _ => None) in
  match r.2 with None => Ret (r.1, None) | Some value => result ← unwrap value; Ret (r.1, Some result) end.
(** [n] turns of the loop *)
Fixpoint pop_loop (n : nat) (c : t) : outcome (t * option (Z * list Z)) :=
  match n with
  | O => Ret (c, None)
  | S n =>
      r ← LRUCache.pop_lowest_priority c;
      match r.2 with
      | Some (k, Some v_inner) => Ret (r.1, Some (k, v_inner))
      | Some (k, None) => pop_loop n (LRUCache.insert r.1 k None).1
      | None => Ret (r.1, None)
      end
  end.
Definition pop_lowest_priority (c : t) : outcome (t * option (Z * list Z)) := pop_loop (size (LRUCache.cache c)) c.
Definition clear (c : t) : t := LRUCache.clear c.

End LRUWriteCache.

(** * The file with its caches *)

Inductive PageHint := HintNone | Clean.

Module WritablePage.

Record t := mk { offset : Z; data : list Z }.
Definition mem (p : t) : list Z := data p.
(** The page after its bytes were changed *)
Definition mem_mut (p : t) (f : list Z -> list Z) : t := mk (offset p) (f (data p)).

End WritablePage.

Module PagedCachedFile.

Section file.
  Context {B : Type} `{StorageBackend B} (iter : forall A, gmap Z A -> list (Z * A)).

Record t := mk {
  file : CheckedBackend.t B;
  page_size : Z;
  read_cache_bytes : Z;
  write_buffer_bytes : Z;
  max_cache_size : Z;
  next_eviction_stripe : Z;
  read_cache : list (LRUCache.t (list Z));
  write_buffer : LRUWriteCache.t }.

Definition set_file (c : t) (f : CheckedBackend.t B) : t :=
  mk f (page_size c) (read_cache_bytes c) (write_buffer_bytes c) (max_cache_size c) (next_eviction_stripe c) (read_cache c) (write_buffer c).
Definition set_read_bytes (c : t) (n : Z) : t :=
  mk (file c) (page_size c) n (write_buffer_bytes c) (max_cache_size c) (next_eviction_stripe c) (read_cache c) (write_buffer c).
Definition set_write_bytes (c : t) (n : Z) : t :=
  mk (file c) (page_size c) (read_cache_bytes c) n (max_cache_size c) (next_eviction_stripe c) (read_cache c) (write_buffer c).
Definition set_stripe (c : t) (n : Z) : t :=
  mk (file c) (page_size c) (read_cache_bytes c) (write_buffer_bytes c) (max_cache_size c) n (read_cache c) (write_buffer c).
Definition set_read_cache (c : t) (l : list (LRUCache.t (list Z))) : t :=
  mk (file c) (page_size c) (read_cache_bytes c) (write_buffer_bytes c) (max_cache_size c) (next_eviction_stripe c) l (write_buffer c).
Definition set_write_buffer (c : t) (w : LRUWriteCache.t) : t :=
  mk (file c) (page_size c) (read_cache_bytes c) (write_buffer_bytes c) (max_cache_size c) (next_eviction_stripe c) (read_cache c) w.

Definition lock_stripes : Z := 131.
Definition new (file : B) (page_size max_cache_size : Z) : t :=
  mk (CheckedBackend.new file) page_size 0 0 max_cache_size 0 (replicate (Z.to_nat lock_stripes) LRUCache.new) LRUCache.new.

(** The operations of the parts *)
Definition on_file {A} (op : M (CheckedBackend.t B) A) : M t A := fun c => r ← op (file c); Ret (set_file c r.1, r.2).
Definition on_buffer {A} (op : LRUWriteCache.t -> outcome (LRUWriteCache.t * A)) : M t A := fun c =>
  r ← op (write_buffer c); Ret (set_write_buffer c r.1, Okay r.2).
Definition on_stripe {A} (slot : Z) (op : LRUCache.t (list Z) -> outcome (LRUCache.t (list Z) * A)) : M t A := fun c =>
  lock ← vget (read_cache c) slot;
  r ← op lock;
  l ← vset (read_cache c) slot r.1;
  Ret (set_read_cache c l, Okay r.2).
(** [fetch_add] and [fetch_sub] return the value before. *)
Definition add_read_bytes (n : Z) : M t Z := fun c =>
  Ret (set_read_bytes c (wadd 64 (read_cache_bytes c) n), Okay (read_cache_bytes c)).
Definition sub_read_bytes (n : Z) : M t Z := fun c =>
  Ret (set_read_bytes c (wsub 64 (read_cache_bytes c) n), Okay (read_cache_bytes c)).
Definition add_write_bytes (n : Z) : M t Z := fun c =>
  Ret (set_write_bytes c (wadd 64 (write_buffer_bytes c) n), Okay (write_buffer_bytes c)).
Definition sub_write_bytes (n : Z) : M t Z := fun c =>
  Ret (set_write_bytes c (wsub 64 (write_buffer_bytes c) n), Okay (write_buffer_bytes c)).
Definition cache_slot (offset : Z) : Z := offset mod lock_stripes.
Definition aligned (offset : Z) : M t unit := c ← gets (fun c => c); lift (rassert (negb (page_size c =? 0) && (offset mod page_size c =? 0))).

Definition close : M t unit := on_file CheckedBackend.close.
Definition check_io_errors : M t unit := on_file CheckedBackend.check_failure.
Definition raw_file_len : M t Z := on_file CheckedBackend.len.

(** The entries of one stripe are evicted; [freed] bytes are free already. *)
Fixpoint evict_stripe (fuel : nat) (stripe bytes_needed freed : Z) : M t Z :=
  match fuel with
  | O => lift Panic
  | S f =>
      if freed <? bytes_needed then
        r ← on_stripe stripe LRUCache.pop_lowest_priority;
        match r with
        | Some (_, v) => freed ← lift (uadd 64 freed (vlen v)); _ ← sub_read_bytes (vlen v); evict_stripe f stripe bytes_needed freed
        | None => mret freed
        end
      else mret freed
  end.
(** The number of entries of a stripe, which bounds its evictions *)
Definition stripe_size (stripe : Z) : M t nat := fun c =>
  lock ← vget (read_cache c) stripe; Ret (c, Okay (size (LRUCache.cache lock))).
Definition evict_from_read_cache (bytes_needed : Z) : M t unit :=
  c ← gets (fun c => c);
  let num_stripes := vlen (read_cache c) in
  let start := next_eviction_stripe c mod num_stripes in
  _ ← modify (fun c => set_stripe c (wadd 64 (next_eviction_stripe c) 1));
  _ ← for_each_m (fun i freed =>
    if bytes_needed <=? freed then mret freed
    else
      let stripe := (start + i) mod num_stripes in
      n ← stripe_size stripe;
      evict_stripe (S n) stripe bytes_needed freed) (seqZ 0 num_stripes) 0;
  mret tt.

(** The pages of the write buffer go to the read cache until one does not fit. *)
Fixpoint transfer (l : list (Z * option (list Z))) : M t unit :=
  match l with
  | [] => mret tt
  | (offset, buffer) :: l =>
      buffer ← lift (unwrap buffer);
      cache_size ← add_read_bytes (vlen buffer);
      total ← lift (uadd 64 cache_size (vlen buffer));
      c ← gets (fun c => c);
      if total <=? max_cache_size c then
        replaced ← on_stripe (cache_slot offset) (fun lock => Ret (LRUCache.insert lock offset buffer));
        _ ← match replaced with Some old => _ ← sub_read_bytes (vlen old); mret tt | None => mret tt end;
        transfer l
      else
        _ ← sub_read_bytes (vlen buffer); mret tt
  end.
Definition flush_write_buffer : M t unit :=
  c ← gets (fun c => c);
  let entries := iter _ (held (write_buffer c)) in
  _ ← for_each_m (fun x (_ : unit) => buffer ← lift (unwrap x.2); on_file (CheckedBackend.write x.1 buffer)) entries tt;
  _ ← transfer entries;
  _ ← modify (fun c => set_write_bytes c 0);
  modify (fun c => set_write_buffer c (LRUWriteCache.clear (write_buffer c))).

Definition invalidate_read_cache_above (threshold : Z) : M t unit :=
  c ← gets (fun c => c);
  for_each_m (fun slot (_ : unit) =>
    stale ← on_stripe slot (fun lock => Ret (lock, filter (fun k => threshold <= k) (map fst (iter _ (held lock)))));
    for_each_m (fun k (_ : unit) =>
      removed ← on_stripe slot (fun lock => Ret (LRUCache.remove lock k));
      match removed with Some d => _ ← sub_read_bytes (vlen d); mret tt | None => mret tt end) stale tt)
    (seqZ 0 (vlen (read_cache c))) tt.
Definition resize (len : Z) : M t unit :=
  old_len ← on_file CheckedBackend.len;
  _ ← (if len <? old_len then invalidate_read_cache_above len else mret tt);
  on_file (CheckedBackend.set_len len).

Definition flush : M t unit := _ ← flush_write_buffer; on_file CheckedBackend.sync_data.
Definition sync_file : M t unit := on_file CheckedBackend.sync_data.
Definition write_barrier : M t unit := flush_write_buffer.
Definition read_direct (offset len : Z) : M t (list Z) := on_file (CheckedBackend.read offset len).

(** The entries of the slot are evicted until [len] bytes are free; the number of bytes that were removed *)
Fixpoint evict_slot (fuel : nat) (slot len removed : Z) : M t Z :=
  match fuel with
  | O => lift Panic
  | S f =>
      if removed <? len then
        r ← on_stripe slot LRUCache.pop_lowest_priority;
        match r with
        | Some (_, v) => removed ← lift (uadd 64 removed (vlen v)); evict_slot f slot len removed
        | None => mret removed
        end
      else mret removed
  end.
(** A page that is in no cache is read and put in the read cache. *)
Definition read_miss (offset len slot : Z) : M t (list Z) :=
  buffer ← read_direct offset len;
  cache_size ← add_read_bytes len;
  replaced ← on_stripe slot (fun lock => Ret (LRUCache.insert lock offset buffer));
  cache_size ← match replaced with Some old => sub_read_bytes (vlen old) | None => mret cache_size end;
  c ← gets (fun c => c);
  a ← lift (uadd 64 cache_size len);
  total ← lift (uadd 64 a (write_buffer_bytes c));
  removed ← (if max_cache_size c <? total then n ← stripe_size slot; evict_slot (S n) slot len 0 else mret 0);
  _ ← (if 0 <? removed then sub_read_bytes removed else mret 0);
  mret buffer.
Definition read (offset len : Z) (hint : PageHint) : M t (list Z) :=
  _ ← aligned offset;
  dirty ← match hint with Clean => mret None | HintNone => on_buffer (fun w => LRUWriteCache.get w offset) end;
  match dirty with
  | Some cached => _ ← lift (rassert (vlen cached =? len)); mret cached
  | None =>
      cached ← on_stripe (cache_slot offset) (fun lock => Ret (LRUCache.get lock offset));
      match cached with
      | Some cached => _ ← lift (rassert (vlen cached =? len)); mret cached
      | None => read_miss offset len (cache_slot offset)
      end
  end.

Definition cancel_pending_write (offset : Z) : M t unit :=
  _ ← aligned offset;
  removed ← on_buffer (fun w => LRUWriteCache.remove w offset);
  match removed with Some d => _ ← sub_write_bytes (vlen d); mret tt | None => mret tt end.
(** A page is removed from the read cache. *)
Definition remove_cached (offset len : Z) : M t (option (list Z)) :=
  removed ← on_stripe (cache_slot offset) (fun lock => Ret (LRUCache.remove lock offset));
  match removed with
  | Some d => _ ← lift (rassert (len =? vlen d)); _ ← sub_read_bytes (vlen d); mret (Some d)
  | None => mret None
  end.
Definition invalidate_cache (offset len : Z) : M t unit := _ ← remove_cached offset len; mret tt.
Fixpoint drain_stripe (fuel : nat) (slot : Z) : M t unit :=
  match fuel with
  | O => lift Panic
  | S f =>
      r ← on_stripe slot LRUCache.pop_lowest_priority;
      match r with Some (_, d) => _ ← sub_read_bytes (vlen d); drain_stripe f slot | None => mret tt end
  end.
Definition invalidate_cache_all : M t unit :=
  c ← gets (fun c => c);
  for_each_m (fun slot (_ : unit) => n ← stripe_size slot; drain_stripe (S n) slot) (seqZ 0 (vlen (read_cache c))) tt.

(** A page that was taken out of the write buffer is written; it is put back if that fails. *)
Definition write_back (offset : Z) (buffer : list Z) : M t unit := fun c =>
  r ← on_file (CheckedBackend.write offset buffer) c;
  match r.2 with
  | Okay _ => Ret r
  | Err e => w ← LRUWriteCache.insert (write_buffer r.1) offset buffer; Ret (set_write_buffer r.1 w, Err e)
  end.
(** The write buffer gives up [excess] bytes; [flushed] bytes are written already. *)
Fixpoint flush_excess (fuel : nat) (excess flushed : Z) : M t Z :=
  match fuel with
  | O => lift Panic
  | S f =>
      if flushed <? excess then
        r ← on_buffer LRUWriteCache.pop_lowest_priority;
        match r with
        | Some (offset, buffer) =>
            _ ← write_back offset buffer;
            _ ← sub_write_bytes (vlen buffer);
            flushed ← lift (uadd 64 flushed (vlen buffer));
            flush_excess f excess flushed
        | None => mret flushed
        end
      else mret flushed
  end.
(** Room for [len] more bytes in the write buffer *)
Definition make_room (len : Z) : M t unit :=
  previous ← add_write_bytes len;
  write_bytes ← lift (uadd 64 previous len);
  c ← gets (fun c => c);
  let half := max_cache_size c / 2 in
  write_bytes ← (if half <? write_bytes then
      flushed ← flush_excess (S (size (LRUCache.cache (write_buffer c)))) (write_bytes - half) 0; lift (usub write_bytes flushed)
    else mret write_bytes);
  c ← gets (fun c => c);
  total ← lift (uadd 64 write_bytes (read_cache_bytes c));
  if max_cache_size c <? total then evict_from_read_cache (total - max_cache_size c) else mret tt.
Definition write (offset len : Z) (overwrite : bool) : M t WritablePage.t :=
  _ ← aligned offset;
  existing ← remove_cached offset len;
  taken ← on_buffer (fun w => LRUWriteCache.take_value w offset);
  data ← match taken with
    | Some removed => mret removed
    | None =>
        _ ← make_room len;
        result ← match existing with
          | Some data => mret data
          | None => if overwrite then mret (replicate (Z.to_nat len) 0) else read_direct offset len
          end;
        _ ← on_buffer (fun w => w' ← LRUWriteCache.insert w offset result; Ret (w', tt));
        taken ← on_buffer (fun w => LRUWriteCache.take_value w offset);
        lift (unwrap taken)
    end;
  mret (WritablePage.mk offset data).
(** [Drop] of [WritablePage] *)
Definition drop_page (p : WritablePage.t) : M t unit :=
  on_buffer (fun w => w' ← LRUWriteCache.return_value w (WritablePage.offset p) (WritablePage.data p); Ret (w', tt)).

End file.
#[global] Arguments t : clear implicits.

End PagedCachedFile.
