(* ===== verification/Coherence.v ===== *)
(** The read cache and the write buffer (src/src/tree_store/page_store/cached_file.rs)
    are not seen: the file with its caches is an array of bytes, and the memory they
    take stays within its bounds. *)
From S2P Require Import Prelude Buddy Pages PageStore Lru CachedFile.

(** * Parts of an array *)

Definition sub (A : list Z) (o n : Z) : list Z := take (Z.to_nat n) (drop (Z.to_nat o) A).
Definition upd (A : list Z) (o : Z) (d : list Z) : list Z := take (Z.to_nat o) A ++ d ++ drop (Z.to_nat o + length d) A.

Lemma lookup_sub A o n i : 0 <= o -> sub A o n !! i = if decide (Z.of_nat i < n) then A !! (Z.to_nat o + i)%nat else None.
Proof.
  intros Ho. unfold sub. case_decide.
  - rewrite lookup_take_lt by lia. apply lookup_drop.
  - apply lookup_take_ge. lia.
Qed.
Lemma vlen_sub A o n : 0 <= o -> 0 <= n -> o + n <= vlen A -> vlen (sub A o n) = n.
Proof. unfold vlen, sub. intros. rewrite length_take, length_drop. lia. Qed.
Lemma lookup_upd A o d i : 0 <= o -> o + vlen d <= vlen A ->
  upd A o d !! i = if decide (o <= Z.of_nat i < o + vlen d) then d !! (i - Z.to_nat o)%nat else A !! i.
Proof.
  unfold vlen, upd. intros Ho Hl. case_decide as Hi.
  - rewrite lookup_app_r; rewrite length_take; [|lia]. rewrite lookup_app_l by lia. f_equal. lia.
  - destruct (decide (Z.of_nat i < o)).
    + rewrite lookup_app_l by (rewrite length_take; lia). apply lookup_take_lt. lia.
    + rewrite lookup_app_r; rewrite length_take; [|lia]. rewrite lookup_app_r by lia. rewrite lookup_drop. f_equal. lia.
Qed.
Lemma vlen_upd A o d : 0 <= o -> o + vlen d <= vlen A -> vlen (upd A o d) = vlen A.
Proof. unfold vlen, upd. intros. rewrite !length_app, length_take, length_drop. lia. Qed.

(** Arrays that agree on a range *)
Lemma sub_eq A A' o n : 0 <= o -> (forall i, o <= Z.of_nat i < o + n -> A !! i = A' !! i) -> sub A o n = sub A' o n.
Proof. intros Ho H. apply list_eq. intros i. rewrite !lookup_sub by done. case_decide; [|done]. apply H. lia. Qed.
Lemma sub_lookup A o n d i : d = sub A o n -> 0 <= o -> o <= Z.of_nat i < o + n -> d !! (i - Z.to_nat o)%nat = A !! i.
Proof. intros -> Ho Hi. rewrite lookup_sub by done. rewrite decide_True by lia. f_equal. lia. Qed.
Lemma sub_upd A o d : 0 <= o -> o + vlen d <= vlen A -> sub (upd A o d) o (vlen d) = d.
Proof.
  intros Ho Hl. apply list_eq. intros i. rewrite lookup_sub by done. case_decide as Hi.
  - rewrite lookup_upd by done. rewrite decide_True by lia. f_equal. lia.
  - symmetry. apply lookup_ge_None. unfold vlen in Hi. lia.
Qed.
Lemma sub_upd_other A o d o' n : 0 <= o -> o + vlen d <= vlen A -> 0 <= o' -> (o + vlen d <= o' \/ o' + n <= o) -> sub (upd A o d) o' n = sub A o' n.
Proof. intros Ho Hl Ho' Hd. apply sub_eq; [done|]. intros i Hi. rewrite lookup_upd by done. rewrite decide_False by lia. done. Qed.

(** * Backends that work *)

Class BackendLaws (B : Type) `{StorageBackend B} := {
  content : B -> list Z;
  backend_ok : B -> Prop;
  (** some operation fails *)
  backend_fails : Prop;
  law_content b : backend_ok b -> vlen (content b) < 2 ^ 63;
  law_backend_len b : backend_ok b -> exists b' r, backend_len b = Ret (b', r) /\ backend_ok b' /\ content b' = content b /\
    match r with Okay n => n = vlen (content b) | Err _ => backend_fails end;
  law_backend_read b o n : backend_ok b -> 0 <= o -> 0 <= n -> o + n <= vlen (content b) ->
    exists b' r, backend_read o n b = Ret (b', r) /\ backend_ok b' /\ content b' = content b /\
      match r with Okay d => d = sub (content b) o n | Err _ => backend_fails end;
  law_backend_write b o d : backend_ok b -> 0 <= o -> o + vlen d <= vlen (content b) ->
    exists b' r, backend_write o d b = Ret (b', r) /\ backend_ok b' /\
      match r with Okay _ => content b' = upd (content b) o d | Err _ => backend_fails end;
  law_backend_sync b : backend_ok b -> exists b' r, backend_sync_data b = Ret (b', r) /\ backend_ok b' /\ content b' = content b /\
    match r with Okay _ => True | Err _ => backend_fails end;
  (** new bytes are zero *)
  law_backend_set_len b n : backend_ok b -> 0 <= n < 2 ^ 63 -> exists b' r, backend_set_len n b = Ret (b', r) /\ backend_ok b' /\
    match r with Okay _ => content b' = take (Z.to_nat n) (content b) ++ replicate (Z.to_nat n - length (content b)) 0 | Err _ => backend_fails end }.

(** The backend in memory keeps the promises and never fails. *)
#[export] Instance in_memory_laws : BackendLaws InMemoryBackend.t.
Proof.
  refine {| content := fun b => b; backend_ok := fun b => vlen b < 2 ^ 63; backend_fails := False |}.
  - done.
  - intros b Hb. by eexists _, _.
  - intros b o n Hb Ho Hn Hl. eexists _, (Okay (sub b o n)). cbn. unfold InMemoryBackend.read, mbind, M_bind, gets, lift. cbn [mbind outcome_bind fst snd].
    rewrite uadd_ok by lia. cbn [mbind outcome_bind fst snd]. rewrite (proj2 (Z.leb_le _ _)) by lia. rewrite slice_ok by lia. cbn [mbind outcome_bind]. unfold sub. replace (o + n - o) with n by lia. done.
  - intros b o d Hb Ho Hl. eexists _, (Okay tt). cbn. unfold InMemoryBackend.write, mbind, M_bind, gets, lift, modify. cbn [mbind outcome_bind fst snd].
    pose proof (vlen_nonneg d). rewrite uadd_ok by lia. cbn [mbind outcome_bind fst snd]. rewrite (proj2 (Z.leb_le _ _)) by lia. rewrite splice_ok by lia. cbn [mbind outcome_bind].
    split; [done|]. split; [|done]. change (vlen (upd b o d) < 2 ^ 63). by rewrite vlen_upd.
  - intros b Hb. by eexists _, _.
  - intros b n Hb Hn. eexists _, (Okay tt). split; [done|]. split; [|done]. unfold vlen in *. rewrite length_app, length_take, length_replicate. lia.
Defined.

(** * The pages of the file *)

(** Lengths of the pages, by their offsets *)
Notation partition := (gmap Z Z).

(** The bytes of the pages at some offsets *)
Fixpoint sumz (l : list Z) : Z := match l with [] => 0 | x :: l => x + sumz l end.
Definition plen (part : partition) (o : Z) : Z := default 0 (part !! o).
Definition mass (part : partition) (X : gset Z) : Z := sumz (plen part <$> elements X).

Lemma sumz_app l k : sumz (l ++ k) = sumz l + sumz k.
Proof. induction l as [|x l IH]; [done|]. cbn in *. lia. Qed.
#[global] Instance sumz_perm : Proper ((≡ₚ) ==> eq) sumz.
Proof. intros l k. induction 1; cbn in *; lia. Qed.
Lemma sumz_set l i x y : l !! i = Some x -> sumz (<[i := y]> l) = sumz l - x + y.
Proof. revert i. induction l as [|z l IH]; intros [|i]; cbn; [done..|intros [= ->]; lia|]. intros Hi. change (z + sumz (<[i := y]> l) = z + sumz l - x + y). rewrite (IH i Hi). lia. Qed.
Lemma sumz_nonneg l : Forall (fun x => 0 <= x) l -> 0 <= sumz l.
Proof. induction 1; cbn in *; lia. Qed.
Lemma sumz_zero l : Forall (fun x => x = 0) l -> sumz l = 0.
Proof. induction 1; cbn in *; lia. Qed.
Lemma sumz_bound l b : Forall (fun x => x <= b) l -> sumz l <= vlen l * b.
Proof. induction 1; [done|]. change (vlen (x :: l)) with (Z.of_nat (S (length l))). unfold vlen in *. cbn in *. lia. Qed.

Record part_ok (part : partition) (page_size n : Z) : Prop := {
  pt_page o k : part !! o = Some k -> 0 <= o /\ 0 < k /\ o + k <= n /\ o mod page_size = 0;
  pt_disjoint o1 o2 k1 k2 : o1 <> o2 -> part !! o1 = Some k1 -> part !! o2 = Some k2 -> o1 + k1 <= o2 \/ o2 + k2 <= o1;
  pt_total : mass part (dom part) < 2 ^ 55 }.

Section mass.
  Context (part : partition).

Lemma mass_empty : mass part ∅ = 0.
Proof using. unfold mass. by rewrite elements_empty. Qed.
Lemma mass_union X Y : X ## Y -> mass part (X ∪ Y) = mass part X + mass part Y.
Proof using. intros Hd. unfold mass. by rewrite elements_disj_union, fmap_app, sumz_app. Qed.
Lemma mass_add o X : o ∉ X -> mass part ({[o]} ∪ X) = plen part o + mass part X.
Proof using. intros Ho. rewrite mass_union by set_solver. unfold mass at 1. rewrite elements_singleton. cbn. lia. Qed.
Lemma mass_delete o X : o ∈ X -> mass part (X ∖ {[o]}) = mass part X - plen part o.
Proof using. intros Ho. rewrite (union_difference_singleton_L o X Ho) at 2. rewrite mass_add by set_solver. lia. Qed.
Context (Hpos : forall o, 0 <= plen part o).
Lemma mass_nonneg X : 0 <= mass part X.
Proof using Hpos. apply sumz_nonneg, Forall_forall. intros x (o & -> & _)%list_elem_of_fmap. apply Hpos. Qed.
Lemma mass_sub X Y : X ⊆ Y -> mass part X <= mass part Y.
Proof using Hpos.
  intros HXY. rewrite (union_difference_L X Y HXY), mass_union by set_solver. pose proof (mass_nonneg (Y ∖ X)). lia.
Qed.
End mass.

Lemma part_plen part ps n : part_ok part ps n -> forall o, 0 <= plen part o.
Proof. intros Hp o. unfold plen. destruct (part !! o) as [k|] eqn:E; cbn; [|lia]. apply (pt_page _ _ _ Hp) in E. lia. Qed.
Lemma plen_at part o k : part !! o = Some k -> plen part o = k.
Proof. unfold plen. by intros ->. Qed.

(** * The caches and the file *)

Import PagedCachedFile (file, page_size, read_cache_bytes, write_buffer_bytes, max_cache_size, read_cache, write_buffer).

Section coherence.
  Context {B : Type} `{BL : BackendLaws B}.
  Implicit Types c : PagedCachedFile.t B.

(** The bytes of the file *)
Definition disk c : list Z := content (CheckedBackend.file (file c)).
Notation buffered c := (held (write_buffer c)).

(** The caches [c] stand for the array [A]: a page of the read cache is a page of the file, a page of the write buffer is a page of the
    array, and elsewhere the file has the bytes of the array; the pages [G] are borrowed. *)
Record core (part : partition) (G : gset Z) c (A : list Z) : Prop := {
  co_backend : backend_ok (CheckedBackend.file (file c));
  co_works : CheckedBackend.io_failed (file c) = false;
  co_page_size : 0 < page_size c;
  co_part : part_ok part (page_size c) (vlen A);
  co_len : vlen A = vlen (disk c);
  co_max : 0 <= max_cache_size c < 2 ^ 62;
  co_stripes : length (read_cache c) = 131%nat;
  co_lru i l : read_cache c !! i = Some l -> lru_ok l;
  co_clean i l o d : read_cache c !! i = Some l -> held l !! o = Some d ->
    o mod 131 = Z.of_nat i /\ part !! o = Some (vlen d) /\ d = sub (disk c) o (vlen d) /\ buffered c !! o = None;
  co_wlru : lru_ok (write_buffer c);
  co_dirty o d : buffered c !! o = Some (Some d) -> part !! o = Some (vlen d) /\ d = sub A o (vlen d);
  co_borrowed o : buffered c !! o = Some None <-> o ∈ G;
  co_known o : o ∈ G -> is_Some (part !! o);
  co_rest i : (forall o k, is_Some (buffered c !! o) -> part !! o = Some k -> ~ (o <= Z.of_nat i < o + k)) -> A !! i = disk c !! i }.

(** The bytes in the read cache and in the write buffer *)
Definition rmass (part : partition) c : Z := sumz ((fun l => mass part (dom (held l))) <$> read_cache c).
Definition wmass (part : partition) c : Z := mass part (dom (buffered c)).
Record coherent (part : partition) (G : gset Z) c (A : list Z) : Prop := {
  cc_core : core part G c A;
  cc_read : read_cache_bytes c = rmass part c;
  cc_write : write_buffer_bytes c = wmass part c }.

(** The counter of the read cache is right; the one of the write buffer may be ahead. *)
Record tallied (part : partition) (G : gset Z) c (A : list Z) : Prop := {
  ta_core : core part G c A;
  ta_read : read_cache_bytes c = rmass part c }.
Lemma coherent_tallied part G c A : coherent part G c A -> tallied part G c A.
Proof using. by intros []. Qed.

(** An operation of the file failed, and was remembered. *)
Definition broken c : Prop := backend_fails /\ CheckedBackend.io_failed (file c) = true.

Lemma runs_seqZ {T V} (body : Z -> V -> M T V) (I : Z -> T -> V -> Prop) E n lo t v : 0 <= n -> I lo t v ->
  (forall i t v, lo <= i < lo + n -> I i t v -> runs (body i v) t (I (i + 1)) E) -> runs (for_each_m body (seqZ lo n) v) t (I (lo + n)) E.
Proof using.
  intros Hn. revert lo t v. pattern n. apply natlike_ind; [|clear n Hn; intros n Hn IH|done]; intros lo t v H0 Hb.
  - apply runs_ret. by rewrite Z.add_0_r.
  - rewrite seqZ_cons by lia. replace (Z.pred (Z.succ n)) with n by lia. cbn [for_each_m]. eapply runs_bind; [apply Hb; [lia|done]|]. intros t1 v1 H1.
    replace (lo + Z.succ n) with (lo + 1 + n) by lia. apply (IH (lo + 1)); [done|]. intros i t2 v2 Hi. apply Hb. lia.
Qed.
Lemma runs_det {T A D} (m : M T A) (k : A -> M T D) t t' a Q E : m t = Ret (t', Okay a) -> runs (k a) t' Q E -> runs (m ≫= k) t Q E.
Proof. intros Hm Hk. unfold runs, mbind, M_bind. rewrite Hm. exact Hk. Qed.

(** ** Bounds *)

Lemma core_plen part G c A : core part G c A -> forall o, 0 <= plen part o.
Proof using. intros Hc. eapply part_plen. apply (co_part _ _ _ _ Hc). Qed.
Lemma known_part part G c A o : core part G c A -> is_Some (buffered c !! o) -> is_Some (part !! o).
Proof using.
  intros Hc [[d|] Ho]; [apply (co_dirty _ _ _ _ Hc) in Ho as [-> _]; by eexists|]. apply (co_known _ _ _ _ Hc). by apply (co_borrowed _ _ _ _ Hc).
Qed.
Lemma wmass_bound part G c A : core part G c A -> 0 <= wmass part c < 2 ^ 55.
Proof using.
  intros Hc. split; [apply mass_nonneg; by eapply core_plen|]. eapply Z.le_lt_trans; [|apply (pt_total _ _ _ (co_part _ _ _ _ Hc))].
  apply mass_sub; [by eapply core_plen|]. intros o [x Ho]%elem_of_dom. apply elem_of_dom. eapply known_part; [done|by eexists].
Qed.
Lemma stripe_mass part G c A i l : core part G c A -> read_cache c !! i = Some l -> 0 <= mass part (dom (held l)) < 2 ^ 55.
Proof using.
  intros Hc Hl. split; [apply mass_nonneg; by eapply core_plen|]. eapply Z.le_lt_trans; [|apply (pt_total _ _ _ (co_part _ _ _ _ Hc))].
  apply mass_sub; [by eapply core_plen|]. intros o [d Ho]%elem_of_dom. apply elem_of_dom. destruct (co_clean _ _ _ _ Hc i l o d Hl Ho) as (_ & -> & _). by eexists.
Qed.
Lemma rmass_bound part G c A : core part G c A -> 0 <= rmass part c < 2 ^ 63.
Proof using.
  intros Hc. split.
  - apply sumz_nonneg, Forall_forall. intros x (l & -> & [i Hl]%list_elem_of_lookup)%list_elem_of_fmap. by eapply stripe_mass.
  - assert (Hb : rmass part c <= vlen ((fun l => mass part (dom (held l))) <$> read_cache c) * 2 ^ 55).
    { apply sumz_bound, Forall_forall. intros x (l & -> & [i Hl]%list_elem_of_lookup)%list_elem_of_fmap. pose proof (stripe_mass _ _ _ _ _ _ Hc Hl). lia. }
    unfold vlen in Hb. rewrite length_fmap, (co_stripes _ _ _ _ Hc) in Hb. lia.
Qed.

(** ** The read cache loses pages *)

Record shrinks c c' : Prop := {
  sk_file : file c' = file c;
  sk_page_size : page_size c' = page_size c;
  sk_max : max_cache_size c' = max_cache_size c;
  sk_buffer : write_buffer c' = write_buffer c;
  sk_write : write_buffer_bytes c' = write_buffer_bytes c;
  sk_length : length (read_cache c') = length (read_cache c);
  sk_stripe i l' : read_cache c' !! i = Some l' -> exists l, read_cache c !! i = Some l /\ held l' ⊆ held l /\ (lru_ok l -> lru_ok l') }.

Lemma shrinks_refl c : shrinks c c.
Proof using. split; try done. intros i l' Hl. by exists l'. Qed.
Lemma shrinks_trans c1 c2 c3 : shrinks c1 c2 -> shrinks c2 c3 -> shrinks c1 c3.
Proof using.
  intros [] []. split; try congruence. intros i l3 H3. destruct (sk_stripe1 i l3 H3) as (l2 & H2 & S2 & O2). destruct (sk_stripe0 i l2 H2) as (l1 & H1 & S1 & O1).
  exists l1. split; [done|]. split; [by etrans|auto].
Qed.
Lemma core_shrinks part G c c' A : core part G c A -> shrinks c c' -> core part G c' A.
Proof using.
  intros [] [S1 S2 S3 S4 S5 S6 S7]. assert (Hd : disk c' = disk c) by (unfold disk; by rewrite S1).
  split; rewrite ?S1, ?S2, ?S3, ?S4, ?S6, ?Hd; try done.
  - intros i l' (l & Hl & _ & Ho)%S7. apply Ho. by eapply co_lru0.
  - intros i l' o d (l & Hl & Hs & _)%S7 Ho. eapply co_clean0; [done|]. by eapply lookup_weaken.
Qed.

(** The state after a stripe and the counter have changed *)
Definition with_stripe c (i : nat) (l : LRUCache.t (list Z)) (n : Z) : PagedCachedFile.t B :=
  PagedCachedFile.set_read_bytes (PagedCachedFile.set_read_cache c (<[i := l]> (read_cache c))) n.
Lemma stripe_shrinks c i l l1 n : read_cache c !! i = Some l -> held l1 ⊆ held l -> (lru_ok l -> lru_ok l1) -> shrinks c (with_stripe c i l1 n).
Proof using.
  intros Hl Hs Ho. split; cbn; try done; [apply length_insert|]. intros j l' [(<- & <- & _)|[_ Hj]]%list_lookup_insert_Some; [by exists l|by exists l'].
Qed.
Lemma rmass_stripe part c i l l1 n : read_cache c !! i = Some l -> rmass part (with_stripe c i l1 n) = rmass part c - mass part (dom (held l)) + mass part (dom (held l1)).
Proof using. intros Hl. unfold rmass. cbn. rewrite list_fmap_insert. rewrite (sumz_set _ _ (mass part (dom (held l)))); [done|]. by rewrite list_lookup_fmap, Hl. Qed.
Lemma stripe_at part G c A slot : core part G c A -> 0 <= slot < 131 -> exists l, read_cache c !! Z.to_nat slot = Some l.
Proof using. intros Hc Hs. apply lookup_lt_is_Some. rewrite (co_stripes _ _ _ _ Hc). lia. Qed.
Lemma on_stripe_eq {D} c slot l l1 (a : D) op : 0 <= slot < 131 -> length (read_cache c) = 131%nat -> read_cache c !! Z.to_nat slot = Some l -> op l = Ret (l1, a) ->
  PagedCachedFile.on_stripe slot op c = Ret (with_stripe c (Z.to_nat slot) l1 (read_cache_bytes c), Okay a).
Proof using.
  intros Hs Hn Hl Hop. unfold PagedCachedFile.on_stripe. rewrite (vget_ok _ _ l) by (done || lia). cbn [mbind outcome_bind]. rewrite Hop. cbn [mbind outcome_bind fst snd].
  rewrite vset_ok by (unfold vlen; lia). by destruct c.
Qed.

(** A page is evicted from a stripe. *)
Lemma pop_stripe part G c A i l : core part G c A -> read_cache c !! i = Some l ->
  exists l1 r, LRUCache.pop_lowest_priority l = Ret (l1, r) /\ (forall n, shrinks c (with_stripe c i l1 n)) /\
    match r with
    | Some (k, d) => held l !! k = Some d /\ held l1 = delete k (held l) /\ 0 < vlen d /\ forall n, rmass part (with_stripe c i l1 n) = rmass part c - vlen d
    | None => held l = ∅ /\ held l1 = ∅ /\ forall n, rmass part (with_stripe c i l1 n) = rmass part c
    end.
Proof using.
  intros Hc Hl. destruct (lru_pop l (co_lru _ _ _ _ Hc i l Hl)) as (l1 & r & E & Ho & Hr). exists l1, r. split; [done|]. split.
  - intros n. apply (stripe_shrinks c i l); [done| |done]. destruct r as [[k d]|]; destruct Hr as [H1 ->]; [apply delete_subseteq|rewrite H1; done].
  - destruct r as [[k d]|]; destruct Hr as [H1 H2].
    + destruct (co_clean _ _ _ _ Hc i l k d Hl H1) as (_ & Hp & _). destruct (pt_page _ _ _ (co_part _ _ _ _ Hc) _ _ Hp) as (_ & Hd & _). split; [done|]. split; [done|]. split; [done|].
      intros n. rewrite (rmass_stripe part c i l l1 n Hl), H2, dom_delete_L. rewrite mass_delete by (apply elem_of_dom; by eexists). rewrite (plen_at _ _ _ Hp). lia.
    + split; [done|]. split; [done|]. intros n. rewrite (rmass_stripe part c i l l1 n Hl), H1, H2. lia.
Qed.
Lemma evict_stripe_runs part G A slot needed E : 0 <= slot < 131 -> forall fuel freed c l, tallied part G c A -> read_cache c !! Z.to_nat slot = Some l ->
  (size (held l) < fuel)%nat -> 0 <= freed -> freed + rmass part c < 2 ^ 64 ->
  runs (PagedCachedFile.evict_stripe fuel slot needed freed) c (fun c' freed' => tallied part G c' A /\ shrinks c c' /\ freed' - freed = rmass part c - rmass part c' /\
    freed <= freed' /\ (needed <= freed' \/ exists l', read_cache c' !! Z.to_nat slot = Some l' /\ held l' = ∅)) E.
Proof using.
  intros Hs. induction fuel as [|fuel IH]; intros freed c l Hcc Hl Hfuel Hf Hb; [lia|]. cbn [PagedCachedFile.evict_stripe]. destruct Hcc as [Hc Hr].
  destruct (Z.ltb_spec freed needed); [|apply runs_ret; split; [done|]; split; [apply shrinks_refl|]; split; [lia|]; split; [lia|by left]].
  destruct (pop_stripe part G c A _ l Hc Hl) as (l1 & r & Epop & Hsh & Hpop).
  eapply runs_det; [by eapply on_stripe_eq; [done|apply Hc|done|]|]. destruct r as [[k d]|].
  - destruct Hpop as (Hk & Hl1 & Hd & Hm). pose proof (rmass_bound _ _ _ _ Hc). specialize (Hsh (read_cache_bytes c - vlen d)) as Hsh1. pose proof (core_shrinks _ _ _ _ _ Hc Hsh1) as Hc1.
    pose proof (rmass_bound _ _ _ _ Hc1) as Hb1. rewrite Hm in Hb1. eapply (runs_lift _ (freed + vlen d)); [rewrite uadd_ok by lia; done|].
    eapply (runs_det _ _ _ (with_stripe c (Z.to_nat slot) l1 (read_cache_bytes c - vlen d))); [unfold PagedCachedFile.sub_read_bytes; cbn; unfold wsub; rewrite Z.mod_small by lia; done|].
    eapply runs_weaken; [apply (IH (freed + vlen d) (with_stripe c (Z.to_nat slot) l1 (read_cache_bytes c - vlen d)) l1)| |done].
    + split; [done|rewrite Hm; cbn; lia].
    + cbn. apply list_lookup_insert_eq. rewrite (co_stripes _ _ _ _ Hc). lia.
    + rewrite Hl1, map_size_delete_Some by (by eexists). assert (size (held l) <> 0%nat); [|lia]. intros E0%map_size_empty_inv. by rewrite E0, lookup_empty in Hk.
    + lia.
    + rewrite Hm. lia.
    + intros c' freed' (K1 & K2 & K3 & K4 & K5). rewrite Hm in K3. split; [done|]. split; [by eapply shrinks_trans|]. split; [lia|]. split; [lia|done].
  - destruct Hpop as (K1 & K2 & Hm). apply runs_ret. specialize (Hsh (read_cache_bytes c)). split; [split; [by eapply core_shrinks|by rewrite Hm]|]. split; [done|]. rewrite Hm. split; [lia|]. split; [lia|].
    right. exists l1. split; [|done]. cbn. apply list_lookup_insert_eq. rewrite (co_stripes _ _ _ _ Hc). lia.
Qed.

(** ** Eviction of the read cache *)

Lemma shrinks_empty c c' i l : shrinks c c' -> read_cache c !! i = Some l -> held l = ∅ -> exists l', read_cache c' !! i = Some l' /\ held l' = ∅.
Proof using.
  intros Hs Hl He. destruct (lookup_lt_is_Some_2 (read_cache c') i) as [l' Hl']; [rewrite (sk_length _ _ Hs); by eapply lookup_lt_Some|].
  destruct (sk_stripe _ _ Hs i l' Hl') as (l0 & Hl0 & Hsub & _). rewrite Hl in Hl0. injection Hl0 as <-. exists l'. split; [done|]. rewrite He in Hsub. apply (anti_symm (⊆)); [done|apply map_empty_subseteq].
Qed.
Lemma all_empty part c : (forall i l, read_cache c !! i = Some l -> held l = ∅) -> rmass part c = 0.
Proof using.
  intros He. unfold rmass. apply sumz_zero, Forall_forall. intros x (l & -> & [i Hl]%list_elem_of_lookup)%list_elem_of_fmap. rewrite (He i l Hl), dom_empty_L. apply mass_empty.
Qed.
Lemma evict_runs part G A c needed E : tallied part G c A -> 0 <= needed ->
  runs (PagedCachedFile.evict_from_read_cache needed) c (fun c' _ => tallied part G c' A /\ shrinks c c' /\ (rmass part c' <= rmass part c - needed \/ rmass part c' = 0)) E.
Proof using.
  intros Hcc Hn. unfold PagedCachedFile.evict_from_read_cache. apply runs_gets. unfold vlen. rewrite (co_stripes _ _ _ _ (ta_core _ _ _ _ Hcc)). change (Z.of_nat 131) with 131.
  set (start := PagedCachedFile.next_eviction_stripe c mod 131). eapply runs_det; [done|]. set (c0 := PagedCachedFile.set_stripe c _).
  assert (Hs0 : shrinks c c0) by (destruct (shrinks_refl c); by split). assert (Hcc0 : tallied part G c0 A) by (destruct Hcc as [Hc Hr]; split; [by eapply core_shrinks|done]).
  assert (Hm0 : rmass part c0 = rmass part c) by done. pose proof (rmass_bound _ _ _ _ (ta_core _ _ _ _ Hcc)) as Hb.
  eapply runs_bind.
  { apply (runs_seqZ _ (fun i c' freed => tallied part G c' A /\ shrinks c c' /\ freed = rmass part c - rmass part c' /\ 0 <= freed /\
      (needed <= freed \/ forall j, 0 <= j < i -> exists l, read_cache c' !! Z.to_nat ((start + j) mod 131) = Some l /\ held l = ∅)) E 131 0); [lia| |].
    - split; [done|]. split; [done|]. split; [lia|]. split; [lia|]. right. lia.
    - intros i c1 freed Hi (Hcc1 & Hs1 & Hf & Hf0 & Hor). destruct (Z.leb_spec needed freed) as [Hle|Hlt]; [apply runs_ret; split_and!; try done; by left|]. destruct Hor as [?|Hor]; [lia|].
      pose proof (Z.mod_pos_bound (start + i) 131 ltac:(lia)) as Hslot. destruct (stripe_at _ _ _ _ ((start + i) mod 131) (ta_core _ _ _ _ Hcc1) Hslot) as [l Hl].
      eapply (runs_det _ _ _ c1 (size (LRUCache.cache l))); [unfold PagedCachedFile.stripe_size; rewrite (vget_ok _ _ l) by (done || lia); done|].
      pose proof (rmass_bound _ _ _ _ (ta_core _ _ _ _ Hcc1)) as Hb1.
      eapply runs_weaken; [apply (evict_stripe_runs part G A _ needed E Hslot _ freed c1 l Hcc1 Hl)| |done]; [rewrite held_size; lia|lia|lia|].
      intros c2 freed2 (K1 & K2 & K3 & K4 & K5). split; [done|]. split; [by eapply shrinks_trans|]. split; [lia|]. split; [lia|]. destruct K5 as [K5|K5]; [by left|]. right.
      intros j Hj. destruct (decide (j = i)) as [->|]; [done|]. destruct (Hor j ltac:(lia)) as (l0 & Hl0 & He). by eapply shrinks_empty. }
  intros c1 freed (Hcc1 & Hs1 & Hf & _ & Hor). apply runs_ret. split; [done|]. split; [done|]. destruct Hor as [?|Hor]; [left; lia|]. right. apply all_empty.
  intros i l Hl. pose proof (lookup_lt_Some _ _ _ Hl) as Hi. rewrite (co_stripes _ _ _ _ (ta_core _ _ _ _ Hcc1)) in Hi.
  destruct (Hor ((Z.of_nat i - start) mod 131)) as (l' & Hl' & He); [apply Z.mod_pos_bound; lia|]. rewrite Zplus_mod_idemp_r in Hl'. replace (start + (Z.of_nat i - start)) with (Z.of_nat i) in Hl' by lia.
  rewrite Z.mod_small, Nat2Z.id in Hl' by lia. congruence.
Qed.

(** ** The file *)

Definition on_disk c (b : B) : PagedCachedFile.t B := PagedCachedFile.set_file c (CheckedBackend.mk b false (CheckedBackend.closed (file c))).
Lemma on_disk_same c : CheckedBackend.io_failed (file c) = false -> on_disk c (CheckedBackend.file (file c)) = c.
Proof using. destruct c as [[b f cl] ? ? ? ? ? ? ?]. cbn. by intros ->. Qed.
Lemma file_runs {D} (op : M B D) c (Q : B -> D -> Prop) : CheckedBackend.io_failed (file c) = false ->
  (exists b r, op (CheckedBackend.file (file c)) = Ret (b, r) /\ backend_ok b /\ match r with Okay a => Q b a | Err _ => backend_fails end) ->
  runs (PagedCachedFile.on_file (CheckedBackend.checked op)) c (fun c' a => exists b, c' = on_disk c b /\ backend_ok b /\ Q b a) broken.
Proof using.
  intros Hf (b & r & Hop & Hb & Hr). unfold runs, PagedCachedFile.on_file, CheckedBackend.checked, mbind, M_bind, CheckedBackend.check_failure, CheckedBackend.attempt. rewrite Hf. cbn [mbind outcome_bind fst snd].
  rewrite Hop. cbn [mbind outcome_bind fst snd]. destruct r as [x|e]; eexists _, _; (split; [reflexivity|]); cbn; [exists b; by rewrite Hf|done].
Qed.
(** The bytes of a page that is read *)
Lemma read_direct_runs part G c A o n : core part G c A -> part !! o = Some n ->
  runs (PagedCachedFile.read_direct o n) c (fun c' d => exists b, c' = on_disk c b /\ backend_ok b /\ content b = disk c /\ d = sub (disk c) o n) broken.
Proof using.
  intros Hc Hp. destruct (pt_page _ _ _ (co_part _ _ _ _ Hc) o n Hp) as (Ho & Hn & Hl & _). rewrite (co_len _ _ _ _ Hc) in Hl.
  eapply runs_weaken; [apply (file_runs (backend_read o n) c (fun b d => content b = disk c /\ d = sub (disk c) o n)); [apply Hc|]| |done].
  - destruct (law_backend_read _ o n (co_backend _ _ _ _ Hc)) as (b & r & E & H1 & H2 & H3); [lia..|exact Hl|]. exists b, r. split; [done|]. split; [done|]. by destruct r.
  - intros c' d (b & -> & H1 & H2 & H3). by exists b.
Qed.
Lemma core_disk part G c A b : core part G c A -> backend_ok b -> content b = disk c -> core part G (on_disk c b) A.
Proof using. intros [] Hb Hd. assert (E : disk (on_disk c b) = disk c) by (unfold disk at 1; cbn; done). split; cbn -[disk]; rewrite ?E; done. Qed.

(** ** The write buffer *)

Lemma insert_back (w : LRUWriteCache.t) k : held w !! k = Some None -> <[k := None]> (delete k (held w)) = held w.
Proof using. intros Hk. by rewrite insert_delete_eq, insert_id. Qed.
Lemma wpop_loop_ok n : forall w, lru_ok w -> exists w' r, LRUWriteCache.pop_loop n w = Ret (w', r) /\ lru_ok w' /\
  match r with
  | Some (k, d) => held w !! k = Some (Some d) /\ held w' = delete k (held w)
  | None => held w' = held w /\ (n = O \/ held w = ∅ \/ exists k, held w !! k = Some None)
  end.
Proof using.
  induction n as [|n IH]; intros w Hw; cbn [LRUWriteCache.pop_loop]; [exists w, None; auto|]. destruct (lru_pop w Hw) as (w1 & r & -> & H1 & Hr). cbn [mbind outcome_bind fst snd].
  destruct r as [[k [d|]]|].
  - exists w1, (Some (k, d)). done.
  - destruct Hr as [Hk Hd]. destruct (lru_insert w1 k None) as (_ & I2 & I3). destruct (IH _ (I3 H1)) as (w' & r & -> & O' & Hr). exists w', r. split; [done|]. split; [done|].
    rewrite I2, Hd, insert_back in Hr by done. destruct r as [[k' d]|]; [done|]. destruct Hr as [Hr _]. split; [done|]. right. right. by exists k.
  - destruct Hr as [E1 E2]. exists w1, None. split; [done|]. split; [done|]. rewrite E1, E2. auto.
Qed.
Lemma wpop_ok w : lru_ok w -> exists w' r, LRUWriteCache.pop_lowest_priority w = Ret (w', r) /\ lru_ok w' /\
  match r with
  | Some (k, d) => held w !! k = Some (Some d) /\ held w' = delete k (held w)
  | None => held w' = held w /\ (held w = ∅ \/ exists k, held w !! k = Some None)
  end.
Proof using.
  intros Hw. destruct (wpop_loop_ok (size (LRUCache.cache w)) w Hw) as (w' & r & E & H1 & Hr). exists w', r. split; [done|]. split; [done|]. destruct r as [x|]; [done|].
  destruct Hr as [H2 [H3|H3]]; [|done]. split; [done|]. left. apply map_size_empty_inv. by rewrite held_size.
Qed.

(** A page of the write buffer that is written to the file *)
Definition flushed_state c (w : LRUWriteCache.t) (b : B) (n : Z) : PagedCachedFile.t B :=
  PagedCachedFile.set_write_bytes (on_disk (PagedCachedFile.set_write_buffer c w) b) n.
Lemma core_flushed part G c A o d w b n : core part G c A -> buffered c !! o = Some (Some d) -> lru_ok w -> held w = delete o (buffered c) -> backend_ok b -> content b = upd (disk c) o d ->
  core part G (flushed_state c w b n) A /\ wmass part (flushed_state c w b n) = wmass part c - vlen d.
Proof using.
  intros Hc Ho Hw Hd Hb Hcont. destruct (co_dirty _ _ _ _ Hc o d Ho) as [Hp HA]. destruct (pt_page _ _ _ (co_part _ _ _ _ Hc) _ _ Hp) as (Ho0 & Hlen & Hfit & _).
  pose proof (co_len _ _ _ _ Hc) as Hl. assert (Hfit' : o + vlen d <= vlen (disk c)) by lia. assert (E : disk (flushed_state c w b n) = upd (disk c) o d) by done. split.
  - destruct Hc as [C1 C2 C3 C4 C5 C6 C7 C8 C9 C10 C11 C12 C13 C14]. split; rewrite ?E; cbn -[disk]; rewrite ?Hd; try done.
    + by rewrite vlen_upd.
    + intros i l o' d' Hl' Ho'. destruct (C9 i l o' d' Hl' Ho') as (H1 & H2 & H3 & H4). assert (o' <> o) by congruence. destruct (pt_page _ _ _ C4 _ _ H2) as (Ho'0 & _).
      split; [done|]. split; [done|]. split; [|by rewrite lookup_delete_ne]. rewrite sub_upd_other; [done|done|done|done|]. by apply (pt_disjoint _ _ _ C4 o o').
    + intros o' d' [_ Ho']%lookup_delete_Some. by apply C11.
    + intros o'. rewrite lookup_delete_Some, C12. split; [tauto|]. intros HG. split; [|done]. intros ->. apply C12 in HG. congruence.
    + intros i Hi. rewrite lookup_upd by done. case_decide as Hr.
      * rewrite (sub_lookup A o (vlen d) d i); done.
      * apply C14. intros o' k' Ho' Hk'. destruct (decide (o' = o)) as [->|]; [rewrite Hp in Hk'; by injection Hk' as <-|]. apply Hi; [by rewrite lookup_delete_ne|done].
  - unfold wmass. cbn. rewrite Hd, dom_delete_L. rewrite mass_delete by (apply elem_of_dom; by eexists). by rewrite (plen_at _ _ _ Hp).
Qed.

(** ** Reading *)

Lemma page_bound part G c A o n : core part G c A -> part !! o = Some n -> 0 < n < 2 ^ 55.
Proof using.
  intros Hc Hp. split; [apply (pt_page _ _ _ (co_part _ _ _ _ Hc)) in Hp; lia|]. eapply Z.le_lt_trans; [|apply (pt_total _ _ _ (co_part _ _ _ _ Hc))].
  rewrite <-(plen_at _ _ _ Hp). replace (plen part o) with (mass part {[o]}); [|unfold mass; rewrite elements_singleton; cbn; lia]. apply mass_sub; [by eapply core_plen|].
  apply singleton_subseteq_l, elem_of_dom. by eexists.
Qed.
Lemma aligned_runs {D} part G c A o n (k : unit -> M (PagedCachedFile.t B) D) Q E : core part G c A -> part !! o = Some n -> runs (k tt) c Q E -> runs (PagedCachedFile.aligned o ≫= k) c Q E.
Proof using.
  intros Hc Hp. destruct (pt_page _ _ _ (co_part _ _ _ _ Hc) _ _ Hp) as (_ & _ & _ & Hm). eapply runs_det. unfold PagedCachedFile.aligned, mbind, M_bind, gets, lift. cbn [mbind outcome_bind fst snd].
  rewrite Hm. rewrite (proj2 (Z.eqb_neq _ _)); [done|]. pose proof (co_page_size _ _ _ _ Hc). lia.
Qed.
(** A page that is not in the write buffer has the bytes of the file. *)
Lemma clean_sub part G c A o n : core part G c A -> part !! o = Some n -> buffered c !! o = None -> sub (disk c) o n = sub A o n.
Proof using.
  intros Hc Hp Ho. destruct (pt_page _ _ _ (co_part _ _ _ _ Hc) _ _ Hp) as (Ho0 & _). symmetry. apply sub_eq; [done|]. intros i Hi. apply (co_rest _ _ _ _ Hc).
  intros o' k' Hb Hp' Hi'. assert (o <> o') by (intros ->; rewrite Ho in Hb; by destruct Hb). destruct (pt_disjoint _ _ _ (co_part _ _ _ _ Hc) o o' n k') as [?|?]; [done..|lia|lia].
Qed.

(** The write buffer has the same pages. *)
Lemma core_buffer part G c A w : core part G c A -> held w = buffered c -> lru_ok w -> core part G (PagedCachedFile.set_write_buffer c w) A.
Proof using. intros [] Hw Ho. assert (E : disk (PagedCachedFile.set_write_buffer c w) = disk c) by done. split; rewrite ?E; cbn -[disk]; rewrite ?Hw; done. Qed.
Lemma coherent_buffer part G c A w : coherent part G c A -> held w = buffered c -> lru_ok w -> coherent part G (PagedCachedFile.set_write_buffer c w) A.
Proof using. intros [] Hw Ho. split; [by apply core_buffer|done|]. unfold wmass. cbn. by rewrite Hw. Qed.

(** A page of the file is put in the read cache. *)
Lemma core_cached part G c A i l l1 n o d : core part G c A -> read_cache c !! i = Some l -> o mod 131 = Z.of_nat i -> part !! o = Some (vlen d) ->
  d = sub (disk c) o (vlen d) -> buffered c !! o = None -> held l1 = <[o := d]> (held l) -> lru_ok l1 -> core part G (with_stripe c i l1 n) A.
Proof using.
  intros [] Hl Hi Hp Hd Hb H1 Ho. assert (E : disk (with_stripe c i l1 n) = disk c) by done. split; rewrite ?E; cbn -[disk]; try done.
  - by rewrite length_insert.
  - intros j l' [(_ & <- & _)|[_ Hj]]%list_lookup_insert_Some; [done|by eapply co_lru0].
  - intros j l' o' d' [(<- & <- & _)|[_ Hj]]%list_lookup_insert_Some Ho'; [|by eapply co_clean0]. rewrite H1 in Ho'. apply lookup_insert_Some in Ho' as [[<- <-]|[_ Ho']]; [done|by eapply co_clean0].
Qed.
Lemma cached_mass part (m : gmap Z (list Z)) o d : part !! o = Some (vlen d) -> mass part (dom (<[o := d]> m)) = mass part (dom m) + match m !! o with Some _ => 0 | None => vlen d end.
Proof using.
  intros Hp. destruct (m !! o) as [d'|] eqn:E; [rewrite dom_insert_lookup_L by (rewrite E; by eexists); lia|].
  rewrite dom_insert_L, mass_add by (by apply not_elem_of_dom). rewrite (plen_at _ _ _ Hp). lia.
Qed.

(** The entries of a slot are evicted; the counter is not changed. *)
Lemma evict_slot_runs part G A slot needed E : 0 <= slot < 131 -> forall fuel removed c l, core part G c A -> read_cache c !! Z.to_nat slot = Some l ->
  (size (held l) < fuel)%nat -> 0 <= removed -> removed + rmass part c < 2 ^ 64 ->
  runs (PagedCachedFile.evict_slot fuel slot needed removed) c (fun c' removed' => core part G c' A /\ shrinks c c' /\ read_cache_bytes c' = read_cache_bytes c /\
    removed' - removed = rmass part c - rmass part c' /\ removed <= removed' /\ (needed <= removed' \/ removed' - removed = mass part (dom (held l)))) E.
Proof using.
  intros Hs. induction fuel as [|fuel IH]; intros removed c l Hc Hl Hfuel Hf Hb; [lia|]. cbn [PagedCachedFile.evict_slot].
  destruct (Z.ltb_spec removed needed); [|apply runs_ret; split; [done|]; split; [apply shrinks_refl|]; split; [done|]; split; [lia|]; split; [lia|by left]].
  destruct (pop_stripe part G c A _ l Hc Hl) as (l1 & r & Epop & Hsh & Hpop).
  eapply runs_det; [by eapply on_stripe_eq; [done|apply Hc|done|]|]. specialize (Hsh (read_cache_bytes c)). pose proof (core_shrinks _ _ _ _ _ Hc Hsh) as Hc1. destruct r as [[k d]|].
  - destruct Hpop as (Hk & Hl1 & Hd & Hm). pose proof (rmass_bound _ _ _ _ Hc1) as Hb1. pose proof (rmass_stripe part c _ l l1 (read_cache_bytes c) Hl) as Hrs. rewrite Hm in Hb1, Hrs.
    eapply (runs_lift _ (removed + vlen d)); [rewrite uadd_ok by lia; done|].
    eapply runs_weaken; [apply (IH (removed + vlen d) (with_stripe c (Z.to_nat slot) l1 (read_cache_bytes c)) l1)| |done].
    + done.
    + cbn. apply list_lookup_insert_eq. rewrite (co_stripes _ _ _ _ Hc). lia.
    + rewrite Hl1, map_size_delete_Some by (by eexists). assert (size (held l) <> 0%nat); [|lia]. intros E0%map_size_empty_inv. by rewrite E0, lookup_empty in Hk.
    + lia.
    + rewrite Hm. lia.
    + intros c' removed' (K1 & K2 & K3 & K4 & K5 & K6). rewrite Hm in K4. split; [done|]. split; [by eapply shrinks_trans|]. split; [done|]. split; [lia|]. split; [lia|]. destruct K6; [by left|right; lia].
  - destruct Hpop as (K1 & K2 & Hm). apply runs_ret. split; [done|]. split; [done|]. split; [done|]. rewrite Hm, K1, dom_empty_L, mass_empty. split; [lia|]. split; [lia|]. right. lia.
Qed.

(** What an operation on the caches leaves as it was *)
Record same c c' : Prop := { sm_max : max_cache_size c' = max_cache_size c; sm_page_size : page_size c' = page_size c }.
Lemma same_trans c1 c2 c3 : same c1 c2 -> same c2 c3 -> same c1 c3.
Proof using. intros [] []. split; congruence. Qed.
Lemma same_shrinks c c' : shrinks c c' -> same c c'.
Proof using. intros []. done. Qed.
(** The caches fit in their memory. *)
Definition within part c : Prop := rmass part c + wmass part c <= max_cache_size c.

Lemma shrinks_wmass part c c' : shrinks c c' -> wmass part c' = wmass part c.
Proof using. intros Hs. unfold wmass. by rewrite (sk_buffer _ _ Hs). Qed.
Lemma stripe_size_eq c slot l : 0 <= slot -> read_cache c !! Z.to_nat slot = Some l -> PagedCachedFile.stripe_size slot c = Ret (c, Okay (size (LRUCache.cache l))).
Proof using. intros Hs Hl. unfold PagedCachedFile.stripe_size. by rewrite (vget_ok _ _ l). Qed.
Lemma slot_range o : 0 <= PagedCachedFile.cache_slot o < 131.
Proof using. apply Z.mod_pos_bound. lia. Qed.
Lemma slot_nat o : o mod 131 = Z.of_nat (Z.to_nat (PagedCachedFile.cache_slot o)).
Proof using. rewrite Z2Nat.id by apply slot_range. done. Qed.

(** The end of a read: the page was added to the slot [l]. *)
Lemma trim_runs part G c A slot l n E (d : list Z) : 0 <= slot < 131 -> core part G c A -> read_cache c !! Z.to_nat slot = Some l -> read_cache_bytes c = rmass part c -> write_buffer_bytes c = wmass part c ->
  0 < n <= mass part (dom (held l)) ->
  runs (removed ← (if max_cache_size c <? read_cache_bytes c + write_buffer_bytes c then m ← PagedCachedFile.stripe_size slot; PagedCachedFile.evict_slot (S m) slot n 0 else mret 0);
        _ ← (if 0 <? removed then PagedCachedFile.sub_read_bytes removed else mret 0); mret d) c
    (fun c' a => coherent part G c' A /\ a = d /\ shrinks c c' /\ (rmass part c - n + wmass part c <= max_cache_size c -> within part c')) E.
Proof using.
  intros Hs Hc Hl Hr Hw Hn. pose proof (rmass_bound _ _ _ _ Hc) as Hb. eapply runs_bind with (Q1 := fun c' removed => core part G c' A /\ shrinks c c' /\ read_cache_bytes c' = read_cache_bytes c /\ removed = rmass part c - rmass part c' /\ 0 <= removed /\ (n <= removed \/ max_cache_size c >= rmass part c + wmass part c)).
  - destruct (Z.ltb_spec (max_cache_size c) (read_cache_bytes c + write_buffer_bytes c)); [|apply runs_ret; split; [done|]; split; [apply shrinks_refl|]; split; [done|]; split; [lia|]; split; [lia|]; right; lia].
    eapply runs_det; [exact (stripe_size_eq c slot l (proj1 Hs) Hl)|]. eapply runs_weaken; [apply (evict_slot_runs part G A slot n E Hs _ 0 c l Hc Hl); [rewrite held_size; lia|lia|lia]| |done].
    intros c' removed (K1 & K2 & K3 & K4 & K5 & K6). split; [done|]. split; [done|]. split; [done|]. split; [lia|]. split; [lia|]. left. lia.
  - intros c1 removed (K1 & K2 & K3 & K4 & K5 & K6). pose proof (rmass_bound _ _ _ _ K1) as Hb1. pose proof (shrinks_wmass part _ _ K2) as Hwm.
    set (c2 := PagedCachedFile.set_read_bytes c1 (rmass part c1)). assert (S2 : shrinks c c2) by (destruct K2; split; assumption). pose proof (core_shrinks _ _ _ _ _ Hc S2) as C2.
    assert (H2 : coherent part G c2 A) by (split; [done..|]; cbn; rewrite (sk_write _ _ K2), Hw; by symmetry).
    assert (Hk : exists a, (if 0 <? removed then PagedCachedFile.sub_read_bytes removed else mret 0) c1 = Ret (c2, Okay a)).
    { destruct (Z.ltb_spec 0 removed); eexists.
      - unfold PagedCachedFile.sub_read_bytes. rewrite K3, Hr. unfold wsub. rewrite Z.mod_small by lia. unfold c2. by replace (rmass part c1) with (rmass part c - removed) by lia.
      - assert (E1 : c2 = c1); [|rewrite E1; reflexivity]. unfold c2. replace (rmass part c1) with (read_cache_bytes c1) by lia. by destruct c1. }
    destruct Hk as [x Hk]. eapply runs_det; [exact Hk|].
    apply runs_ret. split; [done|]. split; [done|]. split; [done|]. intros Hlt. unfold within. change (rmass part c2) with (rmass part c1). change (wmass part c2) with (wmass part c1). rewrite (sk_max _ _ S2). lia.
Qed.
Lemma read_miss_runs part G c A o n l : coherent part G c A -> part !! o = Some n -> buffered c !! o = None ->
  read_cache c !! Z.to_nat (PagedCachedFile.cache_slot o) = Some l -> held l !! o = None ->
  runs (PagedCachedFile.read_miss o n (PagedCachedFile.cache_slot o)) c (fun c' d => coherent part G c' A /\ d = sub A o n /\ buffered c' = buffered c /\ same c c' /\ (within part c -> within part c')) broken.
Proof using.
  intros [Hc Hr Hw] Hp Hb Hl Ho. pose proof (rmass_bound _ _ _ _ Hc). pose proof (wmass_bound _ _ _ _ Hc). pose proof (page_bound _ _ _ _ _ _ Hc Hp) as Hn. pose proof (slot_range o) as Hslot.
  unfold PagedCachedFile.read_miss. eapply runs_bind; [by eapply read_direct_runs|]. intros c1 d (b & -> & Hbo & Hcont & ->). pose proof (core_disk _ _ _ _ _ Hc Hbo Hcont) as Hc1. set (c1 := on_disk c b) in *.
  destruct (pt_page _ _ _ (co_part _ _ _ _ Hc) _ _ Hp) as (Ho0 & _ & Hfit & _). rewrite (co_len _ _ _ _ Hc) in Hfit. assert (Hlen : vlen (sub (disk c) o n) = n) by (apply vlen_sub; lia).
  eapply (runs_det _ _ _ (PagedCachedFile.set_read_bytes c1 (rmass part c + n))); [unfold PagedCachedFile.add_read_bytes; unfold wadd; rewrite Z.mod_small by (cbn; lia); cbn; by rewrite Hr|].
  set (d := sub (disk c) o n) in *. destruct (lru_insert l o d) as (I1 & I2 & I3). set (l1 := (LRUCache.insert l o d).1) in *.
  assert (Hcc : core part G (with_stripe c1 (Z.to_nat (PagedCachedFile.cache_slot o)) l1 (rmass part c + n)) A).
  { apply (core_cached part G c1 A _ l l1 _ o d); try done; [apply slot_nat|by rewrite Hlen| |]; [|by apply I3, (co_lru _ _ _ _ Hc _ _ Hl)].
    rewrite Hlen. unfold c1. change (d = sub (content b) o n). by rewrite Hcont. }
  assert (Hm : rmass part (with_stripe c1 (Z.to_nat (PagedCachedFile.cache_slot o)) l1 (rmass part c + n)) = rmass part c + n).
  { rewrite (rmass_stripe part c1 _ l) by done. rewrite I2, cached_mass by (by rewrite Hlen). rewrite Ho, Hlen. change (rmass part c1) with (rmass part c). lia. }
  eapply (runs_det _ _ _ (with_stripe c1 (Z.to_nat (PagedCachedFile.cache_slot o)) l1 (rmass part c + n)) None).
  { rewrite <-Ho, <-I1. by apply (on_stripe_eq (PagedCachedFile.set_read_bytes c1 (rmass part c + n)) _ l); [done|apply Hc| |]. }
  set (c2 := with_stripe c1 _ l1 _) in *. cbn [mbind M_bind]. apply runs_ret_bind, runs_gets.
  change (write_buffer_bytes c2) with (write_buffer_bytes c). change (read_cache_bytes c1) with (read_cache_bytes c).
  eapply (runs_lift _ (read_cache_bytes c2)); [rewrite uadd_ok by lia; done|]. eapply runs_lift; [rewrite uadd_ok by (cbn; lia); done|]. change (write_buffer_bytes c) with (write_buffer_bytes c2).
  eapply runs_weaken; [eapply (trim_runs part G c2 A _ l1 n); try done| |done].
  - cbn. apply list_lookup_insert_eq. rewrite (co_stripes _ _ _ _ Hc). apply Nat2Z.inj_lt. rewrite Z2Nat.id by lia. apply Hslot.
  - rewrite I2, cached_mass by (by rewrite Hlen). rewrite Ho, Hlen. split; [lia|]. pose proof (stripe_mass _ _ _ _ _ _ Hc Hl). lia.
  - intros c' a (K1 & -> & K3 & K4). split; [done|]. split; [by apply (clean_sub part G)|]. rewrite (sk_buffer _ _ K3). split; [done|]. split; [destruct (same_shrinks _ _ K3); by split|].
    intros Hwi. apply K4. rewrite Hm. change (wmass part c2) with (wmass part c). unfold within in Hwi. cbn. lia.
Qed.

Lemma wget_ok (w : LRUWriteCache.t) o : lru_ok w -> held w !! o <> Some None ->
  exists w', LRUWriteCache.get w o = Ret (w', held w !! o ≫= id) /\ held w' = held w /\ lru_ok w'.
Proof using.
  intros Hw Ho. destruct (lru_get w o) as (I1 & I2 & I3). unfold LRUWriteCache.get. rewrite I1. eexists. split; [|split; [exact I2|by apply I3]].
  destruct (held w !! o) as [[d|]|]; done.
Qed.
Lemma on_buffer_eq {D} c op w (a : D) : op (write_buffer c) = Ret (w, a) -> PagedCachedFile.on_buffer op c = Ret (PagedCachedFile.set_write_buffer c w, Okay a).
Proof using. intros E. unfold PagedCachedFile.on_buffer. by rewrite E. Qed.
Lemma within_buffer part c w : held w = buffered c -> within part c -> within part (PagedCachedFile.set_write_buffer c w).
Proof using. unfold within, wmass. intros Hw. cbn. by rewrite Hw. Qed.
(** A read of a page of which the write buffer has no bytes *)
Lemma read_clean_runs part G c A o n : coherent part G c A -> part !! o = Some n -> buffered c !! o = None ->
  runs (cached ← PagedCachedFile.on_stripe (PagedCachedFile.cache_slot o) (fun lock => Ret (LRUCache.get lock o));
        match cached with
        | Some cached => _ ← lift (rassert (vlen cached =? n)); mret cached
        | None => PagedCachedFile.read_miss o n (PagedCachedFile.cache_slot o)
        end) c (fun c' d => coherent part G c' A /\ d = sub A o n /\ buffered c' = buffered c /\ same c c' /\ (within part c -> within part c')) broken.
Proof using.
  intros [Hc Hr Hw] Hp Hb. pose proof (slot_range o) as Hslot. destruct (stripe_at _ _ _ _ _ Hc Hslot) as [l Hl]. destruct (lru_get l o) as (I1 & I2 & I3). set (l1 := (LRUCache.get l o).1) in *.
  eapply runs_det; [apply (on_stripe_eq c _ l l1 (held l !! o) _ Hslot); [apply Hc|done|rewrite <-I1; by destruct (LRUCache.get l o)]|].
  assert (Hs : shrinks c (with_stripe c (Z.to_nat (PagedCachedFile.cache_slot o)) l1 (read_cache_bytes c))) by (apply (stripe_shrinks c _ l); [done|by rewrite I2|done]).
  set (c1 := with_stripe c _ _ _) in *. pose proof (core_shrinks _ _ _ _ _ Hc Hs) as Hc1.
  assert (Hm : rmass part c1 = rmass part c) by (unfold c1; rewrite (rmass_stripe part c _ l) by done; rewrite I2; lia). assert (Hcc1 : coherent part G c1 A) by (split; [done|by rewrite Hm|done]).
  assert (Hwi : within part c -> within part c1) by (unfold within; rewrite Hm; done). destruct (held l !! o) as [d|] eqn:Ed.
  - destruct (co_clean _ _ _ _ Hc _ _ _ _ Hl Ed) as (_ & Hp' & Hd & _). rewrite Hp in Hp'. injection Hp' as ->. eapply (runs_lift _ tt); [by rewrite Z.eqb_refl|]. apply runs_ret.
    split; [done|]. split; [rewrite Hd at 1; by apply (clean_sub part G)|done].
  - eapply runs_weaken; [apply (read_miss_runs part G c1 A o n l1 Hcc1 Hp Hb); [|by rewrite I2]| |done].
    + cbn. apply list_lookup_insert_eq. rewrite (co_stripes _ _ _ _ Hc). lia.
    + intros c' d (K1 & K2 & K3 & K4 & K5). split; [done|]. split; [done|]. split; [done|]. split; [by eapply same_trans; [apply same_shrinks|]|auto].
Qed.
Lemma cached_read_runs part G c A o n hint : coherent part G c A -> part !! o = Some n -> o ∉ G -> (hint = Clean -> buffered c !! o = None) ->
  runs (PagedCachedFile.read o n hint) c (fun c' d => coherent part G c' A /\ d = sub A o n /\ buffered c' = buffered c /\ same c c' /\ (within part c -> within part c')) broken.
Proof using.
  intros Hcc Hp HG Hh. pose proof (cc_core _ _ _ _ Hcc) as Hc. unfold PagedCachedFile.read. eapply aligned_runs; [done..|]. destruct hint; [|by eapply read_clean_runs; auto].
  destruct (wget_ok (write_buffer c) o) as (w & Eg & Hw & How); [apply Hc|intros Hn; by apply HG, (co_borrowed _ _ _ _ Hc)|]. eapply runs_det; [by apply on_buffer_eq|].
  pose proof (coherent_buffer _ _ _ _ _ Hcc Hw How) as Hcc1. set (c1 := PagedCachedFile.set_write_buffer c w) in *. pose proof (within_buffer part c w Hw) as Hwi. destruct (buffered c !! o) as [[d|]|] eqn:Ed.
  - destruct (co_dirty _ _ _ _ Hc _ _ Ed) as [Hp' Hd]. rewrite Hp in Hp'. injection Hp' as ->. cbn [id]. eapply (runs_lift _ tt); [by rewrite Z.eqb_refl|]. by apply runs_ret.
  - exfalso. by apply HG, (co_borrowed _ _ _ _ Hc).
  - eapply runs_weaken; [apply (read_clean_runs part G c1 A o n Hcc1 Hp); cbn; by rewrite Hw| |done]. intros c' d (K1 & K2 & K3 & K4 & K5). cbn in K3. rewrite Hw in K3.
    split; [done|]. split; [done|]. split; [done|]. split; [destruct K4; by split|auto].
Qed.

(** ** Removing *)

(** No page of the read cache is at the offset. *)
Definition uncached o c : Prop := forall i l, read_cache c !! i = Some l -> held l !! o = None.
Lemma uncached_shrinks o c c' : uncached o c -> shrinks c c' -> uncached o c'.
Proof using. intros Hu Hs i l' (l & Hl & Hsub & _)%(sk_stripe _ _ Hs). eapply lookup_weaken_None; [|done]. by eapply Hu. Qed.
Lemma coherent_shrinks part G c c' A : coherent part G c A -> shrinks c c' -> read_cache_bytes c' = rmass part c' -> coherent part G c' A.
Proof using. intros [Hc Hr Hw] Hs Hr'. split; [by eapply core_shrinks|done|]. rewrite (sk_write _ _ Hs), (shrinks_wmass _ _ _ Hs). done. Qed.
(** A key is removed from a stripe. *)
Lemma remove_stripe part G c A i l k : coherent part G c A -> read_cache c !! i = Some l -> let l1 := (LRUCache.remove l k).1 in
  let c1 := with_stripe c i l1 (wsub 64 (read_cache_bytes c) match held l !! k with Some d => vlen d | None => 0 end) in
  coherent part G c1 A /\ shrinks c c1 /\ rmass part c1 <= rmass part c /\ held l1 = delete k (held l).
Proof using.
  intros Hcc Hl l1 c1. pose proof (cc_core _ _ _ _ Hcc) as Hc. destruct (lru_remove l k) as (I1 & I2 & I3). fold l1 in I2, I3.
  assert (Hs : shrinks c c1) by (apply (stripe_shrinks c _ l); [done|rewrite I2; apply delete_subseteq|done]).
  pose proof (rmass_bound _ _ _ _ Hc) as Hb. pose proof (rmass_bound _ _ _ _ (core_shrinks _ _ _ _ _ Hc Hs)) as Hb1. pose proof (cc_read _ _ _ _ Hcc) as Hr.
  assert (Hm : rmass part c1 = rmass part c - match held l !! k with Some d => vlen d | None => 0 end).
  { unfold c1. rewrite (rmass_stripe part c _ l) by done. rewrite I2. destruct (held l !! k) as [d|] eqn:Ed; [|rewrite delete_id by done; lia].
    destruct (co_clean _ _ _ _ Hc _ _ _ _ Hl Ed) as (_ & Hp & _). rewrite dom_delete_L, mass_delete by (apply elem_of_dom; by eexists). rewrite (plen_at _ _ _ Hp). lia. }
  assert (0 <= match held l !! k with Some d => vlen d | None => 0 end) by (destruct (held l !! k); [apply vlen_nonneg|lia]).
  split; [|split; [done|split; [lia|done]]]. eapply coherent_shrinks; [done..|]. rewrite Hm. cbn. unfold wsub. rewrite Hr, Z.mod_small; lia.
Qed.
Lemma on_stripe_remove part G c A slot l k : coherent part G c A -> 0 <= slot < 131 -> read_cache c !! Z.to_nat slot = Some l ->
  PagedCachedFile.on_stripe slot (fun lock => Ret (LRUCache.remove lock k)) c = Ret (with_stripe c (Z.to_nat slot) (LRUCache.remove l k).1 (read_cache_bytes c), Okay (held l !! k)).
Proof using. intros Hcc Hs Hl. apply (on_stripe_eq c _ l); [done|apply Hcc|done|]. rewrite <-(proj1 (lru_remove l k)). by destruct (LRUCache.remove l k). Qed.
Lemma no_bytes part G c A i l : coherent part G c A -> with_stripe c i l (wsub 64 (read_cache_bytes c) 0) = with_stripe c i l (read_cache_bytes c).
Proof using. intros Hcc. pose proof (rmass_bound _ _ _ _ (cc_core _ _ _ _ Hcc)) as Hb. rewrite <-(cc_read _ _ _ _ Hcc) in Hb. unfold wsub. rewrite Z.sub_0_r, Z.mod_small by lia. done. Qed.
Lemma remove_cached_runs part G c A o n E : coherent part G c A -> part !! o = Some n ->
  runs (PagedCachedFile.remove_cached o n) c (fun c' r => coherent part G c' A /\ shrinks c c' /\ uncached o c' /\ rmass part c' <= rmass part c /\
    match r with Some d => d = sub (disk c) o n /\ buffered c !! o = None | None => True end) E.
Proof using.
  intros Hcc Hp. pose proof (cc_core _ _ _ _ Hcc) as Hc. pose proof (slot_range o) as Hslot. destruct (stripe_at _ _ _ _ _ Hc Hslot) as [l Hl].
  destruct (remove_stripe part G c A _ l o Hcc Hl) as (R1 & R2 & R3 & R4). unfold PagedCachedFile.remove_cached. eapply runs_det; [by eapply on_stripe_remove|].
  set (l1 := (LRUCache.remove l o).1) in *. set (i := Z.to_nat (PagedCachedFile.cache_slot o)) in *. assert (Hu : forall m, uncached o (with_stripe c i l1 m)).
  { intros m j l'. cbn. intros [(_ & <- & _)|[Hne Hl']]%list_lookup_insert_Some; [by rewrite R4, lookup_delete_eq|]. destruct (held l' !! o) as [d|] eqn:Ed; [|done].
    destruct (co_clean _ _ _ _ Hc _ _ _ _ Hl' Ed) as (Hi & _). rewrite slot_nat in Hi. by apply Nat2Z.inj in Hi. }
  destruct (held l !! o) as [d|] eqn:Ed.
  - destruct (co_clean _ _ _ _ Hc _ _ _ _ Hl Ed) as (_ & Hp' & Hd & Hno). rewrite Hp in Hp'. injection Hp' as ->. eapply (runs_lift _ tt); [by rewrite Z.eqb_refl|].
    eapply runs_det; [done|]. apply runs_ret. split; [exact R1|]. split; [exact R2|]. split; [apply Hu|]. split; [exact R3|done].
  - rewrite (no_bytes _ _ _ _ _ _ Hcc) in R1, R2, R3. by apply runs_ret.
Qed.

(** Arrays that differ in a page only *)
Record differ_at (o n : Z) (A A' : list Z) : Prop := { df_len : vlen A' = vlen A; df_same i : ~ (o <= Z.of_nat i < o + n) -> A' !! i = A !! i }.
Lemma differ_refl o n A : differ_at o n A A.
Proof using. done. Qed.
Lemma upd_differ A o d : 0 <= o -> o + vlen d <= vlen A -> differ_at o (vlen d) A (upd A o d).
Proof using. intros. split; [by apply vlen_upd|]. intros i Hi. rewrite lookup_upd by done. by rewrite decide_False. Qed.

Lemma core_cancel part G c A o d w n : core part G c A -> buffered c !! o = Some (Some d) -> lru_ok w -> held w = delete o (buffered c) ->
  core part G (PagedCachedFile.set_write_bytes (PagedCachedFile.set_write_buffer c w) n) (upd A o (sub (disk c) o (vlen d))).
Proof using.
  intros Hc Ho How Hw. destruct (co_dirty _ _ _ _ Hc o d Ho) as [Hp _]. destruct (pt_page _ _ _ (co_part _ _ _ _ Hc) _ _ Hp) as (Ho0 & Hlen & Hfit & _). pose proof (co_len _ _ _ _ Hc) as Hl.
  assert (Hs : vlen (sub (disk c) o (vlen d)) = vlen d) by (apply vlen_sub; lia). destruct Hc as [C1 C2 C3 C4 C5 C6 C7 C8 C9 C10 C11 C12 C13 C14].
  set (c' := PagedCachedFile.set_write_bytes _ _). assert (E : disk c' = disk c) by done. split; rewrite ?E; cbn -[disk]; rewrite ?Hw; try done.
  - by rewrite vlen_upd by (rewrite ?Hs; lia).
  - by rewrite vlen_upd by (rewrite ?Hs; lia).
  - intros i l o' d' Hl' Ho'. destruct (C9 i l o' d' Hl' Ho') as (H1 & H2 & H3 & H4). split_and!; try done. by apply lookup_delete_None; right.
  - intros o' d' [Hne Ho']%lookup_delete_Some. destruct (C11 _ _ Ho') as [Hp' Hd']. split; [done|]. destruct (pt_page _ _ _ C4 _ _ Hp') as (Ho'0 & _).
    rewrite sub_upd_other; rewrite ?Hs; try done. by apply (pt_disjoint _ _ _ C4 o o').
  - intros o'. rewrite lookup_delete_Some, C12. split; [tauto|]. intros HG. split; [|done]. intros ->. apply C12 in HG. congruence.
  - intros i Hi. rewrite lookup_upd by (rewrite ?Hs; lia). rewrite Hs. case_decide as Hr; [by apply (sub_lookup _ _ (vlen d))|].
    apply C14. intros o' k' Ho' Hk'. destruct (decide (o' = o)) as [->|]; [rewrite Hp in Hk'; by injection Hk' as <-|]. apply Hi; [by rewrite lookup_delete_ne|done].
Qed.
Lemma wmass_delete part c o d w n : part !! o = Some (vlen d) -> buffered c !! o = Some (Some d) -> held w = delete o (buffered c) ->
  wmass part (PagedCachedFile.set_write_bytes (PagedCachedFile.set_write_buffer c w) n) = wmass part c - vlen d.
Proof using. intros Hp Ho Hw. unfold wmass. cbn. rewrite Hw, dom_delete_L, mass_delete by (apply elem_of_dom; by eexists). by rewrite (plen_at _ _ _ Hp). Qed.
Lemma cancel_runs part G c A o n E : coherent part G c A -> part !! o = Some n -> o ∉ G ->
  runs (PagedCachedFile.cancel_pending_write o) c (fun c' _ => (exists A', coherent part G c' A' /\ differ_at o n A A') /\ buffered c' = delete o (buffered c) /\ same c c' /\
    read_cache c' = read_cache c /\ wmass part c' <= wmass part c) E.
Proof using.
  intros Hcc Hp HG. pose proof (cc_core _ _ _ _ Hcc) as Hc. unfold PagedCachedFile.cancel_pending_write. eapply aligned_runs; [done..|].
  destruct (lru_remove (write_buffer c) o) as (I1 & I2 & I3). specialize (I3 (co_wlru _ _ _ _ Hc)). set (w := (LRUCache.remove (write_buffer c) o).1) in *. destruct (buffered c !! o) as [[d|]|] eqn:Ed.
  - destruct (co_dirty _ _ _ _ Hc _ _ Ed) as [Hp' _]. rewrite Hp in Hp'. injection Hp' as ->.
    eapply runs_det; [apply (on_buffer_eq c _ w (Some d)); unfold LRUWriteCache.remove; rewrite I1; done|]. pose proof (wmass_bound _ _ _ _ Hc) as Hb.
    pose proof (core_cancel part G c A o d w (wmass part c - vlen d) Hc Ed I3 I2) as Hc1. pose proof (wmass_delete part c o d w (wmass part c - vlen d) Hp Ed I2) as Hm. pose proof (wmass_bound _ _ _ _ Hc1) as Hb1. rewrite Hm in Hb1.
    eapply (runs_det _ _ _ (PagedCachedFile.set_write_bytes (PagedCachedFile.set_write_buffer c w) (wmass part c - vlen d))).
    { unfold PagedCachedFile.sub_write_bytes, wsub. cbn. rewrite (cc_write _ _ _ _ Hcc), Z.mod_small by lia. done. }
    apply runs_ret. split; [|split; [done|]; split; [done|]; split; [done|]; rewrite Hm; pose proof (vlen_nonneg d); lia].
    eexists. split; [split; [exact Hc1|apply Hcc|by rewrite Hm]|]. destruct (pt_page _ _ _ (co_part _ _ _ _ Hc) _ _ Hp) as (Ho0 & Hpos & Hfit & _). pose proof (co_len _ _ _ _ Hc).
    assert (Hs : vlen (sub (disk c) o (vlen d)) = vlen d) by (apply vlen_sub; lia). pose proof (upd_differ A o (sub (disk c) o (vlen d))) as Hd. rewrite Hs in Hd. apply Hd; lia.
  - exfalso. by apply HG, (co_borrowed _ _ _ _ Hc).
  - eapply runs_det; [apply (on_buffer_eq c _ w None); unfold LRUWriteCache.remove; rewrite I1; done|]. assert (Hw : held w = buffered c) by (rewrite I2; by apply delete_id).
    apply runs_ret. split; [exists A; split; [by apply coherent_buffer|done]|]. cbn. split; [done|]. split; [done|]. split; [done|]. unfold wmass. cbn. by rewrite Hw.
Qed.

(** ** Room in the write buffer *)

Lemma file_write_runs part G c A o d : core part G c A -> buffered c !! o = Some (Some d) -> forall c1, file c1 = file c ->
  runs (PagedCachedFile.on_file (CheckedBackend.write o d)) c1 (fun c' _ => exists b, c' = on_disk c1 b /\ backend_ok b /\ content b = upd (disk c) o d) broken.
Proof using.
  intros Hc Ho c1 Hf. destruct (co_dirty _ _ _ _ Hc o d Ho) as [Hp _]. destruct (pt_page _ _ _ (co_part _ _ _ _ Hc) _ _ Hp) as (Ho0 & Hlen & Hfit & _). rewrite (co_len _ _ _ _ Hc) in Hfit.
  apply (file_runs (backend_write o d) c1 (fun b _ => content b = upd (disk c) o d)); rewrite Hf; [apply Hc|].
  destruct (law_backend_write _ o d (co_backend _ _ _ _ Hc)) as (b & r & E & H1 & H2); [lia|exact Hfit|]. exists b, r. split; [done|]. split; [done|]. by destruct r.
Qed.
Lemma write_back_runs part G c A o d w : core part G c A -> buffered c !! o = Some (Some d) -> held w = delete o (buffered c) ->
  runs (PagedCachedFile.write_back o d) (PagedCachedFile.set_write_buffer c w)
    (fun c' _ => exists b, c' = on_disk (PagedCachedFile.set_write_buffer c w) b /\ backend_ok b /\ content b = upd (disk c) o d) broken.
Proof using.
  intros Hc Ho Hw. destruct (file_write_runs part G c A o d Hc Ho (PagedCachedFile.set_write_buffer c w) eq_refl) as (c' & r & E & Hr). unfold runs, PagedCachedFile.write_back. rewrite E. cbn [mbind outcome_bind fst snd].
  destruct r as [[]|e]; [by eexists _, _|]. assert (Hwb : write_buffer c' = w).
  { revert E. unfold PagedCachedFile.on_file. destruct (CheckedBackend.write o d _); cbn; [|done]. by intros [= <- _]. }
  unfold LRUWriteCache.insert. destruct (lru_insert (write_buffer c') o (Some d)) as (I1 & _). rewrite I1, Hwb, Hw, lookup_delete_eq. cbn. by eexists _, _.
Qed.

(** The write buffer lost pages to the file; [e] more bytes are counted. *)
Record drained (part : partition) (G : gset Z) c c' (A : list Z) (e : Z) : Prop := {
  dr_core : core part G c' A;
  dr_same : same c c';
  dr_read : read_cache c' = read_cache c;
  dr_bytes : read_cache_bytes c' = read_cache_bytes c;
  dr_write : write_buffer_bytes c' = wmass part c' + e;
  dr_sub : buffered c' ⊆ buffered c }.
(** Nothing more can be written back. *)
Definition exhausted (G : gset Z) c : Prop := buffered c = ∅ \/ G <> ∅.
Lemma flush_excess_runs part G A excess e : 0 <= e < 2 ^ 55 -> forall fuel flushed c, core part G c A -> write_buffer_bytes c = wmass part c + e ->
  (size (buffered c) < fuel)%nat -> 0 <= flushed -> flushed + wmass part c < 2 ^ 56 ->
  runs (PagedCachedFile.flush_excess fuel excess flushed) c (fun c' flushed' => drained part G c c' A e /\ flushed' - flushed = wmass part c - wmass part c' /\ flushed <= flushed' /\
    (excess <= flushed' \/ exhausted G c')) broken.
Proof using.
  intros He. induction fuel as [|fuel IH]; intros flushed c Hc Hw Hfuel Hf Hb; [lia|]. cbn [PagedCachedFile.flush_excess].
  destruct (Z.ltb_spec flushed excess); [|apply runs_ret; split; [by split|]; split; [lia|]; split; [lia|by left]].
  destruct (wpop_ok (write_buffer c) (co_wlru _ _ _ _ Hc)) as (w & r & Epop & How & Hr). eapply runs_det; [by apply on_buffer_eq|]. destruct r as [[o d]|].
  - destruct Hr as [Ho Hd]. destruct (co_dirty _ _ _ _ Hc o d Ho) as [Hp _]. pose proof (page_bound _ _ _ _ _ _ Hc Hp) as Hn. pose proof (wmass_bound _ _ _ _ Hc) as Hbw.
    eapply runs_bind; [by eapply write_back_runs|]. intros c1 _ (b & -> & Hb1 & Hc1).
    destruct (core_flushed part G c A o d w b (wmass part c - vlen d + e) Hc Ho How Hd Hb1 Hc1) as [Hcf Hm]. set (c1 := flushed_state c w b (wmass part c - vlen d + e)) in *. pose proof (wmass_bound _ _ _ _ Hcf) as Hbf. rewrite Hm in Hbf.
    eapply (runs_det _ _ _ c1); [unfold PagedCachedFile.sub_write_bytes, wsub; cbn; rewrite Hw, Z.mod_small by lia; unfold c1, flushed_state; cbn; repeat f_equal; lia|].
    eapply (runs_lift _ (flushed + vlen d)); [rewrite uadd_ok by lia; done|].
    assert (Hsz : (size (buffered c1) < fuel)%nat).
    { change (buffered c1) with (held w). rewrite Hd, map_size_delete_Some by (by eexists). assert (size (buffered c) <> 0%nat); [|lia]. intros E0%map_size_empty_inv. by rewrite E0, lookup_empty in Ho. }
    eapply runs_weaken; [apply (IH (flushed + vlen d) c1 Hcf); [cbn; lia|done|lia|lia]| |done].
    intros c' flushed' ([D1 D2 D3 D4 D5 D6] & K2 & K3 & K4). rewrite Hm in K2. split; [|split; [lia|]; split; [lia|done]]. split; try done; [destruct D2; by split|]. etrans; [exact D6|]. change (buffered c1) with (held w). rewrite Hd. apply delete_subseteq.
  - destruct Hr as [Hh Hr]. apply runs_ret. assert (Hm : wmass part (PagedCachedFile.set_write_buffer c w) = wmass part c) by (unfold wmass; cbn; by rewrite Hh).
    split; [split; [by apply core_buffer|done..|by rewrite Hm|cbn; by rewrite Hh]|]. rewrite Hm. split; [lia|]. split; [lia|]. right. unfold exhausted. cbn. rewrite Hh.
    destruct Hr as [?|[k Hk]]; [by left|right]. apply (co_borrowed _ _ _ _ Hc) in Hk. set_solver.
Qed.

(** Room for [n] bytes was made: they are counted in the write buffer. *)
Record roomy (part : partition) (G : gset Z) c c' (A : list Z) (n : Z) : Prop := {
  ro_core : core part G c' A;
  ro_same : same c c';
  ro_read : read_cache_bytes c' = rmass part c';
  ro_write : write_buffer_bytes c' = wmass part c' + n;
  ro_sub : buffered c' ⊆ buffered c;
  ro_uncached o : uncached o c -> uncached o c';
  ro_half : wmass part c' + n <= max_cache_size c / 2 \/ exhausted G c';
  ro_max : rmass part c' + wmass part c' + n <= max_cache_size c \/ rmass part c' = 0 }.
Lemma make_room_runs part G c A n : coherent part G c A -> 0 < n < 2 ^ 55 -> runs (PagedCachedFile.make_room n) c (fun c' _ => roomy part G c c' A n) broken.
Proof using.
  intros [Hc Hr Hw] Hn. pose proof (wmass_bound _ _ _ _ Hc) as Hbw. pose proof (co_max _ _ _ _ Hc) as Hmax. unfold PagedCachedFile.make_room.
  set (c1 := PagedCachedFile.set_write_bytes c (wmass part c + n)). assert (Hc1 : core part G c1 A) by (destruct Hc; by split).
  eapply (runs_det _ _ _ c1); [unfold PagedCachedFile.add_write_bytes, wadd; rewrite Hw, Z.mod_small by lia; done|]. eapply (runs_lift _ (wmass part c + n)); [rewrite uadd_ok by lia; done|].
  apply runs_gets. change (max_cache_size c1) with (max_cache_size c). change (write_buffer c1) with (write_buffer c).
  eapply runs_bind with (Q1 := fun c' bytes => drained part G c1 c' A n /\ bytes = wmass part c' + n /\ (wmass part c' + n <= max_cache_size c / 2 \/ exhausted G c')).
  - destruct (Z.ltb_spec (max_cache_size c / 2) (wmass part c + n)); [|apply runs_ret; split; [by split|]; split; [done|left; done]].
    eapply runs_bind; [apply (flush_excess_runs part G A _ n ltac:(lia) _ 0 c1 Hc1); [done|cbn; rewrite held_size; lia|lia|change (wmass part c1) with (wmass part c); lia]|].
    intros c2 flushed (D & K2 & K3 & K4). pose proof (wmass_bound _ _ _ _ (dr_core _ _ _ _ _ _ D)). change (wmass part c1) with (wmass part c) in K2.
    exists c2, (Okay (wmass part c + n - flushed)). split; [unfold lift; rewrite usub_ok by lia; done|]. split; [done|]. split; [lia|]. destruct K4; [left; lia|by right].
  - intros c2 bytes (D & -> & Hhalf). destruct D as [D1 D2 D3 D4 D5 D6]. pose proof (wmass_bound _ _ _ _ D1) as Hb2. pose proof (rmass_bound _ _ _ _ D1) as Hbr. apply runs_gets.
    assert (Hrm : rmass part c2 = rmass part c) by (unfold rmass; by rewrite D3). assert (Hrb : read_cache_bytes c2 = rmass part c2) by (rewrite D4, Hrm; exact Hr). rewrite Hrb.
    eapply runs_lift; [rewrite uadd_ok by lia; done|]. rewrite (sm_max _ _ D2). change (max_cache_size c1) with (max_cache_size c). destruct (Z.ltb_spec (max_cache_size c) (wmass part c2 + n + rmass part c2)).
    + eapply runs_weaken; [apply (evict_runs part G A c2 (wmass part c2 + n + rmass part c2 - max_cache_size c) broken); [by split|lia]| |done].
      intros c3 _ ([K1 K2] & K3 & K4). pose proof (shrinks_wmass part _ _ K3) as Hwm. split; rewrite ?Hwm; try done; [|by rewrite (sk_write _ _ K3)|by rewrite (sk_buffer _ _ K3)| | |].
      * eapply same_trans; [destruct D2; by split|by apply same_shrinks].
      * intros o Hu. eapply uncached_shrinks; [|exact K3]. intros i l Hl. rewrite D3 in Hl. by eapply Hu.
      * destruct Hhalf as [?|He]; [by left|right]. unfold exhausted. by rewrite (sk_buffer _ _ K3).
      * destruct K4; [left; lia|by right].
    + apply runs_ret. split; try done; [destruct D2; by split| |left; lia]. intros o Hu i l Hl. rewrite D3 in Hl. by eapply Hu.
Qed.

(** ** Writing *)

Lemma core_borrow part G c A o n w m : core part G c A -> part !! o = Some n -> uncached o c -> lru_ok w -> held w = <[o := None]> (buffered c) ->
  core part ({[o]} ∪ G) (PagedCachedFile.set_write_bytes (PagedCachedFile.set_write_buffer c w) m) A.
Proof using.
  intros [C1 C2 C3 C4 C5 C6 C7 C8 C9 C10 C11 C12 C13 C14] Hp Hu How Hw. set (c' := PagedCachedFile.set_write_bytes _ _). assert (E : disk c' = disk c) by done. split; rewrite ?E; cbn -[disk]; rewrite ?Hw; try done.
  - intros i l o' d' Hl' Ho'. destruct (C9 i l o' d' Hl' Ho') as (H1 & H2 & H3 & H4). split_and!; try done. rewrite lookup_insert_ne; [done|]. intros <-. by rewrite (Hu i l Hl') in Ho'.
  - intros o' d' [[_ ?]|[_ Ho']]%lookup_insert_Some; [done|by apply C11].
  - intros o'. rewrite lookup_insert_Some, C12, elem_of_union, elem_of_singleton. split; [naive_solver|]. intros [->|HG]; [by left|]. destruct (decide (o = o')); [by left|by right].
  - intros o' [->%elem_of_singleton|HG]%elem_of_union; [by eexists|by apply C13].
  - intros i Hi. apply C14. intros o' k' Ho'. apply Hi. destruct (decide (o = o')) as [->|]; [rewrite lookup_insert_eq; by eexists|by rewrite lookup_insert_ne].
Qed.
Lemma core_return part G c A o d w : core part G c A -> part !! o = Some (vlen d) -> o ∈ G -> lru_ok w -> held w = <[o := Some d]> (buffered c) ->
  core part (G ∖ {[o]}) (PagedCachedFile.set_write_buffer c w) (upd A o d).
Proof using.
  intros [C1 C2 C3 C4 C5 C6 C7 C8 C9 C10 C11 C12 C13 C14] Hp HG How Hw. destruct (pt_page _ _ _ C4 _ _ Hp) as (Ho0 & Hlen & Hfit & _). pose proof (proj2 (C12 o) HG) as Ho.
  set (c' := PagedCachedFile.set_write_buffer _ _). assert (E : disk c' = disk c) by done. split; rewrite ?E; cbn -[disk]; rewrite ?Hw; try done.
  - by rewrite vlen_upd.
  - by rewrite vlen_upd.
  - intros i l o' d' Hl' Ho'. destruct (C9 i l o' d' Hl' Ho') as (H1 & H2 & H3 & H4). split_and!; try done. rewrite lookup_insert_ne; [done|]. intros <-. congruence.
  - intros o' d' [[<- [= <-]]|[Hne Ho']]%lookup_insert_Some; [split; [done|by rewrite sub_upd]|]. destruct (C11 _ _ Ho') as [Hp' Hd']. split; [done|]. destruct (pt_page _ _ _ C4 _ _ Hp') as (Ho'0 & _).
    rewrite sub_upd_other; try done. by apply (pt_disjoint _ _ _ C4 o o').
  - intros o'. rewrite lookup_insert_Some, C12, elem_of_difference, elem_of_singleton. naive_solver.
  - intros o' [HG' _]%elem_of_difference. by apply C13.
  - intros i Hi. rewrite lookup_upd by done. rewrite decide_False; [|apply Hi; [rewrite lookup_insert_eq; by eexists|done]].
    apply C14. intros o' k' Ho'. apply Hi. destruct (decide (o = o')) as [->|]; [rewrite lookup_insert_eq; by eexists|by rewrite lookup_insert_ne].
Qed.

Lemma wtake_ok (w : LRUWriteCache.t) o : lru_ok w -> held w !! o <> Some None ->
  exists w', LRUWriteCache.take_value w o = Ret (w', held w !! o ≫= id) /\ held w' = alter (fun _ => None) o (held w) /\ lru_ok w'.
Proof using.
  intros Hw Ho. destruct (lru_get_mut w o (fun _ => None)) as (I1 & I2 & I3). unfold LRUWriteCache.take_value. rewrite I1. eexists. split; [|split; [exact I2|by apply I3]].
  destruct (held w !! o) as [[d|]|]; done.
Qed.
Lemma alter_some {V} (f : V -> V) (m : gmap Z V) o x : m !! o = Some x -> alter f o m = <[o := f x]> m.
Proof using. intros Ho. apply map_eq. intros o'. destruct (decide (o = o')) as [->|]; [by rewrite lookup_alter_eq, lookup_insert_eq, Ho|by rewrite lookup_alter_ne, lookup_insert_ne]. Qed.
Lemma alter_none {V} (f : V -> V) (m : gmap Z V) o : m !! o = None -> alter f o m = m.
Proof using. intros Ho. apply map_eq. intros o'. destruct (decide (o = o')) as [->|]; [by rewrite lookup_alter_eq, Ho|by rewrite lookup_alter_ne]. Qed.

(** A page is borrowed: the bytes it shows, and the memory that is used *)
Record borrowed (part : partition) (G : gset Z) c c' (A : list Z) (o n : Z) (overwrite : bool) (p : WritablePage.t) : Prop := {
  bo_coherent : coherent part ({[o]} ∪ G) c' A;
  bo_same : same c c';
  bo_offset : WritablePage.offset p = o;
  bo_length : vlen (WritablePage.data p) = n;
  bo_data : WritablePage.data p = sub A o n \/ overwrite = true /\ WritablePage.data p = replicate (Z.to_nat n) 0;
  bo_dirty : dom (buffered c') ⊆ {[o]} ∪ dom (buffered c);
  bo_budget : G = ∅ -> n <= max_cache_size c / 2 -> within part c -> wmass part c <= max_cache_size c / 2 -> within part c' /\ wmass part c' <= max_cache_size c / 2 }.

Lemma page_sub part G c A o n : core part G c A -> part !! o = Some n -> vlen (sub A o n) = n.
Proof using. intros Hc Hp. destruct (pt_page _ _ _ (co_part _ _ _ _ Hc) _ _ Hp) as (Ho0 & Hlen & Hfit & _). apply vlen_sub; lia. Qed.
(** The page is in the write buffer. *)
Lemma borrow_buffered part G c A o n d w ow : coherent part G c A -> part !! o = Some n -> uncached o c -> buffered c !! o = Some (Some d) -> held w = alter (fun _ => None) o (buffered c) -> lru_ok w ->
  borrowed part G c (PagedCachedFile.set_write_buffer c w) A o n ow (WritablePage.mk o d).
Proof using.
  intros [Hc Hr Hw] Hp Hu Ho Hh How. rewrite (alter_some _ _ _ _ Ho) in Hh. destruct (co_dirty _ _ _ _ Hc _ _ Ho) as [Hp' Hd]. rewrite Hp in Hp'. injection Hp' as ->.
  assert (Hdom : dom (held w) = dom (buffered c)) by (rewrite Hh; apply dom_insert_lookup_L; by eexists). assert (Hm : wmass part (PagedCachedFile.set_write_buffer c w) = wmass part c) by (unfold wmass; cbn; by rewrite Hdom).
  split; try done.
  - split; [|done|by rewrite Hm]. exact (core_borrow part G c A o (vlen d) w (write_buffer_bytes c) Hc Hp Hu How Hh).
  - by left.
  - cbn. rewrite Hdom. set_solver.
  - intros _ _ Hwi Hha. unfold within. rewrite Hm. done.
Qed.
(** The page is put in the write buffer, which has room, and borrowed. *)
Lemma borrow_fresh part G c c1 A o n ow d : roomy part G c c1 A n -> part !! o = Some n -> uncached o c1 -> buffered c !! o = None -> vlen d = n -> d = sub A o n \/ ow = true /\ d = replicate (Z.to_nat n) 0 -> forall b, backend_ok b -> content b = disk c1 -> forall c2, (c2 = c1 \/ c2 = on_disk c1 b) ->
  runs (_ ← PagedCachedFile.on_buffer (fun w => w' ← LRUWriteCache.insert w o d; Ret (w', tt));
        taken ← PagedCachedFile.on_buffer (fun w => LRUWriteCache.take_value w o);
        lift (unwrap taken)) c2 (fun c' d => borrowed part G c c' A o n ow (WritablePage.mk o d)) broken.
Proof using.
  intros Hro Hp Hu Hb Hlen Hd b Hbo Hcont c2 Hc2. assert (Hro2 : roomy part G c c2 A n /\ uncached o c2).
  { destruct Hc2 as [->| ->]; [done|]. split; [|done]. pose proof (core_disk _ _ _ _ _ (ro_core _ _ _ _ _ _ Hro) Hbo Hcont). destruct Hro as [? [] ? ? ? ? ? ?]. by split. }
  clear Hro Hu Hc2 Hcont Hbo b c1. destruct Hro2 as [[R1 R2 R3 R4 R5 R6 R7 R8] Hu]. assert (Hb2 : buffered c2 !! o = None) by (by eapply lookup_weaken_None).
  destruct (lru_insert (write_buffer c2) o (Some d)) as (I1 & I2 & I3). set (w := (LRUCache.insert (write_buffer c2) o (Some d)).1) in *. specialize (I3 (co_wlru _ _ _ _ R1)).
  eapply runs_det; [apply (on_buffer_eq c2 _ w tt); unfold LRUWriteCache.insert; rewrite I1, Hb2; done|]. destruct (wtake_ok w o I3) as (w' & Et & Hh & How); [rewrite I2, lookup_insert_eq; done|].
  rewrite I2, lookup_insert_eq in Et. rewrite (alter_some _ _ o (Some d)) in Hh by (rewrite I2; apply lookup_insert_eq). rewrite I2, insert_insert_eq in Hh.
  eapply runs_det; [apply on_buffer_eq, Et|]. set (c3 := PagedCachedFile.set_write_buffer _ w'). exists c3, (Okay d). split; [done|].
  pose proof (core_borrow part G c2 A o n w' (write_buffer_bytes c2) R1 Hp Hu How Hh) as Hc3. assert (Hdom : dom (held w') = {[o]} ∪ dom (buffered c2)) by (rewrite Hh; apply dom_insert_L).
  assert (Hm : wmass part c3 = wmass part c2 + n) by (unfold wmass, c3; cbn; rewrite Hdom, mass_add by (by apply not_elem_of_dom); rewrite (plen_at _ _ _ Hp); lia).
  split; try done.
  - split; [exact Hc3|done|]. rewrite Hm. done.
  - destruct R2. by split.
  - unfold c3. cbn. rewrite Hdom. apply subseteq_dom in R5. set_solver.
  - intros HG Hn Hwi Hha. assert (Hhalf : wmass part c3 <= max_cache_size c / 2).
    { rewrite Hm. destruct R7 as [?|[He|?]]; [done| |done]. unfold wmass. rewrite He, dom_empty_L, mass_empty. lia. }
    split; [|done]. unfold within. rewrite Hm in *. change (rmass part c3) with (rmass part c2). change (max_cache_size c3) with (max_cache_size c2). rewrite (sm_max _ _ R2).
    pose proof (wmass_bound _ _ _ _ R1). destruct R8 as [?| ->]; [lia|]. pose proof (co_max _ _ _ _ R1) as Hmx. rewrite (sm_max _ _ R2) in Hmx.
    assert (max_cache_size c / 2 <= max_cache_size c) by (apply Z.div_le_upper_bound; lia). lia.
Qed.

Lemma borrowed_after part G c c1 c' A o n ow p : shrinks c c1 -> rmass part c1 <= rmass part c -> borrowed part G c1 c' A o n ow p -> borrowed part G c c' A o n ow p.
Proof using.
  intros Hs Hm [B1 B2 B3 B4 B5 B6 B7]. pose proof (shrinks_wmass part _ _ Hs) as Hw. split; try done; [by eapply same_trans; [apply same_shrinks|]|by rewrite <-(sk_buffer _ _ Hs)|].
  rewrite <-(sk_max _ _ Hs), <-Hw. intros HG Hn Hwi. apply B7; [done..|]. unfold within in *. rewrite (sk_max _ _ Hs). lia.
Qed.
Lemma write_runs part G c A o n ow : coherent part G c A -> part !! o = Some n -> o ∉ G ->
  runs (PagedCachedFile.write o n ow) c (fun c' p => borrowed part G c c' A o n ow p) broken.
Proof using.
  intros Hcc Hp HG. unfold PagedCachedFile.write. eapply aligned_runs; [apply Hcc|done|]. eapply runs_bind; [by eapply remove_cached_runs|].
  intros c1 existing (Hcc1 & Hs1 & Hu1 & Hm1 & Hex). pose proof (cc_core _ _ _ _ Hcc1) as Hc1. eapply runs_weaken; [|intros c' p; exact (borrowed_after part G c c1 c' A o n ow p Hs1 Hm1)|done].
  destruct (wtake_ok (write_buffer c1) o) as (w & Et & Hh & How); [apply Hc1|intros Hn; by apply HG, (co_borrowed _ _ _ _ Hc1)|]. eapply runs_det; [apply on_buffer_eq, Et|].
  destruct (buffered c1 !! o) as [[d|]|] eqn:Ed.
  - apply runs_ret_bind, runs_ret. by apply borrow_buffered.
  - exfalso. by apply HG, (co_borrowed _ _ _ _ Hc1).
  - rewrite alter_none in Hh by done. pose proof (coherent_buffer _ _ _ _ _ Hcc1 Hh How) as Hcc2. set (c2 := PagedCachedFile.set_write_buffer c1 w) in *. pose proof (page_bound _ _ _ _ _ _ Hc1 Hp) as Hn.
    assert (Hbor : forall c' p, borrowed part G c2 c' A o n ow p -> borrowed part G c1 c' A o n ow p).
    { assert (Hw2 : wmass part c2 = wmass part c1) by (unfold wmass; cbn; by rewrite Hh). intros c' p [B1 [] B3 B4 B5 B6 B7]. split; try done; [cbn in B6; by rewrite Hh in B6|].
      unfold within in *. rewrite Hw2 in B7. exact B7. }
    eapply runs_bind; [|intros c3 d Hd; apply runs_ret; apply Hbor, Hd]. eapply runs_bind; [by apply make_room_runs|]. intros c3 u Hro. cbn beta in Hro. clear u.
    assert (Hu3 : uncached o c3) by (apply (ro_uncached _ _ _ _ _ _ Hro); done). assert (Hb2 : buffered c2 !! o = None) by (cbn; by rewrite Hh).
    pose proof (ro_core _ _ _ _ _ _ Hro) as Hc3. pose proof (borrow_fresh part G c2 c3 A o n ow) as Hfresh. pose proof (page_sub _ _ _ _ _ _ Hc3 Hp) as Hsub. destruct existing as [d|].
    + destruct Hex as [-> Hno]. apply runs_ret_bind. rewrite (clean_sub part G c A) by (done || apply Hcc). by eapply Hfresh; [..|apply Hc3|done|left]; auto.
    + destruct ow.
      * apply runs_ret_bind. eapply Hfresh; [done..|unfold vlen; rewrite length_replicate; lia|by right|apply Hc3|done|by left].
      * eapply runs_bind; [by eapply read_direct_runs|]. intros c4 d (b & -> & Hbo & Hcont & ->). rewrite (clean_sub part G c3 A) by (done || by eapply lookup_weaken_None; [|apply Hro]).
        apply (Hfresh _ Hro Hp Hu3 Hb2 Hsub (or_introl eq_refl) b Hbo Hcont). by right.
Qed.
Lemma drop_page_runs part G c A p E : coherent part G c A -> part !! WritablePage.offset p = Some (vlen (WritablePage.data p)) -> WritablePage.offset p ∈ G ->
  runs (PagedCachedFile.drop_page p) c (fun c' _ => coherent part (G ∖ {[WritablePage.offset p]}) c' (upd A (WritablePage.offset p) (WritablePage.data p)) /\
    same c c' /\ dom (buffered c') = dom (buffered c) /\ rmass part c' = rmass part c /\ wmass part c' = wmass part c) E.
Proof using.
  destruct p as [o d]. cbn [WritablePage.offset WritablePage.data]. intros [Hc Hr Hw] Hp HG. pose proof (proj2 (co_borrowed _ _ _ _ Hc o) HG) as Ho.
  destruct (lru_get_mut (write_buffer c) o (fun _ => Some d)) as (I1 & I2 & I3). specialize (I3 (co_wlru _ _ _ _ Hc)). rewrite (alter_some _ _ _ _ Ho) in I2. set (w := (LRUCache.get_mut (write_buffer c) o (fun _ => Some d)).1) in *.
  exists (PagedCachedFile.set_write_buffer c w), (Okay tt). split; [apply on_buffer_eq; unfold LRUWriteCache.return_value; cbn [WritablePage.offset WritablePage.data]; rewrite I1, Ho; done|].
  assert (Hdom : dom (held w) = dom (buffered c)) by (rewrite I2; apply dom_insert_lookup_L; by eexists). assert (Hm : wmass part (PagedCachedFile.set_write_buffer c w) = wmass part c) by (unfold wmass; cbn; by rewrite Hdom).
  split; [|done]. split; [by apply core_return|done|by rewrite Hm].
Qed.

(** ** Flushing *)

(** A write buffer with some pages *)
Definition holding (l : list (Z * option (list Z))) : LRUWriteCache.t := LRUCache.mk ((fun x => (x, false)) <$> list_to_map l) l.*1.
Lemma holding_held l : held (holding l) = list_to_map l.
Proof using. unfold held, holding. cbn. rewrite <-map_fmap_compose. apply map_fmap_id. Qed.
Lemma holding_ok l : lru_ok (holding l).
Proof using.
  intros k. unfold holding. cbn. rewrite dom_fmap, elem_of_dom. intros [x Hx]. apply elem_of_list_to_map_2 in Hx. apply list_elem_of_fmap. by exists (k, x).
Qed.
Notation unbuffered c := (PagedCachedFile.set_write_bytes (PagedCachedFile.set_write_buffer c LRUCache.new) 0).
Notation pending c l := (PagedCachedFile.set_write_buffer c (holding l)).

Lemma write_all_runs part A l : forall c, core part ∅ (pending c l) A -> NoDup l.*1 ->
  runs (for_each_m (fun x (_ : unit) => buffer ← lift (unwrap x.2); PagedCachedFile.on_file (CheckedBackend.write x.1 buffer)) l tt) c
    (fun c' _ => core part ∅ (pending c' []) A /\ exists b, c' = on_disk c b) broken.
Proof using.
  induction l as [|[o x] l IH]; intros c Hc Hnd; cbn [for_each_m].
  - apply runs_ret. split; [done|]. eexists. symmetry. apply on_disk_same. apply (co_works _ _ _ _ Hc).
  - apply NoDup_cons in Hnd as [Hno Hnd]. assert (Ho : buffered (pending c ((o, x) :: l)) !! o = Some x) by (cbn -[held holding]; rewrite holding_held; apply lookup_insert_eq).
    destruct x as [d|]; [|by apply (co_borrowed _ _ _ _ Hc) in Ho]. eapply runs_bind.
    + eapply (runs_lift _ d); [done|]. exact (file_write_runs part ∅ _ A o d Hc Ho c eq_refl).
    + intros c1 [] (b & -> & Hb & Hcont). assert (Hdel : held (holding l) = delete o (buffered (pending c ((o, Some d) :: l)))).
      { cbn -[held holding]. rewrite !holding_held. cbn. rewrite delete_insert_id; [done|]. by apply not_elem_of_list_to_map_1. }
      destruct (core_flushed part ∅ _ A o d (holding l) b (write_buffer_bytes c) Hc Ho (holding_ok l) Hdel Hb Hcont) as [Hc1 _].
      eapply runs_weaken; [apply (IH (on_disk c b) Hc1 Hnd)| |done]. intros c2 _ (K1 & b2 & ->). split; [done|]. by exists b2.
Qed.

(** Without a write buffer, the file has the bytes. *)
Lemma core_disk_eq part G c A : core part G c A -> buffered c = ∅ -> disk c = A.
Proof using. intros Hc He. apply list_eq. intros i. symmetry. apply (co_rest _ _ _ _ Hc). intros o k. rewrite He, lookup_empty. by intros []. Qed.
Lemma unbuffered_disk part G c A : core part G (unbuffered c) A -> disk c = A.
Proof using. intros Hc. change (disk c) with (disk (unbuffered c)). eapply core_disk_eq; [done|]. apply (@new_held (option (list Z))). Qed.
Lemma transfer_runs part A l E : (forall o x, (o, x) ∈ l -> exists d, x = Some d /\ part !! o = Some (vlen d) /\ d = sub A o (vlen d)) -> forall c, coherent part ∅ (unbuffered c) A ->
  runs (PagedCachedFile.transfer l) c (fun c' _ => coherent part ∅ (unbuffered c') A /\ same c c' /\ (rmass part c <= max_cache_size c -> rmass part c' <= max_cache_size c)) E.
Proof using.
  intros Hl. induction l as [|[o x] l IH]; intros c Hcc; cbn [PagedCachedFile.transfer]; [by apply runs_ret|]. pose proof (cc_core _ _ _ _ Hcc) as Hc. pose proof (cc_read _ _ _ _ Hcc : read_cache_bytes c = rmass part c) as Hr.
  destruct (Hl o x) as (d & -> & Hp & Hd); [left|]. pose proof (page_bound _ _ _ _ _ _ Hc Hp) as Hn. pose proof (rmass_bound _ _ _ _ Hc : 0 <= rmass part c < 2 ^ 63) as Hb.
  eapply (runs_lift _ d); [done|]. eapply (runs_det _ _ _ (PagedCachedFile.set_read_bytes c (rmass part c + vlen d)) (rmass part c)); [unfold PagedCachedFile.add_read_bytes, wadd; rewrite Hr, Z.mod_small by lia; done|].
  eapply runs_lift; [rewrite uadd_ok by lia; done|]. apply runs_gets. cbn [PagedCachedFile.set_read_bytes max_cache_size]. destruct (Z.leb_spec (rmass part c + vlen d) (max_cache_size c)).
  - pose proof (slot_range o) as Hslot. destruct (stripe_at _ _ _ _ _ Hc Hslot) as [s Hs]. cbn in Hs. destruct (lru_insert s o d) as (I1 & I2 & I3). set (s1 := (LRUCache.insert s o d).1) in *.
    eapply runs_det; [by apply (on_stripe_eq (PagedCachedFile.set_read_bytes c (rmass part c + vlen d)) _ s s1 (LRUCache.insert s o d).2 _ Hslot); [apply (co_stripes _ _ _ _ Hc)|..]|]. rewrite I1.
    set (i := Z.to_nat (PagedCachedFile.cache_slot o)) in *. set (m := rmass part c + match held s !! o with Some _ => 0 | None => vlen d end). set (c1 := with_stripe c i s1 m).
    assert (Hm : rmass part c1 = m).
    { unfold c1. rewrite (rmass_stripe part c i s) by done. rewrite I2, cached_mass by done. unfold m. lia. }
    assert (Hcc1 : coherent part ∅ (unbuffered c1) A).
    { split; [|by symmetry|apply Hcc]. apply (core_cached part ∅ (unbuffered c) A i s s1 m o d Hc Hs); [apply slot_nat|done| |done|done|by apply I3, (co_lru _ _ _ _ Hc i)].
      change (disk (unbuffered c)) with (disk c). by rewrite (unbuffered_disk _ _ _ _ Hc). }
    eapply (runs_det _ _ _ c1 tt).
    + destruct (held s !! o) as [old|] eqn:Eo; [|done]. destruct (co_clean _ _ _ _ Hc i s o old Hs Eo) as (_ & Hp' & _). rewrite Hp in Hp'. injection Hp' as Hlen.
      transitivity (Ret (with_stripe c i s1 (wsub 64 (rmass part c + vlen d) (vlen old)), Okay tt : result unit StorageError)); [done|].
      replace (wsub 64 (rmass part c + vlen d) (vlen old)) with m by (unfold wsub, m; rewrite Hlen, Z.mod_small; lia). done.
    + eapply runs_weaken; [apply IH; [|done]; intros o' x' Hx; apply Hl; by right| |done]. intros c' _ (K1 & K2 & K3). split; [done|]. split; [destruct K2; by split|]. intros _. apply K3. rewrite Hm. unfold m. cbn. destruct (held s !! o); lia.
  - eapply (runs_det _ _ _ c); [unfold PagedCachedFile.sub_read_bytes, wsub; cbn; rewrite Z.mod_small by lia; replace (rmass part c + vlen d - vlen d) with (read_cache_bytes c) by lia; by destruct c|]. by apply runs_ret.
Qed.

(** ** The length of the file *)

Definition resized (n : Z) (A : list Z) : list Z := take (Z.to_nat n) A ++ replicate (Z.to_nat n - length A) 0.
Lemma vlen_resized n A : 0 <= n -> vlen (resized n A) = n.
Proof using. intros Hn. unfold vlen, resized. rewrite length_app, length_take, length_replicate. lia. Qed.
Lemma lookup_resized n A A' i : vlen A = vlen A' -> A !! i = A' !! i -> resized n A !! i = resized n A' !! i.
Proof using.
  unfold vlen, resized. intros Hl Hi. assert (Hl' : length A = length A') by lia. rewrite <-Hl'. destruct (decide (i < length (take (Z.to_nat n) A))%nat) as [Hlt|Hge]; rewrite length_take in *.
  - rewrite !lookup_app_l by (rewrite length_take; lia). rewrite !lookup_take_lt by lia. done.
  - rewrite !lookup_app_r by (rewrite length_take; lia). by rewrite !length_take, Hl'.
Qed.
Lemma sub_resized n A o k : 0 <= o -> o + k <= n -> o + k <= vlen A -> sub (resized n A) o k = sub A o k.
Proof using. intros Ho Hn Hl. apply sub_eq; [done|]. intros i Hi. unfold resized, vlen in *. rewrite lookup_app_l by (rewrite length_take; lia). apply lookup_take_lt. lia. Qed.

(** The pages below an offset *)
Definition below (n : Z) (part : partition) : partition := filter (fun x => x.1 < n) part.
Lemma below_lookup n part o k : below n part !! o = Some k <-> part !! o = Some k /\ o < n.
Proof using. apply map_lookup_filter_Some. Qed.
Lemma below_mass n part X : (forall o, o ∈ X -> o < n) -> mass (below n part) X = mass part X.
Proof using.
  intros HX. unfold mass. f_equal. apply list_fmap_ext. intros i o Ho%list_elem_of_lookup_2%elem_of_elements. unfold plen, below. rewrite map_lookup_filter.
  destruct (part !! o) as [k|]; [|done]. cbn. rewrite option_guard_True by (cbn; by apply HX). done.
Qed.
Lemma below_ok n part ps m : part_ok part ps m -> (forall o k, part !! o = Some k -> o < n -> o + k <= n) -> part_ok (below n part) ps n.
Proof using.
  intros Hp Hfit. split.
  - intros o k [Hk Ho]%below_lookup. destruct (pt_page _ _ _ Hp o k Hk) as (? & ? & _ & ?). pose proof (Hfit o k Hk Ho). lia.
  - intros o1 o2 k1 k2 Hne [H1 _]%below_lookup [H2 _]%below_lookup. by apply (pt_disjoint _ _ _ Hp).
  - rewrite below_mass by (intros o [k [_ Ho]%below_lookup]%elem_of_dom; done). eapply Z.le_lt_trans; [|apply (pt_total _ _ _ Hp)]. apply mass_sub; [by eapply part_plen|]. apply dom_filter_subseteq.
Qed.
Lemma core_resized part G c A n b : core part G c A -> 0 <= n -> (forall o k, part !! o = Some k -> o < n -> o + k <= n) -> (forall o, n <= o -> uncached o c /\ buffered c !! o = None) ->
  backend_ok b -> content b = resized n (disk c) -> core (below n part) G (on_disk c b) (resized n A).
Proof using.
  intros [C1 C2 C3 C4 C5 C6 C7 C8 C9 C10 C11 C12 C13 C14] Hn Hfit Hab Hb Hcont. assert (E : disk (on_disk c b) = resized n (disk c)) by done.
  assert (Hlow : forall o, is_Some (buffered c !! o) -> o < n) by (intros o Ho; destruct (decide (o < n)) as [|Hge]; [done|]; rewrite (proj2 (Hab o ltac:(lia))) in Ho; by destruct Ho).
  assert (Hsub : forall D o k, part !! o = Some k -> o < n -> vlen D = vlen A -> sub (resized n D) o k = sub D o k).
  { intros D o k Hk Ho HD. destruct (pt_page _ _ _ C4 o k Hk) as (? & _ & ? & _). apply sub_resized; [done|by apply Hfit|lia]. }
  split; rewrite ?E; cbn -[disk]; try done.
  - rewrite vlen_resized by done. by eapply below_ok.
  - by rewrite !vlen_resized.
  - intros i l o d Hl Ho. destruct (C9 i l o d Hl Ho) as (H1 & H2 & H3 & H4). assert (o < n) by (destruct (decide (o < n)) as [|Hge]; [done|]; by rewrite (proj1 (Hab o ltac:(lia)) i l Hl) in Ho).
    split; [done|]. split; [by apply below_lookup|]. split; [by rewrite Hsub|done].
  - intros o d Ho. destruct (C11 o d Ho) as [H1 H2]. assert (o < n) by (apply Hlow; by eexists). split; [by apply below_lookup|]. by rewrite Hsub.
  - intros o HG. destruct (C13 o HG) as [k Hk]. exists k. apply below_lookup. split; [done|]. apply Hlow. apply C12 in HG. by eexists.
  - intros i Hi. apply lookup_resized; [done|]. apply C14. intros o k Ho Hk. apply (Hi o k Ho). apply below_lookup. auto.
Qed.

(** The keys that are removed from a stripe *)
Lemma remove_keys_runs part G A slot E : 0 <= slot < 131 -> forall ks c, coherent part G c A ->
  runs (for_each_m (fun k (_ : unit) =>
      removed ← PagedCachedFile.on_stripe slot (fun lock => Ret (LRUCache.remove lock k));
      match removed with Some d => _ ← PagedCachedFile.sub_read_bytes (vlen d); mret tt | None => mret tt end) ks tt) c
    (fun c' _ => coherent part G c' A /\ shrinks c c' /\ rmass part c' <= rmass part c /\ forall k l, k ∈ ks -> read_cache c' !! Z.to_nat slot = Some l -> held l !! k = None) E.
Proof using.
  intros Hs. induction ks as [|k ks IH]; intros c Hcc; cbn [for_each_m].
  - apply runs_ret. split; [done|]. split; [apply shrinks_refl|]. split; [lia|]. by intros k l Hk%not_elem_of_nil.
  - destruct (stripe_at _ _ _ _ _ (cc_core _ _ _ _ Hcc) Hs) as [l Hl]. destruct (remove_stripe part G c A _ l k Hcc Hl) as (R1 & R2 & R3 & R4).
    set (c1 := with_stripe c (Z.to_nat slot) (LRUCache.remove l k).1 (wsub 64 (read_cache_bytes c) match held l !! k with Some d => vlen d | None => 0 end)) in *.
    eapply (runs_det _ _ _ c1 tt).
    + unfold mbind, M_bind. rewrite (on_stripe_remove part G c A) with (l := l) by done. unfold c1. destruct (held l !! k) as [d|]; [done|]. by rewrite (no_bytes _ _ _ _ _ _ Hcc).
    + eapply runs_weaken; [apply (IH c1 R1)| |done]. intros c' _ (K1 & K2 & K3 & K4). split; [done|]. split; [by eapply shrinks_trans|]. split; [lia|]. intros k' l' [->|Hk]%elem_of_cons Hl'; [|by eapply K4].
      destruct (sk_stripe _ _ K2 _ _ Hl') as (l0 & Hl0 & Hsub & _). eapply lookup_weaken_None; [|exact Hsub]. cbn in Hl0. rewrite list_lookup_insert_eq in Hl0 by (rewrite (co_stripes _ _ _ _ (cc_core _ _ _ _ Hcc)); lia).
      injection Hl0 as <-. rewrite R4. apply lookup_delete_eq.
Qed.
(** The read cache is emptied. *)
Lemma drain_stripe_runs part G A slot E : 0 <= slot < 131 -> forall fuel c l, coherent part G c A -> read_cache c !! Z.to_nat slot = Some l -> (size (held l) < fuel)%nat ->
  runs (PagedCachedFile.drain_stripe fuel slot) c (fun c' _ => coherent part G c' A /\ shrinks c c' /\ exists l', read_cache c' !! Z.to_nat slot = Some l' /\ held l' = ∅) E.
Proof using.
  intros Hs. induction fuel as [|fuel IH]; intros c l Hcc Hl Hfuel; [lia|]. cbn [PagedCachedFile.drain_stripe]. pose proof (cc_core _ _ _ _ Hcc) as Hc.
  destruct (pop_stripe part G c A _ l Hc Hl) as (l1 & r & Epop & Hsh & Hpop). eapply runs_det; [by eapply on_stripe_eq; [done|apply Hc|done|]|].
  assert (Hl1 : forall m, read_cache (with_stripe c (Z.to_nat slot) l1 m) !! Z.to_nat slot = Some l1) by (intros m; apply list_lookup_insert_eq; rewrite (co_stripes _ _ _ _ Hc); lia). destruct r as [[k d]|].
  - destruct Hpop as (Hk & Hd1 & Hd & Hm). pose proof (rmass_bound _ _ _ _ Hc). pose proof (rmass_bound _ _ _ _ (core_shrinks _ _ _ _ _ Hc (Hsh 0))) as Hb1. rewrite Hm in Hb1.
    eapply (runs_det _ _ _ (with_stripe c (Z.to_nat slot) l1 (rmass part c - vlen d))); [unfold PagedCachedFile.sub_read_bytes; cbn; rewrite (cc_read _ _ _ _ Hcc); unfold wsub; rewrite Z.mod_small by lia; done|].
    eapply runs_weaken; [eapply (IH _ l1)| |done].
    + eapply coherent_shrinks; [done|apply Hsh|by rewrite Hm].
    + apply Hl1.
    + rewrite Hd1, map_size_delete_Some by (by eexists). assert (size (held l) <> 0%nat); [|lia]. intros E0%map_size_empty_inv. by rewrite E0, lookup_empty in Hk.
    + intros c' _ (K1 & K2 & K3). split; [done|]. split; [by eapply shrinks_trans|done].
  - destruct Hpop as (K1 & K2 & Hm). apply runs_ret. split; [eapply coherent_shrinks; [done|apply Hsh|]; rewrite Hm; apply Hcc|]. split; [done|]. by exists l1.
Qed.
Lemma invalidate_all_runs part G c A E : coherent part G c A ->
  runs PagedCachedFile.invalidate_cache_all c (fun c' _ => coherent part G c' A /\ shrinks c c' /\ rmass part c' = 0) E.
Proof using.
  intros Hcc. unfold PagedCachedFile.invalidate_cache_all. apply runs_gets. unfold vlen. rewrite (co_stripes _ _ _ _ (cc_core _ _ _ _ Hcc)). change (Z.of_nat 131) with 131.
  eapply runs_weaken; [apply (runs_seqZ _ (fun i c' _ => coherent part G c' A /\ shrinks c c' /\ forall j, 0 <= j < i -> exists l, read_cache c' !! Z.to_nat j = Some l /\ held l = ∅) E 131 0); [lia| |]| |done].
  - split; [done|]. split; [apply shrinks_refl|]. lia.
  - intros i c1 [] Hi (Hcc1 & Hs1 & Hlow). destruct (stripe_at _ _ _ _ i (cc_core _ _ _ _ Hcc1) ltac:(lia)) as [l Hl]. eapply runs_det; [exact (stripe_size_eq c1 i l ltac:(lia) Hl)|].
    eapply runs_weaken; [apply (drain_stripe_runs part G A i E ltac:(lia) _ c1 l Hcc1 Hl); rewrite held_size; lia| |done]. intros c2 _ (K1 & K2 & K3). split; [done|]. split; [by eapply shrinks_trans|].
    intros j Hj. destruct (decide (j = i)) as [->|]; [done|]. destruct (Hlow j ltac:(lia)) as (l0 & Hl0 & He). by eapply shrinks_empty.
  - intros c' _ (K1 & K2 & K3). split; [done|]. split; [done|]. apply all_empty. intros i l Hl. pose proof (lookup_lt_Some _ _ _ Hl) as Hi. rewrite (co_stripes _ _ _ _ (cc_core _ _ _ _ K1)) in Hi.
    destruct (K3 (Z.of_nat i) ltac:(lia)) as (l' & Hl' & He). rewrite Nat2Z.id in Hl'. congruence.
Qed.

(** Pages that are not in the caches come and go. *)
Lemma coherent_repartition part part' G c A : coherent part G c A -> part_ok part' (page_size c) (vlen A) ->
  (forall o, is_Some (buffered c !! o) \/ ~ uncached o c -> part' !! o = part !! o) -> coherent part' G c A /\ rmass part' c = rmass part c /\ wmass part' c = wmass part c.
Proof using.
  intros [Hc Hr Hw] Hp Hsame. assert (Hcached : forall i l o d, read_cache c !! i = Some l -> held l !! o = Some d -> part' !! o = part !! o).
  { intros i l o d Hl Ho. apply Hsame. right. intros Hu. by rewrite (Hu i l Hl) in Ho. }
  assert (Hbuf : forall o, is_Some (buffered c !! o) -> part' !! o = part !! o) by (intros o Ho; apply Hsame; by left).
  assert (Hplen : forall X, (forall o, o ∈ X -> part' !! o = part !! o) -> mass part' X = mass part X).
  { intros X HX. unfold mass. f_equal. apply list_fmap_ext. intros i o Ho%list_elem_of_lookup_2%elem_of_elements. unfold plen. by rewrite HX. }
  assert (M1 : rmass part' c = rmass part c).
  { unfold rmass. f_equal. apply list_fmap_ext. intros i l Hl. apply Hplen. intros o [d Ho]%elem_of_dom. by eapply Hcached. }
  assert (M2 : wmass part' c = wmass part c) by (apply Hplen; intros o Ho%elem_of_dom; by apply Hbuf).
  split; [|done]. split; [|by rewrite M1|by rewrite M2]. destruct Hc as [C1 C2 C3 C4 C5 C6 C7 C8 C9 C10 C11 C12 C13 C14]. split; try done.
  - intros i l o d Hl Ho. rewrite (Hcached i l o d Hl Ho). by apply (C9 i l).
  - intros o d Ho. rewrite Hbuf by (by eexists). by apply C11.
  - intros o HG. rewrite Hbuf by (apply C12 in HG; by eexists). by apply C13.
  - intros i Hi. apply C14. intros o k Ho Hk. apply Hi; [done|]. by rewrite Hbuf.
Qed.
Section flush.
  Context (iter : forall A, gmap Z A -> list (Z * A)) (iter_perm : forall A (m : gmap Z A), iter A m ≡ₚ map_to_list m).

Lemma iter_nodup {V} (m : gmap Z V) : NoDup (iter V m).*1.
Proof using iter_perm. rewrite iter_perm. apply NoDup_fst_map_to_list. Qed.
Lemma iter_map {V} (m : gmap Z V) : list_to_map (iter V m) = m.
Proof using iter_perm. rewrite <-(list_to_map_to_list m) at 2. apply list_to_map_proper; [apply iter_nodup|apply iter_perm]. Qed.
Lemma flush_write_buffer_runs part c A : coherent part ∅ c A ->
  runs (PagedCachedFile.flush_write_buffer iter) c (fun c' _ => coherent part ∅ c' A /\ disk c' = A /\ buffered c' = ∅ /\ same c c' /\ (within part c -> within part c')) broken.
Proof using iter_perm.
  intros [Hc Hr Hw]. unfold PagedCachedFile.flush_write_buffer. apply runs_gets. set (entries := iter _ (buffered c)). pose proof (iter_nodup (buffered c)) as Hnd. fold entries in Hnd.
  assert (Hh : held (holding entries) = buffered c) by (rewrite holding_held; apply iter_map). pose proof (core_buffer _ _ _ _ _ Hc Hh (holding_ok _)) as Hc0.
  eapply runs_bind; [by apply (write_all_runs part A)|]. intros c1 [] (Hc1 & b & ->). assert (Hcc1 : coherent part ∅ (unbuffered (on_disk c b)) A).
  { split; [by destruct Hc1; split|done|]. symmetry. unfold wmass. cbn -[held]. rewrite (proj1 (@new_held (option (list Z)))), dom_empty_L. apply mass_empty. }
  assert (Hent : forall o x, (o, x) ∈ entries -> exists d, x = Some d /\ part !! o = Some (vlen d) /\ d = sub A o (vlen d)).
  { intros o x Hx. unfold entries in Hx. rewrite iter_perm in Hx. apply elem_of_map_to_list in Hx. destruct x as [d|]; [|by apply (co_borrowed _ _ _ _ Hc) in Hx]. exists d. split; [done|]. by apply (co_dirty _ _ _ _ Hc). }
  eapply runs_bind; [by apply (transfer_runs part A entries)|]. intros c2 [] (K1 & K2 & K3). pose proof (cc_core _ _ _ _ K1) as Hc2.
  eapply runs_det; [done|]. exists (unbuffered c2), (Okay tt). split; [done|]. split; [done|]. split; [exact (unbuffered_disk _ _ _ _ Hc2)|]. split; [apply (@new_held (option (list Z)))|]. split; [destruct K2; by split|].
  intros Hwi. pose proof (wmass_bound _ _ _ _ Hc). assert (K3' : rmass part c <= max_cache_size c -> rmass part c2 <= max_cache_size c) by exact K3. unfold within in *.
  rewrite <-(cc_write _ _ _ _ K1). change (rmass part c2 + 0 <= max_cache_size c2). rewrite (sm_max _ _ K2). change (max_cache_size (on_disk c b)) with (max_cache_size c). lia.
Qed.

Lemma invalidate_above_runs part G c A n E : coherent part G c A ->
  runs (PagedCachedFile.invalidate_read_cache_above iter n) c (fun c' _ => coherent part G c' A /\ shrinks c c' /\ rmass part c' <= rmass part c /\ forall o, n <= o -> uncached o c') E.
Proof using iter_perm.
  intros Hcc. unfold PagedCachedFile.invalidate_read_cache_above. apply runs_gets. unfold vlen. rewrite (co_stripes _ _ _ _ (cc_core _ _ _ _ Hcc)). change (Z.of_nat 131) with 131.
  eapply runs_weaken; [apply (runs_seqZ _ (fun i c' _ => coherent part G c' A /\ shrinks c c' /\ rmass part c' <= rmass part c /\ forall j l o, (Z.of_nat j < i) -> n <= o -> read_cache c' !! j = Some l -> held l !! o = None) E 131 0); [lia| |]| |done].
  - split; [done|]. split; [apply shrinks_refl|]. split; [lia|]. intros. lia.
  - intros i c1 [] Hi (Hcc1 & Hs1 & Hm1 & Hlow). destruct (stripe_at _ _ _ _ i (cc_core _ _ _ _ Hcc1) ltac:(lia)) as [l Hl].
    set (c2 := with_stripe c1 (Z.to_nat i) l (read_cache_bytes c1)). assert (E2 : c2 = c1) by (unfold c2, with_stripe; rewrite list_insert_id by done; by destruct c1).
    eapply (runs_det _ _ _ c2); [apply (on_stripe_eq c1 i l l); [lia|apply (co_stripes _ _ _ _ (cc_core _ _ _ _ Hcc1))|done|done]|]. rewrite E2.
    eapply runs_weaken; [apply (remove_keys_runs part G A i E ltac:(lia)), Hcc1| |done]. intros c3 _ (K1 & K2 & K3 & K4). split; [done|]. split; [by eapply shrinks_trans|]. split; [lia|].
    intros j l' o Hj Ho Hl'. destruct (sk_stripe _ _ K2 _ _ Hl') as (l0 & Hl0 & Hsub & _). destruct (decide (Z.of_nat j < i)) as [Hlt|Hge]; [eapply lookup_weaken_None; [by eapply Hlow|done]|].
    assert (j = Z.to_nat i) as -> by lia. rewrite Hl in Hl0. injection Hl0 as <-. destruct (held l !! o) as [d|] eqn:Eo; [|by eapply lookup_weaken_None].
    apply (K4 o l'); [|done]. apply list_elem_of_filter. split; [done|]. rewrite iter_perm. apply list_elem_of_fmap. exists (o, d). split; [done|]. by apply elem_of_map_to_list.
  - intros c' _ (K1 & K2 & K3 & K4). split; [done|]. split; [done|]. split; [done|]. intros o Ho i l Hl. apply (K4 i l o); [|done..]. apply lookup_lt_Some in Hl. rewrite (co_stripes _ _ _ _ (cc_core _ _ _ _ K1)) in Hl. lia.
Qed.

(** The length of the file is set: pages above it are given up. *)
Record resizable (part : partition) c (n : Z) : Prop := {
  rz_range : 0 <= n < 2 ^ 63;
  rz_fits o k : part !! o = Some k -> o < n -> o + k <= n;
  rz_buffer o : is_Some (buffered c !! o) -> o < n }.
Lemma below_masses part c n : (forall o, n <= o -> uncached o c /\ buffered c !! o = None) -> rmass (below n part) c = rmass part c /\ wmass (below n part) c = wmass part c.
Proof using.
  intros Hab. split.
  - unfold rmass. f_equal. apply list_fmap_ext. intros i l Hl. apply below_mass. intros o [d Ho]%elem_of_dom. destruct (decide (o < n)) as [|Hge]; [done|]. by rewrite (proj1 (Hab o ltac:(lia)) i l Hl) in Ho.
  - apply below_mass. intros o [d Ho]%elem_of_dom. destruct (decide (o < n)) as [|Hge]; [done|]. by rewrite (proj2 (Hab o ltac:(lia))) in Ho.
Qed.
Lemma resize_runs part G c A n : coherent part G c A -> resizable part c n ->
  runs (PagedCachedFile.resize iter n) c (fun c' _ => coherent (below n part) G c' (resized n A) /\ same c c' /\ buffered c' = buffered c /\
    (within part c -> within (below n part) c') /\ wmass (below n part) c' = wmass part c) broken.
Proof using iter_perm.
  intros Hcc [Hn Hfit Hbuf]. pose proof (cc_core _ _ _ _ Hcc) as Hc. unfold PagedCachedFile.resize. eapply runs_bind.
  { apply (file_runs backend_len c (fun b len => content b = disk c /\ len = vlen (disk c))); [apply Hc|]. destruct (law_backend_len _ (co_backend _ _ _ _ Hc)) as (b & r & E & H1 & H2 & H3). exists b, r. split; [done|]. split; [done|]. by destruct r. }
  intros c1 old (b & -> & Hb & Hcont & ->). pose proof (core_disk _ _ _ _ _ Hc Hb Hcont) as Hc1. set (c1 := on_disk c b) in *. assert (Hcc1 : coherent part G c1 A) by (split; [done|apply Hcc..]).
  assert (Hno : forall o, n <= o -> buffered c !! o = None) by (intros o Ho; destruct (buffered c !! o) as [x|] eqn:Eo; [|done]; specialize (Hbuf o ltac:(by eexists)); lia).
  eapply runs_bind with (Q1 := fun c' _ => coherent part G c' A /\ shrinks c1 c' /\ rmass part c' <= rmass part c1 /\ forall o, n <= o -> uncached o c').
  - destruct (Z.ltb_spec n (vlen (disk c))); [by apply invalidate_above_runs|]. apply runs_ret. split; [done|]. split; [apply shrinks_refl|]. split; [lia|]. intros o Ho i l Hl. destruct (held l !! o) as [d|] eqn:Eo; [|done].
    destruct (co_clean _ _ _ _ Hc i l o d Hl Eo) as (_ & Hp & _). destruct (pt_page _ _ _ (co_part _ _ _ _ Hc) _ _ Hp) as (? & ? & ? & _). pose proof (co_len _ _ _ _ Hc). lia.
  - intros c2 _ ([Hc2 Hr2 Hw2] & Hs & Hm & Hu). assert (Hab : forall o, n <= o -> uncached o c2 /\ buffered c2 !! o = None) by (intros o Ho; split; [by apply Hu|rewrite (sk_buffer _ _ Hs); by apply Hno]).
    assert (Hd : disk c2 = disk c) by (unfold disk; rewrite (sk_file _ _ Hs); exact Hcont). destruct (below_masses part c2 n Hab) as [M1 M2]. pose proof (shrinks_wmass part _ _ Hs) as Hw.
    eapply runs_weaken; [apply (file_runs (backend_set_len n) c2 (fun b _ => content b = resized n (disk c2))); [apply Hc2|]| |done].
    + destruct (law_backend_set_len _ n (co_backend _ _ _ _ Hc2) Hn) as (b2 & r & E & H1 & H2). exists b2, r. split; [done|]. split; [done|]. by destruct r.
    + intros c3 _ (b2 & -> & Hb2 & Hcont2). pose proof (core_resized part G c2 A n b2 Hc2 ltac:(lia) Hfit Hab Hb2 Hcont2) as Hc3. split; [split; [done|by rewrite <-M1 in Hr2|by rewrite <-M2 in Hw2]|].
      split; [split; cbn; [by rewrite (sk_max _ _ Hs)|by rewrite (sk_page_size _ _ Hs)]|]. split; [cbn; by rewrite (sk_buffer _ _ Hs)|]. unfold within. change (rmass (below n part) (on_disk c2 b2)) with (rmass (below n part) c2).
      change (wmass (below n part) (on_disk c2 b2)) with (wmass (below n part) c2). change (max_cache_size (on_disk c2 b2)) with (max_cache_size c2). rewrite M1, M2, Hw, (sk_max _ _ Hs). change (max_cache_size c1) with (max_cache_size c).
      change (rmass part c1) with (rmass part c) in Hm. change (wmass part c1) with (wmass part c). split; [lia|done].
Qed.
Lemma flush_runs part c A : coherent part ∅ c A ->
  runs (PagedCachedFile.flush iter) c (fun c' _ => coherent part ∅ c' A /\ disk c' = A /\ buffered c' = ∅ /\ same c c' /\ (within part c -> within part c')) broken.
Proof using iter_perm.
  intros Hcc. unfold PagedCachedFile.flush. eapply runs_bind; [by apply (flush_write_buffer_runs part c A)|]. intros c1 _ ([Hc Hr Hw] & Hd & Hb & Hs & Hwi).
  eapply runs_weaken; [apply (file_runs backend_sync_data c1 (fun b _ => content b = disk c1)); [apply Hc|]| |done].
  - destruct (law_backend_sync _ (co_backend _ _ _ _ Hc)) as (b & r & E & H1 & H2 & H3). exists b, r. split; [done|]. split; [done|]. by destruct r.
  - intros c2 _ (b & -> & Hbo & Hcont). pose proof (core_disk _ _ _ _ _ Hc Hbo Hcont) as Hc2. split; [by split|]. split; [unfold disk; cbn; by rewrite Hcont|]. split; [done|]. split; [destruct Hs; by split|done].
Qed.
End flush.
End coherence.
