(* ===== verification/CacheTheorems.v ===== *)
(** The file with its caches (src/src/tree_store/page_store/cached_file.rs) against an
    array of bytes: sessions of requests, and the memory that the caches use. *)
From S2P Require Import Prelude Buddy Pages PageStore Lru CachedFile Coherence.

Import PagedCachedFile (page_size, read_cache_bytes, write_buffer_bytes, max_cache_size, write_buffer).

(** * Sessions *)

(** What the page manager asks of the file.  A page that is freed leaves the caches, and its bytes are lost. *)
Inductive cache_request :=
  | ReadPage (offset len : Z) (hint : PageHint)
  | UpdatePage (offset len : Z) (overwrite : bool) (change : list Z -> list Z)
  | FreePage (offset len : Z)
  | AllocatePage (offset len : Z)
  | Resize (len : Z)
  | Flush
  | WriteBarrier
  | InvalidateAll.

Section serve.
  Context {B : Type} `{BL : BackendLaws B} (iter : forall A, gmap Z A -> list (Z * A)).

(** The bytes that a request shows: of a page, or of the file after a flush *)
Definition serve_cache (r : cache_request) : M (PagedCachedFile.t B) (list Z) :=
  match r with
  | ReadPage o n hint => PagedCachedFile.read o n hint
  | UpdatePage o n overwrite change =>
      p ← PagedCachedFile.write o n overwrite;
      _ ← PagedCachedFile.drop_page (WritablePage.mem_mut p change);
      mret (WritablePage.mem p)
  | FreePage o n => _ ← PagedCachedFile.invalidate_cache o n; _ ← PagedCachedFile.cancel_pending_write o; mret []
  | AllocatePage _ _ => mret []
  | Resize n => _ ← PagedCachedFile.resize iter n; mret []
  | Flush => _ ← PagedCachedFile.flush iter; gets disk
  | WriteBarrier => _ ← PagedCachedFile.write_barrier iter; gets disk
  | InvalidateAll => _ ← PagedCachedFile.invalidate_cache_all; mret []
  end.
Fixpoint serve_cache_all (rs : list cache_request) : M (PagedCachedFile.t B) (list (list Z)) :=
  match rs with [] => mret [] | r :: rs => a ← serve_cache r; l ← serve_cache_all rs; mret (a :: l) end.

End serve.

(** * The array *)

(** An array of bytes with its pages; [dirty] pages may have been changed since the last flush *)
Record byte_array := { pages : partition; bytes : list Z; dirty : gset Z }.

(** What may be asked *)
Definition asked_well (page_size : Z) (a : byte_array) (r : cache_request) : Prop :=
  match r with
  | ReadPage o n hint => pages a !! o = Some n /\ (hint = Clean -> o ∉ dirty a)
  | UpdatePage o n _ change => pages a !! o = Some n /\ forall d, vlen d = n -> vlen (change d) = n
  | FreePage o n => pages a !! o = Some n
  | AllocatePage o n => pages a !! o = None /\ part_ok (<[o := n]> (pages a)) page_size (vlen (bytes a))
  | Resize n => 0 <= n < 2 ^ 63 /\ (forall o k, pages a !! o = Some k -> o < n -> o + k <= n) /\ forall o, o ∈ dirty a -> o < n
  | Flush | WriteBarrier | InvalidateAll => True
  end.
(** What a request shows, and the array after it.  An overwritten page may show zeros. *)
Definition array_step (a : byte_array) (r : cache_request) (shown : list Z) (a' : byte_array) : Prop :=
  match r with
  | ReadPage o n _ => shown = sub (bytes a) o n /\ a' = a
  | UpdatePage o n overwrite change =>
      (shown = sub (bytes a) o n \/ overwrite = true /\ shown = replicate (Z.to_nat n) 0) /\
      a' = {| pages := pages a; bytes := upd (bytes a) o (change shown); dirty := {[o]} ∪ dirty a |}
  | FreePage o n => exists A, differ_at o n (bytes a) A /\ a' = {| pages := delete o (pages a); bytes := A; dirty := dirty a ∖ {[o]} |}
  | AllocatePage o n => a' = {| pages := <[o := n]> (pages a); bytes := bytes a; dirty := dirty a |}
  | Resize n => a' = {| pages := below n (pages a); bytes := resized n (bytes a); dirty := dirty a |}
  | Flush | WriteBarrier => shown = bytes a /\ a' = {| pages := pages a; bytes := bytes a; dirty := ∅ |}
  | InvalidateAll => a' = a
  end.
(** Requests one after the other *)
Fixpoint all_asked_well (page_size : Z) (a : byte_array) (rs : list cache_request) : Prop :=
  match rs with
  | [] => True
  | r :: rs => asked_well page_size a r /\ forall shown a', array_step a r shown a' -> all_asked_well page_size a' rs
  end.
Inductive array_steps : byte_array -> list cache_request -> list (list Z) -> byte_array -> Prop :=
  | no_steps a : array_steps a [] [] a
  | more_steps a r shown a1 rs l a2 : array_step a r shown a1 -> array_steps a1 rs l a2 -> array_steps a (r :: rs) (shown :: l) a2.

(** * Refinement *)

Section session.
  Context {B : Type} `{BL : BackendLaws B} (iter : forall A, gmap Z A -> list (Z * A)).
  Implicit Types c : PagedCachedFile.t B.
  Notation buffered c := (held (write_buffer c)).

(** No page is borrowed between requests. *)
Record shows_array c (a : byte_array) : Prop := {
  sa_coherent : coherent (pages a) ∅ c (bytes a);
  sa_dirty : dom (buffered c) ⊆ dirty a }.
(** The memory of the caches: the write buffer takes half of it at most. *)
Definition frugal part c : Prop := within part c /\ wmass part c <= max_cache_size c / 2.
Definition modest (half : Z) (r : cache_request) : Prop := match r with UpdatePage _ n _ _ => n <= half | _ => True end.

(** What one request does *)
Definition served (a : byte_array) (r : cache_request) c : PagedCachedFile.t B -> list Z -> Prop := fun c' shown =>
  exists a', array_step a r shown a' /\ shows_array c' a' /\ same c c' /\ (frugal (pages a) c -> modest (max_cache_size c / 2) r -> frugal (pages a') c').

Lemma frugal_shrinks part c c' : shrinks c c' -> rmass part c' <= rmass part c -> frugal part c -> frugal part c'.
Proof using. intros Hs Hm. unfold frugal, within. rewrite (shrinks_wmass part _ _ Hs), (sk_max _ _ Hs). lia. Qed.
Lemma serve_read a c o n hint : shows_array c a -> asked_well (page_size c) a (ReadPage o n hint) ->
  runs (serve_cache iter (ReadPage o n hint)) c (served a (ReadPage o n hint) c) broken.
Proof using.
  intros [Hcc Hd] [Hp Hh]. eapply runs_weaken; [apply (cached_read_runs (pages a) ∅ c (bytes a) o n hint Hcc Hp); [set_solver|]| |done].
  - intros Hcl. apply not_elem_of_dom. specialize (Hh Hcl). set_solver.
  - intros c' d (K1 & -> & K3 & K4 & K5). exists a. split; [done|]. split; [split; [done|by rewrite K3]|]. split; [done|]. intros [F1 F2] _. split; [auto|]. rewrite (sm_max _ _ K4). unfold wmass. by rewrite K3.
Qed.
Lemma serve_update a c o n overwrite change : shows_array c a -> asked_well (page_size c) a (UpdatePage o n overwrite change) ->
  runs (serve_cache iter (UpdatePage o n overwrite change)) c (served a (UpdatePage o n overwrite change) c) broken.
Proof using.
  intros [Hcc Hd] [Hp Hch]. cbn [serve_cache]. eapply runs_bind; [apply (write_runs (pages a) ∅ c (bytes a) o n overwrite Hcc Hp); set_solver|]. intros c1 [o1 d1] [B1 B2 B3 B4 B5 B6 B7]. cbn in B3, B4, B5. subst o1.
  eapply runs_bind; [apply (drop_page_runs (pages a) ({[o]} ∪ ∅) c1 (bytes a) (WritablePage.mem_mut (WritablePage.mk o d1) change) _ B1); cbn; [rewrite Hch by done; done|set_solver]|].
  cbn. intros c2 _ (K1 & K2 & K3 & K4 & K5). apply runs_ret. eexists. split; [split; [exact B5|reflexivity]|]. split; [split; cbn [pages bytes dirty]|].
  - by replace (({[o]} ∪ ∅) ∖ {[o]} : gset Z) with (∅ : gset Z) in K1 by set_solver.
  - rewrite K3. set_solver.
  - split; [by eapply same_trans|]. intros [F1 F2] Hn. destruct (B7 eq_refl Hn F1 F2) as [G1 G2]. unfold frugal, within in *. cbn [pages]. rewrite K4, K5, (sm_max _ _ K2). split; [done|]. by rewrite (sm_max _ _ B2).
Qed.
Lemma serve_free a c o n : shows_array c a -> asked_well (page_size c) a (FreePage o n) ->
  runs (serve_cache iter (FreePage o n)) c (served a (FreePage o n) c) broken.
Proof using.
  intros [Hcc Hd] Hp. cbn in Hp. cbn [serve_cache].
  eapply runs_bind with (Q1 := fun c1 _ => coherent (pages a) ∅ c1 (bytes a) /\ shrinks c c1 /\ uncached o c1 /\ rmass (pages a) c1 <= rmass (pages a) c).
  { unfold PagedCachedFile.invalidate_cache. eapply runs_bind; [by apply (remove_cached_runs (pages a) ∅ c (bytes a) o n)|]. intros c1 x (H1 & H2 & H3 & H4 & _). by apply runs_ret. }
  intros c1 [] (Hcc1 & Hs1 & Hu1 & Hm1). eapply runs_bind; [apply (cancel_runs (pages a) ∅ c1 (bytes a) o n _ Hcc1 Hp); set_solver|].
  intros c2 [] ((A & Hcc2 & Hdf) & K2 & K3 & K4 & K5). apply runs_ret. pose proof (cc_core _ _ _ _ Hcc2) as Hc2. pose proof (co_part _ _ _ _ Hc2) as Hpt.
  destruct (coherent_repartition (pages a) (delete o (pages a)) ∅ c2 A Hcc2) as (Hcc3 & M1 & M2).
  - split.
    + intros o' k [_ Hk]%lookup_delete_Some. by apply (pt_page _ _ _ Hpt).
    + intros o1 o2 k1 k2 Hne [_ H1]%lookup_delete_Some [_ H2]%lookup_delete_Some. by apply (pt_disjoint _ _ _ Hpt).
    + rewrite dom_delete_L. eapply Z.le_lt_trans; [|apply (pt_total _ _ _ Hpt)]. etrans; [|apply (mass_sub (pages a)); [by eapply part_plen|apply subseteq_difference_l; reflexivity]].
      unfold mass. apply Z.eq_le_incl. f_equal. apply list_fmap_ext. intros i o' Ho'%list_elem_of_lookup_2%elem_of_elements. unfold plen. rewrite lookup_delete_ne; [done|set_solver].
  - intros o' Ho'. apply lookup_delete_ne. intros <-. destruct Ho' as [Ho'|Hn]; [rewrite K2, lookup_delete_eq in Ho'; by destruct Ho'|]. apply Hn. intros i l. rewrite K4. apply Hu1.
  - exists {| pages := delete o (pages a); bytes := A; dirty := dirty a ∖ {[o]} |}. split; [by exists A|]. split; [split; [done|]|].
    + cbn [dirty]. rewrite K2, dom_delete_L, (sk_buffer _ _ Hs1). set_solver.
    + split; [eapply same_trans; [by apply same_shrinks|done]|]. intros F _. apply (frugal_shrinks _ _ _ Hs1 Hm1) in F. unfold frugal, within in *. cbn [pages]. rewrite M1, M2, (sm_max _ _ K3).
      replace (rmass (pages a) c2) with (rmass (pages a) c1) by (unfold rmass; by rewrite K4). lia.
Qed.
Lemma serve_allocate a c o n : shows_array c a -> asked_well (page_size c) a (AllocatePage o n) ->
  runs (serve_cache iter (AllocatePage o n)) c (served a (AllocatePage o n) c) broken.
Proof using.
  intros [Hcc Hd] [Hno Hpt]. pose proof (cc_core _ _ _ _ Hcc) as Hc. apply runs_ret. destruct (coherent_repartition (pages a) (<[o := n]> (pages a)) ∅ c (bytes a) Hcc Hpt) as (K1 & M1 & M2).
  - intros o' Ho'. apply lookup_insert_ne. intros <-. destruct Ho' as [Ho'|Hn]; [apply (known_part _ _ _ _ _ Hc) in Ho'; rewrite Hno in Ho'; by destruct Ho'|].
    apply Hn. intros i l Hl. destruct (held l !! o) as [d|] eqn:Eo; [|done]. destruct (co_clean _ _ _ _ Hc i l o d Hl Eo) as (_ & Hp & _). congruence.
  - eexists. split; [reflexivity|]. split; [by split|]. split; [done|]. unfold frugal, within. cbn [pages]. rewrite M1, M2. done.
Qed.
Lemma serve_invalidate a c : shows_array c a -> runs (serve_cache iter InvalidateAll) c (served a InvalidateAll c) broken.
Proof using.
  intros [Hcc Hd]. cbn [serve_cache]. eapply runs_bind; [by apply (invalidate_all_runs (pages a) ∅ c (bytes a))|]. intros c1 [] (K1 & K2 & K3). apply runs_ret. exists a. split; [done|].
  split; [split; [done|by rewrite (sk_buffer _ _ K2)]|]. split; [by apply same_shrinks|]. intros F _. apply (frugal_shrinks _ c); [done| |done]. rewrite K3. apply (rmass_bound _ _ _ _ (cc_core _ _ _ _ Hcc)).
Qed.

Context (iter_perm : forall A (m : gmap Z A), iter A m ≡ₚ map_to_list m).
Lemma serve_resize a c n : shows_array c a -> asked_well (page_size c) a (Resize n) -> runs (serve_cache iter (Resize n)) c (served a (Resize n) c) broken.
Proof using iter_perm.
  intros [Hcc Hd] (Hn & Hfit & Hlow). cbn [serve_cache]. eapply runs_bind; [apply (resize_runs iter iter_perm (pages a) ∅ c (bytes a) n Hcc)|].
  - split; [done|done|]. intros o Ho. apply Hlow, Hd. by apply elem_of_dom.
  - intros c1 [] (K1 & K2 & K3 & K4 & K5). apply runs_ret. eexists. split; [reflexivity|]. split; [split; [done|by rewrite K3]|]. split; [done|]. intros [F1 F2] _. split; [auto|]. cbn [pages]. by rewrite K5, (sm_max _ _ K2).
Qed.
(** After a flush or a write barrier the file has the bytes of the array. *)
Lemma flushed_served a c c1 r : r = Flush \/ r = WriteBarrier -> coherent (pages a) ∅ c1 (bytes a) /\ disk c1 = bytes a /\ buffered c1 = ∅ /\ same c c1 /\ (within (pages a) c -> within (pages a) c1) ->
  max_cache_size c >= 0 -> served a r c c1 (disk c1).
Proof using.
  intros Hr (K1 & K2 & K3 & K4 & K5) Hmax. exists {| pages := pages a; bytes := bytes a; dirty := ∅ |}. split; [by destruct Hr as [-> | ->]|]. split; [split; [done|]; by rewrite K3, dom_empty_L|].
  split; [done|]. intros [F1 F2] _. split; [auto|]. cbn [pages]. unfold wmass. rewrite K3, dom_empty_L, mass_empty, (sm_max _ _ K4). apply Z.div_pos; lia.
Qed.
Lemma serve_flush a c : shows_array c a -> runs (serve_cache iter Flush) c (served a Flush c) broken.
Proof using iter_perm.
  intros [Hcc Hd]. cbn [serve_cache]. eapply runs_bind; [by apply (flush_runs iter iter_perm (pages a) c (bytes a))|]. intros c1 [] K. eexists _, (Okay _). split; [reflexivity|].
  apply flushed_served; [by left|exact K|]. pose proof (co_max _ _ _ _ (cc_core _ _ _ _ Hcc)). lia.
Qed.
Lemma serve_barrier a c : shows_array c a -> runs (serve_cache iter WriteBarrier) c (served a WriteBarrier c) broken.
Proof using iter_perm.
  intros [Hcc Hd]. cbn [serve_cache]. eapply runs_bind; [by apply (flush_write_buffer_runs iter iter_perm (pages a) c (bytes a))|]. intros c1 [] K. eexists _, (Okay _). split; [reflexivity|].
  apply flushed_served; [by right|exact K|]. pose proof (co_max _ _ _ _ (cc_core _ _ _ _ Hcc)). lia.
Qed.
Lemma serve_one a c r : shows_array c a -> asked_well (page_size c) a r -> runs (serve_cache iter r) c (served a r c) broken.
Proof using iter_perm. destruct r; intros; [by apply serve_read|by apply serve_update|by apply serve_free|by apply serve_allocate|by apply serve_resize|by apply serve_flush|by apply serve_barrier|by apply serve_invalidate]. Qed.

Lemma serve_session rs : forall a c, shows_array c a -> all_asked_well (page_size c) a rs ->
  runs (serve_cache_all iter rs) c (fun c' l => exists a', array_steps a rs l a' /\ shows_array c' a' /\ same c c' /\
    (frugal (pages a) c -> Forall (modest (max_cache_size c / 2)) rs -> frugal (pages a') c')) broken.
Proof using iter_perm.
  induction rs as [|r rs IH]; intros a c Hs Hw; cbn [serve_cache_all].
  - apply runs_ret. exists a. split; [constructor|done].
  - destruct Hw as [Hr Hw]. eapply runs_bind; [by apply serve_one|]. intros c1 shown (a1 & K1 & K2 & K3 & K4). eapply runs_bind; [apply (IH a1 c1 K2); rewrite (sm_page_size _ _ K3); by eapply Hw|].
    intros c2 l (a2 & L1 & L2 & L3 & L4). apply runs_ret. exists a2. split; [by econstructor|]. split; [done|]. split; [by eapply same_trans|]. intros F [Fr Frs]%Forall_cons. apply L4; [auto|]. by rewrite (sm_max _ _ K3).
Qed.

(** A new file with empty caches *)
Definition array_of (part : partition) (b : B) : byte_array := {| pages := part; bytes := content b; dirty := ∅ |}.
Lemma new_shows part b ps max : backend_ok b -> 0 < ps -> 0 <= max < 2 ^ 62 -> part_ok part ps (vlen (content b)) ->
  shows_array (PagedCachedFile.new b ps max) (array_of part b) /\ frugal part (PagedCachedFile.new b ps max).
Proof using.
  intros Hb Hps Hmax Hpt. set (c := PagedCachedFile.new b ps max). assert (Hn : forall i l, PagedCachedFile.read_cache c !! i = Some l -> l = LRUCache.new) by (intros i l Hl; by apply lookup_replicate in Hl as [-> _]).
  assert (Hh : buffered c = ∅) by apply (@new_held (option (list Z))). assert (Hr : rmass part c = 0) by (apply all_empty; intros i l Hl; rewrite (Hn i l Hl); apply new_held).
  assert (Hw : wmass part c = 0) by (unfold wmass; rewrite Hh, dom_empty_L; apply mass_empty). split.
  - split; [|by rewrite Hh, dom_empty_L]. split; [|by symmetry..]. split; rewrite ?Hh; try done.
    + intros i l Hl. rewrite (Hn i l Hl). apply new_held.
    + intros i l o d Hl. rewrite (Hn i l Hl), (proj1 new_held). done.
  - unfold frugal, within. rewrite Hr, Hw. cbn. split; [lia|]. apply Z.div_pos; lia.
Qed.

(** The bytes of the pages that a cache holds *)
Definition stored (m : gmap Z (list Z)) : Z := sumz ((fun x => vlen x.2) <$> map_to_list m).
Lemma stored_mass part m : (forall o d, m !! o = Some d -> part !! o = Some (vlen d)) -> stored m = mass part (dom m).
Proof using.
  intros Hm. unfold mass. assert (Hp : elements (dom m) ≡ₚ (map_to_list m).*1).
  { apply NoDup_Permutation; [apply NoDup_elements|apply NoDup_fst_map_to_list|]. intros o. rewrite elem_of_elements, elem_of_dom, list_elem_of_fmap. split.
    - intros [d Hd]. exists (o, d). split; [done|]. by apply elem_of_map_to_list.
    - intros ([o' d] & -> & Hd%elem_of_map_to_list). by exists d. }
  rewrite Hp, <-list_fmap_compose. unfold stored. f_equal. apply list_fmap_ext. intros i [o d] Ho%list_elem_of_lookup_2%elem_of_map_to_list. cbn. symmetry. by apply plen_at, Hm.
Qed.
Lemma stored_caches part c A : coherent part ∅ c A ->
  rmass part c = sumz ((fun l => stored (held l)) <$> PagedCachedFile.read_cache c) /\ wmass part c = stored (omap id (buffered c)).
Proof using.
  intros [Hc _ _]. split.
  - unfold rmass. f_equal. apply list_fmap_ext. intros i l Hl. symmetry. apply stored_mass. intros o d Ho. by apply (co_clean _ _ _ _ Hc i l).
  - unfold wmass. rewrite (stored_mass part).
    + f_equal. apply set_eq. intros o. rewrite !elem_of_dom, lookup_omap. destruct (buffered c !! o) as [[d|]|] eqn:Eo; cbn; [by split; intros _; eexists| |done]. by apply (co_borrowed _ _ _ _ Hc) in Eo.
    + intros o d. rewrite lookup_omap. destruct (buffered c !! o) as [[d'|]|] eqn:Eo; cbn; [|done..]. intros [= <-]. by apply (co_dirty _ _ _ _ Hc).
Qed.

(** C7. The caches are not seen.  A session of well-formed requests on a file with empty
    caches (pages read with or without the hint that they are clean, changed, freed
    and allocated, the file resized, flushed and its caches dropped) panics
    never, whatever the size of the caches and the order in which a hash map is iterated.
    It shows what an array of bytes shows: a read the bytes that were
    written last, an overwritten page these or zeros, and a flush or a write barrier leaves these
    bytes in the file.  It fails only if the backend fails. *)
Theorem cached_file_refines_array rs part b ps max : backend_ok b -> 0 < ps -> 0 <= max < 2 ^ 62 -> part_ok part ps (vlen (content b)) ->
  all_asked_well ps (array_of part b) rs ->
  exists c' r, serve_cache_all iter rs (PagedCachedFile.new b ps max) = Ret (c', r) /\
    match r with
    | Okay l => exists a', array_steps (array_of part b) rs l a'
    | Err _ => backend_fails
    end.
Proof using iter_perm.
  intros Hb Hps Hmax Hpt Hw. destruct (new_shows part b ps max Hb Hps Hmax Hpt) as [Hs _]. destruct (serve_session rs _ _ Hs Hw) as (c' & r & E & Hr). exists c', r. split; [done|].
  destruct r as [l|e]; [|apply Hr]. destruct Hr as (a' & H1 & _). by exists a'.
Qed.

(** C8. The caches keep to their memory.  After a session in which no page that is
    written is larger than half of the cache, the counters are the sizes of what the
    read cache and the write buffer hold, the two fit in the cache together,
    and the write buffer takes half of it at most. *)
Theorem cached_file_within_budget rs part b ps max c' l : backend_ok b -> 0 < ps -> 0 <= max < 2 ^ 62 -> part_ok part ps (vlen (content b)) ->
  all_asked_well ps (array_of part b) rs -> Forall (modest (max / 2)) rs ->
  serve_cache_all iter rs (PagedCachedFile.new b ps max) = Ret (c', Okay l) ->
  read_cache_bytes c' + write_buffer_bytes c' <= max /\ 0 <= write_buffer_bytes c' <= max / 2 /\ 0 <= read_cache_bytes c' /\
  read_cache_bytes c' = sumz ((fun l => stored (held l)) <$> PagedCachedFile.read_cache c') /\ write_buffer_bytes c' = stored (omap id (buffered c')).
Proof using iter_perm.
  intros Hb Hps Hmax Hpt Hw Hmod E. destruct (new_shows part b ps max Hb Hps Hmax Hpt) as [Hs Hf]. destruct (serve_session rs _ _ Hs Hw) as (c1 & r & E1 & Hr). rewrite E in E1. injection E1 as <- <-.
  destruct Hr as (a' & _ & [Hcc _] & Hsame & Hfr). destruct (Hfr Hf Hmod) as [F1 F2]. unfold within in F1. rewrite (sm_max _ _ Hsame) in F1, F2. cbn in F1, F2.
  destruct (stored_caches _ _ _ Hcc) as [M1 M2]. rewrite <-M1, <-M2, (cc_read _ _ _ _ Hcc), (cc_write _ _ _ _ Hcc). pose proof (rmass_bound _ _ _ _ (cc_core _ _ _ _ Hcc)). pose proof (wmass_bound _ _ _ _ (cc_core _ _ _ _ Hcc)).
  split; [done|]. split; [lia|]. by split; [lia|].
Qed.
End session.

(** * A session in memory *)

Definition small_file : InMemoryBackend.t := [1; 2; 3; 4; 5; 6; 7; 8; 9; 10; 11; 12].
Definition small_pages : partition := {[0 := 4; 4 := 4; 8 := 4]}.
(** Two pages are changed, with room for one in the write buffer. *)
Definition small_session : list cache_request :=
  [UpdatePage 0 4 false (map (fun x => x + 1)); UpdatePage 4 4 true (map (fun x => x + 9)); ReadPage 0 4 HintNone; ReadPage 8 4 Clean; Flush; ReadPage 4 4 Clean; FreePage 8 4; Resize 8; InvalidateAll].

Lemma small_pages_ok : part_ok small_pages 4 (vlen (content small_file)).
Proof.
  assert (H : forall o k, small_pages !! o = Some k -> (o = 0 \/ o = 4 \/ o = 8) /\ k = 4).
  { intros o k. unfold small_pages. rewrite !lookup_insert_Some, lookup_singleton_Some. intros [[<- <-]|[_ [[<- <-]|[_ [<- <-]]]]]; lia. }
  split; [intros o k Hk; destruct (H o k Hk) as [[->|[->| ->]] ->]; by vm_compute| |by vm_compute].
  intros o1 o2 k1 k2 Hne H1 H2. destruct (H _ _ H1) as [? ->], (H _ _ H2) as [? ->]. lia.
Qed.
Lemma small_session_ok : all_asked_well 4 (array_of small_pages small_file) small_session.
Proof.
  assert (Hmap : forall (f : Z -> Z) (d : list Z) n, vlen d = n -> vlen (map f d) = n) by (intros f d n; unfold vlen; by rewrite length_map).
  assert (H : forall o k, delete 8 small_pages !! o = Some k -> (o = 0 \/ o = 4) /\ k = 4).
  { intros o k. unfold small_pages. rewrite lookup_delete_Some, !lookup_insert_Some, lookup_singleton_Some. intros [? [[<- <-]|[_ [[<- <-]|[_ [<- <-]]]]]]; lia. }
  cbn [all_asked_well small_session asked_well array_step]. split; [by split; [|intros d; apply Hmap]|]. intros s1 a1 [_ ->]. split; [by split; [|intros d; apply Hmap]|]. intros s2 a2 [_ ->].
  split; [done|]. intros s3 a3 [_ ->]. split; [split; [done|]; intros _; cbn; set_solver|]. intros s4 a4 [_ ->]. split; [done|]. intros s5 a5 [_ ->]. split; [split; [done|]; intros _; cbn; set_solver|]. intros s6 a6 [_ ->].
  split; [done|]. intros s7 a7 (A & _ & ->). cbn [pages dirty]. split; [|done]. split; [lia|]. split; [intros o k Hk; destruct (H o k Hk) as [[-> | ->] ->]; lia|set_solver].
Qed.

Lemma cached_file_refines_array_witness : exists c' l a', serve_cache_all (fun A m => map_to_list m) small_session (PagedCachedFile.new small_file 4 10) = Ret (c', Okay l) /\
  array_steps (array_of small_pages small_file) small_session l a'.
Proof.
  destruct (cached_file_refines_array (fun A m => map_to_list m) (fun A m => reflexivity _) small_session small_pages small_file 4 10) as (c' & r & E & Hr);
    [by vm_compute|lia|lia|apply small_pages_ok|apply small_session_ok|].
  destruct r as [l|e]; [|destruct Hr]. destruct Hr as [a' Ha]. exists c', l, a'. exact (conj E Ha).
Defined.
Lemma cached_file_within_budget_witness : exists c' l, serve_cache_all (fun A m => map_to_list m) small_session (PagedCachedFile.new small_file 4 10) = Ret (c', Okay l) /\
  read_cache_bytes c' + write_buffer_bytes c' <= 10 /\ 0 <= write_buffer_bytes c' <= 5.
Proof.
  assert (Hb : backend_ok small_file) by (by vm_compute). destruct (new_shows small_pages small_file 4 10 Hb) as [Hs _]; [lia|lia|apply small_pages_ok|].
  destruct (serve_session (fun A m => map_to_list m) (fun A m => reflexivity _) small_session _ _ Hs small_session_ok) as (c' & r & E & Hr). destruct r as [l|e]; [|destruct Hr as [[] _]].
  exists c', l. split; [exact E|].
  destruct (cached_file_within_budget (fun A m => map_to_list m) (fun A m => reflexivity _) small_session small_pages small_file 4 10 c' l Hb) as (H1 & H2 & _);
    [lia|lia|apply small_pages_ok|apply small_session_ok|repeat constructor; done|exact E|]. exact (conj H1 H2).
Defined.
